(* ===== verification/_CoqProject ===== *)
-Q . S2P
Prelude.v
JsString.v
JsMap.v
JsSort.v
JsDate.v
Bytes.v
RelayCrypto.v
RelayCodec.v
RelayBatch.v
RelayClient.v
RelayDownstream.v
RelayBody.v
JsValue.v
RelayPayload.v
RelayHandshake.v
RelayDispatcher.v
RelayLeg.v
RelayBroker.v
RelayService.v
QueueItem.v
QueueStore.v
QueueClaims.v
QueueRuntime.v
SchedNext.v
SchedZone.v
SchedClaims.v
SchedTasks.v
SchedLoops.v
SchedLock.v
SchedRun.v
SchedQueue.v
SyncQueues.v
SyncOrder.v
SyncPipeline.v
SyncProjection.v
SyncTranscript.v
SyncReducer.v
SessionOrder.v
AuthLimits.v
AuthHash.v
AuthClients.v
AuthPairing.v
AuthTunnel.v
AuthJwt.v
AuthRequest.v
AuthNative.v
AuthUi.v
AuthGate.v
CallTree.v
GoalPayload.v
GoalState.v
GoalHarness.v
GoalEvidence.v
GoalAudit.v
GoalExchange.v
GoalRuntime.v
GoalLoop.v
GoalWorld.v
GoalLive.v
SessionReceipts.v
PromptText.v
SessionInput.v
SessionSelection.v
SessionDispatch.v
SessionService.v
SessionWorld.v
