(* ===== verification/Prelude.v ===== *)
(** NotNativeAgent: verification library (root file).

    The program is the desktop surface of the agent: a TypeScript web server
    (src/desktop/packages/web/src/server, "server" below) and the user interface it
    serves (src/desktop/packages/ui/src, "ui" below). The server proxies an agent
    harness over HTTP, keeps queues and schedules of prompts, authenticates browsers,
    devices and tunnels, and lets remote devices in through an end-to-end encrypted
    relay. The interface keeps a copy of the harness state that a stream of events
    updates. The library models the state machines of these parts and proves what makes
    them correct; the map from definitions to source lines is in PROJECT.json.

    How a definition reads. A pure function of the code is a function of the same name.
    A stateful component is a record with one function per method; a component whose
    calls wait is an event machine: a state, an inductive type of events (a call, a
    socket or timer callback, a promise that settles, a system call of one of several
    processes) and an executable step, so that theorems range over all runs, in whatever
    order events come. A step is what one callback does up to its next wait. Errors are
    values ([exc], [option] or a sum). Clock readings, random texts and results of file
    writes are arguments. Code that is not in the repository (WebCrypto, Intl, the cron
    parser, scrypt, JSON text) is a parameter or an interface with the laws its
    documentation states, and each law has an instance that satisfies it.

    ** Shared files

    - Prelude: fallible calls, sums and lengths in [Z], list lemmas, safe integers.
    - JsString, JsMap, JsSort, JsDate, JsValue, Bytes: the language's strings,
      insertion-ordered maps, stable sort and binary search, dates, JSON values, buffers.
    - CallTree: asynchronous code as a tree of calls to the outside with a thrown failure
      at any call, and a weakest-precondition logic for such trees over a ghost state.

    ** The relay (server/lib/relay)

    A host keeps a control socket to the relay and one data leg per remote device; a leg
    does a key agreement, then carries encrypted messages, each a batch of tunnel
    frames, which a dispatcher turns into loopback requests and sockets.

    - RelayCrypto (crypto.ts): frame envelope, counters. A run of messages arrives as
      sent; an accepted frame is never accepted again.
    - RelayCodec (tunnel-codec.ts): frames, fragments, assembler. Decoding inverts
      encoding; interleaved fragments reassemble; memory is bounded.
    - RelayBatch (batch.ts), RelayBody (request-body.ts), RelayPayload (the JSON guards).
    - RelayDownstream (downstream.ts): credit scheduler. Every run ends and keeps its
      books; no wakeup is lost; each stream is first in, first out.
    - RelayHandshake (handshake.ts): both machines with derivations in flight. The two
      ends agree; an established responder is never rekeyed.
    - RelayDispatcher (dispatcher.ts, dispatcher-ws.ts, loopback-adapters.ts): a path is
      dialed as the client spelled it and only when its spelling is allowed; dot segments
      in it are not resolved (dot_segments_pass).
    - RelayClient (ui/lib/relay/tunnel-client-outbound.ts, tunnel-codec.ts): the batcher
      of the client, which differs from the host's; its containers open to its frames.
    - RelayLeg (leg-host.ts): the composition of one leg: the client's batcher and seal,
      the wire, the host's end. What a client fragments, batches and seals reaches the
      dispatcher whole and in order; a leg fails once and for all.
    - RelayBroker (host-broker.ts): a leg is reported closed once; a started host always
      has a way back to the relay.
    - RelayService (host-service.ts, host-lock.ts, relay-config.ts): several processes on
      one claim file; the claim decides who hosts, a standby waits out its grace.

    ** The message queue (server/queue)

    - QueueItem (queue-item.ts), QueueStore (queue-store.ts): items, limits, ordering and
      the file. Enqueueing keeps the newest items and whatever is in flight.
    - QueueClaims (queue-dispatch-claims.ts): claim files at the grain of system calls;
      claims exclude as long as no owner dies or stalls.
    - QueueRuntime (queue-runtime*.ts): operations, timers and the dispatch of a head,
      while other processes rewrite the queue file and unlink claim files. One delivery
      at a time of this runtime, under a claim it has taken and not let go; what a user
      asks never moves the message in flight. Across processes a claim excludes as far
      as QueueClaims says, no further.
    - PromptText (queue-expansion.ts; server/goals/goal-distill.ts): command templates,
      invocations, and the fit of an objective.

    ** Scheduled tasks (server/scheduled)

    - SchedTasks (task-schema.ts, task-config.ts), SchedLoops (loops.ts), SchedLock
      (config-lock.ts): the stored tasks, the loop files that own some of them, and the
      lock of the project file. A saved task is loaded and understood; files own their
      tasks; the lock excludes and its acquisition ends.
    - SchedNext (next-run.ts), SchedZone: the next run over the clock of a zone, and its
      equality with the earliest slot in a zone of constant offset.
    - SchedClaims (scheduled-claims.ts), SchedRun (scheduled-occurrence.ts,
      scheduled-settle.ts, calls of scheduled-pipeline.ts): several processes with
      crashes; an occurrence runs at most once.
    - SchedQueue (scheduled-state.ts, scheduled-run.ts, scheduled-runtime.ts): run slots
      are never exceeded, queued runs never stranded.

    ** The sync engine of the interface (ui/sync)

    The pipeline keeps a connection to the event stream and pushes events into queues;
    a flush hands a batch to the reducer, which edits a draft and publishes it.

    - SyncPipeline (event-pipeline.ts, pipeline-attempts.ts): the loop of rounds and both
      transports. Live events wait for the recovery and keep the order of the wire;
      rounds are rate limited; cleaning up ends the loop.
    - SyncQueues (pipeline-queues.ts): a flush hands over the coalesced form of what was
      pushed, slot by slot, against queues that coalesce nothing.
    - SyncOrder (message-ordering.ts, event-equality.ts): ordered lists.
    - SyncProjection (nna-projection.ts, sanitize.ts), SyncTranscript
      (transcript-reducer.ts, reducer-core.ts), SyncReducer (event-reducer.ts,
      blocking-reducer.ts, projection-reducer.ts): lists stay in order, a commit publishes
      what a batch changed, a settled session has a finished turn, live projections never
      go back.
    - SessionOrder (session-ordering.ts): the list is a sorted forest of all sessions.

    ** Session goals (server/goals, and the harness end in src/src/desktop-goal*.js)

    A goal makes a session go on by itself: a tick looks at an idle session, accounts
    its new turns and decides; an exchange lets an auditor judge the last turn and posts
    a continuation. The goal is stored by the harness behind a compare-and-swap.

    - GoalPayload (goal-payload.ts, goal-metadata.ts, goal-constants.ts), GoalState
      (goal-state.ts): the payload survives the record; the transition table, for the
      events that keep a goal readable.
    - GoalHarness (desktop-goal.js, desktop-session-description.js, nna.ts): every goal
      the harness stores is one the desktop reads.
    - GoalEvidence (desktop-goal-evidence.js, nna-goal-evidence.ts): the evidence of the
      harness passes the validation; ticks charge no turn twice and leave none out but
      those of before a restart that no tick had seen.
    - GoalAudit (goal-audit.ts, nna-goal-auditor.ts): the tolerant parser, the prompts,
      the verdict's effect.
    - GoalExchange (nna-goal-safety-tick.ts, nna-goal-auditor.ts, nna-goal-dispatch.ts,
      nna-goal-safety-ports.ts, nna-goal-runtime.ts): the asynchronous programs as call
      trees; GoalLoop: a program logic for them; GoalWorld: any number of them against
      the harness and the user. At most twenty prompts per goal set or resumed; the loop
      never changes what is the user's. GoalLive: the exact posts of an exchange, audited
      or not, over a quiet session.
    - GoalRuntime (nna-goal-runtime.ts): the timers and the fences. A session has one
      tick at a time; once it is busy, its goal is not active, or the gate is closed, what
      was under way stays fenced off and posts nothing but the recovery of a consumed
      slot; no wakeup is lost.

    ** Session orchestration (server/session-orchestration)

    A request creates a session, sends it a prompt, forks it or archives sessions. A
    creation may carry an operation id; its receipt in a ledger shared by all processes
    answers every retry.

    - SessionReceipts (session-operation-store.ts, session-orchestration-contract.ts):
      the ledger and the fingerprints. Eviction takes the oldest settled receipt first.
    - SessionInput (session-orchestration-input.ts): what a body asks for; two creations
      have one payload exactly when they ask for the same.
    - SessionSelection (session-orchestration-selection.ts): model, variant and agent; what
      is chosen is in the inventory.
    - SessionDispatch (session-orchestration-dispatch.ts), SessionService
      (session-orchestration-service.ts): the operations as call trees over their ports;
      a used id is answered from its receipt, an archive accounts for every id.
    - SessionWorld: the creations of any number of processes with retries, lost answers
      and crashes. An operation id creates at most one session, and a settled receipt
      stays.

    ** Authentication (server/lib/auth, routes, app.ts)

    - AuthLimits (rate-limit.ts): the login and redeem windows.
    - AuthHash, AuthClients (remote-clients.ts), AuthPairing (pairing-sessions.ts,
      routes/client-auth.ts), AuthTunnel (tunnel-auth.ts): a token that is accepted was
      issued and lives; a pairing is redeemed at most once while its file is written by
      one process at a time; a tunnel is entered with its newest token.
    - AuthJwt (jwt.ts), AuthRequest (ui-auth-format.ts, url-tokens.ts), AuthNative
      (native-ui-auth.ts, password.ts), AuthUi (ui-auth.ts): a request is let in exactly
      when it presents a good credential.
    - AuthGate (app.ts, routes/auth.ts): the gates compose the tunnel and the interface
      controllers; a visitor of a tunnel needs a tunnel session, a device token, or a URL
      token of either or of a session cookie.

    ** Fuel

    Loops whose recursion is not structural have fuel, and a lemma or the theorem itself
    shows it is enough: the length of the list for trimming loops, queues and forests;
    one round per queued frame plus one for the scheduler's pump; the length of the
    buffer plus one for the frames of a stream (each takes at least two characters); 15
    candidate days and 120 steps back for the next run; 256 lines for the frontmatter of
    a loop file. Two bounds of the code appear in theorems: an acquisition of the lock
    is over after 3002 calls (at most 500 rounds within its ten seconds), and the order
    of live projections needs at most 33 epochs, one over the 32 that are remembered.

    ** Bounds of the models

    - A string is a list of code units below 256, and numbers of the code that are
      integers are unbounded integers; the code tests for safe integers where it does.
    - JSON text and UTF-8 are parameters: a document is the value the parser makes.
      Members of an object keep their order of insertion; the language's reordering of
      members that look like indices is modelled for fingerprints, receipts and the model
      inventory, where it matters, and left out elsewhere.
    - Reducer drafts are values, so the arrays a batch shares with the committed store
      are not visible in them; harness records are taken to have their TypeScript types.
    - Microtasks: what follows a settled promise without another wait belongs to the step
      that settled it. The yields of the stream reader and the promise chain that orders
      the writers of one process (config-lock.ts) are left out.
    - With code units below 256 the script test of an audit note never fires; the text of
      the continuation rules is a parameter.
    - The harness changes and persists a goal in one step under its catalog lock; an
      answer that the next change overtakes counts as lost.
    - The file calls of one callback of the relay service, and the cipher operations of
      one frame chain of a leg, are one step; a failing write of the relay configuration
      is left out. Of the handshake, a derivation and the send that follows it are one step.
    - A redemption of a pairing reads, changes and saves the file in one step: the window
      in which a second process overwrites the first's change (pairing-sessions.ts, header)
      is outside the model.
    - A reservation or settlement of a creation is one step under the file lock (SchedLock);
      the ledger is changed by modelled processes only.

    ** Not modelled

    The React components, stores and styles of the interface; the Electron shell and the
    command line; the harness adapter and the mock harness; HTTP routes that only pass
    requests on; passkeys (WebAuthn library calls); terminals (pseudo-terminal I/O); key
    generation and the real sockets of the relay; environment overrides of limits; the
    agent runtime but for its goal store, and the build scripts, which are JavaScript and
    shell.

    ** What is left of the plan

    The downstream path of a relay leg as one composition of dispatcher, scheduler and
    batcher; the assembly of prompt parts of a queued item; the activity log of the sync
    engine; the pairing payload text; the replay buffer of terminals. *)

From Stdlib Require Export ZArith Lia.
From stdpp Require Export base list option numbers strings pretty sets fin_sets gmap.

(** ** Fallible code: a JS function that may throw *)

(** [exc E A] is the outcome of a call: a returned value or a thrown error. *)
Inductive exc (E A : Type) : Type :=
| Ok (a : A)
| Throw (e : E).
Arguments Ok {E A} a.
Arguments Throw {E A} e.

#[export] Instance Ok_inj {E A} : Inj (=) (=) (@Ok E A).
Proof. by injection 1. Qed.

#[export] Instance exc_ret {E} : MRet (exc E) := fun A a => Ok a.

#[export] Instance exc_bind {E} : MBind (exc E) := fun A B f m =>
  match m with Ok a => f a | Throw e => Throw e end.

#[export] Instance exc_eq_dec {E A} `{EqDecision E, EqDecision A} : EqDecision (exc E A).
Proof. solve_decision. Defined.

Definition exc_ok {E A} (m : exc E A) : bool :=
  match m with Ok _ => true | Throw _ => false end.

(** ** Numbers

    The integers the modelled code computes with are Z; the places where JS
    narrows one ([>>> 0], a safe-integer guard) are written out. *)

Definition u32_mod : Z := 2 ^ 32.

Definition MAX_SAFE_INTEGER : Z := 2 ^ 53 - 1.

Definition is_safe_integer (z : Z) : bool :=
  bool_decide (- MAX_SAFE_INTEGER <= z)%Z && bool_decide (z <= MAX_SAFE_INTEGER)%Z.

(** [Zlen l] is [l.length] as the JS number the code compares with. *)
Definition Zlen {A} (l : list A) : Z := Z.of_nat (length l).

Definition Zsum (l : list Z) : Z := foldr Z.add 0%Z l.

(** ** Automation *)

Create HintDb js discriminated.
Create Rewrite HintDb jsrw.

(** Case analysis on every [decide], [match] and boolean test of the goal. *)
Ltac split_cases :=
  repeat (case_match || case_decide || case_bool_decide); simplify_eq/=.

(** Turns boolean facts of the context into propositions. *)
Ltac bool_facts :=
  repeat match goal with
  | H : _ && _ = true |- _ => apply andb_true_iff in H as [? ?]
  | H : _ || _ = false |- _ => apply orb_false_iff in H as [? ?]
  | H : negb _ = true |- _ => apply negb_true_iff in H
  | H : negb _ = false |- _ => apply negb_false_iff in H
  | H : bool_decide _ = true |- _ => apply bool_decide_eq_true_1 in H
  | H : bool_decide _ = false |- _ => apply bool_decide_eq_false_1 in H
  | H : Z.eqb _ _ = true |- _ => apply Z.eqb_eq in H
  | H : Z.eqb _ _ = false |- _ => apply Z.eqb_neq in H
  | H : Z.leb _ _ = true |- _ => apply Z.leb_le in H
  | H : Z.leb _ _ = false |- _ => apply Z.leb_gt in H
  | H : Z.ltb _ _ = true |- _ => apply Z.ltb_lt in H
  | H : Z.ltb _ _ = false |- _ => apply Z.ltb_ge in H
  | H : Nat.ltb _ _ = true |- _ => apply Nat.ltb_lt in H
  | H : Nat.ltb _ _ = false |- _ => apply Nat.ltb_ge in H
  | H : Nat.leb _ _ = true |- _ => apply Nat.leb_le in H
  | H : Nat.leb _ _ = false |- _ => apply Nat.leb_gt in H
  | H : Nat.eqb _ _ = true |- _ => apply Nat.eqb_eq in H
  | H : Nat.eqb _ _ = false |- _ => apply Nat.eqb_neq in H
  end.

(** Splits the first boolean test of the goal and keeps its propositional form. *)
Ltac split_test :=
  match goal with
  | |- context [if ?b then _ else _] => destruct b eqn:?; bool_facts
  end.

(** ** Lists *)

Section lists.
  Context {A : Type}.
  Implicit Types l k : list A.

Lemma Zlen_nil : Zlen (@nil A) = 0%Z.
Proof. done. Qed.

Lemma Zlen_cons x l : Zlen (x :: l) = (1 + Zlen l)%Z.
Proof. unfold Zlen. simpl. lia. Qed.

Lemma Zlen_app l k : Zlen (l ++ k) = (Zlen l + Zlen k)%Z.
Proof. unfold Zlen. rewrite length_app. lia. Qed.

Lemma Zlen_nonneg l : (0 <= Zlen l)%Z.
Proof. unfold Zlen. lia. Qed.

Lemma Zlen_pos l : l <> [] -> (0 < Zlen l)%Z.
Proof. destruct l; [done|]. rewrite Zlen_cons. pose proof (Zlen_nonneg l). lia. Qed.

Lemma take_drop_app n m l : take n l ++ take m (drop n l) = take (n + m) l.
Proof.
  revert n. induction l as [|x l IH]; intros [|n]; simpl; rewrite ?take_nil; try done.
  by rewrite IH.
Qed.

Lemma Forall_filter_keep (P Q : A -> Prop) `{!forall x, Decision (P x)} l :
  Forall Q l -> Forall Q (filter P l).
Proof.
  rewrite !Forall_forall. intros HQ x [_ Hx]%list_elem_of_filter. auto.
Qed.

End lists.

#[global] Arguments Zlen : simpl never.
#[global] Arguments Zsum : simpl never.

Lemma Zsum_app l k : Zsum (l ++ k) = (Zsum l + Zsum k)%Z.
Proof. induction l as [|x l IH]; simpl; [done|]. unfold Zsum in *. simpl. lia. Qed.

Lemma Zsum_nil : Zsum [] = 0%Z.
Proof. done. Qed.

Lemma Zsum_cons x l : Zsum (x :: l) = (x + Zsum l)%Z.
Proof. done. Qed.

Lemma Zsum_nonneg l : Forall (fun x => 0 <= x)%Z l -> (0 <= Zsum l)%Z.
Proof. induction 1; rewrite ?Zsum_cons; [done|lia]. Qed.

Lemma Zlen_concat {A} (ls : list (list A)) : Zlen (concat ls) = Zsum (Zlen <$> ls).
Proof.
  induction ls as [|l ls IH]; [done|]. simpl. by rewrite Zlen_app, IH.
Qed.

#[export] Hint Rewrite @Zlen_nil @Zlen_cons @Zlen_app Zsum_nil Zsum_app Zsum_cons @Zlen_concat @fmap_nil @fmap_cons @fmap_app : jsrw.
#[export] Hint Resolve Zlen_nonneg : js.
