(* ===== verification/JsString.v ===== *)
(** Strings the code builds keys from: decimal numbers and separators.

    A JS string is a Rocq [string], one character per code unit; the modelled
    code only splits, compares and measures the strings it handles here. *)

From S2P Require Import Prelude.
From Stdlib Require Export Ascii.

(** ** Definitions *)

(** [!s.includes(c)] for a one-character [c]. *)
Fixpoint lacks (c : ascii) (s : string) : bool :=
  match s with
  | EmptyString => true
  | String a s' => negb (Ascii.eqb a c) && lacks c s'
  end.

(** [s.split(c)[0]] *)
Fixpoint before (c : ascii) (s : string) : string :=
  match s with
  | EmptyString => ""
  | String a s' => if Ascii.eqb a c then "" else String a (before c s')
  end.

(** Runs of two or more [c] become one. *)
Fixpoint collapse (c : ascii) (s : string) : string :=
  match s with
  | EmptyString => ""
  | String a s' =>
    match s' with
    | String b _ => if Ascii.eqb a c && Ascii.eqb b c then collapse c s' else String a (collapse c s')
    | EmptyString => s
    end
  end.

(** [s.startsWith(p)] *)
Definition starts_with (p s : string) : bool := String.prefix p s.

Definition lower_char (a : ascii) : ascii :=
  let n := N_of_ascii a in
  if ((65 <=? n) && (n <=? 90))%N then ascii_of_N (n + 32) else a.

Definition upper_char (a : ascii) : ascii :=
  let n := N_of_ascii a in
  if ((97 <=? n) && (n <=? 122))%N then ascii_of_N (n - 32) else a.

Fixpoint smap (f : ascii -> ascii) (s : string) : string :=
  match s with EmptyString => "" | String a s' => String (f a) (smap f s') end.

(** [toLowerCase] and [toUpperCase], on ASCII. *)
Definition toLowerCase : string -> string := smap lower_char.
Definition toUpperCase : string -> string := smap upper_char.

(** [s.slice(0, n)] *)
Fixpoint stake (n : nat) (s : string) : string :=
  match n, s with
  | S n', String a s' => String a (stake n' s')
  | _, _ => ""
  end.

(** [s.slice(n)] *)
Fixpoint sdrop (n : nat) (s : string) : string :=
  match n, s with
  | S n', String _ s' => sdrop n' s'
  | _, _ => s
  end.

Definition slen (s : string) : Z := Z.of_nat (String.length s).

(** White space as [\s] and [trim] see it, among the first 256 code units. *)
Definition is_space (a : ascii) : bool :=
  let n := N_of_ascii a in ((9 <=? n) && (n <=? 13) || (n =? 32) || (n =? 160))%N.

Definition is_newline (a : ascii) : bool := Ascii.eqb a "010".

(** Drops the leading characters satisfying [f]. *)
Fixpoint trim_start_by (f : ascii -> bool) (s : string) : string :=
  match s with
  | EmptyString => ""
  | String a s' => if f a then trim_start_by f s' else s
  end.

(** Drops the trailing ones. *)
Fixpoint trim_end_by (f : ascii -> bool) (s : string) : string :=
  match s with
  | EmptyString => ""
  | String a s' => match trim_end_by f s' with
                   | EmptyString => if f a then "" else String a ""
                   | t => String a t
                   end
  end.

Definition trimStart : string -> string := trim_start_by is_space.
Definition trim (s : string) : string := trim_end_by is_space (trimStart s).

(** The longest prefix of characters satisfying [f]. *)
Fixpoint span (f : ascii -> bool) (s : string) : string :=
  match s with
  | String a s' => if f a then String a (span f s') else ""
  | EmptyString => ""
  end.

Fixpoint sall (f : ascii -> bool) (s : string) : bool :=
  match s with EmptyString => true | String a s' => f a && sall f s' end.

Definition is_alnum (a : ascii) : bool :=
  let n := N_of_ascii a in
  ((48 <=? n) && (n <=? 57) || (65 <=? n) && (n <=? 90) || (97 <=? n) && (n <=? 122))%N.

(** [s.indexOf(c)] and [s.lastIndexOf(c)] for one character; [None] is -1. *)
Fixpoint index_of (c : ascii) (s : string) : option nat :=
  match s with
  | EmptyString => None
  | String a s' => if Ascii.eqb a c then Some 0 else S <$> index_of c s'
  end.

Fixpoint last_index_of (c : ascii) (s : string) : option nat :=
  match s with
  | EmptyString => None
  | String a s' =>
    match last_index_of c s' with
    | Some i => Some (S i)
    | None => if Ascii.eqb a c then Some 0 else None
    end
  end.

(** [s.split(c)] for one character: never empty. *)
Fixpoint split_on (c : ascii) (s : string) : list string :=
  match s with
  | EmptyString => [""]
  | String a s' =>
    if Ascii.eqb a c then "" :: split_on c s'
    else match split_on c s' with x :: l => String a x :: l | [] => [String a ""] end
  end.

Definition is_decimal (a : ascii) : bool :=
  let n := N_of_ascii a in ((48 <=? n) && (n <=? 57))%N.

(** [Number(s)] of a text of decimal digits. *)
Definition decimal_value (s : string) : Z :=
  foldl (fun n a => 10 * n + Z.of_N (N_of_ascii a - 48))%Z 0%Z (String.list_ascii_of_string s).

(** ** Lemmas *)

Lemma sapp_assoc (a b c : string) : (a +:+ b) +:+ c = a +:+ (b +:+ c).
Proof. induction a as [|x a IH]; [done|]. exact (f_equal (String x) IH). Qed.

Lemma sapp_nil_r (a : string) : a +:+ "" = a.
Proof. induction a as [|x a IH]; [done|]. exact (f_equal (String x) IH). Qed.

Lemma trim_end_by_length f s : String.length (trim_end_by f s) <= String.length s.
Proof.
  induction s as [|a s IH]; [done|]. cbn. destruct (trim_end_by f s); [destruct (f a); cbn; lia|].
  cbn in *. lia.
Qed.

Lemma trim_start_by_length f s : String.length (trim_start_by f s) <= String.length s.
Proof. induction s as [|a s IH]; [done|]. cbn. destruct (f a); cbn; lia. Qed.

Lemma trim_start_by_head f s a t : trim_start_by f s = String a t -> f a = false.
Proof.
  induction s as [|b s IH]; [done|]. cbn. destruct (f b) eqn:E; [done|]. by intros [= <- <-].
Qed.

Lemma trim_end_by_idem f s : trim_end_by f (trim_end_by f s) = trim_end_by f s.
Proof.
  induction s as [|a s IH]; [done|]. cbn. destruct (trim_end_by f s) eqn:E.
  - destruct (f a) eqn:Ea; [done|]. cbn. by rewrite Ea.
  - cbn in *. by rewrite IH.
Qed.

Lemma trim_end_keeps_head f a s : f a = false -> exists t, trim_end_by f (String a s) = String a t.
Proof. intros Ha. cbn. destruct (trim_end_by f s); [rewrite Ha|]; by eexists. Qed.

(** Trimming the end does not uncover something to trim at the start. *)
Lemma trim_both_idem f s :
  trim_end_by f (trim_start_by f (trim_end_by f (trim_start_by f s))) = trim_end_by f (trim_start_by f s).
Proof.
  destruct (trim_start_by f s) as [|a t] eqn:E; [done|].
  pose proof (trim_start_by_head _ _ _ _ E) as Ha.
  destruct (trim_end_keeps_head f a t Ha) as [u Hu]. rewrite Hu.
  assert (trim_start_by f (String a u) = String a u) as -> by (cbn; by rewrite Ha).
  by rewrite <- Hu, trim_end_by_idem.
Qed.

Lemma trim_idem s : trim (trim s) = trim s.
Proof. apply trim_both_idem. Qed.

Lemma stake_length n s : String.length (stake n s) <= n.
Proof. revert s. induction n as [|n IH]; intros [|a s]; cbn; [lia..|]. specialize (IH s). lia. Qed.

Lemma sdrop_length n s : String.length (sdrop n s) <= String.length s.
Proof. revert s. induction n as [|n IH]; intros [|a s]; cbn; [lia..|]. specialize (IH s). lia. Qed.

Lemma stake_sdrop n s : stake n s +:+ sdrop n s = s.
Proof. revert s. induction n as [|n IH]; intros [|a s]; [done..|]. exact (f_equal (String a) (IH s)). Qed.

Lemma slength_app a b : String.length (a +:+ b) = String.length a + String.length b.
Proof. induction a as [|x a IH]; [done|]. exact (f_equal S IH). Qed.

Lemma sdrop_app a b : sdrop (String.length a) (a +:+ b) = b.
Proof. induction a as [|x a IH]; [by destruct b|]. exact IH. Qed.

Lemma sdrop_length_eq n s : String.length (sdrop n s) = String.length s - n.
Proof. revert s. induction n as [|n IH]; intros [|a s]; cbn; [done..|]. apply IH. Qed.

Lemma stake_length_eq n s : String.length (stake n s) = Nat.min n (String.length s).
Proof. revert s. induction n as [|n IH]; intros [|a s]; cbn; [done..|]. f_equal. apply IH. Qed.

Lemma stake_app a b : stake (String.length a) (a +:+ b) = a.
Proof. induction a as [|x a IH]; [by destruct b|]. exact (f_equal (String x) IH). Qed.

Lemma sdrop_sdrop n m s : sdrop m (sdrop n s) = sdrop (n + m) s.
Proof. revert s. induction n as [|n IH]; intros [|a s]; cbn [sdrop Nat.add]; try done. by destruct m. Qed.

Lemma sall_app f a b : sall f (a +:+ b) = sall f a && sall f b.
Proof. induction a as [|x a IH]; [done|]. change (f x && sall f (a +:+ b) = (f x && sall f a) && sall f b). by rewrite IH, andb_assoc. Qed.

Lemma sall_mono (f g : ascii -> bool) s : (forall a, f a = true -> g a = true) -> sall f s = true -> sall g s = true.
Proof. intros H. induction s as [|a s IH]; cbn; [done|]. intros [Ha Hs]%andb_true_iff. by rewrite H, IH. Qed.

Lemma lacks_pretty_N_char x : lacks ":" (String (pretty_N_char x) "") = true.
Proof. unfold pretty_N_char. by repeat case_match. Qed.

Lemma lacks_pretty_N_go x s : lacks ":" s = true -> lacks ":" (pretty_N_go x s) = true.
Proof.
  revert s. induction (N.lt_wf_0 x) as [x _ IH]; intros s Hs.
  destruct (decide (x = 0)%N) as [->|]; [by rewrite pretty_N_go_0|].
  rewrite pretty_N_go_step by lia. apply IH; [apply N.div_lt; lia|].
  pose proof (lacks_pretty_N_char (x `mod` 10)) as Hc. simpl in *.
  apply andb_true_iff in Hc as [-> _]. done.
Qed.

Lemma lacks_pretty_N (x : N) : lacks ":" (pretty x) = true.
Proof.
  unfold pretty, pretty_N. case_decide; [done|]. by apply lacks_pretty_N_go.
Qed.

Lemma lacks_pretty_Z (z : Z) : lacks ":" (pretty z) = true.
Proof.
  destruct z as [|p|p]; [done|apply (lacks_pretty_N (Npos p))|].
  change (lacks ":" (String "-" (pretty (Npos p))) = true). simpl. apply lacks_pretty_N.
Qed.

Lemma sep_inj c a b r r' :
  lacks c a = true -> lacks c b = true -> a +:+ String c r = b +:+ String c r' -> a = b /\ r = r'.
Proof.
  revert b. induction a as [|x a IH]; intros [|y b] Ha Hb H; simpl in *.
  - unfold String.app in H. simpl in H. by simplify_eq.
  - injection H as <- _. by rewrite Ascii.eqb_refl in Hb.
  - injection H as -> _. by rewrite Ascii.eqb_refl in Ha.
  - apply andb_true_iff in Ha as [_ Ha]. apply andb_true_iff in Hb as [_ Hb].
    injection H as -> H. apply IH in H as [-> ->]; done.
Qed.

Lemma prefix_sep c a b r :
  lacks c a = true -> lacks c b = true ->
  String.prefix (a +:+ String c "") (b +:+ String c r) = bool_decide (a = b).
Proof.
  revert b. induction a as [|x a IH]; intros [|y b] Ha Hb; simpl in *.
  - unfold String.app. simpl. case_match; [by destruct r|congruence].
  - apply andb_true_iff in Hb as [Hy _]. apply negb_true_iff, Ascii.eqb_neq in Hy.
    unfold String.app. simpl. case_match; congruence.
  - apply andb_true_iff in Ha as [Hx _]. apply negb_true_iff, Ascii.eqb_neq in Hx.
    unfold String.app. simpl. case_match; congruence.
  - apply andb_true_iff in Ha as [_ Ha]. apply andb_true_iff in Hb as [_ Hb].
    change (String.prefix (String x (a +:+ String c "")) (String y (b +:+ String c r))
      = bool_decide (String x a = String y b)).
    simpl. case_match.
    + subst. rewrite IH by done. apply bool_decide_ext. split; congruence.
    + symmetry. apply bool_decide_false. congruence.
Qed.

#[export] Hint Resolve lacks_pretty_Z lacks_pretty_N : js.

Lemma split_on_app c s r : lacks c s = true -> split_on c (s +:+ String c r) = s :: split_on c r.
Proof.
  induction s as [|a s IH]; intros H.
  - change (split_on c (String c r) = "" :: split_on c r). cbn [split_on]. by rewrite Ascii.eqb_refl.
  - cbn [lacks] in H. apply andb_true_iff in H as [Ha Hs]. apply negb_true_iff in Ha.
    change (split_on c (String a (s +:+ String c r)) = String a s :: split_on c r). cbn [split_on]. by rewrite Ha, IH.
Qed.

Lemma split_on_last c s : lacks c s = true -> split_on c s = [s].
Proof.
  induction s as [|a s IH]; cbn [split_on lacks]; [done|]. intros [Ha Hs]%andb_true_iff. apply negb_true_iff in Ha. rewrite Ha. by rewrite IH.
Qed.

Lemma split_on_cons c s : exists x l, split_on c s = x :: l.
Proof.
  induction s as [|a s (x & l & IH)]; cbn [split_on]; [by eexists _, _|]. rewrite IH. destruct (Ascii.eqb a c); by eexists _, _.
Qed.

Lemma split_on_lacks c s : Forall (fun x => lacks c x = true) (split_on c s).
Proof.
  induction s as [|a s IH]; cbn [split_on]; [by repeat constructor|]. destruct (Ascii.eqb a c) eqn:E; [by constructor|].
  destruct (split_on c s) as [|x l]; [constructor; [cbn; by rewrite E|done]|]. apply Forall_cons in IH as [Hx Hl]. constructor; [cbn; by rewrite E|done].
Qed.

(** A text that splits into parts is the parts joined. *)
Lemma split_on_join c s : forall x l, split_on c s = x :: l -> s = foldl (fun acc y => acc +:+ String c "" +:+ y) x l.
Proof.
  assert (forall l (p q : string), foldl (fun acc y => acc +:+ String c "" +:+ y) (p +:+ q) l = p +:+ foldl (fun acc y => acc +:+ String c "" +:+ y) q l) as Hf.
  { induction l as [|y l IH]; intros p q; [done|]. cbn [foldl]. rewrite sapp_assoc. apply IH. }
  induction s as [|a s IH]; cbn [split_on]; intros x l E; [by simplify_eq|].
  destruct (Ascii.eqb a c) eqn:Ea.
  - apply Ascii.eqb_eq in Ea as ->. injection E as <- <-. destruct (split_on_cons c s) as (y & k & Es). rewrite Es.
    cbn [foldl]. rewrite (IH y k Es). change ("" +:+ String c "" +:+ y) with (String c "" +:+ y). by rewrite Hf.
  - destruct (split_on_cons c s) as (y & k & Es). rewrite Es in E. injection E as <- <-.
    etransitivity; [|symmetry; exact (Hf k (String a "") y)]. exact (f_equal (String a) (IH y k Es)).
Qed.
