(* ===== verification/JsMap.v ===== *)
(** JavaScript [Map]: an insertion-ordered finite map.

    The modelled code iterates maps (round-robin rounds, evictions,
    snapshots), so their order is part of the behaviour: [set] on a present key
    replaces the value in place, on a fresh key appends it; [delete] keeps the
    order of the others. *)

From S2P Require Import Prelude.

Section defs.
  Context {K V : Type} `{EqDecision K}.

Definition jsmap_t : Type := list (K * V).

(** [m.get(k)] *)
Fixpoint jget (k : K) (m : list (K * V)) : option V :=
  match m with
  | [] => None
  | (k', v) :: m' => if decide (k = k') then Some v else jget k m'
  end.

(** [m.has(k)] *)
Definition jhas (k : K) (m : list (K * V)) : bool :=
  match jget k m with Some _ => true | None => false end.

(** [m.set(k, v)] *)
Fixpoint jset (k : K) (v : V) (m : list (K * V)) : list (K * V) :=
  match m with
  | [] => [(k, v)]
  | (k', v') :: m' => if decide (k = k') then (k', v) :: m' else (k', v') :: jset k v m'
  end.

(** [m.delete(k)] *)
Fixpoint jdel (k : K) (m : list (K * V)) : list (K * V) :=
  match m with
  | [] => []
  | (k', v') :: m' => if decide (k = k') then m' else (k', v') :: jdel k m'
  end.

(** [m.size] *)
Definition jsize (m : list (K * V)) : nat := length m.

(** [[...m.keys()]] and [[...m.values()]] *)
Definition jkeys (m : list (K * V)) : list K := m.*1.

Definition jvals (m : list (K * V)) : list V := m.*2.

(** The representation invariant: no key occurs twice. *)
Definition jwf (m : list (K * V)) : Prop := NoDup (jkeys m).

End defs.

Section lemmas.
  Context {K V : Type} `{EqDecision K}.
  Implicit Types (k : K) (v : V) (m : list (K * V)).

Lemma jget_None k m : jget k m = None <-> k ∉ jkeys m.
Proof.
  induction m as [|[k' v'] m IH]; simpl; [set_solver|].
  case_decide; subst; [set_solver|]. rewrite IH. set_solver.
Qed.

Lemma jget_Some_elem k v m : jget k m = Some v -> (k, v) ∈ m.
Proof.
  induction m as [|[k' v'] m IH]; simpl; [done|].
  case_decide; intros; simplify_eq; set_solver.
Qed.

Lemma jget_elem k v m : jwf m -> (k, v) ∈ m -> jget k m = Some v.
Proof.
  unfold jwf. induction m as [|[k' v'] m IH]; simpl; [set_solver|].
  rewrite NoDup_cons. intros [Hn Hd] Hin. apply elem_of_cons in Hin as [Heq|Hin].
  - simplify_eq. by rewrite decide_True.
  - rewrite decide_False; [by apply IH|]. intros ->. apply Hn.
    by apply (list_elem_of_fmap_2 fst) in Hin.
Qed.

Lemma jget_set_eq k v m : jget k (jset k v m) = Some v.
Proof.
  induction m as [|[k' v'] m IH]; simpl; [by rewrite decide_True|].
  case_decide; simpl; [by rewrite decide_True|by rewrite decide_False].
Qed.

Lemma jget_set_ne k k' v m : k <> k' -> jget k (jset k' v m) = jget k m.
Proof.
  intros. induction m as [|[k2 v2] m IH]; simpl; [by rewrite decide_False|].
  case_decide; subst; simpl; [by rewrite !decide_False|].
  case_decide; [done|apply IH].
Qed.

Lemma jget_del_ne k k' m : k <> k' -> jget k (jdel k' m) = jget k m.
Proof.
  intros. induction m as [|[k2 v2] m IH]; simpl; [done|].
  case_decide; subst; simpl; [by rewrite decide_False|].
  case_decide; [done|apply IH].
Qed.

Lemma jkeys_del_sub k m : jkeys (jdel k m) ⊆ jkeys m.
Proof.
  induction m as [|[k2 v2] m IH]; simpl; [done|].
  case_decide; subst; simpl; set_solver.
Qed.

Lemma jget_del_eq k m : jwf m -> jget k (jdel k m) = None.
Proof.
  unfold jwf. induction m as [|[k2 v2] m IH]; simpl; [done|].
  rewrite NoDup_cons. intros [Hn Hd]. case_decide; subst.
  - by apply jget_None.
  - simpl. rewrite decide_False; [by apply IH|done].
Qed.

Lemma jkeys_set_in k v m : k ∈ jkeys m -> jkeys (jset k v m) = jkeys m.
Proof.
  induction m as [|[k2 v2] m IH]; simpl; [set_solver|].
  case_decide; subst; simpl; [done|]. intros Hin. f_equal. apply IH. set_solver.
Qed.

Lemma jset_fresh k v m : k ∉ jkeys m -> jset k v m = m ++ [(k, v)].
Proof.
  induction m as [|[k2 v2] m IH]; simpl; [done|].
  intros Hn. rewrite decide_False by set_solver. f_equal. apply IH. set_solver.
Qed.

Lemma jset_same k v m : jget k m = Some v -> jset k v m = m.
Proof. induction m as [|[k' v'] m IH]; [done|]. simpl. case_decide; [intros [= <-]; by subst|]. intros Hg. f_equal. auto. Qed.

Lemma jkeys_set k v m : jkeys (jset k v m) = jkeys m \/ jkeys (jset k v m) = jkeys m ++ [k].
Proof.
  destruct (decide (k ∈ jkeys m)).
  - left. by apply jkeys_set_in.
  - right. rewrite jset_fresh by done. unfold jkeys. by rewrite fmap_app.
Qed.

Lemma elem_of_jkeys_set k k' v m : k' ∈ jkeys (jset k v m) <-> k' = k \/ k' ∈ jkeys m.
Proof.
  destruct (decide (k ∈ jkeys m)).
  - rewrite jkeys_set_in by done. set_solver.
  - rewrite jset_fresh by done. unfold jkeys. rewrite fmap_app. set_solver.
Qed.

Lemma jwf_nil : jwf (@nil (K * V)).
Proof. constructor. Qed.

Lemma jwf_set k v m : jwf m -> jwf (jset k v m).
Proof.
  unfold jwf. intros Hwf. destruct (decide (k ∈ jkeys m)).
  - by rewrite jkeys_set_in.
  - rewrite jset_fresh by done. unfold jkeys. rewrite fmap_app.
    apply NoDup_app. split; [done|]. split; [set_solver|]. simpl. apply NoDup_singleton.
Qed.

Lemma jwf_del k m : jwf m -> jwf (jdel k m).
Proof.
  unfold jwf. induction m as [|[k2 v2] m IH]; simpl; [done|].
  rewrite NoDup_cons. intros [Hn Hd]. case_decide; subst; [done|].
  simpl. rewrite NoDup_cons. split; [|by apply IH].
  intros Hin. apply jkeys_del_sub in Hin. done.
Qed.

Lemma jwf_filter (P : K * V -> Prop) `{!forall x, Decision (P x)} m : jwf m -> jwf (filter P m).
Proof.
  unfold jwf. induction m as [|[k2 v2] m IH]; simpl; [done|].
  rewrite NoDup_cons. intros [Hn Hd]. rewrite filter_cons. case_decide; [|by apply IH].
  simpl. rewrite NoDup_cons. split; [|by apply IH].
  intros Hin. apply Hn. apply list_elem_of_fmap in Hin as [[k3 v3] [Heq Hin]]. simpl in *. subst.
  apply list_elem_of_filter in Hin as [_ Hin]. by apply (list_elem_of_fmap_2 fst) in Hin.
Qed.

Lemma jget_filter (P : K * V -> Prop) `{HP : !forall x, Decision (P x)} k v m :
  jwf m -> jget k (filter P m) = Some v <-> jget k m = Some v /\ P (k, v).
Proof.
  intros Hwf. split.
  - intros Hg%jget_Some_elem. apply list_elem_of_filter in Hg as [Hp Hin]. split; [by apply jget_elem|done].
  - intros [Hg%jget_Some_elem Hp]. apply jget_elem; [by apply jwf_filter|]. by apply list_elem_of_filter.
Qed.

Lemma jdel_fresh k m : k ∉ jkeys m -> jdel k m = m.
Proof.
  induction m as [|[k2 v2] m IH]; simpl; [done|]. intros Hn.
  rewrite decide_False by set_solver. f_equal. apply IH. set_solver.
Qed.

Lemma jdel_set_fresh k v m : k ∉ jkeys m -> jdel k (jset k v m) = m.
Proof.
  intros Hn. rewrite jset_fresh by done. induction m as [|[k2 v2] m IH]; simpl.
  - by rewrite decide_True.
  - rewrite decide_False by set_solver. f_equal. apply IH. set_solver.
Qed.

Lemma jset_set_fresh k v v' m : jset k v (jset k v' m) = jset k v m.
Proof.
  induction m as [|[k2 v2] m IH]; simpl; [by rewrite decide_True|].
  case_decide; simpl; [by rewrite decide_True|].
  rewrite decide_False by done. by f_equal.
Qed.

Lemma jsize_set k v m : jsize (jset k v m) = (if jhas k m then jsize m else S (jsize m)).
Proof.
  unfold jhas. induction m as [|[k2 v2] m IH]; simpl; [done|].
  case_decide; simpl; [done|]. rewrite IH. by destruct (jget k m).
Qed.

Lemma jsize_del_le k m : jsize (jdel k m) <= jsize m.
Proof.
  induction m as [|[k2 v2] m IH]; simpl; [done|]. case_decide; simpl; lia.
Qed.

Lemma jsize_del k m : k ∈ jkeys m -> S (jsize (jdel k m)) = jsize m.
Proof.
  induction m as [|[k2 v2] m IH]; simpl; [set_solver|]. case_decide; subst; [done|].
  intros Hin. simpl. f_equal. apply IH. set_solver.
Qed.

Lemma elem_of_jset k v x m : x ∈ jset k v m -> x = (k, v) \/ x ∈ m.
Proof.
  induction m as [|[k2 v2] m IH]; simpl; [set_solver|].
  case_decide; subst; set_solver.
Qed.

Lemma elem_of_jdel k x m : x ∈ jdel k m -> x ∈ m.
Proof.
  induction m as [|[k2 v2] m IH]; simpl; [set_solver|].
  case_decide; subst; set_solver.
Qed.

Lemma Forall_jset (P : K * V -> Prop) k v m : P (k, v) -> Forall P m -> Forall P (jset k v m).
Proof.
  rewrite !Forall_forall. intros Hkv Hm x Hx.
  apply elem_of_jset in Hx as [->|Hx]; auto.
Qed.

Lemma Forall_jdel (P : K * V -> Prop) k m : Forall P m -> Forall P (jdel k m).
Proof.
  rewrite !Forall_forall. intros Hm x Hx. apply elem_of_jdel in Hx; auto.
Qed.

Lemma Forall_jget (P : K * V -> Prop) k v m : Forall P m -> jget k m = Some v -> P (k, v).
Proof. rewrite Forall_forall. intros Hm Hg. apply Hm. by apply jget_Some_elem. Qed.

(** Setting the entries of a duplicate-free list one by one rebuilds it. *)
Lemma jset_all (f : K * V -> bool) m acc :
  NoDup (jkeys (acc ++ m)) ->
  fold_left (fun m x => if f x then jset x.1 x.2 m else m) m acc = acc ++ List.filter f m.
Proof.
  revert acc. induction m as [|[k v] m IH]; intros acc Hn; cbn; [by rewrite app_nil_r|].
  unfold jkeys in Hn. rewrite fmap_app in Hn. cbn in Hn. apply NoDup_app in Hn as (H1 & H2 & H3).
  apply NoDup_cons in H3 as [H3 H4].
  destruct (f (k, v)).
  - rewrite jset_fresh by (intros Hin; apply (H2 k Hin); by left). rewrite IH; [by rewrite <- app_assoc|].
    unfold jkeys. rewrite fmap_app, fmap_app, <- app_assoc. cbn. apply NoDup_app. split_and!; [done|done|].
    by apply NoDup_cons.
  - apply IH. unfold jkeys. rewrite fmap_app. apply NoDup_app. split_and!; [done| |done].
    intros x Hx Hin. apply (H2 x Hx). by right.
Qed.

(** A quantity summed over the values of a map. *)
Definition jsum (f : V -> Z) (m : list (K * V)) : Z := Zsum ((fun x => f x.2) <$> m).

Lemma jsum_cons f k v m : jsum f ((k, v) :: m) = (f v + jsum f m)%Z.
Proof. done. Qed.

Lemma jsum_set f k v m :
  jsum f (jset k v m) = (jsum f m + f v - from_option f 0 (jget k m))%Z.
Proof.
  induction m as [|[k2 v2] m IH]; simpl; [unfold jsum, Zsum; simpl; lia|].
  case_decide; subst; rewrite !jsum_cons; simpl; [lia|]. rewrite IH. lia.
Qed.

Lemma jsum_del f k m : jsum f (jdel k m) = (jsum f m - from_option f 0 (jget k m))%Z.
Proof.
  induction m as [|[k2 v2] m IH]; simpl; [unfold jsum, Zsum; simpl; lia|].
  case_decide; subst; rewrite ?jsum_cons; simpl; [lia|]. rewrite IH. lia.
Qed.

Lemma jsum_nonneg f m : (forall v, 0 <= f v)%Z -> (0 <= jsum f m)%Z.
Proof. intros Hf. apply Zsum_nonneg, Forall_fmap, Forall_true. intros [k v]. apply Hf. Qed.

Lemma jhas_Some k m : jhas k m = true <-> is_Some (jget k m).
Proof.
  unfold jhas. destruct (jget k m); split; intros H; try done; by destruct H.
Qed.

End lemmas.

#[export] Hint Resolve jwf_nil jwf_set jwf_del Forall_jdel Forall_jset : js.
#[export] Hint Rewrite @jget_set_eq : jsrw.
#[global] Arguments jsum : simpl never.
