(* ===== verification/JsSort.v ===== *)
(** Order and sorting: strings compared by code units, [Array.prototype.sort] with a
    comparator, and the binary searches the code writes by hand.

    The language sorts stably, so that the result is determined by the comparator:
    [js_sort] is the stable insertion sort. *)

From S2P Require Import Prelude JsString.
From Stdlib Require Import Sorting.Sorted.

(** ** Strings *)

(** [a < b] *)
Definition slt (a b : string) : bool := String.ltb a b.

Lemma scompare_refl a : String.compare a a = Eq.
Proof. induction a as [|x a IH]; [done|]. cbn. unfold Ascii.compare. by rewrite N.compare_refl. Qed.

Lemma scompare_trans a b c : String.compare a b = Lt -> String.compare b c = Lt -> String.compare a c = Lt.
Proof.
  revert b c. induction a as [|x a IH]; intros [|y b] [|z c]; try done. cbn. unfold Ascii.compare.
  destruct (N.compare_spec (N_of_ascii x) (N_of_ascii y)) as [E1|E1|E1]; try done;
    destruct (N.compare_spec (N_of_ascii y) (N_of_ascii z)) as [E2|E2|E2]; try done; intros H1 H2.
  - rewrite E1, E2, N.compare_refl. by eapply IH.
  - rewrite E1. by rewrite (proj2 (N.compare_lt_iff _ _) E2).
  - rewrite <- E2. by rewrite (proj2 (N.compare_lt_iff _ _) E1).
  - by rewrite (proj2 (N.compare_lt_iff _ _) (N.lt_trans _ _ _ E1 E2)).
Qed.

Lemma slt_irrefl a : slt a a = false.
Proof. unfold slt, String.ltb. by rewrite scompare_refl. Qed.

Lemma slt_trans a b c : slt a b = true -> slt b c = true -> slt a c = true.
Proof.
  unfold slt, String.ltb. destruct (String.compare a b) eqn:E1; try done. destruct (String.compare b c) eqn:E2; try done.
  by rewrite (scompare_trans _ _ _ E1 E2).
Qed.

Lemma slt_total a b : a = b \/ slt a b = true \/ slt b a = true.
Proof.
  unfold slt, String.ltb. rewrite (String.compare_antisym b a). destruct (String.compare a b) eqn:E; cbn; auto.
  left. by apply String.compare_eq_iff.
Qed.

Lemma slt_asym a b : slt a b = true -> slt b a = false.
Proof. intros H. destruct (slt b a) eqn:E; [|done]. by rewrite <- (slt_irrefl a), (slt_trans a b a). Qed.

Lemma slt_ne a b : slt a b = true -> a <> b.
Proof. intros H ->. by rewrite slt_irrefl in H. Qed.

(** [a < b ? -1 : a > b ? 1 : 0] is not positive. *)
Definition sle (a b : string) : bool := negb (slt b a).

Lemma sle_refl a : sle a a = true.
Proof. unfold sle. by rewrite slt_irrefl. Qed.

Lemma sle_total a b : sle a b = true \/ sle b a = true.
Proof. unfold sle. destruct (slt_total a b) as [->|[H|H]]; [rewrite slt_irrefl; auto|rewrite (slt_asym _ _ H); auto..]. Qed.

Lemma sle_trans a b c : sle a b = true -> sle b c = true -> sle a c = true.
Proof.
  unfold sle. rewrite !negb_true_iff. intros H1 H2. destruct (slt c a) eqn:E; [|done].
  destruct (slt_total a b) as [->|[H|H]]; [congruence| |congruence].
  by rewrite (slt_trans c a b) in H2.
Qed.

Lemma sle_antisym a b : sle a b = true -> sle b a = true -> a = b.
Proof. unfold sle. rewrite !negb_true_iff. intros H1 H2. destruct (slt_total a b) as [|[H|H]]; congruence. Qed.

(** ** Sorting by a comparator *)

Section sort.
  Context {A : Type} (le : A -> A -> bool).

Fixpoint insert_sorted (x : A) (l : list A) : list A :=
  match l with
  | [] => [x]
  | y :: l' => if le x y then x :: y :: l' else y :: insert_sorted x l'
  end.

Definition js_sort (l : list A) : list A := foldr insert_sorted [] l.

Lemma insert_sorted_perm x l : insert_sorted x l ≡ₚ x :: l.
Proof.
  induction l as [|y l IH]; [done|]. cbn. destruct (le x y); [done|]. rewrite IH. by apply Permutation_swap.
Qed.

Lemma js_sort_perm l : js_sort l ≡ₚ l.
Proof. induction l as [|x l IH]; [done|]. cbn. rewrite insert_sorted_perm. by f_equiv. Qed.

(** The comparator is consistent. *)
Class TotalOrder : Prop := {
  le_total : forall a b, le a b = true \/ le b a = true;
  le_trans : forall a b c, le a b = true -> le b c = true -> le a c = true;
}.

Definition sorted (l : list A) : Prop := StronglySorted (fun a b => le a b = true) l.

Context `{!TotalOrder}.

Lemma insert_sorted_sorted x l : sorted l -> sorted (insert_sorted x l).
Proof.
  induction 1 as [|y l Hl IH Hy]; cbn; [by repeat constructor|]. destruct (le x y) eqn:E.
  - constructor; [by constructor|]. constructor; [done|]. eapply Forall_impl; [exact Hy|]. intros z Hz. by eapply le_trans.
  - constructor; [done|]. rewrite insert_sorted_perm. constructor; [|done].
    destruct (le_total x y) as [|]; [congruence|done].
Qed.

Lemma js_sort_sorted l : sorted (js_sort l).
Proof. induction l as [|x l IH]; [constructor|]. by apply insert_sorted_sorted. Qed.

(** Sorting a sorted list changes nothing. *)
Lemma js_sort_id l : sorted l -> js_sort l = l.
Proof.
  induction 1 as [|x l Hl IH Hx]; [done|]. change (insert_sorted x (js_sort l) = x :: l). rewrite IH.
  destruct l as [|y l]; [done|]. apply Forall_cons in Hx as [E _]. cbn. by rewrite E.
Qed.

End sort.

(** ** Halving: the search for the first position past a prefix *)

(** The least [i] in [low .. high] with [f i = false], where [f] holds on a prefix:
    the loop [while (low < high)] with [mid = (low + high) >>> 1]. *)
Fixpoint halve (fuel : nat) (f : nat -> bool) (low high : nat) : nat :=
  match fuel with
  | O => low
  | S n =>
    if Nat.ltb low high then
      let mid := Nat.div2 (low + high) in
      if f mid then halve n f (S mid) high else halve n f low mid
    else low
  end.

Lemma div2_between low high : low < high -> low <= Nat.div2 (low + high) < high.
Proof.
  intros H. rewrite Nat.div2_div. pose proof (Nat.div_mod_eq (low + high) 2).
  pose proof (Nat.mod_upper_bound (low + high) 2 ltac:(done)). lia.
Qed.

Lemma halve_spec fuel f low high cut :
  high - low <= fuel -> low <= cut <= high ->
  (forall i, low <= i < cut -> f i = true) -> (forall i, cut <= i < high -> f i = false) ->
  halve fuel f low high = cut.
Proof.
  revert low high. induction fuel as [|n IH]; intros low high Hf Hc Ht Hx; cbn [halve]; [lia|].
  destruct (Nat.ltb_spec low high) as [Hlt|Hge]; [|lia]. pose proof (div2_between low high Hlt) as Hm.
  set (mid := Nat.div2 (low + high)) in *. destruct (f mid) eqn:E.
  - assert (mid < cut) by (destruct (decide (mid < cut)); [done|]; rewrite Hx in E by lia; done).
    apply IH; [lia|lia|intros; apply Ht; lia|intros; apply Hx; lia].
  - assert (cut <= mid) by (destruct (decide (cut <= mid)); [done|]; rewrite Ht in E by lia; done).
    apply IH; [lia|lia|intros; apply Ht; lia|intros; apply Hx; lia].
Qed.

(** Enough fuel settles the loop: it ends with [low] meeting [high]. *)
Lemma halve_fuel f low high n m : high - low <= n -> high - low <= m -> halve n f low high = halve m f low high.
Proof.
  revert low high m. induction n as [|n IH]; intros low high m Hn Hm.
  - destruct m as [|m]; [done|]. cbn [halve]. destruct (Nat.ltb_spec low high); [lia|done].
  - destruct m as [|m]; cbn [halve].
    + destruct (Nat.ltb_spec low high); [lia|done].
    + destruct (Nat.ltb_spec low high) as [Hlt|]; [|done]. pose proof (div2_between low high Hlt) as Hmid.
      destruct (f _); apply IH; lia.
Qed.
