(* ===== verification/JsDate.v ===== *)
(** Dates: the proleptic Gregorian calendar of the language ([Date.UTC], the UTC
    getters), [toISOString] and [Date.parse] on what it prints.

    A time is a number of milliseconds since 1970, an integer. [Date.parse] of a
    text that [toISOString] does not print is up to the engine: a parameter. *)

From S2P Require Import Prelude JsString.

Local Open Scope Z_scope.

Definition msPerDay : Z := 86400000.

(** ** Days, years and months *)

(** The day number of January 1st. *)
Definition day_from_year (y : Z) : Z := 365 * (y - 1970) + (y - 1969) / 4 - (y - 1901) / 100 + (y - 1601) / 400.

(** The year of a day: an estimate, corrected by at most one either way. *)
Definition year_from_day (d : Z) : Z :=
  let y := d * 400 / 146097 + 1970 in
  if day_from_year (y + 1) <=? d then y + 1 else if day_from_year y <=? d then y else y - 1.

Definition is_leap (y : Z) : bool := (y mod 4 =? 0) && negb (y mod 100 =? 0) || (y mod 400 =? 0).

(** The days of a year before month [m], counted from 0. *)
Definition days_before_month (leap : bool) (m : Z) : Z :=
  nth (Z.to_nat m) [0; 31; 59; 90; 120; 151; 181; 212; 243; 273; 304; 334; 365] 365 + (if leap && (2 <=? m) then 1 else 0).

(** The month of a day of the year. *)
Definition month_from_day (leap : bool) (dn : Z) : Z :=
  Z.of_nat (length (filter (fun m => days_before_month leap m <= dn) [1; 2; 3; 4; 5; 6; 7; 8; 9; 10; 11])).

(** [MakeDay]: months outside a year carry over. *)
Definition make_day (y m d : Z) : Z :=
  let ym := y + m / 12 in
  day_from_year ym + days_before_month (is_leap ym) (m mod 12) + d - 1.

(** [Date.UTC(y, m, d, h, mi)] on integers, within the range of times: a year from 0 to 99 counts from 1900. *)
Definition date_utc (y m d h mi : Z) : Z :=
  make_day (if (0 <=? y) && (y <=? 99) then 1900 + y else y) m d * msPerDay + h * 3600000 + mi * 60000.

Definition utc_day (t : Z) : Z := t / msPerDay.
Definition time_in_day (t : Z) : Z := t mod msPerDay.
Definition getUTCFullYear (t : Z) : Z := year_from_day (utc_day t).
Definition day_in_year (t : Z) : Z := utc_day t - day_from_year (getUTCFullYear t).
Definition getUTCMonth (t : Z) : Z := month_from_day (is_leap (getUTCFullYear t)) (day_in_year t).
Definition getUTCDate (t : Z) : Z := day_in_year t - days_before_month (is_leap (getUTCFullYear t)) (getUTCMonth t) + 1.
(** Sunday is 0. *)
Definition getUTCDay (t : Z) : Z := (utc_day t + 4) mod 7.
Definition getUTCHours (t : Z) : Z := time_in_day t / 3600000.
Definition getUTCMinutes (t : Z) : Z := time_in_day t / 60000 mod 60.
Definition getUTCSeconds (t : Z) : Z := time_in_day t / 1000 mod 60.
Definition getUTCMilliseconds (t : Z) : Z := time_in_day t mod 1000.

(** ** ISO text *)

Definition digit (d : Z) : ascii := ascii_of_N (Z.to_N (48 + d)).
Definition digit_value (a : ascii) : Z := Z.of_N (N_of_ascii a) - 48.

(** [w] digits of [n], most significant first. *)
Fixpoint digits (w : nat) (n : Z) : string :=
  match w with
  | O => ""
  | S w => digits w (n / 10) +:+ String (digit (n mod 10)) ""
  end.

Fixpoint digits_value (acc : Z) (s : string) : Z :=
  match s with
  | "" => acc
  | String a s => digits_value (10 * acc + digit_value a) s
  end.

Definition iso_year (y : Z) : string :=
  if (0 <=? y) && (y <=? 9999) then digits 4 y else if y <? 0 then "-" +:+ digits 6 (- y) else "+" +:+ digits 6 y.

Definition toISOString (t : Z) : string :=
  iso_year (getUTCFullYear t) +:+ "-" +:+ digits 2 (getUTCMonth t + 1) +:+ "-" +:+ digits 2 (getUTCDate t) +:+ "T"
  +:+ digits 2 (getUTCHours t) +:+ ":" +:+ digits 2 (getUTCMinutes t) +:+ ":" +:+ digits 2 (getUTCSeconds t) +:+ "."
  +:+ digits 3 (getUTCMilliseconds t) +:+ "Z".

Definition day_names : list string := ["Sun"; "Mon"; "Tue"; "Wed"; "Thu"; "Fri"; "Sat"].
Definition month_names : list string := ["Jan"; "Feb"; "Mar"; "Apr"; "May"; "Jun"; "Jul"; "Aug"; "Sep"; "Oct"; "Nov"; "Dec"].

(** [toUTCString], for years from 0. *)
Definition toUTCString (t : Z) : string :=
  nth (Z.to_nat (getUTCDay t)) day_names "" +:+ ", " +:+ digits 2 (getUTCDate t) +:+ " " +:+ nth (Z.to_nat (getUTCMonth t)) month_names "" +:+ " "
  +:+ digits 4 (getUTCFullYear t) +:+ " " +:+ digits 2 (getUTCHours t) +:+ ":" +:+ digits 2 (getUTCMinutes t) +:+ ":" +:+ digits 2 (getUTCSeconds t)
  +:+ " GMT".

(** The number at [n] characters from position [i]. *)
Definition field (s : string) (i n : nat) : Z := digits_value 0 (stake n (sdrop i s)).

(** The time a text of the four-digit-year form spells, by its positions. *)
Definition iso_fields (s : string) : Z :=
  make_day (field s 0 4) (field s 5 2 - 1) (field s 8 2) * msPerDay
  + field s 11 2 * 3600000 + field s 14 2 * 60000 + field s 17 2 * 1000 + field s 20 3.

Section parse.
  (** What the engine makes of any other text; [None] is NaN. *)
  Context (other : string -> option Z).

Definition date_parse (s : string) : option Z :=
  if bool_decide (toISOString (iso_fields s) = s) then Some (iso_fields s) else other s.

End parse.

(** ** The calendar is consistent *)

Lemma year_from_day_spec d : day_from_year (year_from_day d) <= d < day_from_year (year_from_day d + 1).
Proof.
  unfold year_from_day. set (y := d * 400 / 146097 + 1970).
  assert (day_from_year (y - 1) <= d < day_from_year (y + 2)) as [H1 H2].
  { unfold day_from_year, y. Z.to_euclidean_division_equations. lia. }
  destruct (day_from_year (y + 1) <=? d) eqn:E1; [replace (y + 1 + 1) with (y + 2) by lia; lia|].
  destruct (day_from_year y <=? d) eqn:E2; [lia|]. replace (y - 1 + 1) with y by lia. lia.
Qed.

Lemma year_length y : day_from_year (y + 1) = day_from_year y + 365 + (if is_leap y then 1 else 0).
Proof.
  unfold day_from_year, is_leap.
  destruct (Z.eqb_spec (y mod 4) 0), (Z.eqb_spec (y mod 100) 0), (Z.eqb_spec (y mod 400) 0); cbn; Z.to_euclidean_division_equations; lia.
Qed.

Lemma day_in_year_bounds t : 0 <= day_in_year t < 365 + (if is_leap (getUTCFullYear t) then 1 else 0).
Proof.
  unfold day_in_year, getUTCFullYear. pose proof (year_from_day_spec (utc_day t)). pose proof (year_length (year_from_day (utc_day t))). lia.
Qed.

Definition month_ok (leap : bool) (dn : Z) : bool :=
  let m := month_from_day leap dn in
  (0 <=? m) && (m <=? 11) && (days_before_month leap m <=? dn) && (dn <? days_before_month leap (m + 1)).

Lemma month_from_day_spec (leap : bool) dn : 0 <= dn < 365 + (if leap then 1 else 0) ->
  0 <= month_from_day leap dn <= 11 /\ days_before_month leap (month_from_day leap dn) <= dn < days_before_month leap (month_from_day leap dn + 1).
Proof.
  intros Hd. assert (month_ok leap dn = true) as H.
  { assert (forallb (month_ok leap) (Z.of_nat <$> seq 0 (365 + if leap then 1 else 0)) = true) as Hall by (destruct leap; vm_compute; reflexivity).
    rewrite forallb_forall in Hall. apply Hall. apply list_elem_of_In, list_elem_of_fmap. exists (Z.to_nat dn).
    split; [lia|]. apply elem_of_seq. destruct leap; lia. }
  unfold month_ok in H. bool_facts. lia.
Qed.

(** A day is the day its year, month and date make. *)
Lemma make_day_of t : make_day (getUTCFullYear t) (getUTCMonth t) (getUTCDate t) = utc_day t.
Proof.
  pose proof (month_from_day_spec _ _ (day_in_year_bounds t)) as [Hm _]. fold (getUTCMonth t) in Hm.
  unfold make_day. rewrite (Z.div_small (getUTCMonth t) 12), (Z.mod_small (getUTCMonth t) 12) by lia.
  unfold getUTCDate, day_in_year. rewrite Z.add_0_r. lia.
Qed.

Lemma date_bounds t : 1 <= getUTCDate t <= 31.
Proof.
  pose proof (month_from_day_spec _ _ (day_in_year_bounds t)) as [Hm Hd]. unfold getUTCDate. fold (getUTCMonth t) in *.
  assert (forall leap m, 0 <= m <= 11 -> days_before_month leap (m + 1) - days_before_month leap m <= 31) as H.
  { intros leap m Hr. assert (m = 0 \/ m = 1 \/ m = 2 \/ m = 3 \/ m = 4 \/ m = 5 \/ m = 6 \/ m = 7 \/ m = 8 \/ m = 9 \/ m = 10 \/ m = 11) as Hc by lia.
    destruct leap; repeat destruct Hc as [-> |Hc]; rewrite ?Hc; vm_compute; discriminate. }
  specialize (H (is_leap (getUTCFullYear t)) (getUTCMonth t) Hm). lia.
Qed.

(** A time is made of its parts. *)
Lemma time_parts t :
  utc_day t * msPerDay + getUTCHours t * 3600000 + getUTCMinutes t * 60000 + getUTCSeconds t * 1000 + getUTCMilliseconds t = t /\
  0 <= getUTCHours t < 24 /\ 0 <= getUTCMinutes t < 60 /\ 0 <= getUTCSeconds t < 60 /\ 0 <= getUTCMilliseconds t < 1000.
Proof.
  unfold utc_day, getUTCHours, getUTCMinutes, getUTCSeconds, getUTCMilliseconds, time_in_day, msPerDay.
  Z.to_euclidean_division_equations. lia.
Qed.

(** ** ISO text is read back *)

Lemma digit_value_digit d : 0 <= d <= 9 -> digit_value (digit d) = d.
Proof. intros Hd. unfold digit_value, digit. rewrite N_ascii_embedding by lia. lia. Qed.

Lemma digits_value_app acc a b : digits_value acc (a +:+ b) = digits_value (digits_value acc a) b.
Proof. revert acc. induction a as [|x a IH]; intros acc; [done|]. apply IH. Qed.

Lemma digits_length w n : String.length (digits w n) = w.
Proof. revert n. induction w as [|w IH]; intros n; [done|]. cbn [digits]. rewrite slength_app, IH. cbn. lia. Qed.

Lemma digits_value_digits w n acc : 0 <= n < 10 ^ Z.of_nat w -> digits_value acc (digits w n) = acc * 10 ^ Z.of_nat w + n.
Proof.
  revert n acc. induction w as [|w IH]; intros n acc Hn; [cbn in *; lia|].
  rewrite Nat2Z.inj_succ, Z.pow_succ_r in * by lia. cbn [digits]. rewrite digits_value_app. cbn [digits_value].
  rewrite digit_value_digit by (pose proof (Z.mod_pos_bound n 10); lia).
  rewrite IH by (split; [apply Z.div_pos; lia|apply Z.div_lt_upper_bound; lia]).
  pose proof (Z.div_mod n 10 ltac:(lia)). lia.
Qed.

Lemma field_here w n r : 0 <= n < 10 ^ Z.of_nat w -> field (digits w n +:+ r) 0 w = n.
Proof.
  intros Hn. unfold field. cbn [sdrop]. rewrite <- (digits_length w n) at 1. rewrite stake_app.
  rewrite digits_value_digits by done. lia.
Qed.

Lemma field_skip w n c r i k : field (digits w n +:+ String c r) (w + S i) k = field r i k.
Proof.
  unfold field. do 2 f_equal.
  change (String c r) with (String c "" +:+ r). rewrite <- sapp_assoc.
  replace (w + S i)%nat with (String.length (digits w n +:+ String c "") + i)%nat by (rewrite slength_app, digits_length; cbn; lia).
  generalize (digits w n +:+ String c ""). intros p. induction p as [|x p IH]; [done|exact IH].
Qed.

(** Reads the field behind the given number of fields. *)
Ltac iso_field :=
  cbn [String.append];
  first [apply field_here; cbn; lia
        |etransitivity; [apply (field_skip 4) || apply (field_skip 2)|iso_field]].

(** Times whose year has four digits. *)
Definition four_digit_year (t : Z) : Prop := 0 <= getUTCFullYear t <= 9999.

Lemma iso_fields_of t : four_digit_year t -> iso_fields (toISOString t) = t.
Proof.
  intros Hy. pose proof (time_parts t) as (Ht & Hh & Hmi & Hs & Hms). pose proof (date_bounds t) as Hd.
  pose proof (month_from_day_spec _ _ (day_in_year_bounds t)) as [Hm _]. fold (getUTCMonth t) in Hm.
  assert (iso_year (getUTCFullYear t) = digits 4 (getUTCFullYear t)) as Ey
    by (unfold iso_year; destruct Hy; rewrite !(proj2 (Z.leb_le _ _)) by done; done).
  unfold iso_fields, toISOString. rewrite Ey. unfold four_digit_year in Hy.
  assert (forall a b c d e f g a' b' c' d' e' f' g', a = a' -> b = b' -> c = c' -> d = d' -> e = e' -> f = f' -> g = g' ->
    make_day a (b - 1) c * msPerDay + d * 3600000 + e * 60000 + f * 1000 + g
    = make_day a' (b' - 1) c' * msPerDay + d' * 3600000 + e' * 60000 + f' * 1000 + g') as Hcong by (intros; by subst).
  etransitivity; [apply (Hcong _ _ _ _ _ _ _ (getUTCFullYear t) (getUTCMonth t + 1) (getUTCDate t) (getUTCHours t) (getUTCMinutes t)
    (getUTCSeconds t) (getUTCMilliseconds t)); iso_field|].
  replace (getUTCMonth t + 1 - 1) with (getUTCMonth t) by lia. rewrite make_day_of. lia.
Qed.

Lemma date_parse_iso other t : four_digit_year t -> date_parse other (toISOString t) = Some t.
Proof. intros Hy. unfold date_parse. rewrite iso_fields_of by done. by rewrite bool_decide_true. Qed.

(** From 1970 up to the end of year 9999. *)
Lemma four_digit_range t : 0 <= t < 253402300800000 -> four_digit_year t.
Proof.
  intros Ht. unfold four_digit_year, getUTCFullYear. pose proof (year_from_day_spec (utc_day t)) as [H1 H2].
  assert (0 <= utc_day t < 2932897) by (unfold utc_day, msPerDay; Z.to_euclidean_division_equations; lia).
  assert (forall y, y <= 1969 -> day_from_year (y + 1) <= 0) as H3 by (intros y Hy; unfold day_from_year; Z.to_euclidean_division_equations; lia).
  assert (forall y, 10000 <= y -> 2932897 <= day_from_year y) as H4 by (intros y Hy; unfold day_from_year; Z.to_euclidean_division_equations; lia).
  split.
  - destruct (Z.le_gt_cases (year_from_day (utc_day t)) 1969); [specialize (H3 _ H0); lia|lia].
  - destruct (Z.le_gt_cases 10000 (year_from_day (utc_day t))); [specialize (H4 _ H0); lia|lia].
Qed.

Example iso_epoch : toISOString 1709210096789 = "2024-02-29T12:34:56.789Z".
Proof. vm_compute. reflexivity. Qed.

Example utc_epoch : toUTCString 0 = "Thu, 01 Jan 1970 00:00:00 GMT".
Proof. vm_compute. reflexivity. Qed.
