(* ===== verification/Bytes.v ===== *)
(** Node [Buffer]s: byte strings, slices and big-endian integers. *)

From S2P Require Import Prelude.
From Stdlib.Strings Require Export Byte.
From Stdlib Require Import BinNat.

(** ** Definitions *)

Abbreviation buffer := (list byte).

(** The value of a byte ([readUInt8]) and the byte a number is stored as. *)
Definition bz (b : byte) : Z := Z.of_N (Byte.to_N b).

Definition zb (z : Z) : byte :=
  match Byte.of_N (Z.to_N (z mod 256)) with Some b => b | None => x00 end.

(** Big-endian digits of [z] on [n] bytes ([writeUInt32BE], [writeBigUInt64BE]). *)
Fixpoint be_bytes (n : nat) (z : Z) : buffer :=
  match n with
  | O => []
  | S k => zb (z / 256 ^ Z.of_nat k) :: be_bytes k z
  end.

(** The number a big-endian byte string denotes. *)
Definition be_value (l : buffer) : Z := fold_left (fun acc b => acc * 256 + bz b)%Z l 0%Z.

(** [buf.subarray(from, to)]: indices past the end are clamped. *)
Definition subarray (buf : buffer) (from to : nat) : buffer := take (to - from) (drop from buf).

(** [buf.readUInt32BE(off)] and [buf.readBigUInt64BE(off)]: [None] is the
    RangeError Node throws out of bounds. *)
Definition read_be (n : nat) (buf : buffer) (off : nat) : option Z :=
  if off + n <=? length buf then Some (be_value (subarray buf off (off + n))) else None.

#[export] Instance byte_eq_dec : EqDecision byte := Byte.byte_eq_dec.

(** ** Lemmas *)

Lemma bz_bound b : (0 <= bz b < 256)%Z.
Proof.
  unfold bz. pose proof (Byte.to_N_bounded b). lia.
Qed.

Lemma bz_zb z : bz (zb z) = (z mod 256)%Z.
Proof.
  unfold zb, bz. pose proof (Z.mod_pos_bound z 256 ltac:(lia)).
  destruct (Byte.of_N (Z.to_N (z mod 256))) as [b|] eqn:E.
  - apply Byte.to_of_N in E. rewrite E. lia.
  - apply Byte.of_N_None_iff in E. lia.
Qed.

Lemma zb_bz b : zb (bz b) = b.
Proof.
  unfold zb. rewrite Z.mod_small by apply bz_bound. unfold bz.
  rewrite N2Z.id, Byte.of_to_N. done.
Qed.

Lemma zb_mod z : zb (z mod 256) = zb z.
Proof. unfold zb. by rewrite Z.mod_mod by lia. Qed.

Lemma bz_inj a b : bz a = bz b -> a = b.
Proof. intros H. rewrite <- (zb_bz a), <- (zb_bz b). by f_equal. Qed.

Lemma length_be_bytes n z : length (be_bytes n z) = n.
Proof. induction n; simpl; auto. Qed.

Lemma be_value_acc l a :
  fold_left (fun acc b => acc * 256 + bz b)%Z l a = (a * 256 ^ Zlen l + be_value l)%Z.
Proof.
  unfold be_value. revert a. induction l as [|x l IH]; intros a; simpl.
  - rewrite Zlen_nil. lia.
  - rewrite IH, (IH (0 * 256 + bz x)%Z), Zlen_cons, Z.pow_add_r by (pose proof (Zlen_nonneg l); lia). ring.
Qed.

Lemma be_value_cons x l : be_value (x :: l) = (bz x * 256 ^ Zlen l + be_value l)%Z.
Proof. unfold be_value at 1. simpl. by rewrite be_value_acc. Qed.

Lemma be_value_bound l : (0 <= be_value l < 256 ^ Zlen l)%Z.
Proof.
  induction l as [|x l IH]; [done|]. rewrite be_value_cons, Zlen_cons.
  pose proof (bz_bound x). pose proof (Zlen_nonneg l).
  rewrite Z.pow_add_r by lia. nia.
Qed.

Lemma be_value_bytes n z : be_value (be_bytes n z) = (z mod 256 ^ Z.of_nat n)%Z.
Proof.
  induction n as [|n IH]; simpl.
  - by rewrite Z.mod_1_r.
  - rewrite be_value_cons, IH, bz_zb. unfold Zlen. rewrite length_be_bytes.
    change (Z.pos (Pos.of_succ_nat n)) with (Z.of_nat (S n)).
    rewrite Nat2Z.inj_succ, Z.pow_succ_r by lia.
    rewrite (Z.mul_comm 256), Z.rem_mul_r by (try apply Z.pow_nonzero; lia). ring.
Qed.

Lemma be_bytes_mod n m z : n <= m -> be_bytes n (z mod 256 ^ Z.of_nat m) = be_bytes n z.
Proof.
  induction n as [|n IH]; intros Hle; simpl; [done|]. f_equal; [|by apply IH; lia].
  rewrite <- (zb_mod (z / _)), <- zb_mod. f_equal.
  replace (Z.of_nat m) with (Z.of_nat n + (Z.of_nat m - Z.of_nat n))%Z by lia.
  rewrite Z.pow_add_r, Z.rem_mul_r by (try apply Z.pow_nonzero; lia).
  rewrite (Z.add_comm (z mod _)), (Z.mul_comm (256 ^ Z.of_nat n)), Z.div_add_l
    by (apply Z.pow_nonzero; lia).
  rewrite (Z.div_small (z mod _)) by (apply Z.mod_pos_bound, Z.pow_pos_nonneg; lia).
  rewrite Z.add_0_r.
  replace (Z.of_nat m - Z.of_nat n)%Z with (1 + (Z.of_nat m - Z.of_nat n - 1))%Z by lia.
  rewrite Z.pow_add_r, Z.rem_mul_r by (try apply Z.pow_nonzero; lia).
  change (256 ^ 1)%Z with 256%Z.
  rewrite (Z.mul_comm 256), Z_mod_plus_full, Z.mod_mod by lia. done.
Qed.

Lemma be_bytes_value l : be_bytes (length l) (be_value l) = l.
Proof.
  induction l as [|x l IH]; simpl; [done|].
  rewrite be_value_cons. fold (Zlen l). f_equal.
  - rewrite Z.div_add_l by (apply Z.pow_nonzero; pose proof (Zlen_nonneg l); lia).
    rewrite Z.div_small, Z.add_0_r by apply be_value_bound. apply zb_bz.
  - rewrite <- (be_bytes_mod (length l) (length l)) by lia. fold (Zlen l).
    rewrite Z.add_comm, Z_mod_plus_full, Z.mod_small by apply be_value_bound. exact IH.
Qed.

Lemma subarray_app_l l k n : n = length l -> subarray (l ++ k) 0 n = l.
Proof. intros ->. unfold subarray. rewrite Nat.sub_0_r, drop_0, take_app_length. done. Qed.

Lemma subarray_drop l n : subarray l n (length l) = drop n l.
Proof. unfold subarray. rewrite take_ge; [done|]. rewrite length_drop. lia. Qed.

Lemma length_subarray l i j : i <= j -> j <= length l -> length (subarray l i j) = j - i.
Proof. intros. unfold subarray. rewrite length_take, length_drop. lia. Qed.

Lemma read_be_app pre n z post :
  read_be n (pre ++ be_bytes n z ++ post) (length pre) = Some (z mod 256 ^ Z.of_nat n)%Z.
Proof.
  unfold read_be, subarray.
  rewrite drop_app_length, !length_app, length_be_bytes.
  rewrite (proj2 (Nat.leb_le _ _)) by lia.
  replace (length pre + n - length pre) with n by lia.
  rewrite (take_app_length' (be_bytes n z)) by (by rewrite length_be_bytes).
  by rewrite be_value_bytes.
Qed.

#[export] Hint Rewrite length_be_bytes bz_zb zb_bz be_value_bytes be_bytes_value : jsrw.

#[global] Arguments be_bytes : simpl never.
#[global] Arguments be_value : simpl never.
#[global] Arguments bz : simpl never.
#[global] Arguments zb : simpl never.
#[global] Arguments subarray : simpl never.
#[global] Arguments read_be : simpl never.
