(* ===== verification/RelayCrypto.v ===== *)
(** Relay layer 2 (src/desktop/packages/web/src/server/lib/relay/crypto.ts):
    the frame budgets, the AES-GCM frame envelope with its per-direction
    counters, and the direction state. ECDH, HKDF and AES-GCM themselves are
    WebCrypto: the cipher is a parameter with the laws the code relies on. *)

From S2P Require Import Prelude Bytes.

(** ** Frame budgets *)

Definition RELAY_PROTOCOL_VERSION : Z := 1.

Definition MAX_PLAINTEXT_FRAME_BYTES : Z := 64 * 1024.

Definition ENCRYPTED_FRAME_HEADER_BYTES : Z := 13.

Definition GCM_TAG_BYTES : Z := 16.

Definition MIN_ENCRYPTED_FRAME_BYTES : Z := ENCRYPTED_FRAME_HEADER_BYTES + GCM_TAG_BYTES.

Definition MAX_TUNNEL_PAYLOAD_BYTES : Z := MAX_PLAINTEXT_FRAME_BYTES - 5 - 5.

Definition MAX_SAFE_FRAME_COUNTER : Z := MAX_SAFE_INTEGER.

(** ** The encrypted channel *)

Inductive CryptoError : Type :=
| PlaintextTooLarge
| FrameTooShort
| UnsupportedVersion
| CounterBeyondExactRange
| CounterRegression
| GcmFailed.

#[export] Instance CryptoError_eq_dec : EqDecision CryptoError.
Proof. solve_decision. Defined.

(** AES-256-GCM as the code uses it: sealing never fails, and opening a sealed
    text under the same key and IV gives the plaintext back; the sealed text is
    the plaintext's length plus the 16-byte tag. *)
Class AesGcm (key : Type) := {
  gcm_encrypt : key -> buffer -> buffer -> buffer;
  gcm_decrypt : key -> buffer -> buffer -> option buffer;
}.

Class AesGcmLaws (key : Type) `{AesGcm key} := {
  gcm_roundtrip : forall k iv p, gcm_decrypt k iv (gcm_encrypt k iv p) = Some p;
  gcm_length : forall k iv p, Zlen (gcm_encrypt k iv p) = (Zlen p + GCM_TAG_BYTES)%Z;
}.

Section channel.
  Context {key : Type} `{!AesGcm key}.

Record SessionDirection : Type := {
  dir_key : key;
  ivPrefix : buffer;
  counter : Z;
  lastCounter : Z;
}.

(** [newDirection]: the 4 random prefix bytes are an argument. *)
Definition newDirection (k : key) (prefix : buffer) : SessionDirection :=
  {| dir_key := k; ivPrefix := prefix; counter := 1; lastCounter := 0 |}.

(** The prefix copied over the first bytes of a zeroed 12-byte buffer (all of it
    when longer), then the counter over bytes 4 to 12. *)
Definition ivFor (d : SessionDirection) (c : Z) : buffer :=
  take 4 (ivPrefix d ++ replicate 4 x00) ++ be_bytes 8 c.

Definition encryptFrame (d : SessionDirection) (plaintext : buffer) :
    SessionDirection * exc CryptoError buffer :=
  if bool_decide (MAX_PLAINTEXT_FRAME_BYTES < Zlen plaintext)%Z then (d, Throw PlaintextTooLarge)
  else
    let c := counter d in
    let d' := {| dir_key := dir_key d; ivPrefix := ivPrefix d;
                 counter := c + 1; lastCounter := lastCounter d |} in
    let iv := ivFor d' c in
    (d', Ok (zb RELAY_PROTOCOL_VERSION :: iv ++ gcm_encrypt (dir_key d) iv plaintext)).

Definition decryptFrame (d : SessionDirection) (bytes : buffer) :
    SessionDirection * exc CryptoError buffer :=
  if bool_decide (Zlen bytes < MIN_ENCRYPTED_FRAME_BYTES)%Z then (d, Throw FrameTooShort)
  else if negb (bool_decide (bz <$> head bytes = Some RELAY_PROTOCOL_VERSION))
  then (d, Throw UnsupportedVersion)
  else
    match read_be 8 bytes 5 with
    | None => (d, Throw FrameTooShort)
    | Some wireCounter =>
      if bool_decide (MAX_SAFE_FRAME_COUNTER < wireCounter)%Z then (d, Throw CounterBeyondExactRange)
      else if bool_decide (wireCounter <= lastCounter d)%Z then (d, Throw CounterRegression)
      else match gcm_decrypt (dir_key d) (subarray bytes 1 13) (drop 13 bytes) with
           | None => (d, Throw GcmFailed)
           | Some plaintext =>
             ({| dir_key := dir_key d; ivPrefix := ivPrefix d; counter := counter d;
                 lastCounter := wireCounter |}, Ok plaintext)
           end
    end.

(** Sealing a run of messages, and opening a run of wire frames, in order. *)
Fixpoint encryptAll (d : SessionDirection) (ps : list buffer) :
    SessionDirection * list (exc CryptoError buffer) :=
  match ps with
  | [] => (d, [])
  | p :: ps' =>
    let '(d1, r) := encryptFrame d p in
    let '(d2, rs) := encryptAll d1 ps' in (d2, r :: rs)
  end.

Fixpoint decryptAll (d : SessionDirection) (ws : list buffer) :
    SessionDirection * list (exc CryptoError buffer) :=
  match ws with
  | [] => (d, [])
  | w :: ws' =>
    let '(d1, r) := decryptFrame d w in
    let '(d2, rs) := decryptAll d1 ws' in (d2, r :: rs)
  end.

(** ** Lemmas *)

Lemma length_ivFor d c : length (ivFor d c) = 12.
Proof.
  unfold ivFor. rewrite length_app, length_be_bytes, length_take, length_app, length_replicate. lia.
Qed.

Lemma ivFor_counter d c : drop 4 (ivFor d c) = be_bytes 8 c.
Proof.
  unfold ivFor. apply drop_app_length'.
  rewrite length_take, length_app, length_replicate. lia.
Qed.

Lemma ivFor_inj d c c' :
  (0 <= c < 2 ^ 64)%Z -> (0 <= c' < 2 ^ 64)%Z -> ivFor d c = ivFor d c' -> c = c'.
Proof.
  intros Hc Hc' H. apply (f_equal (drop 4)) in H. rewrite !ivFor_counter in H.
  apply (f_equal be_value) in H. rewrite !be_value_bytes in H.
  change (256 ^ Z.of_nat 8)%Z with (2 ^ 64)%Z in H.
  by rewrite !Z.mod_small in H.
Qed.

Lemma encryptFrame_Ok d p :
  (Zlen p <= MAX_PLAINTEXT_FRAME_BYTES)%Z ->
  encryptFrame d p =
    ({| dir_key := dir_key d; ivPrefix := ivPrefix d; counter := counter d + 1;
        lastCounter := lastCounter d |},
     Ok (zb RELAY_PROTOCOL_VERSION :: ivFor d (counter d)
           ++ gcm_encrypt (dir_key d) (ivFor d (counter d)) p)).
Proof. intros. unfold encryptFrame. rewrite bool_decide_false by lia. done. Qed.

Lemma read_counter d c rest :
  (0 <= c <= MAX_SAFE_INTEGER)%Z ->
  read_be 8 (zb RELAY_PROTOCOL_VERSION :: ivFor d c ++ rest) 5 = Some c.
Proof.
  intros Hc. unfold ivFor.
  set (pre := take 4 _).
  assert (length pre = 4) as Hpre
    by (unfold pre; rewrite length_take, length_app, length_replicate; lia).
  transitivity (read_be 8 ((zb RELAY_PROTOCOL_VERSION :: pre) ++ be_bytes 8 c ++ rest)
                  (length (zb RELAY_PROTOCOL_VERSION :: pre))).
  - f_equal; [by rewrite <- app_assoc|simpl; lia].
  - rewrite read_be_app, Z.mod_small; [done|]. change (256 ^ Z.of_nat 8)%Z with (2 ^ 64)%Z.
    unfold MAX_SAFE_INTEGER in Hc. lia.
Qed.

Lemma decryptFrame_sealed `{!AesGcmLaws key} d e c p :
  dir_key e = dir_key d -> (lastCounter d < c)%Z -> (0 <= c <= MAX_SAFE_INTEGER)%Z ->
  decryptFrame d (zb RELAY_PROTOCOL_VERSION :: ivFor e c ++ gcm_encrypt (dir_key e) (ivFor e c) p)
  = ({| dir_key := dir_key d; ivPrefix := ivPrefix d; counter := counter d;
        lastCounter := c |}, Ok p).
Proof.
  intros Hk Hlt Hc. unfold decryptFrame.
  assert (Zlen (ivFor e c) = 12)%Z by (unfold Zlen; rewrite length_ivFor; done).
  pose proof (Zlen_nonneg p). autorewrite with jsrw. rewrite gcm_length.
  unfold MIN_ENCRYPTED_FRAME_BYTES, ENCRYPTED_FRAME_HEADER_BYTES, GCM_TAG_BYTES in *.
  rewrite bool_decide_false by lia. cbn [head fmap option_fmap option_map].
  rewrite bool_decide_true by (by rewrite bz_zb). cbn [negb].
  rewrite read_counter by done.
  rewrite bool_decide_false by (unfold MAX_SAFE_FRAME_COUNTER; lia).
  rewrite bool_decide_false by lia.
  replace (subarray _ 1 13) with (ivFor e c).
  2:{ unfold subarray. cbn [drop]. change (13 - 1) with 12. by rewrite drop_0, take_app_length' by (by rewrite length_ivFor). }
  cbn [drop]. rewrite drop_app_length' by (by rewrite length_ivFor).
  by rewrite Hk, gcm_roundtrip.
Qed.

Lemma decryptFrame_lastCounter d w d' r :
  decryptFrame d w = (d', r) -> (lastCounter d <= lastCounter d')%Z /\ dir_key d' = dir_key d.
Proof.
  unfold decryptFrame. intros H.
  repeat case_match; simplify_eq/=; bool_facts; split; done || lia.
Qed.

Lemma decryptFrame_Ok_counter d w d' p :
  decryptFrame d w = (d', Ok p) -> read_be 8 w 5 = Some (lastCounter d').
Proof.
  unfold decryptFrame. intros H. repeat case_match; simplify_eq/=; done.
Qed.

Lemma decryptFrame_replayed d w :
  (exists c, read_be 8 w 5 = Some c /\ c <= lastCounter d)%Z ->
  exc_ok (decryptFrame d w).2 = false /\ (decryptFrame d w).1 = d.
Proof.
  intros (c & Hr & Hle). unfold decryptFrame. rewrite Hr. repeat case_match; simplify_eq/=;
  bool_facts; done || lia.
Qed.

Lemma decryptAll_lastCounter d ws :
  (lastCounter d <= lastCounter (decryptAll d ws).1)%Z.
Proof.
  revert d. induction ws as [|w ws IH]; intros d; simpl; [done|].
  destruct (decryptFrame d w) as [d1 r] eqn:E1.
  specialize (IH d1). destruct (decryptAll d1 ws) as [d2 rs]. simpl in *.
  apply decryptFrame_lastCounter in E1. lia.
Qed.

End channel.

(** ** Properties *)

(** What a sender seals a receiver opens, message by message. *)
Lemma sealed_run_opens {key} `{!AesGcm key, !AesGcmLaws key}
    (s r : SessionDirection) (ps : list buffer) :
  dir_key s = dir_key r -> (0 <= lastCounter r < counter s)%Z ->
  (counter s + Zlen ps <= MAX_SAFE_INTEGER)%Z ->
  Forall (fun p => Zlen p <= MAX_PLAINTEXT_FRAME_BYTES)%Z ps ->
  exists ws, (encryptAll s ps).2 = Ok <$> ws /\ (decryptAll r ws).2 = Ok <$> ps.
Proof.
  intros Hk Hc Hb Hp. revert s r Hk Hc Hb.
  induction Hp as [|p ps Hp _ IH]; intros s r Hk Hc Hb; [by exists []|].
  rewrite Zlen_cons in Hb. pose proof (Zlen_nonneg ps). simpl. rewrite encryptFrame_Ok by done.
  set (s1 := Build_SessionDirection _ _ _ _).
  pose (r1 := {| dir_key := dir_key r; ivPrefix := ivPrefix r; counter := counter r;
                 lastCounter := counter s |}).
  destruct (IH s1 r1) as (ws & Hws & Hps); [done|simpl; lia..|].
  set (w := _ :: _). exists (w :: ws).
  destruct (encryptAll s1 ps) as [s2 rs]. simpl in *. subst rs. split; [done|].
  unfold w. rewrite decryptFrame_sealed by (done || lia). fold r1.
  destruct (decryptAll r1 ws) as [r2 os]. simpl in *. by subst.
Qed.

(** C1. End to end over one direction: any run of messages, each within the
    64 KiB budget, sealed by a sender and opened in wire order by a receiver
    holding the same key whose highest accepted counter is below the sender's
    next one, comes out unchanged and complete. *)
Theorem channel_delivers_in_order {key} `{!AesGcm key, !AesGcmLaws key}
    (s r : SessionDirection) (ps : list buffer) :
  dir_key s = dir_key r -> (0 <= lastCounter r < counter s)%Z ->
  (counter s + Zlen ps <= MAX_SAFE_INTEGER)%Z ->
  Forall (fun p => Zlen p <= MAX_PLAINTEXT_FRAME_BYTES)%Z ps ->
  exists ws, (encryptAll s ps).2 = Ok <$> ws /\ (decryptAll r ws).2 = Ok <$> ps.
Proof. apply sealed_run_opens. Qed.

(** C9. Replay protection: once a frame has been accepted, the same frame is
    refused, and the state left untouched, after any further frames whatever
    they are. *)
Theorem accepted_frame_never_replays {key} `{!AesGcm key}
    (d d' : SessionDirection) (w p : buffer) (later : list buffer) :
  decryptFrame d w = (d', Ok p) ->
  let d2 := (decryptAll d' later).1 in
  exc_ok (decryptFrame d2 w).2 = false /\ (decryptFrame d2 w).1 = d2.
Proof.
  intros H d2. apply decryptFrame_replayed. exists (lastCounter d').
  split; [by eapply decryptFrame_Ok_counter|apply decryptAll_lastCounter].
Qed.

(** A toy cipher that obeys the laws, for concrete runs: the "sealed" text is
    the plaintext followed by sixteen tag bytes. *)
#[local] Instance plain_gcm : AesGcm unit := {
  gcm_encrypt := fun _ _ p => p ++ replicate 16 x00;
  gcm_decrypt := fun _ _ c => Some (take (length c - 16) c);
}.

#[local] Instance plain_gcm_laws : AesGcmLaws unit.
Proof.
  split; intros; cbn [gcm_encrypt gcm_decrypt plain_gcm].
  - f_equal. rewrite length_app, length_replicate, Nat.add_sub, take_app_length. done.
  - rewrite Zlen_app. done.
Qed.

Lemma channel_delivers_in_order_witness :
  let d := newDirection tt [x01; x02; x03; x04] in
  exists ws, (encryptAll d [[x41]; []; [x42; x43]]).2 = Ok <$> ws
    /\ (decryptAll d ws).2 = Ok <$> [[x41]; []; [x42; x43]].
Proof.
  intros d. apply (channel_delivers_in_order d d); [done|done|done|].
  repeat constructor; vm_compute; discriminate.
Defined.

Lemma accepted_frame_never_replays_witness :
  let d := newDirection tt [x01; x02; x03; x04] in
  let w := zb 1 :: [x01; x02; x03; x04] ++ be_bytes 8 1 ++ [x41] ++ replicate 16 x00 in
  let d' := (decryptFrame d w).1 in
  exc_ok (decryptFrame (decryptAll d' [w; []; w]).1 w).2 = false.
Proof.
  intros d w d'.
  refine (proj1 (accepted_frame_never_replays d d' w [x41] [w; []; w] _)). reflexivity.
Defined.
