(* ===== verification/RelayCodec.v ===== *)
(** Relay layer 3, the tunnel multiplexing codec
    (src/desktop/packages/web/src/server/lib/relay/tunnel-codec.ts): frames,
    fragmentation and the fragment assembler. *)

From S2P Require Import Prelude JsString JsMap Bytes RelayCrypto.

(** ** Frames *)

Definition TUNNEL_FRAME_HEADER_BYTES : nat := 5.

Definition MAX_ASSEMBLED_MESSAGE_BYTES : Z := 16 * 1024 * 1024.

Definition MAX_PENDING_FRAGMENT_STREAMS : nat := 256.

Inductive TunnelFrameType : Type :=
| HttpRequest | HttpBody | HttpResponse | StreamEnd | StreamAbort
| WsOpen | WsOpened | WsText | WsBinary | WsClose | Ping | Pong | DeliveryAck.

(** The wire numerals of the types. *)
Definition type_code (t : TunnelFrameType) : Z :=
  match t with
  | HttpRequest => 1 | HttpBody => 2 | HttpResponse => 3 | StreamEnd => 4 | StreamAbort => 5
  | WsOpen => 6 | WsOpened => 7 | WsText => 8 | WsBinary => 9 | WsClose => 10
  | Ping => 11 | Pong => 12 | DeliveryAck => 13
  end.

Definition HAS_MORE_FLAG : Z := 128.

Definition KNOWN_FRAME_TYPES : list Z :=
  type_code <$> [HttpRequest; HttpBody; HttpResponse; StreamEnd; StreamAbort;
    WsOpen; WsOpened; WsText; WsBinary; WsClose; Ping; Pong; DeliveryAck].

Record TunnelFrame : Type := mkFrame {
  ftype : Z;
  streamId : Z;
  hasMore : bool;
  payload : buffer;
}.

#[export] Instance TunnelFrame_eq_dec : EqDecision TunnelFrame.
Proof. solve_decision. Defined.

Inductive CodecError : Type :=
| HeaderTruncated
| UnknownFrameType (t : Z)
| ChunkSizeNotPositiveSafe
| ChunkSizeOverBudget
| OnlyWsFragmented
| MessageExceedsBound
| ArrivedFragmented (t : Z)
| TooManyPartials.

#[export] Instance CodecError_eq_dec : EqDecision CodecError.
Proof. solve_decision. Defined.

Definition encodeTunnelFrame (frame : TunnelFrame) : buffer :=
  let head := Z.lor (Z.land (ftype frame) 127) (if hasMore frame then HAS_MORE_FLAG else 0) in
  zb head :: be_bytes 4 (streamId frame mod u32_mod) ++ payload frame.

Definition decodeTunnelFrame (bytes : buffer) : exc CodecError TunnelFrame :=
  match bytes with
  | h :: _ =>
    if length bytes <? TUNNEL_FRAME_HEADER_BYTES then Throw HeaderTruncated
    else
      let head := bz h in
      let type := Z.land head 127 in
      if negb (bool_decide (type ∈ KNOWN_FRAME_TYPES)) then Throw (UnknownFrameType type)
      else match read_be 4 bytes 1 with
           | None => Throw HeaderTruncated
           | Some sid =>
             Ok {| ftype := type; streamId := sid;
                   hasMore := negb (bool_decide (Z.land head HAS_MORE_FLAG = 0%Z));
                   payload := drop TUNNEL_FRAME_HEADER_BYTES bytes |}
           end
  | [] => Throw HeaderTruncated
  end.

Definition isFragmentableType (type : Z) : bool :=
  bool_decide (type = type_code WsText) || bool_decide (type = type_code WsBinary).

(** ** Stream identifiers *)

(** The allocator's closure state is the next id. *)
Definition createStreamIdAllocator (start : Z) : Z :=
  if bool_decide (Z.rem start 2 = 0)%Z then start + 1 else start.

Definition allocator_next (current : Z) : Z * Z := (current + 2, current)%Z.

Definition allocator_peek (current : Z) : Z := current.

Fixpoint allocate (n : nat) (current : Z) : list Z :=
  match n with
  | O => []
  | S k => let '(current', id) := allocator_next current in id :: allocate k current'
  end.

(** ** Chunks and fragments *)

(** The [for] loop over offsets; one unit of fuel per iteration. *)
Fixpoint chunk_loop (fuel : nat) (body : buffer) (chunkSize offset : nat) : list buffer :=
  match fuel with
  | O => []
  | S f =>
    if offset <? length body
    then subarray body offset (offset + chunkSize) :: chunk_loop f body chunkSize (offset + chunkSize)
    else []
  end.

Definition chunkPayload (body : buffer) (chunkSize : Z) : exc CodecError (list buffer) :=
  if negb (is_safe_integer chunkSize) || bool_decide (chunkSize <= 0)%Z
  then Throw ChunkSizeNotPositiveSafe
  else if bool_decide (MAX_TUNNEL_PAYLOAD_BYTES < chunkSize)%Z then Throw ChunkSizeOverBudget
  else match body with
       | [] => Ok [[]]
       | _ => Ok (chunk_loop (length body) body (Z.to_nat chunkSize) 0)
       end.

Definition fragment_frames (type sid : Z) (chunks : list buffer) : list TunnelFrame :=
  imap (fun index chunk =>
    {| ftype := type; streamId := sid;
       hasMore := bool_decide (Z.of_nat index < Zlen chunks - 1)%Z; payload := chunk |}) chunks.

Definition encodeFragmentedMessage (type : TunnelFrameType) (sid : Z) (body : buffer)
    (chunkSize : Z) : exc CodecError (list buffer) :=
  if negb (isFragmentableType (type_code type)) then Throw OnlyWsFragmented
  else chunks ← chunkPayload body chunkSize;
       mret (encodeTunnelFrame <$> fragment_frames (type_code type) sid chunks).

(** ** The fragment assembler *)

Record AssembledMessage : Type := mkMessage {
  m_type : Z;
  m_stream : Z;
  m_payload : buffer;
}.

#[export] Instance AssembledMessage_eq_dec : EqDecision AssembledMessage.
Proof. solve_decision. Defined.

Record Partial : Type := {
  p_type : Z;
  p_stream : Z;
  p_chunks : list buffer;
  p_bytes : Z;
}.

(** [parts]: the pending fragment groups, keyed by [`${streamId}:${type}`]. *)
Abbreviation parts_map := (list (string * Partial)).

Definition keyFor (frame : TunnelFrame) : string :=
  pretty (streamId frame) +:+ ":" +:+ pretty (ftype frame).

Definition assembler_complete (parts : parts_map) (frame : TunnelFrame) :
    parts_map * exc CodecError (option AssembledMessage) :=
  let key := keyFor frame in
  let pending := jget key parts in
  let parts' := jdel key parts in
  match pending with
  | None =>
    if bool_decide (MAX_ASSEMBLED_MESSAGE_BYTES < Zlen (payload frame))%Z
    then (parts', Throw MessageExceedsBound)
    else (parts', Ok (Some (mkMessage (ftype frame) (streamId frame) (payload frame))))
  | Some p =>
    if bool_decide (MAX_ASSEMBLED_MESSAGE_BYTES < p_bytes p + Zlen (payload frame))%Z
    then (parts', Throw MessageExceedsBound)
    else (parts', Ok (Some (mkMessage (ftype frame) (streamId frame)
                              (concat (p_chunks p ++ [payload frame])))))
  end.

Definition assembler_push (parts : parts_map) (frame : TunnelFrame) :
    parts_map * exc CodecError (option AssembledMessage) :=
  if hasMore frame && negb (isFragmentableType (ftype frame))
  then (parts, Throw (ArrivedFragmented (ftype frame)))
  else if negb (hasMore frame) then assembler_complete parts frame
  else
    let key := keyFor frame in
    if negb (jhas key parts) && bool_decide (MAX_PENDING_FRAGMENT_STREAMS <= jsize parts)
    then (parts, Throw TooManyPartials)
    else
      let entry := default {| p_type := ftype frame; p_stream := streamId frame;
                              p_chunks := []; p_bytes := 0 |} (jget key parts) in
      let entry' := {| p_type := p_type entry; p_stream := p_stream entry;
                       p_chunks := p_chunks entry ++ [payload frame];
                       p_bytes := p_bytes entry + Zlen (payload frame) |} in
      if bool_decide (MAX_ASSEMBLED_MESSAGE_BYTES < p_bytes entry')%Z
      then (jdel key parts, Throw MessageExceedsBound)
      else (jset key entry' parts, Ok None).

(** [reset(streamId?)]: without an argument everything is dropped. *)
Definition assembler_reset (parts : parts_map) (sid : option Z) : parts_map :=
  match sid with
  | None => []
  | Some s => filter (fun kv => String.prefix (pretty s +:+ ":") (fst kv) = false) parts
  end.

(** A run of pushes. *)
Fixpoint assembler_run (parts : parts_map) (frames : list TunnelFrame) :
    parts_map * list (exc CodecError (option AssembledMessage)) :=
  match frames with
  | [] => (parts, [])
  | f :: fs =>
    let '(parts1, r) := assembler_push parts f in
    let '(parts2, rs) := assembler_run parts1 fs in (parts2, r :: rs)
  end.

(** ** Frame lemmas *)

Lemma land_byte_head h m :
  Z.land m 255 = m -> Z.land (bz (zb h)) m = Z.land h m.
Proof.
  intros Hm. rewrite bz_zb. change 256%Z with (2 ^ 8)%Z. rewrite <- Z.land_ones by lia.
  change (Z.ones 8) with 255%Z. rewrite <- Z.land_assoc, (Z.land_comm 255), Hm. done.
Qed.

Lemma head_type t more :
  Z.land (bz (zb (Z.lor (Z.land t 127) (if (more : bool) then HAS_MORE_FLAG else 0)))) 127
  = Z.land t 127.
Proof.
  rewrite land_byte_head, Z.land_lor_distr_l, <- Z.land_assoc by done.
  destruct more; cbn [Z.land]; by rewrite Z.lor_0_r.
Qed.

Lemma head_more t more :
  negb (bool_decide (Z.land (bz (zb (Z.lor (Z.land t 127)
    (if (more : bool) then HAS_MORE_FLAG else 0)))) HAS_MORE_FLAG = 0%Z)) = more.
Proof.
  rewrite land_byte_head, Z.land_lor_distr_l, <- Z.land_assoc by done.
  change (Z.land 127 HAS_MORE_FLAG) with 0%Z. rewrite Z.land_0_r. by destruct more.
Qed.

Lemma length_encodeTunnelFrame f :
  length (encodeTunnelFrame f) = TUNNEL_FRAME_HEADER_BYTES + length (payload f).
Proof. unfold encodeTunnelFrame. cbn [length]. rewrite length_app, length_be_bytes. done. Qed.

(** What decoding an encoded frame gives, whatever the fields hold. *)
Lemma decode_encode f :
  decodeTunnelFrame (encodeTunnelFrame f) =
    if decide (Z.land (ftype f) 127 ∈ KNOWN_FRAME_TYPES)
    then Ok {| ftype := Z.land (ftype f) 127; streamId := streamId f mod u32_mod;
               hasMore := hasMore f; payload := payload f |}
    else Throw (UnknownFrameType (Z.land (ftype f) 127)).
Proof.
  unfold decodeTunnelFrame. pose proof (length_encodeTunnelFrame f) as Hl.
  unfold encodeTunnelFrame in *. cbv zeta in *.
  rewrite (proj2 (Nat.ltb_ge _ _)) by (rewrite Hl; lia).
  rewrite head_type, head_more. case_decide; [|by rewrite bool_decide_false].
  rewrite bool_decide_true by done. cbn [negb].
  pose proof (read_be_app [zb (Z.lor (Z.land (ftype f) 127) (if hasMore f then HAS_MORE_FLAG else 0))]
    4 (streamId f mod u32_mod) (payload f)) as Hr.
  match type of Hr with ?l = _ => match goal with |- context [read_be 4 ?b 1] =>
    change (read_be 4 b 1) with l end end.
  rewrite Hr. change (256 ^ Z.of_nat 4)%Z with u32_mod.
  rewrite Z.mod_mod by done. done.
Qed.

Lemma head_rebuilds h :
  zb (Z.lor (Z.land (Z.land (bz h) 127) 127)
        (if negb (bool_decide (Z.land (bz h) HAS_MORE_FLAG = 0%Z)) then HAS_MORE_FLAG else 0)) = h.
Proof. by destruct h. Qed.

Lemma decodeTunnelFrame_Ok bytes f :
  decodeTunnelFrame bytes = Ok f ->
  exists h s4 rest, bytes = h :: s4 ++ rest /\ length s4 = 4
    /\ ftype f = Z.land (bz h) 127 /\ ftype f ∈ KNOWN_FRAME_TYPES
    /\ streamId f = be_value s4
    /\ hasMore f = negb (bool_decide (Z.land (bz h) HAS_MORE_FLAG = 0%Z)) /\ payload f = rest.
Proof.
  unfold decodeTunnelFrame. intros H. destruct bytes as [|h bytes]; [done|].
  destruct (_ <? _) eqn:Hl; [done|]. bool_facts. simpl in Hl.
  destruct (bool_decide _) eqn:Hk; [|done]. bool_facts. cbn [negb] in H.
  destruct (read_be 4 (h :: bytes) 1) as [sid|] eqn:Hr; [|done]. simplify_eq.
  exists h, (take 4 bytes), (drop 4 bytes). simpl.
  rewrite take_drop, length_take. unfold TUNNEL_FRAME_HEADER_BYTES in Hl.
  repeat split; try done; [lia|].
  unfold read_be in Hr. case_match; [|done]. simplify_eq. done.
Qed.

Lemma encode_decode bytes f :
  decodeTunnelFrame bytes = Ok f ->
  encodeTunnelFrame f = bytes /\ (0 <= streamId f < u32_mod)%Z.
Proof.
  intros (h & s4 & rest & -> & Hl & Ht & Hk & Hs & Hm & Hp)%decodeTunnelFrame_Ok.
  assert (0 <= streamId f < u32_mod)%Z as Hb.
  { rewrite Hs. pose proof (be_value_bound s4) as Hb. unfold Zlen in Hb. rewrite Hl in Hb. done. }
  split; [|done]. unfold encodeTunnelFrame. rewrite Z.mod_small by done.
  rewrite Ht, Hs, Hm, Hp, head_rebuilds, <- Hl, be_bytes_value. done.
Qed.

Lemma known_type_code t : type_code t ∈ KNOWN_FRAME_TYPES.
Proof. apply list_elem_of_fmap. exists t. split; [done|]. destruct t; set_solver. Qed.

Lemma known_land t : t ∈ KNOWN_FRAME_TYPES -> Z.land t 127 = t.
Proof. intros H. unfold KNOWN_FRAME_TYPES in H. simpl in H. set_unfold in H. naive_solver. Qed.

(** A well-formed frame: a known type and a 32-bit stream id. *)
Definition frame_wf (f : TunnelFrame) : Prop :=
  ftype f ∈ KNOWN_FRAME_TYPES /\ (0 <= streamId f < u32_mod)%Z.

Lemma decode_encode_wf f : frame_wf f -> decodeTunnelFrame (encodeTunnelFrame f) = Ok f.
Proof.
  intros [Hk Hs]. rewrite decode_encode, known_land by done. rewrite decide_True by done.
  rewrite Z.mod_small by done. by destruct f.
Qed.

(** ** Chunk lemmas *)

Lemma chunk_loop_concat fuel body size offset :
  0 < size -> length body <= offset + fuel -> concat (chunk_loop fuel body size offset) = drop offset body.
Proof.
  revert offset. induction fuel as [|fuel IH]; intros offset Hs Hf; simpl.
  - rewrite drop_ge; [done|lia].
  - destruct (offset <? length body) eqn:E; bool_facts.
    + simpl. rewrite IH by lia. unfold subarray.
      replace (offset + size - offset) with size by lia.
      rewrite <- drop_drop. apply take_drop.
    + rewrite drop_ge; [done|lia].
Qed.

Lemma chunk_loop_sizes fuel body size offset :
  Forall (fun c => length c <= size) (chunk_loop fuel body size offset).
Proof.
  revert offset. induction fuel as [|fuel IH]; intros offset; simpl; [constructor|].
  case_match; constructor; [|apply IH]. unfold subarray. rewrite length_take. lia.
Qed.

Lemma chunk_loop_nonempty_chunks fuel body size offset :
  0 < size -> Forall (fun c => c <> []) (chunk_loop fuel body size offset).
Proof.
  intros Hs. revert offset. induction fuel as [|fuel IH]; intros offset; simpl; [constructor|].
  destruct (offset <? length body) eqn:E; bool_facts; constructor; [|apply IH].
  intros Hn. apply (f_equal length) in Hn. unfold subarray in Hn.
  rewrite length_take, length_drop in Hn. simpl in Hn. lia.
Qed.

Lemma chunkPayload_Ok body size chunks :
  chunkPayload body size = Ok chunks ->
  (0 < size <= MAX_TUNNEL_PAYLOAD_BYTES)%Z /\ concat chunks = body /\ chunks <> []
  /\ Forall (fun c => Zlen c <= size)%Z chunks.
Proof.
  unfold chunkPayload. intros H.
  destruct (_ || _) eqn:E1; [done|]. bool_facts. destruct (bool_decide _) eqn:E2; [done|]. bool_facts.
  assert (0 < size <= MAX_TUNNEL_PAYLOAD_BYTES)%Z by lia.
  destruct body as [|b body].
  - simplify_eq. repeat split; try done; try lia. repeat constructor. rewrite Zlen_nil. lia.
  - assert (chunks = chunk_loop (length (b :: body)) (b :: body) (Z.to_nat size) 0) as -> by congruence.
    split; [lia|]. split; [|split].
    + rewrite chunk_loop_concat; [done|lia|simpl; lia].
    + done.
    + eapply Forall_impl; [apply chunk_loop_sizes|]. intros c Hc. simpl in Hc. unfold Zlen. lia.
Qed.

Lemma fragment_frames_snoc t s pre last :
  fragment_frames t s (pre ++ [last]) = (mkFrame t s true <$> pre) ++ [mkFrame t s false last].
Proof.
  unfold fragment_frames. rewrite imap_app. simpl. f_equal.
  - rewrite <- (imap_const (mkFrame t s true)). apply imap_ext. intros i x Hi. apply lookup_lt_Some in Hi.
    unfold const. rewrite bool_decide_true; [done|]. autorewrite with jsrw. unfold Zlen. lia.
  - rewrite bool_decide_false; [done|]. autorewrite with jsrw. unfold Zlen. lia.
Qed.

(** ** Assembler lemmas *)

Lemma keyFor_String f : keyFor f = pretty (streamId f) +:+ String ":"%char (pretty (ftype f)).
Proof. done. Qed.

Lemma keyFor_inj f g : keyFor f = keyFor g -> streamId f = streamId g /\ ftype f = ftype g.
Proof.
  rewrite !keyFor_String. intros [Hs Ht]%sep_inj; [|apply lacks_pretty_Z..].
  split; by apply (inj pretty).
Qed.

Lemma push_other parts f k :
  keyFor f <> k -> jget k (assembler_push parts f).1 = jget k parts.
Proof.
  intros Hne. unfold assembler_push, assembler_complete.
  repeat case_match; simplify_eq/=; rewrite ?jget_del_ne, ?jget_set_ne by done; done.
Qed.

Lemma push_jwf parts f : jwf parts -> jwf (assembler_push parts f).1.
Proof.
  intros Hwf. unfold assembler_push, assembler_complete.
  repeat case_match; simplify_eq/=; auto with js.
Qed.

(** The pending group the chunks [acc] have built up. *)
Definition pending_of (t s : Z) (acc : list buffer) : option Partial :=
  match acc with
  | [] => None
  | _ => Some {| p_type := t; p_stream := s; p_chunks := acc; p_bytes := Zsum (Zlen <$> acc) |}
  end.

Lemma pending_of_snoc t s acc c :
  pending_of t s (acc ++ [c])
  = Some {| p_type := t; p_stream := s; p_chunks := acc ++ [c];
            p_bytes := Zsum (Zlen <$> acc) + Zlen c |}.
Proof.
  unfold pending_of. destruct (acc ++ [c]) eqn:E; [by destruct acc|]. rewrite <- E.
  rewrite fmap_app, Zsum_app. do 2 f_equal. unfold Zsum. simpl. lia.
Qed.

Lemma push_more parts t s acc c parts' o :
  jget (keyFor (mkFrame t s true c)) parts = pending_of t s acc ->
  assembler_push parts (mkFrame t s true c) = (parts', Ok o) ->
  o = None /\ jget (keyFor (mkFrame t s true c)) parts' = pending_of t s (acc ++ [c]).
Proof.
  intros Hg. unfold assembler_push. cbn [hasMore negb andb]. rewrite Hg.
  repeat case_match; intros; simplify_eq. split; [done|].
  rewrite jget_set_eq, pending_of_snoc. by destruct acc.
Qed.

Lemma push_last parts t s acc c parts' o :
  jwf parts ->
  jget (keyFor (mkFrame t s false c)) parts = pending_of t s acc ->
  assembler_push parts (mkFrame t s false c) = (parts', Ok o) ->
  o = Some (mkMessage t s (concat acc ++ c))
  /\ jget (keyFor (mkFrame t s false c)) parts' = None.
Proof.
  intros Hwf Hg. unfold assembler_push, assembler_complete. cbn [hasMore negb andb]. rewrite Hg.
  intros H. destruct acc as [|a acc]; cbn [pending_of] in *; case_match; simplify_eq.
  - split; [done|]. by apply jget_del_eq.
  - split; [|by apply jget_del_eq]. cbn [p_chunks payload].
    rewrite concat_app. simpl. by rewrite app_nil_r, ?app_assoc.
Qed.

(** The outputs of a run that belong to the frames of one group. *)
Definition outs_of (k : string) (trace : list TunnelFrame)
    (outs : list (exc CodecError (option AssembledMessage))) :=
  snd <$> filter (fun fo => keyFor (fst fo) = k) (zip trace outs).

Lemma run_cons parts f fs :
  assembler_run parts (f :: fs) =
    ((assembler_run (assembler_push parts f).1 fs).1,
     (assembler_push parts f).2 :: (assembler_run (assembler_push parts f).1 fs).2).
Proof.
  simpl. destruct (assembler_push parts f) as [p1 r]. simpl.
  by destruct (assembler_run p1 fs).
Qed.

Lemma run_untouched trace parts k :
  filter (fun f => keyFor f = k) trace = [] ->
  jget k (assembler_run parts trace).1 = jget k parts
  /\ outs_of k trace (assembler_run parts trace).2 = [].
Proof.
  unfold outs_of. revert parts. induction trace as [|f trace IH]; intros parts Hf; [done|].
  rewrite run_cons. cbn [fst snd zip zip_with]. rewrite filter_cons in Hf. case_decide; [done|].
  rewrite filter_cons_False by done.
  destruct (IH (assembler_push parts f).1 Hf) as [-> ->]. split; [|done]. by apply push_other.
Qed.

Lemma run_reassembles trace parts t s acc pre last k :
  k = keyFor (mkFrame t s false last) ->
  jwf parts ->
  jget k parts = pending_of t s acc ->
  filter (fun f => keyFor f = k) trace = (mkFrame t s true <$> pre) ++ [mkFrame t s false last] ->
  Forall (fun o => exc_ok o = true) (assembler_run parts trace).2 ->
  jget k (assembler_run parts trace).1 = None
  /\ outs_of k trace (assembler_run parts trace).2
     = replicate (length pre) (Ok None)
         ++ [Ok (Some (mkMessage t s (concat acc ++ concat pre ++ last)))].
Proof.
  intros Hkey. unfold outs_of. revert parts acc pre.
  induction trace as [|f trace IH]; intros parts acc pre Hwf Hg Hf Hok.
  { symmetry in Hf. by apply app_nil in Hf as [_ ?]. }
  rewrite run_cons in *. cbn [fst snd zip zip_with] in *. inversion_clear Hok as [|?? Ho Hoks].
  pose proof (push_jwf parts f Hwf) as Hwf'.
  rewrite filter_cons in Hf. case_decide as Hk.
  - rewrite filter_cons_True by done.
    destruct (assembler_push parts f) as [parts' [o|e]] eqn:E; [|done]. cbn [fst snd] in *.
    destruct pre as [|c pre]; injection Hf as -> Hf.
    + apply push_last with (acc := acc) in E as [-> Hn]; [|by rewrite <- ?Hkey..].
      destruct (run_untouched _ parts' _ Hf) as [Hg' Ho']. unfold outs_of in Ho'.
      rewrite Hg', <- Hk. split; [done|]. rewrite Hk.
      cbn [fmap list_fmap snd length replicate app concat]. by rewrite Ho'.
    + apply push_more with (acc := acc) in E as [-> Hn]; [|by rewrite <- Hk in Hg].
      destruct (IH parts' (acc ++ [c]) pre) as [Hg' Ho']; [done|by rewrite <- Hk|done..|].
      split; [done|]. cbn [fmap list_fmap snd length replicate app]. f_equal.
      rewrite Ho', concat_app. simpl. by rewrite app_nil_r, <- !app_assoc.
  - rewrite filter_cons_False by done. apply IH; [done|by rewrite push_other|done..].
Qed.

(** The memory invariant of the assembler. *)
Definition partial_wf (kv : string * Partial) : Prop :=
  kv.1 = keyFor (mkFrame (p_type kv.2) (p_stream kv.2) true [])
  /\ isFragmentableType (p_type kv.2) = true
  /\ p_bytes kv.2 = Zsum (Zlen <$> p_chunks kv.2)
  /\ (p_bytes kv.2 <= MAX_ASSEMBLED_MESSAGE_BYTES)%Z.

Record assembler_wf (parts : parts_map) : Prop := {
  awf_keys : jwf parts;
  awf_size : jsize parts <= MAX_PENDING_FRAGMENT_STREAMS;
  awf_parts : Forall partial_wf parts;
}.

Lemma assembler_wf_del parts k : assembler_wf parts -> assembler_wf (jdel k parts).
Proof.
  intros [Hk Hs Hp]. split; [auto with js| |auto with js].
  pose proof (jsize_del_le k parts). lia.
Qed.

Lemma assembler_wf_push parts f : assembler_wf parts -> assembler_wf (assembler_push parts f).1.
Proof.
  intros Hwf. pose proof Hwf as [Hk Hs Hp]. unfold assembler_push, assembler_complete.
  destruct (hasMore f) eqn:Hm; cbn [negb andb].
  2:{ repeat case_match; simplify_eq/=; by apply assembler_wf_del. }
  destruct (isFragmentableType (ftype f)) eqn:Hf; cbn [negb]; [|done].
  destruct (negb (jhas _ _) && _) eqn:Hcap; [done|].
  destruct (bool_decide (MAX_ASSEMBLED_MESSAGE_BYTES < _)%Z) eqn:Hb; bool_facts.
  { by apply assembler_wf_del. }
  cbn [fst]. split; [by apply jwf_set| |].
  - rewrite jsize_set. destruct (jhas (keyFor f) parts); [done|]. simpl in Hcap. bool_facts. lia.
  - apply Forall_jset; [|done].
    destruct (jget (keyFor f) parts) as [p|] eqn:Hg; cbn [from_option id] in *.
    + apply (Forall_jget _ _ _ _ Hp) in Hg as (Hkey & Ht & Hsum & _). cbn [fst snd] in *.
      repeat split; cbn [fst snd p_type p_stream p_chunks p_bytes] in *; try done; [|lia].
      rewrite fmap_app, Zsum_app, Hsum. unfold Zsum. simpl. lia.
    + repeat split; cbn in *; unfold Zsum in *; simpl in *; try done; rewrite ?Zsum_cons; unfold Zsum; simpl; lia.
Qed.

Lemma assembler_wf_reset parts s : assembler_wf parts -> assembler_wf (assembler_reset parts s).
Proof.
  intros [Hk Hs Hp]. destruct s as [s|]; simpl; [|split; simpl; auto with js; lia].
  split; [by apply jwf_filter| |by apply Forall_filter_keep].
  unfold jsize in *. pose proof (length_filter (fun kv : string * Partial =>
    String.prefix (pretty s +:+ ":") kv.1 = false) parts). lia.
Qed.

Lemma assembler_wf_run parts fs : assembler_wf parts -> assembler_wf (assembler_run parts fs).1.
Proof.
  revert parts. induction fs as [|f fs IH]; intros parts Hwf; [done|].
  rewrite run_cons. cbn [fst]. by apply IH, assembler_wf_push.
Qed.

Lemma assembler_wf_nil : assembler_wf [].
Proof. split; simpl; auto with js; lia. Qed.

Lemma assembler_wf_bytes parts :
  assembler_wf parts ->
  (Zsum ((fun kv => Zsum (Zlen <$> p_chunks kv.2)) <$> parts)
     <= 256 * MAX_ASSEMBLED_MESSAGE_BYTES)%Z.
Proof.
  intros [_ Hs Hp]. unfold jsize, MAX_PENDING_FRAGMENT_STREAMS in Hs.
  enough (Zsum ((fun kv => Zsum (Zlen <$> p_chunks kv.2)) <$> parts)
          <= Zlen parts * MAX_ASSEMBLED_MESSAGE_BYTES)%Z.
  { unfold Zlen in *. unfold MAX_ASSEMBLED_MESSAGE_BYTES in *. lia. }
  clear Hs. induction Hp as [|kv parts (_ & _ & Hsum & Hb) _ IH]; [done|].
  rewrite Zlen_cons. cbn [fmap list_fmap]. rewrite Zsum_cons. lia.
Qed.

Lemma jget_filter_keys {V} (P : string -> bool) k (m : list (string * V)) :
  jget k (filter (fun kv => P kv.1 = false) m) = if P k then None else jget k m.
Proof.
  induction m as [|[k' v] m IH]; [by destruct (P k)|].
  rewrite filter_cons. cbn [fst]. case_decide as HP; simpl.
  - case_decide; subst; [by rewrite HP|done].
  - rewrite IH. destruct (P k) eqn:E; [done|]. rewrite decide_False; [done|congruence].
Qed.

Lemma jget_assembler_reset parts s f :
  jget (keyFor f) (assembler_reset parts (Some s))
  = if bool_decide (s = streamId f) then None else jget (keyFor f) parts.
Proof.
  unfold assembler_reset. rewrite (jget_filter_keys (String.prefix (pretty s +:+ ":"))).
  rewrite keyFor_String. change ":" with (String ":"%char "").
  rewrite prefix_sep by apply lacks_pretty_Z.
  rewrite (bool_decide_ext (pretty s = pretty (streamId f)) (s = streamId f)); [done|].
  split; [apply (inj pretty)|by intros ->].
Qed.

(** ** Properties *)

(** Decoding an encoded frame: a type whose low seven bits are a known
    numeral comes back with those bits, the stream id modulo 2^32, the
    fragment flag and the payload; any other type is refused by name. *)
Theorem decode_encode_frame (f : TunnelFrame) :
  decodeTunnelFrame (encodeTunnelFrame f) =
    if decide (Z.land (ftype f) 127 ∈ KNOWN_FRAME_TYPES)
    then Ok {| ftype := Z.land (ftype f) 127; streamId := streamId f mod u32_mod;
               hasMore := hasMore f; payload := payload f |}
    else Throw (UnknownFrameType (Z.land (ftype f) 127)).
Proof. apply decode_encode. Qed.

(** The wire format is canonical: every byte string the decoder accepts is
    the encoding of the frame it yields, whose type is a known numeral and whose
    stream id is a 32-bit number. *)
Theorem decoded_bytes_are_canonical (bytes : buffer) (f : TunnelFrame) :
  decodeTunnelFrame bytes = Ok f -> encodeTunnelFrame f = bytes /\ frame_wf f.
Proof.
  intros H. pose proof H as [He Hs]%encode_decode.
  apply decodeTunnelFrame_Ok in H as (h & s4 & rest & _ & _ & _ & Hk & _). done.
Qed.

Lemma decoded_bytes_are_canonical_witness :
  encodeTunnelFrame (mkFrame 8 258 true [x41]) = [x88; x00; x00; x01; x02; x41]
  /\ frame_wf (mkFrame 8 258 true [x41]).
Proof. apply (decoded_bytes_are_canonical [x88; x00; x00; x01; x02; x41]). reflexivity. Defined.

(** The frames of a fragmented message: all but the last say that more follows. *)
Lemma fragments_frames (type : TunnelFrameType) (sid : Z) (body : buffer) (chunkSize : Z) (raws : list buffer) (frames : list TunnelFrame) :
  encodeFragmentedMessage type sid body chunkSize = Ok raws -> (0 <= sid < u32_mod)%Z -> decodeTunnelFrame <$> raws = Ok <$> frames ->
  exists pre last, frames = (mkFrame (type_code type) sid true <$> pre) ++ [mkFrame (type_code type) sid false last]
    /\ concat pre ++ last = body /\ length raws = S (length pre).
Proof.
  intros He Hs Hd. unfold encodeFragmentedMessage in He.
  destruct (negb _); [done|]. destruct (chunkPayload body chunkSize) as [chunks|] eqn:Hc; [|done].
  apply chunkPayload_Ok in Hc as (_ & <- & Hne & _).
  destruct (exists_last Hne) as (pre & last & ->).
  cbn [mbind exc_bind mret exc_ret] in He. rewrite fragment_frames_snoc in He.
  injection He as <-. exists pre, last. split; [|split].
  - rewrite <- list_fmap_compose in Hd.
    apply (inj (fmap (M := list) (@Ok CodecError TunnelFrame))). rewrite <- Hd. apply list_fmap_ext. intros i f Hi. simpl.
    apply decode_encode_wf. apply list_elem_of_lookup_2, elem_of_app in Hi as [Hi|Hi].
    + apply list_elem_of_fmap in Hi as (c & -> & _). split; [apply known_type_code|done].
    + apply list_elem_of_singleton in Hi as ->. split; [apply known_type_code|done].
  - rewrite concat_app. simpl. by rewrite app_nil_r.
  - rewrite !length_fmap, length_app, length_fmap. simpl. lia.
Qed.

(** Reassembly under interleaving: the fragments of a WS message, decoded
    and pushed in order among any frames of other groups, give nothing until
    the last one, which gives exactly the message; its group is then gone. *)
Theorem interleaved_fragments_reassemble (type : TunnelFrameType) (sid : Z) (body : buffer)
    (chunkSize : Z) (raws : list buffer) (frames trace : list TunnelFrame) (parts : parts_map) :
  let k := keyFor (mkFrame (type_code type) sid false []) in
  let run := assembler_run parts trace in
  encodeFragmentedMessage type sid body chunkSize = Ok raws ->
  (0 <= sid < u32_mod)%Z ->
  decodeTunnelFrame <$> raws = Ok <$> frames ->
  filter (fun f => keyFor f = k) trace = frames ->
  jwf parts -> jget k parts = None ->
  Forall (fun o => exc_ok o = true) run.2 ->
  jget k run.1 = None
  /\ outs_of k trace run.2
     = replicate (length raws - 1) (Ok None) ++ [Ok (Some (mkMessage (type_code type) sid body))].
Proof.
  intros k run He Hs Hd Hf Hwf Hg Hok. destruct (fragments_frames type sid body chunkSize raws frames He Hs Hd) as (pre & last & Hfr & Hbody & Hlen).
  rewrite Hfr in Hf. destruct (run_reassembles trace parts (type_code type) sid [] pre last k) as [H1 H2]; try done.
  split; [done|]. unfold run. rewrite H2, Hlen, <- Hbody. repeat f_equal. lia.
Qed.

Lemma interleaved_fragments_reassemble_witness :
  let f8 more p := mkFrame 8 3 more p in
  let g := mkFrame 9 5 true [x99] in
  outs_of (keyFor (f8 false [])) [f8 true [x01; x02]; g; f8 false [x03]]
    (assembler_run [] [f8 true [x01; x02]; g; f8 false [x03]]).2
  = [Ok None; Ok (Some (mkMessage 8 3 [x01; x02; x03]))].
Proof.
  refine (proj2 (interleaved_fragments_reassemble WsText 3 [x01; x02; x03] 2
    [[x88; x00; x00; x00; x03; x01; x02]; [x08; x00; x00; x00; x03; x03]]
    [mkFrame 8 3 true [x01; x02]; mkFrame 8 3 false [x03]]
    [mkFrame 8 3 true [x01; x02]; mkFrame 9 5 true [x99]; mkFrame 8 3 false [x03]]
    [] _ _ _ _ _ _ _)); try reflexivity; [split; reflexivity||discriminate|constructor|].
  repeat constructor.
Defined.

(** Bounded memory: whatever frames are pushed and whatever streams are
    reset, an assembler started empty keeps at most 256 groups, each of a WS
    message type, each counting its bytes exactly and holding at most 16 MiB,
    so it never retains more than 256 * 16 MiB. *)
Theorem assembler_memory_bounded (before after : list TunnelFrame) (s : option Z) :
  let parts := (assembler_run (assembler_reset (assembler_run [] before).1 s) after).1 in
  assembler_wf parts
  /\ (Zsum ((fun kv => Zsum (Zlen <$> p_chunks kv.2)) <$> parts)
        <= 256 * MAX_ASSEMBLED_MESSAGE_BYTES)%Z.
Proof.
  intros parts. assert (assembler_wf parts) as Hwf.
  { apply assembler_wf_run, assembler_wf_reset, assembler_wf_run, assembler_wf_nil. }
  split; [done|by apply assembler_wf_bytes].
Qed.

(** Resetting one stream drops its groups and no other stream's, although
    groups are found by comparing key prefixes. *)
Theorem reset_is_per_stream (parts : parts_map) (s : Z) (f : TunnelFrame) :
  jget (keyFor f) (assembler_reset parts (Some s))
  = if bool_decide (s = streamId f) then None else jget (keyFor f) parts.
Proof. apply jget_assembler_reset. Qed.
