(* ===== verification/RelayBatch.v ===== *)
(** Relay layer 3.7, outbound frame batching
    (src/desktop/packages/web/src/server/lib/relay/batch.ts): the batch
    container, its mixed-mode demultiplexer and the outbound batcher. *)

From S2P Require Import Prelude JsString JsMap Bytes RelayCrypto RelayCodec.

(** ** The container *)

Definition BATCH_ENVELOPE_RESERVED_BYTES : Z := 1 + 4.

Definition DEFAULT_BATCH_WINDOW_MS : Z := 150.

Definition DEFAULT_MAX_BATCH_BYTES : Z := 24 * 1024.

Definition DEFAULT_MAX_BATCH_FRAMES : Z := 32.

Definition BATCH_BUFFERED_TYPES : list Z := type_code <$> [HttpBody; WsText; WsBinary].

(** [writeUInt32BE] throws a RangeError when the length needs more than 32 bits. *)
Inductive BatchError : Type := LengthOutOfRange.

#[export] Instance BatchError_eq_dec : EqDecision BatchError.
Proof. solve_decision. Defined.

Definition batch_segment (frame : buffer) : exc BatchError buffer :=
  if bool_decide (Zlen frame < u32_mod)%Z then Ok (be_bytes 4 (Zlen frame) ++ frame)
  else Throw LengthOutOfRange.

Fixpoint batch_segments (frames : list buffer) : exc BatchError buffer :=
  match frames with
  | [] => Ok []
  | f :: fs => s ← batch_segment f; rest ← batch_segments fs; mret (s ++ rest)
  end.

Definition encodeBatchContainer (frames : list buffer) : exc BatchError buffer :=
  match frames with
  | [f] => Ok (x00 :: f)
  | _ => body ← batch_segments frames; mret (x01 :: body)
  end.

Inductive Container : Type :=
| Single (frame : buffer)
| Batch (frames : list buffer).

#[export] Instance Container_eq_dec : EqDecision Container.
Proof. solve_decision. Defined.

(** The decoding loop from [cursor], one unit of fuel per iteration; [None] is
    the refusal ([return null]). *)
Fixpoint decode_segments (fuel : nat) (bytes : buffer) (cursor : nat) : option (list buffer) :=
  match fuel with
  | O => None
  | S k =>
    if cursor + 4 <=? length bytes then
      l ← read_be 4 bytes cursor;
      let cursor1 := cursor + 4 in
      let len := Z.to_nat l in
      if length bytes - cursor1 <? len then None
      else rest ← decode_segments k bytes (cursor1 + len);
           Some (subarray bytes cursor1 (cursor1 + len) :: rest)
    else if cursor =? length bytes then Some [] else None
  end.

Definition decodeBatchContainer (bytes : buffer) : option Container :=
  match bytes with
  | [] => None
  | tag :: rest =>
    if bool_decide (bz tag = 0)%Z then Some (Single rest)
    else if negb (bool_decide (bz tag = 1)%Z) then None
    else Batch <$> decode_segments (length bytes) bytes 1
  end.

(** The strict probe's loop: [true] when every remaining segment is a legal
    buffered frame and the run ends exactly at the end. *)
Fixpoint strict_segments (fuel : nat) (bytes : buffer) (cursor segments : nat) : bool :=
  match fuel with
  | O => false
  | S k =>
    if cursor + 4 <=? length bytes then
      match read_be 4 bytes cursor with
      | None => false
      | Some l =>
        let cursor1 := cursor + 4 in
        let len := Z.to_nat l in
        if (len <? TUNNEL_FRAME_HEADER_BYTES) || (length bytes - cursor1 <? len) then false
        else match subarray bytes cursor1 (cursor1 + len) with
             | [] => false
             | h :: _ =>
               if negb (bool_decide (Z.land (bz h) 127 ∈ BATCH_BUFFERED_TYPES)) then false
               else strict_segments k bytes (cursor1 + len) (S segments)
             end
      end
    else (cursor =? length bytes) && (1 <=? segments)
  end.

Definition isStrictBatchContainer (bytes : buffer) : bool :=
  strict_segments (length bytes) bytes 1 0.

Definition decodeFrameOrContainer (bytes : buffer) : option Container :=
  match bytes with
  | [] => None
  | tag :: _ =>
    if bool_decide (bz tag = 0)%Z then decodeBatchContainer bytes
    else if bool_decide (bz tag = 1)%Z && isStrictBatchContainer bytes then decodeBatchContainer bytes
    else if length bytes <? TUNNEL_FRAME_HEADER_BYTES then None
    else Some (Single bytes)
  end.

(** The frames of one received message, as the leg host lists them. *)
Definition container_frames (c : Container) : list buffer :=
  match c with Single f => [f] | Batch fs => fs end.

(** ** The outbound batcher *)

Record BatcherOptions : Type := {
  windowMs : Z;
  maxBatchBytes : Z;
  maxBatchFrames : Z;
}.

Definition default_options : BatcherOptions :=
  {| windowMs := DEFAULT_BATCH_WINDOW_MS; maxBatchBytes := DEFAULT_MAX_BATCH_BYTES;
     maxBatchFrames := DEFAULT_MAX_BATCH_FRAMES |}.

Record Batcher : Type := {
  b_opts : BatcherOptions;
  buffered : list buffer;
  bufferedBytes : Z;
  timer_armed : bool;
  disposed : bool;
  lastFlushStamp : Z;
}.

Definition newBatcher (opts : BatcherOptions) (now : Z) : Batcher :=
  {| b_opts := opts; buffered := []; bufferedBytes := 0; timer_armed := false;
     disposed := false; lastFlushStamp := now |}.

Definition pendingBytes (b : Batcher) : Z := bufferedBytes b.

Definition scheduleWindow (b : Batcher) : Batcher :=
  {| b_opts := b_opts b; buffered := buffered b; bufferedBytes := bufferedBytes b;
     timer_armed := true; disposed := disposed b; lastFlushStamp := lastFlushStamp b |}.

Definition cancelWindow (b : Batcher) : Batcher :=
  {| b_opts := b_opts b; buffered := buffered b; bufferedBytes := bufferedBytes b;
     timer_armed := false; disposed := disposed b; lastFlushStamp := lastFlushStamp b |}.

Definition dispose (b : Batcher) : Batcher :=
  {| b_opts := b_opts b; buffered := []; bufferedBytes := 0; timer_armed := false;
     disposed := true; lastFlushStamp := lastFlushStamp b |}.

Definition capsReached (b : Batcher) : bool :=
  bool_decide (maxBatchFrames (b_opts b) <= Zlen (buffered b))%Z
  || bool_decide (maxBatchBytes (b_opts b) <= bufferedBytes b)%Z
  || bool_decide (MAX_PLAINTEXT_FRAME_BYTES <= bufferedBytes b + BATCH_ENVELOPE_RESERVED_BYTES)%Z.

(** One step of the promise chain: the new state and the messages handed to
    [send], in order. [now] is the clock during the step. A container too long
    to encode throws before anything is sent. *)
Definition flushBuffer (b : Batcher) (now : Z) : Batcher * exc BatchError (list buffer) :=
  let b1 := cancelWindow b in
  match buffered b1 with
  | [] => (b1, Ok [])
  | take =>
    ({| b_opts := b_opts b1; buffered := []; bufferedBytes := 0; timer_armed := timer_armed b1;
        disposed := disposed b1; lastFlushStamp := now |},
     c ← encodeBatchContainer take; mret [c])
  end.

(** [bytes[0]! & 0x7f]: an empty buffer reads as type 0. *)
Definition frame_type_of (bytes : buffer) : Z :=
  match bytes with [] => 0 | h :: _ => Z.land (bz h) 127 end.

Definition offerNowBytes (b : Batcher) (now : Z) (bytes : buffer) :
    Batcher * exc BatchError (list buffer) :=
  if disposed b then (b, Ok [])
  else if negb (bool_decide (frame_type_of bytes ∈ BATCH_BUFFERED_TYPES)) then
    let '(b1, sent) := flushBuffer b now in
    (b1, s ← sent; mret (s ++ [bytes]))
  else
    let b1 := {| b_opts := b_opts b; buffered := buffered b ++ [bytes];
                 bufferedBytes := bufferedBytes b + (Zlen bytes + BATCH_ENVELOPE_RESERVED_BYTES);
                 timer_armed := timer_armed b; disposed := disposed b;
                 lastFlushStamp := lastFlushStamp b |} in
    if capsReached b1 then flushBuffer b1 now
    else if bool_decide (windowMs (b_opts b1) <= now - lastFlushStamp b1)%Z then flushBuffer b1 now
    else (scheduleWindow b1, Ok []).

(** The chained steps: an offered frame, a flush, a window timer that fires
    (it only clears the handle; the flush it asks for is a later step). *)
Inductive BatchStep : Type :=
| Offer (now : Z) (bytes : buffer)
| Flush (now : Z)
| WindowFires.

Definition batch_step (b : Batcher) (s : BatchStep) : Batcher * exc BatchError (list buffer) :=
  match s with
  | Offer now bytes => offerNowBytes b now bytes
  | Flush now => flushBuffer b now
  | WindowFires => (cancelWindow b, Ok [])
  end.

(** [offer] encodes first; [offerEncoded] takes the bytes as they are. *)
Definition offer (b : Batcher) (now : Z) (frame : TunnelFrame) : Batcher * exc BatchError (list buffer) :=
  offerNowBytes b now (encodeTunnelFrame frame).

Fixpoint batch_run (b : Batcher) (steps : list BatchStep) : Batcher * exc BatchError (list buffer) :=
  match steps with
  | [] => (b, Ok [])
  | s :: ss =>
    let '(b1, r) := batch_step b s in
    let '(b2, rs) := batch_run b1 ss in
    (b2, x ← r; y ← rs; mret (x ++ y))
  end.

(** The frames offered by a run, and what a receiver reads from the messages. *)
Definition offered (steps : list BatchStep) : list buffer :=
  omap (fun s => match s with Offer _ bytes => Some bytes | _ => None end) steps.

Definition received (msgs : list buffer) : option (list buffer) :=
  @concat buffer <$> mapM (fun m => container_frames <$> decodeFrameOrContainer m) msgs.

(** A frame the tunnel may carry: an encoded frame of a known type, short enough
    for a 32-bit length, that does not read as a strict batch container. *)
Definition legal_frame (bytes : buffer) : Prop :=
  TUNNEL_FRAME_HEADER_BYTES <= length bytes /\ (Zlen bytes < u32_mod)%Z
  /\ frame_type_of bytes ∈ KNOWN_FRAME_TYPES /\ isStrictBatchContainer bytes = false.

#[export] Instance legal_frame_dec bytes : Decision (legal_frame bytes).
Proof. unfold legal_frame. apply _. Defined.

(** ** Container lemmas *)

Lemma batch_segments_cons_Ok f fs body :
  batch_segments (f :: fs) = Ok body ->
  exists rest, batch_segments fs = Ok rest /\ body = be_bytes 4 (Zlen f) ++ f ++ rest
    /\ (Zlen f < u32_mod)%Z.
Proof.
  cbn [batch_segments]. unfold batch_segment. intros H.
  destruct (bool_decide _) eqn:Hl; [|done]. bool_facts.
  cbn [mbind exc_bind] in H. destruct (batch_segments fs) as [rest|]; [|done].
  cbn [mbind exc_bind mret exc_ret] in H. injection H as <-. exists rest.
  done.
Qed.

Lemma batch_segments_Ok frames :
  Forall (fun f => Zlen f < u32_mod)%Z frames -> exists body, batch_segments frames = Ok body.
Proof.
  induction 1 as [|f fs Hf _ [body Hb]]; [eexists; reflexivity|].
  cbn [batch_segments]. unfold batch_segment. rewrite bool_decide_true by done. rewrite Hb.
  eexists. reflexivity.
Qed.

Lemma batch_segments_length frames body :
  batch_segments frames = Ok body -> Zlen body = Zsum ((fun f => Zlen f + 4)%Z <$> frames).
Proof.
  revert body. induction frames as [|f fs IH]; intros body H; [by cbn in H; simplify_eq|].
  apply batch_segments_cons_Ok in H as (rest & Hr & -> & _). apply IH in Hr.
  autorewrite with jsrw. unfold Zlen at 1. rewrite length_be_bytes, Hr.
  lia.
Qed.

(** Reading the segment that starts right after [pre]. *)
Lemma read_segment pre f rest :
  (Zlen f < u32_mod)%Z ->
  let bytes := pre ++ be_bytes 4 (Zlen f) ++ f ++ rest in
  let c := length pre in
  (c + 4 <=? length bytes) = true
  /\ read_be 4 bytes c = Some (Zlen f)
  /\ (length bytes - (c + 4) <? Z.to_nat (Zlen f)) = false
  /\ subarray bytes (c + 4) (c + 4 + Z.to_nat (Zlen f)) = f
  /\ c + 4 + Z.to_nat (Zlen f) = length (pre ++ be_bytes 4 (Zlen f) ++ f).
Proof.
  intros Hf bytes c. pose proof (Zlen_nonneg f).
  assert (Z.to_nat (Zlen f) = length f) as Hlen by (unfold Zlen; lia).
  assert (length bytes = c + 4 + length f + length rest) as Hb
    by (unfold bytes, c; rewrite !length_app, length_be_bytes; lia).
  rewrite Hlen, Hb. split; [apply Nat.leb_le; lia|]. split.
  { unfold bytes, c. rewrite read_be_app, Z.mod_small; [done|]. unfold u32_mod in Hf. simpl. lia. }
  split; [apply Nat.ltb_ge; lia|]. split.
  - unfold subarray, bytes. replace (c + 4 + length f - (c + 4)) with (length f) by lia.
    rewrite app_assoc, drop_app_length' by (rewrite length_app, length_be_bytes; done).
    apply take_app_length.
  - unfold c. rewrite !length_app, length_be_bytes. lia.
Qed.

Lemma decode_segments_sound frames pre body fuel :
  batch_segments frames = Ok body -> length frames < fuel ->
  decode_segments fuel (pre ++ body) (length pre) = Some frames.
Proof.
  revert pre body fuel. induction frames as [|f fs IH]; intros pre body [|fuel] Hb Hf; [simpl in Hf; lia| |simpl in Hf; lia|].
  - cbn in Hb. simplify_eq. simpl. rewrite app_nil_r, Nat.eqb_refl.
    by rewrite (proj2 (Nat.leb_gt _ _)) by lia.
  - apply batch_segments_cons_Ok in Hb as (rest & Hr & -> & Hl).
    destruct (read_segment pre f rest Hl) as (H1 & H2 & H3 & H4 & H5).
    cbn [decode_segments]. rewrite H1, H2. cbn [mbind option_bind]. rewrite H3, H4, H5.
    replace (pre ++ be_bytes 4 (Zlen f) ++ f ++ rest)
      with ((pre ++ be_bytes 4 (Zlen f) ++ f) ++ rest) by by rewrite <- !app_assoc.
    rewrite IH; [done|done|simpl in Hf; lia].
Qed.

(** A frame the strict probe accepts inside a container. *)
Definition buffered_frame (f : buffer) : Prop :=
  TUNNEL_FRAME_HEADER_BYTES <= length f /\ (Zlen f < u32_mod)%Z
  /\ frame_type_of f ∈ BATCH_BUFFERED_TYPES.

Lemma strict_segments_sound frames pre body fuel n :
  Forall buffered_frame frames ->
  batch_segments frames = Ok body -> length frames < fuel ->
  strict_segments fuel (pre ++ body) (length pre) n = (1 <=? n + length frames).
Proof.
  intros Hbf. revert pre body fuel n.
  induction Hbf as [|f fs (H5b & Hl & Ht) _ IH]; intros pre body [|fuel] n Hb Hf; [simpl in Hf; lia| |simpl in Hf; lia|].
  - cbn in Hb. simplify_eq. simpl. rewrite app_nil_r, Nat.eqb_refl, Nat.add_0_r.
    by rewrite (proj2 (Nat.leb_gt _ _)) by lia.
  - apply batch_segments_cons_Ok in Hb as (rest & Hr & -> & _).
    destruct (read_segment pre f rest Hl) as (H1 & H2 & H3 & H4 & H5).
    cbn [strict_segments]. rewrite H1, H2, H3, H4, H5.
    assert ((Z.to_nat (Zlen f) <? TUNNEL_FRAME_HEADER_BYTES) = false) as ->
      by (apply Nat.ltb_ge; unfold Zlen; lia).
    cbn [orb].
    destruct f as [|h f']; [unfold TUNNEL_FRAME_HEADER_BYTES in H5b; simpl in H5b; lia|]. cbn [frame_type_of] in Ht.
    rewrite bool_decide_true by done. cbn [negb].
    replace (pre ++ be_bytes 4 (Zlen (h :: f')) ++ (h :: f') ++ rest)
      with ((pre ++ be_bytes 4 (Zlen (h :: f')) ++ h :: f') ++ rest) by by rewrite <- !app_assoc.
    rewrite IH; [|done|simpl in Hf; lia]. f_equal. simpl. lia.
Qed.

Lemma batch_segments_count frames body :
  batch_segments frames = Ok body -> length frames <= length body.
Proof.
  intros H. apply batch_segments_length in H. unfold Zlen in H.
  enough (Z.of_nat (length frames) <= Zsum ((fun f => Z.of_nat (length f) + 4)%Z <$> frames))%Z by lia.
  clear. induction frames as [|f fs IH]; [done|]. rewrite fmap_cons, Zsum_cons. cbn [length]. lia.
Qed.

Lemma encodeBatchContainer_many f g fs :
  encodeBatchContainer (f :: g :: fs) = body ← batch_segments (f :: g :: fs); mret (x01 :: body).
Proof. done. Qed.

(** Whatever the batcher put in one container, the mixed-mode decoder lists. *)
Lemma demux_container frames msg :
  frames <> [] -> Forall buffered_frame frames ->
  encodeBatchContainer frames = Ok msg ->
  container_frames <$> decodeFrameOrContainer msg = Some frames.
Proof.
  intros Hne Hb He. destruct frames as [|f [|g fs]]; [done| |].
  - cbn in He. by simplify_eq.
  - rewrite encodeBatchContainer_many in He.
    destruct (batch_segments (f :: g :: fs)) as [body|] eqn:Hs; [|done].
    cbn [mbind exc_bind mret exc_ret] in He. injection He as <-.
    pose proof (batch_segments_count _ _ Hs) as Hc.
    pose proof (strict_segments_sound (f :: g :: fs) [x01] body (length (x01 :: body)) 0
      Hb Hs ltac:(simpl in *; lia)) as Hst.
    pose proof (decode_segments_sound (f :: g :: fs) [x01] body (length (x01 :: body))
      Hs ltac:(simpl in *; lia)) as Hdec.
    cbn [app length Nat.add Nat.leb] in Hst, Hdec.
    unfold decodeFrameOrContainer, isStrictBatchContainer, decodeBatchContainer.
    cbn [length]. rewrite Hst, Hdec. done.
Qed.

Lemma demux_bare f : legal_frame f -> container_frames <$> decodeFrameOrContainer f = Some [f].
Proof.
  intros (H5 & _ & Ht & Hs). destruct f as [|h f]; [unfold TUNNEL_FRAME_HEADER_BYTES in H5; simpl in H5; lia|].
  unfold decodeFrameOrContainer. rewrite Hs, andb_false_r.
  rewrite bool_decide_false.
  2:{ intros H0. cbn [frame_type_of] in Ht. rewrite H0 in Ht. by vm_compute in Ht; set_solver. }
  rewrite (proj2 (Nat.ltb_ge _ _)) by done. done.
Qed.

(** ** Batcher lemmas *)

Lemma received_nil : received [] = Some [].
Proof. done. Qed.

Lemma received_cons m ms :
  received (m :: ms) = x ← container_frames <$> decodeFrameOrContainer m;
                       y ← received ms; Some (x ++ y).
Proof.
  unfold received. cbn [mapM].
  destruct (container_frames <$> decodeFrameOrContainer m) as [x|]; [|done].
  cbn [mbind option_bind]. by destruct (mapM _ ms).
Qed.

Lemma received_app ms1 ms2 x y :
  received ms1 = Some x -> received ms2 = Some y -> received (ms1 ++ ms2) = Some (x ++ y).
Proof.
  revert x. induction ms1 as [|m ms1 IH]; intros x H1 H2.
  - rewrite received_nil in H1. injection H1 as <-. done.
  - cbn [app]. rewrite received_cons in *. destruct (_ <$> _) as [z|]; [|done].
    cbn [mbind option_bind] in *. destruct (received ms1) as [w|]; [|done].
    cbn [mbind option_bind] in H1. injection H1 as <-.
    rewrite (IH w) by done. cbn [mbind option_bind]. by rewrite app_assoc.
Qed.

Lemma legal_buffered_frame f :
  legal_frame f -> frame_type_of f ∈ BATCH_BUFFERED_TYPES -> buffered_frame f.
Proof. intros (H1 & H2 & _) Ht. done. Qed.

Lemma encodeBatchContainer_total frames :
  Forall buffered_frame frames -> exists msg, encodeBatchContainer frames = Ok msg.
Proof.
  intros Hb. destruct (batch_segments_Ok frames) as [body Hs].
  { eapply Forall_impl; [exact Hb|]. by intros f (_ & H & _). }
  destruct frames as [|f [|g fs]]; [eexists; reflexivity..|].
  rewrite encodeBatchContainer_many, Hs. eexists. reflexivity.
Qed.

Lemma flush_fifo b now :
  Forall buffered_frame (buffered b) ->
  exists msgs, (flushBuffer b now).2 = Ok msgs /\ received msgs = Some (buffered b)
    /\ buffered (flushBuffer b now).1 = [] /\ disposed (flushBuffer b now).1 = disposed b.
Proof.
  intros Hb. unfold flushBuffer, cancelWindow. cbn [buffered].
  destruct (buffered b) as [|f fs] eqn:E; [exists []; cbn [fst snd buffered disposed]; rewrite received_nil; repeat split; exact E|].
  destruct (encodeBatchContainer_total _ Hb) as [msg Hm]. exists [msg].
  cbn [fst snd buffered disposed]. rewrite Hm. repeat split; try done.
  rewrite received_cons, (demux_container (f :: fs)); try done.
  cbn [mbind option_bind received_nil]. rewrite received_nil. cbn. by rewrite app_nil_r.
Qed.

Lemma step_fifo b s :
  Forall buffered_frame (buffered b) -> disposed b = false -> Forall legal_frame (offered [s]) ->
  exists msgs out, (batch_step b s).2 = Ok msgs /\ received msgs = Some out
    /\ out ++ buffered (batch_step b s).1 = buffered b ++ offered [s]
    /\ disposed (batch_step b s).1 = false /\ Forall buffered_frame (buffered (batch_step b s).1).
Proof.
  intros Hb Hd Hl. destruct s as [now bytes|now|]; cbn [batch_step offered omap list_omap] in *.
  - unfold offerNowBytes. rewrite Hd. apply (Forall_singleton legal_frame) in Hl.
    destruct (bool_decide _) eqn:Ht; bool_facts; cbn [negb].
    + set (b1 := Build_Batcher _ _ _ _ _ _).
      assert (Forall buffered_frame (buffered b1)) as Hb1
        by (apply Forall_app; split; [done|]; apply Forall_singleton; exact (legal_buffered_frame _ Hl Ht)).
      destruct (flush_fifo b1 now Hb1) as (msgs & H1 & H2 & H3 & H4).
      destruct (capsReached b1); [|destruct (bool_decide _)].
      1,2: exists msgs, (buffered b1); rewrite H3, H4; repeat split; try done; by rewrite app_nil_r.
      exists [], []. done.
    + destruct (flush_fifo b now Hb) as (msgs & H1 & H2 & H3 & H4).
      destruct (flushBuffer b now) as [b1 sent]. cbn [fst snd] in *. subst sent.
      exists (msgs ++ [bytes]), (buffered b ++ [bytes]). rewrite H3, H4.
      repeat split; try done; [|by rewrite app_nil_r].
      apply received_app; [done|]. rewrite received_cons, demux_bare by done. done.
  - destruct (flush_fifo b now Hb) as (msgs & H1 & H2 & H3 & H4).
    exists msgs, (buffered b). rewrite H3, H4. repeat split; try done; by rewrite ?app_nil_r.
  - exists [], []. rewrite app_nil_r. done.
Qed.

Lemma offered_cons s ss : offered (s :: ss) = offered [s] ++ offered ss.
Proof. by destruct s. Qed.

Lemma run_fifo b steps :
  Forall buffered_frame (buffered b) -> disposed b = false -> Forall legal_frame (offered steps) ->
  exists msgs out, (batch_run b steps).2 = Ok msgs /\ received msgs = Some out
    /\ out ++ buffered (batch_run b steps).1 = buffered b ++ offered steps.
Proof.
  revert b. induction steps as [|s ss IH]; intros b Hb Hd Hl.
  { exists [], []. cbn. by rewrite app_nil_r. }
  rewrite offered_cons in Hl. apply Forall_app in Hl as [Hs Hss].
  destruct (step_fifo b s Hb Hd Hs) as (m1 & o1 & H1 & H2 & H3 & H4 & H5).
  cbn [batch_run]. destruct (batch_step b s) as [b1 r1]. cbn [fst snd] in *. subst r1.
  destruct (IH b1 H5 H4 Hss) as (m2 & o2 & H6 & H7 & H8).
  destruct (batch_run b1 ss) as [b2 r2]. cbn [fst snd] in *. subst r2.
  exists (m1 ++ m2), (o1 ++ o2). split; [done|]. split; [by apply received_app|].
  by rewrite <- app_assoc, H8, app_assoc, H3, <- app_assoc, <- offered_cons.
Qed.

(** What the batcher counts, and where the counter stands between steps. *)
Record batcher_counts (b : Batcher) : Prop := {
  bc_sum : bufferedBytes b = Zsum ((fun f => Zlen f + BATCH_ENVELOPE_RESERVED_BYTES)%Z <$> buffered b);
  bc_below : buffered b = [] \/ (bufferedBytes b < maxBatchBytes (b_opts b))%Z;
}.

Lemma segment_reserve frames :
  Zsum ((fun f : buffer => Zlen f + BATCH_ENVELOPE_RESERVED_BYTES)%Z <$> frames)
  = (Zsum ((fun f => Zlen f + 4)%Z <$> frames) + Zlen frames)%Z.
Proof.
  unfold BATCH_ENVELOPE_RESERVED_BYTES. induction frames as [|f fs IH]; [done|].
  rewrite !fmap_cons, !Zsum_cons, Zlen_cons, IH. lia.
Qed.

Lemma container_length frames msg :
  encodeBatchContainer frames = Ok msg -> frames <> [] ->
  (Zlen msg <= Zsum ((fun f => Zlen f + BATCH_ENVELOPE_RESERVED_BYTES)%Z <$> frames))%Z.
Proof.
  intros He Hne. rewrite segment_reserve. destruct frames as [|f [|g fs]]; [done| |].
  - injection He as <-. autorewrite with jsrw. unfold Zsum. simpl. lia.
  - rewrite encodeBatchContainer_many in He. destruct (batch_segments _) as [body|] eqn:Hs; [|done].
    injection He as <-. apply batch_segments_length in Hs. rewrite Zlen_cons, Hs.
    rewrite (Zlen_cons f). pose proof (Zlen_nonneg (g :: fs)). lia.
Qed.

(** A batcher between steps, for frames of at most [bound] bytes. *)
Record batcher_wf (opts : BatcherOptions) (b : Batcher) : Prop := {
  bw_opts : b_opts b = opts;
  bw_counts : batcher_counts b;
}.

Definition fits (m : buffer) : Prop := (Zlen m <= MAX_PLAINTEXT_FRAME_BYTES)%Z.

Definition reserve_ok (opts : BatcherOptions) (f : buffer) : Prop :=
  (Zlen f + BATCH_ENVELOPE_RESERVED_BYTES + maxBatchBytes opts <= MAX_PLAINTEXT_FRAME_BYTES)%Z.

Lemma flush_sizes opts b now msgs :
  b_opts b = opts -> bufferedBytes b = Zsum ((fun f => Zlen f + BATCH_ENVELOPE_RESERVED_BYTES)%Z <$> buffered b) ->
  (bufferedBytes b <= MAX_PLAINTEXT_FRAME_BYTES)%Z ->
  (flushBuffer b now).2 = Ok msgs -> Forall fits msgs.
Proof.
  intros Ho Hs Hb. unfold flushBuffer, cancelWindow. cbn [buffered].
  destruct (buffered b) as [|f fs] eqn:E; cbn [snd]; [by intros [= <-]|].
  destruct (encodeBatchContainer (f :: fs)) as [m|] eqn:Em; [|done].
  intros [= <-]. apply container_length in Em; [|done]. constructor; [|constructor].
  unfold fits. lia.
Qed.

Lemma flush_wf opts b now : batcher_wf opts b -> batcher_wf opts (flushBuffer b now).1.
Proof.
  intros [Ho [Hs Hb]]. unfold flushBuffer, cancelWindow. cbn [buffered].
  destruct (buffered b) eqn:E; cbn [fst]; split; try done; split; cbn; rewrite ?E in *; auto.
Qed.

Lemma step_sizes opts b s :
  (0 <= maxBatchBytes opts <= MAX_PLAINTEXT_FRAME_BYTES)%Z -> batcher_wf opts b -> Forall (reserve_ok opts) (offered [s]) ->
  batcher_wf opts (batch_step b s).1
  /\ forall msgs, (batch_step b s).2 = Ok msgs -> Forall fits msgs.
Proof.
  intros Hm Hwf Hl. pose proof Hwf as [Ho [Hs Hc]].
  assert (bufferedBytes b <= MAX_PLAINTEXT_FRAME_BYTES)%Z as Hcap.
  { destruct Hc as [Hc|Hc]; [|rewrite Ho in Hc; lia]. rewrite Hs, Hc. cbv. done. }
  destruct s as [now bytes|now|]; cbn [batch_step offered omap list_omap] in *.
  - apply (Forall_singleton (reserve_ok opts)) in Hl. unfold reserve_ok in Hl.
    pose proof (Zlen_nonneg bytes). unfold BATCH_ENVELOPE_RESERVED_BYTES in Hl.
    unfold offerNowBytes. destruct (disposed b).
    { split; [done|]. by intros msgs [= <-]. }
    destruct (bool_decide _) eqn:Ht; cbn [negb].
    + set (b1 := Build_Batcher _ _ _ _ _ _).
      assert (Hs1 : bufferedBytes b1 = Zsum ((fun f => Zlen f + BATCH_ENVELOPE_RESERVED_BYTES)%Z <$> buffered b1)).
      { cbn. rewrite fmap_app, Zsum_app, <- Hs. cbn. unfold Zsum. simpl. lia. }
      assert (bufferedBytes b1 <= MAX_PLAINTEXT_FRAME_BYTES)%Z as Hb1.
      { cbn. unfold BATCH_ENVELOPE_RESERVED_BYTES.
        destruct Hc as [Hc|Hc]; [rewrite Hc in Hs; autorewrite with jsrw in Hs|rewrite Ho in Hc]; lia. }
      pose proof (flush_sizes opts b1 now) as Hf.
      assert (batcher_wf opts (flushBuffer b1 now).1) as Hw.
      { unfold flushBuffer, cancelWindow. cbn [buffered b1]. destruct (buffered b ++ [bytes]) eqn:E.
        - by apply app_nil in E as [_ ?].
        - cbn. split; [done|]. split; [done|]. left. done. }
      destruct (capsReached b1) eqn:Hcaps; [split; [done|]; intros; eapply Hf; eauto|].
      split_test; [split; [exact Hw|]; intros; eapply Hf; eauto|].
      split; [|by intros msgs [= <-]]. split; [done|]. split; [done|]. right.
      unfold capsReached in Hcaps. bool_facts. cbn in *. lia.
    + pose proof (flush_wf opts b now Hwf) as Hw.
      pose proof (flush_sizes opts b now) as Hf. destruct (flushBuffer b now) as [b1 [sent|]]; (split; [done|]); [|done].
      intros msgs [= <-]. apply Forall_app. split; [by eapply Hf|].
      constructor; [|constructor]. unfold fits. lia.
  - split; [by apply flush_wf|]. intros msgs Hf. eapply flush_sizes; eassumption.
  - split; [|by intros msgs [= <-]]. split; [exact Ho|split; [exact Hs|exact Hc]].
Qed.

Lemma run_sizes opts b steps :
  (0 <= maxBatchBytes opts <= MAX_PLAINTEXT_FRAME_BYTES)%Z ->
  batcher_wf opts b -> Forall (reserve_ok opts) (offered steps) ->
  forall msgs, (batch_run b steps).2 = Ok msgs -> Forall fits msgs.
Proof.
  intros Hm. revert b. induction steps as [|s ss IH]; intros b Hwf Hl msgs Hr.
  { by injection Hr as <-. }
  rewrite offered_cons in Hl. apply Forall_app in Hl as [Hs Hss].
  destruct (step_sizes opts b s Hm Hwf Hs) as [Hw1 H1]. cbn [batch_run] in Hr.
  destruct (batch_step b s) as [b1 [m1|]]; cbn [fst snd] in *.
  2:{ by destruct (batch_run b1 ss). }
  specialize (IH b1 Hw1 Hss). destruct (batch_run b1 ss) as [b2 [m2|]]; [|done].
  injection Hr as <-. apply Forall_app. split; [by apply H1|by apply IH].
Qed.

(** ** Properties *)

(** Batching keeps order and loses nothing: whatever mix of offered frames,
    explicit flushes and window timers a fresh batcher runs through, every
    message it sends decodes, and the frames read from the messages in order,
    followed by the frames still buffered, are exactly the frames offered. *)
Theorem batcher_is_fifo (opts : BatcherOptions) (t0 : Z) (steps : list BatchStep) :
  Forall legal_frame (offered steps) ->
  exists msgs out, (batch_run (newBatcher opts t0) steps).2 = Ok msgs
    /\ received msgs = Some out
    /\ out ++ buffered (batch_run (newBatcher opts t0) steps).1 = offered steps.
Proof. intros Hl. exact (run_fifo (newBatcher opts t0) steps (Forall_nil_2 _) eq_refl Hl). Qed.

Definition demo_body (sid : Z) : buffer := encodeTunnelFrame (mkFrame (type_code HttpBody) sid false [x61; x62]).

Definition demo_steps : list BatchStep :=
  [Offer 10 (demo_body 1); Offer 20 (demo_body 3);
   Offer 30 (encodeTunnelFrame (mkFrame (type_code StreamEnd) 1 false [])); Offer 40 (demo_body 3);
   WindowFires; Flush 190; Offer 200 (demo_body 5)].

Lemma batcher_is_fifo_witness :
  exists msgs out, (batch_run (newBatcher default_options 0) demo_steps).2 = Ok msgs
    /\ received msgs = Some out
    /\ out ++ buffered (batch_run (newBatcher default_options 0) demo_steps).1 = offered demo_steps.
Proof.
  apply (batcher_is_fifo default_options 0 demo_steps).
  apply (bool_decide_eq_true_1 _). vm_compute. reflexivity.
Defined.

(** Size discipline: when every offered frame leaves room for a full batch
    and its envelope, every message the batcher sends stays within the
    plaintext limit of the secure channel. *)
Theorem messages_fit_plaintext (opts : BatcherOptions) (t0 : Z) (steps : list BatchStep) (msgs : list buffer) :
  (0 <= maxBatchBytes opts <= MAX_PLAINTEXT_FRAME_BYTES)%Z ->
  Forall (reserve_ok opts) (offered steps) ->
  (batch_run (newBatcher opts t0) steps).2 = Ok msgs ->
  Forall (fun m => Zlen m <= MAX_PLAINTEXT_FRAME_BYTES)%Z msgs.
Proof.
  intros Hm Hl. apply (run_sizes opts); [done| |done]. split; [done|]. split; [done|]. by left.
Qed.

Lemma messages_fit_plaintext_witness :
  Forall (fun m => Zlen m <= MAX_PLAINTEXT_FRAME_BYTES)%Z
    [encodeTunnelFrame (mkFrame (type_code Ping) 0 false [x61])].
Proof.
  apply (messages_fit_plaintext default_options 0 [Offer 0 (encodeTunnelFrame (mkFrame (type_code Ping) 0 false [x61]))]).
  - vm_compute. split; discriminate.
  - apply (Forall_singleton (reserve_ok default_options)). vm_compute. discriminate.
  - vm_compute. reflexivity.
Defined.

(** A WebSocket message fragment as the dispatcher cuts it, of [n] payload bytes. *)
Definition ws_fragment (n : nat) : buffer :=
  encodeTunnelFrame (mkFrame (type_code WsText) 1 true (replicate n x61)).

Lemma ws_fragment_bytes n : ws_fragment n = [zb 136; x00; x00; x00; x01] ++ replicate n x61.
Proof. reflexivity. Qed.

Lemma ws_fragment_len n : Zlen (ws_fragment n) = (Z.of_nat n + 5)%Z.
Proof. rewrite ws_fragment_bytes, Zlen_app. unfold Zlen. rewrite length_replicate. simpl. lia. Qed.

Lemma ws_fragment_legal n : (Z.of_nat n < 2 ^ 31)%Z -> legal_frame (ws_fragment n).
Proof.
  intros Hn. split; [rewrite ws_fragment_bytes, length_app; simpl; unfold TUNNEL_FRAME_HEADER_BYTES; lia|].
  split; [rewrite ws_fragment_len; unfold u32_mod; lia|].
  rewrite ws_fragment_bytes. split; [vm_compute; set_solver|]. reflexivity.
Qed.

(** The caps are tested only after a frame is appended: with the default
    options a short buffered frame followed by one maximal WebSocket fragment
    is sent as one container that the secure channel refuses to encrypt. *)
Theorem oversized_container_is_refused {key} `{!AesGcm key} (d : SessionDirection) :
  exists m, (batch_run (newBatcher default_options 0)
               [Offer 1 (ws_fragment 1);
                Offer 2 (ws_fragment (Z.to_nat MAX_TUNNEL_PAYLOAD_BYTES))]).2 = Ok [m]
    /\ Forall legal_frame [ws_fragment 1; ws_fragment (Z.to_nat MAX_TUNNEL_PAYLOAD_BYTES)]
    /\ (encryptFrame d m).2 = Throw PlaintextTooLarge.
Proof.
  set (n := Z.to_nat MAX_TUNNEL_PAYLOAD_BYTES).
  assert (Z.of_nat n = 65526)%Z as Hn by (unfold n; rewrite Z2Nat.id; done).
  clearbody n.
  destruct (batch_segments_Ok [ws_fragment 1; ws_fragment n]) as [body Hb].
  { repeat constructor; rewrite ws_fragment_len; unfold u32_mod; lia. }
  exists (x01 :: body). split; [|split].
  - set (b1 := Build_Batcher default_options [ws_fragment 1] 11 true false 0).
    assert (batch_step (newBatcher default_options 0) (Offer 1 (ws_fragment 1)) = (b1, Ok [])) as E1
      by (vm_compute; reflexivity).
    cbn [batch_run]. rewrite E1. cbn [batch_step]. unfold offerNowBytes.
    change (disposed b1) with false.
    change (bool_decide (frame_type_of (ws_fragment n) ∈ BATCH_BUFFERED_TYPES)) with true.
    cbn [negb]. unfold capsReached. cbn [b1 buffered b_opts bufferedBytes].
    rewrite (bool_decide_true (maxBatchBytes _ <= _)%Z), orb_true_r
      by (rewrite ws_fragment_len, Hn; vm_compute; discriminate).
    unfold flushBuffer. cbn [orb cancelWindow buffered app].
    rewrite encodeBatchContainer_many, Hb. reflexivity.
  - apply Forall_cons_2, Forall_cons_2, Forall_nil_2; apply ws_fragment_legal; lia.
  - unfold encryptFrame. apply batch_segments_length in Hb.
    rewrite bool_decide_true; [done|]. rewrite Zlen_cons, Hb. rewrite !fmap_cons, !Zsum_cons, !ws_fragment_len, Hn.
    done.
Qed.
