(* ===== verification/RelayClient.v ===== *)
(** Relay layer 3.7, the client's outbound batcher
    (ui/src/lib/relay/tunnel-client-outbound.ts, with the container of
    ui/src/lib/relay/tunnel-codec.ts).

    The client mirrors the codec of the host, but not its batcher: it buffers frames
    before it encodes containers of any length, holds the caps against another bound, and
    ships unbuffered frames bare. *)

From S2P Require Import Prelude JsString JsMap Bytes RelayCrypto RelayCodec RelayBatch.

(** ** Operations *)

(** [MAX_TUNNEL_PAYLOAD_BYTES] (ui/src/lib/relay/crypto.ts). *)
Definition CLIENT_PAYLOAD_BYTES : Z := MAX_PLAINTEXT_FRAME_BYTES - 5 - 5.

(** [u8WriteUInt32BE] keeps the low 32 bits of a length. *)
Definition client_segment (frame : buffer) : buffer := be_bytes 4 (Zlen frame mod u32_mod) ++ frame.

Definition clientContainer (frames : list buffer) : buffer :=
  match frames with [f] => x00 :: f | _ => x01 :: concat (map client_segment frames) end.

(** The state has the members of the host's batcher. *)
Definition clientCaps (b : Batcher) : bool :=
  bool_decide (maxBatchFrames (b_opts b) <= Zlen (buffered b))%Z
  || bool_decide (maxBatchBytes (b_opts b) <= bufferedBytes b)%Z
  || bool_decide (CLIENT_PAYLOAD_BYTES <= bufferedBytes b + BATCH_ENVELOPE_RESERVED_BYTES)%Z.

(** [flushNow]: the new state and the plaintexts handed on. *)
Definition clientFlush (b : Batcher) (now : Z) : Batcher * list buffer :=
  let b1 := cancelWindow b in
  match buffered b1 with
  | [] => (b1, [])
  | take =>
    ({| b_opts := b_opts b1; buffered := []; bufferedBytes := 0; timer_armed := false;
        disposed := disposed b1; lastFlushStamp := now |}, [clientContainer take])
  end.

(** [batched]: the client has negotiated batches. *)
Definition clientOffer (b : Batcher) (now : Z) (batched : bool) (frame : TunnelFrame) : Batcher * list buffer :=
  if disposed b then (b, [])
  else if negb batched || negb (bool_decide (ftype frame ∈ BATCH_BUFFERED_TYPES)) then
    let '(b1, sent) := clientFlush b now in (b1, sent ++ [encodeTunnelFrame frame])
  else
    let bytes := encodeTunnelFrame frame in
    let b1 := {| b_opts := b_opts b; buffered := buffered b ++ [bytes];
                 bufferedBytes := bufferedBytes b + (Zlen bytes + BATCH_ENVELOPE_RESERVED_BYTES);
                 timer_armed := timer_armed b; disposed := disposed b; lastFlushStamp := lastFlushStamp b |} in
    if clientCaps b1 then clientFlush b1 now
    else if bool_decide (windowMs (b_opts b1) <= now - lastFlushStamp b1)%Z then clientFlush b1 now
    else (scheduleWindow b1, []).

Definition clientReset (b : Batcher) : Batcher :=
  {| b_opts := b_opts b; buffered := []; bufferedBytes := 0; timer_armed := false;
     disposed := disposed b; lastFlushStamp := lastFlushStamp b |}.

Inductive ClientStep :=
| ClientOffers (now : Z) (batched : bool) (frame : TunnelFrame)
| ClientWindow (now : Z)
| ClientResets
| ClientDisposes.

Definition client_step (b : Batcher) (s : ClientStep) : Batcher * list buffer :=
  match s with
  | ClientOffers now batched frame => clientOffer b now batched frame
  | ClientWindow now => clientFlush b now
  | ClientResets => (clientReset b, [])
  | ClientDisposes => (dispose b, [])
  end.

Fixpoint client_run (b : Batcher) (steps : list ClientStep) : Batcher * list buffer :=
  match steps with
  | [] => (b, [])
  | s :: ss => let '(b1, m1) := client_step b s in let '(b2, m2) := client_run b1 ss in (b2, m1 ++ m2)
  end.

(** The frames offered. *)
Definition client_frames (steps : list ClientStep) : list TunnelFrame :=
  omap (fun s => match s with ClientOffers _ _ f => Some f | _ => None end) steps.

(** The channel lives: nothing resets it. *)
Definition live_step (s : ClientStep) : Prop := match s with ClientOffers _ _ _ | ClientWindow _ => True | _ => False end.

(** A frame as the client builds them: well formed, the head of a request an object. *)
Definition client_frame (f : TunnelFrame) : Prop :=
  frame_wf f /\ (ftype f = type_code HttpRequest -> head (payload f) = Some x7b).

(** ** What the host reads *)

Lemma be_mod n : (0 <= n < u32_mod)%Z -> be_bytes 4 (n mod u32_mod) = be_bytes 4 n.
Proof. intros H. by rewrite Z.mod_small. Qed.

Lemma client_segments frames : Forall (fun f => Zlen f < u32_mod)%Z frames ->
  batch_segments frames = Ok (concat (map client_segment frames)).
Proof.
  induction 1 as [|f fs Hf _ IH]; [done|]. cbn [batch_segments]. unfold batch_segment. rewrite bool_decide_true by done. rewrite IH.
  cbn. unfold client_segment at 2. rewrite be_mod by (pose proof (Zlen_nonneg f); lia). done.
Qed.

Lemma client_container frames : Forall (fun f => Zlen f < u32_mod)%Z frames -> encodeBatchContainer frames = Ok (clientContainer frames).
Proof.
  intros H. destruct frames as [|f [|g fs]]; [done..|]. rewrite encodeBatchContainer_many, client_segments by done. done.
Qed.

Lemma container_covers frames f : f ∈ frames -> (Zlen f <= Zlen (clientContainer frames))%Z.
Proof.
  intros Hf. assert (Zlen f <= Zlen (concat (map client_segment frames)))%Z as H.
  { induction frames as [|g fs IH]; [by apply elem_of_nil in Hf|]. cbn. rewrite Zlen_app. unfold client_segment at 1. rewrite Zlen_app.
    pose proof (Zlen_nonneg (be_bytes 4 (Zlen g mod u32_mod))). pose proof (Zlen_nonneg (concat (map client_segment fs))).
    pose proof (Zlen_nonneg g). apply elem_of_cons in Hf as [->|Hf]; [lia|]. specialize (IH Hf). lia. }
  destruct frames as [|g [|h fs]]; [by apply elem_of_nil in Hf| |].
  - apply list_elem_of_singleton in Hf as ->. unfold clientContainer. rewrite Zlen_cons. lia.
  - unfold clientContainer. rewrite Zlen_cons. lia.
Qed.

Definition sealable (m : buffer) : Prop := (Zlen m <= MAX_PLAINTEXT_FRAME_BYTES)%Z.

Lemma sealable_short m : sealable m -> (Zlen m < u32_mod)%Z.
Proof. unfold sealable. assert (MAX_PLAINTEXT_FRAME_BYTES < u32_mod)%Z by by vm_compute. lia. Qed.

(** A buffered frame, whatever its length. *)
Definition bufferable (f : buffer) : Prop := TUNNEL_FRAME_HEADER_BYTES <= length f /\ frame_type_of f ∈ BATCH_BUFFERED_TYPES.

Lemma client_demux frames : frames <> [] -> Forall bufferable frames -> sealable (clientContainer frames) ->
  container_frames <$> decodeFrameOrContainer (clientContainer frames) = Some frames.
Proof.
  intros Hne Hb Hs. assert (Forall (fun f => Zlen f < u32_mod)%Z frames) as Hl.
  { apply Forall_forall. intros f Hf. apply container_covers in Hf. apply sealable_short in Hs. lia. }
  apply demux_container; [done| |by apply client_container]. apply Forall_forall. intros f Hf.
  rewrite Forall_forall in Hb, Hl. destruct (Hb f Hf) as [H1 H2]. split; [done|]. split; [by apply Hl|done].
Qed.

(** A request head that is an object does not read as a container. *)
Lemma object_head_is_no_container h sid p : isStrictBatchContainer (h :: be_bytes 4 sid ++ x7b :: p) = false.
Proof.
  unfold isStrictBatchContainer. set (bytes := h :: be_bytes 4 sid ++ x7b :: p).
  assert (length bytes = 6 + length p) as Hl by (unfold bytes; cbn [length]; rewrite length_app, length_be_bytes; cbn; lia).
  assert (drop 5 bytes = x7b :: p) as Hd by (unfold bytes; cbn [drop]; by rewrite drop_app_length' by by rewrite length_be_bytes).
  rewrite Hl. cbn [Nat.add strict_segments]. rewrite Hl. replace (1 + 4 <=? 6 + length p) with true by done.
  assert (read_be 4 bytes 1 = Some (sid mod 256 ^ Z.of_nat 4)%Z) as -> by exact (read_be_app [h] 4 sid (x7b :: p)). set (len := Z.to_nat _).
  destruct (len <? TUNNEL_FRAME_HEADER_BYTES) eqn:E; [done|]. cbn [orb]. destruct (_ <? len); [done|].
  unfold subarray. change (1 + 4) with 5. replace (5 + len - 5) with len by lia. rewrite Hd.
  destruct len; [done|]. cbn [firstn take]. change (bz x7b) with 123%Z. done.
Qed.

Lemma client_bare f : client_frame f -> container_frames <$> decodeFrameOrContainer (encodeTunnelFrame f) = Some [encodeTunnelFrame f].
Proof.
  intros [[Hk Hs] Hr]. unfold encodeTunnelFrame. set (h := zb _).
  assert (Z.land (bz h) 127 = ftype f) as Ht by (unfold h; by rewrite head_type, known_land).
  unfold decodeFrameOrContainer. rewrite bool_decide_false.
  2:{ intros E. rewrite E in Ht. rewrite <- Ht in Hk. by apply (bool_decide_eq_true _) in Hk. }
  assert (bool_decide (bz h = 1%Z) && isStrictBatchContainer (h :: be_bytes 4 (streamId f mod u32_mod) ++ payload f) = false) as ->.
  { case_bool_decide as E; [|done]. rewrite E in Ht. cbn [andb]. specialize (Hr (eq_sym Ht)).
    destruct (payload f) as [|x p]; [done|]. injection Hr as ->. apply object_head_is_no_container. }
  rewrite (proj2 (Nat.ltb_ge _ _)); [done|]. cbn [length]. rewrite length_app, length_be_bytes. unfold TUNNEL_FRAME_HEADER_BYTES. lia.
Qed.

Lemma client_bufferable f : frame_wf f -> ftype f ∈ BATCH_BUFFERED_TYPES -> bufferable (encodeTunnelFrame f).
Proof.
  intros [Hk _] Ht. split.
  - unfold encodeTunnelFrame. cbn [length]. rewrite length_app, length_be_bytes. unfold TUNNEL_FRAME_HEADER_BYTES. lia.
  - unfold encodeTunnelFrame, frame_type_of. by rewrite head_type, known_land.
Qed.

Lemma client_flush_fifo b now : Forall bufferable (buffered b) -> Forall sealable (clientFlush b now).2 ->
  received (clientFlush b now).2 = Some (buffered b) /\ buffered (clientFlush b now).1 = [] /\ disposed (clientFlush b now).1 = disposed b.
Proof.
  intros Hb. unfold clientFlush, cancelWindow. cbn [buffered]. destruct (buffered b) as [|f fs] eqn:E; cbn [fst snd buffered disposed]; [by intros _; split_and!|].
  intros Hs. apply (Forall_singleton sealable) in Hs. rewrite received_cons, (client_demux (f :: fs) ltac:(done) Hb Hs). cbn [mbind option_bind]. rewrite received_nil. cbn. by rewrite app_nil_r.
Qed.

Lemma client_step_fifo b s : live_step s -> disposed b = false -> Forall bufferable (buffered b) -> Forall client_frame (client_frames [s]) ->
  Forall sealable (client_step b s).2 ->
  exists out, received (client_step b s).2 = Some out /\ out ++ buffered (client_step b s).1 = buffered b ++ (encodeTunnelFrame <$> client_frames [s])
    /\ disposed (client_step b s).1 = false /\ Forall bufferable (buffered (client_step b s).1).
Proof.
  intros Hlive Hd Hb Hf. destruct s as [now batched f|now| |]; try done; cbn [client_step client_frames omap list_omap] in *.
  - apply (Forall_singleton client_frame) in Hf. unfold clientOffer. rewrite Hd.
    destruct (negb batched || _) eqn:Ed.
    + destruct (clientFlush b now) as [b1 sent] eqn:E. cbn [fst snd]. intros [Hs1 Hs2]%Forall_app.
      destruct (client_flush_fifo b now Hb) as (H1 & H2 & H3); [by rewrite E|]. rewrite E in H1, H2, H3. cbn [fst snd] in *.
      exists (buffered b ++ [encodeTunnelFrame f]). rewrite H2, H3, app_nil_r. split_and!; [|done..].
      apply received_app; [done|]. rewrite received_cons, client_bare by done. done.
    + apply orb_false_iff in Ed as [_ Ht%negb_false_iff%bool_decide_eq_true]. set (b1 := Build_Batcher _ _ _ _ _ _).
      assert (Forall bufferable (buffered b1)) as Hb1 by (apply Forall_app; split; [done|]; apply Forall_singleton, client_bufferable; [apply Hf|done]).
      assert (Forall sealable (clientFlush b1 now).2 ->
        exists out, received (clientFlush b1 now).2 = Some out /\ out ++ buffered (clientFlush b1 now).1 = buffered b ++ [encodeTunnelFrame f]
          /\ disposed (clientFlush b1 now).1 = false /\ Forall bufferable (buffered (clientFlush b1 now).1)) as Hfl.
      { intros Hs. destruct (client_flush_fifo b1 now Hb1 Hs) as (H1 & H2 & H3). exists (buffered b1). rewrite H2, H3, app_nil_r. done. }
      destruct (clientCaps b1); [exact Hfl|]. destruct (bool_decide _); [exact Hfl|]. intros _. by exists [].
  - intros Hs. destruct (client_flush_fifo b now Hb Hs) as (H1 & H2 & H3). exists (buffered b). by rewrite H2, H3, !app_nil_r.
Qed.

(** What a live client sends, if every message can be sealed, the host reads as the frames
    offered, in order, but for those still buffered. *)
Lemma client_run_fifo steps : forall b, Forall live_step steps -> disposed b = false -> Forall bufferable (buffered b) ->
  Forall client_frame (client_frames steps) -> Forall sealable (client_run b steps).2 ->
  exists out, received (client_run b steps).2 = Some out
    /\ out ++ buffered (client_run b steps).1 = buffered b ++ (encodeTunnelFrame <$> client_frames steps).
Proof.
  induction steps as [|s ss IH]; intros b Hl Hd Hb Hf; [exists []; cbn; by rewrite app_nil_r|].
  apply Forall_cons in Hl as [Hl1 Hl]. assert (client_frames (s :: ss) = client_frames [s] ++ client_frames ss) as Ec by by destruct s.
  rewrite Ec in *. apply Forall_app in Hf as [Hf1 Hf]. cbn [client_run]. pose proof (client_step_fifo b s Hl1 Hd Hb Hf1) as Hstep.
  destruct (client_step b s) as [b1 m1]. destruct (client_run b1 ss) as [b2 m2] eqn:E2. cbn [fst snd] in *. intros [Hs1 Hs2]%Forall_app.
  destruct (Hstep Hs1) as (o1 & H1 & H2 & H3 & H4). specialize (IH b1 Hl H3 H4 Hf). rewrite E2 in IH. destruct (IH Hs2) as (o2 & H5 & H6).
  exists (o1 ++ o2). split; [by apply received_app|]. cbn [fst snd] in *. by rewrite <- app_assoc, H6, app_assoc, H2, <- app_assoc, fmap_app.
Qed.

(** Messages that were sealed fit. *)
Lemma sealed_fit {key} `{!AesGcm key} (s : SessionDirection) ms ws : (encryptAll s ms).2 = Ok <$> ws -> Forall sealable ms.
Proof.
  revert s ws. induction ms as [|m ms IH]; intros s ws H; [done|]. cbn [encryptAll] in H. unfold encryptFrame in H.
  destruct (bool_decide _) eqn:E.
  - destruct (encryptAll s ms). destruct ws; cbn in H; congruence.
  - apply bool_decide_eq_false in E. destruct (encryptAll _ ms) as [d rs] eqn:E2. destruct ws as [|w ws]; [done|]. cbn in H.
    injection H as _ H. constructor; [unfold sealable; lia|]. eapply (IH _ ws). by rewrite E2.
Qed.

(** The client's caps are tested after the frame is in: a short frame waiting when a chunk
    of the largest size arrives makes one plaintext too long to seal, and the channel
    fails. *)
Lemma client_batch_outgrows_the_seal :
  let steps := [ClientOffers 1 true (mkFrame (type_code WsBinary) 1 false [x00]);
                ClientOffers 2 true (mkFrame (type_code WsBinary) 1 false (replicate (Z.to_nat CLIENT_PAYLOAD_BYTES) x00))] in
  match (client_run (newBatcher default_options 0) steps).2 with
  | [m] => bool_decide (MAX_PLAINTEXT_FRAME_BYTES < Zlen m)%Z
  | _ => false
  end = true.
Proof. by vm_compute. Qed.
