(* ===== verification/RelayDownstream.v ===== *)
(** Relay layer 3.8, the downstream scheduler
    (src/desktop/packages/web/src/server/lib/relay/downstream.ts): per-stream
    FIFO queues pumped round-robin into a connection-wide credit window, and
    the cumulative acknowledgement ledger that returns the credit.

    The callbacks [emit] and [streamZeroEmit] are parameters: whether the n-th
    call throws may depend on everything that happened before it. The microtask
    queue is the [pumpScheduled] flag (a pending [pump] call). *)

From S2P Require Import Prelude JsMap Bytes RelayCodec.

Definition STREAM_ZERO : Z := 0.
Definition INITIAL_WINDOW_BYTES : Z := 64 * 1024.
Definition MAX_WINDOW_BYTES : Z := 1024 * 1024.
Definition MAX_QUEUE_BYTES : Z := 4 * 1024 * 1024.
Definition MAX_QUEUE_FRAMES : Z := 4096.
Definition MAX_OUTSTANDING_FRAMES : Z := 4096.
Definition QUEUE_DELAY_TARGET_MS : Z := 100.
Definition WINDOW_GROW_RTT_SLACK_MS : Z := 50.

(** The messages a [SchedulerError] carries; [EmitThrew] is the callback's own error. *)
Inductive SchedulerError : Type :=
| SchedulerClosed | QueueCapExceeded | StreamCancelled | SchedulerDisposed
| AckTooShort | AckRegression | AckBeyondSent | AckOffBoundary
| ZeroSendFailed | OutstandingCapExceeded | SendFailed | EmitThrew.

#[export] Instance SchedulerError_eq_dec : EqDecision SchedulerError.
Proof. solve_decision. Defined.

(** ** State *)

(** The promise a queued entry settles is named by a number. *)
Record QueuedEntry : Type := mkEntry { e_bytes : buffer; e_promise : nat }.

Record Outstanding : Type := mkOutstanding { o_stream : Z; o_bytes : Z; o_sentAt : Z }.

Record Backlog : Type := mkBacklog {
  queues : list (Z * list QueuedEntry);
  queuedBytes : Z;
  queuedFrames : Z;
}.

Record Ledger : Type := mkLedger {
  outstanding : list Outstanding;
  outstandingBytes : Z;
  ackedBytes : Z;
}.

(** [minRttMs = None] is [Number.POSITIVE_INFINITY]. *)
Record Pacing : Type := mkPacing {
  windowBytes : Z;
  minRttMs : option Z;
  adjustCheckpointBytes : Z;
  windowLimitedSinceAdjust : bool;
}.

(** What the scheduler did to its environment, in order. *)
Inductive Effect : Type :=
| Emitted (streamId : Z) (bytes : buffer)
| Resolved (promise : nat)
| Rejected (promise : nat) (error : SchedulerError)
| ErrorReported (error : SchedulerError).

Record Scheduler : Type := mkScheduler {
  backlog : Backlog;
  ledger : Ledger;
  pacing : Pacing;
  closed : bool;
  pumpScheduled : bool;
  nextPromise : nat;
  effects : list Effect;
}.

Definition with_backlog (s : Scheduler) (b : Backlog) : Scheduler :=
  mkScheduler b (ledger s) (pacing s) (closed s) (pumpScheduled s) (nextPromise s) (effects s).
Definition with_ledger (s : Scheduler) (l : Ledger) : Scheduler :=
  mkScheduler (backlog s) l (pacing s) (closed s) (pumpScheduled s) (nextPromise s) (effects s).
Definition with_pacing (s : Scheduler) (p : Pacing) : Scheduler :=
  mkScheduler (backlog s) (ledger s) p (closed s) (pumpScheduled s) (nextPromise s) (effects s).
Definition with_closed (s : Scheduler) (c : bool) : Scheduler :=
  mkScheduler (backlog s) (ledger s) (pacing s) c (pumpScheduled s) (nextPromise s) (effects s).
Definition with_pump (s : Scheduler) (p : bool) : Scheduler :=
  mkScheduler (backlog s) (ledger s) (pacing s) (closed s) p (nextPromise s) (effects s).
Definition with_promise (s : Scheduler) (n : nat) : Scheduler :=
  mkScheduler (backlog s) (ledger s) (pacing s) (closed s) (pumpScheduled s) n (effects s).
Definition log (s : Scheduler) (es : list Effect) : Scheduler :=
  mkScheduler (backlog s) (ledger s) (pacing s) (closed s) (pumpScheduled s) (nextPromise s)
    (effects s ++ es).

Definition createDownstreamScheduler : Scheduler :=
  mkScheduler (mkBacklog [] 0 0) (mkLedger [] 0 0) (mkPacing INITIAL_WINDOW_BYTES None 0 false)
    false false 0 [].

(** ** Operations *)

Definition schedulePump (s : Scheduler) : Scheduler :=
  if pumpScheduled s || closed s then s else with_pump s true.

(** Every queued entry, queue by queue in map order. *)
Definition queued_entries (s : Scheduler) : list QueuedEntry :=
  concat (jvals (queues (backlog s))).

Definition reject_all (error : SchedulerError) (es : list QueuedEntry) : list Effect :=
  (fun e => Rejected (e_promise e) error) <$> es.

Definition failChannel (s : Scheduler) (error : SchedulerError) : Scheduler :=
  if closed s then s
  else
    let s1 := log (with_closed s true) (reject_all error (queued_entries s)) in
    log (with_backlog s1 (mkBacklog [] 0 0)) [ErrorReported error].

Definition dispose (s : Scheduler) : Scheduler :=
  let s1 := log (with_closed s true) (reject_all SchedulerDisposed (queued_entries s)) in
  with_backlog s1 (mkBacklog [] 0 0).

(** The returned promise: rejected at once ([Throw]) or the pending one. *)
Definition send (s : Scheduler) (frame : TunnelFrame) : Scheduler * exc SchedulerError nat :=
  if closed s then (s, Throw SchedulerClosed)
  else
    let bytes := encodeTunnelFrame frame in
    let b := backlog s in
    if bool_decide (MAX_QUEUE_FRAMES < queuedFrames b + 1)%Z
       || bool_decide (MAX_QUEUE_BYTES < queuedBytes b + Zlen bytes)%Z then
      (failChannel s QueueCapExceeded, Throw QueueCapExceeded)
    else
      let p := nextPromise s in
      let queue := default [] (jget (streamId frame) (queues b)) in
      let b1 := mkBacklog (jset (streamId frame) (queue ++ [mkEntry bytes p]) (queues b))
                  (queuedBytes b + Zlen bytes) (queuedFrames b + 1) in
      (schedulePump (with_promise (with_backlog s b1) (S p)), Ok p).

Definition push_outstanding (s : Scheduler) (sid now : Z) (bytes : buffer) : Scheduler :=
  let l := ledger s in
  with_ledger s (mkLedger (outstanding l ++ [mkOutstanding sid (Zlen bytes) now])
                   (outstandingBytes l + Zlen bytes) (ackedBytes l)).

(** The adaptive window, after an ack whose oldest frame was sent at
    [oldestSentAt]. *)
Definition onAckTelemetry (s : Scheduler) (now : Z) (oldestSentAt : option Z) : Scheduler :=
  match oldestSentAt with
  | None => s
  | Some t =>
    let delay := Z.max 0 (now - t) in
    let p := pacing s in
    let rtt := match minRttMs p with None => delay | Some r => Z.min r delay end in
    let p1 := mkPacing (windowBytes p) (Some rtt) (adjustCheckpointBytes p) (windowLimitedSinceAdjust p) in
    let acked := ackedBytes (ledger s) in
    if bool_decide (acked < adjustCheckpointBytes p)%Z then with_pacing s p1
    else
      let w := if windowLimitedSinceAdjust p && bool_decide (delay <= rtt + WINDOW_GROW_RTT_SLACK_MS)%Z
               then Z.min MAX_WINDOW_BYTES (windowBytes p * 2)
               else if bool_decide (rtt + QUEUE_DELAY_TARGET_MS < delay)%Z
               then Z.max INITIAL_WINDOW_BYTES (windowBytes p / 2)
               else windowBytes p in
      with_pacing s (mkPacing w (Some rtt) (acked + w) false)
  end.

(** The loop that consumes acknowledged frames: what is left of the ledger, the
    bytes still to consume and the first consumed frame's send time; [Throw]
    leaves the ledger as it stood at the refusal. *)
Fixpoint consume_acked (out : list Outstanding) (bytes consumed : Z) (oldest : option Z) :
    list Outstanding * Z * exc SchedulerError (Z * option Z) :=
  match out with
  | [] => ([], bytes, Ok (consumed, oldest))
  | head :: rest =>
    if bool_decide (0 < consumed)%Z then
      if bool_decide (consumed < o_bytes head)%Z then (out, bytes, Throw AckOffBoundary)
      else
        let oldest' := match oldest with None => Some (o_sentAt head) | Some t => Some t end in
        consume_acked rest (bytes - o_bytes head) (consumed - o_bytes head) oldest'
    else (out, bytes, Ok (consumed, oldest))
  end.

Definition onAck (s : Scheduler) (now : Z) (payload : buffer) : Scheduler :=
  match read_be 8 payload 0 with
  | None => failChannel s AckTooShort
  | Some count =>
    let l := ledger s in
    if negb (is_safe_integer count) || bool_decide (count <= ackedBytes l)%Z then
      failChannel s AckRegression
    else if bool_decide (ackedBytes l + outstandingBytes l < count)%Z then
      failChannel s AckBeyondSent
    else
      let '(out, ob, r) := consume_acked (outstanding l) (outstandingBytes l) (count - ackedBytes l) None in
      let s1 := with_ledger s (mkLedger out ob count) in
      match r with
      | Throw e => failChannel s1 e
      | Ok (consumed, oldest) =>
        if negb (bool_decide (consumed = 0)%Z) then failChannel s1 AckOffBoundary
        else schedulePump (onAckTelemetry s1 now oldest)
      end
  end.

Definition cancelStream (s : Scheduler) (sid : Z) : Scheduler :=
  match jget sid (queues (backlog s)) with
  | None => s
  | Some queue =>
    let b := backlog s in
    let s1 := log s (reject_all StreamCancelled queue) in
    with_backlog s1 (mkBacklog (jdel sid (queues b))
      (queuedBytes b - Zsum ((fun e => Zlen (e_bytes e)) <$> queue)) (queuedFrames b - Zlen queue))
  end.

Record Stats : Type := mkStats {
  st_queuedBytes : Z; st_queuedFrames : Z; st_outstanding : nat; st_windowBytes : Z }.

Definition stats (s : Scheduler) : Stats :=
  mkStats (queuedBytes (backlog s)) (queuedFrames (backlog s)) (length (outstanding (ledger s)))
    (windowBytes (pacing s)).

(** ** The pump *)

Section pump.
  (** Whether [emit], resp. [streamZeroEmit], returns (rather than throws). *)
  Context (emit streamZeroEmit : list Effect -> buffer -> bool).

Definition dispatch (s : Scheduler) (now sid : Z) (entry : QueuedEntry) : Scheduler :=
  let b := backlog s in
  let s0 := with_backlog s (mkBacklog (queues b) (queuedBytes b - Zlen (e_bytes entry))
                              (queuedFrames b - 1)) in
  if bool_decide (sid = STREAM_ZERO) then
    if streamZeroEmit (effects s0) (e_bytes entry)
    then log s0 [Emitted sid (e_bytes entry); Resolved (e_promise entry)]
    else failChannel (log s0 [Rejected (e_promise entry) EmitThrew]) ZeroSendFailed
  else if bool_decide (MAX_OUTSTANDING_FRAMES <= Zlen (outstanding (ledger s0)))%Z then
    failChannel (log s0 [Rejected (e_promise entry) OutstandingCapExceeded]) OutstandingCapExceeded
  else
    let s1 := push_outstanding s0 sid now (e_bytes entry) in
    if emit (effects s1) (e_bytes entry)
    then log s1 [Emitted sid (e_bytes entry); Resolved (e_promise entry)]
    else failChannel (log s1 [Rejected (e_promise entry) EmitThrew]) SendFailed.

(** [emit] is not guarded here: what it throws reaches the caller. *)
Definition sendNow (s : Scheduler) (now : Z) (frame : TunnelFrame) : Scheduler * exc SchedulerError unit :=
  if closed s then (s, Ok tt)
  else
    let bytes := encodeTunnelFrame frame in
    let s1 := if negb (bool_decide (streamId frame = STREAM_ZERO))
              then push_outstanding s (streamId frame) now bytes else s in
    if emit (effects s1) bytes then (log s1 [Emitted (streamId frame) bytes], Ok tt)
    else (s1, Throw EmitThrew).

Definition with_queues (s : Scheduler) (m : list (Z * list QueuedEntry)) : Scheduler :=
  with_backlog s (mkBacklog m (queuedBytes (backlog s)) (queuedFrames (backlog s))).

(** [queue.shift()] on the array the map holds for [sid], if it still holds it
    (a failed channel clears the map; the array lives on in the snapshot). *)
Definition shift_queue (s : Scheduler) (sid : Z) (rest : list QueuedEntry) : Scheduler :=
  if jhas sid (queues (backlog s)) then with_queues s (jset sid rest (queues (backlog s))) else s.

(** One iteration of the round over the snapshot. *)
Definition visit (s : Scheduler) (now sid : Z) (queue : list QueuedEntry) : Scheduler * bool :=
  match queue with
  | [] => (with_queues s (jdel sid (queues (backlog s))), false)
  | head :: rest =>
    if bool_decide (sid = STREAM_ZERO) then (s, false)
    else
      let p := pacing s in
      if bool_decide (windowBytes p < outstandingBytes (ledger s) + Zlen (e_bytes head))%Z then
        (with_pacing s (mkPacing (windowBytes p) (minRttMs p) (adjustCheckpointBytes p) true), false)
      else (dispatch (shift_queue s sid rest) now sid head, true)
  end.

Fixpoint visit_all (s : Scheduler) (now : Z) (snapshot : list (Z * list QueuedEntry)) : Scheduler * bool :=
  match snapshot with
  | [] => (s, false)
  | (sid, queue) :: snapshot' =>
    let '(s1, took1) := visit s now sid queue in
    let '(s2, took2) := visit_all s1 now snapshot' in
    (s2, took1 || took2)
  end.

Definition pumpRound (s : Scheduler) (now : Z) : Scheduler * bool :=
  let '(s1, tookZero) :=
    match jget STREAM_ZERO (queues (backlog s)) with
    | Some (head :: rest) => (dispatch (shift_queue s STREAM_ZERO rest) now STREAM_ZERO head, true)
    | _ => (s, false)
    end in
  let '(s2, took) := visit_all s1 now (queues (backlog s1)) in
  (s2, tookZero || took).

(** [while (this.pumpRound()) {}]; [None] when the fuel does not suffice. *)
Fixpoint pump_rounds (fuel : nat) (s : Scheduler) (now : Z) : option Scheduler :=
  match fuel with
  | O => None
  | S k => let '(s1, took) := pumpRound s now in
           if took then pump_rounds k s1 now else Some s1
  end.

Definition pump (fuel : nat) (s : Scheduler) (now : Z) : option Scheduler :=
  let s0 := with_pump s false in
  if closed s0 then Some s0 else pump_rounds fuel s0 now.

(** *** Runs of operations *)

Inductive SchedulerOp : Type :=
| OpSend (frame : TunnelFrame)
| OpSendNow (now : Z) (frame : TunnelFrame)
| OpAck (now : Z) (payload : buffer)
| OpCancel (sid : Z)
| OpDispose
| OpPump (now : Z).

(** Every round that takes something takes a queued frame, so this many rounds
    are enough. *)
Definition pump_fuel (s : Scheduler) : nat := S (length (queued_entries s)).

(** A pump runs only when one is scheduled. *)
Definition scheduler_step (s : Scheduler) (op : SchedulerOp) : option Scheduler :=
  match op with
  | OpSend f => Some (send s f).1
  | OpSendNow now f => Some (sendNow s now f).1
  | OpAck now p => Some (onAck s now p)
  | OpCancel sid => Some (cancelStream s sid)
  | OpDispose => Some (dispose s)
  | OpPump now => if pumpScheduled s then pump (pump_fuel s) s now else Some s
  end.

Fixpoint scheduler_run (s : Scheduler) (ops : list SchedulerOp) : option Scheduler :=
  match ops with
  | [] => Some s
  | op :: ops' => s1 ← scheduler_step s op; scheduler_run s1 ops'
  end.

End pump.

(** ** Invariants *)

Definition queue_bytes (q : list QueuedEntry) : Z := Zsum ((fun e => Zlen (e_bytes e)) <$> q).

Record backlog_wf (b : Backlog) : Prop := {
  bl_wf : jwf (queues b);
  bl_bytes : queuedBytes b = jsum queue_bytes (queues b);
  bl_frames : queuedFrames b = jsum Zlen (queues b);
  bl_cap_bytes : (queuedBytes b <= MAX_QUEUE_BYTES)%Z;
  bl_cap_frames : (queuedFrames b <= MAX_QUEUE_FRAMES)%Z;
}.

Record ledger_wf (l : Ledger) : Prop := {
  lg_bytes : outstandingBytes l = Zsum (o_bytes <$> outstanding l);
  lg_pos : Forall (fun o => 0 < o_bytes o)%Z (outstanding l);
}.

Definition pacing_wf (p : Pacing) : Prop :=
  (INITIAL_WINDOW_BYTES <= windowBytes p <= MAX_WINDOW_BYTES)%Z.

(** Queued frames carry at least their header. *)
Definition entry_ok (e : QueuedEntry) : Prop := (0 < Zlen (e_bytes e))%Z.

Definition entries_ok (m : list (Z * list QueuedEntry)) : Prop := Forall (fun x => Forall entry_ok x.2) m.

(** The backlog counters are exact while the channel is open; a round that
    fails the channel half-way keeps dispatching from its snapshot, and the
    counters of a closed scheduler mean nothing. *)
Record scheduler_wf (s : Scheduler) : Prop := {
  sw_ledger : ledger_wf (ledger s);
  sw_pacing : pacing_wf (pacing s);
  sw_entries : entries_ok (queues (backlog s));
  sw_backlog : closed s = false -> backlog_wf (backlog s);
  sw_closed : closed s = true -> queues (backlog s) = [];
}.

Lemma encode_pos f : (0 < Zlen (encodeTunnelFrame f))%Z.
Proof. unfold encodeTunnelFrame. cbn zeta. rewrite Zlen_cons. pose proof (Zlen_nonneg (be_bytes 4 (streamId f mod u32_mod) ++ payload f)). lia. Qed.

Lemma queue_bytes_nonneg q : (0 <= queue_bytes q)%Z.
Proof. apply Zsum_nonneg, Forall_fmap, Forall_true. intros e. cbn. apply Zlen_nonneg. Qed.

Lemma failChannel_wf s e : scheduler_wf s -> scheduler_wf (failChannel s e).
Proof.
  intros Hwf. unfold failChannel. destruct (closed s) eqn:E; [done|].
  destruct Hwf. split; cbn; [done|done|constructor|done|done].
Qed.

Lemma schedulePump_wf s : scheduler_wf s -> scheduler_wf (schedulePump s).
Proof. intros []. unfold schedulePump. by destruct (_ || _). Qed.

Lemma dispose_wf s : scheduler_wf s -> scheduler_wf (dispose s).
Proof. intros []. split; cbn; [done|done|constructor|done|done]. Qed.

Lemma send_wf s f : scheduler_wf s -> scheduler_wf (send s f).1.
Proof.
  intros Hwf. unfold send. destruct (closed s) eqn:Ec; [done|].
  destruct (_ || _) eqn:Hcap; [by apply failChannel_wf|].
  cbn [fst]. apply schedulePump_wf. bool_facts. destruct Hwf as [Hl Hp He Hb _].
  specialize (Hb Ec) as [Hw Hbb Hbf Hcb Hcf].
  split; cbn; [done|done| | |by rewrite Ec].
  - apply Forall_jset; [|done]. cbn. apply Forall_app. split; [|by repeat constructor; apply encode_pos].
    destruct (jget _ _) eqn:E; [by eapply (Forall_jget _ _ _ _ He) in E|constructor].
  - intros _. split; cbn; [by apply jwf_set| | |lia|lia].
    + rewrite jsum_set, Hbb. unfold queue_bytes.
      destruct (jget _ _); cbn [default from_option id]; autorewrite with jsrw; cbn [e_bytes]; lia.
    + rewrite jsum_set, Hbf. destruct (jget _ _); cbn [default from_option id]; autorewrite with jsrw; lia.
Qed.

Lemma push_outstanding_ledger_wf s sid now bytes :
  ledger_wf (ledger s) -> (0 < Zlen bytes)%Z -> ledger_wf (ledger (push_outstanding s sid now bytes)).
Proof.
  intros [Hb Hp] Hn. split; cbn.
  - rewrite fmap_app, Zsum_app, <- Hb. unfold Zsum. simpl. lia.
  - apply Forall_app. split; [done|]. by repeat constructor.
Qed.

Lemma push_outstanding_wf s sid now bytes :
  scheduler_wf s -> (0 < Zlen bytes)%Z -> scheduler_wf (push_outstanding s sid now bytes).
Proof. intros [] ?. split; try done. by apply push_outstanding_ledger_wf. Qed.

Lemma log_wf s es : scheduler_wf s -> scheduler_wf (log s es).
Proof. by intros []. Qed.

Lemma sendNow_wf emit s now f : scheduler_wf s -> scheduler_wf (sendNow emit s now f).1.
Proof.
  intros Hwf. unfold sendNow. destruct (closed s); [done|]. cbn zeta.
  assert (scheduler_wf (if negb (bool_decide (streamId f = STREAM_ZERO))
    then push_outstanding s (streamId f) now (encodeTunnelFrame f) else s)) as H1.
  { destruct (negb _); [|done]. apply push_outstanding_wf; [done|apply encode_pos]. }
  destruct (emit _ _); cbn [fst]; [by apply log_wf|done].
Qed.

Lemma onAckTelemetry_wf s now t : scheduler_wf s -> scheduler_wf (onAckTelemetry s now t).
Proof.
  intros [Hl Hp He Hb Hcl]. unfold onAckTelemetry. destruct t as [t|]; [|done]. cbn zeta.
  case_bool_decide; split; try done. unfold pacing_wf in *. cbn.
  unfold INITIAL_WINDOW_BYTES, MAX_WINDOW_BYTES in *.
  assert (windowBytes (pacing s) / 2 <= windowBytes (pacing s))%Z by (apply Z.div_le_upper_bound; lia).
  repeat split_test; lia.
Qed.

(** What the consuming loop removes is a prefix of the ledger. *)
Lemma consume_acked_prefix out bytes consumed oldest out' bytes' r :
  consume_acked out bytes consumed oldest = (out', bytes', r) ->
  exists gone, out = gone ++ out' /\ bytes' = (bytes - Zsum (o_bytes <$> gone))%Z
    /\ match r with
       | Ok (c, _) => c = (consumed - Zsum (o_bytes <$> gone))%Z
       | Throw e => e = AckOffBoundary
       end.
Proof.
  revert bytes consumed oldest. induction out as [|h out IH]; intros bytes consumed oldest H; cbn in H.
  { injection H as <- <- <-. exists []. unfold Zsum. simpl. repeat split; lia. }
  destruct (bool_decide (0 < consumed)%Z); [destruct (bool_decide (consumed < o_bytes h)%Z)|].
  - injection H as <- <- <-. exists []. unfold Zsum. simpl. repeat split; lia.
  - apply IH in H as (gone & -> & -> & Hr). exists (h :: gone). split; [done|].
    rewrite fmap_cons, Zsum_cons. split; [lia|]. destruct r as [[c t]|]; [lia|done].
  - injection H as <- <- <-. exists []. unfold Zsum. simpl. repeat split; lia.
Qed.

Lemma ledger_wf_drop l gone out' count :
  ledger_wf l -> outstanding l = gone ++ out' ->
  ledger_wf (mkLedger out' (outstandingBytes l - Zsum (o_bytes <$> gone)) count).
Proof.
  intros [Hb Hp] E. rewrite E in *. split; cbn.
  - rewrite Hb, fmap_app, Zsum_app. lia.
  - by apply Forall_app in Hp as [_ ?].
Qed.

Lemma onAck_wf s now p : scheduler_wf s -> scheduler_wf (onAck s now p).
Proof.
  intros Hwf. unfold onAck. destruct (read_be 8 p 0) as [count|]; [|by apply failChannel_wf].
  cbn zeta. destruct (_ || _); [by apply failChannel_wf|].
  destruct (bool_decide _); [by apply failChannel_wf|].
  destruct (consume_acked _ _ _ _) as [[out ob] r] eqn:E.
  apply consume_acked_prefix in E as (gone & Eo & -> & _).
  assert (scheduler_wf (with_ledger s (mkLedger out
    (outstandingBytes (ledger s) - Zsum (o_bytes <$> gone)) count))) as H1.
  { destruct Hwf. split; try done. cbn. by apply ledger_wf_drop. }
  destruct r as [[c t]|e]; [|by apply failChannel_wf].
  destruct (negb _); [by apply failChannel_wf|]. by apply schedulePump_wf, onAckTelemetry_wf.
Qed.

Lemma cancelStream_wf s sid : scheduler_wf s -> scheduler_wf (cancelStream s sid).
Proof.
  intros [Hl Hp He Hb Hcl]. unfold cancelStream. destruct (jget _ _) as [q|] eqn:E; [|done].
  split; try done; cbn; [by apply Forall_jdel| |].
  2:{ intros Hc. by rewrite (Hcl Hc) in E. } intros Hc. specialize (Hb Hc) as [Hw Hbb Hbf Hcb Hcf].
  pose proof (queue_bytes_nonneg q) as Hq. pose proof (Zlen_nonneg q). unfold queue_bytes in Hq.
  split; cbn; [by apply jwf_del| | |lia|lia].
  - by rewrite jsum_del, E, Hbb.
  - by rewrite jsum_del, E, Hbf.
Qed.

(** ** The pump, one dispatch at a time *)

Definition take_entry (s : Scheduler) (e : QueuedEntry) : Scheduler :=
  with_backlog s (mkBacklog (queues (backlog s)) (queuedBytes (backlog s) - Zlen (e_bytes e))
                    (queuedFrames (backlog s) - 1)).

(** A dispatch either ships its entry or rejects it and fails the channel; the
    ledger grows by the entry, within the outstanding cap, or stays. *)
Inductive dispatched (s : Scheduler) (now sid : Z) (e : QueuedEntry) : Scheduler -> Prop :=
| shipped_zero :
    sid = STREAM_ZERO ->
    dispatched s now sid e (log (take_entry s e) [Emitted sid (e_bytes e); Resolved (e_promise e)])
| shipped :
    sid <> STREAM_ZERO ->
    dispatched s now sid e (log (push_outstanding (take_entry s e) sid now (e_bytes e))
                              [Emitted sid (e_bytes e); Resolved (e_promise e)])
| refused err err' :
    dispatched s now sid e (failChannel (log (take_entry s e) [Rejected (e_promise e) err]) err')
| unsent err err' :
    sid <> STREAM_ZERO ->
    dispatched s now sid e (failChannel (log (push_outstanding (take_entry s e) sid now (e_bytes e))
                              [Rejected (e_promise e) err]) err').

Section pump_lemmas.
  Context (emit streamZeroEmit : list Effect -> buffer -> bool).

Lemma dispatch_spec s now sid e : dispatched s now sid e (dispatch emit streamZeroEmit s now sid e).
Proof.
  unfold dispatch. cbn zeta. fold (take_entry s e).
  destruct (bool_decide (sid = STREAM_ZERO)) eqn:E; bool_facts.
  - destruct (streamZeroEmit _ _); [by apply shipped_zero|apply refused].
  - destruct (bool_decide _); [apply refused|]. destruct (emit _ _); [by apply shipped|by apply unsent].
Qed.

Lemma failChannel_closed s e : closed (failChannel s e) = true.
Proof. unfold failChannel. by destruct (closed s) eqn:E. Qed.

Lemma failChannel_ledger s e : ledger (failChannel s e) = ledger s.
Proof. unfold failChannel. by destruct (closed s). Qed.

Lemma failChannel_pacing s e : pacing (failChannel s e) = pacing s.
Proof. unfold failChannel. by destruct (closed s). Qed.

Lemma failChannel_was_closed s e : closed s = true -> failChannel s e = s.
Proof. unfold failChannel. by intros ->. Qed.

Lemma failChannel_queues s e :
  closed s = false -> backlog (failChannel s e) = mkBacklog [] 0 0.
Proof. unfold failChannel. by intros ->. Qed.

(** A dispatch from an open state that leaves it open took the entry. *)
Lemma dispatched_open s now sid e s1 :
  dispatched s now sid e s1 -> closed s1 = false ->
  closed s = false /\ backlog s1 = backlog (take_entry s e) /\ pumpScheduled s1 = pumpScheduled s
  /\ effects s1 = effects s ++ [Emitted sid (e_bytes e); Resolved (e_promise e)]
  /\ (ledger s1 = ledger s /\ sid = STREAM_ZERO
      \/ ledger s1 = ledger (push_outstanding s sid now (e_bytes e)) /\ sid <> STREAM_ZERO).
Proof.
  intros H Hc. destruct H; rewrite ?failChannel_closed in Hc; try done; cbn in *; auto 10.
Qed.

Lemma dispatched_pacing s now sid e s1 : dispatched s now sid e s1 -> pacing s1 = pacing s.
Proof. by intros H; destruct H; rewrite ?failChannel_pacing. Qed.

Lemma dispatched_ledger s now sid e s1 :
  dispatched s now sid e s1 ->
  ledger s1 = ledger s \/ ledger s1 = ledger (push_outstanding s sid now (e_bytes e)).
Proof. by intros H; destruct H; rewrite ?failChannel_ledger; auto. Qed.

Lemma dispatched_queues s now sid e s1 :
  dispatched s now sid e s1 ->
  (closed s1 = closed s /\ queues (backlog s1) = queues (backlog s))
  \/ closed s1 = true /\ queues (backlog s1) = [].
Proof.
  intros H; destruct H; auto;
    (destruct (closed s) eqn:E; [left; by rewrite failChannel_was_closed|right]);
    by rewrite failChannel_closed, failChannel_queues.
Qed.

Lemma dispatched_closed s now sid e s1 : dispatched s now sid e s1 -> closed s = true -> closed s1 = true.
Proof. by intros H ?; destruct H; rewrite ?failChannel_closed. Qed.

(** The elementary moves of a pump; the invariants below are proved per move. *)
Definition held (s : Scheduler) (sid : Z) (q : list QueuedEntry) : Prop :=
  closed s = false -> jget sid (queues (backlog s)) = Some q.

Inductive move (now : Z) (s : Scheduler) : Scheduler -> Prop :=
| move_ship sid h r s1 :
    held s sid (h :: r) -> Forall entry_ok (h :: r) ->
    (sid = STREAM_ZERO \/ outstandingBytes (ledger s) + Zlen (e_bytes h) <= windowBytes (pacing s))%Z ->
    dispatched (shift_queue s sid r) now sid h s1 -> move now s s1
| move_drop sid :
    held s sid [] -> move now s (with_queues s (jdel sid (queues (backlog s))))
| move_limited :
    move now s (with_pacing s (mkPacing (windowBytes (pacing s)) (minRttMs (pacing s))
                                 (adjustCheckpointBytes (pacing s)) true)).

Lemma shift_queue_same s sid r :
  closed (shift_queue s sid r) = closed s /\ ledger (shift_queue s sid r) = ledger s
  /\ pacing (shift_queue s sid r) = pacing s /\ effects (shift_queue s sid r) = effects s
  /\ pumpScheduled (shift_queue s sid r) = pumpScheduled s
  /\ queuedBytes (backlog (shift_queue s sid r)) = queuedBytes (backlog s)
  /\ queuedFrames (backlog (shift_queue s sid r)) = queuedFrames (backlog s).
Proof. unfold shift_queue. by destruct (jhas _ _). Qed.

Lemma shift_queue_held s sid q r :
  jget sid (queues (backlog s)) = Some q ->
  queues (backlog (shift_queue s sid r)) = jset sid r (queues (backlog s)).
Proof. intros H. unfold shift_queue, jhas. by rewrite H. Qed.

Lemma shift_queue_open s sid q r :
  held s sid q -> closed s = false ->
  queues (backlog (shift_queue s sid r)) = jset sid r (queues (backlog s)).
Proof. intros H Hc. by eapply shift_queue_held, H. Qed.

Lemma move_closed now s s1 : move now s s1 -> closed s = true -> closed s1 = true.
Proof.
  intros [sid h r s2 _ _ _ Hd|sid _|] Hc; try done.
  eapply dispatched_closed; [exact Hd|]. by rewrite (proj1 (shift_queue_same s sid r)).
Qed.

Lemma move_open now s s1 : move now s s1 -> closed s1 = false -> closed s = false.
Proof. intros Hm Hc. destruct (closed s) eqn:E; [|done]. by rewrite (move_closed _ _ _ Hm) in Hc. Qed.

(** The queues after a move that leaves the channel open. *)
Lemma move_queues now s s1 sid :
  move now s s1 -> closed s1 = false -> jwf (queues (backlog s)) ->
  jget sid (queues (backlog s1)) = jget sid (queues (backlog s))
  \/ (jget sid (queues (backlog s)) = Some [] /\ jget sid (queues (backlog s1)) = None)
  \/ exists h r, jget sid (queues (backlog s)) = Some (h :: r)
       /\ jget sid (queues (backlog s1)) = Some r.
Proof.
  intros Hm Hc Hw. pose proof (move_open _ _ _ Hm Hc) as Ho.
  destruct Hm as [sid' h r s2 Hh _ _ Hd|sid' Hh|]; [| |by left].
  - destruct (dispatched_open _ _ _ _ _ Hd Hc) as (_ & Hb & _). rewrite Hb. cbn.
    rewrite (shift_queue_open s sid' _ r Hh Ho). destruct (decide (sid = sid')) as [->|Hne].
    + right; right. exists h, r. split; [by apply Hh|apply jget_set_eq].
    + left. by apply jget_set_ne.
  - cbn. destruct (decide (sid = sid')) as [->|Hne].
    + right; left. split; [by apply Hh|by apply jget_del_eq].
    + left. by apply jget_del_ne.
Qed.

Lemma entries_ok_get m sid q : entries_ok m -> jget sid m = Some q -> Forall entry_ok q.
Proof. intros He Hg. by apply (Forall_jget _ _ _ _ He) in Hg. Qed.

Lemma dispatched_wf s now sid h r s1 :
  scheduler_wf s -> held s sid (h :: r) -> Forall entry_ok (h :: r) ->
  dispatched (shift_queue s sid r) now sid h s1 -> scheduler_wf s1.
Proof.
  intros [Hl Hp He Hb Hcl] Hh Hok Hd.
  destruct (shift_queue_same s sid r) as (Ec & El & Ep & _ & _ & Eqb & Eqf).
  apply Forall_cons in Hok as [Hok1 Hok2]. split.
  - destruct (dispatched_ledger _ _ _ _ _ Hd) as [->| ->]; rewrite ?El; [done|].
    apply push_outstanding_ledger_wf; [by rewrite El|done].
  - by rewrite (dispatched_pacing _ _ _ _ _ Hd), Ep.
  - destruct (dispatched_queues _ _ _ _ _ Hd) as [[_ ->]|[_ ->]]; [|constructor].
    unfold shift_queue. destruct (jhas _ _); [|done]. cbn. by apply Forall_jset.
  - intros Hc. destruct (dispatched_open _ _ _ _ _ Hd Hc) as (Ho & -> & _). rewrite Ec in Ho.
    cbn [take_entry with_backlog backlog]. rewrite Eqb, Eqf, (shift_queue_open _ _ _ _ Hh Ho).
    destruct (Hb Ho) as [Hw Hbb Hbf Hcb Hcf]. specialize (Hh Ho). pose proof (Zlen_nonneg (e_bytes h)).
    split; cbn; [by apply jwf_set| | |lia|lia]; rewrite jsum_set, Hh, ?Hbb, ?Hbf; cbn [from_option];
      unfold queue_bytes; autorewrite with jsrw; lia.
  - destruct (dispatched_queues _ _ _ _ _ Hd) as [[Eo ->]|[_ ->]]; [|done]. rewrite Ec in Eo.
    intros Hc. rewrite Hc in Eo. specialize (Hcl (eq_sym Eo)). unfold shift_queue. rewrite Hcl. exact Hcl.
Qed.

Lemma move_wf now s s1 : scheduler_wf s -> move now s s1 -> scheduler_wf s1.
Proof.
  intros Hwf [sid h r s2 Hh Hok _ Hd|sid Hh|].
  - by eapply dispatched_wf.
  - destruct Hwf as [Hl Hp He Hb Hcl]. split; try done; cbn; [by apply Forall_jdel| |].
    2:{ intros Hc. by rewrite (Hcl Hc). }
    intros Hc. destruct (Hb Hc) as [Hw Hbb Hbf Hcb Hcf]. specialize (Hh Hc).
    split; cbn; try done; [by apply jwf_del| |]; rewrite jsum_del, Hh, ?Hbb, ?Hbf; cbn [from_option];
      unfold queue_bytes; autorewrite with jsrw; lia.
  - by destruct Hwf.
Qed.

Lemma visit_move s now sid q :
  held s sid q -> Forall entry_ok q -> rtc (move now) s (visit emit streamZeroEmit s now sid q).1.
Proof.
  intros Hh Hok. unfold visit. destruct q as [|h r]; cbn [fst].
  { by apply rtc_once, move_drop. }
  case_bool_decide as Hz; [done|]. cbn zeta.
  case_bool_decide as Hw; cbn [fst]; apply rtc_once; [apply move_limited|].
  eapply move_ship; [done|done|right; lia|apply dispatch_spec].
Qed.

Lemma visit_closed s now sid q :
  closed s = true -> closed (visit emit streamZeroEmit s now sid q).1 = true.
Proof.
  intros Hc. unfold visit. destruct q; [done|]. case_bool_decide; [done|]. cbn zeta.
  case_bool_decide; [done|]. cbn [fst]. eapply dispatched_closed; [apply dispatch_spec|].
  by rewrite (proj1 (shift_queue_same _ _ _)).
Qed.

Lemma visit_others s now sid q sid' :
  held s sid q -> sid' <> sid -> closed (visit emit streamZeroEmit s now sid q).1 = false ->
  jget sid' (queues (backlog (visit emit streamZeroEmit s now sid q).1)) = jget sid' (queues (backlog s)).
Proof.
  intros Hh Hne. unfold visit. destruct q as [|h r]; cbn [fst].
  { intros _. cbn. by apply jget_del_ne. }
  case_bool_decide; [done|]. cbn zeta. case_bool_decide; [done|]. cbn [fst]. intros Hc.
  destruct (dispatched_open _ _ _ _ _ (dispatch_spec _ _ _ _) Hc) as (Ho & -> & _).
  cbn. rewrite (shift_queue_open _ _ _ _ Hh); [by apply jget_set_ne|].
  by rewrite (proj1 (shift_queue_same _ _ _)) in Ho.
Qed.

(** A snapshot still describes the map, as long as the channel is open. *)
Record coherent (s : Scheduler) (snapshot : list (Z * list QueuedEntry)) : Prop := {
  co_nodup : closed s = false -> NoDup snapshot.*1;
  co_ok : entries_ok snapshot;
  co_held : Forall (fun x => held s x.1 x.2) snapshot;
}.

Lemma coherent_self s : scheduler_wf s -> coherent s (queues (backlog s)).
Proof.
  intros [_ _ He Hb _]. split; [|done|].
  - intros Hc. by destruct (Hb Hc).
  - apply Forall_forall. intros [sid q] Hin Hc. cbn. destruct (Hb Hc). by apply jget_elem.
Qed.

Lemma coherent_visit s now sid q snapshot :
  coherent s ((sid, q) :: snapshot) ->
  coherent (visit emit streamZeroEmit s now sid q).1 snapshot.
Proof.
  intros [Hn He Hh]. apply Forall_cons in He as [_ He]. apply Forall_cons in Hh as [Hh1 Hh]. cbn in *.
  assert (forall b, closed (visit emit streamZeroEmit s now sid q).1 = false -> closed s = b -> b = false) as Ho.
  { intros b Hc <-. destruct (closed s) eqn:E; [|done]. by rewrite visit_closed in Hc. }
  split; [|done|].
  - intros Hc. specialize (Hn (Ho _ Hc eq_refl)). by apply NoDup_cons in Hn as [_ ?].
  - rewrite Forall_forall in *. intros [sid' q'] Hin Hc. cbn. specialize (Ho _ Hc eq_refl).
    rewrite visit_others; [by apply (Hh _ Hin)|done| |done].
    intros ->. specialize (Hn Ho). apply NoDup_cons in Hn as [Hn _]. apply Hn.
    by apply (list_elem_of_fmap_2 fst) in Hin.
Qed.

Lemma visit_all_moves s now snapshot :
  coherent s snapshot -> rtc (move now) s (visit_all emit streamZeroEmit s now snapshot).1.
Proof.
  revert s. induction snapshot as [|[sid q] snapshot IH]; intros s Hco; [done|].
  pose proof (coherent_visit s now sid q snapshot Hco) as Hco'. destruct Hco as [_ He Hh].
  apply Forall_cons in He as [He _]. apply Forall_cons in Hh as [Hh _]. cbn in He, Hh.
  pose proof (visit_move s now sid q Hh He) as Hm. cbn [visit_all].
  destruct (visit _ _ s now sid q) as [s1 t1]. cbn [fst] in *. specialize (IH s1 Hco').
  destruct (visit_all _ _ s1 now snapshot) as [s2 t2]. by etrans.
Qed.

Lemma moves_wf now s s1 : scheduler_wf s -> rtc (move now) s s1 -> scheduler_wf s1.
Proof. intros Hwf. induction 1; [done|]. eauto using move_wf. Qed.

(** The stream-zero half of a round. *)
Definition round_zero (s : Scheduler) (now : Z) : Scheduler * bool :=
  match jget STREAM_ZERO (queues (backlog s)) with
  | Some (head :: rest) =>
    (dispatch emit streamZeroEmit (shift_queue s STREAM_ZERO rest) now STREAM_ZERO head, true)
  | _ => (s, false)
  end.

Lemma pumpRound_eq s now :
  pumpRound emit streamZeroEmit s now =
  let '(s1, t1) := round_zero s now in
  let '(s2, t2) := visit_all emit streamZeroEmit s1 now (queues (backlog s1)) in (s2, t1 || t2).
Proof. done. Qed.

Lemma round_zero_moves s now : scheduler_wf s -> rtc (move now) s (round_zero s now).1.
Proof.
  intros Hwf. unfold round_zero. destruct (jget _ _) as [[|h r]|] eqn:E; [done| |done].
  apply rtc_once. eapply move_ship; [by intros ?| |by left|apply dispatch_spec].
  by eapply entries_ok_get, E; destruct Hwf.
Qed.

Lemma pumpRound_moves s now : scheduler_wf s -> rtc (move now) s (pumpRound emit streamZeroEmit s now).1.
Proof.
  intros Hwf. rewrite pumpRound_eq. pose proof (round_zero_moves s now Hwf) as H0.
  destruct (round_zero s now) as [s1 t1]. cbn [fst] in H0.
  pose proof (visit_all_moves s1 now _ (coherent_self _ (moves_wf _ _ _ Hwf H0))) as H1.
  destruct (visit_all _ _ s1 now _) as [s2 t2]. by etrans.
Qed.

Lemma pump_rounds_moves fuel s now s1 :
  scheduler_wf s -> pump_rounds emit streamZeroEmit fuel s now = Some s1 -> rtc (move now) s s1.
Proof.
  revert s. induction fuel as [|fuel IH]; intros s Hwf Hp; cbn in Hp; [done|].
  pose proof (pumpRound_moves s now Hwf) as Hm.
  destruct (pumpRound _ _ s now) as [s2 []]; cbn [fst] in Hm; [|by simplify_eq].
  etrans; [done|]. apply IH; [|done]. by eapply moves_wf.
Qed.

(** *** Termination *)

(** The number of queued frames, the measure of the pump's loop. *)
Definition frames_left (s : Scheduler) : Z := jsum Zlen (queues (backlog s)).

Lemma frames_left_nonneg s : (0 <= frames_left s)%Z.
Proof. apply jsum_nonneg, Zlen_nonneg. Qed.

Lemma frames_left_entries s : frames_left s = Zlen (queued_entries s).
Proof.
  unfold frames_left, queued_entries, jsum, jvals. rewrite Zlen_concat. by rewrite <- list_fmap_compose.
Qed.

Lemma ship_frames s now sid h r s1 :
  held s sid (h :: r) -> closed s = false ->
  dispatched (shift_queue s sid r) now sid h s1 -> (frames_left s1 < frames_left s)%Z.
Proof.
  intros Hh Hc Hd. specialize (Hh Hc). unfold frames_left.
  assert (jsum Zlen (jset sid r (queues (backlog s))) = jsum Zlen (queues (backlog s)) - 1)%Z as H1.
  { rewrite jsum_set, Hh. cbn [from_option]. rewrite Zlen_cons. lia. }
  destruct (dispatched_queues _ _ _ _ _ Hd) as [[_ ->]|[_ ->]].
  - rewrite (shift_queue_held _ _ _ _ Hh). lia.
  - pose proof (jsum_nonneg (@Zlen QueuedEntry) (jset sid r (queues (backlog s))) Zlen_nonneg).
    unfold jsum in *. cbn. rewrite Zsum_nil. lia.
Qed.

Lemma move_frames now s s1 : scheduler_wf s -> move now s s1 -> (frames_left s1 <= frames_left s)%Z.
Proof.
  intros Hwf Hm. destruct (closed s) eqn:Ec.
  { pose proof (move_wf _ _ _ Hwf Hm) as Hwf1. unfold frames_left at 1.
    rewrite (sw_closed _ Hwf1 (move_closed _ _ _ Hm Ec)). apply frames_left_nonneg. }
  destruct Hm as [sid h r s2 Hh _ _ Hd|sid Hh|]; [| |done].
  - pose proof (ship_frames _ _ _ _ _ _ Hh Ec Hd). lia.
  - unfold frames_left. cbn. rewrite jsum_del, (Hh Ec). cbn. rewrite Zlen_nil. lia.
Qed.

Lemma moves_frames now s s1 : scheduler_wf s -> rtc (move now) s s1 -> (frames_left s1 <= frames_left s)%Z.
Proof.
  intros Hwf. induction 1 as [|s s2 s1 Hm _ IH]; [lia|].
  pose proof (move_frames _ _ _ Hwf Hm). specialize (IH (move_wf _ _ _ Hwf Hm)). lia.
Qed.

Lemma visit_took s now sid q s1 :
  held s sid q -> closed s = false -> visit emit streamZeroEmit s now sid q = (s1, true) ->
  (frames_left s1 < frames_left s)%Z.
Proof.
  intros Hh Hc. unfold visit. destruct q as [|h r]; [done|]. case_bool_decide; [done|]. cbn zeta.
  case_bool_decide; [done|]. intros [= <-]. eapply ship_frames; [done|done|apply dispatch_spec].
Qed.

(** A visit that takes nothing: the queue was empty (and is dropped), it is
    stream zero's, or its head does not fit the window. *)
Lemma visit_idle s now sid q s1 :
  visit emit streamZeroEmit s now sid q = (s1, false) ->
  closed s1 = closed s /\ ledger s1 = ledger s /\ windowBytes (pacing s1) = windowBytes (pacing s)
  /\ queues (backlog s1) = match q with [] => jdel sid (queues (backlog s)) | _ => queues (backlog s) end
  /\ match q with
     | h :: _ => sid = STREAM_ZERO
                 \/ (windowBytes (pacing s) < outstandingBytes (ledger s) + Zlen (e_bytes h))%Z
     | [] => True
     end.
Proof.
  unfold visit. destruct q as [|h r]; [by intros [= <-]|]. case_bool_decide; [intros [= <-]; auto 10|].
  cbn zeta. case_bool_decide; [|done]. intros [= <-]. cbn. auto 10.
Qed.

Lemma visit_all_took s now snapshot s1 :
  scheduler_wf s -> coherent s snapshot -> closed s = false ->
  visit_all emit streamZeroEmit s now snapshot = (s1, true) -> (frames_left s1 < frames_left s)%Z.
Proof.
  revert s. induction snapshot as [|[sid q] snapshot IH]; intros s Hwf Hco Hc Hv; cbn in Hv; [done|].
  pose proof (coherent_visit s now sid q snapshot Hco) as Hco'.
  pose proof Hco as [_ He Hh]. apply Forall_cons in He as [He _]. apply Forall_cons in Hh as [Hh _]. cbn in *.
  pose proof (visit_move s now sid q Hh He) as Hm. pose proof (moves_frames _ _ _ Hwf Hm) as Hf.
  pose proof (moves_wf _ _ _ Hwf Hm) as Hwf'.
  destruct (visit _ _ s now sid q) as [s2 t2] eqn:Ev. cbn [fst] in *.
  pose proof (visit_all_moves s2 now snapshot Hco') as Hm2. pose proof (moves_frames _ _ _ Hwf' Hm2) as Hf2.
  destruct (visit_all _ _ s2 now snapshot) as [s3 t3] eqn:Ea. cbn [fst] in *. injection Hv as <- Ht.
  destruct t2.
  - pose proof (visit_took _ _ _ _ _ Hh Hc Ev). lia.
  - cbn in Ht. subst t3. pose proof (visit_idle _ _ _ _ _ Ev) as (Hc2 & _). rewrite Hc in Hc2.
    pose proof (IH s2 Hwf' Hco' Hc2 Ea). lia.
Qed.

Lemma round_zero_took s now s1 :
  scheduler_wf s -> closed s = false -> round_zero s now = (s1, true) -> (frames_left s1 < frames_left s)%Z.
Proof.
  intros Hwf Hc. unfold round_zero. destruct (jget _ _) as [[|h r]|] eqn:E; [done| |done].
  intros [= <-]. eapply ship_frames; [by intros ?|done|apply dispatch_spec].
Qed.

Lemma pumpRound_took s now s1 :
  scheduler_wf s -> closed s = false -> pumpRound emit streamZeroEmit s now = (s1, true) ->
  (frames_left s1 < frames_left s)%Z.
Proof.
  intros Hwf Hc. rewrite pumpRound_eq. pose proof (round_zero_moves s now Hwf) as H0.
  destruct (round_zero s now) as [s2 t2] eqn:E0. cbn [fst] in H0.
  pose proof (moves_wf _ _ _ Hwf H0) as Hwf2. pose proof (coherent_self _ Hwf2) as Hco.
  pose proof (moves_frames _ _ _ Hwf2 (visit_all_moves s2 now _ Hco)) as Hf.
  destruct (visit_all _ _ s2 now _) as [s3 t3] eqn:Ea. cbn [fst] in Hf. intros [= <- Ht].
  destruct t2.
  - pose proof (round_zero_took _ _ _ Hwf Hc E0). lia.
  - cbn in Ht. subst t3. pose proof (moves_frames _ _ _ Hwf H0).
    destruct (closed s2) eqn:Ec2; [|by pose proof (visit_all_took _ _ _ _ Hwf2 Hco Ec2 Ea); lia].
    rewrite (sw_closed _ Hwf2 Ec2) in Ea. done.
Qed.

Lemma pumpRound_closed s now :
  scheduler_wf s -> closed s = true -> pumpRound emit streamZeroEmit s now = (s, false).
Proof.
  intros Hwf Hc. pose proof (sw_closed _ Hwf Hc) as E.
  rewrite pumpRound_eq. unfold round_zero. rewrite E. cbn. by rewrite E.
Qed.

(** Enough fuel: the loop stops, in the state an idle round leaves. *)
Lemma pump_rounds_total fuel s now :
  scheduler_wf s -> (frames_left s < Z.of_nat fuel)%Z ->
  exists s1 s2, pump_rounds emit streamZeroEmit fuel s now = Some s1 /\ scheduler_wf s2
    /\ rtc (move now) s s2 /\ pumpRound emit streamZeroEmit s2 now = (s1, false).
Proof.
  revert s. induction fuel as [|fuel IH]; intros s Hwf Hf; [pose proof (frames_left_nonneg s); lia|].
  cbn. pose proof (pumpRound_moves s now Hwf) as Hm.
  destruct (pumpRound _ _ s now) as [s2 t] eqn:E. cbn [fst] in Hm. destruct t.
  - destruct (closed s) eqn:Ec; [by rewrite pumpRound_closed in E|].
    pose proof (pumpRound_took _ _ _ Hwf Ec E).
    destruct (IH s2 (moves_wf _ _ _ Hwf Hm) ltac:(lia)) as (s3 & s4 & H1 & H2 & H3 & H4).
    exists s3, s4. split_and!; [done|done|by etrans|done].
  - exists s2, s. by split_and!.
Qed.

(** *** Where the pump stops *)

(** Every queue left has a head that does not fit the window. *)
Definition blocked (s : Scheduler) (h : QueuedEntry) : Prop :=
  (windowBytes (pacing s) < outstandingBytes (ledger s) + Zlen (e_bytes h))%Z.

Definition quiet (s : Scheduler) : Prop :=
  forall sid q, jget sid (queues (backlog s)) = Some q ->
    sid <> STREAM_ZERO /\ exists h r, q = h :: r /\ blocked s h.

Definition idle_ok (s : Scheduler) (x : Z * list QueuedEntry) : Prop :=
  match x.2 with [] => False | h :: _ => x.1 = STREAM_ZERO \/ blocked s h end.

Lemma visit_all_idle s now snapshot s1 :
  scheduler_wf s -> coherent s snapshot -> closed s = false ->
  visit_all emit streamZeroEmit s now snapshot = (s1, false) ->
  closed s1 = false /\ ledger s1 = ledger s /\ windowBytes (pacing s1) = windowBytes (pacing s)
  /\ forall sid q, jget sid (queues (backlog s1)) = Some q ->
       jget sid (queues (backlog s)) = Some q /\ ((sid, q) ∈ snapshot -> idle_ok s (sid, q)).
Proof.
  revert s. induction snapshot as [|[sid0 q0] snapshot IH]; intros s Hwf Hco Hc Hv; cbn in Hv.
  { injection Hv as <-. split_and!; try done. intros sid q H. split; [done|set_solver]. }
  pose proof (coherent_visit s now sid0 q0 snapshot Hco) as Hco'.
  pose proof Hco as [_ He Hh]. apply Forall_cons in He as [He _]. apply Forall_cons in Hh as [Hh _]. cbn in *.
  pose proof (moves_wf _ _ _ Hwf (visit_move s now sid0 q0 Hh He)) as Hwf2.
  destruct (visit _ _ s now sid0 q0) as [s2 []] eqn:Ev; cbn [fst] in *;
    destruct (visit_all _ _ s2 now snapshot) as [s3 t3] eqn:Ea; [done|].
  injection Hv as <- Ht. cbn in Ht. subst t3.
  destruct (visit_idle _ _ _ _ _ Ev) as (Ec2 & El2 & Ew2 & Eq2 & Hidle). rewrite Hc in Ec2.
  destruct (IH s2 Hwf2 Hco' Ec2 Ea) as (Ec3 & El3 & Ew3 & H3).
  split_and!; [done|congruence|congruence|]. intros sid q Hq. destruct (H3 sid q Hq) as [Hq2 Hid].
  destruct (sw_backlog _ Hwf Hc) as [Hw _ _ _ _].
  assert (jget sid (queues (backlog s)) = Some q) as Hqs.
  { rewrite Eq2 in Hq2. destruct q0; [|done]. destruct (decide (sid = sid0)) as [->|Hne].
    - by rewrite jget_del_eq in Hq2.
    - by rewrite jget_del_ne in Hq2. }
  split; [done|]. intros [Heq|Hin]%elem_of_cons.
  - simplify_eq. destruct q0 as [|h r]; [|done]. by rewrite Eq2, jget_del_eq in Hq2.
  - specialize (Hid Hin). unfold idle_ok, blocked in *. by rewrite El2, Ew2 in Hid.
Qed.

Lemma pumpRound_idle s now s1 :
  scheduler_wf s -> pumpRound emit streamZeroEmit s now = (s1, false) -> closed s1 = false -> quiet s1.
Proof.
  intros Hwf Hp Hc1. destruct (closed s) eqn:Hc.
  { rewrite pumpRound_closed in Hp by done. simplify_eq. congruence. }
  rewrite pumpRound_eq in Hp. destruct (round_zero s now) as [s2 t2] eqn:E0.
  destruct (visit_all _ _ s2 now _) as [s3 t3] eqn:Ea. injection Hp as <- Ht.
  apply orb_false_iff in Ht as [-> ->]. unfold round_zero in E0.
  destruct (jget STREAM_ZERO _) as [[|h r]|] eqn:Ez; [|done|]; injection E0 as <-;
    destruct (visit_all_idle _ _ _ _ Hwf (coherent_self _ Hwf) Hc Ea) as (_ & El & Ew & H);
    intros sid q Hq; destruct (H _ _ Hq) as [Hq' Hid];
    specialize (Hid (jget_Some_elem _ _ _ Hq')); unfold idle_ok in Hid; cbn in Hid;
    (destruct q as [|h r]; [done|]);
    (assert (sid <> STREAM_ZERO) as Hne by (intros ->; congruence));
    (split; [done|]; exists h, r; split; [done|]; unfold blocked in *; rewrite El, Ew; tauto).
Qed.

Lemma pump_total s now :
  scheduler_wf s ->
  exists s1, pump emit streamZeroEmit (pump_fuel s) s now = Some s1
    /\ rtc (move now) (with_pump s false) s1 /\ (closed s1 = false -> quiet s1).
Proof.
  intros Hwf. unfold pump. cbn [closed with_pump].
  assert (scheduler_wf (with_pump s false)) as Hwf0 by by destruct Hwf.
  destruct (closed s) eqn:Hc; [exists (with_pump s false); split_and!; try done; cbn; congruence|].
  destruct (pump_rounds_total (pump_fuel s) (with_pump s false) now Hwf0) as (s1 & s2 & H1 & H2 & H3 & H4).
  { rewrite frames_left_entries. unfold pump_fuel, Zlen, queued_entries. cbn [backlog with_pump]. lia. }
  exists s1. split_and!; [done| |by eapply pumpRound_idle].
  etrans; [done|]. pose proof (pumpRound_moves s2 now H2) as Hm. by rewrite H4 in Hm.
Qed.

(** *** Runs *)

Lemma step_total s op :
  scheduler_wf s -> exists s1, scheduler_step emit streamZeroEmit s op = Some s1 /\ scheduler_wf s1.
Proof.
  intros Hwf. destruct op as [f|now f|now p|sid| |now]; cbn [scheduler_step];
    [eexists; split; [reflexivity|]..|].
  - by apply send_wf.
  - by apply sendNow_wf.
  - by apply onAck_wf.
  - by apply cancelStream_wf.
  - by apply dispose_wf.
  - destruct (pumpScheduled s); [|by exists s].
    destruct (pump_total s now Hwf) as (s1 & H1 & H2 & _). exists s1. split; [done|].
    eapply moves_wf, H2. by destruct Hwf.
Qed.

Lemma create_wf : scheduler_wf createDownstreamScheduler.
Proof.
  split; [split; [done|constructor]| |constructor| |done].
  { unfold pacing_wf. cbn. unfold INITIAL_WINDOW_BYTES, MAX_WINDOW_BYTES. lia. }
  intros _. split; [apply jwf_nil|..]; cbn; rewrite ?Zsum_nil; unfold MAX_QUEUE_BYTES, MAX_QUEUE_FRAMES; done || lia.
Qed.

(** Invariants of runs, proved per operation. *)
Lemma run_ind (P : Scheduler -> Prop) (Q : SchedulerOp -> Prop) :
  (forall s op s1, scheduler_wf s -> P s -> Q op -> scheduler_step emit streamZeroEmit s op = Some s1 -> P s1) ->
  forall ops s, scheduler_wf s -> P s -> Forall Q ops ->
  exists s1, scheduler_run emit streamZeroEmit s ops = Some s1 /\ scheduler_wf s1 /\ P s1.
Proof.
  intros Hstep ops. induction ops as [|op ops IH]; intros s Hwf HP HQ; [by exists s|].
  apply Forall_cons in HQ as [HQ1 HQ2]. destruct (step_total s op Hwf) as (s1 & Hs & Hwf1).
  cbn. rewrite Hs. cbn. apply IH; [done| |done]. exact (Hstep s op s1 Hwf HP HQ1 Hs).
Qed.

(** *** No lost wakeup *)

Definition awake (s : Scheduler) : Prop := closed s = false -> pumpScheduled s = true \/ quiet s.

Lemma schedulePump_awake s : awake (schedulePump s).
Proof.
  unfold schedulePump, awake. destruct (pumpScheduled s) eqn:E, (closed s) eqn:Ec; cbn; auto; congruence.
Qed.

Lemma closed_awake s : closed s = true -> awake s.
Proof. unfold awake. congruence. Qed.

Lemma push_awake s sid now bytes : awake s -> awake (push_outstanding s sid now bytes).
Proof.
  intros Ha Hc. destruct (Ha Hc) as [|Hq]; [by left|right]. intros sid' q Hg.
  destruct (Hq sid' q Hg) as (Hne & h & r & -> & Hb). split; [done|]. exists h, r. split; [done|].
  unfold blocked in *. cbn. pose proof (Zlen_nonneg bytes). lia.
Qed.

Lemma sendNow_awake s now f : awake s -> awake (sendNow emit s now f).1.
Proof.
  intros Ha. unfold sendNow. destruct (closed s) eqn:Hc; [done|]. cbn zeta.
  assert (awake (if negb (bool_decide (streamId f = STREAM_ZERO))
    then push_outstanding s (streamId f) now (encodeTunnelFrame f) else s)) as H1.
  { destruct (negb _); [by apply push_awake|done]. }
  by destruct (emit _ _).
Qed.

Lemma step_awake s op s1 :
  scheduler_wf s -> awake s -> scheduler_step emit streamZeroEmit s op = Some s1 -> awake s1.
Proof.
  intros Hwf Ha Hs. destruct op as [f|now f|now p|sid| |now]; cbn [scheduler_step] in Hs;
    [injection Hs as <-..|].
  - unfold send. destruct (closed s); [done|]. destruct (_ || _); [apply closed_awake, failChannel_closed|].
    apply schedulePump_awake.
  - by apply sendNow_awake.
  - unfold onAck. destruct (read_be 8 p 0); [|apply closed_awake, failChannel_closed]. cbn zeta.
    repeat (destruct (_ || _) || destruct (bool_decide _));
      try apply closed_awake, failChannel_closed.
    destruct (consume_acked _ _ _ _) as [[out ob] [[c t]|e]]; [|apply closed_awake, failChannel_closed].
    destruct (negb _); [apply closed_awake, failChannel_closed|apply schedulePump_awake].
  - unfold cancelStream. destruct (jget sid _) eqn:E; [|done]. intros Hc.
    destruct (Ha Hc) as [|Hq]; [by left|right]. intros sid' q Hg. cbn in Hg.
    apply Hq. destruct (decide (sid' = sid)) as [->|Hne]; [|by rewrite jget_del_ne in Hg].
    destruct (sw_backlog _ Hwf Hc) as [Hw _ _ _ _]. by rewrite jget_del_eq in Hg.
  - by apply closed_awake.
  - destruct (pumpScheduled s); [|by injection Hs as <-].
    destruct (pump_total s now Hwf) as (s2 & H1 & _ & H2). rewrite H1 in Hs. injection Hs as <-.
    intros Hc. right. by apply H2.
Qed.

(** *** Order *)

Definition emitted (sid : Z) (es : list Effect) : list buffer :=
  omap (fun e => match e with
                 | Emitted s b => if decide (s = sid) then Some b else None
                 | _ => None end) es.

Definition queued (sid : Z) (s : Scheduler) : list buffer :=
  e_bytes <$> default [] (jget sid (queues (backlog s))).

Definition in_order (sid : Z) (s : Scheduler) : list buffer := emitted sid (effects s) ++ queued sid s.

Lemma emitted_app sid es fs : emitted sid (es ++ fs) = emitted sid es ++ emitted sid fs.
Proof. apply omap_app. Qed.

Lemma move_in_order now s s1 sid :
  scheduler_wf s -> move now s s1 -> closed s1 = false -> in_order sid s1 = in_order sid s.
Proof.
  intros Hwf Hm Hc. pose proof (move_open _ _ _ Hm Hc) as Ho.
  destruct (sw_backlog _ Hwf Ho) as [Hw _ _ _ _]. unfold in_order, queued.
  destruct Hm as [sid' h r s2 Hh _ _ Hd|sid' Hh|]; [| |done].
  - destruct (dispatched_open _ _ _ _ _ Hd Hc) as (_ & -> & _ & -> & _).
    destruct (shift_queue_same s sid' r) as (_ & _ & _ & -> & _). cbn.
    rewrite (shift_queue_open _ _ _ _ Hh Ho), emitted_app. specialize (Hh Ho).
    destruct (decide (sid = sid')) as [->|Hne].
    + rewrite jget_set_eq, Hh. cbn. rewrite decide_True by done. by rewrite <- app_assoc.
    + rewrite jget_set_ne by done. cbn. rewrite decide_False by congruence. by rewrite app_nil_r.
  - cbn. destruct (decide (sid = sid')) as [->|Hne]; [|by rewrite jget_del_ne].
    by rewrite jget_del_eq, (Hh Ho).
Qed.

Lemma moves_in_order now s s1 sid :
  scheduler_wf s -> rtc (move now) s s1 -> closed s1 = false -> in_order sid s1 = in_order sid s.
Proof.
  intros Hwf Hm Hc. induction Hm as [|s s2 s1 Hm Hms IH]; [done|].
  pose proof (move_wf _ _ _ Hwf Hm) as Hwf2.
  assert (closed s2 = false) as Hc2.
  { clear -Hms Hc. induction Hms as [|s s2 s1 Hm Hms IH]; [done|]. eapply move_open; eauto. }
  rewrite IH by done. by apply (move_in_order now).
Qed.

(** The credit a pump uses. *)
Lemma move_credit now s s1 :
  move now s s1 ->
  windowBytes (pacing s1) = windowBytes (pacing s)
  /\ (outstandingBytes (ledger s1) = outstandingBytes (ledger s)
      \/ outstandingBytes (ledger s1) <= Z.max (outstandingBytes (ledger s)) (windowBytes (pacing s)))%Z.
Proof.
  intros [sid h r s2 Hh _ Hfit Hd|sid Hh|]; [|by auto..].
  destruct (shift_queue_same s sid r) as (_ & El & Ep & _).
  rewrite (dispatched_pacing _ _ _ _ _ Hd), Ep. split; [done|].
  destruct Hfit as [->|Hfit].
  - left. destruct Hd; rewrite ?failChannel_ledger; cbn; rewrite ?El; try done.
  - right. destruct (dispatched_ledger _ _ _ _ _ Hd) as [->| ->]; cbn; rewrite El; lia.
Qed.

(** *** The acknowledgement ledger against what was emitted *)

(** Sizes of the frames handed out on nonzero streams, in order. *)
Definition emitted_sizes (es : list Effect) : list Z :=
  omap (fun e => match e with
                 | Emitted s b => if decide (s = STREAM_ZERO) then None else Some (Zlen b)
                 | _ => None end) es.

Definition ledger_exact (s : Scheduler) : Prop :=
  closed s = false ->
  exists j, ackedBytes (ledger s) = Zsum (take j (emitted_sizes (effects s)))
    /\ o_bytes <$> outstanding (ledger s) = drop j (emitted_sizes (effects s))
    /\ j <= length (emitted_sizes (effects s)).

Lemma ledger_exact_push s s1 sid b tail :
  sid <> STREAM_ZERO ->
  effects s1 = effects s ++ Emitted sid b :: tail -> emitted_sizes tail = [] ->
  ackedBytes (ledger s1) = ackedBytes (ledger s) ->
  o_bytes <$> outstanding (ledger s1) = (o_bytes <$> outstanding (ledger s)) ++ [Zlen b] ->
  closed s = false -> ledger_exact s -> ledger_exact s1.
Proof.
  intros Hne Ee Et Ea Eo Hc Hex _. destruct (Hex Hc) as (j & H1 & H2 & H3).
  assert (emitted_sizes (effects s1) = emitted_sizes (effects s) ++ [Zlen b]) as E.
  { rewrite Ee. unfold emitted_sizes in *. rewrite omap_app. cbn. by rewrite decide_False, Et. }
  exists j. rewrite E, Ea, Eo, H1, H2, take_app_le, drop_app_le by done.
  split_and!; [done|done|]. rewrite length_app. lia.
Qed.

Lemma ledger_exact_same s s1 :
  emitted_sizes (effects s1) = emitted_sizes (effects s) -> ledger s1 = ledger s -> closed s = false ->
  ledger_exact s -> ledger_exact s1.
Proof. intros Ee El Hc Hex _. rewrite Ee, El. by apply Hex. Qed.

Lemma move_ledger_exact now s s1 : move now s s1 -> ledger_exact s -> ledger_exact s1.
Proof.
  intros Hm Hex Hc1. pose proof (move_open _ _ _ Hm Hc1) as Ho. revert Hc1.
  destruct Hm as [sid h r s2 Hh _ _ Hd|sid Hh|]; [| |exact Hex]; [|exact Hex].
  intros Hc1. destruct (dispatched_open _ _ _ _ _ Hd Hc1) as (_ & _ & _ & Ee & El).
  destruct (shift_queue_same s sid r) as (_ & El' & _ & Ee' & _). rewrite Ee' in Ee.
  destruct El as [[El ->]|[El Hne]].
  - eapply ledger_exact_same; [|by rewrite El|exact Ho|exact Hex|exact Hc1].
    rewrite Ee. unfold emitted_sizes. rewrite omap_app. cbn. by rewrite app_nil_r.
  - eapply (ledger_exact_push s s2 sid (e_bytes h)); [done|exact Ee|done|..|exact Ho|exact Hex|exact Hc1];
      rewrite El; cbn; rewrite El'; [done|by rewrite fmap_app].
Qed.

Lemma sendNow_ledger_exact s now f :
  (forall es b, emit es b = true) -> ledger_exact s -> ledger_exact (sendNow emit s now f).1.
Proof.
  intros He Hex. unfold sendNow. destruct (closed s) eqn:Hc; [done|]. cbn zeta. rewrite He. cbn [fst].
  destruct (bool_decide (streamId f = STREAM_ZERO)) eqn:E; bool_facts; cbn [negb].
  - apply (ledger_exact_same s); try done. cbn. unfold emitted_sizes. rewrite omap_app. cbn.
    rewrite decide_True by done. by rewrite app_nil_r.
  - eapply (ledger_exact_push s _ _ (encodeTunnelFrame f) []); try done. cbn. by rewrite fmap_app.
Qed.

Lemma telemetry_same s now t :
  closed (onAckTelemetry s now t) = closed s /\ ledger (onAckTelemetry s now t) = ledger s
  /\ effects (onAckTelemetry s now t) = effects s.
Proof. unfold onAckTelemetry. destruct t; [|done]. cbn zeta. by case_bool_decide. Qed.

Lemma schedulePump_same s :
  closed (schedulePump s) = closed s /\ ledger (schedulePump s) = ledger s
  /\ effects (schedulePump s) = effects s /\ backlog (schedulePump s) = backlog s.
Proof. unfold schedulePump. by destruct (_ || _). Qed.

(** An ack that leaves the channel open removed exactly a prefix of the ledger. *)
Lemma onAck_open s now p :
  closed (onAck s now p) = false ->
  exists gone, outstanding (ledger s) = gone ++ outstanding (ledger (onAck s now p))
    /\ ackedBytes (ledger (onAck s now p)) = (ackedBytes (ledger s) + Zsum (o_bytes <$> gone))%Z
    /\ effects (onAck s now p) = effects s /\ closed s = false
    /\ pumpScheduled (onAck s now p) = true /\ backlog (onAck s now p) = backlog s.
Proof.
  unfold onAck. destruct (read_be 8 p 0) as [count|]; [|by rewrite failChannel_closed]. cbn zeta.
  destruct (_ || _); [by rewrite failChannel_closed|].
  destruct (bool_decide _); [by rewrite failChannel_closed|].
  destruct (consume_acked _ _ _ _) as [[out ob] [[c t]|e]] eqn:E; [|by rewrite failChannel_closed].
  apply consume_acked_prefix in E as (gone & Eo & -> & Ec).
  destruct (bool_decide (c = 0)%Z) eqn:E0; cbn [negb]; [|by rewrite failChannel_closed]. bool_facts.
  set (s1 := with_ledger _ _).
  destruct (schedulePump_same (onAckTelemetry s1 now t)) as (-> & -> & -> & ->).
  destruct (telemetry_same s1 now t) as (Hcl & -> & ->). rewrite Hcl. cbn. intros Hc.
  exists gone. split_and!; try done; [lia| |].
  - unfold schedulePump. rewrite Hcl. change (closed s1) with (closed s). rewrite Hc, orb_false_r.
    destruct (pumpScheduled (onAckTelemetry s1 now t)) eqn:Ep; [exact Ep|done].
  - unfold onAckTelemetry. destruct t; [|done]. cbn zeta. by case_bool_decide.
Qed.

Lemma onAck_ledger_exact s now p : ledger_exact s -> ledger_exact (onAck s now p).
Proof.
  intros Hex Hc. destruct (onAck_open s now p Hc) as (gone & Eo & Ea & -> & Ho & _).
  destruct (Hex Ho) as (j & H1 & H2 & H3). exists (j + length gone).
  assert (drop j (emitted_sizes (effects s))
          = (o_bytes <$> gone) ++ (o_bytes <$> outstanding (ledger (onAck s now p)))) as Ed
    by (rewrite <- H2, Eo; apply fmap_app).
  split_and!.
  - rewrite Ea, H1, <- take_take_drop, Zsum_app, Ed.
    rewrite take_app_length' by (by rewrite length_fmap). done.
  - rewrite <- drop_drop, Ed, drop_app_length' by (by rewrite length_fmap). done.
  - apply (f_equal length) in Ed. rewrite length_drop, length_app, !length_fmap in Ed. lia.
Qed.

Lemma step_ledger_exact s op s1 :
  (forall es b, emit es b = true) -> scheduler_wf s -> ledger_exact s ->
  scheduler_step emit streamZeroEmit s op = Some s1 -> ledger_exact s1.
Proof.
  intros He Hwf Hex Hs. destruct op as [f|now f|now p|sid| |now]; cbn [scheduler_step] in Hs;
    [injection Hs as <-..|].
  - unfold send. destruct (closed s) eqn:Hc; [done|].
    destruct (_ || _); cbn [fst]; [intros Hc1; by rewrite failChannel_closed in Hc1|].
    apply (ledger_exact_same s); try done;
      [by rewrite (proj1 (proj2 (proj2 (schedulePump_same _))))|by rewrite (proj1 (proj2 (schedulePump_same _)))].
  - by apply sendNow_ledger_exact.
  - by apply onAck_ledger_exact.
  - unfold cancelStream. destruct (jget sid _) as [q|]; [|done]. intros Hc. cbn in Hc.
    eapply (ledger_exact_same s); try done. cbn. unfold emitted_sizes. rewrite omap_app.
    replace (omap _ (reject_all StreamCancelled q)) with (@nil Z); [by rewrite app_nil_r|].
    symmetry. clear. by induction q.
  - intros Hc. done.
  - destruct (pumpScheduled s); [|by injection Hs as <-].
    destruct (pump_total s now Hwf) as (s2 & H1 & Hm & _). rewrite H1 in Hs. injection Hs as <-.
    assert (ledger_exact (with_pump s false)) as H0 by exact Hex. clear Hex H1.
    induction Hm as [|? ? ? Hm _ IH]; [done|]. apply IH. by eapply move_ledger_exact.
Qed.

End pump_lemmas.

(** Consuming exactly the bytes of a prefix of a ledger of positive frames. *)
Lemma consume_exact gone rest bytes t :
  Forall (fun o => 0 < o_bytes o)%Z (gone ++ rest) ->
  exists t', consume_acked (gone ++ rest) bytes (Zsum (o_bytes <$> gone)) t
             = (rest, (bytes - Zsum (o_bytes <$> gone))%Z, Ok (0%Z, t')).
Proof.
  revert bytes t. induction gone as [|h gone IH]; intros bytes t Hp.
  - exists t. autorewrite with jsrw. rewrite Z.sub_0_r. by destruct rest.
  - cbn [app] in *. apply Forall_cons in Hp as [Hh Hp]. rewrite fmap_cons, Zsum_cons.
    assert (0 <= Zsum (o_bytes <$> gone))%Z as Hn.
    { apply Zsum_nonneg, Forall_fmap. apply Forall_app in Hp as [Hp _].
      eapply Forall_impl; [exact Hp|]. cbn. lia. }
    cbn [consume_acked]. rewrite bool_decide_true by lia. rewrite bool_decide_false by lia.
    replace (o_bytes h + Zsum (o_bytes <$> gone) - o_bytes h)%Z with (Zsum (o_bytes <$> gone)) by lia.
    destruct (IH (bytes - o_bytes h)%Z (match t with None => Some (o_sentAt h) | Some t => Some t end) Hp)
      as [t' Ht]. exists t'. rewrite Ht. do 2 f_equal. lia.
Qed.

Lemma Zsum_take_mono l i j : Forall (fun x => 0 <= x)%Z l -> i <= j -> (Zsum (take i l) <= Zsum (take j l))%Z.
Proof.
  intros Hl Hij. replace j with (i + (j - i)) by lia. rewrite <- take_take_drop, Zsum_app.
  assert (0 <= Zsum (take (j - i) (drop i l)))%Z; [|lia].
  apply Zsum_nonneg. by apply Forall_take, Forall_drop.
Qed.

Lemma emitted_sizes_nonneg es : Forall (fun x => 0 <= x)%Z (emitted_sizes es).
Proof.
  unfold emitted_sizes. induction es as [|e es IH]; [constructor|]. cbn.
  destruct e as [s b| | |]; [case_decide|..]; try done. constructor; [apply Zlen_nonneg|done].
Qed.

Lemma run_total emit zero ops :
  exists s, scheduler_run emit zero createDownstreamScheduler ops = Some s /\ scheduler_wf s.
Proof.
  destruct (run_ind emit zero (fun _ => True) (fun _ => True) (fun _ _ _ _ _ _ _ => I) ops _ create_wf I)
    as (s & Hr & Hwf & _); [by apply Forall_true|by exists s].
Qed.

Lemma moves_credit now s s1 :
  rtc (move now) s s1 ->
  windowBytes (pacing s1) = windowBytes (pacing s)
  /\ (outstandingBytes (ledger s1) <= Z.max (outstandingBytes (ledger s)) (windowBytes (pacing s)))%Z.
Proof.
  induction 1 as [|s s2 s1 Hm _ [IH1 IH2]]; [split; [done|lia]|].
  apply move_credit in Hm as [Hw Ho]. rewrite Hw in *. split; [done|]. lia.
Qed.

(** ** Properties *)

(** C10. Every run of the scheduler terminates (each pump stops within one round
    per queued frame plus one) and keeps the books: the outstanding byte count
    is the sum over the ledger, the window stays between 64 KiB and 1 MiB, and
    while the channel is open the backlog counters are exact and capped. *)
Theorem scheduler_keeps_books (emit zero : list Effect -> buffer -> bool) (ops : list SchedulerOp) :
  exists s, scheduler_run emit zero createDownstreamScheduler ops = Some s
    /\ outstandingBytes (ledger s) = Zsum (o_bytes <$> outstanding (ledger s))
    /\ (INITIAL_WINDOW_BYTES <= windowBytes (pacing s) <= MAX_WINDOW_BYTES)%Z
    /\ (closed s = true -> queues (backlog s) = [])
    /\ (closed s = false -> queuedFrames (backlog s) = Zlen (queued_entries s)
         /\ queuedBytes (backlog s) = Zsum ((fun e => Zlen (e_bytes e)) <$> queued_entries s)
         /\ (queuedFrames (backlog s) <= MAX_QUEUE_FRAMES)%Z
         /\ (queuedBytes (backlog s) <= MAX_QUEUE_BYTES)%Z).
Proof.
  destruct (run_total emit zero ops) as (s & Hr & Hwf).
  exists s. pose proof Hwf as [[Hl _] Hp _ Hb Hcl]. split_and!; try done; try apply Hp.
  intros Hc. destruct (Hb Hc) as [_ Hbb Hbf Hcb Hcf].
  split_and!; [by rewrite Hbf, <- frames_left_entries| |done|done].
  rewrite Hbb. unfold jsum, queued_entries, jvals. clear. induction (queues (backlog s)) as [|[k q] m IH]; [done|].
  cbn [concat fmap list_fmap snd]. rewrite Zsum_cons, fmap_app, Zsum_app. cbn in IH. by rewrite IH.
Qed.

(** Credit: a pump never takes the sent-but-unacknowledged bytes above the
    window (or above where an earlier, larger window or a terminal row had
    already put them), and it does not move the window. *)
Theorem pump_respects_credit (emit zero : list Effect -> buffer -> bool) (ops : list SchedulerOp) (now : Z)
    (s : Scheduler) :
  scheduler_run emit zero createDownstreamScheduler ops = Some s ->
  exists s1, pump emit zero (pump_fuel s) s now = Some s1
    /\ windowBytes (pacing s1) = windowBytes (pacing s)
    /\ (outstandingBytes (ledger s1) <= Z.max (outstandingBytes (ledger s)) (windowBytes (pacing s)))%Z.
Proof.
  intros Hr. destruct (run_total emit zero ops) as (s' & Hr' & Hwf).
  rewrite Hr in Hr'. injection Hr' as <-. destruct (pump_total emit zero s now Hwf) as (s1 & H1 & Hm & _).
  exists s1. split; [done|]. exact (moves_credit _ _ _ Hm).
Qed.

Definition demo_frame (sid : Z) (n : nat) : TunnelFrame := mkFrame 2 sid false (replicate n x61).

Lemma pump_respects_credit_witness :
  exists s, scheduler_run (fun _ _ => true) (fun _ _ => true) createDownstreamScheduler
              [OpSend (demo_frame 1 3); OpSend (demo_frame 3 4)] = Some s
    /\ exists s1, pump (fun _ _ => true) (fun _ _ => true) (pump_fuel s) s 5 = Some s1
    /\ windowBytes (pacing s1) = windowBytes (pacing s)
    /\ (outstandingBytes (ledger s1) <= Z.max (outstandingBytes (ledger s)) (windowBytes (pacing s)))%Z.
Proof.
  eexists. split; [reflexivity|].
  exact (pump_respects_credit _ _ [OpSend (demo_frame 1 3); OpSend (demo_frame 3 4)] 5 _ eq_refl).
Defined.

(** The frames sent on stream [sid] by a run. *)
Definition sent_on (sid : Z) (ops : list SchedulerOp) : list buffer :=
  omap (fun op => match op with
                  | OpSend f => if decide (streamId f = sid) then Some (encodeTunnelFrame f) else None
                  | _ => None end) ops.

(** Operations that leave the order of stream [sid] to the queue. *)
Definition orderly (sid : Z) (op : SchedulerOp) : bool :=
  match op with
  | OpSend _ | OpAck _ _ | OpPump _ => true
  | OpSendNow _ f => negb (bool_decide (streamId f = sid))
  | OpCancel t => negb (bool_decide (t = sid))
  | OpDispose => false
  end.

Lemma step_in_order emit zero sid s op s1 :
  scheduler_wf s -> orderly sid op = true -> scheduler_step emit zero s op = Some s1 ->
  closed s1 = false -> closed s = false /\ in_order sid s1 = in_order sid s ++ sent_on sid [op].
Proof.
  intros Hwf Ho Hs Hc1. destruct op as [f|now f|now p|t| |now]; cbn [scheduler_step orderly] in *;
    [injection Hs as <-..|]; cbn [sent_on omap list_omap]; rewrite ?app_nil_r.
  - unfold send in *. destruct (closed s) eqn:Hc; [cbn in Hc1; congruence|].
    destruct (_ || _); cbn [fst] in *; [by rewrite failChannel_closed in Hc1|]. split; [done|].
    unfold in_order, queued.
    destruct (schedulePump_same (with_promise (with_backlog s (mkBacklog
      (jset (streamId f) (default [] (jget (streamId f) (queues (backlog s))) ++
         [mkEntry (encodeTunnelFrame f) (nextPromise s)]) (queues (backlog s)))
      (queuedBytes (backlog s) + Zlen (encodeTunnelFrame f)) (queuedFrames (backlog s) + 1))) (S (nextPromise s))))
      as (_ & _ & -> & ->). cbn.
    rewrite <- app_assoc. f_equal. case_decide as Hd.
    + rewrite <- Hd, jget_set_eq. cbn. by rewrite fmap_app.
    + rewrite jget_set_ne by done. by rewrite app_nil_r.
  - unfold sendNow in *. destruct (closed s) eqn:Hc; [cbn in Hc1; congruence|]. split; [done|].
    bool_facts. cbn zeta. unfold in_order, queued, emitted.
    destruct (negb _), (emit _ _); cbn; rewrite ?omap_app; cbn;
      rewrite ?decide_False by done; by rewrite ?app_nil_r.
  - destruct (onAck_open s now p Hc1) as (_ & _ & _ & Ee & Hc & _ & Eb). split; [done|].
    unfold in_order, queued. by rewrite Ee, Eb.
  - unfold cancelStream in *. destruct (jget t _) as [q|]; [|done]. cbn in Hc1. split; [done|].
    bool_facts. unfold in_order, queued, emitted. cbn. rewrite omap_app, jget_del_ne by done.
    replace (omap _ (reject_all StreamCancelled q)) with (@nil buffer); [by rewrite app_nil_r|]. symmetry.
    clear. by induction q.
  - done.
  - destruct (pumpScheduled s); [|by injection Hs as <-].
    destruct (pump_total emit zero s now Hwf) as (s2 & H1 & Hm & _). rewrite H1 in Hs. injection Hs as <-.
    rewrite (moves_in_order now (with_pump s false) s2 sid); [|by destruct Hwf|done|done].
    split; [|done]. clear -Hm Hc1. change (closed s) with (closed (with_pump s false)).
    induction Hm as [|? ? ? Hm Hms IH]; [done|]. eapply move_open; eauto.
Qed.

Lemma run_in_order emit zero sid ops s s1 :
  scheduler_wf s -> Forall (fun op => orderly sid op = true) ops -> scheduler_run emit zero s ops = Some s1 ->
  closed s1 = false -> closed s = false /\ in_order sid s1 = in_order sid s ++ sent_on sid ops.
Proof.
  revert s. induction ops as [|op ops IH]; intros s Hwf Ho Hr Hc1; cbn [scheduler_run] in Hr.
  { injection Hr as <-. by rewrite app_nil_r. }
  apply Forall_cons in Ho as [Ho1 Ho]. destruct (step_total emit zero s op Hwf) as (s2 & Hs & Hwf2).
  rewrite Hs in Hr. cbn in Hr. destruct (IH s2 Hwf2 Ho Hr Hc1) as [Hc2 Hi].
  destruct (step_in_order _ _ _ _ _ _ Hwf Ho1 Hs Hc2) as [Hc Hi2]. split; [done|].
  rewrite Hi, Hi2, <- app_assoc. f_equal. unfold sent_on. by rewrite <- omap_app.
Qed.

(** Per-stream order: as long as the channel is up and the stream was neither
    cancelled nor used for a terminal row, the frames emitted on it, followed by
    those still queued, are exactly the frames sent on it, in order. *)
Theorem streams_are_fifo (emit zero : list Effect -> buffer -> bool) (sid : Z) (ops : list SchedulerOp)
    (s : Scheduler) :
  Forall (fun op => orderly sid op = true) ops ->
  scheduler_run emit zero createDownstreamScheduler ops = Some s -> closed s = false ->
  emitted sid (effects s) ++ queued sid s = sent_on sid ops.
Proof.
  intros Ho Hr Hc. destruct (run_in_order _ _ _ _ _ _ create_wf Ho Hr Hc) as [_ Hi]. exact Hi.
Qed.

Definition demo_ops : list SchedulerOp :=
  [OpSend (demo_frame 1 3); OpSend (demo_frame 3 4); OpSend (demo_frame 1 5); OpPump 10;
   OpAck 12 (be_bytes 8 8); OpSend (demo_frame 1 2); OpCancel 3].

Lemma streams_are_fifo_witness :
  exists s, scheduler_run (fun _ _ => true) (fun _ _ => true) createDownstreamScheduler demo_ops = Some s
    /\ emitted 1 (effects s) ++ queued 1 s
       = encodeTunnelFrame <$> [demo_frame 1 3; demo_frame 1 5; demo_frame 1 2].
Proof.
  eexists. split; [vm_compute; reflexivity|].
  rewrite (streams_are_fifo (fun _ _ => true) (fun _ _ => true) 1 demo_ops);
    [vm_compute; reflexivity|by repeat constructor|vm_compute; reflexivity|vm_compute; reflexivity].
Defined.

(** C26. No lost wakeup: in every reachable state of an open channel with no pump
    scheduled, a queued frame at the front of its stream does not fit the
    window; if it is no longer than the smallest window, some frame is still
    outstanding, so an acknowledgement (which schedules a pump) is due. *)
Theorem no_lost_wakeup (emit zero : list Effect -> buffer -> bool) (ops : list SchedulerOp) (s : Scheduler)
    (sid : Z) (h : QueuedEntry) (r : list QueuedEntry) :
  scheduler_run emit zero createDownstreamScheduler ops = Some s ->
  closed s = false -> pumpScheduled s = false -> jget sid (queues (backlog s)) = Some (h :: r) ->
  (windowBytes (pacing s) < outstandingBytes (ledger s) + Zlen (e_bytes h))%Z
  /\ ((Zlen (e_bytes h) <= INITIAL_WINDOW_BYTES)%Z -> outstanding (ledger s) <> []).
Proof.
  intros Hr Hc Hp Hg.
  destruct (run_ind emit zero awake (fun _ => True)
    (fun s op s1 Hwf Ha _ Hs => step_awake _ _ s op s1 Hwf Ha Hs) ops _ create_wf) as (s' & Hr' & Hwf & Ha).
  { intros _. right. intros sid' q Hq. done. }
  { by apply Forall_true. }
  rewrite Hr in Hr'. injection Hr' as <-. destruct (Ha Hc) as [|Hq]; [congruence|].
  destruct (Hq sid _ Hg) as (_ & h' & r' & [= <- <-] & Hb). split; [exact Hb|].
  intros Hlen Ho. unfold blocked in Hb. pose proof (lg_bytes _ (sw_ledger _ Hwf)) as Hl.
  pose proof (sw_pacing _ Hwf) as [Hw _]. rewrite Ho in Hl. rewrite Hl in Hb.
  autorewrite with jsrw in Hb. lia.
Qed.

(** A frame of 30,000 bytes; three of them exceed the initial window. *)
Definition big_frame (sid : Z) : TunnelFrame := demo_frame sid (Z.to_nat 30000).

Definition stalled_ops : list SchedulerOp :=
  [OpSend (big_frame 1); OpSend (big_frame 1); OpSend (big_frame 1); OpPump 10].

Definition stalled (o : option Scheduler) : bool :=
  match o with
  | Some s => negb (closed s) && negb (pumpScheduled s)
              && match jget 1%Z (queues (backlog s)) with Some (_ :: _) => true | _ => false end
  | None => false
  end.

Lemma no_lost_wakeup_witness :
  exists s h r, scheduler_run (fun _ _ => true) (fun _ _ => true) createDownstreamScheduler stalled_ops = Some s
    /\ jget 1%Z (queues (backlog s)) = Some (h :: r)
    /\ (windowBytes (pacing s) < outstandingBytes (ledger s) + Zlen (e_bytes h))%Z.
Proof.
  assert (stalled (scheduler_run (fun _ _ => true) (fun _ _ => true) createDownstreamScheduler stalled_ops) = true)
    as H by (vm_compute; reflexivity).
  destruct (scheduler_run _ _ createDownstreamScheduler stalled_ops) as [s|] eqn:Hr; [|discriminate].
  unfold stalled in H. apply andb_true_iff in H as [H Hg]. apply andb_true_iff in H as [Hc Hp].
  destruct (jget 1%Z (queues (backlog s))) as [[|h r]|] eqn:E; [discriminate| |discriminate].
  exists s, h, r. split; [reflexivity|]. split; [exact E|].
  apply (no_lost_wakeup (fun _ _ => true) (fun _ _ => true) stalled_ops s 1 h r Hr);
    [by apply negb_true_iff|by apply negb_true_iff|exact E].
Defined.

(** Honest acknowledgements are lawful: after any run whose emits did not
    throw, acknowledging the cumulative bytes of the first [k] frames emitted on
    nonzero streams, beyond what was acknowledged before, keeps the channel
    open, settles the ledger at exactly that point and schedules a pump. *)
Theorem honest_ack_is_lawful (emit zero : list Effect -> buffer -> bool) (ops : list SchedulerOp)
    (s : Scheduler) (k : nat) (now : Z) :
  (forall es b, emit es b = true) ->
  scheduler_run emit zero createDownstreamScheduler ops = Some s -> closed s = false ->
  let count := Zsum (take k (emitted_sizes (effects s))) in
  (ackedBytes (ledger s) < count <= MAX_SAFE_INTEGER)%Z ->
  let s1 := onAck s now (be_bytes 8 count) in
  closed s1 = false /\ ackedBytes (ledger s1) = count
  /\ o_bytes <$> outstanding (ledger s1) = drop k (emitted_sizes (effects s))
  /\ pumpScheduled s1 = true.
Proof.
  intros He Hr Hc count Hcount s1.
  destruct (run_ind emit zero ledger_exact (fun _ => True)
    (fun s op s1 Hwf Ha _ Hs => step_ledger_exact _ _ s op s1 He Hwf Ha Hs) ops _ create_wf)
    as (s' & Hr' & Hwf & Hex); [by exists 0|by apply Forall_true|].
  rewrite Hr in Hr'. injection Hr' as <-. destruct (Hex Hc) as (j & Hj1 & Hj2 & Hj3).
  set (sizes := emitted_sizes (effects s)) in *.
  assert (j < k) as Hjk.
  { destruct (decide (j < k)) as [|Hn]; [done|]. exfalso.
    pose proof (Zsum_take_mono sizes k j (emitted_sizes_nonneg _) ltac:(lia)). unfold count in Hcount. lia. }
  assert (count = Zsum (take j sizes) + Zsum (take (k - j) (drop j sizes)))%Z as Ecount.
  { unfold count. replace k with (j + (k - j)) at 1 by lia. by rewrite <- take_take_drop, Zsum_app. }
  rewrite <- Hj2, <- fmap_take in Ecount.
  set (out := outstanding (ledger s)) in *.
  destruct (consume_exact (take (k - j) out) (drop (k - j) out) (outstandingBytes (ledger s)) None)
    as [t Ht]; [rewrite take_drop; by destruct Hwf as [[_ ?] _ _ _ _]|].
  rewrite take_drop in Ht.
  assert (Zsum (o_bytes <$> take (k - j) out) <= outstandingBytes (ledger s))%Z as Hle.
  { rewrite (lg_bytes _ (sw_ledger _ Hwf)). fold out. rewrite <- (take_drop (k - j) out) at 2.
    rewrite fmap_app, Zsum_app. assert (0 <= Zsum (o_bytes <$> drop (k - j) out))%Z; [|lia].
    apply Zsum_nonneg, Forall_fmap, Forall_drop.
    eapply Forall_impl; [exact (lg_pos _ (sw_ledger _ Hwf))|]. cbn. lia. }
  assert (onAck s now (be_bytes 8 count) = schedulePump (onAckTelemetry
    (with_ledger s (mkLedger (drop (k - j) out)
       (outstandingBytes (ledger s) - Zsum (o_bytes <$> take (k - j) out)) count)) now t)) as E.
  { unfold onAck. pose proof (read_be_app [] 8 count []) as Hrd. rewrite app_nil_r in Hrd. cbn [app length] in Hrd.
    assert (0 <= Zsum (take j sizes))%Z by (apply Zsum_nonneg, Forall_take, emitted_sizes_nonneg).
    unfold MAX_SAFE_INTEGER in *. rewrite Z.mod_small in Hrd by (simpl; lia). rewrite Hrd. cbn zeta.
    unfold is_safe_integer, MAX_SAFE_INTEGER. rewrite !bool_decide_true by lia.
    rewrite !bool_decide_false by lia. cbn [andb negb orb]. fold out.
    replace (count - ackedBytes (ledger s))%Z with (Zsum (o_bytes <$> take (k - j) out)) by lia.
    rewrite Ht. cbn. done. }
  unfold s1. rewrite E. set (s2 := with_ledger _ _).
  destruct (schedulePump_same (onAckTelemetry s2 now t)) as (Hc1 & Hl1 & _).
  destruct (telemetry_same s2 now t) as (Hc2 & Hl2 & _). rewrite Hl1, Hl2, Hc1, Hc2.
  split_and!; [done|done| |].
  - cbn. rewrite fmap_drop, Hj2, drop_drop. f_equal. lia.
  - unfold schedulePump. rewrite Hc2. change (closed s2) with (closed s). rewrite Hc, orb_false_r.
    destruct (pumpScheduled (onAckTelemetry s2 now t)) eqn:Ep; [exact Ep|done].
Qed.

Lemma honest_ack_is_lawful_witness :
  exists s, scheduler_run (fun _ _ => true) (fun _ _ => true) createDownstreamScheduler
              [OpSend (demo_frame 1 3); OpSend (demo_frame 3 4); OpPump 10] = Some s
    /\ Zsum (take 1 (emitted_sizes (effects s))) = 8%Z
    /\ closed (onAck s 20 (be_bytes 8 (Zsum (take 1 (emitted_sizes (effects s)))))) = false.
Proof.
  eexists. split; [vm_compute; reflexivity|]. split; [vm_compute; reflexivity|].
  match goal with
  | |- closed (onAck ?s _ _) = _ =>
    refine (proj1 (honest_ack_is_lawful (fun _ _ => true) (fun _ _ => true)
      [OpSend (demo_frame 1 3); OpSend (demo_frame 3 4); OpPump 10] s 1 20 (fun _ _ => eq_refl) _ _ _))
  end; [vm_compute; reflexivity|reflexivity|vm_compute; split; [reflexivity|discriminate]].
Defined.
