(* ===== verification/RelayBody.v ===== *)
(** The body of a tunneled request (lib/relay/request-body.ts): buffered chunks,
    then a live stream once the buffer cap is crossed.

    Whether the stream's controller accepts a chunk is an argument; [start] runs
    when the stream is constructed, as the Streams standard has it. *)

From S2P Require Import Prelude Bytes RelayCrypto RelayCodec.

Definition RESPONSE_BODY_CHUNK_BYTES : Z := MAX_TUNNEL_PAYLOAD_BYTES.

Record TunnelRequestBody : Type := mkBody {
  chunks : list buffer;
  bytes : Z;
  crossed : bool;
  framesReceived : Z;
  deadlineTimer : bool;
  controller : bool;
  arrived : list buffer;
  body_closed : bool;
}.

Definition newBody : TunnelRequestBody := mkBody [] 0 false 0 false false [] false.

Inductive BodyEffect : Type :=
| BEnqueue (chunk : buffer)
| BClose
| BError (reason : string).

Definition bufferedBody (b : TunnelRequestBody) : buffer := concat (chunks b).

(** The pieces [chunkPayload] cuts; its argument is always legal. *)
Definition prefix_pieces (pre : buffer) : list buffer :=
  match pre with
  | [] => [[]]
  | _ => match chunkPayload pre RESPONSE_BODY_CHUNK_BYTES with Ok ps => ps | Throw _ => [] end
  end.

Definition requestStream (b : TunnelRequestBody) (pre : buffer) : TunnelRequestBody * list BodyEffect :=
  (mkBody (chunks b) (bytes b) (crossed b) (framesReceived b) (deadlineTimer b)
     (negb (body_closed b)) [] (body_closed b),
   (BEnqueue <$> prefix_pieces pre) ++ (BEnqueue <$> arrived b)).

Definition push (b : TunnelRequestBody) (enqueueOk : bool) (chunk : buffer) : TunnelRequestBody * list BodyEffect :=
  if body_closed b then (b, [])
  else if negb (controller b) then
    (mkBody (chunks b) (bytes b) (crossed b) (framesReceived b) (deadlineTimer b) false
       (arrived b ++ [chunk]) false, [])
  else if enqueueOk then (b, [BEnqueue chunk])
  else (mkBody (chunks b) (bytes b) (crossed b) (framesReceived b) (deadlineTimer b) true (arrived b) true, []).

Definition close (b : TunnelRequestBody) : TunnelRequestBody * list BodyEffect :=
  (mkBody (chunks b) (bytes b) (crossed b) (framesReceived b) (deadlineTimer b) false (arrived b) true,
   if controller b then [BClose] else []).

Definition fail (b : TunnelRequestBody) (reason : string) : TunnelRequestBody * list BodyEffect :=
  if controller b then
    (mkBody (chunks b) (bytes b) (crossed b) (framesReceived b) (deadlineTimer b) false [] true,
     [BError reason])
  else (mkBody (chunks b) (bytes b) (crossed b) (framesReceived b) (deadlineTimer b) false [] (body_closed b), []).

Definition clearDeadline (b : TunnelRequestBody) : TunnelRequestBody :=
  mkBody (chunks b) (bytes b) (crossed b) (framesReceived b) false (controller b) (arrived b) (body_closed b).

Definition armDeadline (b : TunnelRequestBody) : TunnelRequestBody :=
  mkBody (chunks b) (bytes b) (crossed b) (framesReceived b) true (controller b) (arrived b) (body_closed b).

(** [framesReceived += 1] *)
Definition countFrame (b : TunnelRequestBody) : TunnelRequestBody :=
  mkBody (chunks b) (bytes b) (crossed b) (framesReceived b + 1) (deadlineTimer b) (controller b)
    (arrived b) (body_closed b).

(** [chunks.push(payload); bytes += payload.length] *)
Definition bufferChunk (b : TunnelRequestBody) (payload : buffer) : TunnelRequestBody :=
  mkBody (chunks b ++ [payload]) (bytes b + Zlen payload) (crossed b) (framesReceived b)
    (deadlineTimer b) (controller b) (arrived b) (body_closed b).

(** The buffered prefix leaves the object when it goes live. *)
Definition crossOver (b : TunnelRequestBody) : TunnelRequestBody :=
  mkBody [] 0 true (framesReceived b) (deadlineTimer b) (controller b) (arrived b) (body_closed b).

(** The bytes a list of effects puts on the wire. *)
Definition enqueued (es : list BodyEffect) : buffer :=
  concat (omap (fun e => match e with BEnqueue c => Some c | _ => None end) es).

Lemma enqueued_app es fs : enqueued (es ++ fs) = enqueued es ++ enqueued fs.
Proof. unfold enqueued. by rewrite omap_app, concat_app. Qed.

Lemma enqueued_fmap cs : enqueued (BEnqueue <$> cs) = concat cs.
Proof. unfold enqueued. f_equal. induction cs as [|c cs IH]; [done|]. cbn. by rewrite IH. Qed.

Lemma prefix_pieces_concat pre : concat (prefix_pieces pre) = pre.
Proof.
  unfold prefix_pieces. destruct pre as [|b pre]; [done|].
  destruct (chunkPayload (b :: pre) RESPONSE_BODY_CHUNK_BYTES) as [ps|] eqn:E.
  - by apply chunkPayload_Ok in E as (_ & -> & _).
  - exfalso. unfold chunkPayload in E. cbn in E. done.
Qed.

(** Late chunks, each accepted by the stream's controller. *)
Fixpoint push_all (b : TunnelRequestBody) (cs : list buffer) : TunnelRequestBody * list BodyEffect :=
  match cs with
  | [] => (b, [])
  | c :: cs' => let '(b1, es) := push b true c in
                let '(b2, fs) := push_all b1 cs' in (b2, es ++ fs)
  end.

Lemma push_all_live b cs :
  body_closed b = false -> controller b = true -> push_all b cs = (b, BEnqueue <$> cs).
Proof.
  intros Hc Hl. induction cs as [|c cs IH]; [done|]. cbn [push_all]. unfold push. rewrite Hc, Hl. cbn.
  by rewrite IH.
Qed.

Lemma push_all_closed b cs : body_closed b = true -> push_all b cs = (b, []).
Proof. intros Hc. induction cs as [|c cs IH]; [done|]. cbn [push_all]. unfold push. rewrite Hc. by rewrite IH. Qed.

(** Crossing from the buffered to the live body loses and reorders nothing: the
    loopback request receives the buffered chunks, in order, then every chunk that
    arrives later, byte for byte, then the end of the body; what arrives after the
    end is dropped. *)
Theorem live_body_is_the_clients_bytes (b : TunnelRequestBody) (late stray : list buffer) :
  body_closed b = false -> arrived b = [] ->
  let '(b1, es) := requestStream (crossOver b) (bufferedBody b) in
  let '(b2, fs) := push_all b1 late in
  let '(b3, gs) := close b2 in
  let '(b4, hs) := push_all b3 stray in
  enqueued (es ++ fs) = concat (chunks b) ++ concat late /\ gs = [BClose] /\ hs = [] /\ chunks b1 = [].
Proof.
  intros Hc Ha. destruct (requestStream _ _) as [b1 es] eqn:E. unfold requestStream in E. injection E as <- <-.
  cbn [crossOver arrived body_closed]. rewrite Hc, Ha. rewrite push_all_live by done. cbn [close controller].
  rewrite push_all_closed by done. split_and!; try done. rewrite app_nil_r, enqueued_app, !enqueued_fmap.
  by rewrite prefix_pieces_concat.
Qed.

Lemma live_body_is_the_clients_bytes_witness :
  let b := bufferChunk (bufferChunk newBody [x01; x02]) [x03] in
  let '(b1, es) := requestStream (crossOver b) (bufferedBody b) in
  let '(b2, fs) := push_all b1 [[x04]; [x05]] in
  enqueued (es ++ fs) = [x01; x02; x03; x04; x05].
Proof.
  intros b. pose proof (live_body_is_the_clients_bytes b [[x04]; [x05]] [[x06]] eq_refl eq_refl) as H.
  destruct (requestStream _ _) as [b1 es]. destruct (push_all b1 _) as [b2 fs]. destruct (close b2) as [b3 gs].
  destruct (push_all b3 _) as [b4 hs]. destruct H as [H _]. exact H.
Defined.
