(* ===== verification/JsValue.v ===== *)
(** JavaScript values as JSON.parse yields them, and the tests the guards use.

    The text layer is left out: a JSON text is represented by what JSON.parse
    makes of it ([None] when it throws), and JSON.stringify by the value it
    prints. *)

From S2P Require Import Prelude JsMap.
From Stdlib Require Import QArith Qcanon.

(** Numbers: JSON.parse yields finite ones and (for overlong exponents) the
    infinities. *)
Inductive jsnum : Type :=
| NFin (q : Qc)
| NInf (negative : bool).

#[warnings="-register-all"]
Inductive json : Type :=
| JNull
| JBool (b : bool)
| JNum (n : jsnum)
| JStr (s : string)
| JArr (elems : list json)
| JObj (fields : list (string * json)).

Definition JInt (z : Z) : json := JNum (NFin (Q2Qc (inject_Z z))).

(** The integer a number is, if it is one ([Number.isInteger]). *)
Definition num_int (n : jsnum) : option Z :=
  match n with
  | NFin q => if decide (Qden q = 1%positive) then Some (Qnum q) else None
  | NInf _ => None
  end.

(** [value.key] on an object; [None] is [undefined]. *)
Definition jfield (key : string) (v : json) : option json :=
  match v with JObj fields => jget key fields | _ => None end.

(** [typeof v === 'string'] and the like, on a possibly undefined value. *)
Definition is_string (v : option json) : bool :=
  match v with Some (JStr _) => true | _ => false end.

Definition is_bool (v : option json) : bool :=
  match v with Some (JBool _) => true | _ => false end.

Definition is_undefined (v : option json) : bool :=
  match v with None => true | _ => false end.

(** [v === true] *)
Definition is_true (v : option json) : bool :=
  match v with Some (JBool b) => b | _ => false end.

(** [v === z] for an integer literal. *)
Definition is_int (v : option json) (z : Z) : bool :=
  match v with Some (JNum n) => bool_decide (num_int n = Some z) | _ => false end.

(** [v === s] for a string literal. *)
Definition is_str (v : option json) (s : string) : bool :=
  match v with Some (JStr t) => bool_decide (t = s) | _ => false end.

(** [typeof v === 'number' && Number.isSafeInteger(v)], with the integer. *)
Definition safe_int (v : option json) : option Z :=
  match v with
  | Some (JNum n) =>
    match num_int n with
    | Some z => if is_safe_integer z then Some z else None
    | None => None
    end
  | _ => None
  end.

(** [v ?? {}] *)
Definition or_empty (v : option json) : json :=
  match v with None | Some JNull => JObj [] | Some w => w end.

Lemma num_int_JInt z : num_int (NFin (Q2Qc (inject_Z z))) = Some z.
Proof.
  unfold num_int. cbn. unfold Qred, inject_Z. cbn.
  pose proof (Z.ggcd_gcd z 1) as Hg. pose proof (Z.ggcd_correct_divisors z 1) as Hd.
  destruct (Z.ggcd z 1) as [g [a b]]. cbn in *. rewrite Z.gcd_1_r in Hg. subst g.
  destruct Hd as [-> Hb]. assert (b = 1)%Z as -> by lia. rewrite decide_True by done. f_equal. cbn. lia.
Qed.

Lemma is_int_JInt z z' : is_int (Some (JInt z)) z' = bool_decide (z = z').
Proof. unfold is_int, JInt. rewrite num_int_JInt. apply bool_decide_ext. naive_solver. Qed.

Lemma is_int_refl z : is_int (Some (JInt z)) z = true.
Proof. rewrite is_int_JInt. by apply bool_decide_true. Qed.

Lemma JInt_inj (a b : Z) : JInt a = JInt b -> a = b.
Proof.
  intros H. assert (is_int (Some (JInt a)) b = true) as E by (rewrite H; apply is_int_refl).
  rewrite is_int_JInt in E. by apply bool_decide_eq_true_1 in E.
Qed.

Lemma safe_int_JInt z : is_safe_integer z = true -> safe_int (Some (JInt z)) = Some z.
Proof. intros H. unfold safe_int, JInt. by rewrite num_int_JInt, H. Qed.

(** Reads the members of object literals with closed keys. *)
Ltac jfields :=
  cbn [jfield jget app mbind option_bind fmap list_fmap fst snd];
  repeat (match goal with
  | |- context [decide (?a = ?b :> string)] =>
    first [rewrite (decide_True (P := a = b)) by reflexivity
          |rewrite (decide_False (P := a = b)) by discriminate]
  end; cbn [is_str is_string is_bool is_undefined is_true negb andb orb]).

#[export] Hint Rewrite is_int_JInt : jsrw.
#[global] Arguments JInt : simpl never.

(** ** Decidable equality *)

Fixpoint json_eqb (a b : json) : bool :=
    match a, b with
    | JNull, JNull => true
    | JBool x, JBool y => Bool.eqb x y
    | JNum m, JNum n =>
      match m, n with
      | NFin p, NFin q => bool_decide (p = q)
      | NInf x, NInf y => Bool.eqb x y
      | _, _ => false
      end
    | JStr s, JStr t => String.eqb s t
    | JArr l, JArr k =>
      (fix go l k := match l, k with
                     | [], [] => true
                     | x :: l, y :: k => json_eqb x y && go l k
                     | _, _ => false
                     end) l k
    | JObj l, JObj k =>
      (fix go l k := match l, k with
                     | [], [] => true
                     | (s, x) :: l, (t, y) :: k => String.eqb s t && json_eqb x y && go l k
                     | _, _ => false
                     end) l k
    | _, _ => false
    end.

Fixpoint json_eqb_refl (a : json) : json_eqb a a = true.
  Proof.
    destruct a as [|b|n|s|l|l]; cbn; [done|by destruct b| |by apply String.eqb_refl| |].
    - destruct n as [q|[]]; [by apply bool_decide_true|done..].
    - induction l as [|x l IH]; [done|]. by rewrite (json_eqb_refl x), IH.
    - induction l as [|[s x] l IH]; [done|]. by rewrite String.eqb_refl, (json_eqb_refl x), IH.
  Qed.

Fixpoint json_eqb_true (a b : json) {struct a} : json_eqb a b = true -> a = b.
  Proof.
    destruct a as [|x|n|s|l|l], b as [|y|m|t|k|k]; cbn; intros H; try done.
    - f_equal. by apply Bool.eqb_prop.
    - destruct n as [q|x], m as [q'|y]; try done.
      + apply bool_decide_eq_true_1 in H. by subst.
      + do 2 f_equal. by apply Bool.eqb_prop.
    - f_equal. by apply String.eqb_eq.
    - f_equal. revert k H. induction l as [|x l IH]; intros [|y k] H; try done.
      apply andb_true_iff in H as [H1 H2]. f_equal; [by apply json_eqb_true|by apply IH].
    - f_equal. revert k H. induction l as [|[s x] l IH]; intros [|[t y] k] H; try done.
      apply andb_true_iff in H as [H1 H2]. apply andb_true_iff in H1 as [H0 H1].
      f_equal; [f_equal; [by apply String.eqb_eq|by apply json_eqb_true]|by apply IH].
  Qed.

#[export] Instance json_eq_dec : EqDecision json.
Proof.
  intros a b. destruct (json_eqb a b) eqn:E.
  - left. by apply json_eqb_true.
  - right. intros ->. by rewrite json_eqb_refl in E.
Defined.
