(* ===== verification/RelayPayload.v ===== *)
(** Relay payload shapes: the guards over JSON payloads of tunnel frames
    (lib/relay/tunnel-codec.ts) and the handshake messages (lib/relay/crypto.ts). *)

From S2P Require Import Prelude JsMap JsValue RelayCrypto.

(** ** Payload guards *)

Definition isRecord (v : json) : bool := match v with JObj _ => true | _ => false end.

Definition stringMap (v : json) : bool :=
  match v with JObj fields => forallb (fun x => is_string (Some x.2)) fields | _ => false end.

(** A [stringMap] read as a map of strings. *)
Definition string_fields (v : json) : list (string * string) :=
  match v with
  | JObj fields => omap (fun x => match x.2 with JStr s => Some (x.1, s) | _ => None end) fields
  | _ => []
  end.

(** [parseJsonPayload(payload, guard)], [None] when the text does not parse. *)
Definition parseJsonPayload (payload : option json) (guard : json -> bool) : option json :=
  v ← payload; if guard v then Some v else None.

Definition isHttpRequestPayload (v : json) : bool :=
  isRecord v && (is_string (jfield "method" v) && is_string (jfield "path" v)
    && stringMap (or_empty (jfield "query" v)) && stringMap (or_empty (jfield "headers" v))
    && (is_undefined (jfield "hasBody" v) || is_bool (jfield "hasBody" v))).

Definition isHttpResponsePayload (v : json) : bool :=
  isRecord v && match safe_int (jfield "status" v) with
                | Some status => bool_decide (100 <= status)%Z && bool_decide (status <= 599)%Z
                                 && stringMap (or_empty (jfield "headers" v))
                | None => false
                end.

Definition isStreamAbortPayload (v : json) : bool := isRecord v && is_string (jfield "reason" v).

Definition isWsOpenPayload (v : json) : bool :=
  if negb (isRecord v) || negb (is_string (jfield "path" v)) then false
  else if negb (stringMap (or_empty (jfield "query" v))) then false
  else match jfield "protocols" v with
       | None => true
       | Some (JArr ps) => forallb (fun p => is_string (Some p)) ps
       | Some _ => false
       end.

Definition isWsOpenedPayload (v : json) : bool :=
  isRecord v && (is_undefined (jfield "protocol" v) || is_string (jfield "protocol" v)).

Definition isWsClosePayload (v : json) : bool :=
  isRecord v && (match safe_int (jfield "code" v) with Some _ => true | None => false end
    && (is_undefined (jfield "reason" v) || is_string (jfield "reason" v))).

(** ** Handshake messages *)

Record RelayJwk : Type := mkJwk { kty : string; crv : string; jwk_x : string; jwk_y : string }.

#[export] Instance RelayJwk_eq_dec : EqDecision RelayJwk.
Proof. solve_decision. Defined.

Definition reduceEcPublicJwk (jwk : RelayJwk) : json :=
  JObj [("kty", JStr (kty jwk)); ("crv", JStr (crv jwk)); ("x", JStr (jwk_x jwk)); ("y", JStr (jwk_y jwk))].

(** [JSON.stringify({crv, kty, x, y})]: the text is determined by, and
    determines, the four members in this order. *)
Definition publicKeyJwkFingerprint (jwk : RelayJwk) : string * string * string * string :=
  (crv jwk, kty jwk, jwk_x jwk, jwk_y jwk).

Definition flag_field (name : string) (b : bool) : list (string * json) :=
  if b then [(name, JBool true)] else [].

Definition encodeHandshakeHello (clientPubJwk : RelayJwk) (nonce : string) (batch flowControl : bool) : json :=
  JObj ([("t", JStr "hello"); ("v", JInt RELAY_PROTOCOL_VERSION);
         ("clientPubJwk", reduceEcPublicJwk clientPubJwk); ("nonce", JStr nonce)]
        ++ flag_field "batch" batch ++ flag_field "flowControl" flowControl).

Definition encodeHandshakeReady (batch flowControl : bool) : json :=
  JObj ([("t", JStr "ready"); ("v", JInt RELAY_PROTOCOL_VERSION)]
        ++ flag_field "batch" batch ++ flag_field "flowControl" flowControl).

Record DecodedHello : Type := mkHello {
  h_clientPubJwk : RelayJwk;
  h_nonce : string;
  h_batch : bool;
  h_flowControl : bool;
}.

Record DecodedReady : Type := mkReady { r_batch : bool; r_flowControl : bool }.

(** [isShapedJwk], with the members it establishes. *)
Definition isShapedJwk (v : option json) : option RelayJwk :=
  match v with
  | Some w =>
    if is_str (jfield "kty" w) "EC" && is_str (jfield "crv" w) "P-256" then
      match jfield "x" w, jfield "y" w with
      | Some (JStr x), Some (JStr y) =>
        if bool_decide (x <> "") && bool_decide (y <> "") then Some (mkJwk "EC" "P-256" x y) else None
      | _, _ => None
      end
    else None
  | None => None
  end.

(** Arrays and null have no such members, so the object test needs no clause. *)
Definition decodeHandshakeHello (text : option json) : option DecodedHello :=
  parsed ← text;
  if negb (is_str (jfield "t" parsed) "hello") || negb (is_int (jfield "v" parsed) RELAY_PROTOCOL_VERSION)
  then None
  else
    jwk ← isShapedJwk (jfield "clientPubJwk" parsed);
    match jfield "nonce" parsed with
    | Some (JStr nonce) =>
      if bool_decide (nonce = "") then None
      else Some (mkHello jwk nonce (is_true (jfield "batch" parsed)) (is_true (jfield "flowControl" parsed)))
    | _ => None
    end.

Definition decodeHandshakeReady (text : option json) : option DecodedReady :=
  parsed ← text;
  if negb (is_str (jfield "t" parsed) "ready") || negb (is_int (jfield "v" parsed) RELAY_PROTOCOL_VERSION)
  then None
  else Some (mkReady (is_true (jfield "batch" parsed)) (is_true (jfield "flowControl" parsed))).

(** A key as [isShapedJwk] accepts it. *)
Definition shaped (jwk : RelayJwk) : Prop :=
  kty jwk = "EC" /\ crv jwk = "P-256" /\ jwk_x jwk <> "" /\ jwk_y jwk <> "".

Lemma flag_field_lookup b f :
  is_true (jget "batch" (flag_field "batch" b ++ flag_field "flowControl" f)) = b
  /\ is_true (jget "flowControl" (flag_field "batch" b ++ flag_field "flowControl" f)) = f.
Proof. by destruct b, f. Qed.

Lemma decode_encode_hello jwk nonce b f :
  shaped jwk -> nonce <> "" ->
  decodeHandshakeHello (Some (encodeHandshakeHello jwk nonce b f)) = Some (mkHello jwk nonce b f).
Proof.
  intros (Hk & Hc & Hx & Hy) Hn. destruct jwk as [k c x y]. cbn in Hk, Hc, Hx, Hy. subst.
  unfold decodeHandshakeHello, encodeHandshakeHello, reduceEcPublicJwk, isShapedJwk.
  jfields. rewrite is_int_refl, ?(bool_decide_true (_ = _ :> string)) by done. jfields.
  rewrite (bool_decide_true (x <> "")), (bool_decide_true (y <> "")) by done.
  jfields. rewrite (bool_decide_false (nonce = "")) by done.
  by destruct (flag_field_lookup b f) as [-> ->].
Qed.

Lemma decode_encode_ready b f :
  decodeHandshakeReady (Some (encodeHandshakeReady b f)) = Some (mkReady b f).
Proof.
  unfold decodeHandshakeReady, encodeHandshakeReady. jfields.
  rewrite is_int_refl, ?(bool_decide_true (_ = _ :> string)) by done. jfields.
  by destruct (flag_field_lookup b f) as [-> ->].
Qed.

Lemma decoded_hello_shaped text h :
  decodeHandshakeHello text = Some h -> shaped (h_clientPubJwk h) /\ h_nonce h <> "".
Proof.
  unfold decodeHandshakeHello, isShapedJwk. intros H. destruct text as [v|]; [|done]. cbn in H.
  repeat (case_match; simplify_eq/=; try done). bool_facts. done.
Qed.
