(* ===== verification/RelayHandshake.v ===== *)
(** The end-to-end handshake of a relay leg (lib/relay/handshake.ts, with the key
    derivation of lib/relay/crypto.ts): the host responder and the client
    initiator as state machines whose asynchronous key derivation completes in a
    later event, so that other events can come in between. *)

From S2P Require Import Prelude JsMap JsValue Bytes RelayCrypto RelayPayload.

Definition HOST_CLOSE_REKEY : Z := 1008.
Definition HOST_CLOSE_CHANNEL : Z := 1011.
Definition SERVER_CLOSE_PLAINTEXT : Z := 1011.
Definition RELAY_HKDF_INFO : string := "openchamber-relay-v1".

Record CapabilityOptions : Type := mkCaps { c_batch : bool; c_flowControl : bool }.

Definition negotiate (host message : CapabilityOptions) : CapabilityOptions :=
  mkCaps (c_batch host && c_batch message) (c_flowControl host && c_flowControl message).

(** ** Key derivation *)

(** webcrypto and the base64url decoder: [ecdh] and [hkdf] stand for the two
    [deriveBits] calls ([None] when they reject), [importAes] for [importKey]. *)
Class HandshakeCrypto (priv secret key : Type) := {
  ecdh : priv -> RelayJwk -> option secret;
  hkdf : secret -> buffer -> string -> buffer;
  importAes : buffer -> key;
  fromBase64url : string -> buffer;
}.

(** Diffie-Hellman agreement, for key pairs as [generateKey] makes them. *)
Class HandshakeCryptoLaws (priv secret key : Type) `{HandshakeCrypto priv secret key} := {
  keypair : priv -> RelayJwk -> Prop;
  ecdh_agrees : forall a pa b pb, keypair a pa -> keypair b pb -> ecdh a pb = ecdh b pa;
}.

Section handshake.
  Context {priv secret key : Type} `{!HandshakeCrypto priv secret key}.

Record SessionKeyPair : Type := mkKeys { clientToHostKey : key; hostToClientKey : key }.

Definition randomNonceBytes (base64url : string) : option buffer :=
  let bytes := fromBase64url base64url in
  if length bytes =? 16 then Some bytes else None.

(** [None] is a rejected promise. *)
Definition deriveSessionKeys (own : priv) (peer : RelayJwk) (nonce : string) : option SessionKeyPair :=
  sharedSecret ← ecdh own peer;
  salt ← randomNonceBytes nonce;
  let keyMaterial := hkdf sharedSecret salt RELAY_HKDF_INFO in
  if length keyMaterial =? 64 then
    Some (mkKeys (importAes (subarray keyMaterial 0 32)) (importAes (subarray keyMaterial 32 64)))
  else None.

Record OpenedSession : Type := mkSession {
  clientToHost : SessionDirection (key := key);
  hostToClient : SessionDirection (key := key);
}.

(** The random IV prefixes of the two directions are an argument. *)
Definition openSession (keys : SessionKeyPair) (prefixes : buffer * buffer) : OpenedSession :=
  mkSession (newDirection (clientToHostKey keys) prefixes.1)
            (newDirection (hostToClientKey keys) prefixes.2).

(** ** The host responder *)

Record HostEstablished : Type := mkEstablished {
  est_session : OpenedSession;
  est_fingerprint : string * string * string * string;
  est_capabilities : CapabilityOptions;
}.

(** [deriving] is the hello whose key derivation is in flight; the initial empty
    fingerprint is [None]. *)
Record ResponderState : Type := mkResponder {
  established : bool;
  readyText : option json;
  establishedSession : option HostEstablished;
  clientFingerprint : option (string * string * string * string);
  deriving : option DecodedHello;
}.

Definition newResponder : ResponderState := mkResponder false None None None None.

Inductive ResponderEffect : Type :=
| SendText (text : json)
| OnClose (code : Z) (reason : string)
| OnEstablished (e : HostEstablished).

Inductive ResponderEvent : Type :=
| OnText (text : option json)
| OnBinary
| Derived (prefixes : buffer * buffer) (sendOk : bool).

Section responder.
  Context (hostPriv : priv) (hostCaps : CapabilityOptions).

Definition onEstablishedText (state : ResponderState) (text : option json) : list ResponderEffect :=
  match decodeHandshakeHello text with
  | None => [OnClose SERVER_CLOSE_PLAINTEXT "plaintext frame on established channel"]
  | Some hello =>
    if bool_decide (Some (publicKeyJwkFingerprint (h_clientPubJwk hello)) = clientFingerprint state)
    then match readyText state with Some ready => [SendText ready] | None => [] end
    else [OnClose HOST_CLOSE_REKEY "rekey mismatch"]
  end.

Definition hello_caps (hello : DecodedHello) : CapabilityOptions :=
  mkCaps (h_batch hello) (h_flowControl hello).

(** [acceptHello] up to the derivation it awaits. *)
Definition acceptHello (state : ResponderState) (hello : DecodedHello) : ResponderState :=
  let capabilities := negotiate hostCaps (hello_caps hello) in
  mkResponder (established state)
    (Some (encodeHandshakeReady (c_batch capabilities) (c_flowControl capabilities)))
    (establishedSession state) (clientFingerprint state) (Some hello).

(** The rest of it, once the derivation settles. [sendOk] says whether sending
    the ready succeeds; when it rejects, [onEstablished] is never called. *)
Definition helloDerived (state : ResponderState) (prefixes : buffer * buffer) (sendOk : bool) :
    ResponderState * list ResponderEffect :=
  match deriving state with
  | None => (state, [])
  | Some hello =>
    let capabilities := negotiate hostCaps (hello_caps hello) in
    match deriveSessionKeys hostPriv (h_clientPubJwk hello) (h_nonce hello) with
    | None =>
      (mkResponder (established state) None (establishedSession state) (clientFingerprint state) None,
       [OnClose HOST_CLOSE_CHANNEL "handshake key derivation failed"])
    | Some keys =>
      let fp := publicKeyJwkFingerprint (h_clientPubJwk hello) in
      let e := mkEstablished (openSession keys prefixes) fp capabilities in
      (mkResponder true (readyText state) (Some e) (Some fp) None,
       match readyText state with
       | Some ready => SendText ready :: (if sendOk then [OnEstablished e] else [])
       | None => []
       end)
    end
  end.

Definition onText (state : ResponderState) (text : option json) : ResponderState * list ResponderEffect :=
  if established state then (state, onEstablishedText state text)
  else match decodeHandshakeHello text with
       | None => (state, [OnClose HOST_CLOSE_CHANNEL "malformed handshake hello"])
       | Some hello =>
         match readyText state with
         | None => (acceptHello state hello, [])
         | Some _ => (state, [])
         end
       end.

Definition onBinary (state : ResponderState) : list ResponderEffect :=
  if established state then [] else [OnClose SERVER_CLOSE_PLAINTEXT "binary frame before handshake"].

Definition responder_step (state : ResponderState) (ev : ResponderEvent) :
    ResponderState * list ResponderEffect :=
  match ev with
  | OnText text => onText state text
  | OnBinary => (state, onBinary state)
  | Derived prefixes sendOk => helloDerived state prefixes sendOk
  end.

Fixpoint responder_run (state : ResponderState) (evs : list ResponderEvent) :
    ResponderState * list ResponderEffect :=
  match evs with
  | [] => (state, [])
  | ev :: evs' =>
    let '(s1, e1) := responder_step state ev in
    let '(s2, e2) := responder_run s1 evs' in
    (s2, e1 ++ e2)
  end.

End responder.

(** ** The client initiator *)

Inductive RetryTimer : Type := FirstRetry | LastRetry.

(** [pendingReadies] are the readies whose derivation is in flight. *)
Record InitiatorState : Type := mkInitiator {
  i_established : bool;
  ephemeral : option (priv * RelayJwk * string);
  helloText : option json;
  retryTimer : option RetryTimer;
  deadlineTimer : bool;
  pendingReadies : list DecodedReady;
}.

Definition newInitiator : InitiatorState := mkInitiator false None None None false [].

Inductive InitiatorEffect : Type :=
| ISendText (text : json)
| IClose (code : Z) (reason : string)
| IEstablished (session : OpenedSession) (capabilities : CapabilityOptions).

Inductive InitiatorEvent : Type :=
| IStart (own : priv) (pub : RelayJwk) (nonce : string)
| IText (text : option json)
| IDerived (prefixes : buffer * buffer)
| IBinary
| IStop
| IDeadlineFires
| IRetryFires.

Section initiator.
  Context (hostPub : RelayJwk) (caps : CapabilityOptions).

(** The hello is built anew by each start (the fresh key pair and nonce are
    arguments), and the two timers are armed. *)
Definition startInitiator (st : InitiatorState) (own : priv) (pub : RelayJwk) (nonce : string) :
    InitiatorState * list InitiatorEffect :=
  let hello := encodeHandshakeHello pub nonce (c_batch caps) (c_flowControl caps) in
  (mkInitiator false (Some (own, pub, nonce)) (Some hello) (Some FirstRetry) true (pendingReadies st),
   [ISendText hello]).

Definition deadlineFires (st : InitiatorState) : InitiatorState * list InitiatorEffect :=
  if i_established st || negb (deadlineTimer st) then (st, [])
  else (mkInitiator (i_established st) (ephemeral st) (helloText st) (retryTimer st) false (pendingReadies st),
        [IClose HOST_CLOSE_CHANNEL "relay handshake timeout"]).

Definition set_retry (st : InitiatorState) (t : option RetryTimer) : InitiatorState :=
  mkInitiator (i_established st) (ephemeral st) (helloText st) t (deadlineTimer st) (pendingReadies st).

(** The first firing re-sends the hello and arms the second, which re-sends it
    for the last time. *)
Definition retryFires (st : InitiatorState) : InitiatorState * list InitiatorEffect :=
  match retryTimer st with
  | None => (st, [])
  | Some t =>
    if i_established st then (set_retry st None, [])
    else match helloText st with
         | None => (set_retry st None, [])
         | Some hello =>
           (set_retry st (match t with FirstRetry => Some LastRetry | LastRetry => None end),
            [ISendText hello])
         end
  end.

Definition onInitiatorText (st : InitiatorState) (text : option json) : InitiatorState :=
  if i_established st then st
  else match decodeHandshakeReady text, ephemeral st with
       | Some ready, Some (own, pub, nonce) =>
         if bool_decide (nonce = "") then st
         else mkInitiator (i_established st) (ephemeral st) (helloText st) (retryTimer st)
                (deadlineTimer st) (pendingReadies st ++ [ready])
       | _, _ => st
       end.

(** The continuation of the oldest derivation in flight. *)
Definition readyDerived (st : InitiatorState) (prefixes : buffer * buffer) :
    InitiatorState * list InitiatorEffect :=
  match pendingReadies st, ephemeral st with
  | ready :: rest, Some (own, pub, nonce) =>
    match deriveSessionKeys own hostPub nonce with
    | None => (mkInitiator (i_established st) (ephemeral st) (helloText st) (retryTimer st)
                 (deadlineTimer st) rest,
               [IClose HOST_CLOSE_CHANNEL "handshake key derivation failed"])
    | Some keys =>
      (mkInitiator true (ephemeral st) (helloText st) None false rest,
       [IEstablished (openSession keys prefixes)
          (negotiate caps (mkCaps (r_batch ready) (r_flowControl ready)))])
    end
  | _, _ => (st, [])
  end.

Definition stopInitiator (st : InitiatorState) : InitiatorState :=
  mkInitiator (i_established st) (ephemeral st) (helloText st) None false (pendingReadies st).

Definition initiator_step (st : InitiatorState) (ev : InitiatorEvent) :
    InitiatorState * list InitiatorEffect :=
  match ev with
  | IStart own pub nonce => startInitiator st own pub nonce
  | IText text => (onInitiatorText st text, [])
  | IDerived prefixes => readyDerived st prefixes
  | IBinary => (st, if i_established st then []
                    else [IClose SERVER_CLOSE_PLAINTEXT "encrypted frame before handshake completed"])
  | IStop => (stopInitiator st, [])
  | IDeadlineFires => deadlineFires st
  | IRetryFires => retryFires st
  end.

Fixpoint initiator_run (st : InitiatorState) (evs : list InitiatorEvent) :
    InitiatorState * list InitiatorEffect :=
  match evs with
  | [] => (st, [])
  | ev :: evs' =>
    let '(s1, e1) := initiator_step st ev in
    let '(s2, e2) := initiator_run s1 evs' in
    (s2, e1 ++ e2)
  end.

End initiator.

End handshake.

(** ** Responder lemmas *)

Section responder_lemmas.
  Context {priv secret key : Type} `{!HandshakeCrypto priv secret key}.
  Context (hostPriv : priv) (hostCaps : CapabilityOptions).

Definition ready_of (caps : CapabilityOptions) : json :=
  encodeHandshakeReady (c_batch caps) (c_flowControl caps).

(** What a reachable responder looks like: idle, deriving, or established. *)
Inductive responder_wf : ResponderState (key := key) -> Prop :=
| wf_idle : responder_wf newResponder
| wf_deriving hello :
    responder_wf (mkResponder false (Some (ready_of (negotiate hostCaps (hello_caps hello)))) None None (Some hello))
| wf_established e :
    responder_wf (mkResponder true (Some (ready_of (est_capabilities e))) (Some e) (Some (est_fingerprint e)) None).

Lemma responder_step_wf st ev :
  responder_wf st -> responder_wf (responder_step hostPriv hostCaps st ev).1.
Proof.
  intros Hwf. destruct ev as [text| |prefixes ok]; cbn [responder_step]; [|done|].
  - destruct Hwf as [|hello|e]; unfold onText; cbn [established newResponder];
      try destruct (decodeHandshakeHello text); cbn; constructor.
  - destruct Hwf as [|hello|e]; unfold helloDerived; cbn [deriving newResponder]; [constructor| |constructor].
    cbn zeta. destruct (deriveSessionKeys _ _ _) as [keys|]; cbn; [|constructor].
    apply (wf_established (mkEstablished _ _ _)).
Qed.

Lemma responder_run_wf st evs :
  responder_wf st -> responder_wf (responder_run hostPriv hostCaps st evs).1.
Proof.
  revert st. induction evs as [|ev evs IH]; intros st Hwf; [done|]. cbn.
  pose proof (responder_step_wf st ev Hwf) as H1. destruct (responder_step _ _ st ev) as [s1 e1].
  specialize (IH s1 H1). by destruct (responder_run _ _ s1 evs).
Qed.

(** How an established responder answers, as a function of the event alone. *)
Definition established_answer (e : HostEstablished (key := key)) (ev : ResponderEvent) :
    list (ResponderEffect (key := key)) :=
  match ev with
  | OnText text =>
    match decodeHandshakeHello text with
    | None => [OnClose SERVER_CLOSE_PLAINTEXT "plaintext frame on established channel"]
    | Some hello =>
      if bool_decide (publicKeyJwkFingerprint (h_clientPubJwk hello) = est_fingerprint e)
      then [SendText (ready_of (est_capabilities e))]
      else [OnClose HOST_CLOSE_REKEY "rekey mismatch"]
    end
  | OnBinary | Derived _ _ => []
  end.

Lemma established_step e ev :
  let st := mkResponder true (Some (ready_of (est_capabilities e))) (Some e) (Some (est_fingerprint e)) None in
  responder_step hostPriv hostCaps st ev = (st, established_answer e ev).
Proof.
  destruct ev as [text| |prefixes ok]; try done. cbn. f_equal. unfold onEstablishedText.
  destruct (decodeHandshakeHello text) as [hello|]; [|done]. cbn [clientFingerprint readyText].
  destruct (decide (publicKeyJwkFingerprint (h_clientPubJwk hello) = est_fingerprint e)) as [E|E].
  - by rewrite E, !bool_decide_true.
  - rewrite !bool_decide_false; [done|done|congruence].
Qed.

End responder_lemmas.

(** ** Initiator lemmas *)

Section initiator_lemmas.
  Context {priv secret key : Type} `{!HandshakeCrypto priv secret key}.
  Context (hostPub : RelayJwk) (caps : CapabilityOptions).

Definition hello_count (es : list (InitiatorEffect (key := key))) : nat :=
  length (omap (fun e => match e with ISendText t => Some t | _ => None end) es).

(** Hellos the armed retry timer can still send. *)
Definition retries_left (st : InitiatorState (priv := priv)) : nat :=
  match retryTimer st with Some FirstRetry => 2 | Some LastRetry => 1 | None => 0 end.

Definition is_start (ev : InitiatorEvent (priv := priv)) : bool :=
  match ev with IStart _ _ _ => true | _ => false end.

Lemma hello_count_app es fs : hello_count (es ++ fs) = hello_count es + hello_count fs.
Proof. unfold hello_count. by rewrite omap_app, length_app. Qed.

Lemma step_hellos st ev :
  is_start ev = false ->
  hello_count (initiator_step hostPub caps st ev).2 + retries_left (initiator_step hostPub caps st ev).1
  <= retries_left st.
Proof.
  intros Hs. destruct ev as [own pub nonce|text|prefixes| | | |]; [done|..]; cbn [initiator_step].
  - cbn. unfold onInitiatorText. destruct (i_established st); [done|].
    destruct (decodeHandshakeReady text), (ephemeral st) as [[[]]|]; try done.
    by case_bool_decide.
  - unfold readyDerived. destruct (pendingReadies st), (ephemeral st) as [[[]]|]; try done.
    destruct (deriveSessionKeys _ _ _); [|done]. cbn. lia.
  - by destruct (i_established st).
  - cbn. lia.
  - unfold deadlineFires. by destruct (_ || _).
  - unfold retryFires, retries_left. destruct (retryTimer st) as [[]|] eqn:E; [..|cbn; by rewrite E];
      destruct (i_established st); try (cbn; lia); destruct (helloText st); cbn; lia.
Qed.

Lemma run_hellos st evs :
  Forall (fun ev => is_start ev = false) evs ->
  hello_count (initiator_run hostPub caps st evs).2 + retries_left (initiator_run hostPub caps st evs).1
  <= retries_left st.
Proof.
  intros Hs. revert st. induction Hs as [|ev evs Hs _ IH]; intros st; [done|]. cbn.
  pose proof (step_hellos st ev Hs) as H1. destruct (initiator_step _ _ st ev) as [s1 e1].
  specialize (IH s1). destruct (initiator_run _ _ s1 evs) as [s2 e2]. cbn [fst snd] in *.
  rewrite hello_count_app. lia.
Qed.

End initiator_lemmas.

(** ** Properties *)

(** C8. A leg is never rekeyed in place: once the host responder is established,
    no event changes its state or establishes again, and every text is answered
    by the agreed rule: the same ready for the same key, close 1008 for another
    key, close 1011 for anything else. *)
Theorem responder_never_rekeys {priv secret key} `{!HandshakeCrypto priv secret key}
    (hostPriv : priv) (hostCaps : CapabilityOptions) (evs evs' : list ResponderEvent) :
  let st := (responder_run (key := key) hostPriv hostCaps newResponder evs).1 in
  established st = true ->
  exists e, establishedSession st = Some e
    /\ responder_run hostPriv hostCaps st evs' = (st, concat (established_answer e <$> evs')).
Proof.
  intros st He. pose proof (responder_run_wf hostPriv hostCaps newResponder evs (wf_idle _)) as Hwf.
  fold st in Hwf. clearbody st. destruct Hwf as [|hello|e]; [done|done|]. exists e. split; [done|].
  induction evs' as [|ev evs' IH]; [done|]. cbn [responder_run]. rewrite established_step, IH.
  by rewrite fmap_cons.
Qed.

(** C28. The two ends agree: when the host accepts a client's hello and the client
    its ready, both hold the same key in each direction and the same negotiated
    capabilities. *)
Theorem handshake_agrees {priv secret key} `{!HandshakeCrypto priv secret key, !HandshakeCryptoLaws priv secret key}
    (hostPriv clientPriv : priv) (hostPub clientPub : RelayJwk) (hostCaps clientCaps : CapabilityOptions)
    (nonce : string) (pH pC : buffer * buffer) :
  keypair hostPriv hostPub -> keypair clientPriv clientPub -> shaped clientPub -> nonce <> "" ->
  deriveSessionKeys (key := key) hostPriv clientPub nonce <> None ->
  exists c1 hello h2 ready eH c2 sC capsC,
    initiator_step hostPub clientCaps newInitiator (IStart clientPriv clientPub nonce) = (c1, [ISendText hello])
    /\ responder_run hostPriv hostCaps newResponder [OnText (Some hello); Derived pH true]
       = (h2, [SendText ready; OnEstablished eH])
    /\ initiator_run hostPub clientCaps c1 [IText (Some ready); IDerived pC] = (c2, [IEstablished sC capsC])
    /\ dir_key (clientToHost sC) = dir_key (clientToHost (est_session eH))
    /\ dir_key (hostToClient sC) = dir_key (hostToClient (est_session eH))
    /\ capsC = est_capabilities eH.
Proof.
  intros HkH HkC Hsh Hn Hd. destruct clientCaps as [cb cf].
  assert (deriveSessionKeys (key := key) clientPriv hostPub nonce = deriveSessionKeys hostPriv clientPub nonce) as Heq.
  { unfold deriveSessionKeys. by rewrite (ecdh_agrees _ _ _ _ HkC HkH). }
  destruct (deriveSessionKeys hostPriv clientPub nonce) as [keys|] eqn:Ek; [|done].
  do 4 eexists. exists (mkEstablished (openSession keys pH) (publicKeyJwkFingerprint clientPub)
    (negotiate hostCaps (mkCaps cb cf))). do 3 eexists.
  split; [reflexivity|]. split; [|split].
  - cbn [responder_run responder_step]. unfold onText. cbn [established newResponder readyText].
    rewrite decode_encode_hello by done. cbn [responder_run responder_step acceptHello].
    unfold helloDerived, acceptHello. cbn [deriving h_clientPubJwk h_nonce]. rewrite Ek.
    cbn. reflexivity.
  - cbn [initiator_run initiator_step]. unfold onInitiatorText. cbn [i_established ephemeral startInitiator].
    rewrite decode_encode_ready, bool_decide_false by done. unfold readyDerived.
    cbn [pendingReadies newInitiator app ephemeral]. rewrite Heq. cbn. reflexivity.
  - split_and!; try done. destruct hostCaps as [[] []], cb, cf; done.
Qed.

(** A toy Diffie-Hellman group: private keys are numbers, a public key's [x] has
    that length, and the shared secret is the product. *)
Section toy.
#[local] Instance toy_crypto : HandshakeCrypto nat nat buffer := {
  ecdh a j := Some (a * String.length (jwk_x j));
  hkdf s salt info := replicate 32 (zb (Z.of_nat s)) ++ replicate 32 (zb (Z.of_nat (S s)));
  importAes b := b;
  fromBase64url _ := replicate 16 x00;
}.

#[local] Instance toy_laws : HandshakeCryptoLaws nat nat buffer.
Proof.
  refine {| keypair a j := String.length (jwk_x j) = a |}.
  intros a pa b pb Ha Hb. cbn. f_equal. rewrite Ha, Hb. apply Nat.mul_comm.
Defined.

Lemma handshake_agrees_witness :
  exists c1 hello h2 ready eH c2 sC capsC,
    initiator_step (key := buffer) (mkJwk "EC" "P-256" "ab" "y") (mkCaps true true) newInitiator
      (IStart 3 (mkJwk "EC" "P-256" "abc" "y") "n") = (c1, [ISendText hello])
    /\ responder_run (key := buffer) 2 (mkCaps true false) newResponder
         [OnText (Some hello); Derived ([], []) true] = (h2, [SendText ready; OnEstablished eH])
    /\ initiator_run (mkJwk "EC" "P-256" "ab" "y") (mkCaps true true) c1 [IText (Some ready); IDerived ([], [])]
       = (c2, [IEstablished sC capsC])
    /\ dir_key (clientToHost sC) = dir_key (clientToHost (est_session eH))
    /\ dir_key (hostToClient sC) = dir_key (hostToClient (est_session eH))
    /\ capsC = est_capabilities eH.
Proof.
  apply (handshake_agrees 2 3 (mkJwk "EC" "P-256" "ab" "y") (mkJwk "EC" "P-256" "abc" "y")
    (mkCaps true false) (mkCaps true true) "n" ([], []) ([], [])).
  - reflexivity.
  - reflexivity.
  - by repeat split.
  - discriminate.
  - vm_compute. discriminate.
Defined.

Lemma responder_never_rekeys_witness :
  let hello := encodeHandshakeHello (mkJwk "EC" "P-256" "abc" "y") "n" true true in
  let st := (responder_run (key := buffer) 2 (mkCaps true false) newResponder
               [OnText (Some hello); Derived ([], []) true]).1 in
  exists e, establishedSession st = Some e
    /\ responder_run 2 (mkCaps true false) st [OnText None]
       = (st, concat (established_answer e <$> [OnText None])).
Proof.
  intros hello st. apply (responder_never_rekeys 2 (mkCaps true false)
    [OnText (Some hello); Derived ([], []) true] [OnText None]). vm_compute. reflexivity.
Defined.

(** The hello is not re-sent until established: one start sends it at most
    three times, whatever happens afterwards short of another start. *)
Theorem hello_sent_at_most_thrice {priv secret key} `{!HandshakeCrypto priv secret key}
    (hostPub : RelayJwk) (caps : CapabilityOptions) (own : priv) (pub : RelayJwk) (nonce : string)
    (evs : list InitiatorEvent) :
  Forall (fun ev => is_start ev = false) evs ->
  hello_count (initiator_run (key := key) hostPub caps newInitiator (IStart own pub nonce :: evs)).2 <= 3.
Proof.
  intros Hs. cbn [initiator_run initiator_step startInitiator].
  pose proof (run_hellos hostPub caps (startInitiator (key := key) caps newInitiator own pub nonce).1 evs Hs) as H.
  cbn [fst startInitiator] in H. destruct (initiator_run _ _ _ evs) as [s2 e2]. cbn [fst snd] in *.
  rewrite hello_count_app. cbn in *. lia.
Qed.

Lemma hello_sent_at_most_thrice_witness :
  hello_count (initiator_run (key := buffer) (mkJwk "EC" "P-256" "ab" "y") (mkCaps true true) newInitiator
    [IStart 3 (mkJwk "EC" "P-256" "abc" "y") "n"; IRetryFires; IRetryFires; IRetryFires; IDeadlineFires]).2 <= 3.
Proof. apply hello_sent_at_most_thrice. repeat constructor. Defined.

(** Two readies that arrive before the first derivation settles establish twice,
    the second time with fresh counters. *)
Lemma second_ready_restarts_session :
  exists s1 s2 c, (initiator_run (key := buffer) (mkJwk "EC" "P-256" "ab" "y") (mkCaps true true) newInitiator
    [IStart 3 (mkJwk "EC" "P-256" "abc" "y") "n"; IText (Some (encodeHandshakeReady true true));
     IText (Some (encodeHandshakeReady true true)); IDerived ([x01], [x02]); IDerived ([x03], [x04])]).2
    = [ISendText (encodeHandshakeHello (mkJwk "EC" "P-256" "abc" "y") "n" true true);
       IEstablished s1 c; IEstablished s2 c] /\ s1 <> s2.
Proof. do 3 eexists. split; [vm_compute; reflexivity|]. discriminate. Qed.
End toy.
