(* ===== verification/RelayDispatcher.v ===== *)
(** The relay host dispatcher (lib/relay/dispatcher.ts, dispatcher-ws.ts and the
    request shaping of loopback-adapters.ts): the machine that turns decrypted
    tunnel frames into loopback requests and socket traffic, and their results
    into frames.

    A stream object outlives its map entry (detached requests and timers hold
    it), so stream objects live in a store and the map holds their references.
    Awaited completions are events of their own. *)

From S2P Require Import Prelude JsString JsMap JsValue Bytes RelayCrypto RelayCodec RelayPayload RelayDownstream.
From S2P Require RelayBody.

(** ** Paths, headers, codes *)

Definition BODY_BUFFER_MAX_BYTES : Z := 512 * 1024.
Definition BODY_DELIVERY_TIMEOUT_MS : Z := 15000.
Definition DOWNSTREAM_CHUNK_BYTES : Z := 8 * 1024.
Definition DEFAULT_WS_CHUNK_BYTES : Z := MAX_TUNNEL_PAYLOAD_BYTES.

Definition HTTP_HOST_ALLOWLIST_PREFIXES : list string := ["/api"; "/auth"; "/health"].
Definition HTTP_HOST_ALLOWLIST_EXACT : list string := ["/health"; "/api"; "/auth"].

Definition isAllowedRelayHttpPath (path : string) : bool :=
  let clean := collapse "/" (before "?" path) in
  bool_decide (clean ∈ HTTP_HOST_ALLOWLIST_EXACT)
  || existsb (fun prefix => starts_with (prefix +:+ "/") clean || bool_decide (clean = prefix))
       HTTP_HOST_ALLOWLIST_PREFIXES.

Definition WS_HOST_ALLOWLIST : list string :=
  ["/api/global/event/ws"; "/api/event/ws"; "/api/terminal/ws"; "/api/dictation/ws"; "/api/dev-tunnel"].

Definition isAllowedRelayWebSocketPath (path : string) : bool :=
  bool_decide (before "?" path ∈ WS_HOST_ALLOWLIST).

Definition clampWsCloseCode (code : Z) : Z :=
  if is_safe_integer code then Z.min 4999 (Z.max 1000 code) else 1000.

Definition HOP_BY_HOP_HEADERS : list string :=
  ["connection"; "keep-alive"; "transfer-encoding"; "upgrade"; "host"; "content-length"; "content-encoding"].

Definition headers_t : Type := list (string * string).

(** [clean[name] = value]; assigning a string to [__proto__] does nothing. *)
Definition header_set (name value : string) (h : headers_t) : headers_t :=
  if bool_decide (name = "__proto__") then h else jset name value h.

Definition newline_free (s : string) : bool := lacks "013" s && lacks "010" s.

Definition normalizeRequestHeaders (headers : headers_t) : headers_t :=
  fold_left (fun clean x =>
    if bool_decide (toLowerCase x.1 ∈ HOP_BY_HOP_HEADERS) then clean
    else if negb (newline_free x.1 && newline_free x.2) then clean
    else header_set x.1 x.2 clean) headers [].

Definition normalizeResponseHeaders (headers : headers_t) : headers_t :=
  fold_left (fun clean x =>
    if bool_decide (toLowerCase x.1 ∈ HOP_BY_HOP_HEADERS) then clean
    else header_set x.1 x.2 clean) headers [].

(** ** State *)

Record HttpRequestPayload : Type := mkHttp {
  method : string;
  path : string;
  query : option json;
  headers : option json;
  hasBody : bool;
}.

Record WsStreamLink : Type := mkLink { socket : bool; assembler : list (string * Partial) }.

Inductive StreamKind : Type := HttpStream | WsStream.

Record StreamState : Type := mkStream {
  st_id : Z;
  kind : StreamKind;
  body : option RelayBody.TunnelRequestBody;
  requestHead : option HttpRequestPayload;
  ws : option WsStreamLink;
  aborted : bool;
}.

(** The body argument of a loopback fetch. *)
Inductive RequestBody : Type := NoBody | BufferedBody (data : buffer) | LiveBody.

Inductive HostEffect : Type :=
| QueueFrame (frame : TunnelFrame)
| NowFrame (frame : TunnelFrame)
| CancelQueue (streamId : Z)
| AckCredit (payload : buffer)
| SchedulerDispose
| Fetch (stream : nat) (url method : string) (headers : headers_t) (body : RequestBody)
| AbortFetch (stream : nat)
| BodyStream (stream : nat) (e : RelayBody.BodyEffect)
| Dial (stream : nat) (url : string) (protocols : list string) (headers : headers_t)
| SocketSend (stream : nat) (data : buffer) (isBinary : bool)
| SocketClose (stream : nat) (code : Z) (reason : string)
| SocketTerminate (stream : nat)
| UnhandledRejection (stream : nat)
| ChannelFailure (reason : string).

(** [pumps] are the downlink pumps of socket messages: the fragments each has
    still to send, one per completed [await]. *)
Record Host : Type := mkHost {
  streams : list (Z * nat);
  store : list StreamState;
  disposed : bool;
  pumps : list (list TunnelFrame);
  host_log : list HostEffect;
}.

Definition newHost : Host := mkHost [] [] false [] [].

Definition did (h : Host) (es : list HostEffect) : Host :=
  mkHost (streams h) (store h) (disposed h) (pumps h) (host_log h ++ es).
Definition set_streams (h : Host) (m : list (Z * nat)) : Host :=
  mkHost m (store h) (disposed h) (pumps h) (host_log h).
Definition put (h : Host) (ref : nat) (s : StreamState) : Host :=
  mkHost (streams h) (<[ref := s]> (store h)) (disposed h) (pumps h) (host_log h).
(** A fresh stream object, entered into the map. *)
Definition alloc (h : Host) (s : StreamState) : Host * nat :=
  (mkHost (jset (st_id s) (length (store h)) (streams h)) (store h ++ [s]) (disposed h) (pumps h) (host_log h),
   length (store h)).

Definition set_pumps (h : Host) (ps : list (list TunnelFrame)) : Host :=
  mkHost (streams h) (store h) (disposed h) ps (host_log h).

Definition with_body (s : StreamState) (b : RelayBody.TunnelRequestBody) : StreamState :=
  mkStream (st_id s) (kind s) (Some b) (requestHead s) (ws s) (aborted s).
Definition with_ws (s : StreamState) (w : WsStreamLink) : StreamState :=
  mkStream (st_id s) (kind s) (body s) (requestHead s) (Some w) (aborted s).
Definition with_aborted (s : StreamState) (b : option RelayBody.TunnelRequestBody) : StreamState :=
  mkStream (st_id s) (kind s) b (requestHead s) (ws s) true.

(** ** Operations *)

(** [sendFrame] and [sendFrameNow] hand the frame to the scheduler (or, without
    flow control, to the carrier). *)
Definition sendFrame (h : Host) (f : TunnelFrame) : Host :=
  if disposed h then h else did h [QueueFrame f].

Definition sendFrameNow (h : Host) (f : TunnelFrame) : Host :=
  if disposed h then h else did h [NowFrame f].

Definition has_socket (s : StreamState) : bool :=
  match ws s with Some w => socket w | None => false end.

Definition releaseStream (h : Host) (sid : Z) : Host :=
  set_streams (did h [CancelQueue sid]) (jdel sid (streams h)).

Definition abortStream (h : Host) (ref : nat) (reason : string) : Host :=
  match store h !! ref with
  | None => h
  | Some s =>
    if aborted s then h
    else
      let '(b, es) := match body s with
                      | Some b => let '(b1, es) := RelayBody.fail (RelayBody.clearDeadline b) reason in
                                  (Some b1, BodyStream ref <$> es)
                      | None => (None, [])
                      end in
      let h1 := did (put h ref (with_aborted s b)) (AbortFetch ref :: es) in
      let h2 := if has_socket s then did h1 [SocketTerminate ref] else h1 in
      releaseStream h2 (st_id s)
  end.

Definition mark_disposed (h : Host) : Host :=
  mkHost (streams h) (store h) true (pumps h) (host_log h).

Definition dispose (h : Host) : Host :=
  let h2 := fold_left (fun acc ref => abortStream acc ref "tunnel disposed") (jvals (streams h))
              (mark_disposed h) in
  did (set_streams h2 []) [SchedulerDispose].

Definition failLegSafe (h : Host) (reason : string) : Host :=
  if disposed h then h else did (dispose h) [ChannelFailure reason].

Section host.
  (** The text layer (JSON.parse and JSON.stringify over UTF-8) and
      URLSearchParams; the local port as text and the leg's connection id. *)
  Context (parseText : buffer -> option json) (stringify : json -> buffer)
    (urlSearchParams : headers_t -> string)
    (localPort connectionId : string) (flowControl : bool) (responseChunkBytes : Z).

Definition frame_of (type : TunnelFrameType) (sid : Z) (p : buffer) : TunnelFrame :=
  mkFrame (type_code type) sid false p.

Definition upstreamAbort (h : Host) (sid : Z) (reason : string) : Host :=
  sendFrameNow h (frame_of StreamAbort sid (stringify (JObj [("reason", JStr reason)]))).

Definition failStream (h : Host) (sid : Z) (reason : string) : Host :=
  match jget sid (streams h) with
  | None => h
  | Some ref => upstreamAbort (abortStream h ref reason) sid reason
  end.

Definition refuseStream (h : Host) (sid status : Z) (error reason : string) : Host :=
  let h1 := sendFrame h (frame_of HttpResponse sid (stringify
    (JObj [("status", JInt status); ("headers", JObj [("content-type", JStr "application/json")])]))) in
  let h2 := sendFrame h1 (frame_of HttpBody sid (stringify
    (JObj [("error", JStr error); ("reason", JStr reason); ("source", JStr "relay-tunnel-host")]))) in
  sendFrame h2 (frame_of StreamEnd sid []).

(** The members the guard has checked. *)
Definition http_of (v : json) : HttpRequestPayload :=
  let str k := match jfield k v with Some (JStr s) => s | _ => "" end in
  mkHttp (str "method") (str "path") (jfield "query" v) (jfield "headers" v) (is_true (jfield "hasBody" v)).

(** [Object.entries(v)], which throws on [undefined] and [null]. *)
Definition entries (v : option json) : option headers_t :=
  match v with Some (JObj fields) => Some (string_fields (JObj fields)) | _ => None end.

Definition loopbackQueryOf (q : option json) : option string :=
  match q with
  | None => Some ""
  | Some v =>
    es ← entries (Some v);
    let value := urlSearchParams es in
    Some (if bool_decide (value = "") then "" else "?" +:+ value)
  end.

Definition origin : string := "http://127.0.0.1:" +:+ localPort.

(** What a stream's request goes out as; [None] when shaping it throws. *)
Definition shape_request (head : HttpRequestPayload) : option (string * headers_t) :=
  q ← loopbackQueryOf (query head);
  hs ← entries (headers head);
  let clean := header_set "x-openchamber-relay-connection" connectionId (normalizeRequestHeaders hs) in
  Some (origin +:+ path head +:+ q, header_set "origin" origin clean).

(** [runRequest] is started detached: an exception before its first await is a
    rejection nobody handles. *)
Definition runRequest (h : Host) (ref : nat) (head : HttpRequestPayload) (b : RequestBody) : Host :=
  match shape_request head with
  | None => did h [UnhandledRejection ref]
  | Some (url, hs) => did h [Fetch ref url (toUpperCase (method head)) hs b]
  end.

Definition update_body (h : Host) (ref : nat) (f : RelayBody.TunnelRequestBody ->
    RelayBody.TunnelRequestBody * list RelayBody.BodyEffect) : Host :=
  match store h !! ref with
  | Some s => match body s with
              | Some b => let '(b1, es) := f b in did (put h ref (with_body s b1)) (BodyStream ref <$> es)
              | None => h
              end
  | None => h
  end.

Definition pure_body (f : RelayBody.TunnelRequestBody -> RelayBody.TunnelRequestBody)
    (b : RelayBody.TunnelRequestBody) : RelayBody.TunnelRequestBody * list RelayBody.BodyEffect := (f b, []).

(** Arming twice keeps the first timer. *)
Definition armBodyDeadline (h : Host) (ref : nat) : Host := update_body h ref (pure_body RelayBody.armDeadline).

Definition handleHttpRequest (h : Host) (f : TunnelFrame) : Host :=
  match jget (streamId f) (streams h) with
  | Some ref => upstreamAbort (abortStream h ref "duplicate stream id") (streamId f) "duplicate stream id"
  | None =>
    match parseJsonPayload (parseText (payload f)) isHttpRequestPayload with
    | None => refuseStream h (streamId f) 400 "malformed tunnel request" "bad-request-shape"
    | Some v =>
      let head := http_of v in
      if negb (isAllowedRelayHttpPath (path head)) then
        refuseStream h (streamId f) 403 "relay tunnel path is not allowed" "path-not-allowed"
      else
        let b := if hasBody head then Some RelayBody.newBody else None in
        let '(h1, ref) := alloc h (mkStream (streamId f) HttpStream b (Some head) None false) in
        if hasBody head then armBodyDeadline h1 ref else runRequest h1 ref head NoBody
    end
  end.

(** The loopback request goes out with a live body stream; shaping it may throw,
    after the stream was built. *)
Definition goLive (h : Host) (ref : nat) (head : HttpRequestPayload) (b : RelayBody.TunnelRequestBody) : Host :=
  let pre := RelayBody.bufferedBody b in
  let h1 := update_body h ref (fun b => RelayBody.requestStream
              (RelayBody.crossOver (RelayBody.clearDeadline b)) pre) in
  runRequest h1 ref head LiveBody.

Definition handleHttpBody (h : Host) (f : TunnelFrame) (enqueueOk : bool) : Host :=
  match jget (streamId f) (streams h) with
  | None => h
  | Some ref =>
    match store h !! ref with
    | Some s =>
      match kind s, body s, aborted s with
      | HttpStream, Some b, false =>
        let h1 := armBodyDeadline (update_body h ref (pure_body RelayBody.countFrame)) ref in
        if RelayBody.crossed b then update_body h1 ref (fun b => RelayBody.push b enqueueOk (payload f))
        else
          let h2 := update_body h1 ref (pure_body (fun b => RelayBody.bufferChunk b (payload f))) in
          if bool_decide (BODY_BUFFER_MAX_BYTES < RelayBody.bytes b + Zlen (payload f))%Z then
            match requestHead s with
            | None => h2
            | Some head => goLive h2 ref head (RelayBody.bufferChunk b (payload f))
            end
          else h2
      | _, _, _ => h
      end
    | None => h
    end
  end.

Definition finishRequestBody (h : Host) (ref : nat) (s : StreamState) : Host :=
  match body s, requestHead s with
  | Some b, Some head =>
    let h1 := update_body h ref (pure_body RelayBody.clearDeadline) in
    if RelayBody.crossed b then update_body h1 ref RelayBody.close
    else if bool_decide (RelayBody.framesReceived b = 0)%Z then
      failStream h1 (st_id s) "tunnel request body frames were lost"
    else runRequest (releaseStream h1 (st_id s)) ref head (BufferedBody (RelayBody.bufferedBody b))
  | _, _ => h
  end.

Definition handleStreamEnd (h : Host) (f : TunnelFrame) : Host :=
  match jget (streamId f) (streams h) with
  | None => h
  | Some ref =>
    match store h !! ref with
    | None => h
    | Some s =>
      match kind s, body s, aborted s with
      | HttpStream, Some _, false => finishRequestBody h ref s
      | _, _, _ =>
        let h1 := if has_socket s then did h [SocketClose ref 1000 "stream end"] else h in
        releaseStream h1 (st_id s)
      end
    end
  end.

Definition handleStreamAbort (h : Host) (f : TunnelFrame) : Host :=
  match jget (streamId f) (streams h) with
  | None => releaseStream h (streamId f)
  | Some ref => abortStream h ref "client abort"
  end.
(** *** WebSocket sub-streams *)

Definition sendClose (h : Host) (sid code : Z) (reason : string) : Host :=
  sendFrameNow h (frame_of WsClose sid (stringify
    (JObj [("code", JInt code); ("reason", JStr (stake 120 reason))]))).

Definition protocols_of (v : json) : list string :=
  match jfield "protocols" v with
  | Some (JArr ps) => omap (fun p => match p with JStr s => Some s | _ => None end) ps
  | _ => []
  end.

(** [wsBridge.open]; [false] when it throws (shaping the query, or the dial:
    [dialOk]). *)
Definition ws_open (h : Host) (ref : nat) (s : StreamState) (p : buffer) (dialOk : bool) : Host * bool :=
  match parseJsonPayload (parseText p) isWsOpenPayload with
  | None => (releaseStream (sendClose h (st_id s) 1008 "relay tunnel path is not allowed") (st_id s), true)
  | Some v =>
    let path := match jfield "path" v with Some (JStr t) => t | _ => "" end in
    if negb (isAllowedRelayWebSocketPath path) then
      (releaseStream (sendClose h (st_id s) 1008 "relay tunnel path is not allowed") (st_id s), true)
    else
      match loopbackQueryOf (jfield "query" v) with
      | None => (h, false)
      | Some q =>
        if dialOk then
          (put (did h [Dial ref ("ws://127.0.0.1:" +:+ localPort +:+ path +:+ q) (protocols_of v)
                  [("x-openchamber-relay-connection", connectionId); ("origin", origin)]])
             ref (with_ws s (mkLink true [])), true)
        else (h, false)
      end
  end.

Definition handleWsOpen (h : Host) (f : TunnelFrame) (dialOk : bool) : Host * bool :=
  match jget (streamId f) (streams h) with
  | Some ref =>
    (upstreamAbort (abortStream h ref "duplicate stream id") (streamId f) "duplicate stream id", true)
  | None =>
    let s := mkStream (streamId f) WsStream None None (Some (mkLink false [])) false in
    let '(h1, ref) := alloc h s in
    ws_open h1 ref s (payload f) dialOk
  end.

(** [false] when the assembler throws. *)
Definition handleWsMessage (h : Host) (f : TunnelFrame) : Host * bool :=
  match jget (streamId f) (streams h) with
  | None => (h, true)
  | Some ref =>
    match store h !! ref with
    | Some s =>
      match ws s with
      | None => (h, true)
      | Some w =>
        let '(parts, r) := assembler_push (assembler w) f in
        let h1 := put h ref (with_ws s (mkLink (socket w) parts)) in
        match r with
        | Throw _ => (h1, false)
        | Ok None => (h1, true)
        | Ok (Some m) =>
          (if socket w then did h1 [SocketSend ref (m_payload m) (bool_decide (m_type m = type_code WsBinary))]
           else h1, true)
        end
      end
    | None => (h, true)
    end
  end.

Definition handleWsClientClose (h : Host) (f : TunnelFrame) : Host :=
  match jget (streamId f) (streams h) with
  | None => h
  | Some ref =>
    match store h !! ref with
    | None => h
    | Some s =>
      let close := parseJsonPayload (parseText (payload f)) isWsClosePayload in
      let code := match close with
                  | Some v => match safe_int (jfield "code" v) with Some c => clampWsCloseCode c | None => 1000%Z end
                  | None => 1000%Z
                  end in
      let reason := match close with
                    | Some v => match jfield "reason" v with Some (JStr r) => r | _ => "" end
                    | None => ""
                    end in
      let h1 := if has_socket s then did h [SocketClose ref code reason] else h in
      releaseStream h1 (st_id s)
    end
  end.

(** *** Frames *)

Definition handleControlFrame (h : Host) (f : TunnelFrame) : Host :=
  if bool_decide (ftype f = type_code Ping) then sendFrame h (frame_of Pong STREAM_ZERO [])
  else if bool_decide (ftype f = type_code DeliveryAck) then
    (if flowControl then did h [AckCredit (payload f)] else h)
  else h.

Definition handleStreamFrame (h : Host) (f : TunnelFrame) (dialOk enqueueOk : bool) : Host * bool :=
  let isT t := bool_decide (ftype f = type_code t) in
  if isT HttpRequest then (handleHttpRequest h f, true)
  else if isT HttpBody then (handleHttpBody h f enqueueOk, true)
  else if isT StreamEnd then (handleStreamEnd h f, true)
  else if isT StreamAbort then (handleStreamAbort h f, true)
  else if isT WsOpen then handleWsOpen h f dialOk
  else if isT WsText || isT WsBinary then handleWsMessage h f
  else if isT WsClose then (handleWsClientClose h f, true)
  else (h, true).

Definition handleFrame (h : Host) (f : TunnelFrame) (dialOk enqueueOk : bool) : Host :=
  if disposed h then h
  else if bool_decide (streamId f = STREAM_ZERO) then handleControlFrame h f
  else if hasMore f && negb (isFragmentableType (ftype f)) then h
  else
    let '(h1, ok) := handleStreamFrame h f dialOk enqueueOk in
    if ok then h1 else failLegSafe h1 "tunnel frame handling failed".

(** *** Completions *)

Definition json_headers (h : headers_t) : json := JObj ((fun x => (x.1, JStr x.2)) <$> h).

Definition fetched (h : Host) (ref : nat) (status : Z) (headers : headers_t) (hasBody : bool) : Host :=
  match store h !! ref with
  | None => h
  | Some s =>
    let h1 := sendFrame h (frame_of HttpResponse (st_id s) (stringify
      (JObj [("status", JInt status); ("headers", json_headers (normalizeResponseHeaders headers))]))) in
    if hasBody then h1
    else releaseStream (sendFrame h1 (frame_of StreamEnd (st_id s) [])) (st_id s)
  end.

Definition fetchFailed (h : Host) (ref : nat) : Host :=
  match store h !! ref with
  | None => h
  | Some s => failStream h (st_id s) "loopback request failed after transfer"
  end.

Definition responseFailed (h : Host) (ref : nat) : Host :=
  match store h !! ref with
  | None => h
  | Some s => upstreamAbort (abortStream h ref "loopback response failed") (st_id s) "loopback response failed"
  end.

Definition responseChunk (h : Host) (ref : nat) (data : buffer) : Host :=
  match store h !! ref with
  | None => h
  | Some s =>
    match chunkPayload data responseChunkBytes with
    | Throw _ => responseFailed h ref
    | Ok pieces => fold_left (fun acc piece => sendFrame acc (frame_of HttpBody (st_id s) piece)) pieces h
    end
  end.

Definition responseEnd (h : Host) (ref : nat) : Host :=
  match store h !! ref with
  | None => h
  | Some s => releaseStream (sendFrame h (frame_of StreamEnd (st_id s) [])) (st_id s)
  end.

(** The deadline finds the stream by id again. *)
Definition deadlineFires (h : Host) (ref : nat) : Host :=
  match store h !! ref with
  | Some s =>
    match body s with
    | Some b =>
      if RelayBody.deadlineTimer b then
        failStream (update_body h ref (pure_body RelayBody.clearDeadline)) (st_id s)
          "tunnel request body delivery deadline"
      else h
    | None => h
    end
  | None => h
  end.

Definition socketOpened (h : Host) (ref : nat) (protocol : string) : Host :=
  match store h !! ref with
  | None => h
  | Some s => sendFrame h (frame_of WsOpened (st_id s) (stringify
      (JObj (if bool_decide (protocol = "") then [] else [("protocol", JStr protocol)]))))
  end.

(** One link of a pump: send the next fragment. *)
Definition pump_step (h : Host) (i : nat) : Host :=
  match pumps h !! i with
  | Some (f :: fs) => sendFrame (set_pumps h (<[i := fs]> (pumps h))) f
  | _ => h
  end.

(** A socket message starts its own pump, which runs up to its first [await]. *)
Definition socketMessage (h : Host) (ref : nat) (data : buffer) (isBinary : bool) : Host :=
  match store h !! ref with
  | None => h
  | Some s =>
    match encodeFragmentedMessage (if isBinary then WsBinary else WsText) (st_id s) data
            DEFAULT_WS_CHUNK_BYTES with
    | Throw _ => did h [UnhandledRejection ref]
    | Ok raws =>
      let fs := omap (fun raw => match decodeTunnelFrame raw with Ok f => Some f | Throw _ => None end) raws in
      pump_step (set_pumps h (pumps h ++ [fs])) (length (pumps h))
    end
  end.

Definition socketClosed (h : Host) (ref : nat) (code : Z) (reason : string) : Host :=
  match store h !! ref with
  | None => h
  | Some s => releaseStream (sendClose h (st_id s) (clampWsCloseCode code) reason) (st_id s)
  end.

Definition socketFailed (h : Host) (ref : nat) : Host :=
  match store h !! ref with
  | None => h
  | Some s => failStream h (st_id s) "loopback websocket failed"
  end.

Inductive HostEvent : Type :=
| EvFrame (f : TunnelFrame) (dialOk enqueueOk : bool)
| EvFetched (ref : nat) (status : Z) (headers : headers_t) (hasBody : bool)
| EvFetchFailed (ref : nat)
| EvChunk (ref : nat) (data : buffer)
| EvResponseEnd (ref : nat)
| EvResponseFailed (ref : nat)
| EvDeadline (ref : nat)
| EvSocketOpened (ref : nat) (protocol : string)
| EvSocketMessage (ref : nat) (data : buffer) (isBinary : bool)
| EvPump (i : nat)
| EvSocketClosed (ref : nat) (code : Z) (reason : string)
| EvSocketFailed (ref : nat)
| EvSchedulerFailed
| EvDispose.

Definition host_step (h : Host) (ev : HostEvent) : Host :=
  match ev with
  | EvFrame f dialOk enqueueOk => handleFrame h f dialOk enqueueOk
  | EvFetched ref status headers hasBody => fetched h ref status headers hasBody
  | EvFetchFailed ref => fetchFailed h ref
  | EvChunk ref data => responseChunk h ref data
  | EvResponseEnd ref => responseEnd h ref
  | EvResponseFailed ref => responseFailed h ref
  | EvDeadline ref => deadlineFires h ref
  | EvSocketOpened ref protocol => socketOpened h ref protocol
  | EvSocketMessage ref data isBinary => socketMessage h ref data isBinary
  | EvPump i => pump_step h i
  | EvSocketClosed ref code reason => socketClosed h ref code reason
  | EvSocketFailed ref => socketFailed h ref
  | EvSchedulerFailed => failLegSafe h "downstream scheduler failed"
  | EvDispose => dispose h
  end.

Definition host_run (h : Host) (evs : list HostEvent) : Host := fold_left host_step evs h.

End host.

(** ** Invariants *)

Section invariants.
  Context (localPort connectionId : string).

Definition origin_of : string := "http://127.0.0.1:" +:+ localPort.

(** What may be dialed: an allowed path on the loopback port, with the leg's own
    origin and connection id. *)
Definition effect_ok (e : HostEffect) : Prop :=
  match e with
  | Fetch _ url _ hs _ =>
    exists p q, isAllowedRelayHttpPath p = true /\ url = origin_of +:+ p +:+ q
      /\ jget "origin" hs = Some origin_of
      /\ jget "x-openchamber-relay-connection" hs = Some connectionId
  | Dial _ url _ hs =>
    exists p q, isAllowedRelayWebSocketPath p = true
      /\ url = "ws://127.0.0.1:" +:+ localPort +:+ p +:+ q
      /\ hs = [("x-openchamber-relay-connection", connectionId); ("origin", origin_of)]
  | _ => True
  end.

Definition failures (es : list HostEffect) : nat :=
  length (omap (fun e => match e with ChannelFailure r => Some r | _ => None end) es).

Definition stream_ok (s : StreamState) : Prop :=
  forall hd, requestHead s = Some hd -> isAllowedRelayHttpPath (path hd) = true.

Definition store_ok (h : Host) : Prop := Forall stream_ok (store h).

(** The change a step makes: only lawful effects, and a channel failure only
    together with the disposal. *)
Definition lawful (h h' : Host) : Prop :=
  store_ok h ->
  store_ok h' /\ exists es, host_log h' = host_log h ++ es /\ Forall effect_ok es
    /\ failures es + Nat.b2n (disposed h) <= Nat.b2n (disposed h').

Lemma lawful_refl h : lawful h h.
Proof. intros H. split; [done|]. exists []. by rewrite app_nil_r. Qed.

Lemma failures_app es fs : failures (es ++ fs) = failures es + failures fs.
Proof. unfold failures. by rewrite omap_app, length_app. Qed.

Lemma lawful_trans h1 h2 h3 : lawful h1 h2 -> lawful h2 h3 -> lawful h1 h3.
Proof.
  intros H12 H23 H1. destruct (H12 H1) as (H2 & es & E1 & F1 & N1).
  destruct (H23 H2) as (H3 & fs & E2 & F2 & N2). split; [done|]. exists (es ++ fs).
  rewrite E2, E1, app_assoc, failures_app. split_and!; [done|by apply Forall_app|lia].
Qed.

Lemma lawful_did h es : Forall effect_ok es -> failures es = 0 -> lawful h (did h es).
Proof. intros He Hf H. split; [done|]. exists es. cbn. by rewrite Hf. Qed.

Lemma lawful_did1 h e : effect_ok e -> failures [e] = 0 -> lawful h (did h [e]).
Proof. intros. by apply lawful_did; [constructor; [|constructor]|]. Qed.

Lemma lawful_streams h m : lawful h (set_streams h m).
Proof. intros H. split; [done|]. exists []. by rewrite app_nil_r. Qed.

Lemma lawful_pumps h ps : lawful h (set_pumps h ps).
Proof. intros H. split; [done|]. exists []. by rewrite app_nil_r. Qed.

Lemma lawful_put h ref s s' :
  store h !! ref = Some s -> requestHead s' = requestHead s -> lawful h (put h ref s').
Proof.
  intros Hs Hh H. split.
  - cbn. apply Forall_insert; [done|]. intros hd Hd. rewrite Hh in Hd.
    unfold store_ok in H. rewrite Forall_lookup in H. by apply (H ref s).
  - exists []. by rewrite app_nil_r.
Qed.

Lemma lawful_alloc h s : stream_ok s -> lawful h (alloc h s).1.
Proof.
  intros Hs H. split; [cbn; apply Forall_app; split; [done|by repeat constructor]|].
  exists []. by rewrite app_nil_r.
Qed.

Lemma lawful_sendFrame h f : lawful h (sendFrame h f).
Proof. unfold sendFrame. destruct (disposed h); [apply lawful_refl|by apply lawful_did1]. Qed.

Lemma lawful_sendFrameNow h f : lawful h (sendFrameNow h f).
Proof. unfold sendFrameNow. destruct (disposed h); [apply lawful_refl|by apply lawful_did1]. Qed.

Lemma lawful_release h sid : lawful h (releaseStream h sid).
Proof. unfold releaseStream. eapply lawful_trans; [by apply (lawful_did1 _ (CancelQueue sid))|apply lawful_streams]. Qed.

Lemma body_effects_ok ref es : Forall effect_ok (BodyStream ref <$> es) /\ failures (BodyStream ref <$> es) = 0.
Proof. induction es as [|e es [IH1 IH2]]; [by split; [constructor|]|]. split; [by constructor|done]. Qed.

Lemma lawful_abort h ref reason : lawful h (abortStream h ref reason).
Proof.
  unfold abortStream. destruct (store h !! ref) as [s|] eqn:Hs; [|apply lawful_refl].
  destruct (aborted s); [apply lawful_refl|].
  destruct (match body s with Some b => _ | None => _ end) as [b es] eqn:Eb.
  assert (Forall effect_ok es /\ failures es = 0) as [He1 He2].
  { destruct (body s) as [b0|]; [|by simplify_eq].
    destruct (RelayBody.fail _ _). simplify_eq. apply body_effects_ok. }
  eapply lawful_trans; [by apply (lawful_put h ref s (with_aborted s b))|].
  eapply lawful_trans; [apply (lawful_did _ (AbortFetch ref :: es)); [by constructor|done]|].
  eapply lawful_trans; [|apply lawful_release].
  destruct (has_socket s); [by apply lawful_did1|apply lawful_refl].
Qed.

Lemma lawful_mark h : lawful (mark_disposed h) (dispose h).
Proof.
  unfold dispose. eapply lawful_trans; [|by apply lawful_did1].
  eapply lawful_trans; [|apply lawful_streams]. generalize (mark_disposed h).
  induction (jvals (streams h)) as [|ref refs IH]; intros h1; cbn; [apply lawful_refl|].
  eapply lawful_trans; [apply lawful_abort|apply IH].
Qed.

Lemma lawful_dispose h : lawful h (dispose h).
Proof.
  intros H. destruct (lawful_mark h H) as (H1 & es & E & F & N). split; [done|]. exists es.
  split_and!; [done|done|]. cbn in N. destruct (disposed h); cbn; lia.
Qed.

Lemma dispose_disposed h : disposed (dispose h) = true.
Proof.
  unfold dispose. cbn.
  assert (forall refs h1, disposed h1 = true ->
    disposed (fold_left (fun acc ref => abortStream acc ref "tunnel disposed") refs h1) = true) as H.
  { induction refs as [|ref refs IH]; intros h1 H1; [done|]. cbn. apply IH. unfold abortStream.
    destruct (store h1 !! ref) as [s|]; [|done]. destruct (aborted s); [done|].
    destruct (match body s with Some b => _ | None => _ end). by destruct (has_socket s). }
  by apply H.
Qed.

Lemma lawful_failLeg h reason : lawful h (failLegSafe h reason).
Proof.
  unfold failLegSafe. destruct (disposed h) eqn:Hd; [apply lawful_refl|]. intros H.
  pose proof (lawful_mark h H) as (H1 & es & E & F & N). split; [done|].
  exists (es ++ [ChannelFailure reason]). rewrite dispose_disposed in N.
  change (disposed (did (dispose h) _)) with (disposed (dispose h)).
  change (host_log (did (dispose h) _)) with (host_log (dispose h) ++ [ChannelFailure reason]).
  rewrite dispose_disposed, Hd, E, app_assoc, failures_app.
  change (failures [ChannelFailure reason]) with 1. cbn in N |- *.
  split_and!; [done|apply Forall_app; split; [done|by repeat constructor]|lia].
Qed.

Section handlers.
  Context (parseText : buffer -> option json) (stringify : json -> buffer)
    (urlSearchParams : headers_t -> string) (flowControl : bool) (responseChunkBytes : Z).

Lemma lawful_upstreamAbort h sid reason : lawful h (upstreamAbort stringify h sid reason).
Proof. apply lawful_sendFrameNow. Qed.

Lemma lawful_failStream h sid reason : lawful h (failStream stringify h sid reason).
Proof.
  unfold failStream. destruct (jget sid (streams h)); [|apply lawful_refl].
  eapply lawful_trans; [apply lawful_abort|apply lawful_upstreamAbort].
Qed.

Lemma lawful_refuse h sid status e r : lawful h (refuseStream stringify h sid status e r).
Proof.
  unfold refuseStream. cbn zeta. eapply lawful_trans; [|apply lawful_sendFrame].
  eapply lawful_trans; apply lawful_sendFrame.
Qed.

Lemma header_get_set n v h : n <> "__proto__" -> jget n (header_set n v h) = Some v.
Proof. intros Hn. unfold header_set. rewrite bool_decide_false by done. apply jget_set_eq. Qed.

Lemma header_get_other n m v h : n <> m -> jget n (header_set m v h) = jget n h.
Proof. intros Hn. unfold header_set. case_bool_decide; [done|]. by apply jget_set_ne. Qed.

Lemma lawful_runRequest h ref head b :
  isAllowedRelayHttpPath (path head) = true ->
  lawful h (runRequest urlSearchParams localPort connectionId h ref head b).
Proof.
  intros Hp. unfold runRequest, shape_request.
  destruct (loopbackQueryOf _ (query head)) as [q|]; cbn; [|by apply lawful_did1].
  destruct (entries (headers head)) as [hs|]; cbn; [|by apply lawful_did1].
  apply lawful_did1; [|done]. exists (path head), q. split_and!; [done|done| |].
  - by apply header_get_set.
  - rewrite header_get_other by done. by apply header_get_set.
Qed.

Lemma lawful_update_body h ref f : lawful h (update_body h ref f).
Proof.
  unfold update_body. destruct (store h !! ref) as [s|] eqn:Hs; [|apply lawful_refl].
  destruct (body s) as [b|]; [|apply lawful_refl]. destruct (f b) as [b1 es].
  eapply lawful_trans; [by apply (lawful_put h ref s (with_body s b1))|].
  destruct (body_effects_ok ref es). by apply lawful_did.
Qed.

Lemma lawful_http h f :
  lawful h (handleHttpRequest parseText stringify urlSearchParams localPort connectionId h f).
Proof.
  unfold handleHttpRequest. destruct (jget _ _) as [ref|].
  { eapply lawful_trans; [apply lawful_abort|apply lawful_upstreamAbort]. }
  destruct (parseJsonPayload _ _) as [v|]; [|apply lawful_refuse]. cbn zeta.
  destruct (isAllowedRelayHttpPath (path (http_of v))) eqn:Hp; cbn [negb]; [|apply lawful_refuse].
  match goal with |- context [alloc h ?s] =>
    pose proof (lawful_alloc h s ltac:(intros hd [= <-]; exact Hp)) as Ha; destruct (alloc h s) as [h1 ref] end.
  eapply lawful_trans; [exact Ha|]. destruct (hasBody _); [apply lawful_update_body|by apply lawful_runRequest].
Qed.

Lemma stored_head_ok h ref s hd :
  store_ok h -> store h !! ref = Some s -> requestHead s = Some hd -> isAllowedRelayHttpPath (path hd) = true.
Proof. unfold store_ok. rewrite Forall_lookup. intros H Hs Hh. by apply (H ref s Hs). Qed.

Lemma lawful_goLive h ref hd b :
  isAllowedRelayHttpPath (path hd) = true ->
  lawful h (goLive urlSearchParams localPort connectionId h ref hd b).
Proof.
  intros Hp. unfold goLive. cbn zeta.
  eapply lawful_trans; [apply lawful_update_body|by apply lawful_runRequest].
Qed.

Lemma lawful_httpBody h f ok : lawful h (handleHttpBody urlSearchParams localPort connectionId h f ok).
Proof.
  unfold handleHttpBody. destruct (jget _ _) as [ref|]; [|apply lawful_refl].
  destruct (store h !! ref) as [s|] eqn:Hs; [|apply lawful_refl].
  destruct (kind s), (body s) as [b|], (aborted s); try apply lawful_refl. cbn zeta.
  set (h1 := armBodyDeadline _ _). assert (lawful h h1) as H1.
  { eapply lawful_trans; apply lawful_update_body. }
  destruct (RelayBody.crossed b); [eapply lawful_trans; [exact H1|apply lawful_update_body]|].
  set (h2 := update_body h1 _ _). assert (lawful h h2) as H2.
  { eapply lawful_trans; [exact H1|apply lawful_update_body]. }
  destruct (bool_decide _); [|exact H2]. destruct (requestHead s) as [hd|] eqn:Hh; [|exact H2].
  intros Hok. refine (lawful_trans _ _ _ H2 (lawful_goLive _ _ _ _ _) Hok).
  by apply (stored_head_ok h ref s).
Qed.

Lemma lawful_streamEnd h f : lawful h (handleStreamEnd stringify urlSearchParams localPort connectionId h f).
Proof.
  unfold handleStreamEnd. destruct (jget _ _) as [ref|]; [|apply lawful_refl].
  destruct (store h !! ref) as [s|] eqn:Hs; [|apply lawful_refl].
  assert (lawful h (releaseStream (if has_socket s then did h [SocketClose ref 1000 "stream end"] else h) (st_id s)))
    as Hrel.
  { eapply lawful_trans; [|apply lawful_release]. destruct (has_socket s); [by apply lawful_did1|apply lawful_refl]. }
  destruct (kind s), (body s) as [b|] eqn:Hb, (aborted s); try exact Hrel. unfold finishRequestBody. rewrite Hb.
  destruct (requestHead s) as [hd|] eqn:Hh; [|apply lawful_refl]. cbn zeta.
  destruct (RelayBody.crossed b); [eapply lawful_trans; apply lawful_update_body|].
  destruct (bool_decide _); [eapply lawful_trans; [apply lawful_update_body|apply lawful_failStream]|].
  intros Hok. refine (lawful_trans _ _ _ (lawful_trans _ _ _ (lawful_update_body _ _ _) (lawful_release _ _))
    (lawful_runRequest _ _ _ _ _) Hok). by apply (stored_head_ok h ref s).
Qed.

Lemma lawful_streamAbort h f : lawful h (handleStreamAbort h f).
Proof. unfold handleStreamAbort. destruct (jget _ _); [apply lawful_abort|apply lawful_release]. Qed.

Lemma lawful_sendClose h sid code reason : lawful h (sendClose stringify h sid code reason).
Proof. apply lawful_sendFrameNow. Qed.

Lemma lawful_wsOpen h f ok :
  lawful h (handleWsOpen parseText stringify urlSearchParams localPort connectionId h f ok).1.
Proof.
  unfold handleWsOpen. destruct (jget _ _) as [ref|]; cbn [fst].
  { eapply lawful_trans; [apply lawful_abort|apply lawful_upstreamAbort]. }
  cbn zeta. set (s := mkStream _ _ _ _ _ _).
  assert (stream_ok s) as Hs by by intros hd. pose proof (lawful_alloc h s Hs) as Ha.
  assert (store (alloc h s).1 !! (alloc h s).2 = Some s) as Hl.
  { cbn. rewrite lookup_app_r, Nat.sub_diag by done. done. }
  destruct (alloc h s) as [h1 ref]. cbn [fst snd] in *.
  eapply lawful_trans; [exact Ha|]. unfold ws_open.
  assert (lawful h1 (releaseStream (sendClose stringify h1 (st_id s) 1008 "relay tunnel path is not allowed") (st_id s)))
    as Href by (eapply lawful_trans; [apply lawful_sendClose|apply lawful_release]).
  destruct (parseJsonPayload _ _) as [v|]; [|exact Href]. cbn zeta.
  destruct (isAllowedRelayWebSocketPath _) eqn:Hp; cbn [negb]; [|exact Href].
  destruct (loopbackQueryOf _ _) as [q|]; [|apply lawful_refl].
  destruct ok; [|apply lawful_refl]. cbn [fst].
  match goal with |- lawful _ (put (did _ [?e]) _ _) => assert (effect_ok e) as He end.
  { cbn. eexists _, q. split_and!; [exact Hp|done|done]. }
  eapply lawful_trans; [by apply lawful_did1|]. by apply (lawful_put _ _ s).
Qed.

Lemma lawful_wsMessage h f : lawful h (handleWsMessage h f).1.
Proof.
  unfold handleWsMessage. destruct (jget _ _) as [ref|]; [|apply lawful_refl].
  destruct (store h !! ref) as [s|] eqn:Hs; [|apply lawful_refl].
  destruct (ws s) as [w|]; [|apply lawful_refl].
  destruct (assembler_push (assembler w) f) as [parts r].
  assert (lawful h (put h ref (with_ws s (mkLink (socket w) parts)))) as Hp by by apply (lawful_put _ _ s).
  cbn zeta. destruct r as [[m|]|]; cbn [fst]; [|exact Hp|exact Hp].
  destruct (socket w); [|exact Hp]. eapply lawful_trans; [exact Hp|by apply lawful_did1].
Qed.

Lemma lawful_wsClose h f : lawful h (handleWsClientClose parseText h f).
Proof.
  unfold handleWsClientClose. destruct (jget _ _) as [ref|]; [|apply lawful_refl].
  destruct (store h !! ref) as [s|]; [|apply lawful_refl]. cbn zeta.
  eapply lawful_trans; [|apply lawful_release]. destruct (has_socket s); [by apply lawful_did1|apply lawful_refl].
Qed.

Lemma lawful_streamFrame h f d e :
  lawful h (handleStreamFrame parseText stringify urlSearchParams localPort connectionId h f d e).1.
Proof.
  unfold handleStreamFrame. cbn zeta.
  repeat match goal with |- context [if bool_decide ?P then _ else _] => destruct (bool_decide P) end;
    cbn [orb fst];
    auto using lawful_refl, lawful_http, lawful_httpBody, lawful_streamEnd, lawful_streamAbort, lawful_wsClose,
      lawful_wsOpen.
  all: repeat match goal with |- context [if ?b then _ else _] => destruct b end; cbn [fst];
    auto using lawful_refl, lawful_wsMessage, lawful_wsClose.
Qed.

Lemma lawful_frame h f d e :
  lawful h (handleFrame parseText stringify urlSearchParams localPort connectionId flowControl h f d e).
Proof.
  unfold handleFrame. destruct (disposed h) eqn:Hd; [apply lawful_refl|].
  destruct (bool_decide _).
  { unfold handleControlFrame. destruct (bool_decide _); [apply lawful_sendFrame|].
    destruct (bool_decide _); [|apply lawful_refl]. destruct flowControl; [by apply lawful_did1|apply lawful_refl]. }
  destruct (_ && _); [apply lawful_refl|]. pose proof (lawful_streamFrame h f d e) as H.
  destruct (handleStreamFrame _ _ _ _ _ h f d e) as [h1 ok]. cbn [fst] in H.
  destruct ok; [exact H|]. eapply lawful_trans; [exact H|apply lawful_failLeg].
Qed.

Lemma lawful_frames h fs : lawful h (fold_left sendFrame fs h).
Proof.
  revert h. induction fs as [|f fs IH]; intros h; [apply lawful_refl|].
  eapply lawful_trans; [apply lawful_sendFrame|apply IH].
Qed.

Lemma lawful_responseFailed h ref : lawful h (responseFailed stringify h ref).
Proof.
  unfold responseFailed. destruct (store h !! ref); [|apply lawful_refl].
  eapply lawful_trans; [apply lawful_abort|apply lawful_upstreamAbort].
Qed.

Lemma lawful_pump_step h i : lawful h (pump_step h i).
Proof.
  unfold pump_step. destruct (pumps h !! i) as [[|f fs]|]; try apply lawful_refl.
  eapply lawful_trans; [apply lawful_pumps|apply lawful_sendFrame].
Qed.

Lemma lawful_step h ev :
  lawful h (host_step parseText stringify urlSearchParams localPort connectionId flowControl responseChunkBytes h ev).
Proof.
  destruct ev as [f d e|ref st hs hb|ref|ref data|ref|ref|ref|ref p|ref data b|i|ref code r|ref| |];
    cbn [host_step]; auto using lawful_frame, lawful_responseFailed, lawful_pump_step, lawful_failLeg, lawful_dispose.
  - unfold fetched. destruct (store h !! ref); [|apply lawful_refl]. cbn zeta.
    destruct hb; [apply lawful_sendFrame|].
    eapply lawful_trans; [|apply lawful_release]. eapply lawful_trans; apply lawful_sendFrame.
  - unfold fetchFailed. destruct (store h !! ref); [apply lawful_failStream|apply lawful_refl].
  - unfold responseChunk. destruct (store h !! ref) as [s|]; [|apply lawful_refl].
    destruct (chunkPayload _ _) as [ps|]; [|apply lawful_responseFailed].
    replace (fold_left _ ps h) with (fold_left sendFrame (frame_of HttpBody (st_id s) <$> ps) h);
      [apply lawful_frames|]. revert h. induction ps as [|p ps IH]; intros h; [done|apply IH].
  - unfold responseEnd. destruct (store h !! ref); [|apply lawful_refl].
    eapply lawful_trans; [apply lawful_sendFrame|apply lawful_release].
  - unfold deadlineFires. destruct (store h !! ref) as [s|]; [|apply lawful_refl].
    destruct (body s) as [b|]; [|apply lawful_refl].
    destruct (RelayBody.deadlineTimer b); [|apply lawful_refl].
    eapply lawful_trans; [apply lawful_update_body|apply lawful_failStream].
  - unfold socketOpened. destruct (store h !! ref); [apply lawful_sendFrame|apply lawful_refl].
  - unfold socketMessage. destruct (store h !! ref) as [s|]; [|apply lawful_refl].
    destruct (encodeFragmentedMessage _ _ _ _); [|by apply lawful_did1]. cbn zeta.
    eapply lawful_trans; [apply lawful_pumps|apply lawful_pump_step].
  - unfold socketClosed. destruct (store h !! ref); [|apply lawful_refl].
    eapply lawful_trans; [apply lawful_sendClose|apply lawful_release].
  - unfold socketFailed. destruct (store h !! ref); [apply lawful_failStream|apply lawful_refl].
Qed.

Lemma lawful_run h evs :
  lawful h (host_run parseText stringify urlSearchParams localPort connectionId flowControl responseChunkBytes h evs).
Proof.
  unfold host_run. revert h. induction evs as [|ev evs IH]; intros h; [apply lawful_refl|].
  eapply lawful_trans; [apply lawful_step|apply IH].
Qed.

End handlers.
End invariants.

(** ** Properties *)

(** What the tunnel dials: over any run, every loopback request goes to the local
    port with a path the HTTP allowlist takes and every dialed socket with one the
    WebSocket allowlist takes (as spelled: dot_segments_pass), both with the leg's own
    origin and connection id; and the channel is failed at most once, never without
    being disposed. *)
Theorem only_allowed_paths_are_dialed (parseText : buffer -> option json) (stringify : json -> buffer)
    (urlSearchParams : headers_t -> string) (localPort connectionId : string) (flowControl : bool)
    (chunk : Z) (evs : list HostEvent) :
  let h := host_run parseText stringify urlSearchParams localPort connectionId flowControl chunk newHost evs in
  (forall e, e ∈ host_log h -> effect_ok localPort connectionId e)
  /\ failures (host_log h) <= 1
  /\ (disposed h = false -> failures (host_log h) = 0).
Proof.
  intros h. destruct (lawful_run localPort connectionId parseText stringify urlSearchParams flowControl chunk
    newHost evs (Forall_nil_2 _)) as (_ & es & E & F & N).
  fold h in E, N. cbn in E, N. rewrite E. split_and!.
  - by apply Forall_forall.
  - destruct (disposed h); cbn in N; lia.
  - intros Hd. rewrite Hd in N. cbn in N. lia.
Qed.

(** A buffered request gives up its stream before it is sent: once its body
    has ended, a loopback request that fails leaves the client without any
    answer; nothing is sent, aborted or reported. *)
Theorem buffered_request_failure_is_silent (stringify : json -> buffer) (urlSearchParams : headers_t -> string)
    (localPort connectionId : string) (h : Host) (f : TunnelFrame) (ref : nat) (s : StreamState)
    (b : RelayBody.TunnelRequestBody) (hd : HttpRequestPayload) :
  jwf (streams h) -> jget (streamId f) (streams h) = Some ref -> store h !! ref = Some s ->
  st_id s = streamId f -> kind s = HttpStream -> body s = Some b -> requestHead s = Some hd ->
  aborted s = false -> RelayBody.crossed b = false -> RelayBody.framesReceived b <> 0%Z ->
  let h1 := handleStreamEnd stringify urlSearchParams localPort connectionId h f in
  fetchFailed stringify h1 ref = h1.
Proof.
  intros Hw Hg Hs Hid Hk Hb Hh Ha Hc Hf h1.
  assert (jget (streamId f) (streams h1) = None) as Hgone.
  { unfold h1, handleStreamEnd. rewrite Hg, Hs, Hk, Hb, Ha. unfold finishRequestBody.
    rewrite Hb, Hh, Hc, bool_decide_false by done. unfold runRequest, update_body. rewrite Hs, Hb. cbn.
    rewrite Hid. destruct (shape_request _ _ _ _) as [[]|]; cbn; by apply jget_del_eq. }
  unfold fetchFailed. destruct (store h1 !! ref) as [s1|] eqn:Hs1; [|done].
  assert (st_id s1 = streamId f) as Hid1.
  { unfold h1, handleStreamEnd in Hs1. rewrite Hg, Hs, Hk, Hb, Ha in Hs1. unfold finishRequestBody in Hs1.
    rewrite Hb, Hh, Hc, bool_decide_false in Hs1 by done. unfold runRequest, update_body in Hs1.
    rewrite Hs, Hb in Hs1. cbn in Hs1.
    assert (ref < length (store h)) as Hlt by by eapply lookup_lt_Some.
    destruct (shape_request _ _ _ _) as [[]|]; cbn in Hs1; rewrite list_lookup_insert_eq in Hs1 by done;
      by injection Hs1 as <-. }
  unfold failStream. by rewrite Hid1, Hgone.
Qed.

Definition demo_parse (b : buffer) : option json :=
  Some (JObj [("method", JStr "post"); ("path", JStr "/api/session"); ("headers", JObj []); ("hasBody", JBool true)]).

Definition demo_host : Host :=
  host_run demo_parse (fun _ => []) (fun _ => "") "4096" "conn" true 8192 newHost
    [EvFrame (mkFrame 1 1 false []) true true; EvFrame (mkFrame 2 1 false [x61]) true true].

Lemma buffered_request_failure_is_silent_witness :
  let h1 := handleStreamEnd (fun _ => []) (fun _ => "") "4096" "conn" demo_host (mkFrame 4 1 false []) in
  fetchFailed (fun _ => []) h1 0 = h1.
Proof.
  assert (exists s b hd, store demo_host !! 0 = Some s /\ st_id s = 1%Z /\ kind s = HttpStream /\ body s = Some b
    /\ requestHead s = Some hd /\ aborted s = false /\ RelayBody.crossed b = false
    /\ RelayBody.framesReceived b <> 0%Z) as (s & b & hd & H1 & H2 & H3 & H4 & H5 & H6 & H7 & H8).
  { do 3 eexists. split; [vm_compute; reflexivity|]. repeat split; try reflexivity. discriminate. }
  apply (buffered_request_failure_is_silent (fun _ => []) (fun _ => "") "4096" "conn" demo_host
    (mkFrame 4 1 false []) 0 s b hd); try assumption.
  - vm_compute. apply NoDup_singleton.
  - vm_compute. reflexivity.
Defined.

(** The request guard lets a payload without headers through, but shaping the
    request then throws outside any handler: the stream stays open, unanswered,
    behind an unhandled rejection. *)
Theorem headerless_request_is_unhandled (parseText : buffer -> option json) (stringify : json -> buffer)
    (urlSearchParams : headers_t -> string) (localPort connectionId : string)
    (h : Host) (f : TunnelFrame) (v : json) :
  jget (streamId f) (streams h) = None -> parseText (payload f) = Some v -> isHttpRequestPayload v = true ->
  isAllowedRelayHttpPath (path (http_of v)) = true -> hasBody (http_of v) = false -> jfield "headers" v = None ->
  let h1 := handleHttpRequest parseText stringify urlSearchParams localPort connectionId h f in
  host_log h1 = host_log h ++ [UnhandledRejection (length (store h))]
  /\ jget (streamId f) (streams h1) = Some (length (store h)).
Proof.
  intros Hg Hp Hv Hpath Hb Hh h1. unfold h1, handleHttpRequest. rewrite Hg, Hp. unfold parseJsonPayload. cbn [mbind option_bind].
  rewrite Hv. cbn zeta. rewrite Hpath, Hb. cbn [negb].
  match goal with |- context [alloc h ?s] => set (s0 := s) end.
  change (alloc h s0) with (mkHost (jset (st_id s0) (length (store h)) (streams h)) (store h ++ [s0]) (disposed h)
    (pumps h) (host_log h), length (store h)). cbv iota beta.
  unfold runRequest, shape_request.
  assert (headers (http_of v) = None) as -> by exact Hh.
  destruct (loopbackQueryOf _ _); cbn; by rewrite jget_set_eq.
Qed.

Lemma headerless_request_is_unhandled_witness :
  let v := JObj [("method", JStr "GET"); ("path", JStr "/api/session")] in
  let h1 := handleHttpRequest (fun _ => Some v) (fun _ => []) (fun _ => "") "4096" "conn" newHost (mkFrame 1 1 false []) in
  host_log h1 = [UnhandledRejection 0] /\ jget 1%Z (streams h1) = Some 0.
Proof.
  intros v. apply (headerless_request_is_unhandled (fun _ => Some v) (fun _ => []) (fun _ => "") "4096" "conn"
    newHost (mkFrame 1 1 false []) v); vm_compute; reflexivity.
Defined.

(** Dot segments are not resolved before the allowlist test. *)
Lemma dot_segments_pass : isAllowedRelayHttpPath "/api/../internal" = true.
Proof. reflexivity. Qed.

(** The origin header is replaced under its lower-case name only. *)
Lemma capitalised_origin_survives :
  shape_request (fun _ => "") "4096" "conn"
    (mkHttp "GET" "/api/x" None (Some (JObj [("Origin", JStr "http://evil.example")])) false)
  = Some ("http://127.0.0.1:4096/api/x",
     [("Origin", "http://evil.example"); ("x-openchamber-relay-connection", "conn");
      ("origin", "http://127.0.0.1:4096")]).
Proof. reflexivity. Qed.

(** Two socket messages of two fragments each, the second arriving while the
    first waits for credit: the fragments interleave, and the receiver's
    assembler joins the second message's head into the first. *)
Definition two_fragments (b : byte) : buffer := replicate (Z.to_nat (DEFAULT_WS_CHUNK_BYTES + 1)) b.

Definition interleaved_frames : list TunnelFrame :=
  let open v := Some (JObj [("path", JStr "/api/event/ws")]) in
  let h := host_run open (fun _ => []) (fun _ => "") "4096" "conn" true 8192 newHost
    [EvFrame (mkFrame 6 1 false []) true true; EvSocketMessage 0 (two_fragments x61) true;
     EvSocketMessage 0 (two_fragments x62) true; EvPump 0; EvPump 1] in
  omap (fun e => match e with QueueFrame f => Some f | _ => None end) (host_log h).

Definition assembled_sizes (frames : list TunnelFrame) : list Z :=
  omap (fun r => match r with Ok (Some m) => Some (Zlen (m_payload m)) | _ => None end) (assembler_run [] frames).2.

Lemma concurrent_messages_corrupt :
  assembled_sizes interleaved_frames = [2 * DEFAULT_WS_CHUNK_BYTES + 1; 1]%Z.
Proof. vm_compute. reflexivity. Qed.
