(* ===== verification/RelayLeg.v ===== *)
(** The host end of a relay leg (server/lib/relay/leg-host.ts): what joins the batch
    containers, the fragment assembler, the dispatcher and the outbound batcher of one
    encrypted connection. The client end of the theorem about a whole tunnel is the
    client's own batcher (RelayClient) and the seal of RelayCrypto.

    A step is one turn of the ingress chain (a plaintext is opened, or one of its frames
    handled), a callback of the dispatcher, a call of the dispatcher's carrier, or the
    window timer of the batcher. [send] may reject from any of its calls on: its outcome
    is how many of them succeed. *)

From S2P Require Import Prelude JsMap JsValue Bytes RelayCrypto RelayCodec RelayBatch RelayClient RelayDispatcher.

Inductive LegEffect :=
| ToHost (frame : TunnelFrame)
| Sent (message : buffer)
| UnhandledFlush
| Reported (reason : string).

Record Leg := mkLeg {
  failed : bool;
  assembler : parts_map;
  batcher : option Batcher;
  leg_host : Host;
  ingressChain : list buffer;
  ingest : option (list buffer);
  leg_log : list LegEffect;
}.

(** [legBatchOptions()] gives the window; the caps are the defaults. *)
Definition new_leg (batch : bool) (windowMs now : Z) : Leg :=
  mkLeg false [] (if batch then Some (newBatcher {| windowMs := windowMs; maxBatchBytes := DEFAULT_MAX_BATCH_BYTES; maxBatchFrames := DEFAULT_MAX_BATCH_FRAMES |} now) else None)
    newHost [] None [].

Definition set_failed (l : Leg) : Leg := mkLeg true (assembler l) (batcher l) (leg_host l) (ingressChain l) (ingest l) (leg_log l).
Definition set_assembler (a : parts_map) (l : Leg) : Leg := mkLeg (failed l) a (batcher l) (leg_host l) (ingressChain l) (ingest l) (leg_log l).
Definition set_batcher (b : option Batcher) (l : Leg) : Leg := mkLeg (failed l) (assembler l) b (leg_host l) (ingressChain l) (ingest l) (leg_log l).
Definition set_host (h : Host) (l : Leg) : Leg := mkLeg (failed l) (assembler l) (batcher l) h (ingressChain l) (ingest l) (leg_log l).
Definition set_chain (c : list buffer) (l : Leg) : Leg := mkLeg (failed l) (assembler l) (batcher l) (leg_host l) c (ingest l) (leg_log l).
Definition set_ingest (i : option (list buffer)) (l : Leg) : Leg := mkLeg (failed l) (assembler l) (batcher l) (leg_host l) (ingressChain l) i (leg_log l).
Definition log_effects (es : list LegEffect) (l : Leg) : Leg := mkLeg (failed l) (assembler l) (batcher l) (leg_host l) (ingressChain l) (ingest l) (leg_log l ++ es).

(** [dispose]. A fresh ingress chain takes the place of the old one, whose turns still
    come. *)
Definition dispose_leg (l : Leg) : Leg :=
  set_host (RelayDispatcher.dispose (leg_host l)) (set_batcher (RelayBatch.dispose <$> batcher l) (set_failed l)).

Definition fail_leg (reason : string) (l : Leg) : Leg :=
  if failed l then l else log_effects [Reported reason] (dispose_leg l).

Definition acceptPlaintext (plaintext : buffer) (l : Leg) : Leg :=
  if failed l then l else set_chain (ingressChain l ++ [plaintext]) l.

Section leg.
  Context (parseText : buffer -> option json) (stringify : json -> buffer)
    (urlSearchParams : headers_t -> string)
    (localPort connectionId : string) (flowControl : bool) (responseChunkBytes : Z).

Definition host_step' : Host -> HostEvent -> Host :=
  host_step parseText stringify urlSearchParams localPort connectionId flowControl responseChunkBytes.

(** The failure a step of the dispatcher reported, if any. *)
Definition channel_failure (before after : Host) : option string :=
  last (omap (fun e => match e with ChannelFailure reason => Some reason | _ => None end) (drop (length (host_log before)) (host_log after))).

(** A step of the dispatcher, which reports its failure to the leg. *)
Definition with_host (ev : HostEvent) (l : Leg) : Leg :=
  let h := host_step' (leg_host l) ev in
  let l1 := set_host h l in
  match channel_failure (leg_host l) h with Some reason => fail_leg reason l1 | None => l1 end.

(** [acceptPlainBytes] of the next plaintext of the chain. *)
Definition openPlaintext (l : Leg) : Leg :=
  match ingest l, ingressChain l with
  | None, plaintext :: rest =>
    let l1 := set_chain rest l in
    match decodeFrameOrContainer plaintext with
    | Some c => set_ingest (Some (container_frames c)) l1
    | None => fail_leg "relay tunnel parsing failed: unrecognized relay tunnel container" l1
    end
  | _, _ => l
  end.

(** The next frame of the plaintext that is open. *)
Definition ingestFrame (dialOk enqueueOk : bool) (l : Leg) : Leg :=
  match ingest l with
  | None => l
  | Some [] => set_ingest None l
  | Some (frameBytes :: rest) =>
    match decodeTunnelFrame frameBytes with
    | Throw _ => fail_leg "relay tunnel framing violated" (set_ingest None l)
    | Ok frame =>
      let '(a, r) := assembler_push (assembler l) frame in
      let l1 := set_assembler a l in
      match r with
      | Throw _ => fail_leg "relay tunnel framing violated" (set_ingest None l1)
      | Ok None => set_ingest (Some rest) l1
      | Ok (Some m) =>
        let whole := mkFrame (m_type m) (m_stream m) false (m_payload m) in
        with_host (EvFrame whole dialOk enqueueOk) (log_effects [ToHost whole] (set_ingest (Some rest) l1))
      end
    end
  end.

(** The messages [send] took before it rejected, if it did. *)
Definition sent (msgs : list buffer) (sends : option nat) : list LegEffect * bool :=
  match sends with
  | Some k => if bool_decide (k < length msgs) then (Sent <$> take k msgs, false) else (Sent <$> msgs, true)
  | None => (Sent <$> msgs, true)
  end.

Definition sendOut (bytes : buffer) (now : Z) (sends : option nat) (l : Leg) : Leg :=
  let '(l1, r) := match batcher l with
                  | Some b => let '(b1, r) := offerNowBytes b now bytes in (set_batcher (Some b1) l, r)
                  | None => (l, Ok [bytes])
                  end in
  match r with
  | Throw _ => fail_leg "relay leg send failed" l1
  | Ok msgs => let '(es, ok) := sent msgs sends in
               if ok then log_effects es l1 else fail_leg "relay leg send failed" (log_effects es l1)
  end.

(** The window timer asks for a flush and drops its promise. *)
Definition windowFlush (now : Z) (sends : option nat) (l : Leg) : Leg :=
  match batcher l with
  | Some b =>
    if timer_armed b then
      let '(b1, r) := flushBuffer (cancelWindow b) now in
      match r with
      | Throw _ => log_effects [UnhandledFlush] (set_batcher (Some b1) l)
      | Ok msgs => let '(es, ok) := sent msgs sends in
                   log_effects (if ok then es else es ++ [UnhandledFlush]) (set_batcher (Some b1) l)
      end
    else l
  | None => l
  end.

Inductive LegEvent :=
| Accept (plaintext : buffer)
| OpenNext
| NextFrame (dialOk enqueueOk : bool)
| HostEv (ev : HostEvent)
| Carry (bytes : buffer) (now : Z) (sends : option nat)
| WindowTimer (now : Z) (sends : option nat)
| DisposeLeg.

(** The dispatcher gets its frames from the leg only. *)
Definition leg_step (ev : LegEvent) (l : Leg) : Leg :=
  match ev with
  | Accept plaintext => acceptPlaintext plaintext l
  | OpenNext => openPlaintext l
  | NextFrame dialOk enqueueOk => ingestFrame dialOk enqueueOk l
  | HostEv (EvFrame _ _ _ | EvDispose) => l
  | HostEv ev => with_host ev l
  | Carry bytes now sends => sendOut bytes now sends l
  | WindowTimer now sends => windowFlush now sends l
  | DisposeLeg => dispose_leg l
  end.

Definition leg_run (evs : list LegEvent) (l : Leg) : Leg := fold_left (fun l ev => leg_step ev l) evs l.

End leg.

(** ** What the dispatcher is handed *)

Definition handed (l : Leg) : list TunnelFrame :=
  omap (fun e => match e with ToHost f => Some f | _ => None end) (leg_log l).

(** The whole frames an assembler makes of a run of frames. *)
Definition whole (r : exc CodecError (option AssembledMessage)) : option TunnelFrame :=
  match r with Ok (Some m) => Some (mkFrame (m_type m) (m_stream m) false (m_payload m)) | _ => None end.

Definition assembled (fs : list TunnelFrame) : list TunnelFrame := omap whole (assembler_run [] fs).2.

Definition accepted (evs : list LegEvent) : list buffer :=
  omap (fun ev => match ev with Accept p => Some p | _ => None end) evs.

(** Nothing accepted is still to be handled. *)
Definition idle (l : Leg) : Prop := ingressChain l = [] /\ ingest l = None.

Lemma assembler_run_snoc parts fs f :
  assembler_run parts (fs ++ [f]) =
  ((assembler_push (assembler_run parts fs).1 f).1, (assembler_run parts fs).2 ++ [(assembler_push (assembler_run parts fs).1 f).2]).
Proof.
  revert parts. induction fs as [|g fs IH]; intros parts; cbn [app assembler_run].
  - cbn [fst snd app]. by destruct (assembler_push parts f).
  - destruct (assembler_push parts g) as [p1 r]. rewrite IH. by destruct (assembler_run p1 fs).
Qed.

(** How far the leg has come with what it accepted. *)
Definition progress (plaintexts : list buffer) (l : Leg) : Prop :=
  exists opened bytes done fs,
    plaintexts = opened ++ ingressChain l /\ received opened = Some bytes /\ bytes = done ++ default [] (ingest l) /\
    (decodeTunnelFrame <$> done) = Ok <$> fs /\ (assembler_run [] fs).1 = assembler l /\
    handed l = assembled fs /\ Forall (fun o => exc_ok o = true) (assembler_run [] fs).2.

Definition on_course (plaintexts : list buffer) (l : Leg) : Prop := failed l = true \/ progress plaintexts l.

Lemma fail_failed reason l : failed (fail_leg reason l) = true.
Proof. unfold fail_leg. by destruct (failed l) eqn:E. Qed.

Lemma course_failed plaintexts reason l : on_course plaintexts (fail_leg reason l).
Proof. left. apply fail_failed. Qed.

(** A step that leaves the ingress side alone. *)
Lemma progress_same plaintexts l l' :
  ingressChain l' = ingressChain l -> ingest l' = ingest l -> assembler l' = assembler l -> handed l' = handed l ->
  progress plaintexts l -> progress plaintexts l'.
Proof. unfold progress. by intros -> -> -> ->. Qed.

Lemma handed_log es l : Forall (fun e => match e with ToHost _ => False | _ => True end) es -> handed (log_effects es l) = handed l.
Proof.
  intros H. unfold handed. cbn [leg_log log_effects]. rewrite omap_app. replace (omap _ es) with ([] : list TunnelFrame); [by rewrite app_nil_r|].
  induction H as [|e es He _ IH]; [done|]. cbn. by destruct e.
Qed.

Lemma sent_quiet msgs sends : Forall (fun e => match e with ToHost _ => False | _ => True end) (sent msgs sends).1.
Proof. unfold sent. destruct sends; [case_bool_decide|]; cbn [fst]; by apply Forall_fmap, Forall_true. Qed.

Section course.
  Context (parseText : buffer -> option json) (stringify : json -> buffer)
    (urlSearchParams : headers_t -> string)
    (localPort connectionId : string) (flowControl : bool) (responseChunkBytes : Z).
  Abbreviation with_host' := (with_host parseText stringify urlSearchParams localPort connectionId flowControl responseChunkBytes).
  Abbreviation step := (leg_step parseText stringify urlSearchParams localPort connectionId flowControl responseChunkBytes).
  Abbreviation run := (leg_run parseText stringify urlSearchParams localPort connectionId flowControl responseChunkBytes).

Lemma with_host_cases ev l :
  exists h, with_host' ev l = set_host h l \/ failed (with_host' ev l) = true.
Proof.
  unfold with_host. cbv zeta. set (h := host_step' _ _ _ _ _ _ _ (leg_host l) ev). exists h.
  destruct (channel_failure _ h); [right; apply fail_failed|by left].
Qed.

Lemma course_host plaintexts ev l : on_course plaintexts l -> on_course plaintexts (with_host' ev l).
Proof.
  intros H. destruct (with_host_cases ev l) as (h & [-> |Hf]); [|by left]. destruct H as [H|H]; [by left|]. right. by apply (progress_same _ l).
Qed.

Lemma course_open plaintexts l : on_course plaintexts l -> on_course plaintexts (openPlaintext l).
Proof.
  intros H. unfold openPlaintext. destruct (ingest l) as [|] eqn:Ei; [done|]. destruct (ingressChain l) as [|p rest] eqn:Ec; [done|].
  destruct (decodeFrameOrContainer p) as [c|] eqn:Ed; [|apply course_failed]. destruct H as [H|H]; [by left|]. right.
  destruct H as (opened & bytes & dn & fs & H1 & H2 & H3 & H4 & H5 & H6 & H7). rewrite Ei in H3. cbn [default] in H3. rewrite app_nil_r in H3.
  exists (opened ++ [p]), (bytes ++ container_frames c), dn, fs. cbn [ingressChain set_ingest set_chain ingest default]. split_and!; try done.
  - by rewrite <- app_assoc, H1, Ec.
  - apply received_app; [done|]. rewrite received_cons, Ed. cbn. by rewrite app_nil_r.
  - by rewrite H3.
Qed.

Lemma course_frame plaintexts d e l :
  on_course plaintexts l -> on_course plaintexts (ingestFrame parseText stringify urlSearchParams localPort connectionId flowControl responseChunkBytes d e l).
Proof.
  intros [H|H].
  { left. unfold ingestFrame. destruct (ingest l) as [[|fb rest]|]; [done| |done]. destruct (decodeTunnelFrame fb); [|by apply fail_failed].
    destruct (assembler_push _ _) as [p [[m|]|]]; [|done|by apply fail_failed].
    match goal with |- context [with_host' ?ev ?x] => destruct (with_host_cases ev x) as (h & [-> |Hf]) end; done. }
  unfold ingestFrame. destruct (ingest l) as [[|fb rest]|] eqn:Ei; [| |by right].
  { right. destruct H as (opened & bytes & dn & fs & H1 & H2 & H3 & H4). exists opened, bytes, dn, fs. by rewrite Ei in H3. }
  destruct (decodeTunnelFrame fb) as [f|] eqn:Ed; [|apply course_failed].
  destruct (assembler_push (assembler l) f) as [p r] eqn:Ep.
  destruct H as (opened & bytes & dn & fs & H1 & H2 & H3 & H4 & H5 & H6 & H7). rewrite Ei in H3. cbn [default] in H3.
  assert (forall l1, ingressChain l1 = ingressChain l -> ingest l1 = Some rest -> assembler l1 = p -> handed l1 = handed l ++ omap whole [r] -> exc_ok r = true -> progress plaintexts l1) as Hnext.
  { intros l1 E1 E2 E3 E4 E5. exists opened, bytes, (dn ++ [fb]), (fs ++ [f]). rewrite E1, E2, E3, E4. unfold assembled. rewrite assembler_run_snoc, H5, Ep. cbn [fst snd default].
    rewrite !fmap_app, omap_app, <- app_assoc, H4, H6. cbn [fmap list_fmap]. rewrite Ed. split_and!; try done.
    apply Forall_app. split; [done|by repeat constructor]. }
  destruct r as [[m|]|]; [| |apply course_failed].
  - apply course_host. right. apply Hnext; try done. unfold handed. cbn [leg_log log_effects]. by rewrite omap_app.
  - right. apply Hnext; try done. cbn. by rewrite app_nil_r.
Qed.

Lemma course_send plaintexts bytes now sends l : on_course plaintexts l -> on_course plaintexts (sendOut bytes now sends l).
Proof.
  intros H. unfold sendOut. set (lr := match batcher l with Some _ => _ | None => _ end).
  assert (exists b, lr.1 = set_batcher b l) as [b E1].
  { unfold lr. destruct (batcher l) as [b|] eqn:Eb; [|exists None; destruct l; cbn in *; by subst]. destruct (offerNowBytes b now bytes) as [b1 r]. by exists (Some b1). }
  destruct lr as [l1 r]. cbn in E1. subst l1. destruct r as [msgs|]; [|apply course_failed].
  pose proof (sent_quiet msgs sends) as Hq. destruct (sent msgs sends) as [es ok]. destruct ok; [|apply course_failed].
  destruct H as [H|H]; [by left|]. right. apply (progress_same _ l); try done. exact (handed_log es (set_batcher b l) Hq).
Qed.

Lemma course_window plaintexts now sends l : on_course plaintexts l -> on_course plaintexts (windowFlush now sends l).
Proof.
  intros H. unfold windowFlush. destruct (batcher l) as [b|]; [|done]. destruct (timer_armed b); [|done]. destruct (flushBuffer _ now) as [b1 [msgs|]].
  - pose proof (sent_quiet msgs sends) as Hq. destruct (sent msgs sends) as [es ok]. destruct H as [H|H]; [by left|]. right.
    apply (progress_same _ l); try done. apply (handed_log _ (set_batcher (Some b1) l)). destruct ok; [done|]. apply Forall_app. split; [done|by repeat constructor].
  - destruct H as [H|H]; [by left|]. right. apply (progress_same _ l); try done. by apply (handed_log [UnhandledFlush] (set_batcher (Some b1) l)); repeat constructor.
Qed.

Lemma course_step plaintexts ev l : on_course plaintexts l -> on_course (plaintexts ++ accepted [ev]) (step ev l).
Proof.
  intros H. destruct ev as [p| |d e|ev|bytes now sends|now sends|]; cbn [accepted omap list_omap]; rewrite ?app_nil_r; cbn [leg_step].
  - unfold acceptPlaintext. destruct (failed l) eqn:E; [by left|]. destruct H as [H|H]; [congruence|]. right.
    destruct H as (opened & bytes & dn & fs & H1 & H2 & H3 & H4 & H5 & H6 & H7). exists opened, bytes, dn, fs. cbn [ingressChain set_chain]. by rewrite H1, app_assoc.
  - by apply course_open.
  - by apply course_frame.
  - destruct ev; try done; by apply course_host.
  - by apply course_send.
  - by apply course_window.
  - by left.
Qed.

Lemma course_run plaintexts evs l : on_course plaintexts l -> on_course (plaintexts ++ accepted evs) (run evs l).
Proof.
  revert plaintexts l. induction evs as [|ev evs IH]; intros ps l H; [by cbn; rewrite app_nil_r|].
  replace (ps ++ accepted (ev :: evs)) with ((ps ++ accepted [ev]) ++ accepted evs); [by apply IH, course_step|].
  rewrite <- app_assoc. f_equal. unfold accepted. cbn. by destruct ev.
Qed.

Lemma course_new batch w t : on_course [] (new_leg batch w t).
Proof. right. by exists [], [], [], []. Qed.

End course.

(** ** Failure *)

Definition reports (l : Leg) : nat := length (omap (fun e => match e with Reported r => Some r | _ => None end) (leg_log l)).

Record shut (l : Leg) : Prop := {
  sh_reports : reports l + (if failed l then 0 else 1) <= 1;
  sh_store : store_ok (leg_host l);
  sh_host : failed l = true -> RelayDispatcher.disposed (leg_host l) = true;
  sh_batcher : forall b, failed l = true -> batcher l = Some b -> RelayBatch.disposed b = true /\ timer_armed b = false;
}.

Lemma reports_log es l : Forall (fun e => match e with Reported _ => False | _ => True end) es -> reports (log_effects es l) = reports l.
Proof.
  intros H. unfold reports. cbn [leg_log log_effects]. rewrite omap_app, length_app. replace (omap _ es) with ([] : list string); [cbn; lia|].
  induction H as [|e es He _ IH]; [done|]. cbn. by destruct e.
Qed.

Lemma sent_unreported msgs sends : Forall (fun e => match e with Reported _ => False | _ => True end) (sent msgs sends).1.
Proof. unfold sent. destruct sends; [case_bool_decide|]; cbn [fst]; by apply Forall_fmap, Forall_true. Qed.

Lemma shut_same l l' :
  reports l' = reports l -> failed l' = failed l -> leg_host l' = leg_host l -> batcher l' = batcher l -> shut l -> shut l'.
Proof. intros E1 E2 E3 E4 []. split; rewrite ?E1, ?E2, ?E3, ?E4; done. Qed.

Section shutting.
  Context (parseText : buffer -> option json) (stringify : json -> buffer)
    (urlSearchParams : headers_t -> string)
    (localPort connectionId : string) (flowControl : bool) (responseChunkBytes : Z).
  Abbreviation with_host' := (with_host parseText stringify urlSearchParams localPort connectionId flowControl responseChunkBytes).
  Abbreviation step := (leg_step parseText stringify urlSearchParams localPort connectionId flowControl responseChunkBytes).
  Abbreviation run := (leg_run parseText stringify urlSearchParams localPort connectionId flowControl responseChunkBytes).

Lemma shut_dispose l : shut l -> shut (dispose_leg l).
Proof.
  intros [H1 H2 H3 H4]. split; cbn [failed leg_host batcher dispose_leg set_host set_batcher set_failed].
  - change (reports _) with (reports l). destruct (failed l); lia.
  - by apply (lawful_dispose localPort connectionId).
  - intros _. apply dispose_disposed.
  - intros b _ Hb. destruct (batcher l); [|done]. by injection Hb as <-.
Qed.

Lemma shut_fail reason l : shut l -> shut (fail_leg reason l).
Proof.
  intros H. unfold fail_leg. destruct (failed l) eqn:E; [done|]. destruct (shut_dispose l H) as [H1 H2 H3 H4].
  split; [|done..]. pose proof (sh_reports _ H) as Hr. rewrite E in Hr. unfold reports in *. cbn [leg_log log_effects dispose_leg set_host set_batcher set_failed failed].
  rewrite omap_app, length_app. cbn. lia.
Qed.

(** The dispatcher stays disposed and its streams stay well formed. *)
Lemma shut_host ev l : shut l -> shut (with_host' ev l).
Proof.
  intros H. unfold with_host. cbv zeta. set (h := host_step' _ _ _ _ _ _ _ (leg_host l) ev).
  assert (shut (set_host h l)) as H1.
  { destruct H as [H1 H2 H3 H4]. destruct (lawful_step localPort connectionId parseText stringify urlSearchParams flowControl responseChunkBytes (leg_host l) ev H2) as (Hs & es & _ & _ & Hn).
    split; [done|exact Hs| |done]. intros Hf. specialize (H3 Hf). rewrite H3 in Hn. cbn in Hn. cbn [leg_host set_host]. unfold h, host_step'.
    destruct (RelayDispatcher.disposed (host_step _ _ _ _ _ _ _ _ _)); [done|cbn in Hn; lia]. }
  destruct (channel_failure _ h); [by apply shut_fail|done].
Qed.

Lemma shut_open l : shut l -> shut (openPlaintext l).
Proof.
  intros H. unfold openPlaintext. destruct (ingest l); [done|]. destruct (ingressChain l) as [|p rest]; [done|].
  destruct (decodeFrameOrContainer p); [by apply (shut_same l)|]. apply shut_fail. by apply (shut_same l).
Qed.

Lemma shut_frame d e l : shut l -> shut (ingestFrame parseText stringify urlSearchParams localPort connectionId flowControl responseChunkBytes d e l).
Proof.
  intros H. unfold ingestFrame. destruct (ingest l) as [[|fb rest]|]; [by apply (shut_same l)| |done].
  destruct (decodeTunnelFrame fb); [|apply shut_fail; by apply (shut_same l)].
  destruct (assembler_push _ _) as [p [[m|]|]]; [|by apply (shut_same l)|apply shut_fail; by apply (shut_same l)].
  apply shut_host. apply (shut_same l); try done. by apply (reports_log [ToHost _] (set_ingest (Some rest) (set_assembler p l))); repeat constructor.
Qed.

(** A batcher that was disposed of stays so and sends nothing. *)
Lemma offer_disposed b now bytes : RelayBatch.disposed b = true -> offerNowBytes b now bytes = (b, Ok []).
Proof. intros H. unfold offerNowBytes. by rewrite H. Qed.

Lemma shut_batcher b l : shut l -> (failed l = true -> forall b', b = Some b' -> RelayBatch.disposed b' = true /\ timer_armed b' = false) -> shut (set_batcher b l).
Proof. intros [H1 H2 H3 H4] Hb. split; try done. intros b' Hf E. by apply (Hb Hf). Qed.

Lemma shut_logged es l : Forall (fun e => match e with Reported _ => False | _ => True end) es -> shut l -> shut (log_effects es l).
Proof. intros He H. apply (shut_same l); try done. by apply reports_log. Qed.

Lemma shut_send bytes now sends l : shut l -> shut (sendOut bytes now sends l).
Proof.
  intros H. unfold sendOut. set (lr := match batcher l with Some _ => _ | None => _ end).
  assert (shut lr.1) as H1.
  { unfold lr. destruct (batcher l) as [b|] eqn:Eb; [|done]. destruct (offerNowBytes b now bytes) as [b1 r] eqn:Eo. apply shut_batcher; [done|].
    intros Hf b' [= <-]. destruct (sh_batcher _ H b Hf Eb) as [Hd Ht]. rewrite offer_disposed in Eo by done. by injection Eo as <- _. }
  destruct lr as [l1 r]. cbn [fst] in H1. destruct r as [msgs|]; [|by apply shut_fail].
  pose proof (sent_unreported msgs sends) as Hq. destruct (sent msgs sends) as [es ok]. destruct ok; [by apply shut_logged|by apply shut_fail, shut_logged].
Qed.

Lemma shut_window now sends l : shut l -> shut (windowFlush now sends l).
Proof.
  intros H. unfold windowFlush. destruct (batcher l) as [b|] eqn:Eb; [|done]. destruct (timer_armed b) eqn:Et; [|done].
  assert (forall b1, shut (set_batcher (Some b1) l)) as H1.
  { intros b1. apply shut_batcher; [done|]. intros Hf. destruct (sh_batcher _ H b Hf Eb). congruence. }
  destruct (flushBuffer _ now) as [b1 [msgs|]]; [|apply shut_logged; [by repeat constructor|apply H1]].
  pose proof (sent_unreported msgs sends) as Hq. destruct (sent msgs sends) as [es ok]. apply shut_logged; [|apply H1].
  destruct ok; [done|]. apply Forall_app. split; [done|by repeat constructor].
Qed.

Lemma shut_step ev l : shut l -> shut (step ev l).
Proof.
  intros H. destruct ev as [p| |d e|ev|bytes now sends|now sends|]; cbn [leg_step].
  - unfold acceptPlaintext. destruct (failed l) eqn:E; [done|]. by apply (shut_same l).
  - by apply shut_open.
  - by apply shut_frame.
  - destruct ev; try done; by apply shut_host.
  - by apply shut_send.
  - by apply shut_window.
  - by apply shut_dispose.
Qed.

Lemma shut_run evs l : shut l -> shut (run evs l).
Proof. revert l. induction evs as [|ev evs IH]; intros l H; [done|]. by apply IH, shut_step. Qed.

Lemma fail_batcher reason l : batcher (fail_leg reason l) = None <-> batcher l = None.
Proof. unfold fail_leg. destruct (failed l); [done|]. cbn. by destruct (batcher l). Qed.

Lemma host_batcher ev l : batcher (with_host' ev l) = None <-> batcher l = None.
Proof. unfold with_host. cbv zeta. destruct (channel_failure _ _); [by rewrite fail_batcher|done]. Qed.

Lemma step_batcher ev l : batcher (step ev l) = None <-> batcher l = None.
Proof.
  destruct ev as [p| |d e|ev|bytes now sends|now sends|]; cbn [leg_step].
  - unfold acceptPlaintext. by destruct (failed l).
  - unfold openPlaintext. destruct (ingest l); [done|]. destruct (ingressChain l) as [|p rest]; [done|]. destruct (decodeFrameOrContainer p); [done|by rewrite fail_batcher].
  - unfold ingestFrame. destruct (ingest l) as [[|fb rest]|]; try done. destruct (decodeTunnelFrame fb); [|by rewrite fail_batcher].
    destruct (assembler_push _ _) as [p [[m|]|]]; [by rewrite host_batcher|done|by rewrite fail_batcher].
  - destruct ev; try done; by rewrite host_batcher.
  - unfold sendOut. destruct (batcher l) as [b|] eqn:Eb.
    + destruct (offerNowBytes b now bytes) as [b1 [msgs|]]; [|by rewrite fail_batcher]. destruct (sent msgs sends) as [es []]; [done|by rewrite fail_batcher].
    + destruct (sent [bytes] sends) as [es []]; [done|by rewrite fail_batcher].
  - unfold windowFlush. destruct (batcher l) as [b|] eqn:Eb; [|done]. destruct (timer_armed b); [|by rewrite Eb].
    destruct (flushBuffer _ now) as [b1 [msgs|]]; [|done]. by destruct (sent msgs sends).
  - cbn. by destruct (batcher l).
Qed.

Lemma run_batcher evs l : batcher (run evs l) = None <-> batcher l = None.
Proof. revert l. induction evs as [|ev evs IH]; intros l; [done|]. change (run (ev :: evs) l) with (run evs (step ev l)). by rewrite IH, step_batcher. Qed.

Lemma failed_fail reason l : failed l = true -> fail_leg reason l = l.
Proof. unfold fail_leg. by intros ->. Qed.

Lemma log_nothing l : log_effects [] l = l.
Proof. destruct l. unfold log_effects. cbn. by rewrite app_nil_r. Qed.

(** Frames that come to a leg that has failed stop at its dispatcher. *)
Lemma failed_frame d e l : failed l = true -> RelayDispatcher.disposed (leg_host l) = true ->
  leg_host (step (NextFrame d e) l) = leg_host l.
Proof.
  intros Hf Hd. cbn [leg_step]. unfold ingestFrame. destruct (ingest l) as [[|fb rest]|]; [done| |done].
  destruct (decodeTunnelFrame fb); [|by rewrite failed_fail]. destruct (assembler_push _ _) as [p [[m|]|]]; [|done|by rewrite failed_fail].
  unfold with_host. cbv zeta. destruct (channel_failure _ _); rewrite ?failed_fail by done; cbn; unfold host_step', host_step, handleFrame; cbn; by rewrite Hd.
Qed.

Lemma failed_carry b bytes t sends l : batcher l = Some b -> RelayBatch.disposed b = true -> timer_armed b = false ->
  leg_log (step (Carry bytes t sends) l) = leg_log l /\ leg_log (step (WindowTimer t sends) l) = leg_log l.
Proof.
  intros Eb Hd Ht. cbn [leg_step]. unfold sendOut, windowFlush. rewrite Eb, Ht, offer_disposed by done. split; [|done].
  assert (sent [] sends = ([], true)) as -> by (unfold sent; destruct sends; [by rewrite bool_decide_false by (cbn; lia)|done]). cbn. by rewrite app_nil_r.
Qed.

(** A leg fails once and for all. Whatever it accepts, its dispatcher does and its
    carrier refuses: the owner is told of at most one failure; a leg that has failed or
    was disposed of has disposed of its dispatcher, which no later frame touches, and a
    batching leg hands nothing to the carrier any more. *)
Theorem leg_fails_once batch windowMs now evs :
  let l := run evs (new_leg batch windowMs now) in
  reports l <= 1 /\
  (failed l = true ->
    RelayDispatcher.disposed (leg_host l) = true /\
    (forall d e, leg_host (step (NextFrame d e) l) = leg_host l) /\
    (batch = true -> forall bytes t sends, leg_log (step (Carry bytes t sends) l) = leg_log l /\ leg_log (step (WindowTimer t sends) l) = leg_log l)).
Proof.
  intros l. assert (shut l) as H by (apply shut_run; by split; [cbn; lia|constructor| |]). split; [pose proof (sh_reports _ H); lia|].
  intros Hf. pose proof (sh_host _ H Hf) as Hd. split_and!; [done|intros; by apply failed_frame|].
  intros Hb bytes t sends. destruct (batcher l) as [b|] eqn:Eb.
  - destruct (sh_batcher _ H b Hf Eb). by apply (failed_carry b).
  - apply run_batcher in Eb. by rewrite Hb in Eb.
Qed.

End shutting.

(** ** From the client's messages to the dispatcher *)

Lemma push_group parts f p m : assembler_push parts f = (p, Ok (Some m)) -> keyFor (mkFrame (m_type m) (m_stream m) false (m_payload m)) = keyFor f.
Proof.
  unfold assembler_push, assembler_complete. cbv zeta. destruct (hasMore f && _); [done|]. destruct (hasMore f); cbn [negb].
  - repeat case_match; congruence.
  - destruct (jget _ _); case_bool_decide; intros [= <- <-]; done.
Qed.

(** What is handed over of a group is what its frames made. *)
Lemma whole_of_group k fs parts :
  filter (fun f => keyFor f = k) (omap whole (assembler_run parts fs).2) = omap whole (outs_of k fs (assembler_run parts fs).2).
Proof.
  revert parts. induction fs as [|f fs IH]; intros parts; [done|]. unfold outs_of. rewrite run_cons. cbn [fst snd zip zip_with omap list_omap].
  specialize (IH (assembler_push parts f).1). unfold outs_of in IH. destruct (assembler_push parts f) as [p r] eqn:E. cbn [fst snd] in *.
  rewrite filter_cons. cbn [fst]. destruct r as [[m|]|]; cbn [whole]; [|case_decide; exact IH..].
  rewrite filter_cons, (push_group parts f p m E). case_decide; [|exact IH]. cbn [fmap list_fmap omap list_omap whole snd]. by f_equal.
Qed.

Section tunnel.
  Context {key} `{!AesGcm key, !AesGcmLaws key}.
  Context (parseText : buffer -> option json) (stringify : json -> buffer)
    (urlSearchParams : headers_t -> string)
    (localPort connectionId : string) (flowControl : bool) (responseChunkBytes : Z).
  Abbreviation run := (leg_run parseText stringify urlSearchParams localPort connectionId flowControl responseChunkBytes).

(** C2. The tunnel delivers. Let a live client, from the start of its channel, offer
    frames to its batcher, batches negotiated or not, the last window flushed; its frames
    are well formed and the head of a request is an object. Let it seal the messages, each
    of which fits a sealed frame, so that its channel has not failed; let the host open
    them in wire order and the leg accept what comes out, while its dispatcher, carrier
    and timers do as they like. If the leg has come to the end of it without failing, it
    has handed its dispatcher exactly the whole frames in their order: a frame that is
    its own message as it is, and a message sent in fragments, among the frames of
    other groups, as the one frame that holds its bytes. *)
Theorem tunnel_delivers (s r : SessionDirection) opts t0 steps ws :
  let sent := client_run (newBatcher opts t0) steps in
  let fs := client_frames steps in
  Forall live_step steps -> Forall client_frame fs -> buffered sent.1 = [] ->
  dir_key s = dir_key r -> (0 <= lastCounter r < counter s)%Z -> (counter s + Zlen sent.2 <= MAX_SAFE_INTEGER)%Z ->
  (encryptAll s sent.2).2 = Ok <$> ws ->
  forall evs batch windowMs now, (decryptAll r ws).2 = Ok <$> accepted evs ->
     let l := run evs (new_leg batch windowMs now) in
     failed l = false -> idle l ->
     handed l = assembled fs /\
     forall type sid body chunkSize raws frames,
       encodeFragmentedMessage type sid body chunkSize = Ok raws -> (0 <= sid < u32_mod)%Z -> decodeTunnelFrame <$> raws = Ok <$> frames ->
       filter (fun f => keyFor f = keyFor (mkFrame (type_code type) sid false [])) fs = frames ->
       filter (fun f => keyFor f = keyFor (mkFrame (type_code type) sid false [])) (handed l) = [mkFrame (type_code type) sid false body].
Proof.
  intros sent fs Hlive Hwf Hb Hk Hc Hn Hws evs batch w t Ha l Hf [Hi1 Hi2].
  pose proof (sealed_fit s sent.2 ws Hws) as Hfit.
  destruct (client_run_fifo steps (newBatcher opts t0) Hlive eq_refl (Forall_nil_2 _) Hwf Hfit) as (out & H2 & H3).
  fold sent in H2, H3. rewrite Hb, app_nil_r in H3. cbn [newBatcher buffered app] in H3.
  destruct (sealed_run_opens s r sent.2 Hk Hc Hn Hfit) as (ws' & Hws' & Hps).
  assert (ws' = ws) as -> by (apply (inj (fmap (M := list) (@Ok CryptoError buffer))); congruence).
  rewrite Hps in Ha. apply (inj (fmap (M := list) Ok)) in Ha.
  destruct (course_run parseText stringify urlSearchParams localPort connectionId flowControl responseChunkBytes [] evs (new_leg batch w t) (course_new batch w t))
    as [Hx|(opened & bytes & dn & fs' & E1 & E2 & E3 & E4 & E5 & E6 & E7)]; [change (failed l = true) in Hx; congruence|]. fold l in E1, E3, E5, E6, E7.
  rewrite Hi1, app_nil_r in E1. cbn [app] in E1. rewrite Hi2 in E3. cbn [default] in E3. rewrite app_nil_r in E3. subst bytes opened.
  assert (fs' = fs) as ->.
  { rewrite <- Ha, H2 in E2. injection E2 as <-. rewrite H3 in E4. apply (inj (fmap (M := list) (@Ok CodecError TunnelFrame))). rewrite <- E4, <- list_fmap_compose.
    apply list_fmap_ext. intros i f Hi. cbn. apply decode_encode_wf. by eapply (Forall_lookup_1 _ _ _ _ Hwf). }
  split; [done|]. intros type sid body size raws frames He Hs Hd Hg. rewrite E6. unfold assembled. rewrite whole_of_group.
  destruct (fragments_frames type sid body size raws frames He Hs Hd) as (pre & last & Hfr & Hbody & _). rewrite Hfr in Hg.
  destruct (run_reassembles fs [] (type_code type) sid [] pre last (keyFor (mkFrame (type_code type) sid false [])) eq_refl jwf_nil eq_refl Hg E7) as [_ ->]. rewrite omap_app.
  replace (omap whole (replicate (length pre) (Ok None))) with ([] : list TunnelFrame) by (clear; by induction pre). cbn. by rewrite Hbody.
Qed.

End tunnel.

(** ** Runs of note *)

#[local] Abbreviation demo_run := (leg_run demo_parse (fun _ => []) (fun _ => "") "4096" "conn" true 8192).

(** A plaintext of one frame, taken through the leg. *)
Definition taken (f : TunnelFrame) : list LegEvent :=
  [Accept (x00 :: encodeTunnelFrame f); OpenNext; NextFrame true true; NextFrame true true].

(** A stream that begins a message, and is aborted. *)
Definition cut_off (sid : Z) : list LegEvent :=
  taken (mkFrame (type_code WsText) sid true [x61]) ++ taken (mkFrame (type_code StreamAbort) sid false []).

Definition cut_offs (n : nat) : list LegEvent := flat_map (fun i => cut_off (Z.of_nat i)) (seq 1 n).

(** Nothing resets the assembler when a stream ends: after 256 streams that ended within
    a message, no stream is open and the next fragmented message fails the leg. *)
Lemma cut_off_messages_stay :
  let l := demo_run (cut_offs 256) (new_leg true 150 0) in
  failed l = false /\ streams (leg_host l) = [] /\
  leg_log (demo_run (taken (mkFrame (type_code WsText) 1000 true [x61])) l) = leg_log l ++ [Reported "relay tunnel framing violated"].
Proof. by vm_compute. Qed.

(** The flush of the window timer is nobody's promise: when [send] rejects it, the leg
    does not fail and the rejection is unhandled. *)
Lemma window_flush_failure_is_unhandled :
  let l := demo_run [Carry (demo_body 1) 10 None; WindowTimer 160 (Some 0)] (new_leg true 150 0) in
  failed l = false /\ leg_log l = [UnhandledFlush].
Proof. by vm_compute. Qed.

(** ** Witnesses *)

Definition demo_text : list TunnelFrame :=
  [mkFrame (type_code WsText) 3 true [x61; x62]; mkFrame (type_code Ping) 0 false []; mkFrame (type_code WsText) 3 false [x63]].

Definition demo_offers : list ClientStep := (ClientOffers 10 true <$> demo_text) ++ [ClientWindow 20].

Definition demo_messages : list buffer := (client_run (newBatcher default_options 0) demo_offers).2.

Definition demo_key : SessionDirection := newDirection tt [x01; x02; x03; x04].

Definition demo_wire : list buffer := omap (fun o => match o with Ok w => Some w | Throw _ => None end) (encryptAll (AesGcm0 := plain_gcm) demo_key demo_messages).2.

Definition demo_turns : list LegEvent := flat_map (fun p => [Accept p; OpenNext; NextFrame true true; NextFrame true true; NextFrame true true]) demo_messages.

Lemma tunnel_delivers_witness :
  handed (demo_run demo_turns (new_leg true 150 0)) = assembled demo_text /\
  assembled demo_text = [mkFrame (type_code Ping) 0 false []; mkFrame (type_code WsText) 3 false [x61; x62; x63]].
Proof.
  split; [|by vm_compute].
  destruct (@tunnel_delivers unit plain_gcm plain_gcm_laws demo_parse (fun _ => []) (fun _ => "") "4096" "conn" true 8192 demo_key demo_key
    default_options 0 demo_offers demo_wire) with (evs := demo_turns) (batch := true) (windowMs := 150%Z) (now := 0%Z) as [H _].
  - repeat constructor.
  - change (Forall (fun f => (ftype f ∈ KNOWN_FRAME_TYPES /\ (0 <= streamId f < u32_mod)%Z) /\ (ftype f = 1%Z -> head (payload f) = Some x7b)) demo_text).
    by apply (bool_decide_eq_true_1 _); vm_compute.
  - by vm_compute.
  - done.
  - by vm_compute.
  - by vm_compute.
  - by vm_compute.
  - by vm_compute.
  - by vm_compute.
  - by vm_compute.
  - exact H.
Defined.

Lemma leg_fails_once_witness :
  let l := demo_run [Accept []; OpenNext; Accept []; OpenNext; DisposeLeg] (new_leg true 150 0) in
  reports l = 1 /\ RelayDispatcher.disposed (leg_host l) = true.
Proof.
  split; [by vm_compute|].
  destruct (leg_fails_once demo_parse (fun _ => []) (fun _ => "") "4096" "conn" true 8192 true 150 0 [Accept []; OpenNext; Accept []; OpenNext; DisposeLeg]) as [_ H].
  apply H. by vm_compute.
Defined.
