(* ===== verification/RelayBroker.v ===== *)
(** The relay broker of a host (lib/relay/host-broker.ts): one control socket with its
    ping and reconnect machinery, and the table of data legs it opens and closes. Each
    leg runs the handshake responder of RelayHandshake and then the encrypted session
    of RelayCrypto.

    A step is one callback of the event loop: a call of the public interface, a socket
    event, a timer, or a promise that settles. Sockets and leg objects have identities,
    since a callback keeps the leg it was created for. *)

From S2P Require Import Prelude JsMap JsValue Bytes RelayCrypto RelayPayload RelayHandshake.

Local Open Scope Z_scope.

(** ** Constants and records *)

Definition IdleTimeout : Z := 1001.
Definition HostWentAway : Z := 1012.
Definition ChannelFailure : Z := 1011.
Definition HostUnavailable : Z := 4008.

Record RelayHostTiming := { controlPingMs : Z; controlPongGraceMs : Z; dataOpenTimeoutMs : Z; dataIdleMs : Z; dataSweepMs : Z; reconnectBaseMs : Z; reconnectCapMs : Z }.

Definition DEFAULT_HOST_BROKER_TIMING : RelayHostTiming :=
  {| controlPingMs := 30000; controlPongGraceMs := 10000; dataOpenTimeoutMs := 15000; dataIdleMs := 90000; dataSweepMs := 30000; reconnectBaseMs := 1000; reconnectCapMs := 30000 |}.

Inductive HostBrokerState := disabled | connecting | connected | reconnecting.

(** [readyState] of a WebSocket. *)
Inductive SockState := CONNECTING | OPEN | CLOSING | CLOSED.

Definition at_most_open (s : option SockState) : bool := match s with Some CONNECTING | Some OPEN => true | _ => false end.
Definition is_open (s : option SockState) : bool := match s with Some OPEN => true | _ => false end.

#[global] Instance HostBrokerState_eq_dec : EqDecision HostBrokerState.
Proof. solve_decision. Defined.

(** The control side. A timer handle that was cleared may still be in its field:
    [reconnectHandle] says whether the field is set, [reconnectArmed] whether it will
    fire. [starting] and [dialing] count the starts and control dials under way. *)
Record Control := mkControl {
  state : HostBrokerState; serverId : option string; relayUrl : option string; controlWs : option nat; pingTimer : option nat;
  reconnectHandle : bool; reconnectArmed : bool; lastControlInbound : Z; attempts : Z; lastError : option string; hasIdentity : bool;
  starting : nat; dialing : nat }.

Section broker.
  Context {priv secret key : Type} `{!HandshakeCrypto priv secret key} `{!AesGcm key}.
  Context (timing : RelayHostTiming) (hostPriv : priv) (caps : CapabilityOptions).

(** A leg; [sending] and [receiving] are its two promise chains. *)
Record DataLeg := mkLeg {
  connectionId : string; responder : ResponderState (key := key); leg_established : bool; session : option (OpenedSession (key := key));
  openTimer : bool; lastActivityAt : Z; sending : list buffer; receiving : list buffer }.

(** The broker: [legs] maps a connection to the socket of its leg, [objs] holds every
    leg object by its socket, [dials] the data dials under way. *)
Record Broker := mkBroker {
  ctl : Control; legs : list (string * nat); objs : gmap nat DataLeg; dials : list string; socks : gmap nat SockState; next : nat }.

Definition newBroker : Broker :=
  {| ctl := mkControl disabled None None None None false false 0 0 None false 0 0; legs := []; objs := ∅; dials := []; socks := ∅; next := 0 |}.

Inductive Effect :=
| LegClosed (conn : string) (s : nat) (code : Z) (reason : string)
| DialFailed (conn : string)
| LegEstablished (conn : string) (c : CapabilityOptions)
| LegFrame (conn : string) (payload : buffer)
| SocketClose (s : nat) (code : Z)
| SocketTerminate (s : nat)
| SocketText (s : nat) (text : json)
| SocketBinary (s : nat) (frame : buffer)
| SocketPing (s : nat)
| ArmReconnect (ms : Z)
| Rejected (reason : string)
| Uncaught.

(** ** Updates *)

Definition set_ctl (f : Control -> Control) (b : Broker) : Broker := mkBroker (f (ctl b)) (legs b) (objs b) (dials b) (socks b) (next b).
Definition set_legs (l : list (string * nat)) (b : Broker) : Broker := mkBroker (ctl b) l (objs b) (dials b) (socks b) (next b).
Definition set_obj (s : nat) (leg : DataLeg) (b : Broker) : Broker := mkBroker (ctl b) (legs b) (<[s := leg]> (objs b)) (dials b) (socks b) (next b).
Definition set_sock (s : nat) (st : SockState) (b : Broker) : Broker := mkBroker (ctl b) (legs b) (objs b) (dials b) (<[s := st]> (socks b)) (next b).
Definition set_dials (l : list string) (b : Broker) : Broker := mkBroker (ctl b) (legs b) (objs b) l (socks b) (next b).

Definition set_state (st : HostBrokerState) (c : Control) : Control :=
  mkControl st (serverId c) (relayUrl c) (controlWs c) (pingTimer c) (reconnectHandle c) (reconnectArmed c) (lastControlInbound c) (attempts c) (lastError c) (hasIdentity c) (starting c) (dialing c).
Definition set_error (e : option string) (c : Control) : Control :=
  mkControl (state c) (serverId c) (relayUrl c) (controlWs c) (pingTimer c) (reconnectHandle c) (reconnectArmed c) (lastControlInbound c) (attempts c) e (hasIdentity c) (starting c) (dialing c).
Definition set_inbound (t : Z) (c : Control) : Control :=
  mkControl (state c) (serverId c) (relayUrl c) (controlWs c) (pingTimer c) (reconnectHandle c) (reconnectArmed c) t (attempts c) (lastError c) (hasIdentity c) (starting c) (dialing c).
Definition set_control (ws ping : option nat) (c : Control) : Control :=
  mkControl (state c) (serverId c) (relayUrl c) ws ping (reconnectHandle c) (reconnectArmed c) (lastControlInbound c) (attempts c) (lastError c) (hasIdentity c) (starting c) (dialing c).
Definition set_reconnect (handle armed : bool) (n : Z) (c : Control) : Control :=
  mkControl (state c) (serverId c) (relayUrl c) (controlWs c) (pingTimer c) handle armed (lastControlInbound c) n (lastError c) (hasIdentity c) (starting c) (dialing c).
Definition set_url (u : option string) (c : Control) : Control :=
  mkControl (state c) (serverId c) u (controlWs c) (pingTimer c) (reconnectHandle c) (reconnectArmed c) (lastControlInbound c) (attempts c) (lastError c) (hasIdentity c) (starting c) (dialing c).
Definition set_pending (n m : nat) (c : Control) : Control :=
  mkControl (state c) (serverId c) (relayUrl c) (controlWs c) (pingTimer c) (reconnectHandle c) (reconnectArmed c) (lastControlInbound c) (attempts c) (lastError c) (hasIdentity c) n m.
Definition set_server (id : string) (c : Control) : Control :=
  mkControl (state c) (Some id) (relayUrl c) (controlWs c) (pingTimer c) (reconnectHandle c) (reconnectArmed c) (lastControlInbound c) (attempts c) (lastError c) true (starting c) (dialing c).

(** [ws.close(code, reason)] when the socket is not past open. *)
Definition close_socket (s : nat) (code : Z) (b : Broker) : Broker * list Effect :=
  if at_most_open (socks b !! s) then (set_sock s CLOSING b, [SocketClose s code]) else (b, []).

Definition terminate_socket (s : nat) (b : Broker) : Broker * list Effect := (set_sock s CLOSING b, [SocketTerminate s]).

(** ** Closing legs *)

Definition clear_open_timer (l : DataLeg) : DataLeg :=
  mkLeg (connectionId l) (responder l) (leg_established l) (session l) false (lastActivityAt l) (sending l) (receiving l).

(** Takes the leg of a socket out of the table, closes the socket and reports it. *)
Definition drop_leg (conn : string) (s : nat) (code : Z) (reason : string) (b : Broker) : Broker * list Effect :=
  let b := set_legs (jdel conn (legs b)) b in
  let b := match objs b !! s with Some l => set_obj s (clear_open_timer l) b | None => b end in
  let '(b, e) := close_socket s code b in
  (b, e ++ [LegClosed conn s code reason]).

Definition closeLeg (conn : string) (code : Z) (reason : string) (b : Broker) : Broker * list Effect :=
  match jget conn (legs b) with
  | None => (b, [])
  | Some s => drop_leg conn s code reason b
  end.

(** The close decision of one leg object. *)
Definition finish (s : nat) (code : Z) (reason : string) (b : Broker) : Broker * list Effect :=
  match objs b !! s with
  | None => (b, [])
  | Some l => if bool_decide (jget (connectionId l) (legs b) = Some s) then drop_leg (connectionId l) s code reason b else (b, [])
  end.

(** One after the other. *)
Definition andThen (f g : Broker -> Broker * list Effect) (b : Broker) : Broker * list Effect :=
  let '(b1, e1) := f b in let '(b2, e2) := g b1 in (b2, e1 ++ e2).

Fixpoint each {A} (f : A -> Broker -> Broker * list Effect) (l : list A) : Broker -> Broker * list Effect :=
  match l with
  | [] => fun b => (b, [])
  | x :: l => andThen (f x) (each f l)
  end.

(** ** The control socket *)

Definition connectControl (b : Broker) : Broker :=
  match relayUrl (ctl b) with
  | None => b
  | Some _ => set_ctl (fun c => set_pending (starting c) (S (dialing c)) c) b
  end.

Definition scheduleReconnect (b : Broker) : Broker * list Effect :=
  if reconnectHandle (ctl b) || bool_decide (state (ctl b) = disabled) then (b, [])
  else
    let n := attempts (ctl b) + 1 in
    let capped := Z.min (reconnectCapMs timing) (reconnectBaseMs timing * 2 ^ (n - 1)) in
    (set_ctl (set_reconnect true true n) b, [ArmReconnect capped]).

(** Every leg of the table when the walk starts. *)
Definition stop (b : Broker) : Broker * list Effect :=
  let ws := controlWs (ctl b) in
  let b := set_ctl (fun c => set_control None None (set_reconnect (reconnectHandle c) false (attempts c) (set_url None (set_state disabled c)))) b in
  andThen (fun b => match ws with Some s => close_socket s 1000 b | None => (b, []) end)
    (each (fun conn => closeLeg conn 1000 "host stopping") (jkeys (legs b))) b.

(** [start] up to the identity it awaits. *)
Definition start (url : string) (b : Broker) : Broker * list Effect :=
  let '(b, e) := if bool_decide (state (ctl b) = disabled) then (b, []) else stop b in
  (set_ctl (fun c => set_pending (S (starting c)) (dialing c) (set_url (Some url) c)) b, e).

(** The rest of it. *)
Definition startResolved (id : option string) (b : Broker) : Broker * list Effect :=
  match starting (ctl b) with
  | O => (b, [])
  | S n =>
    let b := set_ctl (fun c => set_pending n (dialing c) c) b in
    match id with
    | None => (b, [Rejected "identity"])
    | Some id => (connectControl (set_ctl (fun c => set_state connecting (set_server id c)) b), [])
    end
  end.

(** The signed address is there, or is not. *)
Definition controlDialed (ok : bool) (b : Broker) : Broker * list Effect :=
  match dialing (ctl b) with
  | O => (b, [])
  | S n =>
    let b := set_ctl (fun c => set_pending (starting c) n c) b in
    if ok then
      let s := next b in
      (mkBroker (set_control (Some s) (pingTimer (ctl b)) (ctl b)) (legs b) (objs b) (dials b) (<[s := CONNECTING]> (socks b)) (S s), [])
    else scheduleReconnect (set_ctl (fun c => set_state reconnecting (set_error (Some "control connect failed") c)) b)
  end.

Definition controlOpen (s : nat) (now : Z) (b : Broker) : Broker * list Effect :=
  let b := set_sock s OPEN b in
  if bool_decide (controlWs (ctl b) <> Some s) || bool_decide (state (ctl b) = disabled) then (b, [])
  else (set_ctl (fun c => set_control (controlWs c) (Some s) (set_inbound now (set_error None (set_reconnect (reconnectHandle c) (reconnectArmed c) 0 (set_state connected c))))) b, []).

Definition controlError (s : nat) (message : string) (b : Broker) : Broker * list Effect :=
  if bool_decide (controlWs (ctl b) <> Some s) || bool_decide (state (ctl b) = disabled) then (b, [])
  else (set_ctl (set_error (Some ("control error: " +:+ message))) b, []).

Definition controlClose (s : nat) (code : Z) (b : Broker) : Broker * list Effect :=
  let b := set_sock s CLOSED b in
  if bool_decide (controlWs (ctl b) <> Some s) then (b, [])
  else
    let b := set_ctl (set_control None None) b in
    if bool_decide (state (ctl b) = disabled) then (b, [])
    else scheduleReconnect (set_ctl (fun c => set_state reconnecting (if bool_decide (code = 0) then c else set_error (Some ("control closed (" +:+ pretty code +:+ ")")) c)) b).

Definition pingTick (s : nat) (now : Z) (b : Broker) : Broker * list Effect :=
  if bool_decide (pingTimer (ctl b) <> Some s) || negb (is_open (socks b !! s)) then (b, [])
  else if bool_decide (controlPingMs timing + controlPongGraceMs timing < now - lastControlInbound (ctl b))
  then (set_sock s CLOSING b, [SocketPing s; SocketTerminate s]) else (b, [SocketPing s]).

Definition reconnectFires (b : Broker) : Broker * list Effect :=
  if negb (reconnectArmed (ctl b)) then (b, [])
  else
    let b := set_ctl (fun c => set_reconnect false false (attempts c) c) b in
    if bool_decide (state (ctl b) = disabled) then (b, []) else (connectControl b, []).

(** ** Data legs *)

Definition openDataLeg (conn : string) (b : Broker) : Broker * list Effect :=
  if bool_decide (is_Some (jget conn (legs b))) then (b, [])
  else match relayUrl (ctl b) with None => (b, []) | Some _ => (set_dials (dials b ++ [conn]) b, []) end.

(** The members of a control message that matter; [None] is a text that does not parse. *)
Definition handleControlMessage (data : option json) (b : Broker) : Broker * list Effect :=
  match data with
  | None => (b, [])
  | Some JNull => (b, [Uncaught])
  | Some message =>
    let has_type t := is_str (jfield "type" message) t in
    match has_type "connected", jfield "connectionId" message with
    | true, Some (JStr conn) => openDataLeg conn b
    | _, _ =>
      match has_type "disconnected", jfield "connectionId" message with
      | true, Some (JStr conn) => closeLeg conn 1000 "control disconnected" b
      | _, _ =>
        match has_type "sync", jfield "connectionIds" message with
        | true, Some (JArr l) =>
          let ids := omap (fun v => match v with JStr id => Some id | _ => None end) l in
          andThen (each (fun conn => if bool_decide (conn ∈ ids) then fun b => (b, []) else closeLeg conn 1000 "sync drop") (jkeys (legs b)))
            (each openDataLeg ids) b
        | _, _ => (b, [])
        end
      end
    end
  end.

Definition controlMessage (data : option json) (isBinary : bool) (now : Z) (b : Broker) : Broker * list Effect :=
  let b := set_ctl (set_inbound now) b in
  if isBinary then (b, []) else handleControlMessage data b.

(** The address of a data socket is there, or is not. *)
Definition dataDialed (conn : string) (ok : bool) (now : Z) (b : Broker) : Broker * list Effect :=
  if negb (bool_decide (conn ∈ dials b)) then (b, [])
  else
    let b := set_dials (match list_find (eq conn) (dials b) with Some (i, _) => delete i (dials b) | None => dials b end) b in
    if negb ok then (b, [DialFailed conn])
    else if negb (hasIdentity (ctl b)) then
      (** The socket is there when the missing identity throws. *)
      (mkBroker (ctl b) (legs b) (objs b) (dials b) (<[next b := CONNECTING]> (socks b)) (S (next b)), [DialFailed conn])
    else
      let s := next b in
      (mkBroker (ctl b) (jset conn s (legs b)) (<[s := mkLeg conn newResponder false None true now [] []]> (objs b)) (dials b) (<[s := CONNECTING]> (socks b)) (S s), []).

Definition dataOpen (s : nat) (b : Broker) : Broker * list Effect :=
  let b := set_sock s OPEN b in
  (match objs b !! s with Some l => set_obj s (clear_open_timer l) b | None => b end, []).

Definition openTimeout (s : nat) (b : Broker) : Broker * list Effect :=
  match objs b !! s with
  | Some l => if openTimer l then andThen (terminate_socket s) (finish s HostWentAway "relay data socket open timeout") (set_obj s (clear_open_timer l) b) else (b, [])
  | None => (b, [])
  end.

Definition dataClose (s : nat) (code : Z) (b : Broker) : Broker * list Effect :=
  match objs b !! s with
  | None => (b, [])
  | Some l =>
    let b := set_obj s (clear_open_timer l) (set_sock s CLOSED b) in
    if bool_decide (jget (connectionId l) (legs b) = Some s) then (set_legs (jdel (connectionId l) (legs b)) b, [LegClosed (connectionId l) s code "leg closed"]) else (b, [])
  end.

Definition set_responder (r : ResponderState (key := key)) (l : DataLeg) : DataLeg :=
  mkLeg (connectionId l) r (leg_established l) (session l) (openTimer l) (lastActivityAt l) (sending l) (receiving l).

(** What the responder asks for. *)
Definition responderEffect (s : nat) (eff : ResponderEffect) (b : Broker) : Broker * list Effect :=
  match eff with
  | SendText text => (b, [SocketText s text])
  | OnClose code reason => finish s code reason b
  | OnEstablished e =>
    match objs b !! s with
    | None => (b, [])
    | Some l => (set_obj s (mkLeg (connectionId l) (responder l) true (Some (est_session e)) (openTimer l) (lastActivityAt l) (sending l) (receiving l)) b, [LegEstablished (connectionId l) (est_capabilities e)])
    end
  end.

Definition respond (s : nat) (ev : ResponderEvent) (b : Broker) : Broker * list Effect :=
  match objs b !! s with
  | None => (b, [])
  | Some l =>
    let '(r, effs) := responder_step hostPriv caps (responder l) ev in
    each (responderEffect s) effs (set_obj s (set_responder r l) b)
  end.

(** A frame of a data socket: a text ([inl]) or a binary. *)
Definition routeLegFrame (s : nat) (data : option json + buffer) (now : Z) (b : Broker) : Broker * list Effect :=
  match objs b !! s with
  | None => (b, [])
  | Some l =>
    let l := mkLeg (connectionId l) (responder l) (leg_established l) (session l) (openTimer l) now (sending l) (receiving l) in
    let b := set_obj s l b in
    match data with
    | inr frame =>
      if established (responder l)
      then (set_obj s (mkLeg (connectionId l) (responder l) (leg_established l) (session l) (openTimer l) now (sending l) (receiving l ++ [frame])) b, [])
      else respond s OnBinary b
    | inl text => respond s (OnText text) b
    end
  end.

(** The next frame of a receive chain. *)
Definition receiveStep (s : nat) (now : Z) (b : Broker) : Broker * list Effect :=
  match objs b !! s with
  | None => (b, [])
  | Some l =>
    match receiving l with
    | [] => (b, [])
    | frame :: rest =>
      let with_session sess at_ := mkLeg (connectionId l) (responder l) (leg_established l) sess (openTimer l) at_ (sending l) rest in
      match session l with
      | None => (set_obj s (with_session None (lastActivityAt l)) b, [])
      | Some sess =>
        let '(d, r) := decryptFrame (clientToHost sess) frame in
        let sess' := mkSession d (hostToClient sess) in
        match r with
        | Ok payload => (set_obj s (with_session (Some sess') now) b, [LegFrame (connectionId l) payload])
        | Throw _ => closeLeg (connectionId l) ChannelFailure "decryption failed" (set_obj s (with_session (Some sess') (lastActivityAt l)) b)
        end
      end
    end
  end.

Definition sendToClient (conn : string) (plaintext : buffer) (b : Broker) : Broker * list Effect :=
  match s ← jget conn (legs b); l ← objs b !! s; Some (s, l) with
  | None => (b, [Rejected "no established relay leg"])
  | Some (s, l) =>
    if negb (leg_established l) || bool_decide (session l = None) then (b, [Rejected "no established relay leg"])
    else if bool_decide (MAX_PLAINTEXT_FRAME_BYTES < Zlen plaintext) then (b, [Rejected "relay frame plaintext too large"])
    else (set_obj s (mkLeg (connectionId l) (responder l) (leg_established l) (session l) (openTimer l) (lastActivityAt l) (sending l ++ [plaintext]) (receiving l)) b, [])
  end.

(** The next message of a send chain. *)
Definition sendStep (s : nat) (b : Broker) : Broker * list Effect :=
  match objs b !! s with
  | None => (b, [])
  | Some l =>
    match sending l, session l with
    | plaintext :: rest, Some sess =>
      let '(d, r) := encryptFrame (hostToClient sess) plaintext in
      let l' := mkLeg (connectionId l) (responder l) (leg_established l) (Some (mkSession (clientToHost sess) d)) (openTimer l) (lastActivityAt l) rest (receiving l) in
      (set_obj s l' b, match r with Ok frame => if is_open (socks b !! s) then [SocketBinary s frame] else [] | Throw _ => [] end)
    | _, _ => (b, [])
    end
  end.

(** The idle reaper. *)
Definition sweepLegs (now : Z) (b : Broker) : Broker * list Effect :=
  each (fun kv b => match objs b !! kv.2 with
    | Some l => if bool_decide (dataIdleMs timing < now - lastActivityAt l) then closeLeg kv.1 IdleTimeout "client idle timeout" b else (b, [])
    | None => (b, [])
    end) (legs b) b.

(** ** The machine *)

Inductive Event :=
| Start (url : string) | Stop | StartResolved (id : option string) | ControlDialed (ok : bool)
| ControlOpen (s : nat) (now : Z) | ControlPong (now : Z) | ControlError (s : nat) (message : string) | ControlMessage (data : option json) (isBinary : bool) (now : Z)
| ControlClose (s : nat) (code : Z) | PingTick (s : nat) (now : Z) | ReconnectFires
| DataDialed (conn : string) (ok : bool) (now : Z) | DataOpen (s : nat) | DataMessage (s : nat) (data : option json + buffer) (now : Z) | DataClose (s : nat) (code : Z)
| OpenTimeout (s : nat) | HelloDerived (s : nat) (prefixes : buffer * buffer) (sendOk : bool) | ReceiveStep (s : nat) (now : Z) | SendStep (s : nat)
| Send (conn : string) (plaintext : buffer) | Terminate (conn : string) (code : Z) (reason : string) | Sweep (now : Z).

Definition broker_step (ev : Event) (b : Broker) : Broker * list Effect :=
  match ev with
  | Start url => start url b
  | Stop => stop b
  | StartResolved id => startResolved id b
  | ControlDialed ok => controlDialed ok b
  | ControlOpen s now => controlOpen s now b
  | ControlPong now => (set_ctl (set_inbound now) b, [])
  | ControlError s m => controlError s m b
  | ControlMessage d bin now => controlMessage d bin now b
  | ControlClose s code => controlClose s code b
  | PingTick s now => pingTick s now b
  | ReconnectFires => reconnectFires b
  | DataDialed conn ok now => dataDialed conn ok now b
  | DataOpen s => dataOpen s b
  | DataMessage s d now => routeLegFrame s d now b
  | DataClose s code => dataClose s code b
  | OpenTimeout s => openTimeout s b
  | HelloDerived s p ok => respond s (Derived p ok) b
  | ReceiveStep s now => receiveStep s now b
  | SendStep s => sendStep s b
  | Send conn p => sendToClient conn p b
  | Terminate conn code reason => closeLeg conn code reason b
  | Sweep now => sweepLegs now b
  end.

Definition broker_run (evs : list Event) : Broker -> Broker * list Effect := each broker_step evs.

(** ** Accounting for legs *)

Definition closes (s : nat) (es : list Effect) : nat := length (filter (fun e => match e with LegClosed _ s' _ _ => bool_decide (s' = s) | _ => false end = true) es).

Lemma closes_app s es fs : closes s (es ++ fs) = (closes s es + closes s fs)%nat.
Proof. unfold closes. by rewrite filter_app, length_app. Qed.

Definition live (s : nat) (b : Broker) : Prop := exists conn, jget conn (legs b) = Some s.

(** The leg of a socket is in the table, or still to be created. *)
Definition undecided (s : nat) (b : Broker) : Prop := live s b \/ (next b <= s)%nat.

Definition id_of (b : Broker) (s : nat) : option string := connectionId <$> objs b !! s.

Definition table_ok (b : Broker) : Prop :=
  jwf (legs b) /\ (forall conn s, jget conn (legs b) = Some s -> (s < next b)%nat /\ id_of b s = Some conn) /\ forall s, id_of b s <> None -> (s < next b)%nat.

(** What a step does to the legs. *)
Record fair (b : Broker) (es : list Effect) (b' : Broker) : Prop := {
  fair_table : table_ok b';
  fair_next : (next b <= next b')%nat;
  fair_ids s : (s < next b)%nat -> id_of b' s = id_of b s;
  fair_stays s : undecided s b' -> undecided s b;
  fair_report s : (closes s es <= 1)%nat /\ ((1 <= closes s es)%nat -> undecided s b /\ ~ undecided s b');
  fair_decided s conn : id_of b' s = Some conn -> undecided s b -> ~ undecided s b' ->
    closes s es = 1%nat \/ exists s', (s < s' < next b')%nat /\ id_of b' s' = Some conn;
}.

Lemma fair_trans b e1 b1 e2 b2 : fair b e1 b1 -> fair b1 e2 b2 -> fair b (e1 ++ e2) b2.
Proof.
  intros F1 F2. pose proof (fair_next _ _ _ F1) as N1. pose proof (fair_next _ _ _ F2) as N2. constructor.
  - apply F2.
  - lia.
  - intros s Hs. rewrite (fair_ids _ _ _ F2) by lia. by apply F1.
  - intros s Hu. by apply (fair_stays _ _ _ F1), (fair_stays _ _ _ F2).
  - intros s. rewrite closes_app. destruct (fair_report _ _ _ F1 s) as [L1 R1], (fair_report _ _ _ F2 s) as [L2 R2]. split.
    + destruct (decide (1 <= closes s e1)%nat) as [H1|]; [|lia]. destruct (decide (1 <= closes s e2)%nat) as [H2|]; [|lia]. destruct (R1 H1) as [_ Hn]. by destruct (R2 H2).
    + intros H. destruct (decide (1 <= closes s e1)%nat) as [H1|]; [destruct (R1 H1) as [? Hn]; split; [done|]; intros Hu; by apply Hn, (fair_stays _ _ _ F2)|].
      destruct (R2 ltac:(lia)) as [Hu Hn]. split; [by apply (fair_stays _ _ _ F1)|done].
  - intros s conn Hid Hu Hn. rewrite closes_app. destruct (fair_report _ _ _ F1 s) as [L1 R1], (fair_report _ _ _ F2 s) as [L2 R2].
    assert (undecided s b1 \/ ~ undecided s b1) as [H1|H1].
    { unfold undecided, live. destruct (decide (next b1 <= s)%nat); [by left; right|]. destruct (fair_table _ _ _ F1) as (_ & Ht & _).
      destruct (id_of b1 s) as [c|] eqn:Ec; [|right; intros [(c & Hc)|]; [apply Ht in Hc as [_ Hc]; congruence|lia]].
      destruct (decide (jget c (legs b1) = Some s)); [left; left; by exists c|]. right. intros [(c' & Hc)|]; [|lia]. pose proof (proj2 (Ht _ _ Hc)). congruence. }
    + destruct (fair_decided _ _ _ F2 s conn Hid H1 Hn) as [Hc|Hc]; [|by right]. left. destruct (decide (1 <= closes s e1)%nat) as [Hx|]; [by destruct (R1 Hx)|lia].
    + assert (s < next b1)%nat as Hs by (destruct (decide (next b1 <= s)%nat); [destruct H1; by right|lia]). rewrite (fair_ids _ _ _ F2) in Hid by done.
      destruct (fair_decided _ _ _ F1 s conn Hid Hu H1) as [Hc|(s' & Hs' & Hc)].
      * left. destruct (decide (1 <= closes s e2)%nat) as [Hx|]; [by destruct (R2 Hx)|lia].
      * right. exists s'. split; [lia|]. by rewrite (fair_ids _ _ _ F2) by lia.
Qed.

(** A step that leaves the table and the identities alone. *)
Lemma fair_quiet b es b' : table_ok b -> legs b' = legs b -> next b' = next b -> (forall s, id_of b' s = id_of b s) -> (forall s, closes s es = 0%nat) -> fair b es b'.
Proof.
  intros (Hw & Ht & Hb) Hl Hn Hi Hc. assert (forall s, undecided s b' <-> undecided s b) as Hu by (intros s; unfold undecided, live; by rewrite Hl, Hn). constructor.
  - unfold table_ok. rewrite Hl, Hn. split_and!; [done|intros conn s H; rewrite Hi; by apply Ht|intros s; rewrite Hi; apply Hb].
  - lia.
  - done.
  - intros s. apply Hu.
  - intros s. rewrite Hc. split; lia.
  - intros s conn _ H1 H2. by destruct H2; apply Hu.
Qed.

Lemma fair_same b : table_ok b -> fair b [] b.
Proof. intros H. by apply fair_quiet. Qed.

(** Sockets are numbered too: a step that only makes one. *)
Lemma fair_socket b es b' : table_ok b -> legs b' = legs b -> objs b' = objs b -> next b' = S (next b) -> (forall s, closes s es = 0%nat) -> fair b es b'.
Proof.
  intros (Hw & Ht & Hold) Hl Ho Hn Hc. assert (forall s, id_of b' s = id_of b s) as Hi by (intros s; unfold id_of; by rewrite Ho). constructor.
  - unfold table_ok. rewrite Hl, Hn. split_and!; [done|intros conn s H; rewrite Hi; destruct (Ht conn s H); split; [lia|done]|intros s; rewrite Hi; intros H; specialize (Hold s H); lia].
  - lia.
  - done.
  - intros s. unfold undecided, live. rewrite Hl, Hn. intros [H|H]; [by left|right; lia].
  - intros s. rewrite Hc. split; lia.
  - intros s conn Hid Hu Hnu. rewrite Hi in Hid. specialize (Hold s ltac:(by rewrite Hid)). destruct Hu as [Hu|Hu]; [|lia]. destruct Hnu. left. unfold live in *. by rewrite Hl.
Qed.

(** ** Every step is fair *)

Lemma id_of_set s l b t : id_of b s = Some (connectionId l) -> id_of (set_obj s l b) t = id_of b t.
Proof. intros H. unfold id_of in *. cbn [objs set_obj]. destruct (decide (t = s)) as [->|]; [by rewrite lookup_insert_eq|by rewrite lookup_insert_ne]. Qed.

Lemma id_of_obj b s l : objs b !! s = Some l -> id_of b s = Some (connectionId l).
Proof. intros H. unfold id_of. by rewrite H. Qed.

Lemma fair_set_obj b s l : table_ok b -> id_of b s = Some (connectionId l) -> fair b [] (set_obj s l b).
Proof. intros Ht Hi. apply fair_quiet; try done. intros t. by apply id_of_set. Qed.

Lemma fair_close_socket b s code : table_ok b -> fair b (close_socket s code b).2 (close_socket s code b).1.
Proof. intros Ht. unfold close_socket. destruct (at_most_open _); [by apply fair_quiet|by apply fair_same]. Qed.

(** A leg leaves the table and is reported. *)
Lemma fair_unlink b es b' conn s :
  table_ok b -> jget conn (legs b) = Some s -> legs b' = jdel conn (legs b) -> next b' = next b -> (forall t, id_of b' t = id_of b t) ->
  (forall t, closes t es = if decide (t = s) then 1%nat else 0%nat) -> fair b es b'.
Proof.
  intros (Hw & Ht & Hb) Hg Hl Hn Hi Hc. destruct (Ht conn s Hg) as [Hs Hid].
  assert (forall t, undecided t b' <-> undecided t b /\ t <> s) as Hu.
  { intros t. unfold undecided, live. rewrite Hl, Hn. split.
    - intros [[c Hc']|Hge]; [|split; [by right|lia]]. destruct (decide (c = conn)) as [->|Hne]; [by rewrite jget_del_eq in Hc'|]. rewrite jget_del_ne in Hc' by done.
      split; [left; by exists c|]. intros ->. destruct (Ht c s Hc') as [_ Hid']. congruence.
    - intros [[[c Hc']|Hge] Hne]; [|by right]. left. exists c. rewrite jget_del_ne; [done|]. intros ->. congruence. }
  constructor.
  - unfold table_ok. rewrite Hl, Hn. split_and!; [by apply jwf_del| |intros t; rewrite Hi; apply Hb]. intros c t Hct. rewrite Hi. apply Ht.
    destruct (decide (c = conn)) as [->|]; [by rewrite jget_del_eq in Hct|by rewrite jget_del_ne in Hct].
  - lia.
  - done.
  - intros t. by rewrite Hu; intros [].
  - intros t. rewrite Hc. case_decide as E; [subst t|split; lia]. split; [lia|]. intros _. rewrite Hu. split; [left; by exists conn|by intros []].
  - intros t c Hidt Hut Hnt. rewrite Hc, Hu in *. case_decide as E; [by left|]. by destruct Hnt.
Qed.

Lemma closes_one t conn s code reason : closes t [LegClosed conn s code reason] = if decide (t = s) then 1%nat else 0%nat.
Proof.
  unfold closes. destruct (decide (t = s)) as [->|Hne].
  - rewrite filter_cons_True; [done|]. by apply bool_decide_eq_true.
  - rewrite filter_cons_False; [done|]. intros H. apply bool_decide_eq_true in H. congruence.
Qed.

Lemma fair_drop b conn s code reason : table_ok b -> jget conn (legs b) = Some s -> fair b (drop_leg conn s code reason b).2 (drop_leg conn s code reason b).1.
Proof.
  intros Ht Hg. unfold drop_leg. cbv zeta. set (b1 := match objs (set_legs (jdel conn (legs b)) b) !! s with Some l => _ | None => _ end).
  assert (legs b1 = jdel conn (legs b) /\ next b1 = next b /\ forall t, id_of b1 t = id_of b t) as (L1 & N1 & I1).
  { unfold b1. cbn [objs set_legs]. destruct (objs b !! s) as [l|] eqn:El; [|done]. split_and!; try done. intros t. rewrite id_of_set; [done|]. exact (id_of_obj b s l El). }
  destruct (close_socket s code b1) as [b2 e] eqn:Ec.
  assert (legs b2 = legs b1 /\ next b2 = next b1 /\ objs b2 = objs b1 /\ forall t, closes t e = 0%nat) as (L2 & N2 & O2 & C2) by (unfold close_socket in Ec; destruct (at_most_open _); by injection Ec as <- <-).
  cbn [fst snd]. apply (fair_unlink b _ b2 conn s); [done|done|congruence|congruence| |].
  - intros t. unfold id_of. rewrite O2. apply I1.
  - intros t. by rewrite closes_app, C2, closes_one.
Qed.

Lemma fair_closeLeg b conn code reason : table_ok b -> fair b (closeLeg conn code reason b).2 (closeLeg conn code reason b).1.
Proof. intros Ht. unfold closeLeg. destruct (jget conn (legs b)) as [s|] eqn:E; [by apply fair_drop|by apply fair_same]. Qed.

Lemma fair_finish b s code reason : table_ok b -> fair b (finish s code reason b).2 (finish s code reason b).1.
Proof. intros Ht. unfold finish. destruct (objs b !! s) as [l|]; [|by apply fair_same]. case_bool_decide; [by apply fair_drop|by apply fair_same]. Qed.

Definition fair_op (f : Broker -> Broker * list Effect) : Prop := forall b, table_ok b -> fair b (f b).2 (f b).1.

Lemma fair_andThen f g : fair_op f -> fair_op g -> fair_op (andThen f g).
Proof.
  intros Hf Hg b Ht. unfold andThen. specialize (Hf b Ht). destruct (f b) as [b1 e1]. cbn [fst snd] in Hf. specialize (Hg b1 (fair_table _ _ _ Hf)).
  destruct (g b1) as [b2 e2]. cbn [fst snd] in *. by eapply fair_trans.
Qed.

Lemma fair_each {A} (f : A -> Broker -> Broker * list Effect) l : (forall x, fair_op (f x)) -> fair_op (each f l).
Proof. intros Hf. induction l as [|x l IH]; [intros b Ht; by apply fair_same|]. by apply fair_andThen. Qed.

(** First a quiet update, then a fair step. *)
Lemma fair_after b b1 f : fair b [] b1 -> fair_op f -> fair b (f b1).2 (f b1).1.
Proof. intros F Hf. apply (fair_trans b [] b1); [done|]. apply Hf, F. Qed.

Lemma fair_ctl b f : table_ok b -> fair b [] (set_ctl f b).
Proof. intros Ht. by apply fair_quiet. Qed.

Lemma fair_sock b s st : table_ok b -> fair b [] (set_sock s st b).
Proof. intros Ht. by apply fair_quiet. Qed.

Lemma fair_scheduleReconnect : fair_op scheduleReconnect.
Proof. intros b Ht. unfold scheduleReconnect. destruct (_ || _); [by apply fair_same|by apply fair_quiet]. Qed.

Lemma fair_stop : fair_op stop.
Proof.
  intros b Ht. unfold stop. cbv zeta. eapply fair_after; [by apply fair_ctl|]. apply fair_andThen.
  - intros b' Ht'. destruct (controlWs (ctl b)); [by apply fair_close_socket|by apply fair_same].
  - apply fair_each. intros conn b' Ht'. by apply fair_closeLeg.
Qed.

Lemma fair_responder s ev : fair_op (respond s ev).
Proof.
  intros b Ht. unfold respond. destruct (objs b !! s) as [l|] eqn:El; [|by apply fair_same]. destruct (responder_step _ _ _ _) as [r effs].
  eapply fair_after; [apply fair_set_obj; [done|]; by rewrite (id_of_obj b s l El)|]. apply fair_each. intros eff b' Ht'. destruct eff as [t|code reason|e]; cbn [responderEffect].
  - by apply fair_quiet. - by apply fair_finish.
  - destruct (objs b' !! s) as [l'|] eqn:El'; [|by apply fair_same]. cbn [fst snd].
    apply fair_quiet; try done. intros t. by apply id_of_set, (id_of_obj b' s l').
Qed.

Lemma fair_route s data now : fair_op (routeLegFrame s data now).
Proof.
  intros b Ht. unfold routeLegFrame. destruct (objs b !! s) as [l|] eqn:El; [|by apply fair_same]. cbv zeta.
  assert (forall l', connectionId l' = connectionId l -> fair b [] (set_obj s l' b)) as Hset by (intros l' E; apply fair_set_obj; [done|by rewrite (id_of_obj b s l El), E]).
  destruct data as [text|frame].
  - eapply fair_after; [by apply Hset|apply fair_responder].
  - cbn [responder]. destruct (established (responder l)); [|eapply fair_after; [by apply Hset|apply fair_responder]]. cbn [fst snd].
    apply fair_quiet; try done. intros t. pose proof (id_of_obj b s l El) as Hi. rewrite id_of_set; [by apply id_of_set|]. by rewrite id_of_set.
Qed.

Lemma fair_receive s now : fair_op (receiveStep s now).
Proof.
  intros b Ht. unfold receiveStep. destruct (objs b !! s) as [l|] eqn:El; [|by apply fair_same]. destruct (receiving l) as [|frame rest]; [by apply fair_same|]. cbv zeta.
  assert (forall l' es, connectionId l' = connectionId l -> (forall t, closes t es = 0%nat) -> fair b es (set_obj s l' b)) as Hset.
  { intros l' es E Hc. apply fair_quiet; try done. intros t. apply id_of_set. by rewrite (id_of_obj b s l El), E. }
  destruct (session l) as [sess|]; [|by apply Hset]. destruct (decryptFrame _ _) as [d [payload|e]]; [by apply Hset|].
  eapply fair_after; [by apply Hset|]. intros b' Ht'. by apply fair_closeLeg.
Qed.

Lemma fair_send conn p : fair_op (sendToClient conn p).
Proof.
  intros b Ht. unfold sendToClient. destruct (jget conn (legs b)) as [s|]; cbn [mbind option_bind]; [|by apply fair_quiet]. destruct (objs b !! s) as [l|] eqn:El; cbn [mbind option_bind]; [|by apply fair_quiet].
  destruct (_ || _); [by apply fair_quiet|]. case_bool_decide; [by apply fair_quiet|]. apply fair_set_obj; [done|]. by rewrite (id_of_obj b s l El).
Qed.

Lemma fair_sendStep s : fair_op (sendStep s).
Proof.
  intros b Ht. unfold sendStep. destruct (objs b !! s) as [l|] eqn:El; [|by apply fair_same]. destruct (sending l) as [|p rest]; [by apply fair_same|]. destruct (session l) as [sess|]; [|by apply fair_same].
  destruct (encryptFrame _ _) as [d r]. cbn [fst snd]. apply fair_quiet; try done; [intros t; apply id_of_set; by rewrite (id_of_obj b s l El)|]. intros t. destruct r; [|done]. by destruct (is_open _).
Qed.

Lemma fair_startResolved id : fair_op (startResolved id).
Proof. intros b Ht. unfold startResolved, connectControl. destruct (starting _), id; try by apply fair_quiet. cbn [relayUrl ctl set_ctl set_state set_server set_pending]. by destruct (relayUrl (ctl b)); apply fair_quiet. Qed.

Lemma fair_controlDialed ok : fair_op (controlDialed ok).
Proof.
  intros b Ht. unfold controlDialed. destruct (dialing _); [by apply fair_same|]. destruct ok; [by apply fair_socket|].
  eapply fair_after; [|apply fair_scheduleReconnect]. by apply fair_quiet.
Qed.

Lemma fair_start url : fair_op (start url).
Proof.
  intros b Ht. unfold start. pose proof (fair_stop b Ht) as F. case_bool_decide; [by apply fair_quiet|]. destruct (stop b) as [b1 e]. cbn [fst snd] in *.
  rewrite <- (app_nil_r e). eapply fair_trans; [done|]. apply fair_ctl, F.
Qed.

Lemma fair_openDataLeg conn : fair_op (openDataLeg conn).
Proof. intros b Ht. unfold openDataLeg. case_bool_decide; [by apply fair_same|]. by destruct (relayUrl _); apply fair_quiet. Qed.

Lemma fair_controlMessage data bin now : fair_op (controlMessage data bin now).
Proof.
  intros b Ht. unfold controlMessage. cbv zeta. destruct bin; [by apply fair_quiet|]. eapply fair_after; [by apply fair_ctl|]. clear b Ht. intros b Ht.
  unfold handleControlMessage. destruct data as [m|]; [|by apply fair_same]. assert (fair b [Uncaught] b) as Hu by (by apply fair_quiet).
  assert (forall (ids : list string) conn, fair_op (if bool_decide (conn ∈ ids) then fun b => (b, []) else closeLeg conn 1000 "sync drop")) as Hdrop.
  { intros ids conn b' Ht'. case_bool_decide; [by apply fair_same|by apply fair_closeLeg]. }
  destruct m; try done; cbv zeta; repeat case_match; first [by apply fair_same | by apply fair_openDataLeg | by apply fair_closeLeg | idtac].
  all: apply fair_andThen; [| |done]; apply fair_each; intros conn; try apply fair_openDataLeg; try apply Hdrop.
Qed.

Lemma fair_control ev : match ev with ControlOpen _ _ | ControlError _ _ | ControlClose _ _ | PingTick _ _ | ReconnectFires => True | _ => False end -> fair_op (broker_step ev).
Proof.
  intros Hev b Ht. destruct ev; try done; cbn [broker_step]; unfold controlOpen, controlError, controlClose, pingTick, reconnectFires, connectControl; cbv zeta; cbn [ctl set_ctl set_sock].
  - by destruct (_ || _); apply fair_quiet.
  - by destruct (_ || _); apply fair_quiet.
  - case_bool_decide; [by apply fair_quiet|]. case_bool_decide; [by apply fair_quiet|]. eapply fair_after; [|apply fair_scheduleReconnect]. by apply fair_quiet.
  - destruct (_ || _); [by apply fair_quiet|]. by case_bool_decide; apply fair_quiet.
  - destruct (negb _); [by apply fair_quiet|]. case_bool_decide; [by apply fair_quiet|]. cbn [relayUrl set_reconnect]. by destruct (relayUrl _); apply fair_quiet.
Qed.

(** A new leg takes the place of any other of its connection. *)
Lemma fair_dataDialed conn ok now : fair_op (dataDialed conn ok now).
Proof.
  intros b Ht. unfold dataDialed. destruct (negb _); [by apply fair_same|]. cbv zeta. destruct ok; cbn [negb]; [|by apply fair_quiet].
  cbn [ctl set_dials]. destruct (hasIdentity (ctl b)); cbn [negb]; [|by apply fair_socket].
  destruct Ht as (Hw & Ht & Hb). cbn [fst snd next legs objs set_dials]. set (b' := mkBroker _ _ _ _ _ _).
  assert (forall t, id_of b' t = if decide (t = next b) then Some conn else id_of b t) as Hi.
  { intros t. unfold id_of, b'. cbn [objs]. case_decide as E; [subst t; by rewrite lookup_insert_eq|by rewrite lookup_insert_ne]. }
  constructor; unfold b'; cbn [next].
  - split_and!; [by apply jwf_set| |].
    + intros c t Hc. rewrite Hi. cbn [next legs] in *. destruct (decide (c = conn)) as [->|]; [rewrite jget_set_eq in Hc; injection Hc as <-; by rewrite decide_True by done; split; [lia|]|].
      rewrite jget_set_ne in Hc by done. destruct (Ht c t Hc). by rewrite decide_False by lia; split; [lia|].
    + intros t. rewrite Hi. cbn [next]. case_decide as E; [lia|]. intros H. specialize (Hb t H). lia.
  - lia.
  - intros t Hlt. rewrite Hi. by rewrite decide_False by lia.
  - intros t [[c Hc]|Hn]; cbn [legs next] in *; [|right; lia]. destruct (decide (c = conn)) as [->|]; [rewrite jget_set_eq in Hc; injection Hc as <-; by right|].
    rewrite jget_set_ne in Hc by done. left. by exists c.
  - intros t. unfold closes. cbn. split; lia.
  - intros t c Hid Hu Hnu. right. exists (next b). rewrite Hi in *. rewrite decide_True by done.
    destruct (decide (t = next b)) as [->|Hne]; [destruct Hnu; left; exists conn; apply jget_set_eq|]. destruct Hu as [[c' Hc]|Hn]; [|destruct Hnu; right; cbn [next]; lia].
    destruct (Ht c' t Hc) as [Hlt Hid']. split; [lia|]. destruct (decide (c' = conn)) as [->|]; [congruence|]. destruct Hnu. left. exists c'. cbn [legs]. by rewrite jget_set_ne.
Qed.

Lemma fair_data ev : match ev with DataOpen _ | DataClose _ _ | OpenTimeout _ | Sweep _ => True | _ => False end -> fair_op (broker_step ev).
Proof.
  intros Hev b Ht. destruct ev as [| | | | | | | | | | | |s| |s code|s| | | | | |now]; try done; cbn [broker_step].
  - unfold dataOpen. cbv zeta. cbn [objs set_sock]. destruct (objs b !! s) as [l|] eqn:El; [|by apply fair_quiet]. apply fair_quiet; try done. intros t. apply (id_of_set s _ (set_sock s OPEN b)). exact (id_of_obj b s l El).
  - unfold dataClose. cbv zeta. destruct (objs b !! s) as [l|] eqn:El; [|by apply fair_quiet]. pose proof (id_of_obj b s l El) as Hid.
    assert (forall t, id_of (set_obj s (clear_open_timer l) (set_sock s CLOSED b)) t = id_of b t) as Hi by (intros t; apply (id_of_set s _ (set_sock s CLOSED b)); exact Hid).
    cbn [legs set_obj set_sock]. case_bool_decide as Hg; [|by apply fair_quiet]. apply (fair_unlink b _ _ (connectionId l) s); try done. intros t. apply closes_one.
  - unfold openTimeout. destruct (objs b !! s) as [l|] eqn:El; [|by apply fair_same]. destruct (openTimer l); [|by apply fair_same].
    eapply fair_after; [by apply fair_set_obj, (id_of_obj b s l)|]. apply fair_andThen; intros b' Ht'; [by apply fair_quiet|by apply fair_finish].
  - unfold sweepLegs. apply fair_each; [|done]. intros [conn s] b' Ht'. cbn [fst snd]. destruct (objs b' !! s) as [l|]; [|by apply fair_same].
    case_bool_decide; [by apply fair_closeLeg|by apply fair_same].
Qed.

Lemma fair_step ev : fair_op (broker_step ev).
Proof.
  destruct ev; try (by apply fair_control); try (by apply fair_data); cbn [broker_step].
  - apply fair_start. - apply fair_stop. - apply fair_startResolved. - apply fair_controlDialed. - intros b Ht. by apply fair_quiet. - apply fair_controlMessage. - apply fair_dataDialed.
  - apply fair_route. - apply fair_responder. - apply fair_receive. - apply fair_sendStep. - apply fair_send. - intros b Ht. by apply fair_closeLeg.
Qed.

Lemma table_new : table_ok newBroker.
Proof. split_and!; [apply jwf_nil|done|done]. Qed.

(** Every leg the broker opens is reported closed at most once, and never while it is in the table; a leg that has left the table was reported, unless a newer leg of the same connection took its place there. *)
Theorem leg_is_closed_once evs s :
  let '(b, es) := broker_run evs newBroker in
  (closes s es <= 1)%nat /\ (live s b -> closes s es = 0%nat) /\
  forall conn, id_of b s = Some conn -> ~ live s b -> closes s es = 1%nat \/ exists s', (s < s')%nat /\ id_of b s' = Some conn.
Proof.
  pose proof (fair_each broker_step evs fair_step newBroker table_new) as F. unfold broker_run. destruct (each broker_step evs newBroker) as [b es]. cbn [fst snd] in F.
  destruct (fair_report _ _ _ F s) as [H1 H2]. split_and!; [done| |].
  - intros Hl. destruct (decide (1 <= closes s es)%nat) as [H|]; [|lia]. destruct (H2 H) as [_ Hn]. destruct Hn. by left.
  - intros conn Hid Hn. destruct (fair_decided _ _ _ F s conn Hid) as [Hc|(s' & Hs & Hc)]; [right; cbn; lia| |by left|right; exists s'; split; [lia|done]].
    intros [Hl|Hge]; [done|]. destruct (fair_table _ _ _ F) as (_ & _ & Hb). specialize (Hb s ltac:(by rewrite Hid)). lia.
Qed.

(** ** The way back to the relay *)

(** The fields that decide whether the broker will try again. *)
Definition way (c : Control) := (state c, relayUrl c, controlWs c, (reconnectHandle c, reconnectArmed c, attempts c), (starting c, dialing c)).

Definition delay_ok (e : Effect) : Prop := match e with ArmReconnect ms => reconnectBaseMs timing <= ms <= reconnectCapMs timing | _ => True end.

(** An operation that touches none of them and closes no socket for good. *)
Record still (b : Broker) (es : list Effect) (b' : Broker) : Prop := {
  still_way : way (ctl b') = way (ctl b);
  still_socks s : socks b' !! s = Some CLOSED -> socks b !! s = Some CLOSED;
  still_delay : Forall delay_ok es;
}.

Definition still_op (f : Broker -> Broker * list Effect) : Prop := forall b, still b (f b).2 (f b).1.

Lemma still_ctl b es b' : ctl b' = ctl b -> socks b' = socks b -> Forall delay_ok es -> still b es b'.
Proof. intros Hc Hs Hd. constructor; [by rewrite Hc|by rewrite Hs|done]. Qed.

Lemma still_same b : still b [] b.
Proof. by apply still_ctl. Qed.

Lemma still_trans b e1 b1 e2 b2 : still b e1 b1 -> still b1 e2 b2 -> still b (e1 ++ e2) b2.
Proof. intros [W1 S1 D1] [W2 S2 D2]. constructor; [congruence|auto|by apply Forall_app]. Qed.

Lemma still_andThen f g : still_op f -> still_op g -> still_op (andThen f g).
Proof.
  intros Hf Hg b. unfold andThen. specialize (Hf b). destruct (f b) as [b1 e1]. cbn [fst snd] in Hf. specialize (Hg b1).
  destruct (g b1) as [b2 e2]. cbn [fst snd] in *. by eapply still_trans.
Qed.

Lemma still_each {A} (f : A -> Broker -> Broker * list Effect) l : (forall x, still_op (f x)) -> still_op (each f l).
Proof. intros Hf. induction l as [|x l IH]; [intros b; by apply still_same|by apply still_andThen]. Qed.

Lemma still_after b b1 f : still b [] b1 -> still_op f -> still b (f b1).2 (f b1).1.
Proof. intros F Hf. apply (still_trans b [] b1); [done|]. apply Hf. Qed.

Lemma still_obj b s l : still b [] (set_obj s l b).
Proof. by apply still_ctl. Qed.

(** Any new state of a socket but the last. *)
Lemma still_sock b s st es : st <> CLOSED -> Forall delay_ok es -> still b es (set_sock s st b).
Proof.
  intros Hst Hd. constructor; [done| |done]. intros t. cbn [socks set_sock]. destruct (decide (t = s)) as [->|]; [rewrite lookup_insert_eq; congruence|by rewrite lookup_insert_ne].
Qed.

Lemma still_drop conn s code reason : still_op (drop_leg conn s code reason).
Proof.
  intros b. unfold drop_leg. cbv zeta. set (b1 := match objs (set_legs (jdel conn (legs b)) b) !! s with Some l => _ | None => _ end).
  assert (still b [] b1) as H1 by (unfold b1; cbn [objs set_legs]; by destruct (objs b !! s); apply still_ctl).
  assert (still b1 (close_socket s code b1).2 (close_socket s code b1).1) as H2 by (unfold close_socket; destruct (at_most_open _); [apply still_sock; [done|by repeat constructor]|by apply still_same]).
  destruct (close_socket s code b1) as [b2 e]. cbn [fst snd] in *. rewrite <- (app_nil_l e), <- app_assoc. eapply still_trans; [exact H1|]. eapply still_trans; [exact H2|]. apply still_ctl; [done..|by repeat constructor].
Qed.

Lemma still_closeLeg conn code reason : still_op (closeLeg conn code reason).
Proof. intros b. unfold closeLeg. destruct (jget conn (legs b)); [apply still_drop|apply still_same]. Qed.

Lemma still_finish s code reason : still_op (finish s code reason).
Proof. intros b. unfold finish. destruct (objs b !! s); [|apply still_same]. case_bool_decide; [apply still_drop|apply still_same]. Qed.

Lemma still_respond s ev : still_op (respond s ev).
Proof.
  intros b. unfold respond. destruct (objs b !! s) as [l|]; [|apply still_same]. destruct (responder_step _ _ _ _) as [r effs].
  eapply still_after; [apply still_obj|]. apply still_each. intros eff b'. destruct eff as [t|code reason|e]; cbn [responderEffect].
  - apply still_ctl; [done..|by repeat constructor]. - apply still_finish. - destruct (objs b' !! s); [|apply still_same]. apply still_ctl; [done..|by repeat constructor].
Qed.

Lemma still_openDataLeg conn : still_op (openDataLeg conn).
Proof. intros b. unfold openDataLeg. case_bool_decide; [apply still_same|]. by destruct (relayUrl _); apply still_ctl. Qed.

Lemma still_controlMessage data bin now : still_op (controlMessage data bin now).
Proof.
  intros b. unfold controlMessage. cbv zeta. destruct bin; [by constructor|]. eapply still_after; [by constructor|]. clear b. intros b.
  unfold handleControlMessage. destruct data as [m|]; [|by apply still_same]. assert (still b [Uncaught] b) as Hu by (apply still_ctl; [done..|by repeat constructor]).
  assert (forall (ids : list string) conn, still_op (if bool_decide (conn ∈ ids) then fun b => (b, []) else closeLeg conn 1000 "sync drop")) as Hdrop.
  { intros ids conn. case_bool_decide; [intros b'; apply still_same|apply still_closeLeg]. }
  destruct m; try done; cbv zeta; repeat case_match; first [by apply still_same | by apply still_openDataLeg | by apply still_closeLeg | idtac].
  all: apply still_andThen; apply still_each; intros conn; try apply still_openDataLeg; try apply Hdrop.
Qed.

(** The events that say nothing about the control socket's life. *)
Definition aside (ev : Event) : Prop :=
  match ev with
  | Start _ | Stop | StartResolved _ | ControlDialed _ | ControlOpen _ _ | ControlClose _ _ | ReconnectFires | DataClose _ _ => False
  | _ => True
  end.

Lemma still_step ev : aside ev -> still_op (broker_step ev).
Proof.
  intros Ha b. destruct ev; try done; cbn [broker_step]; try first [apply still_respond | apply still_controlMessage | apply still_closeLeg].
  - unfold controlError. by destruct (_ || _); constructor.
  - unfold pingTick. destruct (_ || _); [apply still_same|]. case_bool_decide; [apply still_sock|apply still_ctl]; try done; by repeat constructor.
  - unfold dataDialed. destruct (negb _); [apply still_same|]. cbv zeta. destruct ok; cbn [negb]; [|apply still_ctl; [done..|by repeat constructor]].
    destruct (hasIdentity _); (constructor; [done| |by repeat constructor]); cbn [negb]; intros t; cbn [socks fst set_dials next];
      (destruct (decide (t = next b)) as [->|]; [by rewrite lookup_insert_eq|by rewrite lookup_insert_ne]).
  - unfold dataOpen. cbv zeta. cbn [fst snd objs set_sock]. destruct (objs b !! s); [rewrite <- (app_nil_l []); eapply still_trans; [|apply still_obj]|]; by apply still_sock.
  - unfold routeLegFrame. destruct (objs b !! s) as [l|]; [|apply still_same]. cbv zeta. destruct data as [text|frame]; [|case_match; [by apply still_ctl|]]; (eapply still_after; [apply still_obj|apply still_respond]).
  - unfold openTimeout. destruct (objs b !! s) as [l|]; [|apply still_same]. destruct (openTimer l); [|apply still_same].
    eapply still_after; [apply still_obj|]. apply still_andThen; [|apply still_finish]. intros b'. apply still_sock; [done|by repeat constructor].
  - unfold receiveStep. destruct (objs b !! s) as [l|]; [|apply still_same]. destruct (receiving l); [apply still_same|]. cbv zeta. destruct (session l) as [sess|]; [|apply still_obj].
    destruct (decryptFrame _ _) as [d [payload|e]]; [apply still_ctl; [done..|by repeat constructor]|]. eapply still_after; [apply still_obj|apply still_closeLeg].
  - unfold sendStep. repeat case_match; try apply still_same; apply still_ctl; try done; by repeat constructor.
  - unfold sendToClient. repeat case_match; apply still_ctl; try done; by repeat constructor.
  - unfold sweepLegs. apply still_each. intros [conn s] b'. cbn [fst snd]. destruct (objs b' !! s); [|apply still_same]. case_bool_decide; [apply still_closeLeg|apply still_same].
Qed.

(** There is a start, a dial, an unfinished socket or a timer to wait for; with what keeps it so. *)
Definition starting_or_awake (b : Broker) : Prop :=
  let c := ctl b in
  (0 < starting c)%nat \/
  state c <> disabled /\ ((0 < dialing c)%nat \/ (exists s, controlWs c = Some s /\ socks b !! s <> Some CLOSED) \/ reconnectArmed c = true).

Record on_its_way (b : Broker) : Prop := {
  way_table : table_ok b;
  way_awake : starting_or_awake b;
  way_url : relayUrl (ctl b) <> None;
  way_handle : reconnectHandle (ctl b) = reconnectArmed (ctl b);
  way_attempts : 0 <= attempts (ctl b);
  way_socket s : controlWs (ctl b) = Some s -> (s < next b)%nat /\ id_of b s = None /\ socks b !! s <> Some CLOSED;
}.

Definition steady (ev : Event) : Prop := match ev with Start _ | Stop | StartResolved None => False | _ => True end.

Context (Hcap : 0 <= reconnectBaseMs timing <= reconnectCapMs timing).

Lemma way_still b es b' : on_its_way b -> fair b es b' -> still b es b' -> on_its_way b'.
Proof.
  intros [Ht Ha Hu Hh Hn Hs] F [W S D]. unfold way in W. injection W as W1 W2 W3 W4 W5 W6 W7 W8. constructor.
  - apply F.
  - unfold starting_or_awake in *. rewrite W1, W3, W5, W7, W8. destruct Ha as [|(? & [|[(s & Hc & Hso)|]])]; [by left|right; split; [done|]..]; [by left|right; left|by right; right].
    exists s. split; [done|]. auto.
  - by rewrite W2.
  - by rewrite W4, W5.
  - by rewrite W6.
  - rewrite W3. intros s Hc. destruct (Hs s Hc) as (H1 & H2 & H3). split_and!; [pose proof (fair_next _ _ _ F); lia|by rewrite (fair_ids _ _ _ F)|auto].
Qed.

(** The delay of the n-th attempt in a row. *)
Lemma delay_bounds n : 1 <= n -> reconnectBaseMs timing <= Z.min (reconnectCapMs timing) (reconnectBaseMs timing * 2 ^ (n - 1)) <= reconnectCapMs timing.
Proof. intros Hn. pose proof (Z.pow_pos_nonneg 2 (n - 1) ltac:(lia) ltac:(lia)). split; [|lia]. apply Z.min_glb; [lia|]. nia. Qed.

(** Losing the socket or failing to dial arms the timer, if it is not armed. *)
Lemma schedule_wakes b :
  table_ok b -> relayUrl (ctl b) <> None -> reconnectHandle (ctl b) = reconnectArmed (ctl b) -> 0 <= attempts (ctl b) -> state (ctl b) <> disabled ->
  (forall s, controlWs (ctl b) = Some s -> (s < next b)%nat /\ id_of b s = None /\ socks b !! s <> Some CLOSED) ->
  on_its_way (scheduleReconnect b).1 /\ Forall delay_ok (scheduleReconnect b).2.
Proof.
  intros Ht Hu Hh Hn Hd Hs. unfold scheduleReconnect. rewrite (bool_decide_eq_false_2 (state (ctl b) = disabled)), orb_false_r by done. destruct (reconnectHandle (ctl b)) eqn:Eh; cbn [fst snd].
  - split; [|by constructor]. constructor; try done; [|congruence]. right. split; [done|]. right. by right.
  - split; [|repeat constructor; cbn [delay_ok]; apply delay_bounds; lia]. constructor; try done; cbn [ctl set_ctl set_reconnect attempts]; [|lia]. right. split; [done|]. right. by right.
Qed.

(** A step of [connectControl] once the address is known. *)
Lemma way_startResolved name b : on_its_way b -> on_its_way (startResolved (Some name) b).1.
Proof.
  intros [Ht Ha Hu Hh Hn Hs]. unfold startResolved, connectControl. destruct (starting (ctl b)) eqn:Es; [by constructor|]. cbn [relayUrl ctl set_ctl set_state set_server set_pending].
  destruct (relayUrl (ctl b)) as [u|] eqn:Eu; [|done]. constructor; try done; [|cbn; congruence]. right. cbn. split; [done|]. left. lia.
Qed.

Lemma way_controlDialed ok b : on_its_way b -> on_its_way (controlDialed ok b).1 /\ Forall delay_ok (controlDialed ok b).2.
Proof.
  intros H. pose proof (fair_controlDialed ok b (way_table b H)) as F. destruct H as [Ht Ha Hu Hh Hn Hs]. unfold controlDialed in *. destruct (dialing (ctl b)) as [|n] eqn:Ed; [by split|]. destruct ok.
  - split; [|done]. pose proof (fair_table _ _ _ F) as Ht'. cbn [fst snd ctl set_ctl next set_control] in *. destruct Ht as (_ & _ & Hold). constructor; try done.
    + destruct Ha as [Ha|[Hd _]]; [by left|right]. split; [done|]. right. left. exists (next b). split; [done|]. cbn. by rewrite lookup_insert_eq.
    + cbn. intros s [= <-]. rewrite lookup_insert_eq. split_and!; [lia| |done]. unfold id_of. cbn [objs]. destruct (objs b !! next b) as [l|] eqn:El; [|done]. specialize (Hold (next b)). unfold id_of in Hold. rewrite El in Hold. specialize (Hold ltac:(done)). lia.
  - by apply schedule_wakes.
Qed.

Lemma way_controlOpen s now b : on_its_way b -> on_its_way (controlOpen s now b).1.
Proof.
  intros H. assert (on_its_way (set_sock s OPEN b)) as [Ht Ha Hu Hh Hn Hs].
  { apply (way_still b []); [done|apply fair_sock, H|by apply still_sock]. }
  unfold controlOpen. cbv zeta. destruct (_ || _) eqn:E; [by constructor|]. apply orb_false_iff in E as [_ Ed%bool_decide_eq_false]. constructor; try done.
  destruct Ha as [Ha|[Hd Ha]]; [by left|]. right. by split.
Qed.

Lemma way_controlClose s code b : on_its_way b -> on_its_way (controlClose s code b).1 /\ Forall delay_ok (controlClose s code b).2.
Proof.
  intros [Ht Ha Hu Hh Hn Hs]. unfold controlClose. cbv zeta. cbn [ctl set_sock]. destruct (decide (controlWs (ctl b) = Some s)) as [Ec|Hne].
  - rewrite bool_decide_eq_false_2 by (by intros ?). cbn [ctl set_ctl state set_control]. case_bool_decide as Hd.
    + split; [|done]. destruct Ha as [Ha|[]]; [|done]. by constructor; try left.
    + apply schedule_wakes; try done; by case_bool_decide.
  - rewrite bool_decide_eq_true_2 by done. split; [|done]. cbn [fst].
    assert (forall t, controlWs (ctl b) = Some t -> socks (set_sock s CLOSED b) !! t = socks b !! t) as Hk by (intros t Hc; cbn; apply lookup_insert_ne; congruence).
    constructor; try done; [|intros t Hc; rewrite (Hk t Hc); by apply Hs]. destruct Ha as [Ha|(Hd & [|[(t & Hc & Hso)|]])]; [by left|right; split; [done|]..]; [by left|right; left|by right; right].
    exists t. split; [done|]. by rewrite (Hk t Hc).
Qed.

Lemma way_reconnectFires b : on_its_way b -> on_its_way (reconnectFires b).1.
Proof.
  intros [Ht Ha Hu Hh Hn Hs]. unfold reconnectFires, connectControl. cbv zeta. destruct (reconnectArmed (ctl b)) eqn:Er; [|constructor; try done; cbn; congruence]. cbn [negb ctl set_ctl state set_reconnect relayUrl].
  case_bool_decide as Hd; [destruct Ha as [Ha|[Hd' _]]; [|done]; constructor; try done; by left|]. destruct (relayUrl (ctl b)) as [u|] eqn:Eu; [|done]. constructor; try done; [|cbn; congruence]. right. split; [done|]. left. cbn. lia.
Qed.

Lemma way_dataClose s code b : on_its_way b -> on_its_way (dataClose s code b).1.
Proof.
  intros H. pose proof (fair_data (DataClose s code) I b (way_table b H)) as F. cbn [broker_step] in F. destruct H as [Ht Ha Hu Hh Hn Hs].
  assert (ctl (dataClose s code b).1 = ctl b) as Hc by (unfold dataClose; destruct (objs b !! s); [by case_bool_decide|done]).
  assert (forall t, controlWs (ctl b) = Some t -> socks (dataClose s code b).1 !! t = socks b !! t) as Hk.
  { intros t Et. destruct (Hs t Et) as (_ & Hid & _). unfold dataClose. destruct (objs b !! s) as [l|] eqn:El; [|done]. assert (t <> s) by (intros ->; unfold id_of in Hid; by rewrite El in Hid).
    cbv zeta. case_bool_decide; cbn; by rewrite lookup_insert_ne. }
  constructor; rewrite ?Hc; try done; [apply F| |].
  - unfold starting_or_awake. rewrite Hc. destruct Ha as [Ha|(Hd & [|[(t & Hct & Hso)|]])]; [by left|right; split; [done|]..]; [by left|right; left|by right; right]. exists t. by rewrite (Hk t Hct).
  - intros t Et. destruct (Hs t Et) as (H1 & H2 & H3). rewrite (Hk t Et). split_and!; [pose proof (fair_next _ _ _ F); lia|by rewrite (fair_ids _ _ _ F)|done].
Qed.

Lemma way_step ev b : steady ev -> on_its_way b -> on_its_way (broker_step ev b).1 /\ Forall delay_ok (broker_step ev b).2.
Proof.
  intros Hst H. assert (aside ev -> on_its_way (broker_step ev b).1 /\ Forall delay_ok (broker_step ev b).2) as Haside.
  { intros Ha. pose proof (still_step ev Ha b) as S. split; [|apply S]. eapply way_still; [done|apply fair_step, H|exact S]. }
  destruct ev as [| |[name|]|ok|s now| | | |s code| | | | | |s code| | | | | | | ]; try done; try (by apply Haside); clear Haside; cbn [broker_step].
  - split; [by apply way_startResolved|]. unfold startResolved. by destruct (starting _).
  - by apply way_controlDialed.
  - split; [by apply way_controlOpen|]. unfold controlOpen. by destruct (_ || _).
  - by apply way_controlClose.
  - split; [by apply way_reconnectFires|]. unfold reconnectFires. destruct (negb _); [done|]. cbv zeta. by case_bool_decide.
  - split; [by apply way_dataClose|]. unfold dataClose. destruct (objs b !! s); [|done]. cbv zeta. case_bool_decide; by repeat constructor.
Qed.

Lemma way_run evs b : Forall steady evs -> on_its_way b -> on_its_way (broker_run evs b).1 /\ Forall delay_ok (broker_run evs b).2.
Proof.
  unfold broker_run. intros Hs. revert b. induction Hs as [|ev evs Hev _ IH]; intros b H; [done|]. cbn [each]. unfold andThen. destruct (way_step ev b Hev H) as [H1 D1].
  destruct (broker_step ev b) as [b1 e1]. cbn [fst snd] in *. destruct (IH b1 H1) as [H2 D2]. destruct (each broker_step evs b1) as [b2 e2]. cbn [fst snd] in *. split; [done|]. by apply Forall_app.
Qed.

(** C29. Once started and not stopped, the broker is never without a way back to the relay, whatever its sockets, dials and timers do: the start is under way, a control dial is under way, the control socket in use has not closed, or the reconnect timer is armed; and every reconnect delay lies between the base and the cap. *)
Theorem host_keeps_a_way_back url evs :
  Forall steady evs ->
  let '(b, es) := broker_run (Start url :: evs) newBroker in
  starting_or_awake b /\ Forall delay_ok es.
Proof.
  intros Hs. pose (b0 := set_ctl (fun c => set_pending (S (starting c)) (dialing c) (set_url (Some url) c)) newBroker). assert (on_its_way b0) as H by (constructor; try done; [apply table_new|left; cbn; lia]).
  destruct (way_run evs b0 Hs H) as [H1 H2]. unfold broker_run in *. cbn [each]. unfold andThen. change (broker_step (Start url) newBroker) with (b0, @nil Effect). cbv iota beta.
  destruct (each broker_step evs b0) as [b es]. split; [apply H1|done].
Qed.

(** ** What a stop leaves behind *)

(** [stop] clears the reconnect timer but keeps its handle, and [scheduleReconnect] asks the handle: a broker that was stopped while it waited to reconnect, and started again, does not reconnect any more. *)
Lemma stop_keeps_the_reconnect_handle :
  let r := broker_run [Start "wss://relay"; StartResolved (Some "srv"); ControlDialed false; Stop; Start "wss://relay"; StartResolved (Some "srv"); ControlDialed true; ControlOpen 0 5; ControlClose 0 1006] newBroker in
  let c := ctl r.1 in
  r.2 = [ArmReconnect (Z.min (reconnectCapMs timing) (reconnectBaseMs timing * 1))] /\
  state c = reconnecting /\ dialing c = 0%nat /\ starting c = 0%nat /\ controlWs c = None /\ reconnectArmed c = false.
Proof. by vm_compute. Qed.

(** Two [connected] messages of one connection before its address is there open two legs; the second takes the place of the first, which stays open and unreported. *)
Lemma connected_twice_orphans_a_leg :
  let connected := JObj [("type", JStr "connected"); ("connectionId", JStr "c1")] in
  let r := broker_run [Start "wss://relay"; StartResolved (Some "srv"); ControlDialed true; ControlOpen 0 5; ControlMessage (Some connected) false 6; ControlMessage (Some connected) false 7;
    DataDialed "c1" true 8; DataOpen 1; DataDialed "c1" true 9] newBroker in
  r.2 = [] /\ legs r.1 = [("c1", 2%nat)] /\ id_of r.1 1 = Some "c1" /\ socks r.1 !! 1%nat = Some OPEN.
Proof. by vm_compute. Qed.

(** A control dial that fails after the stop leaves the stopped broker in [reconnecting], with a timer armed. *)
Lemma late_dial_revives_a_stopped_broker :
  let r := broker_run [Start "wss://relay"; StartResolved (Some "srv"); Stop; ControlDialed false] newBroker in
  state (ctl r.1) = reconnecting /\ reconnectArmed (ctl r.1) = true /\ relayUrl (ctl r.1) = None.
Proof. by vm_compute. Qed.

(** The control text [null] throws out of the message handler. *)
Lemma control_null_throws now b : (controlMessage (Some JNull) false now b).2 = [Uncaught].
Proof. done. Qed.

End broker.

(** ** Concrete runs *)

Section toy.
#[local] Instance toy_crypto : HandshakeCrypto nat nat unit := { ecdh a j := Some (a * String.length (jwk_x j))%nat; hkdf s salt info := []; importAes b := tt; fromBase64url _ := [] }.
#[local] Instance toy_gcm : AesGcm unit := { gcm_encrypt := fun _ _ p => p; gcm_decrypt := fun _ _ c => Some c }.

Lemma host_keeps_a_way_back_witness :
  let '(b, es) := broker_run DEFAULT_HOST_BROKER_TIMING 2%nat (mkCaps true true)
    [Start "wss://relay"; StartResolved (Some "srv"); ControlDialed true; ControlOpen 0 5; ControlClose 0 1006; ReconnectFires; ControlDialed false; ReconnectFires; ControlDialed true; ControlOpen 1 9; PingTick 1 60000; ControlClose 1 1006] newBroker in
  starting_or_awake b /\ Forall (delay_ok DEFAULT_HOST_BROKER_TIMING) es.
Proof. apply (host_keeps_a_way_back DEFAULT_HOST_BROKER_TIMING 2%nat (mkCaps true true)); [vm_compute; split; discriminate|repeat constructor]. Defined.

(** A leg closed by the relay and its successor. *)
Lemma leg_is_closed_once_witness :
  let connected := JObj [("type", JStr "connected"); ("connectionId", JStr "c1")] in
  let '(b, es) := broker_run DEFAULT_HOST_BROKER_TIMING 2%nat (mkCaps true true)
    [Start "wss://relay"; StartResolved (Some "srv"); ControlDialed true; ControlOpen 0 5; ControlMessage (Some connected) false 6; DataDialed "c1" true 8; DataOpen 1; Terminate "c1" 1011 "bad"; DataClose 1 1011;
     ControlMessage (Some connected) false 9; DataDialed "c1" true 10] newBroker in
  (closes 1 es <= 1)%nat /\ (live 1 b -> closes 1 es = 0%nat) /\
  forall conn, id_of b 1 = Some conn -> ~ live 1 b -> closes 1 es = 1%nat \/ exists s', (1 < s')%nat /\ id_of b s' = Some conn.
Proof. apply (leg_is_closed_once DEFAULT_HOST_BROKER_TIMING 2%nat (mkCaps true true)). Defined.
End toy.
