(* ===== verification/RelayService.v ===== *)
(** The relay host service (lib/relay/host-service.ts), with the machine claim it shares
    with the other local instances (lib/relay/host-lock.ts) and the stored relay
    configuration (lib/relay/relay-config.ts).

    Several processes share one data directory: the claim file and the configuration
    file. A step is one callback of one process, up to its next await; the file calls of
    a callback are taken together. Hosts (brokers) are numbered as they are created, and
    [up] holds those that were not stopped, with their process. *)

From S2P Require Import Prelude JsString JsMap JsValue JsDate.

Local Open Scope Z_scope.

(** ** The configuration file *)

Section config.
(** The protocol of a URL, when the URL parses. *)
Context (protocol : string -> option string).

Record RelayConfig := { enabled : bool; relayUrl : option string; corrupt : bool }.

Definition DEFAULT_RELAY_URL : string := "wss://relay.openchamber.dev/ws".

Definition isWsUrl (value : option json) : bool :=
  match value with
  | Some (JStr s) =>
    negb (bool_decide (slen s = 0)) && bool_decide (slen s <= 2048) &&
    match protocol s with
    | Some p => (bool_decide (p = "ws:") || bool_decide (p = "wss:")) && starts_with "ws" (toLowerCase s)
    | None => false
    end
  | _ => false
  end.

Definition parseConfigFile (raw : json) : option (bool * option string) :=
  match raw with
  | JObj _ =>
    if negb (is_int (jfield "version" raw) 1) then None
    else match jfield "enabled" raw with
    | Some (JBool e) =>
      if match jfield "relayUrl" raw with Some JNull => false | u => negb (isWsUrl u) end then None
      else Some (e, match jfield "relayUrl" raw with Some (JStr s) => Some s | _ => None end)
    | _ => None
    end
  | _ => None
  end.

(** The file: absent, or what its text parses to. *)
Definition ConfigFile := option (option json).

Definition config_read (f : ConfigFile) : RelayConfig :=
  match f with
  | None => {| enabled := false; relayUrl := None; corrupt := false |}
  | Some raw =>
    match raw ≫= parseConfigFile with
    | Some (e, u) => {| enabled := e; relayUrl := u; corrupt := false |}
    | None => {| enabled := false; relayUrl := None; corrupt := true |}
    end
  end.

Definition config_doc (e : bool) (u : option string) : json :=
  JObj [("version", JInt 1); ("enabled", JBool e); ("relayUrl", match u with Some s => JStr s | None => JNull end)].

(** [None] when it refuses to write. *)
Definition config_write (e : bool) (u : option string) (f : ConfigFile) : option ConfigFile :=
  if corrupt (config_read f) then None else Some (Some (Some (config_doc e u))).

(** The environment of a process. *)
Record Env := { NOTNATIVE_RELAY_URL : option string; NOTNATIVE_RELAY_HOST : option string; NOTNATIVE_ELECTRON_DEV : option string }.

Definition readEnvRelayUrl (env : Env) : option string :=
  match NOTNATIVE_RELAY_URL env with Some s => if isWsUrl (Some (JStr s)) then Some s else None | None => None end.

Definition relayUrlLocked (env : Env) : bool := bool_decide (is_Some (readEnvRelayUrl env)).

Definition readRelayHostHoldOut (env : Env) : bool :=
  if bool_decide (NOTNATIVE_RELAY_HOST env = Some "on") then false
  else if bool_decide (NOTNATIVE_RELAY_HOST env = Some "off") then true
  else bool_decide (NOTNATIVE_ELECTRON_DEV env = Some "1").

Definition resolveRelayUrl (env : Env) (c : RelayConfig) : string :=
  match readEnvRelayUrl env with Some u => u | None => default DEFAULT_RELAY_URL (relayUrl c) end.

Definition normalizeRelayUrl (input : option json) : string :=
  match input with Some (JStr s) => if isWsUrl input then s else DEFAULT_RELAY_URL | _ => DEFAULT_RELAY_URL end.

(** ** The machine claim *)

Record RelayHostClaim := { claim_pid : Z; claimedAt : string }.

Definition parseClaim (raw : json) : option RelayHostClaim :=
  match raw with
  | JObj _ =>
    match jfield "pid" raw, jfield "claimedAt" raw with
    | Some (JNum n), Some (JStr at_) =>
      match num_int n with
      | Some pid => if bool_decide (0 < pid) && negb (bool_decide (at_ = "")) then Some {| claim_pid := pid; claimedAt := at_ |} else None
      | None => None
      end
    | _, _ => None
    end
  | _ => None
  end.

Inductive RelayClaimOutcome := claimed | contended | write_failed.

(** What the text of the claim file parses to, if it is there and does. *)
Definition readClaim (f : option json) : option RelayHostClaim := f ≫= parseClaim.

Definition readOwnClaim (pid : Z) (f : option json) : option RelayHostClaim :=
  match readClaim f with Some c => if bool_decide (claim_pid c = pid) then Some c else None | None => None end.

Definition foreignClaimant (alive : Z -> bool) (pid : Z) (f : option json) : option RelayHostClaim :=
  match readClaim f with Some c => if negb (bool_decide (claim_pid c = pid)) && alive (claim_pid c) then Some c else None | None => None end.

Definition writeClaim (pid now : Z) (ok : bool) (f : option json) : option json * RelayClaimOutcome :=
  if ok then (Some (JObj [("pid", JInt pid); ("claimedAt", JStr (toISOString now))]), claimed) else (f, write_failed).

Definition tryClaim (alive : Z -> bool) (pid now : Z) (ok : bool) (f : option json) : option json * RelayClaimOutcome :=
  match readClaim f with
  | Some c => if negb (bool_decide (claim_pid c = pid)) && alive (claim_pid c) then (f, contended) else writeClaim pid now ok f
  | None => writeClaim pid now ok f
  end.

Definition forceClaim (pid now : Z) (ok : bool) (f : option json) : option json * RelayClaimOutcome := writeClaim pid now ok f.

Definition release (pid : Z) (ok : bool) (f : option json) : option json :=
  if bool_decide (is_Some (readOwnClaim pid f)) && ok then None else f.

(** ** The service of one process *)

Record RelayHostServiceTiming := { claimWatcherMs : Z; demandPollMs : Z; claimTakeoverGraceMs : Z }.

Definition DEFAULT_RELAY_SERVICE_TIMING : RelayHostServiceTiming := {| claimWatcherMs := 30000; demandPollMs := 60000; claimTakeoverGraceMs := 120000 |}.

Context (timing : RelayHostServiceTiming) (env : Z -> Env).

Record StandbyNote := { note_text : string; since : Z }.

(** Who waits for a host to start: the boot, the demand poll, the watcher, or a route.
    A route that turns the host on arms the timers when it is done. *)
Inductive Origin := boot | poll | takeover | reconcile_route | turn_on.

(** [reconciling] are the reconciles that await their demand signals, [creating] the
    starts that await the factory, [starting] those that await their host. *)
Record Service := {
  host : option nat; standby : option StandbyNote; holdNote : option string; configNote : option string; armed : bool;
  reconciling : list (Origin * RelayConfig); creating : list Origin; starting : list (Origin * nat) }.

Definition new_service : Service := {| host := None; standby := None; holdNote := None; configNote := None; armed := false; reconciling := []; creating := []; starting := [] |}.

Definition with_host (h : option nat) (s : Service) : Service := {| host := h; standby := standby s; holdNote := holdNote s; configNote := configNote s; armed := armed s; reconciling := reconciling s; creating := creating s; starting := starting s |}.
Definition with_standby (n : option StandbyNote) (s : Service) : Service := {| host := host s; standby := n; holdNote := holdNote s; configNote := configNote s; armed := armed s; reconciling := reconciling s; creating := creating s; starting := starting s |}.
Definition with_hold (n : option string) (s : Service) : Service := {| host := host s; standby := standby s; holdNote := n; configNote := configNote s; armed := armed s; reconciling := reconciling s; creating := creating s; starting := starting s |}.
Definition with_note (n : option string) (s : Service) : Service := {| host := host s; standby := standby s; holdNote := holdNote s; configNote := n; armed := armed s; reconciling := reconciling s; creating := creating s; starting := starting s |}.
Definition with_armed (a : bool) (s : Service) : Service := {| host := host s; standby := standby s; holdNote := holdNote s; configNote := configNote s; armed := a; reconciling := reconciling s; creating := creating s; starting := starting s |}.
Definition with_pending (r : list (Origin * RelayConfig)) (c : list Origin) (l : list (Origin * nat)) (s : Service) : Service :=
  {| host := host s; standby := standby s; holdNote := holdNote s; configNote := configNote s; armed := armed s; reconciling := r; creating := c; starting := l |}.

(** The machine: its two files, its live processes, the services and the hosts. *)
Record World := { lockFile : option json; configFile : ConfigFile; live : gset Z; services : gmap Z Service; hosts : nat; up : gmap nat Z }.

Definition alive (w : World) (pid : Z) : bool := bool_decide (pid ∈ live w).
Definition service (w : World) (p : Z) : Service := default new_service (services w !! p).
Definition with_service (p : Z) (f : Service -> Service) (w : World) : World :=
  {| lockFile := lockFile w; configFile := configFile w; live := live w; services := <[p := f (service w p)]> (services w); hosts := hosts w; up := up w |}.
Definition with_lock (f : option json) (w : World) : World := {| lockFile := f; configFile := configFile w; live := live w; services := services w; hosts := hosts w; up := up w |}.
Definition with_config (f : ConfigFile) (w : World) : World := {| lockFile := lockFile w; configFile := f; live := live w; services := services w; hosts := hosts w; up := up w |}.
Definition stop_host (h : nat) (w : World) : World := {| lockFile := lockFile w; configFile := configFile w; live := live w; services := services w; hosts := hosts w; up := delete h (up w) |}.

Definition shutHostDown (p : Z) (w : World) : World :=
  match host (service w p) with
  | Some h => stop_host h (with_service p (with_host None) w)
  | None => w
  end.

Definition foreign (p : Z) (w : World) : option RelayHostClaim := foreignClaimant (alive w) p (lockFile w).

Definition takeoverStandbyNote (p now : Z) (w : World) : StandbyNote :=
  {| note_text := match foreign p w with
       | Some c => "relay host is owned by another local OpenChamber process (pid " +:+ pretty (claim_pid c) +:+ ")"
       | None => "relay host claim is held elsewhere"
       end;
     since := now |}.

Definition ensureMachines (p : Z) (w : World) : World := with_service p (with_armed true) w.

(** The grace of a standby is not over. *)
Definition in_grace (now : Z) (n : StandbyNote) : bool := bool_decide (now - since n < claimTakeoverGraceMs timing).

(** [startHost] up to the factory it awaits. A start that ends here is over for its route. *)
Definition startHost (p now : Z) (ok : bool) (o : Origin) (force restartIfRunning : bool) (w : World) : World :=
  if readRelayHostHoldOut (env p) && negb force
  then shutHostDown p (with_service p (with_hold (Some "relay hosting is disabled on this instance (passive hold-out)")) w)
  else
    let w := with_service p (with_hold None) w in
    if bool_decide (is_Some (host (service w p))) && negb restartIfRunning then w
    else if match standby (service w p) with Some n => negb force && in_grace now n | None => false end then w
    else
      let '(f, claim) := if force then forceClaim p now ok (lockFile w) else tryClaim (alive w) p now ok (lockFile w) in
      let w := with_lock f w in
      match claim with
      | contended => let w := shutHostDown p w in with_service p (with_standby (Some (takeoverStandbyNote p now w))) w
      | claimed | write_failed => with_service p (fun s => with_standby None (with_pending (reconciling s) (creating s ++ [o]) (starting s) s)) (shutHostDown p w)
      end.

(** The factory answers the oldest start: the new host is told to start. *)
Definition hostCreated (p : Z) (w : World) : World :=
  match creating (service w p) with
  | [] => w
  | o :: rest =>
    let h := hosts w in
    let w := with_service p (fun s => with_host (Some h) (with_pending (reconciling s) rest (starting s ++ [(o, h)]) s)) w in
    {| lockFile := lockFile w; configFile := configFile w; live := live w; services := services w; hosts := S h; up := <[h := p]> (up w) |}
  end.

(** What becomes of a failed start of each origin. *)
Definition failure_note (o : Origin) (message : string) (s : Service) : Service :=
  match o with
  | boot => with_note (Some ("relay lifecycle failed: " +:+ message)) s
  | poll => with_note (Some ("relay demand poll failed: " +:+ message)) s
  | takeover => with_note (Some ("relay takeover failed: " +:+ message)) s
  | reconcile_route | turn_on => s
  end.

Definition route_done (p : Z) (o : Origin) (w : World) : World := match o with turn_on => ensureMachines p w | _ => w end.

Definition hostStarted (p : Z) (h : nat) (ok : bool) (message : string) (w : World) : World :=
  match list_find (fun oh => oh.2 = h) (starting (service w p)) with
  | None => w
  | Some (i, (o, _)) =>
    let w := with_service p (fun s => with_pending (reconciling s) (creating s) (delete i (starting s)) s) w in
    route_done p o (if ok then w else stop_host h (with_service p (fun s => failure_note o message (with_host None s)) w))
  end.

Definition CORRUPT_NOTE : string := "relay config file is corrupt; relay lifecycle is stopped".

(** [None] when it throws. *)
Definition requireHealthyConfig (p : Z) (w : World) : World * option RelayConfig :=
  let c := config_read (configFile w) in
  if corrupt c then (with_service p (fun s => match configNote s with None => with_note (Some CORRUPT_NOTE) s | Some _ => s end) w, None)
  else (with_service p (with_note None) w, Some c).

Definition evaluateDemand (settled : list (option bool)) : option bool :=
  let affirmed := existsb (fun r => match r with Some true => true | _ => false end) settled in
  let failed := existsb (fun r => match r with None => true | _ => false end) settled in
  if negb affirmed && failed then None else Some affirmed.

(** [reconcile] up to its demand signals. *)
Definition reconcile (p : Z) (o : Origin) (w : World) : World :=
  match requireHealthyConfig p w with
  | (w, None) => with_service p (failure_note o CORRUPT_NOTE) w
  | (w, Some c) => with_service p (fun s => with_pending (reconciling s ++ [(o, c)]) (creating s) (starting s) s) w
  end.

(** The rest of the oldest. *)
Definition reconcileDecided (p now : Z) (ok : bool) (settled : list (option bool)) (w : World) : World :=
  match reconciling (service w p) with
  | [] => w
  | (o, c) :: rest =>
    let w := with_service p (fun s => with_pending rest (creating s) (starting s) s) w in
    match evaluateDemand settled with
    | None => with_service p (failure_note o "relay demand evaluation failed") w
    | Some demand =>
      match (if bool_decide (demand = enabled c) then Some (configFile w) else config_write demand (relayUrl c) (configFile w)) with
      | None => with_service p (failure_note o "relay config file is corrupt; refusing to write") w
      | Some f => let w := with_config f w in if demand then startHost p now ok o false false w else shutHostDown p w
      end
    end
  end.

Definition start (p : Z) (w : World) : World := ensureMachines p (reconcile p boot (with_service p (with_armed false) w)).

Definition ensureEnabledForPairing (p now : Z) (ok : bool) (w : World) : World :=
  match requireHealthyConfig p w with
  | (w, None) => w
  | (w, Some c) =>
    match (if enabled c then Some (configFile w) else config_write true (relayUrl c) (configFile w)) with
    | None => w
    | Some f =>
      let w := with_config f w in
      if bool_decide (is_Some (host (service w p))) then ensureMachines p (with_lock (forceClaim p now ok (lockFile w)).1 w)
      else startHost p now ok turn_on true false w
    end
  end.

Definition enable (p now : Z) (ok : bool) (url : option json) (w : World) : World :=
  match requireHealthyConfig p w with
  | (w, None) => w
  | (w, Some c) =>
    let persist := match url with Some (JStr s) => if bool_decide (0 < slen s) then Some (normalizeRelayUrl url) else relayUrl c | _ => relayUrl c end in
    match config_write true persist (configFile w) with
    | None => w
    | Some f => startHost p now ok turn_on true true (with_config f w)
    end
  end.

Definition disable (p : Z) (ok : bool) (w : World) : World :=
  let w := match requireHealthyConfig p w with
    | (w, None) => w
    | (w, Some c) => if enabled c then with_config (default (configFile w) (config_write false (relayUrl c) (configFile w))) w else w
    end in
  let w := with_service p (with_standby None) (shutHostDown p w) in
  with_lock (release p ok (lockFile w)) w.

Definition dispose (p : Z) (ok : bool) (w : World) : World :=
  let w := with_service p (fun s => with_armed false (with_standby None s)) (shutHostDown p w) in
  with_lock (release p ok (lockFile w)) w.

Definition runClaimWatcher (p now : Z) (ok : bool) (w : World) : World :=
  if negb (armed (service w p)) then w
  else match host (service w p), standby (service w p) with
  | Some _, _ => if bool_decide (is_Some (foreign p w)) then let w := shutHostDown p w in with_service p (with_standby (Some (takeoverStandbyNote p now w))) w else w
  | None, None => w
  | None, Some n =>
    if bool_decide (is_Some (holdNote (service w p))) then w
    else if in_grace now n then w
    else if bool_decide (is_Some (foreign p w)) then w
    else
      let '(f, outcome) := tryClaim (alive w) p now ok (lockFile w) in
      let w := with_lock f w in
      match outcome with
      | claimed => startHost p now ok takeover true false (with_service p (with_standby None) w)
      | _ => w
      end
  end.

(** ** What it reports *)

Inductive RelayLifecycleState := Disabled | Connecting | Connected | Reconnecting | Standby.

(** The status of a broker ([Disabled] to [Reconnecting]). *)
Record BrokerStatus := { b_state : RelayLifecycleState; b_serverId : option string; b_clients : Z; b_url : option string; b_error : option string }.

Record RelayServiceStatus := { st_enabled : bool; st_state : RelayLifecycleState; st_serverId : option string; connectedClients : Z; st_url : option string; urlLocked : bool; lastError : option string }.

Definition or_else {A} (a b : option A) : option A := match a with Some _ => a | None => b end.

Definition composeLastError (s : Service) (brokerError : option string) : option string :=
  or_else (configNote s) (or_else (holdNote s) (or_else (note_text <$> standby s) brokerError)).

(** [identity] is what the identity store answers, [None] when it throws. *)
Definition getStatus (p : Z) (identity : option string) (broker : option BrokerStatus) (w : World) : RelayServiceStatus :=
  let c := config_read (configFile w) in
  let s := service w p in
  let broker := match host s with Some _ => broker | None => None end in
  {| st_enabled := if corrupt c then false else enabled c;
     st_state := if bool_decide (is_Some (standby s)) || bool_decide (is_Some (holdNote s)) then Standby else match broker with Some b => b_state b | None => Disabled end;
     st_serverId := or_else (broker ≫= b_serverId) identity;
     connectedClients := match broker with Some b => b_clients b | None => 0 end;
     st_url := or_else (broker ≫= b_url) (if corrupt c then None else Some (resolveRelayUrl (env p) c));
     urlLocked := relayUrlLocked (env p);
     lastError := composeLastError s (broker ≫= b_error) |}.

(** ** The machine *)

Inductive Event :=
| Boots (p : Z) | Dies (p : Z) | Start (p : Z) | Reconcile (p : Z) | Poll (p : Z) | Decided (p now : Z) (ok : bool) (settled : list (option bool))
| Pairing (p now : Z) (ok : bool) | Enable (p now : Z) (ok : bool) (url : option json) | Disable (p : Z) (ok : bool) | Dispose (p : Z) (ok : bool)
| Watch (p now : Z) (ok : bool) | Created (p : Z) | Started (p : Z) (h : nat) (ok : bool) (message : string).

Definition process_of (ev : Event) : Z :=
  match ev with Boots p | Dies p | Start p | Reconcile p | Poll p | Decided p _ _ _ | Pairing p _ _ | Enable p _ _ _ | Disable p _ | Dispose p _ | Watch p _ _ | Created p | Started p _ _ _ => p end.

Definition service_step (w : World) (ev : Event) : World :=
  match ev with
  | Boots p => {| lockFile := lockFile w; configFile := configFile w; live := {[p]} ∪ live w; services := <[p := new_service]> (services w); hosts := hosts w; up := filter (fun hp => hp.2 <> p) (up w) |}
  | Dies p => {| lockFile := lockFile w; configFile := configFile w; live := live w ∖ {[p]}; services := delete p (services w); hosts := hosts w; up := filter (fun hp => hp.2 <> p) (up w) |}
  | Start p => start p w
  | Reconcile p => reconcile p reconcile_route w
  | Poll p => if armed (service w p) then reconcile p poll w else w
  | Decided p now ok settled => reconcileDecided p now ok settled w
  | Pairing p now ok => ensureEnabledForPairing p now ok w
  | Enable p now ok url => enable p now ok url w
  | Disable p ok => disable p ok w
  | Dispose p ok => dispose p ok w
  | Watch p now ok => runClaimWatcher p now ok w
  | Created p => hostCreated p w
  | Started p h ok message => hostStarted p h ok message w
  end.

Definition service_run (w : World) (evs : list Event) : World := foldl service_step w evs.

Definition first_world (c : ConfigFile) : World := {| lockFile := None; configFile := c; live := ∅; services := ∅; hosts := 0; up := ∅ |}.

(** ** Services of different processes *)

Lemma service_with_eq p f w : service (with_service p f w) p = f (service w p).
Proof. unfold service at 1. cbn [services with_service]. by rewrite lookup_insert_eq. Qed.

Lemma service_with_ne p q f w : q <> p -> service (with_service p f w) q = service w q.
Proof. intros H. unfold service at 1. cbn [services with_service]. by rewrite lookup_insert_ne. Qed.

Lemma service_lock f w q : service (with_lock f w) q = service w q.
Proof. done. Qed.

Lemma service_config f w q : service (with_config f w) q = service w q.
Proof. done. Qed.

Lemma service_stop h w q : service (stop_host h w) q = service w q.
Proof. done. Qed.

(** What leaves the services of the others and the live processes alone. *)
Record elsewhere (p : Z) (w w' : World) : Prop := {
  else_service q : q <> p -> service w' q = service w q;
  else_live : live w' = live w;
}.

Lemma service_shut p w : service (shutHostDown p w) p = with_host None (service w p).
Proof. unfold shutHostDown. destruct (host (service w p)) as [h|] eqn:E; [by rewrite service_stop, service_with_eq|]. destruct (service w p). cbn in *. by subst. Qed.

Lemma lock_shut p w : lockFile (shutHostDown p w) = lockFile w /\ live (shutHostDown p w) = live w.
Proof. unfold shutHostDown. by destruct (host _). Qed.

Lemma else_shut p w : elsewhere p w (shutHostDown p w).
Proof. unfold shutHostDown. destruct (host _); constructor; try done. intros q H. by rewrite service_stop, service_with_ne. Qed.

Ltac elsewhere := constructor; repeat case_match; simplify_eq; try done; intros; rewrite ?service_stop, ?service_lock, ?service_config, ?service_with_ne by done; try done.

Lemma else_trans p w1 w2 w3 : elsewhere p w1 w2 -> elsewhere p w2 w3 -> elsewhere p w1 w3.
Proof. intros [S1 L1] [S2 L2]. constructor; [intros q H; by rewrite S2, S1|congruence]. Qed.

Lemma else_with p f w : elsewhere p w (with_service p f w).
Proof. elsewhere. Qed.

Lemma else_lock p f w : elsewhere p w (with_lock f w).
Proof. elsewhere. Qed.

Lemma else_config p f w : elsewhere p w (with_config f w).
Proof. elsewhere. Qed.

Lemma else_stop p h w : elsewhere p w (stop_host h w).
Proof. elsewhere. Qed.

Lemma else_refl p w : elsewhere p w w.
Proof. elsewhere. Qed.

Create HintDb elsewhere discriminated.
#[local] Hint Resolve else_shut else_with else_lock else_config else_stop else_refl : elsewhere.
#[local] Hint Extern 4 (elsewhere _ _ (with_service _ _ ?w)) => (eapply (else_trans _ _ w); [|apply else_with]) : elsewhere.
#[local] Hint Extern 4 (elsewhere _ _ (with_lock _ ?w)) => (eapply (else_trans _ _ w); [|apply else_lock]) : elsewhere.
#[local] Hint Extern 4 (elsewhere _ _ (with_config _ ?w)) => (eapply (else_trans _ _ w); [|apply else_config]) : elsewhere.
#[local] Hint Extern 4 (elsewhere _ _ (stop_host _ ?w)) => (eapply (else_trans _ _ w); [|apply else_stop]) : elsewhere.
#[local] Hint Extern 4 (elsewhere _ _ (shutHostDown _ ?w)) => (eapply (else_trans _ _ w); [|apply else_shut]) : elsewhere.

Lemma else_startHost p now ok o force restart w : elsewhere p w (startHost p now ok o force restart w).
Proof.
  unfold startHost. destruct (_ && _); [auto 10 with elsewhere|]. cbv zeta. destruct (_ && _); [auto 10 with elsewhere|]. destruct (standby _) as [n|]; [destruct (negb force && in_grace now n); [auto 10 with elsewhere|]|];
    destruct (if force then _ else _) as [f []]; auto 10 with elsewhere.
Qed.
#[local] Hint Extern 4 (elsewhere _ _ (startHost _ _ _ _ _ _ ?w)) => (eapply (else_trans _ _ w); [|apply else_startHost]) : elsewhere.

Lemma else_require p w : elsewhere p w (requireHealthyConfig p w).1.
Proof. unfold requireHealthyConfig. cbv zeta. destruct (corrupt _); cbn [fst]; auto with elsewhere. Qed.

Lemma else_reconcile p o w : elsewhere p w (reconcile p o w).
Proof. unfold reconcile. pose proof (else_require p w) as H. destruct (requireHealthyConfig p w) as [w' [c|]]; cbn [fst] in H; (eapply else_trans; [exact H|]); auto with elsewhere. Qed.

Lemma else_decided p now ok settled w : elsewhere p w (reconcileDecided p now ok settled w).
Proof.
  unfold reconcileDecided. destruct (reconciling _) as [|[o c] rest]; [auto with elsewhere|]. cbv zeta. destruct (evaluateDemand settled) as [d|]; [|auto with elsewhere].
  destruct (if bool_decide _ then _ else _); [|auto with elsewhere]. destruct d; auto 10 with elsewhere.
Qed.

Lemma else_watch p now ok w : elsewhere p w (runClaimWatcher p now ok w).
Proof.
  unfold runClaimWatcher. destruct (negb _); [auto with elsewhere|]. destruct (host _); [case_bool_decide; auto with elsewhere|]. destruct (standby _) as [n|]; [|auto with elsewhere].
  case_bool_decide; [auto with elsewhere|]. destruct (in_grace now n); [auto with elsewhere|]. case_bool_decide; [auto with elsewhere|]. destruct (tryClaim _ _ _ _ _) as [f []]; auto 10 with elsewhere.
Qed.

Lemma else_started p h ok message w : elsewhere p w (hostStarted p h ok message w).
Proof.
  unfold hostStarted. destruct (list_find _ _) as [[i [o h']]|]; [|auto with elsewhere]. cbv zeta. unfold route_done, ensureMachines.
  destruct o, ok; auto 10 with elsewhere.
Qed.

Lemma else_created p w : elsewhere p w (hostCreated p w).
Proof.
  unfold hostCreated. destruct (creating _) as [|o rest]; [auto with elsewhere|]. cbv zeta. constructor; [|done]. intros q H. unfold service at 1. cbn [services]. by apply service_with_ne.
Qed.

(** The events that neither start a process nor end one. *)
Definition within (ev : Event) : Prop := match ev with Boots _ | Dies _ => False | _ => True end.

Lemma else_step w ev : within ev -> elsewhere (process_of ev) w (service_step w ev).
Proof.
  intros Hw. destruct ev as [| |p|p|p|p|p now ok|p now ok url|p ok|p ok|p|p|p]; try done; cbn [process_of service_step].
  - unfold start, ensureMachines. eapply else_trans; [|apply else_with]. eapply else_trans; [apply else_with|apply else_reconcile].
  - apply else_reconcile.
  - destruct (armed _); [apply else_reconcile|auto with elsewhere].
  - apply else_decided.
  - unfold ensureEnabledForPairing. pose proof (else_require p w) as H. destruct (requireHealthyConfig p w) as [w' [c|]]; cbn [fst] in H; [|done]. eapply else_trans; [exact H|].
    destruct (if enabled c then _ else _); [|auto with elsewhere]. cbv zeta. unfold ensureMachines. case_bool_decide; auto 10 with elsewhere.
  - unfold enable. pose proof (else_require p w) as H. destruct (requireHealthyConfig p w) as [w' [c|]]; cbn [fst] in H; [|done]. eapply else_trans; [exact H|].
    cbv zeta. destruct (config_write _ _ _); auto 10 with elsewhere.
  - unfold disable. pose proof (else_require p w) as H. destruct (requireHealthyConfig p w) as [w' [c|]]; cbn [fst] in H; cbv zeta; (eapply (else_trans p w w' _ H)); [destruct (enabled c)|]; auto 10 with elsewhere.
  - unfold dispose. cbv zeta. auto 10 with elsewhere.
  - apply else_watch.
  - apply else_created.
  - apply else_started.
Qed.

(** ** A service that has to wait *)

(** No host, and none on its way. *)
Definition idle (s : Service) : Prop := host s = None /\ creating s = [].

(** A standby in its grace, or a live claim of another process. *)
Definition blocked (p now : Z) (w : World) : Prop := (exists n, standby (service w p) = Some n /\ in_grace now n = true) \/ is_Some (foreign p w).

(** The process stays idle, its standby stays in its grace, and the claim is left alone. *)
Record waited (p now : Z) (w w' : World) : Prop := {
  waited_idle : idle (service w' p);
  waited_standby n : standby (service w p) = Some n -> in_grace now n = true -> standby (service w' p) = Some n;
  waited_lock : lockFile w' = lockFile w;
}.

Lemma waited_with p now f w :
  idle (service w p) -> (forall s, host (f s) = host s /\ creating (f s) = creating s /\ standby (f s) = standby s) -> waited p now w (with_service p f w).
Proof. intros [H1 H2] Hf. destruct (Hf (service w p)) as (F1 & F2 & F3). constructor; rewrite ?service_with_eq; try done; [split; congruence|congruence]. Qed.

Lemma waited_refl p now w : idle (service w p) -> waited p now w w.
Proof. by constructor. Qed.

Lemma waited_trans p now w1 w2 w3 : waited p now w1 w2 -> waited p now w2 w3 -> waited p now w1 w3.
Proof. intros [I1 S1 L1] [I2 S2 L2]. constructor; [done|eauto|congruence]. Qed.

Lemma blocked_waited p now w w' : waited p now w w' -> live w' = live w -> blocked p now w -> blocked p now w'.
Proof.
  intros [I S L] Hl [(n & Hn & Hg)|Hf]; [left; exists n; auto|right]. unfold foreign, alive in *. by rewrite L, Hl.
Qed.

Lemma try_foreign p now ok w : is_Some (foreign p w) -> tryClaim (alive w) p now ok (lockFile w) = (lockFile w, contended).
Proof. unfold foreign, foreignClaimant, tryClaim. intros [c H]. destruct (readClaim (lockFile w)); [|done]. by destruct (_ && _). Qed.

Lemma waited_startHost p now ok o w : idle (service w p) -> blocked p now w -> waited p now w (startHost p now ok o false false w).
Proof.
  intros Hi Hb. destruct Hi as [Hh Hc]. unfold startHost. rewrite andb_true_r. cbn [negb]. destruct (readRelayHostHoldOut _).
  - constructor; try rewrite (proj1 (lock_shut _ _)); try done; rewrite service_shut, service_with_eq; [by split|done].
  - cbv zeta. rewrite service_with_eq. cbn [host with_hold]. rewrite Hh, bool_decide_eq_false_2 by (by intros []). cbn [negb andb standby with_hold].
    destruct (match standby (service w p) with Some n => in_grace now n | None => false end) eqn:Eg.
    { by apply waited_with. }
    assert (is_Some (foreign p w)) as Hf by (destruct Hb as [(n & Hn & Hg)|]; [by rewrite Hn, Hg in Eg|done]).
    pose proof (try_foreign p now ok (with_service p (with_hold None) w) Hf) as ->. cbn iota beta.
    constructor.
    + rewrite service_with_eq, service_shut, service_lock, service_with_eq. by split.
    + intros n Hn Hg. by rewrite Hn, Hg in Eg.
    + cbn [lockFile with_service]. by rewrite (proj1 (lock_shut _ _)).
Qed.

Lemma waited_require p now w : idle (service w p) -> waited p now w (requireHealthyConfig p w).1.
Proof. intros Hi. unfold requireHealthyConfig. cbv zeta. destruct (corrupt _); cbn [fst]; apply waited_with; try done. intros s. by destruct (configNote s). Qed.

Lemma failure_note_keeps o m s : host (failure_note o m s) = host s /\ creating (failure_note o m s) = creating s /\ standby (failure_note o m s) = standby s.
Proof. by destruct o. Qed.

Lemma waited_reconcile p now o w : idle (service w p) -> waited p now w (reconcile p o w).
Proof.
  intros Hi. unfold reconcile. pose proof (waited_require p now w Hi) as H. destruct (requireHealthyConfig p w) as [w' [c|]]; cbn [fst] in H; (eapply waited_trans; [exact H|]); apply waited_with; try done; try apply H.
  intros s. apply failure_note_keeps.
Qed.

Lemma waited_decided p now ok settled w : idle (service w p) -> blocked p now w -> waited p now w (reconcileDecided p now ok settled w).
Proof.
  intros Hi Hb. unfold reconcileDecided. destruct (reconciling _) as [|[o c] rest]; [by apply waited_refl|]. cbv zeta. set (w1 := with_service p _ w).
  assert (waited p now w w1) as H1 by by apply waited_with. pose proof (blocked_waited p now w w1 H1 eq_refl Hb) as Hb1.
  assert (forall m, waited p now w1 (with_service p (failure_note o m) w1)) as Hn by (intros m; apply waited_with; [apply H1|intros s; apply failure_note_keeps]).
  eapply waited_trans; [exact H1|]. destruct (evaluateDemand settled) as [d|]; [|done]. destruct (if bool_decide _ then _ else _) as [f|]; [|done].
  assert (waited p now w1 (with_config f w1)) as H2 by (constructor; try done; apply H1). destruct d.
  - eapply waited_trans; [exact H2|]. apply waited_startHost; [apply H2|]. by apply (blocked_waited p now w1).
  - eapply waited_trans; [exact H2|]. unfold shutHostDown. rewrite (proj1 (waited_idle _ _ _ _ H2)). apply waited_refl, H2.
Qed.

Lemma waited_watch p now ok w : idle (service w p) -> blocked p now w -> waited p now w (runClaimWatcher p now ok w).
Proof.
  intros Hi Hb. unfold runClaimWatcher. pose proof Hi as [Hh _]. rewrite Hh. destruct (negb _); [by apply waited_refl|]. destruct (standby (service w p)) as [n|] eqn:Es; [|by apply waited_refl].
  case_bool_decide; [by apply waited_refl|]. destruct (in_grace now n) eqn:Eg; [by apply waited_refl|]. rewrite bool_decide_eq_true_2; [by apply waited_refl|].
  destruct Hb as [(n' & Hn & Hg)|Hb]; [congruence|done].
Qed.

Lemma waited_started p now h ok message w : idle (service w p) -> waited p now w (hostStarted p h ok message w).
Proof.
  intros Hi. unfold hostStarted. destruct (list_find _ _) as [[i [o h']]|]; [|by apply waited_refl]. cbv zeta. set (w1 := with_service p _ w).
  assert (waited p now w w1) as H1 by by apply waited_with. eapply waited_trans; [exact H1|]. set (w2 := if ok then w1 else _).
  assert (waited p now w1 w2) as H2.
  { unfold w2. destruct ok; [apply waited_refl, H1|]. destruct (waited_idle _ _ _ _ H1) as [Hh Hc]. destruct (failure_note_keeps o message (with_host None (service w1 p))) as (F1 & F2 & F3).
    constructor; rewrite ?service_stop, ?service_with_eq; try done; [by split; rewrite ?F1, ?F2|by rewrite F3]. }
  eapply waited_trans; [exact H2|]. destruct o; try (by apply waited_refl, H2). apply waited_with; [apply H2|done].
Qed.

(** The events a process has without asking for the host: no boot or death, no enable or pairing. *)
Definition unforced (ev : Event) : Prop := match ev with Boots _ | Dies _ | Pairing _ _ _ | Enable _ _ _ _ => False | _ => True end.
Definition gives_up (ev : Event) : Prop := match ev with Disable _ _ | Dispose _ _ => True | _ => False end.

(** When the event asks for the time. *)
Definition time_of (ev : Event) : option Z := match ev with Decided _ now _ _ | Watch _ now _ => Some now | _ => None end.

Lemma waited_step now w ev :
  unforced ev -> ~ gives_up ev -> idle (service w (process_of ev)) -> (forall t, time_of ev = Some t -> blocked (process_of ev) t w /\ t = now) ->
  waited (process_of ev) now w (service_step w ev).
Proof.
  intros Hu Hg Hi Ht. destruct ev as [| |p|p|p|p t ok settled| | |p ok|p ok|p t ok|p|p]; try done; cbn [process_of service_step time_of] in *.
  - unfold start, ensureMachines. set (w1 := with_service p (with_armed false) w). assert (waited p now w w1) as H1 by by apply waited_with.
    pose proof (waited_reconcile p now boot w1 (waited_idle _ _ _ _ H1)) as H2. eapply waited_trans; [exact H1|]. eapply waited_trans; [exact H2|]. apply waited_with; [apply H2|done].
  - by apply waited_reconcile.
  - destruct (armed _); [by apply waited_reconcile|by apply waited_refl].
  - destruct (Ht t eq_refl) as [Hb ->]. by apply waited_decided.
  - destruct (Ht t eq_refl) as [Hb ->]. by apply waited_watch.
  - unfold hostCreated. rewrite (proj2 Hi). by apply waited_refl.
  - by apply waited_started.
Qed.

Lemma service_other w ev p : process_of ev <> p -> service (service_step w ev) p = service w p.
Proof.
  intros H. assert (within ev -> service (service_step w ev) p = service w p) as Hin by (intros Hw; apply (else_service _ _ _ (else_step w ev Hw)); congruence).
  destruct ev as [q|q| | | | | | | | | | |]; try (by apply Hin); cbn [process_of] in H.
  - unfold service. cbn. by rewrite lookup_insert_ne.
  - unfold service. cbn. by rewrite lookup_delete_ne.
Qed.

(** A process that stood by for another one starts no host before its grace is over, whatever the other processes do and however often its own demand poll, its reconciles and its claim watcher come round; its standby note stays as it is. *)
Theorem standby_waits_out_the_grace w evs p n :
  standby (service w p) = Some n -> host (service w p) = None -> creating (service w p) = [] ->
  Forall (fun ev => process_of ev = p -> unforced ev /\ ~ gives_up ev /\ forall t, time_of ev = Some t -> in_grace t n = true) evs ->
  let s := service (service_run w evs) p in
  host s = None /\ creating s = [] /\ standby s = Some n.
Proof.
  unfold service_run. intros Hn Hh Hc Hf. revert w Hn Hh Hc. induction Hf as [|ev evs Hev _ IH]; intros w Hn Hh Hc; [done|]. cbn [foldl].
  destruct (decide (process_of ev = p)) as [Hp|Hp]; [|by apply IH; rewrite service_other]. destruct (Hev Hp) as (Hu & Hg & Ht). subst p.
  destruct (waited_step (default (since n + claimTakeoverGraceMs timing - 1) (time_of ev)) w ev Hu Hg (conj Hh Hc)) as [[Hh' Hc'] Hs _].
  - intros t Et. rewrite Et. split; [|done]. left. exists n. auto.
  - apply IH; try done. apply Hs; [done|]. destruct (time_of ev) as [t|] eqn:Et; [by apply Ht|]. unfold in_grace. cbn. apply bool_decide_eq_true_2. lia.
Qed.

(** ** The claim decides *)

(** The claim file holds the claim of a live process. *)
Definition claims (q : Z) (w : World) : Prop := claim_pid <$> readClaim (lockFile w) = Some q /\ q ∈ live w.

Lemma claims_same q w w' : lockFile w' = lockFile w -> live w' = live w -> claims q w -> claims q w'.
Proof. unfold claims. by intros -> ->. Qed.

Lemma claims_positive q w : claims q w -> 0 < q.
Proof.
  intros [H _]. unfold readClaim in H. destruct (lockFile w) as [raw|]; [|done]. cbn [mbind option_bind] in H. unfold parseClaim in H. repeat case_match; try done.
  injection H as <-. by apply andb_prop in H6 as [?%bool_decide_eq_true _].
Qed.

Lemma claims_foreign p q w : claims q w -> p <> q -> is_Some (foreign p w).
Proof.
  intros [H Hl] Hne. unfold foreign, foreignClaimant, alive. destruct (readClaim (lockFile w)) as [c|]; [|done]. injection H as <-.
  rewrite bool_decide_eq_false_2, (bool_decide_eq_true_2 (claim_pid c ∈ live w)) by congruence. eauto.
Qed.

Lemma toISOString_nonempty t : toISOString t <> "".
Proof. unfold toISOString. by destruct (iso_year _). Qed.

(** What a process reads back of its own claim. *)
Lemma read_own p now ok f : 0 < p -> claim_pid <$> readClaim f = Some p -> claim_pid <$> readClaim (writeClaim p now ok f).1 = Some p.
Proof.
  intros Hp H. unfold writeClaim. destruct ok; [|done]. cbn [fst].
  assert (parseClaim (JObj [("pid", JInt p); ("claimedAt", JStr (toISOString now))]) = Some {| claim_pid := p; claimedAt := toISOString now |}) as E; [|unfold readClaim; cbn [mbind option_bind]; by rewrite E].
  unfold parseClaim. change (jfield "pid" _) with (Some (JInt p)). change (jfield "claimedAt" _) with (Some (JStr (toISOString now))). unfold JInt. cbv iota. rewrite num_int_JInt.
  rewrite (bool_decide_eq_true_2 (0 < p)) by done. rewrite bool_decide_eq_false_2; [done|apply toISOString_nonempty].
Qed.

Lemma claims_write q now ok w : claims q w -> claims q (with_lock (writeClaim q now ok (lockFile w)).1 w).
Proof. intros H. pose proof (claims_positive q w H). destruct H as [H Hl]. split; [by apply read_own|done]. Qed.

Lemma claims_shut p q w : claims q w -> claims q (shutHostDown p w).
Proof. destruct (lock_shut p w). by apply claims_same. Qed.

(** Only the claimant itself or a forced start writes the file. *)
Lemma claims_try p q now ok w : claims q w -> claims q (with_lock (tryClaim (alive w) p now ok (lockFile w)).1 w) /\ (p <> q -> tryClaim (alive w) p now ok (lockFile w) = (lockFile w, contended)).
Proof.
  intros H. destruct (decide (p = q)) as [->|Hne].
  - split; [|done]. unfold tryClaim. destruct H as [Hr Hl]. destruct (readClaim (lockFile w)) as [c|] eqn:E; [|done]. injection Hr as Hc. rewrite (bool_decide_eq_true_2 (claim_pid c = q)) by done. cbn [negb andb].
    apply claims_write. split; [by rewrite E; cbn; f_equal|done].
  - pose proof (try_foreign p now ok w (claims_foreign p q w H Hne)) as E. rewrite E. by split.
Qed.

Lemma claims_startHost p q now ok o force restart w : (p <> q -> force = false) -> claims q w -> claims q (startHost p now ok o force restart w).
Proof.
  intros Hp H. unfold startHost. destruct (_ && _); [by apply claims_shut|]. cbv zeta. set (w1 := with_service p (with_hold None) w). assert (claims q w1) as H1 by done.
  destruct (_ && _); [done|]. destruct (match standby (service w1 p) with Some n => _ | None => _ end); [done|].
  set (r := if force then _ else _). assert (claims q (with_lock r.1 w1)) as H2.
  { unfold r. destruct force; [|by apply claims_try]. destruct (decide (p = q)) as [->|]; [by apply claims_write|by specialize (Hp n)]. }
  destruct r as [f []]; cbn [fst] in H2; apply (claims_shut p) in H2; exact H2.
Qed.

(** The steps that may take the claim from its live holder: its own death, restart or stop, and a forced start elsewhere. *)
Definition respects (q : Z) (ev : Event) : Prop :=
  if decide (process_of ev = q) then match ev with Boots _ | Dies _ | Disable _ _ | Dispose _ _ => False | _ => True end
  else match ev with Pairing _ _ _ | Enable _ _ _ _ => False | _ => True end.

Lemma claims_require p q w : claims q w -> claims q (requireHealthyConfig p w).1.
Proof. intros H. unfold requireHealthyConfig. cbv zeta. by destruct (corrupt _). Qed.

Lemma claims_reconcile p q o w : claims q w -> claims q (reconcile p o w).
Proof. intros H. unfold reconcile. pose proof (claims_require p q w H) as H1. by destruct (requireHealthyConfig p w) as [w' [c|]]. Qed.

Lemma claims_decided p q now ok settled w : claims q w -> claims q (reconcileDecided p now ok settled w).
Proof.
  intros H. unfold reconcileDecided. destruct (reconciling _) as [|[o c] rest]; [done|]. cbv zeta. destruct (evaluateDemand settled) as [d|]; [|done]. destruct (if bool_decide _ then _ else _); [|done].
  destruct d; [by apply claims_startHost|by apply claims_shut].
Qed.

Lemma claims_watch p q now ok w : claims q w -> claims q (runClaimWatcher p now ok w).
Proof.
  intros H. unfold runClaimWatcher. destruct (negb _); [done|]. destruct (host _); [case_bool_decide; [by apply claims_shut|done]|]. destruct (standby _) as [n|]; [|done].
  case_bool_decide; [done|]. destruct (in_grace now n); [done|]. case_bool_decide; [done|]. destruct (claims_try p q now ok w H) as [Hf Hne]. destruct (tryClaim _ _ _ _ _) as [f []]; try done.
  apply claims_startHost; [|done]. intros Hpq. by specialize (Hne Hpq).
Qed.

(** Giving up takes away one's own claim only. *)
Lemma claims_release p q ok w : p <> q -> claims q w -> claims q (with_lock (release p ok (lockFile w)) w).
Proof.
  intros Hne [H Hl]. split; [|done]. unfold release, readOwnClaim. cbn [lockFile with_lock]. destruct (readClaim (lockFile w)) as [c|] eqn:E; [|done]. injection H as Hc.
  rewrite (bool_decide_eq_false_2 (claim_pid c = p)) by congruence. rewrite bool_decide_eq_false_2 by (by intros []). cbn [andb]. by rewrite E, <- Hc.
Qed.

Lemma claims_step q w ev : respects q ev -> claims q w -> claims q (service_step w ev).
Proof.
  intros Hr H. unfold respects in Hr. destruct ev as [p|p|p|p|p|p now ok settled|p now ok|p now ok url|p ok|p ok|p now ok|p|p h ok message]; cbn [process_of service_step] in *.
  - destruct H. by split; [|set_solver].
  - case_decide; [done|]. destruct H. by split; [|set_solver].
  - by apply (claims_reconcile p q boot (with_service p (with_armed false) w)).
  - by apply claims_reconcile.
  - destruct (armed _); [by apply claims_reconcile|done].
  - by apply claims_decided.
  - case_decide; [subst p|done]. unfold ensureEnabledForPairing. pose proof (claims_require q q w H) as H1. destruct (requireHealthyConfig q w) as [w' [c|]]; [|done]. cbn [fst] in H1.
    destruct (if enabled c then _ else _); [|done]. cbv zeta. case_bool_decide; [by apply (claims_write q now ok w')|by apply claims_startHost].
  - case_decide; [subst p|done]. unfold enable. pose proof (claims_require q q w H) as H1. destruct (requireHealthyConfig q w) as [w' [c|]]; [|done]. cbn [fst] in H1. cbv zeta.
    destruct (config_write _ _ _); [by apply claims_startHost|done].
  - case_decide as Hne; [done|]. unfold disable. pose proof (claims_require p q w H) as H1. destruct (requireHealthyConfig p w) as [w' [c|]]; cbn [fst] in H1; cbv zeta; apply claims_release; try done; apply (claims_shut p); [by destruct (enabled c)|done].
  - case_decide as Hne; [done|]. unfold dispose. cbv zeta. apply claims_release; [done|]. by apply (claims_shut p).
  - by apply claims_watch.
  - unfold hostCreated. by destruct (creating _).
  - unfold hostStarted. destruct (list_find _ _) as [[i [o h']]|]; [|done]. cbv zeta. by destruct o, ok.
Qed.

(** Disabling and disposing leave no host. *)
Lemma idle_gives_up w ev : gives_up ev -> creating (service w (process_of ev)) = [] -> idle (service (service_step w ev) (process_of ev)).
Proof.
  intros Hg Hc. destruct ev as [| | | | | | | |p ok|p ok| | |]; try done; cbn [process_of service_step] in *.
  - unfold disable. cbv zeta. rewrite service_lock, service_with_eq, service_shut. split; [done|]. cbn [creating with_standby with_host]. unfold requireHealthyConfig. cbv zeta.
    destruct (corrupt _); [rewrite service_with_eq; by destruct (configNote _)|]. case_match; by rewrite ?service_config, service_with_eq.
  - unfold dispose. cbv zeta. rewrite service_lock, service_with_eq, service_shut. by split.
Qed.

Lemma idle_step q w ev p : respects q ev -> claims q w -> p <> q -> idle (service w p) -> idle (service (service_step w ev) p).
Proof.
  intros Hr H Hne Hi. destruct (decide (process_of ev = p)) as [<-|Hp]; [|by rewrite service_other]. unfold respects in Hr. rewrite decide_False in Hr by done.
  assert (unforced ev -> ~ gives_up ev -> idle (service (service_step w ev) (process_of ev))) as Hw.
  { intros Hu Hg. apply (waited_idle _ (default 0 (time_of ev)) w). apply waited_step; try done. intros t ->. split; [|done]. right. by apply (claims_foreign _ q). }
  destruct ev as [p|p| | | | | | |p ok|p ok| | |]; try (by apply Hw; [|intros []]); try done; try (apply idle_gives_up; [done|apply Hi]); cbn [process_of service_step].
  - unfold service. cbn. by rewrite lookup_insert_eq.
  - unfold service. cbn. by rewrite lookup_delete_eq.
Qed.

(** A tick of the watcher stands a host down for a foreign claim. *)
Lemma watch_stands_down p now ok w : armed (service w p) = true -> creating (service w p) = [] -> is_Some (foreign p w) -> idle (service (runClaimWatcher p now ok w) p).
Proof.
  intros Ha Hc Hf. destruct (host (service w p)) as [h|] eqn:Eh.
  - unfold runClaimWatcher. rewrite Ha, Eh. cbn [negb]. rewrite (bool_decide_eq_true_2 (is_Some (foreign p w))) by done. cbv zeta. rewrite service_with_eq, service_shut. by split.
  - apply (waited_idle _ now w). apply waited_watch; [by split|by right].
Qed.

Lemma run_claims q evs w : Forall (respects q) evs -> claims q w -> claims q (service_run w evs).
Proof. unfold service_run. intros H. revert w. induction H as [|ev evs Hev _ IH]; intros w Hc; [done|]. cbn [foldl]. apply IH. by apply claims_step. Qed.

Lemma run_idle q evs w p : Forall (respects q) evs -> claims q w -> p <> q -> idle (service w p) -> idle (service (service_run w evs) p).
Proof.
  unfold service_run. intros H. revert w. induction H as [|ev evs Hev _ IH]; intros w Hc Hp Hi; [done|]. cbn [foldl]. apply IH; [by apply claims_step|done|by apply (idle_step q)].
Qed.

(** C30. As long as the live holder of the machine claim keeps it and no other process is told to take it, every other process whose watcher came round without a host on its way has no host from then on, whatever boots, dies, polls, reconciles, starts and ticks; and the claim stays with its holder. *)
Theorem claim_decides_who_hosts w q p pre now ok post :
  claims q w -> p <> q -> Forall (respects q) (pre ++ Watch p now ok :: post) ->
  armed (service (service_run w pre) p) = true -> creating (service (service_run w pre) p) = [] ->
  let w' := service_run w (pre ++ Watch p now ok :: post) in
  claims q w' /\ host (service w' p) = None.
Proof.
  intros Hc Hp Hr Ha Hn. cbv zeta. split; [by apply run_claims|]. apply Forall_app in Hr as [Hpre [Hw Hpost]%Forall_cons]. unfold service_run in *. rewrite foldl_app. cbn [foldl].
  pose proof (run_claims q pre w Hpre Hc) as Hc1. unfold service_run in Hc1. apply (run_idle q post); [done|by apply claims_step|done|].
  apply watch_stands_down; [done|done|by apply (claims_foreign p q)].
Qed.

(** ** One host at a time *)

Definition books (s : Service) := (host s, creating s, starting s).

(** What one process's service says about the hosts that run. *)
Record books_ok (w : World) (p : Z) (s : Service) : Prop := {
  book_up h : up w !! h = Some p -> host s = Some h;
  book_host h : host s = Some h -> up w !! h = Some p;
  book_one : (length (creating s) + length (starting s) <= 1)%nat;
  book_creating : creating s <> [] -> host s = None;
  book_starting o h : (o, h) ∈ starting s -> (host s = None \/ host s = Some h) /\ (h < hosts w)%nat /\ forall q, up w !! h = Some q -> q = p;
}.

Definition tidy (w : World) : Prop := (forall p, books_ok w p (service w p)) /\ forall h p, up w !! h = Some p -> (h < hosts w)%nat.

Lemma tidy_with p f w : (forall s, books (f s) = books s) -> tidy w -> tidy (with_service p f w).
Proof.
  intros Hf [H Hu]. split; [|done]. intros q. destruct (decide (q = p)) as [->|Hq]; [rewrite service_with_eq|by rewrite service_with_ne; [destruct (H q); constructor|]].
  specialize (Hf (service w p)). unfold books in Hf. injection Hf as H1 H2 H3. destruct (H p). by constructor; rewrite ?H1, ?H2, ?H3.
Qed.

Lemma tidy_lock f w : tidy w -> tidy (with_lock f w).
Proof. intros [H Hu]. split; [|done]. intros q. by destruct (H q). Qed.

Lemma tidy_config f w : tidy w -> tidy (with_config f w).
Proof. intros [H Hu]. split; [|done]. intros q. by destruct (H q). Qed.

Lemma tidy_shut p w : tidy w -> tidy (shutHostDown p w) /\ creating (service (shutHostDown p w) p) = creating (service w p) /\ starting (service (shutHostDown p w) p) = starting (service w p).
Proof.
  intros [H Hu]. split; [|by rewrite service_shut]. unfold shutHostDown. destruct (host (service w p)) as [h|] eqn:Eh; [|by split]. pose proof (book_host _ _ _ (H p) h Eh) as Hup. split.
  - intros q. rewrite service_stop. destruct (decide (q = p)) as [->|Hq].
    + rewrite service_with_eq. destruct (H p) as [B1 B2 B3 B4 B5]. constructor; cbn; try done; [|intros o h' Hin; destruct (B5 o h' Hin) as (_ & Hlt & Hq); split_and!; [by left|done|intros q [_ Hin']%lookup_delete_Some; by apply Hq]].
      intros h'. destruct (decide (h' = h)) as [->|]; [by rewrite lookup_delete_eq|]. rewrite lookup_delete_ne by done. intros Hh. specialize (B1 h' Hh). congruence.
    + rewrite service_with_ne by done. destruct (H q) as [B1 B2 B3 B4 B5]. constructor; cbn; try done; [..|intros o h' Hin; destruct (B5 o h' Hin) as (? & Hlt & Hq'); split_and!; [done..|intros q' [_ Hin']%lookup_delete_Some; by apply Hq']]; intros h'; (destruct (decide (h' = h)) as [->|]; [|by rewrite lookup_delete_ne by done; auto]).
      * by rewrite lookup_delete_eq. * intros Hh. specialize (B2 h Hh). congruence.
  - intros h' q. cbn. intros [_ Hh]%lookup_delete_Some. by apply (Hu h' q).
Qed.

Lemma tidy_startHost p now ok o force restart w : creating (service w p) = [] -> starting (service w p) = [] -> tidy w -> tidy (startHost p now ok o force restart w).
Proof.
  intros Hc Hs H. unfold startHost. destruct (_ && _); [by apply tidy_shut, tidy_with|]. cbv zeta. set (w1 := with_service p (with_hold None) w). assert (tidy w1) as H1 by by apply tidy_with.
  assert (creating (service w1 p) = [] /\ starting (service w1 p) = []) as [Hc1 Hs1] by (unfold w1; by rewrite service_with_eq).
  destruct (_ && _); [done|]. destruct (match standby (service w1 p) with Some n => _ | None => _ end); [done|]. destruct (if force then _ else _) as [f r].
  destruct (tidy_shut p (with_lock f w1) (tidy_lock f w1 H1)) as (H2 & Hc2 & Hs2). rewrite service_lock in Hc2, Hs2. pose proof (service_shut p (with_lock f w1)) as Hsh. set (w2 := shutHostDown p (with_lock f w1)) in *.
  assert (tidy (with_service p (fun s => with_standby None (with_pending (reconciling s) (creating s ++ [o]) (starting s) s)) w2)) as H3.
  { destruct H2 as [H2 Hu]. split; [|done]. intros q. destruct (decide (q = p)) as [->|Hq]; [rewrite service_with_eq|by rewrite service_with_ne; [destruct (H2 q); constructor|]].
    assert (host (service w2 p) = None) as Hh by by rewrite Hsh. destruct (H2 p) as [B1 B2 B3 B4 B5]. constructor; cbn; try done. rewrite Hc2, Hs2, Hc1, Hs1. cbn. lia. }
  destruct r; [exact H3|by apply tidy_with|exact H3].
Qed.

Lemma tidy_require p w : tidy w -> tidy (requireHealthyConfig p w).1 /\ books (service (requireHealthyConfig p w).1 p) = books (service w p).
Proof.
  intros H. unfold requireHealthyConfig. cbv zeta. destruct (corrupt _); cbn [fst]; (split; [apply tidy_with; [|done]|rewrite service_with_eq]); try intros s; try done; by destruct (configNote _).
Qed.

Lemma books_note o m s : books (failure_note o m s) = books s.
Proof. by destruct o. Qed.

Lemma tidy_reconcile p o w : tidy w -> tidy (reconcile p o w).
Proof. intros H. unfold reconcile. destruct (tidy_require p w H) as [H1 _]. destruct (requireHealthyConfig p w) as [w' [c|]]; apply tidy_with; try done. intros s. apply books_note. Qed.

Lemma tidy_decided p now ok settled w : creating (service w p) = [] -> starting (service w p) = [] -> tidy w -> tidy (reconcileDecided p now ok settled w).
Proof.
  intros Hc Hs H. unfold reconcileDecided. destruct (reconciling _) as [|[o c] rest]; [done|]. cbv zeta. set (w1 := with_service p _ w). assert (tidy w1) as H1 by by apply tidy_with.
  assert (forall m, tidy (with_service p (failure_note o m) w1)) as Hn by (intros m; apply tidy_with; [intros s; apply books_note|done]).
  destruct (evaluateDemand settled) as [d|]; [|done]. destruct (if bool_decide _ then _ else _) as [f|]; [|done]. destruct d; [|by apply tidy_shut, tidy_config].
  apply tidy_startHost; [..|by apply tidy_config]; rewrite service_config; unfold w1; by rewrite service_with_eq.
Qed.

Lemma tidy_created p w : tidy w -> tidy (hostCreated p w).
Proof.
  intros [H Hu]. unfold hostCreated. destruct (creating (service w p)) as [|o rest] eqn:Ec; [by split|]. cbv zeta.
  destruct (H p) as [B1 B2 B3 B4 B5]. rewrite Ec in B3. cbn [length] in B3. assert (starting (service w p) = [] /\ rest = []) as [Es ->] by (destruct (starting _), rest; cbn in *; [done|lia..]).
  specialize (B4 ltac:(by rewrite Ec)). split.
  - intros q. unfold service at 1. cbn [services]. fold (service (with_service p (fun s => with_host (Some (hosts w)) (with_pending (reconciling s) [] (starting s ++ [(o, hosts w)]) s)) w) q).
    destruct (decide (q = p)) as [->|Hq].
    + rewrite service_with_eq. constructor; cbn; rewrite ?Es; try done; cbn.
      * intros h. destruct (decide (h = hosts w)) as [->|]; [done|]. rewrite lookup_insert_ne by done. intros Hh. specialize (B1 h Hh). congruence.
      * intros h [= <-]. by rewrite lookup_insert_eq.
      * intros o' h Hin%list_elem_of_singleton. injection Hin as _ ->. split_and!; [by right|lia|]. intros q. rewrite lookup_insert_eq. congruence.
    + rewrite service_with_ne by done. destruct (H q) as [C1 C2 C3 C4 C5]. constructor; cbn; try done; [..|intros o' h Hin; destruct (C5 o' h Hin) as (? & Hlt & Hq'); split_and!; [done|lia|intros q'; rewrite lookup_insert_ne by lia; apply Hq']]; intros h; (destruct (decide (h = hosts w)) as [->|]; [|by rewrite lookup_insert_ne by done; auto]).
      * rewrite lookup_insert_eq. congruence.
      * intros Hh. specialize (Hu _ _ (C2 _ Hh)). lia.
  - intros h q. cbn. destruct (decide (h = hosts w)) as [->|]; [lia|]. rewrite lookup_insert_ne by done. intros Hh. specialize (Hu h q Hh). lia.
Qed.

Lemma tidy_started p h ok message w : tidy w -> tidy (hostStarted p h ok message w).
Proof.
  intros H. unfold hostStarted. destruct (list_find _ _) as [[i [o h']]|] eqn:Ef; [|done]. cbv zeta. apply list_find_Some in Ef as (Hi & Hh' & _). cbn in Hh'. subst h'.
  assert (forall w', tidy w' -> tidy (route_done p o w')) as Hr by (intros w' H'; unfold route_done, ensureMachines; destruct o; try done; by apply tidy_with). apply Hr. clear Hr.
  assert (forall x, x ∈ delete i (starting (service w p)) -> x ∈ starting (service w p)) as Hsub by (intros x; apply list_elem_of_delete_inv).
  pose proof (length_delete (starting (service w p)) i ltac:(by eexists)) as Hlen. set (w1 := with_service p _ w). destruct H as [H Hu]. assert (tidy w1) as [H1 _].
  { split; [|done]. intros q. unfold w1. destruct (decide (q = p)) as [->|Hq]; [rewrite service_with_eq|by rewrite service_with_ne; [destruct (H q); constructor|]].
    destruct (H p) as [B1 B2 B3 B4 B5]. constructor; cbn; try done; [lia|]. intros o' h' Hin. by apply (B5 o'), Hsub. }
  destruct ok; [by split|]. pose proof (book_starting _ _ _ (H p) o h (list_elem_of_lookup_2 _ _ _ Hi)) as (Hh & Hlt & Hq). split.
  - intros q. rewrite service_stop. destruct (decide (q = p)) as [->|Hne].
    + rewrite service_with_eq. destruct (H1 p) as [B1 B2 B3 B4 B5]. pose proof (books_note o message (with_host None (service w1 p))) as Hb. unfold books in Hb. injection Hb as F1 F2 F3.
      constructor; rewrite ?F1, ?F2, ?F3; cbn; try done.
      * intros h' [Hd Hup]%lookup_delete_Some. specialize (B1 h' Hup). unfold w1 in B1. rewrite service_with_eq in B1. cbn in B1. destruct Hh as [Hh|Hh]; congruence.
      * intros o' h' Hin. destruct (B5 o' h' Hin) as (_ & Hlt' & Hq'). split_and!; [by left|done|]. intros q [_ Hup]%lookup_delete_Some. by apply Hq'.
    + rewrite service_with_ne by done. destruct (H1 q) as [B1 B2 B3 B4 B5]. constructor; cbn; try done.
      * intros h' [_ Hup]%lookup_delete_Some. by apply B1.
      * intros h' Hh'. specialize (B2 h' Hh'). rewrite lookup_delete_ne; [done|]. intros <-. apply Hne. by apply Hq.
      * intros o' h' Hin. destruct (B5 o' h' Hin) as (? & ? & Hq'). split_and!; [done..|]. intros q' [_ Hup]%lookup_delete_Some. by apply Hq'.
  - intros h' q. cbn. intros [_ Hup]%lookup_delete_Some. by apply (Hu h' q).
Qed.

Lemma tidy_watch p now ok w : creating (service w p) = [] -> starting (service w p) = [] -> tidy w -> tidy (runClaimWatcher p now ok w).
Proof.
  intros Hc Hs H. unfold runClaimWatcher. destruct (negb _); [done|]. destruct (host _); [case_bool_decide; [by apply tidy_with, tidy_shut|done]|]. destruct (standby _) as [n|]; [|done].
  case_bool_decide; [done|]. destruct (in_grace now n); [done|]. case_bool_decide; [done|]. destruct (tryClaim _ _ _ _ _) as [f []]; try by apply tidy_lock.
  apply tidy_startHost; [by rewrite service_with_eq..|]. by apply tidy_with, tidy_lock.
Qed.

(** A process that begins or ends has no hosts. *)
Lemma tidy_clear w p w' : hosts w' = hosts w -> up w' = filter (fun hp => hp.2 <> p) (up w) -> service w' p = new_service -> (forall q, q <> p -> service w' q = service w q) -> tidy w -> tidy w'.
Proof.
  intros Hh Hup Hp Hq [H Hu]. split.
  - intros q. destruct (decide (q = p)) as [->|Hne].
    + rewrite Hp. constructor; try done; [|cbn; lia|by intros o h Hin%not_elem_of_nil]. rewrite Hup. intros h [_ Hf]%map_lookup_filter_Some. by destruct Hf.
    + rewrite Hq by done. destruct (H q) as [B1 B2 B3 B4 B5]. constructor; rewrite ?Hup, ?Hh; try done.
      * intros h [Hin _]%map_lookup_filter_Some. by apply B1.
      * intros h Hin. apply map_lookup_filter_Some. split; [by apply B2|done].
      * intros o h Hin. destruct (B5 o h Hin) as (? & ? & Hx). split_and!; [done..|]. intros q' [Hin' _]%map_lookup_filter_Some. by apply Hx.
  - rewrite Hup, Hh. intros h q [Hin _]%map_lookup_filter_Some. by apply (Hu h q).
Qed.

(** The events that may start a host. *)
Definition may_start (ev : Event) : Prop := match ev with Decided _ _ _ _ | Pairing _ _ _ | Enable _ _ _ _ | Watch _ _ _ => True | _ => False end.

Lemma tidy_step w ev : (may_start ev -> creating (service w (process_of ev)) = [] /\ starting (service w (process_of ev)) = []) -> tidy w -> tidy (service_step w ev).
Proof.
  intros Hm H. destruct ev as [p|p|p|p|p|p now ok settled|p now ok|p now ok url|p ok|p ok|p now ok|p|p h ok message]; cbn [process_of service_step may_start] in *; try destruct (Hm I) as [Hc Hs].
  - apply (tidy_clear w p); try done; [unfold service; cbn; by rewrite lookup_insert_eq|]. intros q Hq. unfold service. cbn. by rewrite lookup_insert_ne.
  - apply (tidy_clear w p); try done; [unfold service; cbn; by rewrite lookup_delete_eq|]. intros q Hq. unfold service. cbn. by rewrite lookup_delete_ne.
  - by apply tidy_with, tidy_reconcile, tidy_with.
  - by apply tidy_reconcile.
  - destruct (armed _); [by apply tidy_reconcile|done].
  - by apply tidy_decided.
  - unfold ensureEnabledForPairing. destruct (tidy_require p w H) as [H1 Hb]. destruct (requireHealthyConfig p w) as [w' [c|]]; [|done]. cbn [fst] in *. injection Hb as Hb1 Hb2 Hb3.
    destruct (if enabled c then _ else _) as [f|]; [|done]. cbv zeta. case_bool_decide; [by apply tidy_with, tidy_lock, tidy_config|]. apply tidy_startHost; [rewrite service_config; congruence..|by apply tidy_config].
  - unfold enable. destruct (tidy_require p w H) as [H1 Hb]. destruct (requireHealthyConfig p w) as [w' [c|]]; [|done]. cbn [fst] in *. injection Hb as Hb1 Hb2 Hb3. cbv zeta.
    destruct (config_write _ _ _) as [f|]; [|done]. apply tidy_startHost; [rewrite service_config; congruence..|by apply tidy_config].
  - unfold disable. destruct (tidy_require p w H) as [H1 _]. destruct (requireHealthyConfig p w) as [w' [c|]]; cbn [fst] in *; cbv zeta; apply tidy_lock, tidy_with; try done; apply tidy_shut; [|done]. destruct (enabled c); [by apply tidy_config|done].
  - unfold dispose. cbv zeta. by apply tidy_lock, tidy_with, tidy_shut.
  - by apply tidy_watch.
  - by apply tidy_created.
  - by apply tidy_started.
Qed.

(** No start begins in a process while another one of it is under way. *)
Fixpoint serial (w : World) (evs : list Event) : Prop :=
  match evs with
  | [] => True
  | ev :: evs => (may_start ev -> creating (service w (process_of ev)) = [] /\ starting (service w (process_of ev)) = []) /\ serial (service_step w ev) evs
  end.

(** As long as the starts of a process do not overlap, it runs the host its service holds and no other, in every history of the processes: each host that was not stopped is the one its service will stop. *)
Theorem serial_starts_leak_no_host c evs p h :
  serial (first_world c) evs ->
  let w := service_run (first_world c) evs in
  up w !! h = Some p <-> host (service w p) = Some h.
Proof.
  intros Hs. cbv zeta. assert (tidy (first_world c)) as H by (split; [|done]; intros q; unfold service; cbn [services first_world]; rewrite lookup_empty; constructor; try done; cbn; first [lia|by intros o h' Hin%not_elem_of_nil]).
  unfold service_run. revert Hs H. generalize (first_world c). induction evs as [|ev evs IH]; intros w Hs H; [destruct H as [H _]; split; apply H|]. destruct Hs as [Hm Hs]. cbn [foldl]. apply IH; [done|by apply tidy_step].
Qed.

End config.

(** ** Concrete machines *)

Section toy.
Definition plain_env : Z -> Env := fun _ => {| NOTNATIVE_RELAY_URL := None; NOTNATIVE_RELAY_HOST := None; NOTNATIVE_ELECTRON_DEV := None |}.
Definition ws_protocol (s : string) : option string := if starts_with "wss:" s then Some "wss:" else None.
#[local] Abbreviation run := (service_run ws_protocol DEFAULT_RELAY_SERVICE_TIMING plain_env).
#[local] Abbreviation after := (run (first_world None)).

(** ** Overlapping starts *)

(** Two enables, the second before the factory has answered the first: both hosts run, and nobody will stop the first one. *)
Lemma overlapping_starts_leak_a_host :
  let w := after [Boots 7; Enable 7 0 true None; Enable 7 0 true None; Created 7; Created 7] in
  host (service w 7) = Some 1%nat /\ up w !! 0%nat = Some 7 /\ up w !! 1%nat = Some 7.
Proof. by vm_compute. Qed.

(** A service disabled while the factory is at work hosts afterwards, without a claim. *)
Lemma disable_misses_a_start :
  let w := after [Boots 7; Enable 7 0 true None; Disable 7 true; Created 7; Started 7 0 true ""] in
  host (service w 7) = Some 0%nat /\ up w !! 0%nat = Some 7 /\ enabled (config_read ws_protocol (configFile w)) = false /\ lockFile w = None.
Proof. by vm_compute. Qed.

(** A failed start forgets whatever host there is by then. *)
Lemma late_failure_forgets_the_new_host :
  let w := after [Boots 7; Enable 7 0 true None; Created 7; Enable 7 0 true None; Created 7; Started 7 0 false "late"] in
  host (service w 7) = None /\ up w !! 1%nat = Some 7.
Proof. by vm_compute. Qed.

(** A corrupt configuration is reported as a stopped lifecycle, but the host goes on. *)
Lemma corrupt_config_stops_nothing :
  let w0 := after [Boots 7; Enable 7 0 true None; Created 7; Started 7 0 true ""] in
  let w := run (with_config (Some None) w0) [Reconcile 7; Poll 7] in
  host (service w 7) = Some 0%nat /\ up w !! 0%nat = Some 7 /\ configNote (service w 7) <> None.
Proof. by vm_compute. Qed.

(** ** Witnesses *)

(** Process 7 hosts; 8 boots with demand, finds the claim taken and stands by. *)
Definition two_processes : World := after [Boots 7; Enable 7 0 true None; Created 7; Started 7 0 true ""; Boots 8; Start 8; Decided 8 1000 true [Some true]].

Lemma standby_waits_out_the_grace_witness :
  exists n, standby (service two_processes 8) = Some n /\
  let s := service (run two_processes [Poll 8; Dies 7; Decided 8 60000 true [Some true]; Watch 8 90000 true; Watch 8 120999 true]) 8 in
  host s = None /\ creating s = [] /\ standby s = Some n.
Proof.
  eexists. split; [vm_compute; reflexivity|]. eapply (standby_waits_out_the_grace ws_protocol DEFAULT_RELAY_SERVICE_TIMING plain_env two_processes _ 8).
  - vm_compute. reflexivity. - by vm_compute. - by vm_compute.
  - repeat constructor; cbn; try done; try (by intros []); intros t [= <-]; by vm_compute.
Defined.

(** Process 8 is told to host, and 7 stands down at its next tick. *)
Lemma claim_decides_who_hosts_witness :
  let w := run two_processes [Enable 8 2000 true None; Created 8; Started 8 1 true ""] in
  let evs := [Poll 7; Watch 7 3000 true; Decided 7 4000 true [Some true]; Boots 9; Start 9; Watch 7 200000 true] in
  claims 8 (run w evs) /\ host (service (run w evs) 7) = None.
Proof.
  intros w evs. apply (claim_decides_who_hosts ws_protocol DEFAULT_RELAY_SERVICE_TIMING plain_env w 8 7 [Poll 7] 3000 true [Decided 7 4000 true [Some true]; Boots 9; Start 9; Watch 7 200000 true]).
  - split; by vm_compute. - done. - by repeat constructor. - by vm_compute. - by vm_compute.
Defined.

Lemma serial_starts_leak_no_host_witness :
  let w := after [Boots 7; Enable 7 0 true None; Created 7; Started 7 0 true ""; Enable 7 5 true None; Created 7; Started 7 1 true ""] in
  up w !! 1%nat = Some 7 <-> host (service w 7) = Some 1%nat.
Proof. apply (serial_starts_leak_no_host ws_protocol DEFAULT_RELAY_SERVICE_TIMING plain_env None). by vm_compute. Defined.
End toy.
