(* ===== verification/QueueItem.v ===== *)
(** Message-queue items (src/desktop/packages/web/src/server/queue/queue-item.ts):
    the parser of the enqueue route, the duplicate test, the preview and the
    public projection.

    The clock and the random identifiers are arguments. *)

From S2P Require Import Prelude JsString JsMap JsValue.
From Stdlib Require Import Qcanon.
#[local] Close Scope Qc_scope.
#[local] Close Scope Q_scope.

Definition QUEUE_CONTENT_MAX_CHARS : Z := 200000.
Definition QUEUE_CONTEXT_PREVIEW_MAX_CHARS : nat := 103.
Definition QUEUE_SNAPSHOT_PREVIEW_MAX_CHARS : nat := 100.

(** [/^[A-Za-z0-9][A-Za-z0-9._:-]{0,127}$/] *)
Definition is_id_char (a : ascii) : bool :=
  is_alnum a || Ascii.eqb a "." || Ascii.eqb a "_" || Ascii.eqb a ":" || Ascii.eqb a "-".

Definition QUEUE_ITEM_ID_PATTERN (id : string) : bool :=
  match id with
  | EmptyString => false
  | String a rest => is_alnum a && sall is_id_char rest && (String.length rest <=? 127)
  end.

Inductive AttachmentSource : Type := Local | Server | Vscode.

#[export] Instance AttachmentSource_eq_dec : EqDecision AttachmentSource.
Proof. solve_decision. Defined.

Record Attachment : Type := mkAttachment {
  a_id : string;
  a_filename : string;
  a_mimeType : string;
  a_size : Qc;
  a_source : AttachmentSource;
  a_serverPath : option string;
  a_dataUrl : string;
}.

Inductive ContextPart : Type :=
| Context (text : string) (metadata : list (string * json)) (instructions : option string)
| Instruction (text : string)
| Synthetic (text : string).

Record SendConfig : Type := mkSend {
  providerID : string;
  modelID : string;
  sc_agent : option string;
  sc_variant : option string;
}.

Record QueueItem : Type := mkItem {
  id : string;
  createdAt : Qc;
  content : string;
  text : string;
  agentMention : option string;
  attachments : list Attachment;
  context : list ContextPart;
  contextPreview : option string;
  sendConfig : SendConfig;
}.

#[export] Instance Attachment_eq_dec : EqDecision Attachment.
Proof. solve_decision. Defined.
#[export] Instance ContextPart_eq_dec : EqDecision ContextPart.
Proof. solve_decision. Defined.
#[export] Instance SendConfig_eq_dec : EqDecision SendConfig.
Proof. solve_decision. Defined.
#[export] Instance QueueItem_eq_dec : EqDecision QueueItem.
Proof. solve_decision. Defined.

(** [Validation] is answered 400 and [Conflict] 409. *)
Inductive QueueError : Type := Validation | Conflict.

Definition queued := exc QueueError.

(** ** Parsing *)

Definition trimNewlineEdges (s : string) : string :=
  trim_end_by is_newline (trim_start_by is_newline s).

Definition requireString (v : option json) : queued string :=
  match v with Some (JStr s) => Ok s | _ => Throw Validation end.

Definition optionalString (v : option json) : queued (option string) :=
  match v with
  | None | Some JNull => Ok None
  | _ => s ← requireString v; mret (if bool_decide (trim s = "") then None else Some s)
  end.

Definition asObject (v : option json) : queued json :=
  match v with Some (JObj fields) => Ok (JObj fields) | _ => Throw Validation end.

Definition parseAttachmentSource (v : option json) : AttachmentSource :=
  if is_str v "server" then Server else if is_str v "vscode" then Vscode else Local.

(** A finite number, or the default. *)
Definition finite_or (v : option json) (d : Qc) : Qc :=
  match v with Some (JNum (NFin q)) => q | _ => d end.

Definition parseAttachment (raw : json) (fresh : string) : queued Attachment :=
  entry ← asObject (Some raw);
  id ← optionalString (jfield "id" entry);
  filename ← requireString (jfield "filename" entry);
  mimeType ← requireString (jfield "mimeType" entry);
  dataUrl ← requireString (jfield "dataUrl" entry);
  serverPath ← optionalString (jfield "serverPath" entry);
  mret (mkAttachment (default fresh id) filename mimeType (finite_or (jfield "size" entry) 0%Qc)
          (parseAttachmentSource (jfield "source" entry)) serverPath dataUrl).

Definition parseContextEntry (raw : json) : queued ContextPart :=
  entry ← asObject (Some raw);
  let kind := jfield "kind" entry in
  text ← requireString (jfield "text" entry);
  if is_str kind "instruction" then mret (Instruction text)
  else if is_str kind "synthetic" then mret (Synthetic text)
  else if is_str kind "context" then
    match jfield "metadata" entry with
    | Some (JObj metadata) =>
      instructions ← optionalString (jfield "instructions" entry);
      mret (Context text metadata instructions)
    | _ => Throw Validation
    end
  else Throw Validation.

Definition parseSendConfig (raw : option json) : queued SendConfig :=
  entry ← asObject raw;
  providerID ← requireString (jfield "providerID" entry);
  modelID ← requireString (jfield "modelID" entry);
  let providerID := trim providerID in
  let modelID := trim modelID in
  if bool_decide (providerID = "") || bool_decide (modelID = "") then Throw Validation
  else
    agent ← optionalString (jfield "agent" entry);
    variant ← optionalString (jfield "variant" entry);
    mret (mkSend providerID modelID agent variant).

(** [/^@([^\s@]+)\s?/] *)
Definition is_name_char (a : ascii) : bool := negb (is_space a) && negb (Ascii.eqb a "@").

Definition stripAgentMention (t : string) : string * option string :=
  match t with
  | String "@" rest =>
    match span is_name_char rest with
    | EmptyString => (t, None)
    | name =>
      let tail := sdrop (String.length name) rest in
      let tail := match tail with String a tl => if is_space a then tl else tail | EmptyString => tail end in
      (trimStart tail, Some name)
    end
  | _ => (t, None)
  end.

(** [array.map(parse)], stopping at the first throw. *)
Fixpoint parse_all {A} (parse : json -> nat -> queued A) (l : list json) (index : nat) : queued (list A) :=
  match l with
  | [] => Ok []
  | x :: l' => a ← parse x index; rest ← parse_all parse l' (S index); mret (a :: rest)
  end.

Definition array_or_empty (v : option json) : list json :=
  match v with Some (JArr l) => l | _ => [] end.

Definition parseQueuedItemInput (raw : json) (freshId : string) (freshAtt : nat -> string) (now : Qc) :
    queued QueueItem :=
  body ← asObject (Some raw);
  rawContent ← requireString (jfield "content" body);
  let content := trimNewlineEdges rawContent in
  if bool_decide (QUEUE_CONTENT_MAX_CHARS < slen content)%Z then Throw Validation
  else
    suppliedText ← optionalString (jfield "text" body);
    let '(text, mention) := stripAgentMention (trimNewlineEdges (default content suppliedText)) in
    attachments ← parse_all (fun e i => parseAttachment e (freshAtt i)) (array_or_empty (jfield "attachments" body)) 0;
    context ← parse_all (fun e _ => parseContextEntry e) (array_or_empty (jfield "context" body)) 0;
    if bool_decide (text = "") && bool_decide (attachments = []) && bool_decide (context = []) then Throw Validation
    else
      suppliedId ← optionalString (jfield "id" body);
      if match suppliedId with Some i => negb (QUEUE_ITEM_ID_PATTERN i) | None => false end then Throw Validation
      else
        sendConfig ← parseSendConfig (jfield "sendConfig" body);
        contextPreview ← optionalString (jfield "contextPreview" body);
        mret (mkItem (default freshId suppliedId) (finite_or (jfield "createdAt" body) now) content text mention
                attachments context (stake QUEUE_CONTEXT_PREVIEW_MAX_CHARS <$> contextPreview) sendConfig).

(** ** Comparison and projection *)

(** Two JSON texts of the projected fields are equal when the fields are. *)
Definition sameQueuePayload (l r : QueueItem) : bool :=
  bool_decide (content l = content r) && bool_decide (text l = text r)
  && bool_decide (agentMention l = agentMention r) && bool_decide (attachments l = attachments r)
  && bool_decide (context l = context r) && bool_decide (sendConfig l = sendConfig r)
  && bool_decide (contextPreview l = contextPreview r).

Definition firstLine (t : string) : string := trim (before "010" t).

Definition ellipsis (limit : nat) (t : string) : string := stake limit t +:+ "...".

Definition context_text (p : ContextPart) : string :=
  match p with Context t _ _ | Instruction t | Synthetic t => t end.

Definition is_instruction (p : ContextPart) : bool := match p with Instruction _ => true | _ => false end.

Definition comment_text (p : ContextPart) : option string :=
  match p with
  | Context _ metadata _ =>
    match jget "text" metadata with
    | Some (JStr t) => if bool_decide (trim t = "") then None else Some t
    | _ => None
    end
  | _ => None
  end.

Definition deriveSnapshotPreview (item : QueueItem) : string :=
  let limit := QUEUE_SNAPSHOT_PREVIEW_MAX_CHARS in
  let hd := firstLine (content item) in
  if negb (bool_decide (hd = "")) then
    if (limit <? String.length hd)
       || (0 <? String.length (trimNewlineEdges (sdrop (String.length hd) (content item))))
    then ellipsis limit hd else hd
  else
    let entries := List.filter (fun p => negb (is_instruction p)) (context item) in
    let fallback := match omap comment_text entries with
                    | t :: _ => t
                    | [] => match entries with
                            | p :: _ => context_text p
                            | [] => stake limit (firstLine (text item))
                            end
                    end in
    if bool_decide (trim fallback = "") then ""
    else if limit <? String.length fallback then ellipsis limit fallback else fallback.

(** An attachment without its data. *)
Record PublicAttachment : Type := mkPublicAttachment {
  pa_id : string; pa_filename : string; pa_mimeType : string; pa_size : Qc;
  pa_source : AttachmentSource; pa_serverPath : option string }.

Record PublicQueueItem : Type := mkPublic {
  p_id : string; p_createdAt : Qc; p_content : string; p_text : string; p_agentMention : option string;
  p_attachments : list PublicAttachment; p_contextPreview : option string; p_preview : string;
  p_sendConfig : SendConfig }.

Definition publicQueueItem (item : QueueItem) : PublicQueueItem :=
  mkPublic (id item) (createdAt item) (content item) (text item) (agentMention item)
    ((fun a => mkPublicAttachment (a_id a) (a_filename a) (a_mimeType a) (a_size a) (a_source a) (a_serverPath a))
       <$> attachments item)
    (contextPreview item) (deriveSnapshotPreview item) (sendConfig item).

(** ** What the parser guarantees *)

Record item_wf (i : QueueItem) : Prop := {
  iw_content_len : (slen (content i) <= QUEUE_CONTENT_MAX_CHARS)%Z;
  iw_content_trimmed : trimNewlineEdges (content i) = content i;
  iw_deliverable : text i <> "" \/ attachments i <> [] \/ context i <> [];
  iw_model : trim (providerID (sendConfig i)) = providerID (sendConfig i) /\ providerID (sendConfig i) <> ""
             /\ modelID (sendConfig i) <> "";
  iw_preview : forall p, contextPreview i = Some p -> String.length p <= QUEUE_CONTEXT_PREVIEW_MAX_CHARS;
}.

Lemma trimNewlineEdges_idem s : trimNewlineEdges (trimNewlineEdges s) = trimNewlineEdges s.
Proof. apply trim_both_idem. Qed.

Lemma parseSendConfig_ok v c :
  parseSendConfig v = Ok c ->
  trim (providerID c) = providerID c /\ providerID c <> "" /\ modelID c <> "".
Proof.
  unfold parseSendConfig. intros H.
  destruct (asObject v) as [o|]; [|done]. cbn [mbind exc_bind] in H.
  destruct (requireString (jfield "providerID" o)) as [p|]; [|done]. cbn [mbind exc_bind] in H.
  destruct (requireString (jfield "modelID" o)) as [m|]; [|done]. cbn [mbind exc_bind] in H.
  destruct (_ || _) eqn:E; [done|]. bool_facts.
  destruct (optionalString (jfield "agent" o)) as [a|]; [|done]. cbn [mbind exc_bind] in H.
  destruct (optionalString (jfield "variant" o)) as [w|]; [|done]. cbn [mbind exc_bind] in H.
  injection H as <-. cbn. split; [apply trim_idem|done].
Qed.

Lemma sameQueuePayload_spec l r :
  sameQueuePayload l r = true <->
  r = mkItem (id r) (createdAt r) (content l) (text l) (agentMention l) (attachments l) (context l)
        (contextPreview l) (sendConfig l).
Proof.
  unfold sameQueuePayload. rewrite !andb_true_iff, !bool_decide_eq_true. destruct r; cbn.
  split; [naive_solver|]. intros H. injection H. naive_solver.
Qed.

Lemma length_append a b : String.length (a +:+ b) = String.length a + String.length b.
Proof. induction a as [|c a IH]; [done|]. unfold String.app in *. cbn in *. by rewrite IH. Qed.

Lemma ellipsis_length n t : String.length (ellipsis n t) <= n + 3.
Proof. unfold ellipsis. rewrite length_append. pose proof (stake_length n t). cbn. lia. Qed.

(** ** Properties *)

(** What the enqueue route accepts can be delivered later: a parsed item has
    something to send, names its provider and model, keeps within the content
    and preview limits, is trimmed at its newline edges, and carries an
    identifier the harness accepts whenever the generated one does. *)
Theorem parsed_item_is_deliverable (raw : json) (freshId : string) (freshAtt : nat -> string) (now : Qc)
    (i : QueueItem) :
  parseQueuedItemInput raw freshId freshAtt now = Ok i ->
  item_wf i /\ (QUEUE_ITEM_ID_PATTERN freshId = true -> QUEUE_ITEM_ID_PATTERN (id i) = true)
  /\ String.length (deriveSnapshotPreview i) <= QUEUE_SNAPSHOT_PREVIEW_MAX_CHARS + 3.
Proof.
  unfold parseQueuedItemInput. intros H.
  destruct (asObject (Some raw)) as [body|]; [|done]. cbn [mbind exc_bind] in H.
  destruct (requireString (jfield "content" body)) as [rawContent|]; [|done]. cbn [mbind exc_bind] in H.
  destruct (bool_decide _) eqn:Hlen; [done|]. bool_facts.
  destruct (optionalString (jfield "text" body)) as [st|]; [|done]. cbn [mbind exc_bind] in H.
  destruct (stripAgentMention _) as [t m].
  destruct (parse_all (fun e i => parseAttachment e (freshAtt i)) _ 0) as [atts|]; [|done]. cbn [mbind exc_bind] in H.
  destruct (parse_all (fun e _ => parseContextEntry e) _ 0) as [ctx|]; [|done]. cbn [mbind exc_bind] in H.
  destruct (_ && _) eqn:Hemp; [done|].
  destruct (optionalString (jfield "id" body)) as [sid|]; [|done]. cbn [mbind exc_bind] in H.
  destruct (match sid with Some i => _ | None => _ end) eqn:Hid; [done|].
  destruct (parseSendConfig _) as [sc|] eqn:Hsc; [|done]. cbn [mbind exc_bind] in H.
  destruct (optionalString (jfield "contextPreview" body)) as [cp|]; [|done]. cbn [mbind exc_bind] in H.
  injection H as <-. split; [split; cbn|split].
  - lia.
  - apply trimNewlineEdges_idem.
  - rewrite !andb_false_iff in Hemp. destruct Hemp as [[?|?]|?]; bool_facts; auto.
  - by eapply parseSendConfig_ok.
  - intros p. destruct cp; cbn; [|done]. intros [= <-]. apply (stake_length 103).
  - cbn. destruct sid as [s|]; cbn; [|done]. intros _. by apply negb_false_iff in Hid.
  - unfold deriveSnapshotPreview. cbn [content text context]. cbn zeta.
    repeat split_test; try apply ellipsis_length; try (cbn; lia); unfold QUEUE_SNAPSHOT_PREVIEW_MAX_CHARS in *; lia.
Qed.

Definition demo_item_json : json :=
  JObj [("content", JStr "@bob run the tests"); ("id", JStr "queued-1-abc");
        ("sendConfig", JObj [("providerID", JStr " nna "); ("modelID", JStr "m1")])].

Lemma parsed_item_is_deliverable_witness :
  exists i, parseQueuedItemInput demo_item_json "queued-0-0000000" (fun _ => "att-0") 0%Qc = Ok i /\ item_wf i.
Proof.
  destruct (parseQueuedItemInput demo_item_json "queued-0-0000000" (fun _ => "att-0") 0%Qc) as [i|] eqn:E;
    [|vm_compute in E; discriminate].
  exists i. split; [reflexivity|].
  apply (parsed_item_is_deliverable demo_item_json "queued-0-0000000" (fun _ => "att-0") 0%Qc i E).
Defined.
