(* ===== verification/QueueStore.v ===== *)
(** Message-queue persistence (queue/queue-store.ts): the in-memory queue, the
    limits of enqueue, the ordering mutators and the file behind it.

    A file is represented by what [readQueueDoc] makes of it. A scheduled write
    runs later and stores the queue as it then is. *)

From S2P Require Import Prelude JsString JsMap JsValue QueueItem.
From Stdlib Require Import Qcanon.
#[local] Close Scope Qc_scope.
#[local] Close Scope Q_scope.

Definition QUEUE_MAX_ITEMS_PER_SESSION : nat := 20.
Definition QUEUE_MAX_SESSIONS : nat := 50.

Record QueueSessionEntry : Type := mkEntry { directory : string; items : list QueueItem }.

#[export] Instance QueueSessionEntry_eq_dec : EqDecision QueueSessionEntry.
Proof. solve_decision. Defined.

(** The document of version 1; a session that is no object is [None]. *)
Record PersistedQueueFile : Type := mkDoc {
  doc_revision : Z;
  doc_sessions : list (string * option QueueSessionEntry);
}.

Inductive LoadedQueueDoc : Type :=
| Missing
| Malformed
| HardFailure
| LoadedDoc (doc : PersistedQueueFile).

Record QueueSessionSnapshot : Type := mkSnapshot {
  ss_sessionId : string;
  ss_directory : string;
  ss_items : list PublicQueueItem;
  ss_sendingId : option string;
}.

(** [file] is the queue file and [quarantined] counts the files renamed aside. *)
Record Store : Type := mkStore {
  sessions : list (string * QueueSessionEntry);
  revision : Z;
  writesDisabled : bool;
  pendingWrites : nat;
  file : LoadedQueueDoc;
  quarantined : nat;
}.

Definition newStore (f : LoadedQueueDoc) : Store := mkStore [] 0 false 0 f 0.

Definition with_sessions (s : Store) (m : list (string * QueueSessionEntry)) : Store :=
  mkStore m (revision s) (writesDisabled s) (pendingWrites s) (file s) (quarantined s).

Definition with_disabled (s : Store) (d : bool) : Store :=
  mkStore (sessions s) (revision s) d (pendingWrites s) (file s) (quarantined s).

Inductive LoadResult : Type := Loaded | LoadMissing | Quarantined | Disabled.

Definition quarantineCorruptFile (s : Store) : Store :=
  mkStore (sessions s) (revision s) (writesDisabled s) (pendingWrites s) Missing (S (quarantined s)).

(** [loaded.set(...)] for every session that is an object. *)
Definition loaded_sessions (d : list (string * option QueueSessionEntry)) : list (string * QueueSessionEntry) :=
  fold_left (fun m x => match x.2 with Some e => jset x.1 e m | None => m end) d [].

Definition load (s : Store) : Store * LoadResult :=
  match file s with
  | HardFailure => (with_disabled s true, Disabled)
  | Malformed =>
    let s1 := quarantineCorruptFile s in
    (mkStore [] 0 (writesDisabled s1) (pendingWrites s1) (file s1) (quarantined s1), Quarantined)
  | Missing => (mkStore [] 0 false (pendingWrites s) (file s) (quarantined s), LoadMissing)
  | LoadedDoc d =>
    (mkStore (loaded_sessions (doc_sessions d)) (doc_revision d) false (pendingWrites s) (file s) (quarantined s),
     Loaded)
  end.

Definition is_empty_entry (e : QueueSessionEntry) : bool := match items e with [] => true | _ => false end.

Definition refreshPreservingEmpty (s : Store) : Store * LoadResult :=
  let empty := List.filter (fun x => is_empty_entry x.2) (sessions s) in
  let '(s1, r) := load s in
  (with_sessions s1 (fold_left (fun m x => if jhas x.1 m then m else jset x.1 x.2 m) empty (sessions s1)), r).

Definition scheduleWrite (s : Store) : Store :=
  if writesDisabled s then s
  else mkStore (sessions s) (revision s) (writesDisabled s) (S (pendingWrites s)) (file s) (quarantined s).

(** The queue as it is written: emptied queues stay in memory only. *)
Definition doc_of (s : Store) : PersistedQueueFile :=
  mkDoc (revision s)
    (omap (fun x => if is_empty_entry x.2 then None else Some (x.1, Some x.2)) (sessions s)).

(** One pending write runs; a failed one leaves the file as it was. *)
Definition writeNow (s : Store) (ok : bool) : Store :=
  match pendingWrites s with
  | O => s
  | S n => mkStore (sessions s) (revision s) (writesDisabled s) n
             (if ok then LoadedDoc (doc_of s) else file s) (quarantined s)
  end.

Definition recoverWrites (s : Store) : Store * bool :=
  if negb (writesDisabled s) then (s, true)
  else match file s with
       | HardFailure => (s, false)
       | Malformed => (with_disabled (quarantineCorruptFile s) false, true)
       | _ => (scheduleWrite (with_disabled s false), true)
       end.

Definition commit (s : Store) : Store * Z :=
  let s1 := mkStore (sessions s) (revision s + 1) (writesDisabled s) (pendingWrites s) (file s) (quarantined s) in
  (scheduleWrite s1, revision s1).

Definition entryOf (s : Store) (sessionId : string) : option QueueSessionEntry := jget sessionId (sessions s).

Definition directoryOf (s : Store) (sessionId : string) : option string := directory <$> entryOf s sessionId.

Definition find_item (itemId : string) (l : list QueueItem) : option QueueItem :=
  List.find (fun i => bool_decide (id i = itemId)) l.

Definition findItem (s : Store) (sessionId itemId : string) : option QueueItem :=
  e ← entryOf s sessionId; find_item itemId (items e).

Definition nonEmptyEntries (s : Store) : list (string * QueueSessionEntry) :=
  List.filter (fun x => negb (is_empty_entry x.2)) (sessions s).

Definition snapshot (s : Store) (sendingId : string -> option string) : list QueueSessionSnapshot :=
  (fun x => mkSnapshot x.1 (directory x.2) (publicQueueItem <$> items x.2) (sendingId x.1)) <$> nonEmptyEntries s.

(** ** Enqueue *)

(** The first-item age a session is sorted by; an empty one sorts as -1. *)
Definition session_age (e : QueueSessionEntry) : Qc :=
  match items e with i :: _ => createdAt i | [] => Q2Qc (QArith_base.Qmake (-1) 1) end.

(** The head of the stably sorted candidates: the first of the youngest age. *)
Fixpoint oldest (l : list (string * QueueSessionEntry)) : option (string * QueueSessionEntry) :=
  match l with
  | [] => None
  | x :: l' => match oldest l' with
               | Some y => if decide (session_age y.2 < session_age x.2)%Qc then Some y else Some x
               | None => Some x
               end
  end.

(** [while (size > 50)], one unit of fuel per deletion. *)
Fixpoint evict_loop (fuel : nat) (m : list (string * QueueSessionEntry))
    (inFlightId : string -> option string) (protect : string) : list (string * QueueSessionEntry) :=
  match fuel with
  | O => m
  | S k =>
    if QUEUE_MAX_SESSIONS <? jsize m then
      match oldest (List.filter (fun x => negb (bool_decide (x.1 = protect))
                                          && negb (bool_decide (is_Some (inFlightId x.1)))) m) with
      | None => m
      | Some victim => evict_loop k (jdel victim.1 m) inFlightId protect
      end
    else m
  end.

Definition evictOldestSessions (s : Store) (inFlightId : string -> option string) (protect : string) : Store :=
  with_sessions s (evict_loop (jsize (sessions s)) (sessions s) inFlightId protect).

(** The trimming loop over the items before and from [head]: [None] when the
    fuel does not suffice. *)
Fixpoint trim_loop (fuel : nat) (l : list QueueItem) (hd : nat) (pinned : option string) : option (list QueueItem) :=
  match fuel with
  | O => None
  | S k =>
    if QUEUE_MAX_ITEMS_PER_SESSION <? length l then
      match l !! hd with
      | Some i => if bool_decide (Some (id i) = pinned) then trim_loop k l (S hd) pinned
                  else trim_loop k (take hd l ++ drop (S hd) l) hd pinned
      | None => trim_loop k l (S hd) pinned
      end
    else Some l
  end.

(** Every iteration skips or removes an item, unless the head has run past the
    end with too many items left; then the code loops for ever. *)
Definition trim_fuel (l : list QueueItem) : nat := S (length l).

Definition enqueue (s : Store) (sessionId dir : string) (item : QueueItem)
    (inFlightId : string -> option string) : option (Store * Z) :=
  let old := match entryOf s sessionId with Some e => items e | None => [] end in
  l ← trim_loop (trim_fuel (old ++ [item])) (old ++ [item]) 0 (inFlightId sessionId);
  let s1 := with_sessions s (jset sessionId (mkEntry dir l) (sessions s)) in
  Some (commit (evictOldestSessions s1 inFlightId sessionId)).

(** ** Removal and order *)

Fixpoint remove_first (itemId : string) (l : list QueueItem) : option (QueueItem * list QueueItem) :=
  match l with
  | [] => None
  | i :: l' => if bool_decide (id i = itemId) then Some (i, l')
               else match remove_first itemId l' with Some (x, r) => Some (x, i :: r) | None => None end
  end.

Definition set_items (s : Store) (sessionId : string) (e : QueueSessionEntry) (l : list QueueItem) : Store :=
  with_sessions s (jset sessionId (mkEntry (directory e) l) (sessions s)).

Definition removeItem (s : Store) (sessionId itemId : string) : Store * option QueueItem :=
  match entryOf s sessionId with
  | None => (s, None)
  | Some e => match remove_first itemId (items e) with
              | None => (s, None)
              | Some (x, r) => (set_items s sessionId e r, Some x)
              end
  end.

Definition is_kept (keepId : option string) (i : QueueItem) : bool := bool_decide (Some (id i) = keepId).

Definition takeAllExcept (s : Store) (sessionId : string) (keepId : option string) : Store * list QueueItem :=
  match entryOf s sessionId with
  | None => (s, [])
  | Some e =>
    (set_items s sessionId e (match keepId with None => [] | Some _ => List.filter (is_kept keepId) (items e) end),
     List.filter (fun i => negb (is_kept keepId i)) (items e))
  end.

Inductive ReorderResult : Type := Applied | Incomplete | NoSession | PinnedInFlight.

#[export] Instance ReorderResult_eq_dec : EqDecision ReorderResult.
Proof. solve_decision. Defined.

(** [new Map(items.map(...))]: the last item of an id wins. *)
Definition by_id (l : list QueueItem) : list (string * QueueItem) :=
  fold_left (fun m i => jset (id i) i m) l [].

Definition reorder (s : Store) (sessionId : string) (itemIds : list string) (pinnedHeadId : option string) :
    Store * ReorderResult :=
  match entryOf s sessionId with
  | None => (s, NoSession)
  | Some e =>
    if negb (length itemIds =? length (items e)) then (s, Incomplete)
    else if negb (bool_decide (NoDup itemIds)) then (s, Incomplete)
    else if negb (forallb (fun i => bool_decide (i ∈ id <$> items e)) itemIds) then (s, Incomplete)
    else if match pinnedHeadId with
            | Some p => negb (bool_decide (head itemIds = Some p))
            | None => false
            end then (s, PinnedInFlight)
    else (set_items s sessionId e (omap (fun i => jget i (by_id (items e))) itemIds), Applied)
  end.

Definition dropSession (s : Store) (sessionId : string) : Store * bool :=
  (with_sessions s (jdel sessionId (sessions s)), jhas sessionId (sessions s)).

Definition forgetDirectoryMemory (s : Store) (sessionId : string) : Store :=
  match entryOf s sessionId with
  | Some e => if is_empty_entry e then with_sessions s (jdel sessionId (sessions s)) else s
  | None => s
  end.

(** ** Lemmas on trimming *)

(** What trimming is meant to do: drop the first [k] items that are not pinned. *)
Fixpoint drop_unpinned (k : nat) (pinned : option string) (l : list QueueItem) : list QueueItem :=
  match l with
  | [] => []
  | i :: l' =>
    if bool_decide (Some (id i) = pinned) then i :: drop_unpinned k pinned l'
    else match k with O => l | S k' => drop_unpinned k' pinned l' end
  end.

Definition unpinned (pinned : option string) (l : list QueueItem) : nat :=
  length (List.filter (fun i => negb (is_kept pinned i)) l).

Lemma unpinned_cons pinned i l :
  unpinned pinned (i :: l) = if bool_decide (Some (id i) = pinned) then unpinned pinned l else S (unpinned pinned l).
Proof. unfold unpinned, is_kept. cbn. by case_bool_decide. Qed.

Lemma unpinned_le pinned l : unpinned pinned l <= length l.
Proof. induction l as [|i l IH]; [done|]. rewrite unpinned_cons. case_bool_decide; cbn; lia. Qed.

Lemma drop_unpinned_0 pinned l : drop_unpinned 0 pinned l = l.
Proof. induction l as [|i l IH]; [done|]. cbn. case_bool_decide; [by rewrite IH|done]. Qed.

(** The loop with the pinned items [pre] skipped so far. *)
Lemma trim_loop_spec fuel pre l pinned :
  length l < fuel ->
  length pre + length l <= QUEUE_MAX_ITEMS_PER_SESSION + unpinned pinned l ->
  trim_loop fuel (pre ++ l) (length pre) pinned
  = Some (pre ++ drop_unpinned (length pre + length l - QUEUE_MAX_ITEMS_PER_SESSION) pinned l).
Proof.
  revert pre l. induction fuel as [|fuel IH]; intros pre l Hf Hn; [lia|]. cbn [trim_loop].
  rewrite length_app. destruct (QUEUE_MAX_ITEMS_PER_SESSION <? length pre + length l) eqn:E; bool_facts.
  2:{ replace (length pre + length l - QUEUE_MAX_ITEMS_PER_SESSION) with 0 by lia. by rewrite drop_unpinned_0. }
  destruct l as [|i l]; [change (unpinned pinned []) with 0 in Hn; cbn [length] in *; lia|].
  rewrite list_lookup_middle by done. rewrite unpinned_cons in Hn. cbn [drop_unpinned length] in *.
  destruct (bool_decide (Some (id i) = pinned)) eqn:Ep.
  - replace (pre ++ i :: l) with ((pre ++ [i]) ++ l) by by rewrite <- app_assoc.
    replace (S (length pre)) with (length (pre ++ [i])) by (rewrite length_app; cbn; lia).
    rewrite IH; [|lia|rewrite length_app; cbn [length]; lia]. rewrite length_app, <- app_assoc. cbn [length app].
    by replace (length pre + 1 + length l) with (length pre + S (length l)) by lia.
  - rewrite take_app_length, drop_app_ge by lia.
    replace (S (length pre) - length pre) with 1 by lia. cbn [drop]. rewrite drop_0.
    rewrite IH by lia. destruct (length pre + S (length l) - QUEUE_MAX_ITEMS_PER_SESSION) as [|k] eqn:Ek; [lia|].
    do 3 f_equal. lia.
Qed.

Lemma drop_unpinned_sublist k pinned l : drop_unpinned k pinned l `sublist_of` l.
Proof.
  revert k. induction l as [|i l IH]; intros k; [constructor|]. cbn. case_bool_decide; [by apply sublist_skip|].
  destruct k; [done|by apply sublist_cons].
Qed.

Lemma drop_unpinned_length k pinned l :
  k <= unpinned pinned l -> length (drop_unpinned k pinned l) = length l - k.
Proof.
  revert k. induction l as [|i l IH]; intros k Hk; [done|]. pose proof (unpinned_le pinned l).
  rewrite unpinned_cons in Hk. cbn. case_bool_decide; cbn.
  - rewrite IH by done. lia.
  - destruct k; [done|]. by rewrite IH by lia.
Qed.

Lemma drop_unpinned_keeps k pinned l i : i ∈ l -> Some (id i) = pinned -> i ∈ drop_unpinned k pinned l.
Proof.
  revert k. induction l as [|j l IH]; intros k Hin Hp; [done|]. cbn.
  apply elem_of_cons in Hin as [->|Hin]; case_bool_decide; try (by left || by constructor); try done.
  - right. by apply IH.
  - destruct k; [by right|by apply IH].
Qed.

Lemma drop_unpinned_suffix k pinned l i :
  k < unpinned pinned (l ++ [i]) -> i ∈ drop_unpinned k pinned (l ++ [i]).
Proof.
  revert k. induction l as [|j l IH]; intros k Hk; cbn [app] in *; rewrite unpinned_cons in Hk;
    cbn [drop_unpinned]; case_bool_decide.
  - by left.
  - destruct k; [by left|]. cbn in Hk. lia.
  - right. by apply IH.
  - destruct k; [right; set_solver|]. apply IH. lia.
Qed.

Lemma unpinned_nodup pinned l : NoDup (id <$> l) -> length l <= S (unpinned pinned l).
Proof.
  induction l as [|i l IH]; [cbn; lia|]. rewrite fmap_cons, NoDup_cons. intros [Hi Hn]. rewrite unpinned_cons.
  case_bool_decide as Hp; [|specialize (IH Hn); cbn; lia].
  enough (unpinned pinned l = length l) by (cbn; lia). clear IH Hn.
  induction l as [|j l IH]; [done|]. rewrite unpinned_cons, bool_decide_false.
  - cbn. f_equal. apply IH. set_solver.
  - intros Hj. rewrite <- Hp in Hj. injection Hj as Hj. set_solver.
Qed.

(** ** Lemmas on eviction *)

Lemma oldest_in l x : oldest l = Some x -> x ∈ l.
Proof.
  revert x. induction l as [|y l IH]; intros x H; [done|]. cbn in H.
  destruct (oldest l) as [z|]; [case_decide|]; simplify_eq; [right; by apply IH|by left|by left].
Qed.

Lemma oldest_None l : oldest l = None -> l = [].
Proof. destruct l as [|y l]; [done|]. cbn. destruct (oldest l); [case_decide|]; done. Qed.

Lemma elem_of_lfilter {A} (f : A -> bool) (l : list A) x : x ∈ List.filter f l <-> f x = true /\ x ∈ l.
Proof. rewrite !list_elem_of_In, List.filter_In. tauto. Qed.

(** Sessions that must not be evicted. *)
Definition evictable (inFlightId : string -> option string) (protect sid : string) : Prop :=
  sid <> protect /\ inFlightId sid = None.

Lemma evict_loop_spec fuel m inFlightId protect :
  jwf m -> jsize m <= QUEUE_MAX_SESSIONS + fuel ->
  let m' := evict_loop fuel m inFlightId protect in
  jwf m'
  /\ (forall sid, ~ evictable inFlightId protect sid -> jget sid m' = jget sid m)
  /\ (jsize m' <= QUEUE_MAX_SESSIONS \/ forall sid, sid ∈ jkeys m' -> ~ evictable inFlightId protect sid).
Proof.
  revert m. induction fuel as [|fuel IH]; intros m Hw Hs; cbn [evict_loop]; [split_and!; try done; left; lia|].
  destruct (QUEUE_MAX_SESSIONS <? jsize m) eqn:E; bool_facts; [|split_and!; try done; by left].
  set (cands := List.filter _ m). destruct (oldest cands) as [[v e]|] eqn:Ho.
  - apply oldest_in, elem_of_lfilter in Ho as [Hf Hin]. cbn [fst] in *. bool_facts.
    assert (v ∈ jkeys m) as Hk by by apply (list_elem_of_fmap_2 fst) in Hin.
    pose proof (jsize_del v m Hk) as Hd. destruct (IH (jdel v m)) as (H1 & H2 & H3); [by apply jwf_del|lia|].
    split_and!; [done| |done]. intros sid Hne. rewrite H2 by done. apply jget_del_ne. intros ->. apply Hne.
    split; [done|]. destruct (inFlightId v) eqn:Ei; [|done]. exfalso. naive_solver.
  - split_and!; try done. right. intros sid Hin [Hp Hi]. apply oldest_None in Ho.
    apply list_elem_of_fmap in Hin as [[k e] [-> Hin]]. cbn in *.
    assert ((k, e) ∈ cands) as Hc; [|rewrite Ho in Hc; set_solver].
    apply elem_of_lfilter. split; [|done]. cbn. rewrite Hi, !bool_decide_false; [done| |done]. by intros [].
Qed.

Lemma evict_loop_keeps fuel m inFlightId protect sid :
  sid = protect \/ inFlightId sid <> None ->
  jget sid (evict_loop fuel m inFlightId protect) = jget sid m.
Proof.
  intros Hs. revert m. induction fuel as [|fuel IH]; intros m; cbn [evict_loop]; [done|].
  destruct (QUEUE_MAX_SESSIONS <? jsize m); [|done].
  destruct (oldest _) as [[v e]|] eqn:Ho; [|done]. rewrite IH. apply jget_del_ne.
  apply oldest_in, elem_of_lfilter in Ho as [Hf _]. cbn [fst] in *. bool_facts. intros ->.
  destruct Hs as [->|Hs]; [done|]. destruct (inFlightId v); naive_solver.
Qed.

Lemma trim_loop_head fuel x l hd pinned l' :
  Some (id x) = pinned -> trim_loop fuel (x :: l) hd pinned = Some l' -> head l' = Some x.
Proof.
  intros Hx. revert l hd. induction fuel as [|fuel IH]; intros l hd H; [done|]. cbn [trim_loop] in H.
  destruct (QUEUE_MAX_ITEMS_PER_SESSION <? _); [|by simplify_eq].
  destruct hd as [|hd]; cbn [lookup list_lookup] in H.
  - rewrite bool_decide_true in H by done. by eapply IH.
  - repeat case_match; exact (IH _ _ H).
Qed.

Lemma scheduleWrite_same s :
  sessions (scheduleWrite s) = sessions s /\ revision (scheduleWrite s) = revision s.
Proof. unfold scheduleWrite. by destruct (writesDisabled s). Qed.

(** The queue of the session an item is enqueued for. *)
Lemma enqueue_entry (s : Store) (sid dir : string) (item : QueueItem) (inFlightId : string -> option string) old :
  old = match entryOf s sid with Some e => items e | None => [] end ->
  let l0 := old ++ [item] in
  let l := drop_unpinned (length l0 - QUEUE_MAX_ITEMS_PER_SESSION) (inFlightId sid) l0 in
  let m := jset sid (mkEntry dir l) (sessions s) in
  NoDup (id <$> l0) ->
  length l0 <= S (unpinned (inFlightId sid) l0) /\ item ∈ l /\
  exists s', enqueue s sid dir item inFlightId = Some (s', (revision s + 1)%Z)
    /\ revision s' = (revision s + 1)%Z /\ sessions s' = evict_loop (jsize m) m inFlightId sid
    /\ entryOf s' sid = Some (mkEntry dir l).
Proof.
  intros Hold l0 l m Hn. pose proof (unpinned_nodup (inFlightId sid) l0 Hn) as Hu.
  assert (length l0 = S (length old)) as Hlen by (unfold l0; rewrite length_app; cbn; lia).
  assert (trim_loop (trim_fuel l0) l0 0 (inFlightId sid) = Some l) as Ht.
  { apply (trim_loop_spec (trim_fuel l0) [] l0 (inFlightId sid)); [unfold trim_fuel; lia|]. cbn [length]. unfold QUEUE_MAX_ITEMS_PER_SESSION. lia. }
  set (s1 := evictOldestSessions (with_sessions s m) inFlightId sid).
  destruct (scheduleWrite_same (mkStore (sessions s1) (revision s1 + 1) (writesDisabled s1)
    (pendingWrites s1) (file s1) (quarantined s1))) as [Es Er].
  assert (sessions (commit s1).1 = evict_loop (jsize m) m inFlightId sid) as Em by exact Es.
  split_and!; [done| |].
  - unfold l. destruct (decide (length l0 <= QUEUE_MAX_ITEMS_PER_SESSION)) as [Hle|Hgt].
    + replace (length l0 - _) with 0 by lia. rewrite drop_unpinned_0. unfold l0. set_solver.
    + apply drop_unpinned_suffix. fold l0. unfold QUEUE_MAX_ITEMS_PER_SESSION in *. lia.
  - exists (commit s1).1. split_and!; [|exact Er|exact Em|].
    + unfold enqueue. rewrite <- Hold. fold l0. rewrite Ht. done.
    + unfold entryOf. rewrite Em, evict_loop_keeps by (by left). apply jget_set_eq.
Qed.

(** ** Properties *)

(** C27. Enqueueing appends within the limits: with distinct item ids the loop ends,
    the session keeps, in order, everything but the oldest items beyond twenty
    that are not in flight (so always the new item and the one in flight), the
    revision grows by one, at most fifty sessions stay unless the others are all
    in flight, and no in-flight session is touched. *)
Theorem enqueue_keeps_newest (s : Store) (sid dir : string) (item : QueueItem)
    (inFlightId : string -> option string) :
  jwf (sessions s) ->
  let old := match entryOf s sid with Some e => items e | None => [] end in
  NoDup (id <$> old ++ [item]) ->
  exists s', enqueue s sid dir item inFlightId = Some (s', (revision s + 1)%Z)
    /\ revision s' = (revision s + 1)%Z /\ jwf (sessions s')
    /\ (exists l, entryOf s' sid = Some (mkEntry dir l)
         /\ l = drop_unpinned (length (old ++ [item]) - QUEUE_MAX_ITEMS_PER_SESSION) (inFlightId sid) (old ++ [item])
         /\ length l <= QUEUE_MAX_ITEMS_PER_SESSION /\ item ∈ l
         /\ forall i, i ∈ old -> Some (id i) = inFlightId sid -> i ∈ l)
    /\ (forall sid', sid' <> sid -> inFlightId sid' <> None -> entryOf s' sid' = entryOf s sid')
    /\ (jsize (sessions s') <= QUEUE_MAX_SESSIONS
        \/ forall sid', sid' ∈ jkeys (sessions s') -> sid' = sid \/ inFlightId sid' <> None).
Proof.
  intros Hw old Hn. destruct (enqueue_entry s sid dir item inFlightId old eq_refl Hn) as (Hu & Hi & s' & H1 & H2 & H3 & H4).
  set (l0 := old ++ [item]) in *. set (l := drop_unpinned _ _ _) in *.
  set (m := jset sid (mkEntry dir l) (sessions s)) in *.
  destruct (evict_loop_spec (jsize m) m inFlightId sid) as (E1 & E2 & E3); [by apply jwf_set|lia|].
  exists s'. split_and!; [done|done|by rewrite H3| | |].
  - exists l. split_and!; [done|done| |done|].
    + unfold l. rewrite drop_unpinned_length by (unfold QUEUE_MAX_ITEMS_PER_SESSION; lia). lia.
    + intros i Hin Hp. apply drop_unpinned_keeps; [|done]. unfold l0. set_solver.
  - intros sid' Hne Hf. unfold entryOf. rewrite H3, E2; [by apply jget_set_ne|]. by intros [].
  - rewrite H3. destruct E3 as [|E3]; [by left|right]. intros sid' Hin. specialize (E3 _ Hin).
    destruct (decide (sid' = sid)); [by left|right]. intros Hf. by apply E3.
Qed.

Definition plain_item (i : string) : QueueItem :=
  mkItem i 0%Qc "hello" "hello" None [] [] None (mkSend "nna" "m1" None None).

Definition full_store : Store :=
  mkStore [("s1", mkEntry "/w" ((fun n => plain_item (pretty n)) <$> seq 0 20))] 7 false 0 Missing 0.

Lemma enqueue_keeps_newest_witness :
  exists s', enqueue full_store "s1" "/w" (plain_item "new") (fun _ => Some "0") = Some (s', 8%Z)
    /\ revision s' = 8%Z.
Proof.
  destruct (enqueue_keeps_newest full_store "s1" "/w" (plain_item "new") (fun _ => Some "0"))
    as (s' & H1 & H2 & _).
  - vm_compute. apply NoDup_singleton.
  - apply (bool_decide_eq_true_1 _). vm_compute. reflexivity.
  - exists s'. split; [exact H1|exact H2].
Defined.

(** The queue survives a restart: once a scheduled write has run, a fresh
    store that loads the file holds exactly the non-empty queues, in order, and
    the revision. *)
Theorem persisted_queue_survives_restart (s : Store) (n : nat) :
  jwf (sessions s) -> pendingWrites s = S n ->
  exists s', load (newStore (file (writeNow s true))) = (s', Loaded)
    /\ sessions s' = nonEmptyEntries s /\ revision s' = revision s /\ writesDisabled s' = false.
Proof.
  intros Hw Hp. unfold writeNow. rewrite Hp. cbn. eexists. split; [reflexivity|]. cbn.
  split; [|done]. unfold loaded_sessions, nonEmptyEntries.
  pose proof (jset_all (fun x => negb (is_empty_entry x.2)) (sessions s) [] Hw) as H.
  cbn [app] in H. rewrite <- H. clear H Hw Hp. generalize (@nil (string * QueueSessionEntry)).
  induction (sessions s) as [|[k e] m IH]; intros acc; [done|]. cbn. destruct (is_empty_entry e); cbn; apply IH.
Qed.

Lemma persisted_queue_survives_restart_witness :
  exists s', load (newStore (file (writeNow (scheduleWrite full_store) true))) = (s', Loaded)
    /\ sessions s' = nonEmptyEntries (scheduleWrite full_store) /\ revision s' = 7%Z /\ writesDisabled s' = false.
Proof.
  apply (persisted_queue_survives_restart (scheduleWrite full_store) 0); [|reflexivity].
  vm_compute. apply NoDup_singleton.
Defined.

Lemma by_id_get l i x : jget i (by_id l) = Some x -> id x = i /\ x ∈ l.
Proof.
  unfold by_id. assert (forall acc, (forall j y, jget j acc = Some y -> id y = j /\ y ∈ l) -> forall k, k ⊆ l ->
    forall j y, jget j (fold_left (fun m i => jset (id i) i m) k acc) = Some y -> id y = j /\ y ∈ l) as H.
  { intros acc Hacc k. revert acc Hacc. induction k as [|z k IH]; intros acc Hacc Hk j y; cbn; [apply Hacc|].
    apply IH; [|set_solver]. intros j' y'. destruct (decide (j' = id z)) as [->|Hne].
    - rewrite jget_set_eq. intros [= <-]. set_solver.
    - rewrite jget_set_ne by done. apply Hacc. }
  by apply (H []).
Qed.

Lemma by_id_has l i : i ∈ id <$> l -> is_Some (jget i (by_id l)).
Proof.
  unfold by_id. assert (forall acc, is_Some (jget i acc) \/ i ∈ id <$> l ->
    is_Some (jget i (fold_left (fun m i => jset (id i) i m) l acc))) as H.
  { induction l as [|x l IH]; intros acc [Hi|Hi]; cbn; [done|by apply elem_of_nil in Hi| |].
    - apply IH. left. destruct (decide (i = id x)) as [->|]; [by rewrite jget_set_eq|by rewrite jget_set_ne].
    - apply IH. rewrite fmap_cons in Hi. apply elem_of_cons in Hi as [->|Hi]; [left|by right].
      by rewrite jget_set_eq. }
  intros Hi. apply H. by right.
Qed.

(** Reordering is all or nothing: an applied reorder leaves a permutation of
    the session's items in exactly the requested order, with the in-flight item
    (if any) still first; any other answer changes nothing. *)
Theorem reorder_is_permutation (s : Store) (sid : string) (ids : list string) (pinned : option string) (e : QueueSessionEntry) :
  entryOf s sid = Some e ->
  match reorder s sid ids pinned with
  | (s', Applied) =>
    exists l, entryOf s' sid = Some (mkEntry (directory e) l) /\ Permutation l (items e) /\ id <$> l = ids
      /\ (forall p, pinned = Some p -> head (id <$> l) = Some p)
  | (s', _) => s' = s
  end.
Proof.
  intros He. unfold reorder. rewrite He. destruct (negb (_ =? _)) eqn:Hlen; [done|].
  destruct (negb (bool_decide (NoDup ids))) eqn:Hnd; [done|].
  destruct (negb (forallb _ ids)) eqn:Hall; [done|].
  destruct (match pinned with Some p => _ | None => _ end) eqn:Hpin; [done|]. bool_facts.
  set (l := omap _ ids). assert (id <$> l = ids /\ forall x, x ∈ l -> x ∈ items e) as [Hids Hsub].
  { unfold l. rewrite List.forallb_forall in Hall. clear -Hall.
    induction ids as [|i ids IH]; [split; [done|]; intros x Hx; cbn in Hx; by apply elem_of_nil in Hx|].
    destruct IH as [IH1 IH2]; [intros x Hx; apply Hall; by right|].
    destruct (by_id_has (items e) i) as [x Hx]; [apply (bool_decide_eq_true_1 _); apply Hall; by left|].
    destruct (by_id_get _ _ _ Hx) as [Hid Hin]. cbn. rewrite Hx. cbn. rewrite Hid. split; [by f_equal|].
    intros y [->|Hy]%elem_of_cons; [done|by apply IH2]. }
  exists l. split_and!.
  - unfold entryOf, set_items. cbn. apply jget_set_eq.
  - apply submseteq_length_Permutation.
    + apply NoDup_submseteq; [|exact Hsub]. apply (NoDup_fmap_1 id). by rewrite Hids.
    + apply (f_equal length) in Hids. rewrite length_fmap in Hids. lia.
  - done.
  - intros p ->. rewrite Hids. by apply negb_false_iff, bool_decide_eq_true_1 in Hpin.
Qed.

Lemma reorder_is_permutation_witness :
  let s := mkStore [("s1", mkEntry "/w" [plain_item "a"; plain_item "b"; plain_item "c"])] 7 false 0 Missing 0 in
  let ids := ["a"; "c"; "b"] in
  exists l, entryOf (reorder s "s1" ids (Some "a")).1 "s1" = Some (mkEntry "/w" l)
    /\ Permutation l [plain_item "a"; plain_item "b"; plain_item "c"] /\ id <$> l = ids.
Proof.
  intros s ids.
  pose proof (reorder_is_permutation s "s1" ids (Some "a")
    (mkEntry "/w" [plain_item "a"; plain_item "b"; plain_item "c"]) eq_refl) as H.
  assert ((reorder s "s1" ids (Some "a")).2 = Applied) as Ha by (vm_compute; reflexivity).
  destruct (reorder s "s1" ids (Some "a")) as [s' r]. cbn in Ha. subst r.
  destruct H as (l & H1 & H2 & H3 & _). exists l. split; [exact H1|]. split; [exact H2|exact H3].
Defined.
