(* ===== verification/QueueClaims.v ===== *)
(** Cross-process dispatch claims (queue/queue-dispatch-claims.ts): one claim file
    per session, created exclusively, reclaimed from dead or stalled owners.

    The file system is modelled at the granularity of its calls, because several
    processes run [acquire] and [release] at once on the same path: each call is
    one step, and a file is an inode, so that a descriptor outlives its name. *)

From S2P Require Import Prelude JsMap.

Record DispatchClaimDocument : Type := mkClaimDoc { cd_pid : nat; cd_itemId : string }.

#[export] Instance DispatchClaimDocument_eq_dec : EqDecision DispatchClaimDocument.
Proof. solve_decision. Defined.

(** The claim file under its name: its inode, its content ([None] between open
    and write) and whether it is older than five seconds. *)
Record ClaimFile : Type := mkClaimFile { inode : nat; doc : option DispatchClaimDocument; stalled : bool }.

(** Where a process is inside [acquire] (or past it). *)
Inductive Stage : Type :=
| OpenFirst (item : string)
| ReadExisting (item : string)
| UnlinkStale (item : string)
| OpenRetry (item : string)
| Publish (item : string) (fd : nat)
| Holding (item : string) (fd : nat)
| Refused
| ReleaseRead (fd : nat)
| ReleaseUnlink (fd : nat)
| Released.

Record World : Type := mkWorld {
  claim_file : option ClaimFile;
  next_inode : nat;
  procs : gmap nat Stage;
  dead : gset nat;
}.

(** What [readDispatchClaim] decides on the file it reads: a live claim, or a
    file to unlink, or neither. *)
Inductive ReadVerdict : Type := LiveClaim (d : DispatchClaimDocument) | StaleFile | NoClaim.

Definition readDispatchClaim (alive : nat -> bool) (f : option ClaimFile) : ReadVerdict :=
  match f with
  | None => NoClaim
  | Some c =>
    match doc c with
    | Some d => if alive (cd_pid d) then LiveClaim d else StaleFile
    | None => if stalled c then StaleFile else NoClaim
    end
  end.

Definition is_alive (w : World) (pid : nat) : bool := bool_decide (pid ∉ dead w).

Definition set_stage (w : World) (pid : nat) (s : Stage) : World :=
  mkWorld (claim_file w) (next_inode w) (<[pid := s]> (procs w)) (dead w).

(** [openSync(path, 'wx')]: the new world and descriptor, or EEXIST. *)
Definition open_wx (w : World) : option (World * nat) :=
  match claim_file w with
  | Some _ => None
  | None => Some (mkWorld (Some (mkClaimFile (next_inode w) None false)) (S (next_inode w)) (procs w) (dead w),
                  next_inode w)
  end.

Definition unlink (w : World) : World := mkWorld None (next_inode w) (procs w) (dead w).

(** Writing through a descriptor reaches the named file only if it is still it. *)
Definition write_fd (w : World) (fd : nat) (d : DispatchClaimDocument) : World :=
  match claim_file w with
  | Some c => if bool_decide (inode c = fd)
              then mkWorld (Some (mkClaimFile fd (Some d) (stalled c))) (next_inode w) (procs w) (dead w)
              else w
  | None => w
  end.

Inductive claim_step (w : World) : World -> Prop :=
| step_enter pid item :
    procs w !! pid = None -> pid ∉ dead w -> claim_step w (set_stage w pid (OpenFirst item))
| step_open_first pid item w1 fd :
    procs w !! pid = Some (OpenFirst item) -> open_wx w = Some (w1, fd) ->
    claim_step w (set_stage w1 pid (Publish item fd))
| step_open_exists pid item :
    procs w !! pid = Some (OpenFirst item) -> open_wx w = None ->
    claim_step w (set_stage w pid (ReadExisting item))
| step_read pid item :
    procs w !! pid = Some (ReadExisting item) ->
    claim_step w (set_stage w pid
      match readDispatchClaim (is_alive w) (claim_file w) with
      | LiveClaim _ => Refused
      | StaleFile => UnlinkStale item
      | NoClaim => OpenRetry item
      end)
| step_unlink pid item :
    procs w !! pid = Some (UnlinkStale item) -> claim_step w (set_stage (unlink w) pid (OpenRetry item))
| step_open_retry pid item w1 fd :
    procs w !! pid = Some (OpenRetry item) -> open_wx w = Some (w1, fd) ->
    claim_step w (set_stage w1 pid (Publish item fd))
| step_open_refused pid item :
    procs w !! pid = Some (OpenRetry item) -> open_wx w = None -> claim_step w (set_stage w pid Refused)
| step_publish pid item fd :
    procs w !! pid = Some (Publish item fd) ->
    claim_step w (set_stage (write_fd w fd (mkClaimDoc pid item)) pid (Holding item fd))
| step_release pid item fd :
    procs w !! pid = Some (Holding item fd) -> claim_step w (set_stage w pid (ReleaseRead fd))
| step_release_read pid fd :
    procs w !! pid = Some (ReleaseRead fd) ->
    claim_step w (set_stage w pid
      match claim_file w with
      | Some c => if bool_decide (inode c = fd) then ReleaseUnlink fd else Released
      | None => Released
      end)
| step_release_unlink pid fd :
    procs w !! pid = Some (ReleaseUnlink fd) -> claim_step w (set_stage (unlink w) pid Released)
| step_die pid s :
    procs w !! pid = Some s ->
    claim_step w (mkWorld (claim_file w) (next_inode w) (delete pid (procs w)) ({[pid]} ∪ dead w))
| step_age c :
    claim_file w = Some c ->
    claim_step w (mkWorld (Some (mkClaimFile (inode c) (doc c) true)) (next_inode w) (procs w) (dead w)).

Definition no_claims : World := mkWorld None 0 ∅ ∅.

(** A process that has the session to itself: from the exclusive creation of the
    file until its unlinking. *)
Definition owner_fd (s : Stage) : option nat :=
  match s with
  | Publish _ fd | Holding _ fd | ReleaseRead fd | ReleaseUnlink fd => Some fd
  | _ => None
  end.

(** A step that neither kills a process nor lets five seconds pass. *)
Inductive prompt_step (w : World) : World -> Prop :=
| prompt w1 : claim_step w w1 -> dead w1 = dead w ->
    (forall c, claim_file w1 = Some c -> stalled c = false) -> prompt_step w w1.

(** The invariant of prompt runs: at most one owner, whose descriptor is the
    named file, and nothing to reclaim. *)
Record claims_wf (w : World) : Prop := {
  cw_dead : dead w = ∅;
  cw_owner : forall pid s fd, procs w !! pid = Some s -> owner_fd s = Some fd ->
    exists c, claim_file w = Some c /\ inode c = fd;
  cw_one : forall p q s t, procs w !! p = Some s -> procs w !! q = Some t ->
    is_Some (owner_fd s) -> is_Some (owner_fd t) -> p = q;
  cw_fresh : forall c, claim_file w = Some c -> stalled c = false;
  cw_no_stale : forall pid item, procs w !! pid <> Some (UnlinkStale item);
}.

Lemma no_claims_wf : claims_wf no_claims.
Proof. split; try done; cbn; intros; by rewrite lookup_empty in *. Qed.

(** Changing the stage of one process to a non-owning one. *)
Lemma set_stage_wf w pid s :
  claims_wf w -> owner_fd s = None -> (forall item, s <> UnlinkStale item) -> claims_wf (set_stage w pid s).
Proof.
  intros [H1 H2 H3 H4 H5] Ho Hu. split; cbn; [done| | |done|].
  - intros p t fd. destruct (decide (p = pid)) as [->|]; [rewrite lookup_insert_eq; intros [= <-]; congruence|].
    rewrite lookup_insert_ne by done. apply H2.
  - intros p q t u. destruct (decide (p = pid)) as [->|], (decide (q = pid)) as [->|]; rewrite
      ?lookup_insert_eq, ?lookup_insert_ne by done; [done|..]; intros Hp Hq [a Ha] [b Hb]; simplify_eq; try congruence.
    by eapply H3.
  - intros p item. destruct (decide (p = pid)) as [->|]; [rewrite lookup_insert_eq; intros [= ->]; by eapply Hu|].
    rewrite lookup_insert_ne by done. apply H5.
Qed.

(** The owner moves on to another owning stage of the same file. *)
Lemma set_owner_wf w w' pid s s' fd :
  claims_wf w -> procs w !! pid = Some s -> owner_fd s = Some fd -> owner_fd s' = Some fd ->
  procs w' = procs w -> dead w' = dead w ->
  (exists c, claim_file w' = Some c /\ inode c = fd /\ stalled c = false) -> claims_wf (set_stage w' pid s').
Proof.
  intros [H1 H2 H3 H4 H5] Hs Ho Ho' Ep Ed (c & Hc & Hi & Hst). split; cbn.
  - by rewrite Ed.
  - intros p t fd'. rewrite Ep. destruct (decide (p = pid)) as [->|Hne].
    + rewrite lookup_insert_eq. intros [= <-] Hf. rewrite Ho' in Hf. injection Hf as <-. eauto.
    + rewrite lookup_insert_ne by done. intros Hp Hf. exfalso. apply Hne. by eapply H3; eauto.
  - rewrite Ep. intros p q t u. destruct (decide (p = pid)) as [->|Hp], (decide (q = pid)) as [->|Hq];
      rewrite ?lookup_insert_eq, ?lookup_insert_ne by done; [done|..]; intros Hlp Hlq Hop Hoq; simplify_eq.
    + eapply H3; eauto.
    + eapply H3; eauto.
    + eapply H3; eauto.
  - intros c' Hc'. congruence.
  - intros p item. rewrite Ep. destruct (decide (p = pid)) as [->|]; [rewrite lookup_insert_eq; intros [= ->]; done|].
    rewrite lookup_insert_ne by done. apply H5.
Qed.

(** Opening exclusively makes the first owner. *)
Lemma open_wf w w1 fd pid item :
  claims_wf w -> open_wx w = Some (w1, fd) -> claims_wf (set_stage w1 pid (Publish item fd)).
Proof.
  intros [H1 H2 H3 H4 H5]. unfold open_wx. destruct (claim_file w) as [c|] eqn:Hc; [done|]. intros [= <- <-].
  assert (forall p t, procs w !! p = Some t -> owner_fd t = None) as Hno.
  { intros p t Hp. destruct (owner_fd t) as [f|] eqn:Ef; [|done]. by destruct (H2 p t f Hp Ef) as (c & Hf & _). }
  split; cbn; [done| | | |].
  - intros p t fd'. destruct (decide (p = pid)) as [->|].
    + rewrite lookup_insert_eq. intros [= <-] [= <-]. by eexists.
    + rewrite lookup_insert_ne by done. intros Hp Hf. by rewrite (Hno _ _ Hp) in Hf.
  - intros p q t u. destruct (decide (p = pid)) as [->|], (decide (q = pid)) as [->|];
      rewrite ?lookup_insert_eq, ?lookup_insert_ne by done; [done|..]; intros Hp Hq [a Ha] [b Hb];
      try (by rewrite (Hno _ _ Hq) in Hb); by rewrite (Hno _ _ Hp) in Ha.
  - by intros c [= <-].
  - intros p i. destruct (decide (p = pid)) as [->|]; [by rewrite lookup_insert_eq|].
    rewrite lookup_insert_ne by done. apply H5.
Qed.

(** The owner unlinks its own file. *)
Lemma unlink_wf w pid s fd :
  claims_wf w -> procs w !! pid = Some s -> owner_fd s = Some fd -> claims_wf (set_stage (unlink w) pid Released).
Proof.
  intros [H1 H2 H3 H4 H5] Hs Ho. split; cbn; [done| | |done|].
  - intros p t fd'. destruct (decide (p = pid)) as [->|Hne]; [by rewrite lookup_insert_eq; intros [= <-]|].
    rewrite lookup_insert_ne by done. intros Hp Hf. exfalso. apply Hne. by eapply H3; eauto.
  - intros p q t u. destruct (decide (p = pid)) as [->|], (decide (q = pid)) as [->|];
      rewrite ?lookup_insert_eq, ?lookup_insert_ne by done; [done|..]; intros Hp Hq Ha Hb; simplify_eq;
      [by destruct Ha|by destruct Hb|by eapply H3].
  - intros p i. destruct (decide (p = pid)) as [->|]; [by rewrite lookup_insert_eq|].
    rewrite lookup_insert_ne by done. apply H5.
Qed.

Lemma prompt_step_wf w w1 : claims_wf w -> prompt_step w w1 -> claims_wf w1.
Proof.
  intros Hwf [w2 Hs Hd Hst]. pose proof Hwf as [H1 H2 H3 H4 H5]. destruct Hs.
  - by apply set_stage_wf.
  - by eapply open_wf.
  - by apply set_stage_wf.
  - apply set_stage_wf; [done| |].
    + by destruct (readDispatchClaim _ _).
    + intros i. unfold readDispatchClaim, is_alive. rewrite H1. destruct (claim_file w) as [c|] eqn:Hc; [|done].
      destruct (doc c); [by rewrite bool_decide_true by set_solver|]. by rewrite (H4 c).
  - by exfalso; eapply H5.
  - by eapply open_wf.
  - by apply set_stage_wf.
  - destruct (H2 pid _ fd H ltac:(done)) as (c & Hc & Hi). unfold write_fd in *. rewrite Hc in *.
    rewrite bool_decide_true in * by done.
    eapply (set_owner_wf w _ pid (Publish item fd) (Holding item fd) fd); try done.
    eexists. split_and!; [done|done|]. cbn. by apply H4.
  - destruct (H2 pid _ fd H ltac:(done)) as (c & Hc & Hi).
    eapply (set_owner_wf w w pid (Holding item fd) (ReleaseRead fd) fd); try done. exists c. by split_and!; [| |apply H4].
  - destruct (H2 pid _ fd H ltac:(done)) as (c & Hc & Hi). rewrite Hc, bool_decide_true by done.
    eapply (set_owner_wf w w pid (ReleaseRead fd) (ReleaseUnlink fd) fd); try done. exists c. by split_and!; [| |apply H4].
  - by eapply unlink_wf.
  - cbn in Hd. exfalso. rewrite H1 in Hd. set_solver.
  - exfalso. by specialize (Hst _ eq_refl).
Qed.

Lemma prompt_run_wf w0 w : claims_wf w0 -> rtc prompt_step w0 w -> claims_wf w.
Proof. intros Hwf. induction 1; [done|]. eauto using prompt_step_wf. Qed.

(** ** Properties *)

(** Claims exclude: as long as no process dies and no claim stays unwritten
    for five seconds, two processes never hold the claim of a session at once,
    however their calls interleave. *)
Theorem claims_are_exclusive (w : World) (p q : nat) (i j : string) (f g : nat) :
  rtc prompt_step no_claims w ->
  procs w !! p = Some (Holding i f) -> procs w !! q = Some (Holding j g) -> p = q.
Proof.
  intros Hr Hp Hq. destruct (prompt_run_wf _ _ no_claims_wf Hr) as [_ _ H3 _ _].
  by eapply H3; eauto.
Qed.

Definition one_holder : World :=
  set_stage (mkWorld (Some (mkClaimFile 0 (Some (mkClaimDoc 1 "a")) false)) 1 (<[1 := Publish "a" 0]>
    (<[1 := OpenFirst "a"]> ∅)) ∅) 1 (Holding "a" 0).

Lemma claims_are_exclusive_witness :
  rtc prompt_step no_claims one_holder /\ forall q j g, procs one_holder !! q = Some (Holding j g) -> 1 = q.
Proof.
  assert (rtc prompt_step no_claims one_holder) as Hr.
  { eapply rtc_l; [apply prompt; [apply (step_enter no_claims 1 "a"); [reflexivity|set_solver]|reflexivity|done]|].
    eapply rtc_l; [apply prompt; [eapply (step_open_first _ 1 "a"); [reflexivity|reflexivity]|reflexivity|by intros c [= <-]]|].
    eapply rtc_l; [apply prompt; [eapply (step_publish _ 1 "a" 0); reflexivity|reflexivity|by intros c [= <-]]|].
    apply rtc_refl. }
  split; [exact Hr|]. intros q j g. apply (claims_are_exclusive one_holder 1 q "a" j 0 g Hr). reflexivity.
Defined.

(** Reclaiming is not atomic: two contenders that both read the claim of a dead
    process both unlink, the second one the live claim of the first, and both
    end up holding the session. *)
Lemma stale_claim_race :
  exists w, rtc claim_step no_claims w
    /\ procs w !! 1 = Some (Holding "a" 1) /\ procs w !! 2 = Some (Holding "a" 2).
Proof.
  eexists. split.
  - eapply rtc_l; [apply (step_enter _ 0 "a"); [reflexivity|set_solver]|].
    eapply rtc_l; [eapply (step_open_first _ 0 "a"); reflexivity|].
    eapply rtc_l; [eapply (step_publish _ 0 "a" 0); reflexivity|].
    eapply rtc_l; [eapply (step_die _ 0 (Holding "a" 0)); reflexivity|].
    eapply rtc_l; [apply (step_enter _ 1 "a"); [reflexivity|cbn; set_solver]|].
    eapply rtc_l; [eapply (step_open_exists _ 1 "a"); reflexivity|].
    eapply rtc_l; [apply (step_enter _ 2 "a"); [reflexivity|cbn; set_solver]|].
    eapply rtc_l; [eapply (step_open_exists _ 2 "a"); reflexivity|].
    eapply rtc_l; [eapply (step_read _ 1 "a"); reflexivity|].
    eapply rtc_l; [eapply (step_read _ 2 "a"); reflexivity|].
    eapply rtc_l; [eapply (step_unlink _ 1 "a"); reflexivity|].
    eapply rtc_l; [eapply (step_open_retry _ 1 "a"); reflexivity|].
    eapply rtc_l; [eapply (step_publish _ 1 "a" 1); reflexivity|].
    eapply rtc_l; [eapply (step_unlink _ 2 "a"); reflexivity|].
    eapply rtc_l; [eapply (step_open_retry _ 2 "a"); reflexivity|].
    eapply rtc_l; [eapply (step_publish _ 2 "a" 2); reflexivity|].
    apply rtc_refl.
  - split; reflexivity.
Qed.
