(* ===== verification/QueueRuntime.v ===== *)
(** The message-queue runtime (queue/queue-runtime.ts, queue-runtime-utils.ts,
    queue-runtime-timing.ts): the route operations, the timers, and the dispatch
    of a session's head as a machine whose awaited calls complete in later
    events.

    [now] is the clock; the claim files of other processes are the parameter
    [foreign] (the item they hold of a session, if any). In a reachable state other
    processes have rewritten the queue file and unlinked claim files of this one as they
    like. *)

From S2P Require Import Prelude JsString JsMap JsValue QueueItem QueueStore.
From Stdlib Require Import Qcanon.
#[local] Close Scope Qc_scope.
#[local] Close Scope Q_scope.

Record QueueTiming : Type := mkTiming {
  quietMs : Z; verifyBackoffMs : Z; abortHoldMs : Z; backoffBaseMs : Z; backoffMaxMs : Z;
  holdDefaultMs : Z; holdMaxMs : Z }.

Definition QUEUE_TIMING : QueueTiming := mkTiming 500 2000 2000 2000 60000 (5 * 60000) (10 * 60000).

Definition failureDelayMs (failures : Z) (t : QueueTiming) : Z :=
  let exponent := Z.max 0 (Z.min failures 32 - 1) in
  Z.min (backoffBaseMs t * 2 ^ exponent) (backoffMaxMs t).

(** ** Event fields *)

Definition optionalPropertyString (properties : json) (key : string) : option string :=
  match jfield key properties with
  | Some (JStr s) => if bool_decide (s = "") then None else Some s
  | _ => None
  end.

Definition asRecord (v : option json) : option json :=
  match v with Some (JObj f) => Some (JObj f) | _ => None end.

Definition errorNameOf (v : option json) : option string :=
  r ← asRecord v; match jfield "name" r with Some (JStr n) => Some n | _ => None end.

Definition is_number (v : option json) : bool := match v with Some (JNum _) => true | _ => false end.

(** [asRecord(record.time)?.completed] is a number. *)
Definition completed_number (record : json) : bool :=
  match asRecord (jfield "time" record) with
  | Some t => is_number (jfield "completed" t)
  | None => false
  end.

Definition tailUnfinishedAssistant (entry : json) : bool :=
  match asRecord (jfield "info" entry) with
  | Some info => is_str (jfield "role" info) "assistant" && negb (completed_number info)
  | None => false
  end.

(** ** State *)

Record BackoffRecord : Type := mkBackoff { bo_itemId : string; bo_failures : Z; bo_nextAttemptAt : Z }.

(** The armed dispatch timers, the hold wakes, and what gates a dispatch. *)
Record Timers : Type := mkTimers {
  arms : list (string * Z);
  holdWakes : list (string * Z);
  holds : list (string * Z);
  backoffs : list (string * BackoffRecord);
  aborts : list (string * Z);
}.

(** A claim this process holds: its identity and the item it names. *)
Record Claim : Type := mkClaim { cl_token : nat; cl_itemId : string }.

#[export] Instance Claim_eq_dec : EqDecision Claim.
Proof. solve_decision. Defined.

(** Where a tick of a session is: awaiting the first idleness verification, the
    one under the claim, or the delivery. *)
Inductive Phase : Type :=
| Verifying (head : QueueItem) (directory : string)
| Reverifying (head : QueueItem) (directory : string) (claim : Claim)
| Delivering (head : QueueItem) (directory : string) (claim : Claim).

Inductive RuntimeEffect : Type :=
| Broadcast (revision : Z) (directory : string)
| AskIdle (sessionId directory : string)
| Deliver (sessionId : string) (item : QueueItem)
| PromptSent (sessionId itemId : string).

(** [phases] has a session exactly while its tick runs; [ownClaims] are the claim
    files of this process, [localClaims] the ones it still refers to. *)
Record Runtime : Type := mkRuntime {
  store : Store;
  timers : Timers;
  sending : list (string * string);
  activeDeliveries : list string;
  localClaims : list (string * Claim);
  ownClaims : list (string * Claim);
  nextToken : nat;
  phases : list (string * Phase);
  stopped : bool;
  rt_log : list RuntimeEffect;
}.

Definition newRuntime (s : Store) : Runtime :=
  mkRuntime s (mkTimers [] [] [] [] []) [] [] [] [] 0 [] false [].

Definition with_store (r : Runtime) (s : Store) : Runtime :=
  mkRuntime s (timers r) (sending r) (activeDeliveries r) (localClaims r) (ownClaims r) (nextToken r)
    (phases r) (stopped r) (rt_log r).
Definition with_timers (r : Runtime) (t : Timers) : Runtime :=
  mkRuntime (store r) t (sending r) (activeDeliveries r) (localClaims r) (ownClaims r) (nextToken r)
    (phases r) (stopped r) (rt_log r).
Definition with_sending (r : Runtime) (m : list (string * string)) (a : list string) : Runtime :=
  mkRuntime (store r) (timers r) m a (localClaims r) (ownClaims r) (nextToken r)
    (phases r) (stopped r) (rt_log r).
Definition with_claims (r : Runtime) (l o : list (string * Claim)) (n : nat) : Runtime :=
  mkRuntime (store r) (timers r) (sending r) (activeDeliveries r) l o n
    (phases r) (stopped r) (rt_log r).
Definition with_phases (r : Runtime) (p : list (string * Phase)) : Runtime :=
  mkRuntime (store r) (timers r) (sending r) (activeDeliveries r) (localClaims r) (ownClaims r) (nextToken r)
    p (stopped r) (rt_log r).
Definition did (r : Runtime) (es : list RuntimeEffect) : Runtime :=
  mkRuntime (store r) (timers r) (sending r) (activeDeliveries r) (localClaims r) (ownClaims r) (nextToken r)
    (phases r) (stopped r) (rt_log r ++ es).

(** ** Timers *)

Definition arm (t : Timers) (sid : string) (delayMs now : Z) : Timers :=
  let at_ := (now + Z.max 0 delayMs)%Z in
  match jget sid (arms t) with
  | Some existing => if bool_decide (existing <= at_)%Z then t
                     else mkTimers (jset sid at_ (jdel sid (arms t))) (holdWakes t) (holds t) (backoffs t) (aborts t)
  | None => mkTimers (jset sid at_ (arms t)) (holdWakes t) (holds t) (backoffs t) (aborts t)
  end.

Definition clearArm (t : Timers) (sid : string) : Timers :=
  mkTimers (jdel sid (arms t)) (holdWakes t) (holds t) (backoffs t) (aborts t).

Definition clearHoldWake (t : Timers) (sid : string) : Timers :=
  mkTimers (arms t) (jdel sid (holdWakes t)) (holds t) (backoffs t) (aborts t).

(** The wake fires at the expiry or later: [max(1, expiresAt - now + 1)] from now. *)
Definition armHoldWake (t : Timers) (sid : string) (expiresAt : Z) : Timers :=
  let t1 := clearHoldWake t sid in
  mkTimers (arms t1) (jset sid expiresAt (holdWakes t1)) (holds t1) (backoffs t1) (aborts t1).

Definition del_hold (t : Timers) (sid : string) : Timers :=
  mkTimers (arms t) (holdWakes t) (jdel sid (holds t)) (backoffs t) (aborts t).

(** An expired hold deletes itself when it is looked at. *)
Definition heldExpiryOf (t : Timers) (sid : string) (now : Z) : Timers * option Z :=
  match jget sid (holds t) with
  | None => (t, None)
  | Some expiresAt => if bool_decide (expiresAt <= now)%Z then (del_hold t sid, None) else (t, Some expiresAt)
  end.

Definition abortAtOf (t : Timers) (sid : string) : option Z := jget sid (aborts t).

Definition set_abort (t : Timers) (sid : string) (now : Z) : Timers :=
  mkTimers (arms t) (holdWakes t) (holds t) (backoffs t) (jset sid now (aborts t)).
Definition del_abort (t : Timers) (sid : string) : Timers :=
  mkTimers (arms t) (holdWakes t) (holds t) (backoffs t) (jdel sid (aborts t)).
Definition set_backoff (t : Timers) (sid : string) (b : BackoffRecord) : Timers :=
  mkTimers (arms t) (holdWakes t) (holds t) (jset sid b (backoffs t)) (aborts t).
Definition del_backoff (t : Timers) (sid : string) : Timers :=
  mkTimers (arms t) (holdWakes t) (holds t) (jdel sid (backoffs t)) (aborts t).

Section runtime.
  Context (timing : QueueTiming) (foreign : string -> option string).

Definition armQuiet (t : Timers) (sid : string) (now : Z) : Timers :=
  match heldExpiryOf t sid now with
  | (t1, Some _) => t1
  | (t1, None) => arm t1 sid (quietMs timing) now
  end.

Definition on_timers (r : Runtime) (f : Timers -> Timers) : Runtime := with_timers r (f (timers r)).

Inductive HoldResult : Type := Released | Held (expiresAt : Z).

(** [ttlMs] is a safe integer or not given. *)
Definition setHold (r : Runtime) (sid : string) (held : bool) (ttlMs : option Z) (now : Z) : Runtime * HoldResult :=
  if negb held then
    (on_timers r (fun t => armQuiet (clearHoldWake (del_hold t sid) sid) sid now), Released)
  else
    let requested := match ttlMs with
                     | Some ms => if is_safe_integer ms && bool_decide (0 < ms)%Z then ms else holdDefaultMs timing
                     | None => holdDefaultMs timing
                     end in
    let expiresAt := (now + Z.min requested (holdMaxMs timing))%Z in
    (on_timers r (fun t =>
       let t1 := mkTimers (arms t) (holdWakes t) (jset sid expiresAt (holds t)) (backoffs t) (aborts t) in
       armHoldWake (clearArm t1 sid) sid expiresAt), Held expiresAt).

(** ** Route operations *)

(** The item of a session that must not move: being sent, or claimed. *)
Definition inFlightIdOf (r : Runtime) (sid : string) : option string :=
  match jget sid (sending r) with
  | Some i => Some i
  | None => match jget sid (ownClaims r) with
            | Some c => Some (cl_itemId c)
            | None => foreign sid
            end
  end.

Definition announce (r : Runtime) (dir : string) : Runtime := did r [Broadcast (revision (store r)) dir].

Definition commit_store (r : Runtime) (s : Store) (dir : string) : Runtime :=
  announce (with_store r (commit s).1) dir.

Inductive EnqueueResult : Type :=
| Enqueued (revision : Z) (itemId : string) (duplicate : bool)
| EnqueueRefused (e : QueueError)
| EnqueueDiverges.

(** [item] is the parsed item or the parse error. *)
Definition enqueueItem (r : Runtime) (sid dir : string) (item : queued QueueItem) (now : Z) : Runtime * EnqueueResult :=
  match item with
  | Throw e => (r, EnqueueRefused e)
  | Ok item =>
    match findItem (store r) sid (id item) with
    | Some prior =>
      if sameQueuePayload prior item then (r, Enqueued (revision (store r)) (id item) true)
      else (r, EnqueueRefused Conflict)
    | None =>
      match enqueue (store r) sid dir item (inFlightIdOf r) with
      | None => (r, EnqueueDiverges)
      | Some (s, rev) =>
        (on_timers (announce (with_store r s) dir) (fun t => armQuiet t sid now), Enqueued rev (id item) false)
      end
    end
  end.

Inductive TakeResult : Type :=
| Taken (item : QueueItem) (revision : Z) (directory : string)
| TakeInFlight
| TakeUnknown.

Definition takeItem (r : Runtime) (sid itemId : string) (now : Z) : Runtime * TakeResult :=
  if bool_decide (inFlightIdOf r sid = Some itemId) then (r, TakeInFlight)
  else
    match removeItem (store r) sid itemId, directoryOf (store r) sid with
    | (s, Some item), Some dir =>
      let r1 := commit_store r s dir in
      (on_timers r1 (fun t => armQuiet t sid now), Taken item (revision (store r1)) dir)
    | (s, _), _ => (with_store r s, TakeUnknown)
    end.

Definition deleteItem (r : Runtime) (sid itemId : string) : Runtime * TakeResult :=
  if bool_decide (inFlightIdOf r sid = Some itemId) then (r, TakeInFlight)
  else
    match removeItem (store r) sid itemId, directoryOf (store r) sid with
    | (s, Some item), Some dir =>
      let r1 := commit_store r s dir in (r1, Taken item (revision (store r1)) dir)
    | (s, _), _ => (with_store r s, TakeUnknown)
    end.

Definition takeAllItems (r : Runtime) (sid : string) : Runtime * option (list QueueItem * Z * string) :=
  match directoryOf (store r) sid with
  | None => (r, None)
  | Some dir =>
    let '(s, taken) := takeAllExcept (store r) sid (inFlightIdOf r sid) in
    match taken with
    | [] => (with_store r s, Some ([], revision s, dir))
    | _ => let r1 := commit_store r s dir in (r1, Some (taken, revision (store r1), dir))
    end
  end.

Definition deleteSessionQueue (r : Runtime) (sid : string) : Runtime * option (Z * string) :=
  match takeAllItems r sid with
  | (r1, Some (_, rev, dir)) => (r1, Some (rev, dir))
  | (r1, None) => (r1, None)
  end.

Inductive ReorderOutcome : Type := ROApplied | RONoop | ROIncomplete | ROUnknown | ROInFlight.

Definition reorderItems (r : Runtime) (sid : string) (itemIds : list string) : Runtime * ReorderOutcome :=
  match entryOf (store r) sid with
  | None => (r, ROUnknown)
  | Some e =>
    if is_empty_entry e || match itemIds with [] => true | _ => false end then (r, RONoop)
    else
      match reorder (store r) sid itemIds (inFlightIdOf r sid) with
      | (s, Applied) => (commit_store r s (directory e), ROApplied)
      | (_, PinnedInFlight) => (r, ROInFlight)
      | (_, _) => (r, ROIncomplete)
      end
  end.

(** Releasing drops the local reference and the claim file it names. *)
Definition release_claim (r : Runtime) (sid : string) (c : Claim) : Runtime :=
  let l := if bool_decide (jget sid (localClaims r) = Some c) then jdel sid (localClaims r) else localClaims r in
  let o := if bool_decide (jget sid (ownClaims r) = Some c) then jdel sid (ownClaims r) else ownClaims r in
  with_claims r l o (nextToken r).

Definition forgetTransientState (r : Runtime) (sid : string) : Runtime :=
  let activelySending := bool_decide (sid ∈ activeDeliveries r) in
  let r1 := with_sending r (jdel sid (sending r)) (activeDeliveries r) in
  let r2 := if activelySending then r1
            else match jget sid (localClaims r1) with Some c => release_claim r1 sid c | None => r1 end in
  on_timers r2 (fun t => clearHoldWake (clearArm (del_hold (del_abort (del_backoff t sid) sid) sid) sid) sid).

Definition dropQueuedSession (r : Runtime) (sid : string) : Runtime * (bool * option string) :=
  let r1 := forgetTransientState r sid in
  match directoryOf (store r) sid with
  | None => (r1, (false, None))
  | Some dir => (commit_store r1 (dropSession (store r1) sid).1 dir, (true, Some dir))
  end.

(** Every pending write runs. *)
Fixpoint flush (n : nat) (s : Store) (ok : bool) : Store :=
  match n with O => s | S n' => flush n' (writeNow s ok) ok end.

(** [withSharedQueue]: refresh from the file, mutate, wait for the write. *)
Definition withSharedQueue {A} (r : Runtime) (ok : bool) (mutate : Runtime -> Runtime * A) : Runtime * A :=
  let r0 := with_store r (refreshPreservingEmpty (store r)).1 in
  let '(r1, a) := mutate r0 in
  (with_store r1 (flush (pendingWrites (store r1)) (store r1) ok), a).

(** ** Feed events *)

Definition onSessionStatus (r : Runtime) (sid : string) (status : option json) (now : Z) : Runtime :=
  match entryOf (store r) sid with
  | None => r
  | Some _ =>
    let type := s ← asRecord status; jfield "type" s in
    if is_str type "idle" then on_timers r (fun t => armQuiet t sid now)
    else if is_str type "busy" || is_str type "retry" then on_timers r (fun t => clearArm t sid)
    else r
  end.

Definition onMessageUpdated (r : Runtime) (sid : string) (info : option json) (now : Z) : Runtime :=
  match asRecord info with
  | None => r
  | Some record =>
    if negb (is_str (jfield "role" record) "assistant") then r
    else if bool_decide (errorNameOf (jfield "error" record) = Some "MessageAbortedError") then
      on_timers r (fun t => set_abort t sid now)
    else if completed_number record && bool_decide (is_Some (entryOf (store r) sid))
            && negb (jhas sid (arms (timers r)))
    then on_timers r (fun t => armQuiet t sid now)
    else r
  end.

(** The routing of one envelope; a deleted session is dropped under the lock. *)
Definition onEnvelope (r : Runtime) (type : string) (properties : option json) (now : Z) (writeOk : bool) : Runtime :=
  if stopped r then r
  else
    let props := default (JObj []) (asRecord properties) in
    let sid := match optionalPropertyString props "sessionID" with
               | Some s => Some s
               | None => optionalPropertyString props "sessionId"
               end in
    match sid with
    | None => r
    | Some sid =>
      if bool_decide (type = "session.deleted") then (withSharedQueue r writeOk (fun r => dropQueuedSession r sid)).1
      else if bool_decide (type = "session.status") then onSessionStatus r sid (jfield "status" props) now
      else if bool_decide (type = "message.updated") then onMessageUpdated r sid (jfield "info" props) now
      else r
    end.

Definition reconcileAll (r : Runtime) (now : Z) : Runtime :=
  if stopped r then r
  else
    let r1 := with_store r (recoverWrites (store r)).1 in
    fold_left (fun acc x =>
      if jhas x.1 (sending acc) || jhas x.1 (arms (timers acc)) then acc
      else on_timers acc (fun t => armQuiet t x.1 now)) (nonEmptyEntries (store r1)) r1.

(** ** Dispatch *)

Definition head_of (r : Runtime) (sid : string) : option QueueItem :=
  e ← entryOf (store r) sid; head (items e).

Definition end_tick (r : Runtime) (sid : string) : Runtime := with_phases r (jdel sid (phases r)).

(** [tick], up to its first await; with none the tick ends at once. *)
Definition tick (r : Runtime) (sid : string) (now : Z) : Runtime :=
  if stopped r || jhas sid (phases r) then r
  else
    match entryOf (store r) sid with
    | None => r
    | Some e =>
      match items e with
      | [] => r
      | hd :: _ =>
        if jhas sid (sending r) then r
        else
          match heldExpiryOf (timers r) sid now with
          | (t1, Some _) => with_timers r t1
          | (t1, None) =>
            let stop_hold := match jget sid (aborts t1) with
                             | Some at_ => if bool_decide (now < at_ + abortHoldMs timing)%Z then Some at_ else None
                             | None => None
                             end in
            match stop_hold with
            | Some at_ => with_timers r (arm t1 sid (at_ + abortHoldMs timing - now) now)
            | None =>
              let t2 := del_abort t1 sid in
              let '(t3, due) := match jget sid (backoffs t2) with
                                | None => (t2, None)
                                | Some b => if negb (bool_decide (bo_itemId b = id hd)) then (del_backoff t2 sid, None)
                                            else if bool_decide (now < bo_nextAttemptAt b)%Z then (t2, Some (bo_nextAttemptAt b))
                                            else (t2, None)
                                end in
              match due with
              | Some at_ => with_timers r (arm t3 sid (at_ - now) now)
              | None => did (with_phases (with_timers r t3) (jset sid (Verifying hd (directory e)) (phases r)))
                          [AskIdle sid (directory e)]
              end
            end
          end
      end
    end.

Inductive Idleness : Type := Idle | NotIdle | Unknown.

(** The last two fetches of [verifyIdle], as their JSON results ([None]: failed). *)
Definition verifyIdle (sid : string) (statusMap tail : option json) : Idleness :=
  match asRecord statusMap with
  | None => Unknown
  | Some m =>
    if negb (is_undefined (jfield sid m)) then NotIdle
    else match tail with
         | Some (JArr l) => match last l with
                            | Some e => if tailUnfinishedAssistant e then NotIdle else Idle
                            | None => Idle
                            end
         | _ => Unknown
         end
  end.

(** The [finally] of [dispatchHead], and the end of the tick. *)
Definition finish_dispatch (r : Runtime) (sid : string) (claim : option Claim) : Runtime :=
  let r1 := with_sending r (jdel sid (sending r)) (List.filter (fun s => negb (String.eqb s sid)) (activeDeliveries r)) in
  let r2 := match claim with Some c => release_claim r1 sid c | None => r1 end in
  end_tick r2 sid.

(** The first verification has answered. A claim kept from an earlier attempt is
    used again; otherwise one is acquired ([claimFree]: no other process holds
    it) and the head checked under the lock. *)
Definition verified (r : Runtime) (sid : string) (verdict : Idleness) (claimFree writeOk : bool) (now : Z) : Runtime :=
  match jget sid (phases r) with
  | Some (Verifying hd dir) =>
    match verdict with
    | NotIdle => end_tick r sid
    | Unknown => end_tick (on_timers r (fun t => arm t sid (verifyBackoffMs timing) now)) sid
    | Idle =>
      if negb (bool_decide (id <$> head_of r sid = Some (id hd))) then end_tick r sid
      else
        match jget sid (localClaims r) with
        | Some c =>
          if stopped r then finish_dispatch r sid (Some c)
          else did (with_phases r (jset sid (Reverifying (default hd (head_of r sid)) dir c) (phases r))) [AskIdle sid dir]
        | None =>
          if negb claimFree || jhas sid (ownClaims r) then
            finish_dispatch (on_timers r (fun t => arm t sid (verifyBackoffMs timing) now)) sid None
          else
            let c := mkClaim (nextToken r) (id hd) in
            let hd' := default hd (head_of r sid) in
            let r1 := with_claims r (jset sid c (localClaims r)) (jset sid c (ownClaims r)) (S (nextToken r)) in
            let '(r2, stillHead) := withSharedQueue r1 writeOk
              (fun r => (r, bool_decide (id <$> head_of r sid = Some (id hd)))) in
            if negb stillHead || stopped r2 then finish_dispatch r2 sid (Some c)
            else did (with_phases r2 (jset sid (Reverifying hd' dir c) (phases r2))) [AskIdle sid dir]
        end
    end
  | _ => r
  end.

(** The second verification has answered: the send begins. *)
Definition reverified (r : Runtime) (sid : string) (verdict : Idleness) (now : Z) : Runtime :=
  match jget sid (phases r) with
  | Some (Reverifying hd dir c) =>
    match verdict with
    | Idle =>
      if negb (bool_decide (jget sid (localClaims r) = Some c)) then finish_dispatch r sid (Some c)
      else
        let r1 := with_sending r (jset sid (id hd) (sending r)) (activeDeliveries r ++ [sid]) in
        did (with_phases (announce r1 dir) (jset sid (Delivering hd dir c) (phases r1))) [Deliver sid hd]
    | _ => finish_dispatch (on_timers r (fun t => arm t sid (verifyBackoffMs timing) now)) sid (Some c)
    end
  | _ => r
  end.

Definition onDelivered (r : Runtime) (sid : string) (item : QueueItem) (dir : string) : Runtime :=
  let r1 := match removeItem (store r) sid (id item) with
            | (s, Some _) => did (commit_store r s dir) [PromptSent sid (id item)]
            | (s, None) => with_store r s
            end in
  on_timers r1 (fun t => del_backoff t sid).

Definition onRejected (r : Runtime) (sid : string) (item : QueueItem) (dir : string) (now : Z) : Runtime :=
  let failures := match jget sid (backoffs (timers r)) with
                  | Some b => if bool_decide (bo_itemId b = id item) then (bo_failures b + 1)%Z else 1%Z
                  | None => 1%Z
                  end in
  let delay := failureDelayMs failures timing in
  let r1 := on_timers r (fun t => set_backoff t sid (mkBackoff (id item) failures (now + delay))) in
  on_timers (announce r1 dir) (fun t => arm t sid delay now).

Inductive DeliveryOutcome : Type := Accepted | Rejected | DeliveryThrew.

(** The delivery has settled. A rejected head keeps its claim. *)
Definition settled (r : Runtime) (sid : string) (outcome : DeliveryOutcome) (writeOk : bool) (now : Z) : Runtime :=
  match jget sid (phases r) with
  | Some (Delivering hd dir c) =>
    if stopped r then finish_dispatch r sid (Some c)
    else match outcome with
         | Accepted =>
           let '(r1, _) := withSharedQueue r writeOk (fun r => (onDelivered r sid hd dir, tt)) in
           finish_dispatch r1 sid (Some c)
         | Rejected =>
           let '(r1, retained) := withSharedQueue r writeOk (fun r =>
             if bool_decide (id <$> head_of r sid = Some (id hd)) then (onRejected r sid hd dir now, true)
             else (r, false)) in
           finish_dispatch r1 sid (if retained then None else Some c)
         | DeliveryThrew =>
           finish_dispatch (on_timers r (fun t => arm t sid (verifyBackoffMs timing) now)) sid (Some c)
         end
  | _ => r
  end.

Definition timerFires (r : Runtime) (sid : string) (now : Z) : Runtime :=
  tick (on_timers r (fun t => clearArm t sid)) sid now.

Definition holdWakeFires (r : Runtime) (sid : string) (now : Z) : Runtime :=
  let r1 := on_timers r (fun t => clearHoldWake t sid) in
  if stopped r1 then r1 else tick r1 sid now.

(** [dispose] releases every claim and clears every timer. *)
Definition dispose (r : Runtime) : Runtime :=
  mkRuntime (store r) (mkTimers [] [] (holds (timers r)) (backoffs (timers r)) (aborts (timers r)))
    (sending r) (activeDeliveries r) []
    (filter (fun x => jget x.1 (localClaims r) <> Some x.2) (ownClaims r))
    (nextToken r) (phases r) true (rt_log r).

(** ** Events *)

(** What the routes ask for, on the queue as it is in memory. *)
Inductive UserOp : Type :=
| UEnqueue (sid dir : string) (item : queued QueueItem)
| UTake (sid itemId : string)
| UTakeAll (sid : string)
| UDelete (sid itemId : string)
| UClear (sid : string)
| UReorder (sid : string) (itemIds : list string).

Definition run_user (now : Z) (r : Runtime) (op : UserOp) : Runtime :=
  match op with
  | UEnqueue sid dir item => (enqueueItem r sid dir item now).1
  | UTake sid itemId => (takeItem r sid itemId now).1
  | UTakeAll sid => (takeAllItems r sid).1
  | UDelete sid itemId => (deleteItem r sid itemId).1
  | UClear sid => (deleteSessionQueue r sid).1
  | UReorder sid itemIds => (reorderItems r sid itemIds).1
  end.

Inductive Event : Type :=
| EUser (op : UserOp) (writeOk : bool)
| EHold (sid : string) (held : bool) (ttlMs : option Z)
| EEnvelope (type : string) (properties : option json) (writeOk : bool)
| EConnected
| ETimer (sid : string)
| EHoldWake (sid : string)
| EVerified (sid : string) (verdict : Idleness) (claimFree writeOk : bool)
| EReverified (sid : string) (verdict : Idleness)
| ESettled (sid : string) (outcome : DeliveryOutcome) (writeOk : bool)
| EDispose.

Definition handle (r : Runtime) (e : Event) (now : Z) : Runtime :=
  match e with
  | EUser op ok => (withSharedQueue r ok (fun r => (run_user now r op, tt))).1
  | EHold sid held ttl => (setHold r sid held ttl now).1
  | EEnvelope type props ok => onEnvelope r type props now ok
  | EConnected => reconcileAll r now
  | ETimer sid => timerFires r sid now
  | EHoldWake sid => holdWakeFires r sid now
  | EVerified sid v free ok => verified r sid v free ok now
  | EReverified sid v => reverified r sid v now
  | ESettled sid o ok => settled r sid o ok now
  | EDispose => dispose r
  end.

(** ** What a step leaves alone *)

(** The part of the state the dispatch protocol is about. *)
Definition core (r : Runtime) :=
  (sending r, activeDeliveries r, localClaims r, ownClaims r, phases r, stopped r).

Definition is_deliver (sid : string) (e : RuntimeEffect) : bool :=
  match e with Deliver s _ => bool_decide (s = sid) | _ => false end.

(** How many sends of a session have begun. *)
Definition sent (r : Runtime) (sid : string) : nat := length (List.filter (is_deliver sid) (rt_log r)).

(** [r'] differs from [r] in the store, the timers and the announcements only. *)
Definition outside_core (r r' : Runtime) : Prop := core r' = core r /\ forall sid, sent r' sid = sent r sid.

Lemma outside_refl r : outside_core r r.
Proof. by split. Qed.

Lemma outside_trans r1 r2 r3 : outside_core r1 r2 -> outside_core r2 r3 -> outside_core r1 r3.
Proof. intros [H1 H2] [H3 H4]. split; [congruence|]. intros sid. by rewrite H4. Qed.

Lemma outside_store r0 r s : outside_core r0 r -> outside_core r0 (with_store r s).
Proof. done. Qed.

Lemma outside_timers r0 r f : outside_core r0 r -> outside_core r0 (on_timers r f).
Proof. done. Qed.

Lemma outside_with_timers r0 r t : outside_core r0 r -> outside_core r0 (with_timers r t).
Proof. done. Qed.

Lemma sent_did r es sid : sent (did r es) sid = sent r sid + length (List.filter (is_deliver sid) es).
Proof. unfold sent. cbn. by rewrite List.filter_app, length_app. Qed.

Lemma outside_announce r0 r dir : outside_core r0 r -> outside_core r0 (announce r dir).
Proof. intros [H1 H2]. split; [done|]. intros sid. unfold announce. rewrite sent_did, H2. cbn. lia. Qed.

Lemma outside_commit r0 r s dir : outside_core r0 r -> outside_core r0 (commit_store r s dir).
Proof. intros H. by apply outside_announce, outside_store. Qed.

Lemma outside_shared {A} r ok (f : Runtime -> Runtime * A) :
  (forall r, outside_core r (f r).1) -> outside_core r (withSharedQueue r ok f).1.
Proof.
  intros Hf. unfold withSharedQueue. pose proof (Hf (with_store r (refreshPreservingEmpty (store r)).1)) as H.
  destruct (f _) as [r1 a]. cbn [fst] in *. by apply outside_store.
Qed.

End runtime.

(** Another process has written the queue file. *)
Definition file_replaced (r : Runtime) (d : LoadedQueueDoc) : Runtime :=
  let s := store r in
  with_store r (mkStore (sessions s) (revision s) (writesDisabled s) (pendingWrites s) d (quarantined s)).

(** Another contender has unlinked this process's claim file of a session. *)
Definition claim_unlinked (r : Runtime) (sid : string) : Runtime :=
  with_claims r (localClaims r) (jdel sid (ownClaims r)) (nextToken r).

(** The runtime among other processes. Their claims may change from step to step
    ([foreign]), they write the queue file, and they may unlink a claim file of
    this process (QueueClaims.stale_claim_race): [lost] are the sessions this
    has happened to. *)
Inductive reachable (timing : QueueTiming) (f : LoadedQueueDoc) : list string -> Runtime -> Prop :=
| reach_start foreign now :
    reachable timing f [] (handle timing foreign (newRuntime (load (newStore f)).1) EConnected now)
| reach_step lost foreign r e now : reachable timing f lost r -> reachable timing f lost (handle timing foreign r e now)
| reach_file lost r d : reachable timing f lost r -> reachable timing f lost (file_replaced r d)
| reach_unlinked lost r sid : reachable timing f lost r -> reachable timing f (sid :: lost) (claim_unlinked r sid).

Create HintDb queue discriminated.
#[export] Hint Resolve outside_refl outside_store outside_timers outside_with_timers outside_announce outside_commit : queue.

Section outside.
  Context (timing : QueueTiming) (foreign : string -> option string).

Lemma outside_user now r op : outside_core r (run_user timing foreign now r op).
Proof.
  destruct op as [sid dir item|sid i|sid|sid i|sid|sid l]; cbn [run_user].
  - unfold enqueueItem. destruct item as [item|]; [|auto with queue].
    destruct (findItem _ _ _) as [prior|]; [by destruct (sameQueuePayload _ _); cbn [fst]; auto with queue|].
    destruct (enqueue _ _ _ _ _) as [[s rev]|]; cbn [fst]; [|auto with queue].
    auto with queue.
  - unfold takeItem. case_bool_decide; [auto with queue|].
    destruct (removeItem (store r) sid i) as [s [item|]], (directoryOf (store r) sid); cbn [fst]; auto with queue.
  - unfold takeAllItems. destruct (directoryOf (store r) sid); [|auto with queue].
    destruct (takeAllExcept _ _ _) as [st [|i l]]; cbn [fst]; auto with queue.
  - unfold deleteItem. case_bool_decide; [auto with queue|].
    destruct (removeItem (store r) sid i) as [s [item|]], (directoryOf (store r) sid); cbn [fst]; auto with queue.
  - unfold deleteSessionQueue, takeAllItems. destruct (directoryOf (store r) sid); [|auto with queue].
    destruct (takeAllExcept _ _ _) as [st [|i l]]; cbn [fst]; auto with queue.
  - unfold reorderItems. destruct (entryOf _ _); [|auto with queue]. case_match; [auto with queue|].
    destruct (reorder _ _ _ _) as [s []]; cbn [fst]; auto with queue.
Qed.

Lemma outside_hold r sid held ttl now : outside_core r (setHold timing r sid held ttl now).1.
Proof. unfold setHold. destruct (negb held); cbn [fst]; auto with queue. Qed.

Lemma outside_reconcile r now : outside_core r (reconcileAll timing r now).
Proof.
  unfold reconcileAll. destruct (stopped r); [auto with queue|].
  assert (forall (l : list (string * QueueSessionEntry)) a, outside_core r a -> outside_core r (fold_left (fun acc x =>
    if jhas x.1 (sending acc) || jhas x.1 (arms (timers acc)) then acc
    else on_timers acc (fun t => armQuiet timing t x.1 now)) l a)) as H; [|apply H; auto with queue].
  induction l as [|x l IH]; intros a Ha; cbn; [done|]. apply IH. case_match; auto with queue.
Qed.

End outside.

(** ** The dispatch protocol *)

Definition is_delivering (p : option Phase) : bool :=
  match p with Some (Delivering _ _ _) => true | _ => false end.

Section among.
  Context (lost : list string).

(** The protocol of one session: the in-flight mark stands only during the
    delivery, which then names the item; a session is active exactly while it
    delivers; a claim this process refers to has its file, unless another
    contender has unlinked it; a running delivery has a claim; a disposed runtime
    has none. *)
Record session_ok (r : Runtime) (sid : string) : Prop := {
  ok_sending : forall x, jget sid (sending r) = Some x ->
    exists hd dir c, jget sid (phases r) = Some (Delivering hd dir c) /\ id hd = x;
  ok_active : sid ∈ activeDeliveries r <-> is_delivering (jget sid (phases r)) = true;
  ok_local : forall c, jget sid (localClaims r) = Some c ->
    jget sid (ownClaims r) = Some c \/ (sid ∈ lost /\ jget sid (ownClaims r) = None);
  ok_claimed : forall hd dir c, jget sid (phases r) = Some (Delivering hd dir c) -> stopped r = false ->
    jget sid (localClaims r) = Some c;
  ok_stopped : stopped r = true -> jget sid (localClaims r) = None;
}.

Record runtime_ok (r : Runtime) : Prop := {
  ok_session : forall sid, session_ok r sid;
  ok_wf : jwf (sending r) /\ jwf (localClaims r) /\ jwf (ownClaims r) /\ jwf (phases r);
}.

Lemma runtime_ok_outside r r' : outside_core r r' -> runtime_ok r -> runtime_ok r'.
Proof.
  intros [Hc _] [Hs Hw]. unfold core in Hc. injection Hc as E1 E2 E3 E4 E5 E6.
  split; [|by rewrite E1, E3, E4, E5]. intros sid. destruct (Hs sid). split; rewrite ?E1, ?E2, ?E3, ?E4, ?E5, ?E6; auto.
Qed.

Lemma session_ok_ext r r' sid :
  jget sid (sending r') = jget sid (sending r) -> (sid ∈ activeDeliveries r' <-> sid ∈ activeDeliveries r) ->
  jget sid (localClaims r') = jget sid (localClaims r) -> jget sid (ownClaims r') = jget sid (ownClaims r) ->
  jget sid (phases r') = jget sid (phases r) -> stopped r' = stopped r ->
  session_ok r sid -> session_ok r' sid.
Proof.
  intros E1 E2 E3 E4 E5 E6 []. split; rewrite ?E1, ?E3, ?E4, ?E5, ?E6; try done. by rewrite E2.
Qed.

Lemma release_claim_other r sid c s :
  s <> sid ->
  jget s (localClaims (release_claim r sid c)) = jget s (localClaims r)
  /\ jget s (ownClaims (release_claim r sid c)) = jget s (ownClaims r).
Proof.
  intros Hs. unfold release_claim. cbn. split; case_bool_decide; try done; by apply jget_del_ne.
Qed.

Lemma release_claim_self r sid c :
  jwf (localClaims r) -> jwf (ownClaims r) ->
  jget sid (localClaims (release_claim r sid c))
    = (if bool_decide (jget sid (localClaims r) = Some c) then None else jget sid (localClaims r))
  /\ jget sid (ownClaims (release_claim r sid c))
    = (if bool_decide (jget sid (ownClaims r) = Some c) then None else jget sid (ownClaims r)).
Proof.
  intros H1 H2. unfold release_claim. cbn. split; case_bool_decide; try done; by apply jget_del_eq.
Qed.

Lemma release_claim_wf r sid c :
  jwf (localClaims r) -> jwf (ownClaims r) ->
  jwf (localClaims (release_claim r sid c)) /\ jwf (ownClaims (release_claim r sid c)).
Proof. intros H1 H2. unfold release_claim. cbn. split; case_bool_decide; try done; by apply jwf_del. Qed.

(** Releasing keeps the references and the files of a session in step. *)
Lemma release_claim_local r sid c :
  jwf (localClaims r) -> jwf (ownClaims r) ->
  (forall d, jget sid (localClaims r) = Some d ->
     jget sid (ownClaims r) = Some d \/ (sid ∈ lost /\ jget sid (ownClaims r) = None)) ->
  forall d, jget sid (localClaims (release_claim r sid c)) = Some d ->
    jget sid (ownClaims (release_claim r sid c)) = Some d
    \/ (sid ∈ lost /\ jget sid (ownClaims (release_claim r sid c)) = None).
Proof.
  intros H1 H2 H d. destruct (release_claim_self r sid c H1 H2) as [-> ->].
  case_bool_decide as Hl; [done|]. intros Hd. destruct (H d Hd) as [-> | [Hx ->]].
  - left. rewrite bool_decide_false; [done|]. congruence.
  - right. by rewrite bool_decide_false.
Qed.

Lemma elem_of_remove_sid (s sid : string) l :
  s ∈ List.filter (fun s => negb (String.eqb s sid)) l <-> s <> sid /\ s ∈ l.
Proof.
  rewrite !list_elem_of_In, List.filter_In, negb_true_iff, String.eqb_neq. tauto.
Qed.

Lemma finish_ok r sid claim :
  (forall s, s <> sid -> session_ok r s) ->
  jwf (sending r) /\ jwf (localClaims r) /\ jwf (ownClaims r) /\ jwf (phases r) ->
  (forall d, jget sid (localClaims r) = Some d ->
     jget sid (ownClaims r) = Some d \/ (sid ∈ lost /\ jget sid (ownClaims r) = None)) ->
  (stopped r = true -> forall d, jget sid (localClaims r) = Some d -> claim = Some d) ->
  runtime_ok (finish_dispatch r sid claim).
Proof.
  intros Ho (W1 & W2 & W3 & W4) Hl Hst.
  set (r1 := with_sending r (jdel sid (sending r)) (List.filter (fun s => negb (String.eqb s sid)) (activeDeliveries r))).
  assert (finish_dispatch r sid claim
    = end_tick (match claim with Some c => release_claim r1 sid c | None => r1 end) sid) as -> by done.
  set (r2 := match claim with Some c => release_claim r1 sid c | None => r1 end).
  assert (sending r2 = jdel sid (sending r) /\ activeDeliveries r2 = activeDeliveries r1
          /\ phases r2 = phases r /\ stopped r2 = stopped r) as (E1 & E2 & E3 & E4) by by unfold r2; destruct claim.
  assert (jwf (localClaims r2) /\ jwf (ownClaims r2)) as [W5 W6].
  { unfold r2. destruct claim; [by apply release_claim_wf|done]. }
  split.
  2:{ cbn. rewrite E1, E3. split_and!; [by apply jwf_del|done|done|by apply jwf_del]. }
  intros s. destruct (decide (s = sid)) as [->|Hne].
  - split; cbn; rewrite ?E1, ?E2, ?E3, ?E4, ?(jget_del_eq sid (phases r)), ?(jget_del_eq sid (sending r)) by done; try done.
    + split; [|done]. unfold r1. cbn. by rewrite elem_of_remove_sid; intros [].
    + intros d Hd. unfold r2 in *. destruct claim as [c|]; [|by apply Hl].
      by apply (release_claim_local r1 sid c W2 W3 Hl).
    + intros Hs. unfold r2. destruct (jget sid (localClaims r)) as [d|] eqn:Ed.
      * rewrite (Hst Hs d eq_refl). destruct (release_claim_self r1 sid d W2 W3) as [-> _]. cbn. by rewrite Ed, bool_decide_true.
      * destruct claim as [c|]; [|done]. destruct (release_claim_self r1 sid c W2 W3) as [-> _]. cbn. by rewrite Ed.
  - apply (session_ok_ext r); [| | | | |done|by apply Ho]; cbn.
    + rewrite E1. by apply jget_del_ne.
    + rewrite E2. unfold r1. cbn. rewrite elem_of_remove_sid. tauto.
    + unfold r2. destruct claim as [c|]; [|done]. by apply (release_claim_other r1).
    + unfold r2. destruct claim as [c|]; [|done]. by apply (release_claim_other r1).
    + rewrite E3. by apply jget_del_ne.
Qed.

Lemma set_phase_ok r sid p es :
  runtime_ok r -> is_delivering (jget sid (phases r)) = false -> is_delivering (Some p) = false ->
  runtime_ok (did (with_phases r (jset sid p (phases r))) es).
Proof.
  intros [Hs (W1 & W2 & W3 & W4)] Hd Hp. split; [|cbn; split_and!; try done; by apply jwf_set].
  intros s. destruct (decide (s = sid)) as [->|Hne].
  - destruct (Hs sid) as [S1 S2 S3 S4 S5]. split; cbn; rewrite ?jget_set_eq; try done.
    + intros x Hx. destruct (S1 x Hx) as (hd & dir & c & E & _). by rewrite E in Hd.
    + rewrite S2, Hd, Hp. done.
    + intros hd dir c [= ->]. done.
  - apply (session_ok_ext r); cbn; try done. by apply jget_set_ne.
Qed.

Lemma end_tick_ok r sid :
  runtime_ok r -> is_delivering (jget sid (phases r)) = false -> runtime_ok (end_tick r sid).
Proof.
  intros [Hs (W1 & W2 & W3 & W4)] Hd. split; [|cbn; split_and!; try done; by apply jwf_del].
  intros s. destruct (decide (s = sid)) as [->|Hne].
  - destruct (Hs sid) as [S1 S2 S3 S4 S5]. split; cbn; rewrite ?(jget_del_eq sid (phases r)) by done; try done.
    + intros x Hx. destruct (S1 x Hx) as (hd & dir & c & E & _). by rewrite E in Hd.
    + rewrite S2, Hd. done.
  - apply (session_ok_ext r); cbn; try done. by apply jget_del_ne.
Qed.

Lemma forget_ok r sid : runtime_ok r -> runtime_ok (forgetTransientState r sid).
Proof.
  intros [Hs (W1 & W2 & W3 & W4)]. unfold forgetTransientState.
  set (r1 := with_sending r (jdel sid (sending r)) (activeDeliveries r)).
  assert (runtime_ok r1) as H1.
  { split; [|cbn; split_and!; try done; by apply jwf_del]. intros s. destruct (decide (s = sid)) as [->|Hne].
    - destruct (Hs sid) as [S1 S2 S3 S4 S5]. split; cbn; rewrite ?(jget_del_eq sid (sending r)) by done; done.
    - apply (session_ok_ext r); cbn; try done. by apply jget_del_ne. }
  set (r2 := if bool_decide _ then _ else _). enough (runtime_ok r2) as H2.
  { apply (runtime_ok_outside r2); [|done]. auto with queue. }
  unfold r2. case_bool_decide as Ha; [done|]. destruct (jget sid (localClaims r1)) as [c|] eqn:Ec; [|done].
  destruct H1 as [Hs1 _]. split.
  2:{ destruct (release_claim_wf r1 sid c W2 W3). cbn in *. split_and!; try done. by apply jwf_del. }
  intros s. destruct (decide (s = sid)) as [->|Hne].
  - destruct (Hs1 sid) as [S1 S2 S3 S4 S5]. split; try done.
    + by apply release_claim_local.
    + intros hd dir d Hd. exfalso. apply Ha. apply S2. change (phases (release_claim r1 sid c)) with (phases r1) in Hd.
      by rewrite Hd.
    + intros Hst. destruct (release_claim_self r1 sid c W2 W3) as [-> _]. cbn in Ec. cbn. by rewrite Ec, bool_decide_true.
  - destruct (release_claim_other r1 sid c s Hne). by apply (session_ok_ext r1).
Qed.

Lemma dispose_ok r : runtime_ok r -> runtime_ok (dispose r).
Proof.
  intros [Hs (W1 & W2 & W3 & W4)]. split; [intros sid; destruct (Hs sid) as [S1 S2 S3 S4 S5]; by split|].
  cbn. split_and!; try done; [apply jwf_nil|]. by apply jwf_filter.
Qed.

Section protocol.
  Context (timing : QueueTiming) (foreign : string -> option string).

Lemma tick_ok r sid now : runtime_ok r -> runtime_ok (tick timing r sid now).
Proof.
  intros H. unfold tick. destruct (stopped r || jhas sid (phases r)) eqn:E; [done|]. bool_facts.
  assert (forall t, runtime_ok (with_timers r t)) as Ht by (intros t; by apply (runtime_ok_outside r); [apply outside_with_timers|]).
  assert (jget sid (phases r) = None) as Hp.
  { destruct (jget sid (phases r)) eqn:Ep; [|done]. exfalso.
    assert (jhas sid (phases r) = true) by (by apply jhas_Some). congruence. }
  destruct (entryOf (store r) sid) as [e|]; [|done]. destruct (items e) as [|hd l]; [done|].
  destruct (jhas sid (sending r)); [done|]. destruct (heldExpiryOf (timers r) sid now) as [t1 [x|]]; [done|].
  destruct (match jget sid (aborts t1) with Some _ => _ | None => _ end) as [a|]; [done|].
  destruct (match jget sid (backoffs (del_abort t1 sid)) with Some _ => _ | None => _ end) as [t3 [a|]]; [done|].
  apply (set_phase_ok (with_timers r t3)); [done| |done]. cbn. by rewrite Hp.
Qed.

(** Ending a dispatch from a state that is in order. *)
Lemma finish_from_ok r sid claim : runtime_ok r -> runtime_ok (finish_dispatch r sid claim).
Proof.
  intros [Hs Hw]. destruct (Hs sid) as [S1 S2 S3 S4 S5]. apply finish_ok; try done.
  intros Hst d. by rewrite (S5 Hst).
Qed.

Lemma verified_ok r sid v free ok now : runtime_ok r -> runtime_ok (verified timing r sid v free ok now).
Proof.
  intros H. unfold verified. destruct (jget sid (phases r)) as [[hd dir|?|?]|] eqn:Ep; try done.
  assert (is_delivering (jget sid (phases r)) = false) as Hnd by by rewrite Ep.
  destruct v; [|by apply end_tick_ok|].
  2:{ apply end_tick_ok; [|done]. by apply (runtime_ok_outside r); [auto with queue|]. }
  destruct (negb _); [by apply end_tick_ok|]. destruct (jget sid (localClaims r)) as [c|] eqn:El.
  { destruct (stopped r); [by apply finish_from_ok|by apply set_phase_ok]. }
  destruct (negb free || jhas sid (ownClaims r)).
  { apply finish_from_ok. by apply (runtime_ok_outside r); [auto with queue|]. }
  set (c := mkClaim _ _). set (r1 := with_claims r _ _ _).
  set (f := fun r => (r, bool_decide (id <$> head_of r sid = Some (id hd)))).
  assert (outside_core r1 (withSharedQueue r1 ok f).1) as [Hc _] by (apply outside_shared; intros; apply outside_refl).
  destruct (withSharedQueue r1 ok f) as [r2 still]. cbn [fst] in Hc. unfold core, r1 in Hc. cbn in Hc.
  injection Hc as E1 E2 E3 E4 E5 E6. destruct H as [Hs (W1 & W2 & W3 & W4)].
  assert (jwf (sending r2) /\ jwf (localClaims r2) /\ jwf (ownClaims r2) /\ jwf (phases r2)) as Hw.
  { rewrite E1, E3, E4, E5. split_and!; try done; by apply jwf_set. }
  assert (forall s, s <> sid -> session_ok r2 s) as Hs2.
  { intros s Hne. apply (session_ok_ext r); rewrite ?E1, ?E2, ?E3, ?E4, ?E5, ?E6; try done; by apply jget_set_ne. }
  destruct (negb still || stopped r2) eqn:Eb; bool_facts.
  { apply finish_ok; [done|done| |]; rewrite ?E3, ?E4, !jget_set_eq.
    - intros d [= <-]. by left.
    - intros _ d [= <-]. done. }
  apply (set_phase_ok r2); rewrite ?E5; try done. split; [|done]. intros s. destruct (decide (s = sid)) as [->|Hne]; [|by apply Hs2].
  destruct (Hs sid) as [S1 S2 S3 S4 S5]. split; rewrite ?E1, ?E2, ?E3, ?E4, ?E5, ?jget_set_eq; try done.
  - intros d [= <-]. by left.
  - intros hd' dir' c' Hd. by rewrite Hd in Hnd.
  - congruence.
Qed.

Lemma reverified_ok r sid v now : runtime_ok r -> runtime_ok (reverified timing r sid v now).
Proof.
  intros H. unfold reverified. destruct (jget sid (phases r)) as [[|hd dir c|]|] eqn:Ep; try done.
  assert (runtime_ok (finish_dispatch (on_timers r (fun t => arm t sid (verifyBackoffMs timing) now)) sid (Some c))) as Hfin.
  { apply finish_from_ok. by apply (runtime_ok_outside r); [auto with queue|]. }
  destruct v; [|done|done]. case_bool_decide as El; cbn [negb]; [|by apply finish_from_ok].
  destruct H as [Hs (W1 & W2 & W3 & W4)]. split; [|cbn; split_and!; try done; by apply jwf_set].
  intros s. destruct (decide (s = sid)) as [->|Hne].
  - destruct (Hs sid) as [S1 S2 S3 S4 S5]. split; cbn; rewrite ?jget_set_eq; try done.
    + intros x [= <-]. by exists hd, dir, c.
    + split; [done|]. intros _. set_solver.
    + by intros ? ? ? [= <- <- <-].
  - apply (session_ok_ext r); cbn; try done; try by apply jget_set_ne. set_solver.
Qed.

Lemma outside_delivered r sid item dir : outside_core r (onDelivered r sid item dir).
Proof.
  unfold onDelivered. apply outside_timers. destruct (removeItem _ _ _) as [s [i|]]; [|auto with queue].
  destruct (outside_commit r r s dir (outside_refl r)) as [H1 H2]. split; [done|].
  intros sid'. rewrite sent_did, H2. cbn. lia.
Qed.

Lemma outside_rejected r sid item dir now : outside_core r (onRejected timing r sid item dir now).
Proof. unfold onRejected. auto with queue. Qed.

(** A settled delivery is a change outside the core followed by [finish_dispatch]. *)
Lemma settled_shape r sid o ok now :
  settled timing r sid o ok now = r
  \/ exists r1 claim, outside_core r r1 /\ settled timing r sid o ok now = finish_dispatch r1 sid claim
      /\ is_delivering (jget sid (phases r)) = true.
Proof.
  unfold settled. destruct (jget sid (phases r)) as [[| |hd dir c]|] eqn:Ep; try by left. right.
  destruct (stopped r); [exists r, (Some c); by split_and!|]. destruct o.
  - pose proof (outside_shared r ok (fun r => (onDelivered r sid hd dir, tt)) (fun r => outside_delivered r sid hd dir)) as Ho.
    destruct (withSharedQueue _ _ _) as [r1 u]. exists r1, (Some c). by split_and!.
  - set (f := fun r => if bool_decide (id <$> head_of r sid = Some (id hd)) then (onRejected timing r sid hd dir now, true) else (r, false)).
    assert (forall r, outside_core r (f r).1) as Hf.
    { intros r0. unfold f. case_bool_decide; cbn [fst]; [apply outside_rejected|auto with queue]. }
    pose proof (outside_shared r ok f Hf) as Ho.
    destruct (withSharedQueue r ok f) as [r1 ret]. by eexists r1, _.
  - eexists _, _. split_and!; [|done|done]. auto with queue.
Qed.

Lemma settled_ok r sid o ok now : runtime_ok r -> runtime_ok (settled timing r sid o ok now).
Proof.
  intros H. destruct (settled_shape r sid o ok now) as [->|(r1 & claim & Ho & -> & _)]; [done|].
  apply finish_from_ok. by apply (runtime_ok_outside r).
Qed.

Lemma envelope_shape r type props now ok :
  outside_core r (onEnvelope timing r type props now ok)
  \/ exists sid, onEnvelope timing r type props now ok = (withSharedQueue r ok (fun r => dropQueuedSession r sid)).1.
Proof.
  unfold onEnvelope. destruct (stopped r); [left; auto with queue|].
  destruct (match optionalPropertyString _ _ with Some _ => _ | None => _ end) as [sid|]; [|left; auto with queue].
  case_bool_decide; [right; by exists sid|left].
  case_bool_decide.
  - unfold onSessionStatus. destruct (entryOf _ _); [|auto with queue]. repeat case_match; auto with queue.
  - case_bool_decide; [|auto with queue]. unfold onMessageUpdated.
    destruct (asRecord _); [|auto with queue]. repeat case_match; auto with queue.
Qed.

Lemma handle_ok r e now : runtime_ok r -> runtime_ok (handle timing foreign r e now).
Proof.
  intros H. destruct e as [op ok|sid held ttl|type props ok| |sid|sid|sid v free ok|sid v|sid o ok|]; cbn [handle].
  - apply (runtime_ok_outside r); [|done].
    apply (outside_shared r ok (fun r => (run_user timing foreign now r op, tt))). intros. apply outside_user.
  - apply (runtime_ok_outside r); [apply outside_hold|done].
  - destruct (envelope_shape r type props now ok) as [Ho|[sid ->]]; [by apply (runtime_ok_outside r)|].
    unfold withSharedQueue, dropQueuedSession. set (r0 := with_store r _).
    assert (runtime_ok (forgetTransientState r0 sid)) as Hf by (apply forget_ok; by apply (runtime_ok_outside r); [apply outside_store|]).
    destruct (directoryOf _ _); cbn [fst]; (apply (runtime_ok_outside (forgetTransientState r0 sid)); [auto with queue|done]).
  - apply (runtime_ok_outside r); [apply outside_reconcile|done].
  - apply tick_ok. by apply (runtime_ok_outside r); [auto with queue|].
  - unfold holdWakeFires. set (r1 := on_timers r _). assert (runtime_ok r1) by by apply (runtime_ok_outside r); [unfold r1; auto with queue|].
    destruct (stopped r1); [done|by apply tick_ok].
  - by apply verified_ok.
  - by apply reverified_ok.
  - by apply settled_ok.
  - by apply dispose_ok.
Qed.

Lemma sent_outside r r' s : outside_core r r' -> sent r' s = sent r s.
Proof. by intros [_ H]. Qed.

Lemma sent_finish r sid claim s : sent (finish_dispatch r sid claim) s = sent r s.
Proof. by destruct claim. Qed.

Lemma sent_forget r sid s : sent (forgetTransientState r sid) s = sent r s.
Proof.
  unfold forgetTransientState. rewrite (sent_outside _ _ s (outside_timers _ _ _ (outside_refl _))).
  case_bool_decide; [done|]. by destruct (jget _ _).
Qed.

Lemma sent_tick r sid now s : sent (tick timing r sid now) s = sent r s.
Proof.
  unfold tick. destruct (stopped r || jhas sid (phases r)); [done|]. destruct (entryOf (store r) sid) as [e|]; [|done].
  destruct (items e); [done|]. destruct (jhas sid (sending r)); [done|].
  destruct (heldExpiryOf (timers r) sid now) as [t1 [x|]]; [done|].
  destruct (match jget sid (aborts t1) with Some _ => _ | None => _ end) as [a|]; [done|].
  destruct (match jget sid (backoffs (del_abort t1 sid)) with Some _ => _ | None => _ end) as [t3 [a|]]; [done|].
  rewrite sent_did. cbn. unfold sent. cbn. lia.
Qed.

Lemma sent_ask r sid dir s : sent (did r [AskIdle sid dir]) s = sent r s.
Proof. rewrite sent_did. cbn. lia. Qed.

Lemma sent_verified r sid v free ok now s : sent (verified timing r sid v free ok now) s = sent r s.
Proof.
  unfold verified. destruct (jget sid (phases r)) as [[hd dir|?|?]|]; try done.
  destruct v; [|done..]. destruct (negb _); [done|]. destruct (jget sid (localClaims r)) as [c|].
  { destruct (stopped r); [apply sent_finish|]. by rewrite sent_ask. }
  destruct (negb free || jhas sid (ownClaims r)); [by rewrite sent_finish|].
  set (c := mkClaim _ _). set (r1 := with_claims r _ _ _).
  set (f := fun r => (r, bool_decide (id <$> head_of r sid = Some (id hd)))).
  assert (outside_core r1 (withSharedQueue r1 ok f).1) as [_ Hc] by (apply outside_shared; intros; apply outside_refl).
  destruct (withSharedQueue r1 ok f) as [r2 still]. cbn [fst] in Hc.
  destruct (negb still || stopped r2); [rewrite sent_finish|rewrite sent_ask]; apply (Hc s).
Qed.

(** A send begins only when the second verification answers idle and the claim
    is still held. *)
Lemma sent_handle r e now s :
  sent (handle timing foreign r e now) s = sent r s
  \/ exists hd dir c, e = EReverified s Idle /\ jget s (phases r) = Some (Reverifying hd dir c)
      /\ jget s (localClaims r) = Some c /\ sent (handle timing foreign r e now) s = S (sent r s)
      /\ jget s (phases (handle timing foreign r e now)) = Some (Delivering hd dir c).
Proof.
  destruct e as [op ok|sid held ttl|type props ok| |sid|sid|sid v free ok|sid v|sid o ok|]; cbn [handle].
  - left. apply sent_outside, (outside_shared r ok (fun r => (run_user timing foreign now r op, tt))).
    intros. apply outside_user.
  - left. apply sent_outside, outside_hold.
  - left. destruct (envelope_shape r type props now ok) as [Ho|[sid ->]]; [by apply sent_outside|].
    unfold withSharedQueue, dropQueuedSession. set (r0 := with_store r _). change (sent r s) with (sent r0 s). rewrite <- (sent_forget r0 sid s).
    destruct (directoryOf _ _); cbn [fst]; apply sent_outside; auto with queue.
  - left. apply sent_outside, outside_reconcile.
  - left. unfold timerFires. by rewrite sent_tick.
  - left. unfold holdWakeFires. destruct (stopped _); [done|]. by rewrite sent_tick.
  - left. apply sent_verified.
  - unfold reverified. destruct (jget sid (phases r)) as [[|hd dir c|]|] eqn:Ep; try by left.
    destruct v; [|by left..]. case_bool_decide as El; cbn [negb]; [|by left].
    rewrite sent_did. cbn. destruct (decide (sid = s)) as [->|Hne].
    + right. exists hd, dir, c. rewrite bool_decide_true, jget_set_eq by done. split_and!; try done.
      cbn. unfold announce, sent. cbn. rewrite List.filter_app, length_app. cbn. lia.
    + left. rewrite bool_decide_false by done. unfold announce, sent. cbn. rewrite List.filter_app, length_app. cbn. lia.
  - left. destruct (settled_shape r sid o ok now) as [->|(r1 & claim & Ho & -> & _)]; [done|].
    rewrite sent_finish. by apply sent_outside.
  - by left.
Qed.

End protocol.

Lemma file_replaced_ok r d : runtime_ok r -> runtime_ok (file_replaced r d).
Proof. apply runtime_ok_outside. unfold file_replaced. auto with queue. Qed.

End among.

Lemma claim_unlinked_ok lost r sid : runtime_ok lost r -> runtime_ok (sid :: lost) (claim_unlinked r sid).
Proof.
  intros [Hs (W1 & W2 & W3 & W4)]. split; [|cbn; split_and!; try done; by apply jwf_del].
  intros s. destruct (Hs s) as [S1 S2 S3 S4 S5]. split; try done. cbn. intros c Hc.
  destruct (decide (s = sid)) as [->|Hne].
  - right. rewrite jget_del_eq by done. split; [apply elem_of_cons; by left|done].
  - rewrite jget_del_ne by done. destruct (S3 c Hc) as [H|[Hl H]]; [by left|right].
    split; [apply elem_of_cons; by right|done].
Qed.

Lemma reachable_ok timing f lost r : reachable timing f lost r -> runtime_ok lost r.
Proof.
  induction 1 as [foreign now|lost foreign r e now H IH|lost r d H IH|lost r sid H IH].
  - apply handle_ok. split; [|split_and!; apply jwf_nil]. intros sid. split; cbn; try done. set_solver.
  - by apply handle_ok.
  - by apply file_replaced_ok.
  - by apply claim_unlinked_ok.
Qed.

(** ** Properties *)

(** C3. One delivery at a time of each runtime, among processes that write the
    queue file and unlink claim files as they like. In every reachable state a
    session marked in flight is delivering exactly that item; while it delivers,
    and the runtime is not disposed, this process has taken the session's claim
    and has not let it go, and its claim file stands unless another contender has
    unlinked it (which the race of reclaiming a dead owner's claim allows:
    QueueClaims.stale_claim_race); and no event begins a send but a second
    idleness check answering idle, of exactly one message, for a session with no
    delivery under way in this process, whose claim is taken. *)
Theorem one_delivery_at_a_time (timing : QueueTiming) (f : LoadedQueueDoc) (lost : list string) (r : Runtime)
    (sid : string) :
  reachable timing f lost r ->
  (forall x, jget sid (sending r) = Some x ->
     exists hd dir c, jget sid (phases r) = Some (Delivering hd dir c) /\ id hd = x)
  /\ (forall hd dir c, jget sid (phases r) = Some (Delivering hd dir c) -> stopped r = false ->
        jget sid (localClaims r) = Some c
        /\ (jget sid (ownClaims r) = Some c \/ (sid ∈ lost /\ jget sid (ownClaims r) = None)))
  /\ (forall foreign e now, let r' := handle timing foreign r e now in
        sent r' sid = sent r sid
        \/ (e = EReverified sid Idle /\ sent r' sid = S (sent r sid) /\ stopped r = false
            /\ jget sid (sending r) = None /\ ~ (sid ∈ activeDeliveries r)
            /\ exists hd dir c, jget sid (phases r') = Some (Delivering hd dir c)
                 /\ jget sid (localClaims r) = Some c
                 /\ (jget sid (ownClaims r) = Some c \/ (sid ∈ lost /\ jget sid (ownClaims r) = None)))).
Proof.
  intros [Hs Hw]%reachable_ok. destruct (Hs sid) as [S1 S2 S3 S4 S5]. split_and!.
  - done.
  - intros hd dir c Hp Hst. split; [by eapply S4|apply S3; by eapply S4].
  - intros foreign e now. cbn zeta.
    destruct (sent_handle timing foreign r e now sid) as [H|(hd & dir & c & -> & Hp & Hl & Hn & Hd)]; [by left|right].
    split_and!; try done.
    + destruct (stopped r) eqn:E; [|done]. rewrite (S5 eq_refl) in Hl. done.
    + destruct (jget sid (sending r)) as [x|] eqn:E; [|done]. destruct (S1 x eq_refl) as (? & ? & ? & E' & _). congruence.
    + rewrite S2, Hp. done.
    + exists hd, dir, c. split_and!; [done|done|by apply S3].
Qed.

Definition one_item_file : LoadedQueueDoc :=
  LoadedDoc (mkDoc 3 [("s1", Some (mkEntry "/w" [plain_item "a"; plain_item "b"]))]).

(** The run up to the send of the head: timer, both checks. *)
Definition sending_run (now : Z) : Runtime :=
  let h := handle QUEUE_TIMING (fun _ => None) in
  let r0 := h (newRuntime (load (newStore one_item_file)).1) EConnected now in
  h (h (h r0 (ETimer "s1") (now + 500)%Z) (EVerified "s1" Idle true true) (now + 510)%Z) (EReverified "s1" Idle) (now + 520)%Z.

Lemma sending_run_reachable : reachable QUEUE_TIMING one_item_file [] (sending_run 0).
Proof. unfold sending_run. do 3 apply reach_step. apply reach_start. Qed.

Lemma one_delivery_at_a_time_witness :
  jget "s1" (sending (sending_run 0)) = Some "a"
  /\ exists hd dir c, jget "s1" (phases (sending_run 0)) = Some (Delivering hd dir c)
       /\ jget "s1" (ownClaims (sending_run 0)) = Some c.
Proof.
  destruct (one_delivery_at_a_time QUEUE_TIMING one_item_file [] (sending_run 0) "s1" sending_run_reachable) as (_ & H & _).
  split; [vm_compute; reflexivity|]. exists (plain_item "a"), "/w", (mkClaim 0 "a").
  split; [vm_compute; reflexivity|].
  destruct (H (plain_item "a") "/w" (mkClaim 0 "a")) as [_ [Ho|[Hn _]]]; [vm_compute; reflexivity..|exact Ho|].
  inversion Hn.
Defined.

(** ** The head in flight *)

Definition head_id (r : Runtime) (sid : string) : option string := id <$> head_of r sid.

Lemma inFlight_outside foreign r r' : outside_core r r' -> forall s, inFlightIdOf foreign r' s = inFlightIdOf foreign r s.
Proof.
  intros [Hc _] s. unfold core in Hc. injection Hc as E1 E2 E3 E4 E5 E6. unfold inFlightIdOf. by rewrite E1, E4.
Qed.

(** The head item id of a queue in the store. *)
Definition store_head (s : Store) (sid : string) : option string := e ← entryOf s sid; id <$> head (items e).

Lemma head_id_store r sid : head_id r sid = store_head (store r) sid.
Proof. unfold head_id, head_of, store_head. by destruct (entryOf (store r) sid). Qed.

Lemma store_head_commit s sid : store_head (commit s).1 sid = store_head s sid.
Proof.
  unfold store_head, entryOf, commit. cbn [fst].
  destruct (scheduleWrite_same (mkStore (sessions s) (revision s + 1) (writesDisabled s) (pendingWrites s) (file s) (quarantined s))) as [-> _].
  done.
Qed.

Lemma store_head_set s sid sid' e l :
  store_head (set_items s sid e l) sid' = if decide (sid' = sid) then id <$> head l else store_head s sid'.
Proof.
  unfold store_head, entryOf, set_items. cbn [sessions with_sessions]. destruct (decide (sid' = sid)) as [->|Hne].
  - by rewrite jget_set_eq.
  - by rewrite jget_set_ne.
Qed.

Section pinned.
  Context (inF : string -> option string) (sid i : string) (pinned : inF sid = Some i).

Lemma enqueue_head s sid' dir item s' rev :
  store_head s sid = Some i -> enqueue s sid' dir item inF = Some (s', rev) -> store_head s' sid = Some i.
Proof.
  intros Hh. unfold enqueue. destruct (trim_loop _ _ _ _) as [l|] eqn:Et; [|done]. intros [= <- <-].
  change (store_head (commit (evictOldestSessions (with_sessions s (jset sid' (mkEntry dir l) (sessions s))) inF sid')).1 sid = Some i).
  rewrite store_head_commit. unfold store_head, entryOf, evictOldestSessions. cbn [sessions with_sessions].
  rewrite evict_loop_keeps by (right; congruence). destruct (decide (sid' = sid)) as [->|Hne].
  2:{ rewrite jget_set_ne by done. exact Hh. }
  rewrite jget_set_eq. cbn. unfold store_head in Hh. destruct (entryOf s sid) as [e|]; [|done]. cbn in Hh.
  destruct (items e) as [|x k]; [done|]. cbn in Hh. injection Hh as Hx.
  assert (Some (id x) = inF sid) as Hp by congruence.
  rewrite (trim_loop_head _ x (k ++ [item]) 0 _ _ Hp Et). cbn. by rewrite Hx.
Qed.

Lemma remove_first_head j x l y r : id x <> j -> remove_first j (x :: l) = Some (y, r) -> head r = Some x.
Proof.
  intros Hj. cbn. rewrite bool_decide_false by done. destruct (remove_first j l) as [[z k]|]; [|done].
  by intros [= <- <-].
Qed.

Lemma removeItem_head s sid' j :
  store_head s sid = Some i -> (sid' = sid -> j <> i) -> store_head (removeItem s sid' j).1 sid = Some i.
Proof.
  intros Hh Hj. unfold removeItem. destruct (entryOf s sid') as [e|] eqn:Ee; [|done].
  destruct (remove_first j (items e)) as [[y r]|] eqn:Er; [|done]. cbn [fst]. rewrite store_head_set. case_decide as Hs; [|done].
  subst sid'. unfold store_head in Hh. rewrite Ee in Hh. cbn in Hh. destruct (items e) as [|x l]; [done|].
  injection Hh as <-. rewrite (remove_first_head j x l y r); [done| |done]. intros Hx. by apply Hj.
Qed.

Lemma takeAllExcept_head s sid' :
  store_head s sid = Some i -> store_head (takeAllExcept s sid' (inF sid')).1 sid = Some i.
Proof.
  intros Hh. unfold takeAllExcept. destruct (entryOf s sid') as [e|] eqn:Ee; [|done]. cbn [fst].
  rewrite store_head_set. case_decide as Hs; [|done]. subst sid'. rewrite pinned. unfold store_head in Hh. rewrite Ee in Hh.
  cbn in Hh. destruct (items e) as [|x l]; [done|]. cbn in Hh. cbn [List.filter]. unfold is_kept at 1.
  rewrite bool_decide_true; [done|]. by rewrite Hh.
Qed.

Lemma reorder_head s sid' itemIds s' :
  store_head s sid = Some i -> reorder s sid' itemIds (inF sid') = (s', Applied) -> store_head s' sid = Some i.
Proof.
  intros Hh. unfold reorder. destruct (entryOf s sid') as [e|] eqn:Ee; [|done].
  destruct (negb (_ =? _)); [done|]. destruct (negb (bool_decide (NoDup itemIds))); [done|].
  destruct (negb (forallb _ itemIds)); [done|]. intros H. destruct (decide (sid = sid')) as [<-|Hne].
  2:{ destruct (match inF sid' with Some _ => _ | None => _ end); [done|]. injection H as <-.
      by rewrite store_head_set, decide_False. }
  rewrite pinned in H. destruct (negb _) eqn:Hp; [done|]. injection H as <-. rewrite store_head_set, decide_True by done.
  apply negb_false_iff, bool_decide_eq_true_1 in Hp.
  destruct itemIds as [|j ids]; [done|]. injection Hp as ->. unfold store_head in Hh. rewrite Ee in Hh. cbn in Hh.
  destruct (by_id_has (items e) i) as [x Hx].
  { destruct (items e) as [|y l]; [done|]. cbn in Hh. injection Hh as <-. rewrite fmap_cons. by left. }
  cbn. rewrite Hx. cbn. by destruct (by_id_get _ _ _ Hx) as [-> _].
Qed.

End pinned.

(** Nothing a user asks for moves the message being sent: while the head of a
    session is in flight (sent by this process, or claimed by any), any sequence
    of enqueues, takes, deletions, clears and reorders, on any sessions, leaves
    it in flight and at the head of its queue. *)
Theorem in_flight_head_stays (timing : QueueTiming) (foreign : string -> option string) (now : Z)
    (r : Runtime) (ops : list UserOp) (sid i : string) :
  inFlightIdOf foreign r sid = Some i -> head_id r sid = Some i ->
  let r' := fold_left (run_user timing foreign now) ops r in
  inFlightIdOf foreign r' sid = Some i /\ head_id r' sid = Some i.
Proof.
  cbn zeta. revert r. induction ops as [|op ops IH]; intros r Hf Hh; [done|]. cbn [fold_left]. apply IH.
  { rewrite (inFlight_outside foreign r); [done|]. apply outside_user. }
  rewrite head_id_store in *. clear IH ops. pose proof (removeItem_head _ sid i Hf (store r)) as Hrem.
  destruct op as [sid' dir item|sid' j|sid'|sid' j|sid'|sid' l]; cbn [run_user].
  - unfold enqueueItem. destruct item as [item|]; [|done]. destruct (findItem _ _ _) as [p|]; [by destruct (sameQueuePayload _ _)|].
    destruct (enqueue _ _ _ _ _) as [[s rev]|] eqn:Ee; [|done]. exact (enqueue_head _ sid i Hf _ _ _ _ _ _ Hh Ee).
  - unfold takeItem. case_bool_decide as Hj; [done|].
    specialize (Hrem sid' j Hh ltac:(intros ->; congruence)). destruct (removeItem (store r) sid' j) as [s [y|]], (directoryOf (store r) sid');
      cbn [fst] in *; try done. exact (eq_trans (store_head_commit s sid) Hrem).
  - pose proof (takeAllExcept_head _ sid i Hf (store r) sid' Hh) as Ht. unfold takeAllItems.
    destruct (directoryOf (store r) sid'); [|done]. destruct (takeAllExcept _ _ _) as [st [|y l]]; cbn [fst] in *; [done|].
    exact (eq_trans (store_head_commit st sid) Ht).
  - unfold deleteItem. case_bool_decide as Hj; [done|].
    specialize (Hrem sid' j Hh ltac:(intros ->; congruence)). destruct (removeItem (store r) sid' j) as [s [y|]], (directoryOf (store r) sid');
      cbn [fst] in *; try done. exact (eq_trans (store_head_commit s sid) Hrem).
  - pose proof (takeAllExcept_head _ sid i Hf (store r) sid' Hh) as Ht. unfold deleteSessionQueue, takeAllItems.
    destruct (directoryOf (store r) sid'); [|done]. destruct (takeAllExcept _ _ _) as [st [|y l]]; cbn [fst] in *; [done|].
    exact (eq_trans (store_head_commit st sid) Ht).
  - unfold reorderItems. destruct (entryOf (store r) sid') as [e|]; [|done]. case_match; [done|].
    destruct (reorder _ _ _ _) as [s []] eqn:Er; try done.
    exact (eq_trans (store_head_commit s sid) (reorder_head _ sid i Hf _ _ _ _ Hh Er)).
Qed.

Lemma in_flight_head_stays_witness :
  let r := sending_run 0 in
  let ops := [UTakeAll "s1"; UDelete "s1" "a"; UReorder "s1" ["b"; "a"]; UClear "s1"; UEnqueue "s1" "/w" (Ok (plain_item "c"))] in
  let r' := fold_left (run_user QUEUE_TIMING (fun _ => None) 530) ops r in
  inFlightIdOf (fun _ => None) r' "s1" = Some "a" /\ head_id r' "s1" = Some "a".
Proof.
  intros r ops r'. apply (in_flight_head_stays QUEUE_TIMING (fun _ => None) 530 r ops "s1" "a"); vm_compute; reflexivity.
Defined.

Lemma find_item_last l x : NoDup (id <$> l) -> x ∈ l -> find_item (id x) l = Some x.
Proof.
  unfold find_item. induction l as [|y l IH]; [by intros _ ?%elem_of_nil|]. rewrite fmap_cons, NoDup_cons.
  intros [Hy Hn] [->|Hx]%elem_of_cons; cbn; [by rewrite bool_decide_true|].
  rewrite bool_decide_false; [by apply IH|]. intros E. apply Hy. rewrite E. by apply list_elem_of_fmap_2.
Qed.

Lemma NoDup_ids_sublist (l' l : list QueueItem) : l' `sublist_of` l -> NoDup (id <$> l) -> NoDup (id <$> l').
Proof.
  induction 1 as [|x l1 l2 Hs IH|x l1 l2 Hs IH]; [done| |]; rewrite ?fmap_cons, ?NoDup_cons; intros [Hx Hn].
  - split; [|by apply IH]. intros Hin. apply Hx. apply list_elem_of_fmap in Hin as (y & -> & Hy).
    apply list_elem_of_fmap_2. by eapply sublist_subseteq.
  - by apply IH.
Qed.

(** An enqueue retried after a lost answer is recognised: once an item has been
    added, a request with the same id and payload changes nothing and answers the
    same revision as a duplicate, and one with another payload is refused as a
    conflict, also changing nothing. *)
Theorem retried_enqueue_is_idempotent (timing : QueueTiming) (foreign : string -> option string)
    (r r1 : Runtime) (sid dir : string) (item : QueueItem) (rev now : Z) :
  NoDup (id <$> match entryOf (store r) sid with Some e => items e | None => [] end) ->
  enqueueItem timing foreign r sid dir (Ok item) now = (r1, Enqueued rev (id item) false) ->
  findItem (store r1) sid (id item) = Some item
  /\ forall dir' item' now', id item' = id item ->
       enqueueItem timing foreign r1 sid dir' (Ok item') now'
       = (r1, if sameQueuePayload item item' then Enqueued rev (id item) true else EnqueueRefused Conflict).
Proof.
  intros Hn H. set (old := match entryOf (store r) sid with Some e => items e | None => [] end) in *.
  unfold enqueueItem in H. destruct (findItem (store r) sid (id item)) as [p|] eqn:Ef.
  { by destruct (sameQueuePayload p item). }
  assert (NoDup (id <$> old ++ [item])) as Hn'.
  { rewrite fmap_app, NoDup_app. split_and!; [done| |apply NoDup_singleton]. intros x Hx Hi.
    apply list_elem_of_singleton in Hi as ->. apply list_elem_of_fmap in Hx as (y & Hy & Hin). unfold findItem in Ef.
    unfold old in Hin, Hn. destruct (entryOf (store r) sid) as [e|]; [|by apply elem_of_nil in Hin]. cbn in Ef.
    rewrite Hy, (find_item_last _ y Hn Hin) in Ef. done. }
  destruct (enqueue_entry (store r) sid dir item (inFlightIdOf foreign r) old eq_refl Hn') as (_ & Hi & s' & H1 & H2 & H3 & H4).
  rewrite H1 in H. injection H as <- <-.
  set (r1 := on_timers _ _). change (store r1) with s'.
  assert (findItem s' sid (id item) = Some item) as Hf.
  { unfold findItem. rewrite H4. cbn. apply find_item_last; [|done].
    eapply NoDup_ids_sublist; [apply drop_unpinned_sublist|exact Hn']. }
  split; [done|]. intros dir' item' now' Hid. unfold enqueueItem. change (store r1) with s'. rewrite Hid, Hf, H2.
  by destruct (sameQueuePayload item item').
Qed.

Lemma retried_enqueue_is_idempotent_witness :
  let r := newRuntime full_store in
  let enq := enqueueItem QUEUE_TIMING (fun _ => None) in
  (enq (enq r "s1" "/w" (Ok (plain_item "new")) 5%Z).1 "s1" "/w" (Ok (plain_item "new")) 9%Z).2 = Enqueued 8 "new" true.
Proof.
  intros r enq. set (r1 := (enq r "s1" "/w" (Ok (plain_item "new")) 5%Z).1).
  destruct (retried_enqueue_is_idempotent QUEUE_TIMING (fun _ => None) r r1 "s1" "/w" (plain_item "new") 8 5) as [_ H].
  - apply (bool_decide_eq_true_1 _). vm_compute. reflexivity.
  - vm_compute. reflexivity.
  - unfold enq. rewrite (H "/w" (plain_item "new") 9%Z eq_refl). vm_compute. reflexivity.
Defined.

(** ** Retrying a rejected head *)

(** Arming keeps the earlier deadline. *)
Lemma arm_earliest t sid d now :
  exists a, jget sid (arms (arm t sid d now)) = Some a /\ (a <= now + Z.max 0 d)%Z
    /\ (forall a0, jget sid (arms t) = Some a0 -> a = Z.min a0 (now + Z.max 0 d))
    /\ backoffs (arm t sid d now) = backoffs t.
Proof.
  unfold arm. destruct (jget sid (arms t)) as [a0|] eqn:E; [case_bool_decide|]; eexists; cbn;
    rewrite ?jget_set_eq; (split_and!; [done|lia| |done]); intros ? [= <-]; lia.
Qed.

Lemma failureDelayMs_nonneg n t : (0 <= backoffBaseMs t)%Z -> (0 <= backoffMaxMs t)%Z -> (0 <= failureDelayMs n t)%Z.
Proof. intros H1 H2. unfold failureDelayMs. apply Z.min_glb; [|done]. apply Z.mul_nonneg_nonneg; [done|]. apply Z.pow_nonneg. lia. Qed.

(** The retry delay starts at the base, doubles with every further failure until
    it reaches the cap, and never leaves the range between them; thirty-two
    failures and more count the same. *)
Theorem failure_delay_doubles_to_the_cap (t : QueueTiming) (n : Z) :
  (0 < backoffBaseMs t <= backoffMaxMs t)%Z -> (1 <= n)%Z ->
  failureDelayMs 1 t = backoffBaseMs t
  /\ (backoffBaseMs t <= failureDelayMs n t <= backoffMaxMs t)%Z
  /\ failureDelayMs (n + 1) t
     = (if (n <? 32)%Z then Z.min (2 * failureDelayMs n t) (backoffMaxMs t) else failureDelayMs n t).
Proof.
  intros Hb Hn. unfold failureDelayMs.
  assert (forall m, (1 <= m)%Z -> Z.max 0 (Z.min m 32 - 1) = (Z.min m 32 - 1)%Z) as Hm by lia.
  rewrite (Hm 1%Z), (Hm n), (Hm (n + 1)%Z) by lia. split_and!.
  - change (Z.min 1 32 - 1)%Z with 0%Z. rewrite Z.pow_0_r. lia.
  - pose proof (Z.pow_pos_nonneg 2 (Z.min n 32 - 1) ltac:(lia) ltac:(lia)). nia.
  - lia.
  - destruct (n <? 32)%Z eqn:E; [apply Z.ltb_lt in E|apply Z.ltb_ge in E].
    + replace (Z.min (n + 1) 32 - 1)%Z with (Z.succ (Z.min n 32 - 1)) by lia. rewrite Z.pow_succ_r by lia. lia.
    + by replace (Z.min (n + 1) 32) with (Z.min n 32) by lia.
Qed.

Lemma failure_delay_doubles_to_the_cap_witness :
  failureDelayMs 1 QUEUE_TIMING = 2000%Z
  /\ failureDelayMs (3 + 1) QUEUE_TIMING = Z.min (2 * failureDelayMs 3 QUEUE_TIMING) 60000.
Proof.
  destruct (failure_delay_doubles_to_the_cap QUEUE_TIMING 3) as (H1 & _ & H3); [cbn; lia|lia|].
  split; [exact H1|exact H3].
Defined.

Lemma flush_sessions n s ok : sessions (flush n s ok) = sessions s.
Proof. revert s. induction n as [|n IH]; intros s; [done|]. cbn. rewrite IH. unfold writeNow. by destruct (pendingWrites s). Qed.

(** The queue as the lock's holder sees it. *)
Definition refreshed (r : Runtime) : Runtime := with_store r (refreshPreservingEmpty (store r)).1.

(** A rejected message is retried, but not early: if the head is rejected while
    still queued, the failure is counted, its claim is kept, a timer is set no
    later than the end of the back-off, and until then no tick of the session
    starts another attempt, whatever else it finds. *)
Theorem rejected_head_waits_out_its_backoff (timing : QueueTiming) (r : Runtime) (sid dir : string)
    (hd : QueueItem) (c : Claim) (ok : bool) (now : Z) :
  (0 <= backoffBaseMs timing)%Z -> (0 <= backoffMaxMs timing)%Z -> jwf (phases r) ->
  jget sid (phases r) = Some (Delivering hd dir c) -> stopped r = false ->
  head_id (refreshed r) sid = Some (id hd) ->
  let failures := match jget sid (backoffs (timers r)) with
                  | Some b => if bool_decide (bo_itemId b = id hd) then (bo_failures b + 1)%Z else 1%Z
                  | None => 1%Z
                  end in
  let due := (now + failureDelayMs failures timing)%Z in
  let r' := settled timing r sid Rejected ok now in
  jget sid (backoffs (timers r')) = Some (mkBackoff (id hd) failures due)
  /\ localClaims r' = localClaims r /\ ownClaims r' = ownClaims r
  /\ head_id r' sid = Some (id hd)
  /\ (exists a, jget sid (arms (timers r')) = Some a /\ (a <= due)%Z)
  /\ forall t, (t < due)%Z ->
       phases (tick timing r' sid t) = phases r' /\ rt_log (tick timing r' sid t) = rt_log r'.
Proof.
  intros Hb Hm Hw Hp Hst Hh failures due r'. pose proof (failureDelayMs_nonneg failures timing Hb Hm) as Hd.
  set (r1 := onRejected timing (refreshed r) sid hd dir now).
  set (r2 := with_store r1 (flush (pendingWrites (store r1)) (store r1) ok)).
  assert (r' = finish_dispatch r2 sid None) as Hr.
  { unfold r', settled. rewrite Hp, Hst. unfold withSharedQueue. fold (refreshed r). unfold head_id in Hh.
    by rewrite bool_decide_true. }
  set (t1 := set_backoff (timers r) sid (mkBackoff (id hd) failures due)).
  assert (timers r' = arm t1 sid (failureDelayMs failures timing) now) as Ht by by rewrite Hr.
  destruct (arm_earliest t1 sid (failureDelayMs failures timing) now) as (a & Ha & Hle & _ & Hbo).
  rewrite <- Ht in Ha, Hbo.
  assert (sessions (store r') = sessions (store (refreshed r))) as Hs by (rewrite Hr; apply flush_sessions).
  assert (jget sid (backoffs (timers r')) = Some (mkBackoff (id hd) failures due)) as Hbk by (rewrite Hbo; apply jget_set_eq).
  assert (head_id r' sid = Some (id hd)) as Hh'.
  { rewrite <- Hh, !head_id_store. unfold store_head, entryOf. by rewrite Hs. }
  split_and!; [done|by rewrite Hr|by rewrite Hr|done|exists a; split; [done|unfold due; lia]|].
  intros t Hlt. clearbody r'. clear Hr Hs Ht. unfold tick. destruct (stopped r' || _); [done|].
  unfold head_id, head_of in Hh'. destruct (entryOf (store r') sid) as [e|]; [|done].
  cbn in Hh'. destruct (items e) as [|x l]; [done|]. injection Hh' as Hx.
  destruct (jhas sid (sending r')); [done|].
  assert (forall t2, backoffs t2 = backoffs (timers r') -> jget sid (backoffs (del_abort t2 sid)) = Some (mkBackoff (id hd) failures due)) as Hb2.
  { intros t2 E. cbn. by rewrite E. }
  destruct (heldExpiryOf (timers r') sid t) as [t2 h] eqn:Eh.
  assert (backoffs t2 = backoffs (timers r')) as E2.
  { unfold heldExpiryOf in Eh. destruct (jget sid (holds (timers r'))); [case_bool_decide|]; by simplify_eq. }
  destruct h as [h|]; [done|].
  destruct (match jget sid (aborts t2) with Some _ => _ | None => _ end) as [w|]; [done|].
  rewrite (Hb2 t2 E2). cbn [bo_itemId bo_nextAttemptAt]. rewrite Hx, !bool_decide_true by done. done.
Qed.

Lemma rejected_head_waits_out_its_backoff_witness :
  let r' := settled QUEUE_TIMING (sending_run 0) "s1" Rejected true 600 in
  jget "s1" (backoffs (timers r')) = Some (mkBackoff "a" 1 2600)
  /\ forall t, (t < 2600)%Z -> rt_log (tick QUEUE_TIMING r' "s1" t) = rt_log r'.
Proof.
  destruct (rejected_head_waits_out_its_backoff QUEUE_TIMING (sending_run 0) "s1" "/w" (plain_item "a")
    (mkClaim 0 "a") true 600) as (H1 & _ & _ & _ & _ & H).
  - vm_compute. discriminate.
  - vm_compute. discriminate.
  - apply (bool_decide_eq_true_1 _). vm_compute. reflexivity.
  - vm_compute. reflexivity.
  - vm_compute. reflexivity.
  - vm_compute. reflexivity.
  - split; [exact H1|]. intros t Ht. apply H. exact Ht.
Defined.
