(* ===== verification/SchedNext.v ===== *)
(** Next-run computation (server/scheduled/next-run.ts): the instant of a schedule's next
    occurrence in its time zone.

    The platform's Intl and the cron parser are the interface [Clocks]: which zones
    there are, the wall-clock parts an instant formats to, and the times a cron
    expression iterates over. Everything the module does with them is a definition. *)

From S2P Require Import Prelude JsString JsMap JsSort JsDate.

Local Open Scope Z_scope.

Definition TASK_DUE_SLACK_MS : Z := 5000.
Definition TASK_CANDIDATE_DAYS : nat := 14.
Definition TASK_CRON_MAX : nat := 200.

(** A typed schedule (task-schema.ts). *)
Inductive Schedule :=
| Daily (times : list string) (timezone : string)
| Weekly (times : list string) (weekdays : list Z) (timezone : string)
| Once (date time : string) (timezone : string)
| Cron (cron : string) (timezone : string).

Definition timezone_of (s : Schedule) : string :=
  match s with Daily _ z | Weekly _ _ z | Once _ _ z | Cron _ z => z end.

Record WallClock := { wy : Z; wmo : Z; wd : Z; wh : Z; wmi : Z; weekday : Z }.

(** A wall time to find. *)
Record Target := { ty : Z; tmo : Z; td : Z; th : Z; tmi : Z }.

#[global] Instance Target_eq_dec : EqDecision Target.
Proof. solve_decision. Defined.

Class Clocks := {
  (** [new Intl.DateTimeFormat('en-GB', { timeZone })] does not throw. *)
  isValidZone : string -> bool;
  (** [formatToParts] of an instant in a valid zone: year, month, day, hour, minute, weekday. *)
  formatToParts : string -> Z -> list (string * string);
  (** The iterator of an expression from an instant in a zone; [None] is a throw. *)
  cronIterate : string -> string -> Z -> option (nat -> option Z);
}.

(** ** Text shapes *)

Definition nth_digit (s : string) (i : nat) : Z := match sdrop i s with String a _ => digit_value a | "" => -1 end.
Definition nth_is (s : string) (i : nat) (c : ascii) : bool := match sdrop i s with String a _ => Ascii.eqb a c | "" => false end.

(** [/^([01][0-9]|2[0-3]):[0-5][0-9]$/] *)
Definition HH_MM (s : string) : bool :=
  bool_decide (String.length s = 5%nat) &&
  let h1 := nth_digit s 0 in let h2 := nth_digit s 1 in let m1 := nth_digit s 3 in let m2 := nth_digit s 4 in
  bool_decide (0 <= h1 <= 1 /\ 0 <= h2 <= 9 \/ h1 = 2 /\ 0 <= h2 <= 3) && nth_is s 2 ":" && bool_decide (0 <= m1 <= 5 /\ 0 <= m2 <= 9).

(** [/^\d{4}-(0[1-9]|1[0-2])-(0[1-9]|[12][0-9]|3[01])$/] *)
Definition ISO_DATE (s : string) : bool :=
  bool_decide (String.length s = 10%nat) && sall is_decimal (stake 4 s) && nth_is s 4 "-" && nth_is s 7 "-" &&
  let o1 := nth_digit s 5 in let o2 := nth_digit s 6 in let d1 := nth_digit s 8 in let d2 := nth_digit s 9 in
  bool_decide (o1 = 0 /\ 1 <= o2 <= 9 \/ o1 = 1 /\ 0 <= o2 <= 2) &&
  bool_decide (d1 = 0 /\ 1 <= d2 <= 9 \/ 1 <= d1 <= 2 /\ 0 <= d2 <= 9 \/ d1 = 3 /\ 0 <= d2 <= 1).

Definition WEEKDAYS : list string := ["sun"; "mon"; "tue"; "wed"; "thu"; "fri"; "sat"].

(** [Number] of a text of digits. *)
Definition number (s : string) : Z := digits_value 0 s.

(** [list.indexOf(x)] *)
Fixpoint index_in (x : string) (l : list string) : Z :=
  match l with
  | [] => -1
  | y :: l => if bool_decide (x = y) then 0 else let i := index_in x l in if bool_decide (i = -1) then -1 else i + 1
  end.

Definition nth_number (l : list string) (i : nat) : Z := match l !! i with Some p => number p | None => 0 end.

Definition hhmm (time : string) : Z * Z := let p := split_on ":" time in (nth_number p 0, nth_number p 1).

Definition parseOnceSlot (date time : string) : option Target :=
  if negb (ISO_DATE date) || negb (HH_MM time) then None
  else let p := split_on "-" date in
       Some {| ty := nth_number p 0; tmo := nth_number p 1; td := nth_number p 2; th := (hhmm time).1; tmi := (hhmm time).2 |}.

(** [[...new Set(l)]] *)
Fixpoint unique {A} `{EqDecision A} (seen l : list A) : list A :=
  match l with
  | [] => []
  | x :: l => if bool_decide (x ∈ seen) then unique seen l else x :: unique (x :: seen) l
  end.

Definition minuteSet (times : list string) : list string := js_sort sle (unique [] (filter (fun t => HH_MM t = true) times)).

Definition weekdaySet (days : list Z) : list Z := js_sort Z.leb (filter (fun d => 0 <= d <= 6) (unique [] days)).

Section next_run.
  Context {C : Clocks}.

(** ** Wall clocks *)

Definition parts (epochMs : Z) (zone : string) : WallClock :=
  let table := formatToParts zone epochMs in
  let read k := number (default "" (jget k table)) in
  {| wy := read "year"; wmo := read "month"; wd := read "day"; wh := read "hour"; wmi := read "minute";
     weekday := index_in (toLowerCase (stake 3 (default "undefined" (jget "weekday" table)))) WEEKDAYS |}.

(** How far the wall clock is ahead of UTC at an instant. *)
Definition offsetMs (epochMs : Z) (zone : string) : Z :=
  let w := parts epochMs zone in date_utc (wy w) (wmo w - 1) (wd w) (wh w) (wmi w) - epochMs.

Definition matches (target : Target) (zone : string) (epoch : Z) : bool :=
  let w := parts epoch zone in
  bool_decide (wy w = ty target) && bool_decide (wmo w = tmo target) && bool_decide (wd w = td target)
  && bool_decide (wh w = th target) && bool_decide (wmi w = tmi target).

(** Steps back a minute as long as the wall clock is still the target. *)
Fixpoint step_back (steps : nat) (target : Target) (zone : string) (first : Z) : Z :=
  match steps with
  | O => first
  | S steps => if matches target zone (first - 60000) then step_back steps target zone (first - 60000) else first
  end.

(** The two passes that correct the offset. *)
Definition fix_offset (base : Z) (zone : string) : Z :=
  let best := base - offsetMs base zone in base - offsetMs best zone.

Definition base_of (target : Target) : Z := date_utc (ty target) (tmo target - 1) (td target) (th target) (tmi target).

Definition epochOfWall (target : Target) (zone : string) : option Z :=
  let best := fix_offset (base_of target) zone in
  if negb (matches target zone best) then None else Some (step_back 120 target zone best).

(** ** Candidates *)

Definition target_of (stamp : Z) (time : string) : Target :=
  {| ty := getUTCFullYear stamp; tmo := getUTCMonth stamp + 1; td := getUTCDate stamp; th := (hhmm time).1; tmi := (hhmm time).2 |}.

(** The first time of a day that is due late enough. *)
Fixpoint first_time (times : list string) (zone : string) (now stamp : Z) : option Z :=
  match times with
  | [] => None
  | time :: times =>
    match epochOfWall (target_of stamp time) zone with
    | Some instant => if bool_decide (now + TASK_DUE_SLACK_MS < instant) then Some instant else first_time times zone now stamp
    | None => first_time times zone now stamp
    end
  end.

Definition on_day (weekdays : option (list Z)) (stamp : Z) : bool :=
  match weekdays with None => true | Some l => bool_decide (getUTCDay stamp ∈ l) end.

Fixpoint walk_days (days : nat) (times : list string) (weekdays : option (list Z)) (zone : string) (now stamp : Z) : option Z :=
  match days with
  | O => None
  | S days =>
    match (if on_day weekdays stamp then first_time times zone now stamp else None) with
    | Some instant => Some instant
    | None => walk_days days times weekdays zone now (stamp + 86400000)
    end
  end.

(** UTC noon of the calendar day it is in the zone. *)
Definition noon_of (now : Z) (zone : string) : Z :=
  let start := parts now zone in date_utc (wy start) (wmo start - 1) (wd start) 12 0.

Definition nextCandidate (times : list string) (weekdays : option (list Z)) (zone : string) (now : Z) : option Z :=
  walk_days (S TASK_CANDIDATE_DAYS) times weekdays zone now (noon_of now zone).

(** Up to eight further times while they are not late enough; [None] is a throw. *)
Fixpoint cron_walk (guard : nat) (it : nat -> option Z) (n : nat) (now next : Z) : option Z :=
  match guard with
  | O => Some next
  | S guard =>
    if bool_decide (next <= now + TASK_DUE_SLACK_MS) then
      match it (S n) with Some next => cron_walk guard it (S n) now next | None => None end
    else Some next
  end.

Definition cronNextAt (expression zone : string) (now : Z) : option Z :=
  if bool_decide (expression = "") || (TASK_CRON_MAX <? String.length expression)%nat || negb (isValidZone zone) then None
  else match cronIterate expression zone now with
       | None => None
       | Some it =>
         match it 0%nat with
         | None => None
         | Some next =>
           match cron_walk 8 it 0 now next with
           | Some next => if bool_decide (now + TASK_DUE_SLACK_MS < next) then Some next else None
           | None => None
           end
         end
       end.

Definition computeNextRunAt (schedule : option Schedule) (enabled : bool) (now : Z) : option Z :=
  match schedule with
  | None => None
  | Some s =>
    if negb enabled || negb (isValidZone (timezone_of s)) then None
    else match s with
         | Daily times zone =>
           let times := minuteSet times in
           if bool_decide (times = []) then None else nextCandidate times None zone now
         | Weekly times weekdays zone =>
           let times := minuteSet times in
           let weekdays := weekdaySet weekdays in
           if bool_decide (times = []) || bool_decide (weekdays = []) then None else nextCandidate times (Some weekdays) zone now
         | Once date time zone =>
           match parseOnceSlot date time with
           | None => None
           | Some slot =>
             match epochOfWall slot zone with
             | Some instant => if bool_decide (now + TASK_DUE_SLACK_MS < instant) then Some instant else None
             | None => None
             end
           end
         | Cron cron zone => cronNextAt cron zone now
         end
  end.

(** ** An occurrence is a slot of its schedule *)

(** The [k]th day of the scan. *)
Definition day_stamp (now : Z) (zone : string) (k : nat) : Z := noon_of now zone + Z.of_nat k * 86400000.

(** Instant [t] is a slot: its wall clock in the zone is one the schedule names. *)
Definition slot_of (s : Schedule) (now t : Z) : Prop :=
  match s with
  | Daily times zone => exists k time, (k <= TASK_CANDIDATE_DAYS)%nat /\ time ∈ times /\ HH_MM time = true /\
      matches (target_of (day_stamp now zone k) time) zone t = true
  | Weekly times weekdays zone => exists k time, (k <= TASK_CANDIDATE_DAYS)%nat /\ time ∈ times /\ HH_MM time = true /\
      getUTCDay (day_stamp now zone k) ∈ weekdays /\ matches (target_of (day_stamp now zone k) time) zone t = true
  | Once date time zone => exists slot, parseOnceSlot date time = Some slot /\ matches slot zone t = true
  | Cron cron zone => exists it n, cronIterate cron zone now = Some it /\ (n <= 8)%nat /\ it n = Some t
  end.

Lemma step_back_matches n target zone e : matches target zone e = true -> matches target zone (step_back n target zone e) = true.
Proof. revert e. induction n as [|n IH]; intros e H; [done|]. cbn [step_back]. destruct (matches target zone (e - 60000)) eqn:E; [by apply IH|done]. Qed.

Lemma epochOfWall_matches target zone t : epochOfWall target zone = Some t -> matches target zone t = true.
Proof.
  unfold epochOfWall. cbv zeta. destruct (matches target zone (fix_offset _ _)) eqn:E; [|done]. intros H%(inj Some). subst t. by apply step_back_matches.
Qed.

Lemma first_time_spec times zone now stamp t : first_time times zone now stamp = Some t ->
  now + TASK_DUE_SLACK_MS < t /\ exists time, time ∈ times /\ epochOfWall (target_of stamp time) zone = Some t.
Proof.
  induction times as [|time times IH]; [done|]. cbn [first_time].
  assert (first_time times zone now stamp = Some t -> now + TASK_DUE_SLACK_MS < t /\ exists x, x ∈ time :: times /\ epochOfWall (target_of stamp x) zone = Some t) as Hrest.
  { intros H. destruct (IH H) as (? & x & ? & ?). split; [done|]. exists x. split; [by right|done]. }
  destruct (epochOfWall _ _) as [i|] eqn:E; [|done]. case_bool_decide as Hd; [|done]. intros [= ->]. split; [done|]. exists time. split; [by left|done].
Qed.

Lemma walk_days_spec days times weekdays zone now stamp t : walk_days days times weekdays zone now stamp = Some t ->
  exists k, (k < days)%nat /\ on_day weekdays (stamp + Z.of_nat k * 86400000) = true /\ first_time times zone now (stamp + Z.of_nat k * 86400000) = Some t.
Proof.
  revert stamp. induction days as [|days IH]; intros stamp; [done|]. cbn [walk_days].
  destruct (if on_day weekdays stamp then _ else _) as [i|] eqn:E.
  - intros [= ->]. exists 0%nat. rewrite Z.add_0_r. destruct (on_day weekdays stamp); [|done]. split_and!; [lia|done|done].
  - intros (k & Hk & H1 & H2)%IH. exists (S k). replace (stamp + Z.of_nat (S k) * 86400000) with (stamp + 86400000 + Z.of_nat k * 86400000) by lia.
    split_and!; [lia|done|done].
Qed.

Lemma unique_elem {A} `{EqDecision A} (seen l : list A) x : x ∈ unique seen l <-> x ∈ l /\ x ∉ seen.
Proof.
  revert seen. induction l as [|y l IH]; intros seen; cbn [unique]; [split; [by intros ?%elem_of_nil|by intros [?%elem_of_nil _]]|].
  case_bool_decide as E; [|rewrite elem_of_cons]; rewrite IH, ?not_elem_of_cons, !elem_of_cons; destruct (decide (x = y)); naive_solver.
Qed.

Lemma minuteSet_elem times x : x ∈ minuteSet times <-> x ∈ times /\ HH_MM x = true.
Proof. unfold minuteSet. rewrite js_sort_perm, unique_elem, list_elem_of_filter. pose proof (not_elem_of_nil x). naive_solver. Qed.

Lemma weekdaySet_elem days x : x ∈ weekdaySet days <-> x ∈ days /\ 0 <= x <= 6.
Proof. unfold weekdaySet. rewrite js_sort_perm, list_elem_of_filter, unique_elem. pose proof (not_elem_of_nil x). naive_solver. Qed.

Lemma cron_walk_spec guard it n now next t : it n = Some next -> cron_walk guard it n now next = Some t -> exists k, (n <= k <= n + guard)%nat /\ it k = Some t.
Proof.
  revert n next. induction guard as [|g IH]; intros n next Hn; cbn [cron_walk]; [intros [= <-]; exists n; split; [lia|done]|].
  case_bool_decide; [|intros [= <-]; exists n; split; [lia|done]]. destruct (it (S n)) as [x|] eqn:E; [|done].
  intros (k & Hk & Hi)%IH; [|done]. exists k. split; [lia|done].
Qed.

Lemma cronNextAt_spec cron zone now t : cronNextAt cron zone now = Some t ->
  now + TASK_DUE_SLACK_MS < t /\ exists it n, cronIterate cron zone now = Some it /\ (n <= 8)%nat /\ it n = Some t.
Proof.
  unfold cronNextAt. destruct (_ || _); [done|]. destruct (cronIterate cron zone now) as [it|]; [|done]. destruct (it 0%nat) as [x|] eqn:E0; [|done].
  destruct (cron_walk _ _ _ _ _) as [y|] eqn:Ew; [|done]. case_bool_decide; [|done]. intros [= <-]. split; [done|].
  destruct (cron_walk_spec _ _ _ _ _ _ E0 Ew) as (k & Hk & Hi). exists it, k. split_and!; [done|lia|done].
Qed.

(** A computed occurrence is a slot of the schedule, in time to be armed. Whatever
    the zone's clock does, an answer means that the task is enabled and its zone
    valid, that the instant is later than now by more than the slack, and that its wall
    clock in the zone is a time the schedule names, well formed, on one of the fifteen
    days scanned and, for a weekly schedule, on one of its weekdays; that it is the
    wall time of a one-shot schedule; or that it is one of the first nine times the
    cron expression yields. *)
Theorem next_run_is_a_slot schedule enabled now t :
  computeNextRunAt (Some schedule) enabled now = Some t ->
  enabled = true /\ isValidZone (timezone_of schedule) = true /\ now + TASK_DUE_SLACK_MS < t /\ slot_of schedule now t.
Proof.
  unfold computeNextRunAt. destruct enabled; [|done]. destruct (isValidZone _); [|done]. cbn [negb orb]. intros H. split; [done|]. split; [done|].
  destruct schedule as [times zone|times weekdays zone|date time zone|cron zone]; cbv zeta in H.
  - case_bool_decide; [done|]. apply walk_days_spec in H as (k & Hk & _ & (Hd & x & Hx & He)%first_time_spec). split; [done|].
    apply minuteSet_elem in Hx as [Hx Hf]. exists k, x. split_and!; [lia|done|done|]. by apply epochOfWall_matches.
  - destruct (_ || _); [done|]. apply walk_days_spec in H as (k & Hk & Ho & (Hd & x & Hx & He)%first_time_spec). split; [done|].
    apply minuteSet_elem in Hx as [Hx Hf]. cbn [on_day] in Ho. apply bool_decide_eq_true, weekdaySet_elem in Ho as [Ho _].
    exists k, x. split_and!; [lia|done|done|done|]. by apply epochOfWall_matches.
  - destruct (parseOnceSlot date time) as [slot|] eqn:Ep; [|done]. destruct (epochOfWall slot zone) as [i|] eqn:E; [|done].
    destruct (bool_decide (now + TASK_DUE_SLACK_MS < i)) eqn:Ed; [|done]. apply (inj Some) in H as <-. apply bool_decide_eq_true in Ed. split; [done|]. exists slot. split; [done|]. by apply epochOfWall_matches.
  - apply cronNextAt_spec in H as [Hd H]. by split.
Qed.

End next_run.

(** ** A clock to run with *)

(** The text of an instant under a rule for the offset. *)
Definition clock_parts (off : Z -> Z) (e : Z) : list (string * string) :=
  let x := e + off e in
  [("weekday", nth (Z.to_nat (getUTCDay x)) day_names ""); ("day", digits 2 (getUTCDate x)); ("month", digits 2 (getUTCMonth x + 1));
   ("year", digits 4 (getUTCFullYear x)); ("hour", digits 2 (getUTCHours x)); ("minute", digits 2 (getUTCMinutes x))].

(** Every zone has the same clock; a cron expression yields the full hours. *)
Definition clock_of (off : Z -> Z) : Clocks := {|
  isValidZone zone := negb (bool_decide (zone = ""));
  formatToParts _ e := clock_parts off e;
  cronIterate _ _ now := Some (fun n => Some (now / 3600000 * 3600000 + Z.of_nat (S n) * 3600000));
|}.

(** Summer time two hours ahead of UTC until 2026-10-25 01:00 UTC, then one. *)
Definition berlin (e : Z) : Z := if e <? date_utc 2026 9 25 1 0 then 7200000 else 3600000.

Lemma next_run_is_a_slot_witness :
  let now := date_utc 2026 9 24 8 59 in
  let s := Weekly ["25:00"; "07:30"; "10:59"] [0; 9] "Europe/Berlin" in
  let t := date_utc 2026 9 25 6 30 in
  computeNextRunAt (C := clock_of berlin) (Some s) true now = Some t /\ now + TASK_DUE_SLACK_MS < t /\ slot_of (C := clock_of berlin) s now t.
Proof.
  intros now s t. assert (computeNextRunAt (C := clock_of berlin) (Some s) true now = Some t) as H by (vm_compute; reflexivity).
  split; [exact H|]. destruct (next_run_is_a_slot (C := clock_of berlin) s true now t H) as (_ & _ & Hn & Hs). by split.
Defined.

(** A repeated wall time east of UTC resolves to its second instant: the offsets of the
    two passes are read an hour or two late, past the transition, and the scan for an
    earlier instant stops at its first step. *)
Lemma fall_back_answers_the_second_instant :
  let X := date_utc 2026 9 25 1 0 in
  let s := Daily ["02:30"] "Europe/Berlin" in
  computeNextRunAt (C := clock_of berlin) (Some s) true (X - 10800000) = Some (X + 1800000) /\
  slot_of (C := clock_of berlin) s (X - 10800000) (X - 1800000).
Proof.
  cbv zeta. split; [vm_compute; reflexivity|]. exists 0%nat, "02:30". split_and!; [unfold TASK_CANDIDATE_DAYS; lia|left|vm_compute; reflexivity|vm_compute; reflexivity].
Qed.
