(* ===== verification/SchedZone.v ===== *)
(** Next-run computation against a reference: in a zone whose offset does not change,
    a daily or weekly schedule runs at the earliest of its slots, and there is one.

    A witness zone clock, and the zone whose clock falls back: which of the two
    instants of a repeated wall time [epochOfWall] answers. *)

From S2P Require Import Prelude JsString JsMap JsSort JsDate SchedNext.

Local Open Scope Z_scope.

(** ** Minutes of the calendar *)

Definition msPerMinute : Z := 60000.

Definition fields (x : Z) : WallClock :=
  {| wy := getUTCFullYear x; wmo := getUTCMonth x + 1; wd := getUTCDate x; wh := getUTCHours x; wmi := getUTCMinutes x; weekday := getUTCDay x |}.

Definition minute_start (x : Z) : Z := x - x mod msPerMinute.

Lemma minute_start_id x : (msPerMinute | x) -> minute_start x = x.
Proof. intros [k ->]. unfold minute_start. rewrite Z.mod_mul by done. lia. Qed.

Lemma year_ge x : 0 <= x -> 1970 <= getUTCFullYear x.
Proof.
  intros Hx. unfold getUTCFullYear. pose proof (year_from_day_spec (utc_day x)) as [_ H].
  assert (0 <= utc_day x) by (unfold utc_day, msPerDay; Z.to_euclidean_division_equations; lia).
  destruct (Z.le_gt_cases 1970 (year_from_day (utc_day x))) as [|Hy]; [done|]. exfalso.
  assert (day_from_year (year_from_day (utc_day x) + 1) <= 0) by (unfold day_from_year; Z.to_euclidean_division_equations; lia). lia.
Qed.

(** [Date.UTC] of the fields of a time is the minute they are read in. *)
Lemma date_utc_fields x : 0 <= x ->
  date_utc (getUTCFullYear x) (getUTCMonth x) (getUTCDate x) (getUTCHours x) (getUTCMinutes x) = minute_start x.
Proof.
  intros Hx. unfold date_utc. pose proof (year_ge x Hx). rewrite (proj2 (andb_false_iff _ _)) by lia. rewrite make_day_of.
  unfold minute_start, utc_day, getUTCHours, getUTCMinutes, time_in_day, msPerDay, msPerMinute. Z.to_euclidean_division_equations. lia.
Qed.

Lemma date_utc_day x h mi : 0 <= x -> date_utc (getUTCFullYear x) (getUTCMonth x) (getUTCDate x) h mi = utc_day x * msPerDay + h * 3600000 + mi * 60000.
Proof. intros Hx. unfold date_utc. pose proof (year_ge x Hx). rewrite (proj2 (andb_false_iff _ _)) by lia. by rewrite make_day_of. Qed.

(** The instant of a time of day on a day. *)
Definition at_time (d h mi : Z) : Z := d * msPerDay + h * 3600000 + mi * 60000.

Lemma at_time_parts d h mi : 0 <= h < 24 -> 0 <= mi < 60 ->
  utc_day (at_time d h mi) = d /\ getUTCHours (at_time d h mi) = h /\ getUTCMinutes (at_time d h mi) = mi /\ (msPerMinute | at_time d h mi).
Proof.
  intros Hh Hm. unfold utc_day, getUTCHours, getUTCMinutes, time_in_day, at_time, msPerDay, msPerMinute.
  split_and!; try (Z.to_euclidean_division_equations; lia). exists (d * 1440 + h * 60 + mi). lia.
Qed.

Lemma of_parts x : (msPerMinute | x) -> x = at_time (utc_day x) (getUTCHours x) (getUTCMinutes x).
Proof.
  intros [k ->]. unfold at_time, utc_day, getUTCHours, getUTCMinutes, time_in_day, msPerDay, msPerMinute. Z.to_euclidean_division_equations. lia.
Qed.

Lemma same_day x y : utc_day x = utc_day y -> getUTCFullYear x = getUTCFullYear y /\ getUTCMonth x = getUTCMonth y /\ getUTCDate x = getUTCDate y /\ getUTCDay x = getUTCDay y.
Proof. intros H. unfold getUTCDate, getUTCMonth, day_in_year, getUTCFullYear, getUTCDay. by rewrite !H. Qed.

(** ** Times of day *)

Lemma shape_5 s : String.length s = 5%nat -> exists a b c d e, s = String a (String b (String c (String d (String e "")))).
Proof. destruct s as [|a [|b [|c [|d [|e [|]]]]]]; try done. intros _. by exists a, b, c, d, e. Qed.

Lemma digit_not_colon a : 0 <= digit_value a <= 9 -> Ascii.eqb a ":" = false.
Proof. intros H. apply Ascii.eqb_neq. intros ->. vm_compute in H. naive_solver. Qed.

(** A well-formed time: its characters and its numbers. *)
Lemma HH_MM_shape s : HH_MM s = true -> exists a b d e, s = String a (String b (String ":" (String d (String e "")))) /\
  0 <= digit_value a <= 9 /\ 0 <= digit_value b <= 9 /\ 0 <= digit_value d <= 9 /\ 0 <= digit_value e <= 9 /\
  hhmm s = (10 * digit_value a + digit_value b, 10 * digit_value d + digit_value e) /\
  0 <= 10 * digit_value a + digit_value b < 24 /\ 0 <= 10 * digit_value d + digit_value e < 60.
Proof.
  unfold HH_MM.
  cbv zeta; intros [Hl H]%andb_true_iff; apply bool_decide_eq_true in Hl.
  destruct (shape_5 _ Hl) as (a & b & c & d & e & ->); cbn [nth_digit nth_is sdrop] in H.
  change (nth_digit _ 0) with (digit_value a) in H; change (nth_digit _ 1) with (digit_value b) in H; change (nth_digit _ 3) with (digit_value d) in H; change (nth_digit _ 4) with (digit_value e) in H.
  apply andb_true_iff in H as [[Hh Hc]%andb_true_iff Hm]; apply bool_decide_eq_true in Hh, Hm; change (Ascii.eqb c ":" = true) in Hc; apply Ascii.eqb_eq in Hc as ->.
  exists a, b, d, e; split; [done|]; split_and!; try lia.
  unfold hhmm; cbn [split_on]; rewrite (digit_not_colon a), (digit_not_colon b), (digit_not_colon d), (digit_not_colon e) by lia; change (Ascii.eqb ":" ":") with true; cbv iota; unfold nth_number, number; cbn [lookup list_lookup digits_value]; f_equal; lia.
Qed.

Definition minute_of (time : string) : Z := (hhmm time).1 * 60 + (hhmm time).2.

Lemma hhmm_range time : HH_MM time = true -> 0 <= (hhmm time).1 < 24 /\ 0 <= (hhmm time).2 < 60.
Proof. intros (a & b & d & e & -> & Ha & Hb & Hd & He & Hv & H1 & H2)%HH_MM_shape. rewrite Hv. cbn [fst snd]. lia. Qed.

Lemma compare_digits a b s t : 0 <= digit_value a <= 9 -> 0 <= digit_value b <= 9 ->
  String.compare (String a s) (String b t) = match digit_value a ?= digit_value b with Eq => String.compare s t | c => c end.
Proof.
  intros Ha Hb. cbn [String.compare]. unfold Ascii.compare.
  replace (N_of_ascii a ?= N_of_ascii b)%N with (digit_value a ?= digit_value b); [by destruct (_ ?= _)|].
  unfold digit_value. rewrite <- N2Z.inj_compare. destruct (Z.compare_spec (Z.of_N (N_of_ascii a) - 48) (Z.of_N (N_of_ascii b) - 48)), (Z.compare_spec (Z.of_N (N_of_ascii a)) (Z.of_N (N_of_ascii b))); try done; lia.
Qed.

(** The order of the texts is the order of the times. *)
Lemma sle_minutes s t : HH_MM s = true -> HH_MM t = true -> sle s t = true -> minute_of s <= minute_of t.
Proof.
  intros (a & b & d & e & -> & Ha & Hb & Hd & He & Hv & H1 & H2)%HH_MM_shape (a' & b' & d' & e' & -> & Ha' & Hb' & Hd' & He' & Hv' & H1' & H2')%HH_MM_shape.
  unfold minute_of. rewrite Hv, Hv'. cbn [fst snd]. intros H. apply Z.nlt_ge. intros Hlt. revert H. unfold sle, slt, String.ltb.
  rewrite compare_digits by done. destruct (Z.compare_spec (digit_value a') (digit_value a)) as [Ea|Ea|Ea]; [|done|lia].
  rewrite compare_digits by done. destruct (Z.compare_spec (digit_value b') (digit_value b)) as [Eb|Eb|Eb]; [|done|lia].
  change (String.compare (String ":" (String d' (String e' ""))) (String ":" (String d (String e "")))) with (String.compare (String d' (String e' "")) (String d (String e ""))).
  rewrite compare_digits by done. destruct (Z.compare_spec (digit_value d') (digit_value d)) as [Ed|Ed|Ed]; [|done|lia].
  rewrite compare_digits by done. destruct (Z.compare_spec (digit_value e') (digit_value e)) as [Ee|Ee|Ee]; [lia|done|lia].
Qed.

(** ** A zone of constant offset *)

(** The end of year 9999. *)
Definition last_time : Z := 253402300800000.

Section fixed.
  Context {C : Clocks} (zone : string) (off : Z).

(** The zone is valid and its wall clock is [off] ahead of UTC, a number of minutes
    below a day, from 1970 to 9999. *)
Record fixed_zone : Prop := {
  fixed_valid : isValidZone zone = true;
  fixed_minutes : (msPerMinute | off);
  fixed_small : - msPerDay < off < msPerDay;
  fixed_parts e : 0 <= e + off < last_time -> parts e zone = fields (e + off);
}.

  Context (F : fixed_zone).

(** Times and days the whole computation stays in range of. *)
Definition in_range (w : Z) : Prop := 2 * msPerDay <= w < last_time - 2 * msPerDay.

Lemma offsetMs_fixed e : 0 <= e + off < last_time -> (msPerMinute | e) -> offsetMs e zone = off.
Proof.
  intros He Hd. unfold offsetMs. cbv zeta. rewrite (fixed_parts F e He). cbn [fields wy wmo wd wh wmi].
  replace (getUTCMonth (e + off) + 1 - 1) with (getUTCMonth (e + off)) by lia. rewrite date_utc_fields by lia.
  unfold minute_start. destruct Hd as [k ->], (fixed_minutes F) as [j ->]. rewrite <- Z.mul_add_distr_r, Z.mod_mul by done. lia.
Qed.

Lemma matches_fixed target e : 0 <= e + off < last_time -> matches target zone e = true <->
  getUTCFullYear (e + off) = ty target /\ getUTCMonth (e + off) + 1 = tmo target /\ getUTCDate (e + off) = td target /\ getUTCHours (e + off) = th target /\ getUTCMinutes (e + off) = tmi target.
Proof.
  intros He. unfold matches. cbv zeta. rewrite (fixed_parts F e He). cbn [fields wy wmo wd wh wmi].
  rewrite !andb_true_iff, !bool_decide_eq_true. tauto.
Qed.

Lemma step_back_stays n target e : matches target zone (e - 60000) = false -> step_back n target zone e = e.
Proof. intros H. destruct n; [done|]. cbn [step_back]. by rewrite H. Qed.

(** The only instant with the wall clock of a target is the one [epochOfWall] answers. *)
Lemma epochOfWall_fixed stamp time : HH_MM time = true -> 0 <= stamp ->
  let w := at_time (utc_day stamp) (hhmm time).1 (hhmm time).2 in in_range w ->
  epochOfWall (target_of stamp time) zone = Some (w - off).
Proof.
  intros Hf Hs w Hw. destruct (hhmm_range _ Hf) as [Hh Hm].
  pose proof (fixed_small F) as Ho. pose proof (fixed_minutes F) as Hj. unfold in_range, msPerDay in *.
  destruct (at_time_parts (utc_day stamp) (hhmm time).1 (hhmm time).2 Hh Hm) as (W1 & W2 & W3 & W4). fold w in W1, W2, W3, W4.
  assert (base_of (target_of stamp time) = w) as Eb.
  { unfold base_of, target_of. cbn [ty tmo td th tmi]. replace (getUTCMonth stamp + 1 - 1) with (getUTCMonth stamp) by lia. by rewrite date_utc_day. }
  assert (fix_offset w zone = w - off) as Ef.
  { unfold fix_offset. cbv zeta. rewrite (offsetMs_fixed w) by (done || lia). rewrite offsetMs_fixed; [done|lia|]. by apply Z.divide_sub_r. }
  destruct (same_day w stamp W1) as (D1 & D2 & D3 & _).
  unfold epochOfWall. cbv zeta. rewrite Eb, Ef. rewrite (proj2 (matches_fixed (target_of stamp time) (w - off) ltac:(lia))).
  2: { replace (w - off + off) with w by lia. unfold target_of. cbn [ty tmo td th tmi]. by rewrite D1, D2, D3, W2, W3. }
  cbn [negb]. rewrite step_back_stays; [done|]. apply not_true_is_false. intros E. apply matches_fixed in E; [|lia]. replace (w - off - 60000 + off) with (w - 60000) in E by lia. unfold target_of in E. cbn [ty tmo td th tmi] in E.
  rewrite <- D1, <- D2, <- D3, <- W2, <- W3 in E. destruct E as (E1 & E2 & E3 & E4 & E5).
  assert (getUTCMonth (w - 60000) = getUTCMonth w) as E2' by lia.
  pose proof (date_utc_fields w ltac:(lia)) as U1. pose proof (date_utc_fields (w - 60000) ltac:(lia)) as U2. rewrite E1, E2', E3, E4, E5, U1 in U2.
  rewrite !minute_start_id in U2 by (done || (apply Z.divide_sub_r; [done|by exists 1])). lia.
Qed.

(** ** Scanning days in order *)

(** The instant of a time on a local day. *)
Definition slot_at (d : Z) (time : string) : Z := at_time d (hhmm time).1 (hhmm time).2 - off.

Lemma slot_at_day d time : HH_MM time = true -> d * msPerDay <= slot_at d time + off < (d + 1) * msPerDay.
Proof. intros [Hh Hm]%hhmm_range. unfold slot_at, at_time, msPerDay. lia. Qed.

Definition times_ok (times : list string) : Prop := sorted sle times /\ Forall (fun t => HH_MM t = true) times.

(** The first time late enough on a day is the earliest. *)
Lemma first_time_fixed times now stamp : times_ok times -> 0 <= stamp ->
  2 <= utc_day stamp -> (utc_day stamp + 3) * msPerDay <= last_time ->
  match first_time times zone now stamp with
  | Some t => now + TASK_DUE_SLACK_MS < t /\ (exists time, time ∈ times /\ t = slot_at (utc_day stamp) time) /\
      forall time, time ∈ times -> now + TASK_DUE_SLACK_MS < slot_at (utc_day stamp) time -> t <= slot_at (utc_day stamp) time
  | None => forall time, time ∈ times -> slot_at (utc_day stamp) time <= now + TASK_DUE_SLACK_MS
  end.
Proof.
  intros [Hsort Hf] Hs H2 H3. induction times as [|time times IH]; cbn [first_time]; [by intros ? ?%elem_of_nil|].
  inversion Hsort as [|? ? Hsort' Hle]; subst. apply Forall_cons in Hf as [Hf Hfs]. specialize (IH Hsort' Hfs).
  pose proof (slot_at_day (utc_day stamp) time Hf) as Hd. unfold slot_at in Hd.
  rewrite epochOfWall_fixed; [|done|done|unfold in_range, msPerDay in *; lia]. fold (slot_at (utc_day stamp) time).
  case_bool_decide as Hnow.
  - split; [done|]. split; [exists time; split; [by left|done]|]. intros x [->|Hx]%elem_of_cons Hxn; [lia|].
    rewrite Forall_forall in Hle, Hfs. pose proof (sle_minutes _ _ Hf (Hfs x Hx) (Hle x Hx)) as Hm. unfold slot_at, at_time, minute_of in *. lia.
  - destruct (first_time times zone now stamp) as [t|].
    + destruct IH as (H & (y & Hy & Ht) & Hmin). split; [done|]. split; [exists y; split; [by right|done]|].
      intros x [->|Hx]%elem_of_cons Hxn; [lia|auto].
    + intros x [->|Hx]%elem_of_cons; [lia|auto].
Qed.

(** The days a schedule recurs on. *)
Definition day_ok (weekdays : option (list Z)) (d : Z) : bool := match weekdays with None => true | Some l => bool_decide ((d + 4) mod 7 ∈ l) end.

(** Walking days in order answers the earliest slot of the days walked, and one if a
    day of the walk has a slot late enough. *)
Lemma walk_days_fixed times weekdays now days stamp : times_ok times ->
  2 <= utc_day stamp -> 0 <= stamp -> (utc_day stamp + Z.of_nat days + 3) * msPerDay <= last_time ->
  match walk_days days times weekdays zone now stamp with
  | Some t => now + TASK_DUE_SLACK_MS < t /\ (exists k time, time ∈ times /\ day_ok weekdays (utc_day stamp + Z.of_nat k) = true /\ t = slot_at (utc_day stamp + Z.of_nat k) time) /\
      forall d time, time ∈ times -> day_ok weekdays d = true -> utc_day stamp <= d -> now + TASK_DUE_SLACK_MS < slot_at d time -> t <= slot_at d time
  | None => forall k time, time ∈ times -> day_ok weekdays (utc_day stamp + Z.of_nat k) = true -> (k < days)%nat -> slot_at (utc_day stamp + Z.of_nat k) time <= now + TASK_DUE_SLACK_MS
  end.
Proof.
  intros Ht. revert stamp. induction days as [|days IH]; intros stamp H2 Hs H3; cbn [walk_days]; [intros; lia|].
  change (on_day weekdays stamp) with (day_ok weekdays (utc_day stamp)).
  assert (utc_day (stamp + 86400000) = utc_day stamp + 1) as Ed by (unfold utc_day, msPerDay; Z.to_euclidean_division_equations; lia).
  pose proof (first_time_fixed times now stamp Ht Hs H2 ltac:(unfold msPerDay in *; lia)) as Hfirst.
  assert (forall r : option Z, r = (if day_ok weekdays (utc_day stamp) then first_time times zone now stamp else None) ->
    (exists t, r = Some t /\ day_ok weekdays (utc_day stamp) = true /\ first_time times zone now stamp = Some t) \/
    (r = None /\ forall time, time ∈ times -> day_ok weekdays (utc_day stamp) = true -> slot_at (utc_day stamp) time <= now + TASK_DUE_SLACK_MS)) as Hr.
  { intros r ->. destruct (day_ok _ _) eqn:Eo; [|right; split; [done|congruence]]. destruct (first_time _ _ _ _) as [t|]; [left; by exists t|right; split; [done|auto]]. }
  destruct (Hr _ eq_refl) as [(t & -> & Hok & Et)|[-> Hnone]]; clear Hr.
  - rewrite Et in Hfirst. destruct Hfirst as (Hn & (time & Hti & Hte) & Hmin). split; [done|].
    split; [exists 0%nat, time; rewrite Z.add_0_r; done|]. intros d x Hx Hdo Hle Hxn.
    destruct (Z.eq_dec d (utc_day stamp)) as [->|]; [auto|]. destruct Ht as [_ Hf]. rewrite Forall_forall in Hf.
    pose proof (slot_at_day (utc_day stamp) time (Hf _ Hti)). pose proof (slot_at_day d x (Hf _ Hx)). unfold msPerDay in *. lia.
  - specialize (IH (stamp + 86400000)). rewrite Ed in IH. specialize (IH ltac:(lia) ltac:(lia) ltac:(unfold msPerDay in *; lia)).
    destruct (walk_days _ _ _ _ _ _) as [t|].
    + destruct IH as (Hn & (k & x & Hx & Hdo & Hte) & Hmin). split; [done|].
      split; [exists (S k), x; replace (utc_day stamp + Z.of_nat (S k)) with (utc_day stamp + 1 + Z.of_nat k) by lia; done|].
      intros d y Hy Hdoy Hle Hyn. destruct (Z.eq_dec d (utc_day stamp)) as [->|]; [specialize (Hnone y Hy Hdoy); lia|]. apply Hmin; [done|done|lia|done].
    + intros [|k] x Hx Hdo Hk; [rewrite Z.add_0_r in *; auto|].
      replace (utc_day stamp + Z.of_nat (S k)) with (utc_day stamp + 1 + Z.of_nat k) in * by lia. apply IH; [done|done|lia].
Qed.

(** ** The reference *)

(** The times and days a schedule recurs at. *)
Definition recurs (s : Schedule) : option (list string * option (list Z)) :=
  match s with Daily times _ => Some (times, None) | Weekly times days _ => Some (times, Some days) | Once _ _ _ | Cron _ _ => None end.

(** A slot: a full minute whose local time of day and weekday the schedule names. *)
Definition is_slot (times : list string) (weekdays : option (list Z)) (t : Z) : Prop :=
  (msPerMinute | t + off) /\ (exists time, time ∈ times /\ HH_MM time = true /\ hhmm time = (getUTCHours (t + off), getUTCMinutes (t + off))) /\
  match weekdays with None => True | Some l => getUTCDay (t + off) ∈ l end.

Lemma weekday_range d : 0 <= (d + 4) mod 7 <= 6.
Proof. pose proof (Z.mod_pos_bound (d + 4) 7). lia. Qed.

Lemma is_slot_at times weekdays t : is_slot times weekdays t <->
  exists d time, time ∈ minuteSet times /\ day_ok (weekdaySet <$> weekdays) d = true /\ t = slot_at d time.
Proof.
  split.
  - intros (Hd & (time & Hx & Hf & Hh) & Hw). exists (utc_day (t + off)), time. split; [by apply minuteSet_elem|]. split.
    + destruct weekdays as [l|]; [|done]. cbn. apply bool_decide_eq_true, weekdaySet_elem. split; [done|apply weekday_range].
    + unfold slot_at. rewrite Hh. cbn [fst snd]. rewrite <- of_parts by done. lia.
  - intros (d & time & [Hx Hf]%minuteSet_elem & Hw & ->). unfold is_slot, slot_at. destruct (hhmm_range _ Hf) as [Hh Hm].
    destruct (at_time_parts d _ _ Hh Hm) as (E1 & E2 & E3 & E4). rewrite Z.sub_add, E2, E3. split; [done|]. split.
    + exists time. split_and!; [done|done|by destruct (hhmm time)].
    + destruct weekdays as [l|]; [|done]. cbn in Hw. apply bool_decide_eq_true, weekdaySet_elem in Hw as [Hw _]. unfold getUTCDay. by rewrite E1.
Qed.

(** Fifteen days hold a slot late enough, whatever weekday is named. *)
Lemma nextCandidate_fixed times weekdays now d0 x : times_ok times -> x ∈ times -> day_ok weekdays d0 = true ->
  2 * msPerDay <= now + off < last_time - 20 * msPerDay ->
  exists t, nextCandidate times weekdays zone now = Some t /\ now + TASK_DUE_SLACK_MS < t /\
    (exists d time, time ∈ times /\ day_ok weekdays d = true /\ t = slot_at d time) /\
    forall d time, time ∈ times -> day_ok weekdays d = true -> now + TASK_DUE_SLACK_MS < slot_at d time -> t <= slot_at d time.
Proof.
  intros Ht Hx Hdo Hnow. set (D := utc_day (now + off)).
  assert (2 <= D /\ D * msPerDay <= now + off < (D + 1) * msPerDay) as [HD1 HD2] by (unfold D, utc_day, msPerDay in *; Z.to_euclidean_division_equations; lia).
  assert (noon_of now zone = at_time D 12 0) as En.
  { unfold noon_of. cbv zeta. rewrite (fixed_parts F) by (unfold msPerDay in *; lia). cbn [fields wy wmo wd].
    replace (getUTCMonth (now + off) + 1 - 1) with (getUTCMonth (now + off)) by lia. rewrite date_utc_day by (unfold msPerDay in *; lia). done. }
  assert (utc_day (at_time D 12 0) = D) as Ed by (apply at_time_parts; lia).
  unfold nextCandidate. rewrite En. pose proof (walk_days_fixed times weekdays now (S TASK_CANDIDATE_DAYS) (at_time D 12 0) Ht) as Hw. rewrite Ed in Hw.
  specialize (Hw HD1 ltac:(unfold at_time, msPerDay; lia) ltac:(unfold TASK_CANDIDATE_DAYS, msPerDay in *; lia)).
  destruct (walk_days _ _ _ _ _ _) as [t|].
  - destruct Hw as (Hn & (k & y & Hy & Hok & Hte) & Hmin). exists t. split; [done|]. split; [done|]. split; [by exists (D + Z.of_nat k), y|].
    intros d z Hz Hdz Hzn. apply Hmin; try done. destruct Ht as [_ Hf]. rewrite Forall_forall in Hf. pose proof (slot_at_day d z (Hf _ Hz)).
    unfold TASK_DUE_SLACK_MS, msPerDay in *. lia.
  - exfalso. set (k := Z.to_nat (2 + (d0 - D - 2) mod 7)). pose proof (Z.mod_pos_bound (d0 - D - 2) 7 ltac:(lia)) as Hb.
    assert ((D + Z.of_nat k + 4) mod 7 = (d0 + 4) mod 7) as Hk by (unfold k; rewrite Z2Nat.id by lia; Z.to_euclidean_division_equations; lia).
    specialize (Hw k x Hx). unfold day_ok in *. rewrite Hk in Hw. specialize (Hw Hdo ltac:(unfold k, TASK_CANDIDATE_DAYS; lia)).
    destruct Ht as [_ Hf]. rewrite Forall_forall in Hf. pose proof (slot_at_day (D + Z.of_nat k) x (Hf _ Hx)).
    assert (2 <= Z.of_nat k) by (unfold k; lia). unfold TASK_DUE_SLACK_MS, msPerDay in *. lia.
Qed.

#[local] Instance text_order : TotalOrder sle := {| le_total := sle_total; le_trans := sle_trans |}.

Lemma minuteSet_ok times : times_ok (minuteSet times).
Proof. split; [exact (js_sort_sorted sle _)|]. apply Forall_forall. by intros x [_ H]%minuteSet_elem. Qed.

(** The same from a slot of the schedule to the answer for it. *)
Lemma recurring_fixed times weekdays now u : is_slot times weekdays u -> 2 * msPerDay <= now + off < last_time - 20 * msPerDay ->
  exists t, nextCandidate (minuteSet times) (weekdaySet <$> weekdays) zone now = Some t /\
    is_slot times weekdays t /\ now + TASK_DUE_SLACK_MS < t /\ forall v, is_slot times weekdays v -> now + TASK_DUE_SLACK_MS < v -> t <= v.
Proof.
  intros (d0 & x & Hx & Hd & _)%is_slot_at Hnow.
  destruct (nextCandidate_fixed _ _ now d0 x (minuteSet_ok times) Hx Hd Hnow) as (t & -> & Hn & Hs & Hmin). exists t.
  split_and!; [done|by apply is_slot_at|done|]. intros v (d & y & Hy & Hdy & ->)%is_slot_at Hv. by apply Hmin.
Qed.

Lemma named_slot times weekdays : minuteSet times <> [] -> match weekdays with None => True | Some l => weekdaySet l <> [] end -> exists u, is_slot times weekdays u.
Proof.
  intros Ht Hw. destruct (minuteSet times) as [|x l] eqn:Em; [done|]. assert (x ∈ minuteSet times) as Hx by (rewrite Em; left).
  destruct weekdays as [days|].
  - destruct (weekdaySet days) as [|d l'] eqn:Ed; [done|]. assert (d ∈ weekdaySet days) as Hd by (rewrite Ed; left). pose proof (proj2 (proj1 (weekdaySet_elem _ _) Hd)).
    exists (slot_at (d + 3) x). apply is_slot_at. exists (d + 3), x. split_and!; [done| |done]. cbn [fmap option_fmap option_map day_ok].
    replace ((d + 3 + 4) mod 7) with d by (Z.to_euclidean_division_equations; lia). by apply bool_decide_eq_true.
  - exists (slot_at 0 x). apply is_slot_at. by exists 0, x.
Qed.

Lemma slot_needs_names times weekdays u : is_slot times weekdays u -> minuteSet times <> [] /\ match weekdays with None => True | Some l => weekdaySet l <> [] end.
Proof.
  intros (d & x & Hx & Hd & _)%is_slot_at. split; [intros E; rewrite E in Hx; by apply not_elem_of_nil in Hx|].
  destruct weekdays as [l|]; [|done]. cbn in Hd. apply bool_decide_eq_true in Hd. intros E. rewrite E in Hd. by apply not_elem_of_nil in Hd.
Qed.

(** C35. In a zone of constant offset a recurring schedule runs at the earliest of its
    slots. For a daily or weekly schedule, from 1970 up to some weeks before the end
    of year 9999: if no local minute has a time of day and a weekday the schedule names
    (its times are all malformed, or its weekdays are none), the answer is none; else
    the answer is the earliest such minute that is later than now by more than the
    slack, among all of them and not only those of the fifteen days scanned. *)
Theorem next_run_is_the_earliest_slot s times weekdays now :
  timezone_of s = zone -> recurs s = Some (times, weekdays) -> 2 * msPerDay <= now + off < last_time - 20 * msPerDay ->
  match computeNextRunAt (Some s) true now with
  | Some t => is_slot times weekdays t /\ now + TASK_DUE_SLACK_MS < t /\ forall u, is_slot times weekdays u -> now + TASK_DUE_SLACK_MS < u -> t <= u
  | None => forall u, ~ is_slot times weekdays u
  end.
Proof.
  intros Hz Hr Hnow.
  assert (computeNextRunAt (Some s) true now =
    if bool_decide (minuteSet times = []) || match weekdays with None => false | Some l => bool_decide (weekdaySet l = []) end then None
    else nextCandidate (minuteSet times) (weekdaySet <$> weekdays) zone now) as ->.
  { unfold computeNextRunAt. rewrite Hz, (fixed_valid F). cbn [negb orb].
    destruct s; cbn [recurs timezone_of] in *; try done; injection Hr as <- <-; subst; [rewrite orb_false_r|]; done. }
  destruct (bool_decide (minuteSet times = [])) eqn:E1; cbn [orb].
  - apply bool_decide_eq_true in E1. by intros u [? _]%slot_needs_names.
  - apply bool_decide_eq_false in E1. destruct (match weekdays with None => false | Some _ => _ end) eqn:E2.
    + destruct weekdays as [l|]; [|done]. apply bool_decide_eq_true in E2. by intros u [_ ?]%slot_needs_names.
    + destruct (named_slot times weekdays E1) as [u Hu]; [destruct weekdays; [by apply bool_decide_eq_false in E2|done]|].
      by destruct (recurring_fixed _ _ now _ Hu Hnow) as (t & -> & Ht).
Qed.

End fixed.

(** ** The witness *)

Lemma index_day_names d : 0 <= d <= 6 -> index_in (toLowerCase (stake 3 (nth (Z.to_nat d) day_names ""))) WEEKDAYS = d.
Proof.
  intros Hd. assert (d = 0 \/ d = 1 \/ d = 2 \/ d = 3 \/ d = 4 \/ d = 5 \/ d = 6) as Hc by lia.
  repeat destruct Hc as [-> |Hc]; rewrite ?Hc; vm_compute; reflexivity.
Qed.

Lemma number_digits w n : 0 <= n < 10 ^ Z.of_nat w -> number (digits w n) = n.
Proof. intros H. unfold number. rewrite digits_value_digits by done. lia. Qed.

Lemma clock_of_fixed zone off : zone <> "" -> (msPerMinute | off) -> - msPerDay < off < msPerDay -> fixed_zone (C := clock_of (fun _ => off)) zone off.
Proof.
  intros Hz Hm Ho. constructor; [cbn; by rewrite bool_decide_false|done|done|]. intros e He.
  pose proof (time_parts (e + off)) as (_ & Hh & Hmi & _). pose proof (date_bounds (e + off)) as Hd.
  pose proof (month_from_day_spec _ _ (day_in_year_bounds (e + off))) as [Hmo _]. fold (getUTCMonth (e + off)) in Hmo.
  pose proof (four_digit_range (e + off) He) as Hy. unfold four_digit_year in Hy.
  unfold parts, fields. cbn [formatToParts clock_of]. unfold clock_parts. cbv zeta.
  f_equal; try (etransitivity; [apply number_digits; cbn; lia|done]).
  apply (index_day_names (getUTCDay (e + off))). unfold getUTCDay. pose proof (weekday_range (utc_day (e + off))). lia.
Qed.

Lemma next_run_is_the_earliest_slot_witness :
  let C := clock_of (fun _ => 19800000) in
  let now := date_utc 2026 1 28 18 29 in
  let s := Weekly ["00:00"; "nine"] [0; 1] "Asia/Kolkata" in
  exists t, computeNextRunAt (C := C) (Some s) true now = Some t /\ t = date_utc 2026 1 28 18 30 /\
    forall u, is_slot 19800000 ["00:00"; "nine"] (Some [0; 1]) u -> now + TASK_DUE_SLACK_MS < u -> t <= u.
Proof.
  intros C now s. exists (date_utc 2026 1 28 18 30).
  assert (computeNextRunAt (C := C) (Some s) true now = Some (date_utc 2026 1 28 18 30)) as E by (vm_compute; reflexivity).
  split; [exact E|]. split; [done|].
  assert (fixed_zone (C := C) "Asia/Kolkata" 19800000) as F by (clear; apply clock_of_fixed; [done|by exists 330|by vm_compute]).
  assert (2 * msPerDay <= now + 19800000 < last_time - 20 * msPerDay) as Hn by (clear; vm_compute; split; congruence).
  pose proof (next_run_is_the_earliest_slot (C := C) "Asia/Kolkata" 19800000 F s ["00:00"; "nine"] (Some [0; 1]) now eq_refl eq_refl Hn) as H.
  rewrite E in H. exact (proj2 (proj2 H)).
Defined.
