(* ===== verification/SchedClaims.v ===== *)
(** Occurrence claims of scheduled tasks (scheduled/scheduled-claims.ts) and the
    state patches of the task store they are written through
    (scheduled/task-config.ts).

    A stored task is the raw JSON record; [pid] is the process that runs the
    code, and [sha256hex] the hex digest of a text. *)

From S2P Require Import Prelude JsString JsMap JsValue.
From Stdlib Require Import QArith Qcanon Qcabs.
#[local] Close Scope Qc_scope.
#[local] Close Scope Q_scope.

Definition TASK_DUE_SLACK_MS : Z := 5000.

Definition Qz (z : Z) : Qc := Q2Qc (inject_Z z).

Inductive OccurrencePhase : Type := claimed | creating | session_created | accepted.

#[export] Instance OccurrencePhase_eq_dec : EqDecision OccurrencePhase.
Proof. solve_decision. Defined.

Definition phase_name (p : OccurrencePhase) : string :=
  match p with
  | claimed => "claimed" | creating => "creating"
  | session_created => "session-created" | accepted => "accepted"
  end.

Definition OCCURRENCE_PHASES : list OccurrencePhase := [claimed; creating; session_created; accepted].

Definition phase_of (v : option json) : option OccurrencePhase :=
  List.find (fun p => is_str v (phase_name p)) OCCURRENCE_PHASES.

Record OccurrenceDispatch : Type := mkDispatch {
  scheduledFor : Qc;
  operationId : string;
  phase : OccurrencePhase;
  sessionId : option string;
  dispatch_pid : option Z;
  updatedAt : Qc;
}.

Definition nonempty_string (v : option json) : option string :=
  match v with Some (JStr s) => if bool_decide (s = "") then None else Some s | _ => None end.

Definition finite_number (v : option json) : option Qc :=
  match v with Some (JNum (NFin q)) => Some q | _ => None end.

Definition is_object (v : option json) : option json :=
  match v with Some (JObj f) => Some (JObj f) | _ => None end.

Definition stateOf (task : json) : json := default (JObj []) (is_object (jfield "state" task)).

Definition nonneg_safe (v : option json) : option Z :=
  z ← safe_int v; if bool_decide (0 <= z)%Z then Some z else None.

Definition dispatchOf (task : json) : option OccurrenceDispatch :=
  value ← is_object (jfield "dispatch" (stateOf task));
  op ← nonempty_string (jfield "operationId" value);
  slot ← finite_number (jfield "scheduledFor" value);
  p ← phase_of (jfield "phase" value);
  Some (mkDispatch slot op p (nonempty_string (jfield "sessionId" value)) (nonneg_safe (jfield "pid" value))
          (default (Qz 0) (finite_number (jfield "updatedAt" value)))).

Definition ownedByLiveProcess (d : OccurrenceDispatch) (self : Z) (isAlive : Z -> bool) : bool :=
  match dispatch_pid d with
  | None => false
  | Some p => bool_decide (p = self) || isAlive p
  end.

(** [task.enabled === false] *)
Definition is_disabled (task : json) : bool :=
  match jfield "enabled" task with Some (JBool false) => true | _ => false end.

Definition canClaimOccurrence (slot : Qc) (task : json) : bool :=
  if is_disabled task then false
  else match finite_number (jfield "lastScheduledFor" (stateOf task)) with
       | None => true
       | Some lastScheduled => bool_decide (Qz TASK_DUE_SLACK_MS < Qcabs (lastScheduled - slot))%Qc
       end.

(** ** Patches: an undefined value clears its key *)

Definition StatePatch : Type := list (string * option json).

Definition jnum_of (q : Qc) : json := JNum (NFin q).

Definition dispatch_json (d : OccurrenceDispatch) : json :=
  JObj (omap (fun kv => pair kv.1 <$> kv.2)
    [("scheduledFor", Some (jnum_of (scheduledFor d))); ("operationId", Some (JStr (operationId d)));
     ("phase", Some (JStr (phase_name (phase d)))); ("sessionId", JStr <$> sessionId d);
     ("pid", JInt <$> dispatch_pid d); ("updatedAt", Some (jnum_of (updatedAt d)))]).

Definition buildClaimPatch (pid : Z) (slot : Qc) (op : string) (lastRunAt : Qc) (nextRunAt : option Qc)
    (at_ : Qc) : StatePatch :=
  [("lastScheduledFor", Some (jnum_of slot)); ("lastRunAt", Some (jnum_of lastRunAt));
   ("lastStatus", Some (JStr "running")); ("lastError", None);
   ("dispatch", Some (dispatch_json (mkDispatch slot op claimed None (Some pid) at_)));
   ("nextRunAt", jnum_of <$> nextRunAt); ("updatedAt", Some (jnum_of at_))].

Definition buildManualStartPatch (now : Qc) : StatePatch :=
  [("lastRunAt", Some (jnum_of now)); ("lastStatus", Some (JStr "running")); ("updatedAt", Some (jnum_of now))].

(** The predecessor phase of an advance. *)
Definition EXPECTED_PHASE_BEFORE (target : OccurrencePhase) : option OccurrencePhase :=
  match target with
  | creating => Some claimed | session_created => Some creating
  | accepted => Some session_created | claimed => None
  end.

(** The record holds this operation at this phase. *)
Definition record_at (op : string) (p : OccurrencePhase) (task : json) : bool :=
  match dispatchOf task with
  | Some d => bool_decide (operationId d = op) && bool_decide (phase d = p)
  | None => false
  end.

Definition canAdvanceDispatch (op : string) (target : OccurrencePhase) (task : json) : bool :=
  match EXPECTED_PHASE_BEFORE target with
  | Some expected => record_at op expected task
  | None => false
  end.

Definition buildDispatchPhasePatch (pid : Z) (slot : Qc) (op : string) (p : OccurrencePhase)
    (sid : option string) (now : Qc) : StatePatch :=
  let kept := match sid with Some s => if bool_decide (s = "") then None else Some s | None => None end in
  [("dispatch", Some (dispatch_json (mkDispatch slot op p kept (Some pid) now)));
   ("updatedAt", Some (jnum_of now))].

Definition buildClaimFailurePatch (message : string) (now : Qc) : StatePatch :=
  [("lastStatus", Some (JStr "error")); ("lastError", Some (JStr ("Scheduled claim failed: " +:+ message)));
   ("updatedAt", Some (jnum_of now))].

(** A completed run: [inl] a success with its session, [inr] an error. *)
Definition buildCompletionPatch (outcome : option string + option string) (durationMs : Qc)
    (nextRunAt : option Qc) (at_ : Qc) : StatePatch :=
  [("lastStatus", Some (JStr (match outcome with inl _ => "success" | inr _ => "error" end)));
   ("lastDurationMs", Some (jnum_of durationMs)); ("dispatch", None);
   ("nextRunAt", jnum_of <$> nextRunAt); ("updatedAt", Some (jnum_of at_))]
  ++ match outcome with
     | inr lastError => [("lastError", Some (JStr (default "scheduled task run failed" lastError)))]
     | inl session => [("lastSessionId", JStr <$> session)]
     end.

Section operation.
  Context (sha256hex : string -> string).

Definition NUL : string := String Ascii.zero EmptyString.

Definition operationIdForOccurrence (taskId : string) (slot : Z) : string :=
  "schrun_" +:+ stake 64 (sha256hex (taskId +:+ NUL +:+ pretty slot)).

End operation.

(** ** The store *)

Definition spread (base : list (string * json)) (patch : StatePatch) : list (string * option json) :=
  fold_left (fun m kv => jset kv.1 kv.2 m) patch (prod_map (fun x => x) Some <$> base).

(** [patch.updatedAt ?? now] *)
Definition updated_or (patch : StatePatch) (now : Qc) : json :=
  match jget "updatedAt" patch with Some (Some v) => match v with JNull => jnum_of now | _ => v end | _ => jnum_of now end.

Definition clear_undefined (patch : StatePatch) (m : list (string * option json)) : list (string * option json) :=
  fold_left (fun m kv => if negb (bool_decide (kv.1 = "updatedAt")) && match kv.2 with None => true | _ => false end
                         then jdel kv.1 m else m) patch m.

Definition applyStatePatch (stored : json) (patch : StatePatch) (now : Qc) : json :=
  match stored with
  | JObj f =>
    let base := match jfield "state" stored with Some (JObj s) => s | _ => [] end in
    let merged := clear_undefined patch (jset "updatedAt" (Some (updated_or patch now)) (spread base patch)) in
    JObj (jset "state" (JObj (omap (fun kv => pair kv.1 <$> kv.2) merged)) f)
  | _ => stored
  end.

Definition findIndex (entries : list json) (taskId : string) : option nat :=
  fst <$> list_find (fun e => is_str (jfield "id" e) taskId = true) entries.

(** [patchState] on the tasks of the project file, under its lock ([None]: the
    file is missing or malformed). *)
Definition patchState (entries : option (list json)) (taskId : string) (patch : StatePatch)
    (predicate : json -> bool) (now : Qc) : option (list json) * (bool * option json) :=
  match entries with
  | None => (None, (false, None))
  | Some l =>
    match findIndex l taskId with
    | None => (entries, (false, None))
    | Some i =>
      match l !! i with
      | None => (entries, (false, None))
      | Some stored =>
        if predicate stored then
          let task := applyStatePatch stored patch now in
          (Some (<[i := task]> l), (true, Some task))
        else (entries, (false, Some stored))
      end
    end
  end.

(** ** Reading a patched record *)

(** Objects do not repeat keys. *)
Definition state_wf (task : json) : Prop :=
  match jfield "state" task with Some (JObj s) => jwf s | _ => True end.

Definition is_record (task : json) : Prop := match task with JObj _ => True | _ => False end.

Definition base_state (task : json) : list (string * json) :=
  match jfield "state" task with Some (JObj s) => s | _ => [] end.

Lemma jget_spread (k : string) (patch : StatePatch) (m : list (string * option json)) :
  NoDup (jkeys patch) ->
  jget k (fold_left (fun m kv => jset kv.1 kv.2 m) patch m)
  = match jget k patch with Some v => Some v | None => jget k m end.
Proof.
  revert m. induction patch as [|[k' v'] patch IH]; intros m Hn; [done|]. cbn in Hn |- *.
  apply NoDup_cons in Hn as [Hk Hn]. rewrite IH by done. case_decide as E.
  - subst k'. assert (jget k patch = None) as -> by by apply jget_None. apply jget_set_eq.
  - by rewrite jget_set_ne.
Qed.

Lemma jwf_spread (patch : StatePatch) (m : list (string * option json)) :
  jwf m -> jwf (fold_left (fun m kv => jset kv.1 kv.2 m) patch m).
Proof. revert m. induction patch as [|[k v] patch IH]; intros m Hm; [done|]. cbn. by apply IH, jwf_set. Qed.

Lemma clear_undefined_get (k : string) (patch : StatePatch) m :
  jwf m -> k <> "updatedAt" ->
  jget k (clear_undefined patch m) = (if bool_decide ((k, None) ∈ patch) then None else jget k m)
  /\ jwf (clear_undefined patch m).
Proof.
  unfold clear_undefined. revert m. induction patch as [|[k' v'] patch IH]; intros m Hm Hk.
  { cbn. by rewrite bool_decide_false by apply not_elem_of_nil. }
  cbn. match goal with |- context [fold_left _ patch ?x] => set (m' := x) end. assert (jwf m') as Hm' by (unfold m'; destruct (negb (bool_decide (k' = "updatedAt")) && _); [by apply jwf_del|done]).
  destruct (IH m' Hm' Hk) as [-> Hw]. split; [|done]. destruct (decide ((k, None) ∈ patch)) as [Hin|Hin].
  { rewrite !bool_decide_true; [done| |done]. by right. }
  rewrite (bool_decide_false ((k, None) ∈ patch)) by done. unfold m'.
  destruct (decide ((k, None) ∈ (k', v') :: patch)) as [Hc|Hc];
    [rewrite (bool_decide_true ((k, None) ∈ (k', v') :: patch)) by done
    |rewrite (bool_decide_false ((k, None) ∈ (k', v') :: patch)) by done].
  - apply elem_of_cons in Hc as [[= <- <-]|Hc]; [|done]. rewrite bool_decide_false by done. cbn. by apply jget_del_eq.
  - destruct (decide (k' = k)) as [->|Hne].
    + destruct v' as [v|]; [by rewrite andb_false_r|]. exfalso. apply Hc. by left.
    + destruct (negb (bool_decide (k' = "updatedAt")) && _); [by apply jget_del_ne|done].
Qed.

Lemma jget_defined k (m : list (string * option json)) :
  jwf m -> jget k (omap (fun kv => pair kv.1 <$> kv.2) m) = mjoin (jget k m).
Proof.
  unfold jwf. induction m as [|[k' [v|]] m IH]; intros Hm; [done| |]; cbn in Hm |- *; apply NoDup_cons in Hm as [Hk Hm].
  - case_decide; [done|by apply IH].
  - rewrite IH by done. case_decide as E; [|done]. subst k'. by rewrite (proj2 (jget_None k m)).
Qed.

Lemma jwf_defined (m : list (string * option json)) : jwf m -> jwf (omap (fun kv => pair kv.1 <$> kv.2) m).
Proof.
  unfold jwf. induction m as [|[k' [v|]] m IH]; intros Hm; [done| |]; cbn in Hm |- *; apply NoDup_cons in Hm as [Hk Hm];
    [|by apply IH].
  apply NoDup_cons. split; [|by apply IH]. intros Hin. apply Hk. clear -Hin.
  apply list_elem_of_fmap in Hin as ([k v'] & -> & Hin). apply list_elem_of_omap in Hin as ([k2 v2] & Hin & Hv).
  destruct v2 as [w|]; [|done]. cbn in Hv. injection Hv as <- <-. by apply (list_elem_of_fmap_2 fst) in Hin.
Qed.

Lemma jget_base k (base : list (string * json)) :
  jget k (prod_map (fun x => x) Some <$> base) = Some <$> jget k base.
Proof. induction base as [|[k' v] base IH]; [done|]. cbn. by case_decide. Qed.

Lemma jwf_base (base : list (string * json)) : jwf base -> jwf (prod_map (fun x : string => x) Some <$> base).
Proof. unfold jwf, jkeys. intros H. rewrite <- list_fmap_compose. exact H. Qed.

(** What a key of the state reads after a patch. *)
Lemma applyStatePatch_get task patch now k :
  is_record task -> state_wf task -> NoDup (jkeys patch) -> k <> "updatedAt" ->
  jfield k (stateOf (applyStatePatch task patch now))
  = match jget k patch with Some v => v | None => jget k (base_state task) end.
Proof.
  intros Hr Hw Hn Hk. destruct task as [| | | | |f]; try done. cbn [applyStatePatch].
  set (base := match jfield "state" (JObj f) with Some (JObj s) => s | _ => [] end).
  assert (jwf base) as Hb by (unfold base, state_wf in *; destruct (jfield "state" (JObj f)) as [[]|]; done || apply jwf_nil).
  set (sp := jset "updatedAt" _ (spread base patch)).
  assert (jwf sp) as Hsp by (unfold sp, spread; by apply jwf_set, jwf_spread, jwf_base).
  destruct (clear_undefined_get k patch sp Hsp Hk) as [Hg Hcw].
  unfold stateOf. cbn [jfield]. rewrite jget_set_eq. cbn [is_object default from_option id jfield].
  rewrite jget_defined, Hg by done. unfold sp. rewrite jget_set_ne by done. unfold spread.
  rewrite jget_spread, jget_base by done. fold (base_state (JObj f)). change (base_state (JObj f)) with base.
  case_bool_decide as Hin.
  - assert (jget k patch = Some None) as -> by (by apply jget_elem). done.
  - destruct (jget k patch) as [[v|]|] eqn:E; cbn; [done| |by destruct (jget k base)].
    exfalso. apply Hin. by apply jget_Some_elem.
Qed.

Lemma applyStatePatch_wf task patch now :
  is_record task -> state_wf task -> is_record (applyStatePatch task patch now) /\ state_wf (applyStatePatch task patch now).
Proof.
  intros Hr Hw. destruct task as [| | | | |f]; try done. split; [done|].
  set (base := match jfield "state" (JObj f) with Some (JObj s) => s | _ => [] end).
  assert (jwf base) as Hb by (unfold base, state_wf in *; destruct (jfield "state" (JObj f)) as [[]|]; done || apply jwf_nil).
  unfold state_wf. cbn [applyStatePatch jfield]. rewrite jget_set_eq. apply jwf_defined.
  apply (clear_undefined_get "dispatch" patch); [|done]. unfold spread. by apply jwf_set, jwf_spread, jwf_base.
Qed.

(** Everything but the state is left as it was. *)
Lemma applyStatePatch_other task patch now k :
  k <> "state" -> jfield k (applyStatePatch task patch now) = jfield k task.
Proof. intros Hk. destruct task as [| | | | |f]; try done. cbn. by apply jget_set_ne. Qed.

Lemma stateOf_base task k : jfield k (stateOf task) = jget k (base_state task).
Proof. unfold stateOf, base_state. by destruct (jfield "state" task) as [[]|]. Qed.

(** ** What the claim protocol reads after each patch *)

Definition last_slot (task : json) : option Qc := finite_number (jfield "lastScheduledFor" (stateOf task)).

Ltac nodup_keys := apply (bool_decide_eq_true_1 _); reflexivity.

Lemma phase_of_name p : phase_of (Some (JStr (phase_name p))) = Some p.
Proof. by destruct p. Qed.

Lemma nonempty_some s : nonempty_string (Some (JStr s)) = if bool_decide (s = "") then None else Some s.
Proof. done. Qed.

(** A written dispatch record reads back as itself (a pid that is none is dropped). *)
Lemma dispatchOf_written task d :
  jfield "dispatch" (stateOf task) = Some (dispatch_json d) ->
  operationId d <> "" -> (forall s, sessionId d = Some s -> s <> "") ->
  dispatchOf task = Some (mkDispatch (scheduledFor d) (operationId d) (phase d) (sessionId d)
                            (z ← dispatch_pid d; nonneg_safe (Some (JInt z))) (updatedAt d)).
Proof.
  intros Hd Hop Hs. unfold dispatchOf. rewrite Hd. destruct d as [slot op p sid pid at_]. cbn in Hop, Hs.
  unfold dispatch_json. cbn [omap list_omap fst snd fmap option_fmap option_map scheduledFor operationId phase sessionId dispatch_pid updatedAt].
  destruct sid as [s|], pid as [z|]; cbn [fmap option_fmap option_map is_object mbind option_bind];
    jfields; rewrite ?nonempty_some, ?bool_decide_false by auto; cbn [mbind option_bind finite_number jnum_of];
    rewrite phase_of_name; done.
Qed.

Section patches.
  Context (task : json) (Hr : is_record task) (Hw : state_wf task).

Lemma dispatch_after patch now v :
  NoDup (jkeys patch) -> jget "dispatch" patch = Some v ->
  jfield "dispatch" (stateOf (applyStatePatch task patch now)) = v.
Proof. intros Hn Hg. rewrite applyStatePatch_get by done. by rewrite Hg. Qed.

Lemma last_slot_kept patch now :
  NoDup (jkeys patch) -> jget "lastScheduledFor" patch = None ->
  last_slot (applyStatePatch task patch now) = last_slot task.
Proof. intros Hn Hg. unfold last_slot. rewrite applyStatePatch_get, Hg, stateOf_base by done. done. Qed.

Lemma dispatch_kept patch now :
  NoDup (jkeys patch) -> jget "dispatch" patch = None ->
  dispatchOf (applyStatePatch task patch now) = dispatchOf task.
Proof. intros Hn Hg. unfold dispatchOf. rewrite applyStatePatch_get, Hg, <- stateOf_base by done. done. Qed.

Lemma claim_patch_read pid slot op ran next at_ now :
  op <> "" ->
  let t := applyStatePatch task (buildClaimPatch pid slot op ran next at_) now in
  (exists d, dispatchOf t = Some d /\ operationId d = op /\ phase d = claimed /\ scheduledFor d = slot)
  /\ last_slot t = Some slot.
Proof.
  intros Hop t. split.
  - eexists. split; [|split; [|split]].
    + apply (dispatchOf_written t (mkDispatch slot op claimed None (Some pid) at_)); [|done|done].
      by apply dispatch_after; [nodup_keys|].
    + done.
    + done.
    + done.
  - unfold last_slot, t. rewrite applyStatePatch_get by (done || nodup_keys). done.
Qed.

Lemma phase_patch_read pid slot op p sid at_ now :
  op <> "" ->
  let t := applyStatePatch task (buildDispatchPhasePatch pid slot op p sid at_) now in
  (exists d, dispatchOf t = Some d /\ operationId d = op /\ phase d = p /\ scheduledFor d = slot
     /\ sessionId d = (s ← sid; if bool_decide (s = "") then None else Some s)) /\ last_slot t = last_slot task.
Proof.
  intros Hop t. split; [|by apply last_slot_kept; [nodup_keys|]].
  set (kept := match sid with Some s => if bool_decide (s = "") then None else Some s | None => None end).
  eexists. split.
  - apply (dispatchOf_written t (mkDispatch slot op p kept (Some pid) at_)); cbn; [|done|].
    + by apply dispatch_after; [nodup_keys|].
    + unfold kept. intros s. destruct sid as [s'|]; [|done]. case_bool_decide; [done|]. by intros [= <-].
  - split_and!; by destruct sid.
Qed.

Lemma completion_patch_read outcome dur next at_ now :
  let t := applyStatePatch task (buildCompletionPatch outcome dur next at_) now in
  dispatchOf t = None /\ last_slot t = last_slot task.
Proof.
  intros t. assert (NoDup (jkeys (buildCompletionPatch outcome dur next at_))) as Hn by (destruct outcome; nodup_keys).
  split; [|apply last_slot_kept; [done|by destruct outcome]]. unfold dispatchOf, t.
  rewrite applyStatePatch_get by done. by destruct outcome.
Qed.

End patches.

Lemma Qz_lt a b : (Qz a < Qz b)%Qc <-> (a < b)%Z.
Proof. unfold Qclt, Qz. cbn. rewrite !Qred_correct. by rewrite <- Zlt_Qlt. Qed.

Lemma Qz_sub a b : (Qz a - Qz b)%Qc = Qz (a - b).
Proof.
  apply Qc_is_canon. unfold Qz, Qcminus, Qcplus, Qcopp. cbn. rewrite !Qred_correct.
  unfold Qeq, Qplus, Qopp, inject_Z. cbn. lia.
Qed.

Lemma Qz_abs a : Qcabs (Qz a) = Qz (Z.abs a).
Proof. apply Qc_is_canon. unfold Qcabs, Qz. cbn. by rewrite !Qred_correct. Qed.

Lemma canClaim_slot (slot : Z) task :
  canClaimOccurrence (Qz slot) task = true ->
  is_disabled task = false
  /\ forall s, last_slot task = Some (Qz s) -> (TASK_DUE_SLACK_MS < Z.abs (s - slot))%Z.
Proof.
  unfold canClaimOccurrence. destruct (is_disabled task); [done|]. intros H. split; [done|]. intros s Hs.
  unfold last_slot in Hs. rewrite Hs in H. apply bool_decide_eq_true_1 in H.
  by rewrite Qz_sub, Qz_abs, Qz_lt in H.
Qed.
