(* ===== verification/SchedTasks.v ===== *)
(** Scheduled tasks as stored (server/scheduled/task-schema.ts, and the store of
    task-config.ts): normalisation of a task document and the operations on the
    project file.

    A document is a JSON value; a JavaScript object is a list of members in
    order. The scheduling of loop files is in SchedLoops. *)

From S2P Require Import Prelude JsString JsMap JsSort JsValue JsDate SchedNext SchedClaims.
From Stdlib Require Import QArith Qcanon.

Local Open Scope Z_scope.

(** ** Objects overlaid with known members *)

(** [if (v !== undefined) o.k = v; else delete o.k;] *)
Definition set_or_del (k : string) (v : option json) (f : list (string * json)) : list (string * json) :=
  match v with Some v => jset k v f | None => jdel k f end.

(** The members of a rule, in order. *)
Definition overlay (rules : list (string * option json)) (f : list (string * json)) : list (string * json) :=
  fold_left (fun f kv => set_or_del kv.1 kv.2 f) rules f.

Definition TASK_NAME_MAX : Z := 80.
Definition TASK_ID_MAX : Z := 128.
Definition TASK_PROMPT_MAX : Z := 20000.
Definition TASK_LAST_ERROR_MAX : Z := 2000.
Definition TASK_ROUTE_ID_MAX : Z := 256.
Definition TOKEN_BUDGET_MAX : Z := 100000000.

Definition record (v : option json) : option (list (string * json)) := match v with Some (JObj f) => Some f | _ => None end.

(** [boundedString(value, max)] *)
Definition boundedString (v : option json) (max : Z) : option string :=
  match v with
  | Some (JStr s) => if bool_decide (s = "") || bool_decide (max < slen s) then None else Some s
  | _ => None
  end.

(** [/^[A-Za-z0-9._:-]{1,127}$/] *)
Definition TASK_ID (s : string) : bool :=
  sall (fun a => is_alnum a || Ascii.eqb a "." || Ascii.eqb a "_" || Ascii.eqb a ":" || Ascii.eqb a "-") s
  && bool_decide (1 <= slen s <= 127).

(** The text of a value if it may be a status: an array reads as its only element. *)
Fixpoint status_text (v : json) : string :=
  match v with JStr s => s | JArr [v] => status_text v | _ => "" end.

Definition LAST_STATUSES : list string := ["idle"; "running"; "success"; "error"].

Record NormalizeOptions := { now : Z; serverZone : string }.

Inductive NormalizeResult := NormOk (task : list (string * json)) | NormError (reason : string).

(** The strings of an array, if all its elements are strings the test accepts. *)
Fixpoint all_strings (test : string -> bool) (l : list json) : option (list string) :=
  match l with
  | [] => Some []
  | JStr s :: l => if test s then cons s <$> all_strings test l else None
  | _ => None
  end.

Section normalize.
  Context {C : Clocks}.

Definition validRealDate (date : string) : bool :=
  ISO_DATE date &&
  let p := split_on "-" date in
  let y := nth_number p 0 in let mo := nth_number p 1 in let d := nth_number p 2 in
  let stamp := date_utc y (mo - 1) d 12 0 in
  bool_decide (getUTCFullYear stamp = y) && bool_decide (getUTCMonth stamp = mo - 1) && bool_decide (getUTCDate stamp = d).

Definition zoneOrDefault (value : option json) (o : NormalizeOptions) : string :=
  let server := if isValidZone (serverZone o) then serverZone o else "UTC" in
  match value with Some (JStr z) => if isValidZone z then z else server | _ => server end.

(** The times, and the legacy single time. *)
Definition realTimes (raw : list (string * json)) : option (list string * option string) :=
  let legacy := match jget "time" raw with Some (JStr t) => if HH_MM t then Some t else None | _ => None end in
  match jget "times" raw with
  | Some (JArr l) => match all_strings HH_MM l with None => None | Some times => Some (js_sort sle (unique [] times), legacy) end
  | _ => match legacy with None => None | Some t => Some ([t], Some t) end
  end.

(** [Number.isInteger(v)], with the integer. *)
Definition int_of (v : json) : option Z := match v with JNum n => num_int n | _ => None end.

(** The days of the week of an array, without repetition, in order. *)
Definition realWeekdays (v : option json) : list Z :=
  match v with
  | Some (JArr l) => js_sort Z.leb (unique [] (filter (fun d => 0 <= d <= 6) (omap int_of l)))
  | _ => []
  end.

Definition strings (l : list string) : json := JArr (JStr <$> l).

(** What a schedule of each kind is overlaid with; [None] when it is invalid. *)
Definition schedule_rules (shape : list (string * json)) (o : NormalizeOptions) : option (list (string * option json)) :=
  let timezone := zoneOrDefault (jget "timezone" shape) o in
  let base := ("timezone", Some (JStr timezone)) in
  let kind k := ("kind", Some (JStr k)) in
  let kind_is k := is_str (jget "kind" shape) k in
  if kind_is "daily" then
    match realTimes shape with
    | None => None
    | Some (times, time) =>
      Some [base; kind "daily"; ("times", Some (strings times));
            ("time", if bool_decide (length times = 1%nat) && is_undefined (jget "times" shape) then JStr <$> time else None)]
    end
  else if kind_is "weekly" then
    let weekdays := realWeekdays (jget "weekdays" shape) in
    match realTimes shape with
    | None => None
    | Some (times, _) =>
      if bool_decide (weekdays = []) then None
      else Some [base; kind "weekly"; ("times", Some (strings times)); ("weekdays", Some (JArr (JInt <$> weekdays)))]
    end
  else if kind_is "once" then
    match jget "date" shape, jget "time" shape with
    | Some (JStr date), Some (JStr time) =>
      if negb (validRealDate date) || negb (HH_MM time) || bool_decide (parseOnceSlot date time = None) then None
      else Some [base; kind "once"; ("date", Some (JStr date)); ("time", Some (JStr time))]
    | _, _ => None
    end
  else if kind_is "cron" then
    match jget "cron" shape with
    | Some (JStr cron) =>
      if bool_decide (cron = "") || (TASK_CRON_MAX <? String.length cron)%nat || bool_decide (cronNextAt cron timezone (now o) = None) then None
      else Some [base; kind "cron"; ("cron", Some (JStr cron))]
    | _ => None
    end
  else None.

Definition normalizeSchedule (raw : option json) (o : NormalizeOptions) : option json :=
  match record raw with
  | None => None
  | Some shape => (fun rules => JObj (overlay rules shape)) <$> schedule_rules shape o
  end.

End normalize.

(** ** Execution and state *)

Definition budget (v : option json) : option json :=
  match v with
  | Some (JNum n) => match num_int n with Some z => if bool_decide (0 <= z <= TOKEN_BUDGET_MAX) then Some (JNum n) else None | None => None end
  | _ => None
  end.

Definition execution_rules (shape : list (string * json)) : option (list (string * option json)) :=
  match boundedString (jget "prompt" shape) TASK_PROMPT_MAX, boundedString (jget "providerID" shape) TASK_ROUTE_ID_MAX,
        boundedString (jget "modelID" shape) TASK_ROUTE_ID_MAX with
  | Some prompt, Some providerID, Some modelID =>
    let goal := match jget "goalEnabled" shape with Some (JBool b) => Some (JBool b) | _ => None end in
    Some [("prompt", Some (JStr prompt)); ("providerID", Some (JStr providerID)); ("modelID", Some (JStr modelID));
      ("variant", JStr <$> boundedString (jget "variant" shape) TASK_ROUTE_ID_MAX);
      ("agent", JStr <$> boundedString (jget "agent" shape) TASK_ROUTE_ID_MAX);
      ("goalEnabled", goal); ("goalTokenBudget", if is_true goal then budget (jget "goalTokenBudget" shape) else None);
      ("permissionAutoAccept", None)]
  | _, _, _ => None
  end.

Definition normalizeExecution (raw : option json) : option json :=
  match record raw with
  | None => None
  | Some shape => (fun rules => JObj (overlay rules shape)) <$> execution_rules shape
  end.

(** A finite number, kept as it is. *)
Definition finite (v : option json) : option json := match v with Some (JNum (NFin q)) => Some (JNum (NFin q)) | _ => None end.

Definition finite_nonneg (v : option json) : option json :=
  match v with Some (JNum (NFin q)) => if bool_decide (Q2Qc 0 <= q)%Qc then Some (JNum (NFin q)) else None | _ => None end.

Definition status_of (v : option json) : json :=
  match v with Some v => if bool_decide (status_text v ∈ LAST_STATUSES) then v else JStr "idle" | None => JStr "idle" end.

Definition state_rules (shape : list (string * json)) (now : Z) : list (string * option json) :=
  [("createdAt", Some (default (JInt now) (finite_nonneg (jget "createdAt" shape))));
   ("updatedAt", Some (default (JInt now) (finite_nonneg (jget "updatedAt" shape))));
   ("lastStatus", Some (status_of (jget "lastStatus" shape)));
   ("lastRunAt", finite (jget "lastRunAt" shape)); ("lastDurationMs", finite_nonneg (jget "lastDurationMs" shape));
   ("lastSessionId", JStr <$> boundedString (jget "lastSessionId" shape) TASK_ID_MAX);
   ("nextRunAt", finite (jget "nextRunAt" shape)); ("lastScheduledFor", finite (jget "lastScheduledFor" shape));
   ("lastError", JStr <$> boundedString (jget "lastError" shape) TASK_LAST_ERROR_MAX);
   ("dispatch", dispatch_json <$> dispatchOf (JObj [("state", JObj shape)]))].

Definition normalizeState (raw : option json) (now : Z) : list (string * json) :=
  let shape := default [] (record raw) in overlay (state_rules shape now) shape.

(** [base] is the id of the stored task of an update. *)
Definition normalizeTaskForStorage {C : Clocks} (raw : json) (o : NormalizeOptions) (base : option (option json)) : NormalizeResult :=
  match record (Some raw) with
  | None => NormError "task must be a JSON object"
  | Some shape =>
    match jget "id" shape with
    | Some (JStr id) =>
      if negb (TASK_ID id) then NormError "task id is missing or malformed"
      else if match base with Some stored => negb (is_str stored id) | None => false end then NormError "task id is immutable"
      else match jget "name" shape with
        | Some (JStr name) =>
          let name := trim name in
          if bool_decide (name = "") || bool_decide (TASK_NAME_MAX < slen name) then NormError "task name must be 1..80 characters"
          else match jget "enabled" shape with
            | Some (JBool enabled) =>
              match normalizeSchedule (jget "schedule" shape) o with
              | None => NormError "task schedule is invalid"
              | Some schedule =>
                match normalizeExecution (jget "execution" shape) with
                | None => NormError "task execution is invalid"
                | Some execution =>
                  NormOk (overlay [("id", Some (JStr id)); ("name", Some (JStr name)); ("enabled", Some (JBool enabled));
                    ("schedule", Some schedule); ("execution", Some execution);
                    ("state", Some (JObj (normalizeState (jget "state" shape) (now o))));
                    ("loopFile", JStr <$> boundedString (jget "loopFile" shape) 1024)] shape)
                end
              end
            | _ => NormError "task enabled flag is required"
            end
        | _ => NormError "task name is required"
        end
    | _ => NormError "task id is missing or malformed"
    end
  end.

(** ** Overlays *)

Lemma set_or_del_wf k v f : jwf f -> jwf (set_or_del k v f).
Proof. destruct v; [apply jwf_set|apply jwf_del]. Qed.

Lemma set_or_del_get k k' v f : jwf f -> jget k (set_or_del k' v f) = if decide (k = k') then v else jget k f.
Proof.
  intros Hw. case_decide as E; [subst k'|]; destruct v as [v|]; cbn [set_or_del].
  - apply jget_set_eq. - by apply jget_del_eq. - by apply jget_set_ne. - by apply jget_del_ne.
Qed.

Lemma set_or_del_same k v f : jget k f = v -> set_or_del k v f = f.
Proof. destruct v as [v|]; cbn [set_or_del]; [apply jset_same|]. intros H%jget_None. by apply jdel_fresh. Qed.

Lemma overlay_wf rules f : jwf f -> jwf (overlay rules f).
Proof. revert f. induction rules as [|[k v] rules IH]; intros f Hw; [done|]. cbn. apply IH. by apply set_or_del_wf. Qed.

Lemma overlay_get rules f k : jwf f -> NoDup (rules.*1) -> jget k (overlay rules f) = default (jget k f) (jget k rules).
Proof.
  revert f. induction rules as [|[k' v] rules IH]; intros f Hw Hn; [done|]. cbn [fmap list_fmap fst] in Hn. apply NoDup_cons in Hn as [Hk Hn].
  change (overlay ((k', v) :: rules) f) with (overlay rules (set_or_del k' v f)). rewrite IH by (try done; by apply set_or_del_wf).
  rewrite set_or_del_get by done. cbn [jget]. case_decide as E; [|done]. subst k'.
  assert (jget k rules = None) as -> by (by apply jget_None). done.
Qed.

Lemma overlay_same rules f : Forall (fun kv => jget kv.1 f = kv.2) rules -> overlay rules f = f.
Proof.
  induction 1 as [|[k v] rules Hk _ IH]; [done|]. cbn [fst snd] in Hk. change (overlay ((k, v) :: rules) f) with (overlay rules (set_or_del k v f)).
  by rewrite set_or_del_same.
Qed.

(** A normaliser that rereads its own output as it wrote it leaves it alone. *)
Lemma overlay_settled rules f : jwf f -> NoDup (rules.*1) -> overlay rules (overlay rules f) = overlay rules f.
Proof.
  intros Hw Hn. apply overlay_same, Forall_forall. intros [k v] Hx. rewrite overlay_get by done. cbn [fst snd].
  by rewrite (jget_elem k v rules Hn Hx).
Qed.

(** The document has the members a list of rules writes. *)
Definition agrees (rules : list (string * option json)) (f : list (string * json)) : Prop := forall k v, jget k rules = Some v -> jget k f = v.

Lemma overlay_agrees rules f : jwf f -> NoDup (rules.*1) -> agrees rules (overlay rules f).
Proof. intros Hw Hn k v Hk. rewrite overlay_get by done. by rewrite Hk. Qed.

(** ** Normal values *)

Lemma boundedString_settled v max : boundedString (JStr <$> boundedString v max) max = boundedString v max.
Proof. unfold boundedString. destruct v as [[| | |s| |]|]; try done. destruct (_ || _) eqn:E; [done|]. cbn. by rewrite E. Qed.

Lemma boundedString_some v max s : boundedString v max = Some s -> boundedString (Some (JStr s)) max = Some s.
Proof. intros H. pose proof (boundedString_settled v max) as E. by rewrite H in E. Qed.

Lemma finite_settled v : finite (finite v) = finite v.
Proof. by destruct v as [[| |[]| | |]|]. Qed.

Lemma finite_nonneg_settled v : finite_nonneg (finite_nonneg v) = finite_nonneg v.
Proof. destruct v as [[| |[q|]| | |]|]; try done. cbn. case_bool_decide as E; [|done]. cbn. by rewrite bool_decide_true. Qed.

Lemma budget_settled v : budget (budget v) = budget v.
Proof. destruct v as [[| |n| | |]|]; try done. cbn. destruct (num_int n) as [z|] eqn:E; [|done]. case_bool_decide as Ez; [|done]. cbn. rewrite E. by rewrite bool_decide_true. Qed.

Lemma unique_NoDup {A} `{EqDecision A} (seen l : list A) : NoDup (unique seen l).
Proof.
  revert seen. induction l as [|x l IH]; intros seen; cbn [unique]; [constructor|]. case_bool_decide; [done|].
  apply NoDup_cons. split; [|done]. rewrite unique_elem. intros [_ H']. apply H'. left.
Qed.

Lemma unique_same {A} `{EqDecision A} (seen l : list A) : NoDup l -> (forall x, x ∈ l -> x ∉ seen) -> unique seen l = l.
Proof.
  revert seen. induction l as [|x l IH]; intros seen Hn Hs; cbn [unique]; [done|]. apply NoDup_cons in Hn as [Hx Hn].
  rewrite bool_decide_false by (apply Hs; left). f_equal. apply IH; [done|]. intros y Hy [->|Hz]%elem_of_cons; [done|]. by apply (Hs y); [right|].
Qed.

(** Sorting a list without repetitions settles it. *)
Lemma sort_unique_settled {A} `{EqDecision A} (le : A -> A -> bool) (T : TotalOrder le) (l : list A) :
  js_sort le (unique [] (js_sort le (unique [] l))) = js_sort le (unique [] l).
Proof.
  assert (NoDup (js_sort le (unique [] l))) as Hn by (rewrite js_sort_perm; apply unique_NoDup).
  rewrite (unique_same [] (js_sort le _)); [|done|intros ? _; apply not_elem_of_nil]. apply js_sort_id. exact (js_sort_sorted le _).
Qed.

#[local] Instance text_order : TotalOrder sle := {| le_total := sle_total; le_trans := sle_trans |}.
#[local] Instance number_order : TotalOrder Z.leb.
Proof. constructor; intros; lia. Qed.

Lemma all_strings_spec test l k : all_strings test l = Some k -> l = JStr <$> k /\ Forall (fun s => test s = true) k.
Proof.
  revert k. induction l as [|[| | |s| |] l IH]; intros k; cbn [all_strings]; [intros [= <-]; by split|done..| |done|done].
  destruct (test s) eqn:E; [|done]. destruct (all_strings test l) as [k'|]; [|done]. intros [= <-]. destruct (IH _ eq_refl) as [-> ?].
  split; [done|]. by constructor.
Qed.

Lemma all_strings_of test k : Forall (fun s => test s = true) k -> all_strings test (JStr <$> k) = Some k.
Proof. induction 1 as [|s k Hs _ IH]; [done|]. change (all_strings test (JStr <$> s :: k)) with (if test s then cons s <$> all_strings test (JStr <$> k) else None). by rewrite Hs, IH. Qed.

Lemma int_of_JInt z : int_of (JInt z) = Some z.
Proof. apply num_int_JInt. Qed.

Lemma omap_ints (l : list Z) : omap int_of (JInt <$> l) = l.
Proof. induction l as [|z l IH]; [done|]. cbn [fmap list_fmap omap list_omap]. rewrite int_of_JInt. by f_equal. Qed.

Lemma filter_all {A} (P : A -> Prop) `{!forall x, Decision (P x)} l : Forall P l -> filter P l = l.
Proof. induction 1 as [|x l Hx _ IH]; [done|]. by rewrite filter_cons_True, IH. Qed.

Section settled.
  Context {C : Clocks} (o : NormalizeOptions).

Lemma zoneOrDefault_settled v : zoneOrDefault (Some (JStr (zoneOrDefault v o))) o = zoneOrDefault v o.
Proof.
  unfold zoneOrDefault. cbv zeta.
  destruct v as [[| | |z| |]|]; try (destruct (isValidZone z) eqn:E; [by rewrite E|]); destruct (isValidZone (serverZone o)) eqn:E'; rewrite ?E'; try done; by destruct (isValidZone "UTC").
Qed.

Lemma sorted_times l : Forall (fun t => HH_MM t = true) l -> Forall (fun t => HH_MM t = true) (js_sort sle (unique [] l)).
Proof. intros H. rewrite js_sort_perm. rewrite Forall_forall in *. intros x [Hx _]%unique_elem. auto. Qed.

(** The times of a normalised schedule are read back as they are. *)
Lemma realTimes_settled shape f times time : realTimes shape = Some (times, time) -> jget "times" f = Some (strings times) ->
  exists time', realTimes f = Some (times, time') /\ Forall (fun t => HH_MM t = true) times.
Proof.
  intros H Hf. assert (Forall (fun t => HH_MM t = true) times /\ js_sort sle (unique [] times) = times) as [Hv Hs].
  { unfold realTimes in H. cbv zeta in H. set (legacy := match jget "time" shape with Some (JStr t) => if HH_MM t then Some t else None | _ => None end) in *.
    assert (match legacy with Some t => HH_MM t = true | None => True end) as Hl.
    { unfold legacy. destruct (jget "time" shape) as [[| | |t| |]|]; try done. by destruct (HH_MM t) eqn:E. }
    destruct (jget "times" shape) as [[| | | |l|]|].
    5: { destruct (all_strings HH_MM l) as [k|] eqn:E; [|done]. injection H as <- <-. apply all_strings_spec in E as [_ E].
         split; [by apply sorted_times|apply sort_unique_settled, _]. }
    all: destruct legacy as [t|]; [|done]; injection H as <- <-; split; [by repeat constructor|done]. }
  unfold realTimes. cbv zeta. rewrite Hf. unfold strings. rewrite all_strings_of by done. rewrite Hs. by eexists.
Qed.

Lemma realWeekdays_settled v : realWeekdays (Some (JArr (JInt <$> realWeekdays v))) = realWeekdays v.
Proof.
  unfold realWeekdays at 1. rewrite omap_ints. destruct v as [[| | | |l|]|]; try done. cbn [realWeekdays].
  rewrite filter_all; [apply sort_unique_settled, _|]. rewrite js_sort_perm. apply Forall_forall.
  intros x [[Hx _]%list_elem_of_filter _]%unique_elem. exact Hx.
Qed.

End settled.

(** ** Normalisation is settled after one pass *)

(** What the second pass takes out of a daily schedule: the legacy single time. *)
Definition forget_time (schedule : json) : json :=
  match schedule with JObj f => if is_str (jget "kind" f) "daily" then JObj (jdel "time" f) else schedule | _ => schedule end.

Definition forget_legacy_time (task : list (string * json)) : list (string * json) :=
  match jget "schedule" task with Some s => jset "schedule" (forget_time s) task | None => task end.

(** The objects of a document a JSON parser makes: members are distinct. *)
Definition object_wf (v : option json) : Prop := match v with Some (JObj f) => jwf f | _ => True end.

Definition document_wf (raw : json) : Prop :=
  match raw with
  | JObj f => jwf f /\ object_wf (jget "schedule" f) /\ object_wf (jget "execution" f) /\ object_wf (jget "state" f)
  | _ => True
  end.

Lemma is_str_of v k : is_str v k = true -> v = Some (JStr k).
Proof. destruct v as [[| | |s| |]|]; try done. cbn. intros H%bool_decide_eq_true. by subst. Qed.

Ltac rules_nodup := cbn [fmap list_fmap fst]; apply (bool_decide_unpack _); vm_compute; done.

Section settled_schedule.
  Context {C : Clocks} (o : NormalizeOptions).

Lemma schedule_rules_nodup shape rules : schedule_rules shape o = Some rules -> NoDup (rules.*1).
Proof.
  unfold schedule_rules. cbv zeta. intros H.
  destruct (is_str _ "daily"); [destruct (realTimes shape) as [[times time]|]; [|done]; injection H as <-; rules_nodup|].
  destruct (is_str _ "weekly"); [destruct (realTimes shape) as [[times time]|]; [|done]; destruct (bool_decide _); [done|]; injection H as <-; rules_nodup|].
  destruct (is_str _ "once").
  { destruct (jget "date" shape) as [[| | |date| |]|]; try done. destruct (jget "time" shape) as [[| | |time| |]|]; try done.
    destruct (_ || _); [done|]. injection H as <-. rules_nodup. }
  destruct (is_str _ "cron"); [|done]. destruct (jget "cron" shape) as [[| | |cron| |]|]; try done. destruct (_ || _); [done|]. injection H as <-. rules_nodup.
Qed.

(** The rules of a schedule read from a document that has them are the same, but for
    the legacy time. *)
Lemma schedule_rules_settled shape rules f : schedule_rules shape o = Some rules -> agrees rules f ->
  if is_str (jget "kind" f) "daily" then exists r t, schedule_rules f o = Some (r ++ [("time", None)]) /\ rules = r ++ [("time", t)]
  else schedule_rules f o = Some rules.
Proof.
  unfold schedule_rules. cbv zeta. intros Er Hget. destruct (is_str (jget "kind" shape) "daily").
  { destruct (realTimes shape) as [[times time]|] eqn:Et; [|done]. injection Er as Hr. subst rules.
    rewrite !(Hget "kind" _ eq_refl), !(Hget "timezone" _ eq_refl), zoneOrDefault_settled, !(Hget "times" _ eq_refl).
    destruct (realTimes_settled shape f times time Et (Hget "times" _ eq_refl)) as (time' & -> & _).
    cbn [is_str]. rewrite bool_decide_true by done. eexists [_; _; _], _. cbn [is_undefined]. rewrite andb_false_r. done. }
  destruct (is_str (jget "kind" shape) "weekly").
  { destruct (realTimes shape) as [[times time]|] eqn:Et; [|done]. destruct (bool_decide _) eqn:Ew; [done|]. injection Er as Hr. subst rules.
    rewrite !(Hget "kind" _ eq_refl), !(Hget "timezone" _ eq_refl), zoneOrDefault_settled, !(Hget "weekdays" _ eq_refl), realWeekdays_settled, Ew.
    destruct (realTimes_settled shape f times time Et (Hget "times" _ eq_refl)) as (time' & -> & _). done. }
  destruct (is_str (jget "kind" shape) "once").
  { destruct (jget "date" shape) as [[| | |date| |]|]; try done. destruct (jget "time" shape) as [[| | |time| |]|]; try done.
    destruct (_ || _) eqn:Eo; [done|]. injection Er as Hr. subst rules.
    rewrite !(Hget "kind" _ eq_refl), !(Hget "timezone" _ eq_refl), zoneOrDefault_settled, !(Hget "date" _ eq_refl), !(Hget "time" _ eq_refl), Eo. done. }
  destruct (is_str (jget "kind" shape) "cron"); [|done]. destruct (jget "cron" shape) as [[| | |cron| |]|]; try done.
  destruct (_ || _) eqn:Ec; [done|]. injection Er as Hr. subst rules.
  rewrite !(Hget "kind" _ eq_refl), !(Hget "timezone" _ eq_refl), zoneOrDefault_settled, !(Hget "cron" _ eq_refl), Ec. done.
Qed.

(** The schedule of a second pass is the first one without its legacy time. *)
Lemma normalizeSchedule_settled raw s : object_wf raw -> normalizeSchedule raw o = Some s ->
  normalizeSchedule (Some s) o = Some (forget_time s) /\ object_wf (Some s).
Proof.
  intros Hw. unfold normalizeSchedule. destruct raw as [[| | | | |shape]|]; try done. cbn [record object_wf] in *.
  destruct (schedule_rules shape o) as [rules|] eqn:Er; [|done]. intros [= <-]. cbn [record]. pose proof (schedule_rules_nodup _ _ Er) as Hn.
  split; [|by apply overlay_wf]. set (f := overlay rules shape).
  pose proof (overlay_agrees rules shape Hw Hn) as Hget. fold f in Hget. pose proof (schedule_rules_settled shape rules f Er Hget) as H. unfold forget_time. destruct (is_str (jget "kind" f) "daily").
  - destruct H as (r & t & -> & Hr). cbn [fmap option_fmap option_map]. do 2 f_equal. subst rules.
    unfold overlay at 1. rewrite fold_left_app. cbn [fold_left fst snd set_or_del]. f_equal. apply (overlay_same r).
    apply Forall_forall. intros [k v] Hx. apply Hget. apply jget_elem; [done|]. apply elem_of_app. by left.
  - rewrite H. cbn [fmap option_fmap option_map]. do 2 f_equal. by apply overlay_settled.
Qed.

End settled_schedule.

Lemma execution_rules_settled shape rules f : execution_rules shape = Some rules -> agrees rules f -> execution_rules f = Some rules.
Proof.
  unfold execution_rules. cbv zeta. destruct (boundedString (jget "prompt" shape) _) as [prompt|] eqn:E1; [|done].
  destruct (boundedString (jget "providerID" shape) _) as [provider|] eqn:E2; [|done]. destruct (boundedString (jget "modelID" shape) _) as [model|] eqn:E3; [|done].
  set (goal := match jget "goalEnabled" shape with Some (JBool b) => Some (JBool b) | _ => None end). intros H Hget. injection H as Hr. subst rules.
  assert (match goal with Some (JBool b) => Some (JBool b) | _ => None end = goal) as Hg by (unfold goal; by destruct (jget "goalEnabled" shape) as [[]|]).
  rewrite !(Hget "prompt" _ eq_refl), !(Hget "providerID" _ eq_refl), !(Hget "modelID" _ eq_refl), (boundedString_some _ _ _ E1), (boundedString_some _ _ _ E2), (boundedString_some _ _ _ E3).
  rewrite !(Hget "variant" _ eq_refl), !(Hget "agent" _ eq_refl), !(Hget "goalEnabled" _ eq_refl), !(Hget "goalTokenBudget" _ eq_refl), !boundedString_settled, Hg.
  destruct (is_true goal); [by rewrite budget_settled|done].
Qed.

Lemma normalizeExecution_settled raw e : object_wf raw -> normalizeExecution raw = Some e -> normalizeExecution (Some e) = Some e.
Proof.
  intros Hw. unfold normalizeExecution. destruct raw as [[| | | | |shape]|]; try done. cbn [record object_wf] in *.
  destruct (execution_rules shape) as [rules|] eqn:Er; [|done]. intros [= <-]. cbn [record].
  assert (NoDup (rules.*1)) as Hn.
  { revert Er. unfold execution_rules. cbv zeta. do 3 (destruct (boundedString _ _) as [?|]; [|done]). intros [= <-]. rules_nodup. }
  rewrite (execution_rules_settled shape rules) by (done || by apply overlay_agrees). cbn [fmap option_fmap option_map]. by rewrite overlay_settled.
Qed.

Lemma status_settled v : status_of (Some (status_of v)) = status_of v.
Proof. unfold status_of at 2 3. destruct v as [v|]; [|done]. destruct (bool_decide _) eqn:E; [|done]. unfold status_of. by rewrite E. Qed.

Lemma stamp_settled d v : default d (finite_nonneg (Some (default d (finite_nonneg v)))) = default d (finite_nonneg v).
Proof.
  pose proof (finite_nonneg_settled v) as H. destruct (finite_nonneg v) as [x|] eqn:E; [change (default d (finite_nonneg (Some x)) = x); by rewrite H|].
  change (default d (finite_nonneg (Some d)) = d). destruct d as [| |[q|]| | |]; try done. cbn [finite_nonneg]. by destruct (bool_decide _).
Qed.

(** A dispatch record read once is read again as it is written. *)
Lemma dispatch_settled t t' d : dispatchOf t = Some d -> jfield "dispatch" (stateOf t') = Some (dispatch_json d) -> dispatchOf t' = Some d.
Proof.
  intros Hd Hf. unfold dispatchOf in Hd. destruct (is_object _) as [value|]; [|done]. cbn [mbind option_bind] in Hd.
  destruct (nonempty_string (jfield "operationId" value)) as [op|] eqn:Eo; [|done]. destruct (finite_number (jfield "scheduledFor" value)) as [slot|]; [|done].
  destruct (phase_of (jfield "phase" value)) as [p|]; [|done]. cbn [mbind option_bind] in Hd. injection Hd as <-.
  assert (forall v s, nonempty_string v = Some s -> s <> "") as Hne.
  { intros v s. unfold nonempty_string. destruct v as [[| | |x| |]|]; try done. case_bool_decide; [done|]. by intros [= <-]. }
  rewrite (dispatchOf_written t' _ Hf); cbn [operationId sessionId dispatch_pid scheduledFor phase updatedAt]; [|by eapply Hne|intros s; apply Hne].
  do 2 f_equal. destruct (nonneg_safe (jfield "pid" value)) as [z|] eqn:Ez; [|done]. cbn [mbind option_bind]. unfold nonneg_safe in *.
  destruct (safe_int _) as [y|] eqn:Es; [|done]. cbn [mbind option_bind] in Ez. destruct (bool_decide (0 <= y)) eqn:Ey; [|done]. injection Ez as ->.
  assert (is_safe_integer z = true) as Hs.
  { unfold safe_int in Es. destruct (jfield "pid" value) as [[| |n| | |]|]; try done. destruct (num_int n) as [w|]; [|done]. by destruct (is_safe_integer w) eqn:?; [injection Es as ->|]. }
  rewrite safe_int_JInt by done. cbn [mbind option_bind]. by rewrite Ey.
Qed.

Lemma state_rules_settled shape f now : agrees (state_rules shape now) f -> state_rules f now = state_rules shape now.
Proof.
  intros Hget. assert (dispatchOf (JObj [("state", JObj f)]) = dispatchOf (JObj [("state", JObj shape)])) as Ed.
  { pose proof (Hget "dispatch" _ eq_refl) as Hf. destruct (dispatchOf (JObj [("state", JObj shape)])) as [d|] eqn:E.
    - apply (dispatch_settled _ _ d E). exact Hf.
    - unfold dispatchOf. change (jfield "dispatch" (stateOf (JObj [("state", JObj f)]))) with (jget "dispatch" f). by rewrite Hf. }
  unfold state_rules in *. rewrite Ed.
  rewrite !(Hget "createdAt" _ eq_refl), !(Hget "updatedAt" _ eq_refl), !(Hget "lastStatus" _ eq_refl), !(Hget "lastRunAt" _ eq_refl), !(Hget "lastDurationMs" _ eq_refl),
    !(Hget "lastSessionId" _ eq_refl), !(Hget "nextRunAt" _ eq_refl), !(Hget "lastScheduledFor" _ eq_refl), !(Hget "lastError" _ eq_refl).
  by rewrite !boundedString_settled, !finite_settled, finite_nonneg_settled, !stamp_settled, status_settled.
Qed.

Lemma normalizeState_settled raw now : object_wf raw -> normalizeState (Some (JObj (normalizeState raw now))) now = normalizeState raw now.
Proof.
  intros Hw. unfold normalizeState. cbv zeta. cbn [record default]. set (shape := default [] (record raw)).
  assert (jwf shape) as Hs by (unfold shape; destruct raw as [[]|]; cbn; try constructor; done).
  assert (NoDup ((state_rules shape now).*1)) as Hn by rules_nodup.
  rewrite (state_rules_settled shape) by by apply overlay_agrees. by apply overlay_settled.
Qed.

(** Of a list of rules that the document agrees with but for one, that one is applied. *)
Lemma overlay_one l1 k v l2 f : jwf f -> agrees (l1 ++ l2) f -> NoDup ((l1 ++ l2).*1) -> k ∉ (l1 ++ l2).*1 -> overlay (l1 ++ (k, v) :: l2) f = set_or_del k v f.
Proof.
  intros Hw Ha Hn Hk. assert (forall kv, kv ∈ l1 ++ l2 -> jget kv.1 f = kv.2) as Hall by (intros [k' v'] Hx; apply Ha; by apply jget_elem).
  unfold overlay. rewrite fold_left_app. cbn [fold_left fst snd]. fold (overlay l1 f).
  rewrite (overlay_same l1) by (apply Forall_forall; intros kv Hx; apply Hall, elem_of_app; by left). fold (overlay l2 (set_or_del k v f)).
  apply overlay_same, Forall_forall. intros [k' v'] Hx. rewrite set_or_del_get by done. cbn [fst snd].
  rewrite decide_False; [apply (Hall (k', v')), elem_of_app; by right|]. intros ->. apply Hk. apply list_elem_of_fmap. exists (k, v'). split; [done|]. apply elem_of_app. by right.
Qed.

(** The members a task is overlaid with. *)
Definition task_rules (id name : string) (enabled : bool) (schedule execution : json) (state : list (string * json)) (loopFile : option json) : list (string * option json) :=
  [("id", Some (JStr id)); ("name", Some (JStr name)); ("enabled", Some (JBool enabled)); ("schedule", Some schedule);
   ("execution", Some execution); ("state", Some (JObj state)); ("loopFile", loopFile)].

Definition known_members : list string := ["id"; "name"; "enabled"; "schedule"; "execution"; "state"; "loopFile"].

Section settled_task.
  Context {C : Clocks} (o : NormalizeOptions) (base : option (option json)).

(** What an accepted document is made of. *)
Lemma normalizeTask_inv shape t : normalizeTaskForStorage (JObj shape) o base = NormOk t ->
  exists id name enabled schedule execution, jget "id" shape = Some (JStr id) /\ TASK_ID id = true /\
    match base with Some stored => negb (is_str stored id) | None => false end = false /\
    jget "name" shape = Some (JStr name) /\ (bool_decide (trim name = "") || bool_decide (TASK_NAME_MAX < slen (trim name))) = false /\
    jget "enabled" shape = Some (JBool enabled) /\ normalizeSchedule (jget "schedule" shape) o = Some schedule /\
    normalizeExecution (jget "execution" shape) = Some execution /\
    t = overlay (task_rules id (trim name) enabled schedule execution (normalizeState (jget "state" shape) (now o)) (JStr <$> boundedString (jget "loopFile" shape) 1024)) shape.
Proof.
  unfold normalizeTaskForStorage. cbn [record]. destruct (jget "id" shape) as [[| | |id| |]|]; try done. destruct (TASK_ID id) eqn:Ei; [|done]. cbn [negb].
  destruct (match base with Some _ => _ | None => _ end) eqn:Eb; [done|]. destruct (jget "name" shape) as [[| | |name| |]|]; try done. cbv zeta.
  destruct (_ || _) eqn:En; [done|]. destruct (jget "enabled" shape) as [[|enabled| | | |]|]; try done.
  destruct (normalizeSchedule _ o) as [schedule|] eqn:Es; [|done]. destruct (normalizeExecution _) as [execution|] eqn:Ee; [|done].
  intros [= <-]. by exists id, name, enabled, schedule, execution.
Qed.

Lemma trim_settled s : trim (trim s) = trim s.
Proof. apply trim_both_idem. Qed.

Lemma normalizeTask_again raw t : document_wf raw -> normalizeTaskForStorage raw o base = NormOk t ->
  normalizeTaskForStorage (JObj t) o base = NormOk (forget_legacy_time t) /\ document_wf (JObj t).
Proof.
  destruct raw as [| | | | |shape]; try done. intros (Hw & Hsw & Hew & Hstw) H.
  destruct (normalizeTask_inv _ _ H) as (id & name & enabled & schedule & execution & Ei & Hi & Hb & En & Hn & Een & Es & Ee & Ht). clear H.
  destruct (normalizeSchedule_settled o _ _ Hsw Es) as [Es' Hsw']. pose proof (normalizeExecution_settled _ _ Hew Ee) as Ee'.
  assert (object_wf (Some execution)) as Hew'.
  { revert Ee. unfold normalizeExecution. destruct (jget "execution" shape) as [[| | | | |ex]|]; try done. cbn [record]. destruct (execution_rules ex); [|done]. intros [= <-]. by apply overlay_wf. }
  assert (jwf (normalizeState (jget "state" shape) (now o))) as Hstw'.
  { unfold normalizeState. cbv zeta. apply overlay_wf. destruct (jget "state" shape) as [[]|]; cbn; try constructor; done. }
  set (state := normalizeState (jget "state" shape) (now o)) in *. set (file := JStr <$> boundedString (jget "loopFile" shape) 1024) in *.
  set (rules := task_rules id (trim name) enabled schedule execution state file) in *.
  assert (NoDup (rules.*1)) as Hnd by rules_nodup. pose proof (overlay_agrees rules shape Hw Hnd) as Hget. rewrite <- Ht in Hget.
  assert (jwf t) as Hwt by (subst t; by apply overlay_wf).
  pose proof (Hget "id" _ eq_refl) as G1. pose proof (Hget "name" _ eq_refl) as G2. pose proof (Hget "enabled" _ eq_refl) as G3. pose proof (Hget "schedule" _ eq_refl) as G4.
  pose proof (Hget "execution" _ eq_refl) as G5. pose proof (Hget "state" _ eq_refl) as G6. pose proof (Hget "loopFile" _ eq_refl) as G7.
  split; [|unfold document_wf; by rewrite G4, G5, G6].
  unfold normalizeTaskForStorage. cbn [record]. rewrite G1, Hi. cbn [negb]. rewrite Hb, G2, trim_settled. cbv zeta. rewrite Hn, G3, G4, Es', G5, Ee', G6, G7.
  unfold forget_legacy_time. rewrite G4. f_equal. unfold state. rewrite normalizeState_settled by done. unfold file. rewrite boundedString_settled. fold file state.
  refine (overlay_one [_; _; _] "schedule" (Some (forget_time schedule)) [_; _; _] t Hwt _ _ _); [|rules_nodup|cbn [app fmap list_fmap fst]; apply (bool_decide_unpack _); vm_compute; done].
  intros k v Hk%jget_Some_elem. cbn [app] in Hk. repeat (apply elem_of_cons in Hk as [[= -> ->]|Hk]; [assumption|]). by apply elem_of_nil in Hk.
Qed.

Lemma forget_legacy_time_twice t : document_wf (JObj t) -> forget_legacy_time (forget_legacy_time t) = forget_legacy_time t /\ document_wf (JObj (forget_legacy_time t)).
Proof.
  intros (Hw & Hs & He & Hst). destruct (jget "schedule" t) as [s|] eqn:Es.
  2: { assert (forget_legacy_time t = t) as E by (unfold forget_legacy_time; by rewrite Es). rewrite !E. split; [done|]. split; [done|]. by rewrite Es. }
  assert (forget_legacy_time t = jset "schedule" (forget_time s) t) as -> by (unfold forget_legacy_time; by rewrite Es).
  assert (forget_time (forget_time s) = forget_time s /\ object_wf (Some (forget_time s))) as [Ef Hf].
  { destruct s as [| | | | |f]; try done. destruct (is_str (jget "kind" f) "daily") eqn:Ek.
    2: { assert (forget_time (JObj f) = JObj f) as -> by (unfold forget_time; by rewrite Ek). split; [|done]. unfold forget_time. by rewrite Ek. }
    assert (forget_time (JObj f) = JObj (jdel "time" f)) as -> by (unfold forget_time; by rewrite Ek). split; [|by apply jwf_del]. unfold forget_time. rewrite jget_del_ne by done. rewrite Ek. f_equal. apply jdel_fresh, jget_None. by apply jget_del_eq. }
  split; [unfold forget_legacy_time; rewrite jget_set_eq, Ef; apply jset_set_fresh|].
  split; [by apply jwf_set|]. rewrite jget_set_eq, !jget_set_ne by done. done.
Qed.

(** Normalising a task is settled after one pass. A document of distinct members
    that is accepted normalises to a task whose members outside the seven known ones
    are those of the document, verbatim. Normalising that task again, against the same
    stored task and at the same time, accepts it and changes nothing, but for the
    single legacy time of a daily schedule, which the second pass takes out; from then
    on every further pass gives the same task. *)
Theorem normalisation_settles raw t : document_wf raw -> normalizeTaskForStorage raw o base = NormOk t ->
  (forall k, k ∉ known_members -> jget k t = jfield k raw) /\
  normalizeTaskForStorage (JObj t) o base = NormOk (forget_legacy_time t) /\
  normalizeTaskForStorage (JObj (forget_legacy_time t)) o base = NormOk (forget_legacy_time t).
Proof.
  intros Hw H. destruct (normalizeTask_again raw t Hw H) as [H1 Hwt]. destruct (forget_legacy_time_twice t Hwt) as [Ef _].
  destruct (normalizeTask_again (JObj t) _ Hwt H1) as [H2 _]. rewrite Ef in H2. split; [|done].
  destruct raw as [| | | | |shape]; try done. destruct Hw as [Hw _]. intros k Hk.
  destruct (normalizeTask_inv _ _ H) as (id & name & enabled & schedule & execution & _ & _ & _ & _ & _ & _ & _ & _ & ->).
  rewrite overlay_get by (done || rules_nodup).
  assert (jget k (task_rules id (trim name) enabled schedule execution (normalizeState (jget "state" shape) (now o)) (JStr <$> boundedString (jget "loopFile" shape) 1024)) = None) as ->; [|done].
  by apply jget_None.
Qed.

End settled_task.

(** ** The project file *)

Definition KEY : string := "scheduledTasks".

Inductive RawDoc := DocMissing | DocMalformed | DocOk (doc : list (string * json)).

(** The file of a project and the stamps of the damaged ones set aside. *)
Record Project := mkProject { file : RawDoc; corrupt : list Z }.

Definition tasksIn (doc : list (string * json)) : list json := match jget KEY doc with Some (JArr l) => l | _ => [] end.

Definition withTasks (rawDoc : list (string * json)) (next : list json) (bumpVersion : bool) : list (string * json) :=
  let out := jset KEY (JArr next) rawDoc in
  if bumpVersion && is_undefined (jget "version" out) then jset "version" (JInt 1) out else out.

Definition members (raw : RawDoc) : list (string * json) := match raw with DocOk doc => doc | _ => [] end.
Definition entries_of (raw : RawDoc) : list json := tasksIn (members raw).

(** Writes the tasks; a malformed file is set aside first. *)
Definition write_tasks (p : Project) (next : list json) (stamp : Z) : Project :=
  {| file := DocOk (withTasks (members (file p)) next true);
     corrupt := match file p with DocMalformed => stamp :: corrupt p | _ => corrupt p end |}.

Section store.
  Context {C : Clocks} (o : NormalizeOptions).

(** The valid tasks, and why the others are not. *)
Fixpoint parseTasks (entries : list json) : list (list (string * json)) * list string :=
  match entries with
  | [] => ([], [])
  | entry :: entries =>
    let '(tasks, invalid) := parseTasks entries in
    match normalizeTaskForStorage entry o None with
    | NormOk task => (task :: tasks, invalid)
    | NormError reason => (tasks, reason :: invalid)
    end
  end.

Definition loadScheduledTasks (p : Project) : list (list (string * json)) * list string :=
  match file p with
  | DocOk doc => parseTasks (tasksIn doc)
  | DocMalformed => ([], ["project config is malformed"])
  | DocMissing => ([], [])
  end.

Definition upsertScheduledTask (p : Project) (input : json) (stamp : Z) : NormalizeResult * Project :=
  let entries := entries_of (file p) in
  let index := match jfield "id" input with Some (JStr requested) => findIndex entries requested | _ => None end in
  let base := match index with Some i => jfield "id" <$> entries !! i | None => None end in
  match normalizeTaskForStorage input o base with
  | NormError reason => (NormError reason, p)
  | NormOk task =>
    let next := match index with Some i => <[i := JObj task]> entries | None => entries ++ [JObj task] end in
    (NormOk task, write_tasks p next stamp)
  end.

Definition updateScheduledTaskStateIf (p : Project) (taskId : string) (predicate : json -> bool) (patch : StatePatch) (at_ : Qc) : (bool * option json) * Project :=
  match file p with
  | DocOk doc =>
    match patchState (Some (tasksIn doc)) taskId patch predicate at_ with
    | (Some next, (true, task)) => ((true, task), {| file := DocOk (withTasks doc next false); corrupt := corrupt p |})
    | (_, outcome) => (outcome, p)
    end
  | _ => ((false, None), p)
  end.

Definition updateScheduledTaskState (p : Project) (taskId : string) (patch : StatePatch) (at_ : Qc) : bool * Project :=
  let '((updated, _), p') := updateScheduledTaskStateIf p taskId (fun _ => true) patch at_ in (updated, p').

Definition removeScheduledTask (p : Project) (taskId : string) : bool * Project :=
  match file p with
  | DocOk doc =>
    let entries := tasksIn doc in
    match findIndex entries taskId with
    | None => (false, p)
    | Some _ => (true, {| file := DocOk (withTasks doc (filter (fun e => is_str (jfield "id" e) taskId = false) entries) false); corrupt := corrupt p |})
    end
  | _ => (false, p)
  end.

(** ** A saved task is loaded *)

Lemma tasksIn_with doc next bump : tasksIn (withTasks doc next bump) = next.
Proof. unfold tasksIn, withTasks. cbv zeta. destruct (_ && _); rewrite ?jget_set_ne by done; by rewrite jget_set_eq. Qed.

Lemma withTasks_other doc next bump k : k <> KEY -> k <> "version" -> jget k (withTasks doc next bump) = jget k doc.
Proof. intros H1 H2. unfold withTasks. cbv zeta. destruct (_ && _); rewrite ?(jget_set_ne k "version") by done; by rewrite jget_set_ne. Qed.

Lemma parseTasks_in entries entry task : entry ∈ entries -> normalizeTaskForStorage entry o None = NormOk task -> task ∈ (parseTasks entries).1.
Proof.
  intros Hin Hn. induction entries as [|e entries IH]; [by apply elem_of_nil in Hin|]. cbn [parseTasks].
  apply elem_of_cons in Hin as [<-|Hin]; [destruct (parseTasks entries); rewrite Hn; left|]. specialize (IH Hin).
  destruct (parseTasks entries). destruct (normalizeTaskForStorage e o None); [by right|done].
Qed.

(** A base is consulted for its id only. *)
Lemma normalizeTask_no_base input base t : normalizeTaskForStorage input o base = NormOk t -> normalizeTaskForStorage input o None = NormOk t.
Proof.
  unfold normalizeTaskForStorage. destruct (record (Some input)) as [shape|]; [|done]. destruct (jget "id" shape) as [[| | |id| |]|]; try done.
  destruct (negb (TASK_ID id)); [done|]. by destruct (match base with Some _ => _ | None => _ end).
Qed.

(** A normal form keeps the id it was asked for. *)
Lemma normalizeTask_id input t : document_wf input -> normalizeTaskForStorage input o None = NormOk t ->
  exists id, jfield "id" input = Some (JStr id) /\ jget "id" t = Some (JStr id).
Proof.
  intros Hw H. destruct input as [| | | | |shape]; try done. destruct Hw as [Hw _].
  apply normalizeTask_inv in H as (id & name & enabled & schedule & execution & Ei & _ & _ & _ & _ & _ & _ & _ & ->).
  exists id. split; [done|]. eapply overlay_agrees; [done| |reflexivity]. rules_nodup.
Qed.

(** The entry is a record with this id. *)
Definition has_id (taskId : string) (e : json) : Prop := jfield "id" e = Some (JStr taskId).

Lemma findIndex_first entries taskId : match findIndex entries taskId with
  | Some i => exists before e after, entries = before ++ e :: after /\ length before = i /\ has_id taskId e /\ Forall (fun x => ~ has_id taskId x) before
  | None => Forall (fun x => ~ has_id taskId x) entries
  end.
Proof.
  assert (forall e, is_str (jfield "id" e) taskId = true <-> has_id taskId e) as Hstr.
  { intros e. unfold has_id, is_str. destruct (jfield "id" e) as [[| | |x| |]|]; try (by split). rewrite bool_decide_eq_true. split; [by intros ->|by intros [= ->]]. }
  unfold findIndex. destruct (list_find _ entries) as [[i e]|] eqn:E; cbn [fmap option_fmap option_map fst].
  - apply list_find_Some in E as (Hi & He & Hb). exists (take i entries), e, (drop (S i) entries).
    split_and!; [symmetry; by apply take_drop_middle|rewrite length_take; apply lookup_lt_Some in Hi; lia|by apply Hstr|].
    apply Forall_forall. intros x Hx. apply list_elem_of_lookup in Hx as [j Hj]. apply lookup_take_Some in Hj as [Hj Hlt].
    rewrite <- Hstr. by eapply Hb.
  - apply list_find_None in E. eapply Forall_impl; [exact E|]. intros x Hx. by rewrite <- Hstr.
Qed.

(** C37. A saved task is loaded. Saving an accepted document puts its normal form in
    the project file: in place of the first entry with the document's id, or, when no
    entry has it, behind the others. Every other entry stays verbatim, and so does every
    member of the file but the tasks and the version; a load that follows yields the task
    (without the legacy time of a daily schedule), whatever else the file holds. A
    rejected document changes nothing. *)
Theorem saved_task_is_loaded p input stamp : document_wf input ->
  match upsertScheduledTask p input stamp with
  | (NormError _, p') => p' = p
  | (NormOk task, p') =>
    forget_legacy_time task ∈ (loadScheduledTasks p').1 /\
    (exists doc, file p' = DocOk doc /\ forall k, k <> KEY -> k <> "version" -> jget k doc = jget k (members (file p))) /\
    exists id, has_id id input /\ has_id id (JObj task) /\
      ((exists before e after, entries_of (file p) = before ++ e :: after /\ has_id id e /\ Forall (fun x => ~ has_id id x) before
          /\ entries_of (file p') = before ++ JObj task :: after)
       \/ (Forall (fun x => ~ has_id id x) (entries_of (file p)) /\ entries_of (file p') = entries_of (file p) ++ [JObj task]))
  end.
Proof.
  intros Hw. unfold upsertScheduledTask. cbv zeta. set (entries := entries_of (file p)). set (index := match jfield "id" input with Some (JStr r) => _ | _ => None end).
  destruct (normalizeTaskForStorage _ o _) as [task|reason] eqn:En; [|done].
  apply normalizeTask_no_base in En. destruct (normalizeTask_again o None _ _ Hw En) as [Hag _].
  destruct (normalizeTask_id _ _ Hw En) as (id & Hid & Hit).
  set (next := match index with Some i => <[i := JObj task]> entries | None => entries ++ [JObj task] end).
  assert ((exists before e after, entries = before ++ e :: after /\ has_id id e /\ Forall (fun x => ~ has_id id x) before /\ next = before ++ JObj task :: after)
    \/ (Forall (fun x => ~ has_id id x) entries /\ next = entries ++ [JObj task])) as Hnext.
  { unfold next, index. rewrite Hid. pose proof (findIndex_first entries id) as H. destruct (findIndex entries id) as [i|]; [|by right].
    destruct H as (before & e & after & -> & <- & He & Hb). left. exists before, e, after. split_and!; try done. by rewrite insert_app_r_alt, Nat.sub_diag by done. }
  unfold write_tasks, loadScheduledTasks, entries_of. cbn [file members]. rewrite tasksIn_with. split_and!.
  - eapply parseTasks_in; [|exact Hag]. destruct Hnext as [(b & e & a & _ & _ & _ & ->)|[_ ->]]; apply elem_of_app; right; left.
  - eexists. split; [done|]. intros k H1 H2. by apply withTasks_other.
  - by exists id.
Qed.

End store.

(** ** What a stored schedule means to the scheduler *)

(** The typed schedule the scheduler reads. *)
Definition schedule_of (v : json) : option Schedule :=
  let text k := match jfield k v with Some (JStr s) => Some s | _ => None end in
  let times := match jfield "times" v with Some (JArr l) => omap (fun t => match t with JStr s => Some s | _ => None end) l | _ => [] end in
  zone ← text "timezone";
  if is_str (jfield "kind" v) "daily" then Some (Daily times zone)
  else if is_str (jfield "kind" v) "weekly" then
    Some (Weekly times (match jfield "weekdays" v with Some (JArr l) => omap int_of l | _ => [] end) zone)
  else if is_str (jfield "kind" v) "once" then date ← text "date"; time ← text "time"; Some (Once date time zone)
  else if is_str (jfield "kind" v) "cron" then cron ← text "cron"; Some (Cron cron zone)
  else None.

Section typed.
  Context {C : Clocks} (o : NormalizeOptions).

(** Nothing of the schedule is dropped when its next run is computed. *)
Definition well_formed (s : Schedule) : Prop :=
  match s with
  | Daily times _ => minuteSet times = times
  | Weekly times weekdays _ => minuteSet times = times /\ weekdaySet weekdays = weekdays /\ weekdays <> []
  | Once date time _ => is_Some (parseOnceSlot date time)
  | Cron _ _ => is_Some (computeNextRunAt (Some s) true (now o))
  end.

Lemma zoneOrDefault_valid v : isValidZone "UTC" = true -> isValidZone (zoneOrDefault v o) = true.
Proof. intros Hu. unfold zoneOrDefault. cbv zeta. destruct v as [[| | |z| |]|]; try (destruct (isValidZone z) eqn:E; [done|]); destruct (isValidZone (serverZone o)) eqn:E'; done. Qed.

Lemma minuteSet_settled times : Forall (fun t => HH_MM t = true) times -> minuteSet (js_sort sle (unique [] times)) = js_sort sle (unique [] times).
Proof. intros H. unfold minuteSet. rewrite (filter_all _ (js_sort _ _)) by by apply sorted_times. apply sort_unique_settled, _. Qed.

Lemma realTimes_minuteSet shape times time : realTimes shape = Some (times, time) -> minuteSet times = times.
Proof.
  unfold realTimes. cbv zeta. destruct (jget "times" shape) as [[| | | |l|]|].
  5: { destruct (all_strings HH_MM l) as [k|] eqn:E; [|done]. intros [= <- _]. apply minuteSet_settled. by apply all_strings_spec in E as [_ ?]. }
  all: destruct (jget "time" shape) as [[| | |t| |]|]; try done; destruct (HH_MM t) eqn:E; try done; intros [= <- _]; exact (minuteSet_settled [t] ltac:(by repeat constructor)).
Qed.

Lemma weekdaySet_real v : weekdaySet (realWeekdays v) = realWeekdays v.
Proof.
  rewrite <- (realWeekdays_settled v) at 2. cbn [realWeekdays]. rewrite omap_ints. unfold weekdaySet.
  assert (Forall (fun d => 0 <= d <= 6) (realWeekdays v)) as Hr.
  { unfold realWeekdays. destruct v as [[| | | |l|]|]; try constructor. rewrite js_sort_perm. apply Forall_forall. by intros x [[Hx _]%list_elem_of_filter _]%unique_elem. }
  rewrite (filter_all _ (realWeekdays v)) by done. rewrite filter_all; [done|].
  apply Forall_forall. intros x [Hx _]%unique_elem. rewrite Forall_forall in Hr. auto.
Qed.

Lemma omap_texts (l : list string) : omap (fun t => match t with JStr s => Some s | _ => None end) (JStr <$> l) = l.
Proof. induction l as [|t l IH]; [done|]. cbn [fmap list_fmap omap list_omap]. by f_equal. Qed.

(** A stored schedule is one the scheduler understands in full. What normalisation
    accepts reads back as a schedule of a valid zone: its times are well formed, sorted
    and distinct, its weekdays are distinct numbers from 0 to 6 and at least one, its
    date and time name a slot, and its cron expression yields a next run at the time
    of the normalisation. *)
Theorem stored_schedule_is_understood raw s : isValidZone "UTC" = true -> object_wf raw -> normalizeSchedule raw o = Some s ->
  exists ts, schedule_of s = Some ts /\ isValidZone (timezone_of ts) = true /\ well_formed ts.
Proof.
  intros Hu Hw. unfold normalizeSchedule. destruct raw as [[| | | | |shape]|]; try done. cbn [record object_wf] in *.
  destruct (schedule_rules shape o) as [rules|] eqn:Er; [|done]. intros [= <-]. pose proof (schedule_rules_nodup o _ _ Er) as Hn.
  pose proof (overlay_agrees rules shape Hw Hn) as Hget. revert Hget. generalize (overlay rules shape). intros f Hget. clear Hn.
  pose proof (zoneOrDefault_valid (jget "timezone" shape) Hu) as Hz. unfold schedule_of. cbv zeta. cbn [jfield].
  unfold schedule_rules in Er. cbv zeta in Er. set (zone := zoneOrDefault (jget "timezone" shape) o) in *.
  destruct (is_str (jget "kind" shape) "daily"); [|destruct (is_str (jget "kind" shape) "weekly"); [|destruct (is_str (jget "kind" shape) "once"); [|destruct (is_str (jget "kind" shape) "cron"); [|done]]]].
  - destruct (realTimes shape) as [[times time]|] eqn:Et; [|done]. injection Er as <-.
    rewrite !(Hget "kind" _ eq_refl), !(Hget "timezone" _ eq_refl), !(Hget "times" _ eq_refl). unfold strings. rewrite omap_texts.
    eexists. split; [reflexivity|]. split; [done|]. by eapply realTimes_minuteSet.
  - destruct (realTimes shape) as [[times time]|] eqn:Et; [|done]. destruct (bool_decide (realWeekdays (jget "weekdays" shape) = [])) eqn:Ew; [done|]. injection Er as <-.
    rewrite !(Hget "kind" _ eq_refl), !(Hget "timezone" _ eq_refl), !(Hget "times" _ eq_refl), !(Hget "weekdays" _ eq_refl). unfold strings. rewrite omap_texts, omap_ints.
    eexists. split; [reflexivity|]. split; [done|]. split; [by eapply realTimes_minuteSet|]. split; [apply weekdaySet_real|by apply bool_decide_eq_false in Ew].
  - destruct (jget "date" shape) as [[| | |date| |]|]; try done. destruct (jget "time" shape) as [[| | |time| |]|]; try done. destruct (_ || _) eqn:Eo; [done|]. injection Er as <-.
    rewrite !(Hget "kind" _ eq_refl), !(Hget "timezone" _ eq_refl), !(Hget "date" _ eq_refl), !(Hget "time" _ eq_refl).
    eexists. split; [reflexivity|]. split; [done|]. cbn [well_formed]. apply orb_false_iff in Eo as [_ Eo]. apply bool_decide_eq_false in Eo. by apply not_eq_None_Some.
  - destruct (jget "cron" shape) as [[| | |cron| |]|]; try done. destruct (_ || _) eqn:Ec; [done|]. injection Er as <-.
    rewrite !(Hget "kind" _ eq_refl), !(Hget "timezone" _ eq_refl), !(Hget "cron" _ eq_refl).
    eexists. split; [reflexivity|]. split; [done|]. cbn [well_formed computeNextRunAt timezone_of negb orb]. rewrite Hz. cbn [negb].
    apply orb_false_iff in Ec as [_ Ec]. apply bool_decide_eq_false in Ec. by apply not_eq_None_Some.
Qed.

End typed.

(** ** Witnesses *)

Definition ex_options : NormalizeOptions := {| now := date_utc 2026 0 1 0 0; serverZone := "Europe/Berlin" |}.

(** A task as an older build wrote it: one legacy time, an unknown member, a damaged state. *)
Definition ex_schedule : list (string * json) := [("kind", JStr "daily"); ("time", JStr "09:00"); ("note", JNull)].

Definition ex_task : json :=
  JObj [("id", JStr "t1"); ("name", JStr " backup "); ("enabled", JBool true); ("colour", JStr "red");
    ("schedule", JObj ex_schedule); ("execution", JObj [("prompt", JStr "go"); ("providerID", JStr "p"); ("modelID", JStr "m"); ("permissionAutoAccept", JBool true)]);
    ("state", JObj [("lastStatus", JStr "lost"); ("nextRunAt", JInt 5)])].

Lemma ex_task_wf : document_wf ex_task.
Proof.
  assert (forall f : list (string * json), bool_decide (NoDup (jkeys f)) = true -> jwf f) as H by (intros f Hf; by apply bool_decide_eq_true in Hf).
  split_and!; apply H; vm_compute; reflexivity.
Qed.

Definition ex_stored : list (string * json) :=
  match normalizeTaskForStorage (C := clock_of berlin) ex_task ex_options None with NormOk t => t | NormError _ => [] end.

Lemma normalisation_settles_witness :
  normalizeTaskForStorage (C := clock_of berlin) ex_task ex_options None = NormOk ex_stored /\
  jget "colour" ex_stored = Some (JStr "red") /\ jget "name" ex_stored = Some (JStr "backup") /\
  forget_legacy_time ex_stored <> ex_stored /\
  normalizeTaskForStorage (C := clock_of berlin) (JObj (forget_legacy_time ex_stored)) ex_options None = NormOk (forget_legacy_time ex_stored).
Proof.
  assert (normalizeTaskForStorage (C := clock_of berlin) ex_task ex_options None = NormOk ex_stored) as H by (vm_compute; reflexivity).
  destruct (normalisation_settles (C := clock_of berlin) ex_options None ex_task ex_stored ex_task_wf H) as (H1 & _ & H3).
  split; [exact H|]. split; [etransitivity; [apply H1; apply (bool_decide_unpack _); vm_compute; exact I|reflexivity]|].
  split; [vm_compute; reflexivity|]. split; [|exact H3].
  clear. intros E. apply (f_equal (fun t => is_undefined (match jget "schedule" t with Some s => jfield "time" s | None => None end))) in E. vm_compute in E. discriminate.
Defined.

Lemma saved_task_is_loaded_witness :
  let p := {| file := DocOk [("theme", JStr "dark"); (KEY, JArr [JStr "damaged"])]; corrupt := [] |} in
  let p' := (upsertScheduledTask (C := clock_of berlin) ex_options p ex_task 0).2 in
  (upsertScheduledTask (C := clock_of berlin) ex_options p ex_task 0).1 = NormOk ex_stored /\
  forget_legacy_time ex_stored ∈ (loadScheduledTasks (C := clock_of berlin) ex_options p').1.
Proof.
  intros p p'. pose proof (saved_task_is_loaded (C := clock_of berlin) ex_options p ex_task 0 ex_task_wf) as H.
  assert ((upsertScheduledTask (C := clock_of berlin) ex_options p ex_task 0).1 = NormOk ex_stored) as E by (vm_compute; reflexivity).
  unfold p'. destruct (upsertScheduledTask (C := clock_of berlin) ex_options p ex_task 0) as [r q]. cbn [fst] in E. subst r. split; [reflexivity|exact (proj1 H)].
Defined.

Lemma stored_schedule_is_understood_witness :
  exists ts, schedule_of (JObj (overlay [("timezone", Some (JStr "Europe/Berlin")); ("kind", Some (JStr "daily")); ("times", Some (strings ["09:00"])); ("time", Some (JStr "09:00"))] ex_schedule)) = Some ts /\
    isValidZone (Clocks := clock_of berlin) (timezone_of ts) = true /\ well_formed (C := clock_of berlin) ex_options ts.
Proof.
  apply (stored_schedule_is_understood (C := clock_of berlin) ex_options (Some (JObj ex_schedule)));
    [reflexivity|exact (proj1 (proj2 ex_task_wf))|vm_compute; reflexivity].
Defined.

(** A status is tested on its text: an array around a status passes and is stored. *)
Lemma status_array_is_stored : status_of (Some (JArr [JStr "idle"])) = JArr [JStr "idle"].
Proof. reflexivity. Qed.
