(* ===== verification/SchedLoops.v ===== *)
(** Loop files (server/scheduled/loops.ts) and their reconciliation with the stored
    tasks (task-config.ts): parsing a loop document, discovery with shadowing, the
    toggle of the enabled flag, and the table of entries a reconciliation leaves. *)

From S2P Require Import Prelude JsString JsMap JsSort JsValue JsDate SchedNext SchedClaims SchedTasks.

Local Open Scope Z_scope.

(** ** Lines *)

Definition LF : ascii := "010".
Definition CR : ascii := "013".

(** A line without one carriage return at its end. *)
Fixpoint strip_cr (s : string) : string :=
  match s with
  | "" => ""
  | String a "" => if Ascii.eqb a CR then "" else s
  | String a s' => String a (strip_cr s')
  end.

(** All pieces but the last end in a line break. *)
Fixpoint strip_breaks (l : list string) : list string :=
  match l with [] => [] | [x] => [x] | x :: l => strip_cr x :: strip_breaks l end.

(** [text.split(/\r?\n/)] *)
Definition split_lines (text : string) : list string := strip_breaks (split_on LF text).

(** [lines.join(sep)] *)
Fixpoint join (sep : string) (l : list string) : string :=
  match l with [] => "" | [x] => x | x :: l => x +:+ sep +:+ join sep l end.

Definition is_fence (line : string) : bool := bool_decide (trim line = "---").

(** The index of the closing fence among at most [n] lines from index [i]. *)
Fixpoint find_end (n i : nat) (lines : list string) : option nat :=
  match n, lines with
  | S n, line :: lines => if is_fence line then Some i else find_end n (S i) lines
  | _, _ => None
  end.

(** The closing fence of a text that opens with one. *)
Definition frontmatter_end (lines : list string) : option nat :=
  match lines with
  | line :: rest => if is_fence line then find_end 256 1 rest else None
  | [] => None
  end.

Definition ends_with (c : ascii) (s : string) : bool := match last_index_of c s with Some i => bool_decide (S i = String.length s) | None => false end.
Definition begins_with (c : ascii) (s : string) : bool := match s with String a _ => Ascii.eqb a c | "" => false end.

Definition QUOTE : ascii := "034".

Definition stripQuotes (value : string) : string :=
  if bool_decide (2 <= slen value) && ((begins_with QUOTE value && ends_with QUOTE value) || (begins_with "'" value && ends_with "'" value))
  then stake (String.length value - 2) (sdrop 1 value) else value.

(** The key and value of a metadata line. *)
Definition meta_entry (line : string) : option (string * string) :=
  match index_of ":" line with
  | None | Some O => None
  | Some at_ => Some (trim (stake at_ line), stripQuotes (trim (sdrop (S at_) line)))
  end.

Definition meta_of (lines : list string) : list (string * string) :=
  fold_left (fun m line => match meta_entry line with Some (k, v) => jset k v m | None => m end) lines [].

Definition splitFrontmatter (text : string) : option (list (string * string) * string) :=
  let lines := split_lines text in
  match frontmatter_end lines with
  | None => None
  | Some end_ => Some (meta_of (take (end_ - 1) (drop 1 lines)), trim (join (String LF "") (drop (S end_) lines)))
  end.

(** ** Loop documents *)

Record LoopDefinition := { d_name : string; d_cron : string; d_zone : string; d_prompt : string; d_provider : string; d_model : string; d_agent : option string; d_enabled : bool }.

Inductive Scope := ScopeUser | ScopeProject.

Record DiscoveredLoop := mkLoop { l_name : string; l_file : string; l_scope : Scope; definition : option LoopDefinition; reason : option string }.

Definition LOOP_NAME_LEGAL (s : string) : bool := sall (fun a => is_alnum a || Ascii.eqb a "." || Ascii.eqb a "_" || Ascii.eqb a "-") s.

Section parse.
  Context {C : Clocks} (o : NormalizeOptions).

Definition loopZone (value : option string) : string := match value with Some z => if isValidZone z then z else serverZone o | None => serverZone o end.

Definition boundedAgent (value : option string) : option string :=
  match value with Some s => if bool_decide (s = "") || bool_decide (TASK_ROUTE_ID_MAX < slen s) then None else Some s | None => None end.

Definition out_of (max : Z) (s : string) : bool := bool_decide (s = "") || bool_decide (max < slen s).

Definition parseLoopFile (text : string) : DiscoveredLoop :=
  let base name r := mkLoop name "" ScopeProject None (Some r) in
  match splitFrontmatter text with
  | None => base "" "loop file has no frontmatter block"
  | Some (meta, body) =>
    let text_of k := default "" (jget k meta) in
    let name := trim (text_of "name") in
    if out_of TASK_NAME_MAX name then base "" "loop name must be 1..80 characters"
    else if negb (LOOP_NAME_LEGAL name) then base name "loop name is not a legal task id segment"
    else let cron := trim (text_of "schedule") in
    if bool_decide (cron = "") || (TASK_CRON_MAX <? String.length cron)%nat then base name "loop schedule is missing or too long"
    else let timezone := loopZone (jget "timezone" meta) in
    if bool_decide (cronNextAt cron timezone (now o) = None) then base name "loop schedule is not a valid cron expression"
    else let model := text_of "model" in
    let cutoff := match index_of "/" model with Some (S n) => Some (S n) | _ => None end in
    let providerID := match cutoff with Some n => stake n model | None => "" end in
    let modelID := match cutoff with Some n => sdrop (S n) model | None => "" end in
    if out_of TASK_ROUTE_ID_MAX providerID || out_of TASK_ROUTE_ID_MAX modelID
    then base name "loop model must be a providerID/modelID pair split on the first slash"
    else if out_of TASK_PROMPT_MAX body then base name "loop body (the prompt) is required"
    else mkLoop name "" ScopeProject
      (Some {| d_name := name; d_cron := cron; d_zone := timezone; d_prompt := body; d_provider := providerID; d_model := modelID;
               d_agent := boundedAgent (jget "agent" meta); d_enabled := bool_decide (jget "enabled" meta = Some "true") |}) None
  end.

End parse.

Definition scope_name (s : Scope) : string := match s with ScopeUser => "user" | ScopeProject => "project" end.

Definition loopTaskId (loop : DiscoveredLoop) : string := "loop:" +:+ scope_name (l_scope loop) +:+ ":" +:+ l_name loop.

(** ** The enabled flag *)

(** [/^enabled\s*:/] *)
Definition is_flag_line (line : string) : bool :=
  starts_with "enabled" line && begins_with ":" (trimStart (sdrop 7 line)).

Definition flag_line (enabled : bool) : string := "enabled: " +:+ (if enabled then "true" else "false").

(** Rewrites the first flag line, or appends one. *)
Fixpoint put_flag (flag : string) (lines : list string) : list string :=
  match lines with
  | [] => [flag]
  | line :: lines => if is_flag_line line then flag :: lines else line :: put_flag flag lines
  end.

(** [text.includes('\r\n')] *)
Fixpoint has_crlf (s : string) : bool :=
  match s with
  | String a s' => (Ascii.eqb a CR && begins_with LF s') || has_crlf s'
  | "" => false
  end.

Definition writeLoopEnabled (text : string) (enabled : bool) : option string :=
  let lines := split_lines text in
  match frontmatter_end lines with
  | None => None
  | Some end_ =>
    let eol := if has_crlf text then String CR (String LF "") else String LF "" in
    Some (join eol (take 1 lines ++ put_flag (flag_line enabled) (take (end_ - 1) (drop 1 lines)) ++ drop end_ lines))
  end.

(** ** Discovery *)

Record RawLoop := { r_file : string; r_scope : Scope; r_text : string }.

(** The file system and the collation of the platform. *)
Class Files := {
  readdir : string -> option (list string);
  readFile : string -> option string;
  hasGit : string -> bool;
  dirname : string -> string;
  joinPath : string -> string -> string;
  localeCompare : string -> string -> Z;
}.

Definition ends_in_md (s : string) : bool := bool_decide (3 <= slen s) && bool_decide (sdrop (String.length s - 3) s = ".md").

Section discover.
  Context {C : Clocks} {F : Files} (o : NormalizeOptions).

(** From the project path up to the worktree root, or the root of the file system. *)
Fixpoint ancestors (depth : nat) (current : string) : list string :=
  match depth with
  | O => []
  | S depth =>
    current :: (if hasGit current then [] else let parent := dirname current in if bool_decide (parent = current) then [] else ancestors depth parent)
  end.

Definition projectLoopAncestors (projectPath : string) : list string := ancestors 96 projectPath.

Definition scanLoopDir (dir : string) (scope : Scope) : list RawLoop :=
  match readdir dir with
  | None => []
  | Some names =>
    omap (fun entry => let file := joinPath dir entry in (fun text => {| r_file := file; r_scope := scope; r_text := text |}) <$> readFile file)
      (js_sort sle (filter (fun entry => ends_in_md entry = true) names))
  end.

Definition loopsDir (dir : string) : string := joinPath (joinPath dir ".agents") "loops".

(** Least priority first. *)
Definition ranked (projectPath : option string) (userLoopsDir : string) : list RawLoop :=
  scanLoopDir userLoopsDir ScopeUser
  ++ concat ((fun dir => scanLoopDir (loopsDir dir) ScopeProject) <$> reverse (match projectPath with Some p => projectLoopAncestors p | None => [] end)).

Definition parsedLoop (raw : RawLoop) : DiscoveredLoop :=
  let l := parseLoopFile o (r_text raw) in mkLoop (l_name l) (r_file raw) (r_scope raw) (definition l) (reason l).

(** A later file shadows an earlier one of its name. *)
Definition byName (raws : list RawLoop) : list (string * DiscoveredLoop) :=
  fold_left (fun m raw => let l := parsedLoop raw in if bool_decide (l_name l = "") then m else jset (l_name l) l m) raws [].

Definition loop_le (a b : DiscoveredLoop) : bool :=
  let c := localeCompare (l_name a) (l_name b) in
  if bool_decide (c = 0) then bool_decide (localeCompare (l_file a) (l_file b) <= 0) else bool_decide (c < 0).

Definition discoverLoops (projectPath : option string) (userLoopsDir : string) : list DiscoveredLoop :=
  js_sort loop_le (jvals (byName (ranked projectPath userLoopsDir))).

(** The last file of a name, the nearest one, is the loop of that name. *)
Lemma nearest_file_wins raws name : name <> "" -> jget name (byName raws) = last (filter (fun l => l_name l = name) (parsedLoop <$> raws)).
Proof.
  intros Hn. induction raws as [|raw raws IH] using rev_ind; [done|]. unfold byName. rewrite fold_left_app, fmap_app, filter_app. cbn [fold_left fmap list_fmap]. fold (byName raws). cbv zeta.
  set (L := parsedLoop raw). case_bool_decide as E; [rewrite filter_cons_False by congruence; by rewrite filter_nil, app_nil_r|].
  destruct (decide (l_name L = name)) as [<-|Hne]; [by rewrite jget_set_eq, filter_cons_True, filter_nil, last_snoc|].
  by rewrite jget_set_ne, filter_cons_False, filter_nil, app_nil_r by congruence.
Qed.

End discover.

(** ** Reconciliation *)

(** The document a loop drives. *)
Definition loopTaskInput (loop : DiscoveredLoop) (d : LoopDefinition) (stored : option json) (id : option string) : json :=
  let base := default [] (record stored) in
  let execution := overlay ([("prompt", Some (JStr (d_prompt d))); ("providerID", Some (JStr (d_provider d))); ("modelID", Some (JStr (d_model d)))]
      ++ match d_agent d with Some agent => [("agent", Some (JStr agent))] | None => [] end) (default [] (record (jget "execution" base))) in
  JObj (overlay [("id", Some (JStr (default (loopTaskId loop) id))); ("name", Some (JStr (d_name d))); ("enabled", Some (JBool (d_enabled d)));
    ("schedule", Some (JObj [("kind", JStr "cron"); ("cron", JStr (d_cron d)); ("timezone", JStr (d_zone d))]));
    ("execution", Some (JObj execution)); ("loopFile", Some (JStr (l_file loop)))] base).

(** The loop file an entry points at. *)
Definition file_of (entry : json) : option string := nonempty_string (jfield "loopFile" entry).

Definition LOOP_TASK_ID_PATTERN (id : string) : bool := starts_with "loop:user:" id || starts_with "loop:project:" id.

Fixpoint index_files (i : nat) (entries : list json) (index : list (string * list nat)) : list (string * list nat) :=
  match entries with
  | [] => index
  | e :: entries =>
    index_files (S i) entries (match file_of e with Some f => jset f (default [] (jget f index) ++ [i]) index | None => index end)
  end.

Definition loopFileIndex (entries : list json) : list (string * list nat) := index_files 0 entries [].

(** All pointers of a file but the first. *)
Definition duplicatePointers (index : list (string * list nat)) : gset nat :=
  list_to_set (concat ((fun kv => match kv.2 with [] => [] | keep :: l => filter (fun extra => extra <> keep) (keep :: l) end) <$> index)).

(** The first entry the test accepts that is not to be dropped. *)
Fixpoint first_kept (test : json -> bool) (drop : gset nat) (i : nat) (entries : list json) : option nat :=
  match entries with
  | [] => None
  | e :: entries => if bool_decide (i ∉ drop) && test e then Some i else first_kept test drop (S i) entries
  end.

Definition points_at (file : string) (e : json) : bool := is_str (jfield "loopFile" e) file.

Definition adoptable (loop : DiscoveredLoop) (e : json) : bool :=
  match e with
  | JObj f => negb (is_string (jget "loopFile" f)) && (is_str (jget "name" f) (l_name loop) || is_str (jget "id" f) (loopTaskId loop))
  | _ => false
  end.

(** Where a loop lands, and whether its file owns the entry. *)
Definition loopTarget (entries : list json) (loop : DiscoveredLoop) (drop : gset nat) : option (nat * bool) :=
  match first_kept (points_at (l_file loop)) drop 0 entries with
  | Some i => Some (i, true)
  | None => (fun i => (i, false)) <$> first_kept (adoptable loop) drop 0 entries
  end.

Definition refreshedId (loop : DiscoveredLoop) (stored : option json) (fileOwned : bool) : option string :=
  match mbind (jfield "id") stored with
  | Some (JStr storedId) =>
    let renamed := match mbind (jfield "name") stored with Some (JStr n) => negb (bool_decide (n = l_name loop)) | _ => false end in
    Some (if fileOwned && negb (bool_decide (storedId = loopTaskId loop)) && (renamed || LOOP_TASK_ID_PATTERN storedId) then loopTaskId loop else storedId)
  | _ => None
  end.

(** The entries but those to be dropped. *)
Fixpoint keep (drop : gset nat) (i : nat) (entries : list json) : list json :=
  match entries with
  | [] => []
  | e :: entries => if bool_decide (i ∈ drop) then keep drop (S i) entries else e :: keep drop (S i) entries
  end.

Section reconcile.
  Context {C : Clocks} (o : NormalizeOptions).

(** One loop of the table: the next entries, and whether one was edited. *)
Definition apply_loop (entries : list json) (drop : gset nat) (st : list json * bool) (loop : DiscoveredLoop) : list json * bool :=
  let '(next, edited) := st in
  match definition loop with
  | None => st
  | Some d =>
    let target := loopTarget entries loop drop in
    let stored := match target with Some (i, _) => (match entries !! i with Some (JObj f) => Some (JObj f) | _ => None end) | None => None end in
    let owned := match target with Some (_, b) => b | None => false end in
    match normalizeTaskForStorage (loopTaskInput loop d stored (refreshedId loop stored owned)) o None with
    | NormError _ => st
    | NormOk task => (match target with None => next ++ [JObj task] | Some (i, _) => <[i := JObj task]> next end, true)
    end
  end.

(** The first pointers of the files that were not discovered. *)
Definition orphans (index : list (string * list nat)) (loops : list DiscoveredLoop) : gset nat :=
  list_to_set (omap (fun kv => if bool_decide (kv.1 ∈ l_file <$> loops) then None else head kv.2) index).

(** The entries after a reconciliation; [None] when nothing changed. *)
Definition applyLoopEntries (entries : list json) (loops : list DiscoveredLoop) : option (list json) :=
  let index := loopFileIndex entries in
  let drop := duplicatePointers index in
  let '(next, edited) := fold_left (apply_loop entries drop) loops (entries, false) in
  let drop := drop ∪ orphans index loops in
  if negb edited && bool_decide (drop = ∅) then None else Some (keep drop 0 next).

Definition reconcileLoopTasks (p : Project) (loops : list DiscoveredLoop) (stamp : Z) : (list (list (string * json)) * list string) * Project :=
  let entries := entries_of (file p) in
  match applyLoopEntries entries loops with
  | None => (parseTasks o entries, p)
  | Some next => (parseTasks o next, write_tasks p next stamp)
  end.

End reconcile.

(** ** The index of loop files *)

Definition indexed (all : list json) (n : nat) (index : list (string * list nat)) : Prop :=
  jwf index /\ (forall f l, jget f index = Some l -> l <> []) /\
  forall f j, (exists l, jget f index = Some l /\ j ∈ l) <-> (j < n)%nat /\ mbind file_of (all !! j) = Some f.

Lemma indexed_step all i e index : all !! i = Some e -> indexed all i index ->
  indexed all (S i) (match file_of e with Some f => jset f (default [] (jget f index) ++ [i]) index | None => index end).
Proof.
  intros He (Hw & Hne & Hi). assert (forall f j, (j < S i)%nat /\ mbind file_of (all !! j) = Some f <-> ((j < i)%nat /\ mbind file_of (all !! j) = Some f) \/ (j = i /\ file_of e = Some f)) as Hsplit.
  { intros f j. split; [intros [Hj H]|intros [[Hj H]|[-> H]]; (split; [lia|]); rewrite ?He; done].
    destruct (decide (j = i)) as [->|]; [right; by rewrite He in H|left; split; [lia|done]]. }
  destruct (file_of e) as [f|] eqn:Ef.
  - split_and!; [by apply jwf_set|intros g l; destruct (decide (g = f)) as [->|]; [rewrite jget_set_eq; intros [= <-]; by destruct (default _ _)|rewrite jget_set_ne by done; apply Hne]|].
    intros g j. rewrite Hsplit, <- Hi. destruct (decide (g = f)) as [->|Hg].
    + rewrite jget_set_eq. split.
      * intros (l & [= <-] & [H|H%list_elem_of_singleton]%elem_of_app); [left|subst j; by right]. destruct (jget f index) as [l|]; [by exists l|by apply elem_of_nil in H].
      * intros [(l & -> & H)|[-> _]]; (eexists; split; [done|]); apply elem_of_app; [by left|right; by apply list_elem_of_singleton].
    + rewrite jget_set_ne by done. naive_solver.
  - split_and!; [done|done|]. intros g j. rewrite Hsplit, <- Hi. naive_solver.
Qed.

Lemma index_files_spec all i entries index : drop i all = entries -> indexed all i index -> indexed all (length all) (index_files i entries index).
Proof.
  revert i index. induction entries as [|e entries IH]; intros i index Hd Hi; cbn [index_files].
  - assert (length all <= i)%nat as Hl by (apply (f_equal length) in Hd; rewrite length_drop in Hd; cbn in Hd; lia).
    destruct Hi as (Hw & Hne & Hi). split_and!; [done|done|]. intros f j. rewrite Hi. split; intros [Hj H]; (split; [|done]); [|lia].
    destruct (all !! j) eqn:E; [by eapply lookup_lt_Some|done].
  - assert (all !! i = Some e) as He by (rewrite <- (Nat.add_0_r i), <- lookup_drop, Hd; done).
    apply IH; [|by apply indexed_step]. rewrite <- (skipn_skipn 1 i), Hd. done.
Qed.

Lemma loopFileIndex_spec entries : indexed entries (length entries) (loopFileIndex entries).
Proof. apply index_files_spec; [done|]. split_and!; [constructor|done|]. intros f j. split; [by intros (? & ? & _)|lia]. Qed.

(** A pointer that survives is the first of its file. *)
Lemma kept_pointer_head entries i f : (i ∉ duplicatePointers (loopFileIndex entries)) -> mbind file_of (entries !! i) = Some f ->
  exists l, jget f (loopFileIndex entries) = Some l /\ head l = Some i.
Proof.
  intros Hi Ei. destruct (loopFileIndex_spec entries) as (Hw & Hne & Hx).
  destruct (proj2 (Hx f i)) as (l & Hl & Hk); [split; [|done]; destruct (entries !! i) eqn:E; [by eapply lookup_lt_Some|done]|].
  exists l. split; [done|]. destruct l as [|h l]; [by apply elem_of_nil in Hk|]. cbn [head]. f_equal. destruct (decide (i = h)) as [|Hne']; [done|]. exfalso. apply Hi.
  unfold duplicatePointers. apply elem_of_list_to_set, list_elem_of_In, in_concat. eexists. split; [apply list_elem_of_In, list_elem_of_fmap; exists (f, h :: l); split; [reflexivity|by apply jget_Some_elem]|].
  apply list_elem_of_In, list_elem_of_filter. done.
Qed.

(** At most one pointer of a file survives. *)
Lemma kept_pointer_unique entries i j f : (i ∉ duplicatePointers (loopFileIndex entries)) -> (j ∉ duplicatePointers (loopFileIndex entries)) ->
  mbind file_of (entries !! i) = Some f -> mbind file_of (entries !! j) = Some f -> i = j.
Proof.
  intros Hi Hj Ei Ej. destruct (kept_pointer_head entries i f Hi Ei) as (l & Hl & H1), (kept_pointer_head entries j f Hj Ej) as (l' & Hl' & H2). congruence.
Qed.

(** A dropped pointer points at a file, and some pointer of that file survives. *)
Lemma dropped_is_pointer entries i : i ∈ duplicatePointers (loopFileIndex entries) -> exists f, mbind file_of (entries !! i) = Some f.
Proof.
  destruct (loopFileIndex_spec entries) as (Hw & Hne & Hx). unfold duplicatePointers. intros (l & Hl & Hi)%elem_of_list_to_set%list_elem_of_In%in_concat.
  apply list_elem_of_In, list_elem_of_fmap in Hl as ([f k] & -> & Hk). cbn [snd] in Hi. apply list_elem_of_In in Hi.
  exists f. apply (Hx f i). exists k. split; [by apply jget_elem|]. destruct k as [|h k]; [by apply elem_of_nil in Hi|]. by apply list_elem_of_filter in Hi as [_ Hi].
Qed.

Lemma pointer_kept entries i f : mbind file_of (entries !! i) = Some f ->
  exists h, (h ∉ duplicatePointers (loopFileIndex entries)) /\ mbind file_of (entries !! h) = Some f.
Proof.
  intros Ei. destruct (loopFileIndex_spec entries) as (Hw & Hne & Hx). assert (i < length entries)%nat as Hlt by (destruct (entries !! i) eqn:E; [by eapply lookup_lt_Some|done]).
  destruct (proj2 (Hx f i) (conj Hlt Ei)) as (l & Hl & _). specialize (Hne f l Hl). destruct l as [|h l]; [done|]. exists h.
  assert (mbind file_of (entries !! h) = Some f) as Eh by (apply (Hx f h); exists (h :: l); split; [done|left]). split; [|done].
  unfold duplicatePointers. intros (k & Hk & Hin)%elem_of_list_to_set%list_elem_of_In%in_concat.
  apply list_elem_of_In, list_elem_of_fmap in Hk as ([g m] & -> & Hm). cbn [snd] in Hin. apply list_elem_of_In in Hin.
  destruct m as [|x m]; [by apply elem_of_nil in Hin|]. apply list_elem_of_filter in Hin as [Hhx Hin].
  assert (mbind file_of (entries !! h) = Some g) as Eg by (apply (Hx g h); exists (x :: m); split; [by apply jget_elem|done]).
  rewrite Eh in Eg. injection Eg as <-. apply jget_elem in Hm; [|done]. rewrite Hl in Hm. injection Hm as <- _. done.
Qed.

(** ** Dropping and keeping *)

Lemma keep_in drop b l i e : l !! i = Some e -> (b + i)%nat ∉ drop -> e ∈ keep drop b l.
Proof.
  revert b i. induction l as [|x l IH]; intros b i Hi Hd; [done|]. cbn [keep]. destruct i as [|i].
  - injection Hi as ->. rewrite Nat.add_0_r in Hd. rewrite bool_decide_false by done. left.
  - assert (e ∈ keep drop (S b) l) as H by (apply (IH (S b) i); [done|by replace (S b + i)%nat with (b + S i)%nat by lia]).
    case_bool_decide; [done|by right].
Qed.

Lemma keep_inv drop b l e : e ∈ keep drop b l -> exists i, l !! i = Some e /\ (b + i)%nat ∉ drop.
Proof.
  revert b. induction l as [|x l IH]; intros b; cbn [keep]; [by intros ?%elem_of_nil|].
  assert (e ∈ keep drop (S b) l -> exists i, (x :: l) !! i = Some e /\ (b + i)%nat ∉ drop) as H.
  { intros (i & Hi & Hd)%IH. exists (S i). split; [done|]. by replace (b + S i)%nat with (S b + i)%nat by lia. }
  case_bool_decide as E; [done|]. intros [->|Hin]%elem_of_cons; [|auto]. exists 0%nat. split; [done|by rewrite Nat.add_0_r].
Qed.

Lemma keep_unique drop b l : (forall i j f, (b + i)%nat ∉ drop -> (b + j)%nat ∉ drop -> mbind file_of (l !! i) = Some f -> mbind file_of (l !! j) = Some f -> i = j) ->
  NoDup (omap file_of (keep drop b l)).
Proof.
  revert b. induction l as [|x l IH]; intros b H; cbn [keep]; [constructor|].
  assert (NoDup (omap file_of (keep drop (S b) l))) as Hn.
  { apply IH. intros i j f Hi Hj Ei Ej. apply Nat.succ_inj. apply (H (S i) (S j) f); [by replace (b + S i)%nat with (S b + i)%nat by lia|by replace (b + S j)%nat with (S b + j)%nat by lia|done|done]. }
  case_bool_decide as E; [done|]. cbn [omap list_omap]. destruct (file_of x) as [f|] eqn:Ef; [|done]. apply NoDup_cons. split; [|done].
  intros (e & He & Hf)%list_elem_of_omap. apply keep_inv in He as (i & Hi & Hd).
  discriminate (H 0%nat (S i) f ltac:(by rewrite Nat.add_0_r) ltac:(by replace (b + S i)%nat with (S b + i)%nat by lia) ltac:(done) ltac:(change (mbind file_of (l !! i) = Some f); by rewrite Hi)).
Qed.

Lemma keep_all b l : keep ∅ b l = l.
Proof. revert b. induction l as [|x l IH]; intros b; [done|]. cbn [keep]. rewrite bool_decide_false by set_solver. by rewrite IH. Qed.

Lemma first_kept_spec test drop b l k : first_kept test drop b l = Some k -> exists i e, k = (b + i)%nat /\ l !! i = Some e /\ (k ∉ drop) /\ test e = true.
Proof.
  revert b. induction l as [|x l IH]; intros b; [done|]. cbn [first_kept]. destruct (_ && _) eqn:E.
  - intros [= <-]. apply andb_true_iff in E as [E1%bool_decide_eq_true E2]. exists 0%nat, x. split_and!; [lia|done|done|done].
  - intros (i & e & -> & Hi & Hd & Ht)%IH. exists (S i), e. split_and!; [lia|done|done|done].
Qed.

Lemma first_kept_none test drop b l i e : first_kept test drop b l = None -> l !! i = Some e -> (b + i)%nat ∉ drop -> test e = false.
Proof.
  revert b i. induction l as [|x l IH]; intros b i; [done|]. cbn [first_kept]. destruct (_ && _) eqn:E; [done|]. intros H Hi Hd. destruct i as [|i].
  - injection Hi as ->. rewrite Nat.add_0_r in Hd. rewrite bool_decide_true in E by done. done.
  - apply (IH (S b) i H Hi). by replace (S b + i)%nat with (b + S i)%nat by lia.
Qed.

Lemma points_at_file f e : f <> "" -> points_at f e = true <-> file_of e = Some f.
Proof.
  intros Hf. unfold points_at, file_of, nonempty_string, is_str. destruct (jfield "loopFile" e) as [[| | |s| |]|]; try done.
  case_bool_decide as E1; case_bool_decide as E2; subst; split; try congruence; naive_solver.
Qed.

(** ** The table after a reconciliation *)

Section table.
  Context {C : Clocks} (o : NormalizeOptions) (entries : list json).

Abbreviation drops := (duplicatePointers (loopFileIndex entries)).
Abbreviation target L := (loopTarget entries L drops).

Lemma loopTarget_spec L i b : target L = Some (i, b) -> exists e, entries !! i = Some e /\ (i ∉ drops) /\ (if b then points_at (l_file L) e else adoptable L e) = true.
Proof.
  unfold loopTarget. destruct (first_kept (points_at (l_file L)) drops 0 entries) as [k|] eqn:E.
  - intros [= <- <-]. destruct (first_kept_spec _ _ _ _ _ E) as (j & e & -> & He & Hd & Ht). by exists e.
  - intros (k & Hk & Heq)%fmap_Some. injection Heq as -> ->. destruct (first_kept_spec _ _ _ _ _ Hk) as (j & e & -> & He & Hd & Ht). by exists e.
Qed.

(** A surviving pointer at a loop's file is where the loop lands. *)
Lemma loopTarget_pointer L i : l_file L <> "" -> mbind file_of (entries !! i) = Some (l_file L) -> i ∉ drops -> target L = Some (i, true).
Proof.
  intros Hf Hi Hd. unfold loopTarget. destruct (first_kept (points_at (l_file L)) drops 0 entries) as [k|] eqn:E.
  - destruct (first_kept_spec _ _ _ _ _ E) as (j & e & -> & He & Hdj & Ht). rewrite points_at_file in Ht by done. do 2 f_equal.
    apply (kept_pointer_unique entries _ _ (l_file L)); [done|done|cbn [Nat.add]; by rewrite He|done].
  - destruct (entries !! i) as [e|] eqn:Ee; [|done]. pose proof (first_kept_none _ _ _ _ _ _ E Ee Hd) as Ht. apply points_at_file in Hi; [|done]. congruence.
Qed.

(** The task of a loop points at the loop's file, or, with an overlong path, at none. *)
Lemma loop_task_file L d stored tid task : object_wf stored ->
  normalizeTaskForStorage (loopTaskInput L d stored tid) o None = NormOk task -> file_of (JObj task) = None \/ file_of (JObj task) = Some (l_file L).
Proof.
  intros Hw H. unfold loopTaskInput in H. set (base := default [] (record stored)) in *. cbv zeta in H.
  assert (jwf base) as Hb by (unfold base; destruct stored as [[]|]; cbn; try constructor; done).
  set (rules := [("id", _); _; _; _; _; _]) in H. apply normalizeTask_inv in H as (i & n & en & s & ex & _ & _ & _ & _ & _ & _ & _ & _ & ->).
  unfold file_of. cbn [jfield]. rewrite overlay_get by (rules_nodup || by apply overlay_wf). change (jget "loopFile" (task_rules _ _ _ _ _ _ ?x)) with (Some x). cbn [default from_option id].
  rewrite overlay_get by (done || rules_nodup). change (jget "loopFile" rules) with (Some (Some (JStr (l_file L)))). cbn [default from_option id].
  unfold boundedString. destruct (_ || _) eqn:E; [by left|]. right. apply orb_false_iff in E as [E _]. cbn [fmap option_fmap option_map nonempty_string]. by rewrite E.
Qed.

(** Which loop wrote each place of the table. *)
Definition table (Ls : list DiscoveredLoop) (next : list json) : Prop :=
  exists own : nat -> option DiscoveredLoop,
    (forall i L, own i = Some L -> L ∈ Ls /\ is_Some (definition L) /\ ((exists b, target L = Some (i, b)) \/ (target L = None /\ (length entries <= i)%nat))) /\
    (forall i j L, (length entries <= i)%nat -> (length entries <= j)%nat -> own i = Some L -> own j = Some L -> i = j) /\
    (length entries <= length next)%nat /\
    (forall i e, next !! i = Some e -> match own i with None => entries !! i = Some e | Some L => file_of e = None \/ file_of e = Some (l_file L) end) /\
    forall i e, entries !! i = Some e -> own i = None -> next !! i = Some e.

Lemma table_start : table [] entries.
Proof. exists (fun _ => None). split_and!; try done. Qed.

Lemma table_write Ls next L d (task : list (string * json)) : table Ls next -> L ∉ Ls -> definition L = Some d ->
  (file_of (JObj task) = None \/ file_of (JObj task) = Some (l_file L)) ->
  table (Ls ++ [L]) (match target L with None => next ++ [JObj task] | Some (i, _) => <[i := JObj task]> next end).
Proof.
  intros (own & H1 & H2 & H3 & H4 & H5) Hn Hdef Hf. destruct (target L) as [[i b]|] eqn:Et.
  - exists (fun k => if decide (k = i) then Some L else own k). destruct (loopTarget_spec L i b Et) as (e0 & He0 & Hd0 & _). pose proof (lookup_lt_Some _ _ _ He0) as Hlt. split_and!.
    + intros k L' Hk. case_decide as Ek; [subst k; injection Hk as <-; split; [apply elem_of_app; right; by apply list_elem_of_singleton|]; split; [by eexists|]; left; by exists b|].
      destruct (H1 k L' Hk) as (? & ? & ?). split; [apply elem_of_app; by left|done].
    + intros k j L' Hk Hj. rewrite !decide_False by lia. by apply H2.
    + by rewrite length_insert.
    + intros k e. case_decide as Ek; [subst k|rewrite list_lookup_insert_ne by done; apply H4]. rewrite list_lookup_insert_eq by lia. by intros [= <-].
    + intros k e He. case_decide as Ek; [done|]. intros Hk. rewrite list_lookup_insert_ne by done. by apply H5.
  - exists (fun k => if decide (k = length next) then Some L else own k). split_and!.
    + intros k L' Hk. case_decide as Ek; [subst k; injection Hk as <-; split; [apply elem_of_app; right; by apply list_elem_of_singleton|]; split; [by eexists|]; by right|].
      destruct (H1 k L' Hk) as (? & ? & ?). split; [apply elem_of_app; by left|done].
    + intros k j L' Hk Hj. case_decide as Ek; case_decide as Ej; [congruence| | |by apply H2].
      * intros [= <-] Hown. exfalso. apply Hn. by apply (H1 j).
      * intros Hown [= <-]. exfalso. apply Hn. by apply (H1 k).
    + rewrite length_app. lia.
    + intros k e. case_decide as Ek; [subst k; rewrite list_lookup_middle by done; by intros [= <-]|]. intros He. apply H4.
      apply lookup_app_Some in He as [|[? He]]; [done|]. apply list_lookup_singleton_Some in He as [? _]. lia.
    + intros k e He. case_decide as Ek; [apply lookup_lt_Some in He; lia|]. intros Hk. apply lookup_app_l_Some. by apply H5.
Qed.

Lemma apply_loop_table Ls L next edited : Forall (fun e => object_wf (Some e)) entries -> table Ls next -> L ∉ Ls -> (edited = false -> next = entries) ->
  let '(next', edited') := apply_loop o entries drops (next, edited) L in table (Ls ++ [L]) next' /\ (edited' = false -> next' = entries).
Proof.
  intros Hw Ht Hn He.
  assert (table (Ls ++ [L]) next) as Hkeep.
  { destruct Ht as (own & H1 & H2 & H3 & H4 & H5). exists own. split_and!; try done. intros i L' Hi. destruct (H1 i L' Hi) as (? & ? & ?). split; [apply elem_of_app; by left|done]. }
  unfold apply_loop. destruct (definition L) as [d|] eqn:Ed; [|done]. cbv zeta.
  set (stored := match target L with Some (i, _) => _ | None => _ end). destruct (normalizeTaskForStorage _ o None) as [task|] eqn:En; [|done].
  split; [|done]. apply (table_write Ls next L d task); [done|done|done|]. eapply loop_task_file; [|exact En].
  unfold stored. destruct (target L) as [[i b]|]; [|done]. destruct (entries !! i) as [e|] eqn:Ee; [|done]. rewrite Forall_forall in Hw. specialize (Hw e (list_elem_of_lookup_2 _ _ _ Ee)). by destruct e.
Qed.

Lemma apply_loops_table Ls loops next edited : Forall (fun e => object_wf (Some e)) entries -> table Ls next -> NoDup (Ls ++ loops) -> (edited = false -> next = entries) ->
  let '(next', edited') := fold_left (apply_loop o entries drops) loops (next, edited) in table (Ls ++ loops) next' /\ (edited' = false -> next' = entries).
Proof.
  intros Hw. revert Ls next edited. induction loops as [|L loops IH]; intros Ls next edited Ht Hn He; cbn [fold_left]; [by rewrite app_nil_r|].
  pose proof (apply_loop_table Ls L next edited Hw Ht) as Hstep. destruct (apply_loop o entries drops (next, edited) L) as [next1 edited1].
  destruct Hstep as [Ht1 He1]; [|done|].
  - apply NoDup_app in Hn as (_ & Hn & _). intros Hin. by apply (Hn L Hin); left.
  - replace (Ls ++ L :: loops) with ((Ls ++ [L]) ++ loops) by by rewrite <- app_assoc. apply IH; [done|by rewrite <- app_assoc|done].
Qed.

Lemma orphans_spec loops i : i ∈ orphans (loopFileIndex entries) loops <-> exists f l, jget f (loopFileIndex entries) = Some l /\ (f ∉ l_file <$> loops) /\ head l = Some i.
Proof.
  destruct (loopFileIndex_spec entries) as (Hw & _). unfold orphans. rewrite elem_of_list_to_set, list_elem_of_omap. split.
  - intros ([f l] & Hx & H). cbn [fst snd] in H. case_bool_decide as E; [done|]. exists f, l. split_and!; [by apply jget_elem|done|done].
  - intros (f & l & Hl & Hf & H). exists (f, l). split; [by apply jget_Some_elem|]. cbn [fst snd]. by rewrite bool_decide_false.
Qed.

Context (loops : list DiscoveredLoop) (next : list json).
Context (Hfiles : NoDup (l_file <$> loops)) (Hnamed : Forall (fun L => l_file L <> "") loops) (Ht : table loops next).

Abbreviation gone := (drops ∪ orphans (loopFileIndex entries) loops).

Lemma same_file_same_loop L L' : L ∈ loops -> L' ∈ loops -> l_file L = l_file L' -> L = L'.
Proof.
  intros (i & Hi)%list_elem_of_lookup (j & Hj)%list_elem_of_lookup E. assert (i = j) as ->; [|congruence].
  apply (NoDup_lookup _ _ _ (l_file L) Hfiles); rewrite list_lookup_fmap; [by rewrite Hi|by rewrite Hj, E].
Qed.

(** A surviving place of the table whose entry points at a file is the original first
    pointer of that file, or was written by the file's loop. *)
Lemma table_file i e f : next !! i = Some e -> i ∉ gone -> file_of e = Some f ->
  (f ∈ l_file <$> loops) /\
  ((entries !! i = Some e /\ i ∉ drops) \/ exists L, L ∈ loops /\ l_file L = f /\ ((exists b, target L = Some (i, b)) \/ (target L = None /\ (length entries <= i)%nat))).
Proof.
  destruct Ht as (own & H1 & H2 & H3 & H4 & H5). intros He [Hd Ho]%not_elem_of_union Hf. specialize (H4 i e He). destruct (own i) as [L|] eqn:Eo.
  - destruct (H1 i L Eo) as (HL & _ & Htg). destruct H4 as [H4|H4]; [congruence|]. rewrite Hf in H4. injection H4 as ->.
    split; [by apply list_elem_of_fmap_2|]. right. by exists L.
  - split; [|by left]. destruct (kept_pointer_head entries i f Hd ltac:(by rewrite H4)) as (l & Hl & Hh).
    destruct (decide (f ∈ l_file <$> loops)) as [|Hn]; [done|]. exfalso. apply Ho, orphans_spec. by exists f, l.
Qed.

Lemma table_unique i j f : i ∉ gone -> j ∉ gone -> mbind file_of (next !! i) = Some f -> mbind file_of (next !! j) = Some f -> i = j.
Proof.
  intros Hi Hj Ei Ej. destruct (next !! i) as [e|] eqn:He; [|done]. destruct (next !! j) as [e'|] eqn:He'; [|done]. cbn in Ei, Ej.
  assert (forall k k' x L, entries !! k = Some x -> k ∉ drops -> file_of x = Some f -> L ∈ loops -> l_file L = f ->
    ((exists b, target L = Some (k', b)) \/ (target L = None /\ (length entries <= k')%nat)) -> k = k') as Hmix.
  { intros k k' x L Hx Hk Hf HL HLf Htg. rewrite Forall_forall in Hnamed. pose proof (loopTarget_pointer L k (Hnamed L HL) ltac:(rewrite Hx, HLf; done) Hk) as E. destruct Htg as [(b & Hb)|[Hb _]]; congruence. }
  destruct (table_file i e f He Hi Ei) as [_ [[Oi Di]|(L & HL & HLf & Hti)]], (table_file j e' f He' Hj Ej) as [_ [[Oj Dj]|(L' & HL' & HLf' & Htj)]].
  - apply (kept_pointer_unique entries i j f); [done|done|by rewrite Oi|by rewrite Oj].
  - by apply (Hmix i j e L').
  - symmetry. by apply (Hmix j i e' L).
  - assert (L = L') as <- by (apply same_file_same_loop; congruence).
    destruct Hti as [(b & Hb)|[Hb Hli]], Htj as [(b' & Hb')|[Hb' Hlj]]; try congruence.
    destruct Ht as (own & H1 & H2 & H3 & H4 & H5). specialize (H4 i e He) as Ho. specialize (H4 j e' He') as Ho'.
    destruct (own i) as [M|] eqn:Ei'; [|apply lookup_lt_Some in Ho; lia]. destruct (own j) as [M'|] eqn:Ej'; [|apply lookup_lt_Some in Ho'; lia].
    apply (H2 i j L); [done|done| |].
    + rewrite Ei'. f_equal. apply same_file_same_loop; [by apply (H1 i)|done|]. destruct Ho; congruence.
    + rewrite Ej'. f_equal. apply same_file_same_loop; [by apply (H1 j)|done|]. destruct Ho'; congruence.
Qed.

(** A plain entry survives unless a loop adopts it. *)
Lemma table_plain e : e ∈ entries -> is_string (jfield "loopFile" e) = false -> e ∈ keep gone 0 next \/ exists L, L ∈ loops /\ is_Some (definition L) /\ adoptable L e = true.
Proof.
  intros (i & He)%list_elem_of_lookup Hp. assert (mbind file_of (entries !! i) = None) as Hn by (rewrite He; cbn; unfold file_of; by destruct (jfield "loopFile" e) as [[]|]).
  destruct Ht as (own & H1 & H2 & H3 & H4 & H5). destruct (own i) as [L|] eqn:Eo.
  - right. destruct (H1 i L Eo) as (HL & Hdef & [(b & Hb)|[_ Hlen]]); [|apply lookup_lt_Some in He; lia].
    destruct (loopTarget_spec L i b Hb) as (x & Hx & _ & Htest). rewrite He in Hx. injection Hx as <-. exists L. split_and!; [done|done|].
    destruct b; [|done]. unfold points_at, is_str in Htest. by destruct (jfield "loopFile" e) as [[]|].
  - left. apply (keep_in _ 0 next i e (H5 i e He Eo)). cbn [Nat.add]. rewrite not_elem_of_union. split.
    + intros (f & Hf)%dropped_is_pointer. congruence.
    + intros (f & l & Hl & _ & Hh)%orphans_spec. destruct (loopFileIndex_spec entries) as (_ & _ & Hx).
      assert (i ∈ l) as Hin by (destruct l as [|h l]; [done|]; injection Hh as ->; left). destruct (proj1 (Hx f i) (ex_intro _ l (conj Hl Hin))) as [_ E]. congruence.
Qed.

(** A loop whose file does not parse leaves the last good task in place. *)
Lemma table_last_good L : L ∈ loops -> definition L = None -> l_file L ∈ omap file_of entries ->
  exists e, e ∈ entries /\ e ∈ keep gone 0 next /\ file_of e = Some (l_file L).
Proof.
  intros HL Hdef (x & (k & Hk)%list_elem_of_lookup & Hf)%list_elem_of_omap.
  destruct (pointer_kept entries k (l_file L)) as (h & Hh & Eh); [by rewrite Hk|]. destruct (entries !! h) as [e|] eqn:He; [|done]. cbn in Eh.
  exists e. split_and!; [by eapply list_elem_of_lookup_2| |done].
  pose proof Ht as (own & H1 & H2 & H3 & H4 & H5). apply (keep_in _ 0 next h e).
  - apply H5; [done|]. destruct (own h) as [M|] eqn:Eo; [|done]. exfalso. destruct (H1 h M Eo) as (HM & [d Hd] & [(b & Hb)|[_ Hlen]]); [|apply lookup_lt_Some in He; lia].
    destruct (loopTarget_spec M h b Hb) as (y & Hy & _ & Htest). rewrite He in Hy. injection Hy as <-. rewrite Forall_forall in Hnamed. destruct b.
    + apply points_at_file in Htest; [|by apply Hnamed]. assert (M = L) by (apply same_file_same_loop; congruence). congruence.
    + unfold adoptable in Htest. destruct e as [| | | | |fs]; try done. apply andb_true_iff in Htest as [Htest _]. unfold file_of in Eh. cbn [jfield] in Eh. by destruct (jget "loopFile" fs) as [[]|].
  - cbn [Nat.add]. rewrite not_elem_of_union. split; [done|]. intros (f & l & Hl & Hnf & Hhd)%orphans_spec. apply Hnf.
    destruct (loopFileIndex_spec entries) as (_ & _ & Hx). assert (h ∈ l) as Hin by (destruct l as [|h' l]; [done|]; injection Hhd as ->; left).
    destruct (proj1 (Hx f h) (ex_intro _ l (conj Hl Hin))) as [_ E]. rewrite He in E. cbn in E. assert (f = l_file L) as -> by congruence. by apply list_elem_of_fmap_2.
Qed.

End table.

Section reconciled.
  Context {C : Clocks} (o : NormalizeOptions).

(** Unchanged or not, the entries are what the table keeps. *)
Lemma applyLoopEntries_table entries loops : Forall (fun e => object_wf (Some e)) entries -> NoDup loops ->
  exists next, table entries loops next /\
    default entries (applyLoopEntries o entries loops) = keep (duplicatePointers (loopFileIndex entries) ∪ orphans (loopFileIndex entries) loops) 0 next.
Proof.
  intros Hw Hn. pose proof (apply_loops_table o entries [] loops entries false Hw (table_start entries) Hn ltac:(done)) as H.
  unfold applyLoopEntries. cbv zeta. destruct (fold_left _ loops (entries, false)) as [next edited]. destruct H as [Ht He]. exists next. split; [done|].
  destruct edited; [done|]. cbn [negb andb]. case_bool_decide as E; [|done]. cbn [default from_option id]. by rewrite E, keep_all, He.
Qed.

(** C36. After a reconciliation every loop file drives at most one task. Over any stored
    entries and any discovery (files distinct and named): no two entries point at the
    same file; an entry points at a file only if the file was discovered, so the tasks
    of vanished files are gone; an entry without a pointer stays verbatim unless a
    parsed loop adopts it by its name or its id; and a file that was discovered but
    does not parse keeps a task it drove before, verbatim. *)
Theorem files_own_their_tasks entries loops : Forall (fun e => object_wf (Some e)) entries ->
  NoDup (l_file <$> loops) -> Forall (fun L => l_file L <> "") loops ->
  let kept := default entries (applyLoopEntries o entries loops) in
  NoDup (omap file_of kept) /\
  (forall f, f ∈ omap file_of kept -> f ∈ l_file <$> loops) /\
  (forall e, e ∈ entries -> is_string (jfield "loopFile" e) = false ->
    e ∈ kept \/ exists L, L ∈ loops /\ is_Some (definition L) /\ adoptable L e = true) /\
  (forall L, L ∈ loops -> definition L = None -> l_file L ∈ omap file_of entries ->
    exists e, e ∈ entries /\ e ∈ kept /\ file_of e = Some (l_file L)).
Proof.
  intros Hw Hf Hne kept. pose proof (NoDup_fmap_1 _ _ Hf) as Hn. destruct (applyLoopEntries_table entries loops Hw Hn) as (next & Ht & Hk). unfold kept. rewrite Hk. split_and!.
  - apply keep_unique. intros i j f. cbn [Nat.add]. by apply (table_unique entries loops).
  - intros f (e & (i & Hi & Hd)%keep_inv & He)%list_elem_of_omap. by apply (table_file entries loops next Ht i e f Hi Hd He).
  - intros e. by apply table_plain.
  - intros L. by apply (table_last_good entries loops next Hf Hne Ht).
Qed.

End reconciled.

(** ** Witnesses *)

Definition ex_loop (name file prompt : string) : DiscoveredLoop :=
  mkLoop name file ScopeProject (Some {| d_name := name; d_cron := "0 * * * *"; d_zone := "Europe/Berlin"; d_prompt := prompt;
    d_provider := "p"; d_model := "m"; d_agent := None; d_enabled := false |}) None.

Definition ex_entry (id name : string) (rest : list (string * json)) : json := JObj ([("id", JStr id); ("name", JStr name)] ++ rest).

(** A duplicate pointer, a vanished file, a file that no longer parses, and a plain task. *)
Definition ex_entries : list json :=
  [ex_entry "loop:project:a" "a" [("loopFile", JStr "/a.md")]; ex_entry "x" "a2" [("loopFile", JStr "/a.md")];
   ex_entry "loop:project:b" "b" [("loopFile", JStr "/gone.md")]; ex_entry "loop:project:c" "c" [("loopFile", JStr "/c.md")]; ex_entry "p" "plain" []].

Definition ex_loops : list DiscoveredLoop := [ex_loop "a" "/a.md" "go"; mkLoop "c" "/c.md" ScopeProject None (Some "loop body (the prompt) is required")].

Lemma files_own_their_tasks_witness :
  let kept := default ex_entries (applyLoopEntries (C := clock_of berlin) ex_options ex_entries ex_loops) in
  omap file_of kept = ["/a.md"; "/c.md"] /\ length kept = 3%nat /\ NoDup (omap file_of kept) /\
  exists e, e ∈ ex_entries /\ e ∈ kept /\ file_of e = Some "/c.md".
Proof.
  assert (Forall (fun e => object_wf (Some e)) ex_entries) as Hw by (repeat constructor; apply (bool_decide_unpack _); vm_compute; exact I).
  destruct (files_own_their_tasks (C := clock_of berlin) ex_options ex_entries ex_loops Hw) as (H1 & _ & _ & H4);
    [apply (bool_decide_unpack _); vm_compute; exact I|repeat constructor; done|].
  intros kept. split; [vm_compute; reflexivity|]. split; [vm_compute; reflexivity|]. split; [exact H1|].
  apply (H4 (mkLoop "c" "/c.md" ScopeProject None (Some "loop body (the prompt) is required"))); [right; left|reflexivity|apply list_elem_of_omap; exists (ex_entry "loop:project:c" "c" [("loopFile", JStr "/c.md")]); split; [do 3 right; left|reflexivity]].
Defined.

(** Two loops that adopt the same plain entry, one by its name and one by its id: the
    later overwrites the earlier, whose task is missing until the next reconciliation. *)
Lemma adopted_twice_loses_a_loop :
  let entries := [ex_entry "loop:project:b" "a" []] in
  omap file_of (default entries (applyLoopEntries (C := clock_of berlin) ex_options entries [ex_loop "a" "/a.md" "go"; ex_loop "b" "/b.md" "go"])) = ["/b.md"].
Proof. vm_compute. reflexivity. Qed.

(** An agent the file no longer names stays in the task. *)
Lemma agent_survives_its_removal d stored (Hd : d_agent d = None) :
  jfield "agent" (default JNull (jfield "execution" (loopTaskInput (ex_loop "a" "/a.md" "go") d (Some (JObj [("execution", JObj [("agent", JStr stored)])])) None))) = Some (JStr stored).
Proof. unfold loopTaskInput. rewrite Hd. cbv zeta. vm_compute. reflexivity. Qed.

(** ** Splitting what was joined *)

Lemma strip_cr_lacks s : lacks LF s = true -> lacks LF (strip_cr s) = true.
Proof.
  induction s as [|a s IH]; [done|]. intros H. cbn [lacks] in H. apply andb_true_iff in H as [Ha Hs]. cbn [strip_cr]. destruct s as [|b s]; [destruct (Ascii.eqb a CR); [done|]; cbn [lacks]; by rewrite Ha|].
  change (negb (Ascii.eqb a LF) && lacks LF (strip_cr (String b s)) = true). by rewrite Ha, IH.
Qed.

Lemma strip_cr_join s : strip_cr (s +:+ String CR "") = s.
Proof.
  induction s as [|a s IH]; [done|]. change (strip_cr (String a (s +:+ String CR "")) = String a s).
  destruct s as [|b s]; [done|]. change (String a (strip_cr (String b s +:+ String CR "")) = String a (String b s)). by rewrite IH.
Qed.

(** Lines that a break of the given kind separates. *)
Definition separable (crlf : bool) (l : list string) : Prop :=
  Forall (fun x => lacks LF x = true) l /\ (crlf = false -> Forall (fun x => strip_cr x = x) (removelast l)).

Definition eol (crlf : bool) : string := if crlf then String CR (String LF "") else String LF "".

Lemma lacks_app c a b : lacks c (a +:+ b) = lacks c a && lacks c b.
Proof. induction a as [|x a IH]; [done|]. change (negb (Ascii.eqb x c) && lacks c (a +:+ b) = negb (Ascii.eqb x c) && lacks c a && lacks c b). by rewrite IH, andb_assoc. Qed.

Lemma split_lines_join crlf l : l <> [] -> separable crlf l -> split_lines (join (eol crlf) l) = l.
Proof.
  intros Hl [H1 H2]. unfold split_lines. induction l as [|x l IH]; [done|]. apply Forall_cons in H1 as [Hx H1]. destruct l as [|y l]; [cbn [join]; by rewrite split_on_last|].
  assert (split_lines (join (eol crlf) (y :: l)) = y :: l) as E.
  { apply IH; [done|done|]. intros Hc. specialize (H2 Hc). by apply Forall_cons in H2 as [_ H2]. }
  unfold split_lines in E. change (join (eol crlf) (x :: y :: l)) with (x +:+ eol crlf +:+ join (eol crlf) (y :: l)).
  revert E. generalize (join (eol crlf) (y :: l)). intros J E. destruct (split_on_cons LF J) as (z & k & Ez). rewrite Ez in E. destruct crlf.
  - change (x +:+ eol true +:+ J) with (x +:+ (String CR "" +:+ String LF J)). rewrite <- sapp_assoc, split_on_app by (rewrite lacks_app, Hx; done). rewrite Ez.
    change (strip_cr (x +:+ String CR "") :: strip_breaks (z :: k) = x :: y :: l). by rewrite strip_cr_join, E.
  - change (x +:+ eol false +:+ J) with (x +:+ String LF J). rewrite split_on_app by done. rewrite Ez.
    change (strip_cr x :: strip_breaks (z :: k) = x :: y :: l). specialize (H2 eq_refl). apply Forall_cons in H2 as [Hs _]. by rewrite Hs, E.
Qed.

(** Without a carriage return before a line feed, no piece but the last ends in one. *)
Lemma no_crlf_pieces text : has_crlf text = false -> Forall (fun x => strip_cr x = x) (removelast (split_on LF text)).
Proof.
  induction text as [|a s IH]; [constructor|]. intros H. cbn [has_crlf] in H. apply orb_false_iff in H as [Ha Hs]. specialize (IH Hs).
  destruct (split_on_cons LF s) as (x & l & E). cbn [split_on]. rewrite E in *. destruct (Ascii.eqb a LF) eqn:El; [by constructor|].
  destruct l as [|y l]; [constructor|]. apply Forall_cons in IH as [Hx Hl]. apply Forall_cons. split; [|exact Hl]. destruct x as [|b x].
  - cbn [strip_cr]. destruct s as [|c s]; [done|]. cbn [split_on] in E. destruct (Ascii.eqb c LF) eqn:Ec; [|by destruct (split_on LF s)].
    cbn [begins_with] in Ha. rewrite Ec, andb_true_r in Ha. by rewrite Ha.
  - change (String a (strip_cr (String b x)) = String a (String b x)). by rewrite Hx.
Qed.

Lemma strip_breaks_id l : Forall (fun x => strip_cr x = x) (removelast l) -> strip_breaks l = l.
Proof. induction l as [|x l IH]; [done|]. destruct l as [|y l]; [done|]. intros [Hx Hl]%Forall_cons. change (strip_cr x :: strip_breaks (y :: l) = x :: y :: l). by rewrite Hx, IH. Qed.

Lemma split_lines_separable text : separable (has_crlf text) (split_lines text) /\ split_lines text <> [].
Proof.
  unfold split_lines. destruct (split_on_cons LF text) as (x & l & E). pose proof (split_on_lacks LF text) as Hl. split; [|rewrite E; by destruct l]. split.
  - revert Hl. generalize (split_on LF text). clear. intros l. induction l as [|x l IH]; [constructor|]. intros [Hx Hl]%Forall_cons.
    destruct l as [|y l]; [by repeat constructor|]. constructor; [by apply strip_cr_lacks|by apply IH].
  - intros Hc. pose proof (no_crlf_pieces _ Hc) as H. by rewrite strip_breaks_id.
Qed.

(** ** The metadata of a document *)

Lemma find_end_some n i lines k : find_end n i lines = Some k ->
  exists mid fence post, lines = mid ++ fence :: post /\ k = (i + length mid)%nat /\ Forall (fun x => is_fence x = false) mid /\ is_fence fence = true /\ (length mid < n)%nat.
Proof.
  revert i lines. induction n as [|n IH]; intros i [|x lines]; try done. cbn [find_end]. destruct (is_fence x) eqn:E.
  - intros [= <-]. exists [], x, lines. split_and!; [done|cbn; lia|constructor|done|cbn; lia].
  - intros (mid & fence & post & -> & -> & Hm & Hf & Hn)%IH. exists (x :: mid), fence, post. split_and!; [done|cbn; lia|by constructor|done|cbn; lia].
Qed.

Lemma find_end_here n i mid fence post : Forall (fun x => is_fence x = false) mid -> is_fence fence = true -> (length mid < n)%nat -> find_end n i (mid ++ fence :: post) = Some (i + length mid)%nat.
Proof.
  revert n i. induction mid as [|x mid IH]; intros n i Hm Hf Hn; (destruct n as [|n]; [cbn in Hn; lia|]); cbn [app find_end].
  - rewrite Hf. f_equal. cbn. lia.
  - apply Forall_cons in Hm as [Hx Hm]. rewrite Hx, IH by (done || cbn in Hn; lia). f_equal. cbn. lia.
Qed.

(** An opened and closed document: its metadata lines and its body lines. *)
Lemma frontmatter_shape lines e : frontmatter_end lines = Some e -> exists fence0 mid fence post, lines = fence0 :: mid ++ fence :: post /\ e = S (length mid) /\
  is_fence fence0 = true /\ Forall (fun x => is_fence x = false) mid /\ is_fence fence = true /\ (length mid < 256)%nat.
Proof.
  unfold frontmatter_end. destruct lines as [|x rest]; [done|]. destruct (is_fence x) eqn:E; [|done].
  intros (mid & fence & post & -> & -> & H)%find_end_some. exists x, mid, fence, post. split_and!; [done|done|done|apply H..].
Qed.

Lemma frontmatter_parts (fence0 : string) mid fence post : let lines := fence0 :: mid ++ fence :: post in
  take (S (length mid) - 1) (drop 1 lines) = mid /\ drop (S (S (length mid))) lines = post /\ drop (S (length mid)) lines = fence :: post /\ take 1 lines = [fence0].
Proof.
  cbv zeta. split_and!; [change (take (S (length mid) - 1) (mid ++ fence :: post) = mid); replace (S (length mid) - 1)%nat with (length mid) by lia; by rewrite take_app_length| | |done].
  - change (drop (S (length mid)) (mid ++ fence :: post) = post). rewrite drop_app_ge by lia. by replace (S (length mid) - length mid)%nat with 1%nat by lia.
  - change (drop (length mid) (mid ++ fence :: post) = fence :: post). by rewrite drop_app_length.
Qed.

Definition entry_at (k line : string) : option string :=
  match meta_entry line with Some (k', v) => if decide (k' = k) then Some v else None | None => None end.

(** The last line of a key decides. *)
Lemma meta_of_get k lines : jget k (meta_of lines) = last (omap (entry_at k) lines).
Proof.
  induction lines as [|x lines IH] using rev_ind; [done|]. unfold meta_of. rewrite fold_left_app, omap_app. cbn [fold_left omap list_omap]. fold (meta_of lines).
  unfold entry_at at 2. destruct (meta_entry x) as [[k' v]|]; [|by rewrite app_nil_r].
  destruct (decide (k' = k)) as [->|]; [by rewrite jget_set_eq, last_snoc|]. by rewrite jget_set_ne, app_nil_r by done.
Qed.

Lemma flag_prefix r : begins_with ":" (trimStart r) = true -> exists n, index_of ":" r = Some n /\ trim_end_by is_space (stake n r) = "".
Proof.
  unfold trimStart. induction r as [|a r IH]; [done|]. cbn [trim_start_by index_of]. destruct (is_space a) eqn:Ea.
  - intros (n & Hn & Ht)%IH. exists (S n). assert (Ascii.eqb a ":" = false) as -> by (apply Ascii.eqb_neq; intros ->; discriminate). rewrite Hn. split; [done|]. cbn [stake trim_end_by]. by rewrite Ht, Ea.
  - cbn [begins_with]. intros ->. by exists 0%nat.
Qed.

Lemma flag_line_key line : is_flag_line line = true -> exists v, meta_entry line = Some ("enabled", v).
Proof.
  unfold is_flag_line. intros [Hp Hr]%andb_true_iff.
  assert (exists r, line = String "e" (String "n" (String "a" (String "b" (String "l" (String "e" (String "d" r))))))) as [r ->].
  { unfold starts_with in Hp. do 7 (destruct line as [|? line]; [done|]; cbn [String.prefix] in Hp; destruct (ascii_dec _ _) as [<-|]; [|done]). by exists line. }
  cbn [sdrop] in Hr. destruct (flag_prefix r Hr) as (n & Hn & Ht). unfold meta_entry. cbn [index_of]. rewrite Hn. cbn [fmap option_fmap option_map]. eexists. f_equal. f_equal.
  unfold trim. change (trim_end_by is_space (String "e" (String "n" (String "a" (String "b" (String "l" (String "e" (String "d" (stake n r)))))))) = "enabled").
  cbn [trim_end_by]. rewrite Ht. reflexivity.
Qed.

Lemma flag_meta b : meta_entry (flag_line b) = Some ("enabled", if b then "true" else "false").
Proof. by destruct b. Qed.

Lemma entry_at_flag k line : k <> "enabled" -> is_flag_line line = true -> entry_at k line = None.
Proof. intros Hk (v & Hv)%flag_line_key. unfold entry_at. rewrite Hv. by rewrite decide_False. Qed.

Lemma entry_at_new k b : entry_at k (flag_line b) = if decide ("enabled" = k) then Some (if b then "true" else "false") else None.
Proof. unfold entry_at. by rewrite flag_meta. Qed.

(** No metadata line behind the first flag line has the key of the flag. *)
Fixpoint flag_settles (lines : list string) : bool :=
  match lines with
  | [] => true
  | line :: lines => if is_flag_line line then forallb (fun l => bool_decide (entry_at "enabled" l = None)) lines else flag_settles lines
  end.

Lemma put_flag_other k b lines : k <> "enabled" -> omap (entry_at k) (put_flag (flag_line b) lines) = omap (entry_at k) lines.
Proof.
  intros Hk. induction lines as [|x lines IH]; cbn [put_flag omap list_omap].
  - by rewrite entry_at_new, decide_False.
  - destruct (is_flag_line x) eqn:E; cbn [omap list_omap]; [by rewrite entry_at_new, decide_False, entry_at_flag|]. by rewrite IH.
Qed.

Lemma put_flag_own b lines : flag_settles lines = true -> last (omap (entry_at "enabled") (put_flag (flag_line b) lines)) = Some (if b then "true" else "false").
Proof.
  induction lines as [|x lines IH]; cbn [put_flag flag_settles omap list_omap]; [intros _; by rewrite entry_at_new|].
  destruct (is_flag_line x) eqn:E; cbn [omap list_omap].
  - intros H. rewrite entry_at_new, decide_True by done. assert (omap (entry_at "enabled") lines = []) as ->; [|done].
    clear E IH. induction lines as [|y lines IH]; [done|]. cbn [forallb] in H. apply andb_true_iff in H as [Hy%bool_decide_eq_true H]. cbn [omap list_omap]. rewrite Hy. by apply IH.
  - intros H. specialize (IH H). destruct (entry_at "enabled" x); [|done]. rewrite last_cons, IH. done.
Qed.

(** ** Toggling a loop file *)

(** The flag of the document is one line, or there is room to append it. *)
Definition togglable (text : string) : bool :=
  let lines := split_lines text in
  match frontmatter_end lines with
  | None => false
  | Some end_ => let mid := take (end_ - 1) (drop 1 lines) in flag_settles mid && (existsb is_flag_line mid || (end_ <? 256)%nat)
  end.

Lemma put_flag_length b mid : length (put_flag (flag_line b) mid) = (if existsb is_flag_line mid then length mid else S (length mid)).
Proof. induction mid as [|x mid IH]; [done|]. cbn [put_flag existsb]. destruct (is_flag_line x); cbn [length orb]; [done|]. rewrite IH. by destruct (existsb _ mid). Qed.

Lemma put_flag_forall (P : string -> Prop) b mid : P (flag_line b) -> Forall P mid -> Forall P (put_flag (flag_line b) mid).
Proof. intros Hf. induction 1 as [|x mid Hx Hm IH]; cbn [put_flag]; [by repeat constructor|]. destruct (is_flag_line x); by constructor. Qed.

Lemma separable_put_flag crlf fence0 mid fence post b : separable crlf (fence0 :: mid ++ fence :: post) -> separable crlf (fence0 :: put_flag (flag_line b) mid ++ fence :: post).
Proof.
  intros [H1 H2]. split.
  - apply Forall_cons in H1 as [H0 H1]. apply Forall_app in H1 as [Hm Hp]. constructor; [done|]. apply Forall_app. split; [|done]. apply put_flag_forall; [by destruct b|done].
  - intros Hc. specialize (H2 Hc). rewrite app_comm_cons, removelast_app in H2 |- * by done. apply Forall_app in H2 as [H2 Hp]. apply Forall_cons in H2 as [H0 Hm].
    apply Forall_app. split; [|done]. constructor; [done|]. apply put_flag_forall; [by destruct b|done].
Qed.

(** The toggled text is read back as the same document with the flag as its last. *)
Lemma toggled_frontmatter text b text' meta body : togglable text = true -> splitFrontmatter text = Some (meta, body) -> writeLoopEnabled text b = Some text' ->
  exists meta', splitFrontmatter text' = Some (meta', body) /\ jget "enabled" meta' = Some (if b then "true" else "false") /\ forall k, k <> "enabled" -> jget k meta' = jget k meta.
Proof.
  unfold togglable, splitFrontmatter, writeLoopEnabled. cbv zeta. destruct (split_lines_separable text) as [Hsep _].
  destruct (frontmatter_end (split_lines text)) as [e|] eqn:Ee; [|done]. destruct (frontmatter_shape _ _ Ee) as (fence0 & mid & fence & post & El & -> & H0 & Hm & Hf & Hlen).
  rewrite El in *. destruct (frontmatter_parts fence0 mid fence post) as (P1 & P2 & P3 & P4). rewrite P1, P2, P3, P4. intros [Hs Hroom]%andb_true_iff [= <- <-] Htx. apply (inj Some) in Htx. subst text'.
  change (if has_crlf text then String CR (String LF "") else String LF "") with (eol (has_crlf text)).
  change ([fence0] ++ put_flag (flag_line b) mid ++ fence :: post) with (fence0 :: put_flag (flag_line b) mid ++ fence :: post).
  rewrite split_lines_join by (done || by apply separable_put_flag).
  assert (frontmatter_end (fence0 :: put_flag (flag_line b) mid ++ fence :: post) = Some (S (length (put_flag (flag_line b) mid)))) as ->.
  { unfold frontmatter_end. rewrite H0. apply (find_end_here 256 1); [apply put_flag_forall; [by destruct b|done]|done|].
    rewrite put_flag_length. apply orb_true_iff in Hroom as [-> |Hroom]; [done|]. apply Nat.ltb_lt in Hroom. destruct (existsb _ mid); lia. }
  destruct (frontmatter_parts fence0 (put_flag (flag_line b) mid) fence post) as (Q1 & Q2 & _). rewrite Q1, Q2. eexists. split; [done|].
  split; [rewrite meta_of_get; by apply put_flag_own|]. intros k Hk. by rewrite !meta_of_get, put_flag_other.
Qed.

Definition with_enabled (b : bool) (l : DiscoveredLoop) : DiscoveredLoop :=
  mkLoop (l_name l) (l_file l) (l_scope l)
    ((fun d => {| d_name := d_name d; d_cron := d_cron d; d_zone := d_zone d; d_prompt := d_prompt d; d_provider := d_provider d; d_model := d_model d; d_agent := d_agent d; d_enabled := b |}) <$> definition l)
    (reason l).

Section toggle.
  Context {C : Clocks} (o : NormalizeOptions).

(** Toggling a loop file sets its flag and nothing else. For any text of a loop
    document whose flag is not overridden by a later line, with room in its frontmatter
    if the flag has to be appended, and with either kind of line ends: the rewritten
    text parses to the same loop, good or bad, with the same name, schedule, model,
    agent and prompt, and with the flag that was asked for. *)
Theorem toggle_sets_the_flag text b text' : togglable text = true -> writeLoopEnabled text b = Some text' ->
  parseLoopFile o text' = with_enabled b (parseLoopFile o text).
Proof.
  intros Ht Hw. destruct (splitFrontmatter text) as [[meta body]|] eqn:Es.
  2: { unfold splitFrontmatter in Es. unfold writeLoopEnabled in Hw. cbv zeta in *. by destruct (frontmatter_end _). }
  destruct (toggled_frontmatter text b text' meta body Ht Es Hw) as (meta' & Es' & He & Hk). unfold parseLoopFile. rewrite Es, Es'. cbv zeta.
  rewrite (Hk "name"), (Hk "schedule"), (Hk "timezone"), (Hk "model"), (Hk "agent"), He by done.
  repeat (match goal with |- (if ?c then _ else _) = _ => destruct c; [reflexivity|] end).
  unfold with_enabled. cbn [l_name l_file l_scope reason definition fmap option_fmap option_map d_name d_cron d_zone d_prompt d_provider d_model d_agent]. do 3 f_equal. by destruct b.
Qed.

End toggle.

Definition nl : string := String LF "".
Definition ex_text (flags : string) : string :=
  "---" +:+ nl +:+ "name: nightly" +:+ nl +:+ flags +:+ "schedule: 0 3 * * *" +:+ nl +:+ "model: p/m" +:+ nl +:+ "---" +:+ nl +:+ "Do it." +:+ nl.

Lemma toggle_sets_the_flag_witness :
  exists text', writeLoopEnabled (ex_text ("enabled : false" +:+ nl)) true = Some text' /\
    d_enabled <$> definition (parseLoopFile (C := clock_of berlin) ex_options text') = Some true.
Proof.
  eexists. split; [vm_compute; reflexivity|].
  rewrite (toggle_sets_the_flag (C := clock_of berlin) ex_options (ex_text ("enabled : false" +:+ nl)) true) by (vm_compute; reflexivity). vm_compute. reflexivity.
Defined.

(** With the key twice, the parser takes the last and the toggle rewrites the first. *)
Lemma toggle_of_a_repeated_flag_is_lost :
  let text := ex_text ("enabled: false" +:+ nl +:+ "enabled: false" +:+ nl) in
  bool_decide (writeLoopEnabled text true = None) = false /\ d_enabled <$> definition (parseLoopFile (C := clock_of berlin) ex_options (default "" (writeLoopEnabled text true))) = Some false.
Proof. split; vm_compute; reflexivity. Qed.

(** With a frontmatter of 255 lines, appending the flag moves the closing fence out of reach. *)
Lemma toggle_of_a_full_frontmatter_breaks_it :
  let text := join nl (["---"; "name: nightly"; "schedule: 0 3 * * *"; "model: p/m"] ++ replicate 252 "#" ++ ["---"; "Do it."]) in
  d_enabled <$> definition (parseLoopFile (C := clock_of berlin) ex_options text) = Some false /\
  parseLoopFile (C := clock_of berlin) ex_options (default "" (writeLoopEnabled text true)) = mkLoop "" "" ScopeProject None (Some "loop file has no frontmatter block").
Proof. split; vm_compute; reflexivity. Qed.
