(* ===== verification/SchedLock.v ===== *)
(** The cross-process lock of a project file (server/scheduled/config-lock.ts).

    Several processes acquire and release the same lock file; a step is one of them
    making its next system call, at a time of a common clock. The chain that orders the
    writers of one process is a queue of that process: here a process has one
    acquisition under way at a time. *)

From S2P Require Import Prelude.

Local Open Scope Z_scope.

Definition CONFIG_LOCK_WAIT_MS : Z := 10000.
Definition CONFIG_LOCK_STALE_MS : Z := 60000.
Definition CONFIG_LOCK_RETRY_MS : Z := 20.
Definition UNREADABLE_STALE_MS : Z := 5000.

(** The document of a lock. *)
Record LockDocument := { doc_pid : Z; doc_at : Z }.

(** The lock file: which one it is, what it reads as ([None] when it is empty or
    damaged), and when it was last written. *)
Record LockFile := { ino : nat; content : option LockDocument; mtime : Z }.

(** ** One acquisition *)

(** Where a process is between two system calls. *)
Inductive Pc :=
| Idle
| Opening (deadline : Z)
| Writing (fd : nat)
| Holding
| Reading (deadline : Z)
| Statting (deadline : Z)
| Stealing (deadline : Z)
| Sleeping (deadline wake : Z)
| Releasing
| Unlinking
| Expired
| Threw.

(** [held.at] is too long ago. *)
Definition is_stale (held : LockDocument) (now : Z) : bool := bool_decide (CONFIG_LOCK_STALE_MS < now - doc_at held).

Definition isStaleUnreadable (f : option LockFile) (now : Z) : bool :=
  match f with Some f => bool_decide (UNREADABLE_STALE_MS < now - mtime f) | None => false end.

(** What [readLock] makes of the file. *)
Definition readLock (f : option LockFile) : option LockDocument := match f with Some f => content f | None => None end.

(** The next system call of process [pid]: the file and the place after it. An
    acquisition starts at a process without one; [ok] says whether a write succeeds, and
    [fresh] names a new file. *)
Definition call (pid now : Z) (ok : bool) (fresh : nat) (lock : option LockFile) (pc : Pc) : option LockFile * Pc :=
  match pc with
  | Idle | Expired | Threw => (lock, Opening (now + CONFIG_LOCK_WAIT_MS))
  | Opening deadline =>
    if negb ok then (lock, Threw)
    else match lock with
    | None => (Some {| ino := fresh; content := None; mtime := now |}, Writing fresh)
    | Some _ => (lock, if bool_decide (deadline <= now) then Expired else Reading deadline)
    end
  | Writing fd =>
    if ok then
      (match lock with
       | Some f => if bool_decide (ino f = fd) then Some {| ino := fd; content := Some {| doc_pid := pid; doc_at := now |}; mtime := now |} else lock
       | None => lock
       end, Holding)
    else (lock, Threw)
  | Reading deadline =>
    match readLock lock with
    | Some held => (lock, if is_stale held now then Stealing deadline else Sleeping deadline (now + CONFIG_LOCK_RETRY_MS))
    | None => (lock, Statting deadline)
    end
  | Statting deadline => (lock, if isStaleUnreadable lock now then Stealing deadline else Sleeping deadline (now + CONFIG_LOCK_RETRY_MS))
  | Stealing deadline => (None, Sleeping deadline (now + CONFIG_LOCK_RETRY_MS))
  | Sleeping deadline wake => (lock, if bool_decide (wake <= now) then Opening deadline else Sleeping deadline wake)
  | Holding => (lock, Releasing)
  | Releasing =>
    match readLock lock with
    | Some held => (lock, if bool_decide (doc_pid held = pid) then Unlinking else Idle)
    | None => (lock, Idle)
    end
  | Unlinking => (None, Idle)
  end.

(** ** Processes *)

Record World := { lock : option LockFile; files : nat; pcs : gmap Z Pc }.

(** A system call of a process at a time, or its death. *)
Inductive Event := Calls (pid now : Z) (ok : bool) | Dies (pid : Z).

Definition pc_of (w : World) (pid : Z) : Pc := default Idle (pcs w !! pid).

Definition lock_step (w : World) (ev : Event) : World :=
  match ev with
  | Dies pid => {| lock := lock w; files := files w; pcs := <[pid := Idle]> (pcs w) |}
  | Calls pid now ok =>
    let '(f, pc) := call pid now ok (files w) (lock w) (pc_of w pid) in
    {| lock := f; files := S (files w); pcs := <[pid := pc]> (pcs w) |}
  end.

Definition first_world : World := {| lock := None; files := 0; pcs := ∅ |}.

(** ** An acquisition comes to an end *)

(** What a process finds at a call: the time, whether an open or a write succeeds, and the file. *)
Record Finding := { at_ : Z; succeeds : bool; name : nat; found : option LockFile }.

Definition is_over (pc : Pc) : bool := match pc with Holding | Expired | Threw => true | _ => false end.

(** The calls of one acquisition, up to its end. *)
Fixpoint acquire (pid : Z) (calls : list Finding) (pc : Pc) : Pc :=
  match calls with
  | [] => pc
  | c :: calls => if is_over pc then pc else acquire pid calls (call pid (at_ c) (succeeds c) (name c) (found c) pc).2
  end.

(** The retries the time left allows. *)
Definition retries (left : Z) : Z := (Z.max 0 left + CONFIG_LOCK_RETRY_MS - 1) / CONFIG_LOCK_RETRY_MS.

(** The calls an acquisition may still need, at a time. *)
Definition rank (pc : Pc) (now : Z) : Z :=
  match pc with
  | Opening d => 6 * retries (d - now) + 2
  | Reading d => 6 * retries (d - now - CONFIG_LOCK_RETRY_MS) + 6
  | Statting d => 6 * retries (d - now - CONFIG_LOCK_RETRY_MS) + 5
  | Stealing d => 6 * retries (d - now - CONFIG_LOCK_RETRY_MS) + 4
  | Sleeping d wake => 6 * retries (d - Z.max now wake) + 3
  | Writing _ => 1
  | _ => 0
  end.

Lemma retries_mono a b : a <= b -> retries a <= retries b.
Proof. intros H. unfold retries, CONFIG_LOCK_RETRY_MS. apply Z.div_le_mono; lia. Qed.

Lemma retries_pos a : 0 <= retries a.
Proof. unfold retries, CONFIG_LOCK_RETRY_MS. apply Z.div_pos; lia. Qed.

Lemma retries_step a : 0 < a -> retries (a - CONFIG_LOCK_RETRY_MS) = retries a - 1.
Proof.
  intros H. unfold retries, CONFIG_LOCK_RETRY_MS. destruct (Z.le_gt_cases 20 a).
  - rewrite !Z.max_r by lia. replace (a - 20 + 20 - 1) with (a + 20 - 1 + (-1) * 20) by lia. rewrite Z.div_add by lia. lia.
  - rewrite Z.max_l, Z.max_r by lia. Z.to_euclidean_division_equations. lia.
Qed.

(** Time only helps. *)
Lemma rank_time pc now later : now <= later -> rank pc later <= rank pc now.
Proof.
  intros H. destruct pc; cbn [rank]; try lia.
  all: match goal with |- 6 * retries ?a + _ <= 6 * retries ?b + _ => pose proof (retries_mono a b ltac:(lia)); lia end.
Qed.

(** Every call but one that wakes too early uses the rank up. *)
Lemma call_decreases pid now ok fresh f pc : is_over pc = false -> (match pc with Sleeping _ wake => wake <= now | Idle | Releasing | Unlinking => False | _ => True end) ->
  rank (call pid now ok fresh f pc).2 now < rank pc now.
Proof.
  intros Ho Hw. destruct pc as [|d|fd| |d|d|d|d wake| | | |]; try done; cbn [call].
  - pose proof (retries_pos (d - now)). destruct ok; [|change (0 < rank (Opening d) now); cbn [rank]; lia]. cbn [negb]. destruct f as [f|]; cbn [snd]; [|cbn [rank]; lia]. case_bool_decide; cbn [rank]; [lia|]. rewrite retries_step by lia. lia.
  - by destruct ok.
  - pose proof (retries_pos (d - now - CONFIG_LOCK_RETRY_MS)). destruct (readLock f) as [h|]; cbn [snd]; [|cbn [rank]; lia]. destruct (is_stale h now); cbn [rank]; [lia|].
    rewrite Z.max_r by (unfold CONFIG_LOCK_RETRY_MS; lia). replace (d - (now + CONFIG_LOCK_RETRY_MS)) with (d - now - CONFIG_LOCK_RETRY_MS) by lia. lia.
  - cbn [snd]. destruct (isStaleUnreadable f now); cbn [rank]; [lia|]. rewrite Z.max_r by (unfold CONFIG_LOCK_RETRY_MS; lia). replace (d - (now + CONFIG_LOCK_RETRY_MS)) with (d - now - CONFIG_LOCK_RETRY_MS) by lia. lia.
  - cbn [snd rank]. rewrite Z.max_r by (unfold CONFIG_LOCK_RETRY_MS; lia). replace (d - (now + CONFIG_LOCK_RETRY_MS)) with (d - now - CONFIG_LOCK_RETRY_MS) by lia. lia.
  - cbn [snd]. rewrite bool_decide_true by done. cbn [rank]. rewrite Z.max_l by done. lia.
Qed.

(** The calls come in the order of time, and a sleep lasts its time. *)
Fixpoint timely (pid prev : Z) (calls : list Finding) (pc : Pc) : bool :=
  match calls with
  | [] => true
  | c :: calls =>
    is_over pc || (bool_decide (prev <= at_ c) && match pc with Sleeping _ wake => bool_decide (wake <= at_ c) | _ => true end
                   && timely pid (at_ c) calls (call pid (at_ c) (succeeds c) (name c) (found c) pc).2)
  end.

Definition acquiring (pc : Pc) : Prop := match pc with Idle | Releasing | Unlinking => False | _ => True end.

Lemma call_acquiring pid now ok fresh f pc : is_over pc = false -> acquiring pc -> acquiring (call pid now ok fresh f pc).2.
Proof.
  destruct pc; try done; cbn [call]; intros _ _.
  - destruct ok; [|done]. destruct f; cbn; by try case_bool_decide. - by destruct ok. - destruct (readLock f) as [h|]; cbn; by try destruct (is_stale h now).
  - cbn. by destruct (isStaleUnreadable f now). - cbn. by case_bool_decide.
Qed.

Lemma rank_pos pc now : acquiring pc -> is_over pc = false -> 1 <= rank pc now.
Proof. destruct pc; try done; cbn [rank]; intros _ _; try lia; match goal with |- context [retries ?a] => pose proof (retries_pos a); lia end. Qed.

Lemma acquire_over pid calls pc prev : acquiring pc -> timely pid prev calls pc = true -> rank pc prev <= Zlen calls -> is_over (acquire pid calls pc) = true.
Proof.
  revert pc prev. induction calls as [|c calls IH]; intros pc prev Ha Ht Hr; cbn [acquire timely] in *.
  - destruct (is_over pc) eqn:E; [done|]. pose proof (rank_pos pc prev Ha E). unfold Zlen in Hr. cbn in Hr. lia.
  - destruct (is_over pc) eqn:E; [done|]. cbn [orb] in Ht. apply andb_true_iff in Ht as [[Hp%bool_decide_eq_true Hw]%andb_true_iff Ht].
    apply (IH _ (at_ c)); [by apply call_acquiring|done|]. rewrite Zlen_cons in Hr. pose proof (rank_time pc prev (at_ c) Hp).
    assert (rank (call pid (at_ c) (succeeds c) (name c) (found c) pc).2 (at_ c) < rank pc (at_ c)); [|lia].
    apply call_decreases; [done|]. destruct pc; try done. by apply bool_decide_eq_true in Hw.
Qed.

(** Acquiring the lock ends: with the lock, with the error that the wait has expired,
    or with the error of an open or a write. Whatever a process finds at each of its system calls,
    with calls in the order of time and sleeps of at least their 20 ms, an acquisition
    is over after at most 3002 calls: at most 500 rounds within the ten seconds, with at
    most a create, a read, a stat, an unlink and a wake-up each. *)
Theorem acquisition_ends pid start calls :
  timely pid start calls (Opening (start + CONFIG_LOCK_WAIT_MS)) = true -> 3002 <= Zlen calls ->
  match acquire pid calls (Opening (start + CONFIG_LOCK_WAIT_MS)) with Holding | Expired | Threw => True | _ => False end.
Proof.
  intros Ht Hl. assert (is_over (acquire pid calls (Opening (start + CONFIG_LOCK_WAIT_MS))) = true) as H; [|by destruct (acquire _ _ _)].
  apply (acquire_over pid calls _ start); [done|done|]. cbn [rank]. replace (start + CONFIG_LOCK_WAIT_MS - start) with CONFIG_LOCK_WAIT_MS by lia.
  change (6 * retries CONFIG_LOCK_WAIT_MS + 2) with 3002. done.
Qed.

(** A process that finds a fresh foreign lock at every call. *)
Fixpoint busy (n : nat) (t : Z) (pc : Pc) : list Finding :=
  match n with
  | O => []
  | S n =>
    let t := match pc with Sleeping _ wake => wake | _ => t end in
    let c := {| at_ := t; succeeds := true; name := 1; found := Some {| ino := 0; content := Some {| doc_pid := 7; doc_at := t |}; mtime := t |} |} in
    c :: busy n t (call 8 t true 1 (found c) pc).2
  end.

Lemma acquisition_ends_witness :
  let calls := busy (Z.to_nat 3002) 1000 (Opening (1000 + CONFIG_LOCK_WAIT_MS)) in
  acquire 8 calls (Opening (1000 + CONFIG_LOCK_WAIT_MS)) = Expired /\
  match acquire 8 calls (Opening (1000 + CONFIG_LOCK_WAIT_MS)) with Holding | Expired | Threw => True | _ => False end.
Proof.
  intros calls. split; [vm_compute; reflexivity|].
  apply (acquisition_ends 8 1000 calls); [vm_compute; reflexivity|apply (bool_decide_unpack _); vm_compute; exact I].
Defined.

(** ** Mutual exclusion *)

(** The process has the lock file as its own. *)
Definition owns (w : World) (pid : Z) : Prop :=
  match pc_of w pid with
  | Writing fd => exists t, lock w = Some {| ino := fd; content := None; mtime := t |}
  | Holding | Releasing | Unlinking => exists i d t, lock w = Some {| ino := i; content := Some d; mtime := t |} /\ doc_pid d = pid
  | _ => False
  end.

Definition critical (pc : Pc) : bool := match pc with Writing _ | Holding | Releasing | Unlinking => true | _ => false end.

(** No process finds the lock too old: it is held for at most a minute, written within
    five seconds, and a reader that found it unreadable looks again within them. *)
Definition fresh_for (w : World) (pid now : Z) : Prop :=
  match lock w, pc_of w pid with
  | Some f, Reading _ => match content f with Some d => now - doc_at d <= CONFIG_LOCK_STALE_MS | None => True end
  | Some f, Statting _ => now - mtime f <= UNREADABLE_STALE_MS
  | _, _ => True
  end.

Fixpoint punctual (w : World) (evs : list Event) : Prop :=
  match evs with
  | [] => True
  | ev :: evs => match ev with Calls pid now _ => fresh_for w pid now | Dies _ => True end /\ punctual (lock_step w ev) evs
  end.

Definition exclusive (w : World) : Prop :=
  (forall p, critical (pc_of w p) = true -> owns w p) /\
  (forall p q, critical (pc_of w p) = true -> critical (pc_of w q) = true -> p = q) /\
  (forall p d, pc_of w p <> Stealing d) /\
  (forall f, lock w = Some f -> (ino f < files w)%nat).

Lemma pc_of_insert w f n pid pc q : pc_of {| lock := f; files := n; pcs := <[pid := pc]> (pcs w) |} q = if decide (q = pid) then pc else pc_of w q.
Proof. unfold pc_of. cbn [pcs]. case_decide as E; [subst; by rewrite lookup_insert_eq|by rewrite lookup_insert_ne by congruence]. Qed.

(** A step that leaves the file and puts no process into the critical section. *)
Lemma exclusive_idle w pid pc n : exclusive w -> critical pc = false -> (forall d, pc <> Stealing d) -> (files w <= n)%nat ->
  exclusive {| lock := lock w; files := n; pcs := <[pid := pc]> (pcs w) |}.
Proof.
  intros (H1 & H2 & H3 & H4) Hc Hs Hn. split_and!.
  - intros p. unfold owns. rewrite pc_of_insert. case_decide; [congruence|]. apply H1.
  - intros p q. rewrite !pc_of_insert. case_decide; [congruence|]. case_decide; [congruence|]. apply H2.
  - intros p d. rewrite pc_of_insert. case_decide; [apply Hs|apply H3].
  - intros f Hf. cbn [files]. specialize (H4 f Hf). lia.
Qed.

(** A step of the process in the critical section, or of the one that enters it. *)
Lemma exclusive_owner w pid pc f n : exclusive w -> (forall q, critical (pc_of w q) = true -> q = pid) -> (forall d, pc <> Stealing d) ->
  (critical pc = true -> owns {| lock := f; files := n; pcs := <[pid := pc]> (pcs w) |} pid) -> (forall g, f = Some g -> (ino g < n)%nat) ->
  exclusive {| lock := f; files := n; pcs := <[pid := pc]> (pcs w) |}.
Proof.
  intros (H1 & H2 & H3 & H4) Ho Hs Hown Hn. split_and!.
  - intros p. rewrite pc_of_insert. case_decide as E; [subst; done|]. intros Hc. by destruct E; apply Ho.
  - intros p q. rewrite !pc_of_insert. case_decide as E1; case_decide as E2; try congruence; intros Hp Hq; [by rewrite (Ho q Hq)|by rewrite (Ho p Hp)|]. by rewrite (Ho p Hp), (Ho q Hq).
  - intros p d. rewrite pc_of_insert. case_decide; [apply Hs|apply H3].
  - done.
Qed.

Lemma exclusive_calls w pid now ok : exclusive w -> fresh_for w pid now -> exclusive (lock_step w (Calls pid now ok)).
Proof.
  intros Hx Hf. pose proof Hx as (H1 & H2 & H3 & H4). cbn [lock_step]. pose proof (H1 pid) as Hown. unfold owns in Hown. unfold fresh_for in Hf.
  assert (critical (pc_of w pid) = true -> forall q, critical (pc_of w q) = true -> q = pid) as Honly by (intros Hp q Hq; by apply H2).
  destruct (pc_of w pid) as [|d|fd| |d|d|d|d wake| | | |] eqn:Epc; cbn [call].
  - apply exclusive_idle; [done|done|done|lia].
  - destruct ok; cbn [negb]; [|apply exclusive_idle; [done|done|done|lia]]. destruct (lock w) as [f|] eqn:El.
    + rewrite <- El. case_bool_decide; apply exclusive_idle; try done; lia.
    + apply exclusive_owner; [done| |done| |].
      * intros q Hq. specialize (H1 q Hq). unfold owns in H1. rewrite El in H1. by destruct (pc_of w q); naive_solver.
      * intros _. unfold owns. rewrite pc_of_insert, decide_True by done. by eexists.
      * intros g [= <-]. cbn. lia.
  - destruct (Hown eq_refl) as [t El]. destruct ok.
    + rewrite El. cbn [ino]. rewrite bool_decide_true by done. apply exclusive_owner; [done|by apply Honly|done| |].
      * intros _. unfold owns. rewrite pc_of_insert, decide_True by done. cbn [lock]. eexists _, _, _. split; [done|]. done.
      * intros g [= <-]. cbn. specialize (H4 _ El). cbn in H4. lia.
    + apply exclusive_idle; [done|done|done|lia].
  - apply exclusive_owner; [done|by apply Honly|done| |intros g Hg; specialize (H4 g Hg); lia]. intros _. unfold owns. rewrite pc_of_insert, decide_True by done. by apply Hown.
  - destruct (lock w) as [f|] eqn:El; cbn [readLock]; rewrite <- El; [|apply exclusive_idle; [done|done|done|lia]]. destruct (content f) as [h|]; [|apply exclusive_idle; [done|done|done|lia]].
    unfold is_stale. rewrite bool_decide_false by lia. apply exclusive_idle; [done|done|done|lia].
  - assert (isStaleUnreadable (lock w) now = false) as ->; [|apply exclusive_idle; [done|done|done|lia]].
    destruct (lock w) as [f|]; [|done]. cbn. by apply bool_decide_eq_false, Z.nlt_ge.
  - by destruct (H3 pid d).
  - case_bool_decide; apply exclusive_idle; try done; lia.
  - destruct (Hown eq_refl) as (i & d & t & El & Hd). rewrite El. cbn [readLock content]. rewrite Hd, bool_decide_true by done. apply exclusive_owner; [done|by apply Honly|done| |].
    + intros _. unfold owns. rewrite pc_of_insert, decide_True by done. by eexists _, _, _.
    + intros g [= <-]. specialize (H4 _ El). cbn in *. lia.
  - apply exclusive_owner; [done|by apply Honly|done|done|done].
  - apply exclusive_idle; [done|done|done|lia].
  - apply exclusive_idle; [done|done|done|lia].
Qed.

Lemma punctual_exclusive w evs : exclusive w -> punctual w evs -> exclusive (fold_left lock_step evs w).
Proof.
  revert w. induction evs as [|ev evs IH]; intros w Hx; [done|]. intros [Hf Hp]. apply IH; [|done].
  destruct ev as [pid now ok|pid]; [by apply exclusive_calls|]. apply exclusive_idle; [done|done|done|lia].
Qed.

(** The lock excludes. In a run in which no process finds the lock too old (each
    holder releases it within a minute of writing it, and writes it within five
    seconds of creating it), whatever the interleaving of the system calls, the failed
    writes and the deaths: at most one process is between its creation of the file and
    its removal, and the file names that process once it is written. *)
Theorem lock_is_exclusive evs : punctual first_world evs ->
  let w := fold_left lock_step evs first_world in
  (forall p q, critical (pc_of w p) = true -> critical (pc_of w q) = true -> p = q) /\
  (forall p, pc_of w p = Holding -> exists f d, lock w = Some f /\ content f = Some d /\ doc_pid d = p).
Proof.
  intros Hp w. assert (exclusive w) as (H1 & H2 & _).
  { apply punctual_exclusive; [|done]. split_and!; try done; intros p; unfold owns, pc_of; cbn [first_world pcs]; by rewrite lookup_empty. }
  split; [done|]. intros p Hh. specialize (H1 p). unfold owns in H1. rewrite Hh in H1. destruct (H1 eq_refl) as (i & d & t & El & Hd). by eexists _, d.
Qed.

(** Two processes in turn, with a failed round of the second and its crash at the end. *)
Definition ex_run : list Event :=
  [Calls 1 0 true; Calls 1 0 true; Calls 2 1 true; Calls 2 1 true; Calls 1 2 true; Calls 2 3 true; Calls 1 4 true; Calls 1 4 true; Calls 1 5 true;
   Calls 2 24 true; Calls 2 24 true; Calls 2 25 true].

Lemma lock_is_exclusive_witness :
  let w := fold_left lock_step ex_run first_world in
  pc_of w 2 = Holding /\ pc_of w 1 = Idle /\ exists f d, lock w = Some f /\ content f = Some d /\ doc_pid d = 2.
Proof.
  assert (punctual first_world ex_run) as Hp by (vm_compute; repeat split; intros H; discriminate H).
  destruct (lock_is_exclusive ex_run Hp) as [_ H]. split; [vm_compute; reflexivity|]. split; [vm_compute; reflexivity|].
  apply (H 2). vm_compute. reflexivity.
Defined.

(** Past a minute two waiters may both judge a dead process's lock stale: the slower one
    unlinks the lock that the faster one has created since, and both hold it. *)
Lemma stale_lock_is_stolen_twice :
  let opens p t := [Calls p t true; Calls p t true] in
  let w := fold_left lock_step (opens 1 0 ++ [Calls 1 0 true; Dies 1] ++ opens 2 61000 ++ opens 3 61000
    ++ [Calls 2 61001 true; Calls 3 61001 true; Calls 2 61002 true; Calls 2 61030 true; Calls 2 61030 true; Calls 2 61031 true;
        Calls 3 61040 true; Calls 3 61060 true; Calls 3 61060 true; Calls 3 61061 true]) first_world in
  pc_of w 2 = Holding /\ pc_of w 3 = Holding.
Proof. vm_compute. split; reflexivity. Qed.
