(* ===== verification/SchedRun.v ===== *)
(** One scheduled task run by several server processes
    (scheduled/scheduled-occurrence.ts, scheduled-settle.ts, and the session and
    prompt calls of scheduled-pipeline.ts): the claim of an occurrence, the
    durable phase advances around the native calls, the watchdog, settling, and
    the resumption after a crash.

    The processes share the stored record of the task; a patch under its
    predicate is atomic (it runs inside the project's lock). Whatever is awaited
    (a patch, a native call, the watchdog) completes in an event of its own, and a
    process may die between any two events. *)

From S2P Require Import Prelude JsString JsMap JsValue SchedClaims.
From Stdlib Require Import Qcanon.
#[local] Close Scope Qc_scope.
#[local] Close Scope Q_scope.

(** A watched result: [inl] a success with its session, [inr] an error. *)
Definition WatchedResult : Type := (option string + option string)%type.

(** Where a run is: before the write of the creating phase, in the session
    create, before the write of the session, in the prompt, before the write of
    the acceptance, returned. *)
Inductive Stage : Type :=
| NeedCreating (resumed : bool)
| CreatingSession
| NoteSession (sid : string)
| SendingPrompt (sid : string)
| NoteAccepted (sid : string)
| Returned (outcome : WatchedResult)
| Over.

(** [timedOut]: the watchdog has fired and the run is settled already, while its
    pipeline goes on in the background. *)
Record Run : Type := mkRun {
  r_pid : Z; r_slot : Qc; r_op : string; r_startedAt : Qc; r_stage : Stage; timedOut : bool }.

(** What has happened outside the record. *)
Inductive Native : Type :=
| Claimed (slot : Z) (op : string)
| CreateCalled (op : string)
| PromptCalled (op sid : string)
| Settled (op : string) (outcome : WatchedResult).

Record World : Type := mkWorld {
  task : json;
  runs : list (nat * Run);
  nextRun : nat;
  alive : list Z;
  native : list Native;
}.

Definition with_task (w : World) (t : json) : World := mkWorld t (runs w) (nextRun w) (alive w) (native w).
Definition note (w : World) (es : list Native) : World :=
  mkWorld (task w) (runs w) (nextRun w) (alive w) (native w ++ es).
Definition set_run (w : World) (i : nat) (r : Run) : World :=
  mkWorld (task w) (jset i r (runs w)) (nextRun w) (alive w) (native w).
Definition start_run (w : World) (r : Run) : World :=
  mkWorld (task w) (jset (nextRun w) r (runs w)) (S (nextRun w)) (alive w) (native w).
Definition at_stage (r : Run) (s : Stage) : Run :=
  mkRun (r_pid r) (r_slot r) (r_op r) (r_startedAt r) s (timedOut r).
Definition timed_out (r : Run) : Run :=
  mkRun (r_pid r) (r_slot r) (r_op r) (r_startedAt r) (r_stage r) true.

(** [ports.patchIf]; [storeOk] is false when it throws. *)
Definition patchIf (w : World) (storeOk : bool) (predicate : json -> bool) (patch : StatePatch) (now : Qc) :
    World * bool :=
  if storeOk && predicate (task w) then (with_task w (applyStatePatch (task w) patch now), true) else (w, false).

Section runtime.
  Context (sha256hex : string -> string) (taskId : string).

Definition op_of (slot : Z) : string := operationIdForOccurrence sha256hex taskId slot.

(** [claimAndDispatch] up to the first phase write; a refused claim starts nothing. *)
Definition claimAndDispatch (w : World) (pid slot : Z) (nextAfterClaim : option Qc) (nowTs : Qc) : World :=
  let op := op_of slot in
  match patchIf w true (canClaimOccurrence (Qz slot)) (buildClaimPatch pid (Qz slot) op nowTs nextAfterClaim nowTs) nowTs with
  | (w1, true) => note (start_run w1 (mkRun pid (Qz slot) op nowTs (NeedCreating false) false)) [Claimed slot op]
  | (w1, false) => w1
  end.

(** [recordClaimFailure] and the re-arm after a claim that threw. *)
Definition recordClaimFailure (w : World) (slot : Z) (message : string) (nextAt : option Qc) (now : Qc) : World :=
  let w1 := (patchIf w true (canClaimOccurrence (Qz slot)) (buildClaimFailurePatch message now) now).1 in
  match nextAt with
  | Some n => with_task w1 (applyStatePatch (task w1) [("nextRunAt", Some (jnum_of n)); ("updatedAt", Some (jnum_of now))] now)
  | None => w1
  end.

Definition advanceDispatch (w : World) (storeOk : bool) (r : Run) (target : OccurrencePhase)
    (sid : option string) (now : Qc) : World * bool :=
  patchIf w storeOk (canAdvanceDispatch (r_op r) target)
    (buildDispatchPhasePatch (r_pid r) (r_slot r) (r_op r) target sid now) now.

(** [finishRun]: the completion patch, under a guard for a resumed record; one
    that cannot be persisted is dropped. *)
Definition finishRun (w : World) (storeOk : bool) (guard : json -> bool) (op : string) (outcome : WatchedResult)
    (startedAt now : Qc) (nextAt : option Qc) : World :=
  match patchIf w storeOk guard (buildCompletionPatch outcome (now - startedAt)%Qc nextAt now) now with
  | (w1, true) => note w1 [Settled op outcome]
  | (w1, false) => w1
  end.

Definition unguarded (t : json) : bool := true.

(** What an awaited native call answers: a session id (or an acceptance), a
    failure with its message, or that the pipeline failed before it made the call. *)
Inductive Answer : Type :=
| Answered (sid : string)
| Refused (message : string)
| NotReached (message : string).

(** The next awaited call of a run completes. *)
Definition advance (w : World) (i : nat) (storeOk : bool) (a : Answer) (nextAt : option Qc) (now : Qc) : World :=
  match jget i (runs w) with
  | None => w
  | Some r =>
    match r_stage r with
    | NeedCreating resumed =>
      match advanceDispatch w storeOk r creating None now with
      | (w1, true) => set_run w1 i (at_stage r CreatingSession)
      | (w1, false) =>
        set_run w1 i (at_stage r
          (if resumed then Over
           else Returned (inr (Some "occurrence dispatch record was unavailable; the run was not dispatched"))))
      end
    | CreatingSession =>
      let w1 := match a with NotReached _ => w | _ => note w [CreateCalled (r_op r)] end in
      match a with
      | Answered sid =>
        set_run w1 i (at_stage r (if bool_decide (sid = "")
                                  then Returned (inr (Some "harness session create returned no session id"))
                                  else NoteSession sid))
      | Refused message | NotReached message => set_run w1 i (at_stage r (Returned (inr (Some message))))
      end
    | NoteSession sid =>
      match advanceDispatch w storeOk r session_created (Some sid) now with
      | (w1, true) => set_run w1 i (at_stage r (SendingPrompt sid))
      | (w1, false) =>
        set_run w1 i (at_stage r (Returned (inr (Some "occurrence dispatch record refused the session-create phase"))))
      end
    | SendingPrompt sid =>
      let w1 := match a with NotReached _ => w | _ => note w [PromptCalled (r_op r) sid] end in
      match a with
      | Answered _ => set_run w1 i (at_stage r (NoteAccepted sid))
      | Refused message | NotReached message => set_run w1 i (at_stage r (Returned (inr (Some message))))
      end
    | NoteAccepted sid =>
      let w1 := (advanceDispatch w storeOk r accepted (Some sid) now).1 in
      set_run w1 i (at_stage r (Returned (inl (Some sid))))
    | Returned outcome =>
      let w1 := if timedOut r then w
                else finishRun w storeOk unguarded (r_op r) outcome (r_startedAt r) now nextAt in
      set_run w1 i (at_stage r Over)
    | Over => w
    end
  end.

(** The watchdog of [watchedPipeline] fires while the pipeline is running. *)
Definition guardFires (w : World) (i : nat) (storeOk : bool) (nextAt : option Qc) (now : Qc) : World :=
  match jget i (runs w) with
  | Some r =>
    match r_stage r with
    | NeedCreating _ | Returned _ | Over => w
    | _ =>
      if timedOut r then w
      else set_run (finishRun w storeOk unguarded (r_op r) (inr (Some "scheduled task run timed out"))
                      (r_startedAt r) now nextAt) i (timed_out r)
    end
  | None => w
  end.

Definition settleResumed (w : World) (storeOk : bool) (d : OccurrenceDispatch) (p : OccurrencePhase)
    (outcome : WatchedResult) (now : Qc) (nextAt : option Qc) : World :=
  finishRun w storeOk (record_at (operationId d) p) (operationId d) outcome
    (if bool_decide (updatedAt d = Qz 0) then now else updatedAt d) now nextAt.

(** [resumeOccurrence] in process [pid] on a snapshot of the record: the task as
    that process remembers it, which may be out of date. *)
Definition resumeOccurrence (w : World) (pid : Z) (snapshot : json) (storeOk : bool) (nextAt : option Qc) (now : Qc) : World :=
  match dispatchOf snapshot with
  | None => w
  | Some d =>
    let startedAt := if bool_decide (updatedAt d = Qz 0) then now else updatedAt d in
    if ownedByLiveProcess d pid (fun p => bool_decide (p ∈ alive w)) then w
    else
      match phase d with
      | creating =>
        settleResumed w storeOk d creating
          (inr (Some ("session create outcome unknown after restart (operation " +:+ operationId d +:+ ")"))) now nextAt
      | claimed =>
        if is_disabled snapshot then
          settleResumed w storeOk d claimed (inr (Some "user stop before dispatch (occurrence not submitted)")) now nextAt
        else start_run w (mkRun pid (scheduledFor d) (operationId d) startedAt (NeedCreating true) false)
      | accepted => settleResumed w storeOk d accepted (inl (sessionId d)) now nextAt
      | session_created =>
        match sessionId d with
        | None =>
          settleResumed w storeOk d session_created
            (inr (Some ("occurrence session identity missing (operation " +:+ operationId d +:+ ")"))) now nextAt
        | Some sid => start_run w (mkRun pid (scheduledFor d) (operationId d) startedAt (SendingPrompt sid) false)
        end
      end
  end.

(** A process dies: its runs are gone. *)
Definition crash (w : World) (pid : Z) : World :=
  mkWorld (task w) (filter (fun x => r_pid x.2 <> pid) (runs w)) (nextRun w)
    (filter (fun p => p <> pid) (alive w)) (native w).

Definition boot (w : World) (pid : Z) : World :=
  mkWorld (task w) (runs w) (nextRun w) (pid :: alive w) (native w).

(** The user enables or disables the task. *)
Definition set_enabled (w : World) (b : bool) : World :=
  match task w with
  | JObj f => with_task w (JObj (jset "enabled" (JBool b) f))
  | _ => w
  end.

(** The patches around a run that leave the claim alone: the armed slot of a sync
    ([syncScheduledProject]) and the start of a manual run. *)
Definition syncNext (w : World) (nextAt : option Qc) (now : Qc) : World :=
  with_task w (applyStatePatch (task w) [("nextRunAt", jnum_of <$> nextAt); ("updatedAt", Some (jnum_of now))] now).

Definition manualStart (w : World) (now : Qc) : World :=
  with_task w (applyStatePatch (task w) (buildManualStartPatch now) now).

Inductive Event : Type :=
| EvClaim (pid slot : Z) (nextAfterClaim : option Qc)
| EvClaimThrew (slot : Z) (message : string) (nextAt : option Qc)
| EvAdvance (i : nat) (storeOk : bool) (a : Answer) (nextAt : option Qc)
| EvGuard (i : nat) (storeOk : bool) (nextAt : option Qc)
| EvResume (pid : Z) (snapshot : json) (storeOk : bool) (nextAt : option Qc)
| EvCrash (pid : Z)
| EvBoot (pid : Z)
| EvEnable (b : bool)
| EvSync (nextAt : option Qc)
| EvManualStart.

Definition step (w : World) (e : Event * Qc) : World :=
  let now := e.2 in
  match e.1 with
  | EvClaim pid slot next => claimAndDispatch w pid slot next now
  | EvClaimThrew slot message nextAt => recordClaimFailure w slot message nextAt now
  | EvAdvance i ok a nextAt => advance w i ok a nextAt now
  | EvGuard i ok nextAt => guardFires w i ok nextAt now
  | EvResume pid snapshot ok nextAt => resumeOccurrence w pid snapshot ok nextAt now
  | EvCrash pid => crash w pid
  | EvBoot pid => boot w pid
  | EvEnable b => set_enabled w b
  | EvSync nextAt => syncNext w nextAt now
  | EvManualStart => manualStart w now
  end.

Definition execute (w : World) (es : list (Event * Qc)) : World := fold_left step es w.

(** No timer is late: a process claims no slot before the last one claimed. *)
Fixpoint on_time (w : World) (es : list (Event * Qc)) : Prop :=
  match es with
  | [] => True
  | e :: es' =>
    match e.1 with
    | EvClaim _ slot _ => forall q, last_slot (task w) = Some q -> (q <= Qz slot)%Qc
    | _ => True
    end /\ on_time (step w e) es'
  end.

End runtime.

(** ** Counting *)

Definition is_claim (op : string) (n : Native) : bool :=
  match n with Claimed _ o => bool_decide (o = op) | _ => false end.

Definition is_create (op : string) (n : Native) : bool :=
  match n with CreateCalled o => bool_decide (o = op) | _ => false end.

(** Successful claims of an operation, and session creates made for it. *)
Definition claims (op : string) (w : World) : Z := Zlen (List.filter (is_claim op) (native w)).
Definition creates (op : string) (w : World) : Z := Zlen (List.filter (is_create op) (native w)).

Definition about_to_create (op : string) (r : Run) : Z :=
  match r_stage r with
  | CreatingSession => if bool_decide (r_op r = op) then 1 else 0
  | _ => 0
  end.

(** Session creates made, under way, or still allowed by the record. *)
Definition creates_in_sight (op : string) (w : World) : Z :=
  creates op w + jsum (about_to_create op) (runs w) + (if record_at op claimed (task w) then 1 else 0).

Record world_ok (w : World) : Prop := {
  ok_record : is_record (task w);
  ok_state : state_wf (task w);
  ok_creates : forall op, (creates_in_sight op w <= claims op w)%Z;
}.

Lemma about_nonneg op r : (0 <= about_to_create op r <= 1)%Z.
Proof. unfold about_to_create. destruct (r_stage r); try lia. case_bool_decide; lia. Qed.

Lemma dispatchOf_op t d : dispatchOf t = Some d -> operationId d <> "".
Proof.
  unfold dispatchOf. destruct (is_object _) as [v|]; [|done]. cbn [mbind option_bind].
  destruct (nonempty_string (jfield "operationId" v)) as [op|] eqn:E; [|done]. cbn [mbind option_bind].
  destruct (finite_number (jfield "scheduledFor" v)); [|done]. cbn [mbind option_bind].
  destruct (phase_of _); [|done]. cbn [mbind option_bind]. intros [= <-]. cbn [operationId].
  unfold nonempty_string in E. destruct (jfield "operationId" v) as [[]|]; try done. by case_bool_decide; simplify_eq.
Qed.

(** Replacing the record by one that allows no new create. *)
Lemma task_ok w t :
  world_ok w -> is_record t -> state_wf t ->
  (forall op, record_at op claimed t = true -> record_at op claimed (task w) = true) -> world_ok (with_task w t).
Proof.
  intros [H1 H2 H3] Hr Hw Hc. split; [done|done|]. intros op. specialize (H3 op). specialize (Hc op).
  unfold creates_in_sight in *. cbn. change (creates op (with_task w t)) with (creates op w).
  change (claims op (with_task w t)) with (claims op w).
  destruct (record_at op claimed t); [|destruct (record_at op claimed (task w)); lia]. by rewrite Hc in H3.
Qed.

Lemma patchIf_task w ok pred patch now :
  patchIf w ok pred patch now = (w, false)
  \/ (patchIf w ok pred patch now = (with_task w (applyStatePatch (task w) patch now), true) /\ pred (task w) = true).
Proof. unfold patchIf. destruct ok, (pred (task w)); cbn; auto. Qed.

(** A patch that neither sets nor clears the dispatch record. *)
Lemma plain_patch_ok w patch now :
  world_ok w -> NoDup (jkeys patch) -> jget "dispatch" patch = None ->
  world_ok (with_task w (applyStatePatch (task w) patch now)).
Proof.
  intros Hok Hn Hd. destruct (Hok) as [H1 H2 _]. destruct (applyStatePatch_wf (task w) patch now H1 H2) as [Hr Hw].
  apply task_ok; try done. intros op. unfold record_at. by rewrite dispatch_kept.
Qed.

Lemma note_ok w es :
  world_ok w -> (forall op, List.filter (is_create op) es = [] /\ List.filter (is_claim op) es = []) ->
  world_ok (note w es).
Proof.
  intros [H1 H2 H3] He. split; [done|done|]. intros op. specialize (H3 op). destruct (He op) as [E1 E2].
  unfold creates_in_sight, creates, claims in *. cbn. by rewrite !List.filter_app, E1, E2, !app_nil_r.
Qed.

(** A run that moves to a stage other than the session create. *)
Lemma set_run_ok w i r s :
  world_ok w -> s <> CreatingSession -> world_ok (set_run w i (at_stage r s)).
Proof.
  intros [H1 H2 H3] Hs. split; [done|done|]. intros op. specialize (H3 op). unfold creates_in_sight in *. cbn.
  change (creates op (set_run w i (at_stage r s))) with (creates op w).
  change (claims op (set_run w i (at_stage r s))) with (claims op w). rewrite jsum_set.
  assert (about_to_create op (at_stage r s) = 0%Z) as -> by (unfold about_to_create; cbn; by destruct s).
  assert (0 <= from_option (about_to_create op) 0 (jget i (runs w)))%Z; [|lia].
  destruct (jget i (runs w)) as [r'|]; cbn; [apply about_nonneg|lia].
Qed.

(** Starting a run, outside the session create. *)
Lemma start_run_ok w r :
  world_ok w -> (forall op, about_to_create op r = 0%Z) -> world_ok (start_run w r).
Proof.
  intros [H1 H2 H3] Hr. split; [done|done|]. intros op. specialize (H3 op). unfold creates_in_sight in *. cbn.
  change (creates op (start_run w r)) with (creates op w). change (claims op (start_run w r)) with (claims op w).
  rewrite jsum_set, Hr.
  assert (0 <= from_option (about_to_create op) 0 (jget (nextRun w) (runs w)))%Z; [|lia].
  destruct (jget (nextRun w) (runs w)) as [r'|]; cbn; [apply about_nonneg|lia].
Qed.

Lemma record_at_phase_patch t pid slot op p sid at_ now op' :
  is_record t -> state_wf t -> op <> "" -> p <> claimed ->
  record_at op' claimed (applyStatePatch t (buildDispatchPhasePatch pid slot op p sid at_) now) = false.
Proof.
  intros Hr Hw Hop Hp. destruct (phase_patch_read t Hr Hw pid slot op p sid at_ now Hop) as [(d & E & _ & Ep & _) _].
  unfold record_at. rewrite E, Ep. rewrite (bool_decide_false (p = claimed)) by done. apply andb_false_r.
Qed.

Lemma canAdvance_op op target t : canAdvanceDispatch op target t = true ->
  exists p, EXPECTED_PHASE_BEFORE target = Some p /\ record_at op p t = true /\ op <> "".
Proof.
  unfold canAdvanceDispatch. destruct (EXPECTED_PHASE_BEFORE target) as [p|]; [|done]. intros H. exists p.
  split_and!; try done. unfold record_at in H. destruct (dispatchOf t) as [d|] eqn:E; [|done]. bool_facts. subst op.
  by apply (dispatchOf_op t).
Qed.

Lemma advanceDispatch_ok w ok r target sid now :
  world_ok w -> target <> claimed ->
  world_ok (advanceDispatch w ok r target sid now).1
  /\ runs (advanceDispatch w ok r target sid now).1 = runs w
  /\ native (advanceDispatch w ok r target sid now).1 = native w.
Proof.
  intros Hok Ht. unfold advanceDispatch.
  destruct (patchIf_task w ok (canAdvanceDispatch (r_op r) target)
    (buildDispatchPhasePatch (r_pid r) (r_slot r) (r_op r) target sid now) now) as [->|[-> Hc]]; [done|].
  cbn [fst]. split; [|done]. destruct (canAdvance_op _ _ _ Hc) as (p & _ & _ & Hop). destruct (Hok) as [H1 H2 _].
  destruct (applyStatePatch_wf (task w) (buildDispatchPhasePatch (r_pid r) (r_slot r) (r_op r) target sid now) now H1 H2).
  apply task_ok; try done. intros op. by rewrite record_at_phase_patch.
Qed.

Lemma finishRun_ok w ok guard op outcome st now nextAt :
  world_ok w ->
  world_ok (finishRun w ok guard op outcome st now nextAt)
  /\ runs (finishRun w ok guard op outcome st now nextAt) = runs w.
Proof.
  intros Hok. unfold finishRun. set (patch := buildCompletionPatch _ _ _ _).
  destruct (patchIf_task w ok guard patch now) as [->|[-> _]]; [done|]. split; [|done].
  apply note_ok; [|done]. destruct (Hok) as [H1 H2 _]. destruct (applyStatePatch_wf (task w) patch now H1 H2).
  apply task_ok; try done. intros op'. unfold record_at, patch.
  by destruct (completion_patch_read (task w) H1 H2 outcome (now - st)%Qc nextAt now now) as [-> _].
Qed.

Lemma jsum_filter_le {K V} (f : V -> Z) (P : K * V -> Prop) `{!forall x, Decision (P x)} m :
  (forall v, 0 <= f v)%Z -> (jsum f (filter P m) <= jsum f m)%Z.
Proof.
  intros Hf. induction m as [|[k v] m IH]; [done|]. rewrite filter_cons. specialize (Hf v).
  case_decide; rewrite !jsum_cons; lia.
Qed.

(** The one way into the session create: the record leaves the claimed phase. *)
Lemma enter_create_ok w i r resumed sid now :
  world_ok w -> jget i (runs w) = Some r -> r_stage r = NeedCreating resumed ->
  canAdvanceDispatch (r_op r) creating (task w) = true ->
  world_ok (set_run (with_task w (applyStatePatch (task w)
     (buildDispatchPhasePatch (r_pid r) (r_slot r) (r_op r) creating sid now) now)) i (at_stage r CreatingSession)).
Proof.
  intros [H1 H2 H3] Hg Hs Hc. destruct (canAdvance_op _ _ _ Hc) as (p & [= <-] & Hrec & Hop).
  destruct (applyStatePatch_wf (task w) (buildDispatchPhasePatch (r_pid r) (r_slot r) (r_op r) creating sid now) now H1 H2).
  split; [done|done|]. intros op. specialize (H3 op). unfold creates_in_sight in *. cbn [task runs set_run with_task].
  rewrite record_at_phase_patch by done. rewrite jsum_set, Hg. cbn [from_option].
  change (creates op (set_run _ _ _)) with (creates op w). change (claims op (set_run _ _ _)) with (claims op w).
  assert (about_to_create op r = 0%Z) as -> by (unfold about_to_create; by rewrite Hs).
  assert (about_to_create op (at_stage r CreatingSession) = if bool_decide (r_op r = op) then 1 else 0)%Z as -> by done.
  case_bool_decide as E; [|destruct (record_at op claimed (task w)); lia].
  subst op. rewrite Hrec in H3. lia.
Qed.

(** Leaving the session create, the call made or not. *)
Lemma leave_create_ok w i r s es :
  world_ok w -> jget i (runs w) = Some r -> r_stage r = CreatingSession -> s <> CreatingSession ->
  es = [] \/ es = [CreateCalled (r_op r)] ->
  world_ok (set_run (note w es) i (at_stage r s)).
Proof.
  intros [H1 H2 H3] Hg Hs Hne He. split; [done|done|]. intros op. specialize (H3 op). unfold creates_in_sight in *.
  cbn [task runs set_run note]. rewrite jsum_set, Hg. cbn [from_option].
  assert (about_to_create op (at_stage r s) = 0%Z) as -> by (unfold about_to_create; cbn; by destruct s).
  assert (about_to_create op r = if bool_decide (r_op r = op) then 1 else 0)%Z as -> by (unfold about_to_create; by rewrite Hs).
  unfold creates, claims in *. cbn [native set_run note].
  rewrite !List.filter_app, !Zlen_app. destruct He as [-> | ->]; cbn [List.filter is_create is_claim];
    case_bool_decide; rewrite ?Zlen_cons, ?Zlen_nil; lia.
Qed.

Lemma advance_ok w i ok a nextAt now : world_ok w -> world_ok (advance w i ok a nextAt now).
Proof.
  intros Hok. unfold advance. destruct (jget i (runs w)) as [r|] eqn:Hg; [|done].
  destruct (r_stage r) as [resumed| |sid|sid|sid|outcome|] eqn:Hs; [| | | | | |done].
  - unfold advanceDispatch. destruct (patchIf_task w ok (canAdvanceDispatch (r_op r) creating)
      (buildDispatchPhasePatch (r_pid r) (r_slot r) (r_op r) creating None now) now) as [->|[-> Hc]].
    + apply set_run_ok; [done|by destruct resumed].
    + by eapply enter_create_ok.
  - destruct a as [sid|m|m]; [| |by apply set_run_ok]; eapply leave_create_ok; try done; auto. by case_bool_decide.
  - destruct (advanceDispatch_ok w ok r session_created (Some sid) now Hok) as [H1 _]; [done|].
    destruct (advanceDispatch w ok r session_created (Some sid) now) as [w1 []]; by apply set_run_ok.
  - destruct a as [s|m|m]; apply set_run_ok; try done; by apply note_ok.
  - apply set_run_ok; [|done]. by apply advanceDispatch_ok.
  - apply set_run_ok; [|done]. destruct (timedOut r); [done|]. by apply finishRun_ok.
Qed.

Lemma guardFires_ok w i ok nextAt now : world_ok w -> world_ok (guardFires w i ok nextAt now).
Proof.
  intros Hok. unfold guardFires. destruct (jget i (runs w)) as [r|] eqn:Hg; [|done].
  assert (world_ok (set_run (finishRun w ok unguarded (r_op r) (inr (Some "scheduled task run timed out"))
    (r_startedAt r) now nextAt) i (timed_out r))) as H; [|by destruct (r_stage r), (timedOut r)].
  destruct (finishRun_ok w ok unguarded (r_op r) (inr (Some "scheduled task run timed out")) (r_startedAt r) now nextAt Hok)
    as [[H1 H2 H3] Er]. set (w1 := finishRun _ _ _ _ _ _ _ _) in *.
  split; [done|done|]. intros op. specialize (H3 op). unfold creates_in_sight in *. cbn [task runs set_run].
  change (creates op (set_run w1 i (timed_out r))) with (creates op w1).
  change (claims op (set_run w1 i (timed_out r))) with (claims op w1). rewrite jsum_set, Er, Hg in *. cbn [from_option].
  change (about_to_create op (timed_out r)) with (about_to_create op r). lia.
Qed.

Section runtime_lemmas.
  Context (sha256hex : string -> string) (taskId : string).

Lemma op_of_nonempty slot : op_of sha256hex taskId slot <> "".
Proof. done. Qed.

Lemma claim_ok w pid slot next now : world_ok w -> world_ok (claimAndDispatch sha256hex taskId w pid slot next now).
Proof.
  intros Hok. unfold claimAndDispatch. set (patch := buildClaimPatch _ _ _ _ _ _).
  destruct (patchIf_task w true (canClaimOccurrence (Qz slot)) patch now) as [->|[-> _]]; [done|].
  destruct Hok as [H1 H2 H3]. destruct (applyStatePatch_wf (task w) patch now H1 H2) as [Hr Hw].
  split; [done|done|]. intros op. specialize (H3 op). unfold creates_in_sight, creates, claims in *.
  cbn [task runs native note start_run with_task nextRun] in *. rewrite !List.filter_app, !Zlen_app, jsum_set.
  cbn [List.filter is_create is_claim].
  destruct (claim_patch_read (task w) H1 H2 pid (Qz slot) (op_of sha256hex taskId slot) now next now now (op_of_nonempty slot))
    as [(d & E & Eo & Ep & _) _].
  assert (record_at op claimed (applyStatePatch (task w) patch now) = bool_decide (op_of sha256hex taskId slot = op)) as ->.
  { unfold record_at, patch. rewrite E, Eo, Ep, (bool_decide_true (claimed = claimed)) by done. apply andb_true_r. }
  assert (0 <= from_option (about_to_create op) 0 (jget (nextRun w) (runs w)))%Z.
  { destruct (jget (nextRun w) (runs w)) as [r'|]; cbn; [apply about_nonneg|lia]. }
  assert (about_to_create op (mkRun pid (Qz slot) (op_of sha256hex taskId slot) now (NeedCreating false) false) = 0%Z) as -> by done.
  case_bool_decide; rewrite ?Zlen_cons, ?Zlen_nil; destruct (record_at op claimed (task w)); lia.
Qed.

Lemma resume_ok w pid snapshot ok nextAt now :
  world_ok w -> world_ok (resumeOccurrence w pid snapshot ok nextAt now).
Proof.
  intros Hok. unfold resumeOccurrence, settleResumed. destruct (dispatchOf snapshot) as [d|]; [|done].
  destruct (ownedByLiveProcess _ _ _); [done|]. destruct (phase d).
  - destruct (is_disabled snapshot); [by apply finishRun_ok|by apply start_run_ok].
  - by apply finishRun_ok.
  - destruct (sessionId d); [by apply start_run_ok|by apply finishRun_ok].
  - by apply finishRun_ok.
Qed.

Lemma set_enabled_read w b :
  is_record (task w) ->
  is_record (task (set_enabled w b)) /\ stateOf (task (set_enabled w b)) = stateOf (task w)
  /\ (state_wf (task w) -> state_wf (task (set_enabled w b))) /\ runs (set_enabled w b) = runs w.
Proof.
  intros Hr. unfold set_enabled. destruct (task w) as [| | | | |f]; try done. unfold stateOf, state_wf. cbn.
  by rewrite jget_set_ne.
Qed.

Lemma world_step_ok w e : world_ok w -> world_ok (step sha256hex taskId w e).
Proof.
  intros Hok. destruct e as [ev now]. unfold step. cbn [fst snd].
  destruct ev as [pid slot next|slot m nextAt|i ok a nextAt|i ok nextAt|pid snap ok nextAt|pid|pid|b|nextAt|].
  - by apply claim_ok.
  - unfold recordClaimFailure. set (patch := buildClaimFailurePatch m now).
    assert (world_ok (patchIf w true (canClaimOccurrence (Qz slot)) patch now).1) as H.
    { destruct (patchIf_task w true (canClaimOccurrence (Qz slot)) patch now) as [->|[-> _]]; [done|].
      apply plain_patch_ok; [done|nodup_keys|done]. }
    destruct nextAt; [|done]. apply plain_patch_ok; [done|nodup_keys|done].
  - by apply advance_ok.
  - by apply guardFires_ok.
  - by apply resume_ok.
  - destruct Hok as [H1 H2 H3]. split; [done|done|]. intros op. specialize (H3 op). unfold creates_in_sight in *.
    cbn [task runs crash]. change (creates op (crash w pid)) with (creates op w). change (claims op (crash w pid)) with (claims op w).
    pose proof (jsum_filter_le (about_to_create op) (fun x => r_pid x.2 <> pid) (runs w) (fun v => proj1 (about_nonneg op v))). lia.
  - by destruct Hok.
  - destruct (Hok) as [H1 H2 _]. destruct (set_enabled_read w b H1) as (Hr & Hst & Hwf & _).
    assert (set_enabled w b = with_task w (task (set_enabled w b))) as ->.
    { unfold set_enabled. by destruct (task w) eqn:E; try done; destruct w; cbn in *; subst. }
    apply task_ok; try done; [by apply Hwf|]. intros op. unfold record_at, dispatchOf. by rewrite Hst.
  - apply plain_patch_ok; [done|nodup_keys|done].
  - apply plain_patch_ok; [done|nodup_keys|done].
Qed.

Lemma world_execute_ok w es : world_ok w -> world_ok (execute sha256hex taskId w es).
Proof. revert w. induction es as [|e es IH]; intros w H; [done|]. cbn. by apply IH, world_step_ok. Qed.


(** The slots claimed, and the ones the record would still refuse. *)
Definition claimed_slots (w : World) : list Z :=
  omap (fun n => match n with Claimed slot _ => Some slot | _ => None end) (native w).

(** Every claim is of the operation of its slot, and none is of a slot after the
    last one of the record; no slot is claimed twice. *)
Record slots_ok (w : World) : Prop := {
  slots_ops : forall slot op, Claimed slot op ∈ native w -> op = op_of sha256hex taskId slot;
  slots_last : forall slot, slot ∈ claimed_slots w -> exists l, last_slot (task w) = Some (Qz l) /\ (slot <= l)%Z;
  slots_once : NoDup (claimed_slots w);
}.

(** [w'] has made no claim and reads the same last slot. *)
Definition no_claim (w w' : World) : Prop :=
  last_slot (task w') = last_slot (task w)
  /\ exists es, native w' = native w ++ es /\ forall slot op, Claimed slot op ∉ es.

Lemma no_claim_refl w : no_claim w w.
Proof. split; [done|]. exists []. split; [by rewrite app_nil_r|]. intros. apply not_elem_of_nil. Qed.

Lemma no_claim_trans w1 w2 w3 : no_claim w1 w2 -> no_claim w2 w3 -> no_claim w1 w3.
Proof.
  intros [H1 (es & E1 & N1)] [H2 (fs & E2 & N2)]. split; [congruence|]. exists (es ++ fs).
  split; [by rewrite E2, E1, app_assoc|]. intros slot op [H|H]%elem_of_app; [by eapply N1|by eapply N2].
Qed.

Lemma no_claim_task w t : last_slot t = last_slot (task w) -> no_claim w (with_task w t).
Proof. intros H. split; [done|]. exists []. split; [by cbn; rewrite app_nil_r|]. intros. apply not_elem_of_nil. Qed.

Lemma no_claim_note w n : (forall slot op, n <> Claimed slot op) -> no_claim w (note w [n]).
Proof. intros H. split; [done|]. exists [n]. split; [done|]. intros slot op Hin%list_elem_of_singleton. by eapply H. Qed.

Lemma no_claim_runs w w' : task w' = task w -> native w' = native w -> no_claim w w'.
Proof. intros H1 H2. split; [by rewrite H1|]. exists []. split; [by rewrite app_nil_r|]. intros. apply not_elem_of_nil. Qed.

Lemma slots_ok_no_claim w w' : no_claim w w' -> slots_ok w -> slots_ok w'.
Proof.
  intros [Hl (es & E & Hn)] [S1 S2 S3]. assert (claimed_slots w' = claimed_slots w) as Ec.
  { unfold claimed_slots. rewrite E, omap_app. rewrite <- (app_nil_r (omap _ (native w))) at 2. f_equal.
    clear -Hn. induction es as [|n es IH]; [done|]. cbn. destruct n as [slot op| | |].
    - exfalso. eapply Hn. by left.
    - apply IH. intros slot' op' H. eapply Hn. by right.
    - apply IH. intros slot' op' H. eapply Hn. by right.
    - apply IH. intros slot' op' H. eapply Hn. by right. }
  split; rewrite ?Ec, ?Hl; [|done|done]. intros slot op. rewrite E. intros [H|H]%elem_of_app; [by apply S1|by apply Hn in H].
Qed.

Lemma patchIf_no_claim w ok pred patch now :
  world_ok w -> NoDup (jkeys patch) -> jget "lastScheduledFor" patch = None ->
  no_claim w (patchIf w ok pred patch now).1.
Proof.
  intros [H1 H2 _] Hn Hg. destruct (patchIf_task w ok pred patch now) as [-> | [-> _]]; [apply no_claim_refl|].
  apply no_claim_task. by apply last_slot_kept.
Qed.

Lemma plain_no_claim w patch now :
  world_ok w -> NoDup (jkeys patch) -> jget "lastScheduledFor" patch = None ->
  no_claim w (with_task w (applyStatePatch (task w) patch now)).
Proof. intros [H1 H2 _] Hn Hg. apply no_claim_task. by apply last_slot_kept. Qed.

Lemma finishRun_no_claim w ok guard op outcome st now nextAt :
  world_ok w -> no_claim w (finishRun w ok guard op outcome st now nextAt).
Proof.
  intros Hok. unfold finishRun. set (patch := buildCompletionPatch _ _ _ _).
  assert (no_claim w (patchIf w ok guard patch now).1) as H.
  { apply patchIf_no_claim; [done| |by destruct outcome]. destruct outcome; nodup_keys. }
  destruct (patchIf w ok guard patch now) as [w1 []]; [|done]. eapply no_claim_trans; [exact H|]. by apply no_claim_note.
Qed.

Lemma advance_no_claim w i ok a nextAt now : world_ok w -> no_claim w (advance w i ok a nextAt now).
Proof.
  intros Hok. unfold advance. destruct (jget i (runs w)) as [r|]; [|apply no_claim_refl].
  assert (forall target sid, no_claim w (advanceDispatch w ok r target sid now).1) as Ha.
  { intros target sid. apply patchIf_no_claim; [done|nodup_keys|done]. }
  assert (forall n, (forall slot op, n <> Claimed slot op) ->
    no_claim w (match a with NotReached _ => w | _ => note w [n] end)) as Hn.
  { intros n H. destruct a; [by apply no_claim_note..|apply no_claim_refl]. }
  destruct (r_stage r) as [resumed| |sid|sid|sid|outcome|]; [| | | | | |apply no_claim_refl].
  - specialize (Ha creating None). destruct (advanceDispatch w ok r creating None now) as [w1 []];
      (eapply no_claim_trans; [exact Ha|by apply no_claim_runs]).
  - specialize (Hn (CreateCalled (r_op r)) ltac:(done)). destruct a; (eapply no_claim_trans; [exact Hn|by apply no_claim_runs]).
  - specialize (Ha session_created (Some sid)). destruct (advanceDispatch w ok r session_created (Some sid) now) as [w1 []];
      (eapply no_claim_trans; [exact Ha|by apply no_claim_runs]).
  - specialize (Hn (PromptCalled (r_op r) sid) ltac:(done)). destruct a; (eapply no_claim_trans; [exact Hn|by apply no_claim_runs]).
  - eapply no_claim_trans; [exact (Ha accepted (Some sid))|by apply no_claim_runs].
  - destruct (timedOut r); [by apply no_claim_runs|]. eapply no_claim_trans; [by apply finishRun_no_claim|by apply no_claim_runs].
Qed.

Lemma guardFires_no_claim w i ok nextAt now : world_ok w -> no_claim w (guardFires w i ok nextAt now).
Proof.
  intros Hok. unfold guardFires. destruct (jget i (runs w)) as [r|]; [|apply no_claim_refl].
  destruct (r_stage r), (timedOut r); try apply no_claim_refl;
    (eapply no_claim_trans; [by apply finishRun_no_claim|by apply no_claim_runs]).
Qed.

Lemma resume_no_claim w pid snapshot ok nextAt now :
  world_ok w -> no_claim w (resumeOccurrence w pid snapshot ok nextAt now).
Proof.
  intros Hok. unfold resumeOccurrence, settleResumed. destruct (dispatchOf snapshot) as [d|]; [|apply no_claim_refl].
  destruct (ownedByLiveProcess _ _ _); [apply no_claim_refl|].
  destruct (phase d); [destruct (is_disabled snapshot)| |destruct (sessionId d)|];
    try (by apply finishRun_no_claim); by apply no_claim_runs.
Qed.

Lemma step_no_claim w e :
  world_ok w -> (forall pid slot next, e.1 <> EvClaim pid slot next) -> no_claim w (step sha256hex taskId w e).
Proof.
  intros Hok He. destruct e as [ev now]. unfold step. cbn [fst snd] in *.
  destruct ev as [pid slot next|slot m nextAt|i ok a nextAt|i ok nextAt|pid snap ok nextAt|pid|pid|b|nextAt|].
  - by edestruct He.
  - unfold recordClaimFailure. set (patch := buildClaimFailurePatch m now).
    set (pred := canClaimOccurrence (Qz slot)).
    assert (no_claim w (patchIf w true pred patch now).1) as H by (apply patchIf_no_claim; [done|nodup_keys|done]).
    assert (world_ok (patchIf w true pred patch now).1) as Hw.
    { destruct (patchIf_task w true pred patch now) as [-> | [-> _]]; [done|].
      apply plain_patch_ok; [done|nodup_keys|done]. }
    destruct nextAt; [|done]. eapply no_claim_trans; [exact H|]. apply plain_no_claim; [done|nodup_keys|done].
  - by apply advance_no_claim.
  - by apply guardFires_no_claim.
  - by apply resume_no_claim.
  - by apply no_claim_runs.
  - by apply no_claim_runs.
  - destruct (Hok) as [H1 _ _]. destruct (set_enabled_read w b H1) as (_ & Hst & _).
    assert (native (set_enabled w b) = native w) as En by (unfold set_enabled; by destruct (task w)).
    split; [unfold last_slot; by rewrite Hst|]. exists []. split; [by rewrite app_nil_r|]. intros. apply not_elem_of_nil.
  - apply plain_no_claim; [done|nodup_keys|done].
  - apply plain_no_claim; [done|nodup_keys|done].
Qed.

Lemma claim_slots_ok w pid slot next now :
  world_ok w -> slots_ok w -> (forall q, last_slot (task w) = Some q -> (q <= Qz slot)%Qc) ->
  slots_ok (claimAndDispatch sha256hex taskId w pid slot next now).
Proof.
  intros [H1 H2 _] [S1 S2 S3] Ht. unfold claimAndDispatch. set (patch := buildClaimPatch _ _ _ _ _ _).
  destruct (patchIf_task w true (canClaimOccurrence (Qz slot)) patch now) as [-> | [-> Hc]]; [done|].
  destruct (canClaim_slot slot (task w) Hc) as [_ Hslack].
  assert (forall s, s ∈ claimed_slots w -> (s < slot)%Z) as Hlt.
  { intros s Hs. destruct (S2 s Hs) as (l & Hl & Hle). specialize (Hslack l Hl). specialize (Ht _ Hl).
    assert (l <= slot)%Z as Hls; [|unfold TASK_DUE_SLACK_MS in Hslack; lia].
    destruct (Z.le_gt_cases l slot) as [|Hgt]; [done|]. exfalso. apply Qz_lt in Hgt. by apply (Qclt_not_le _ _ Hgt). }
  assert (claimed_slots (note (start_run (with_task w (applyStatePatch (task w) patch now))
     (mkRun pid (Qz slot) (op_of sha256hex taskId slot) now (NeedCreating false) false)) [Claimed slot (op_of sha256hex taskId slot)])
     = claimed_slots w ++ [slot]) as Ec by (unfold claimed_slots; cbn; by rewrite omap_app).
  split.
  - cbn [native note start_run with_task]. intros s op [H|[= -> ->]%list_elem_of_singleton]%elem_of_app; [by apply S1|done].
  - intros s. rewrite Ec. cbn [task note start_run with_task]. intros [Hs|Hs%list_elem_of_singleton]%elem_of_app; exists slot.
    + split; [|apply Z.lt_le_incl; by apply Hlt]. by apply claim_patch_read.
    + subst s. split; [|done]. by apply claim_patch_read.
  - rewrite Ec. apply NoDup_app. split_and!; [done| |apply NoDup_singleton].
    intros s Hs ->%list_elem_of_singleton. specialize (Hlt _ Hs). lia.
Qed.

Lemma execute_slots_ok w es :
  world_ok w -> slots_ok w -> on_time sha256hex taskId w es -> slots_ok (execute sha256hex taskId w es).
Proof.
  revert w. induction es as [|[ev now] es IH]; intros w Hok Hs Ht; [done|]. cbn in Ht |- *. destruct Ht as [Hev Ht].
  apply IH; [by apply world_step_ok| |done]. destruct ev;
    first [by apply claim_slots_ok|by apply (slots_ok_no_claim w); [apply step_no_claim|]].
Qed.

End runtime_lemmas.

Lemma claims_once sha256hex taskId op (l : list Native) :
  let slots := omap (fun n => match n with Claimed slot _ => Some slot | _ => None end) l in
  (forall slot op, Claimed slot op ∈ l -> op = op_of sha256hex taskId slot) -> NoDup slots ->
  (forall s1 s2, s1 ∈ slots -> s2 ∈ slots -> op_of sha256hex taskId s1 = op_of sha256hex taskId s2 -> s1 = s2) ->
  (Zlen (List.filter (is_claim op) l) <= 1)%Z.
Proof.
  cbn zeta. induction l as [|n l IH]; intros Ho Hn Hi; [done|].
  assert (forall slot op, Claimed slot op ∈ l -> op = op_of sha256hex taskId slot) as Ho' by (intros s o H; apply Ho; by right).
  destruct n as [slot o| | |]; cbn [omap list_omap List.filter is_claim] in *; try by apply IH.
  apply NoDup_cons in Hn as [Hs Hn]. case_bool_decide as E.
  2:{ apply IH; [done|done|]. intros s1 s2 H1 H2. apply Hi; by right. }
  assert (List.filter (is_claim op) l = []) as ->; [|rewrite Zlen_cons, Zlen_nil; lia].
  destruct (List.filter (is_claim op) l) as [|n k] eqn:Ef; [done|]. exfalso.
  assert (n ∈ List.filter (is_claim op) l) as Hin by (rewrite Ef; by left). apply list_elem_of_In, List.filter_In in Hin as [Hin Hc].
  destruct n as [s2 o2| | |]; try done. cbn in Hc. apply bool_decide_eq_true_1 in Hc. apply list_elem_of_In in Hin.
  assert (s2 ∈ omap (fun n => match n with Claimed slot _ => Some slot | _ => None end) l) as Hs2.
  { apply list_elem_of_omap. by exists (Claimed s2 o2). }
  apply Hs. rewrite (Hi slot s2); [done|by left|by right|]. rewrite <- (Ho slot o) by by left. rewrite <- (Ho' s2 o2) by done. congruence.
Qed.

(** ** Properties *)

(** A system with no run yet, whose record is not in the claimed phase. *)
Record at_rest (w : World) : Prop := {
  rest_record : is_record (task w);
  rest_state : state_wf (task w);
  rest_phase : forall op, record_at op claimed (task w) = false;
  rest_runs : runs w = [];
  rest_native : native w = [];
}.

Lemma at_rest_ok w : at_rest w -> world_ok w.
Proof.
  intros [H1 H2 H3 H4 H5]. split; [done|done|]. intros op. unfold creates_in_sight, creates, claims. by rewrite H3, H4, H5.
Qed.

(** No session is created but for a claim: over any interleaving of the runs of
    any processes, with crashes, failing storage, the watchdog, user edits and
    resumptions from records however out of date, the session creates made for an
    operation never outnumber the claims of that operation that succeeded. *)
Theorem no_session_without_a_claim (sha256hex : string -> string) (taskId : string) (w : World)
    (es : list (Event * Qc)) (op : string) :
  at_rest w ->
  let w' := execute sha256hex taskId w es in
  (creates op w' <= claims op w')%Z.
Proof.
  intros H%at_rest_ok w'. destruct (world_execute_ok sha256hex taskId w es H) as [_ _ Hc]. specialize (Hc op). fold w' in Hc.
  unfold creates_in_sight in Hc. pose proof (jsum_nonneg (about_to_create op) (runs w') (fun v => proj1 (about_nonneg op v))).
  destruct (record_at op claimed (task w')); lia.
Qed.

(** C5. An occurrence runs at most once: if no process claims a slot older than the
    last one claimed, then (operation ids of the claimed slots being distinct)
    each slot is claimed at most once and at most one session is created for it,
    whatever processes race, crash and resume. *)
Theorem occurrence_runs_at_most_once (sha256hex : string -> string) (taskId : string) (w : World)
    (es : list (Event * Qc)) (slot : Z) :
  at_rest w -> on_time sha256hex taskId w es ->
  let w' := execute sha256hex taskId w es in
  (forall s1 s2, s1 ∈ claimed_slots w' -> s2 ∈ claimed_slots w' ->
     op_of sha256hex taskId s1 = op_of sha256hex taskId s2 -> s1 = s2) ->
  (claims (op_of sha256hex taskId slot) w' <= 1)%Z /\ (creates (op_of sha256hex taskId slot) w' <= 1)%Z
  /\ NoDup (claimed_slots w').
Proof.
  intros Hr Ht w' Hi. pose proof (at_rest_ok w Hr) as Hok.
  assert (slots_ok sha256hex taskId w) as Hs.
  { assert (claimed_slots w = []) as Ec by (unfold claimed_slots; by rewrite (rest_native w Hr)).
    split; rewrite ?Ec, ?(rest_native w Hr); [| |constructor]; intros *; by rewrite elem_of_nil. }
  destruct (execute_slots_ok sha256hex taskId w es Hok Hs Ht) as [S1 S2 S3]. fold w' in S1, S2, S3.
  assert (claims (op_of sha256hex taskId slot) w' <= 1)%Z as Hc by (by apply (claims_once sha256hex taskId)).
  split_and!; [done| |done]. destruct (world_execute_ok sha256hex taskId w es Hok) as [_ _ Hcr]. fold w' in Hcr.
  specialize (Hcr (op_of sha256hex taskId slot)). unfold creates_in_sight in Hcr.
  pose proof (jsum_nonneg (about_to_create (op_of sha256hex taskId slot)) (runs w')
    (fun v => proj1 (about_nonneg (op_of sha256hex taskId slot) v))).
  destruct (record_at _ claimed (task w')); lia.
Qed.

(** ** Concrete runs *)

Definition plain_task : json := JObj [("id", JStr "t1"); ("enabled", JBool true); ("state", JObj [("lastStatus", JStr "idle")])].

Definition first_world : World := mkWorld plain_task [] 0 [7; 8]%Z [].

(** The five awaited calls of a run that goes well. *)
Definition whole_run (i : nat) (sid : string) (now : Z) : list (Event * Qc) :=
  (fun a => (EvAdvance i true a None, Qz now)) <$> [Answered ""; Answered sid; Answered ""; Answered ""; Answered ""; Answered ""].

(** Process 7 claims a slot, creates its session and dies; process 8 loses the
    race for the claim, finds the record and reconciles it. *)
Definition crash_run : list (Event * Qc) :=
  [(EvClaim 7 100000 None, Qz 100000); (EvClaim 8 100000 None, Qz 100001);
   (EvAdvance 0 true (Answered "") None, Qz 100002); (EvAdvance 0 true (Answered "ses1") None, Qz 100003);
   (EvAdvance 0 true (Answered "") None, Qz 100004); (EvCrash 7, Qz 100005)].

Definition crashed : World := execute (fun s => s) "t1" first_world crash_run.

Definition recovery : list (Event * Qc) :=
  [(EvResume 8 (task crashed) true None, Qz 200000); (EvAdvance 1 true (Answered "") None, Qz 200001);
   (EvAdvance 1 true (Answered "") None, Qz 200002); (EvAdvance 1 true (Answered "") None, Qz 200003)].

Lemma first_world_at_rest : at_rest first_world.
Proof. split; try done. nodup_keys. Qed.

Lemma no_session_without_a_claim_witness :
  let w' := execute (fun s => s) "t1" first_world (crash_run ++ recovery) in
  (creates (op_of (fun s => s) "t1" 100000) w' <= 1)%Z.
Proof.
  intros w'. refine (Z.le_trans _ _ _ (no_session_without_a_claim (fun s => s) "t1" first_world (crash_run ++ recovery)
    (op_of (fun s => s) "t1" 100000) first_world_at_rest) _). apply (bool_decide_eq_true_1 _). vm_compute. reflexivity.
Defined.

Lemma occurrence_runs_at_most_once_witness :
  let w' := execute (fun s => s) "t1" first_world (crash_run ++ recovery) in
  (claims (op_of (fun s => s) "t1" 100000) w' <= 1)%Z /\ Zlen (native w') = 4%Z.
Proof.
  intros w'. split; [|vm_compute; reflexivity].
  refine (proj1 (occurrence_runs_at_most_once (fun s => s) "t1" first_world (crash_run ++ recovery) 100000 first_world_at_rest _ _)).
  - cbn [crash_run recovery app on_time fst]. split_and!; try done. intros q Hq. vm_compute in Hq. injection Hq as <-.
    apply (bool_decide_eq_true_1 _). vm_compute. reflexivity.
  - assert (claimed_slots (execute (fun s => s) "t1" first_world (crash_run ++ recovery)) = [100000%Z]) as -> by (vm_compute; reflexivity).
    intros s1 s2 H1 H2 _. apply list_elem_of_singleton in H1, H2. by subst.
Defined.

(** ** Two faults of the protocol *)

Definition prompts (op : string) (w : World) : Z :=
  Zlen (List.filter (fun n => match n with PromptCalled o _ => bool_decide (o = op) | _ => false end) (native w)).

(** The claim predicate does not look at the order of slots: any enabled task
    whose last claimed slot is later than the requested one by more than the slack
    can be claimed, so a process whose timer fires late runs an occurrence again
    that was claimed and completed before the next one: two sessions are created
    and two prompts sent for one operation. *)
Theorem late_claim_runs_again :
  (forall (t : json) (l slot : Z), is_disabled t = false -> last_slot t = Some (Qz l) ->
     (TASK_DUE_SLACK_MS < l - slot)%Z -> canClaimOccurrence (Qz slot) t = true)
  /\ (let op := op_of (fun s => s) "t1" 100000 in
      let w' := execute (fun s => s) "t1" first_world
        ([(EvClaim 7 100000 None, Qz 100000)] ++ whole_run 0 "ses1" 100001
         ++ [(EvClaim 7 200000 None, Qz 200000)] ++ whole_run 1 "ses2" 200001
         ++ [(EvClaim 8 100000 None, Qz 210000)] ++ whole_run 2 "ses3" 210001) in
      creates op w' = 2%Z /\ prompts op w' = 2%Z).
Proof.
  split.
  - intros t l slot Hd Hl Hs. unfold canClaimOccurrence, last_slot in *. rewrite Hd, Hl. apply bool_decide_eq_true_2.
    rewrite Qz_sub, Qz_abs. apply Qz_lt. lia.
  - vm_compute. split; reflexivity.
Qed.

(** The completion of a slow run lands between the claim of the next occurrence by
    another process and its first phase write: it clears the record of that claim,
    the phase write is refused, and the claimed occurrence never runs. *)
Lemma completion_clobbers_next_claim :
  let op := op_of (fun s => s) "t1" 200000 in
  let w' := execute (fun s => s) "t1" first_world
    ([(EvClaim 7 100000 None, Qz 100000)] ++ take 5 (whole_run 0 "ses1" 100001)
     ++ [(EvClaim 8 200000 None, Qz 200000)] ++ drop 5 (whole_run 0 "ses1" 200001) ++ whole_run 1 "ses2" 200002) in
  claims op w' = 1%Z /\ creates op w' = 0%Z
  /\ Settled op (inr (Some "occurrence dispatch record was unavailable; the run was not dispatched")) ∈ native w'.
Proof.
  vm_compute. split_and!; [reflexivity|reflexivity|]. repeat first [by left|right].
Qed.
