(* ===== verification/SchedQueue.v ===== *)
(** Per-process scheduling (scheduled/scheduled-state.ts, the pump and manual runs
    of scheduled-run.ts, start and stop of scheduled-runtime.ts): due timers, the
    FIFO run queue and the counted run slots.

    A due time is [None] where the code has a value that is no finite number. The
    runs under way are the requests whose [runTask] promise is outstanding. *)

From S2P Require Import Prelude JsString JsMap.

Definition MAX_TIMEOUT_MS : Z := 2147483647.

Inductive Reason : Type := Scheduled | Manual | Resume.

#[export] Instance Reason_eq_dec : EqDecision Reason.
Proof. solve_decision. Defined.

Record RunRequest : Type := mkRequest {
  projectId : string; taskId : string; reason : Reason; scheduledFor : option Z }.

#[export] Instance RunRequest_eq_dec : EqDecision RunRequest.
Proof. solve_decision. Defined.

(** What the scheduler looks at in a task: whether it is enabled, and the slot of
    an orphaned dispatch record, if it has one. *)
Record MemoryTask : Type := mkTask { t_id : string; t_enabled : bool; t_orphan : option Z }.

(** A timer fires at [fireAt]; a capped one re-arms instead of running the task. *)
Record TimerEntry : Type := mkTimer {
  tm_project : string; tm_task : MemoryTask; dueAt : Z; fireAt : Z; capped : bool }.

Record ScheduledState : Type := mkState {
  inert : bool;
  tasksByProject : list (string * list (string * MemoryTask));
  timers : list (string * TimerEntry);
  queue : list RunRequest;
  queued : list string;
  running : list string;
  globalRunning : Z;
  projectRunning : list (string * Z);
  inFlight : list RunRequest;
  started : list RunRequest;
}.

Definition newState : ScheduledState := mkState false [] [] [] [] [] 0 [] [] [].

Definition keyOf (projectId taskId : string) : string := projectId +:+ ":" +:+ taskId.

Definition key_of (r : RunRequest) : string := keyOf (projectId r) (taskId r).

Definition memoryTask (s : ScheduledState) (project task : string) : option MemoryTask :=
  m ← jget project (tasksByProject s); jget task m.

Definition projectSlots (s : ScheduledState) (project : string) : Z := default 0%Z (jget project (projectRunning s)).

Definition with_timers (s : ScheduledState) (t : list (string * TimerEntry)) : ScheduledState :=
  mkState (inert s) (tasksByProject s) t (queue s) (queued s) (running s) (globalRunning s) (projectRunning s)
    (inFlight s) (started s).
Definition with_tasks (s : ScheduledState) (m : list (string * list (string * MemoryTask))) : ScheduledState :=
  mkState (inert s) m (timers s) (queue s) (queued s) (running s) (globalRunning s) (projectRunning s)
    (inFlight s) (started s).
Definition with_queue (s : ScheduledState) (q : list RunRequest) (qd : list string) : ScheduledState :=
  mkState (inert s) (tasksByProject s) (timers s) q qd (running s) (globalRunning s) (projectRunning s)
    (inFlight s) (started s).
Definition with_inert (s : ScheduledState) (b : bool) : ScheduledState :=
  mkState b (tasksByProject s) (timers s) (queue s) (queued s) (running s) (globalRunning s) (projectRunning s)
    (inFlight s) (started s).

(** [remember]: only for a project that has been synced. *)
Definition remember (s : ScheduledState) (project : string) (t : MemoryTask) : ScheduledState :=
  match jget project (tasksByProject s) with
  | Some m => with_tasks s (jset project (jset (t_id t) t m) (tasksByProject s))
  | None => s
  end.

Definition set_add (k : string) (l : list string) : list string := if bool_decide (k ∈ l) then l else l ++ [k].
Definition set_del (k : string) (l : list string) : list string := filter (fun x => x <> k) l.

(** ** Timers *)

Definition clearTimer (s : ScheduledState) (project task : string) : ScheduledState :=
  with_timers s (jdel (keyOf project task) (timers s)).

Definition scheduleFutureRun (s : ScheduledState) (project : string) (t : MemoryTask) (due : option Z)
    (now jitter : Z) : ScheduledState :=
  let s1 := clearTimer s project (t_id t) in
  match due with
  | None => s1
  | Some dueAt =>
    if inert s1 || negb (t_enabled t) || bool_decide (dueAt <= now)%Z then s1
    else
      let delay := Z.max 0 (dueAt - now + jitter) in
      let entry := if bool_decide (MAX_TIMEOUT_MS < delay)%Z
                   then mkTimer project t dueAt (now + MAX_TIMEOUT_MS) true
                   else mkTimer project t dueAt (now + delay) false in
      with_timers s1 (jset (keyOf project (t_id t)) entry (timers s1))
  end.

Section pump.
  Context (maxGlobalConcurrency maxProjectConcurrency : Z).

(** ** The pump *)

(** A run takes its slots. *)
Definition occupy (s : ScheduledState) (r : RunRequest) : ScheduledState :=
  mkState (inert s) (tasksByProject s) (timers s) (queue s) (queued s) (set_add (key_of r) (running s))
    (globalRunning s + 1) (jset (projectId r) (projectSlots s (projectId r) + 1)%Z (projectRunning s))
    (inFlight s ++ [r]) (started s).

(** The first outstanding run of a key ends. *)
Fixpoint drop_run (key : string) (l : list RunRequest) : list RunRequest :=
  match l with
  | [] => []
  | r :: l' => if bool_decide (key_of r = key) then l' else r :: drop_run key l'
  end.

Definition vacate (s : ScheduledState) (r : RunRequest) : ScheduledState :=
  mkState (inert s) (tasksByProject s) (timers s) (queue s) (queued s) (set_del (key_of r) (running s))
    (globalRunning s - 1) (jset (projectId r) (projectSlots s (projectId r) - 1)%Z (projectRunning s))
    (drop_run (key_of r) (inFlight s)) (started s).

Definition note_started (s : ScheduledState) (r : RunRequest) : ScheduledState :=
  mkState (inert s) (tasksByProject s) (timers s) (queue s) (queued s) (running s) (globalRunning s)
    (projectRunning s) (inFlight s) (started s ++ [r]).

(** One round of the pump: the head starts, unless a slot is missing. *)
Definition pump_round (s : ScheduledState) : option ScheduledState :=
  if bool_decide (maxGlobalConcurrency <= globalRunning s)%Z then None
  else match queue s with
       | [] => None
       | next :: rest =>
         if bool_decide (maxProjectConcurrency <= projectSlots s (projectId next))%Z then None
         else Some (note_started (occupy (with_queue s rest (set_del (key_of next) (queued s))) next) next)
       end.

Fixpoint pump_loop (fuel : nat) (s : ScheduledState) : ScheduledState :=
  match fuel with
  | O => s
  | S n => match pump_round s with Some s' => pump_loop n s' | None => s end
  end.

(** Every round shortens the queue. *)
Definition pump (s : ScheduledState) : ScheduledState := pump_loop (length (queue s)) s.

(** [ScheduledState.enqueue], with [afterEnqueue] set to the pump; the pump's own
    [enqueue] pumps once more. *)
Definition enqueue (s : ScheduledState) (r : RunRequest) : ScheduledState * bool :=
  if inert s then (s, false)
  else
    let key := key_of r in
    if bool_decide (key ∈ queued s) || bool_decide (key ∈ running s) then (s, false)
    else (pump (with_queue s (queue s ++ [r]) (queued s ++ [key])), true).

Definition onDue (s : ScheduledState) (project task : string) (due : Z) : ScheduledState :=
  match memoryTask s project task with
  | Some t => if t_enabled t then (enqueue s (mkRequest project task Scheduled (Some due))).1 else s
  | None => s
  end.

(** The timer of a key fires. *)
Definition timerFires (s : ScheduledState) (key : string) (now jitter : Z) : ScheduledState :=
  match jget key (timers s) with
  | None => s
  | Some e =>
    let s1 := with_timers s (jdel key (timers s)) in
    if capped e then scheduleFutureRun s1 (tm_project e) (tm_task e) (Some (dueAt e)) now jitter
    else onDue s1 (tm_project e) (t_id (tm_task e)) (dueAt e)
  end.

(** A run started by the pump settles; a manual run ends likewise. *)
Definition runSettles (s : ScheduledState) (r : RunRequest) : ScheduledState := pump (vacate s r).

Inductive ManualAnswer : Type := TaskBusy | CapacityExhausted | ManualStarted.

Definition runNow (s : ScheduledState) (project task : string) : ScheduledState * ManualAnswer :=
  let key := keyOf project task in
  if bool_decide (key ∈ queued s) || bool_decide (key ∈ running s) then (s, TaskBusy)
  else if bool_decide (maxGlobalConcurrency <= globalRunning s)%Z
          || bool_decide (maxProjectConcurrency <= projectSlots s project)%Z then (s, CapacityExhausted)
  else (occupy s (mkRequest project task Manual None), ManualStarted).

(** ** Synchronisation *)

(** [key.slice(0, key.indexOf(':'))] of a key. *)
Definition key_project (key : string) : string := before ":" key.

Definition dropProjectsNotIn (s : ScheduledState) (known : list string) : ScheduledState :=
  fold_left (fun s kv =>
    if bool_decide (key_project kv.1 ∈ known) then s
    else with_tasks (with_timers s (jdel kv.1 (timers s))) (jdel (key_project kv.1) (tasksByProject s)))
    (timers s) s.

Definition dropTasksNotIn (s : ScheduledState) (project : string) (knownIds : list string) : ScheduledState :=
  let pre := project +:+ ":" in
  with_timers s (filter (fun kv =>
    ~ (String.prefix pre kv.1 = true /\ sdrop (String.length pre) kv.1 ∉ knownIds)) (timers s)).

(** The loop of [syncScheduledProject] over the tasks of the store, each with its
    computed next slot. *)
Definition sync_task (project : string) (now jitter : Z) (s : ScheduledState) (x : MemoryTask * option Z) : ScheduledState :=
  let s1 := scheduleFutureRun s project x.1 x.2 now jitter in
  match t_orphan x.1 with
  | Some slot => (enqueue s1 (mkRequest project (t_id x.1) Resume (Some slot))).1
  | None => s1
  end.

Definition sync_map (tasks : list (MemoryTask * option Z)) : list (string * (MemoryTask * option Z)) :=
  fold_left (fun m (x : MemoryTask * option Z) => jset (t_id x.1) x m) tasks [].

(** What happens once the project is read: the map replaces the old one. *)
Definition sync_begin (s : ScheduledState) (project : string) (tasks : list (MemoryTask * option Z)) : ScheduledState :=
  let map := sync_map tasks in
  let s1 := with_tasks s (jset project (prod_map (fun k => k) fst <$> map) (tasksByProject s)) in
  dropTasksNotIn s1 project (jkeys map).

Definition syncScheduledProject (s : ScheduledState) (project : string) (tasks : list (MemoryTask * option Z))
    (now jitter : Z) : ScheduledState :=
  fold_left (sync_task project now jitter) (jvals (sync_map tasks)) (sync_begin s project tasks).

Definition clearForStop (s : ScheduledState) : ScheduledState := with_queue (with_timers s []) [] [].

Definition stop (s : ScheduledState) : ScheduledState := clearForStop (with_inert s true).

Definition start (s : ScheduledState) : ScheduledState := with_inert s false.

(** Everything that happens in the process. Between the read of a project and each
    of its tasks the code awaits the store, so a sync is a sequence of events;
    [start] likewise awaits the project list before it drops the others. *)
Inductive Event : Type :=
| EvSyncBegin (project : string) (tasks : list (MemoryTask * option Z))
| EvSyncTask (project : string) (x : MemoryTask * option Z) (jitter : Z)
| EvSchedule (project : string) (t : MemoryTask) (due : option Z) (jitter : Z)
| EvRemember (project : string) (t : MemoryTask)
| EvTimer (key : string) (jitter : Z)
| EvEnqueue (r : RunRequest)
| EvRunNow (project task : string)
| EvSettle (r : RunRequest)
| EvStop
| EvStart
| EvDropProjects (known : list string).

(** A run settles only while it is outstanding. *)
Definition step (s : ScheduledState) (e : Event * Z) : ScheduledState :=
  let now := e.2 in
  match e.1 with
  | EvSyncBegin p ts => sync_begin s p ts
  | EvSyncTask p x j => sync_task p now j s x
  | EvSchedule p t due j => scheduleFutureRun s p t due now j
  | EvRemember p t => remember s p t
  | EvTimer key j => timerFires s key now j
  | EvEnqueue r => (enqueue s r).1
  | EvRunNow p t => (runNow s p t).1
  | EvSettle r => if bool_decide (r ∈ inFlight s) then runSettles s r else s
  | EvStop => stop s
  | EvStart => start s
  | EvDropProjects known => dropProjectsNotIn s known
  end.

Definition execute (s : ScheduledState) (es : list (Event * Z)) : ScheduledState := fold_left step es s.

End pump.

(** ** Invariant *)

Definition runs_of (project : string) (l : list RunRequest) : Z := Zlen (filter (fun r => projectId r = project) l).

Record state_ok (maxGlobal maxProject : Z) (s : ScheduledState) : Prop := {
  ok_queued : queued s = key_of <$> queue s;
  ok_running : running s = key_of <$> inFlight s;
  ok_distinct : NoDup (queued s ++ running s);
  ok_global : globalRunning s = Zlen (inFlight s);
  ok_project : forall p, projectSlots s p = runs_of p (inFlight s);
  ok_global_cap : (globalRunning s <= maxGlobal)%Z;
  ok_project_cap : forall p, (projectSlots s p <= maxProject)%Z;
}.

Lemma runs_of_app p l k : runs_of p (l ++ k) = (runs_of p l + runs_of p k)%Z.
Proof. unfold runs_of. by rewrite filter_app, Zlen_app. Qed.

Lemma runs_of_cons p r l : runs_of p (r :: l) = ((if decide (projectId r = p) then 1 else 0) + runs_of p l)%Z.
Proof. unfold runs_of. rewrite filter_cons. case_decide; rewrite ?Zlen_cons; lia. Qed.

Lemma set_del_head k l : k ∉ l -> set_del k (k :: l) = l.
Proof.
  intros Hk. unfold set_del. rewrite filter_cons_False by (intros H; by apply H).
  induction l as [|x l IH]; [done|]. rewrite filter_cons_True by set_solver. f_equal. apply IH. set_solver.
Qed.

Lemma set_del_fresh k l : k ∉ l -> set_del k l = l.
Proof.
  intros Hk. unfold set_del. induction l as [|x l IH]; [done|]. rewrite filter_cons_True by set_solver.
  f_equal. apply IH. set_solver.
Qed.

Lemma drop_run_keys key l : NoDup (key_of <$> l) -> key_of <$> drop_run key l = set_del key (key_of <$> l).
Proof.
  induction l as [|r l IH]; [done|]. rewrite fmap_cons, NoDup_cons. intros [Hr Hn]. cbn [drop_run]. case_bool_decide as E.
  - subst key. by rewrite set_del_head.
  - unfold set_del in *. rewrite fmap_cons, filter_cons_True by done. f_equal. by apply IH.
Qed.

(** The run dropped is the one that settles. *)
Lemma drop_run_split r l : NoDup (key_of <$> l) -> r ∈ l ->
  exists l1 l2, l = l1 ++ r :: l2 /\ drop_run (key_of r) l = l1 ++ l2.
Proof.
  induction l as [|x l IH]; intros Hn Hr; [by apply elem_of_nil in Hr|]. rewrite fmap_cons, NoDup_cons in Hn.
  destruct Hn as [Hx Hn]. cbn [drop_run]. case_bool_decide as E.
  - apply elem_of_cons in Hr as [->|Hr]; [by exists [], l|]. exfalso. apply Hx. rewrite E. by apply list_elem_of_fmap_2.
  - apply elem_of_cons in Hr as [->|Hr]; [done|]. destruct (IH Hn Hr) as (l1 & l2 & -> & E2).
    exists (x :: l1), l2. split; [done|]. by rewrite E2.
Qed.

Lemma projectSlots_set s q qd t m (p p' : string) (z : Z) rn g fl st b :
  projectSlots (mkState b m t q qd rn g (jset p z (projectRunning s)) fl st) p'
  = if decide (p' = p) then z else projectSlots s p'.
Proof.
  unfold projectSlots. cbn. case_decide as E; [subst; by rewrite jget_set_eq|by rewrite jget_set_ne].
Qed.

Section invariant.
  Context (maxGlobal maxProject : Z).

Lemma occupy_ok s r :
  state_ok maxGlobal maxProject s -> key_of r ∉ queued s -> key_of r ∉ running s ->
  (globalRunning s < maxGlobal)%Z -> (projectSlots s (projectId r) < maxProject)%Z -> state_ok maxGlobal maxProject (occupy s r).
Proof.
  intros [H1 H2 H3 H4 H5 H6 H7] Hq Hr Hg Hp.
  assert (running (occupy s r) = running s ++ [key_of r]) as Er.
  { unfold occupy, set_add. cbn. by rewrite bool_decide_false. }
  split; rewrite ?Er; cbn [queued queue inFlight globalRunning occupy]; try done.
  - by rewrite H2, fmap_app.
  - rewrite app_assoc. apply NoDup_app. split_and!; [done| |apply NoDup_singleton].
    intros x Hx ->%list_elem_of_singleton. set_solver.
  - rewrite Zlen_app, Zlen_cons, Zlen_nil. lia.
  - intros p. unfold occupy. rewrite projectSlots_set, runs_of_app, runs_of_cons.
    assert (runs_of p [] = 0%Z) as -> by done. case_decide as E; [subst p|]; rewrite <- H5.
    + rewrite decide_True by done. lia.
    + rewrite decide_False by done. lia.
  - lia.
  - intros p. unfold occupy. rewrite projectSlots_set. case_decide; [lia|apply H7].
Qed.

Lemma vacate_ok s r : state_ok maxGlobal maxProject s -> r ∈ inFlight s -> state_ok maxGlobal maxProject (vacate s r).
Proof.
  intros [H1 H2 H3 H4 H5 H6 H7] Hr. pose proof H3 as Hn. apply NoDup_app in Hn as (Hnq & Hqr & Hnr).
  rewrite H2 in Hnr. destruct (drop_run_split r (inFlight s) Hnr Hr) as (l1 & l2 & E & Ed).
  split; cbn [queued queue running inFlight globalRunning vacate]; try done.
  - by rewrite H2, drop_run_keys.
  - apply NoDup_app. split_and!; [done| |].
    + intros x Hx Hin. apply (Hqr x Hx). unfold set_del in Hin. by apply list_elem_of_filter in Hin as [_ Hin].
    + unfold set_del. apply NoDup_filter. by rewrite H2.
  - rewrite H4, Ed, E, !Zlen_app, Zlen_cons. lia.
  - intros p. unfold vacate. rewrite projectSlots_set, Ed, !H5, E, !runs_of_app, !runs_of_cons.
    destruct (decide (p = projectId r)) as [->|Hne]; [rewrite decide_True by done; lia|].
    rewrite decide_False by (intros Hx; by apply Hne). lia.
  - lia.
  - intros p. unfold vacate. rewrite projectSlots_set. specialize (H7 p). case_decide; [subst|]; lia.
Qed.

Lemma pump_round_ok s s' : state_ok maxGlobal maxProject s -> pump_round maxGlobal maxProject s = Some s' -> state_ok maxGlobal maxProject s'.
Proof.
  intros [H1 H2 H3 H4 H5 H6 H7]. unfold pump_round. case_bool_decide as Hg; [done|].
  destruct (queue s) as [|next rest] eqn:Eq; [done|]. case_bool_decide as Hp; [done|]. intros [= <-].
  rewrite fmap_cons in H1. rewrite H1 in H3. cbn [app] in H3. apply NoDup_cons in H3 as [Hk Hn].
  rewrite H1, set_del_head by set_solver.
  assert (state_ok maxGlobal maxProject (with_queue s rest (key_of <$> rest))) as Hok by (split; done).
  apply (occupy_ok _ next) in Hok; [by destruct Hok; split|cbn; set_solver|cbn; set_solver|cbn; lia|].
  change (projectSlots (with_queue s rest (key_of <$> rest)) (projectId next)) with (projectSlots s (projectId next)). lia.
Qed.

Lemma pump_ok s : state_ok maxGlobal maxProject s -> state_ok maxGlobal maxProject (pump maxGlobal maxProject s).
Proof.
  unfold pump. generalize (length (queue s)). intros n. revert s. induction n as [|n IH]; intros s H; [done|]. cbn.
  destruct (pump_round _ _ s) as [s'|] eqn:E; [|done]. apply IH. by eapply pump_round_ok.
Qed.

Lemma pump_round_queue s s' : pump_round maxGlobal maxProject s = Some s' ->
  exists next, queue s = next :: queue s' /\ started s' = started s ++ [next].
Proof.
  unfold pump_round. case_bool_decide; [done|]. destruct (queue s) as [|next rest]; [done|].
  case_bool_decide; [done|]. intros [= <-]. by exists next.
Qed.

(** The pump stops only when the head is blocked or the queue is empty. *)
Lemma pump_done s : pump_round maxGlobal maxProject (pump maxGlobal maxProject s) = None.
Proof.
  unfold pump. remember (length (queue s)) as n eqn:En. revert s En. induction n as [|n IH]; intros s En.
  - cbn. unfold pump_round. case_bool_decide; [done|]. by destruct (queue s).
  - cbn. destruct (pump_round maxGlobal maxProject s) as [s'|] eqn:E; [|done].
    apply IH. destruct (pump_round_queue _ _ E) as (next & Eq & _). rewrite Eq in En. cbn in En. lia.
Qed.

Lemma pump_order s : started (pump maxGlobal maxProject s) ++ queue (pump maxGlobal maxProject s) = started s ++ queue s.
Proof.
  unfold pump. generalize (length (queue s)). intros n. revert s. induction n as [|n IH]; intros s; [done|]. cbn.
  destruct (pump_round _ _ s) as [s'|] eqn:E; [|done]. rewrite IH.
  destruct (pump_round_queue _ _ E) as (next & -> & ->). by rewrite <- app_assoc.
Qed.

(** ** What a step does to the queue and the slots *)

(** The parts of the state the pump reads. *)
Definition slots (s : ScheduledState) :=
  (queue s, queued s, running s, globalRunning s, projectRunning s, inFlight s, started s).

Lemma state_ok_slots s s' : slots s' = slots s -> state_ok maxGlobal maxProject s -> state_ok maxGlobal maxProject s'.
Proof.
  unfold slots. intros [= E1 E2 E3 E4 E5 E6 E7] [H1 H2 H3 H4 H5 H6 H7].
  assert (forall p, projectSlots s' p = projectSlots s p) as Ep by (intros p; unfold projectSlots; by rewrite E5).
  split; rewrite ?E1, ?E2, ?E3, ?E4, ?E6; try done; intros p; rewrite Ep; done.
Qed.

Lemma pump_round_slots s s' : slots s' = slots s -> pump_round maxGlobal maxProject s = None -> pump_round maxGlobal maxProject s' = None.
Proof.
  unfold slots. intros [= E1 E2 E3 E4 E5 E6 E7]. unfold pump_round, projectSlots. rewrite E1, E4, E5.
  repeat (case_bool_decide; [done|]). destruct (queue s); [done|]. by case_bool_decide.
Qed.

Lemma scheduleFutureRun_slots s p t due now j : slots (scheduleFutureRun s p t due now j) = slots s.
Proof. unfold scheduleFutureRun. destruct due as [d|]; [|done]. by destruct (inert _ || _ || _). Qed.

Lemma dropProjectsNotIn_slots s known : slots (dropProjectsNotIn s known) = slots s.
Proof.
  unfold dropProjectsNotIn. generalize (timers s) at 1. intros l. revert s. induction l as [|kv l IH]; intros s; [done|].
  cbn [fold_left]. rewrite IH. by case_bool_decide.
Qed.

Lemma remember_slots s p t : slots (remember s p t) = slots s.
Proof. unfold remember. by destruct (jget p _). Qed.

(** The four ways a step touches them. *)
Inductive slot_step (e : Event) (s s' : ScheduledState) : Prop :=
| SlotSame : slots s' = slots s -> slot_step e s s'
| SlotEnqueue s0 r : slots s0 = slots s -> s' = (enqueue maxGlobal maxProject s0 r).1 -> slot_step e s s'
| SlotManual p t : s' = (runNow maxGlobal maxProject s p t).1 -> slot_step e s s'
| SlotSettle r : r ∈ inFlight s -> s' = runSettles maxGlobal maxProject s r -> slot_step e s s'
| SlotStop : e = EvStop -> s' = stop s -> slot_step e s s'.

Lemma onDue_slots e s0 s p t due : slots s0 = slots s -> slot_step e s (onDue maxGlobal maxProject s0 p t due).
Proof.
  intros E. unfold onDue. destruct (memoryTask s0 p t) as [m|]; [|by apply SlotSame].
  destruct (t_enabled m); [|by apply SlotSame]. by eapply SlotEnqueue.
Qed.

Lemma step_slots s e : slot_step e.1 s (step maxGlobal maxProject s e).
Proof.
  destruct e as [[p ts|p x j|p t due j|p t|key j|r|p t|r| | |known] now]; cbn [step fst snd].
  - by apply SlotSame.
  - unfold sync_task. destruct (t_orphan x.1); [|apply SlotSame; by rewrite scheduleFutureRun_slots].
    eapply SlotEnqueue; [|done]. by rewrite scheduleFutureRun_slots.
  - apply SlotSame, scheduleFutureRun_slots.
  - apply SlotSame, remember_slots.
  - unfold timerFires. destruct (jget key (timers s)) as [x|]; [|by apply SlotSame].
    destruct (capped x); [apply SlotSame; by rewrite scheduleFutureRun_slots|by apply onDue_slots].
  - by eapply SlotEnqueue.
  - by eapply SlotManual.
  - case_bool_decide; [by eapply SlotSettle|by apply SlotSame].
  - by apply SlotStop.
  - by apply SlotSame.
  - apply SlotSame, dropProjectsNotIn_slots.
Qed.

Lemma enqueue_ok s r : state_ok maxGlobal maxProject s -> state_ok maxGlobal maxProject (enqueue maxGlobal maxProject s r).1.
Proof.
  intros H. unfold enqueue. destruct (inert s); [done|]. destruct (_ || _) eqn:E; [done|].
  apply orb_false_iff in E as [Eq%bool_decide_eq_false Er%bool_decide_eq_false].
  apply pump_ok. destruct H as [H1 H2 H3 H4 H5 H6 H7]. split; cbn [queue queued running inFlight globalRunning with_queue]; try done.
  - by rewrite H1, fmap_app.
  - rewrite <- app_assoc. apply NoDup_app in H3 as (Ha & Hb & Hc). apply NoDup_app. split_and!; [done|set_solver|].
    cbn. by apply NoDup_cons.
Qed.

Lemma runNow_ok s p t : state_ok maxGlobal maxProject s -> state_ok maxGlobal maxProject (runNow maxGlobal maxProject s p t).1.
Proof.
  intros H. unfold runNow. destruct (_ || _) eqn:E; [done|]. destruct (_ || _) eqn:E2 in |- *; [done|].
  apply orb_false_iff in E as [Eq%bool_decide_eq_false Er%bool_decide_eq_false].
  apply orb_false_iff in E2 as [Eg%bool_decide_eq_false Ep%bool_decide_eq_false].
  apply occupy_ok; try done; cbn [projectId]; lia.
Qed.

Lemma queue_step_ok s e : state_ok maxGlobal maxProject s -> state_ok maxGlobal maxProject (step maxGlobal maxProject s e).
Proof.
  intros H. destruct (step_slots s e) as [E|s0 r E ->|p t ->|r Hr ->|_ ->].
  - by apply (state_ok_slots s).
  - apply enqueue_ok. by apply (state_ok_slots s).
  - by apply runNow_ok.
  - by apply pump_ok, vacate_ok.
  - destruct H as [H1 H2 H3 H4 H5 H6 H7]. split; try done. by apply NoDup_app in H3 as (_ & _ & H3).
Qed.

Lemma queue_execute_ok s es : state_ok maxGlobal maxProject s -> state_ok maxGlobal maxProject (execute maxGlobal maxProject s es).
Proof. revert s. induction es as [|e es IH]; intros s H; [done|]. cbn. by apply IH, queue_step_ok. Qed.

Lemma newState_ok : (0 <= maxGlobal)%Z -> (0 <= maxProject)%Z -> state_ok maxGlobal maxProject newState.
Proof. intros Hg Hp. split; try done. apply NoDup_nil_2. Qed.

Lemma step_pumped s e :
  pump_round maxGlobal maxProject s = None -> pump_round maxGlobal maxProject (step maxGlobal maxProject s e) = None.
Proof.
  intros H. destruct (step_slots s e) as [E|s0 r E ->|p t ->|r Hr ->|_ ->].
  - by apply (pump_round_slots s).
  - unfold enqueue. destruct (inert s0); [by apply (pump_round_slots s)|].
    case_match; [by apply (pump_round_slots s)|apply pump_done].
  - unfold runNow. repeat case_bool_decide; try done. cbn [orb fst]. revert H. unfold pump_round, occupy.
    cbn [globalRunning queue]. repeat case_bool_decide; try done; try lia. destruct (queue s) as [|n q]; [done|].
    rewrite projectSlots_set. repeat case_bool_decide; try done. case_decide; [simplify_eq/=; lia|done].
  - apply pump_done.
  - unfold pump_round. by case_bool_decide.
Qed.

Lemma execute_pumped s es :
  pump_round maxGlobal maxProject s = None -> pump_round maxGlobal maxProject (execute maxGlobal maxProject s es) = None.
Proof. revert s. induction es as [|e es IH]; intros s H; [done|]. cbn. by apply IH, step_pumped. Qed.

End invariant.

(** ** Slots *)

(** C7. Whatever is synced, due, enqueued, started by hand, settled or stopped, the
    runs under way never exceed the global limit nor a project's limit, the
    counters count exactly the runs under way, and no key is queued or running
    twice. *)
Theorem slots_are_never_exceeded maxGlobal maxProject es :
  (0 <= maxGlobal)%Z -> (0 <= maxProject)%Z ->
  let s := execute maxGlobal maxProject newState es in
  globalRunning s = Zlen (inFlight s) /\ (Zlen (inFlight s) <= maxGlobal)%Z /\
  (forall p, projectSlots s p = runs_of p (inFlight s) /\ (runs_of p (inFlight s) <= maxProject)%Z) /\
  NoDup (key_of <$> (queue s ++ inFlight s)).
Proof.
  intros Hg Hp s. destruct (queue_execute_ok maxGlobal maxProject newState es (newState_ok _ _ Hg Hp)) as [H1 H2 H3 H4 H5 H6 H7].
  fold s in H1, H2, H3, H4, H5, H6, H7. split_and!; [done|lia| |].
  - intros p. by rewrite <- H5.
  - by rewrite fmap_app, <- H1, <- H2.
Qed.

(** ** Order and progress *)

Lemma step_order maxGlobal maxProject s e : e.1 <> EvStop ->
  started s ++ queue s `prefix_of` started (step maxGlobal maxProject s e) ++ queue (step maxGlobal maxProject s e).
Proof.
  assert (forall s', slots s' = slots s -> started s' = started s /\ queue s' = queue s) as Hs.
  { intros s'. unfold slots. by intros [= -> _ _ _ _ _ ->]. }
  intros He. destruct (step_slots maxGlobal maxProject s e) as [E|s0 r E ->|p t ->|r Hr ->|E _]; [| | | |done].
  - by destruct (Hs _ E) as [-> ->].
  - destruct (Hs _ E) as [<- <-]. unfold enqueue. destruct (inert s0); [done|].
    destruct (_ || _); [done|]. cbn [fst]. rewrite pump_order. cbn [started queue with_queue].
    rewrite app_assoc. by apply prefix_app_r.
  - unfold runNow. destruct (_ || _); [done|]. by destruct (_ || _).
  - unfold runSettles. by rewrite pump_order.
Qed.

(** Until the next stop, queued runs start in the order in which they were
    accepted: the runs started so far followed by the queue only ever grow at the
    end. *)
Theorem queued_runs_start_in_order maxGlobal maxProject s es :
  Forall (fun e => e.1 <> EvStop) es ->
  started s ++ queue s `prefix_of` started (execute maxGlobal maxProject s es) ++ queue (execute maxGlobal maxProject s es).
Proof.
  revert s. induction es as [|e es IH]; intros s H; [done|]. inversion_clear H. cbn.
  etrans; [by apply (step_order maxGlobal maxProject)|]. by apply IH.
Qed.

(** The outstanding runs that settle, one after the other. *)
Fixpoint settling (maxGlobal maxProject : Z) (s : ScheduledState) (rs : list RunRequest) : Prop :=
  match rs with
  | [] => True
  | r :: rs' => r ∈ inFlight s /\ settling maxGlobal maxProject (runSettles maxGlobal maxProject s r) rs'
  end.

Definition settle_all (maxGlobal maxProject : Z) (s : ScheduledState) (rs : list RunRequest) : ScheduledState :=
  fold_left (runSettles maxGlobal maxProject) rs s.

Section progress.
  Context (maxGlobal maxProject : Z).

Lemma pump_load s : length (inFlight (pump maxGlobal maxProject s)) + length (queue (pump maxGlobal maxProject s))
  = length (inFlight s) + length (queue s).
Proof.
  unfold pump. generalize (length (queue s)) at 1 2. intros n. revert s. induction n as [|n IH]; intros s; [done|]. cbn.
  destruct (pump_round maxGlobal maxProject s) as [s'|] eqn:E; [|done]. rewrite IH. revert E. unfold pump_round.
  case_bool_decide; [done|]. destruct (queue s) as [|next rest]; [done|]. case_bool_decide; [done|]. intros [= <-].
  cbn. rewrite length_app. cbn. lia.
Qed.

Lemma settle_load s r : state_ok maxGlobal maxProject s -> r ∈ inFlight s ->
  S (length (inFlight (runSettles maxGlobal maxProject s r)) + length (queue (runSettles maxGlobal maxProject s r)))
  = length (inFlight s) + length (queue s).
Proof.
  intros Hok Hr. unfold runSettles. rewrite pump_load. cbn [vacate inFlight queue].
  destruct Hok as [_ H2 H3 _ _ _ _]. apply NoDup_app in H3 as (_ & _ & H3). rewrite H2 in H3.
  destruct (drop_run_split r (inFlight s) H3 Hr) as (l1 & l2 & -> & ->). rewrite !length_app. cbn. lia.
Qed.

Lemma blocked_by_a_run s : (1 <= maxGlobal)%Z -> (1 <= maxProject)%Z -> state_ok maxGlobal maxProject s ->
  pump_round maxGlobal maxProject s = None -> queue s <> [] -> inFlight s <> [].
Proof.
  intros Hg Hp [_ _ _ H4 H5 _ _] Hb Hq Hi. rewrite Hi in *. revert Hb. unfold pump_round.
  rewrite bool_decide_false by (rewrite H4, Zlen_nil; lia). destruct (queue s) as [|next rest]; [done|].
  rewrite bool_decide_false; [done|]. rewrite H5. unfold runs_of. rewrite filter_nil, Zlen_nil. lia.
Qed.

Lemma settle_all_ok s rs : state_ok maxGlobal maxProject s -> settling maxGlobal maxProject s rs ->
  pump_round maxGlobal maxProject s = None ->
  let s' := settle_all maxGlobal maxProject s rs in
  state_ok maxGlobal maxProject s' /\ pump_round maxGlobal maxProject s' = None /\
  length (inFlight s') + length (queue s') + length rs = length (inFlight s) + length (queue s) /\
  started s' ++ queue s' = started s ++ queue s.
Proof.
  revert s. induction rs as [|r rs IH]; intros s Hok Hs Hb; cbn zeta; [split_and!; [done|done|cbn; lia|done]|].
  destruct Hs as [Hr Hs].
  change (settle_all maxGlobal maxProject s (r :: rs)) with (settle_all maxGlobal maxProject (runSettles maxGlobal maxProject s r) rs).
  destruct (IH (runSettles maxGlobal maxProject s r)) as (H1 & H2 & H3 & H4);
    [by apply pump_ok, vacate_ok|done|apply pump_done|].
  split_and!; [done|done| |].
  - pose proof (settle_load s r Hok Hr). cbn [length]. lia.
  - rewrite H4. unfold runSettles. by rewrite pump_order.
Qed.

End progress.

(** C31. No queued run is stranded: from any reachable state, as outstanding runs
    settle in any order, each settling takes one run off the load, a queued run
    always has an outstanding one to wait for, and once the queue is empty every
    run that was in it has started, in queue order. *)
Theorem queued_runs_are_never_stranded maxGlobal maxProject es rs :
  (1 <= maxGlobal)%Z -> (1 <= maxProject)%Z ->
  let s := execute maxGlobal maxProject newState es in
  settling maxGlobal maxProject s rs ->
  let s' := settle_all maxGlobal maxProject s rs in
  length (inFlight s') + length (queue s') + length rs = length (inFlight s) + length (queue s) /\
  (queue s' <> [] -> inFlight s' <> []) /\
  (queue s' = [] -> started s' = started s ++ queue s).
Proof.
  intros Hg Hp s Hs s'.
  assert (state_ok maxGlobal maxProject s) as Hok by (apply queue_execute_ok, newState_ok; lia).
  assert (pump_round maxGlobal maxProject s = None) as Hb by (apply execute_pumped; unfold pump_round; by case_bool_decide).
  destruct (settle_all_ok maxGlobal maxProject s rs Hok Hs Hb) as (H1 & H2 & H3 & H4). fold s' in H1, H2, H3, H4.
  split_and!; [done|by apply blocked_by_a_run with maxGlobal maxProject|].
  intros Hq. rewrite Hq, app_nil_r in H4. done.
Qed.

(** ** Timers *)

Definition timer_ok (x : string * TimerEntry) : Prop :=
  x.1 = keyOf (tm_project x.2) (t_id (tm_task x.2)) /\ (capped x.2 = false -> (dueAt x.2 <= fireAt x.2)%Z).

Definition timers_ok (s : ScheduledState) : Prop := Forall timer_ok (timers s).

(** The clock adds no negative jitter. *)
Definition jitter_ok (e : Event * Z) : Prop :=
  match e.1 with
  | EvSyncTask _ _ j | EvSchedule _ _ _ j | EvTimer _ j => (0 <= j)%Z
  | _ => True
  end.

Lemma timers_with s t : timers (with_timers s t) = t.
Proof. done. Qed.

Lemma scheduleFutureRun_timers s p t due now j : (0 <= j)%Z -> timers_ok s -> timers_ok (scheduleFutureRun s p t due now j).
Proof.
  intros Hj H. unfold scheduleFutureRun. assert (timers_ok (clearTimer s p (t_id t))) as H1 by (by apply Forall_jdel).
  destruct due as [d|]; [|done]. destruct (_ || _ || bool_decide (d <= now)%Z) eqn:E; [done|].
  apply orb_false_iff in E as [_ E%bool_decide_eq_false]. apply Forall_jset; [|done].
  case_bool_decide; (split; [done|]); cbn; [done|lia].
Qed.

Lemma pump_timers maxGlobal maxProject s : timers (pump maxGlobal maxProject s) = timers s.
Proof.
  unfold pump. generalize (length (queue s)). intros n. revert s. induction n as [|n IH]; intros s; [done|]. cbn.
  destruct (pump_round maxGlobal maxProject s) as [s'|] eqn:E; [|done]. rewrite IH. revert E. unfold pump_round.
  case_bool_decide; [done|]. destruct (queue s); [done|]. case_bool_decide; [done|]. by intros [= <-].
Qed.

Lemma enqueue_timers maxGlobal maxProject s r : timers (enqueue maxGlobal maxProject s r).1 = timers s.
Proof. unfold enqueue. destruct (inert s); [done|]. destruct (_ || _); [done|]. cbn [fst]. by rewrite pump_timers. Qed.

Lemma onDue_timers maxGlobal maxProject s p t d : timers (onDue maxGlobal maxProject s p t d) = timers s.
Proof. unfold onDue. destruct (memoryTask s p t) as [m|]; [|done]. destruct (t_enabled m); [apply enqueue_timers|done]. Qed.

Lemma dropProjectsNotIn_timers s known : timers_ok s -> timers_ok (dropProjectsNotIn s known).
Proof.
  unfold dropProjectsNotIn. generalize (timers s) at 1. intros l. revert s. induction l as [|kv l IH]; intros s H; [done|].
  cbn [fold_left]. apply IH. case_bool_decide; [done|by apply Forall_jdel].
Qed.

Lemma step_timers maxGlobal maxProject s e : jitter_ok e -> timers_ok s -> timers_ok (step maxGlobal maxProject s e).
Proof.
  intros Hj H. destruct e as [[p ts|p x j|p t due j|p t|key j|r|p t|r| | |known] now]; cbn [step fst snd jitter_ok] in *.
  - unfold timers_ok in *. rewrite Forall_forall in *. intros y Hy. apply H. by apply list_elem_of_filter in Hy as [_ Hy].
  - unfold sync_task. destruct (t_orphan x.1); [unfold timers_ok; rewrite enqueue_timers|]; by apply scheduleFutureRun_timers.
  - by apply scheduleFutureRun_timers.
  - unfold remember. by destruct (jget p _).
  - unfold timerFires. destruct (jget key (timers s)) as [x|]; [|done].
    destruct (capped x); [apply scheduleFutureRun_timers; [done|]|unfold timers_ok; rewrite onDue_timers]; by apply Forall_jdel.
  - unfold timers_ok. by rewrite enqueue_timers.
  - unfold runNow. destruct (_ || _); [done|]. by destruct (_ || _).
  - case_bool_decide; [|done]. unfold timers_ok, runSettles. by rewrite pump_timers.
  - apply Forall_nil_2.
  - done.
  - by apply dropProjectsNotIn_timers.
Qed.

Lemma execute_timers maxGlobal maxProject s es :
  Forall jitter_ok es -> timers_ok s -> timers_ok (execute maxGlobal maxProject s es).
Proof.
  revert s. induction es as [|e es IH]; intros s Hj H; [done|]. inversion_clear Hj. cbn. apply IH; [done|]. by apply step_timers.
Qed.

(** What a firing timer does to the queue and the timers. *)
Lemma timerFires_due maxGlobal maxProject s key e now j :
  jget key (timers s) = Some e -> capped e = false ->
  exists new, started (timerFires maxGlobal maxProject s key now j) ++ queue (timerFires maxGlobal maxProject s key now j)
    = started s ++ queue s ++ new /\
    Forall (fun r => r = mkRequest (tm_project e) (t_id (tm_task e)) Scheduled (Some (dueAt e))) new.
Proof.
  intros He Hc. unfold timerFires. rewrite He, Hc. unfold onDue. set (P := fun r => r = _).
  assert (exists new, started s ++ queue s = started s ++ queue s ++ new /\ Forall P new) as Hnone.
  { exists []. rewrite app_nil_r. by split; [|constructor]. }
  destruct (memoryTask _ _ _) as [t|]; [|done]. destruct (t_enabled t); [|done].
  unfold enqueue. cbn [inert queued running queue with_timers]. destruct (inert s); [done|]. destruct (_ || _); [done|].
  eexists [_]. cbn [fst]. rewrite pump_order. cbn [started queue with_queue with_timers]. split; [done|]. by constructor.
Qed.

(** In a process whose clock adds no negative jitter, a due timer that fires at
    or after the time it was set for starts or queues nothing but a scheduled run
    of its own task, for the slot it was armed for, and never before that slot. A
    capped timer starts nothing: it re-arms its task for the same slot, no later
    than the cap allows, if the task is enabled and the slot is still ahead. *)
Theorem timers_never_fire_early maxGlobal maxProject es key e now j :
  Forall jitter_ok es ->
  let s := execute maxGlobal maxProject newState es in
  jget key (timers s) = Some e -> (fireAt e <= now)%Z -> (0 <= j)%Z ->
  let s' := timerFires maxGlobal maxProject s key now j in
  if capped e then
    slots s' = slots s /\
    (inert s = false -> t_enabled (tm_task e) = true -> (now < dueAt e)%Z ->
     exists e', jget key (timers s') = Some e' /\ dueAt e' = dueAt e /\ tm_task e' = tm_task e /\
       (now < fireAt e' <= now + MAX_TIMEOUT_MS)%Z)
  else
    exists new, started s' ++ queue s' = started s ++ queue s ++ new /\
      Forall (fun r => key_of r = key /\ reason r = Scheduled /\ scheduledFor r = Some (dueAt e) /\ (dueAt e <= now)%Z) new.
Proof.
  intros Hes s He Hf Hj s'.
  assert (timer_ok (key, e)) as [Hk Hd].
  { apply (Forall_jget timer_ok key e (timers s)); [|done]. apply execute_timers; [done|constructor]. }
  cbn [fst snd] in Hk, Hd. destruct (capped e) eqn:Hc.
  - unfold s', timerFires. rewrite He, Hc. split; [by rewrite scheduleFutureRun_slots|]. intros Hi Ht Hn.
    unfold scheduleFutureRun. cbn [inert clearTimer with_timers]. rewrite Hi, Ht. cbn [orb negb timers with_timers].
    rewrite (bool_decide_false (dueAt e <= now)%Z) by lia.
    rewrite timers_with, Hk, jget_set_eq. case_bool_decide; eexists; (split; [done|]); cbn [dueAt tm_task fireAt]; unfold MAX_TIMEOUT_MS in *; (split_and!; [done|done|lia|lia]).
  - destruct (timerFires_due maxGlobal maxProject s key e now j He Hc) as (new & E & Hn). exists new. split; [done|].
    eapply Forall_impl; [exact Hn|]. intros r ->. split_and!; [by rewrite Hk|done|done|]. specialize (Hd eq_refl). lia.
Qed.

(** A timer capped only because of its jitter finds its slot past when it fires: the
    slot is dropped. *)
Lemma jittered_overflow_drops_its_slot :
  let t := mkTask "t" true None in
  let s1 := execute 4 2 newState [(EvSyncBegin "p" [(t, Some MAX_TIMEOUT_MS)], 0%Z); (EvSyncTask "p" (t, Some MAX_TIMEOUT_MS) 1, 0%Z)] in
  let s2 := execute 4 2 s1 [(EvTimer "p:t" 1, MAX_TIMEOUT_MS)] in
  option_map (fun e => (dueAt e, fireAt e)) (jget "p:t" (timers s1)) = Some (MAX_TIMEOUT_MS, MAX_TIMEOUT_MS) /\
  timers s2 = [] /\ queue s2 = [] /\ inFlight s2 = [].
Proof. by vm_compute. Qed.

(** ** Witnesses *)

Definition ex_task (i : string) (orphan : option Z) : MemoryTask := mkTask i true orphan.

(** Two projects under limits of two runs each: a sync that resumes an orphan, a due
    timer, a manual run, a settled run. *)
Definition ex_events : list (Event * Z) :=
  [(EvSyncBegin "p" [(ex_task "a" (Some 5%Z), Some 100%Z); (ex_task "b" None, Some 50%Z)], 0%Z);
   (EvSyncTask "p" (ex_task "a" (Some 5%Z), Some 100%Z) 3, 0%Z); (EvSyncTask "p" (ex_task "b" None, Some 50%Z) 1, 0%Z);
   (EvTimer "p:b" 0, 51%Z); (EvRunNow "q" "c", 60%Z)].

Lemma slots_are_never_exceeded_witness :
  let s := execute 2 1 newState ex_events in
  globalRunning s = 2%Z /\ key_of <$> queue s = ["p:b"] /\ (Zlen (inFlight s) <= 2)%Z.
Proof.
  split; [by vm_compute|]. split; [by vm_compute|].
  apply (slots_are_never_exceeded 2 1 ex_events); lia.
Defined.

Lemma queued_runs_start_in_order_witness :
  let s := execute 2 1 newState ex_events in
  let s' := execute 2 1 s [(EvSettle (mkRequest "p" "a" Resume (Some 5%Z)), 70%Z)] in
  started s ++ queue s `prefix_of` started s' ++ queue s' /\ length (started s') = 2.
Proof.
  split; [apply (queued_runs_start_in_order 2 1 (execute 2 1 newState ex_events)); repeat constructor; done|by vm_compute].
Defined.

Lemma queued_runs_are_never_stranded_witness :
  let s := execute 2 1 newState ex_events in
  let rs := [mkRequest "q" "c" Manual None; mkRequest "p" "a" Resume (Some 5%Z)] in
  let s' := settle_all 2 1 s rs in
  length (queue s) = 1 /\ queue s' = [] /\ started s' = started s ++ queue s.
Proof.
  split; [by vm_compute|]. split; [by vm_compute|].
  apply (queued_runs_are_never_stranded 2 1 ex_events [mkRequest "q" "c" Manual None; mkRequest "p" "a" Resume (Some 5%Z)]);
    [lia|lia| |by vm_compute].
  cbn [settling]. split_and!; [..|done]; (apply (bool_decide_unpack _); vm_compute; done).
Defined.

Lemma timers_never_fire_early_witness :
  let s := execute 2 1 newState (take 3 ex_events) in
  let s' := timerFires 2 1 s "p:b" 51 0 in
  jget "p:b" (timers s) = Some (mkTimer "p" (ex_task "b" None) 50 51 false) /\
  exists new, started s' ++ queue s' = started s ++ queue s ++ new /\
    Forall (fun r => key_of r = "p:b" /\ reason r = Scheduled /\ scheduledFor r = Some 50%Z /\ (50 <= 51)%Z) new.
Proof.
  split; [by vm_compute|].
  apply (timers_never_fire_early 2 1 (take 3 ex_events) "p:b" (mkTimer "p" (ex_task "b" None) 50 51 false) 51 0);
    [repeat constructor; cbn; lia|by vm_compute|cbn; lia|lia].
Defined.
