(* ===== verification/SyncQueues.v ===== *)
(** Event queues of the UI sync engine (ui/src/sync/pipeline-queues.ts): one
    ordered queue per directory with in-slot coalescing and barriers, the frame
    timers, and the reconnect back-off.

    An event is what [unwrapEventFrame] yields: its properties are the JSON object
    of the frame. [text_of] is [String(v)] where [v] is no string. *)

From S2P Require Import Prelude JsString JsMap JsValue.

Definition FLUSH_FRAME_MS : Z := 33.
Definition BACKPRESSURE_FLUSH_FRAME_MS : Z := 200.
Definition RETRY_BACKOFF_BASE_MS : Z := 250.
Definition RETRY_BACKOFF_CAP_VISIBLE_MS : Z := 5000.
Definition RETRY_BACKOFF_CAP_HIDDEN_OR_OFFLINE_MS : Z := 60000.
Definition RETRY_BACKOFF_MAX_EXPONENT : Z := 8.

Record HarnessEvent : Type := mkEvent {
  ev_id : option string; type : string; properties : option json; directory : option string }.

#[export] Instance HarnessEvent_eq_dec : EqDecision HarnessEvent.
Proof. solve_decision. Defined.

(** [v ?? ...]: null and undefined fall through. *)
Definition present (v : option json) : option json := match v with Some JNull => None | _ => v end.

Definition orElse (v w : option json) : option json := match present v with Some x => Some x | None => w end.

(** The last [.] of a string, what precedes it and what follows. *)
Fixpoint last_dot (s : string) : option (string * string) :=
  match s with
  | EmptyString => None
  | String a s' =>
    match last_dot s' with
    | Some (x, y) => Some (String a x, y)
    | None => if Ascii.eqb a "." then Some (EmptyString, s') else None
    end
  end.

Definition is_digit (a : ascii) : bool := let n := N_of_ascii a in ((48 <=? n) && (n <=? 57))%N.

(** A trailing dot and digits are dropped, when no line break precedes them. *)
Definition foldEventType (t : string) : string :=
  match last_dot t with
  | Some (base, digits) =>
    if negb (bool_decide (digits = "")) && sall is_digit digits && sall (fun a => negb (is_newline a)) base then base else t
  | None => t
  end.

Definition isHeartbeatType (t : string) : bool := bool_decide (t = "heartbeat") || bool_decide (t = "ping").

Definition props_of (e : HarnessEvent) : json := or_empty (properties e).

(** A string field that is present and not empty. *)
Definition truthy_string (v : option json) : option string :=
  match v with Some (JStr s) => if bool_decide (s = "") then None else Some s | _ => None end.

Definition resolveEventDirectory (e : HarnessEvent) : string :=
  let named := match directory e with Some d => if bool_decide (d = "") then None else Some d | None => None end in
  match named with
  | Some d => d
  | None =>
    match truthy_string (jfield "directory" (props_of e)) with
    | Some d => d
    | None =>
      match jfield "info" (props_of e) with
      | Some info => default "global" (truthy_string (jfield "directory" info))
      | None => "global"
      end
    end
  end.

(** The id of a session in an event: [info.id ?? sessionID] or the reverse. *)
Definition info_id (p : json) : option json := match jfield "info" p with Some i => jfield "id" i | None => None end.

Definition delta_key (messageID partID field : string) : string :=
  "message.part.delta:" +:+ messageID +:+ ":" +:+ partID +:+ ":" +:+ field.

Definition is_type (e : HarnessEvent) (t : string) : bool := bool_decide (type e = t).

Definition coalescingKey (e : HarnessEvent) : option string :=
  let props := props_of e in
  if is_type e "session.status" then
    match jfield "sessionID" props with Some (JStr i) => Some ("session.status:" +:+ i) | _ => None end
  else if is_type e "session.updated" then
    match orElse (info_id props) (jfield "sessionID" props) with
    | Some (JStr i) => Some ("session.updated:" +:+ i)
    | _ => None
    end
  else if is_type e "lsp.updated" then Some "lsp.updated"
  else if is_type e "message.part.delta" then
    match jfield "messageID" props, jfield "partID" props, jfield "field" props with
    | Some (JStr m), Some (JStr p), Some (JStr f) => Some (delta_key m p f)
    | _, _, _ => None
    end
  else None.

(** One directory: the slots in order, the slot of each coalescing key, the time
    its timer fires. *)
Record DirectoryQueue : Type := mkDir {
  queue : list (option HarnessEvent); coalesced : list (string * nat); timer : option Z; last : Z }.

Definition with_slots (d : DirectoryQueue) (q : list (option HarnessEvent)) (c : list (string * nat)) : DirectoryQueue :=
  mkDir q c (timer d) (last d).

Section text.
  Context (text_of : json -> string).

(** [String(v)] *)
Definition toString (v : json) : string :=
  match v with
  | JStr s => s
  | JBool true => "true"
  | JBool false => "false"
  | JNull => "null"
  | _ => text_of v
  end.

(** [String(v ?? '')] *)
Definition text_or_empty (v : option json) : string :=
  match present v with Some x => toString x | None => "" end.

Definition delta_of (e : HarnessEvent) : string := text_or_empty (jfield "delta" (props_of e)).

Definition set_delta (p : json) (s : string) : json :=
  match p with JObj f => JObj (jset "delta" (JStr s) f) | _ => p end.

Definition mergeCoalesced (previous : option HarnessEvent) (e : HarnessEvent) : HarnessEvent :=
  match previous with
  | Some prev =>
    if is_type e "message.part.delta" then
      mkEvent (ev_id e) (type e) (Some (set_delta (props_of e) (delta_of prev +:+ delta_of e))) (directory e)
    else e
  | None => e
  end.

(** ** Barriers *)

Definition partIdentifiers (p : json) : option (string * string) :=
  match jfield "part" p with
  | Some part =>
    match jfield "messageID" part, jfield "id" part with
    | Some (JStr m), Some (JStr i) => Some (m, i)
    | _, _ => None
    end
  | None => None
  end.

Definition invalidateMatching (d : DirectoryQueue) (matches : string -> bool) : DirectoryQueue :=
  fold_left (fun d kv => if matches kv.1 then with_slots d (<[kv.2 := None]> (queue d)) (jdel kv.1 (coalesced d)) else d)
    (coalesced d) d.

Definition dropPartDeltaKeys (d : DirectoryQueue) (ids : option (string * string)) : DirectoryQueue :=
  match ids with
  | Some (m, p) => invalidateMatching d (fun key => starts_with ("message.part.delta:" +:+ m +:+ ":" +:+ p +:+ ":") key)
  | None => d
  end.

Definition dropKey (d : DirectoryQueue) (exact : string) : DirectoryQueue :=
  invalidateMatching d (fun key => bool_decide (key = exact)).

Definition is_structural (e : HarnessEvent) : bool := is_type e "session.created" || is_type e "session.deleted".
Definition is_settle (e : HarnessEvent) : bool := is_type e "session.idle" || is_type e "session.error".

Definition barrier_session (e : HarnessEvent) : string :=
  text_or_empty (orElse (jfield "sessionID" (props_of e)) (info_id (props_of e))).

Definition applyCoalescingBarriers (d : DirectoryQueue) (e : HarnessEvent) : DirectoryQueue :=
  if is_type e "message.part.updated" then dropPartDeltaKeys d (partIdentifiers (props_of e))
  else if is_structural e || is_settle e then
    let i := barrier_session e in
    if bool_decide (i = "") then d
    else
      let d1 := dropKey d ("session.status:" +:+ i) in
      if is_structural e then dropKey d1 ("session.updated:" +:+ i) else d1
  else d.

Definition enqueueWithCoalescing (d : DirectoryQueue) (e : HarnessEvent) : DirectoryQueue :=
  match coalescingKey e with
  | Some key =>
    match jget key (coalesced d) with
    | Some slot => with_slots d (<[slot := Some (mergeCoalesced (mjoin (queue d !! slot)) e)]> (queue d)) (coalesced d)
    | None => with_slots d (queue d ++ [Some e]) (jset key (length (queue d)) (coalesced d))
    end
  | None => with_slots d (queue d ++ [Some e]) (coalesced d)
  end.

(** ** The queues *)

Record PipelineQueues : Type := mkQueues { dirs : list (string * DirectoryQueue); backpressureUntil : Z }.

Definition newQueues : PipelineQueues := mkQueues [] 0.

Definition newDir : DirectoryQueue := mkDir [] [] None 0.

Definition frameMs (q : PipelineQueues) (now : Z) : Z :=
  if bool_decide (now < backpressureUntil q)%Z then BACKPRESSURE_FLUSH_FRAME_MS else FLUSH_FRAME_MS.

Definition scheduleFlush (q : PipelineQueues) (d : DirectoryQueue) (now : Z) : DirectoryQueue :=
  match timer d with
  | Some t => mkDir (queue d) (coalesced d) (Some t) now
  | None => mkDir (queue d) (coalesced d) (Some (now + Z.max 0 (now + frameMs q now - now)))%Z now
  end.

Definition push (q : PipelineQueues) (e : HarnessEvent) (now : Z) : PipelineQueues :=
  let d := resolveEventDirectory e in
  let dir := default newDir (jget d (dirs q)) in
  mkQueues (jset d (scheduleFlush q (enqueueWithCoalescing (applyCoalescingBarriers dir e) e) now) (dirs q)) (backpressureUntil q).

(** [flush], with the batches it hands to [onFlush]. *)
Definition flush (q : PipelineQueues) (d : string) : PipelineQueues * list (string * list HarnessEvent) :=
  match jget d (dirs q) with
  | None => (q, [])
  | Some dir =>
    let events := omap id (queue dir) in
    (mkQueues (jset d (mkDir [] [] None (last dir)) (dirs q)) (backpressureUntil q),
     if bool_decide (events = []) then [] else [(d, events)])
  end.

Definition flushAll (q : PipelineQueues) : PipelineQueues * list (string * list HarnessEvent) :=
  fold_left (fun acc d => let '(q, out) := flush acc.1 d in (q, acc.2 ++ out)) (jkeys (dirs q)) (q, []).

Definition clear (q : PipelineQueues) : PipelineQueues := mkQueues [] (backpressureUntil q).

Inductive Op : Type :=
| OpPush (e : HarnessEvent)
| OpFlush (d : string)
| OpTimer (d : string)
| OpFlushAll
| OpClear
| OpBackpressure (until : Z).

(** A timer does nothing but flush its directory; a cleared one does not fire. *)
Definition step (q : PipelineQueues) (op : Op) (now : Z) : PipelineQueues * list (string * list HarnessEvent) :=
  match op with
  | OpPush e => (push q e now, [])
  | OpFlush d => flush q d
  | OpTimer d =>
    match jget d (dirs q) with
    | Some dir => match timer dir with Some _ => flush q d | None => (q, []) end
    | None => (q, [])
    end
  | OpFlushAll => flushAll q
  | OpClear => (clear q, [])
  | OpBackpressure until => (mkQueues (dirs q) until, [])
  end.

Fixpoint execute (q : PipelineQueues) (ops : list (Op * Z)) : PipelineQueues * list (string * list HarnessEvent) :=
  match ops with
  | [] => (q, [])
  | (op, now) :: ops' =>
    let '(q1, out) := step q op now in
    let '(q2, outs) := execute q1 ops' in
    (q2, out ++ outs)
  end.

End text.

(** ** Back-off *)

Definition computeRetryDelay (failures : Z) (visible online permanent4xx : bool) : Z :=
  let cap := if visible && online then RETRY_BACKOFF_CAP_VISIBLE_MS else RETRY_BACKOFF_CAP_HIDDEN_OR_OFFLINE_MS in
  if permanent4xx then cap
  else
    let exponent := Z.min (Z.max (failures - 1) 0) RETRY_BACKOFF_MAX_EXPONENT in
    Z.min cap (RETRY_BACKOFF_BASE_MS * 2 ^ exponent).

Definition isPermanent4xx (status : option Z) : bool :=
  match status with
  | Some s => bool_decide (400 <= s)%Z && bool_decide (s < 500)%Z && negb (bool_decide (s = 408)%Z) && negb (bool_decide (s = 429)%Z)
  | None => false
  end.

(** ** What a batch means

    A barrier for a key is an event that drops what is queued under it. *)

Section meaning.
  Context (text_of : json -> string).

Definition is_delta (e : HarnessEvent) : bool := is_type e "message.part.delta".

(** The keys an event drops. *)
Definition drops (e : HarnessEvent) (key : string) : bool :=
  if is_type e "message.part.updated" then
    match partIdentifiers (props_of e) with
    | Some (m, p) => starts_with ("message.part.delta:" +:+ m +:+ ":" +:+ p +:+ ":") key
    | None => false
    end
  else if is_structural e || is_settle e then
    let i := barrier_session text_of e in
    negb (bool_decide (i = "")) &&
    (bool_decide (key = "session.status:" +:+ i) || is_structural e && bool_decide (key = "session.updated:" +:+ i))
  else false.

Definition has_key (key : string) (e : HarnessEvent) : bool := bool_decide (coalescingKey e = Some key).

(** What the events of a key add up to since its last barrier. *)
Definition since_barrier {A} (z : A) (absorb : A -> HarnessEvent -> A) (key : string) (es : list HarnessEvent) : A :=
  fold_left (fun acc e => if drops e key then z else if has_key key e then absorb acc e else acc) es z.

(** An event of the key has come since its last barrier. *)
Definition begun : string -> list HarnessEvent -> bool := since_barrier false (fun _ _ => true).

(** One event for [e] and the [later] ones of its key: the last of them; of deltas,
    with the text of all of them. *)
Definition joined (e : HarnessEvent) (later : list HarnessEvent) : HarnessEvent :=
  let z := List.last later e in
  match later with
  | [] => e
  | _ =>
    if is_delta z
    then mkEvent (ev_id z) (type z)
           (Some (set_delta (props_of z) (fold_left (fun s x => s +:+ delta_of text_of x) later (delta_of text_of e)))) (directory z)
    else z
  end.

(** The batch a directory owes for the events [es] pushed to it after [before]: an
    event without a key stays in its place; the events of a key since its last
    barrier stand joined in the place of the first of them; those a barrier
    follows are gone. *)
Fixpoint batch_of (before es : list HarnessEvent) : list HarnessEvent :=
  match es with
  | [] => []
  | e :: later =>
    match coalescingKey e with
    | None => [e]
    | Some k => if begun k before || existsb (fun x => drops x k) later then []
                else [joined e (List.filter (has_key k) later)]
    end ++ batch_of (before ++ [e]) later
  end.

(** ** Facts about keys and barriers *)

(** An event with a key is no barrier. *)
Lemma keyed_drops_nothing e k key : coalescingKey e = Some k -> drops e key = false.
Proof.
  unfold coalescingKey, drops, is_structural, is_settle, is_type. intros H.
  destruct (decide (type e = "message.part.updated")) as [E|E]; [by rewrite E in H|]. rewrite (bool_decide_false _ E).
  destruct (decide (type e = "session.created")) as [E1|E1]; [by rewrite E1 in H|]. rewrite (bool_decide_false _ E1).
  destruct (decide (type e = "session.deleted")) as [E2|E2]; [by rewrite E2 in H|]. rewrite (bool_decide_false _ E2).
  destruct (decide (type e = "session.idle")) as [E3|E3]; [by rewrite E3 in H|]. rewrite (bool_decide_false _ E3).
  destruct (decide (type e = "session.error")) as [E4|E4]; [by rewrite E4 in H|]. by rewrite (bool_decide_false _ E4).
Qed.

Lemma key_of_delta e m p f : coalescingKey e = Some (delta_key m p f) -> is_delta e = true.
Proof.
  unfold coalescingKey, is_delta, is_type. destruct (decide (type e = "message.part.delta")) as [E|E]; [by intros; apply bool_decide_true|].
  rewrite (bool_decide_false _ E). intros H. exfalso. revert H.
  destruct (bool_decide (type e = "session.status")); [by destruct (jfield "sessionID" _) as [[]|]|].
  destruct (bool_decide (type e = "session.updated")); [by destruct (orElse _ _) as [[]|]|].
  by destruct (bool_decide (type e = "lsp.updated")).
Qed.

Lemma delta_has_delta_key e k : coalescingKey e = Some k -> is_delta e = true -> exists m p f, k = delta_key m p f.
Proof.
  unfold is_delta, is_type. intros H E%bool_decide_eq_true. unfold coalescingKey, is_type in H. rewrite E in H. cbn in H.
  destruct (jfield "messageID" _) as [[| | |m| |]|]; try done. destruct (jfield "partID" _) as [[| | |p| |]|]; try done.
  destruct (jfield "field" _) as [[| | |f| |]|]; try done. injection H as <-. by exists m, p, f.
Qed.

Lemma merge_other prev e : is_delta e = false -> mergeCoalesced text_of prev e = e.
Proof. unfold mergeCoalesced, is_delta. intros ->. by destruct prev. Qed.

Lemma jfield_set_delta k p s : k <> "delta" -> jfield k (set_delta p s) = jfield k p.
Proof. intros Hk. destruct p; try done. cbn. by apply jget_set_ne. Qed.

Lemma keyed_delta_object e k : coalescingKey e = Some k -> is_delta e = true -> exists f, props_of e = JObj f.
Proof.
  intros H E. unfold is_delta, is_type in E. apply bool_decide_eq_true in E. unfold coalescingKey, is_type in H.
  rewrite E in H. cbn in H. destruct (props_of e) as [| | | | |f]; try done. by exists f.
Qed.

(** A delta given another text has its key, and that text. *)
Lemma retold_delta e k t : coalescingKey e = Some k -> is_delta e = true ->
  coalescingKey (mkEvent (ev_id e) (type e) (Some (set_delta (props_of e) t)) (directory e)) = Some k /\
  delta_of text_of (mkEvent (ev_id e) (type e) (Some (set_delta (props_of e) t)) (directory e)) = t.
Proof.
  intros H E. destruct (keyed_delta_object e k H E) as [f Ef].
  unfold is_delta, is_type in E. apply bool_decide_eq_true in E. rewrite Ef. split.
  - rewrite <- H. unfold coalescingKey, is_type. cbn [type properties props_of or_empty]. unfold props_of at 1.
    cbn [properties or_empty set_delta jfield]. rewrite E, Ef. cbn [jfield]. cbn -[jset jget].
    by rewrite !jget_set_ne by done.
  - unfold delta_of at 1, props_of. cbn [properties or_empty set_delta jfield]. by rewrite jget_set_eq.
Qed.

(** Merging keeps the key and joins the texts. *)
Lemma merge_delta prev e k : coalescingKey e = Some k -> is_delta e = true ->
  coalescingKey (mergeCoalesced text_of (Some prev) e) = Some k /\
  delta_of text_of (mergeCoalesced text_of (Some prev) e) = delta_of text_of prev +:+ delta_of text_of e.
Proof.
  intros H E. pose proof (retold_delta e k (delta_of text_of prev +:+ delta_of text_of e) H E).
  unfold mergeCoalesced. unfold is_delta in E. by rewrite E.
Qed.

Lemma merge_key prev e k : coalescingKey e = Some k -> coalescingKey (mergeCoalesced text_of prev e) = Some k.
Proof.
  intros H. destruct prev as [prev|]; [|done]. destruct (is_delta e) eqn:E; [by apply merge_delta|]. by rewrite merge_other.
Qed.

(** ** Facts about [since_barrier] *)

Section accum.
  Context {A : Type} (z : A) (absorb : A -> HarnessEvent -> A).

Lemma since_snoc key es e :
  since_barrier z absorb key (es ++ [e]) = if drops e key then z else if has_key key e then absorb (since_barrier z absorb key es) e else since_barrier z absorb key es.
Proof. unfold since_barrier. by rewrite fold_left_app. Qed.

(** Events that neither drop nor have the key do not count. *)
Lemma since_filter key (P : HarnessEvent -> Prop) `{!forall x, Decision (P x)} es :
  (forall x, x ∈ es -> ~ P x -> drops x key = false /\ has_key key x = false) -> since_barrier z absorb key (filter P es) = since_barrier z absorb key es.
Proof.
  unfold since_barrier. set (g := fun acc e => _). generalize z at 1 2. induction es as [|x es IH]; intros a Hx; [done|].
  rewrite filter_cons. destruct (decide (P x)) as [HP|HP]; cbn [fold_left]; [apply IH; intros; apply Hx; set_solver|].
  destruct (Hx x ltac:(set_solver) HP) as [E1 E2]. assert (g a x = a) as -> by (unfold g; by rewrite E1, E2).
  apply IH. intros; apply Hx; set_solver.
Qed.

Lemma since_idle key es a : (forall x, x ∈ es -> drops x key = false /\ has_key key x = false) ->
  fold_left (fun acc e => if drops e key then z else if has_key key e then absorb acc e else acc) es a = a.
Proof.
  revert a. induction es as [|x es IH]; intros a H; [done|]. cbn [fold_left].
  destruct (H x ltac:(set_solver)) as [-> ->]. apply IH. intros; apply H; set_solver.
Qed.

Lemma since_none key es : (forall x, x ∈ es -> has_key key x = false) -> since_barrier z absorb key es = z.
Proof.
  unfold since_barrier. induction es as [|x es IH]; intros H; [done|]. cbn [fold_left].
  rewrite (H x) by set_solver. destruct (drops x key); apply IH; intros; apply H; set_solver.
Qed.

(** The only event of a key, with no barrier behind it. *)
Lemma since_split key l1 x l2 :
  (forall y, y ∈ l1 -> has_key key y = false) -> (forall y, y ∈ l2 -> drops y key = false /\ has_key key y = false) ->
  has_key key x = true -> drops x key = false -> since_barrier z absorb key (l1 ++ x :: l2) = absorb z x.
Proof.
  intros H1 H2 Hx Hd. unfold since_barrier. rewrite fold_left_app. cbn [fold_left]. rewrite since_idle by done.
  fold (since_barrier z absorb key l1). by rewrite since_none, Hd, Hx.
Qed.

Lemma since_other key l1 x y l2 :
  drops x key = false -> has_key key x = false -> drops y key = false -> has_key key y = false ->
  since_barrier z absorb key (l1 ++ x :: l2) = since_barrier z absorb key (l1 ++ y :: l2).
Proof. intros H1 H2 H3 H4. unfold since_barrier. rewrite !fold_left_app. cbn [fold_left]. by rewrite H1, H2, H3, H4. Qed.

End accum.

(** ** Facts about a batch *)

Lemma set_delta_twice p a b : set_delta (set_delta p a) b = set_delta p b.
Proof. destruct p; try done. cbn. by rewrite jset_set_fresh. Qed.

(** The joined event of a key has the key, and the text of its deltas. *)
Lemma joined_key e later k :
  coalescingKey e = Some k -> Forall (fun y => coalescingKey y = Some k) later ->
  coalescingKey (joined e later) = Some k
  /\ (is_delta e = true ->
      delta_of text_of (joined e later) = fold_left (fun s y => s +:+ delta_of text_of y) later (delta_of text_of e)).
Proof.
  intros He Hl. destruct later as [|z l _] using rev_ind; [done|]. apply Forall_app in Hl as [_ Hz%Forall_inv].
  unfold joined. rewrite List.last_last, fold_left_app. cbn [fold_left].
  destruct (l ++ [z]) eqn:E; [by apply app_eq_nil in E as [_ ?]|]. clear E.
  destruct (is_delta z) eqn:Ed.
  - destruct (retold_delta z k (fold_left (fun s y => s +:+ delta_of text_of y) l (delta_of text_of e) +:+ delta_of text_of z) Hz Ed).
    by split.
  - split; [done|]. intros Hd. destruct (delta_has_delta_key e k He Hd) as (m & p & f & ->). apply key_of_delta in Hz. congruence.
Qed.

(** One more event of the key is merged into the joined one. *)
Lemma joined_snoc e later x k :
  coalescingKey e = Some k -> Forall (fun y => coalescingKey y = Some k) later -> coalescingKey x = Some k ->
  joined e (later ++ [x]) = mergeCoalesced text_of (Some (joined e later)) x.
Proof.
  intros He Hl Hx. destruct (joined_key e later k He Hl) as [_ Ht].
  unfold joined at 1. rewrite List.last_last, fold_left_app. cbn [fold_left].
  destruct (later ++ [x]) eqn:E; [by apply app_eq_nil in E as [_ ?]|]. clear E.
  destruct (is_delta x) eqn:Ed; [|by rewrite merge_other].
  destruct (delta_has_delta_key x k Hx Ed) as (m & p & f & ->). rewrite <- Ht by (by eapply key_of_delta).
  unfold mergeCoalesced. unfold is_delta in Ed. by rewrite Ed.
Qed.

(** ** The invariant of a directory *)

(** The index holds exactly the slots of the keyed events, and no barrier for a key
    stands behind its slot. *)
Record slots_ok (q : list (option HarnessEvent)) (c : list (string * nat)) : Prop := {
  so_wf : jwf c;
  so_index : forall k i, jget k c = Some i <-> exists e, q !! i = Some (Some e) /\ coalescingKey e = Some k;
  so_calm : forall i j e x k, i < j -> q !! i = Some (Some e) -> coalescingKey e = Some k ->
    q !! j = Some (Some x) -> drops x k = false;
}.

(** The slots whose key is selected are emptied. *)
Definition scrub (f : string -> bool) (q : list (option HarnessEvent)) : list (option HarnessEvent) :=
  (fun o => match o with
            | Some e => match coalescingKey e with Some k => if f k then None else Some e | None => Some e end
            | None => None
            end) <$> q.

Lemma scrub_lookup f q i e :
  scrub f q !! i = Some (Some e) <->
  q !! i = Some (Some e) /\ (forall k, coalescingKey e = Some k -> f k = false).
Proof.
  unfold scrub. rewrite list_lookup_fmap. destruct (q !! i) as [[x|]|]; cbn; [|naive_solver..].
  destruct (coalescingKey x) as [k|] eqn:E; [destruct (f k) eqn:Ef|]; naive_solver congruence.
Qed.

Lemma scrub_slots_ok f q c : slots_ok q c -> slots_ok (scrub f q) (List.filter (fun kv => negb (f kv.1)) c).
Proof.
  intros [Hw Hi Hc].
  assert (forall k, jget k (List.filter (fun kv => negb (f kv.1)) c) = if f k then None else jget k c) as Hg.
  { intros k. clear Hi Hc. revert Hw. induction c as [|[k' i] c' IH]; intros Hw; [by destruct (f k)|].
    cbn [List.filter fst]. apply NoDup_cons in Hw as [Hk Hw]. specialize (IH Hw).
    destruct (f k') eqn:Ef; cbn [negb jget]; case_decide as E; try subst k'; rewrite ?Ef, ?IH; try done.
    by rewrite Ef. }
  split.
  - unfold jwf, jkeys in *. clear -Hw. induction c as [|kv c IH]; [done|]. cbn in *. apply NoDup_cons in Hw as [Hk Hw].
    destruct (negb (f kv.1)); [|by apply IH]. cbn. apply NoDup_cons. split; [|by apply IH].
    intros (y & Ey & Hy)%list_elem_of_fmap. apply list_elem_of_In, filter_In in Hy as [Hy _].
    apply Hk. rewrite Ey. apply (list_elem_of_fmap_2 fst). by apply list_elem_of_In.
  - intros k i. rewrite Hg. split.
    + destruct (f k) eqn:Ef; [done|]. intros [e [He Hk]]%Hi. exists e. split; [|done]. apply scrub_lookup. split; [done|].
      intros k' Hk'. by simplify_eq.
    + intros [e [[He Hf]%scrub_lookup Hk]]. rewrite (Hf k Hk). apply Hi. by exists e.
  - intros i j e x k Hij [He _]%scrub_lookup Hk [Hx _]%scrub_lookup. by eapply Hc.
Qed.

Lemma fold_slots (f : string -> bool) l d :
  fold_left (fun d kv => if f kv.1 then with_slots d (<[kv.2 := None]> (queue d)) (jdel kv.1 (coalesced d)) else d) l d
  = with_slots d (fold_left (fun q kv => if f kv.1 then <[kv.2 := None]> q else q) l (queue d))
      (fold_left (fun c kv => if f kv.1 then jdel kv.1 c else c) l (coalesced d)).
Proof.
  revert d. induction l as [|kv l IH]; intros d; [by destruct d|]. cbn [fold_left]. rewrite IH. by destruct (f kv.1).
Qed.

Lemma fold_jdel (f : string -> bool) (l c : list (string * nat)) :
  jwf c -> (forall kv, kv ∈ l -> kv ∈ c) -> jwf l -> (forall kv, kv ∈ c -> f kv.1 = true -> kv ∈ l) ->
  fold_left (fun c kv => if f kv.1 then jdel kv.1 c else c) l c = List.filter (fun kv => negb (f kv.1)) c.
Proof.
  revert c. induction l as [|[k i] l IH]; intros c Hc Hs Hl Hall; cbn [fold_left fst].
  - assert (forall kv, kv ∈ c -> f kv.1 = false) as Hf.
    { intros kv Hkv. destruct (f kv.1) eqn:E; [|done]. by apply Hall, elem_of_nil in Hkv. }
    clear -Hf. induction c as [|kv c IH]; [done|]. cbn. rewrite (Hf kv) by set_solver. cbn. f_equal. apply IH. set_solver.
  - apply NoDup_cons in Hl as [Hk Hl]. destruct (f k) eqn:Ef.
    + rewrite IH; [|by apply jwf_del| |done|].
      * clear -Ef Hc. induction c as [|[k' i'] c IH]; [done|]. apply NoDup_cons in Hc as [Hk Hc]. cbn [jdel].
        case_decide as E; [subst k'; cbn; by rewrite Ef|]. cbn. destruct (f k'); [by apply IH|]. cbn. f_equal. by apply IH.
      * intros [k' i'] Hkv. assert (k' <> k) as Hne.
        { intros ->. apply Hk. unfold jkeys. apply list_elem_of_fmap. by exists (k, i'). }
        specialize (Hs (k', i') ltac:(set_solver)). apply jget_Some_elem. rewrite jget_del_ne by done. by apply jget_elem.
      * intros [k' i'] Hkv Hf. apply elem_of_jdel in Hkv as Hc'. specialize (Hall _ Hc' Hf).
        apply elem_of_cons in Hall as [[= -> ->]|Hin]; [|done]. exfalso.
        apply (jget_elem k i) in Hkv; [|by apply jwf_del]. by rewrite jget_del_eq in Hkv.
    + apply IH; [done|set_solver|done|]. intros kv Hkv Hf. specialize (Hall kv Hkv Hf).
      apply elem_of_cons in Hall as [->|Hin]; [cbn in Hf; congruence|done].
Qed.

Lemma fold_clear_lookup (f : string -> bool) (l : list (string * nat)) q i :
  fold_left (fun q kv => if f kv.1 then <[kv.2 := None]> q else q) l q !! i
  = if bool_decide (Exists (fun kv : string * nat => f kv.1 = true /\ kv.2 = i) l) then (fun _ => None) <$> q !! i
    else (q : list (option HarnessEvent)) !! i.
Proof.
  revert q. induction l as [|[k j] l IH]; intros q.
  { rewrite bool_decide_false; [done|]. by intros H%Exists_nil. }
  cbn [fold_left fst snd]. rewrite IH.
  assert (Exists (fun kv : string * nat => f kv.1 = true /\ kv.2 = i) ((k, j) :: l)
          <-> (f k = true /\ j = i) \/ Exists (fun kv : string * nat => f kv.1 = true /\ kv.2 = i) l) as Hx by apply Exists_cons.
  destruct (decide (Exists (fun kv : string * nat => f kv.1 = true /\ kv.2 = i) l)) as [H|H].
  - rewrite !bool_decide_true by tauto. destruct (f k); [|done]. destruct (decide (j = i)) as [->|Hne].
    + destruct (decide (i < length q)).
      * rewrite list_lookup_insert_eq by done. destruct (lookup_lt_is_Some_2 q i) as [y ->]; done.
      * by rewrite list_insert_ge by lia.
    + by rewrite list_lookup_insert_ne.
  - rewrite (bool_decide_false (Exists _ l)) by done. destruct (f k) eqn:Ef.
    + destruct (decide (j = i)) as [->|Hne].
      * rewrite bool_decide_true by tauto. destruct (decide (i < length q)).
        -- rewrite list_lookup_insert_eq by done. destruct (lookup_lt_is_Some_2 q i) as [y ->]; done.
        -- rewrite list_insert_ge by lia. by rewrite lookup_ge_None_2 by lia.
      * rewrite bool_decide_false by tauto. by rewrite list_lookup_insert_ne.
    + rewrite bool_decide_false; [done|]. intros [[? _]|?]%Hx; [done|done].
Qed.

Lemma invalidate_scrubs d f : slots_ok (queue d) (coalesced d) ->
  invalidateMatching d f = with_slots d (scrub f (queue d)) (List.filter (fun kv => negb (f kv.1)) (coalesced d)).
Proof.
  intros [Hw Hi _]. unfold invalidateMatching. rewrite fold_slots. f_equal; [|by apply fold_jdel].
  apply list_eq. intros i. rewrite fold_clear_lookup. unfold scrub. rewrite list_lookup_fmap.
  case_bool_decide as Hx.
  - apply Exists_exists in Hx as ([k j] & Hin & Hf & Hj). cbn in Hf, Hj. subst j.
    apply (jget_elem k i) in Hin; [|done]. apply Hi in Hin as (e & -> & Hk). cbn. by rewrite Hk, Hf.
  - destruct (queue d !! i) as [[e|]|] eqn:Eq; [|done..]. cbn. destruct (coalescingKey e) as [k|] eqn:Ek; [|done].
    destruct (f k) eqn:Ef; [|done]. exfalso. apply Hx, Exists_exists. exists (k, i). split; [|done].
    apply jget_Some_elem, Hi. by exists e.
Qed.

Lemma scrub_scrub f g q : scrub g (scrub f q) = scrub (fun k => f k || g k) q.
Proof.
  unfold scrub. rewrite <- list_fmap_compose. apply list_fmap_ext. intros i o _. destruct o as [e|]; [|done]. cbn.
  destruct (coalescingKey e) as [k|] eqn:E; [|by rewrite E]. destruct (f k); [done|]. by rewrite E.
Qed.

Lemma scrub_ext f g q : (forall k, f k = g k) -> scrub f q = scrub g q.
Proof. intros H. unfold scrub. apply list_fmap_ext. intros i [e|] _; [|done]. destruct (coalescingKey e); [by rewrite H|done]. Qed.

Lemma scrub_id f q : (forall k, f k = false) -> scrub f q = q.
Proof.
  intros H. unfold scrub. rewrite <- (list_fmap_id q) at 2. apply list_fmap_ext. intros i [e|] _; [|done].
  destruct (coalescingKey e); [by rewrite H|done].
Qed.

Lemma filter_filter_b {A} (f g : A -> bool) l : List.filter g (List.filter f l) = List.filter (fun x => f x && g x) l.
Proof. induction l as [|x l IH]; [done|]. cbn. destruct (f x); cbn; [|done]. destruct (g x); by rewrite IH. Qed.

Lemma filter_true {A} (f : A -> bool) l : (forall x, f x = true) -> List.filter f l = l.
Proof. intros H. induction l as [|x l IH]; [done|]. cbn. by rewrite H, IH. Qed.

(** The barriers empty the slots of the keys the event drops. *)
Lemma barriers_scrub d e : slots_ok (queue d) (coalesced d) ->
  applyCoalescingBarriers text_of d e
  = with_slots d (scrub (drops e) (queue d)) (List.filter (fun kv => negb (drops e kv.1)) (coalesced d)).
Proof.
  intros Hok.
  assert (forall f, (forall k, f k = false) -> d = with_slots d (scrub f (queue d)) (List.filter (fun kv => negb (f kv.1)) (coalesced d))) as Hid.
  { intros f Hf. rewrite scrub_id, filter_true by (done || (intros; by rewrite Hf)). by destruct d. }
  unfold applyCoalescingBarriers, dropPartDeltaKeys. destruct (is_type e "message.part.updated") eqn:E1.
  - unfold drops. rewrite E1. destruct (partIdentifiers _) as [[m p]|]; [by rewrite invalidate_scrubs|by apply Hid].
  - destruct (is_structural e || is_settle e) eqn:E2; [|apply Hid; intros k; unfold drops; by rewrite E1, E2].
    case_bool_decide as Ei; [apply Hid; intros k; unfold drops; by rewrite E1, E2, bool_decide_true|].
    unfold dropKey. destruct (is_structural e) eqn:E3; rewrite (invalidate_scrubs d) by done.
    + rewrite invalidate_scrubs by (by apply scrub_slots_ok). cbn [with_slots queue coalesced]. unfold with_slots. cbn. f_equal.
      * rewrite scrub_scrub. apply scrub_ext. intros k. unfold drops. rewrite E1, E3. cbn [orb]. by rewrite (bool_decide_false (_ = "")) by done.
      * rewrite filter_filter_b. apply List.filter_ext. intros [k i]. unfold drops. cbn [fst].
        rewrite E1, E3. cbn [orb]. rewrite (bool_decide_false (_ = "")) by done. cbn. by rewrite negb_orb.
    + cbn [orb] in E2. f_equal; [apply scrub_ext|apply List.filter_ext]; intros k; unfold drops;
        rewrite E1, E3; cbn [orb]; rewrite E2, (bool_decide_false (_ = "")) by done; cbn; by rewrite orb_false_r.
Qed.

Definition live (q : list (option HarnessEvent)) : list HarnessEvent := omap id q.

Lemma live_app q1 q2 : live (q1 ++ q2) = live q1 ++ live q2.
Proof. apply omap_app. Qed.

Lemma elem_of_live e q : e ∈ live q <-> exists i, q !! i = Some (Some e).
Proof.
  unfold live. rewrite list_elem_of_omap. split.
  - intros (o & Ho & Eo). cbn in Eo. subst o. by apply list_elem_of_lookup in Ho.
  - intros [i Hi]. exists (Some e). split; [|done]. by eapply list_elem_of_lookup_2.
Qed.

Definition survives (f : string -> bool) (e : HarnessEvent) : Prop :=
  match coalescingKey e with Some k => f k = false | None => True end.

#[local] Instance survives_dec f e : Decision (survives f e).
Proof. unfold survives. destruct (coalescingKey e); apply _. Defined.

Lemma live_scrub f q : live (scrub f q) = filter (survives f) (live q).
Proof.
  induction q as [|[e|] q IH]; [done| |done]. unfold scrub, live in *. cbn [fmap list_fmap omap list_omap id].
  destruct (decide (survives f e)) as [H|H]; [rewrite filter_cons_True by done|rewrite filter_cons_False by done];
    unfold survives in H; destruct (coalescingKey e) as [k|] eqn:E.
  - rewrite H. cbn. by f_equal.
  - cbn. by f_equal.
  - destruct (f k); [done|]. by exfalso.
  - by exfalso.
Qed.

Lemma has_key_true k e : has_key k e = true <-> coalescingKey e = Some k.
Proof. unfold has_key. apply bool_decide_eq_true. Qed.

Lemma has_key_false k e : has_key k e = false <-> coalescingKey e <> Some k.
Proof. unfold has_key. apply bool_decide_eq_false. Qed.

Lemma keyed_forall k es : Forall (fun y => coalescingKey y = Some k) (List.filter (has_key k) es).
Proof. apply Forall_forall. intros y Hy. apply list_elem_of_In, List.filter_In in Hy as [_ Hy]. by apply has_key_true. Qed.

(** After the barriers, what a dropped key adds up to is gone, and no other key's
    sum has changed. *)
Lemma since_scrub {A} (z : A) absorb key q f :
  since_barrier z absorb key (live (scrub f q))
  = if f key then z else since_barrier z absorb key (live q).
Proof.
  rewrite live_scrub. destruct (f key) eqn:Ef.
  - apply since_none. intros x [Hs Hx]%list_elem_of_filter. apply has_key_false. intros Hk. unfold survives in Hs.
    rewrite Hk in Hs. congruence.
  - apply since_filter. intros x Hx Hs. unfold survives in Hs. destruct (coalescingKey x) as [k|] eqn:Ek; [|done].
    split; [by eapply keyed_drops_nothing|]. apply has_key_false. intros ?. simplify_eq.
Qed.

(** A later event without a key removes what it drops, and comes last. *)
Lemma batch_of_unkeyed before es e : coalescingKey e = None ->
  batch_of before (es ++ [e]) = filter (survives (drops e)) (batch_of before es) ++ [e].
Proof.
  intros He. revert before. induction es as [|x es IH]; intros before; [cbn; by rewrite He|].
  cbn [app batch_of]. rewrite IH, filter_app, <- app_assoc. f_equal.
  destruct (coalescingKey x) as [k|] eqn:Ek.
  - rewrite existsb_app. cbn [existsb]. rewrite orb_false_r, List.filter_app. cbn [List.filter]. rewrite (proj2 (has_key_false k e)), app_nil_r by congruence.
    destruct (begun k before); [done|]. destruct (existsb _ es); [done|]. cbn [orb].
    destruct (joined_key x (List.filter (has_key k) es) k Ek (keyed_forall k es)) as [Hk _].
    destruct (drops e k) eqn:Ed.
    + rewrite filter_cons_False; [done|]. unfold survives. by rewrite Hk, Ed.
    + rewrite filter_cons_True; [done|]. unfold survives. by rewrite Hk.
  - rewrite filter_cons_True; [done|]. unfold survives. by rewrite Ek.
Qed.

(** A later event with a key is merged into the one that stands for the key, or
    comes last. *)
Lemma batch_of_keyed before es e k : coalescingKey e = Some k ->
  batch_of before (es ++ [e])
  = ((fun x => if has_key k x then mergeCoalesced text_of (Some x) e else x) <$> batch_of before es)
    ++ (if begun k (before ++ es) then [] else [e]).
Proof.
  intros He. revert before. induction es as [|x es IH]; intros before; [cbn; by rewrite He, orb_false_r, !app_nil_r|].
  cbn [app batch_of]. rewrite IH, fmap_app, <- !app_assoc. cbn [app]. f_equal.
  destruct (coalescingKey x) as [kx|] eqn:Ek.
  - rewrite existsb_app. cbn [existsb]. rewrite orb_false_r, (keyed_drops_nothing e k), orb_false_r, List.filter_app by done. cbn [List.filter].
    destruct (begun kx before || existsb _ es); [done|]. cbn.
    destruct (joined_key x (List.filter (has_key kx) es) kx Ek (keyed_forall kx es)) as [Hk _].
    destruct (decide (kx = k)) as [->|Hne].
    + rewrite (proj2 (has_key_true k e)) by done. rewrite (proj2 (has_key_true k (joined _ _))) by done.
      by rewrite (joined_snoc x _ e k Ek (keyed_forall k es) He).
    + rewrite (proj2 (has_key_false kx e)), app_nil_r by congruence. by rewrite (proj2 (has_key_false k (joined _ _))) by congruence.
  - cbn. by rewrite (proj2 (has_key_false k x)) by congruence.
Qed.

(** *** Pushing an event without a queued slot of its key *)

Lemma append_slots_ok q c e :
  slots_ok q c -> (forall k x, x ∈ live q -> coalescingKey x = Some k -> drops e k = false) ->
  (forall k, coalescingKey e = Some k -> jget k c = None) ->
  slots_ok (q ++ [Some e]) (match coalescingKey e with Some k => jset k (length q) c | None => c end).
Proof.
  intros [Hw Hi Hc] Hd Hf.
  assert (forall k i x, (q ++ [Some e]) !! i = Some (Some x) -> coalescingKey x = Some k ->
    (i < length q /\ q !! i = Some (Some x)) \/ (i = length q /\ x = e)) as Hl.
  { intros k i x Hx Hk. apply lookup_app_Some in Hx as [Hx|[Hge Hx]].
    - left. split; [|done]. by eapply lookup_lt_Some.
    - right. apply list_lookup_singleton_Some in Hx as [Hx [= <-]]. split; [lia|done]. }
  split.
  - destruct (coalescingKey e); [by apply jwf_set|done].
  - intros k i. transitivity ((exists x, q !! i = Some (Some x) /\ coalescingKey x = Some k) \/ (i = length q /\ coalescingKey e = Some k)).
    + rewrite <- Hi. destruct (coalescingKey e) as [k'|] eqn:E; [|naive_solver]. destruct (decide (k = k')) as [->|Hne].
      * rewrite jget_set_eq, (Hf k') by done. naive_solver.
      * rewrite jget_set_ne by done. naive_solver.
    + split.
      * intros [[x [Hx Hk]]|[-> Hk]]; [exists x|exists e]; (split; [|done]).
        -- by apply lookup_app_l_Some.
        -- by apply list_lookup_middle.
      * intros [x [Hx Hk]]. destruct (Hl _ _ _ Hx Hk) as [[_ Hx']|[-> ->]]; [left; by exists x|by right].
  - intros i j x y k Hij Hx Hk Hy. apply lookup_app_Some in Hy as [Hy|[Hge Hy]].
    + destruct (Hl _ _ _ Hx Hk) as [[_ Hx']|[-> _]]; [by eapply Hc|].
      apply lookup_lt_Some in Hy. lia.
    + apply list_lookup_singleton_Some in Hy as [Hj [= <-]]. destruct (Hl _ _ _ Hx Hk) as [[_ Hx']|[-> _]]; [|lia].
      eapply Hd; [|done]. apply elem_of_live. by exists i.
Qed.

(** *** Merging into the slot of its key *)

Lemma slot_split q c e k i : slots_ok q c -> jget k c = Some i -> coalescingKey e = Some k ->
  exists prev l1 l2, coalescingKey prev = Some k /\ q !! i = Some (Some prev) /\
    live q = l1 ++ prev :: l2 /\
    (forall y, live (<[i := Some y]> q) = l1 ++ y :: l2) /\
    (forall y, y ∈ l1 -> has_key k y = false) /\ (forall y, y ∈ l2 -> drops y k = false /\ has_key k y = false).
Proof.
  intros [Hw Hi Hc] Hg He. apply Hi in Hg as Hq. destruct Hq as (prev & Hp & Hk).
  exists prev, (live (take i q)), (live (drop (S i) q)). split; [done|]. split; [done|].
  assert (i < length q) as Hlt by (by eapply lookup_lt_Some).
  assert (forall j x, j <> i -> q !! j = Some (Some x) -> has_key k x = false) as Hother.
  { intros j x Hne Hx. apply has_key_false. intros Hkx. assert (jget k c = Some j) by (apply Hi; by exists x). congruence. }
  split_and!.
  - rewrite <- (take_drop_middle _ _ _ Hp) at 1. by rewrite live_app.
  - intros y. rewrite insert_take_drop by done. by rewrite live_app.
  - intros y [j Hj]%elem_of_live. apply lookup_take_Some in Hj as [Hj Hji]. apply (Hother j); [lia|done].
  - intros y [j Hj]%elem_of_live. rewrite lookup_drop in Hj. split; [eapply (Hc i (S i + j)); [lia|done..]|].
    apply (Hother (S i + j)); [lia|done].
Qed.

Lemma merge_slots_ok q c e k i : slots_ok q c -> jget k c = Some i -> coalescingKey e = Some k ->
  slots_ok (<[i := Some (mergeCoalesced text_of (mjoin (q !! i)) e)]> q) c.
Proof.
  intros [Hw Hi Hc] Hg He. apply Hi in Hg as Hq. destruct Hq as (prev & Hp & Hk).
  set (m := mergeCoalesced text_of _ e). assert (coalescingKey m = Some k) as Hm by by apply merge_key.
  assert (i < length q) as Hlt by (by eapply lookup_lt_Some).
  assert (forall j x, <[i := Some m]> q !! j = Some (Some x) -> (j = i /\ x = m) \/ (j <> i /\ q !! j = Some (Some x))) as Hl.
  { intros j x Hx. destruct (decide (j = i)) as [->|Hne]; [left|right; by rewrite list_lookup_insert_ne in Hx].
    rewrite list_lookup_insert_eq in Hx by done. by simplify_eq. }
  split; [done| |].
  - intros k' j. rewrite Hi. split.
    + intros (x & Hx & Hkx). destruct (decide (j = i)) as [->|Hne].
      * exists m. rewrite list_lookup_insert_eq by done. split; [done|]. congruence.
      * exists x. by rewrite list_lookup_insert_ne.
    + intros (x & Hx & Hkx). apply Hl in Hx as [[-> ->]|[Hne Hx]]; [exists prev; split; [done|congruence]|by exists x].
  - intros j1 j2 x y k' Hij Hx Hkx Hy. apply Hl in Hy as [[-> ->]|[Hne2 Hy]]; [by eapply keyed_drops_nothing|].
    apply Hl in Hx as [[-> ->]|[Hne1 Hx]]; [|by eapply Hc]. eapply (Hc i j2); [lia|done| |done]. congruence.
Qed.

Lemma keyed_no_barrier d e k : slots_ok (queue d) (coalesced d) -> coalescingKey e = Some k ->
  applyCoalescingBarriers text_of d e = d.
Proof.
  intros Hok Hk. rewrite barriers_scrub by done.
  rewrite scrub_id, filter_true by (intros; by rewrite (keyed_drops_nothing e k)). by destruct d.
Qed.

(** A sum over the events of a directory moves with the sum over what was pushed. *)
Lemma since_append {A} (z : A) absorb key q es e :
  since_barrier z absorb key (live q) = since_barrier z absorb key es ->
  since_barrier z absorb key (live (scrub (drops e) q ++ [Some e])) = since_barrier z absorb key (es ++ [e]).
Proof. intros H. rewrite live_app. change (live [Some e]) with [e]. rewrite !since_snoc, since_scrub, <- H. by destruct (drops e key). Qed.

Lemma fmap_at_key k (f : HarnessEvent -> HarnessEvent) (l : list HarnessEvent) :
  (forall y, y ∈ l -> has_key k y = false) -> (fun x => if has_key k x then f x else x) <$> l = l.
Proof.
  intros H. rewrite <- (list_fmap_id l) at 2. apply list_fmap_ext. intros i x Hx.
  by rewrite (H x (list_elem_of_lookup_2 _ _ _ Hx)).
Qed.

(** What a directory holds is the batch it owes for what was pushed to it since its
    last flush; with nothing pushed it has no timer. *)
Record dir_ok (d : DirectoryQueue) (es : list HarnessEvent) : Prop := {
  do_slots : slots_ok (queue d) (coalesced d);
  do_batch : live (queue d) = batch_of [] es;
  do_begun : forall key, begun key (live (queue d)) = begun key es;
  do_nonempty : live (queue d) = [] <-> es = [];
}.

(** The two cases of an enqueue. *)
Lemma push_fresh d es e : dir_ok d es -> (forall k, coalescingKey e = Some k -> jget k (coalesced d) = None) ->
  dir_ok (with_slots d (scrub (drops e) (queue d) ++ [Some e])
    (let c := List.filter (fun kv => negb (drops e kv.1)) (coalesced d) in
     match coalescingKey e with Some k => jset k (length (scrub (drops e) (queue d))) c | None => c end)) (es ++ [e]).
Proof.
  intros [Hs Hb Hg Hn] Hf. split; cbn [queue coalesced with_slots].
  - apply append_slots_ok; [by apply scrub_slots_ok| |].
    + intros k x [i [_ Hx]%scrub_lookup]%elem_of_live Hk. by apply Hx.
    + intros k Hk. rewrite filter_true; [by apply Hf|]. intros kv. by rewrite (keyed_drops_nothing e k).
  - rewrite live_app. change (live [Some e]) with [e]. destruct (coalescingKey e) as [k|] eqn:Ek.
    + rewrite scrub_id, (batch_of_keyed _ _ _ _ Ek) by (intros; by rewrite (keyed_drops_nothing e k)). cbn [app].
      assert (forall x, x ∈ live (queue d) -> has_key k x = false) as Hno.
      { intros x [i Hi]%elem_of_live. apply has_key_false. intros Hk.
        assert (jget k (coalesced d) = Some i) as E by (apply (so_index _ _ Hs); by exists x). by rewrite (Hf k eq_refl) in E. }
      rewrite <- Hg. unfold begun. rewrite (since_none false _ k _ Hno), <- Hb, (fmap_at_key k) by done. done.
    + by rewrite live_scrub, batch_of_unkeyed, Hb.
  - intros key. apply since_append, Hg.
  - rewrite live_app. split; intros H; by apply app_eq_nil in H as [_ H].
Qed.

Lemma push_merge d es e k i : dir_ok d es -> coalescingKey e = Some k -> jget k (coalesced d) = Some i ->
  dir_ok (with_slots d (<[i := Some (mergeCoalesced text_of (mjoin (queue d !! i)) e)]> (queue d)) (coalesced d)) (es ++ [e]).
Proof.
  intros [Hs Hb Hg Hn] Hk Hi.
  destruct (slot_split _ _ _ _ _ Hs Hi Hk) as (prev & l1 & l2 & Hp & Hq & El & Ei & H1 & H2).
  rewrite Hq. cbn [mjoin option_join]. set (m := mergeCoalesced text_of (Some prev) e).
  assert (coalescingKey m = Some k) as Hm by by apply merge_key.
  assert (begun k es = true) as Hbk.
  { rewrite <- Hg, El. unfold begun. rewrite since_split; [done..|by apply has_key_true|by eapply keyed_drops_nothing]. }
  split; cbn [queue coalesced with_slots].
  - pose proof (merge_slots_ok _ _ e k i Hs Hi Hk) as H. by rewrite Hq in H.
  - rewrite Ei, (batch_of_keyed _ _ _ _ Hk), <- Hb, El. cbn [app]. rewrite Hbk, app_nil_r, fmap_app. cbn [fmap list_fmap].
    rewrite (proj2 (has_key_true k prev) Hp). fold m.
    rewrite !(fmap_at_key k); [done|naive_solver|done].
  - intros key. rewrite Ei. unfold begun. rewrite since_snoc. fold (begun key es). rewrite <- Hg, El, (keyed_drops_nothing e k) by done.
    unfold begun. destruct (decide (key = k)) as [->|Hne].
    + rewrite (proj2 (has_key_true k e)) by done.
      by rewrite !since_split by (done || by apply has_key_true || by eapply keyed_drops_nothing).
    + rewrite (proj2 (has_key_false key e)) by congruence.
      apply since_other; first [by eapply keyed_drops_nothing|apply has_key_false; congruence].
  - rewrite Ei. split; intros H; by apply app_eq_nil in H as [_ H].
Qed.

(** Pushing an event to a directory. *)
Lemma push_dir_ok d es e : dir_ok d es ->
  dir_ok (enqueueWithCoalescing text_of (applyCoalescingBarriers text_of d e) e) (es ++ [e]).
Proof.
  intros Hok. pose proof (do_slots _ _ Hok) as Hs. unfold enqueueWithCoalescing. destruct (coalescingKey e) as [k|] eqn:Hk.
  - rewrite (keyed_no_barrier d e k) by done. destruct (jget k (coalesced d)) as [i|] eqn:Hg; [by apply push_merge with k|].
    pose proof (push_fresh d es e Hok) as H. rewrite Hk in H.
    rewrite scrub_id, filter_true in H by (intros; by rewrite (keyed_drops_nothing e k)). apply H. intros k' [= <-]. done.
  - rewrite barriers_scrub by done. pose proof (push_fresh d es e Hok) as H. rewrite Hk in H. apply H. by intros.
Qed.

Lemma newDir_ok : dir_ok newDir [].
Proof.
  split; try done. split; [apply jwf_nil| |].
  - intros k i. split; [done|]. intros (e & He & _). by cbn in He.
  - intros i j e x k _ He. by cbn in He.
Qed.

(** ** The specification: queues that keep every event *)

Definition PlainQueues : Type := list (string * list HarnessEvent).

Definition plain_flush (q : PlainQueues) (d : string) : PlainQueues * list (string * list HarnessEvent) :=
  match jget d q with
  | Some es => (jset d [] q, if bool_decide (es = []) then [] else [(d, es)])
  | None => (q, [])
  end.

Definition plain_step (q : PlainQueues) (op : Op) : PlainQueues * list (string * list HarnessEvent) :=
  match op with
  | OpPush e => let d := resolveEventDirectory e in (jset d (default [] (jget d q) ++ [e]) q, [])
  | OpFlush d | OpTimer d => plain_flush q d
  | OpFlushAll => fold_left (fun acc d => let '(q, out) := plain_flush acc.1 d in (q, acc.2 ++ out)) (jkeys q) (q, [])
  | OpClear => ([], [])
  | OpBackpressure _ => (q, [])
  end.

(** What they hand over: all that was pushed, flush by flush. *)
Fixpoint plain_execute (q : PlainQueues) (ops : list (Op * Z)) : list (string * list HarnessEvent) :=
  match ops with
  | [] => []
  | (op, _) :: ops' => let '(q1, out) := plain_step q op in out ++ plain_execute q1 ops'
  end.

(** The same directory, and related contents. *)
Definition named {A B} (R : A -> B -> Prop) (x : string * A) (y : string * B) : Prop := x.1 = y.1 /\ R x.2 y.2.

(** A directory with no timer waits for nothing. *)
Definition dir_timed (d : DirectoryQueue) (es : list HarnessEvent) : Prop := dir_ok d es /\ (timer d = None -> es = []).

(** Directory by directory, in the same order. *)
Definition simulates (q : PipelineQueues) (p : PlainQueues) : Prop := Forall2 (named dir_timed) (dirs q) p.

(** A plain batch, coalesced. *)
Definition owed (b : string * list HarnessEvent) : string * list HarnessEvent := (b.1, batch_of [] b.2).

Section forall2.
  Context {A B : Type} (R : A -> B -> Prop).
  Implicit Types (l : list (string * A)) (k : list (string * B)).

Lemma forall2_jget l k d : Forall2 (named R) l k ->
  match jget d l, jget d k with Some x, Some y => R x y | None, None => True | _, _ => False end.
Proof.
  induction 1 as [|[d1 x] [d2 y] l k [E H] _ IH]; [done|]. cbn in E, H |- *. subst d2. by case_decide.
Qed.

Lemma forall2_jset l k d x y : Forall2 (named R) l k -> R x y -> Forall2 (named R) (jset d x l) (jset d y k).
Proof.
  intros H Hxy. induction H as [|[d1 x1] [d2 y1] l k [E H] Hl IH]; [by repeat constructor|].
  cbn in E, H |- *. subst d2. case_decide; by constructor.
Qed.

Lemma forall2_jkeys l k : Forall2 (named R) l k -> jkeys l = jkeys k.
Proof. unfold jkeys. induction 1 as [|[d1 x] [d2 y] l k [E H] _ IH]; [done|]. cbn in *. by subst; f_equal. Qed.

End forall2.

Lemma sim_flush q p d : simulates q p ->
  simulates (flush q d).1 (plain_flush p d).1 /\ (flush q d).2 = owed <$> (plain_flush p d).2.
Proof.
  intros H. pose proof (forall2_jget dir_timed _ _ d H) as Hd. unfold flush, plain_flush.
  destruct (jget d (dirs q)) as [dir|], (jget d p) as [es|]; try done. cbn [fst snd]. destruct Hd as [Hd _].
  fold (live (queue dir)). split.
  - apply forall2_jset; [done|]. destruct newDir_ok. split; [by split|done].
  - pose proof (do_nonempty _ _ Hd) as Hn. rewrite (do_batch _ _ Hd) in *. repeat case_bool_decide; tauto.
Qed.

Lemma sim_flush_all q p ds out out' : simulates q p -> out = owed <$> out' ->
  let a := fold_left (fun acc d => let '(q, o) := flush acc.1 d in (q, acc.2 ++ o)) ds (q, out) in
  let b := fold_left (fun acc d => let '(q, o) := plain_flush acc.1 d in (q, acc.2 ++ o)) ds (p, out') in
  simulates a.1 b.1 /\ a.2 = owed <$> b.2.
Proof.
  revert q p out out'. induction ds as [|d ds IH]; intros q p out out' H Ho; [done|]. cbn [fold_left fst snd].
  destruct (sim_flush q p d H) as [H1 H2]. destruct (flush q d) as [q1 o1], (plain_flush p d) as [p1 o2]. cbn in H1, H2.
  apply IH; [done|]. by rewrite Ho, H2, fmap_app.
Qed.

Lemma sim_step q p op now : simulates q p ->
  simulates (step text_of q op now).1 (plain_step p op).1 /\ (step text_of q op now).2 = owed <$> (plain_step p op).2.
Proof.
  intros H. destruct op as [e|d|d| | |u]; cbn [step plain_step].
  - split; [|done]. unfold push. cbn [fst dirs]. apply forall2_jset; [done|].
    pose proof (forall2_jget dir_timed _ _ (resolveEventDirectory e) H) as Hd.
    assert (dir_ok (default newDir (jget (resolveEventDirectory e) (dirs q))) (default [] (jget (resolveEventDirectory e) p))) as Ho.
    { destruct (jget _ (dirs q)), (jget _ p); try done; [apply Hd|apply newDir_ok]. }
    apply (push_dir_ok _ _ e) in Ho. unfold scheduleFlush. destruct Ho. destruct (timer _); (split; [by split|done]).
  - by apply sim_flush.
  - pose proof (forall2_jget dir_timed _ _ d H) as Hd. pose proof (sim_flush q p d H) as Hf.
    destruct (jget d (dirs q)) as [dir|] eqn:Eq, (jget d p) as [es|] eqn:Ep; try done.
    + destruct (timer dir) as [t|] eqn:Et; [done|]. destruct Hd as [_ Hd]. specialize (Hd Et). subst es.
      unfold plain_flush. rewrite Ep. cbn. by rewrite (jset_same d [] p).
    + unfold plain_flush. by rewrite Ep.
  - unfold flushAll. rewrite (forall2_jkeys dir_timed _ _ H). by apply sim_flush_all.
  - split; [constructor|done].
  - by split.
Qed.

Lemma sim_execute q p ops : simulates q p -> (execute text_of q ops).2 = owed <$> plain_execute p ops.
Proof.
  revert q p. induction ops as [|[op now] ops IH]; intros q p H; cbn [execute plain_execute]; [done|].
  destruct (sim_step q p op now H) as [H1 H2]. destruct (step text_of q op now) as [q1 out], (plain_step p op) as [p1 out'].
  cbn in H1, H2 |- *. specialize (IH q1 p1 H1). destruct (execute text_of q1 ops) as [q2 outs]. cbn in IH |- *.
  by rewrite IH, H2, fmap_app.
Qed.

(** C11. What a flush hands over, slot by slot: whatever is pushed, flushed, timed
    out or cleared, the batches handed to [onFlush] are exactly those of queues
    that keep every event, each batch replaced by its coalesced form. There an
    event without a key stays in its place; the events of a key since its last
    barrier are one event, in the place of the first of them, the last of them
    with (of deltas) the text of all; those a later barrier of their key follows
    are gone. An event may so be handed over before one that was pushed before it
    (SyncPipeline.flush_rewinds_the_cursor). *)
Theorem batches_are_coalesced_pushes ops :
  (execute text_of newQueues ops).2 = owed <$> plain_execute [] ops.
Proof. apply sim_execute. constructor. Qed.

End meaning.

(** ** Timers *)

(** An event that waits has a timer, due within a frame of the last push. *)
Definition timed (d : DirectoryQueue) : Prop :=
  match timer d with
  | Some t => (t <= last d + BACKPRESSURE_FLUSH_FRAME_MS)%Z
  | None => queue d = []
  end.

Definition timers_set (now : Z) (q : PipelineQueues) : Prop :=
  Forall (fun kv => timed kv.2 /\ (timer kv.2 <> None -> last kv.2 <= now)%Z) (dirs q).

(** Times never go back. *)
Fixpoint in_order (now : Z) (ops : list (Op * Z)) : Prop :=
  match ops with
  | [] => True
  | (_, t) :: ops' => (now <= t)%Z /\ in_order t ops'
  end.

Section timers.
  Context (text_of : json -> string).

Lemma flush_timers now q d : timers_set now q -> timers_set now (flush q d).1.
Proof.
  intros H. unfold flush. destruct (jget d (dirs q)) as [dir|] eqn:E; [|done]. by apply Forall_jset.
Qed.

Lemma flushAll_timers now q : timers_set now q -> timers_set now (flushAll q).1.
Proof.
  unfold flushAll. generalize (jkeys (dirs q)) ([] : list (string * list HarnessEvent)). intros ds.
  revert q. induction ds as [|d ds IH]; intros q out H; [done|]. cbn [fold_left fst snd].
  pose proof (flush_timers now q d H) as H1. destruct (flush q d) as [q1 o]. by apply IH.
Qed.

Lemma invalidate_timer d f : timer (invalidateMatching d f) = timer d.
Proof. unfold invalidateMatching. by rewrite fold_slots. Qed.

Lemma barriers_timer d e : timer (applyCoalescingBarriers text_of d e) = timer d.
Proof.
  unfold applyCoalescingBarriers, dropPartDeltaKeys, dropKey. repeat case_match; by rewrite ?invalidate_timer.
Qed.

Lemma enqueue_timer d e : timer (enqueueWithCoalescing text_of d e) = timer d.
Proof. unfold enqueueWithCoalescing. by repeat case_match. Qed.

Lemma push_timers now q e t : (now <= t)%Z -> timers_set now q -> timers_set t (push text_of q e t).
Proof.
  intros Ht H. unfold push. apply Forall_jset; cbn [snd].
  - set (d0 := enqueueWithCoalescing _ _ _).
    assert (timer d0 = timer (default newDir (jget (resolveEventDirectory e) (dirs q))) ) as Et.
    { unfold d0. by rewrite enqueue_timer, barriers_timer. }
    unfold scheduleFlush. rewrite Et. unfold timed.
    destruct (default newDir (jget (resolveEventDirectory e) (dirs q))) as [dq dc dt dl] eqn:Ed. cbn [timer].
    destruct dt as [t0|]; cbn [timer last queue].
    + destruct (jget (resolveEventDirectory e) (dirs q)) as [dir|] eqn:Eg; [|done]. cbn in Ed. subst dir.
      apply (Forall_jget _ _ _ _ H) in Eg as [H1 H2]. unfold timed in H1. cbn in H1, H2. specialize (H2 ltac:(done)). split; [lia|intros; lia].
    + split; [|intros; lia]. unfold frameMs, BACKPRESSURE_FLUSH_FRAME_MS, FLUSH_FRAME_MS. case_bool_decide; lia.
  - eapply Forall_impl; [exact H|]. cbn. intros kv [H1 H2]. split; [done|]. intros Hn. specialize (H2 Hn). lia.
Qed.

Lemma timers_later now t q : (now <= t)%Z -> timers_set now q -> timers_set t q.
Proof. intros Ht H. eapply Forall_impl; [exact H|]. cbn. intros kv [H1 H2]. split; [done|]. intros Hn. specialize (H2 Hn). lia. Qed.

Lemma step_timers_set now q op t : (now <= t)%Z -> timers_set now q -> timers_set t (step text_of q op t).1.
Proof.
  intros Ht H. pose proof (timers_later now t q Ht H) as H'. destruct op as [e|d|d| | |u]; cbn [step].
  - by apply (push_timers now).
  - by apply flush_timers.
  - destruct (jget d (dirs q)) as [dir|]; [|done]. destruct (timer dir); [by apply flush_timers|done].
  - by apply flushAll_timers.
  - constructor.
  - done.
Qed.

(** No queued event is stranded: whatever has happened on a clock that does not
    go back, a directory that holds an event has a timer armed, due no later than
    the longest frame after its last push, and the timer's flush empties it. *)
Theorem queued_events_have_a_timer ops d dir :
  in_order 0 ops ->
  let q := (execute text_of newQueues ops).1 in
  jget d (dirs q) = Some dir -> queue dir <> [] ->
  exists t, timer dir = Some t /\ (t <= last dir + BACKPRESSURE_FLUSH_FRAME_MS)%Z /\
    exists dir', jget d (dirs (step text_of q (OpTimer d) t).1) = Some dir' /\ queue dir' = [].
Proof.
  intros Ho q Hd Hq.
  assert (exists now, timers_set now q) as [now H].
  { unfold q. assert (timers_set 0 newQueues) as H0 by constructor. clear Hd q. revert Ho H0. generalize newQueues 0%Z.
    induction ops as [|[op t] ops IH]; intros q now Ho H; [by exists now|]. destruct Ho as [Ht Ho]. cbn [execute].
    pose proof (step_timers_set now q op t Ht H) as H1. destruct (step text_of q op t) as [q1 o]. cbn in H1.
    destruct (IH q1 t Ho H1) as [n Hn]. exists n. by destruct (execute text_of q1 ops). }
  destruct (Forall_jget _ _ _ _ H Hd) as [Ht _]. cbn [snd] in Ht. unfold timed in Ht. destruct (timer dir) as [t|] eqn:E; [|done].
  exists t. split; [done|]. split; [done|]. cbn [step]. rewrite Hd, E. unfold flush. rewrite Hd. cbn [fst dirs].
  rewrite jget_set_eq. by eexists.
Qed.

End timers.

(** ** Back-off *)

(** The delay is never under the base nor over the cap, never shrinks as failures go
    on, and is the cap from the ninth failure on or after a permanent refusal. *)
Lemma retry_delay_bounds n visible online p :
  let cap := if visible && online then RETRY_BACKOFF_CAP_VISIBLE_MS else RETRY_BACKOFF_CAP_HIDDEN_OR_OFFLINE_MS in
  (RETRY_BACKOFF_BASE_MS <= computeRetryDelay n visible online p <= cap)%Z /\
  (forall m, n <= m -> computeRetryDelay n visible online p <= computeRetryDelay m visible online p)%Z /\
  (p = true \/ 9 <= n -> computeRetryDelay n visible online p = cap)%Z.
Proof.
  unfold computeRetryDelay, RETRY_BACKOFF_CAP_VISIBLE_MS, RETRY_BACKOFF_CAP_HIDDEN_OR_OFFLINE_MS, RETRY_BACKOFF_BASE_MS, RETRY_BACKOFF_MAX_EXPONENT.
  assert (forall a, 1 <= 2 ^ Z.min (Z.max (a - 1) 0) 8)%Z as H1.
  { intros a. change 1%Z with (2 ^ 0)%Z at 1. apply Z.pow_le_mono_r; lia. }
  assert (forall a b, a <= b -> 2 ^ Z.min (Z.max (a - 1) 0) 8 <= 2 ^ Z.min (Z.max (b - 1) 0) 8)%Z as H2.
  { intros a b Hab. apply Z.pow_le_mono_r; lia. }
  assert (9 <= n -> 2 ^ Z.min (Z.max (n - 1) 0) 8 = 256)%Z as H3.
  { intros Hn. replace (Z.min (Z.max (n - 1) 0) 8) with 8%Z by lia. done. }
  specialize (H1 n) as Hn. destruct p, (visible && online); (split_and!; [lia..| |]);
    first [intros m Hm; specialize (H2 n m Hm); lia|intros [?|Hm]; [done|specialize (H3 Hm); lia]|intros; lia].
Qed.

(** ** Witness *)

Definition ex_delta (text : string) : HarnessEvent :=
  mkEvent None "message.part.delta" (Some (JObj [("messageID", JStr "m"); ("partID", JStr "p"); ("field", JStr "text"); ("delta", JStr text)])) (Some "/w").

Definition ex_snapshot : HarnessEvent :=
  mkEvent None "message.part.updated" (Some (JObj [("part", JObj [("id", JStr "p"); ("messageID", JStr "m"); ("text", JStr "ab")])])) (Some "/w").

Definition ex_ops : list (Op * Z) :=
  [(OpPush (ex_delta "a"), 0%Z); (OpPush (ex_delta "b"), 1%Z); (OpPush ex_snapshot, 2%Z); (OpPush (ex_delta "c"), 3%Z);
   (OpPush (ex_delta "d"), 4%Z)].

(** The snapshot swallows what it already holds; what follows it is joined. *)
Lemma snapshot_example :
  (execute (fun _ => "") newQueues (ex_ops ++ [(OpFlush "/w", 5%Z)])).2 = [("/w", [ex_snapshot; ex_delta "cd"])]
  /\ batch_of (fun _ => "") [] [ex_delta "a"; ex_delta "b"; ex_snapshot; ex_delta "c"; ex_delta "d"] = [ex_snapshot; ex_delta "cd"].
Proof. by vm_compute. Qed.

Lemma queued_events_have_a_timer_witness :
  let q := (execute (fun _ => "") newQueues ex_ops).1 in
  exists t, timer (default newDir (jget "/w" (dirs q))) = Some t /\ (t <= 204)%Z.
Proof.
  destruct (queued_events_have_a_timer (fun _ => "") ex_ops "/w"
    (default newDir (jget "/w" (dirs (execute (fun _ => "") newQueues ex_ops).1)))) as (t & Ht & Hb & _);
    [cbn; lia|by vm_compute|by vm_compute|].
  exists t. split; [exact Ht|]. exact Hb.
Defined.
