(* ===== verification/SyncOrder.v ===== *)
(** Ordered lists of the UI sync engine: identity-sorted lists
    (ui/src/sync/event-equality.ts), the chronological order of messages
    (message-ordering.ts), the overlap append of streamed text, and the order of
    the session list (session-ordering.ts).

    Every list holds records of some type [T] that the code looks at only through an
    id and two times. *)

From S2P Require Import Prelude JsString JsMap JsSort.
From Stdlib Require Import Sorting.Sorted.

Section records.
  Context {T : Type} (id_of : T -> string).

(** ** Lists sorted by id (event-equality.ts) *)

(** The loop with inclusive bounds; [high] is one less than the [high] kept here. *)
Fixpoint search_loop (fuel : nat) (l : list T) (key : string) (low high : nat) : bool * nat :=
  match fuel with
  | O => (false, low)
  | S n =>
    if Nat.ltb low high then
      let mid := Nat.div2 (low + (high - 1)) in
      match l !! mid with
      | Some x =>
        if bool_decide (id_of x = key) then (true, mid)
        else if slt (id_of x) key then search_loop n l key (S mid) high
        else search_loop n l key low mid
      | None => (false, low)
      end
    else (false, low)
  end.

Definition binarySearchIndex (l : list T) (key : string) : bool * nat :=
  search_loop (length l) l key 0 (length l).

(** [splice(i, 0, x)] and [splice(i, 1)] *)
Definition splice_in (i : nat) (x : T) (l : list T) : list T := take i l ++ x :: drop i l.
Definition splice_out (i : nat) (l : list T) : list T := take i l ++ drop (S i) l.

(** The list afterwards and whether the item was inserted. *)
Definition upsertById (l : list T) (x : T) : list T * bool :=
  match binarySearchIndex l (id_of x) with
  | (true, i) => (<[i := x]> l, false)
  | (false, i) => (splice_in i x l, true)
  end.

Definition removeById (l : list T) (key : string) : list T * bool :=
  match binarySearchIndex l key with
  | (true, i) => (splice_out i l, true)
  | (false, _) => (l, false)
  end.

(** ** Chronological lists (message-ordering.ts) *)

Context (created_of : T -> Z).

(** [compareMessagesChronological(a, b) <= 0] *)
Definition chronological (a b : T) : bool :=
  if bool_decide (created_of a = created_of b) then sle (id_of a) (id_of b)
  else bool_decide (created_of a < created_of b)%Z.

(** [compareMessagesChronological(a, b) === 0] *)
Definition same_moment (a b : T) : bool :=
  bool_decide (created_of a = created_of b) && bool_decide (id_of a = id_of b).

Definition sortMessagesChronological : list T -> list T := js_sort chronological.

Definition insertMessageChronological (l : list T) (x : T) : list T :=
  splice_in (halve (length l) (fun i => match l !! i with Some y => chronological y x | None => false end) 0 (length l)) x l.

Definition index_of (key : string) (l : list T) : option nat := fst <$> list_find (fun x => id_of x = key) l.

Definition removeMessageById (l : list T) (key : string) : list T * option T :=
  match index_of key l with
  | Some i => (splice_out i l, l !! i)
  | None => (l, None)
  end.

Definition messagesBefore (l : list T) (revert : option string) : list T :=
  match revert with
  | Some m => if bool_decide (m = "") then l else match index_of m l with Some i => take i l | None => l end
  | None => l
  end.

Definition truncateAtMessageId (l : list T) (m : string) : list T :=
  match index_of m l with Some i => take i l | None => l end.

(** ** Properties *)

(** Sorted by id, no id twice. *)
Definition by_id (l : list T) : Prop := StronglySorted (fun a b => slt (id_of a) (id_of b) = true) l.

(** The reference: how many ids are smaller. *)
Definition rank (key : string) (l : list T) : nat := length (filter (fun x => slt (id_of x) key = true) l).

Lemma by_id_lookup l i j x y : by_id l -> l !! i = Some x -> l !! j = Some y -> i < j -> slt (id_of x) (id_of y) = true.
Proof.
  intros H. revert i j. induction H as [|z l Hl IH Hz]; intros i j Hx Hy Hij; [done|].
  destruct j as [|j]; [lia|]. cbn in Hy. destruct i as [|i]; cbn in Hx; [|apply (IH i j); [done|done|lia]].
  simplify_eq. rewrite Forall_forall in Hz. apply Hz. by eapply list_elem_of_lookup_2.
Qed.

(** The rank splits a sorted list. *)
Lemma rank_split key l i x : by_id l -> l !! i = Some x ->
  (i < rank key l <-> slt (id_of x) key = true).
Proof.
  intros H. revert i. induction H as [|z l Hl IH Hz]; intros i Hx; [done|]. unfold rank in *. rewrite filter_cons.
  destruct (decide (slt (id_of z) key = true)) as [E|E].
  - cbn. destruct i as [|i]; cbn in Hx; [simplify_eq; split; [done|lia]|]. rewrite <- (IH i Hx). lia.
  - assert (forall y, y ∈ l -> slt (id_of y) key = false) as Hy.
    { intros y Hy. rewrite Forall_forall in Hz. specialize (Hz y Hy). destruct (slt (id_of y) key) eqn:Ey; [|done].
      exfalso. apply E. by eapply slt_trans. }
    assert (filter (fun x => slt (id_of x) key = true) l = []) as ->.
    { clear -Hy. induction l as [|y l IH]; [done|]. rewrite filter_cons_False by (rewrite Hy; [done|by left]).
      apply IH. intros; apply Hy; by right. }
    cbn. split; [lia|]. intros Hs. destruct i as [|i]; cbn in Hx; [by simplify_eq|].
    rewrite (Hy x) in Hs; [done|]. by eapply list_elem_of_lookup_2.
Qed.

Lemma rank_le key l : rank key l <= length l.
Proof. unfold rank. apply length_filter. Qed.

Definition has_id (key : string) (o : option T) : bool :=
  match o with Some x => bool_decide (id_of x = key) | None => false end.

Lemma search_loop_spec fuel l key low high :
  by_id l -> high - low <= fuel -> low <= rank key l <= high -> high <= length l ->
  (has_id key (l !! rank key l) = true -> rank key l < high) ->
  search_loop fuel l key low high = (has_id key (l !! rank key l), rank key l).
Proof.
  intros Hs. revert low high. induction fuel as [|n IH]; intros low high Hf Hr Hh Hu; cbn [search_loop].
  { assert (rank key l = low) as E by lia. rewrite E in *. f_equal. destruct (has_id key (l !! low)); [|done]. specialize (Hu eq_refl). lia. }
  destruct (Nat.ltb_spec low high) as [Hlt|Hge].
  2:{ assert (rank key l = low) as E by lia. rewrite E in *. f_equal. destruct (has_id key (l !! low)); [|done]. specialize (Hu eq_refl). lia. }
  assert (low <= Nat.div2 (low + (high - 1)) < high) as Hm.
  { destruct (decide (low = high - 1)) as [->|]; [|pose proof (div2_between low (high - 1)); lia].
    rewrite Nat.div2_div. pose proof (Nat.div_mod_eq (high - 1 + (high - 1)) 2).
    pose proof (Nat.mod_upper_bound (high - 1 + (high - 1)) 2 ltac:(done)). lia. }
  set (mid := Nat.div2 (low + (high - 1))) in *.
  destruct (lookup_lt_is_Some_2 l mid) as [x Hx]; [lia|]. rewrite Hx. pose proof (rank_split key l mid x Hs Hx) as Hsp.
  case_bool_decide as E.
  - assert (rank key l = mid) as Er.
    { assert (~ mid < rank key l) by (rewrite Hsp, E, slt_irrefl; done).
      destruct (decide (rank key l = mid)) as [|Hne]; [done|]. destruct (lookup_lt_is_Some_2 l (rank key l)) as [y Hy]; [lia|].
      pose proof (by_id_lookup l _ mid y x Hs Hy Hx ltac:(lia)) as Hyx. rewrite E in Hyx.
      apply (rank_split key l _ y Hs Hy) in Hyx. lia. }
    rewrite Er, Hx. cbn. by rewrite bool_decide_true.
  - destruct (slt (id_of x) key) eqn:Ex.
    + assert (mid < rank key l) by by apply Hsp. apply IH; [lia..|done].
    + assert (~ mid < rank key l) by (rewrite Hsp; congruence). apply IH; [lia..|].
      intros Hid. destruct (decide (rank key l = mid)) as [Er|]; [|lia].
      rewrite Er, Hx in Hid. cbn in Hid. by apply bool_decide_eq_true in Hid.
Qed.

Lemma search_loop_full l key fuel : by_id l -> length l <= fuel ->
  search_loop fuel l key 0 (length l) = (has_id key (l !! rank key l), rank key l).
Proof.
  intros Hs Hf. pose proof (rank_le key l) as Hr. apply search_loop_spec; [done|lia..|].
  intros H. apply lookup_lt_is_Some. destruct (l !! rank key l); [by eexists|done].
Qed.

Lemma has_id_rank l key : by_id l -> key ∈ id_of <$> l -> exists x, l !! rank key l = Some x /\ id_of x = key.
Proof.
  intros Hs (x & -> & Hx)%list_elem_of_fmap. apply list_elem_of_lookup in Hx as [i Hi].
  assert (rank (id_of x) l = i) as ->; [|by exists x].
  assert (~ i < rank (id_of x) l) by (rewrite (rank_split _ _ _ _ Hs Hi), slt_irrefl; done).
  destruct (decide (rank (id_of x) l = i)) as [|Hne]; [done|]. pose proof (rank_le (id_of x) l).
  destruct (lookup_lt_is_Some_2 l (rank (id_of x) l)) as [y Hy]; [apply lookup_lt_Some in Hi; lia|].
  pose proof (by_id_lookup l _ i y x Hs Hy Hi ltac:(lia)) as Hyx. apply (rank_split _ l _ y Hs Hy) in Hyx. lia.
Qed.

Lemma search_full l key : by_id l -> binarySearchIndex l key = (bool_decide (key ∈ id_of <$> l), rank key l).
Proof.
  intros Hs. unfold binarySearchIndex. rewrite search_loop_full by done. f_equal. case_bool_decide as E.
  - destruct (has_id_rank l key Hs E) as (x & -> & Hx). cbn. by apply bool_decide_true.
  - destruct (l !! rank key l) as [x|] eqn:Ex; [|done]. cbn. apply bool_decide_false. intros <-. apply E.
    apply list_elem_of_fmap_2. by eapply list_elem_of_lookup_2.
Qed.

(** On a list sorted by id the hand-written binary search is the linear
    reference: whatever the fuel past the length it ends in the same answer, the
    number of smaller ids, with [found] exactly when a record has the id, which is
    then the record at that position. *)
Theorem binary_search_is_linear_search l key fuel :
  by_id l -> length l <= fuel ->
  search_loop fuel l key 0 (length l) = (bool_decide (key ∈ id_of <$> l), length (filter (fun x => slt (id_of x) key = true) l)) /\
  (key ∈ id_of <$> l ->
   exists x, l !! (binarySearchIndex l key).2 = Some x /\ id_of x = key).
Proof.
  intros Hs Hf. rewrite search_full by done. rewrite search_loop_full by done.
  rewrite <- (search_loop_full l key (length l)) by done. fold (binarySearchIndex l key). rewrite search_full by done.
  split; [done|]. by apply has_id_rank.
Qed.

(** ** Updates of id-sorted lists *)

Lemma by_id_app l1 l2 : by_id (l1 ++ l2) <->
  by_id l1 /\ by_id l2 /\ (forall x y, x ∈ l1 -> y ∈ l2 -> slt (id_of x) (id_of y) = true).
Proof.
  unfold by_id. induction l1 as [|z l1 IH]; cbn.
  { split; [intros H; split_and!; [constructor|done|by intros ? ? ?%elem_of_nil]|by intros (_ & H & _)]. }
  split.
  - intros H. inversion_clear H as [|? ? H1 H2]. apply IH in H1 as (H3 & H4 & H5). rewrite Forall_app in H2. destruct H2 as [H6 H7].
    rewrite Forall_forall in H7. split_and!; [by constructor|done|]. intros x y [->|Hx]%elem_of_cons Hy; auto.
  - intros (H1 & H2 & H3). inversion_clear H1 as [|? ? H4 H5]. constructor.
    + apply IH. split_and!; [done..|]. intros x y Hx Hy. apply H3; [by right|done].
    + apply Forall_app. split; [done|]. rewrite Forall_forall. intros y Hy. apply H3; [by left|done].
Qed.

(** Below and above the rank. *)
Lemma rank_parts l key : by_id l ->
  (forall x, x ∈ take (rank key l) l -> slt (id_of x) key = true) /\
  (forall x, x ∈ drop (rank key l) l -> slt (id_of x) key = false).
Proof.
  intros Hs. split; intros x [i Hi]%list_elem_of_lookup.
  - apply lookup_take_Some in Hi as [Hi Hlt]. by apply (rank_split key l i x Hs Hi).
  - rewrite lookup_drop in Hi. destruct (slt (id_of x) key) eqn:E; [|done].
    apply (rank_split key l _ x Hs Hi) in E. lia.
Qed.

(** The list around the place of an id. *)
Lemma by_id_cut l key : by_id l ->
  (exists l1 x l2, l = l1 ++ x :: l2 /\ id_of x = key /\ binarySearchIndex l key = (true, length l1)) \/
  (exists l1 l2, l = l1 ++ l2 /\ binarySearchIndex l key = (false, length l1) /\ (key ∉ id_of <$> l) /\
    (forall x, x ∈ l1 -> slt (id_of x) key = true) /\ (forall x, x ∈ l2 -> slt key (id_of x) = true)).
Proof.
  intros Hs. rewrite search_full by done. pose proof (rank_le key l) as Hr.
  destruct (decide (key ∈ id_of <$> l)) as [Hin|Hout].
  - left. rewrite bool_decide_true by done. destruct (has_id_rank l key Hs Hin) as (x & Hx & Hid).
    exists (take (rank key l) l), x, (drop (S (rank key l)) l). rewrite length_take, Nat.min_l by done.
    by rewrite take_drop_middle.
  - right. rewrite bool_decide_false by done. exists (take (rank key l) l), (drop (rank key l) l).
    rewrite length_take, Nat.min_l by done. destruct (rank_parts l key Hs) as [H1 H2].
    split_and!; [by rewrite take_drop|done|done|done|]. intros x Hx. specialize (H2 x Hx).
    destruct (slt_total key (id_of x)) as [E|[E|E]]; [|done|congruence]. exfalso. apply Hout. rewrite E.
    apply list_elem_of_fmap_2. rewrite <- (take_drop (rank key l) l). apply elem_of_app. by right.
Qed.

Lemma splice_in_app l1 l2 x : splice_in (length l1) x (l1 ++ l2) = l1 ++ x :: l2.
Proof. unfold splice_in. by rewrite take_app_length, drop_app_length. Qed.

Lemma splice_out_app l1 y l2 : splice_out (length l1) (l1 ++ y :: l2) = l1 ++ l2.
Proof.
  unfold splice_out. rewrite take_app_length. f_equal. replace (l1 ++ y :: l2) with ((l1 ++ [y]) ++ l2) by by rewrite <- app_assoc.
  by rewrite drop_app_length' by (rewrite length_app; cbn; lia).
Qed.

(** The ids around a record of a sorted list differ from its own. *)
Lemma by_id_others l1 x l2 : by_id (l1 ++ x :: l2) ->
  (forall y, y ∈ l1 -> slt (id_of y) (id_of x) = true) /\ (forall y, y ∈ l2 -> slt (id_of x) (id_of y) = true) /\ by_id (l1 ++ l2).
Proof.
  intros (H1 & H2 & H3)%by_id_app. inversion_clear H2 as [|? ? H4 H5]. rewrite Forall_forall in H5. split_and!; [|done|].
  - intros y Hy. apply H3; [done|by left].
  - apply by_id_app. split_and!; [done..|]. intros a b Ha Hb. apply H3; [done|by right].
Qed.

Lemma upsert_spec l x : by_id l ->
  by_id (upsertById l x).1 /\ (forall y, y ∈ (upsertById l x).1 <-> y = x \/ (y ∈ l /\ id_of y <> id_of x)) /\
  (upsertById l x).2 = bool_decide (id_of x ∉ (id_of <$> l)).
Proof.
  clear created_of. intros Hs. unfold upsertById. destruct (by_id_cut l (id_of x) Hs) as [(l1 & z & l2 & -> & Hid & ->)|(l1 & l2 & -> & -> & Hout & H1 & H2)]; cbn [fst snd].
  + destruct (by_id_others _ _ _ Hs) as (H1 & H2 & _). rewrite Hid in H1, H2.
    rewrite insert_app_r_alt, Nat.sub_diag by done. cbn. apply by_id_app in Hs as (H3 & H4 & H5). inversion_clear H4 as [|? ? H6 H7].
    split_and!.
    * apply by_id_app. split_and!; [done| |].
      -- constructor; [done|]. rewrite Forall_forall. apply H2.
      -- intros a b Ha [->|Hb]%elem_of_cons; [by apply H1|]. apply H5; [done|by right].
    * intros y. rewrite !elem_of_app, !elem_of_cons. split.
      -- intros [Hy|[->|Hy]]; [right|by left|right].
         ++ split; [by left|]. by apply slt_ne, H1.
         ++ split; [by right; right|]. intros E. by apply (slt_ne (id_of x) (id_of y)); [apply H2|].
      -- intros [->|[[Hy|[->|Hy]] Hne]]; auto. by rewrite Hid in Hne.
    * symmetry. apply bool_decide_false. intros Hn. apply Hn. rewrite fmap_app, fmap_cons, Hid. apply elem_of_app. right. left.
  + rewrite splice_in_app. apply by_id_app in Hs as (H3 & H4 & H5). split_and!.
    * apply by_id_app. split_and!; [done|constructor; [done|by apply Forall_forall]|].
      intros a b Ha [->|Hb]%elem_of_cons; [by apply H1|by apply H5].
    * intros y. rewrite !elem_of_app, !elem_of_cons. split; [|naive_solver]. intros [Hy|[->|Hy]]; [right|by left|right].
      -- split; [by left|]. by apply slt_ne, H1.
      -- split; [by right|]. intros E. by apply (slt_ne (id_of x) (id_of y)); [apply H2|].
    * symmetry. by apply bool_decide_true.
Qed.

Lemma remove_spec l key : by_id l ->
  by_id (removeById l key).1 /\ (forall y, y ∈ (removeById l key).1 <-> y ∈ l /\ id_of y <> key) /\
  (removeById l key).2 = bool_decide (key ∈ id_of <$> l).
Proof.
  clear created_of. intros Hs. unfold removeById. destruct (by_id_cut l key Hs) as [(l1 & z & l2 & -> & Hid & ->)|(l1 & l2 & -> & -> & Hout & H1 & H2)]; cbn [fst snd].
  + rewrite splice_out_app. destruct (by_id_others _ _ _ Hs) as (H1 & H2 & H3). rewrite Hid in H1, H2. split_and!; [done| |].
    * intros y. rewrite !elem_of_app, !elem_of_cons. split.
      -- intros [Hy|Hy]; (split; [tauto|]); [by apply slt_ne, H1|]. intros E. by apply (slt_ne key (id_of y)); [apply H2|].
      -- intros [[Hy|[->|Hy]] Hne]; tauto.
    * symmetry. apply bool_decide_true. rewrite fmap_app, fmap_cons, Hid. apply elem_of_app. right. left.
  + split_and!; [done| |].
    * intros y. split; [|by intros [? _]]. intros Hy. split; [done|]. intros <-. apply Hout. by apply list_elem_of_fmap_2.
    * symmetry. by apply bool_decide_false.
Qed.

(** On a list sorted by id, [upsertById] is the update of a map: the list stays
    sorted, holds the new record and the old ones with other ids, and is told to
    have grown exactly when the id is new; [removeById] is the deletion. *)
Theorem id_lists_are_maps l x key :
  by_id l ->
  (by_id (upsertById l x).1 /\ (forall y, y ∈ (upsertById l x).1 <-> y = x \/ (y ∈ l /\ id_of y <> id_of x)) /\
   (upsertById l x).2 = bool_decide (id_of x ∉ (id_of <$> l))) /\
  (by_id (removeById l key).1 /\ (forall y, y ∈ (removeById l key).1 <-> y ∈ l /\ id_of y <> key) /\
   (removeById l key).2 = bool_decide (key ∈ id_of <$> l)).
Proof. intros Hs. split; [by apply upsert_spec|by apply remove_spec]. Qed.

(** ** Chronological insertion *)

#[local] Instance chronological_order : TotalOrder chronological.
Proof.
  split; unfold chronological.
  - intros a b. destruct (decide (created_of a = created_of b)) as [E|E].
    + rewrite !bool_decide_true by done. apply sle_total.
    + rewrite !(bool_decide_false (_ = _)) by congruence. destruct (decide (created_of a < created_of b)%Z).
      * left. by apply bool_decide_true.
      * right. apply bool_decide_true. lia.
  - intros a b c. repeat case_bool_decide; try congruence; try lia; try done. apply sle_trans.
Qed.

Lemma chronological_antisym a b : chronological a b = true -> chronological b a = true ->
  created_of a = created_of b /\ id_of a = id_of b.
Proof.
  unfold chronological. repeat case_bool_decide; try congruence; try lia. intros. split; [done|]. by apply sle_antisym.
Qed.

(** Where a message goes: behind those not after it. *)
Lemma chronological_cut l x : sorted chronological l -> exists l1 l2, l = l1 ++ l2 /\
  Forall (fun y => chronological y x = true) l1 /\ Forall (fun y => chronological y x = false) l2.
Proof.
  induction 1 as [|y l Hl IH Hy]; [by exists [], []|]. destruct (chronological y x) eqn:E.
  - destruct IH as (l1 & l2 & -> & H1 & H2). exists (y :: l1), l2. split; [done|]. split; [by constructor|done].
  - exists [], (y :: l). split; [done|]. split; [constructor|]. constructor; [done|]. eapply Forall_impl; [exact Hy|].
    intros z Hz. cbn in Hz. destruct (chronological z x) eqn:Ez; [|done].
    by rewrite (le_trans chronological y z x Hz Ez) in E.
Qed.

Lemma insert_chronological_app l1 l2 x :
  Forall (fun y => chronological y x = true) l1 -> Forall (fun y => chronological y x = false) l2 ->
  insertMessageChronological (l1 ++ l2) x = l1 ++ x :: l2.
Proof.
  intros H1 H2. unfold insertMessageChronological.
  rewrite (halve_spec _ _ _ _ (length l1)).
  - apply splice_in_app.
  - lia.
  - rewrite length_app. lia.
  - intros i Hi. rewrite lookup_app_l by lia. destruct (lookup_lt_is_Some_2 l1 i) as [y Hy]; [lia|]. rewrite Hy.
    by apply (Forall_lookup_1 _ _ _ _ H1 Hy).
  - intros i Hi. rewrite length_app in Hi. rewrite lookup_app_r by lia.
    destruct (lookup_lt_is_Some_2 l2 (i - length l1)) as [y Hy]; [lia|]. rewrite Hy. by apply (Forall_lookup_1 _ _ _ _ H2 Hy).
Qed.

Lemma js_sort_snoc l1 l2 x : sorted chronological (l1 ++ l2) ->
  Forall (fun y => chronological y x = true) l1 -> Forall (fun y => chronological y x = false) l2 ->
  js_sort chronological ((l1 ++ l2) ++ [x]) = l1 ++ x :: l2.
Proof.
  induction l1 as [|y l1 IH]; cbn [app].
  - intros Hs _ H2. induction l2 as [|y l2 IH]; [done|]. inversion_clear Hs as [|? ? Hs' Hy]. apply Forall_cons in H2 as [H2 H3].
    change (insert_sorted chronological y (js_sort chronological (l2 ++ [x])) = x :: y :: l2). rewrite IH by done. cbn.
    rewrite H2. f_equal. destruct l2 as [|z l2]; [done|]. apply Forall_cons in Hy as [E _]. cbn in E |- *. by rewrite E.
  - intros Hs H1 H2. inversion_clear Hs as [|? ? Hs' Hy]. apply Forall_cons in H1 as [H1 H3].
    change (insert_sorted chronological y (js_sort chronological ((l1 ++ l2) ++ [x])) = y :: l1 ++ x :: l2). rewrite IH by done.
    destruct l1 as [|z l1]; cbn; [by rewrite H1|]. apply Forall_cons in Hy as [E _]. cbn in E. by rewrite E.
Qed.

(** Inserting a message into a chronological list by halving is sorting the list
    with the message appended: it keeps the order of [time.created], then id, the
    newcomer goes behind its equals, and nothing is lost or duplicated. *)
Theorem chronological_insert_is_a_sort l x :
  sorted chronological l ->
  insertMessageChronological l x = sortMessagesChronological (l ++ [x]) /\
  sorted chronological (insertMessageChronological l x) /\ insertMessageChronological l x ≡ₚ x :: l.
Proof.
  intros Hs. destruct (chronological_cut l x Hs) as (l1 & l2 & -> & H1 & H2).
  assert (insertMessageChronological (l1 ++ l2) x = sortMessagesChronological ((l1 ++ l2) ++ [x])) as E.
  { unfold sortMessagesChronological. rewrite js_sort_snoc by done. by apply insert_chronological_app. }
  split; [done|]. rewrite E. unfold sortMessagesChronological. split; [apply js_sort_sorted, _|].
  rewrite js_sort_perm. symmetry. apply Permutation_cons_append.
Qed.

End records.

(** ** Streamed text (event-equality.ts) *)

Definition endsWith (s suffix : string) : bool :=
  Nat.leb (String.length suffix) (String.length s)
  && bool_decide (sdrop (String.length s - String.length suffix) s = suffix).

(** The loop from [size] down to one. *)
Fixpoint overlap_loop (size : nat) (current delta : string) : string :=
  match size with
  | O => current +:+ delta
  | S n => if endsWith current (stake size delta) then current +:+ sdrop size delta else overlap_loop n current delta
  end.

Definition appendNonOverlappingDelta (current delta : string) : string :=
  if bool_decide (current = "") then delta
  else if bool_decide (delta = "") then current
  else overlap_loop (Nat.min (String.length current) (String.length delta)) current delta.

Lemma endsWith_spec s t : endsWith s t = true <-> exists p, s = p +:+ t.
Proof.
  unfold endsWith. rewrite andb_true_iff, Nat.leb_le, bool_decide_eq_true. split.
  - intros [Hl E]. exists (stake (String.length s - String.length t) s). rewrite <- E at 2. by rewrite stake_sdrop.
  - intros [p ->]. rewrite slength_app. split; [lia|]. replace (String.length p + String.length t - String.length t) with (String.length p) by lia.
    apply sdrop_app.
Qed.

Lemma overlap_loop_spec size current delta :
  exists k, k <= size /\ overlap_loop size current delta = current +:+ sdrop k delta /\
    endsWith current (stake k delta) = true /\
    (forall j, k < j <= size -> endsWith current (stake j delta) = false).
Proof.
  induction size as [|n (k & Hk & E & He & Hm)].
  - exists 0. split_and!; [done|by destruct delta| |intros; lia]. apply endsWith_spec. exists current.
    destruct delta; by rewrite sapp_nil_r.
  - cbn [overlap_loop]. destruct (endsWith current (stake (S n) delta)) eqn:En.
    + exists (S n). split_and!; [done..|intros; lia].
    + exists k. split_and!; [lia|done|done|]. intros j Hj. destruct (decide (j = S n)) as [->|]; [done|apply Hm; lia].
Qed.

(** The overlap append keeps the text that is there and lets the chunk end it: it
    appends the chunk without the longest part of its beginning that the text
    already ends with. *)
Theorem overlap_append_is_longest_overlap current delta :
  exists k, k <= String.length current /\ k <= String.length delta /\
    appendNonOverlappingDelta current delta = current +:+ sdrop k delta /\
    (exists p, appendNonOverlappingDelta current delta = p +:+ delta) /\
    (exists p, current = p +:+ stake k delta) /\
    (forall j p, j <= String.length delta -> current = p +:+ stake j delta -> j <= k).
Proof.
  assert (exists k, k <= Nat.min (String.length current) (String.length delta) /\
    appendNonOverlappingDelta current delta = current +:+ sdrop k delta /\ endsWith current (stake k delta) = true /\
    (forall j, k < j <= Nat.min (String.length current) (String.length delta) -> endsWith current (stake j delta) = false))
    as (k & Hk & E & He & Hm).
  { unfold appendNonOverlappingDelta. repeat case_bool_decide; [subst current| |apply overlap_loop_spec].
    - exists 0. split_and!; [lia|by destruct delta|by destruct delta|cbn; intros; lia].
    - subst delta. exists 0. split_and!; [lia|cbn [sdrop]; by rewrite sapp_nil_r| |cbn; intros; lia].
      cbn [stake]. apply endsWith_spec. exists current. by rewrite sapp_nil_r. }
  apply endsWith_spec in He as Hp. destruct Hp as [p Hp]. exists k. split_and!; [lia|lia|done| |by exists p|].
  - exists p. rewrite E, Hp, sapp_assoc, stake_sdrop. done.
  - intros j q Hj Hq. destruct (decide (j <= k)) as [|Hlt]; [done|]. exfalso.
    assert (j <= String.length current) as Hc by (rewrite Hq, slength_app, stake_length_eq; lia).
    assert (endsWith current (stake j delta) = true) as H by (apply endsWith_spec; by exists q).
    rewrite Hm in H; [done|lia].
Qed.

(** ** Concrete inputs *)

Definition ex_ids : list (string * Z) := [("a", 3%Z); ("c", 1%Z); ("d", 2%Z)].

Lemma binary_search_is_linear_search_witness :
  by_id fst ex_ids /\ binarySearchIndex fst ex_ids "c" = (true, 1) /\ "c" ∈ fst <$> ex_ids /\
  search_loop fst 5 ex_ids "c" 0 3 = (bool_decide ("c" ∈ fst <$> ex_ids), length (filter (fun x => slt (fst x) "c" = true) ex_ids)) /\
  exists x, ex_ids !! 1 = Some x /\ fst x = "c".
Proof.
  assert (by_id fst ex_ids) as H by (repeat constructor).
  assert ("c" ∈ fst <$> ex_ids) as Hc by (right; left).
  destruct (binary_search_is_linear_search (fst : string * Z -> string) ex_ids "c" 5 H ltac:(cbn; lia)) as [E1 E2].
  split; [exact H|]. split; [reflexivity|]. split; [exact Hc|]. split; [exact E1|exact (E2 Hc)].
Defined.

Lemma id_lists_are_maps_witness :
  by_id fst ex_ids /\ upsertById fst ex_ids ("b", 9%Z) = ([("a", 3%Z); ("b", 9%Z); ("c", 1%Z); ("d", 2%Z)], true) /\
  by_id fst (upsertById fst ex_ids ("b", 9%Z)).1 /\ by_id fst (removeById fst ex_ids "d").1.
Proof.
  assert (by_id fst ex_ids) as H by (repeat constructor).
  pose proof (id_lists_are_maps (fst : string * Z -> string) ex_ids ("b", 9%Z) "d" H) as [[H1 _] [H2 _]].
  split; [exact H|]. split; [reflexivity|]. split; [exact H1|exact H2].
Defined.

Lemma chronological_insert_is_a_sort_witness :
  sorted (chronological fst snd) [("c", 1%Z); ("d", 2%Z); ("a", 3%Z)] /\
  insertMessageChronological fst snd [("c", 1%Z); ("d", 2%Z); ("a", 3%Z)] ("b", 2%Z)
    = sortMessagesChronological fst snd [("c", 1%Z); ("d", 2%Z); ("a", 3%Z); ("b", 2%Z)].
Proof.
  assert (sorted (chronological fst snd) [("c", 1%Z); ("d", 2%Z); ("a", 3%Z)]) as H by (repeat constructor).
  pose proof (chronological_insert_is_a_sort fst snd _ ("b", 2%Z) H) as [H1 _]. split; [exact H|exact H1].
Defined.
