(* ===== verification/SyncPipeline.v ===== *)
(** The event pipeline of the UI sync engine (ui/src/sync/event-pipeline.ts,
    pipeline-attempts.ts): the loop of connection rounds with its transport choice,
    back-off and heartbeat, the two transport attempts, and the replay cursor. The
    queues are those of SyncQueues.

    A step is one callback of the event loop: a socket event, a piece of the stream, a
    timer, a promise that settles, a window event or a call of the interface. What
    follows a settled promise without waiting belongs to the step. JSON parsing is a
    call ([None] when it throws), and the state keeps a log of what it does. *)

From S2P Require Import Prelude JsString JsMap JsValue SyncQueues.

Local Open Scope Z_scope.

Definition BACKPRESSURE_MODE_MS : Z := 10000.
Definition DEFAULT_HEARTBEAT_TIMEOUT_MS : Z := 30000.
Definition WS_FALLBACK_WINDOW_MS : Z := 60000.
Definition MAX_SSE_FRAME_CHARS : Z := 16 * 1024 * 1024.

(** ** Frames *)

Definition truthy (v : option json) : bool :=
  match v with
  | None | Some JNull => false
  | Some (JBool b) => b
  | Some (JNum n) => negb (bool_decide (num_int n = Some 0))
  | Some (JStr s) => negb (bool_decide (s = ""))
  | Some _ => true
  end.

Definition is_object (v : option json) : bool := match v with Some (JArr _) | Some (JObj _) => true | _ => false end.

Definition is_record (v : option json) : bool := match v with Some (JObj _) => true | _ => false end.

Definition string_of (v : option json) : option string := match v with Some (JStr s) => Some s | _ => None end.

(** A present, non-empty string. *)
Definition is_named (v : option json) : bool := match v with Some (JStr s) => negb (bool_decide (s = "")) | _ => false end.

Section frames.
  Context (text_of : json -> string) (JSON_parse : string -> option json).

Definition event_of (directory_of payload : json) (type : string) : HarnessEvent :=
  mkEvent (string_of (jfield "id" payload)) type (Some (or_empty (jfield "properties" payload))) (string_of (jfield "directory" directory_of)).

Definition unwrapEventFrame (raw : json) : option HarnessEvent :=
  match jfield "payload" raw with
  | Some payload =>
    if is_object (Some payload) then Some (event_of raw payload (text_or_empty text_of (jfield "type" payload)))
    else match jfield "type" raw with Some (JStr t) => Some (event_of raw raw t) | _ => None end
  | None => match jfield "type" raw with Some (JStr t) => Some (event_of raw raw t) | _ => None end
  end.

Definition validEvent (e : HarnessEvent) : bool :=
  negb (bool_decide (type e = "")) && negb (bool_decide (ev_id e = Some "")) &&
  (is_undefined (properties e) || is_record (properties e)).

Definition validRawEvent (raw : json) : bool :=
  is_record (Some raw) &&
  let value := default raw (jfield "payload" raw) in
  is_record (Some value) && is_named (jfield "type" value) &&
  (is_undefined (jfield "id" value) || is_named (jfield "id" value)) &&
  (is_undefined (jfield "properties" value) || is_record (jfield "properties" value)) &&
  (is_undefined (jfield "directory" raw) || is_string (jfield "directory" raw)).

Definition fold_type (e : HarnessEvent) : HarnessEvent :=
  mkEvent (ev_id e) (foldEventType (type e)) (properties e) (directory e).

(** The event [createDeliver] pushes, if it pushes one: [None] is an invalid frame,
    [Some None] a heartbeat. *)
Definition deliverable (raw : json) (hint : option json) : option (option HarnessEvent) :=
  match unwrapEventFrame raw with
  | Some unwrapped =>
    if validEvent unwrapped then
      let e := fold_type unwrapped in
      let e := match hint, directory e with
               | Some h, None => if truthy hint then mkEvent (ev_id e) (type e) (properties e) (Some (toString text_of h)) else e
               | _, _ => e
               end in
      Some (if isHeartbeatType (type e) then None else Some e)
    else None
  | None => None
  end.

(** *** The stream of server-sent events *)

Inductive ParsedSse := SseEmpty | SseInvalid | SseEvent (raw : json) (event : HarnessEvent).

(** [/\r?\n/] as a separator of lines. *)
Definition drop_return (line : string) : string :=
  match last_index_of "013" line with
  | Some i => if bool_decide (S i = String.length line) then stake i line else line
  | None => line
  end.

Fixpoint split_lines (pieces : list string) : list string :=
  match pieces with
  | [] => []
  | [last] => [last]
  | piece :: pieces => drop_return piece :: split_lines pieces
  end.

(** The fields of a frame: its data lines and its id, [None] when the id is given
    twice or empty. *)
Fixpoint sse_fields (lines : list string) (data : list string) (idLine : option string) : option (list string * option string) :=
  match lines with
  | [] => Some (data, idLine)
  | line :: lines =>
    if starts_with ":" line then sse_fields lines data idLine
    else if starts_with "data:" line then sse_fields lines (data ++ [trimStart (sdrop 5 line)]) idLine
    else if starts_with "id:" line then
      match idLine with
      | Some _ => None
      | None => let i := trim (sdrop 3 line) in if bool_decide (i = "") then None else sse_fields lines data (Some i)
      end
    else sse_fields lines data idLine
  end.

Definition newline : string := String "010" "".

Definition parseSseFrame (frame : string) : ParsedSse :=
  match sse_fields (split_lines (split_on "010" frame)) [] None with
  | None => SseInvalid
  | Some ([], _) => SseEmpty
  | Some (data, idLine) =>
    match JSON_parse (String.concat newline data) with
    | None => SseInvalid
    | Some raw =>
      if validRawEvent raw then
        match unwrapEventFrame raw with
        | Some event =>
          if negb (validEvent event) || negb (bool_decide (idLine = None)) && negb (bool_decide (ev_id event = idLine)) then SseInvalid
          else SseEvent raw (fold_type event)
        | None => SseInvalid
        end
      else SseInvalid
    end
  end.

Inductive ReplayStatus := fresh | complete | gap.

#[export] Instance ReplayStatus_eq_dec : EqDecision ReplayStatus.
Proof. solve_decision. Defined.

Definition opener_field (e : HarnessEvent) : option json := jfield "replayStatus" (props_of e).

Definition openerStatus (e : HarnessEvent) (hadCursor : bool) : ReplayStatus :=
  if is_str (opener_field e) "gap" then gap
  else if is_str (opener_field e) "fresh" && negb hadCursor then fresh
  else if is_str (opener_field e) "complete" && hadCursor then complete
  else gap.

(** [/\r?\n\r?\n/]: the length of a match at the head of a text. *)
Definition boundary_here (s : string) : option nat :=
  match s with
  | String "010" (String "010" _) => Some 2%nat
  | String "010" (String "013" (String "010" _)) => Some 3%nat
  | String "013" (String "010" (String "010" _)) => Some 3%nat
  | String "013" (String "010" (String "013" (String "010" _))) => Some 4%nat
  | _ => None
  end.

(** The first match: the text before it and the text after it. *)
Fixpoint boundary (s : string) : option (string * string) :=
  match boundary_here s with
  | Some n => Some ("", sdrop n s)
  | None =>
    match s with
    | EmptyString => None
    | String a s' => match boundary s' with Some (before, after) => Some (String a before, after) | None => None end
    end
  end.

(** *** Frames of the socket *)

Definition frame_kind (frame : json) : string := text_or_empty text_of (jfield "type" frame).

(** [{ ...payload, id: eventId }] *)
Definition with_event_id (payload : json) (eventId : option json) : json :=
  let fields := match payload with JObj f => f | _ => [] end in
  JObj (match eventId with Some v => jset "id" v fields | None => jdel "id" fields end).

Definition ws_event (frame : json) : json :=
  let payload := ("payload", with_event_id (or_empty (jfield "payload" frame)) (jfield "eventId" frame)) in
  JObj (match jfield "directory" frame with Some d => [("directory", d); payload] | None => [payload] end).

End frames.

(** ** The supervisor *)

Inductive Transport := WS | SSE.

#[export] Instance Transport_eq_dec : EqDecision Transport.
Proof. solve_decision. Defined.

Inductive TransportChoice := AutoTransport | OnlyWs | OnlySse.

#[export] Instance TransportChoice_eq_dec : EqDecision TransportChoice.
Proof. solve_decision. Defined.

(** Why a signal was aborted: the heartbeat timer leaves its mark in the reason. *)
Inductive AbortReason := HeartbeatTimeout | PlainAbort.

#[export] Instance AbortReason_eq_dec : EqDecision AbortReason.
Proof. solve_decision. Defined.

(** The socket of an attempt; [closing] is set once [close()] was called, after which
    a WebSocket reports no message. *)
Record WsState := mkWs { readySeen : bool; establishing : bool; pending : list json; settled : bool; openedAt : Z; closing : bool }.

Definition newWs : WsState := mkWs false false [] false 0 false.

(** What the loop waits for. *)
Inductive Phase :=
| Authorizing
| OnSocket (w : WsState)
| Fetching (hadCursor : bool)
| Opening (buffer : string) (hadCursor : bool)
| Recovering (raw : json) (rest : string)
| Live (buffer : string)
| Waiting (due : Z)
| Ended.

(** What the page and the clock say at a step. *)
Record Env := { now : Z; visible : bool; online : bool; recentBoot : bool; webSocket : bool }.

Inductive Effect :=
| Started (r : nat) (t : Transport) (cursor : option string)
| Connected (r : nat) (t : Transport) (replayReset skipResync explicitGap boot : bool)
| RecoveryDone (r : nat)
| Adopted (r : nat)
| Pushed (r : nat) (e : HarnessEvent)
| Delivered (d : string) (es : list HarnessEvent)
| Disconnected (reason : string) (delay : Z)
| Switched (reason : string)
| Waited
| Poked
| Closing (r : nat).

Record PipelineState := mkPipe {
  choice : TransportChoice; queues : PipelineQueues; stopped : bool; lastEventId : option string; failures : Z;
  firstConnect : bool; disconnectedBeforeFirstConnect : bool; lastActivityAt : Z; attemptStartedAt : Z;
  wsFallbackUntil : Z; everConnected : bool; intentionalAbort : bool;
  round : nat; signals : gmap nat AbortReason; recovering : list nat; phase : Phase; log : list Effect }.

(** Assignments. *)
Definition set_queues q s := mkPipe (choice s) q (stopped s) (lastEventId s) (failures s) (firstConnect s) (disconnectedBeforeFirstConnect s) (lastActivityAt s) (attemptStartedAt s) (wsFallbackUntil s) (everConnected s) (intentionalAbort s) (round s) (signals s) (recovering s) (phase s) (log s).
Definition set_cursor c s := mkPipe (choice s) (queues s) (stopped s) c (failures s) (firstConnect s) (disconnectedBeforeFirstConnect s) (lastActivityAt s) (attemptStartedAt s) (wsFallbackUntil s) (everConnected s) (intentionalAbort s) (round s) (signals s) (recovering s) (phase s) (log s).
Definition set_failures n s := mkPipe (choice s) (queues s) (stopped s) (lastEventId s) n (firstConnect s) (disconnectedBeforeFirstConnect s) (lastActivityAt s) (attemptStartedAt s) (wsFallbackUntil s) (everConnected s) (intentionalAbort s) (round s) (signals s) (recovering s) (phase s) (log s).
Definition set_connected s := mkPipe (choice s) (queues s) (stopped s) (lastEventId s) (failures s) false (disconnectedBeforeFirstConnect s) (lastActivityAt s) (attemptStartedAt s) (wsFallbackUntil s) true (intentionalAbort s) (round s) (signals s) (recovering s) (phase s) (log s).
Definition set_before b s := mkPipe (choice s) (queues s) (stopped s) (lastEventId s) (failures s) (firstConnect s) b (lastActivityAt s) (attemptStartedAt s) (wsFallbackUntil s) (everConnected s) (intentionalAbort s) (round s) (signals s) (recovering s) (phase s) (log s).
Definition set_activity t s := mkPipe (choice s) (queues s) (stopped s) (lastEventId s) (failures s) (firstConnect s) (disconnectedBeforeFirstConnect s) t (attemptStartedAt s) (wsFallbackUntil s) (everConnected s) (intentionalAbort s) (round s) (signals s) (recovering s) (phase s) (log s).
Definition set_started t s := mkPipe (choice s) (queues s) (stopped s) (lastEventId s) (failures s) (firstConnect s) (disconnectedBeforeFirstConnect s) (lastActivityAt s) t (wsFallbackUntil s) (everConnected s) (intentionalAbort s) (S (round s)) (signals s) (recovering s) (phase s) (log s).
Definition set_fallback t s := mkPipe (choice s) (queues s) (stopped s) (lastEventId s) (failures s) (firstConnect s) (disconnectedBeforeFirstConnect s) (lastActivityAt s) (attemptStartedAt s) t (everConnected s) (intentionalAbort s) (round s) (signals s) (recovering s) (phase s) (log s).
Definition set_intent b s := mkPipe (choice s) (queues s) (stopped s) (lastEventId s) (failures s) (firstConnect s) (disconnectedBeforeFirstConnect s) (lastActivityAt s) (attemptStartedAt s) (wsFallbackUntil s) (everConnected s) b (round s) (signals s) (recovering s) (phase s) (log s).
Definition set_stopped s := mkPipe (choice s) (queues s) true (lastEventId s) (failures s) (firstConnect s) (disconnectedBeforeFirstConnect s) (lastActivityAt s) (attemptStartedAt s) (wsFallbackUntil s) (everConnected s) (intentionalAbort s) (round s) (signals s) (recovering s) (phase s) (log s).
Definition set_signals m s := mkPipe (choice s) (queues s) (stopped s) (lastEventId s) (failures s) (firstConnect s) (disconnectedBeforeFirstConnect s) (lastActivityAt s) (attemptStartedAt s) (wsFallbackUntil s) (everConnected s) (intentionalAbort s) (round s) m (recovering s) (phase s) (log s).
Definition set_recovering rs s := mkPipe (choice s) (queues s) (stopped s) (lastEventId s) (failures s) (firstConnect s) (disconnectedBeforeFirstConnect s) (lastActivityAt s) (attemptStartedAt s) (wsFallbackUntil s) (everConnected s) (intentionalAbort s) (round s) (signals s) rs (phase s) (log s).
Definition set_phase p s := mkPipe (choice s) (queues s) (stopped s) (lastEventId s) (failures s) (firstConnect s) (disconnectedBeforeFirstConnect s) (lastActivityAt s) (attemptStartedAt s) (wsFallbackUntil s) (everConnected s) (intentionalAbort s) (round s) (signals s) (recovering s) p (log s).
Definition note x s := mkPipe (choice s) (queues s) (stopped s) (lastEventId s) (failures s) (firstConnect s) (disconnectedBeforeFirstConnect s) (lastActivityAt s) (attemptStartedAt s) (wsFallbackUntil s) (everConnected s) (intentionalAbort s) (round s) (signals s) (recovering s) (phase s) (log s ++ [x]).

Definition aborted (r : nat) (s : PipelineState) : bool := bool_decide (is_Some (signals s !! r)).

(** [pipeHeartbeatedOut] for the signal of the current round. *)
Definition pipeHeartbeatedOut (s : PipelineState) : bool := bool_decide (signals s !! round s = Some HeartbeatTimeout).

(** [socket.close()] *)
Definition close_socket (w : WsState) : WsState := mkWs (readySeen w) (establishing w) (pending w) (settled w) (openedAt w) true.

Definition closeSocket (s : PipelineState) : PipelineState :=
  match phase s with OnSocket w => set_phase (OnSocket (close_socket w)) (note (Closing (round s)) s) | _ => s end.

(** [state.currentAbort.abort(reason)]: the first reason stays, and the listener of a
    socket attempt closes the socket. *)
Definition abort (reason : AbortReason) (s : PipelineState) : PipelineState :=
  match signals s !! round s with
  | Some _ => s
  | None => closeSocket (set_signals (<[round s := reason]> (signals s)) s)
  end.

Section machine.
  Context (text_of : json -> string) (JSON_parse : string -> option json).

Definition replayCursorAfterFlush (current : option string) (events : list HarnessEvent) : option string :=
  fold_left (fun cursor e => match ev_id e with Some i => if is_type e "server.connected" then cursor else Some i | None => cursor end) events current.

Definition noteActivity (env : Env) (s : PipelineState) : PipelineState := set_activity (now env) s.

(** [createDeliver(ctx)] *)
Definition deliver (raw : json) (hint : option json) (env : Env) (s : PipelineState) : PipelineState :=
  match deliverable text_of raw hint with
  | None => s
  | Some o =>
    let s := noteActivity env s in
    match o with
    | None => s
    | Some e =>
      let s := note (Pushed (round s) e) (set_queues (push text_of (queues s) e (now env)) s) in
      match ev_id e with
      | Some i => if bool_decide (i = "") || is_type e "server.connected" then s else set_cursor (Some i) s
      | None => s
      end
    end
  end.

Definition resetSseCursor (s : PipelineState) : PipelineState := set_cursor None (set_queues (clear (queues s)) s).

Definition pipeResolveTransport (env : Env) (s : PipelineState) : Transport :=
  if webSocket env then
    match choice s with
    | OnlyWs => WS
    | OnlySse => SSE
    | AutoTransport => if bool_decide (now env < wsFallbackUntil s) then SSE else WS
    end
  else SSE.

(** The head of a round, up to its first wait: the address of a socket names the
    cursor before the token is asked for, and so do the headers of the fetch. *)
Definition startRound (env : Env) (s : PipelineState) : PipelineState :=
  let s := set_started (now env) s in
  match pipeResolveTransport env s with
  | WS => set_phase Authorizing (note (Started (round s) WS (lastEventId s)) s)
  | SSE => set_phase (Fetching (negb (bool_decide (lastEventId s = None)))) (note (Started (round s) SSE (lastEventId s)) s)
  end.

(** [while (!state.stopped)] *)
Definition nextRound (env : Env) (s : PipelineState) : PipelineState :=
  if stopped s then set_phase Ended s else startRound env s.

Definition shouldSkipConnectedResync (first before replayReset : bool) (t : Transport) (boot : bool) : bool :=
  if replayReset then false
  else if first && negb before then true
  else bool_decide (t = WS) && boot.

(** [pipeOnEstablished] up to its wait for [onConnected]. *)
Definition pipeOnEstablished (replayReset explicitGap : bool) (t : Transport) (env : Env) (s : PipelineState) : PipelineState :=
  let s := noteActivity env (set_failures 0 s) in
  let skip := shouldSkipConnectedResync (firstConnect s) (disconnectedBeforeFirstConnect s) replayReset t (recentBoot env) in
  set_recovering (round s :: recovering s) (note (Connected (round s) t replayReset skip explicitGap (recentBoot env)) s).

(** The rest of it, for the round it was called for. *)
Definition adopt (r : nat) (s : PipelineState) : PipelineState :=
  let s := note (RecoveryDone r) s in
  if stopped s || aborted r s then s else note (Adopted r) (set_connected s).

(** ** The end of an attempt *)

(** [onDisconnected] and the wait for the next round. *)
Definition disconnect (reason : string) (permanent : bool) (env : Env) (s : PipelineState) : PipelineState :=
  let s := set_failures (failures s + 1) s in
  let s := if everConnected s then s else set_before true s in
  let delay := computeRetryDelay (failures s) (visible env) (online env) permanent in
  set_phase (Waiting (now env + delay)) (note (Disconnected reason delay) s).

Definition prefixed (t : Transport) (reason : string) : string := (match t with WS => "ws" | SSE => "sse" end) +:+ "_" +:+ reason.

(** The round resolved. *)
Definition roundResolved (t : Transport) (env : Env) (s : PipelineState) : PipelineState :=
  if pipeHeartbeatedOut s then disconnect (prefixed t "heartbeat_timeout") false env s
  else if aborted (round s) s then nextRound env s
  else disconnect (prefixed t "closed") false env s.

(** The round threw [error]. *)
Definition roundThrew (t : Transport) (error : string) (permanent : bool) (env : Env) (s : PipelineState) : PipelineState :=
  if stopped s then set_phase Ended s
  else if pipeHeartbeatedOut s then disconnect (prefixed t "heartbeat_timeout") false env s
  else if aborted (round s) s then nextRound env (if intentionalAbort s then set_intent false s else s)
  else disconnect error permanent env s.

(** The catch of [pipeTryWsRound]. *)
Definition wsThrew (error : string) (env : Env) (s : PipelineState) : PipelineState :=
  match choice s with
  | AutoTransport => nextRound env (note (Switched ("ws_fallback:" +:+ error)) (set_fallback (now env + WS_FALLBACK_WINDOW_MS) s))
  | _ => roundThrew WS error false env s
  end.

(** ** The socket attempt *)

(** The token arrived; the constructor of the socket may throw. *)
Definition authResolved (constructorError : option string) (env : Env) (s : PipelineState) : PipelineState :=
  if aborted (round s) s then roundThrew WS "Error: ws_interrupted_before_connect" false env s
  else match constructorError with Some error => wsThrew error env s | None => set_phase (OnSocket newWs) s end.

Definition processReadyWsFrame (frame : json) (env : Env) (s : PipelineState) : PipelineState :=
  let kind := frame_kind text_of frame in
  if bool_decide (kind = "backpressure") then set_queues (mkQueues (dirs (queues s)) (now env + BACKPRESSURE_MODE_MS)) s
  else if bool_decide (kind = "error") then closeSocket s
  else if bool_decide (kind = "event") then deliver (ws_event frame) (jfield "directory" frame) env s
  else s.

Definition wsReady (frame : json) (w : WsState) (env : Env) (s : PipelineState) : PipelineState :=
  let explicitGap := is_str (jfield "replayStatus" frame) "gap" in
  let replayReset := is_true (jfield "replayReset" frame) || explicitGap in
  let s := if replayReset then set_cursor None s else s in
  if settled w then s
  else pipeOnEstablished replayReset explicitGap WS env
         (set_phase (OnSocket (mkWs (readySeen w) true (pending w) true (openedAt w) (closing w))) s).

Definition handleWsMessage (data : string) (w : WsState) (env : Env) (s : PipelineState) : PipelineState :=
  match JSON_parse data with
  | None => s
  | Some JNull => noteActivity env s
  | Some frame =>
    let s := noteActivity env s in
    let kind := frame_kind text_of frame in
    if bool_decide (kind = "ready") then wsReady frame w env s
    else if bool_decide (kind = "heartbeat") then s
    else if establishing w then
      if bool_decide (2048 <= length (pending w))%nat then closeSocket s
      else set_phase (OnSocket (mkWs (readySeen w) true (pending w ++ [frame]) (settled w) (openedAt w) (closing w))) s
    else if readySeen w then processReadyWsFrame frame env s
    else s
  end.

(** The recovery of this socket is over: what arrived meanwhile is delivered. *)
Definition wsRecovered (w : WsState) (env : Env) (s : PipelineState) : PipelineState :=
  fold_left (fun s frame => processReadyWsFrame frame env s) (pending w)
    (set_phase (OnSocket (mkWs true false [] (settled w) (openedAt w) (closing w))) s).

Definition settleClose (w : WsState) (env : Env) (s : PipelineState) : PipelineState :=
  if negb (readySeen w) then wsThrew "Error: ws_closed_before_ready" env s
  else if negb (bool_decide (openedAt w = 0)) && bool_decide (now env - openedAt w < 2000) then wsThrew "Error: ws_closed_quickly" env s
  else roundResolved WS env s.

(** ** The stream attempt *)

(** What the inner loop of [readSseStream] comes to. *)
Inductive Drained :=
| Drain (rest : string)
| Recovery (event : HarnessEvent) (raw : json) (rest : string)
| Broken (reason : string).

(** Events of a stream whose opener was found. *)
Fixpoint drainLive (fuel : nat) (buffer : string) (env : Env) (s : PipelineState) : PipelineState * Drained :=
  match fuel with
  | O => (s, Drain buffer)
  | S fuel =>
    match boundary buffer with
    | None => (s, Drain buffer)
    | Some (frame, rest) =>
      if bool_decide (MAX_SSE_FRAME_CHARS < slen frame) then (s, Broken "Error: sse_frame_too_large")
      else
        match parseSseFrame text_of JSON_parse frame with
        | SseEvent raw _ => drainLive fuel rest env (deliver raw None env s)
        | SseInvalid => (resetSseCursor s, Broken "Error: sse_invalid_frame")
        | SseEmpty => drainLive fuel rest env s
        end
    end
  end.

(** Events of a stream that has still to open. *)
Fixpoint drainOpening (fuel : nat) (buffer : string) (s : PipelineState) : PipelineState * Drained :=
  match fuel with
  | O => (s, Drain buffer)
  | S fuel =>
    match boundary buffer with
    | None => (s, Drain buffer)
    | Some (frame, rest) =>
      if bool_decide (MAX_SSE_FRAME_CHARS < slen frame) then (s, Broken "Error: sse_frame_too_large")
      else
        match parseSseFrame text_of JSON_parse frame with
        | SseInvalid => (set_cursor None s, Broken "Error: sse_invalid_opener")
        | SseEvent raw event =>
          if is_type event "server.connected" then (s, Recovery event raw rest)
          else (set_cursor None s, Broken "Error: sse_missing_opener")
        | SseEmpty => drainOpening fuel rest s
        end
    end
  end.

(** The [finally] of [readSseStream] for a stream that was not established. *)
Definition unopened (s : PipelineState) : PipelineState := if aborted (round s) s then s else resetSseCursor s.

(** After the inner loop: a frame that grows too large, an abort, or the next read. *)
Definition afterDrain (rest : string) (continue : Phase) (opened : bool) (env : Env) (s : PipelineState) : PipelineState :=
  let leave s := if opened then s else unopened s in
  if bool_decide (MAX_SSE_FRAME_CHARS < slen rest) then roundThrew SSE "Error: sse_frame_too_large" false env (leave s)
  else if aborted (round s) s then roundResolved SSE env (leave s)
  else set_phase continue s.

Definition drainedLive (buffer : string) (env : Env) (s : PipelineState) : PipelineState :=
  match drainLive (S (String.length buffer)) buffer env s with
  | (s, Drain rest) => afterDrain rest (Live rest) true env s
  | (s, Recovery _ _ _) => s
  | (s, Broken reason) => roundThrew SSE reason false env s
  end.

Definition drainedOpening (buffer : string) (hadCursor : bool) (env : Env) (s : PipelineState) : PipelineState :=
  match drainOpening (S (String.length buffer)) buffer s with
  | (s, Drain rest) => afterDrain rest (Opening rest hadCursor) false env s
  | (s, Recovery event raw rest) =>
    let replayReset := bool_decide (openerStatus event hadCursor = gap) in
    let s := if replayReset then resetSseCursor s else s in
    pipeOnEstablished replayReset (is_str (opener_field event) "gap") SSE env (set_phase (Recovering raw rest) s)
  | (s, Broken reason) => roundThrew SSE reason false env (unopened s)
  end.

(** The recovery of this stream is over: the opener itself is delivered, then what
    followed it in the buffer. *)
Definition sseRecovered (raw : json) (rest : string) (env : Env) (s : PipelineState) : PipelineState :=
  if aborted (round s) s then roundResolved SSE env s
  else drainedLive rest env (deliver raw None env s).

(** [result.status] of a refused fetch. *)
Definition sseRefused (status : Z) (env : Env) (s : PipelineState) : PipelineState :=
  if aborted (round s) s then roundResolved SSE env s
  else roundThrew SSE ("Error: sse_http_" +:+ pretty status) (isPermanent4xx (Some status)) env s.

(** ** The event loop *)

Inductive Event :=
| AuthResolved (constructorError : option string)
| AuthFailed (error : string)
| SocketOpen
| SocketMessage (data : string)
| SocketError
| SocketClose
| ReadyTimeout
| FetchRefused (status : Z)
| FetchOpened (body : bool)
| FetchFailed (error : string)
| StreamText (text : string)
| StreamDone
| StreamFailed (error : string)
| OpenerDeadline
| Recovered (r : nat)
| RecoveryFailed (r : nat) (error : string)
| RetryTimer
| FlushTimer (d : string)
| HeartbeatTick
| WindowEvent
| VisibilityChange
| Cleanup
| Reconnect
| NoteStreamActivity (at_ : option Z).

Definition heartbeatExpired (lastActivityAt attemptStartedAt now : Z) : bool :=
  let activity := Z.max lastActivityAt attemptStartedAt in
  negb (bool_decide (activity = 0)) && bool_decide (DEFAULT_HEARTBEAT_TIMEOUT_MS < now - activity).

(** [state.pendingRetryResolve?.()], with the round that follows. *)
Definition resume (env : Env) (s : PipelineState) : PipelineState :=
  match phase s with Waiting _ => nextRound env s | _ => s end.

(** The loop goes on after the handler has returned. *)
Definition pipeInterrupt (env : Env) (s : PipelineState) : PipelineState := resume env (abort PlainAbort (note Poked s)).

Definition cleanup (env : Env) (s : PipelineState) : PipelineState :=
  let s := set_intent true (set_stopped s) in
  pipeInterrupt env (set_queues (clear (queues s)) s).

Definition reconnect (env : Env) (s : PipelineState) : PipelineState := pipeInterrupt env (set_intent true (set_failures 0 s)).

Definition flushTimer (d : string) (env : Env) (s : PipelineState) : PipelineState :=
  let '(q, out) := SyncQueues.step text_of (queues s) (OpTimer d) (now env) in
  fold_left (fun s batch => note (Delivered batch.1 batch.2) (set_cursor (replayCursorAfterFlush (lastEventId s) batch.2) s)) out (set_queues q s).

Definition forget (r : nat) (s : PipelineState) : PipelineState := set_recovering (filter (fun x => x <> r) (recovering s)) s.

Definition recovered (r : nat) (env : Env) (s : PipelineState) : PipelineState :=
  let s := adopt r (forget r s) in
  if bool_decide (r = round s) then
    match phase s with
    | OnSocket w => if establishing w then wsRecovered w env s else s
    | Recovering raw rest => sseRecovered raw rest env s
    | _ => s
    end
  else s.

Definition recoveryFailed (r : nat) (error : string) (env : Env) (s : PipelineState) : PipelineState :=
  let s := forget r s in
  if bool_decide (r = round s) then
    match phase s with
    | OnSocket w => if establishing w then wsThrew error env (closeSocket s) else s
    | Recovering _ _ => roundThrew SSE error false env (unopened s)
    | _ => s
    end
  else s.

Definition onSocket (w : WsState) (ev : Event) (env : Env) (s : PipelineState) : PipelineState :=
  match ev with
  | SocketOpen => set_phase (OnSocket (mkWs (readySeen w) (establishing w) (pending w) (settled w) (now env) (closing w))) s
  | SocketMessage data => if closing w then s else handleWsMessage data w env s
  | SocketError => if readySeen w || settled w then s else wsThrew "Error: ws_error" env s
  | SocketClose => settleClose w env s
  | ReadyTimeout => if settled w then s else wsThrew "Error: ws_ready_timeout" env (closeSocket s)
  | _ => s
  end.

Definition onFetch (hadCursor : bool) (ev : Event) (env : Env) (s : PipelineState) : PipelineState :=
  match ev with
  | FetchRefused status => sseRefused status env s
  | FetchOpened true => set_phase (Opening "" hadCursor) s
  | FetchOpened false => roundResolved SSE env s
  | FetchFailed error => roundThrew SSE error false env s
  | _ => s
  end.

Definition onOpening (buffer : string) (hadCursor : bool) (ev : Event) (env : Env) (s : PipelineState) : PipelineState :=
  match ev with
  | StreamText text => drainedOpening (buffer +:+ text) hadCursor env (noteActivity env s)
  | StreamDone => roundThrew SSE "Error: sse_missing_opener" false env (unopened s)
  | StreamFailed error => roundThrew SSE error false env (unopened s)
  | OpenerDeadline => roundThrew SSE "Error: sse_opener_timeout" false env (unopened s)
  | _ => s
  end.

Definition onLive (buffer : string) (ev : Event) (env : Env) (s : PipelineState) : PipelineState :=
  match ev with
  | StreamText text => drainedLive (buffer +:+ text) env (noteActivity env s)
  | StreamDone => roundResolved SSE env s
  | StreamFailed error => roundThrew SSE error false env s
  | _ => s
  end.

(** What the attempt of the current round makes of an event. *)
Definition attempt (ev : Event) (env : Env) (s : PipelineState) : PipelineState :=
  match phase s with
  | Authorizing =>
    match ev with
    | AuthResolved constructorError => authResolved constructorError env s
    | AuthFailed error => roundThrew WS error false env s
    | _ => s
    end
  | OnSocket w => onSocket w ev env s
  | Fetching hadCursor => onFetch hadCursor ev env s
  | Opening buffer hadCursor => onOpening buffer hadCursor ev env s
  | Live buffer => onLive buffer ev env s
  | Waiting due =>
    match ev with
    | RetryTimer => if bool_decide (due <= now env) then nextRound env (note Waited s) else s
    | _ => s
    end
  | _ => s
  end.

(** [cleanup] removes the listeners and the heartbeat timer. *)
Definition pipe_step (ev : Event) (env : Env) (s : PipelineState) : PipelineState :=
  match ev with
  | Recovered r => if bool_decide (r ∈ recovering s) then recovered r env s else s
  | RecoveryFailed r error => if bool_decide (r ∈ recovering s) then recoveryFailed r error env s else s
  | FlushTimer d => flushTimer d env s
  | HeartbeatTick =>
    if negb (stopped s) && heartbeatExpired (lastActivityAt s) (attemptStartedAt s) (now env) then abort HeartbeatTimeout s else s
  | WindowEvent => if stopped s then s else pipeInterrupt env s
  | VisibilityChange => if negb (stopped s) && visible env then resume env (note Poked s) else s
  | Cleanup => cleanup env s
  | Reconnect => reconnect env s
  | NoteStreamActivity t => set_activity (default (now env) t) s
  | _ => attempt ev env s
  end.

Definition createEventPipeline (c : TransportChoice) (env : Env) : PipelineState :=
  startRound env (mkPipe c newQueues false None 0 true false 0 0 0 false false 0 ∅ [] Ended []).

Definition pipe_run (evs : list (Event * Env)) (s : PipelineState) : PipelineState :=
  fold_left (fun s ev => pipe_step ev.1 ev.2 s) evs s.

End machine.

(** ** What the log of a pipeline may hold *)

(** The connection has been lost, or a recovery was taken over. *)
Definition breaks (x : Effect) : bool := match x with Disconnected _ _ | Adopted _ => true | _ => false end.

Definition allowed (before : list Effect) (x : Effect) : Prop :=
  match x with
  | Pushed r _ => RecoveryDone r ∈ before
  | Connected _ t replayReset true _ boot => replayReset = false /\ (t = WS /\ boot = true \/ existsb breaks before = false)
  | _ => True
  end.

Definition lawful (l : list Effect) : Prop := forall l1 x l2, l = l1 ++ x :: l2 -> allowed l1 x.

Lemma lawful_snoc l x : lawful l -> allowed l x -> lawful (l ++ [x]).
Proof.
  intros H Hx l1 y l2 E. destruct l2 as [|z l2 _] using rev_ind.
  - apply app_inj_tail in E as [-> ->]. done.
  - rewrite app_comm_cons, app_assoc in E. apply app_inj_tail in E as [E _]. by apply (H l1 y l2).
Qed.

Definition count (f : Effect -> bool) (l : list Effect) : Z := Z.of_nat (length (List.filter f l)).

Lemma count_app f l k : count f (l ++ k) = count f l + count f k.
Proof. unfold count. rewrite List.filter_app, length_app. lia. Qed.

Lemma count_nonneg f l : 0 <= count f l.
Proof. unfold count. lia. Qed.

Lemma count_none f l : Forall (fun x => f x = false) l -> count f l = 0.
Proof. unfold count. induction 1 as [|x l E _ IH]; [done|]. cbn. by rewrite E. Qed.

Definition is_started (x : Effect) : bool := match x with Started _ _ _ => true | _ => false end.
Definition is_waited (x : Effect) : bool := match x with Waited => true | _ => false end.
Definition is_switched (x : Effect) : bool := match x with Switched _ => true | _ => false end.
Definition is_poked (x : Effect) : bool := match x with Poked => true | _ => false end.

Definition starts (s : PipelineState) : Z := count is_started (log s).
Definition waits (s : PipelineState) : Z := count is_waited (log s).
Definition switches (s : PipelineState) : Z := count is_switched (log s).
Definition pokes (s : PipelineState) : Z := count is_poked (log s).

(** ** The invariant of a pipeline *)

Definition attempting (p : Phase) : bool := match p with Waiting _ | Ended => false | _ => true end.
Definition on_ws (p : Phase) : bool := match p with Authorizing | OnSocket _ => true | _ => false end.
Definition opened (p : Phase) : bool := match p with OnSocket w => readySeen w | Live _ => true | _ => false end.

(** The round may be followed by another one without a wait: it was aborted by a poke. *)
Definition credit (s : PipelineState) : Z :=
  if attempting (phase s) && bool_decide (signals s !! round s = Some PlainAbort) then 1 else 0.

(** [t0] is the time of the start, if the clock never goes back. *)
Record base (t0 : option Z) (n : Z) (s : PipelineState) : Prop := {
  bs_lawful : lawful (log s);
  bs_broken : existsb breaks (log s) = true -> firstConnect s && negb (disconnectedBeforeFirstConnect s) = false;
  bs_ever : everConnected s = negb (firstConnect s);
  bs_signals : forall r, (round s < r)%nat -> signals s !! r = None;
  bs_waits : forall t, t0 = Some t -> RETRY_BACKOFF_BASE_MS * waits s <= n - t;
  bs_switches : forall t, t0 = Some t -> switches s = 0 \/ WS_FALLBACK_WINDOW_MS * switches s + t <= wsFallbackUntil s;
  bs_fallback : forall t, t0 = Some t -> wsFallbackUntil s <= n + WS_FALLBACK_WINDOW_MS;
  bs_start : forall t, t0 = Some t -> 0 <= t <= n;
}.

Record sound (t0 : option Z) (n : Z) (s : PipelineState) : Prop := {
  sd_base : base t0 n s;
  sd_ready : opened (phase s) = true -> RecoveryDone (round s) ∈ log s;
  sd_count : starts s + credit s <= 1 + pokes s + waits s + switches s;
  sd_due : forall t due, t0 = Some t -> phase s = Waiting due -> RETRY_BACKOFF_BASE_MS * waits s + RETRY_BACKOFF_BASE_MS <= due - t;
  sd_ws : forall t, t0 = Some t -> choice s = AutoTransport -> on_ws (phase s) = true -> wsFallbackUntil s <= n;
}.

Lemma sound_later t0 n n' s : (forall t, t0 = Some t -> n <= n') -> sound t0 n s -> sound t0 n' s.
Proof.
  intros Hn [[H1 H2 H3 H4 H5 H6 H7 H8] ? ? ? H9]. split; [split; try done|done..|]; intros t Ht; specialize (Hn t Ht).
  - specialize (H5 t Ht). lia. - specialize (H7 t Ht). lia. - specialize (H8 t Ht). lia. - intros Ha Hw. specialize (H9 t Ht Ha Hw). lia.
Qed.

(** *** Steps that only feed the queues *)

Definition quiet (may_push : bool) (r : nat) (x : Effect) : Prop :=
  match x with Pushed r' _ => may_push = true /\ r' = r | Closing r' => r' = r | _ => False end.

Inductive same_phase : Phase -> Phase -> Prop :=
| same_refl p : same_phase p p
| same_closed w w' : readySeen w' = readySeen w -> same_phase (OnSocket w) (OnSocket w').

(** The fields a delivery leaves alone. *)
Definition rest_of (s : PipelineState) :=
  (choice s, stopped s, failures s, (firstConnect s, disconnectedBeforeFirstConnect s, everConnected s),
   (attemptStartedAt s, wsFallbackUntil s), intentionalAbort s, (round s, signals s, recovering s)).

Record feeds (may_push : bool) (s s' : PipelineState) : Prop := {
  fd_log : exists l, log s' = log s ++ l /\ Forall (quiet may_push (round s)) l;
  fd_rest : rest_of s' = rest_of s;
  fd_phase : same_phase (phase s) (phase s');
}.

Lemma feeds_same b s s' : log s' = log s -> rest_of s' = rest_of s -> phase s' = phase s -> feeds b s s'.
Proof. intros E1 E2 E3. split; [exists []; by rewrite app_nil_r|done|rewrite E3; constructor]. Qed.

Lemma feeds_refl b s : feeds b s s.
Proof. by apply feeds_same. Qed.

Lemma feeds_round b s s' : feeds b s s' -> round s' = round s.
Proof. intros [_ H _]. by injection H. Qed.

Lemma feeds_trans b s1 s2 s3 : feeds b s1 s2 -> feeds b s2 s3 -> feeds b s1 s3.
Proof.
  intros H1 H2. pose proof (feeds_round _ _ _ H1) as Hr. destruct H1 as [(l & E1 & F1) R1 P1], H2 as [(k & E2 & F2) R2 P2]. split.
  - exists (l ++ k). rewrite E2, E1, app_assoc. split; [done|]. apply Forall_app. split; [done|]. by rewrite <- Hr.
  - congruence.
  - inversion P1; subst; inversion P2; subst; try constructor; congruence.
Qed.

Lemma feeds_push s e : feeds true s (note (Pushed (round s) e) s).
Proof. split; [exists [Pushed (round s) e]; split; [done|by repeat constructor]|done|constructor]. Qed.

Lemma feeds_close b s : feeds b s (closeSocket s).
Proof.
  unfold closeSocket. destruct (phase s) as [| w | | | | | |] eqn:E; try apply feeds_refl. split; [|done|rewrite E; by constructor].
  exists [Closing (round s)]. split; [done|]. by repeat constructor.
Qed.

Lemma feeds_weaken b s s' : feeds false s s' -> feeds b s s'.
Proof.
  intros [(l & E & F) R P]. split; [|done..]. exists l. split; [done|]. eapply Forall_impl; [exact F|].
  intros [] H; cbn in *; naive_solver.
Qed.

Section feeding.
  Context (text_of : json -> string) (JSON_parse : string -> option json).

Lemma feeds_deliver raw hint env s : feeds true s (deliver text_of raw hint env s).
Proof.
  unfold deliver. destruct (deliverable _ _ _) as [[e|]|]; [|by apply feeds_same|apply feeds_refl]. cbv zeta.
  set (s1 := noteActivity env s). set (s2 := set_queues _ s1).
  assert (feeds true s (note (Pushed (round s1) e) s2)) as H.
  { apply (feeds_trans _ _ s2); [by apply feeds_same|]. apply (feeds_push s2). }
  destruct (ev_id e) as [i|]; [|exact H]. case_match; [exact H|]. eapply feeds_trans; [exact H|by apply feeds_same].
Qed.

Lemma feeds_reset b s : feeds b s (resetSseCursor s).
Proof. by apply feeds_same. Qed.

Lemma feeds_unopened b s : feeds b s (unopened s).
Proof. unfold unopened. destruct (aborted _ _); [apply feeds_refl|apply feeds_reset]. Qed.

Lemma feeds_ready_frame frame env s : feeds true s (processReadyWsFrame text_of frame env s).
Proof.
  unfold processReadyWsFrame. cbv zeta. repeat case_bool_decide; [by apply feeds_same|apply feeds_close|apply feeds_deliver|apply feeds_refl].
Qed.

Lemma feeds_fold {A} b (f : PipelineState -> A -> PipelineState) l s : (forall s x, feeds b s (f s x)) -> feeds b s (fold_left f l s).
Proof. intros H. revert s. induction l as [|x l IH]; intros s; cbn; [apply feeds_refl|]. eapply feeds_trans; [apply H|apply IH]. Qed.

Lemma feeds_drain_live fuel buffer env s : feeds true s (drainLive text_of JSON_parse fuel buffer env s).1.
Proof.
  revert buffer s. induction fuel as [|fuel IH]; intros buffer s; cbn [drainLive]; [apply feeds_refl|].
  destruct (boundary buffer) as [[frame rest]|]; [|apply feeds_refl]. case_bool_decide; [apply feeds_refl|].
  destruct (parseSseFrame _ _ _); [apply IH|apply feeds_reset|]. eapply feeds_trans; [apply feeds_deliver|apply IH].
Qed.

Lemma feeds_drain_opening fuel buffer s : feeds false s (drainOpening text_of JSON_parse fuel buffer s).1.
Proof.
  revert buffer. induction fuel as [|fuel IH]; intros buffer; cbn [drainOpening]; [apply feeds_refl|].
  destruct (boundary buffer) as [[frame rest]|]; [|apply feeds_refl]. case_bool_decide; [apply feeds_refl|].
  destruct (parseSseFrame _ _ _); [apply IH|by apply feeds_same|]. case_match; [apply feeds_refl|by apply feeds_same].
Qed.

End feeding.

Lemma quiet_counts f b r l : (forall r e, f (Pushed r e) = false) -> (forall r, f (Closing r) = false) -> Forall (quiet b r) l -> count f l = 0.
Proof. intros H1 H2 H. apply count_none. eapply Forall_impl; [exact H|]. intros [] Hq; cbn in Hq; try done. Qed.

Lemma quiet_lawful r b l k : (b = true -> RecoveryDone r ∈ l) -> lawful l -> Forall (quiet b r) k -> lawful (l ++ k).
Proof.
  intros Hr H Hk. induction k as [|x k IH] using rev_ind; [by rewrite app_nil_r|].
  apply Forall_app in Hk as [Hk Hx]. rewrite app_assoc. apply lawful_snoc; [by apply IH|].
  apply Forall_cons in Hx as [Hx _]. destruct x; cbn in Hx |- *; try done. destruct Hx as [Hb ->]. apply elem_of_app. left. by apply Hr.
Qed.

Lemma quiet_breaks b r l : Forall (quiet b r) l -> existsb breaks l = false.
Proof. induction 1 as [|x l H _ IH]; [done|]. cbn. rewrite IH. by destruct x. Qed.

Lemma same_phase_opened p p' : same_phase p p' -> opened p' = opened p /\ attempting p' = attempting p /\ on_ws p' = on_ws p /\ forall due, p' = Waiting due <-> p = Waiting due.
Proof. by inversion 1. Qed.

Lemma feeds_counts b s s' : feeds b s s' -> starts s' = starts s /\ waits s' = waits s /\ switches s' = switches s /\ pokes s' = pokes s.
Proof.
  intros [(l & E & F) _ _]. unfold starts, waits, switches, pokes. rewrite E, !count_app.
  by rewrite !(quiet_counts _ b (round s) l), !Z.add_0_r.
Qed.

Lemma base_feeds b t0 n s s' : (b = true -> RecoveryDone (round s) ∈ log s) -> feeds b s s' -> base t0 n s -> base t0 n s'.
Proof.
  intros Hb H []. destruct (feeds_counts _ _ _ H) as (_ & Ew & Es & _). destruct H as [(l & E & F) R P]. injection R as R1 R2 R3 R4 R5 R6 R7 R8 R9 R10 R11 R12.
  split; rewrite ?Ew, ?Es, ?R4, ?R5, ?R6, ?R8, ?R10, ?R11; try done; rewrite E.
  - by apply (quiet_lawful (round s) b).
  - rewrite existsb_app, (quiet_breaks b (round s) l F), orb_false_r. done.
Qed.

Lemma sound_feeds b t0 n s s' : (b = true -> RecoveryDone (round s) ∈ log s) -> feeds b s s' -> sound t0 n s -> sound t0 n s'.
Proof.
  intros Hb H [Hbase Hr Hc Hd Hw]. destruct (feeds_counts _ _ _ H) as (E1 & E2 & E3 & E4).
  split; [exact (base_feeds b t0 n s s' Hb H Hbase)|..]; destruct H as [(l & E & F) R P]; injection R as R1 R2 R3 R4 R5 R6 R7 R8 R9 R10 R11 R12;
    destruct (same_phase_opened _ _ P) as (Po & Pa & Pw & Pd).
  - rewrite Po, R10, E. intros Ho. apply elem_of_app. left. by apply Hr.
  - unfold credit. rewrite Pa, R10, R11, E1, E2, E3, E4. exact Hc.
  - intros t due. rewrite Pd, E2. apply Hd.
  - by rewrite R1, Pw, R8.
Qed.

(** *** Steps of the loop *)

Definition marks (x : Effect) : bool := breaks x || is_waited x || is_switched x.

Lemma count_note f x l : count f (l ++ [x]) = count f l + (if f x then 1 else 0).
Proof. rewrite count_app. unfold count. cbn. by destruct (f x). Qed.

Lemma starts_note x s : starts (note x s) = starts s + (if is_started x then 1 else 0).
Proof. apply count_note. Qed.
Lemma waits_note x s : waits (note x s) = waits s + (if is_waited x then 1 else 0).
Proof. apply count_note. Qed.
Lemma switches_note x s : switches (note x s) = switches s + (if is_switched x then 1 else 0).
Proof. apply count_note. Qed.
Lemma pokes_note x s : pokes (note x s) = pokes s + (if is_poked x then 1 else 0).
Proof. apply count_note. Qed.

(** An entry of the log that marks nothing. *)
Lemma base_note t0 n x s : allowed (log s) x -> marks x = false -> base t0 n s -> base t0 n (note x s).
Proof.
  intros Hx Hm [H1 H2 H3 H4 H5 H6 H7 H8]. unfold marks in Hm. apply orb_false_iff in Hm as [Hm Hs]. apply orb_false_iff in Hm as [Hb Hw].
  split; try done.
  - by apply lawful_snoc.
  - cbn [log note]. rewrite existsb_app. cbn. by rewrite Hb, !orb_false_r.
  - by rewrite waits_note, Hw, Z.add_0_r.
  - by rewrite switches_note, Hs, Z.add_0_r.
Qed.

(** Fields the base does not look at. *)
Definition base_fields (s : PipelineState) :=
  (log s, (firstConnect s, disconnectedBeforeFirstConnect s, everConnected s), (round s, signals s), wsFallbackUntil s).

Lemma base_same t0 n s s' : base_fields s' = base_fields s -> base t0 n s -> base t0 n s'.
Proof.
  intros E []. injection E as E1 E2 E3 E4 E5 E6 E7. split; unfold waits, switches; rewrite ?E1, ?E2, ?E3, ?E4, ?E5, ?E6, ?E7; done.
Qed.

Lemma base_started t0 n t s : base t0 n s -> base t0 n (set_started t s).
Proof. intros []. split; try done. intros r Hr. apply bs_signals0. cbn in Hr. lia. Qed.

Definition paid (k : Z) (s : PipelineState) : Prop := starts s + k <= 1 + pokes s + waits s + switches s.

(** What an entry adds to the bill. *)
Definition cost (x : Effect) : Z := match x with Started _ _ _ => 1 | Waited | Switched _ | Poked => -1 | _ => 0 end.

Lemma paid_note k x s : paid (k + cost x) s -> paid k (note x s).
Proof. unfold paid. rewrite starts_note, waits_note, switches_note, pokes_note. destruct x; cbn; lia. Qed.

Definition debt (p : Phase) (s : PipelineState) : Z :=
  if attempting p && bool_decide (signals s !! round s = Some PlainAbort) then 1 else 0.

Lemma sound_to t0 n p s :
  base t0 n s -> (opened p = true -> RecoveryDone (round s) ∈ log s) -> paid (debt p s) s ->
  (forall t due, t0 = Some t -> p = Waiting due -> RETRY_BACKOFF_BASE_MS * waits s + RETRY_BACKOFF_BASE_MS <= due - t) ->
  (forall t, t0 = Some t -> choice s = AutoTransport -> on_ws p = true -> wsFallbackUntil s <= n) -> sound t0 n (set_phase p s).
Proof. intros H Ho Hp Hd Hw. split; [by eapply (base_same _ _ s)|exact Ho|exact Hp|exact Hd|exact Hw]. Qed.

Lemma sound_start t0 env s : base t0 (now env) s -> paid 1 s -> sound t0 (now env) (startRound env s).
Proof.
  intros H Hp. unfold startRound. cbv zeta. set (s1 := set_started (now env) s). assert (base t0 (now env) s1) as H1 by by apply base_started.
  assert (signals s1 !! round s1 = None) as Hs by (apply (bs_signals _ _ _ H); cbn; lia).
  assert (forall p x, cost x = 1 -> paid (debt p (note x s1)) (note x s1)) as Hd.
  { intros p x Hx. apply paid_note. unfold debt. cbn [signals round note]. rewrite Hs, Hx, andb_false_r. exact Hp. }
  destruct (pipeResolveTransport env s1) eqn:Et; apply sound_to; try done; try (by apply base_note); try (by apply Hd).
  intros t _ Ha _. unfold pipeResolveTransport in Et. cbn in Ha, Et |- *. rewrite Ha in Et.
  destruct (webSocket env); [|done]. case_bool_decide; [done|]. lia.
Qed.

Lemma sound_next t0 env s : base t0 (now env) s -> paid 1 s -> sound t0 (now env) (nextRound env s).
Proof.
  intros H Hp. unfold nextRound. destruct (stopped s); [|by apply sound_start]. apply sound_to; try done.
  unfold paid in *. cbn. lia.
Qed.

Lemma sound_disconnect t0 reason permanent env s :
  base t0 (now env) s -> paid 0 s -> sound t0 (now env) (disconnect reason permanent env s).
Proof.
  intros H Hp. unfold disconnect. cbv zeta.
  set (s1 := set_failures _ s). set (s2 := if everConnected s1 then s1 else set_before true s1).
  assert (log s2 = log s /\ round s2 = round s /\ signals s2 = signals s) as (El & Er & Es) by (unfold s2; by destruct (everConnected s1)).
  assert (paid 0 s2) as Hp2 by (unfold paid, starts, pokes, waits, switches in *; by rewrite El).
  assert (forall delay, base t0 (now env) (note (Disconnected reason delay) s2)) as H2.
  { intros delay. destruct H. assert (firstConnect s2 && negb (disconnectedBeforeFirstConnect s2) = false /\ everConnected s2 = negb (firstConnect s2)) as [Hb He].
    { unfold s2, s1. cbn. rewrite bs_ever0. by destruct (firstConnect s) eqn:Ef; cbn; rewrite ?Ef, ?andb_false_r. }
    split; rewrite ?waits_note, ?switches_note; cbn [is_waited is_switched]; rewrite ?Z.add_0_r; cbn [log round signals firstConnect disconnectedBeforeFirstConnect everConnected wsFallbackUntil note]; try done.
    - apply lawful_snoc; [by rewrite El|done].
    - by rewrite Er, Es.
    - unfold waits. by rewrite El.
    - unfold switches. rewrite El. unfold s2. by destruct (everConnected s1).
    - unfold s2. by destruct (everConnected s1). }
  apply sound_to; try done.
  - by apply paid_note.
  - intros t due Ht [= <-]. rewrite waits_note. cbn [is_waited]. destruct (retry_delay_bounds (failures s2) (visible env) (online env) permanent) as [[Hb _] _].
    destruct (H2 0) as [_ _ _ _ Hw _ _ _]. specialize (Hw t Ht). rewrite waits_note in Hw. cbn [is_waited] in Hw. lia.
Qed.

Lemma credit_nonneg s : 0 <= credit s.
Proof. unfold credit. case_match; lia. Qed.

Lemma sound_paid t0 n s : sound t0 n s -> paid 0 s.
Proof. intros H. pose proof (sd_count _ _ _ H). pose proof (credit_nonneg s). unfold paid. lia. Qed.

(** A round that a poke aborted has paid for the next one. *)
Lemma sound_poked t0 n s : sound t0 n s -> attempting (phase s) = true -> pipeHeartbeatedOut s = false -> aborted (round s) s = true -> paid 1 s.
Proof.
  intros H Ha Hh Hb. pose proof (sd_count _ _ _ H) as Hc. unfold pipeHeartbeatedOut, aborted in *. apply bool_decide_eq_true in Hb as [[] Hb].
  - by rewrite Hb, bool_decide_true in Hh.
  - unfold credit in Hc. rewrite Ha, bool_decide_true in Hc; done.
Qed.

Lemma sound_same t0 n s s' :
  base_fields s' = base_fields s -> phase s' = phase s -> choice s' = choice s -> sound t0 n s -> sound t0 n s'.
Proof.
  intros E Ep Ec [Hb Hr Hc Hd Hw]. split; [by eapply base_same|..]; injection E as E1 E2 E3 E4 E5 E6 E7; unfold credit, starts, waits, pokes, switches in *;
    rewrite ?Ep, ?E1, ?E5, ?E6, ?E7, ?Ec; done.
Qed.

Lemma sound_note t0 n x s : allowed (log s) x -> marks x = false -> cost x <= 0 -> sound t0 n s -> sound t0 n (note x s).
Proof.
  intros Hx Hm Hcost [Hb Hr Hc Hd Hw]. split; [by apply base_note|..]; cbn [phase note round log choice wsFallbackUntil].
  - intros Ho. apply elem_of_app. left. by apply Hr.
  - change (credit (note x s)) with (credit s). apply (paid_note (credit s)). unfold paid. lia.
  - intros t due. rewrite waits_note. unfold marks in Hm. apply orb_false_iff in Hm as [Hm _]. apply orb_false_iff in Hm as [_ ->]. rewrite Z.add_0_r. apply Hd.
  - done.
Qed.

Lemma sound_move t0 n p s :
  sound t0 n s -> attempting (phase s) = true -> (opened p = true -> RecoveryDone (round s) ∈ log s) -> attempting p = true ->
  (on_ws p = true -> on_ws (phase s) = true) -> sound t0 n (set_phase p s).
Proof.
  intros [Hb Hr Hc Hd Hw] Ha Ho Hp Hws. apply sound_to; try done.
  - unfold paid, debt, credit in *. by rewrite Ha in Hc; rewrite Hp.
  - intros t due _ ->. done.
  - eauto.
Qed.

Lemma sound_resolved t0 t env s : sound t0 (now env) s -> attempting (phase s) = true -> sound t0 (now env) (roundResolved t env s).
Proof.
  intros H Ha. pose proof (sd_base _ _ _ H). pose proof (sound_paid _ _ _ H). unfold roundResolved.
  destruct (pipeHeartbeatedOut s) eqn:Eh; [by apply sound_disconnect|]. destruct (aborted (round s) s) eqn:Eb; [|by apply sound_disconnect].
  apply sound_next; [done|]. by eapply sound_poked.
Qed.

Lemma sound_threw t0 t error permanent env s :
  sound t0 (now env) s -> attempting (phase s) = true -> sound t0 (now env) (roundThrew t error permanent env s).
Proof.
  intros H Ha. pose proof (sd_base _ _ _ H). pose proof (sound_paid _ _ _ H). unfold roundThrew. destruct (stopped s).
  { by apply sound_to. }
  destruct (pipeHeartbeatedOut s) eqn:Eh; [by apply sound_disconnect|]. destruct (aborted (round s) s) eqn:Eb; [|by apply sound_disconnect].
  assert (paid 1 s) by by eapply sound_poked. destruct (intentionalAbort s); (apply sound_next; [|done]); [by eapply (base_same _ _ s)|done].
Qed.

Lemma sound_wsThrew t0 error env s :
  sound t0 (now env) s -> on_ws (phase s) = true -> sound t0 (now env) (wsThrew error env s).
Proof.
  intros H Hw. assert (attempting (phase s) = true) as Ha by by destruct (phase s). unfold wsThrew.
  destruct (choice s) eqn:Ec; try by apply sound_threw.
  pose proof (sound_paid _ _ _ H) as Hp. pose proof (fun t Ht => sd_ws _ _ _ H t Ht Ec Hw) as Hf. destruct (sd_base _ _ _ H).
  apply sound_next; [|apply paid_note; exact Hp].
  split; rewrite ?waits_note, ?switches_note; cbn [is_waited is_switched]; rewrite ?Z.add_0_r; try done.
  - by apply lawful_snoc.
  - cbn [log note set_fallback]. rewrite existsb_app, orb_false_r. done.
  - intros t Ht. right. specialize (Hf t Ht). specialize (bs_switches0 t Ht). specialize (bs_start0 t Ht). unfold switches in *. cbn [log set_fallback note wsFallbackUntil]. pose proof (count_nonneg is_switched (log s)). unfold WS_FALLBACK_WINDOW_MS in *. lia.
Qed.

(** *** Recoveries *)

Lemma skip_allowed t0 n replayReset explicitGap t boot s :
  base t0 n s ->
  allowed (log s) (Connected (round s) t replayReset
    (shouldSkipConnectedResync (firstConnect s) (disconnectedBeforeFirstConnect s) replayReset t boot) explicitGap boot).
Proof.
  intros H. unfold allowed, shouldSkipConnectedResync. destruct replayReset; [done|].
  pose proof (bs_broken _ _ _ H) as Hb. destruct (firstConnect s && negb (disconnectedBeforeFirstConnect s)).
  - split; [done|]. right. destruct (existsb breaks (log s)); [by specialize (Hb eq_refl)|done].
  - case_match eqn:E; [|done]. apply andb_true_iff in E as [E ->]. apply bool_decide_eq_true in E. split; [done|]. by left.
Qed.

Lemma sound_established t0 replayReset explicitGap t env s :
  sound t0 (now env) s -> sound t0 (now env) (pipeOnEstablished replayReset explicitGap t env s).
Proof.
  intros H. unfold pipeOnEstablished. cbv zeta. set (s1 := noteActivity env (set_failures 0 s)).
  assert (sound t0 (now env) s1) as H1 by by eapply (sound_same _ _ s).
  apply (sound_same _ _ (note (Connected (round s1) t replayReset (shouldSkipConnectedResync (firstConnect s1) (disconnectedBeforeFirstConnect s1) replayReset t (recentBoot env)) explicitGap (recentBoot env)) s1)); [done..|].
  apply sound_note; [|done|done|exact H1]. apply (skip_allowed t0 (now env)). apply H1.
Qed.

Lemma sound_adopt t0 n r s : sound t0 n s -> sound t0 n (adopt r s).
Proof.
  intros H. unfold adopt. cbv zeta. assert (sound t0 n (note (RecoveryDone r) s)) as H1 by by apply sound_note.
  destruct (_ || _); [done|]. destruct H1 as [Hb Hr Hc Hd Hw]. set (s1 := note (RecoveryDone r) s) in *.
  split; cbn [phase note round log choice wsFallbackUntil set_connected].
  - destruct Hb. split; try done; unfold waits, switches in *; cbn [log note set_connected]; rewrite ?count_note; cbn [is_waited is_switched]; rewrite ?Z.add_0_r; try done.
    by apply lawful_snoc.
  - intros Ho. apply elem_of_app. left. by apply Hr.
  - change (credit (note (Adopted r) (set_connected s1))) with (credit s1). apply (paid_note (credit s1)). unfold paid. cbn. rewrite Z.add_0_r. exact Hc.
  - intros t due. rewrite waits_note. cbn. rewrite Z.add_0_r. apply Hd.
  - done.
Qed.

Lemma adopt_keeps r s : phase (adopt r s) = phase s /\ round (adopt r s) = round s /\ RecoveryDone r ∈ log (adopt r s).
Proof.
  unfold adopt. cbv zeta. assert (RecoveryDone r ∈ log s ++ [RecoveryDone r]) by (apply elem_of_app; right; by apply list_elem_of_singleton).
  destruct (_ || _); split_and!; try done. cbn. apply elem_of_app. by left.
Qed.

(** *** Aborts *)

Lemma sound_signal t0 n reason s :
  sound t0 n s -> signals s !! round s = None -> paid (if attempting (phase s) && bool_decide (reason = PlainAbort) then 1 else 0) s ->
  sound t0 n (set_signals (<[round s := reason]> (signals s)) s).
Proof.
  intros [Hb Hr Hc Hd Hw] Hs Hp. split; [|exact Hr| |exact Hd|exact Hw].
  - destruct Hb. split; try done. intros r Hr'. cbn [signals set_signals round] in *. rewrite lookup_insert_ne; [by apply bs_signals0|lia].
  - unfold credit. cbn [signals set_signals round phase]. rewrite lookup_insert_eq.
    replace (bool_decide (Some reason = Some PlainAbort)) with (bool_decide (reason = PlainAbort)); [exact Hp|].
    apply bool_decide_ext. split; [by intros ->|by intros [= ->]].
Qed.

Lemma sound_abort t0 n reason s :
  sound t0 n s -> (reason = PlainAbort -> attempting (phase s) = true -> paid 1 s) -> sound t0 n (abort reason s).
Proof.
  intros H Hp. unfold abort. destruct (signals s !! round s) eqn:Es; [done|].
  apply (sound_feeds false _ _ (set_signals (<[round s := reason]> (signals s)) s)); [done|apply feeds_close|].
  apply sound_signal; [done..|]. pose proof (sound_paid _ _ _ H) as H0.
  case_match eqn:E; [|done]. apply andb_true_iff in E as [Ea E]. apply bool_decide_eq_true in E. auto.
Qed.

Lemma abort_feeds reason s : log (abort reason s) = log s \/ log (abort reason s) = log s ++ [Closing (round s)].
Proof. unfold abort, closeSocket. destruct (signals s !! round s); [by left|]. cbn. destruct (phase s); first [by left|by right]. Qed.

Lemma abort_paid k reason s : paid k s -> paid k (abort reason s).
Proof.
  unfold paid, starts, pokes, waits, switches. destruct (abort_feeds reason s) as [E|E]; rewrite E; [done|]. rewrite !count_note. cbn. lia.
Qed.

Lemma abort_phase reason s : attempting (phase (abort reason s)) = attempting (phase s) /\ round (abort reason s) = round s /\ stopped (abort reason s) = stopped s /\
  on_ws (phase (abort reason s)) = on_ws (phase s).
Proof. unfold abort, closeSocket. destruct (signals s !! round s); [done|]. cbn. by destruct (phase s) eqn:E; cbn; rewrite ?E. Qed.

Lemma sound_resume t0 env s : sound t0 (now env) s -> (attempting (phase s) = false -> paid 1 s) -> sound t0 (now env) (resume env s).
Proof.
  intros H Hp. unfold resume. destruct (phase s) eqn:E; try done. apply sound_next; [apply H|by apply Hp].
Qed.

Lemma sound_interrupt t0 env s : sound t0 (now env) s -> sound t0 (now env) (pipeInterrupt env s).
Proof.
  intros H. assert (sound t0 (now env) (note Poked s)) as H1 by by apply sound_note.
  assert (paid 1 (note Poked s)) as Hp by (apply paid_note, (sound_paid _ _ _ H)).
  unfold pipeInterrupt. apply sound_resume; [by apply sound_abort|]. intros _. by apply abort_paid.
Qed.

(** *** Callbacks *)

Section stepping.
  Context (text_of : json -> string) (JSON_parse : string -> option json) (t0 : option Z).

Lemma sound_ready_frame frame env s :
  RecoveryDone (round s) ∈ log s -> sound t0 (now env) s -> sound t0 (now env) (processReadyWsFrame text_of frame env s).
Proof. intros Hr. apply (sound_feeds true); [done|apply feeds_ready_frame]. Qed.

Lemma sound_ws_move w w' s n :
  sound t0 n s -> phase s = OnSocket w -> (readySeen w' = true -> RecoveryDone (round s) ∈ log s) -> sound t0 n (set_phase (OnSocket w') s).
Proof. intros H E Hr. apply sound_move; [done|by rewrite E|done|done|by rewrite E]. Qed.

Lemma sound_quiet n s s' :
  log s' = log s -> rest_of s' = rest_of s -> phase s' = phase s -> sound t0 n s -> sound t0 n s'.
Proof. intros E1 E2 E3. by apply (sound_feeds false), feeds_same. Qed.

Lemma sound_ws_ready frame w env s :
  phase s = OnSocket w -> (readySeen w = true -> RecoveryDone (round s) ∈ log s) -> sound t0 (now env) s -> sound t0 (now env) (wsReady frame w env s).
Proof.
  intros E Hr H. unfold wsReady. cbv zeta. set (s1 := if _ || _ then _ else s).
  assert (sound t0 (now env) s1 /\ phase s1 = OnSocket w /\ log s1 = log s /\ round s1 = round s) as (H1 & E1 & El & Er).
  { unfold s1. case_match; [|done]. split; [by apply (sound_quiet _ s)|done]. }
  destruct (settled w); [done|]. apply sound_established, (sound_ws_move w); [done..|]. by rewrite El, Er.
Qed.

Lemma sound_message data w env s :
  phase s = OnSocket w -> sound t0 (now env) s -> sound t0 (now env) (handleWsMessage text_of JSON_parse data w env s).
Proof.
  intros E H. unfold handleWsMessage. destruct (JSON_parse data) as [frame|]; [|done].
  assert (sound t0 (now env) (noteActivity env s)) as H1 by by apply (sound_quiet _ s).
  pose proof (sd_ready _ _ _ H) as Hr. rewrite E in Hr. cbn [opened] in Hr.
  set (s1 := noteActivity env s) in *. change (phase s) with (phase s1) in E. change (log s) with (log s1) in Hr.
  destruct frame as [| | | | |fields]; [exact H1|..]; cbv zeta;
    (case_bool_decide; [by apply sound_ws_ready|]; case_bool_decide; [exact H1|]; destruct (establishing w);
      [case_bool_decide; [by apply (sound_feeds false _ _ s1); [|apply feeds_close|]|by apply (sound_ws_move w)]|
       destruct (readySeen w); [apply sound_ready_frame; [by apply Hr|exact H1]|exact H1]]).
Qed.

Lemma sound_ws_recovered w env s :
  phase s = OnSocket w -> RecoveryDone (round s) ∈ log s -> sound t0 (now env) s -> sound t0 (now env) (wsRecovered text_of w env s).
Proof.
  intros E Hr H. unfold wsRecovered. eapply (sound_feeds true); [|apply feeds_fold; intros; apply feeds_ready_frame|]; [done|].
  by apply (sound_ws_move w).
Qed.

Lemma sound_afterDrain rest p o env s :
  sound t0 (now env) s -> attempting (phase s) = true -> on_ws p = false -> attempting p = true ->
  (opened p = true -> RecoveryDone (round s) ∈ log s) -> sound t0 (now env) (afterDrain rest p o env s).
Proof.
  intros H Ha Hp Hap Hr. unfold afterDrain. cbv zeta. set (s1 := if o then s else unopened s).
  assert (feeds false s s1) as Hf by (unfold s1; destruct o; [apply feeds_refl|apply feeds_unopened]).
  assert (sound t0 (now env) s1) as H1 by by eapply (sound_feeds false _ _ s).
  assert (attempting (phase s1) = true) as Ha1 by (destruct Hf as [_ _ Hs]; apply same_phase_opened in Hs as (_ & -> & _); done).
  case_bool_decide; [by apply sound_threw|]. destruct (aborted _ _); [by apply sound_resolved|]. apply sound_move; try done. by rewrite Hp.
Qed.

Lemma sound_drained_live buffer env s :
  sound t0 (now env) s -> attempting (phase s) = true -> RecoveryDone (round s) ∈ log s ->
  sound t0 (now env) (drainedLive text_of JSON_parse buffer env s).
Proof.
  intros H Ha Hr. unfold drainedLive. pose proof (feeds_drain_live text_of JSON_parse (S (String.length buffer)) buffer env s) as Hf.
  destruct (drainLive _ _ _ _ _ _) as [s1 d]. cbn [fst] in Hf. assert (sound t0 (now env) s1) as H1 by by eapply (sound_feeds true _ _ s).
  pose proof (feeds_round _ _ _ Hf) as Er. destruct Hf as [(l & El & _) _ Hs]. apply same_phase_opened in Hs as (_ & Ha1 & _). rewrite Ha in Ha1.
  destruct d as [rest|event raw rest|reason]; [|done|by apply sound_threw].
  apply sound_afterDrain; try done. intros _. rewrite Er, El. apply elem_of_app. by left.
Qed.

Lemma sound_drained_opening buffer hadCursor env s :
  sound t0 (now env) s -> attempting (phase s) = true -> sound t0 (now env) (drainedOpening text_of JSON_parse buffer hadCursor env s).
Proof.
  intros H Ha. unfold drainedOpening. pose proof (feeds_drain_opening text_of JSON_parse (S (String.length buffer)) buffer s) as Hf.
  destruct (drainOpening _ _ _ _ _) as [s1 d]. cbn [fst] in Hf. assert (sound t0 (now env) s1) as H1 by by eapply (sound_feeds false _ _ s).
  destruct Hf as [_ _ Hs]. apply same_phase_opened in Hs as (_ & Ha1 & _). rewrite Ha in Ha1. destruct d as [rest|event raw rest|reason].
  - by apply sound_afterDrain.
  - cbv zeta. apply sound_established. set (s2 := if bool_decide _ then _ else _).
    assert (sound t0 (now env) s2 /\ attempting (phase s2) = true) as [H2 Ha2].
    { unfold s2. case_bool_decide; [|done]. split; [by apply (sound_quiet _ s1)|done]. }
    by apply sound_move.
  - assert (feeds false s1 (unopened s1)) as Hf by apply feeds_unopened. apply sound_threw; [by eapply (sound_feeds false _ _ s1)|].
    destruct Hf as [_ _ Hs]. apply same_phase_opened in Hs as (_ & -> & _). done.
Qed.

Lemma sound_unopened n s : sound t0 n s -> sound t0 n (unopened s).
Proof. intros H. apply (sound_feeds false _ _ s); [done|apply feeds_unopened|done]. Qed.

Lemma unopened_phase s : phase (unopened s) = phase s.
Proof. unfold unopened. by destruct (aborted _ _). Qed.

Lemma sound_close n s : sound t0 n s -> sound t0 n (closeSocket s).
Proof. intros H. apply (sound_feeds false _ _ s); [done|apply feeds_close|done]. Qed.

Lemma sound_recovered r env s : sound t0 (now env) s -> sound t0 (now env) (recovered text_of JSON_parse r env s).
Proof.
  intros H. unfold recovered. cbv zeta. set (s1 := adopt r (forget r s)).
  assert (sound t0 (now env) s1) as H1 by by apply sound_adopt, (sound_same _ _ s).
  destruct (adopt_keeps r (forget r s)) as (Ep & Er & Hr). fold s1 in Ep, Er, Hr.
  case_bool_decide as E; [|done]. assert (RecoveryDone (round s1) ∈ log s1) as Hd by (rewrite <- E; exact Hr).
  destruct (phase s1) as [|w| | |raw rest| | |] eqn:Es; try done.
  - destruct (establishing w); [|done]. by apply sound_ws_recovered.
  - unfold sseRecovered. destruct (aborted _ _); [apply sound_resolved; [done|by rewrite Es]|].
    pose proof (feeds_deliver text_of raw None env s1) as Hf.
    assert (sound t0 (now env) (deliver text_of raw None env s1)) as H2 by (by apply (sound_feeds true _ _ s1)).
    pose proof (feeds_round _ _ _ Hf) as Er2. destruct Hf as [(l & El & _) _ Hp]. apply same_phase_opened in Hp as (_ & Ha & _).
    apply sound_drained_live; [done|by rewrite Ha, Es|]. rewrite Er2, El. apply elem_of_app. by left.
Qed.

Lemma sound_recoveryFailed r error env s : sound t0 (now env) s -> sound t0 (now env) (recoveryFailed r error env s).
Proof.
  intros H. unfold recoveryFailed. cbv zeta. assert (sound t0 (now env) (forget r s)) as H1 by by apply (sound_same _ _ s).
  case_bool_decide; [|done]. destruct (phase (forget r s)) as [|w| | | | | |] eqn:E; try done.
  - destruct (establishing w); [|done]. apply sound_wsThrew; [by apply sound_close|]. unfold closeSocket. by rewrite E.
  - apply sound_threw; [by apply sound_unopened|]. by rewrite unopened_phase, E.
Qed.

Lemma sound_socket w ev env s : phase s = OnSocket w -> sound t0 (now env) s -> sound t0 (now env) (onSocket text_of JSON_parse w ev env s).
Proof.
  intros E H. assert (attempting (phase s) = true /\ on_ws (phase s) = true) as [Ha Hw] by by rewrite E.
  destruct ev; try done; cbn [onSocket].
  - apply (sound_ws_move w); [done..|]. pose proof (sd_ready _ _ _ H) as Hr. by rewrite E in Hr.
  - destruct (closing w); [done|]. by apply sound_message.
  - destruct (_ || _); [done|]. by apply sound_wsThrew.
  - unfold settleClose. destruct (negb _); [by apply sound_wsThrew|]. destruct (_ && _); [by apply sound_wsThrew|by apply sound_resolved].
  - destruct (settled w); [done|]. apply sound_wsThrew; [by apply sound_close|]. unfold closeSocket. by rewrite E.
Qed.

Lemma sound_fetch hadCursor ev env s : phase s = Fetching hadCursor -> sound t0 (now env) s -> sound t0 (now env) (onFetch hadCursor ev env s).
Proof.
  intros E H. assert (attempting (phase s) = true) as Ha by by rewrite E. destruct ev as [| | | | | | |status|[]| | | | | | | | | | | | | | |]; try done; cbn [onFetch].
  - unfold sseRefused. destruct (aborted _ _); [by apply sound_resolved|by apply sound_threw].
  - by apply sound_move.
  - by apply sound_resolved.
  - by apply sound_threw.
Qed.

Lemma sound_noteActivity env s : sound t0 (now env) s -> sound t0 (now env) (noteActivity env s).
Proof. by apply sound_quiet. Qed.

Lemma sound_attempt ev env s : sound t0 (now env) s -> sound t0 (now env) (attempt text_of JSON_parse ev env s).
Proof.
  intros H. pose proof (sound_noteActivity env s H) as Hn. unfold attempt.
  destruct (phase s) as [|w|hc|b hc|raw rest|b|due|] eqn:E; try done.
  - assert (attempting (phase s) = true /\ on_ws (phase s) = true) as [Ha Hw] by by rewrite E. destruct ev; try done; [|by apply sound_threw].
    unfold authResolved. destruct (aborted _ _); [by apply sound_threw|]. destruct constructorError; [by apply sound_wsThrew|]. by apply sound_move.
  - by apply sound_socket.
  - by apply sound_fetch.
  - assert (attempting (phase s) = true) as Ha by by rewrite E. assert (attempting (phase (unopened s)) = true) as Hu by by rewrite unopened_phase.
    destruct ev; try done; cbn [onOpening]; [|by apply sound_threw, Hu; apply sound_unopened..].
    by apply sound_drained_opening.
  - assert (attempting (phase s) = true) as Ha by by rewrite E. pose proof (sd_ready _ _ _ H) as Hr. rewrite E in Hr. specialize (Hr eq_refl).
    destruct ev; try done; cbn [onLive]; [by apply sound_drained_live|by apply sound_resolved|by apply sound_threw].
  - destruct ev; try done. case_bool_decide; [|done]. pose proof (fun t Ht => sd_due _ _ _ H t due Ht E) as Hd. pose proof (sound_paid _ _ _ H) as Hp.
    apply sound_next; [|by apply paid_note]. destruct (sd_base _ _ _ H). split; rewrite ?waits_note, ?switches_note; cbn [is_waited is_switched]; rewrite ?Z.add_0_r; try done.
    + by apply lawful_snoc.
    + cbn [log note]. by rewrite existsb_app, orb_false_r.
    + intros t Ht. specialize (Hd t Ht). lia.
Qed.

Lemma sound_flush d env s : sound t0 (now env) s -> sound t0 (now env) (flushTimer text_of d env s).
Proof.
  intros H. unfold flushTimer. destruct (SyncQueues.step _ _ _ _) as [q out].
  assert (sound t0 (now env) (set_queues q s)) as H1 by by apply (sound_quiet _ s).
  revert H1. generalize (set_queues q s). induction out as [|batch out IH]; intros s1 H1; [done|]. cbn [fold_left].
  apply IH. apply sound_note; try done. by apply (sound_quiet _ s1).
Qed.

Lemma sound_step ev env s : sound t0 (now env) s -> sound t0 (now env) (pipe_step text_of JSON_parse ev env s).
Proof.
  intros H. destruct ev; cbn [pipe_step]; try by apply sound_attempt.
  - case_bool_decide; [by apply sound_recovered|done].
  - case_bool_decide; [by apply sound_recoveryFailed|done].
  - by apply sound_flush.
  - destruct (_ && _); [by apply sound_abort|done].
  - destruct (stopped s); [done|by apply sound_interrupt].
  - destruct (_ && _); [|done]. apply sound_resume; [by apply sound_note|]. intros _. apply paid_note, (sound_paid _ _ _ H).
  - unfold cleanup. cbv zeta. by apply sound_interrupt, (sound_same _ _ s).
  - unfold reconnect. by apply sound_interrupt, (sound_same _ _ s).
  - by apply (sound_quiet _ s).
Qed.
End stepping.

(** *** Runs *)

Lemma sound_create t0 c env :
  (forall t, t0 = Some t -> t = now env /\ 0 <= t) -> sound t0 (now env) (createEventPipeline c env).
Proof.
  intros Ht. unfold createEventPipeline. apply sound_start; [|unfold paid, starts, pokes, waits, switches, count; cbn; lia].
  split; try done; cbn.
  - intros [|? l1] x l2 E; discriminate E.
  - intros t E. apply Ht in E. unfold RETRY_BACKOFF_BASE_MS, waits, count. cbn. lia.
  - intros t E. by left.
  - intros t E. apply Ht in E. unfold WS_FALLBACK_WINDOW_MS. lia.
  - intros t E. apply Ht in E. lia.
Qed.

(** A clock that does not go back. *)
Fixpoint clock_from (n : Z) (evs : list (Event * Env)) : Prop :=
  match evs with
  | [] => True
  | (_, env) :: evs => n <= now env /\ clock_from (now env) evs
  end.

Definition end_of (n : Z) (evs : list (Event * Env)) : Z := fold_left (fun _ ev => now ev.2) evs n.

Section runs.
  Context (text_of : json -> string) (JSON_parse : string -> option json).

Lemma sound_run t0 n evs s :
  (forall t, t0 = Some t -> clock_from n evs) -> sound t0 n s -> sound t0 (end_of n evs) (pipe_run text_of JSON_parse evs s).
Proof.
  revert n s. induction evs as [|[ev env] evs IH]; intros n s Hc H; [done|]. unfold pipe_run, end_of. cbn [fold_left fst snd].
  apply (IH (now env)); [intros t Ht; by apply (Hc t Ht)|]. apply sound_step. apply (sound_later _ n); [intros t Ht; by apply (Hc t Ht)|done].
Qed.

Lemma log_lawful c env evs : lawful (log (pipe_run text_of JSON_parse evs (createEventPipeline c env))).
Proof. destruct (sound_run None (now env) evs (createEventPipeline c env)) as [[H] _ _ _ _]; [done|by apply sound_create|exact H]. Qed.

(** C23. No event of a connection reaches the queues before the recovery of that
    connection is over: whatever sockets, streams, timers and windows do, each event
    pushed in a round follows the end of the snapshot reconciliation the round waited
    for. *)
Theorem live_events_wait_for_recovery c env evs l1 r e l2 :
  log (pipe_run text_of JSON_parse evs (createEventPipeline c env)) = l1 ++ Pushed r e :: l2 -> RecoveryDone r ∈ l1.
Proof. intros E. exact (log_lawful c env evs l1 (Pushed r e) l2 E). Qed.

(** A connection is spared the reconciliation only if nothing is known to be lost: the
    server reports no reset, and either no connection has been lost or taken over
    before, or a socket opens on a recent boot. *)
Lemma reconnects_are_reconciled c env evs l1 r t replayReset explicitGap boot l2 :
  log (pipe_run text_of JSON_parse evs (createEventPipeline c env)) = l1 ++ Connected r t replayReset true explicitGap boot :: l2 ->
  replayReset = false /\ (t = WS /\ boot = true \/ existsb breaks l1 = false).
Proof. intros E. exact (log_lawful c env evs l1 _ l2 E). Qed.

(** C24. The loop does not spin: on a clock that does not go back, the rounds begun are
    no more than one, the interruptions asked for, one for each 250 ms that have passed
    and one for each 60 s, plus one. *)
Theorem rounds_are_rate_limited c env evs :
  0 <= now env -> clock_from (now env) evs ->
  let s := pipe_run text_of JSON_parse evs (createEventPipeline c env) in
  let elapsed := end_of (now env) evs - now env in
  starts s <= 1 + pokes s + elapsed / RETRY_BACKOFF_BASE_MS + (1 + elapsed / WS_FALLBACK_WINDOW_MS).
Proof.
  intros H0 Hc s elapsed. destruct (sound_run (Some (now env)) (now env) evs (createEventPipeline c env)) as [Hb _ Hp _ _];
    [done|apply sound_create; by intros t [= <-]|]. destruct Hb as [_ _ _ _ Hw Hs Hf Ht]. fold s in Hp, Hw, Hs, Hf.
  specialize (Hw _ eq_refl). specialize (Hs _ eq_refl). specialize (Hf _ eq_refl). specialize (Ht _ eq_refl). fold elapsed in Hw.
  pose proof (credit_nonneg s). assert (waits s <= elapsed / RETRY_BACKOFF_BASE_MS) by (apply Z.div_le_lower_bound; unfold elapsed, RETRY_BACKOFF_BASE_MS in *; lia).
  assert (switches s - 1 <= elapsed / WS_FALLBACK_WINDOW_MS) by (apply Z.div_le_lower_bound; unfold elapsed, WS_FALLBACK_WINDOW_MS in *; lia). lia.
Qed.

End runs.

(** ** A pipeline that was cleaned up *)

(** What a stopped pipeline keeps, from a state [s0] on. *)
Record halted (s0 s : PipelineState) : Prop := {
  ht_stopped : stopped s = true;
  ht_round : round s = round s0;
  ht_starts : starts s = starts s0;
  ht_aborted : forall r, aborted r s0 = true -> aborted r s = true;
}.

Lemma halted_refl s : stopped s = true -> halted s s.
Proof. by split. Qed.

Lemma halted_same s0 s s' : stopped s' = stopped s -> round s' = round s -> log s' = log s -> signals s' = signals s -> halted s0 s -> halted s0 s'.
Proof. intros E1 E2 E3 E4 []. split; unfold aborted, starts in *; rewrite ?E1, ?E2, ?E3, ?E4; done. Qed.

Lemma halted_note s0 x s : is_started x = false -> halted s0 s -> halted s0 (note x s).
Proof. intros Hx []. split; try done. by rewrite starts_note, Hx, Z.add_0_r. Qed.

Lemma halted_feeds b s0 s s' : feeds b s s' -> halted s0 s -> halted s0 s'.
Proof.
  intros H []. destruct (feeds_counts _ _ _ H) as (E & _). destruct H as [_ R _]. injection R as R1 R2 R3 R4 R5 R6 R7 R8 R9 R10 R11 R12.
  split; unfold aborted in *; rewrite ?E, ?R2, ?R10, ?R11; done.
Qed.

Lemma halted_next s0 env s : halted s0 s -> halted s0 (nextRound env s).
Proof. intros H. unfold nextRound. rewrite (ht_stopped _ _ H). by apply (halted_same _ s). Qed.

Lemma halted_disconnect s0 reason p env s : halted s0 s -> halted s0 (disconnect reason p env s).
Proof.
  intros H. unfold disconnect. cbv zeta. eapply (halted_same _ (note _ _)); [done..|]. apply halted_note; [done|].
  destruct (everConnected _); by apply (halted_same _ s).
Qed.

Lemma halted_resolved s0 t env s : halted s0 s -> halted s0 (roundResolved t env s).
Proof. intros H. unfold roundResolved. repeat case_match; first [by apply halted_disconnect|by apply halted_next]. Qed.

Lemma halted_threw s0 t error p env s : halted s0 s -> halted s0 (roundThrew t error p env s).
Proof. intros H. unfold roundThrew. rewrite (ht_stopped _ _ H). by apply (halted_same _ s). Qed.

Lemma halted_wsThrew s0 error env s : halted s0 s -> halted s0 (wsThrew error env s).
Proof.
  intros H. unfold wsThrew. destruct (choice s); try by apply halted_threw. apply halted_next, halted_note; [done|]. by apply (halted_same _ s).
Qed.

Lemma halted_established s0 a b t env s : halted s0 s -> halted s0 (pipeOnEstablished a b t env s).
Proof. intros H. unfold pipeOnEstablished. cbv zeta. eapply (halted_same _ (note _ _)); [done..|]. apply halted_note; [done|]. by apply (halted_same _ s). Qed.

Lemma halted_adopt s0 r s : halted s0 s -> halted s0 (adopt r s).
Proof. intros H. unfold adopt. cbv zeta. cbn [stopped note]. rewrite (ht_stopped _ _ H). by apply halted_note. Qed.

Lemma halted_abort s0 reason s : halted s0 s -> halted s0 (abort reason s).
Proof.
  intros H. unfold abort. destruct (signals s !! round s) eqn:E; [done|]. eapply (halted_feeds false); [apply feeds_close|].
  destruct H. split; try done. intros r Hr. apply ht_aborted0 in Hr. unfold aborted in *. cbn [signals set_signals].
  apply bool_decide_eq_true in Hr as [x Hx]. apply bool_decide_eq_true. destruct (decide (r = round s)) as [->|]; [by rewrite E in Hx|].
  rewrite lookup_insert_ne; [by exists x|done].
Qed.

Lemma abort_aborts reason s : aborted (round (abort reason s)) (abort reason s) = true.
Proof.
  unfold abort. destruct (signals s !! round s) eqn:E; [by unfold aborted; rewrite E|].
  set (s1 := set_signals _ s). destruct (feeds_close false s1) as [_ R _]. injection R as R1 R2 R3 R4 R5 R6 R7 R8 R9 R10 R11 R12.
  unfold aborted. rewrite R10, R11. cbn. by rewrite lookup_insert_eq.
Qed.

Lemma halted_resume s0 env s : halted s0 s -> halted s0 (resume env s).
Proof. intros H. unfold resume. destruct (phase s); try done. by apply halted_next. Qed.

Lemma halted_interrupt s0 env s : halted s0 s -> halted s0 (pipeInterrupt env s).
Proof. intros H. by apply halted_resume, halted_abort, halted_note. Qed.

Section halting.
  Context (text_of : json -> string) (JSON_parse : string -> option json).

Lemma halted_ready frame w env s0 s : halted s0 s -> halted s0 (wsReady frame w env s).
Proof.
  intros H. unfold wsReady. cbv zeta. set (s1 := if _ || _ then _ else s). assert (halted s0 s1) as H1 by (unfold s1; case_match; [by apply (halted_same _ s)|done]).
  destruct (settled w); [done|]. by apply halted_established, (halted_same _ s1).
Qed.

Lemma halted_message data w env s0 s : halted s0 s -> halted s0 (handleWsMessage text_of JSON_parse data w env s).
Proof.
  intros H. unfold handleWsMessage. destruct (JSON_parse data) as [frame|]; [|done]. assert (halted s0 (noteActivity env s)) as H1 by by apply (halted_same _ s).
  destruct frame as [| | | | |fields]; [done|..]; cbv zeta;
    (case_bool_decide; [by apply halted_ready|]; case_bool_decide; [done|]; destruct (establishing w);
     [case_bool_decide; [by apply (halted_feeds false _ (noteActivity env s)); [apply feeds_close|]|by apply (halted_same _ (noteActivity env s))]|
      destruct (readySeen w); [by apply (halted_feeds true _ (noteActivity env s)); [apply feeds_ready_frame|]|done]]).
Qed.

Lemma halted_afterDrain rest p o env s0 s : halted s0 s -> halted s0 (afterDrain rest p o env s).
Proof.
  intros H. unfold afterDrain. cbv zeta. assert (halted s0 (if o then s else unopened s)) as H1 by (destruct o; [done|by apply (halted_feeds false _ s); [apply feeds_unopened|]]).
  case_bool_decide; [by apply halted_threw|]. destruct (aborted _ _); [by apply halted_resolved|by apply (halted_same _ s)].
Qed.

Lemma halted_drained_live buffer env s0 s : halted s0 s -> halted s0 (drainedLive text_of JSON_parse buffer env s).
Proof.
  intros H. unfold drainedLive. pose proof (feeds_drain_live text_of JSON_parse (S (String.length buffer)) buffer env s) as Hf.
  destruct (drainLive _ _ _ _ _ _) as [s1 d]. assert (halted s0 s1) by by apply (halted_feeds true _ s).
  destruct d; [by apply halted_afterDrain|done|by apply halted_threw].
Qed.

Lemma halted_drained_opening buffer hc env s0 s : halted s0 s -> halted s0 (drainedOpening text_of JSON_parse buffer hc env s).
Proof.
  intros H. unfold drainedOpening. pose proof (feeds_drain_opening text_of JSON_parse (S (String.length buffer)) buffer s) as Hf.
  destruct (drainOpening _ _ _ _ _) as [s1 d]. assert (halted s0 s1) as H1 by by apply (halted_feeds false _ s).
  destruct d; [by apply halted_afterDrain| |apply halted_threw, (halted_feeds false _ s1); [apply feeds_unopened|done]].
  cbv zeta. apply halted_established. case_bool_decide; by apply (halted_same _ s1).
Qed.

Lemma halted_recovered r env s0 s : halted s0 s -> halted s0 (recovered text_of JSON_parse r env s).
Proof.
  intros H. unfold recovered. cbv zeta. set (s1 := adopt r (forget r s)). assert (halted s0 s1) as H1 by by apply halted_adopt, (halted_same _ s).
  case_bool_decide; [|done]. destruct (phase s1) as [|w| | |raw rest| | |]; try done.
  - destruct (establishing w); [|done]. unfold wsRecovered. eapply (halted_feeds true); [apply feeds_fold; intros; apply feeds_ready_frame|]. by apply (halted_same _ s1).
  - unfold sseRecovered. destruct (aborted _ _); [by apply halted_resolved|]. apply halted_drained_live, (halted_feeds true _ s1); [apply feeds_deliver|done].
Qed.

Lemma halted_recoveryFailed r error env s0 s : halted s0 s -> halted s0 (recoveryFailed r error env s).
Proof.
  intros H. unfold recoveryFailed. cbv zeta. set (s1 := forget r s). assert (halted s0 s1) as H1 by by apply (halted_same _ s).
  case_bool_decide; [|done]. destruct (phase s1) as [|w| | | | | |]; try done.
  - destruct (establishing w); [|done]. apply halted_wsThrew, (halted_feeds false _ s1); [apply feeds_close|done].
  - apply halted_threw, (halted_feeds false _ s1); [apply feeds_unopened|done].
Qed.

Lemma halted_attempt ev env s0 s : halted s0 s -> halted s0 (attempt text_of JSON_parse ev env s).
Proof.
  intros H. assert (halted s0 (unopened s)) as Hu by (apply (halted_feeds false _ s); [apply feeds_unopened|done]).
  assert (halted s0 (noteActivity env s)) as Hn by by apply (halted_same _ s). assert (forall p, halted s0 (set_phase p s)) as Hp by (intros p; by apply (halted_same _ s)).
  unfold attempt. destruct (phase s) as [|w|hc|b hc|raw rest|b|due|] eqn:E; try done; destruct ev; try done; cbn [onSocket onFetch onOpening onLive].
  - unfold authResolved. repeat case_match; by first [apply halted_threw|apply halted_wsThrew|apply Hp].
  - by apply halted_threw.
  - apply Hp.
  - destruct (closing w); [done|by apply halted_message].
  - case_match; [done|by apply halted_wsThrew].
  - unfold settleClose. repeat case_match; by first [apply halted_wsThrew|apply halted_resolved].
  - case_match; [done|]. apply halted_wsThrew, (halted_feeds false _ s); [apply feeds_close|done].
  - unfold sseRefused. case_match; by first [apply halted_threw|apply halted_resolved].
  - destruct body; [apply Hp|by apply halted_resolved].
  - by apply halted_threw.
  - by apply halted_drained_opening.
  - by apply halted_threw.
  - by apply halted_threw.
  - by apply halted_threw.
  - by apply halted_drained_live.
  - by apply halted_resolved.
  - by apply halted_threw.
  - case_bool_decide; [|done]. by apply halted_next, halted_note.
Qed.

Lemma halted_step ev env s0 s : halted s0 s -> halted s0 (pipe_step text_of JSON_parse ev env s).
Proof.
  intros H. destruct ev; cbn [pipe_step]; try by apply halted_attempt.
  - case_bool_decide; [by apply halted_recovered|done].
  - case_bool_decide; [by apply halted_recoveryFailed|done].
  - unfold flushTimer. destruct (SyncQueues.step _ _ _ _) as [q out]. assert (halted s0 (set_queues q s)) as H1 by by apply (halted_same _ s).
    revert H1. generalize (set_queues q s). induction out as [|batch out IH]; intros s1 H1; [done|]. cbn [fold_left]. apply IH, halted_note; [done|]. by apply (halted_same _ s1).
  - case_match; [by apply halted_abort|done].
  - case_match; [done|by apply halted_interrupt].
  - case_match; [|done]. by apply halted_resume, halted_note.
  - unfold cleanup. cbv zeta. apply halted_interrupt. destruct H. by split.
  - unfold reconnect. by apply halted_interrupt, (halted_same _ s).
  - by apply (halted_same _ s).
Qed.

End halting.

(** *** A stream in recovery waits for a promise that is pending *)

Definition is_recovering (p : Phase) : bool := match p with Recovering _ _ => true | _ => false end.

Definition awaited (s : PipelineState) : Prop := is_recovering (phase s) = true -> round s ∈ recovering s.

Lemma awaited_calm s : is_recovering (phase s) = false -> awaited s.
Proof. unfold awaited. by intros ->. Qed.

Lemma awaited_same s s' : phase s' = phase s -> round s' = round s -> recovering s' = recovering s -> awaited s -> awaited s'.
Proof. unfold awaited. by intros -> -> ->. Qed.

Lemma calm_start env s : is_recovering (phase (startRound env s)) = false.
Proof. unfold startRound. cbv zeta. by destruct (pipeResolveTransport _ _). Qed.

Lemma calm_next env s : is_recovering (phase (nextRound env s)) = false.
Proof. unfold nextRound. destruct (stopped s); [done|apply calm_start]. Qed.

Lemma calm_resolved t env s : is_recovering (phase (roundResolved t env s)) = false.
Proof. unfold roundResolved. repeat case_match; first [done|apply calm_next]. Qed.

Lemma calm_threw t error p env s : is_recovering (phase (roundThrew t error p env s)) = false.
Proof. unfold roundThrew. repeat case_match; first [done|apply calm_next]. Qed.

Lemma calm_wsThrew error env s : is_recovering (phase (wsThrew error env s)) = false.
Proof. unfold wsThrew. destruct (choice s); first [apply calm_next|apply calm_threw]. Qed.

Lemma same_recovering p p' : same_phase p p' -> is_recovering p' = is_recovering p.
Proof. by inversion 1. Qed.

Lemma awaited_feeds b s s' : feeds b s s' -> awaited s -> awaited s'.
Proof.
  intros [_ R P]. injection R as R1 R2 R3 R4 R5 R6 R7 R8 R9 R10 R11 R12. unfold awaited. rewrite (same_recovering _ _ P). by rewrite R10, R12.
Qed.

Lemma awaited_established a b t env s : awaited (pipeOnEstablished a b t env s).
Proof. intros _. unfold pipeOnEstablished. cbn. apply elem_of_cons. by left. Qed.

Lemma awaited_forget r s : r <> round s -> awaited s -> awaited (forget r s).
Proof. intros Hr H Hp. cbn. apply list_elem_of_filter. split; [congruence|]. by apply H. Qed.

Lemma awaited_adopt r s : awaited s -> awaited (adopt r s).
Proof. intros H. unfold adopt. cbv zeta. destruct (_ || _); by apply (awaited_same s). Qed.

Lemma awaited_resume env s : awaited s -> awaited (resume env s).
Proof. intros H. unfold resume. destruct (phase s) eqn:E; try done. apply awaited_calm, calm_next. Qed.

Lemma awaited_abort reason s : awaited s -> awaited (abort reason s).
Proof.
  intros H. unfold abort. destruct (signals s !! round s); [done|]. eapply (awaited_feeds false); [apply feeds_close|]. by apply (awaited_same s).
Qed.

Lemma awaited_interrupt env s : awaited s -> awaited (pipeInterrupt env s).
Proof. intros H. by apply awaited_resume, awaited_abort, (awaited_same s). Qed.

Section awaiting.
  Context (text_of : json -> string) (JSON_parse : string -> option json).

Lemma drainLive_no_recovery fuel buffer env s e raw rest : (drainLive text_of JSON_parse fuel buffer env s).2 <> Recovery e raw rest.
Proof.
  revert buffer s. induction fuel as [|fuel IH]; intros buffer s; cbn [drainLive]; [done|].
  destruct (boundary buffer) as [[frame r]|]; [|done]. case_bool_decide; [done|]. destruct (parseSseFrame _ _ _); [apply IH|done|apply IH].
Qed.

Lemma calm_afterDrain rest p o env s : is_recovering p = false -> is_recovering (phase (afterDrain rest p o env s)) = false.
Proof. intros H. unfold afterDrain. cbv zeta. case_bool_decide; [apply calm_threw|]. destruct (aborted _ _); [apply calm_resolved|done]. Qed.

Lemma calm_drained_live buffer env s : is_recovering (phase (drainedLive text_of JSON_parse buffer env s)) = false.
Proof.
  unfold drainedLive. pose proof (drainLive_no_recovery (S (String.length buffer)) buffer env s) as H.
  destruct (drainLive _ _ _ _ _ _) as [s1 d]. destruct d; [by apply calm_afterDrain|by exfalso; eapply H|apply calm_threw].
Qed.

Lemma awaited_drained_opening buffer hc env s : awaited (drainedOpening text_of JSON_parse buffer hc env s).
Proof.
  unfold drainedOpening. destruct (drainOpening _ _ _ _ _) as [s1 d].
  destruct d; [by apply awaited_calm, calm_afterDrain|apply awaited_established|apply awaited_calm, calm_threw].
Qed.

Lemma awaited_socket w ev env s : phase s = OnSocket w -> awaited (onSocket text_of JSON_parse w ev env s).
Proof.
  intros E. assert (awaited s) as H by (apply awaited_calm; by rewrite E). destruct ev; cbn [onSocket]; try done.
  - destruct (closing w); [done|]. unfold handleWsMessage. destruct (JSON_parse data) as [frame|]; [|done].
    assert (awaited (noteActivity env s)) as Hn by by apply (awaited_same s). assert (awaited (closeSocket (noteActivity env s))) as Hc by (by eapply (awaited_feeds false); [apply feeds_close|]).
    destruct frame as [| | | | |fields]; [done|..]; cbv zeta;
      (case_bool_decide; [unfold wsReady; cbv zeta; destruct (settled w); [case_match; [by apply (awaited_same s)|done]|apply awaited_established]|];
       case_bool_decide; [done|]; destruct (establishing w); [case_bool_decide; done|]; destruct (readySeen w); [|done];
       eapply (awaited_feeds true); [apply feeds_ready_frame|done]).
  - case_match; [done|]. apply awaited_calm, calm_wsThrew.
  - unfold settleClose. repeat case_match; apply awaited_calm; first [apply calm_wsThrew|apply calm_resolved].
  - case_match; [done|]. apply awaited_calm, calm_wsThrew.
Qed.

Lemma awaited_attempt ev env s : awaited s -> awaited (attempt text_of JSON_parse ev env s).
Proof.
  intros H. unfold attempt. destruct (phase s) as [|w|hc|b hc|raw rest|b|due|] eqn:E; try done; [|by apply awaited_socket|..]; destruct ev; try done; cbn [onFetch onOpening onLive].
  - unfold authResolved. repeat case_match; apply awaited_calm; first [done|apply calm_threw|apply calm_wsThrew].
  - apply awaited_calm, calm_threw.
  - unfold sseRefused. case_match; apply awaited_calm; first [apply calm_threw|apply calm_resolved].
  - destruct body; apply awaited_calm; [done|apply calm_resolved].
  - apply awaited_calm, calm_threw.
  - apply awaited_drained_opening.
  - apply awaited_calm, calm_threw.
  - apply awaited_calm, calm_threw.
  - apply awaited_calm, calm_threw.
  - apply awaited_calm, calm_drained_live.
  - apply awaited_calm, calm_resolved.
  - apply awaited_calm, calm_threw.
  - case_bool_decide; [|done]. apply awaited_calm, calm_next.
Qed.

Lemma awaited_recovered r env s : awaited s -> awaited (recovered text_of JSON_parse r env s).
Proof.
  intros H. unfold recovered. cbv zeta. destruct (adopt_keeps r (forget r s)) as (Ep & Er & _). set (s1 := adopt r (forget r s)) in *.
  case_bool_decide as E.
  - destruct (phase s1) as [|w| | |raw rest| | |] eqn:E1; try by apply awaited_calm; rewrite E1.
    + destruct (establishing w); [|by apply awaited_calm; rewrite E1]. unfold wsRecovered.
      eapply (awaited_feeds true); [apply feeds_fold; intros; apply feeds_ready_frame|]. by apply awaited_calm.
    + unfold sseRecovered. case_match; apply awaited_calm; first [apply calm_resolved|apply calm_drained_live].
  - apply awaited_adopt, awaited_forget; [|done]. by rewrite Er in E.
Qed.

Lemma awaited_recoveryFailed r error env s : awaited s -> awaited (recoveryFailed r error env s).
Proof.
  intros H. unfold recoveryFailed. cbv zeta. case_bool_decide as E; [|by apply awaited_forget].
  destruct (phase (forget r s)) as [|w| | |raw rest| | |] eqn:E1; try by apply awaited_calm; rewrite E1.
  - destruct (establishing w); [apply awaited_calm, calm_wsThrew|by apply awaited_calm; rewrite E1].
  - apply awaited_calm, calm_threw.
Qed.

Lemma awaited_step ev env s : awaited s -> awaited (pipe_step text_of JSON_parse ev env s).
Proof.
  intros H. destruct ev; cbn [pipe_step]; try by apply awaited_attempt.
  - case_match; [by apply awaited_recovered|done].
  - case_match; [by apply awaited_recoveryFailed|done].
  - unfold flushTimer. destruct (SyncQueues.step _ _ _ _) as [q out]. assert (awaited (set_queues q s)) as H1 by by apply (awaited_same s).
    revert H1. generalize (set_queues q s). induction out as [|batch out IH]; intros s1 H1; [done|]. cbn [fold_left]. by apply IH, (awaited_same s1).
  - case_match; [by apply awaited_abort|done].
  - case_match; [done|by apply awaited_interrupt].
  - case_match; [|done]. by apply awaited_resume, (awaited_same s).
  - by apply awaited_interrupt, (awaited_same s).
  - by apply awaited_interrupt, (awaited_same s).
  - by apply (awaited_same s).
Qed.

Lemma awaited_run evs s : awaited s -> awaited (pipe_run text_of JSON_parse evs s).
Proof. revert s. induction evs as [|[ev env] evs IH]; intros s H; [done|]. apply IH. by apply awaited_step. Qed.

Lemma pipe_run_app evs1 evs2 s : pipe_run text_of JSON_parse (evs1 ++ evs2) s = pipe_run text_of JSON_parse evs2 (pipe_run text_of JSON_parse evs1 s).
Proof. unfold pipe_run. apply fold_left_app. Qed.

(** *** The end *)

(** What the environment answers an aborted attempt, by what the loop waits for. *)
Definition answer (s : PipelineState) : Event :=
  match phase s with
  | Authorizing => AuthFailed "AbortError"
  | OnSocket _ => SocketClose
  | Fetching _ => FetchFailed "AbortError"
  | Opening _ _ | Live _ => StreamFailed "AbortError"
  | Recovering _ _ => Recovered (round s)
  | Waiting _ | Ended => RetryTimer
  end.

Definition answered (env : Env) (s : PipelineState) : PipelineState := pipe_step text_of JSON_parse (answer s) env s.

(** At most one wait is left, and it is bounded. *)
Definition over (n : Z) (s : PipelineState) : Prop :=
  phase s = Ended \/ exists due, phase s = Waiting due /\ due <= n + RETRY_BACKOFF_CAP_HIDDEN_OR_OFFLINE_MS.

Lemma over_next env s : stopped s = true -> over (now env) (nextRound env s).
Proof. intros H. unfold nextRound. rewrite H. by left. Qed.

Lemma over_disconnect reason p env s : over (now env) (disconnect reason p env s).
Proof.
  right. eexists. split; [done|]. destruct (retry_delay_bounds (failures (if everConnected (set_failures (failures s + 1) s) then set_failures (failures s + 1) s else set_before true (set_failures (failures s + 1) s))) (visible env) (online env) p) as [[_ Hb] _].
  unfold RETRY_BACKOFF_CAP_VISIBLE_MS, RETRY_BACKOFF_CAP_HIDDEN_OR_OFFLINE_MS in *. destruct (visible env && online env); lia.
Qed.

Lemma over_threw t error p env s : stopped s = true -> over (now env) (roundThrew t error p env s).
Proof. intros H. unfold roundThrew. rewrite H. by left. Qed.

Lemma over_resolved t env s : stopped s = true -> over (now env) (roundResolved t env s).
Proof. intros H. unfold roundResolved. repeat case_match; first [apply over_disconnect|by apply over_next]. Qed.

Lemma over_wsThrew error env s : stopped s = true -> over (now env) (wsThrew error env s).
Proof. intros H. unfold wsThrew. destruct (choice s); first [by apply over_next|by apply over_threw]. Qed.

(** An attempt of a stopped pipeline that is answered is over. *)
Lemma stopped_answer env s : stopped s = true -> aborted (round s) s = true -> awaited s -> attempting (phase s) = true -> over (now env) (answered env s).
Proof.
  intros Hs Hb Hw Ha. unfold answered, answer. destruct (phase s) as [|w|hc|b hc|raw rest|b|due|] eqn:E; try done; cbn [pipe_step]; unfold attempt; rewrite ?E; cbn [onSocket onFetch onOpening onLive].
  - by apply over_threw.
  - unfold settleClose. repeat case_match; first [by apply over_wsThrew|by apply over_resolved].
  - by apply over_threw.
  - apply over_threw. unfold unopened. by destruct (aborted _ _).
  - rewrite bool_decide_true by (apply Hw; by rewrite E). unfold recovered. cbv zeta. set (s1 := adopt (round s) (forget (round s) s)).
    assert (s1 = note (RecoveryDone (round s)) (forget (round s) s)) as E1 by (unfold s1, adopt; cbn [stopped note forget set_recovering]; by rewrite Hs).
    rewrite E1, bool_decide_true by done. cbn [phase note forget set_recovering]. rewrite E. unfold sseRecovered.
    replace (aborted _ _) with true by done. by apply over_resolved.
  - by apply over_threw.
Qed.

(** C25. Cleaning up ends the loop: whatever came before and comes after, no round is
    begun any more; once the attempt in flight is answered the loop has ended or waits
    for one retry timer, due within a minute, and that timer ends it. *)
Theorem cleanup_ends_the_loop c env0 evs1 env evs2 :
  let before := pipe_run text_of JSON_parse evs1 (createEventPipeline c env0) in
  let s := pipe_run text_of JSON_parse evs2 (pipe_step text_of JSON_parse Cleanup env before) in
  starts s = starts before /\
  (attempting (phase s) = true -> forall env', over (now env') (answered env' s)) /\
  (forall due env', phase s = Waiting due -> due <= now env' -> phase (pipe_step text_of JSON_parse RetryTimer env' s) = Ended).
Proof.
  intros before s. set (b1 := note Poked (set_queues (clear (queues before)) (set_intent true (set_stopped before)))).
  assert (halted (abort PlainAbort b1) (pipe_step text_of JSON_parse Cleanup env before)) as H1.
  { apply halted_resume, halted_refl. by apply (ht_stopped b1), halted_abort, halted_refl. }
  assert (halted (abort PlainAbort b1) s) as H.
  { unfold s. revert H1. generalize (pipe_step text_of JSON_parse Cleanup env before). clear s. induction evs2 as [|[ev e] evs2 IH]; intros s1 H1; [done|]. by apply IH, halted_step. }
  split; [|split].
  - rewrite (ht_starts _ _ H). transitivity (starts b1); [apply (ht_starts b1), halted_abort; by apply halted_refl|]. unfold b1. by rewrite starts_note, Z.add_0_r.
  - intros Ha env'. apply stopped_answer; [apply H| | |done].
    + rewrite (ht_round _ _ H). apply (ht_aborted _ _ H), abort_aborts.
    + apply awaited_run, awaited_step, awaited_run, awaited_calm, calm_start.
  - intros due env' E Hd. cbn [pipe_step]. unfold attempt. rewrite E, bool_decide_true by done. unfold nextRound. cbn [stopped note]. by rewrite (ht_stopped _ _ H).
Qed.

End awaiting.

(** ** Events in the order of the wire *)

Section order.
  Context (text_of : json -> string) (JSON_parse : string -> option json).

(** The event a message of an open socket carries. *)
Definition wire_event (data : string) : option HarnessEvent :=
  match JSON_parse data with
  | Some frame => mjoin (deliverable text_of (ws_event frame) (jfield "directory" frame))
  | None => None
  end.

(** The message is an event frame. *)
Definition event_frame (data : string) : Prop := exists frame, JSON_parse data = Some frame /\ frame_kind text_of frame = "event".

Definition messages (ms : list (string * Env)) : list (Event * Env) := (fun m => (SocketMessage m.1, m.2)) <$> ms.

Definition pushes (r : nat) (ms : list string) : list Effect := Pushed r <$> omap wire_event ms.

Lemma event_frame_message data w env s : event_frame data -> phase s = OnSocket w -> closing w = false ->
  exists frame, JSON_parse data = Some frame /\
  pipe_step text_of JSON_parse (SocketMessage data) env s =
    if establishing w then
      if bool_decide (2048 <= length (pending w))%nat then closeSocket (noteActivity env s)
      else set_phase (OnSocket (mkWs (readySeen w) true (pending w ++ [frame]) (settled w) (openedAt w) false)) (noteActivity env s)
    else if readySeen w then deliver text_of (ws_event frame) (jfield "directory" frame) env (noteActivity env s) else noteActivity env s.
Proof.
  intros (frame & Ep & Ek) E Ec. exists frame. split; [done|]. cbn [pipe_step]. unfold attempt. rewrite E. cbn [onSocket]. unfold handleWsMessage. rewrite Ep, Ec.
  unfold processReadyWsFrame. cbv zeta. destruct frame; [done|..]; by rewrite Ek, ?Ec.
Qed.

Lemma deliver_log raw hint env s :
  log (deliver text_of raw hint env s) = log s ++ (match mjoin (deliverable text_of raw hint) with Some e => [Pushed (round s) e] | None => [] end) /\
  phase (deliver text_of raw hint env s) = phase s /\ round (deliver text_of raw hint env s) = round s.
Proof.
  unfold deliver. destruct (deliverable _ _ _) as [[e|]|]; cbn [mjoin option_join]; [|by rewrite app_nil_r..].
  cbv zeta. destruct (ev_id e); [case_match|]; done.
Qed.

Lemma pushes_cons r m ms : pushes r (m :: ms) = (match wire_event m with Some e => [Pushed r e] | None => [] end) ++ pushes r ms.
Proof. unfold pushes. cbn. by destruct (wire_event m). Qed.

(** Frames that arrive during the recovery are kept. *)
Lemma frames_are_kept ms w s :
  Forall event_frame ms.*1 -> phase s = OnSocket w -> establishing w = true -> closing w = false -> (length (pending w) + length ms <= 2048)%nat ->
  exists frames, Forall2 (fun m frame => JSON_parse m = Some frame) ms.*1 frames /\
    let s' := pipe_run text_of JSON_parse (messages ms) s in
    phase s' = OnSocket (mkWs (readySeen w) true (pending w ++ frames) (settled w) (openedAt w) false) /\
    log s' = log s /\ round s' = round s /\ recovering s' = recovering s.
Proof.
  revert w s. induction ms as [|[m env] ms IH]; intros w s Hf E Ee Ec Hl.
  { exists []. split; [constructor|]. cbn. rewrite app_nil_r. destruct w; cbn in *. by subst. }
  apply Forall_cons in Hf as [Hm Hf]. destruct (event_frame_message m w env s Hm E Ec) as (frame & Ep & Es).
  rewrite Ee, bool_decide_false in Es by (cbn in Hl; lia). set (w1 := mkWs _ _ _ _ _ _) in Es. set (s1 := set_phase (OnSocket w1) (noteActivity env s)) in Es.
  destruct (IH w1 s1 Hf) as (frames & F & H); [done..|cbn; rewrite length_app; cbn in Hl |- *; lia|].
  exists (frame :: frames). split; [by constructor|]. unfold pipe_run, messages in *. cbn [fmap list_fmap fold_left fst snd]. rewrite Es. cbv zeta in H |- *. destruct H as (H1 & H2 & H3 & H4).
  rewrite H1, H2, H3, H4. cbn [readySeen pending settled openedAt w1 log round recovering s1 set_phase]. rewrite <- app_assoc. done.
Qed.

(** Frames of an open socket are pushed as they come. *)
Lemma frames_are_pushed ms w s :
  Forall event_frame ms.*1 -> phase s = OnSocket w -> establishing w = false -> readySeen w = true -> closing w = false ->
  log (pipe_run text_of JSON_parse (messages ms) s) = log s ++ pushes (round s) ms.*1.
Proof.
  revert s. induction ms as [|[m env] ms IH]; intros s Hf E Ee Er Ec; [by cbn; rewrite app_nil_r|].
  apply Forall_cons in Hf as [Hm Hf]. destruct (event_frame_message m w env s Hm E Ec) as (frame & Ep & Es). rewrite Ee, Er in Es.
  destruct (deliver_log (ws_event frame) (jfield "directory" frame) env (noteActivity env s)) as (H1 & H2 & H3).
  unfold pipe_run, messages. cbn [fmap list_fmap fold_left fst snd]. rewrite Es.
  change (fold_left _ _ ?x) with (pipe_run text_of JSON_parse (messages ms) x). rewrite IH; [|done|by rewrite H2|done..].
  rewrite H1, H3, pushes_cons, <- app_assoc. unfold wire_event at 1. by rewrite Ep.
Qed.

Lemma pending_are_pushed frames env s :
  Forall (fun frame => frame_kind text_of frame = "event") frames ->
  let s' := fold_left (fun s frame => processReadyWsFrame text_of frame env s) frames s in
  log s' = log s ++ (Pushed (round s) <$> omap (fun frame => mjoin (deliverable text_of (ws_event frame) (jfield "directory" frame))) frames) /\
  phase s' = phase s /\ round s' = round s.
Proof.
  revert s. induction frames as [|frame frames IH]; intros s Hf; cbv zeta; [by cbn; rewrite app_nil_r|]. apply Forall_cons in Hf as [Hk Hf]. cbn [fold_left].
  assert (processReadyWsFrame text_of frame env s = deliver text_of (ws_event frame) (jfield "directory" frame) env s) as ->.
  { unfold processReadyWsFrame. by rewrite Hk. }
  destruct (deliver_log (ws_event frame) (jfield "directory" frame) env s) as (H1 & H2 & H3).
  destruct (IH (deliver text_of (ws_event frame) (jfield "directory" frame) env s) Hf) as (I1 & I2 & I3). rewrite I1, I2, I3, H1, H2, H3, <- app_assoc.
  split; [|done]. cbn [omap list_omap]. by destruct (mjoin _).
Qed.

(** C22. A recovery delays the events of a socket and loses none: up to 2048 event
    frames that arrive while the reconciliation runs push nothing, and when it is done
    they and the frames that follow are pushed exactly in the order of the wire. *)
Theorem recovery_keeps_the_order w s ms env ms' :
  phase s = OnSocket w -> establishing w = true -> closing w = false -> pending w = [] -> round s ∈ recovering s ->
  Forall event_frame ms.*1 -> Forall event_frame ms'.*1 -> (length ms <= 2048)%nat ->
  log (pipe_run text_of JSON_parse (messages ms) s) = log s /\
  exists adopted, (adopted = [] \/ adopted = [Adopted (round s)]) /\
  log (pipe_run text_of JSON_parse (messages ms ++ (Recovered (round s), env) :: messages ms') s) =
    log s ++ RecoveryDone (round s) :: adopted ++ pushes (round s) (ms.*1 ++ ms'.*1).
Proof.
  intros E Ee Ec Ep Hr Hm Hm' Hl. destruct (frames_are_kept ms w s Hm E Ee Ec) as (frames & F & H1 & H2 & H3 & H4); [by rewrite Ep|].
  split; [done|]. rewrite pipe_run_app. set (s1 := pipe_run _ _ (messages ms) s) in *. rewrite Ep in H1. cbn [app] in H1. set (w1 := mkWs _ _ frames _ _ _) in H1.
  set (s2 := adopt (round s) (forget (round s) s1)). destruct (adopt_keeps (round s) (forget (round s) s1)) as (Ea & Er & _). fold s2 in Ea, Er.
  assert (pipe_step text_of JSON_parse (Recovered (round s)) env s1 = wsRecovered text_of w1 env s2) as Es.
  { cbn [pipe_step]. rewrite bool_decide_true by by rewrite H4. unfold recovered. cbv zeta. fold s2.
    rewrite bool_decide_true by (by rewrite Er; cbn; rewrite H3). rewrite Ea. cbn [phase forget set_recovering]. rewrite H1. done. }
  assert (Forall (fun frame => frame_kind text_of frame = "event") frames) as Hk.
  { clear -F Hm. induction F as [|m frame l frames Hp F IH]; [done|]. apply Forall_cons in Hm as [(f & Hf & Hk) Hm]. constructor; [congruence|auto]. }
  assert (omap (fun frame => mjoin (deliverable text_of (ws_event frame) (jfield "directory" frame))) frames = omap wire_event ms.*1) as Eo.
  { clear -F. induction F as [|m frame l frames Hp F IH]; [done|]. cbn [omap list_omap]. rewrite IH.
    assert (wire_event m = mjoin (deliverable text_of (ws_event frame) (jfield "directory" frame))) as -> by (unfold wire_event; by rewrite Hp). done. }
  exists (if stopped s1 || aborted (round s) s1 then [] else [Adopted (round s)]). split; [case_match; first [by left|by right]|].
  unfold pipe_run at 1. cbn [fold_left fst snd]. rewrite Es. change (fold_left _ _ ?x) with (pipe_run text_of JSON_parse (messages ms') x). unfold wsRecovered.
  cbn [pending w1]. set (s3 := set_phase _ s2). destruct (pending_are_pushed frames env s3 Hk) as (I1 & I2 & I3). cbv zeta in I1, I2, I3.
  rewrite (frames_are_pushed ms' (mkWs true false [] (settled w1) (openedAt w1) (closing w1))); [|done|by rewrite I2|done..].
  assert (round s3 = round s) as Er3 by (cbn; rewrite Er; exact H3). rewrite I1, I3, Er3, Eo. unfold pushes. rewrite omap_app, fmap_app.
  assert (log s3 = log s ++ RecoveryDone (round s) :: (if stopped s1 || aborted (round s) s1 then [] else [Adopted (round s)])) as ->.
  { cbn [log set_phase s3]. unfold s2, adopt. cbv zeta. cbn [stopped note forget set_recovering]. change (aborted (round s) (note (RecoveryDone (round s)) (forget (round s) s1))) with (aborted (round s) s1).
    rewrite <- H2. case_match; cbn [log note set_connected forget set_recovering]; by rewrite <- ?app_assoc. }
  by rewrite <- !app_assoc.
Qed.
End order.

(** ** Runs of note *)

Definition env_at (t : Z) : Env := {| now := t; visible := true; online := true; recentBoot := false; webSocket := true |}.

Definition ex_event (i kind : string) (props : list (string * json)) : json :=
  JObj [("type", JStr "event"); ("directory", JStr "/w"); ("eventId", JStr i); ("payload", JObj [("type", JStr kind); ("properties", JObj props)])].

Definition ex_chunk (i text : string) : json :=
  ex_event i "message.part.delta" [("messageID", JStr "m"); ("partID", JStr "p"); ("field", JStr "text"); ("delta", JStr text)].

(** The texts of the runs below, by name. *)
Definition ex_parse (s : string) : option json :=
  jget s [("ready", JObj [("type", JStr "ready")]); ("reset", JObj [("type", JStr "ready"); ("replayReset", JBool true)]);
          ("e1", ex_chunk "1" "a"); ("e2", ex_event "2" "message.updated" []); ("e3", ex_chunk "3" "b")].

Definition timed_events (evs : list (Event * Z)) : list (Event * Env) := (fun ev => (ev.1, env_at ev.2)) <$> evs.

#[local] Abbreviation ex_run c evs := (pipe_run (fun _ => "") ex_parse (timed_events evs) (createEventPipeline c (env_at 1000))).

(** A socket that opened and recovered. *)
Definition ex_opened : list (Event * Z) :=
  [(AuthResolved None, 1001); (SocketOpen, 1002); (SocketMessage "ready", 1003); (Recovered 1%nat, 1004)].

(** What the subscriber was given. *)
Definition handed (s : PipelineState) : list HarnessEvent :=
  flat_map (fun x => match x with Delivered _ es => es | _ => [] end) (log s).

(** A batch is flushed in the order of its slots, and a delta that was joined to an
    earlier one keeps the earlier slot: the flush sets the cursor back to the event
    before it, although both were handed over, and a reconnect asks for the delta
    again. *)
Lemma flush_rewinds_the_cursor :
  let before := ex_run OnlyWs (ex_opened ++ [(SocketMessage "e1", 1005); (SocketMessage "e2", 1006); (SocketMessage "e3", 1007)]) in
  let after := ex_run OnlyWs (ex_opened ++ [(SocketMessage "e1", 1005); (SocketMessage "e2", 1006); (SocketMessage "e3", 1007); (FlushTimer "/w", 1040)]) in
  lastEventId before = Some "3" /\ lastEventId after = Some "2" /\ (ev_id <$> handed after) = [Some "3"; Some "2"].
Proof. by vm_compute. Qed.

(** A socket that reports a reset clears the cursor and leaves the queues: the timer of
    an event queued on the socket before it sets the cursor to what the server has
    just disowned. The stream attempt clears the queues with the cursor. *)
Lemma flush_revives_a_reset_cursor :
  let evs := ex_opened ++ [(SocketMessage "e1", 4000); (WindowEvent, 4001); (SocketClose, 4002);
                           (AuthResolved None, 4003); (SocketOpen, 4004); (SocketMessage "reset", 4005)] in
  lastEventId (ex_run OnlyWs evs) = None /\ lastEventId (ex_run OnlyWs (evs ++ [(FlushTimer "/w", 4033)])) = Some "1".
Proof. by vm_compute. Qed.

(** [cleanup] clears the queues before the socket of a recovery is closed: the recovery
    that ends before the close event still pushes what was pending, and its timer hands
    it to the subscriber of a stopped pipeline. *)
Lemma cleanup_still_delivers :
  let evs := [(AuthResolved None, 1001); (SocketOpen, 1002); (SocketMessage "ready", 1003); (SocketMessage "e1", 1004); (Cleanup, 1005)] in
  stopped (ex_run OnlyWs evs) = true /\ handed (ex_run OnlyWs evs) = [] /\
  (ev_id <$> handed (ex_run OnlyWs (evs ++ [(Recovered 1%nat, 1006); (FlushTimer "/w", 1040)]))) = [Some "1"].
Proof. by vm_compute. Qed.

(** An interruption of a socket that is still opening is taken for a failure of the
    transport: the pipeline falls back to the stream for a minute. *)
Lemma interrupt_abandons_the_socket :
  let s := ex_run AutoTransport [(AuthResolved None, 1001); (WindowEvent, 1002); (SocketClose, 1003)] in
  phase s = Fetching false /\ wsFallbackUntil s = 61003 /\ Switched "ws_fallback:Error: ws_closed_before_ready" ∈ log s.
Proof. split_and!; [by vm_compute..|]. apply list_elem_of_In. vm_compute. tauto. Qed.

(** A heartbeat abort that settles after [cleanup] is reported as a disconnection. *)
Lemma heartbeat_is_reported_after_cleanup :
  let evs := ex_opened ++ [(HeartbeatTick, 31005); (Cleanup, 31006)] in
  let is_lost x := match x with Disconnected _ _ => true | _ => false end in
  count is_lost (log (ex_run OnlyWs evs)) = 0 /\ count is_lost (log (ex_run OnlyWs (evs ++ [(SocketClose, 31007)]))) = 1.
Proof. by vm_compute. Qed.

(** ** Witnesses *)

Lemma first_mark (f : Effect -> bool) l : existsb f l = true -> exists l1 x l2, l = l1 ++ x :: l2 /\ f x = true.
Proof. intros H. apply existsb_exists in H as (x & Hx & Hf). apply in_split in Hx as (l1 & l2 & ->). by exists l1, x, l2. Qed.

Lemma live_events_wait_for_recovery_witness :
  exists l1 r e l2, log (ex_run OnlyWs (ex_opened ++ [(SocketMessage "e1", 1005)])) = l1 ++ Pushed r e :: l2 /\ RecoveryDone r ∈ l1.
Proof.
  destruct (first_mark (fun x => match x with Pushed _ _ => true | _ => false end) (log (ex_run OnlyWs (ex_opened ++ [(SocketMessage "e1", 1005)])))) as (l1 & x & l2 & E & Hx);
    [by vm_compute|]. destruct x as [| | | |r e| | | | | |]; try done.
  exists l1, r, e, l2. split; [exact E|].
  exact (live_events_wait_for_recovery (fun _ => "") ex_parse OnlyWs (env_at 1000) (timed_events (ex_opened ++ [(SocketMessage "e1", 1005)])) l1 r e l2 E).
Defined.

Lemma reconnects_are_reconciled_witness :
  exists l1 r t l2 reset gap boot, log (ex_run OnlyWs ex_opened) = l1 ++ Connected r t reset true gap boot :: l2 /\ reset = false.
Proof.
  destruct (first_mark (fun x => match x with Connected _ _ _ true _ _ => true | _ => false end) (log (ex_run OnlyWs ex_opened))) as (l1 & x & l2 & E & Hx);
    [by vm_compute|]. destruct x as [|r t reset [] gap boot| | | | | | | | |]; try done.
  exists l1, r, t, l2, reset, gap, boot. split; [exact E|].
  exact (proj1 (reconnects_are_reconciled (fun _ => "") ex_parse OnlyWs (env_at 1000) (timed_events ex_opened) l1 r t reset gap boot l2 E)).
Defined.

Lemma rounds_are_rate_limited_witness :
  let evs := [(AuthFailed "e", env_at 1001); (RetryTimer, env_at 1251); (WindowEvent, env_at 1300); (AuthFailed "e", env_at 1301)] in
  starts (pipe_run (fun _ => "") ex_parse evs (createEventPipeline OnlyWs (env_at 1000))) = 3 /\
  starts (pipe_run (fun _ => "") ex_parse evs (createEventPipeline OnlyWs (env_at 1000))) <= 4.
Proof.
  split; [by vm_compute|].
  pose proof (rounds_are_rate_limited (fun _ => "") ex_parse OnlyWs (env_at 1000)
    [(AuthFailed "e", env_at 1001); (RetryTimer, env_at 1251); (WindowEvent, env_at 1300); (AuthFailed "e", env_at 1301)]) as H.
  etransitivity; [apply H; [by vm_compute|cbn; lia]|]. by vm_compute.
Defined.

Lemma cleanup_ends_the_loop_witness :
  let s := pipe_run (fun _ => "") ex_parse [] (pipe_step (fun _ => "") ex_parse Cleanup (env_at 1010) (ex_run OnlyWs ex_opened)) in
  attempting (phase s) = true /\ over 1011 (answered (fun _ => "") ex_parse (env_at 1011) s).
Proof.
  assert (attempting (phase (pipe_run (fun _ => "") ex_parse [] (pipe_step (fun _ => "") ex_parse Cleanup (env_at 1010) (ex_run OnlyWs ex_opened)))) = true) as Ha
    by by vm_compute.
  split; [exact Ha|].
  destruct (cleanup_ends_the_loop (fun _ => "") ex_parse OnlyWs (env_at 1000) (timed_events ex_opened) (env_at 1010) []) as (_ & H & _).
  exact (H Ha (env_at 1011)).
Defined.

Definition ex_ready : PipelineState := ex_run OnlyWs [(AuthResolved None, 1001); (SocketOpen, 1002); (SocketMessage "ready", 1003)].

Lemma recovery_keeps_the_order_witness :
  log (pipe_run (fun _ => "") ex_parse (messages [("e1", env_at 1004)]) ex_ready) = log ex_ready /\
  pushes (fun _ => "") ex_parse 1%nat ["e1"; "e2"] <> [].
Proof.
  split; [|by vm_compute].
  destruct (recovery_keeps_the_order (fun _ => "") ex_parse (mkWs false true [] true 1002 false) ex_ready [("e1", env_at 1004)] (env_at 1005) [("e2", env_at 1006)]) as [H _];
    [by vm_compute|done|done|done|apply list_elem_of_In; vm_compute; tauto|repeat constructor; by eexists|repeat constructor; by eexists|cbn; lia|exact H].
Defined.
