(* ===== verification/SyncProjection.v ===== *)
(** Sessions and their harness projection in the UI sync engine
    (ui/src/sync/nna-projection.ts, the session half of event-equality.ts and of
    sanitize.ts).

    A session record carries the members the reducers look at; the others, and the
    members of its metadata, are kept as JSON. The retired epochs, a WeakMap of the code
    keyed by the frame object, travel with the session that holds the frame. Records of
    the harness are taken to have the members their TypeScript types ask for. *)

From S2P Require Import Prelude JsString JsMap JsValue.

Local Open Scope Z_scope.

(** ** Frames *)

Definition PHASES : list string := ["idle"; "preparing"; "waiting_provider"; "reasoning"; "streaming"; "awaiting_approval"; "running_tool"; "recovering"; "attention_required"; "cancelling"; "failed"; "needs_input"].
Definition KEYS : list string := ["version"; "sessionID"; "epoch"; "revision"; "updatedAt"; "turnState"; "activeTools"; "context"].

Record NnaProjection := {
  frame_doc : list (string * json); f_sessionID : string; f_epoch : string; f_revision : Z; f_updatedAt : Z; f_turnState : json; f_activeTools : json; f_context : json }.

Definition id_char (a : ascii) : bool := is_alnum a || Ascii.eqb a "." || Ascii.eqb a "_" || Ascii.eqb a ":" || Ascii.eqb a "-".
Definition is_control (a : ascii) : bool := bool_decide (nat_of_ascii a < 32)%nat || bool_decide (nat_of_ascii a = 127%nat).
Definition has_control (s : string) : bool := negb (sall (fun a => negb (is_control a)) s).

(** The two regular expressions and the number tests. *)
Definition is_id (s : string) : bool :=
  match s with String a rest => is_alnum a && sall id_char rest && bool_decide (slen rest <= 127) | EmptyString => false end.

Definition positive (v : option json) : option Z := match safe_int v with Some z => if bool_decide (0 < z) then Some z else None | None => None end.

Definition phase_ok (v : json) : bool :=
  match v with
  | JNull => true
  | JObj [("phase", JStr p)] => bool_decide (p ∈ PHASES)
  | _ => false
  end.

Definition name_ok (v : json) : bool :=
  match v with JStr s => negb (bool_decide (trim s = "")) && bool_decide (slen s <= 128) && negb (has_control s) | _ => false end.

Definition tools_ok (v : json) : bool :=
  match v with
  | JNull => true
  | JObj fs =>
    bool_decide (length fs = 2%nat) &&
    match safe_int (jget "count" fs), jget "names" fs with
    | Some n, Some (JArr names) => bool_decide (0 <= n <= 64) && bool_decide (Zlen names = n) && forallb name_ok names
    | _, _ => false
    end
  | _ => false
  end.

Definition context_ok (v : json) : bool :=
  match v with
  | JNull => true
  | JObj fs =>
    bool_decide (length fs = 4%nat) && is_str (jget "measurement" fs) "estimated" &&
    match safe_int (jget "estimatedTokens" fs) with Some n => bool_decide (0 <= n) | None => false end &&
    match jget "limitTokens" fs with Some JNull => true | l => bool_decide (is_Some (positive l)) end &&
    bool_decide (is_Some (positive (jget "observedAt" fs)))
  | _ => false
  end.

Definition parseNnaProjection (value : option json) : option NnaProjection :=
  match value with
  | Some (JObj fs) =>
    if negb (bool_decide (length fs = length KEYS)) || negb (forallb (fun k => jhas k fs) KEYS) || negb (is_str (jget "version" fs) "1.0") then None
    else match jget "sessionID" fs, jget "epoch" fs, positive (jget "revision" fs), positive (jget "updatedAt" fs), jget "turnState" fs, jget "activeTools" fs, jget "context" fs with
    | Some (JStr sid), Some (JStr e), Some r, Some u, Some phase, Some tools, Some ctx =>
      if is_id sid && is_id e && phase_ok phase && tools_ok tools && context_ok ctx
      then Some {| frame_doc := fs; f_sessionID := sid; f_epoch := e; f_revision := r; f_updatedAt := u; f_turnState := phase; f_activeTools := tools; f_context := ctx |}
      else None
    | _, _, _, _, _, _, _ => None
    end
  | _ => None
  end.

(** ** Sessions *)

(** [s_nnd] is [metadata.nnd], [s_doc] the members that are not named here. *)
Record Session := {
  s_id : string; s_parent : option string; s_created : Z; s_updated : Z; s_archived : option Z;
  s_nnd : option (list (string * json)); s_doc : list (string * json); s_retired : list string }.

#[export] Instance Session_eq_dec : EqDecision Session.
Proof. solve_decision. Defined.

Definition sessionProjection (s : Session) : option NnaProjection :=
  match parseNnaProjection (s_nnd s ≫= jget "projection") with
  | Some f => if bool_decide (f_sessionID f = s_id s) then Some f else None
  | None => None
  end.

(** [current] comes with its retired epochs. *)
Definition staleProjection (current : option NnaProjection) (retired : list string) (incoming : NnaProjection) (equal : bool) : bool :=
  match current with
  | None => false
  | Some c =>
    if bool_decide (f_epoch c = f_epoch incoming)
    then bool_decide (f_revision incoming < f_revision c) || equal && bool_decide (f_revision incoming = f_revision c)
    else bool_decide (f_epoch incoming ∈ retired)
  end.

(** [new Set(...)] of a list, in insertion order. *)
Definition set_add (l : list string) (x : string) : list string := if bool_decide (x ∈ l) then l else l ++ [x].
Definition set_of (l : list string) : list string := foldl set_add [] l.

(** [slice(-n)] *)
Definition last_n {A} (n : nat) (l : list A) : list A := drop (length l - n) l.

(** The retired epochs of the incoming frame afterwards. *)
Definition rememberEpochs (current : option NnaProjection) (current_retired : list string) (incoming : NnaProjection) (retired : list string) : list string :=
  match current with
  | None => retired
  | Some c =>
    let all := set_of (retired ++ current_retired) in
    last_n 32 (if bool_decide (f_epoch c = f_epoch incoming) then all else set_add all (f_epoch c))
  end.

Definition with_retired (l : list string) (s : Session) : Session :=
  {| s_id := s_id s; s_parent := s_parent s; s_created := s_created s; s_updated := s_updated s; s_archived := s_archived s; s_nnd := s_nnd s; s_doc := s_doc s; s_retired := l |}.

Definition adoptSessionProjection (current : option Session) (incoming : Session) : Session :=
  match sessionProjection incoming with
  | Some frame => with_retired (rememberEpochs (current ≫= sessionProjection) (default [] (s_retired <$> current)) frame (s_retired incoming)) incoming
  | None => incoming
  end.

Definition nnd_with (key : string) (v : json) (nnd : list (string * json)) : list (string * json) := match v with JNull => jdel key nnd | _ => jset key v nnd end.

Definition applyNnaProjection (s : Session) (frame : NnaProjection) : Session :=
  let previous := sessionProjection s in
  let nnd := jset "projection" (JObj (frame_doc frame)) (default [] (s_nnd s)) in
  let nnd := nnd_with "context" (f_context frame) (nnd_with "activeTools" (f_activeTools frame) (nnd_with "turnState" (f_turnState frame) nnd)) in
  let updated := match previous with
    | Some p => if bool_decide (f_epoch p = f_epoch frame) then Z.max (s_updated s) (f_updatedAt frame) else f_updatedAt frame
    | None => Z.max (s_updated s) (f_updatedAt frame)
    end in
  {| s_id := s_id s; s_parent := s_parent s; s_created := s_created s; s_updated := updated; s_archived := s_archived s; s_nnd := Some nnd; s_doc := s_doc s;
     s_retired := rememberEpochs previous (s_retired s) frame [] |}.

(** ** Guards *)

Definition sessionRecency (s : Session) : Z := Z.max (s_updated s) (s_created s).

Definition shouldSkipStaleSessionEvent (current : option Session) (incoming : Session) : bool :=
  match current with
  | None => false
  | Some cur =>
    let by_time := bool_decide (sessionRecency incoming < sessionRecency cur) in
    match sessionProjection incoming with
    | Some f =>
      if staleProjection (sessionProjection cur) (s_retired cur) f false then true
      else match sessionProjection cur with
      | Some c => if bool_decide (f_epoch f = f_epoch c) then by_time else false
      | None => by_time
      end
    | None => by_time
    end
  end.

Definition stripDiffStrings (v : json) : json :=
  match v with JObj fs => JObj (jdel "to" (jdel "from" (jdel "after" (jdel "before" fs)))) | _ => v end.

Definition strip_summary (v : json) : json :=
  match v with
  | JObj fs => match jget "diffs" fs with Some (JArr l) => JObj (jset "diffs" (JArr (stripDiffStrings <$> l)) fs) | _ => v end
  | _ => v
  end.

Definition strip_fields (fs : list (string * json)) : list (string * json) :=
  let fs := match jget "revert" fs with
    | Some (JObj r) => jset "revert" (JObj (jdel "diff" (jdel "snapshot" r))) fs
    | Some (JArr _) | None => fs
    | Some _ => jdel "revert" fs
    end in
  match jget "summary" fs with Some v => jset "summary" (strip_summary v) fs | None => fs end.

Definition stripSessionDiffSnapshots (s : Session) : Session :=
  {| s_id := s_id s; s_parent := s_parent s; s_created := s_created s; s_updated := s_updated s; s_archived := s_archived s; s_nnd := s_nnd s; s_doc := strip_fields (s_doc s); s_retired := s_retired s |}.

(** [JSON.stringify] of both is the same; the retired epochs are not in it. *)
Definition sameSessionRecord (a b : Session) : bool := bool_decide (with_retired [] a = with_retired [] b).

(** A live frame for a session: taken unless it is stale. *)
Definition offer (s : Session) (frame : NnaProjection) : option Session :=
  if staleProjection (sessionProjection s) (s_retired s) frame true then None else Some (applyNnaProjection s frame).

(** ** Retired epochs *)

Lemma parse_doc v f : parseNnaProjection v = Some f -> v = Some (JObj (frame_doc f)).
Proof. unfold parseNnaProjection. intros H. repeat case_match; try done. by injection H as <-. Qed.

(** A frame that came from the parser. *)
Definition parsed (f : NnaProjection) : Prop := parseNnaProjection (Some (JObj (frame_doc f))) = Some f.

Lemma projection_applied s f : parsed f -> f_sessionID f = s_id s -> sessionProjection (applyNnaProjection s f) = Some f.
Proof.
  intros Hp Hid. unfold sessionProjection, applyNnaProjection. cbv zeta. cbn [s_nnd s_id mbind option_bind].
  assert (forall k v m, k <> "projection" -> jget "projection" (nnd_with k v m) = jget "projection" m) as Hn.
  { intros k v m Hk. unfold nnd_with. destruct v; by rewrite ?jget_del_ne, ?jget_set_ne by done. }
  rewrite !Hn by done. rewrite jget_set_eq, Hp. by rewrite bool_decide_eq_true_2.
Qed.

Lemma set_of_spec l : NoDup (set_of l) /\ forall x, x ∈ set_of l <-> x ∈ l.
Proof.
  unfold set_of. assert (forall acc, NoDup acc -> NoDup (foldl set_add acc l) /\ forall x, x ∈ foldl set_add acc l <-> x ∈ acc \/ x ∈ l) as H; [|destruct (H [] ltac:(constructor)) as [H1 H2]; split; [done|]; intros x; rewrite H2; set_solver].
  induction l as [|y l IH]; intros acc Ha; cbn [foldl]; [split; [done|set_solver]|]. unfold set_add at 2 4. case_bool_decide as Hy.
  - destruct (IH acc Ha) as [H1 H2]. split; [done|]. intros x. rewrite H2. set_solver.
  - destruct (IH (acc ++ [y])) as [H1 H2]; [apply NoDup_app; split_and!; [done|set_solver|apply NoDup_singleton]|]. split; [done|]. intros x. rewrite H2. set_solver.
Qed.

(** What a session has accepted, oldest first. *)
Fixpoint accepted (s : Session) (frames : list NnaProjection) : list NnaProjection :=
  match frames with
  | [] => []
  | f :: frames => match offer s f with Some s' => f :: accepted s' frames | None => accepted s frames end
  end.

Definition epochs (fs : list NnaProjection) : gset string := list_to_set (f_epoch <$> fs).

(** In an epoch revisions only grow. *)
Definition ordered (fs : list NnaProjection) : Prop := forall i j f g, (i < j)%nat -> fs !! i = Some f -> fs !! j = Some g -> f_epoch f = f_epoch g -> f_revision f < f_revision g.

(** A session that has accepted these frames, the last one being its projection. *)
Record has_accepted (s : Session) (past : list NnaProjection) : Prop := {
  past_last : sessionProjection s = last past;
  past_retired x : x ∈ s_retired s <-> exists c, last past = Some c /\ x ∈ epochs past /\ x <> f_epoch c;
  past_nodup : NoDup (s_retired s);
  past_ordered : ordered past;
}.

Lemma last_n_all {A} n (l : list A) : (length l <= n)%nat -> last_n n l = l.
Proof. intros H. unfold last_n. by replace (length l - n)%nat with 0%nat by lia. Qed.

(** A duplicate-free list within a set is no longer than the set. *)
Lemma length_within (l : list string) (X : gset string) : NoDup l -> (forall x, x ∈ l -> x ∈ X) -> (length l <= size X)%nat.
Proof. intros Hn Hl. rewrite <- (size_list_to_set (C := gset string) l Hn). apply subseteq_size. intros x Hx%elem_of_list_to_set. by apply Hl. Qed.

Lemma epochs_snoc past f : epochs (past ++ [f]) = epochs past ∪ {[f_epoch f]}.
Proof. unfold epochs. rewrite fmap_app, list_to_set_app_L. cbn. set_solver. Qed.

Lemma epochs_elem x past : x ∈ epochs past <-> exists f, f ∈ past /\ f_epoch f = x.
Proof. unfold epochs. rewrite elem_of_list_to_set, list_elem_of_fmap. naive_solver. Qed.

Lemma ordered_snoc past f : ordered past -> (forall g, g ∈ past -> f_epoch g = f_epoch f -> f_revision g < f_revision f) -> ordered (past ++ [f]).
Proof.
  intros Ho Hf i j x y Hij Hx Hy He. destruct (decide (j < length past)%nat) as [Hj|Hj].
  - rewrite lookup_app_l in Hx by lia. rewrite lookup_app_l in Hy by done. by apply (Ho i j).
  - assert (j = length past) as -> by (apply lookup_lt_Some in Hy; rewrite length_app in Hy; cbn in Hy; lia).
    rewrite lookup_app_l in Hx by lia. rewrite lookup_app_r, Nat.sub_diag in Hy by lia. injection Hy as <-. apply Hf; [by eapply list_elem_of_lookup_2|done].
Qed.

(** The last frame of its epoch is the newest. *)
Lemma last_is_newest past c g : ordered past -> last past = Some c -> g ∈ past -> f_epoch g = f_epoch c -> f_revision g <= f_revision c.
Proof.
  intros Ho Hl [i Hi]%list_elem_of_lookup_1 He. rewrite last_lookup in Hl. destruct (decide (i = Nat.pred (length past))) as [->|]; [assert (c = g) by congruence; subst; lia|].
  pose proof (lookup_lt_Some _ _ _ Hi). enough (f_revision g < f_revision c) by lia. apply (Ho i (Nat.pred (length past))); [lia|done..].
Qed.

(** A frame that is taken is of the current epoch or of a new one. *)
Lemma fresh_epoch s past c f : has_accepted s past -> last past = Some c -> staleProjection (Some c) (s_retired s) f true = false ->
  (f_epoch c = f_epoch f /\ f_revision c < f_revision f) \/ f_epoch f ∉ epochs past.
Proof.
  intros [Hl Hr _ _] Hc Hs. unfold staleProjection in Hs. case_bool_decide as He.
  - left. split; [done|]. apply orb_false_iff in Hs as [E1%bool_decide_eq_false E2%bool_decide_eq_false]. lia.
  - right. apply bool_decide_eq_false in Hs. intros H. apply Hs, Hr. exists c. split_and!; [done|done|congruence].
Qed.

(** All epochs of the past are remembered, but the one the frame continues. *)
Lemma remembered s past c f :
  has_accepted s past -> last past = Some c -> (size (epochs (past ++ [f])) <= 33)%nat -> f_epoch c = f_epoch f \/ f_epoch f ∉ epochs past ->
  let r := rememberEpochs (Some c) (s_retired s) f [] in
  NoDup r /\ forall x, x ∈ r <-> x ∈ epochs past /\ x <> f_epoch f.
Proof.
  intros [Hl Hr Hn _] Hc Hsz Hf. cbn [rememberEpochs]. cbv zeta. destruct (set_of_spec ([] ++ s_retired s)) as [Hnd Hel]. cbn [app] in *. set (all := set_of (s_retired s)) in *.
  assert (f_epoch c ∈ epochs past) as Hce by (apply last_Some in Hc as [l ->]; apply epochs_elem; exists c; split; [apply elem_of_app; right; by left|done]).
  assert (forall x, x ∈ all <-> x ∈ epochs past /\ x <> f_epoch c) as Hall by (intros x; rewrite Hel, Hr, Hc; naive_solver).
  set (r := if bool_decide _ then _ else _). assert (NoDup r /\ forall x, x ∈ r <-> x ∈ epochs past /\ x <> f_epoch f) as [Hrn Hrx].
  { unfold r, set_add. destruct (decide (f_epoch c = f_epoch f)) as [E|E]; [rewrite bool_decide_eq_true_2 by done; by rewrite <- E|rewrite bool_decide_eq_false_2 by done].
    destruct Hf as [|Hf]; [done|]. rewrite bool_decide_eq_false_2 by (rewrite Hall; naive_solver). split.
    - apply NoDup_app. split_and!; [done| |apply NoDup_singleton]. intros x Hx ->%list_elem_of_singleton. by apply Hall in Hx as [_ []].
    - intros x. rewrite elem_of_app, list_elem_of_singleton, Hall. destruct (decide (x = f_epoch c)) as [->|]; naive_solver. }
  rewrite last_n_all; [done|]. enough (S (length r) <= 33)%nat by lia. etrans; [|exact Hsz].
  apply (length_within (f_epoch f :: r)); [constructor; [rewrite Hrx; by intros []|done]|]. intros x Hx. rewrite epochs_snoc. apply elem_of_union.
  apply elem_of_cons in Hx as [->|Hx]; [right; by apply elem_of_singleton|left; by apply Hrx].
Qed.

Lemma accept_step s past f s' :
  has_accepted s past -> parsed f -> f_sessionID f = s_id s -> (size (epochs (past ++ [f])) <= 33)%nat -> offer s f = Some s' -> has_accepted s' (past ++ [f]) /\ s_id s' = s_id s.
Proof.
  intros H Hp Hid Hsz Hof. pose proof H as [Hl Hr Hn Ho]. unfold offer in Hof. destruct (staleProjection _ _ _ _) eqn:Est; [done|]. injection Hof as <-. split; [|done].
  assert (NoDup (s_retired (applyNnaProjection s f)) /\ (forall x, x ∈ s_retired (applyNnaProjection s f) <-> x ∈ epochs past /\ x <> f_epoch f) /\
    forall g, g ∈ past -> f_epoch g = f_epoch f -> f_revision g < f_revision f) as (H1 & H2 & H3).
  { cbn [s_retired applyNnaProjection]. rewrite Hl in *. destruct (last past) as [c|] eqn:Hc.
    - pose proof (fresh_epoch s past c f H Hc Est) as Hf. destruct (remembered s past c f H Hc Hsz) as [H1 H2]; [naive_solver|]. split_and!; [done|done|].
      intros g Hg He. destruct Hf as [[E Hlt]|Hf]; [|destruct Hf; apply epochs_elem; eauto]. pose proof (last_is_newest past c g Ho Hc Hg ltac:(congruence)). lia.
    - apply last_None in Hc as ->. split_and!; [constructor|intros x; split; [intros Hx; by apply not_elem_of_nil in Hx|intros [Hx _]; apply epochs_elem in Hx as (g & Hg & _); by apply not_elem_of_nil in Hg]|].
      intros g Hg. by apply not_elem_of_nil in Hg. }
  constructor; [by rewrite projection_applied, last_snoc| |done|by apply ordered_snoc].
  intros x. rewrite H2, last_snoc, epochs_snoc. setoid_rewrite elem_of_union. setoid_rewrite elem_of_singleton. naive_solver.
Qed.

Lemma accepted_ordered frames s past :
  has_accepted s past -> Forall (fun f => parsed f /\ f_sessionID f = s_id s) frames -> (size (epochs (past ++ accepted s frames)) <= 33)%nat -> ordered (past ++ accepted s frames).
Proof.
  revert s past. induction frames as [|f frames IH]; intros s past H Hf Hsz; cbn [accepted] in *; [rewrite app_nil_r; apply H|].
  apply Forall_cons in Hf as [[Hp Hid] Hf]. destruct (offer s f) as [s'|] eqn:Eo; [|by apply IH]. change (f :: accepted s' frames) with ([f] ++ accepted s' frames) in *. rewrite app_assoc in *.
  destruct (accept_step s past f s' H Hp Hid) as [H' Hid']; [|done|].
  - etrans; [|exact Hsz]. apply subseteq_size. intros x Hx. apply epochs_elem in Hx as (g & Hg & He). apply epochs_elem. exists g. split; [apply elem_of_app; by left|done].
  - apply IH; [done|by rewrite Hid'|done].
Qed.

(** The live projection of a session never goes back: of the frames it takes, in whatever order frames are offered, those of one harness epoch have growing revisions, so a restarted harness's older frames never return, as long as no more than thirty-three epochs are involved. *)
Theorem projections_never_go_back s frames :
  sessionProjection s = None -> s_retired s = [] -> Forall (fun f => parsed f /\ f_sessionID f = s_id s) frames -> (size (epochs (accepted s frames)) <= 33)%nat ->
  forall i j f g, (i < j)%nat -> accepted s frames !! i = Some f -> accepted s frames !! j = Some g -> f_epoch f = f_epoch g -> f_revision f < f_revision g.
Proof.
  intros Hs Hr Hf Hsz. apply (accepted_ordered frames s []); [|done..]. constructor; [done| |rewrite Hr; constructor|by intros i j f g].
  intros x. rewrite Hr. cbn. split; [intros Hx; by apply not_elem_of_nil in Hx|by intros (c & ? & _)].
Qed.

(** ** A restarted harness *)

Definition ex_frame (epoch : string) (revision updatedAt : Z) : NnaProjection :=
  {| frame_doc := [("version", JStr "1.0"); ("sessionID", JStr "s1"); ("epoch", JStr epoch); ("revision", JInt revision); ("updatedAt", JInt updatedAt); ("turnState", JObj [("phase", JStr "streaming")]); ("activeTools", JNull); ("context", JNull)];
     f_sessionID := "s1"; f_epoch := epoch; f_revision := revision; f_updatedAt := updatedAt; f_turnState := JObj [("phase", JStr "streaming")]; f_activeTools := JNull; f_context := JNull |}.

Definition ex_session : Session := {| s_id := "s1"; s_parent := None; s_created := 5; s_updated := 10; s_archived := None; s_nnd := None; s_doc := [("title", JStr "t")]; s_retired := [] |}.

(** The frames of the first harness that arrive after its successor's are refused. *)
Lemma projections_never_go_back_witness :
  let frames := [ex_frame "A" 4 20; ex_frame "A" 4 20; ex_frame "A" 7 21; ex_frame "B" 1 15; ex_frame "A" 8 22; ex_frame "B" 2 23] in
  f_revision <$> accepted ex_session frames = [4; 7; 1; 2] /\
  forall i j f g, (i < j)%nat -> accepted ex_session frames !! i = Some f -> accepted ex_session frames !! j = Some g -> f_epoch f = f_epoch g -> f_revision f < f_revision g.
Proof.
  intros frames. split; [vm_compute; reflexivity|]. apply (projections_never_go_back ex_session frames).
  - reflexivity. - reflexivity. - repeat (constructor; [split; [vm_compute; reflexivity|reflexivity]|]). constructor. - vm_compute. repeat constructor.
Defined.
