(* ===== verification/SyncTranscript.v ===== *)
(** The transcript reducer of the UI sync engine (ui/src/sync/transcript-reducer.ts,
    reducer-core.ts, with the message and part guards of event-equality.ts), and the
    state it works on.

    A reducer works on the draft of a batch; the batch remembers which fields it has
    cloned, since only those are published. The buckets of a draft are values here: the
    code changes them in place. *)

From S2P Require Import Prelude JsString JsMap JsSort JsValue SyncOrder SyncProjection.

Local Open Scope Z_scope.

(** ** The state of a directory store *)

(** A message: the members the reducers look at, the others as JSON. *)
Record Message := { m_id : string; m_session : string; m_role : string; m_created : Z; m_completed : option Z; m_finish : option string; m_more : list (string * json) }.

#[export] Instance Message_eq_dec : EqDecision Message.
Proof. solve_decision. Defined.

(** A part is an object whose fields a delta may name. *)
Abbreviation Part := (list (string * json)).

Definition text_of (key : string) (p : Part) : option string := match jget key p with Some (JStr s) => Some s | _ => None end.
Definition p_id (p : Part) : string := default "" (text_of "id" p).
Definition p_message (p : Part) : string := default "" (text_of "messageID" p).
Definition p_type (p : Part) : string := default "" (text_of "type" p).

Inductive SessionStatus := Idle | Busy | Retry (attempt : Z) (message : string) (next : Z) (action : option json).

#[export] Instance SessionStatus_eq_dec : EqDecision SessionStatus.
Proof. solve_decision. Defined.

(** A permission or a question that waits for an answer. *)
Record Request := { r_id : string; r_doc : list (string * json) }.

#[export] Instance Request_eq_dec : EqDecision Request.
Proof. solve_decision. Defined.

Inductive SessionListSource := empty_list | persisted | live | authoritative.

Record SyncState := {
  session : list Session; sessionTotal : Z; sessionListSource : SessionListSource; sessionRevision : Z;
  sessionEventRevision : gmap string Z; sessionDeletedRevision : gmap string Z; session_status : gmap string SessionStatus;
  session_diff : gmap string json; todo : gmap string json; permission : gmap string (list Request); question : gmap string (list Request);
  branch : option string; limit : Z; message : gmap string (list Message); part : gmap string (list Part) }.

(** The fields a batch can clone. *)
Inductive Field := F_session | F_sessionTotal | F_sessionListSource | F_sessionRevision | F_sessionEventRevision | F_sessionDeletedRevision | F_session_status | F_session_diff | F_todo | F_permission | F_question | F_vcs | F_message | F_part.

#[export] Instance Field_eq_dec : EqDecision Field.
Proof. solve_decision. Defined.

(** ** What a batch reports *)

Inductive MaterializationReason := missing_owning_message | orphan_delta | missing_delta_part | empty_assistant_message.

Record MaterializationRequest := { reason : MaterializationReason; mat_session : string; mat_message : string }.

Inductive Kind := Permission | Question.

#[export] Instance Kind_eq_dec : EqDecision Kind.
Proof. solve_decision. Defined.

(** What a batch tells the side effects, in the order it is pushed; the code keeps a list per constructor. *)
Inductive Signal :=
| Materialize (r : MaterializationRequest)
| SessionRoute (sessionID directory : string)
| MessageRoute (messageID sessionID : string)
| StatusChange (sessionID : string) (status : SessionStatus)
| Settled (sessionID : string) (error : bool)
| RequestAsk (k : Kind) (sessionID : string) (r : Request)
| RequestSettled (k : Kind) (sessionID requestID : string)
| TodosPersisted (sessionID : string) (todos : json)
| SessionRemoved (sessionID : string)
| SessionArchived (sessionID : string) (record : Session)
| MessageCompleted (sessionID messageID : string)
| ProjectUpdated (info : json)
| GlobalRefresh
| LspRefresh.

Record BatchOutcome := { changedCount : nat; signals : list Signal; partChangedMessageIDs : list string }.

Definition emptyOutcome : BatchOutcome := {| changedCount := 0; signals := []; partChangedMessageIDs := [] |}.

(** ** A batch *)

Record Batch := { draft : SyncState; cloned : list Field; out : BatchOutcome }.

Definition ensure (f : Field) (b : Batch) : Batch := if bool_decide (f ∈ cloned b) then b else {| draft := draft b; cloned := cloned b ++ [f]; out := out b |}.
Definition changed (b : Batch) : Batch := {| draft := draft b; cloned := cloned b; out := {| changedCount := S (changedCount (out b)); signals := signals (out b); partChangedMessageIDs := partChangedMessageIDs (out b) |} |}.
Definition signal (s : Signal) (b : Batch) : Batch := {| draft := draft b; cloned := cloned b; out := {| changedCount := changedCount (out b); signals := signals (out b) ++ [s]; partChangedMessageIDs := partChangedMessageIDs (out b) |} |}.
Definition notePartChanged (m : string) (b : Batch) : Batch :=
  {| draft := draft b; cloned := cloned b;
     out := {| changedCount := changedCount (out b); signals := signals (out b); partChangedMessageIDs := if bool_decide (m ∈ partChangedMessageIDs (out b)) then partChangedMessageIDs (out b) else partChangedMessageIDs (out b) ++ [m] |} |}.

Definition edit (f : SyncState -> SyncState) (b : Batch) : Batch := {| draft := f (draft b); cloned := cloned b; out := out b |}.

Definition with_message (m : gmap string (list Message)) (s : SyncState) : SyncState :=
  {| session := session s; sessionTotal := sessionTotal s; sessionListSource := sessionListSource s; sessionRevision := sessionRevision s; sessionEventRevision := sessionEventRevision s; sessionDeletedRevision := sessionDeletedRevision s; session_status := session_status s;
     session_diff := session_diff s; todo := todo s; permission := permission s; question := question s; branch := branch s; limit := limit s; message := m; part := part s |}.
Definition with_part (p : gmap string (list Part)) (s : SyncState) : SyncState :=
  {| session := session s; sessionTotal := sessionTotal s; sessionListSource := sessionListSource s; sessionRevision := sessionRevision s; sessionEventRevision := sessionEventRevision s; sessionDeletedRevision := sessionDeletedRevision s; session_status := session_status s;
     session_diff := session_diff s; todo := todo s; permission := permission s; question := question s; branch := branch s; limit := limit s; message := message s; part := p |}.

(** ** Guards (event-equality.ts) *)

(** [!value] of a possibly missing string. *)
Definition falsy (s : option string) : bool := match s with Some s => bool_decide (s = "") | None => true end.

Definition MESSAGE_UPDATE_FIELDS : list string := ["summary"; "error"; "cost"; "tokens"; "structured"; "model"; "tools"; "format"; "variant"; "agent"; "system"].

(** JSON values have the same text exactly when they are equal. *)
Definition areMessageUpdateFieldsEqual (current incoming : Message) : bool :=
  bool_decide (m_role current = m_role incoming) && bool_decide (m_completed current = m_completed incoming) && bool_decide (m_finish current = m_finish incoming) &&
  forallb (fun f => bool_decide (jget f (m_more current) = jget f (m_more incoming))) MESSAGE_UPDATE_FIELDS.

Definition TERMINAL_TOOL_STATUSES : list string := ["completed"; "error"; "aborted"; "failed"; "timeout"; "cancelled"].

(** The tool state of a part, when it is an object. *)
Definition state_of (p : Part) : option (list (string * json)) := match jget "state" p with Some (JObj st) => Some st | _ => None end.

Definition is_terminal (p : Part) : bool :=
  match state_of p with Some st => match jget "status" st with Some (JStr s) => bool_decide (s ∈ TERMINAL_TOOL_STATUSES) | _ => false end | None => false end.
Definition has_end (p : Part) : bool :=
  match state_of p with Some st => bool_decide (is_Some (jget "time" st ≫= jfield "end")) | None => false end.

Definition shouldPreserveExistingPart (existing : option Part) (incoming : Part) : bool :=
  match existing with
  | None => false
  | Some e =>
    if negb (bool_decide (p_type e = "tool")) || negb (bool_decide (p_type incoming = "tool")) then false
    else if negb (is_terminal e) && negb (has_end e) then false
    else negb (is_terminal incoming) && negb (has_end incoming)
  end.

(** Two snapshots of one field, one continuing the other. *)
Definition related (prev next : option string) : bool :=
  match prev, next with
  | Some p, Some n => negb (bool_decide (p = n)) && (starts_with p n || starts_with n p)
  | _, _ => false
  end.

Definition output_of (p : Part) : option string := state_of p ≫= text_of "output".

Definition getUpdatedDeltaFields (previous : option Part) (incoming : Part) : list string :=
  match previous with
  | None => []
  | Some prev => (if related (text_of "text" prev) (text_of "text" incoming) then ["text"] else []) ++ (if related (output_of prev) (output_of incoming) then ["output"] else [])
  end.

(** ** Messages *)

Definition find_message (m : string) (l : list Message) : option nat := SyncOrder.index_of m_id m l.

Definition noteAssistantInsert (info : Message) (b : Batch) : Batch :=
  let b := if bool_decide (m_role info = "assistant") then signal (Materialize {| reason := empty_assistant_message; mat_session := m_session info; mat_message := m_id info |}) b else b in
  changed (signal (MessageRoute (m_id info) (m_session info)) b).

Definition put_messages (s : string) (l : list Message) (b : Batch) : Batch := edit (fun st => with_message (<[s := l]> (message st)) st) b.

Definition applyMessageUpdated (info : option Message) (b : Batch) : Batch :=
  match info with
  | None => b
  | Some info =>
    if bool_decide (m_id info = "") || bool_decide (m_session info = "") then b
    else
      let bucket := message (draft b) !! m_session info in
      let index := bucket ≫= find_message (m_id info) in
      if match l ← bucket; i ← index; l !! i with Some cur => areMessageUpdateFieldsEqual cur info | None => false end then b
      else
        let b := ensure F_message b in
        match bucket with
        | None => noteAssistantInsert info (put_messages (m_session info) [info] b)
        | Some target =>
          match index with
          | None => noteAssistantInsert info (put_messages (m_session info) (insertMessageChronological m_id m_created target info) b)
          | Some i =>
            let b := match m_completed info with Some _ => signal (MessageCompleted (m_session info) (m_id info)) b | None => b end in
            let same := match target !! i with Some cur => same_moment m_id m_created cur info | None => false end in
            let b := put_messages (m_session info) (if same then <[i := info]> target else insertMessageChronological m_id m_created (splice_out i target) info) b in
            signal (MessageRoute (m_id info) (m_session info)) b
          end
        end
  end.

Definition applyMessageRemoved (sessionID messageID : option string) (b : Batch) : Batch :=
  match sessionID, messageID with
  | Some s, Some m =>
    if bool_decide (s = "") || bool_decide (m = "") then b
    else
      let bucket := message (draft b) !! s in
      let has := match bucket with Some l => bool_decide (m ∈ m_id <$> l) | None => false end in
      if negb has && negb (bool_decide (is_Some (part (draft b) !! m))) then b
      else
        let b := ensure F_part (ensure F_message b) in
        let b := match bucket with Some l => put_messages s (removeMessageById m_id l m).1 b | None => b end in
        changed (edit (fun st => with_part (delete m (part st)) st) b)
  | _, _ => b
  end.

(** ** Parts *)

Definition SKIP_PART_TYPES : list string := ["patch"; "step-start"; "step-finish"].
Definition DEDUPE : string := "__dedupeNextDeltaFields".

Definition find_part (id_ : string) (l : list Part) : option nat := SyncOrder.index_of p_id id_ l.

Definition put_parts (m : string) (l : list Part) (b : Batch) : Batch := edit (fun st => with_part (<[m := l]> (part st)) st) b.

(** [sessionID] is the event's own. *)
Definition missingOwnerCheck (p : Part) (sessionID : option string) (b : Batch) : Batch :=
  let sid := match sessionID with Some _ => sessionID | None => text_of "sessionID" p end in
  match sid with
  | Some s =>
    if bool_decide (s = "") then b
    else if match message (draft b) !! s with Some l => bool_decide (p_message p ∈ m_id <$> l) | None => false end then b
    else signal (Materialize {| reason := missing_owning_message; mat_session := s; mat_message := p_message p |}) b
  | None => b
  end.

(** The first part of the type that no session has claimed yet. *)
Definition optimistic_index (type : string) (l : list Part) : option nat :=
  fst <$> list_find (fun p => p_type p = type /\ falsy (text_of "sessionID" p) = true) l.

Definition applyNewPart (target : list Part) (p : Part) (sessionID : option string) (b : Batch) : Batch :=
  let slot := if bool_decide (p_type p = "text") || bool_decide (p_type p = "file") then optimistic_index (p_type p) target else None in
  let b := put_parts (p_message p) (match slot with Some i => <[i := p]> target | None => target ++ [p] end) b in
  changed (missingOwnerCheck p sessionID (notePartChanged (p_message p) b)).

Definition applyPartUpdated (p : option Part) (sessionID : option string) (b : Batch) : Batch :=
  match p with
  | None => b
  | Some p =>
    if bool_decide (p_id p = "") || bool_decide (p_message p = "") then b
    else if bool_decide (p_type p ∈ SKIP_PART_TYPES) then b
    else
      let bucket := part (draft b) !! p_message p in
      let index := bucket ≫= find_part (p_id p) in
      let previous := l ← bucket; i ← index; l !! i in
      if shouldPreserveExistingPart previous p then b
      else
        let b := ensure F_part b in
        match bucket with
        | None => changed (missingOwnerCheck p sessionID (notePartChanged (p_message p) (put_parts (p_message p) [p] b)))
        | Some target =>
          match index with
          | Some i =>
            let fields := getUpdatedDeltaFields previous p in
            let next := if bool_decide (fields = []) then p else jset DEDUPE (JArr (JStr <$> fields)) p in
            changed (notePartChanged (p_message p) (put_parts (p_message p) (<[i := next]> target) b))
          | None => applyNewPart target p sessionID b
          end
        end
  end.

Definition applyPartRemoved (messageID partID : option string) (b : Batch) : Batch :=
  match messageID, partID with
  | Some m, Some pid =>
    if bool_decide (m = "") || bool_decide (pid = "") then b
    else match part (draft b) !! m with
    | None => b
    | Some bucket =>
      match find_part pid bucket with
      | None => b
      | Some i =>
        let rest := splice_out i bucket in
        let b := ensure F_part b in
        let b := edit (fun st => with_part (if bool_decide (rest = []) then delete m (part st) else <[m := rest]> (part st)) st) b in
        changed (notePartChanged m b)
      end
    end
  | _, _ => b
  end.

(** ** Deltas *)

Definition readDeltaField (p : Part) (field : string) : string :=
  if bool_decide (field = "output") then default "" (output_of p) else default "" (text_of field p).

Definition writeDeltaField (p : Part) (field value : string) : Part :=
  if bool_decide (field = "output") then jset "state" (JObj (jset "output" (JStr value) (default [] (state_of p)))) p else jset field (JStr value) p.

(** The fields whose next delta may repeat what the snapshot brought. *)
Definition dedupe_of (p : Part) : option (list string) :=
  match jget DEDUPE p with Some (JArr l) => Some (omap (fun v => match v with JStr s => Some s | _ => None end) l) | _ => None end.

Definition applyDeltaToPart (p : Part) (field delta : string) : Part :=
  let current := readDeltaField p field in
  match dedupe_of p with
  | Some fields =>
    if bool_decide (field ∈ fields) then
      let remaining := filter (fun name => name <> field) fields in
      let p := if bool_decide (remaining = []) then jdel DEDUPE p else jset DEDUPE (JArr (JStr <$> remaining)) p in
      writeDeltaField p field (appendNonOverlappingDelta current delta)
    else writeDeltaField p field (current +:+ delta)
  | None => writeDeltaField p field (current +:+ delta)
  end.

Definition applyPartDelta (messageID partID field delta sessionID : option string) (b : Batch) : Batch :=
  match messageID, partID, field, delta with
  | Some m, Some pid, Some f, Some d =>
    if bool_decide (m = "") || bool_decide (pid = "") || bool_decide (f = "") then b
    else
      let b := ensure F_part b in
      let bucket := part (draft b) !! m in
      match l ← bucket; i ← find_part pid l; p ← l !! i; Some (l, i, p) with
      | None =>
        let orphan := match bucket with None => true | Some _ => if falsy sessionID then true else negb (bool_decide (is_Some (message (draft b) !! default "" sessionID))) end in
        signal (Materialize {| reason := if orphan then orphan_delta else missing_delta_part; mat_session := default "" sessionID; mat_message := m |}) b
      | Some (l, i, p) =>
        let b := notePartChanged m (put_parts m (<[i := applyDeltaToPart p f d]> l) b) in
        changed (if falsy sessionID then b else signal (MessageRoute m (default "" sessionID)) b)
      end
  | _, _, _, _ => b
  end.
