(* ===== verification/SyncReducer.v ===== *)
(** The event reducer of the UI sync engine (ui/src/sync/event-reducer.ts,
    blocking-reducer.ts, projection-reducer.ts) and the batch that publishes what it
    changed. The transcript events are in SyncTranscript. *)

From S2P Require Import Prelude JsString JsMap JsSort JsValue SyncOrder SyncProjection SyncTranscript.
From Stdlib Require Import Sorting.Sorted.

Local Open Scope Z_scope.

(** ** Updates *)

Definition with_session (l : list Session) (total : Z) (src : SessionListSource) (s : SyncState) : SyncState :=
  {| session := l; sessionTotal := total; sessionListSource := src; sessionRevision := sessionRevision s; sessionEventRevision := sessionEventRevision s; sessionDeletedRevision := sessionDeletedRevision s; session_status := session_status s;
     session_diff := session_diff s; todo := todo s; permission := permission s; question := question s; branch := branch s; limit := limit s; message := message s; part := part s |}.
Definition with_revisions (r : Z) (ev del : gmap string Z) (s : SyncState) : SyncState :=
  {| session := session s; sessionTotal := sessionTotal s; sessionListSource := sessionListSource s; sessionRevision := r; sessionEventRevision := ev; sessionDeletedRevision := del; session_status := session_status s;
     session_diff := session_diff s; todo := todo s; permission := permission s; question := question s; branch := branch s; limit := limit s; message := message s; part := part s |}.
Definition with_status (m : gmap string SessionStatus) (s : SyncState) : SyncState :=
  {| session := session s; sessionTotal := sessionTotal s; sessionListSource := sessionListSource s; sessionRevision := sessionRevision s; sessionEventRevision := sessionEventRevision s; sessionDeletedRevision := sessionDeletedRevision s; session_status := m;
     session_diff := session_diff s; todo := todo s; permission := permission s; question := question s; branch := branch s; limit := limit s; message := message s; part := part s |}.
Definition with_diff_todo (d t : gmap string json) (s : SyncState) : SyncState :=
  {| session := session s; sessionTotal := sessionTotal s; sessionListSource := sessionListSource s; sessionRevision := sessionRevision s; sessionEventRevision := sessionEventRevision s; sessionDeletedRevision := sessionDeletedRevision s; session_status := session_status s;
     session_diff := d; todo := t; permission := permission s; question := question s; branch := branch s; limit := limit s; message := message s; part := part s |}.
Definition with_requests (p q : gmap string (list Request)) (s : SyncState) : SyncState :=
  {| session := session s; sessionTotal := sessionTotal s; sessionListSource := sessionListSource s; sessionRevision := sessionRevision s; sessionEventRevision := sessionEventRevision s; sessionDeletedRevision := sessionDeletedRevision s; session_status := session_status s;
     session_diff := session_diff s; todo := todo s; permission := p; question := q; branch := branch s; limit := limit s; message := message s; part := part s |}.
Definition with_branch (v : option string) (s : SyncState) : SyncState :=
  {| session := session s; sessionTotal := sessionTotal s; sessionListSource := sessionListSource s; sessionRevision := sessionRevision s; sessionEventRevision := sessionEventRevision s; sessionDeletedRevision := sessionDeletedRevision s; session_status := session_status s;
     session_diff := session_diff s; todo := todo s; permission := permission s; question := question s; branch := v; limit := limit s; message := message s; part := part s |}.

Definition put_sessions (l : list Session) (b : Batch) : Batch := edit (fun s => with_session l (sessionTotal s) (sessionListSource s) s) b.
Definition put_total (z : Z) (b : Batch) : Batch := edit (fun s => with_session (session s) z (sessionListSource s) s) b.

(** ** Requests that block a session (blocking-reducer.ts) *)

Definition field_of (k : Kind) : Field := match k with Permission => F_permission | Question => F_question end.

Definition bucketsOf (k : Kind) (s : SyncState) : gmap string (list Request) := match k with Permission => permission s | Question => question s end.

Definition writeBuckets (k : Kind) (sessionID : string) (bucket : list Request) (s : SyncState) : SyncState :=
  let next := if bool_decide (bucket = []) then delete sessionID (bucketsOf k s) else <[sessionID := bucket]> (bucketsOf k s) in
  match k with Permission => with_requests next (question s) s | Question => with_requests (permission s) next s end.

Definition by_request_id (a b : Request) : bool := sle (r_id a) (r_id b).

Definition askRequest (k : Kind) (sessionID : option string) (request : Request) (b : Batch) : Batch :=
  match sessionID with
  | None => b
  | Some s =>
    if bool_decide (s = "") || bool_decide (r_id request = "") then b
    else
      let existing := default [] (bucketsOf k (draft b) !! s) in
      let prior := snd <$> list_find (fun r => r_id r = r_id request) existing in
      if bool_decide (prior = Some request) then b
      else
        let b := ensure (field_of k) b in
        let bucket := js_sort by_request_id (upsertById r_id existing request).1 in
        let b := edit (writeBuckets k s bucket) b in
        changed (match prior with None => signal (RequestAsk k s request) b | Some _ => b end)
  end.

Definition replyRequest (k : Kind) (sessionID requestID : option string) (b : Batch) : Batch :=
  match sessionID, requestID with
  | Some s, Some r =>
    if bool_decide (s = "") || bool_decide (r = "") then b
    else
      let b := signal (RequestSettled k s r) b in
      match bucketsOf k (draft b) !! s with
      | Some existing =>
        if negb (bool_decide (r ∈ r_id <$> existing)) then b
        else
          let b := ensure (field_of k) b in
          match removeById r_id existing r with
          | (bucket, true) => changed (edit (writeBuckets k s bucket) b)
          | (_, false) => b
          end
      | None => b
      end
  | _, _ => b
  end.

(** ** Sessions (event-reducer.ts) *)

Definition recordRevision (s : string) (b : Batch) : Batch :=
  let b := ensure F_sessionEventRevision (ensure F_sessionRevision b) in
  edit (fun st => let r := sessionRevision st + 1 in with_revisions r (<[s := r]> (sessionEventRevision st)) (sessionDeletedRevision st) st) b.

(** [sessionDeletedRevision[id] = sessionRevision] *)
Definition markDeleted (s : string) (b : Batch) : Batch :=
  edit (fun st => with_revisions (sessionRevision st) (sessionEventRevision st) (<[s := sessionRevision st]> (sessionDeletedRevision st)) st) b.

(** The parts of messages that no other session shows. *)
Definition drop_parts (s : string) (st : SyncState) : gmap string (list Part) :=
  let retained : gset string := list_to_set (concat (map (fun kv : string * list Message => map m_id kv.2) (filter (fun kv => kv.1 <> s) (map_to_list (message st))))) in
  foldl (fun parts m => if bool_decide (m_id m ∈ retained) then parts else delete (m_id m) parts) (part st) (default [] (message st !! s)).

Definition cleanupSessionCaches (s : string) (b : Batch) : Batch :=
  let b := foldl (fun b f => ensure f b) b [F_message; F_part; F_todo; F_session_diff; F_session_status; F_permission; F_question] in
  let b := edit (fun st => with_message (delete s (message st)) (with_part (drop_parts s st) st)) b in
  edit (fun st => with_requests (delete s (permission st)) (delete s (question st)) (with_status (delete s (session_status st)) (with_diff_todo (delete s (session_diff st)) (delete s (todo st)) st))) b.

Definition find_session (s : string) (l : list Session) : option Session := snd <$> list_find (fun x => s_id x = s) l.

Definition applyArchiveRemoval (stripped : Session) (b : Batch) : Batch :=
  match removeById s_id (session (draft b)) (s_id stripped) with
  | (_, false) => b
  | (l, true) =>
    let b := put_sessions l b in
    let b := if falsy (s_parent stripped) then let b := ensure F_sessionTotal b in put_total (Z.max 0 (sessionTotal (draft b) - 1)) b else b in
    let b := markDeleted (s_id stripped) (recordRevision (s_id stripped) (ensure F_sessionDeletedRevision b)) in
    changed (signal (SessionArchived (s_id stripped) stripped) (cleanupSessionCaches (s_id stripped) b))
  end.

Definition has_pending (st : SyncState) (s : Session) : bool := match permission st !! s_id s with Some (_ :: _) => true | _ => false end.

(** The first session from the front without a pending permission goes. *)
Definition dropOneTrimmed (st : SyncState) : option (list Session) :=
  (fun ix => splice_out ix.1 (session st)) <$> list_find (fun x => has_pending st x = false) (session st).

(** As often as the list is too long; a drop shortens it, so the length bounds the rounds. *)
Fixpoint trim_loop (fuel : nat) (b : Batch) : Batch :=
  match fuel with
  | O => b
  | S n =>
    if bool_decide (limit (draft b) < Zlen (session (draft b))) then
      match dropOneTrimmed (draft b) with
      | None => b
      | Some l => trim_loop n (put_sessions l (ensure F_session b))
      end
    else b
  end.

Definition trimSessionList (b : Batch) : Batch := trim_loop (length (session (draft b))) b.

Definition applySessionUpsert (info : option Session) (directory : option string) (b : Batch) : Batch :=
  match info with
  | None => b
  | Some info =>
    if bool_decide (s_id info = "") then b
    else
      let stripped := stripSessionDiffSnapshots info in
      let current := find_session (s_id stripped) (session (draft b)) in
      if shouldSkipStaleSessionEvent current stripped then b
      else
        let stripped := adoptSessionProjection current stripped in
        let b := ensure F_sessionEventRevision (ensure F_session b) in
        if match s_archived stripped with Some t => negb (bool_decide (t = 0)) | None => false end then applyArchiveRemoval stripped b
        else if match current with Some c => sameSessionRecord c stripped | None => false end then b
        else
          let '(l, inserted) := upsertById s_id (session (draft b)) stripped in
          let b := put_sessions l b in
          let b := if inserted && falsy (s_parent stripped) then let b := ensure F_sessionTotal b in put_total (sessionTotal (draft b) + 1) b else b in
          let b := recordRevision (s_id stripped) b in
          let b := edit (fun st => with_session (session st) (sessionTotal st) live st) b in
          changed (signal (SessionRoute (s_id stripped) (default "" directory)) (trimSessionList b))
  end.

Definition applySessionDeleted (sessionID : option string) (b : Batch) : Batch :=
  match sessionID with
  | None => b
  | Some s =>
    if bool_decide (s = "") then b
    else
      let current := find_session s (session (draft b)) in
      let b := ensure F_sessionDeletedRevision (ensure F_sessionEventRevision (ensure F_session b)) in
      let '(l, removed) := removeById s_id (session (draft b)) s in
      let b := put_sessions l b in
      let b := if removed && falsy (current ≫= s_parent) then let b := ensure F_sessionTotal b in put_total (Z.max 0 (sessionTotal (draft b) - 1)) b else b in
      let b := markDeleted s (recordRevision s b) in
      changed (signal (SessionRemoved s) (cleanupSessionCaches s b))
  end.

Definition applySessionDiff (sessionID : option string) (diff : option json) (b : Batch) : Batch :=
  match sessionID with
  | None => b
  | Some s =>
    if bool_decide (s = "") then b
    else
      let d := match diff with None | Some JNull => JArr [] | Some d => d end in
      changed (edit (fun st => with_diff_todo (<[s := d]> (session_diff st)) (todo st) st) (ensure F_session_diff b))
  end.

Definition areSessionStatusesEqual (a : option SessionStatus) (b : SessionStatus) : bool :=
  match a, b with
  | Some Idle, Idle | Some Busy, Busy => true
  | Some (Retry n m t _), Retry n' m' t' _ => bool_decide (n = n') && bool_decide (m = m') && bool_decide (t = t')
  | _, _ => false
  end.

Definition put_status (s : string) (v : SessionStatus) (b : Batch) : Batch :=
  changed (signal (StatusChange s v) (edit (fun st => with_status (<[s := v]> (session_status st)) st) (ensure F_session_status b))).

Definition applySessionStatus (sessionID : option string) (status : option SessionStatus) (b : Batch) : Batch :=
  match sessionID, status with
  | Some s, Some v => if bool_decide (s = "") || areSessionStatusesEqual (session_status (draft b) !! s) v then b else put_status s v b
  | _, _ => b
  end.

(** ** Interrupted turns *)

Definition finalizeEligible (s : string) (st : SyncState) : option Message :=
  match question st !! s, permission st !! s with
  | Some (_ :: _), _ | _, Some (_ :: _) => None
  | _, _ =>
    match message st !! s with
    | Some l => match last l with Some m => if bool_decide (m_role m = "assistant") && bool_decide (m_completed m = None) then Some m else None | None => None end
    | None => None
    end
  end.

Inductive JsError := TypeError.

Definition SETTLED_STATUSES : list string := ["completed"; "error"; "aborted"; "failed"].

(** [a ?? b] on a member. *)
Definition or_else (a : option json) (b : json) : json := match a with None | Some JNull => b | Some v => v end.

(** Reads the tool state before it looks at the type of the part. *)
Definition finalize_part (now : Z) (p : Part) : exc JsError Part :=
  match jget "state" p with
  | None | Some JNull => Throw TypeError
  | Some st =>
    let time := or_empty (jfield "time" st) in
    let settled := match jfield "status" st with Some (JStr s) => bool_decide (s ∈ SETTLED_STATUSES) | _ => false end || bool_decide (is_Some (jfield "end" time)) in
    if negb (bool_decide (p_type p = "tool")) || settled then Ok p
    else
      let fields v := match v with JObj fs => fs | _ => [] end in
      let time' := jset "end" (JInt now) (jset "start" (or_else (jfield "start" time) (JInt now)) (fields time)) in
      Ok (jset "state" (JObj (jset "time" (JObj time') (jset "error" (or_else (jfield "error" st) (JStr "Interrupted")) (jset "status" (JStr "error") (fields st))))) p)
  end.

Fixpoint map_exc {E A B} (f : A -> exc E B) (l : list A) : exc E (list B) :=
  match l with
  | [] => Ok []
  | x :: l => y ← f x; ys ← map_exc f l; Ok (y :: ys)
  end.

Definition aborted : json := JObj [("name", JStr "MessageAbortedError"); ("message", JStr "aborted")].

Definition finalized (m : Message) (now : Z) : Message :=
  {| m_id := m_id m; m_session := m_session m; m_role := m_role m; m_created := m_created m; m_completed := Some now; m_finish := m_finish m; m_more := jset "error" (or_else (jget "error" (m_more m)) aborted) (m_more m) |}.

Definition finalizeInterruptedTurn (s : string) (now : Z) (b : Batch) : exc JsError Batch :=
  match finalizeEligible s (draft b) with
  | None => Ok b
  | Some trailing =>
    let l := default [] (message (draft b) !! s) in
    let b := ensure F_part (ensure F_message b) in
    let b := put_messages s (<[Nat.pred (length l) := finalized trailing now]> l) b in
    match part (draft b) !! m_id trailing with
    | None => Ok (changed b)
    | Some parts => ps ← map_exc (finalize_part now) parts; Ok (changed (put_parts (m_id trailing) ps b))
    end
  end.

Definition applySessionSettled (sessionID : option string) (error : bool) (now : Z) (b : Batch) : exc JsError Batch :=
  match sessionID with
  | None => Ok b
  | Some s =>
    if bool_decide (s = "") then Ok b
    else
      let b := if areSessionStatusesEqual (session_status (draft b) !! s) Idle then b else put_status s Idle b in
      finalizeInterruptedTurn s now (signal (Settled s error) b)
  end.

Definition applyTodoUpdated (sessionID : option string) (todos : option json) (b : Batch) : Batch :=
  match sessionID, todos with
  | Some s, Some (JArr l) =>
    if bool_decide (s = "") || bool_decide (default JNull (todo (draft b) !! s) = JArr l) then b
    else changed (signal (TodosPersisted s (JArr l)) (edit (fun st => with_diff_todo (session_diff st) (<[s := JArr l]> (todo st)) st) (ensure F_todo b)))
  | _, _ => b
  end.

Definition applyBranch (v : option string) (b : Batch) : Batch :=
  if falsy v || bool_decide (branch (draft b) = v) then b else changed (edit (with_branch v) (ensure F_vcs b)).

(** A live projection frame (projection-reducer.ts). *)
Definition applyProjectionEvent (sessionID : option string) (frame : option json) (b : Batch) : Batch :=
  match parseNnaProjection frame with
  | None => b
  | Some f =>
    if negb (bool_decide (sessionID = Some (f_sessionID f))) then b
    else match list_find (fun x => s_id x = f_sessionID f) (session (draft b)) with
    | None => b
    | Some (i, current) =>
      if match s_archived current with Some t => negb (bool_decide (t = 0)) | None => false end then b
      else match offer current f with
      | None => b
      | Some s' => changed (recordRevision (f_sessionID f) (put_sessions (<[i := s']> (session (draft b))) (ensure F_session b)))
      end
    end
  end.

(** ** The reducer and the batch *)

Inductive Event :=
| Projection (sessionID : option string) (frame : option json)
| MessageUpdated (info : option Message) | MessageRemoved (sessionID messageID : option string)
| PartUpdated (p : option Part) (sessionID : option string) | PartRemoved (messageID partID : option string)
| PartDelta (messageID partID field delta sessionID : option string)
| Asked (k : Kind) (sessionID : option string) (r : Request) | Replied (k : Kind) (sessionID requestID : option string)
| SessionUpserted (info : option Session) (directory : option string) | SessionDeleted (sessionID : option string)
| SessionDiffed (sessionID : option string) (diff : option json) | SessionStatused (sessionID : option string) (status : option SessionStatus)
| SessionSettled (sessionID : option string) (error : bool) | TodoUpdated (sessionID : option string) (todos : option json)
| BranchUpdated (name : option string) | LspUpdated | ProjectChanged (info : json) | ServerChanged.

Definition applyDirectoryEvent (ev : Event) (now : Z) (b : Batch) : exc JsError Batch :=
  match ev with
  | Projection s f => Ok (applyProjectionEvent s f b)
  | MessageUpdated info => Ok (applyMessageUpdated info b)
  | MessageRemoved s m => Ok (applyMessageRemoved s m b)
  | PartUpdated p s => Ok (applyPartUpdated p s b)
  | PartRemoved m p => Ok (applyPartRemoved m p b)
  | PartDelta m p f d s => Ok (applyPartDelta m p f d s b)
  | Asked k s r => Ok (askRequest k s r b)
  | Replied k s r => Ok (replyRequest k s r b)
  | SessionUpserted i d => Ok (applySessionUpsert i d b)
  | SessionDeleted s => Ok (applySessionDeleted s b)
  | SessionDiffed s d => Ok (applySessionDiff s d b)
  | SessionStatused s v => Ok (applySessionStatus s v b)
  | SessionSettled s e => applySessionSettled s e now b
  | TodoUpdated s t => Ok (applyTodoUpdated s t b)
  | BranchUpdated n => Ok (applyBranch n b)
  | LspUpdated => Ok (signal LspRefresh b)
  | ProjectChanged i => Ok (signal (ProjectUpdated i) b)
  | ServerChanged => Ok (signal GlobalRefresh b)
  end.

Definition newBatch (st : SyncState) : Batch := {| draft := st; cloned := []; out := emptyOutcome |}.

Fixpoint applyEvents (evs : list (Event * Z)) (b : Batch) : exc JsError Batch :=
  match evs with
  | [] => Ok b
  | (ev, now) :: evs => b ← applyDirectoryEvent ev now b; applyEvents evs b
  end.

(** The store after [setState] with the cloned fields of the draft. *)
Definition commit (st : SyncState) (b : Batch) : SyncState :=
  let d := draft b in
  let pick {A} (f : Field) (g : SyncState -> A) : A := if bool_decide (f ∈ cloned b) then g d else g st in
  {| session := pick F_session session; sessionTotal := pick F_sessionTotal sessionTotal; sessionListSource := pick F_sessionListSource sessionListSource; sessionRevision := pick F_sessionRevision sessionRevision;
     sessionEventRevision := pick F_sessionEventRevision sessionEventRevision; sessionDeletedRevision := pick F_sessionDeletedRevision sessionDeletedRevision; session_status := pick F_session_status session_status;
     session_diff := pick F_session_diff session_diff; todo := pick F_todo todo; permission := pick F_permission permission; question := pick F_question question; branch := pick F_vcs branch; limit := limit st;
     message := pick F_message message; part := pick F_part part |}.

(** ** A batch publishes what it changed *)

(** The fields that are not cloned are as in the store. *)
Record covered (st : SyncState) (b : Batch) : Prop := {
  cov_session : F_session ∉ cloned b -> session (draft b) = session st;
  cov_total : F_sessionTotal ∉ cloned b -> sessionTotal (draft b) = sessionTotal st;
  cov_source : F_sessionListSource ∉ cloned b;
  cov_revision : F_sessionRevision ∉ cloned b -> sessionRevision (draft b) = sessionRevision st;
  cov_event : F_sessionEventRevision ∉ cloned b -> sessionEventRevision (draft b) = sessionEventRevision st;
  cov_deleted : F_sessionDeletedRevision ∉ cloned b -> sessionDeletedRevision (draft b) = sessionDeletedRevision st;
  cov_status : F_session_status ∉ cloned b -> session_status (draft b) = session_status st;
  cov_diff : F_session_diff ∉ cloned b -> session_diff (draft b) = session_diff st;
  cov_todo : F_todo ∉ cloned b -> todo (draft b) = todo st;
  cov_permission : F_permission ∉ cloned b -> permission (draft b) = permission st;
  cov_question : F_question ∉ cloned b -> question (draft b) = question st;
  cov_vcs : F_vcs ∉ cloned b -> branch (draft b) = branch st;
  cov_limit : limit (draft b) = limit st;
  cov_message : F_message ∉ cloned b -> message (draft b) = message st;
  cov_part : F_part ∉ cloned b -> part (draft b) = part st;
}.

Lemma cloned_ensure f b g : g ∈ cloned (ensure f b) <-> g = f \/ g ∈ cloned b.
Proof. unfold ensure. case_bool_decide as H; cbn [cloned]; [naive_solver|]. rewrite elem_of_app, list_elem_of_singleton. naive_solver. Qed.

Lemma draft_ensure f b : draft (ensure f b) = draft b.
Proof. unfold ensure. by case_bool_decide. Qed.

(** The same draft, and no field less. *)
Lemma covered_more st b b' : draft b' = draft b -> (forall f, f ∈ cloned b -> f ∈ cloned b') -> F_sessionListSource ∉ cloned b' -> covered st b -> covered st b'.
Proof. intros Hd Hc Hs []. constructor; rewrite ?Hd; auto. Qed.

Lemma covered_ensure st f b : f <> F_sessionListSource -> covered st b -> covered st (ensure f b).
Proof.
  intros Hf H. apply (covered_more st b); [apply draft_ensure|intros g Hg; apply cloned_ensure; by right| |done]. rewrite cloned_ensure. intros [?|?]; [congruence|]. by apply (cov_source _ _ H).
Qed.

Lemma covered_changed st b : covered st b -> covered st (changed b).
Proof. intros H. apply (covered_more st b); [done|done|apply H|done]. Qed.

Lemma covered_signal st s b : covered st b -> covered st (signal s b).
Proof. intros H. apply (covered_more st b); [done|done|apply H|done]. Qed.

Lemma covered_note st m b : covered st b -> covered st (notePartChanged m b).
Proof. intros H. apply (covered_more st b); [done|done|apply H|done]. Qed.

(** An edit of fields that are cloned. *)
Ltac covered_edit := intros; match goal with H : covered _ _ |- _ => destruct H; constructor; cbn; first [intros; exfalso; match goal with Hc : ?x ∉ _ |- False => apply Hc; assumption end | assumption] end.

Lemma covered_message st m b : F_message ∈ cloned b -> covered st b -> covered st (edit (fun s => with_message (m s) s) b).
Proof. covered_edit. Qed.

Lemma covered_part st p b : F_part ∈ cloned b -> covered st b -> covered st (edit (fun s => with_part (p s) s) b).
Proof. covered_edit. Qed.

Lemma covered_session st l b : F_session ∈ cloned b -> covered st b -> covered st (put_sessions l b).
Proof. covered_edit. Qed.

Lemma covered_total st z b : F_sessionTotal ∈ cloned b -> covered st b -> covered st (put_total z b).
Proof. covered_edit. Qed.

Lemma covered_live st b : covered st b -> covered st (edit (fun s => with_session (session s) (sessionTotal s) live s) b).
Proof. covered_edit. Qed.

Lemma covered_put_messages st s l b : F_message ∈ cloned b -> covered st b -> covered st (put_messages s l b).
Proof. covered_edit. Qed.

Lemma covered_put_parts st m l b : F_part ∈ cloned b -> covered st b -> covered st (put_parts m l b).
Proof. covered_edit. Qed.

Lemma covered_buckets st k s l b : field_of k ∈ cloned b -> covered st b -> covered st (edit (writeBuckets k s l) b).
Proof. destruct k; covered_edit. Qed.

Lemma covered_revision st s b : covered st b -> covered st (recordRevision s b).
Proof.
  intros H. unfold recordRevision. set (b1 := ensure _ (ensure _ b)). assert (covered st b1) as H1 by (by apply covered_ensure, covered_ensure).
  assert (F_sessionRevision ∈ cloned b1 /\ F_sessionEventRevision ∈ cloned b1) as [] by (unfold b1; rewrite !cloned_ensure; auto). clearbody b1. covered_edit.
Qed.

Lemma covered_deleted st s b : F_sessionDeletedRevision ∈ cloned b -> covered st b -> covered st (markDeleted s b).
Proof. covered_edit. Qed.

Lemma cloned_ensures fs b f : f ∈ fs \/ f ∈ cloned b -> f ∈ cloned (foldl (fun b f => ensure f b) b fs).
Proof. revert b. induction fs as [|g fs IH]; intros b [H|H]; cbn [foldl]; [by apply not_elem_of_nil in H|done|..]; apply IH; rewrite cloned_ensure; [apply elem_of_cons in H; naive_solver|auto]. Qed.

Lemma covered_ensures st fs b : F_sessionListSource ∉ fs -> covered st b -> covered st (foldl (fun b f => ensure f b) b fs).
Proof. revert b. induction fs as [|g fs IH]; intros b Hs H; cbn [foldl]; [done|]. apply not_elem_of_cons in Hs as [Hg Hs]. apply IH; [done|]. by apply covered_ensure. Qed.

(** The maps of the seven caches of a session. *)
Lemma covered_caches st f g b : (forall x, x ∈ [F_message; F_part] -> x ∈ cloned b) -> (forall x, x ∈ [F_todo; F_session_diff; F_session_status; F_permission; F_question] -> x ∈ cloned b) -> covered st b ->
  covered st (edit (fun s => with_requests (delete g (permission s)) (delete g (question s)) (with_status (delete g (session_status s)) (with_diff_todo (delete g (session_diff s)) (delete g (todo s)) s))) (edit (fun s => with_message (delete g (message s)) (with_part (f s) s)) b)).
Proof.
  intros H1 H2 []. constructor; cbn [edit draft cloned with_requests with_status with_diff_todo with_message with_part session sessionTotal sessionListSource sessionRevision sessionEventRevision sessionDeletedRevision session_status session_diff todo permission question branch limit message part];
    first [intros Hx; exfalso; apply Hx; first [apply H1; solve [repeat (first [by left | right])] | apply H2; solve [repeat (first [by left | right])]] | assumption].
Qed.

Lemma covered_cleanup st s b : covered st b -> covered st (cleanupSessionCaches s b).
Proof.
  intros H. unfold cleanupSessionCaches. cbv zeta. apply covered_caches; [intros x Hx; apply cloned_ensures; left; repeat (apply elem_of_cons in Hx as [->|Hx]; [repeat (first [by left | right])|]); by apply not_elem_of_nil in Hx..|].
  apply covered_ensures; [|done]. intros Hx. repeat (apply elem_of_cons in Hx as [?|Hx]; [done|]). by apply not_elem_of_nil in Hx.
Qed.

Lemma covered_put_status st s v b : covered st b -> covered st (put_status s v b).
Proof. intros H. unfold put_status. apply covered_changed, covered_signal. assert (F_session_status ∈ cloned (ensure F_session_status b)) by (rewrite cloned_ensure; auto). apply (covered_ensure st F_session_status) in H; [|discriminate]. covered_edit. Qed.

Ltac cloned_here := repeat (progress (cbn [cloned edit changed signal notePartChanged put_messages put_parts put_sessions put_total]; rewrite ?cloned_ensure)); auto 12.

Ltac cover := repeat first
  [ assumption | apply covered_put_status | apply covered_changed | apply covered_signal | apply covered_note | apply covered_ensure; [discriminate|] | apply covered_cleanup | apply covered_revision
  | apply covered_message; [cloned_here|] | apply covered_part; [cloned_here|] | apply covered_put_messages; [cloned_here|] | apply covered_put_parts; [cloned_here|]
  | apply covered_session; [cloned_here|] | apply covered_total; [cloned_here|] | apply covered_live ].

(** Leaves out the branch that does nothing. *)
Ltac skip_guard := match goal with |- covered _ (if ?c then _ else _) => destruct c; [done|] end.

Lemma covered_messageUpdated st info b : covered st b -> covered st (applyMessageUpdated info b).
Proof.
  intros H. unfold applyMessageUpdated, noteAssistantInsert. destruct info as [info|]; [|done]. skip_guard. cbv zeta. skip_guard.
  destruct (message (draft b) !! m_session info) as [target|]; [|case_bool_decide; cover]. cbn [mbind option_bind]. destruct (find_message _ target); [|case_bool_decide; cover].
  destruct (m_completed info); cover.
Qed.

Lemma covered_messageRemoved st s m b : covered st b -> covered st (applyMessageRemoved s m b).
Proof. intros H. unfold applyMessageRemoved. destruct s as [s|], m as [m|]; try done. skip_guard. cbv zeta. skip_guard. destruct (message (draft b) !! s); cover. Qed.

Lemma covered_owner st p s b : covered st b -> covered st (missingOwnerCheck p s b).
Proof. intros H. unfold missingOwnerCheck. cbv zeta. repeat case_match; cover. Qed.

Lemma covered_partUpdated st p s b : covered st b -> covered st (applyPartUpdated p s b).
Proof.
  intros H. unfold applyPartUpdated, applyNewPart. destruct p as [p|]; [|done]. do 2 skip_guard. cbv zeta. skip_guard.
  destruct (part (draft b) !! p_message p) as [target|]; cbn [mbind option_bind]; [destruct (find_part _ target)|]; cover; apply covered_owner; cover.
Qed.

Lemma covered_partRemoved st m p b : covered st b -> covered st (applyPartRemoved m p b).
Proof.
  intros H. unfold applyPartRemoved. destruct m as [m|], p as [p|]; try done. skip_guard. destruct (part (draft b) !! m) as [bucket|]; [|done]. destruct (find_part p bucket); [|done]. cbv zeta.
  cover.
Qed.

Lemma covered_partDelta st m p f d s b : covered st b -> covered st (applyPartDelta m p f d s b).
Proof.
  intros H. unfold applyPartDelta. destruct m as [m|], p as [p|], f as [f|], d as [d|]; try done. skip_guard. cbv zeta.
  match goal with |- covered _ (match ?o with _ => _ end) => destruct o as [[[l i] q]|] end; [|cover]. destruct (falsy s); cover.
Qed.

Lemma covered_ask st k s r b : covered st b -> covered st (askRequest k s r b).
Proof.
  intros H. unfold askRequest. destruct s as [s|]; [|done]. skip_guard. cbv zeta. skip_guard. apply covered_changed. destruct (snd <$> _); [|apply covered_signal]; (apply covered_buckets; [cloned_here|]; apply covered_ensure; [by destruct k|done]).
Qed.

Lemma covered_reply st k s r b : covered st b -> covered st (replyRequest k s r b).
Proof.
  intros H. unfold replyRequest. destruct s as [s|], r as [r|]; try done. skip_guard. cbv zeta. assert (covered st (signal (RequestSettled k s r) b)) as H1 by by apply covered_signal.
  destruct (bucketsOf _ _ !! s) as [existing|]; [|done]. skip_guard. assert (covered st (ensure (field_of k) (signal (RequestSettled k s r) b))) as H2 by (apply covered_ensure; [by destruct k|done]).
  destruct (removeById _ _ _) as [bucket []]; [|done]. apply covered_changed, covered_buckets; [cloned_here|done].
Qed.

Lemma covered_trim st b : F_session ∈ cloned b -> covered st b -> covered st (trimSessionList b).
Proof.
  unfold trimSessionList. generalize (length (session (draft b))). intros n. revert b. induction n as [|n IH]; intros b Hc H; cbn [trim_loop]; [done|]. case_bool_decide; [|done].
  destruct (dropOneTrimmed _); [|done]. apply IH; [cloned_here|cover].
Qed.

Lemma cloned_edit g b : cloned (edit g b) = cloned b.
Proof. done. Qed.

Lemma cloned_cleanup s b f : f ∈ cloned b -> f ∈ cloned (cleanupSessionCaches s b).
Proof. intros H. unfold cleanupSessionCaches. cbv zeta. rewrite !cloned_edit. apply cloned_ensures. by right. Qed.

Lemma cloned_revision s b f : f ∈ cloned b -> f ∈ cloned (recordRevision s b).
Proof. intros H. unfold recordRevision. cbn [cloned edit]. rewrite !cloned_ensure. auto. Qed.

(** Setting the list, and the total when it changes. *)
Lemma cloned_counted (c : bool) l z b f : f ∈ cloned b -> f ∈ cloned (if c then put_total z (ensure F_sessionTotal (put_sessions l b)) else put_sessions l b).
Proof. intros H. destruct c; cbn [cloned put_total edit]; [|done]. rewrite cloned_ensure. by right. Qed.

Lemma covered_counted st (c : bool) l z b : F_session ∈ cloned b -> covered st b -> covered st (if c then put_total z (ensure F_sessionTotal (put_sessions l b)) else put_sessions l b).
Proof. intros Hc H. apply (covered_session st l b) in H; [|done]. destruct c; [|done]. apply covered_total; [rewrite cloned_ensure; auto|]. by apply covered_ensure. Qed.

Lemma covered_archive st x b : F_session ∈ cloned b -> covered st b -> covered st (applyArchiveRemoval x b).
Proof.
  intros Hc H. unfold applyArchiveRemoval. destruct (removeById _ _ _) as [l []]; [|done]. cbv zeta. apply covered_changed, covered_signal, covered_cleanup, covered_deleted; [apply cloned_revision; rewrite cloned_ensure; auto|].
  apply covered_revision, covered_ensure; [done|]. by apply covered_counted.
Qed.

Lemma covered_upsert st info d b : covered st b -> covered st (applySessionUpsert info d b).
Proof.
  intros H. unfold applySessionUpsert. destruct info as [info|]; [|done]. skip_guard. cbv zeta. skip_guard. set (x := adoptSessionProjection _ _). set (b1 := ensure _ (ensure _ b)).
  assert (covered st b1) as H1 by by apply covered_ensure, covered_ensure. assert (F_session ∈ cloned b1) as Hc by (unfold b1; rewrite !cloned_ensure; auto).
  match goal with |- covered _ (if ?c then _ else _) => destruct c; [by apply covered_archive|] end. skip_guard. destruct (upsertById _ _ _) as [l ins].
  apply covered_changed, covered_signal, covered_trim; [apply cloned_revision; by apply cloned_counted|]. apply covered_live, covered_revision. by apply covered_counted.
Qed.

Lemma covered_sessionDeleted st s b : covered st b -> covered st (applySessionDeleted s b).
Proof.
  intros H. unfold applySessionDeleted. destruct s as [s|]; [|done]. skip_guard. cbv zeta. set (b1 := ensure _ (ensure _ (ensure _ b))).
  assert (covered st b1) as H1 by by apply covered_ensure, covered_ensure, covered_ensure. assert (F_session ∈ cloned b1 /\ F_sessionDeletedRevision ∈ cloned b1) as [Hc Hd] by (unfold b1; rewrite !cloned_ensure; auto).
  destruct (removeById _ _ _) as [l rm]. apply covered_changed, covered_signal, covered_cleanup, covered_deleted; [apply cloned_revision; by apply cloned_counted|]. apply covered_revision. by apply covered_counted.
Qed.

Lemma covered_diff st s d b : covered st b -> covered st (applySessionDiff s d b).
Proof.
  intros H. unfold applySessionDiff. destruct s as [s|]; [|done]. skip_guard. cbv zeta. apply covered_changed. assert (F_session_diff ∈ cloned (ensure F_session_diff b)) by (rewrite cloned_ensure; auto).
  apply (covered_ensure st F_session_diff) in H; [|discriminate]. covered_edit.
Qed.

Lemma covered_todo st s t b : covered st b -> covered st (applyTodoUpdated s t b).
Proof.
  intros H. unfold applyTodoUpdated. destruct s as [s|], t as [[]|]; try done. skip_guard. apply covered_changed, covered_signal. assert (F_todo ∈ cloned (ensure F_todo b)) by (rewrite cloned_ensure; auto).
  apply (covered_ensure st F_todo) in H; [|discriminate]. covered_edit.
Qed.

Lemma covered_branch st v b : covered st b -> covered st (applyBranch v b).
Proof.
  intros H. unfold applyBranch. skip_guard. apply covered_changed. assert (F_vcs ∈ cloned (ensure F_vcs b)) by (rewrite cloned_ensure; auto). apply (covered_ensure st F_vcs) in H; [|discriminate]. covered_edit.
Qed.

Lemma covered_status st s v b : covered st b -> covered st (applySessionStatus s v b).
Proof. intros H. unfold applySessionStatus. destruct s as [s|], v as [v|]; try done. skip_guard. by apply covered_put_status. Qed.

Lemma covered_projection st s f b : covered st b -> covered st (applyProjectionEvent s f b).
Proof.
  intros H. unfold applyProjectionEvent. destruct (parseNnaProjection f) as [fr|]; [|done]. skip_guard. destruct (list_find _ _) as [[i cur]|]; [|done]. skip_guard. destruct (offer _ _); [|done]. cover.
Qed.

Lemma covered_finalize st s now b b' : covered st b -> finalizeInterruptedTurn s now b = Ok b' -> covered st b'.
Proof.
  intros H. unfold finalizeInterruptedTurn. destruct (finalizeEligible _ _) as [m|]; [|by intros [= <-]]. cbv zeta. destruct (part _ !! m_id m) as [ps|]; [|intros [= <-]; cover].
  destruct (map_exc _ ps); [|done]. cbn [mbind exc_bind]. intros [= <-]. cover.
Qed.

Lemma covered_settled st s e now b b' : covered st b -> applySessionSettled s e now b = Ok b' -> covered st b'.
Proof.
  intros H. unfold applySessionSettled. destruct s as [s|]; [|by intros [= <-]]. case_bool_decide; [by intros [= <-]|]. cbv zeta. apply covered_finalize, covered_signal. destruct (areSessionStatusesEqual _ _); cover.
Qed.

Lemma covered_event st ev now b b' : covered st b -> applyDirectoryEvent ev now b = Ok b' -> covered st b'.
Proof.
  intros H. destruct ev; cbn [applyDirectoryEvent]; try (intros [= <-]).
  - by apply covered_projection. - by apply covered_messageUpdated. - by apply covered_messageRemoved. - by apply covered_partUpdated. - by apply covered_partRemoved. - by apply covered_partDelta.
  - by apply covered_ask. - by apply covered_reply. - by apply covered_upsert. - by apply covered_sessionDeleted. - by apply covered_diff. - by apply covered_status. - by apply covered_settled.
  - by apply covered_todo. - by apply covered_branch. - by apply covered_signal. - by apply covered_signal. - by apply covered_signal.
Qed.

Lemma covered_new st : covered st (newBatch st).
Proof. constructor; try done. cbn. intros H. by apply not_elem_of_nil in H. Qed.

Lemma covered_events st evs b b' : covered st b -> applyEvents evs b = Ok b' -> covered st b'.
Proof.
  revert b. induction evs as [|[ev now] evs IH]; intros b H; cbn [applyEvents]; [by intros [= <-]|]. destruct (applyDirectoryEvent ev now b) as [b1|] eqn:E; [|done]. cbn [mbind exc_bind].
  apply IH. by eapply covered_event.
Qed.

(** C20. Publishing the cloned fields of a batch publishes everything its events changed, in every field but the source of the session list: the store then equals the draft. *)
Theorem batch_publishes_what_it_changed st evs b :
  applyEvents evs (newBatch st) = Ok b ->
  commit st b = with_session (session (draft b)) (sessionTotal (draft b)) (sessionListSource st) (draft b).
Proof.
  intros H. apply (covered_events st) in H; [|apply covered_new]. destruct H. unfold commit, with_session. cbv zeta.
  f_equal; try (case_bool_decide; [done|symmetry; auto]). done.
Qed.

(** The source of the list is set in the draft and never cloned, so a live list stays what it was. *)
Lemma live_source_is_not_published st info d b :
  applyEvents [(SessionUpserted info d, 0)] (newBatch st) = Ok b -> sessionListSource (commit st b) = sessionListSource st.
Proof. intros H. apply (covered_events st) in H; [|apply covered_new]. unfold commit. cbn. by rewrite bool_decide_eq_false_2 by apply H. Qed.

(** ** The lists stay in order *)

Definition requests_ok (m : gmap string (list Request)) : Prop := map_Forall (fun _ l => by_id r_id l /\ l <> []) m.
Definition messages_ok (m : gmap string (list Message)) : Prop := map_Forall (fun _ l => sorted (chronological m_id m_created) l /\ NoDup (m_id <$> l)) m.
Definition parts_ok (m : gmap string (list Part)) : Prop := map_Forall (fun _ l => NoDup (p_id <$> l) /\ l <> []) m.

(** Sessions and requests by id, messages by time, no id twice in a list, no empty list of requests or parts. *)
Record sound (st : SyncState) : Prop := {
  sound_session : by_id s_id (session st);
  sound_permission : requests_ok (permission st);
  sound_question : requests_ok (question st);
  sound_message : messages_ok (message st);
  sound_part : parts_ok (part st);
}.

Lemma sorted_sublist {A} (R : A -> A -> Prop) l k : StronglySorted R l -> sublist k l -> StronglySorted R k.
Proof.
  intros Hl H. revert Hl. induction H as [|x l1 l2 H IH|x l1 l2 H IH]; intros Hl; [done|..]; inversion_clear Hl as [|? ? Hs Hx]; [|by apply IH].
  constructor; [by apply IH|]. rewrite Forall_forall in *. intros y Hy. apply Hx. by eapply elem_of_sublist.
Qed.

Lemma sublist_map {A B} (f : A -> B) k l : sublist k l -> sublist (f <$> k) (f <$> l).
Proof. induction 1; cbn; by constructor. Qed.

Lemma splice_out_sublist {A} i (l : list A) : sublist (splice_out i l) l.
Proof. unfold splice_out. rewrite <- (take_drop i l) at 3. apply sublist_app; [done|]. replace (S i) with (i + 1)%nat by lia. rewrite <- drop_drop. apply sublist_drop. Qed.

(** Sortedness only looks at a key. *)
Lemma sorted_key {A B} (key : A -> B) (R : A -> A -> Prop) (S : B -> B -> Prop) l : (forall x y, R x y <-> S (key x) (key y)) -> StronglySorted R l <-> StronglySorted S (key <$> l).
Proof.
  intros HR. induction l as [|x l IH]; [split; constructor|]. cbn. split; intros H; inversion_clear H as [|? ? Hs Hx]; (constructor; [by apply IH|]).
  - apply Forall_fmap. eapply Forall_impl; [exact Hx|]. intros y. apply HR.
  - rewrite Forall_fmap in Hx. eapply Forall_impl; [exact Hx|]. intros y. apply HR.
Qed.

(** Replacing a record by one with the same key. *)
Lemma fmap_same_key {A B} (key : A -> B) (l : list A) i x y : l !! i = Some x -> key x = key y -> key <$> <[i := y]> l = key <$> l.
Proof. intros Hi Hk. rewrite list_fmap_insert, <- Hk. apply list_insert_id. by rewrite list_lookup_fmap, Hi. Qed.

Lemma index_of_Some {T} (id_of : T -> string) k l i : SyncOrder.index_of id_of k l = Some i -> exists x, l !! i = Some x /\ id_of x = k.
Proof. unfold SyncOrder.index_of. destruct (list_find _ l) as [[j x]|] eqn:E; [|done]. intros [= <-]. apply list_find_Some in E as (H1 & H2 & _). eauto. Qed.

Lemma index_of_None {T} (id_of : T -> string) k l : SyncOrder.index_of id_of k l = None -> k ∉ id_of <$> l.
Proof.
  unfold SyncOrder.index_of. destruct (list_find _ l) as [[j x]|] eqn:E; [done|]. intros _. apply list_find_None in E. intros (x & -> & Hx)%list_elem_of_fmap. rewrite Forall_forall in E. by apply (E x).
Qed.

Lemma messages_put s l m : messages_ok m -> sorted (chronological m_id m_created) l -> NoDup (m_id <$> l) -> messages_ok (<[s := l]> m).
Proof. intros Hm H1 H2. by apply map_Forall_insert_2. Qed.

Lemma chronological_key x y : chronological m_id m_created x y = true <-> (fun a b : Z * string => (if bool_decide (a.1 = b.1) then sle a.2 b.2 else bool_decide (a.1 < b.1)) = true) (m_created x, m_id x) (m_created y, m_id y).
Proof. done. Qed.

(** One message in the place of another of the same id. *)
Lemma replaced_ok l i cur info : sorted (chronological m_id m_created) l -> NoDup (m_id <$> l) -> l !! i = Some cur -> m_id cur = m_id info ->
  let l' := if same_moment m_id m_created cur info then <[i := info]> l else insertMessageChronological m_id m_created (splice_out i l) info in
  sorted (chronological m_id m_created) l' /\ NoDup (m_id <$> l').
Proof.
  intros Hs Hn Hi Hid. unfold same_moment. destruct (bool_decide _ && _) eqn:E; cbv zeta.
  - apply andb_true_iff in E as [E1%bool_decide_eq_true E2%bool_decide_eq_true]. split.
    + apply (sorted_key _ _ _ l chronological_key) in Hs. apply (sorted_key _ _ _ _ chronological_key). rewrite (fmap_same_key _ l i cur info); [done|done|congruence].
    + by rewrite (fmap_same_key m_id l i cur info).
  - pose proof (splice_out_sublist i l) as Hsub. destruct (chronological_insert_is_a_sort m_id m_created (splice_out i l) info) as (_ & H1 & H2); [by eapply sorted_sublist|]. split; [done|].
    rewrite H2. cbn. constructor; [|apply (sublist_NoDup _ (m_id <$> l)); [done|by apply sublist_map]]. rewrite <- Hid. rewrite <- (take_drop_middle l i cur Hi), fmap_app, fmap_cons in Hn.
    apply NoDup_app in Hn as (_ & Hx & [Hy _]%NoDup_cons). unfold splice_out. rewrite fmap_app, not_elem_of_app. split; [|done]. intros Hin. apply (Hx _ Hin). by left.
Qed.

Lemma sound_with_message m st : sound st -> messages_ok m -> sound (with_message m st).
Proof. by intros [] ?; constructor. Qed.

Lemma sound_with_part p st : sound st -> parts_ok p -> sound (with_part p st).
Proof. by intros [] ?; constructor. Qed.

Lemma sound_messageUpdated info b : sound (draft b) -> sound (draft (applyMessageUpdated info b)).
Proof.
  intros H. pose proof (sound_message _ H) as Hm. unfold applyMessageUpdated, noteAssistantInsert. destruct info as [info|]; [|done]. destruct (_ || _); [done|]. cbv zeta.
  match goal with |- context [if ?c then b else _] => destruct c; [done|] end.
  assert (forall l, sorted (chronological m_id m_created) l -> NoDup (m_id <$> l) -> sound (with_message (<[m_session info := l]> (message (draft b))) (draft b))) as Hput by (intros l H1 H2; by apply sound_with_message, messages_put).
  destruct (message (draft b) !! m_session info) as [target|] eqn:Et; cbn [mbind option_bind].
  - pose proof (map_Forall_lookup_1 _ _ _ _ Hm Et) as [Hs Hn]. destruct (find_message (m_id info) target) as [i|] eqn:Ei.
    + apply index_of_Some in Ei as (cur & Hi & Hid). rewrite Hi. destruct (replaced_ok target i cur info Hs Hn Hi Hid) as [H1 H2]. destruct (m_completed info); cbn [draft signal put_messages edit]; rewrite draft_ensure; by apply Hput.
    + apply index_of_None in Ei. destruct (chronological_insert_is_a_sort m_id m_created target info Hs) as (_ & H1 & H2).
      assert (NoDup (m_id <$> insertMessageChronological m_id m_created target info)) as H3 by (rewrite H2; cbn; by constructor).
      case_bool_decide; cbn [draft changed signal put_messages edit]; rewrite draft_ensure; by apply Hput.
  - case_bool_decide; cbn [draft changed signal put_messages edit]; rewrite draft_ensure; (apply Hput; [repeat constructor|apply NoDup_singleton]).
Qed.

Lemma messages_removed m s k l : messages_ok m -> m !! s = Some l -> messages_ok (<[s := (removeMessageById m_id l k).1]> m).
Proof.
  intros Hm Hl. pose proof (map_Forall_lookup_1 _ _ _ _ Hm Hl) as [Hs Hn]. unfold removeMessageById. destruct (SyncOrder.index_of _ _ _) as [i|]; cbn [fst]; apply messages_put; try done.
  - eapply sorted_sublist; [exact Hs|apply splice_out_sublist]. - apply (sublist_NoDup _ (m_id <$> l)); [done|]. apply sublist_map, splice_out_sublist.
Qed.

Lemma sound_messageRemoved s m b : sound (draft b) -> sound (draft (applyMessageRemoved s m b)).
Proof.
  intros H. unfold applyMessageRemoved. destruct s as [s|], m as [m|]; try done. destruct (_ || _); [done|]. cbv zeta. destruct (_ && _); [done|].
  assert (parts_ok (delete m (part (draft b)))) as Hp by (apply map_Forall_delete, H). destruct (message (draft b) !! s) as [l|] eqn:El; cbn [draft changed edit put_messages]; rewrite !draft_ensure; cbn [part with_message].
  - apply sound_with_part; [|done]. apply sound_with_message; [done|]. by apply messages_removed; [apply H|].
  - by apply sound_with_part.
Qed.

Lemma draft_owner p s b : draft (missingOwnerCheck p s b) = draft b.
Proof. unfold missingOwnerCheck. cbv zeta. by repeat case_match. Qed.

Lemma parts_put m l ps : parts_ok ps -> NoDup (p_id <$> l) -> l <> [] -> parts_ok (<[m := l]> ps).
Proof. intros Hm H1 H2. by apply map_Forall_insert_2. Qed.

(** A flag, a state or any other field leaves the id of a part alone. *)
Lemma p_id_set k v p : k <> "id" -> p_id (jset k v p) = p_id p.
Proof. intros H. unfold p_id, text_of. by rewrite jget_set_ne. Qed.

Lemma p_id_del k p : k <> "id" -> p_id (jdel k p) = p_id p.
Proof. intros H. unfold p_id, text_of. by rewrite jget_del_ne. Qed.

Lemma sound_partUpdated p s b : sound (draft b) -> sound (draft (applyPartUpdated p s b)).
Proof.
  intros H. pose proof (sound_part _ H) as Hp. unfold applyPartUpdated, applyNewPart. destruct p as [p|]; [|done]. destruct (_ || _); [done|]. case_bool_decide; [done|]. cbv zeta. destruct (shouldPreserveExistingPart _ _); [done|].
  assert (forall l, NoDup (p_id <$> l) -> l <> [] -> sound (with_part (<[p_message p := l]> (part (draft b))) (draft b))) as Hput by (intros l H1 H2; by apply sound_with_part, parts_put).
  destruct (part (draft b) !! p_message p) as [target|] eqn:Et; cbn [mbind option_bind].
  - pose proof (map_Forall_lookup_1 _ _ _ _ Hp Et) as [Hn Hne]. destruct (find_part (p_id p) target) as [i|] eqn:Ei.
    + apply index_of_Some in Ei as (cur & Hi & Hid). cbn [draft changed notePartChanged put_parts edit]. rewrite draft_ensure. apply Hput.
      * rewrite (fmap_same_key p_id target i cur); [done|done|]. case_bool_decide; [done|]. by rewrite p_id_set.
      * intros E. by apply (f_equal length) in E; rewrite length_insert in E; destruct target.
    + apply index_of_None in Ei. cbn [draft changed]. rewrite draft_owner. cbn [draft notePartChanged put_parts edit]. rewrite draft_ensure. destruct (if _ || _ then _ else None) as [i|] eqn:Eo; apply Hput.
      * destruct (target !! i) as [cur|] eqn:Ec; [|by rewrite list_insert_ge by by apply lookup_ge_None_1]. rewrite list_fmap_insert. apply NoDup_alt. intros j k x Hj Hk.
        rewrite NoDup_alt in Hn. assert (forall j, (p_id <$> target) !! j <> Some (p_id p)) as Hx by (intros j' Hj'; apply Ei; by eapply list_elem_of_lookup_2).
        destruct (decide (i = j)) as [->|Hij], (decide (j = k)) as [->|Hjk]; try done.
        -- rewrite list_lookup_insert_eq in Hj by (rewrite length_fmap; by eapply lookup_lt_Some). injection Hj as <-. rewrite list_lookup_insert_ne in Hk by done. by destruct (Hx k).
        -- destruct (decide (i = k)) as [->|Hik]; [rewrite list_lookup_insert_eq in Hk by (rewrite length_fmap; by eapply lookup_lt_Some); injection Hk as <-; rewrite list_lookup_insert_ne in Hj by done; by destruct (Hx j)|].
           rewrite list_lookup_insert_ne in Hj, Hk by done. by apply (Hn j k x).
      * intros E. by apply (f_equal length) in E; rewrite length_insert in E; destruct target.
      * rewrite fmap_app. apply NoDup_app. split_and!; [done| |apply NoDup_singleton]. intros x Hx ->%list_elem_of_singleton. done.
      * by destruct target.
  - cbn [draft changed]. rewrite draft_owner. cbn [draft notePartChanged put_parts edit]. rewrite draft_ensure. apply Hput; [apply NoDup_singleton|done].
Qed.

Lemma sound_partRemoved m p b : sound (draft b) -> sound (draft (applyPartRemoved m p b)).
Proof.
  intros H. unfold applyPartRemoved. destruct m as [m|], p as [p|]; try done. destruct (_ || _); [done|]. destruct (part (draft b) !! m) as [bucket|] eqn:Eb; [|done]. destruct (find_part p bucket) as [i|]; [|done]. cbv zeta.
  cbn [draft changed notePartChanged edit]. rewrite draft_ensure. pose proof (map_Forall_lookup_1 _ _ _ _ (sound_part _ H) Eb) as [Hn _]. apply sound_with_part; [done|].
  case_bool_decide; [apply map_Forall_delete, H|]. apply parts_put; [apply H| |done]. apply (sublist_NoDup _ (p_id <$> bucket)); [done|]. apply sublist_map, splice_out_sublist.
Qed.

Lemma p_id_write p f v : f <> "id" -> p_id (writeDeltaField p f v) = p_id p.
Proof. intros H. unfold writeDeltaField. case_bool_decide; by apply p_id_set. Qed.

Lemma p_id_delta p f d : f <> "id" -> p_id (applyDeltaToPart p f d) = p_id p.
Proof.
  intros H. unfold applyDeltaToPart. cbv zeta. destruct (dedupe_of p); [|by apply p_id_write]. case_bool_decide; [|by apply p_id_write]. rewrite p_id_write by done. case_bool_decide; [by apply p_id_del|by apply p_id_set].
Qed.

Lemma sound_partDelta m p f d s b : f <> Some "id" -> sound (draft b) -> sound (draft (applyPartDelta m p f d s b)).
Proof.
  intros Hf H. unfold applyPartDelta. destruct m as [m|], p as [p|], f as [f|], d as [d|]; try done. destruct (_ || _); [done|]. cbv zeta. rewrite draft_ensure.
  destruct (part (draft b) !! m) as [l|] eqn:El; cbn [mbind option_bind]; [|cbn [draft signal]; by rewrite draft_ensure].
  destruct (find_part p l) as [i|] eqn:Ei; cbn [mbind option_bind]; [|cbn [draft signal]; by rewrite draft_ensure]. apply index_of_Some in Ei as (q & Hq & Hid). rewrite Hq. cbn [mbind option_bind].
  pose proof (map_Forall_lookup_1 _ _ _ _ (sound_part _ H) El) as [Hn Hne]. assert (sound (with_part (<[m := <[i := applyDeltaToPart q f d]> l]> (part (draft b))) (draft b))) as Hs.
  { apply sound_with_part; [done|]. apply parts_put; [apply H| |]. - rewrite (fmap_same_key p_id l i q); [done|done|]. rewrite p_id_delta; [done|congruence]. - intros E. by apply (f_equal length) in E; rewrite length_insert in E; destruct l. }
  destruct (falsy s); cbn [draft changed signal notePartChanged put_parts edit]; by rewrite draft_ensure.
Qed.

#[local] Instance request_order : TotalOrder by_request_id.
Proof. split; unfold by_request_id; [intros a b; apply sle_total|intros a b c; apply sle_trans]. Qed.

(** A list by id is sorted already. *)
Lemma by_id_sorted l : by_id r_id l -> sorted by_request_id l.
Proof.
  unfold by_id, sorted. induction 1 as [|x l Hl IH Hx]; [constructor|]. constructor; [done|]. eapply Forall_impl; [exact Hx|]. intros y Hy. cbn in Hy. unfold by_request_id, sle. by rewrite (slt_asym _ _ Hy).
Qed.

Lemma requests_of k st : sound st -> requests_ok (bucketsOf k st).
Proof. intros []. by destruct k. Qed.

Lemma sound_buckets k s l st : sound st -> by_id r_id l -> sound (writeBuckets k s l st).
Proof.
  intros H Hl. pose proof (requests_of k st H) as Hk. assert (requests_ok (if bool_decide (l = []) then delete s (bucketsOf k st) else <[s := l]> (bucketsOf k st))) as Hn by (case_bool_decide; [by apply map_Forall_delete|by apply map_Forall_insert_2]).
  unfold writeBuckets. cbv zeta. destruct H, k; by constructor.
Qed.

Lemma sound_ask k s r b : sound (draft b) -> sound (draft (askRequest k s r b)).
Proof.
  intros H. unfold askRequest. destruct s as [s|]; [|done]. destruct (_ || _); [done|]. cbv zeta. case_bool_decide; [done|].
  assert (by_id r_id (default [] (bucketsOf k (draft b) !! s))) as He by (destruct (bucketsOf k (draft b) !! s) as [l|] eqn:E; [by apply (map_Forall_lookup_1 _ _ _ _ (requests_of k _ H) E)|constructor]).
  destruct (upsert_spec r_id _ r He) as [Hb _]. destruct (snd <$> _); cbn [draft changed signal edit]; rewrite draft_ensure; apply sound_buckets; try done; by rewrite (js_sort_id _ _ (by_id_sorted _ Hb)).
Qed.

Lemma sound_reply k s r b : sound (draft b) -> sound (draft (replyRequest k s r b)).
Proof.
  intros H. unfold replyRequest. destruct s as [s|], r as [r|]; try done. destruct (_ || _); [done|]. cbv zeta. cbn [draft signal]. destruct (bucketsOf k (draft b) !! s) as [l|] eqn:El; [|done]. destruct (negb _); [done|].
  pose proof (map_Forall_lookup_1 _ _ _ _ (requests_of k _ H) El) as [Hb _]. destruct (remove_spec r_id l r Hb) as [Hr _]. destruct (removeById _ _ _) as [bucket []]; cbn [draft changed edit]; rewrite draft_ensure; [by apply sound_buckets|done].
Qed.

(** Sessions and their counters. *)
Lemma sound_with_session l t src st : sound st -> by_id s_id l -> sound (with_session l t src st).
Proof. by intros [] ?; constructor. Qed.

Lemma sound_keep st st' : session st' = session st -> permission st' = permission st -> question st' = question st -> message st' = message st -> part st' = part st -> sound st -> sound st'.
Proof. intros E1 E2 E3 E4 E5 []. constructor; by rewrite ?E1, ?E2, ?E3, ?E4, ?E5. Qed.

Lemma sound_revision s b : sound (draft b) -> sound (draft (recordRevision s b)).
Proof. intros H. unfold recordRevision. cbn [draft edit]. rewrite !draft_ensure. by apply (sound_keep (draft b)). Qed.

Lemma sound_deleted s b : sound (draft b) -> sound (draft (markDeleted s b)).
Proof. by apply sound_keep. Qed.

Lemma draft_ensures fs b : draft (foldl (fun b f => ensure f b) b fs) = draft b.
Proof. revert b. induction fs as [|f fs IH]; intros b; cbn [foldl]; [done|]. by rewrite IH, draft_ensure. Qed.

Lemma parts_dropped s st : parts_ok (part st) -> parts_ok (drop_parts s st).
Proof.
  intros H. unfold drop_parts. cbv zeta. set (retained := list_to_set _). generalize (default [] (message st !! s)). intros l. revert H. generalize (part st). induction l as [|m l IH]; intros ps H; cbn [foldl]; [done|].
  apply IH. case_bool_decide; [done|]. by apply map_Forall_delete.
Qed.

Lemma draft_edit f b : draft (edit f b) = f (draft b).
Proof. done. Qed.

Lemma draft_changed b : draft (changed b) = draft b.
Proof. done. Qed.

Lemma draft_signal s b : draft (signal s b) = draft b.
Proof. done. Qed.

Lemma sound_with_requests p q st : sound st -> requests_ok p -> requests_ok q -> sound (with_requests p q st).
Proof. by intros [] ? ?; constructor. Qed.

Lemma sound_with_status m st : sound st -> sound (with_status m st).
Proof. by apply sound_keep. Qed.

Lemma sound_with_diff_todo d t st : sound st -> sound (with_diff_todo d t st).
Proof. by apply sound_keep. Qed.

Lemma sound_caches s p st : sound st -> parts_ok p ->
  sound (with_requests (delete s (permission st)) (delete s (question st)) (with_status (delete s (session_status st)) (with_diff_todo (delete s (session_diff st)) (delete s (todo st)) (with_message (delete s (message st)) (with_part p st))))).
Proof.
  intros H Hp. apply sound_with_requests; [|apply map_Forall_delete, H..]. apply sound_with_status, sound_with_diff_todo, sound_with_message; [by apply sound_with_part|apply map_Forall_delete, H].
Qed.

Lemma sound_cleanup s b : sound (draft b) -> sound (draft (cleanupSessionCaches s b)).
Proof.
  intros H. unfold cleanupSessionCaches. cbv zeta. rewrite !draft_edit, draft_ensures. exact (sound_caches s _ _ H (parts_dropped s _ (sound_part _ H))).
Qed.

Lemma sound_counted (c : bool) l z b : sound (draft b) -> by_id s_id l -> sound (draft (if c then put_total z (ensure F_sessionTotal (put_sessions l b)) else put_sessions l b)).
Proof. intros H Hl. destruct c; cbn [draft put_total put_sessions edit]; rewrite ?draft_ensure; by repeat apply sound_with_session. Qed.

Lemma sound_archive x b : sound (draft b) -> sound (draft (applyArchiveRemoval x b)).
Proof.
  intros H. unfold applyArchiveRemoval. destruct (remove_spec s_id (session (draft b)) (s_id x) (sound_session _ H)) as [Hr _]. destruct (removeById _ _ _) as [l []]; [|done]. cbv zeta. cbn [fst] in Hr.
  rewrite draft_changed, draft_signal. apply sound_cleanup, sound_deleted, sound_revision. rewrite draft_ensure. by apply sound_counted.
Qed.

Lemma by_id_out {T} (id_of : T -> string) i l : by_id id_of l -> by_id id_of (splice_out i l).
Proof. intros H. eapply sorted_sublist; [exact H|apply splice_out_sublist]. Qed.

Lemma sound_trim b : sound (draft b) -> sound (draft (trimSessionList b)).
Proof.
  unfold trimSessionList. generalize (length (session (draft b))). intros n. revert b. induction n as [|n IH]; intros b H; cbn [trim_loop]; [done|]. case_bool_decide; [|done].
  unfold dropOneTrimmed. destruct (list_find _ _) as [[i x]|]; [|done]. cbn [fmap option_fmap option_map]. apply IH. cbn [draft put_sessions edit]. rewrite draft_ensure. apply sound_with_session; [done|]. apply by_id_out, H.
Qed.

Lemma sound_upsert info d b : sound (draft b) -> sound (draft (applySessionUpsert info d b)).
Proof.
  intros H. unfold applySessionUpsert. destruct info as [info|]; [|done]. case_bool_decide; [done|]. cbv zeta. destruct (shouldSkipStaleSessionEvent _ _); [done|]. set (x := adoptSessionProjection _ _).
  set (b1 := ensure _ (ensure _ b)). assert (draft b1 = draft b) as Hd by (unfold b1; by rewrite !draft_ensure). assert (sound (draft b1)) as H1 by by rewrite Hd.
  match goal with |- sound (draft (if ?c then _ else _)) => destruct c; [by apply sound_archive|] end. match goal with |- sound (draft (if ?c then _ else _)) => destruct c; [done|] end.
  destruct (upsert_spec s_id (session (draft b1)) x (sound_session _ H1)) as [Hu _]. destruct (upsertById _ _ _) as [l ins]. cbn [fst] in Hu. rewrite draft_changed, draft_signal.
  apply sound_trim. rewrite draft_edit. match goal with |- sound (with_session _ _ _ (draft ?b2)) => assert (sound (draft b2)) as H2 by (apply sound_revision; by apply sound_counted) end. apply sound_with_session; [done|apply H2].
Qed.

Lemma sound_sessionDeleted s b : sound (draft b) -> sound (draft (applySessionDeleted s b)).
Proof.
  intros H. unfold applySessionDeleted. destruct s as [s|]; [|done]. case_bool_decide; [done|]. cbv zeta. set (b1 := ensure _ (ensure _ (ensure _ b))). assert (sound (draft b1)) as H1 by (unfold b1; by rewrite !draft_ensure).
  destruct (remove_spec s_id (session (draft b1)) s (sound_session _ H1)) as [Hr _]. destruct (removeById _ _ _) as [l rm]. cbn [fst] in Hr. rewrite draft_changed, draft_signal. apply sound_cleanup, sound_deleted, sound_revision. by apply sound_counted.
Qed.

Lemma sound_put_status s v b : sound (draft b) -> sound (draft (put_status s v b)).
Proof. intros H. unfold put_status. cbn [draft changed signal edit]. rewrite draft_ensure. by apply (sound_keep (draft b)). Qed.

Lemma offer_id s f s' : offer s f = Some s' -> s_id s' = s_id s.
Proof. unfold offer. destruct (staleProjection _ _ _ _); [done|]. by intros [= <-]. Qed.

Lemma sound_projection s f b : sound (draft b) -> sound (draft (applyProjectionEvent s f b)).
Proof.
  intros H. unfold applyProjectionEvent. destruct (parseNnaProjection f) as [fr|]; [|done]. destruct (negb _); [done|]. destruct (list_find _ _) as [[i cur]|] eqn:Ef; [|done]. apply list_find_Some in Ef as (Hi & _ & _).
  match goal with |- sound (draft (if ?c then _ else _)) => destruct c; [done|] end. destruct (offer cur fr) as [s'|] eqn:Eo; [|done]. rewrite draft_changed. apply sound_revision. unfold put_sessions. rewrite draft_edit, draft_ensure.
  apply sound_with_session; [done|]. pose proof (sound_session _ H) as Hs. unfold by_id in *. rewrite (sorted_key s_id _ (fun a b => slt a b = true)) in * by done. rewrite (fmap_same_key s_id _ i cur); [done|done|]. symmetry. by eapply offer_id.
Qed.

(** ** Settled turns *)

Lemma map_exc_Forall2 {E A B} (f : A -> exc E B) l l' : map_exc f l = Ok l' -> Forall2 (fun x y => f x = Ok y) l l'.
Proof.
  revert l'. induction l as [|x l IH]; intros l'; cbn [map_exc]; [intros [= <-]; constructor|]. destruct (f x) as [y|] eqn:Ex; [|done]. cbn [mbind exc_bind].
  destruct (map_exc f l) as [ys|]; [|done]. cbn [mbind exc_bind]. intros [= <-]. constructor; [done|by apply IH].
Qed.

Lemma finalize_part_id now p q : finalize_part now p = Ok q -> p_id q = p_id p.
Proof.
  unfold finalize_part. destruct (jget "state" p) as [st|]; [|done]. destruct st; try done; cbv zeta; (destruct (negb _ || _); [by intros [= <-]|]); intros [= <-]; by apply p_id_set.
Qed.

Lemma finalize_parts_ids now l l' : map_exc (finalize_part now) l = Ok l' -> p_id <$> l' = p_id <$> l.
Proof. intros H. apply map_exc_Forall2 in H. induction H as [|x y l l' Hxy _ IH]; [done|]. cbn. f_equal; [by eapply finalize_part_id|done]. Qed.

Lemma eligible_last s st m : finalizeEligible s st = Some m -> exists l, message st !! s = Some l /\ last l = Some m /\ m_role m = "assistant" /\ m_completed m = None /\ default [] (question st !! s) = [] /\ default [] (permission st !! s) = [].
Proof.
  unfold finalizeEligible. destruct (question st !! s) as [[|]|], (permission st !! s) as [[|]|]; try done; (destruct (message st !! s) as [l|]; [|done]); (destruct (last l) as [m'|] eqn:El; [|done]);
    (destruct (bool_decide _ && _) eqn:E; [|done]); intros [= <-]; apply andb_true_iff in E as [E1%bool_decide_eq_true E2%bool_decide_eq_true]; exists l; by split_and!.
Qed.

(** The record of the trailing message in its list. *)
Lemma last_put l m now : last l = Some m -> l !! Nat.pred (length l) = Some m /\ last (<[Nat.pred (length l) := finalized m now]> l) = Some (finalized m now).
Proof.
  intros H. rewrite last_lookup in H. split; [done|]. rewrite last_lookup, length_insert. apply list_lookup_insert_eq. by eapply lookup_lt_Some.
Qed.

Lemma sound_finalize s now b b' : sound (draft b) -> finalizeInterruptedTurn s now b = Ok b' -> sound (draft b').
Proof.
  intros H. unfold finalizeInterruptedTurn. destruct (finalizeEligible s (draft b)) as [m|] eqn:Em; [|by intros [= <-]]. cbv zeta. apply eligible_last in Em as (l & Hl & Hlast & _). rewrite Hl. cbn [default from_option id].
  destruct (last_put l m now Hlast) as [Hi _]. pose proof (map_Forall_lookup_1 _ _ _ _ (sound_message _ H) Hl) as [Hs Hn]. set (l' := <[_ := _]> l).
  assert (messages_ok (<[s := l']> (message (draft b)))) as Hm.
  { apply messages_put; [apply H| |]; unfold l'; [|by rewrite (fmap_same_key m_id l _ m)]. apply (sorted_key _ _ _ l chronological_key) in Hs. apply (sorted_key _ _ _ _ chronological_key). by rewrite (fmap_same_key _ l _ m). }
  unfold put_messages. rewrite draft_edit, !draft_ensure. cbn [part with_message]. destruct (part (draft b) !! m_id m) as [ps|] eqn:Ep.
  - destruct (map_exc _ ps) as [ps'|] eqn:Ee; [|done]. cbn [mbind exc_bind]. intros Hb'. assert (draft b' = with_part (<[m_id m := ps']> (part (draft b))) (with_message (<[s := l']> (message (draft b))) (draft b))) as ->.
    { injection Hb' as <-. rewrite draft_changed. unfold put_parts. by rewrite !draft_edit, !draft_ensure. }
    pose proof (map_Forall_lookup_1 _ _ _ _ (sound_part _ H) Ep) as [Hnp Hne]. apply sound_with_part; [by apply sound_with_message|]. apply parts_put; [apply H|by rewrite (finalize_parts_ids _ _ _ Ee)|].
    intros ->. apply finalize_parts_ids in Ee. by destruct ps.
  - intros Hb'. assert (draft b' = with_message (<[s := l']> (message (draft b))) (draft b)) as ->; [|by apply sound_with_message]. injection Hb' as <-. by rewrite draft_changed, draft_edit, !draft_ensure.
Qed.

Lemma sound_settled s e now b b' : sound (draft b) -> applySessionSettled s e now b = Ok b' -> sound (draft b').
Proof.
  intros H. unfold applySessionSettled. destruct s as [s|]; [|by intros [= <-]]. case_bool_decide; [by intros [= <-]|]. cbv zeta. apply sound_finalize. rewrite draft_signal. destruct (areSessionStatusesEqual _ _); [done|by apply sound_put_status].
Qed.

(** No delta names the id of a part as its field. *)
Definition names_content (ev : Event) : Prop := match ev with PartDelta _ _ (Some "id") _ _ => False | _ => True end.

Lemma sound_event ev now b b' : names_content ev -> sound (draft b) -> applyDirectoryEvent ev now b = Ok b' -> sound (draft b').
Proof.
  intros Hev H. destruct ev as [| | | | |m p f d s| | | | | |s v|s e|s t|v| | |]; cbn [applyDirectoryEvent]; try (intros [= <-]).
  - by apply sound_projection. - by apply sound_messageUpdated. - by apply sound_messageRemoved. - by apply sound_partUpdated. - by apply sound_partRemoved.
  - apply sound_partDelta; [|done]. by intros ->. - by apply sound_ask. - by apply sound_reply. - by apply sound_upsert. - by apply sound_sessionDeleted.
  - unfold applySessionDiff. destruct sessionID as [s|]; [|done]. case_bool_decide; [done|]. cbv zeta. rewrite draft_changed, draft_edit, draft_ensure. by apply sound_with_diff_todo.
  - unfold applySessionStatus. destruct s as [s|], v as [v|]; try done. destruct (_ || _); [done|]. by apply sound_put_status. - by apply sound_settled.
  - unfold applyTodoUpdated. destruct s as [s|], t as [[]|]; try done. destruct (_ || _); [done|]. rewrite draft_changed, draft_signal, draft_edit, draft_ensure. by apply sound_with_diff_todo.
  - unfold applyBranch. destruct (_ || _); [done|]. rewrite draft_changed, draft_edit, draft_ensure. by apply (sound_keep (draft b)). - done. - done. - done.
Qed.

Lemma sound_events evs b b' : Forall (fun e => names_content e.1) evs -> sound (draft b) -> applyEvents evs b = Ok b' -> sound (draft b').
Proof.
  intros Hev. revert b. induction Hev as [|[ev now] evs Hn _ IH]; intros b H; cbn [applyEvents]; [by intros [= <-]|]. destruct (applyDirectoryEvent ev now b) as [b1|] eqn:E; [|done]. cbn [mbind exc_bind].
  apply IH. by eapply sound_event.
Qed.

(** C12. A batch of harness events keeps the store's lists in order: sessions, permissions and questions sorted by id, the messages of a session by creation time and id, no id twice in any of them nor among the parts of a message, and no empty list of permissions, questions or parts left under a key (an emptied list of messages may stay); in whatever order the events come, and whatever they are but for deltas of the field [id], which would rename a part. *)
Theorem reducer_keeps_lists_in_order st evs b :
  sound st -> Forall (fun e => names_content e.1) evs -> applyEvents evs (newBatch st) = Ok b -> sound (commit st b).
Proof.
  intros H Hev E. pose proof (covered_events st evs (newBatch st) b (covered_new st) E) as Hc. apply sound_events in E; [|done|done]. destruct Hc, E as [E1 E2 E3 E4 E5], H as [H1 H2 H3 H4 H5].
  constructor; unfold commit; cbn [session permission question message part]; by case_bool_decide.
Qed.

(** [part.state] is there to be read. *)
Definition stateful (p : Part) : bool := match jget "state" p with None | Some JNull => false | _ => true end.

(** A tool part that is over: a settled status or an end time. *)
Definition tool_over (p : Part) : bool :=
  match jget "state" p with
  | Some st => match jfield "status" st with Some (JStr s) => bool_decide (s ∈ SETTLED_STATUSES) | _ => false end || bool_decide (is_Some (jfield "end" (or_empty (jfield "time" st))))
  | None => false
  end.

Lemma finalize_part_throws now p : stateful p = false -> finalize_part now p = Throw TypeError.
Proof. unfold stateful, finalize_part. destruct (jget "state" p) as [[]|]; done. Qed.

(** What settling makes of a part: a running tool has failed by now, every other
    part is as it was. *)
Definition part_settled (now : Z) (p q : Part) : Prop :=
  if bool_decide (p_type p = "tool") && negb (tool_over p)
  then p_id q = p_id p /\ p_type q = "tool" /\ tool_over q = true
       /\ (st ← jget "state" q; jfield "status" st) = Some (JStr "error")
       /\ (st ← jget "state" q; t ← jfield "time" st; jfield "end" t) = Some (JInt now)
  else q = p.

Lemma finalize_part_settled now p : stateful p = true -> exists q, finalize_part now p = Ok q /\ part_settled now p q.
Proof.
  unfold stateful, finalize_part, part_settled, tool_over. destruct (jget "state" p) as [st|] eqn:Est; [|done]. intros Hst.
  destruct st as [|x|x|x|x|x]; try done; cbv zeta; set (over := _ || bool_decide _); set (time := jset "end" _ _);
    (destruct (bool_decide (p_type p = "tool")) eqn:Et; cbn [negb orb andb]; [|by eexists]; destruct over; cbn [negb]; [by eexists|];
     eexists; split; [done|]; apply bool_decide_eq_true in Et; rewrite p_id_set by done;
     split_and!; [done|unfold p_type, text_of in *; by rewrite jget_set_ne| | |];
     rewrite jget_set_eq; cbn [mbind option_bind jfield]; rewrite ?jget_set_eq;
     [rewrite jget_set_ne, jget_set_ne, jget_set_eq by done; by apply orb_true_intro; left
     |by rewrite jget_set_ne, jget_set_ne, jget_set_eq
     |cbn [mbind option_bind jfield]; unfold time; by rewrite jget_set_eq]).
Qed.

Lemma map_exc_settled now ps : forallb stateful ps = true -> exists qs, map_exc (finalize_part now) ps = Ok qs /\ Forall2 (part_settled now) ps qs.
Proof.
  induction ps as [|p ps IH]; cbn [forallb map_exc]; [by exists []|]. intros [Hp Hps]%andb_true_iff. destruct (finalize_part_settled now p Hp) as (q & -> & Hq), (IH Hps) as (qs & -> & Hqs). exists (q :: qs). cbn. by split; [|constructor].
Qed.

Lemma map_exc_throws now ps : forallb stateful ps = false -> map_exc (finalize_part now) ps = Throw TypeError.
Proof.
  induction ps as [|p ps IH]; cbn [forallb map_exc]; [done|]. destruct (stateful p) eqn:Ep; cbn [andb].
  - intros H. destruct (finalize_part_settled now p Ep) as (q & -> & _). cbn. by rewrite IH.
  - intros _. by rewrite finalize_part_throws.
Qed.

(** The last message of a session is an answer under way, and nobody is asked
    anything. *)
Record interrupted (st : SyncState) (s : string) (earlier : list Message) (m : Message) : Prop := {
  in_last : message st !! s = Some (earlier ++ [m]);
  in_answer : m_role m = "assistant";
  in_open : m_completed m = None;
  in_asked : default [] (question st !! s) = [] /\ default [] (permission st !! s) = [];
}.

Lemma eligible_interrupted st s m : finalizeEligible s st = Some m <-> exists earlier, interrupted st s earlier m.
Proof.
  split.
  - intros (l & Hl & Hm & Hr & Hc & Hq)%eligible_last. apply last_Some in Hm as [l' ->]. by exists l'.
  - intros [earlier [Hl Hr Hc [Hq Hp]]]. unfold finalizeEligible. rewrite Hl, last_snoc, !bool_decide_eq_true_2 by done.
    destruct (question st !! s) as [[|]|], (permission st !! s) as [[|]|]; done.
Qed.

(** The state a settle event finds, with the session idle. *)
Lemma eligible_idle s st m : finalizeEligible s (with_status m st) = finalizeEligible s st.
Proof. done. Qed.

Lemma settle_start st s e now : s <> "" -> exists b0, (draft b0 = st \/ draft b0 = with_status (<[s := Idle]> (session_status st)) st) /\ session_status (draft b0) !! s = Some Idle /\
  applyEvents [(SessionSettled (Some s) e, now)] (newBatch st) = (b ← finalizeInterruptedTurn s now b0; Ok b).
Proof.
  intros Hs. cbn [applyEvents applyDirectoryEvent]. unfold applySessionSettled. rewrite bool_decide_eq_false_2 by done. cbv zeta. destruct (areSessionStatusesEqual _ _) eqn:Ea.
  - exists (signal (Settled s e) (newBatch st)). split; [by left|]. split; [|done]. cbn in *. by destruct (session_status st !! s) as [[]|].
  - exists (signal (Settled s e) (put_status s Idle (newBatch st))). split; [by right|]. split; [|done]. rewrite draft_signal. cbn. apply lookup_insert_eq.
Qed.

(** The answer as it was, completed now, with its error or an aborted one. *)
Record message_settled (now : Z) (m m' : Message) : Prop := {
  ms_id : m_id m' = m_id m /\ m_session m' = m_session m;
  ms_role : m_role m' = m_role m /\ m_created m' = m_created m /\ m_finish m' = m_finish m;
  ms_completed : m_completed m' = Some now;
  ms_error : jget "error" (m_more m') =
    match jget "error" (m_more m) with
    | None | Some JNull => Some (JObj [("name", JStr "MessageAbortedError"); ("message", JStr "aborted")])
    | error => error
    end;
  ms_more : forall k, k <> "error" -> jget k (m_more m') = jget k (m_more m);
}.

Lemma finalized_settled now m : message_settled now m (finalized m now).
Proof.
  split; try done; cbn [finalized m_more].
  - rewrite jget_set_eq. by destruct (jget "error" (m_more m)) as [[]|].
  - intros k Hk. by apply jget_set_ne.
Qed.

(** What settling leaves of the messages and the parts. *)
Lemma finalize_outcome s now b :
  match finalizeInterruptedTurn s now b with
  | Ok b' => session_status (draft b') = session_status (draft b) /\
     ((forall earlier m, ~ interrupted (draft b) s earlier m) -> b' = b) /\
     (forall earlier m, interrupted (draft b) s earlier m ->
        forallb stateful (default [] (part (draft b) !! m_id m)) = true /\
        message (draft b') = <[s := earlier ++ [finalized m now]]> (message (draft b)) /\
        exists qs, Forall2 (part_settled now) (default [] (part (draft b) !! m_id m)) qs /\
          part (draft b') = match part (draft b) !! m_id m with Some _ => <[m_id m := qs]> (part (draft b)) | None => part (draft b) end)
  | Throw _ => exists earlier m, interrupted (draft b) s earlier m /\ forallb stateful (default [] (part (draft b) !! m_id m)) = false
  end.
Proof.
  unfold finalizeInterruptedTurn. destruct (finalizeEligible s (draft b)) as [m|] eqn:He; cbv zeta.
  2:{ split_and!; [done|done|]. intros earlier m Hm. assert (finalizeEligible s (draft b) = Some m) by (apply eligible_interrupted; by exists earlier). congruence. }
  apply eligible_interrupted in He as [earlier Hm]. pose proof (in_last _ _ _ _ Hm) as Hl. rewrite Hl. cbn [default from_option id].
  assert (<[Nat.pred (length (earlier ++ [m])) := finalized m now]> (earlier ++ [m]) = earlier ++ [finalized m now]) as ->.
  { rewrite length_app, Nat.add_1_r, insert_app_r_alt by (cbn; lia). by rewrite Nat.sub_diag. }
  assert (forall e' m', interrupted (draft b) s e' m' -> e' = earlier /\ m' = m) as Hu.
  { intros e' m' Hm'. pose proof (in_last _ _ _ _ Hm') as Hl'. rewrite Hl in Hl'. by injection Hl' as [-> ->]%app_inj_tail. }
  unfold put_messages. rewrite draft_edit, !draft_ensure. cbn [part with_message]. destruct (part (draft b) !! m_id m) as [ps|] eqn:Ep.
  - destruct (forallb stateful ps) eqn:Ef; [|rewrite map_exc_throws by done; exists earlier, m; by rewrite Ep].
    destruct (map_exc_settled now ps Ef) as (qs & -> & Hqs). cbn [mbind exc_bind]. rewrite draft_changed. unfold put_parts. rewrite !draft_edit, !draft_ensure.
    split_and!; [done|intros Hno; by destruct (Hno earlier m)|]. intros e' m' [-> ->]%Hu. rewrite Ep. split_and!; [done|done|]. by exists qs.
  - rewrite draft_changed, draft_edit, !draft_ensure. split_and!; [done|intros Hno; by destruct (Hno earlier m)|].
    intros e' m' [-> ->]%Hu. rewrite Ep. split_and!; [done|done|]. by exists [].
Qed.

(** C21. When a session settles, it becomes idle. If its last message is an assistant's that is not completed, and no question or permission of the session is open, that message is completed with an error and the running tools among its parts have failed by now, the other parts and every other message staying as they were; otherwise no message and no part changes. The handler throws when that message has a part without a tool state, and only then. *)
Theorem settling_finishes_the_turn st s e now :
  s <> "" ->
  match applyEvents [(SessionSettled (Some s) e, now)] (newBatch st) with
  | Ok b => session_status (draft b) !! s = Some Idle /\
     (forall earlier m, interrupted st s earlier m ->
        forallb stateful (default [] (part st !! m_id m)) = true /\
        (exists m', message_settled now m m' /\ message (draft b) = <[s := earlier ++ [m']]> (message st)) /\
        exists qs, Forall2 (part_settled now) (default [] (part st !! m_id m)) qs /\
          part (draft b) = match part st !! m_id m with Some _ => <[m_id m := qs]> (part st) | None => part st end) /\
     ((forall earlier m, ~ interrupted st s earlier m) -> message (draft b) = message st /\ part (draft b) = part st)
  | Throw _ => exists earlier m, interrupted st s earlier m /\ forallb stateful (default [] (part st !! m_id m)) = false
  end.
Proof.
  intros Hs. destruct (settle_start st s e now Hs) as (b0 & Hd & Hidle & ->). pose proof (finalize_outcome s now b0) as H.
  assert ((forall earlier m, interrupted (draft b0) s earlier m <-> interrupted st s earlier m) /\ part (draft b0) = part st /\ message (draft b0) = message st) as (Hi & Hp & Hm).
  { split_and!; [|by destruct Hd as [->| ->]..]. intros earlier m. by destruct Hd as [->| ->]; split; intros []. }
  destruct (finalizeInterruptedTurn s now b0) as [b|].
  - cbn [mbind exc_bind]. destruct H as (H1 & H2 & H3). split_and!; [by rewrite H1| |].
    + intros earlier m Hin%Hi. specialize (H3 earlier m Hin). rewrite Hp, Hm in H3. destruct H3 as (Hst & H3 & Hqs).
      split_and!; [done| |done]. exists (finalized m now). split; [apply finalized_settled|done].
    + intros Hno. rewrite H2; [done|]. by intros earlier m Hin%Hi%Hno.
  - destruct H as (earlier & m & Hin%Hi & H). rewrite Hp in H. by exists earlier, m.
Qed.

(** ** Concrete stores *)

Definition INITIAL_STATE : SyncState :=
  {| session := []; sessionTotal := 0; sessionListSource := empty_list; sessionRevision := 0; sessionEventRevision := ∅; sessionDeletedRevision := ∅; session_status := ∅; session_diff := ∅; todo := ∅; permission := ∅; question := ∅;
     branch := None; limit := 5; message := ∅; part := ∅ |}.

Definition ex_message (i role : string) (at_ : Z) : Message := {| m_id := i; m_session := "s1"; m_role := role; m_created := at_; m_completed := None; m_finish := None; m_more := [] |}.
Definition ex_part (i type text : string) : Part := [("id", JStr i); ("sessionID", JStr "s1"); ("messageID", JStr "m2"); ("type", JStr type); ("text", JStr text)].
Definition ex_tool (i status : string) : Part := [("id", JStr i); ("sessionID", JStr "s1"); ("messageID", JStr "m2"); ("type", JStr "tool"); ("state", JObj [("status", JStr status)])].
Definition ex_of (i : string) : Session := {| s_id := i; s_parent := None; s_created := 5; s_updated := 10; s_archived := None; s_nnd := None; s_doc := []; s_retired := [] |}.

(** A turn with its answer under way. *)
Definition ex_turn (parts : list Part) : SyncState :=
  default INITIAL_STATE (match applyEvents ((MessageUpdated (Some (ex_message "m2" "assistant" 20)), 0) :: (MessageUpdated (Some (ex_message "m1" "user" 10)), 0) :: (map (fun p => (PartUpdated (Some p) (Some "s1"), 0)) parts)) (newBatch INITIAL_STATE) with Ok b => Some (commit INITIAL_STATE b) | Throw _ => None end).

(** An unfinished answer with text in it: the settle event throws, and the flush it came in is lost. *)
Lemma text_part_breaks_settling :
  applyEvents [(SessionStatused (Some "s2") (Some Busy), 30); (SessionSettled (Some "s1") false, 30)] (newBatch (ex_turn [ex_part "p1" "text" "so far"; ex_tool "p2" "running"])) = Throw TypeError.
Proof. by vm_compute. Qed.

(** A session that the limit keeps out of the list is counted at each of its updates. *)
Lemma trimmed_session_is_counted_again :
  let st := with_session (ex_of <$> ["s2"; "s3"; "s4"; "s5"; "s6"]) 6 authoritative INITIAL_STATE in
  match applyEvents [(SessionUpserted (Some (ex_of "s1")) None, 0); (SessionUpserted (Some (ex_of "s1")) None, 0)] (newBatch st) with Ok b => Some (s_id <$> session (draft b), sessionTotal (draft b)) | Throw _ => None end
  = Some (["s2"; "s3"; "s4"; "s5"; "s6"], 8).
Proof. by vm_compute. Qed.

(** The text of a part after some events. *)
Definition text_after (evs : list Event) (st : SyncState) : option string :=
  match applyEvents (map (fun e => (e, 0)) evs) (newBatch st) with Ok b => match part (draft b) !! "m2" with Some (p :: _) => text_of "text" p | _ => None end | Throw _ => None end.

(** A snapshot that brings a chunk ahead of its delta: merged once, but repeated when the snapshot is replayed. *)
Lemma replayed_snapshot_repeats_a_chunk :
  let snapshot := PartUpdated (Some (ex_part "p1" "text" "abc")) None in
  let chunk := PartDelta (Some "m2") (Some "p1") (Some "text") (Some "c") (Some "s1") in
  text_after [snapshot; chunk] (ex_turn [ex_part "p1" "text" "ab"]) = Some "abc" /\ text_after [snapshot; snapshot; chunk] (ex_turn [ex_part "p1" "text" "ab"]) = Some "abcc".
Proof. by vm_compute. Qed.

Lemma settling_finishes_the_turn_witness :
  let st := ex_turn [ex_tool "p2" "running"; ex_tool "p3" "completed"] in
  match applyEvents [(SessionSettled (Some "s1") false, 30)] (newBatch st) with
  | Ok b => exists m', message_settled 30 (ex_message "m2" "assistant" 20) m' /\ message (draft b) !! "s1" = Some [ex_message "m1" "user" 10; m']
  | Throw _ => False
  end.
Proof.
  intros st. pose proof (settling_finishes_the_turn st "s1" false 30 ltac:(done)) as H.
  destruct (applyEvents [(SessionSettled (Some "s1") false, 30)] (newBatch st)) as [b|] eqn:E; [|by vm_compute in E].
  destruct H as (_ & H & _). destruct (H [ex_message "m1" "user" 10] (ex_message "m2" "assistant" 20)) as (_ & (m' & Hm & ->) & _).
  - constructor; [by vm_compute..|]. split; by vm_compute.
  - exists m'. split; [done|]. by rewrite lookup_insert_eq.
Defined.

Definition ex_events : list (Event * Z) :=
  [(MessageUpdated (Some (ex_message "m9" "assistant" 90)), 1); (MessageUpdated (Some (ex_message "m3" "user" 30)), 2); (SessionUpserted (Some (ex_of "s9")) None, 3); (SessionUpserted (Some (ex_of "s1")) (Some "/w"), 4);
   (Asked Permission (Some "s1") {| r_id := "q2"; r_doc := [] |}, 5); (Asked Permission (Some "s1") {| r_id := "q1"; r_doc := [] |}, 6); (Replied Permission (Some "s1") (Some "q2"), 7); (SessionDeleted (Some "s9"), 8);
   (PartDelta (Some "m2") (Some "p1") (Some "text") (Some "!") (Some "s1"), 9)].

Lemma reducer_keeps_lists_in_order_witness :
  exists b, applyEvents ex_events (newBatch INITIAL_STATE) = Ok b /\ sound (commit INITIAL_STATE b) /\ m_id <$> default [] (message (commit INITIAL_STATE b) !! "s1") = ["m3"; "m9"].
Proof.
  eexists. split; [vm_compute; reflexivity|]. split; [|vm_compute; reflexivity]. apply (reducer_keeps_lists_in_order INITIAL_STATE ex_events).
  - constructor; [constructor|by apply map_Forall_empty..]. - by repeat constructor. - vm_compute. reflexivity.
Defined.

Lemma batch_publishes_what_it_changed_witness :
  exists b, applyEvents ex_events (newBatch INITIAL_STATE) = Ok b /\ commit INITIAL_STATE b = with_session (session (draft b)) (sessionTotal (draft b)) empty_list (draft b).
Proof. eexists. split; [vm_compute; reflexivity|]. apply (batch_publishes_what_it_changed INITIAL_STATE ex_events). vm_compute. reflexivity. Defined.
