(* ===== verification/SessionOrder.v ===== *)
(** The order of the session list (ui/src/sync/session-ordering.ts): lifecycle ranks,
    frozen baselines, and the depth-first listing of sessions under their parents.

    A session is seen through its id, its parent and its two times; [T] is the full
    record the list keeps. *)

From S2P Require Import Prelude JsString JsMap JsSort.
From Stdlib Require Import Sorting.Sorted.

Inductive LifecyclePhase : Type := unknown | active | settled.

#[export] Instance LifecyclePhase_eq_dec : EqDecision LifecyclePhase.
Proof. solve_decision. Defined.

(** The type of a status, if there is one. *)
Definition phaseOf (status : option string) : LifecyclePhase :=
  match status with
  | None => unknown
  | Some t => if bool_decide (t = "idle") then settled else active
  end.

Record OrderingState : Type := mkOrdering {
  rankById : list (string * Z);
  lastRank : Z;
  baselineRank : list (string * Z);
  phases : list (string * LifecyclePhase);
}.

Definition newOrdering : OrderingState := mkOrdering [] 0 [] [].

Definition nextRank (s : OrderingState) (now : Z) : Z := Z.max (lastRank s + 1) now.

Definition phase_before (s : OrderingState) (sid : string) : LifecyclePhase := default unknown (jget sid (phases s)).

Definition with_phase (s : OrderingState) (sid : string) (p : LifecyclePhase) : OrderingState :=
  mkOrdering (rankById s) (lastRank s) (baselineRank s) (jset sid p (phases s)).

(** One new rank for all of them. *)
Definition promote (s : OrderingState) (sids : list string) (now : Z) : OrderingState :=
  mkOrdering (fold_left (fun m sid => jset sid (nextRank s now) m) sids (rankById s)) (nextRank s now) (baselineRank s) (phases s).

Definition observeStatus (s : OrderingState) (sid : string) (status : option string) (now : Z) : OrderingState :=
  let phase := phaseOf status in
  let previous := phase_before s sid in
  let s1 := with_phase s sid phase in
  if bool_decide (previous = phase) then s1
  else if bool_decide (previous = unknown) then s1
  else
    let crossed := bool_decide (previous = settled) && bool_decide (phase = active)
                   || bool_decide (previous = active) && bool_decide (phase = settled) in
    if crossed then promote s1 [sid] now else s1.

(** The phases of a snapshot, and the sessions whose phase it changes. *)
Definition note_phases (s : OrderingState) (entries : list (string * option string)) : OrderingState * list string :=
  fold_left (fun acc e =>
    let phase := phaseOf e.2 in
    let previous := phase_before acc.1 e.1 in
    (with_phase acc.1 e.1 phase,
     if negb (bool_decide (previous = unknown)) && negb (bool_decide (previous = phase)) then acc.2 ++ [e.1] else acc.2))
    entries (s, []).

Definition reconcileSnapshot (s : OrderingState) (entries : list (string * option string)) (now : Z) : OrderingState :=
  let '(s1, missed) := note_phases s entries in
  if bool_decide (missed = []) then s1 else promote s1 missed now.

Definition promoteNow (s : OrderingState) (sids : list string) (now : Z) : OrderingState := promote s sids now.

Definition remove (s : OrderingState) (sid : string) : OrderingState :=
  mkOrdering (jdel sid (rankById s)) (lastRank s) (jdel sid (baselineRank s)) (jdel sid (phases s)).

Definition reset (s : OrderingState) : OrderingState := newOrdering.

Section listing.
  Context {T : Type} (id_of : T -> string) (parentID : T -> option string) (created updated : T -> Z).

(** A parent that is named. *)
Definition parent_of (x : T) : option string :=
  match parentID x with Some p => if bool_decide (p = "") then None else Some p | None => None end.

Definition freezeBaseline (s : OrderingState) (x : T) : OrderingState :=
  match jget (id_of x) (baselineRank s) with
  | Some _ => s
  | None => mkOrdering (rankById s) (lastRank s) (jset (id_of x) (updated x) (baselineRank s)) (phases s)
  end.

Definition rank_of (s : OrderingState) (x : T) : Z :=
  match jget (id_of x) (rankById s) with
  | Some r => r
  | None => default 0%Z (jget (id_of x) (baselineRank s))
  end.

(** [compareWithinScope(a, b) <= 0] *)
Definition compareWithinScope (s : OrderingState) (a b : T) : bool :=
  if negb (bool_decide (rank_of s a = rank_of s b)) then bool_decide (rank_of s b < rank_of s a)%Z
  else if negb (bool_decide (created a = created b)) then bool_decide (created b < created a)%Z
  else sle (id_of a) (id_of b).

Section tree.
  Context (s : OrderingState) (sessions : list T).

Definition known (key : string) : bool := bool_decide (key ∈ id_of <$> sessions).

(** The children of a known parent, in the order of the list. *)
Definition childrenOf (p : string) : list T :=
  if known p then filter (fun x => parent_of x = Some p) sessions else [].

Definition visited (ordered : list T) (x : T) : bool := bool_decide (id_of x ∈ id_of <$> ordered).

(** [appendBranch]; the fuel bounds the depth of the recursion. *)
Fixpoint appendBranch (fuel : nat) (ordered : list T) (x : T) : list T :=
  match fuel with
  | O => ordered
  | S n =>
    if visited ordered x then ordered
    else fold_left (appendBranch n) (js_sort (compareWithinScope s) (childrenOf (id_of x))) (ordered ++ [x])
  end.

(** Each branch visits a session that was not visited before. *)
Definition branch_fuel : nat := S (length sessions).

Definition append_all (l : list T) (ordered : list T) : list T := fold_left (appendBranch branch_fuel) l ordered.

Definition roots : list T := js_sort (compareWithinScope s) (filter (fun x => parent_of x = None) sessions).

Definition remaining (ordered : list T) : list T :=
  js_sort (compareWithinScope s) (filter (fun x => visited ordered x = false) sessions).

Definition listing : list T :=
  let ordered := append_all roots [] in append_all (remaining ordered) ordered.

End tree.

Definition orderSessionsByLifecycle (s : OrderingState) (sessions : list T) : OrderingState * list T :=
  let s1 := fold_left freezeBaseline sessions s in (s1, listing s1 sessions).

(** ** The listing, branch by branch *)

Definition ids (l : list T) : list string := id_of <$> l.

Lemma ids_app l k : ids (l ++ k) = ids l ++ ids k.
Proof. apply fmap_app. Qed.

Lemma visited_true o x : visited o x = true <-> id_of x ∈ ids o.
Proof. unfold visited. apply bool_decide_eq_true. Qed.

Lemma visited_false o x : visited o x = false <-> id_of x ∉ ids o.
Proof. unfold visited. apply bool_decide_eq_false. Qed.

Definition unvisited (l o : list T) : nat := length (filter (fun x => visited o x = false) l).

Lemma unvisited_app l o new : unvisited l (o ++ new) <= unvisited l o.
Proof.
  unfold unvisited. induction l as [|x l IH]; [done|]. rewrite !filter_cons.
  destruct (decide (visited (o ++ new) x = false)) as [E|E]; [|destruct (decide _); cbn; lia].
  rewrite decide_True; [cbn; lia|]. apply visited_false. apply visited_false in E. rewrite ids_app in E. set_solver.
Qed.

Lemma unvisited_snoc l o x : x ∈ l -> id_of x ∉ ids o -> unvisited l (o ++ [x]) < unvisited l o.
Proof.
  unfold unvisited. induction l as [|y l IH]; [by intros ?%elem_of_nil|]. intros Hx Hn. rewrite !filter_cons.
  pose proof (unvisited_app l o [x]) as Hle. unfold unvisited in Hle. apply elem_of_cons in Hx as [->|Hx].
  - rewrite decide_False by (rewrite not_false_iff_true, visited_true, ids_app; set_solver).
    rewrite decide_True by by apply visited_false. cbn. lia.
  - specialize (IH Hx Hn). destruct (decide (visited (o ++ [x]) y = false)) as [E|E].
    + rewrite decide_True; [cbn; lia|]. apply visited_false. apply visited_false in E. rewrite ids_app in E. set_solver.
    + destruct (decide _); cbn; lia.
Qed.

(** In a list of distinct ids, the one record that satisfies a test. *)
Lemma filter_only (P : T -> Prop) `{!forall x, Decision (P x)} l x :
  NoDup (ids l) -> x ∈ l -> P x -> (forall y, y ∈ l -> P y -> y = x) -> filter P l = [x].
Proof.
  intros Hn Hx HP Hy. apply NoDup_fmap_1 in Hn. induction l as [|y l IH]; [by apply elem_of_nil in Hx|].
  apply NoDup_cons in Hn as [Hyl Hn]. apply elem_of_cons in Hx as [->|Hx].
  - rewrite filter_cons_True by done. f_equal. clear IH. assert (forall z, z ∈ l -> ~ P z) as Hz.
    { intros z Hz HPz. apply Hyl. rewrite <- (Hy z); [done|by right|done]. }
    clear -Hz. induction l as [|z l IH]; [done|]. rewrite filter_cons_False by (apply Hz; by left).
    apply IH. intros w Hw. apply Hz. by right.
  - rewrite filter_cons_False; [apply IH; [done..|]; intros z Hz; apply Hy; by right|]. intros HPy. apply Hyl.
    rewrite (Hy y) by (done || by left). done.
Qed.

Lemma filter_none (P : T -> Prop) `{!forall x, Decision (P x)} l : (forall y, y ∈ l -> ~ P y) -> filter P l = [].
Proof.
  intros Hno. induction l as [|z l IH]; [done|]. rewrite filter_cons_False by (apply Hno; by left).
  apply IH. intros w Hw. apply Hno. by right.
Qed.

Section proofs.
  Context (s : OrderingState) (sessions : list T).
  Hypothesis distinct : NoDup (ids sessions).

Definition sorted_children (y : T) : list T := js_sort (compareWithinScope s) (childrenOf sessions (id_of y)).

(** Sessions of the list, each once. *)
Definition inv (o : list T) : Prop := NoDup (ids o) /\ (forall x, x ∈ o -> x ∈ sessions).

(** What a branch adds: it starts where it may, every other session stands behind its
    parent, and the children of what was added are listed. *)
Record grown (start : T -> Prop) (o new : list T) : Prop := {
  g_placed : forall l1 y l2, new = l1 ++ y :: l2 -> start y \/ exists p, parent_of y = Some p /\ p ∈ ids l1;
  g_closed : forall y c, y ∈ new -> c ∈ childrenOf sessions (id_of y) -> id_of c ∈ ids (o ++ new);
}.

Definition siblings (new : list T) : Prop :=
  forall y, y ∈ new -> filter (fun c => parent_of c = Some (id_of y)) new = sorted_children y.

(** A place whose parent is listed. *)
Definition supported (q : option string) (o : list T) : Prop := forall p, q = Some p -> p ∈ ids o.

Definition all_supported (o : list T) : Prop := forall y, y ∈ o -> supported (parent_of y) o.

Lemma same_id x y : x ∈ sessions -> y ∈ sessions -> id_of x = id_of y -> x = y.
Proof.
  intros [i Hi]%list_elem_of_lookup [j Hj]%list_elem_of_lookup E.
  assert (i = j); [|congruence]. eapply (NoDup_lookup (ids sessions) i j (id_of x) distinct); unfold ids; rewrite list_lookup_fmap;
    [by rewrite Hi|by rewrite Hj, E].
Qed.

Lemma inv_in o x : (forall y, y ∈ o -> y ∈ sessions) -> x ∈ sessions -> id_of x ∈ ids o -> x ∈ o.
Proof. intros Ho Hx (y & E & Hy)%list_elem_of_fmap. by rewrite (same_id x y Hx (Ho y Hy) E). Qed.

Lemma child_in_sessions c p : c ∈ childrenOf sessions p -> c ∈ sessions /\ parent_of c = Some p.
Proof.
  unfold childrenOf. destruct (known sessions p); [|by intros ?%elem_of_nil]. intros [H1 H2]%list_elem_of_filter. done.
Qed.

Lemma grown_nil start o : grown start o [].
Proof. split; [by intros [] ? ? ?|by intros ? ? ?%elem_of_nil]. Qed.

Lemma grown_app start start' o n1 n2 :
  grown start o n1 -> grown start' (o ++ n1) n2 -> grown (fun y => start y \/ start' y) o (n1 ++ n2).
Proof.
  intros [P1 C1] [P2 C2]. split.
  - intros l1 y l2 E. apply app_eq_inv in E as [(k & -> & E)|(k & -> & E)].
    + destruct k as [|z k]; cbn in E.
      * rewrite app_nil_r in *. destruct (P2 [] y l2 (eq_sym E)) as [|(p & _ & Hp)]; [tauto|]. by apply elem_of_nil in Hp.
      * injection E as <- ->. destruct (P1 l1 y k eq_refl) as [|H]; [tauto|by right].
    + destruct (P2 k y l2 E) as [|(p & Hp & Hin)]; [tauto|]. right. exists p. split; [done|]. rewrite ids_app. set_solver.
  - intros y c [Hy|Hy]%elem_of_app Hc.
    + specialize (C1 y c Hy Hc). rewrite app_assoc, ids_app. set_solver.
    + specialize (C2 y c Hy Hc). by rewrite app_assoc.
Qed.

Lemma inv_fresh o new y : inv (o ++ new) -> y ∈ new -> id_of y ∉ ids o.
Proof.
  intros [Hn _] Hy Hin. rewrite ids_app in Hn. apply NoDup_app in Hn as (_ & H & _). apply (H _ Hin).
  by apply list_elem_of_fmap_2.
Qed.

Lemma supported_app q o new : supported q o -> supported q (o ++ new).
Proof. intros H p Hp. rewrite ids_app. apply elem_of_app. left. by apply H. Qed.

Lemma in_ids y l : y ∈ l -> id_of y ∈ ids l.
Proof. apply list_elem_of_fmap_2. Qed.

(** The parent of what a branch adds is its start's, or is added too. *)
Lemma grown_parent start o new y p : grown start o new -> y ∈ new -> parent_of y = Some p -> start y \/ p ∈ ids new.
Proof.
  intros [P _] Hy Hp. apply list_elem_of_split in Hy as (l1 & l2 & ->). destruct (P l1 y l2 eq_refl) as [|(p' & Hp' & Hin)]; [by left|].
  right. assert (p' = p) as -> by congruence. rewrite ids_app. set_solver.
Qed.

Lemma all_supported_app start o new :
  all_supported o -> grown start o new -> (forall y, start y -> supported (parent_of y) o) -> all_supported (o ++ new).
Proof.
  intros Ho Hg Hs y [Hy|Hy]%elem_of_app; [by apply supported_app, Ho|]. intros p Hp.
  destruct (grown_parent _ _ _ _ _ Hg Hy Hp) as [Hst|Hin]; rewrite ids_app; apply elem_of_app; [left; by apply (Hs y)|by right].
Qed.

Lemma siblings_app start start' o n1 n2 :
  inv (o ++ n1 ++ n2) -> grown start o n1 -> grown start' (o ++ n1) n2 ->
  (forall y, start y -> supported (parent_of y) o) -> (forall y, start' y -> supported (parent_of y) o) ->
  siblings n1 -> siblings n2 -> siblings (n1 ++ n2).
Proof.
  intros Hi G1 G2 S1 S2 H1 H2 y Hy. rewrite filter_app.
  assert (NoDup (ids n1 ++ ids n2)) as Hn.
  { destruct Hi as [Hn _]. rewrite !ids_app in Hn. by apply NoDup_app in Hn as (_ & _ & Hn). }
  apply NoDup_app in Hn as (_ & Hn & _).
  assert (id_of y ∉ ids o) as Hyo by by apply (inv_fresh o (n1 ++ n2)).
  apply elem_of_app in Hy as [Hy|Hy].
  - rewrite (H1 y Hy), filter_none, app_nil_r; [done|]. intros c Hc Hp.
    destruct (grown_parent _ _ _ _ _ G2 Hc Hp) as [Hst|Hin]; [by apply Hyo, (S2 c)|]. by apply (Hn (id_of y)); [apply in_ids|].
  - rewrite (H2 y Hy), filter_none; [done|]. intros c Hc Hp.
    destruct (grown_parent _ _ _ _ _ G1 Hc Hp) as [Hst|Hin]; [by apply Hyo, (S1 c)|]. by apply (Hn (id_of y)); [|apply in_ids].
Qed.

Definition branch_ok (n : nat) : Prop := forall o x, inv o -> x ∈ sessions -> unvisited sessions o < n ->
  exists new, appendBranch s sessions n o x = o ++ new /\ inv (o ++ new) /\ id_of x ∈ ids (o ++ new) /\
    grown (fun y => y = x) o new /\ (all_supported o -> supported (parent_of x) o -> siblings new).

Definition fold_ok (n : nat) : Prop := forall cs o, inv o -> (forall c, c ∈ cs -> c ∈ sessions) -> unvisited sessions o < n ->
  exists new, fold_left (appendBranch s sessions n) cs o = o ++ new /\ inv (o ++ new) /\ (forall c, c ∈ cs -> id_of c ∈ ids (o ++ new)) /\
    grown (fun y => y ∈ cs) o new /\
    (all_supported o -> (forall c, c ∈ cs -> supported (parent_of c) o) -> siblings new) /\
    (forall q, supported q o -> (forall c, c ∈ cs -> parent_of c = q) -> NoDup (ids cs) -> (forall c, c ∈ cs -> id_of c ∉ ids o) ->
       filter (fun y => parent_of y = q) new = cs).

Lemma grown_weaken start start' o new : (forall y, start y -> start' y) -> grown start o new -> grown start' o new.
Proof. intros H [P C]. split; [|done]. intros l1 y l2 E. destruct (P l1 y l2 E); [left; by apply H|by right]. Qed.

(** A branch started at a fresh session adds no other with a parent listed before. *)
Lemma branch_filter q o x new : inv (o ++ new) -> x ∈ sessions -> id_of x ∈ ids (o ++ new) -> id_of x ∉ ids o ->
  grown (fun y => y = x) o new -> parent_of x = q -> supported q o ->
  filter (fun y => parent_of y = q) new = [x].
Proof.
  intros Hi Hx Hin Hout Hg Hp Hq. pose proof Hi as [Hn Hs].
  assert (x ∈ new) as Hxn.
  { apply (inv_in _ _ Hs Hx), elem_of_app in Hin as [Hin|Hin]; [|done]. exfalso. by apply Hout, in_ids. }
  apply filter_only; [|done|done|].
  - rewrite ids_app in Hn. by apply NoDup_app in Hn as (_ & _ & Hn).
  - intros y Hy Hpy. destruct q as [p|].
    + destruct (grown_parent _ _ _ _ _ Hg Hy Hpy) as [->|Hin']; [done|]. exfalso. specialize (Hq p eq_refl).
      rewrite ids_app in Hn. apply NoDup_app in Hn as (_ & Hn & _). by apply (Hn p).
    + apply list_elem_of_split in Hy as (l1 & l2 & ->). destruct (g_placed _ _ _ Hg l1 y l2 eq_refl) as [|(p & Hp' & _)]; [done|congruence].
Qed.

Lemma fold_from_branch n : branch_ok n -> fold_ok n.
Proof.
  intros Hb cs. induction cs as [|c cs IH]; intros o Hi Hcs Hu.
  { exists []. rewrite app_nil_r. split_and!; [done|done|by intros ? ?%elem_of_nil|apply grown_nil|by intros _ _ ? ?%elem_of_nil|done]. }
  destruct (Hb o c Hi ltac:(apply Hcs; by left) Hu) as (n1 & E1 & Hi1 & Hc1 & G1 & S1).
  destruct (IH (o ++ n1) Hi1 ltac:(intros; apply Hcs; by right)) as (n2 & E2 & Hi2 & Hc2 & G2 & S2 & F2).
  { pose proof (unvisited_app sessions o n1). lia. }
  exists (n1 ++ n2). cbn [fold_left]. rewrite E1, E2, app_assoc. split_and!; [done|done| | | |].
  - intros y [->|Hy]%elem_of_cons; [|by apply Hc2]. rewrite ids_app. set_solver.
  - eapply grown_weaken; [|by eapply grown_app]. intros y [->|Hy]; [by left|by right].
  - intros Ho Hs. eapply siblings_app; [by rewrite <- app_assoc in Hi2|exact G1|exact G2| | | |].
    + intros y ->. apply Hs. by left.
    + intros y Hy. apply Hs. by right.
    + apply S1; [done|]. apply Hs. by left.
    + apply S2; [eapply all_supported_app; [done|exact G1|]; intros y ->; apply Hs; by left|].
      intros y Hy. apply supported_app, Hs. by right.
  - intros q Hq Hp Hn Hf. apply NoDup_cons in Hn as [Hcc Hn]. rewrite filter_app.
    rewrite (branch_filter q o c n1) by (done || (apply Hcs; by left) || (apply Hp; by left) || (apply Hf; by left)).
    cbn [app]. f_equal. apply F2; [by apply supported_app|intros; apply Hp; by right|done|].
    intros y Hy Hin. rewrite ids_app in Hin. apply elem_of_app in Hin as [Hin|Hin]; [by apply (Hf y); [right|]|].
    assert (y ∈ n1) as Hy1.
    { apply inv_in; [|apply Hcs; by right|done]. intros z Hz. apply Hi1. apply elem_of_app. by right. }
    assert (y ∈ filter (fun y => parent_of y = q) n1) as Hyf by (apply list_elem_of_filter; split; [apply Hp; by right|done]).
    rewrite (branch_filter q o c n1) in Hyf by (done || (apply Hcs; by left) || (apply Hp; by left) || (apply Hf; by left)).
    apply list_elem_of_singleton in Hyf as ->. by apply Hcc, in_ids.
Qed.

Lemma sorted_children_spec x c : c ∈ sorted_children x <-> c ∈ childrenOf sessions (id_of x).
Proof. unfold sorted_children. by rewrite js_sort_perm. Qed.

Lemma sorted_children_distinct x : NoDup (ids (sorted_children x)).
Proof.
  unfold sorted_children, ids. rewrite js_sort_perm. unfold childrenOf. destruct (known sessions (id_of x)); [|apply NoDup_nil_2].
  clear -distinct. unfold ids in distinct. induction sessions as [|y l IH]; [done|]. cbn in distinct. apply NoDup_cons in distinct as [Hy Hn].
  rewrite filter_cons. case_decide; [|by apply IH]. cbn. apply NoDup_cons. split; [|by apply IH].
  intros (z & E & [_ Hz]%list_elem_of_filter)%list_elem_of_fmap. apply Hy. rewrite E. by apply list_elem_of_fmap_2.
Qed.

Lemma branch_step n : fold_ok n -> branch_ok (S n).
Proof.
  intros Hf o x Hi Hx Hu. cbn [appendBranch]. destruct (visited o x) eqn:Ev.
  { exists []. rewrite app_nil_r. apply visited_true in Ev. split_and!; [done..|apply grown_nil|by intros _ _ ? ?%elem_of_nil]. }
  apply visited_false in Ev. pose proof Hi as [Hn Ho].
  assert (inv (o ++ [x])) as Hi1.
  { split; [|intros y [Hy| ->%list_elem_of_singleton]%elem_of_app; auto]. rewrite ids_app. apply NoDup_app.
    split_and!; [done| |apply NoDup_singleton]. intros k Hk ->%list_elem_of_singleton. done. }
  destruct (Hf (sorted_children x) (o ++ [x]) Hi1) as (new & E & Hi2 & Hc & G & S & F).
  { intros c Hc. by apply sorted_children_spec, child_in_sessions in Hc as [Hc _]. }
  { pose proof (unvisited_snoc sessions o x Hx Ev). lia. }
  exists (x :: new). rewrite <- app_assoc in E, Hi2, Hc. cbn [app] in E, Hi2, Hc.
  assert (id_of x ∈ ids (o ++ x :: new)) as Hxin by (rewrite ids_app; apply elem_of_app; right; by left).
  split_and!; [exact E|done|done| |].
  - destruct G as [P C]. split.
    + intros [|z l1] y l2 El; [by injection El as -> _; left|]. injection El as <- El. right.
      destruct (P l1 y l2 El) as [Hy|(p & Hp & Hin)].
      * apply sorted_children_spec, child_in_sessions in Hy as [_ Hy]. exists (id_of x). split; [done|]. by left.
      * exists p. split; [done|]. by right.
    + intros y c [->|Hy]%elem_of_cons Hcy; [apply Hc; by apply sorted_children_spec|].
      specialize (C y c Hy Hcy). by rewrite <- app_assoc in C.
  - intros Hsup Hxs.
    assert (forall c, c ∈ sorted_children x -> supported (parent_of c) (o ++ [x])) as Hcs.
    { intros c Hcc p Hp. apply sorted_children_spec, child_in_sessions in Hcc as [_ Hcc]. assert (p = id_of x) as -> by congruence.
      rewrite ids_app. apply elem_of_app. right. by left. }
    intros y [->|Hy]%elem_of_cons.
    + rewrite filter_cons_False by (intros Hp; by apply Ev, Hxs). apply F; [| |apply sorted_children_distinct|].
      * intros p [= <-]. rewrite ids_app. apply elem_of_app. right. by left.
      * intros c Hcc. by apply sorted_children_spec, child_in_sessions in Hcc as [_ Hcc].
      * intros c Hcc Hin. apply sorted_children_spec, child_in_sessions in Hcc as [Hcs1 Hcp]. rewrite ids_app in Hin.
        apply elem_of_app in Hin as [Hin| Hin%list_elem_of_singleton].
        -- apply Ev. apply (Hsup c); [by apply inv_in|done].
        -- assert (c = x) as -> by by apply same_id. by apply Ev, Hxs.
    + rewrite filter_cons_False.
      * apply S; [|done|done]. intros z [Hz| ->%list_elem_of_singleton]%elem_of_app; [by apply supported_app, Hsup|by apply supported_app].
      * intros Hp. assert (y ∈ x :: new) as Hy' by by right. apply (inv_fresh o (x :: new) y Hi2 Hy'). by apply Hxs.
Qed.

Lemma branches_ok n : branch_ok n /\ fold_ok n.
Proof.
  induction n as [|n [_ IH]]; [|assert (branch_ok (S n)) by (by apply branch_step); split; [done|by apply fold_from_branch]].
  assert (branch_ok 0) by (intros o x _ _ Hu; lia). split; [done|by apply fold_from_branch].
Qed.

(** Fuel past the number of unvisited sessions changes nothing. *)
Lemma branch_fuel_enough n m o x : inv o -> x ∈ sessions -> unvisited sessions o < n -> unvisited sessions o < m ->
  appendBranch s sessions n o x = appendBranch s sessions m o x.
Proof.
  revert m o x. induction n as [|n IH]; intros [|m] o x Hi Hx Hn Hm; try lia. cbn [appendBranch].
  destruct (visited o x) eqn:Ev; [done|]. apply visited_false in Ev. pose proof (unvisited_snoc sessions o x Hx Ev) as Hu.
  assert (inv (o ++ [x])) as Hi1.
  { destruct Hi as [Hd Ho]. split; [|intros y [Hy| ->%list_elem_of_singleton]%elem_of_app; auto]. rewrite ids_app. apply NoDup_app.
    split_and!; [done| |apply NoDup_singleton]. intros k Hk ->%list_elem_of_singleton. done. }
  assert (unvisited sessions (o ++ [x]) < n /\ unvisited sessions (o ++ [x]) < m) as [Hn1 Hm1] by lia. clear Hn Hm Hu Hi Ev.
  assert (forall c, c ∈ js_sort (compareWithinScope s) (childrenOf sessions (id_of x)) -> c ∈ sessions) as Hcs.
  { intros c Hc. by apply (sorted_children_spec x), child_in_sessions in Hc as [Hc _]. }
  revert Hi1 Hn1 Hm1 Hcs. generalize (o ++ [x]) (js_sort (compareWithinScope s) (childrenOf sessions (id_of x))). clear o x Hx.
  intros o cs. revert o. induction cs as [|c cs IHc]; intros o Hi Hn Hm Hcs; [done|]. cbn [fold_left].
  rewrite (IH m o c) by (done || apply Hcs; by left).
  destruct (proj1 (branches_ok m) o c Hi ltac:(apply Hcs; by left) Hm) as (new & -> & Hi' & _).
  pose proof (unvisited_app sessions o new). apply IHc; [done|lia|lia|intros; apply Hcs; by right].
Qed.

(** Sessions that hang from a root. *)
Inductive rooted : T -> Prop :=
| RootedRoot x : x ∈ sessions -> parent_of x = None -> rooted x
| RootedChild x y : x ∈ sessions -> rooted y -> parent_of x = Some (id_of y) -> rooted x.

Lemma rooted_in x : rooted x -> x ∈ sessions.
Proof. by destruct 1. Qed.

Lemma childrenOf_known y : y ∈ sessions ->
  childrenOf sessions (id_of y) = filter (fun x => parent_of x = Some (id_of y)) sessions.
Proof. intros Hy. unfold childrenOf, known. rewrite bool_decide_true; [done|]. by apply list_elem_of_fmap_2. Qed.

(** The listing: the branches of the roots, then those of what they do not reach. *)
Lemma listing_parts : exists n1 n2, listing s sessions = n1 ++ n2 /\ inv (n1 ++ n2) /\
  (forall x, x ∈ sessions -> id_of x ∈ ids (n1 ++ n2)) /\ grown (fun y => y ∈ roots s sessions) [] n1 /\ siblings n1 /\
  filter (fun y => parent_of y = None) n1 = roots s sessions /\ (forall x, rooted x -> x ∈ n1).
Proof.
  assert (forall x, x ∈ roots s sessions <-> parent_of x = None /\ x ∈ sessions) as Hroots.
  { intros x. unfold roots. rewrite js_sort_perm. by rewrite list_elem_of_filter. }
  assert (forall o, unvisited sessions o < branch_fuel sessions) as Hu.
  { intros o. unfold branch_fuel, unvisited. pose proof (length_filter (fun x => visited o x = false) sessions). lia. }
  destruct (branches_ok (branch_fuel sessions)) as [_ Hf].
  destruct (Hf (roots s sessions) []) as (n1 & E1 & Hi1 & Hc1 & G1 & S1 & F1); [|by intros c [_ ?]%Hroots|done|].
  { split; [apply NoDup_nil_2|by intros ? ?%elem_of_nil]. }
  cbn [app] in E1, Hi1, Hc1, F1.
  destruct (Hf (remaining s sessions n1) n1) as (n2 & E2 & Hi2 & Hc2 & _); [done| |done|].
  { intros c Hc. unfold remaining in Hc. rewrite js_sort_perm in Hc. by apply list_elem_of_filter in Hc as [_ Hc]. }
  exists n1, n2. unfold listing, append_all. rewrite E1, E2. split_and!; [done|done| |done| | |].
  - intros x Hx. destruct (decide (id_of x ∈ ids n1)); [rewrite ids_app; set_solver|]. apply Hc2. unfold remaining.
    rewrite js_sort_perm. apply list_elem_of_filter. split; [by apply visited_false|done].
  - apply S1; [by intros ? ?%elem_of_nil|]. intros c [Hc _]%Hroots p Hp. congruence.
  - rewrite <- (F1 None); [by apply list_filter_iff|done|by intros c [? _]%Hroots| |by intros c _ ?%elem_of_nil].
    unfold roots, ids. rewrite js_sort_perm. clear -distinct. unfold ids in distinct. induction sessions as [|y l IH]; [done|].
    cbn in distinct. apply NoDup_cons in distinct as [Hy Hn]. rewrite filter_cons. case_decide; [|by apply IH]. cbn. apply NoDup_cons.
    split; [|by apply IH]. intros (z & E & [_ Hz]%list_elem_of_filter)%list_elem_of_fmap. apply Hy. rewrite E. by apply list_elem_of_fmap_2.
  - intros x Hx. apply inv_in; [apply Hi1|by apply rooted_in|]. induction Hx as [x Hx Hp|x y Hx Hy IH Hp]; [apply Hc1; by apply Hroots|].
    apply (g_closed _ _ _ G1 y x).
    + apply inv_in; [apply Hi1|by apply rooted_in|done].
    + rewrite childrenOf_known by by apply rooted_in. by apply list_elem_of_filter.
Qed.

End proofs.

(** The listing is the sessions, forest-wise, siblings sorted by the comparator. *)
Lemma listing_is_a_forest st sessions :
  NoDup (id_of <$> sessions) ->
  let '(s, out) := orderSessionsByLifecycle st sessions in
  out ≡ₚ sessions /\
  (forall l1 y l2, out = l1 ++ y :: l2 -> rooted sessions y ->
     parent_of y = None \/ exists p, parent_of y = Some p /\ p ∈ id_of <$> l1) /\
  filter (fun x => parent_of x = None) out = js_sort (compareWithinScope s) (filter (fun x => parent_of x = None) sessions) /\
  (forall y, rooted sessions y ->
     filter (fun x => parent_of x = Some (id_of y)) out
     = js_sort (compareWithinScope s) (filter (fun x => parent_of x = Some (id_of y)) sessions)).
Proof.
  intros Hd. unfold orderSessionsByLifecycle. set (s := fold_left freezeBaseline sessions st).
  destruct (listing_parts s sessions Hd) as (n1 & n2 & -> & [Hn Ho] & Hall & G & S & F & R).
  assert (forall y, y ∈ n1 -> y ∈ n2 -> False) as Hdis.
  { intros y H1 H2. rewrite ids_app in Hn. apply NoDup_app in Hn as (_ & Hn & _). by apply (Hn (id_of y)); apply in_ids. }
  split_and!.
  - apply NoDup_Permutation; [by apply (NoDup_fmap_1 id_of)|by apply (NoDup_fmap_1 id_of)|]. intros x. split; [apply Ho|].
    intros Hx. apply (inv_in sessions Hd); [done|done|by apply Hall].
  - intros l1 y l2 E Hy%R. apply app_eq_inv in E as [(k & -> & E)|(k & -> & E)].
    + destruct k as [|z k]; cbn in E.
      * exfalso. apply (Hdis y Hy). rewrite <- E. by left.
      * injection E as <- ->. destruct (g_placed _ _ _ _ G l1 y k eq_refl) as [Hr|H]; [|by right].
        left. unfold roots in Hr. rewrite js_sort_perm in Hr. by apply list_elem_of_filter in Hr as [Hr _].
    + exfalso. apply (Hdis y Hy). rewrite E. set_solver.
  - rewrite filter_app, F, filter_none, app_nil_r; [done|]. intros y Hy Hp. apply (Hdis y); [|done]. apply R. constructor; [|done].
    apply Ho. apply elem_of_app. by right.
  - intros y Hy. rewrite filter_app, (S y) by by apply R. unfold sorted_children. rewrite childrenOf_known by by apply rooted_in.
    rewrite (filter_none _ n2), app_nil_r; [done|]. intros c Hc Hp. apply (Hdis c); [|done]. apply R. econstructor; [|exact Hy|done]. apply Ho. apply elem_of_app. by right.
Qed.

(** ** The order of siblings *)

(** What a session is ranked by: the rank the lifecycle gave it, or else the time of
    its last update as it was when the list first had it. *)
Definition standing (st : OrderingState) (x : T) : Z :=
  match jget (id_of x) (rankById st), jget (id_of x) (baselineRank st) with
  | Some rank, _ => rank
  | None, Some frozen => frozen
  | None, None => updated x
  end.

(** The higher standing first, then the later creation, then the smaller id. *)
Definition comes_before (st : OrderingState) (a b : T) : Prop :=
  (standing st b < standing st a)%Z
  \/ (standing st a = standing st b /\ (created b < created a)%Z)
  \/ (standing st a = standing st b /\ created a = created b /\ slt (id_of a) (id_of b) = true).

Lemma compare_spec s a b : compareWithinScope s a b = true <->
  (rank_of s b < rank_of s a)%Z
  \/ (rank_of s a = rank_of s b /\ ((created b < created a)%Z \/ (created a = created b /\ sle (id_of a) (id_of b) = true))).
Proof.
  unfold compareWithinScope. case_bool_decide as Hr; cbn; [case_bool_decide as Hc; cbn|]; rewrite ?bool_decide_eq_true;
    intuition lia.
Qed.

#[local] Instance compare_total s : TotalOrder (compareWithinScope s).
Proof.
  split.
  - intros a b. rewrite !compare_spec.
    destruct (Z.lt_trichotomy (rank_of s a) (rank_of s b)) as [?|[->|?]]; [right; by left| |left; by left].
    destruct (Z.lt_trichotomy (created a) (created b)) as [?|[->|?]]; [right; right; split; [done|by left]| |left; right; split; [done|by left]].
    destruct (sle_total (id_of a) (id_of b)); [left|right]; right; split; try done; by right.
  - intros a b c. rewrite !compare_spec. intros [?|[? [?|[? ?]]]] [?|[? [?|[? ?]]]]; try lia.
    right. split; [lia|]. right. split; [lia|by eapply sle_trans].
Qed.

Lemma frozen_baseline l st x : NoDup (ids l) ->
  rankById (fold_left freezeBaseline l st) = rankById st /\
  jget (id_of x) (baselineRank (fold_left freezeBaseline l st))
  = match jget (id_of x) (baselineRank st) with
    | Some b => Some b
    | None => updated <$> head (filter (fun y => id_of y = id_of x) l)
    end.
Proof.
  revert st. induction l as [|y l IH]; intros st Hn; [split; [done|]; cbn; by destruct (jget _ (baselineRank st))|].
  cbn in Hn. apply NoDup_cons in Hn as [Hy Hn]. cbn [fold_left]. destruct (IH (freezeBaseline st y) Hn) as [-> ->].
  unfold freezeBaseline. rewrite filter_cons. destruct (jget (id_of y) (baselineRank st)) as [b|] eqn:Eb.
  - split; [done|]. destruct (jget (id_of x) (baselineRank st)) eqn:Ex; [done|]. rewrite decide_False; [done|]. congruence.
  - split; [done|]. cbn [baselineRank]. destruct (decide (id_of y = id_of x)) as [E|E].
    + rewrite <- E, jget_set_eq, Eb. done.
    + by rewrite jget_set_ne.
Qed.

(** Frozen, a session of the list ranks by its standing. *)
Lemma rank_is_standing st sessions x : NoDup (ids sessions) -> x ∈ sessions ->
  rank_of (fold_left freezeBaseline sessions st) x = standing st x.
Proof.
  intros Hn Hx. destruct (frozen_baseline sessions st x Hn) as [Er Eb]. unfold rank_of, standing. rewrite Er, Eb.
  destruct (jget _ (rankById st)); [done|]. destruct (jget _ (baselineRank st)); [done|].
  rewrite (filter_only (fun y => id_of y = id_of x) sessions x) by (done || intros y Hy E; by apply (same_id sessions Hn)). done.
Qed.

(** Siblings the comparator has sorted stand in order. *)
Lemma sorted_siblings st sessions l : NoDup (ids sessions) -> NoDup (ids l) -> (forall x, x ∈ l -> x ∈ sessions) ->
  sorted (compareWithinScope (fold_left freezeBaseline sessions st)) l -> StronglySorted (comes_before st) l.
Proof.
  intros Hn. induction l as [|x l IH]; intros Hl Hin Hs; [constructor|]. cbn in Hl. apply NoDup_cons in Hl as [Hx Hl].
  apply StronglySorted_inv in Hs as [Hs Hle]. constructor; [apply IH; [done| |done]; intros y Hy; apply Hin; by right|].
  rewrite Forall_forall in Hle |- *. intros y Hy. specialize (Hle y Hy). revert Hle.
  rewrite compare_spec, !(rank_is_standing st sessions) by (done || apply Hin; by (left || right)).
  assert (id_of x <> id_of y) as Hne by (intros E; apply Hx; rewrite E; by apply in_ids).
  unfold comes_before. intros [?|[? [?|[? Hi]]]]; [by left|by right; left|right; right]. split_and!; [done|done|].
  unfold sle in Hi. apply negb_true_iff in Hi. destruct (slt_total (id_of x) (id_of y)) as [?|[?|?]]; [done|done|congruence].
Qed.

(** C38. The session list, given sessions with distinct ids, is a rearrangement of
    them, cycles and orphans included. Every session that hangs from a root stands
    behind its parent; the roots, and the children of every session that hangs from a
    root, follow each other by rank, the higher first, then by creation, the later
    first, then by id. A session without a lifecycle rank ranks by the time of its last
    update, as it was when the list first had it. *)
Theorem session_list_is_a_sorted_forest st sessions :
  NoDup (id_of <$> sessions) ->
  let out := (orderSessionsByLifecycle st sessions).2 in
  out ≡ₚ sessions /\
  (forall l1 y l2, out = l1 ++ y :: l2 -> rooted sessions y ->
     parent_of y = None \/ exists p, parent_of y = Some p /\ p ∈ id_of <$> l1) /\
  StronglySorted (comes_before st) (filter (fun x => parent_of x = None) out) /\
  (forall y, rooted sessions y -> StronglySorted (comes_before st) (filter (fun x => parent_of x = Some (id_of y)) out)).
Proof.
  intros Hd. pose proof (listing_is_a_forest st sessions Hd) as H. unfold orderSessionsByLifecycle in *. cbn zeta. cbn [snd].
  destruct H as (Hp & Hplace & Hr & Hc).
  assert (forall l, sublist l sessions ->
    StronglySorted (comes_before st) (js_sort (compareWithinScope (fold_left freezeBaseline sessions st)) l)) as Hs.
  { intros l Hl. apply (sorted_siblings st sessions); [done| | |apply js_sort_sorted, _].
    - unfold ids. rewrite js_sort_perm. eapply sublist_NoDup; [exact Hd|]. by apply fmap_sublist.
    - intros x. rewrite js_sort_perm. intros Hx. by eapply elem_of_sublist. }
  split_and!; [done|done|rewrite Hr; apply Hs, sublist_filter|].
  intros y Hy. rewrite (Hc y Hy). apply Hs, sublist_filter.
Qed.

End listing.

(** ** Ranks *)

Inductive Op : Type :=
| OpObserve (sid : string) (status : option string)
| OpReconcile (entries : list (string * option string))
| OpPromote (sids : list string)
| OpRemove (sid : string)
| OpReset.

Definition step (s : OrderingState) (op : Op) (now : Z) : OrderingState :=
  match op with
  | OpObserve sid status => observeStatus s sid status now
  | OpReconcile entries => reconcileSnapshot s entries now
  | OpPromote sids => promoteNow s sids now
  | OpRemove sid => remove s sid
  | OpReset => reset s
  end.

Definition execute (s : OrderingState) (ops : list (Op * Z)) : OrderingState :=
  fold_left (fun s op => step s op.1 op.2) ops s.

(** No rank is above the last one given. *)
Definition ranked (s : OrderingState) : Prop := Forall (fun kv => kv.2 <= lastRank s)%Z (rankById s).

Lemma nextRank_above s now : (lastRank s < nextRank s now)%Z.
Proof. unfold nextRank. lia. Qed.

Lemma promote_get s sids now sid :
  jget sid (rankById (promote s sids now)) = if bool_decide (sid ∈ sids) then Some (nextRank s now) else jget sid (rankById s).
Proof.
  unfold promote. cbn [rankById]. generalize (nextRank s now). intros r. generalize (rankById s). induction sids as [|x sids IH]; intros m; [done|].
  cbn [fold_left]. rewrite IH. destruct (decide (sid ∈ sids)) as [H|H].
  - rewrite !bool_decide_true by (done || by right). done.
  - rewrite (bool_decide_false _ H). destruct (decide (sid = x)) as [->|Hne].
    + rewrite jget_set_eq, bool_decide_true; [done|by left].
    + rewrite jget_set_ne, bool_decide_false by (done || set_solver). done.
Qed.

Lemma promote_ranked s sids now : ranked s -> ranked (promote s sids now).
Proof.
  unfold ranked, promote. cbn [rankById lastRank]. intros H. pose proof (nextRank_above s now) as Hn.
  assert (Forall (fun kv => kv.2 <= nextRank s now)%Z (rankById s)) as H' by (eapply Forall_impl; [exact H|]; cbn; intros; lia).
  revert H'. generalize (rankById s). induction sids as [|x sids IH]; intros m Hm; [done|]. cbn. apply IH. apply Forall_jset; [cbn; lia|done].
Qed.

Lemma note_phases_ranks s entries :
  rankById (note_phases s entries).1 = rankById s /\ lastRank (note_phases s entries).1 = lastRank s.
Proof.
  unfold note_phases. match goal with |- context [fold_left ?g] => set (f := g) end.
  generalize ([] : list string). revert s. induction entries as [|e l IH]; intros s out; [done|].
  cbn [fold_left]. destruct (f (s, out) e) as [s1 out1] eqn:E. destruct (IH s1 out1) as [H1 H2]. rewrite H1, H2.
  unfold f in E. by injection E as <- _.
Qed.

Lemma step_ranked s op now : ranked s -> ranked (step s op now).
Proof.
  intros H. destruct op as [sid st|es|sids|sid|]; cbn [step].
  - unfold observeStatus. repeat case_bool_decide; try done. all: cbn [andb orb]; try done; by apply (promote_ranked (with_phase s sid (phaseOf st))).
  - unfold reconcileSnapshot. pose proof (note_phases_ranks s es) as [H1 H2]. destruct (note_phases s es) as [s1 missed]. cbn in H1, H2.
    assert (ranked s1) by (unfold ranked; by rewrite H1, H2). case_bool_decide; [done|by apply promote_ranked].
  - by apply promote_ranked.
  - by apply Forall_jdel.
  - constructor.
Qed.

Lemma execute_ranked s ops : ranked s -> ranked (execute s ops).
Proof. revert s. induction ops as [|op ops IH]; intros s H; [done|]. cbn. by apply IH, step_ranked. Qed.

(** A crossing between settled and active. *)
Definition crosses (before after : LifecyclePhase) : bool :=
  match before, after with settled, active | active, settled => true | _, _ => false end.

(** Whatever has been observed, a status that takes a session from settled to
    active or back, and no other, ranks it above every ranked session and leaves
    the other ranks alone; a status that does not cross changes no rank. *)
Theorem crossing_promotes_to_the_top ops sid status now :
  let s := execute newOrdering ops in
  let s' := observeStatus s sid status now in
  (crosses (phase_before s sid) (phaseOf status) = true ->
     jget sid (rankById s') = Some (lastRank s') /\
     forall other r, other <> sid -> jget other (rankById s') = Some r -> jget other (rankById s) = Some r /\ (r < lastRank s')%Z) /\
  (crosses (phase_before s sid) (phaseOf status) = false -> rankById s' = rankById s).
Proof.
  intros s s'. assert (ranked s) as Hr by (apply execute_ranked; constructor).
  assert (s' = if crosses (phase_before s sid) (phaseOf status) then promote (with_phase s sid (phaseOf status)) [sid] now
               else with_phase s sid (phaseOf status)) as ->.
  { unfold s', observeStatus. by destruct (phase_before s sid), (phaseOf status). }
  split; intros ->; [|done]. rewrite promote_get, bool_decide_true by by left. split; [done|]. intros other r Hne.
  rewrite promote_get, bool_decide_false by set_solver. cbn [rankById with_phase]. intros Hg. split; [done|].
  apply (Forall_jget _ _ _ _ Hr) in Hg. cbn in Hg. pose proof (nextRank_above (with_phase s sid (phaseOf status)) now). cbn [lastRank promote] in *.
  unfold with_phase in *. cbn in *. lia.
Qed.

(** ** Witness *)

Record ex_session : Type := mkEx { x_id : string; x_parent : option string; x_created : Z; x_updated : Z }.

Definition ex_list : list ex_session :=
  [mkEx "b" None 10 10; mkEx "c" (Some "a") 5 5; mkEx "loop" (Some "loop") 1 1; mkEx "a" None 20 20; mkEx "d" (Some "a") 6 6].

Lemma session_list_is_a_sorted_forest_witness :
  let out := (orderSessionsByLifecycle x_id x_parent x_created x_updated newOrdering ex_list).2 in
  x_id <$> out = ["a"; "d"; "c"; "b"; "loop"] /\ out ≡ₚ ex_list.
Proof.
  split; [by vm_compute|].
  refine (proj1 (session_list_is_a_sorted_forest x_id x_parent x_created x_updated newOrdering ex_list _)).
  apply (bool_decide_unpack _). by vm_compute.
Defined.
