(* ===== verification/AuthLimits.v ===== *)
(** Attempt limiters of the web server (server/lib/auth/rate-limit.ts): the login
    limiter with its lockout and the redeem limiter, a sliding window.

    The clock is an argument of every operation, one reading per call of [now()];
    times and budgets are integers. *)

From S2P Require Import Prelude.

Record LoginRateLimitConfig := {
  windowMs : Z;
  maxAttempts : Z;
  noIpMaxAttempts : Z;
  lockoutMs : Z;
}.

Record LoginRateLimitResult := {
  allowed : bool;
  limit : Z;
  remaining : Z;
  resetAt : Z;
  locked : bool;
  retryAfterSeconds : option Z;
}.

Definition DEFAULT_RATE_LIMIT_CONFIG : LoginRateLimitConfig :=
  {| windowMs := 5 * 60000; maxAttempts := 10; noIpMaxAttempts := 3; lockoutMs := 15 * 60000 |}.

Record Bucket := { entries : list Z; lockedUntil : Z }.

(** [Math.ceil(a / 1000)] *)
Definition ceil_seconds (a : Z) : Z := (- ((- a) / 1000))%Z.

(** [entries.filter((entry) => stamp - entry < windowMs)] *)
Definition alive (window stamp : Z) (l : list Z) : list Z := filter (fun e => stamp - e < window)%Z l.

#[global] Arguments alive : simpl never.

(** ** The login limiter *)

Section login.
  Context (config : LoginRateLimitConfig).

Definition capFor (key : string) : Z :=
  if bool_decide (key = "") then noIpMaxAttempts config else maxAttempts config.

Definition pruneBucket (buckets : gmap string Bucket) (key : string) (stamp : Z) : gmap string Bucket * option Bucket :=
  match buckets !! key with
  | None => (buckets, None)
  | Some b =>
    let l := alive (windowMs config) stamp (entries b) in
    let u := if bool_decide (lockedUntil b <> 0%Z) && bool_decide (lockedUntil b <= stamp)%Z then 0%Z else lockedUntil b in
    if bool_decide (l = []) && bool_decide (u = 0%Z) then (delete key buckets, None)
    else let b' := {| entries := l; lockedUntil := u |} in (<[key := b']> buckets, Some b')
  end.

Definition lockedResult (lim until stamp : Z) : LoginRateLimitResult :=
  {| allowed := false; limit := lim; remaining := 0; resetAt := until; locked := true;
     retryAfterSeconds := Some (Z.max 1 (ceil_seconds (until - stamp))) |}.

Definition attempt (buckets : gmap string Bucket) (key : string) (stamp : Z) : gmap string Bucket * LoginRateLimitResult :=
  let '(bs, found) := pruneBucket buckets key stamp in
  let lim := capFor key in
  match found with
  | None =>
    (bs, {| allowed := true; limit := lim; remaining := lim; resetAt := stamp + windowMs config; locked := false;
            retryAfterSeconds := None |})
  | Some b =>
    if bool_decide (stamp < lockedUntil b)%Z then (bs, lockedResult lim (lockedUntil b) stamp)
    else if bool_decide (lim <= Zlen (entries b))%Z then
      let until := (stamp + lockoutMs config)%Z in
      (<[key := {| entries := entries b; lockedUntil := until |}]> bs, lockedResult lim until stamp)
    else
      let windowEnd := match entries b with e :: _ => (e + windowMs config)%Z | [] => (stamp + windowMs config)%Z end in
      (bs, {| allowed := true; limit := lim; remaining := Z.max 0 (lim - Zlen (entries b)); resetAt := windowEnd;
              locked := false; retryAfterSeconds := None |})
  end.

(** The second reading of the clock is the one of the lock. *)
Definition record (buckets : gmap string Bucket) (key : string) (stamp stamp2 : Z) : gmap string Bucket :=
  let b := default {| entries := []; lockedUntil := 0 |} (buckets !! key) in
  let l := entries b ++ [stamp] in
  let u := if bool_decide (capFor key < Zlen l)%Z && bool_decide (lockedUntil b = 0%Z)
           then (stamp2 + lockoutMs config)%Z else lockedUntil b in
  <[key := {| entries := l; lockedUntil := u |}]> buckets.

Definition clear (buckets : gmap string Bucket) (key : string) : gmap string Bucket := delete key buckets.

End login.

(** ** The redeem limiter *)

Section redeem.
  Context (windowMs maxAttempts : Z).

Definition prune (buckets : gmap string (list Z)) (key : string) (stamp : Z) : gmap string (list Z) * option (list Z) :=
  match buckets !! key with
  | None => (buckets, None)
  | Some l =>
    let l' := alive windowMs stamp l in
    if bool_decide (l' = []) then (delete key buckets, None) else (<[key := l']> buckets, Some l')
  end.

(** The clock is read by [prune] and again for the answer. *)
Definition redeem_attempt (buckets : gmap string (list Z)) (key : string) (stamp stamp2 : Z) : gmap string (list Z) * LoginRateLimitResult :=
  let '(bs, found) := prune buckets key stamp in
  match found with
  | None =>
    (bs, {| allowed := true; limit := maxAttempts; remaining := maxAttempts; resetAt := stamp2 + windowMs; locked := false;
            retryAfterSeconds := None |})
  | Some l =>
    let reset := match l with e :: _ => (e + windowMs)%Z | [] => windowMs end in
    (bs, if bool_decide (maxAttempts <= Zlen l)%Z then
           {| allowed := false; limit := maxAttempts; remaining := 0; resetAt := reset; locked := true;
              retryAfterSeconds := Some (Z.max 1 (ceil_seconds (reset - stamp2))) |}
         else
           {| allowed := true; limit := maxAttempts; remaining := Z.max 0 (maxAttempts - Zlen l); resetAt := reset;
              locked := false; retryAfterSeconds := None |})
  end.

Definition redeem_record (buckets : gmap string (list Z)) (key : string) (stamp : Z) : gmap string (list Z) :=
  <[key := default [] (buckets !! key) ++ [stamp]]> buckets.

End redeem.

Definition REDEEM_RATE_WINDOW_MS : Z := 5 * 60000.
Definition REDEEM_RATE_MAX_ATTEMPTS : Z := 10.

Definition rateLimitHeaders (result : LoginRateLimitResult) : list (string * string) :=
  [("x-ratelimit-limit", pretty (limit result)); ("x-ratelimit-remaining", pretty (remaining result));
   ("x-ratelimit-reset", pretty (ceil_seconds (resetAt result)))]
  ++ match retryAfterSeconds result with Some s => [("retry-after", pretty s)] | None => [] end.

(** ** Properties *)

(** *** Sliding windows *)

Lemma alive_idem w t t' l : (t <= t')%Z -> alive w t' (alive w t l) = alive w t' l.
Proof.
  intros Ht. unfold alive. induction l as [|e l IH]; [done|]. rewrite !filter_cons.
  repeat case_decide; rewrite ?filter_cons; repeat case_decide; rewrite ?IH; try done; lia.
Qed.

Lemma alive_app w t l k : alive w t (l ++ k) = alive w t l ++ alive w t k.
Proof. apply filter_app. Qed.

Lemma alive_length w t l : (Zlen (alive w t l) <= Zlen l)%Z.
Proof. unfold Zlen, alive. pose proof (length_filter (fun e => t - e < w)%Z l). lia. Qed.

(** Two logs that agree from a moment on. *)
Definition agree (w now : Z) (l k : list Z) : Prop := alive w now l = alive w now k.

Lemma agree_later w t t' l k : agree w t l k -> (t <= t')%Z -> agree w t' l k.
Proof. unfold agree. intros H Ht. by rewrite <- (alive_idem w t t' l), H, alive_idem. Qed.

Lemma agree_snoc w t l k e : agree w t l k -> agree w t (l ++ [e]) (k ++ [e]).
Proof. unfold agree. intros H. by rewrite !alive_app, H. Qed.

Lemma agree_alive w t l k : agree w t l k -> agree w t (alive w t l) k.
Proof. unfold agree. by rewrite alive_idem. Qed.

Lemma ceil_seconds_bounds a : (1000 * (ceil_seconds a - 1) < a <= 1000 * ceil_seconds a)%Z.
Proof. unfold ceil_seconds. pose proof (Z.div_mod (- a) 1000 ltac:(lia)). pose proof (Z.mod_pos_bound (- a) 1000). lia. Qed.

(** *** Histories *)

Inductive Op :=
| OpAttempt (key : string) (t : Z)
| OpRecord (key : string) (t t2 : Z)
| OpClear (key : string).

(** The failures of a key since it was last cleared. *)
Definition fail_step (key : string) (fs : list Z) (op : Op) : list Z :=
  match op with
  | OpRecord k t _ => if bool_decide (k = key) then fs ++ [t] else fs
  | OpClear k => if bool_decide (k = key) then [] else fs
  | OpAttempt _ _ => fs
  end.

Definition fails (key : string) (ops : list Op) : list Z := foldl (fail_step key) [] ops.

Definition op_clock (now : Z) (op : Op) : Z :=
  match op with OpAttempt _ t => t | OpRecord _ _ t2 => t2 | OpClear _ => now end.

(** The clock does not go back. *)
Definition op_in_order (now : Z) (op : Op) : Prop :=
  match op with OpAttempt _ t => now <= t | OpRecord _ t t2 => now <= t <= t2 | OpClear _ => True end%Z.

Fixpoint in_order (now : Z) (ops : list Op) : Prop :=
  match ops with
  | [] => True
  | op :: ops => op_in_order now op /\ in_order (op_clock now op) ops
  end.

Definition clock_after (now : Z) (ops : list Op) : Z := foldl op_clock now ops.

Lemma in_order_app now ops1 ops2 : in_order now (ops1 ++ ops2) <-> in_order now ops1 /\ in_order (clock_after now ops1) ops2.
Proof. revert now. induction ops1 as [|op ops IH]; intros now; cbn; [tauto|]. rewrite IH. unfold clock_after. tauto. Qed.

Lemma clock_after_le now ops : in_order now ops -> (now <= clock_after now ops)%Z.
Proof.
  revert now. induction ops as [|op ops IH]; intros now; cbn; [lia|]. intros [H1 H2]. apply IH in H2.
  unfold clock_after in *. destruct op; cbn in *; lia.
Qed.

Section login_properties.
  Context (config : LoginRateLimitConfig).

Definition step (bs : gmap string Bucket) (op : Op) : gmap string Bucket :=
  match op with
  | OpAttempt key t => (attempt config bs key t).1
  | OpRecord key t t2 => record config bs key t t2
  | OpClear key => clear bs key
  end.

Definition execute (bs : gmap string Bucket) (ops : list Op) : gmap string Bucket := foldl step bs ops.

Definition entries_of (bs : gmap string Bucket) (key : string) : list Z := default [] (entries <$> bs !! key).
Definition lock_of (bs : gmap string Bucket) (key : string) : Z := default 0%Z (lockedUntil <$> bs !! key).

(** What a bucket knows about its history. *)
Record tracks (now : Z) (bs : gmap string Bucket) (key : string) (fs : list Z) : Prop := {
  tracks_window : agree (windowMs config) now (entries_of bs key) fs;
  tracks_length : (Zlen (entries_of bs key) <= Zlen fs)%Z;
  tracks_lock : lock_of bs key <> 0%Z -> (capFor config key <= Zlen fs)%Z;
  tracks_lock_end : (lock_of bs key <= now + lockoutMs config)%Z;
}.

(** Looking at a bucket prunes it and nothing else. *)
Lemma prune_spec bs key t :
  let '(bs', found) := pruneBucket config bs key t in
  found = bs' !! key /\ (forall k, k <> key -> bs' !! k = bs !! k) /\
  entries_of bs' key = alive (windowMs config) t (entries_of bs key) /\
  lock_of bs' key = (if bool_decide (lock_of bs key <= t)%Z then 0%Z else lock_of bs key).
Proof.
  unfold pruneBucket, entries_of, lock_of. destruct (bs !! key) as [b|] eqn:E; cbn.
  2: { rewrite E. split_and!; [done..|]. cbn. by case_bool_decide. }
  set (u := if bool_decide (lockedUntil b <> 0%Z) && bool_decide (lockedUntil b <= t)%Z then 0%Z else lockedUntil b).
  assert (u = if bool_decide (lockedUntil b <= t)%Z then 0%Z else lockedUntil b) as Hu.
  { unfold u. repeat case_bool_decide; cbn; lia. }
  destruct (bool_decide (alive _ _ _ = []) && bool_decide (u = 0%Z)) eqn:Ed.
  - apply andb_true_iff in Ed as [E1 E2]. apply bool_decide_eq_true_1 in E1, E2. rewrite lookup_delete_eq. cbn.
    split_and!; [done|intros; by rewrite lookup_delete_ne|done|congruence].
  - rewrite lookup_insert_eq. cbn. split_and!; [done|intros; by rewrite lookup_insert_ne|done|done].
Qed.

Lemma attempt_spec bs key t :
  let '(bs', r) := attempt config bs key t in
  let es := alive (windowMs config) t (entries_of bs key) in
  let u := if bool_decide (lock_of bs key <= t)%Z then 0%Z else lock_of bs key in
  (forall k, k <> key -> bs' !! k = bs !! k) /\ entries_of bs' key = es /\
  ((t < u)%Z /\ lock_of bs' key = u /\ r = lockedResult (capFor config key) u t \/
   u = 0%Z /\ (capFor config key <= Zlen es)%Z /\ lock_of bs' key = (t + lockoutMs config)%Z /\
     r = lockedResult (capFor config key) (t + lockoutMs config) t \/
   u = 0%Z /\ (es = [] \/ Zlen es < capFor config key)%Z /\ lock_of bs' key = 0%Z /\ allowed r = true /\ limit r = capFor config key /\
     remaining r = (capFor config key - Zlen es)%Z /\ resetAt r = (default t (head es) + windowMs config)%Z /\ retryAfterSeconds r = None).
Proof.
  unfold attempt. pose proof (prune_spec bs key t) as H. destruct (pruneBucket config bs key t) as [bs1 found].
  destruct H as (-> & Hother & He & Hu). unfold entries_of in He at 1. unfold lock_of in Hu at 1.
  set (es := alive _ t (entries_of bs key)) in *. set (u := if bool_decide (lock_of bs key <= t)%Z then _ else _) in *.
  destruct (bs1 !! key) as [b|] eqn:E; cbn in He, Hu.
  2: { subst es. rewrite <- He, <- Hu. split_and!; [done|unfold entries_of; by rewrite E|]. right; right.
       split_and!; [done|by left|unfold lock_of; by rewrite E|done|done|cbn; rewrite Zlen_nil; lia|done|done]. }
  assert (u = 0 \/ t < u)%Z as Hu0 by (unfold u; case_bool_decide; lia).
  destruct (bool_decide (t < lockedUntil b)%Z) eqn:E1; bool_facts.
  { split_and!; [done|unfold entries_of; by rewrite E|]. left. unfold lock_of at 1. rewrite E. cbn. rewrite Hu. split_and!; [lia|done|done]. }
  destruct (bool_decide (capFor config key <= Zlen (entries b))%Z) eqn:E2; bool_facts; rewrite He in *.
  - split_and!; [intros; rewrite lookup_insert_ne by done; by apply Hother|unfold entries_of; by rewrite lookup_insert_eq|].
    right; left. unfold lock_of at 1. rewrite lookup_insert_eq. cbn. split_and!; [lia|done|done|done].
  - split_and!; [done|unfold entries_of; by rewrite E|]. right; right. unfold lock_of at 1. rewrite E. cbn.
    split_and!; [lia|right; lia|lia|done|done|lia|by destruct es|done].
Qed.

Lemma record_spec bs key t t2 :
  let bs' := record config bs key t t2 in
  (forall k, k <> key -> bs' !! k = bs !! k) /\ entries_of bs' key = entries_of bs key ++ [t] /\ lock_of bs' key = (if bool_decide (capFor config key < Zlen (entries_of bs key) + 1)%Z && bool_decide (lock_of bs key = 0%Z)
                     then t2 + lockoutMs config else lock_of bs key)%Z.
Proof.
  cbv zeta. split_and!; [intros; unfold record; by rewrite lookup_insert_ne|..];
    unfold record, entries_of, lock_of; rewrite lookup_insert_eq; destruct (bs !! key) as [b|]; cbn; try done;
    by rewrite Zlen_app, Zlen_cons, Zlen_nil, Z.add_0_r.
Qed.

Lemma entries_of_ne bs bs' k : bs' !! k = bs !! k -> entries_of bs' k = entries_of bs k /\ lock_of bs' k = lock_of bs k.
Proof. unfold entries_of, lock_of. by intros ->. Qed.

Definition op_key (op : Op) : string := match op with OpAttempt k _ | OpRecord k _ _ | OpClear k => k end.

(** An operation touches the bucket of its key only. *)
Lemma step_other bs op k : op_key op <> k -> entries_of (step bs op) k = entries_of bs k /\ lock_of (step bs op) k = lock_of bs k.
Proof.
  intros Hk. apply entries_of_ne. destruct op as [key t|key t t2|key]; cbn in *.
  - pose proof (attempt_spec bs key t) as H. destruct (attempt config bs key t) as [bs' r]. cbn. by apply H.
  - by apply (record_spec bs key t t2).
  - unfold clear. by rewrite lookup_delete_ne.
Qed.

Lemma tracks_later now now' bs key fs : tracks now bs key fs -> (now <= now')%Z -> tracks now' bs key fs.
Proof. intros [H1 H2 H3 H4] Ht. constructor; [by eapply agree_later|done|done|lia]. Qed.

Lemma tracks_step now bs key fs op :
  (0 <= lockoutMs config)%Z -> (0 <= now)%Z -> op_in_order now op -> tracks now bs key fs -> tracks (op_clock now op) (step bs op) key (fail_step key fs op).
Proof.
  intros Hl H0 Ho H. assert (now <= op_clock now op)%Z as Ht by (destruct op; cbn in *; lia).
  destruct (decide (op_key op = key)) as [<-|Hk].
  2: { destruct (step_other bs op key Hk) as [E1 E2]. destruct (tracks_later _ _ _ _ _ H Ht) as [H1 H2 H3 H4].
       assert (fail_step key fs op = fs) as -> by (destruct op; cbn in *; [done|by rewrite bool_decide_false..]).
       constructor; rewrite ?E1, ?E2; done. }
  destruct (tracks_later _ _ _ _ _ H Ht) as [H1 H2 H3 H4].
  destruct op as [key t|key t t2|key]; cbn in *.
  - pose proof (attempt_spec bs key t) as Hs. destruct (attempt config bs key t) as [bs' r]. cbn.
    destruct Hs as (_ & He & Hs). pose proof (alive_length (windowMs config) t (entries_of bs key)) as Hn.
    constructor; rewrite ?He; [by apply agree_alive|lia| |];
      (destruct Hs as [(Hu & -> & _)|[(Hu & Hc & -> & _)|(Hu & _ & -> & _)]]; [case_bool_decide; try lia; auto|lia|lia]).
  - rewrite bool_decide_true by done. destruct (record_spec bs key t t2) as (_ & He & Hu).
    constructor; rewrite ?He, ?Hu; [by apply agree_snoc|rewrite !Zlen_app; lia| |]; rewrite ?Zlen_app, ?Zlen_cons, ?Zlen_nil;
      pose proof (Zlen_nonneg (@nil Z)); repeat case_bool_decide; cbn; intros; try lia; specialize (H3 ltac:(done)); lia.
  - rewrite bool_decide_true by done. unfold clear. constructor; unfold entries_of, lock_of; rewrite lookup_delete_eq; cbn; [done|done|done|lia].
Qed.

Lemma tracks_execute now bs key fs ops :
  (0 <= lockoutMs config)%Z -> (0 <= now)%Z -> in_order now ops -> tracks now bs key fs ->
  tracks (clock_after now ops) (execute bs ops) key (foldl (fail_step key) fs ops).
Proof.
  intros Hl. revert now bs fs. induction ops as [|op ops IH]; intros now bs fs H0 Ho H; [done|]. destruct Ho as [Ho1 Ho2].
  cbn. apply IH; [destruct op; cbn in *; lia|done|by apply tracks_step].
Qed.

Lemma tracks_start key : (0 <= lockoutMs config)%Z -> tracks 0 ∅ key [].
Proof. intros Hl. constructor; unfold entries_of, lock_of; rewrite lookup_empty; cbn; [done|done|done|lia]. Qed.

(** The login budget. Whatever was attempted, recorded and cleared before on a
    clock that does not go back: an attempt is let through only while fewer than the
    cap of the key's failures since its last clear lie in the window, and its answer
    counts exactly those; a key with fewer failures than its cap since its last
    clear is let through; a refusal ends after now, within the lockout, and its
    Retry-After is that time in seconds, rounded up. *)
Theorem login_budget_holds ops key t :
  (0 < lockoutMs config)%Z -> (0 < capFor config key)%Z -> in_order 0 (ops ++ [OpAttempt key t]) ->
  let r := (attempt config (execute ∅ ops) key t).2 in
  let recent := Zlen (alive (windowMs config) t (fails key ops)) in
  (allowed r = true -> recent < capFor config key /\ remaining r = capFor config key - recent)%Z /\
  ((Zlen (fails key ops) < capFor config key)%Z -> allowed r = true) /\
  (allowed r = false -> t < resetAt r <= t + lockoutMs config /\
     exists s, retryAfterSeconds r = Some s /\ 1000 * (s - 1) < resetAt r - t <= 1000 * s)%Z.
Proof.
  intros Hl Hc Ho r recent. apply in_order_app in Ho as [Ho [Ht _]]. cbn in Ht.
  pose proof (clock_after_le 0 ops Ho) as Hnow.
  pose proof (tracks_execute 0 ∅ key [] ops ltac:(lia) ltac:(lia) Ho (tracks_start key ltac:(lia))) as H.
  apply (tracks_later _ t) in H as [H1 H2 H3 H4]; [|done]. fold (fails key ops) in *.
  assert (recent = Zlen (alive (windowMs config) t (entries_of (execute ∅ ops) key))) as Er by (unfold recent; by rewrite H1).
  pose proof (alive_length (windowMs config) t (fails key ops)) as Hn. fold recent in Hn. clearbody recent.
  pose proof (attempt_spec (execute ∅ ops) key t) as Hs. unfold r. clear r.
  destruct (attempt config (execute ∅ ops) key t) as [bs' r]. cbn [snd]. destruct Hs as (_ & _ & Hs). rewrite <- Er in Hs.
  assert (forall u, (t < u <= t + lockoutMs config)%Z -> exists s, Some (Z.max 1 (ceil_seconds (u - t))) = Some s /\ (1000 * (s - 1) < u - t <= 1000 * s)%Z) as Hr.
  { intros u Hu. eexists. split; [done|]. pose proof (ceil_seconds_bounds (u - t)). lia. }
  destruct Hs as [(Hu & _ & ->)|[(Hu & Hlim & _ & ->)|(Hu & Hlim & _ & Ha & _ & Hrem & _)]]; cbn.
  - case_bool_decide; [lia|]. split_and!; [done| |intros _; split; [lia|apply Hr; lia]]. intros. specialize (H3 ltac:(lia)). lia.
  - split_and!; [done|lia|intros _; split; [lia|apply Hr; lia]].
  - rewrite Ha. split_and!; [|done|done]. intros _. split; [|done]. destruct Hlim as [E|]; [|lia]. rewrite Er, E, Zlen_nil. lia.
Qed.

(** A lock stands until its end, whatever happens short of a clear. *)
Lemma lock_step now bs key u op :
  lock_of bs key = u -> u <> 0%Z -> op_in_order now op -> (op_clock now op < u)%Z -> op <> OpClear key -> lock_of (step bs op) key = u.
Proof.
  intros Hu Hn Ho Ht Hc. destruct (decide (op_key op = key)) as [<-|Hk]; [|by rewrite (proj2 (step_other bs op key Hk))].
  destruct op as [key t|key t t2|key]; cbn in *; [| |done].
  - pose proof (attempt_spec bs key t) as Hs. destruct (attempt config bs key t) as [bs' r]. cbn. destruct Hs as (_ & _ & Hs).
    rewrite Hu, bool_decide_false in Hs by lia. destruct Hs as [(_ & -> & _)|[(? & _)|(? & _)]]; [done|lia|lia].
  - rewrite (proj2 (proj2 (record_spec bs key t t2))), Hu. rewrite (bool_decide_false (u = 0%Z)) by done. by rewrite andb_false_r.
Qed.

Lemma lock_execute now bs key u ops :
  lock_of bs key = u -> u <> 0%Z -> in_order now ops -> (clock_after now ops < u)%Z -> OpClear key ∉ ops -> lock_of (execute bs ops) key = u.
Proof.
  revert now bs. induction ops as [|op ops IH]; intros now bs Hu Hn Ho Ht Hc; [done|]. destruct Ho as [Ho1 Ho2]. cbn.
  apply not_elem_of_cons in Hc as [Hc1 Hc2]. apply (IH (op_clock now op)); [|done..]. apply (lock_step now); [done..| |done].
  pose proof (clock_after_le _ _ Ho2). cbn in Ht. unfold clock_after in *. lia.
Qed.

(** A lockout lasts. Once an attempt has been refused, every later attempt of the
    key before the end it was told is refused with the same end, whatever is
    recorded in between and whatever other keys do, unless the key is cleared. *)
Theorem lockout_lasts ops ops' key t t' :
  (0 < lockoutMs config)%Z -> (0 < capFor config key)%Z ->
  in_order 0 (ops ++ OpAttempt key t :: ops' ++ [OpAttempt key t']) -> OpClear key ∉ ops' ->
  let r := (attempt config (execute ∅ ops) key t).2 in
  let r' := (attempt config (execute ∅ (ops ++ OpAttempt key t :: ops')) key t').2 in
  allowed r = false -> (t' < resetAt r)%Z -> allowed r' = false /\ resetAt r' = resetAt r /\ (t' < resetAt r')%Z.
Proof.
  intros Hl Hc Ho Hno r r' Hr Ht. apply in_order_app in Ho as [Ho1 [Ho2 Ho3]]. cbn in Ho2, Ho3.
  apply in_order_app in Ho3 as [Ho3 [Ho4 _]]. cbn in Ho4. pose proof (clock_after_le _ _ Ho1) as Hnow.
  assert (lock_of (attempt config (execute ∅ ops) key t).1 key = resetAt r /\ (t < resetAt r)%Z) as [Hu Hu'].
  { unfold r in *. pose proof (attempt_spec (execute ∅ ops) key t) as Hs. destruct (attempt config (execute ∅ ops) key t) as [bs' r0].
    cbn in *. destruct Hs as (_ & _ & [(? & -> & ->)|[(_ & _ & -> & ->)|(_ & _ & _ & ? & _)]]); cbn; [done|split; [done|lia]|congruence]. }
  assert (lock_of (execute ∅ (ops ++ OpAttempt key t :: ops')) key = resetAt r) as E.
  { unfold execute. rewrite foldl_app. cbn. apply (lock_execute t); [done|lia|done|lia|done]. }
  unfold r'. pose proof (attempt_spec (execute ∅ (ops ++ OpAttempt key t :: ops')) key t') as Hs.
  destruct (attempt config (execute ∅ (ops ++ _)) key t') as [bs' r0]. cbn. destruct Hs as (_ & _ & Hs).
  rewrite E, bool_decide_false in Hs by lia. destruct Hs as [(_ & _ & ->)|[(? & _)|(? & _)]]; [done|lia|lia].
Qed.

End login_properties.

(** *** The redeem limiter is an exact sliding window *)

Section redeem_properties.
  Context (windowMs maxAttempts : Z).

Definition redeem_step (bs : gmap string (list Z)) (op : Op) : gmap string (list Z) :=
  match op with
  | OpAttempt key t => (redeem_attempt windowMs maxAttempts bs key t t).1
  | OpRecord key t _ => redeem_record bs key t
  | OpClear key => delete key bs
  end.

Definition redeem_execute (bs : gmap string (list Z)) (ops : list Op) : gmap string (list Z) := foldl redeem_step bs ops.

Definition log_of (bs : gmap string (list Z)) (key : string) : list Z := default [] (bs !! key).

Lemma redeem_attempt_spec bs key t t2 :
  let '(bs', r) := redeem_attempt windowMs maxAttempts bs key t t2 in
  let es := alive windowMs t (log_of bs key) in
  (forall k, k <> key -> bs' !! k = bs !! k) /\ log_of bs' key = es /\
  (es = [] /\ allowed r = true /\ remaining r = maxAttempts \/
   exists e l, es = e :: l /\ resetAt r = (e + windowMs)%Z /\ allowed r = negb (bool_decide (maxAttempts <= Zlen es)%Z) /\
     remaining r = Z.max 0 (maxAttempts - Zlen es)).
Proof.
  unfold redeem_attempt, prune, log_of. destruct (bs !! key) as [l|] eqn:E.
  2: { cbn. rewrite E. split_and!; [done..|by left]. }
  cbn [default]. destruct (alive windowMs t l) as [|e l'] eqn:El; cbn [bool_decide].
  - rewrite bool_decide_true, lookup_delete_eq by done. split_and!; [intros; by rewrite lookup_delete_ne|done|by left].
  - rewrite bool_decide_false, lookup_insert_eq by done. split_and!; [intros; by rewrite lookup_insert_ne|done|]. right.
    exists e, l'. cbn. rewrite El. split; [done|]. case_bool_decide as Hm; cbn; (split_and!; [done| |]); [|lia|..|done];
      rewrite ?bool_decide_true, ?bool_decide_false by done; done.
Qed.

Lemma redeem_log_step now bs key fs op :
  op_in_order now op -> agree windowMs now (log_of bs key) fs -> agree windowMs (op_clock now op) (log_of (redeem_step bs op) key) (fail_step key fs op).
Proof.
  intros Ho H. assert (now <= op_clock now op)%Z as Ht by (destruct op; cbn in *; lia). apply (agree_later _ _ _ _ _ H) in Ht. clear H.
  destruct op as [k t|k t t2|k]; cbn in *.
  - pose proof (redeem_attempt_spec bs k t t) as Hs. destruct (redeem_attempt windowMs maxAttempts bs k t t) as [bs' r]. cbn.
    destruct Hs as (Hother & He & _). destruct (decide (k = key)) as [<-|Hk]; [rewrite He; by apply agree_alive|].
    unfold log_of. by rewrite Hother.
  - unfold log_of, redeem_record in *. case_bool_decide; subst; [rewrite lookup_insert_eq; by apply agree_snoc|by rewrite lookup_insert_ne].
  - unfold log_of in *. case_bool_decide; subst; [by rewrite lookup_delete_eq|by rewrite lookup_delete_ne].
Qed.

Lemma redeem_log now bs key fs ops :
  in_order now ops -> agree windowMs now (log_of bs key) fs ->
  agree windowMs (clock_after now ops) (log_of (redeem_execute bs ops) key) (foldl (fail_step key) fs ops).
Proof.
  revert now bs fs. induction ops as [|op ops IH]; intros now bs fs Ho H; [done|]. destruct Ho as [Ho1 Ho2]. cbn.
  apply IH; [done|by apply redeem_log_step].
Qed.

(** The redeem limiter is an exact sliding window: after any history on a clock
    that does not go back, an attempt of a key is let through if and only if fewer
    than the maximum of its failures since its last clear lie in the window; the
    remaining budget is the difference; and the reset time it reports is the first
    moment at which the oldest of them has left the window. *)
Theorem redeem_window_is_exact ops key t t2 :
  (0 < maxAttempts)%Z -> (0 < windowMs)%Z -> in_order 0 (ops ++ [OpAttempt key t]) ->
  let r := (redeem_attempt windowMs maxAttempts (redeem_execute ∅ ops) key t t2).2 in
  let recent := alive windowMs t (fails key ops) in
  allowed r = bool_decide (Zlen recent < maxAttempts)%Z /\
  remaining r = Z.max 0 (maxAttempts - Zlen recent) /\
  (forall e l, recent = e :: l -> resetAt r = e + windowMs /\ t < resetAt r)%Z.
Proof.
  intros Hm Hw Ho r recent. apply in_order_app in Ho as [Ho [Ht _]]. cbn in Ht.
  pose proof (redeem_log 0 ∅ key [] ops Ho ltac:(done)) as H. apply (agree_later _ _ t) in H; [|done].
  assert (alive windowMs t (log_of (redeem_execute ∅ ops) key) = recent) as E by done. clear H.
  pose proof (redeem_attempt_spec (redeem_execute ∅ ops) key t t2) as Hs. unfold r. clear r.
  destruct (redeem_attempt windowMs maxAttempts (redeem_execute ∅ ops) key t t2) as [bs' r]. cbn [snd]. cbv zeta in Hs. rewrite E in Hs.
  destruct Hs as (_ & _ & [(-> & -> & ->)|(e & l & El & Hreset & -> & ->)]).
  - rewrite Zlen_nil. split_and!; [by rewrite bool_decide_true|lia|done].
  - split_and!; [|done|].
    + rewrite <- bool_decide_not. apply bool_decide_ext. lia.
    + intros e' l' E'. rewrite El in E'. injection E' as <- <-. rewrite Hreset. split; [done|].
      assert (e ∈ recent) as [Hin _]%list_elem_of_filter by (rewrite El; left). lia.
Qed.

End redeem_properties.

(** ** Concrete histories *)

Definition ex_login : list Op :=
  [OpAttempt "" 1000; OpRecord "" 1000 1000; OpAttempt "" 2000; OpRecord "" 2000 2000; OpAttempt "" 3000; OpRecord "" 3000 3000].

Lemma login_budget_holds_witness :
  in_order 0 (ex_login ++ [OpAttempt "" 4000]) /\
  let r := (attempt DEFAULT_RATE_LIMIT_CONFIG (execute DEFAULT_RATE_LIMIT_CONFIG ∅ ex_login) "" 4000).2 in
  allowed r = false /\ retryAfterSeconds r = Some 900%Z /\ (4000 < resetAt r <= 4000 + 900000)%Z.
Proof.
  assert (in_order 0 (ex_login ++ [OpAttempt "" 4000])) as Ho by (cbn; lia). split; [exact Ho|]. cbv zeta.
  pose proof (login_budget_holds DEFAULT_RATE_LIMIT_CONFIG ex_login "" 4000 ltac:(reflexivity) ltac:(reflexivity) Ho) as (_ & _ & H).
  split; [vm_compute; reflexivity|]. split; [vm_compute; reflexivity|]. apply H. vm_compute. reflexivity.
Defined.

Lemma lockout_lasts_witness :
  let r := (attempt DEFAULT_RATE_LIMIT_CONFIG (execute DEFAULT_RATE_LIMIT_CONFIG ∅ ex_login) "" 4000).2 in
  let r' := (attempt DEFAULT_RATE_LIMIT_CONFIG
               (execute DEFAULT_RATE_LIMIT_CONFIG ∅ (ex_login ++ [OpAttempt "" 4000; OpRecord "" 500000 500000])) "" 903999).2 in
  allowed r = false /\ resetAt r = 904000%Z /\ allowed r' = false /\ resetAt r' = 904000%Z.
Proof.
  cbv zeta.
  assert (allowed (attempt DEFAULT_RATE_LIMIT_CONFIG (execute DEFAULT_RATE_LIMIT_CONFIG ∅ ex_login) "" 4000).2 = false) as Hr by (vm_compute; reflexivity).
  assert (resetAt (attempt DEFAULT_RATE_LIMIT_CONFIG (execute DEFAULT_RATE_LIMIT_CONFIG ∅ ex_login) "" 4000).2 = 904000%Z) as Ht
    by (vm_compute; reflexivity).
  assert (OpClear "" ∉ [OpRecord "" 500000 500000]) as Hno by (intros H; inversion H as [|? ? ? H']; inversion H').
  pose proof (lockout_lasts DEFAULT_RATE_LIMIT_CONFIG ex_login [OpRecord "" 500000 500000] "" 4000 903999 ltac:(reflexivity) ltac:(reflexivity)
    ltac:(cbn; lia) Hno Hr ltac:(rewrite Ht; reflexivity)) as (H1 & H2 & _).
  split; [exact Hr|]. split; [exact Ht|]. split; [exact H1|]. rewrite <- Ht. exact H2.
Defined.

Lemma redeem_window_is_exact_witness :
  let ops := [OpRecord "k" 0 0; OpRecord "k" 10 10] in
  let r := (redeem_attempt 300000 2 (redeem_execute 300000 2 ∅ ops) "k" 299999 299999).2 in
  in_order 0 (ops ++ [OpAttempt "k" 299999]) /\ allowed r = false /\ resetAt r = 300000%Z.
Proof.
  cbv zeta.
  pose proof (redeem_window_is_exact 300000 2 [OpRecord "k" 0 0; OpRecord "k" 10 10] "k" 299999 299999 ltac:(lia) ltac:(lia)
    ltac:(cbn; lia)) as (H1 & _ & H3).
  split; [cbn; lia|]. split; [rewrite H1; vm_compute; reflexivity|]. apply (H3 0%Z [10%Z]). vm_compute. reflexivity.
Defined.
