(* ===== verification/AuthHash.v ===== *)
(** Hash comparison of the credential stores: [Buffer.from(text, 'hex')] and
    [timingSafeEqual] as equalHex (lib/auth/remote-clients.ts), sameHash
    (pairing-sessions.ts) and ConstantHashEqual (tunnel-auth.ts) use them. The digest
    itself is the interface [Sha256]. *)

From S2P Require Import Prelude JsString JsMap JsValue JsDate.

(** [createHash('sha256').update(value, 'utf8').digest('hex')], of which the code
    relies on nothing else than that it is a function. *)
Class Sha256 := sha256Hex : string -> string.

Definition hex_value (a : ascii) : option Z :=
  let n := Z.of_N (N_of_ascii a) in
  if bool_decide (48 <= n <= 57)%Z then Some (n - 48)%Z
  else if bool_decide (97 <= n <= 102)%Z then Some (n - 87)%Z
  else if bool_decide (65 <= n <= 70)%Z then Some (n - 55)%Z
  else None.

(** [Buffer.from(text, 'hex')]: whole pairs up to the first character that is not a hex digit. *)
Fixpoint from_hex (s : string) : list Z :=
  match s with
  | String a (String b s') =>
    match hex_value a, hex_value b with
    | Some x, Some y => (16 * x + y)%Z :: from_hex s'
    | _, _ => []
    end
  | _ => []
  end.

(** [timingSafeEqual] throws on buffers of different lengths; the callers catch it as a mismatch. *)
Definition equalHex (left right : string) : bool := bool_decide (from_hex left = from_hex right).

Definition sameHash (left right : string) : bool :=
  bool_decide (String.length left = String.length right) && equalHex left right.

(** A concrete digest for examples: the hex text of the bytes. *)
Definition hex_digit (n : N) : ascii := ascii_of_N (if (n <? 10)%N then 48 + n else 87 + n)%N.

Fixpoint to_hex (s : string) : string :=
  match s with
  | "" => ""
  | String a s => String (hex_digit (N_of_ascii a / 16)) (String (hex_digit (N_of_ascii a mod 16)) (to_hex s))
  end.

Lemma from_to_hex s : from_hex (to_hex s) = (fun a => Z.of_N (N_of_ascii a)) <$> String.list_ascii_of_string s.
Proof.
  induction s as [|a s IH]; [done|]. cbn [to_hex from_hex String.list_ascii_of_string fmap list_fmap].
  assert (forall n, (n < 16)%N -> hex_value (hex_digit n) = Some (Z.of_N n)) as H.
  { intros n Hn. assert (n ∈ N.of_nat <$> seq 0 16) as Hin.
    { apply list_elem_of_fmap. exists (N.to_nat n). split; [lia|]. apply elem_of_seq. lia. }
    cbn in Hin. repeat (apply elem_of_cons in Hin as [->|Hin]; [reflexivity|]). by apply elem_of_nil in Hin. }
  assert (N_of_ascii a < 256)%N as Ha by apply N_ascii_bounded.
  rewrite !H by first [apply N.Div0.div_lt_upper_bound; lia|apply N.mod_lt; lia]. rewrite IH. f_equal.
  pose proof (N.div_mod (N_of_ascii a) 16 ltac:(lia)). lia.
Qed.

Lemma to_hex_inj a b : equalHex (to_hex a) (to_hex b) = true -> a = b.
Proof.
  assert (Inj (=) (=) (fun a => Z.of_N (N_of_ascii a))) as Hi by (intros x y H; rewrite <- (ascii_N_embedding x), <- (ascii_N_embedding y); f_equal; lia).
  unfold equalHex. rewrite bool_decide_eq_true, !from_to_hex. intros H%(inj (fmap _)).
  by rewrite <- (String.string_of_list_ascii_of_string a), H, String.string_of_list_ascii_of_string.
Qed.

(** Expiry texts: [Date.parse] of a stored member, which need not be a string.
    [None] is NaN. *)
Section expiry.
  Context (other : json -> option Z).

Definition date_value (v : json) : option Z :=
  match v with JStr s => date_parse (fun s => other (JStr s)) s | _ => other v end.

(** [Date.parse(v) > now] and [Date.parse(v) <= now]: both false of NaN. *)
Definition date_after (v : json) (now : Z) : bool :=
  match date_value v with Some e => bool_decide (now < e)%Z | None => false end.

Definition date_reached (v : json) (now : Z) : bool :=
  match date_value v with Some e => bool_decide (e <= now)%Z | None => false end.

Lemma date_value_iso t : four_digit_year t -> date_value (JStr (toISOString t)) = Some t.
Proof. apply date_parse_iso. Qed.

Lemma date_reached_iso t now : four_digit_year t -> date_reached (JStr (toISOString t)) now = bool_decide (t <= now)%Z.
Proof. intros H. unfold date_reached. by rewrite date_value_iso. Qed.

Lemma date_after_iso t now : four_digit_year t -> date_after (JStr (toISOString t)) now = bool_decide (now < t)%Z.
Proof. intros H. unfold date_after. by rewrite date_value_iso. Qed.

End expiry.
