(* ===== verification/AuthClients.v ===== *)
(** Device tokens (server/lib/auth/remote-clients.ts): the store of remote clients,
    its file, bearer authentication, revocation, and the abstract registry the store
    refines.

    The members a stored record must have are fields; every other member, unknown
    ones included, stays in [rest] as it was read. Random bytes, clock readings and
    the outcome of the file write are arguments of the operations. *)

From S2P Require Import Prelude JsString JsMap JsValue JsDate AuthHash.

Definition CLIENT_TOKEN_PREFIX : string := "oc_client_".
Definition CLIENT_LABEL_MAX : nat := 80.
Definition LASTUSED_WRITE_THROTTLE_MS : Z := 60000.

Inductive Transport := Relay | Direct.

#[export] Instance Transport_eq_dec : EqDecision Transport.
Proof. solve_decision. Defined.

Record RemoteClientRecord := {
  id : string;
  label : string;
  revokedAt : option string;
  tokenHash : string;
  usesRelay : bool;
  lastTransport : Transport;
  rest : list (string * json);
}.

(** [None] is undefined. *)
Record CreateClientInput := {
  in_authMethod : option string;
  in_dedupeKey : option string;
  in_clientKind : option string;
  in_label : option string;
  in_fallbackLabel : option string;
  in_pairingId : option string;
  in_usesRelay : bool;
  in_deviceName : option string;
  in_devicePlatform : option string;
  in_deviceModel : option string;
  in_appVersion : option string;
  in_expiresAt : option string;
}.

(** What is on disk: [None] is a missing file or a text that does not parse. *)
Record Store := {
  clients : list RemoteClientRecord;
  lastWriteStamp : list (string * (Z * Transport));
  file : option json;
}.

(** ** The file *)

Definition transport_name (t : Transport) : string := match t with Relay => "relay" | Direct => "direct" end.

Definition transport_of (v : option json) : option Transport :=
  if is_str v "relay" then Some Relay else if is_str v "direct" then Some Direct else None.

(** The members [isUsableRecord] checks. *)
Definition checked_members : list string := ["id"; "tokenHash"; "label"; "revokedAt"; "lastTransport"; "usesRelay"].

(** [string | null] *)
Definition nullable_string (v : option json) : option (option string) :=
  match v with Some JNull => Some None | Some (JStr s) => Some (Some s) | _ => None end.

Definition isUsableRecord (v : json) : option RemoteClientRecord :=
  match v with
  | JObj fields =>
    match jget "id" fields, jget "tokenHash" fields, jget "label" fields, nullable_string (jget "revokedAt" fields),
          transport_of (jget "lastTransport" fields), jget "usesRelay" fields with
    | Some (JStr i), Some (JStr h), Some (JStr l), Some r, Some t, Some (JBool u) =>
      Some {| id := i; label := l; revokedAt := r; tokenHash := h; usesRelay := u; lastTransport := t;
              rest := filter (fun kv => kv.1 ∉ checked_members) fields |}
    | _, _, _, _, _, _ => None
    end
  | _ => None
  end.

(** A record as it is printed; the order of the members is not kept. *)
Definition record_json (r : RemoteClientRecord) : json :=
  JObj ([("id", JStr (id r)); ("label", JStr (label r)); ("revokedAt", match revokedAt r with Some s => JStr s | None => JNull end);
         ("tokenHash", JStr (tokenHash r)); ("usesRelay", JBool (usesRelay r)); ("lastTransport", JStr (transport_name (lastTransport r)))]
        ++ rest r).

Definition store_json (l : list RemoteClientRecord) : json :=
  JObj [("version", JInt 1); ("clients", JArr (record_json <$> l))].

Definition parsed_clients (f : option json) : list RemoteClientRecord :=
  match f with
  | Some v => match jfield "clients" v with Some (JArr l) => omap isUsableRecord l | _ => [] end
  | None => []
  end.

(** The constructor. *)
Definition load (f : option json) : Store := {| clients := parsed_clients f; lastWriteStamp := []; file := f |}.

(** A failed write leaves the file as it was, silently. *)
Definition save (st : Store) (written : bool) : Store :=
  if written then {| clients := clients st; lastWriteStamp := lastWriteStamp st; file := Some (store_json (clients st)) |} else st.

Definition with_clients (st : Store) (l : list RemoteClientRecord) : Store :=
  {| clients := l; lastWriteStamp := lastWriteStamp st; file := file st |}.

Definition with_stamps (st : Store) (m : list (string * (Z * Transport))) : Store :=
  {| clients := clients st; lastWriteStamp := m; file := file st |}.

(** ** Records *)

Definition dedupeKey (r : RemoteClientRecord) : option json := jget "dedupeKey" (rest r).
Definition expiresAt (r : RemoteClientRecord) : option json := jget "expiresAt" (rest r).

(** [typeof s === 'string' && s.trim().length > 0 ? s.trim() : null] *)
Definition meaningful (s : option string) : option string :=
  match s with Some s => if bool_decide (trim s = "") then None else Some (trim s) | None => None end.

Definition resolveLabel (input : CreateClientInput) (previous : option RemoteClientRecord) : string :=
  match meaningful (in_label input) with
  | Some explicit => stake CLIENT_LABEL_MAX explicit
  | None =>
    match meaningful (label <$> previous) with
    | Some replaced => stake CLIENT_LABEL_MAX replaced
    | None => stake CLIENT_LABEL_MAX (default "Remote client" (meaningful (in_fallbackLabel input)))
    end
  end.

(** [s !== undefined && s !== '' ? s : undefined] *)
Definition nonempty (s : option string) : option string :=
  match s with Some "" => None | _ => s end.

(** A member that is present when the value is defined. *)
Definition member (k : string) (v : option string) : list (string * json) :=
  match v with Some s => [(k, JStr s)] | None => [] end.

(** [text.replace(/-/g, '')] *)
Fixpoint strip_dashes (s : string) : string :=
  match s with
  | "" => ""
  | String a s => if Ascii.eqb a "-" then strip_dashes s else String a (strip_dashes s)
  end.

Definition active (r : RemoteClientRecord) : bool := bool_decide (revokedAt r = None).

Definition find_client (p : RemoteClientRecord -> bool) (l : list RemoteClientRecord) : option RemoteClientRecord :=
  head (filter (fun r => p r = true) l).

Section store.
  Context {sha : Sha256} (other : json -> option Z).

Definition new_id (uuid : string) : string := stake 24 (strip_dashes uuid).
Definition new_token (random : string) : string := CLIENT_TOKEN_PREFIX +:+ random.

Definition new_record (input : CreateClientInput) (lbl random uuid : string) (t1 t2 : Z) : RemoteClientRecord :=
  {| id := new_id uuid; label := lbl; revokedAt := None; tokenHash := sha256Hex (new_token random);
     usesRelay := in_usesRelay input; lastTransport := Direct;
     rest := [("createdAt", JStr (toISOString t1)); ("lastUsedAt", JStr (toISOString t2))]
       ++ member "expiresAt" (in_expiresAt input)
       ++ [("clientKind", JStr (default "mobile" (nonempty (in_clientKind input))))]
       ++ member "dedupeKey" (nonempty (in_dedupeKey input)) ++ member "authMethod" (in_authMethod input)
       ++ member "pairingId" (in_pairingId input) ++ member "deviceName" (in_deviceName input)
       ++ member "devicePlatform" (in_devicePlatform input) ++ member "deviceModel" (in_deviceModel input)
       ++ member "appVersion" (in_appVersion input) |}.

(** Legacy records a replacement sweeps: active, without a dedupe key, of the same label. *)
Definition is_legacy (lbl prior : string) (r : RemoteClientRecord) : bool :=
  active r && is_undefined (dedupeKey r) && bool_decide (label r = lbl) && bool_decide (id r <> prior).

Definition forget_stamps (ids : list string) (m : list (string * (Z * Transport))) : list (string * (Z * Transport)) :=
  foldl (fun m i => jdel i m) m ids.

Definition replace_previous (st : Store) (lbl prior : string) : Store :=
  let dead := id <$> filter (fun r => is_legacy lbl prior r = true) (clients st) in
  let kept := filter (fun r => id r ∉ dead) (clients st) in
  {| clients := filter (fun r => id r <> prior) kept;
     lastWriteStamp := jdel prior (forget_stamps dead (lastWriteStamp st));
     file := file st |}.

Definition createClient (st : Store) (input : CreateClientInput) (random uuid : string) (t1 t2 : Z) (written : bool)
  : Store * (RemoteClientRecord * string) :=
  let key := nonempty (in_dedupeKey input) in
  let previous := match key with
                  | Some k => find_client (fun r => is_str (dedupeKey r) k && active r) (clients st)
                  | None => None
                  end in
  let lbl := resolveLabel input previous in
  let st1 := match previous with Some p => replace_previous st lbl (id p) | None => st end in
  let r := new_record input lbl random uuid t1 t2 in
  (save (with_clients st1 (clients st1 ++ [r])) written, (r, new_token random)).

(** ** Authentication *)

Definition expired (r : RemoteClientRecord) (now : Z) : bool :=
  match expiresAt r with
  | Some v => match date_value other v with Some e => bool_decide (e <= now)%Z | None => true end
  | None => false
  end.

Definition holds_token (token : string) (r : RemoteClientRecord) : bool := sameHash (tokenHash r) (sha256Hex token).

(** Updates the first record of the id. *)
Fixpoint update_client (i : string) (f : RemoteClientRecord -> RemoteClientRecord) (l : list RemoteClientRecord) : list RemoteClientRecord :=
  match l with
  | [] => []
  | r :: l => if bool_decide (id r = i) then f r :: l else r :: update_client i f l
  end.

Definition stamp_transport (t : Transport) (r : RemoteClientRecord) : RemoteClientRecord :=
  {| id := id r; label := label r; revokedAt := revokedAt r; tokenHash := tokenHash r;
     usesRelay := usesRelay r || bool_decide (t = Relay); lastTransport := t; rest := rest r |}.

(** Updates the record that [find] returned, the first that holds the token. *)
Fixpoint update_holder (token : string) (f : RemoteClientRecord -> RemoteClientRecord) (l : list RemoteClientRecord) : list RemoteClientRecord :=
  match l with
  | [] => []
  | r :: l => if holds_token token r then f r :: l else r :: update_holder token f l
  end.

Definition set_last_used (t : Z) (r : RemoteClientRecord) : RemoteClientRecord :=
  {| id := id r; label := label r; revokedAt := revokedAt r; tokenHash := tokenHash r;
     usesRelay := usesRelay r; lastTransport := lastTransport r; rest := jset "lastUsedAt" (JStr (toISOString t)) (rest r) |}.

Definition touchThrottled (st : Store) (i : string) (t : Transport) (stamp : Z) (written : bool) : Store :=
  let quiet := match jget i (lastWriteStamp st) with
               | Some (s, tr) => bool_decide (tr = t) && bool_decide (stamp - s < LASTUSED_WRITE_THROTTLE_MS)%Z
               | None => false
               end in
  if quiet then st
  else match find_client (fun r => bool_decide (id r = i)) (clients st) with
       | None => st
       | Some _ =>
         save {| clients := update_client i (set_last_used stamp) (clients st);
                 lastWriteStamp := jset i (stamp, t) (lastWriteStamp st); file := file st |} written
       end.

(** [None] is the 401; the clock is read for the expiry and by [touchThrottled]. *)
Definition authenticateBearerToken (st : Store) (token : string) (relayConnection : bool) (now stamp : Z) (written : bool)
  : Store * option string :=
  if negb (starts_with CLIENT_TOKEN_PREFIX token) then (st, None)
  else match find_client (holds_token token) (clients st) with
       | None => (st, None)
       | Some r =>
         if negb (active r) then (st, None)
         else if expired r now then (st, None)
         else
           let t := if relayConnection then Relay else Direct in
           let st1 := with_clients st (update_holder token (stamp_transport t) (clients st)) in
           (touchThrottled st1 (id r) t stamp written, Some (id r))
       end.

(** ** The other operations *)

Definition revoke_record (t : Z) (r : RemoteClientRecord) : RemoteClientRecord :=
  {| id := id r; label := label r; revokedAt := Some (toISOString t); tokenHash := tokenHash r;
     usesRelay := usesRelay r; lastTransport := lastTransport r; rest := rest r |}.

Definition revokeClient (st : Store) (i : string) (t : Z) (written : bool) : Store :=
  match find_client (fun r => bool_decide (id r = i)) (clients st) with
  | Some r => if active r then save (with_clients st (update_client i (revoke_record t) (clients st))) written else st
  | None => st
  end.

Definition purgeRevokedClients (st : Store) (written : bool) : Store * Z :=
  let gone := id <$> filter (fun r => active r = false) (clients st) in
  let kept := filter (fun r => active r = true) (clients st) in
  let st1 := {| clients := kept; lastWriteStamp := forget_stamps gone (lastWriteStamp st); file := file st |} in
  (if bool_decide (length kept = length (clients st)) then st1 else save st1 written, Zlen (clients st) - Zlen kept)%Z.

Definition getActiveClient (st : Store) (i : option json) (now : Z) : option RemoteClientRecord :=
  match i with
  | Some (JStr i) =>
    if bool_decide (i = "") then None
    else match find_client (fun r => bool_decide (id r = i)) (clients st) with
         | Some r => if active r && negb (expired r now) then Some r else None
         | None => None
         end
  | _ => None
  end.

Definition listClients (st : Store) : list RemoteClientRecord := clients st.

Definition hasActiveRelayClients (st : Store) (now : Z) : bool :=
  existsb (fun r => active r
    && match expiresAt r with Some v => date_after other v now | None => true end
    && (usesRelay r || bool_decide (lastTransport r = Relay))) (clients st).

End store.

(** ** What a restart keeps *)

(** The part of a record that decides about credentials. *)
Record Device := {
  d_id : string;
  d_label : string;
  d_hash : string;
  d_active : bool;
  d_key : option json;
  d_expires : option json;
}.

Definition core (r : RemoteClientRecord) : Device :=
  {| d_id := id r; d_label := label r; d_hash := tokenHash r; d_active := active r; d_key := dedupeKey r; d_expires := expiresAt r |}.

Definition cores (st : Store) : list Device := core <$> clients st.

(** The checked members are nowhere but in their fields. *)
Definition rest_ok (r : RemoteClientRecord) : Prop := Forall (fun kv => kv.1 ∉ checked_members) (rest r).

(** The file tells a restart the same devices. *)
Record synced (st : Store) : Prop := {
  synced_rests : Forall rest_ok (clients st);
  synced_file : core <$> parsed_clients (file st) = cores st;
}.

Lemma rest_ok_filter (l : list (string * json)) : Forall (fun kv => kv.1 ∉ checked_members) l ->
  filter (fun kv => kv.1 ∉ checked_members) l = l.
Proof.
  induction 1 as [|kv l Hkv Hl IH]; [done|]. by rewrite filter_cons_True, IH by done.
Qed.

Lemma record_roundtrip r : rest_ok r -> isUsableRecord (record_json r) = Some r.
Proof.
  intros Hr. unfold isUsableRecord, record_json. jfields.
  assert (nullable_string (Some (match revokedAt r with Some s => JStr s | None => JNull end)) = Some (revokedAt r)) as ->
    by by destruct (revokedAt r).
  assert (transport_of (Some (JStr (transport_name (lastTransport r)))) = Some (lastTransport r)) as -> by by destruct (lastTransport r).
  do 6 (rewrite filter_cons_False by (intros H; apply H; repeat ((left; reflexivity) || right))).
  rewrite rest_ok_filter by done. by destruct r.
Qed.

Lemma parsed_store l : Forall rest_ok l -> parsed_clients (Some (store_json l)) = l.
Proof.
  intros H. unfold parsed_clients, store_json. jfields. induction H as [|r l Hr Hl IH]; [done|].
  cbn [fmap list_fmap omap list_omap]. rewrite record_roundtrip by done. f_equal. exact IH.
Qed.

Lemma parsed_rests f : Forall rest_ok (parsed_clients f).
Proof.
  unfold parsed_clients. destruct f as [v|]; [|constructor]. destruct (jfield "clients" v) as [[| | | |l|]|]; try constructor.
  apply Forall_forall. intros r (w & _ & Hw)%list_elem_of_omap. unfold isUsableRecord in Hw.
  repeat case_match; try done. simplify_eq. unfold rest_ok. cbn. apply Forall_forall. by intros kv [? _]%list_elem_of_filter.
Qed.

Lemma synced_load f : synced (load f).
Proof. constructor; [apply parsed_rests|done]. Qed.

Lemma synced_save st : Forall rest_ok (clients st) -> synced (save st true).
Proof. intros H. constructor; [done|]. unfold save, cores. cbn [file clients]. by rewrite parsed_store. Qed.

Lemma rest_ok_set_last_used t r : rest_ok r -> rest_ok (set_last_used t r).
Proof.
  unfold rest_ok. cbn [rest set_last_used]. generalize (rest r). intros l H. induction H as [|[k v] l Hkv Hl IH]; cbn [jset].
  - constructor; [|constructor]. cbn. intros Hin. repeat (apply elem_of_cons in Hin as [Hin|Hin]; [done|]). by apply elem_of_nil in Hin.
  - case_decide; by constructor.
Qed.

Lemma core_set_last_used t r : core (set_last_used t r) = core r.
Proof. unfold core, dedupeKey, expiresAt. cbn. by rewrite !jget_set_ne. Qed.

Lemma core_stamp_transport t r : core (stamp_transport t r) = core r.
Proof. done. Qed.

Section updates.
  Context (f : RemoteClientRecord -> RemoteClientRecord).

Lemma update_client_core i l : (forall r, core (f r) = core r) -> core <$> update_client i f l = core <$> l.
Proof. intros Hf. induction l as [|r l IH]; [done|]. cbn. case_bool_decide; cbn; [by rewrite Hf|by rewrite IH]. Qed.

Lemma update_holder_core `{!Sha256} token l : (forall r, core (f r) = core r) -> core <$> update_holder token f l = core <$> l.
Proof. intros Hf. induction l as [|r l IH]; [done|]. cbn. destruct (holds_token token r); cbn; [by rewrite Hf|by rewrite IH]. Qed.

Lemma update_client_rests i l : (forall r, rest_ok r -> rest_ok (f r)) -> Forall rest_ok l -> Forall rest_ok (update_client i f l).
Proof. intros Hf. induction 1 as [|r l Hr Hl IH]; cbn; [constructor|]. case_bool_decide; constructor; auto. Qed.

Lemma update_holder_rests `{!Sha256} token l : (forall r, rest_ok r -> rest_ok (f r)) -> Forall rest_ok l -> Forall rest_ok (update_holder token f l).
Proof. intros Hf. induction 1 as [|r l Hr Hl IH]; cbn; [constructor|]. destruct (holds_token token r); constructor; auto. Qed.

End updates.

(** ** Histories *)

Inductive Op :=
| OpCreate (input : CreateClientInput) (random uuid : string) (t1 t2 : Z) (written : bool)
| OpAuth (token : string) (relayConnection : bool) (now stamp : Z) (written : bool)
| OpRevoke (i : string) (t : Z) (written : bool)
| OpPurge (written : bool)
| OpRestart.

Section histories.
  Context {sha : Sha256} (other : json -> option Z).

Definition step (st : Store) (op : Op) : Store :=
  match op with
  | OpCreate input random uuid t1 t2 w => (createClient st input random uuid t1 t2 w).1
  | OpAuth token relay now stamp w => (authenticateBearerToken other st token relay now stamp w).1
  | OpRevoke i t w => revokeClient st i t w
  | OpPurge w => (purgeRevokedClients st w).1
  | OpRestart => load (file st)
  end.

Definition execute (ops : list Op) : Store := foldl step (load None) ops.

Definition write_ok (op : Op) : Prop :=
  match op with OpCreate _ _ _ _ _ w | OpAuth _ _ _ _ w | OpRevoke _ _ w | OpPurge w => w = true | OpRestart => True end.

Lemma member_rest_ok k v : bool_decide (k ∈ checked_members) = false -> Forall (fun kv : string * json => kv.1 ∉ checked_members) (member k v).
Proof. intros H%bool_decide_eq_false_1. destruct v; repeat constructor. done. Qed.

Lemma new_record_rest_ok input lbl random uuid t1 t2 : rest_ok (new_record input lbl random uuid t1 t2).
Proof.
  unfold rest_ok, new_record. cbn [rest]. rewrite !Forall_app.
  split_and!; try (by apply member_rest_ok); repeat constructor; cbn [fst]; by apply (bool_decide_unpack _).
Qed.

(** Records of a list with distinct keys. *)
Lemma fmap_NoDup_inj {A B} (f : A -> B) (l : list A) x y : NoDup (f <$> l) -> x ∈ l -> y ∈ l -> f x = f y -> x = y.
Proof.
  intros Hnd [i Hi]%list_elem_of_lookup [j Hj]%list_elem_of_lookup E.
  assert (i = j) as ->; [|by simplify_eq]. eapply NoDup_lookup; [done|..]; rewrite list_lookup_fmap; [by rewrite Hi|by rewrite Hj, E].
Qed.

(** How each operation changes the devices. *)
Lemma find_client_some p l r : find_client p l = Some r -> r ∈ l /\ p r = true.
Proof.
  unfold find_client. intros H. destruct (filter _ l) as [|x k] eqn:E; [done|]. cbn in H. simplify_eq.
  assert (r ∈ filter (fun r => p r = true) l) as [? ?]%list_elem_of_filter by (rewrite E; left). done.
Qed.

Lemma find_client_none p l r : find_client p l = None -> r ∈ l -> p r = false.
Proof.
  unfold find_client. intros H Hr. destruct (p r) eqn:E; [|done].
  destruct (filter (fun r => p r = true) l) as [|x k] eqn:Ef; [|done].
  assert (r ∈ filter (fun r => p r = true) l) as Hin by by apply list_elem_of_filter. rewrite Ef in Hin. by apply elem_of_nil in Hin.
Qed.

Definition has_key (k : string) (d : Device) : bool := is_str (d_key d) k && d_active d.

(** At most one active device of a dedupe key. *)
Definition one_per_key (l : list Device) : Prop :=
  forall k x y, x ∈ l -> y ∈ l -> has_key k x = true -> has_key k y = true -> d_id x = d_id y.

Lemma create_clients st input random uuid t1 t2 w :
  exists (keep : RemoteClientRecord -> bool) r,
    (createClient st input random uuid t1 t2 w).2 = (r, new_token random) /\
    clients (createClient st input random uuid t1 t2 w).1 = filter (fun x => keep x = true) (clients st) ++ [r] /\
    (exists lbl, r = new_record input lbl random uuid t1 t2) /\
    (one_per_key (cores st) -> forall k y, nonempty (in_dedupeKey input) = Some k -> y ∈ clients st -> keep y = true -> has_key k (core y) = false) /\
    (NoDup (id <$> clients st) -> forall y k, y ∈ clients st -> dedupeKey y = Some (JStr k) -> nonempty (in_dedupeKey input) <> Some k -> keep y = true).
Proof.
  unfold createClient. set (key := nonempty (in_dedupeKey input)).
  set (previous := match key with Some k => _ | None => None end). set (lbl := resolveLabel input previous).
  assert (forall st w, clients (save st w) = clients st) as Hsave by by intros ? [].
  destruct previous as [p|] eqn:Ep.
  - exists (fun x => bool_decide (id x ∉ id <$> filter (fun r => is_legacy lbl (id p) r = true) (clients st)) && bool_decide (id x <> id p)).
    eexists. split; [done|]. cbn [fst]. rewrite Hsave. cbn [clients with_clients replace_previous]. split_and!; [|by eexists| |].
    + f_equal. rewrite list_filter_filter. apply list_filter_iff. intros x. rewrite andb_true_iff, !bool_decide_eq_true. tauto.
    + intros Hone k y Hk Hy Hkeep. destruct (has_key k (core y)) eqn:E; [|done]. apply andb_true_iff in Hkeep as [_ Hid%bool_decide_eq_true].
      unfold previous in Ep. rewrite Hk in Ep. apply find_client_some in Ep as [Hp Hpk].
      by destruct (Hid (Hone k (core y) (core p) (list_elem_of_fmap_2 _ _ _ Hy) (list_elem_of_fmap_2 _ _ _ Hp) E Hpk)).
    + intros Hnd y k Hy Hk Hne. apply andb_true_iff. rewrite !bool_decide_eq_true. split.
      * intros (z & Hz & [Hleg Hin]%list_elem_of_filter)%list_elem_of_fmap. rewrite (fmap_NoDup_inj id (clients st) y z Hnd Hy Hin Hz) in Hk.
        unfold is_legacy in Hleg. bool_facts. by rewrite Hk in *.
      * intros Hid. unfold previous in Ep. destruct key as [k'|]; [|done]. apply find_client_some in Ep as [Hp Hpk].
        rewrite (fmap_NoDup_inj id (clients st) y p Hnd Hy Hp Hid) in Hk. rewrite Hk in Hpk. bool_facts. cbn in *. bool_facts. by subst.
  - exists (fun _ => true). eexists. split; [done|]. cbn [fst]. rewrite Hsave. cbn [clients with_clients]. split_and!; [|by eexists| |done].
    + f_equal. clear. induction (clients st) as [|x l IH]; [done|]. by rewrite filter_cons_True, <- IH by done.
    + intros _ k y Hk Hy _. unfold previous in Ep. rewrite Hk in Ep. by apply (find_client_none _ _ y Ep).
Qed.

Lemma touch_cores st i t stamp w : cores (touchThrottled st i t stamp w) = cores st.
Proof.
  unfold touchThrottled. destruct (match jget _ _ with Some _ => _ | None => _ end); [done|]. destruct (find_client _ _); [|done].
  transitivity (core <$> update_client i (set_last_used stamp) (clients st)); [by destruct w|].
  apply update_client_core. intros. apply core_set_last_used.
Qed.

Lemma touch_synced st i t stamp : synced st -> synced (touchThrottled st i t stamp true).
Proof.
  intros Hs. unfold touchThrottled. destruct (match jget _ _ with Some _ => _ | None => _ end); [done|]. destruct (find_client _ _); [|done].
  apply synced_save. cbn [clients]. apply update_client_rests; [intros; by apply rest_ok_set_last_used|apply Hs].
Qed.

(** Either nothing happens or the holder of the token is stamped and touched. *)
Lemma auth_spec st token relay now stamp w :
  (authenticateBearerToken other st token relay now stamp w).1 = st \/
  exists t i, (authenticateBearerToken other st token relay now stamp w).1
    = touchThrottled (with_clients st (update_holder token (stamp_transport t) (clients st))) i t stamp w.
Proof.
  unfold authenticateBearerToken. destruct (negb _); [by left|]. destruct (find_client _ _) as [r|]; [|by left].
  destruct (negb _); [by left|]. destruct (expired _ _ _); [by left|]. right. by eexists _, _.
Qed.

Lemma auth_cores st token relay now stamp w : cores (authenticateBearerToken other st token relay now stamp w).1 = cores st.
Proof.
  destruct (auth_spec st token relay now stamp w) as [->|(t & i & ->)]; [done|]. rewrite touch_cores.
  unfold cores, with_clients. cbn [clients]. by apply update_holder_core.
Qed.

Lemma auth_synced st token relay now stamp : synced st -> synced (authenticateBearerToken other st token relay now stamp true).1.
Proof.
  intros [Hr Hf]. destruct (auth_spec st token relay now stamp true) as [->|(t & i & ->)]; [done|]. apply touch_synced.
  constructor; [by apply update_holder_rests|]. unfold cores. cbn [file with_clients clients]. by rewrite update_holder_core.
Qed.

Lemma step_synced st op : write_ok op -> synced st -> synced (step st op).
Proof.
  intros Hw Hs. destruct op as [input random uuid t1 t2 w|token relay now stamp w|i t w|w|]; cbn in Hw; subst; cbn [step].
  - destruct (create_clients st input random uuid t1 t2 true) as (keep & r & _ & E & [lbl ->] & _ & _). revert E. unfold createClient. cbn [fst].
    intros E. apply synced_save. change (clients (save ?st true)) with (clients st) in E. rewrite E. apply Forall_app.
    split; [apply Forall_filter_keep, Hs|]. constructor; [apply new_record_rest_ok|constructor].
  - by apply auth_synced.
  - unfold revokeClient. destruct (find_client _ _) as [r|]; [|done]. destruct (active r); [|done]. apply synced_save.
    apply update_client_rests; [done|apply Hs].
  - unfold purgeRevokedClients. cbn [fst]. case_bool_decide as E; [|apply synced_save, Forall_filter_keep, Hs].
    assert (filter (fun r => active r = true) (clients st) = clients st) as ->; [|by destruct Hs; constructor].
    clear Hs. revert E. induction (clients st) as [|x l IH]; [done|]. rewrite filter_cons. case_decide; cbn; intros E; [f_equal; apply IH; lia|].
    pose proof (length_filter (fun r => active r = true) l). lia.
  - apply synced_load.
Qed.

Lemma restart_cores st : synced st -> cores (load (file st)) = cores st.
Proof. intros Hs. apply Hs. Qed.

(** *** Lives of device tokens *)

Definition created_id (op : Op) : option string :=
  match op with OpCreate _ _ uuid _ _ _ => Some (new_id uuid) | _ => None end.

(** What ends the life of a device: its revocation, or a replacement under its dedupe key. *)
Definition ends (i : string) (key : option string) (op : Op) : Prop :=
  match op with
  | OpRevoke i' _ _ => i' = i
  | OpCreate input _ _ _ _ _ => key <> None /\ nonempty (in_dedupeKey input) = key
  | _ => False
  end.

(** A device stems from one creation; while it is active nothing has ended it since. *)
Definition issued (ops : list Op) (d : Device) : Prop :=
  exists pre input random uuid t1 t2 w post,
    ops = pre ++ OpCreate input random uuid t1 t2 w :: post /\
    d_id d = new_id uuid /\ d_hash d = sha256Hex (new_token random) /\ d_expires d = JStr <$> in_expiresAt input /\
    d_key d = JStr <$> nonempty (in_dedupeKey input) /\
    (d_active d = true -> Forall (fun op => ~ ends (new_id uuid) (nonempty (in_dedupeKey input)) op) post).

Record registry_ok (ops : list Op) (l : list Device) : Prop := {
  registry_issued : Forall (issued ops) l;
  registry_ids : NoDup (d_id <$> l);
  registry_keys : one_per_key l;
}.

(** [d'] is [d], perhaps no longer active. *)
Definition ages (d' d : Device) : Prop :=
  d_id d' = d_id d /\ d_hash d' = d_hash d /\ d_expires d' = d_expires d /\ d_key d' = d_key d /\ (d_active d' = true -> d_active d = true).

Lemma ages_refl d : ages d d.
Proof. done. Qed.

Lemma issued_snoc ops op d d' : issued ops d -> ages d' d ->
  (d_active d' = true -> forall key, d_key d = JStr <$> key -> ~ ends (d_id d) key op) -> issued (ops ++ [op]) d'.
Proof.
  intros (pre & input & random & uuid & t1 & t2 & w & post & -> & H1 & H2 & H3 & H4 & H5) (E1 & E2 & E3 & E4 & E5) Hop.
  exists pre, input, random, uuid, t1, t2, w, (post ++ [op]). rewrite E1, E2, E3, E4. split_and!; [by rewrite <- app_assoc|done..|].
  intros Ha. apply Forall_app. split; [by apply H5, E5|]. constructor; [|constructor]. rewrite <- H1. by apply Hop.
Qed.

(** Steps that create nothing. *)
Lemma registry_shrinks ops op l l' : registry_ok ops l -> d_id <$> l' `sublist_of` d_id <$> l ->
  (forall d', d' ∈ l' -> exists d, d ∈ l /\ ages d' d /\ (d_active d' = true -> forall key, ~ ends (d_id d) key op)) ->
  registry_ok (ops ++ [op]) l'.
Proof.
  intros [H1 H2 H3] Hsub Hl. constructor.
  - apply Forall_forall. intros d' Hd'. destruct (Hl d' Hd') as (d & Hd & Hages & Hno). rewrite Forall_forall in H1.
    apply (issued_snoc ops op d); [by apply H1|done|]. intros Ha key _. by apply Hno.
  - by eapply sublist_NoDup.
  - intros k x y Hx Hy Hkx Hky. destruct (Hl x Hx) as (dx & Hdx & Hax & _). destruct (Hl y Hy) as (dy & Hdy & Hay & _).
    assert (forall d d', ages d' d -> has_key k d' = true -> has_key k d = true) as Hk.
    { intros d d' (_ & _ & _ & E4 & E5). unfold has_key. rewrite E4. intros [? ?]%andb_true_iff. rewrite E5 by done. by apply andb_true_iff. }
    destruct Hax as (E1 & Hax'), Hay as (E2 & Hay'). rewrite E1, E2.
    apply (H3 k); [done..|apply (Hk _ x); [by split|done]|apply (Hk _ y); [by split|done]].
Qed.

Lemma update_client_spec f i l d' : NoDup (id <$> l) -> (forall r, id (f r) = id r) -> d' ∈ core <$> update_client i f l ->
  exists r, r ∈ l /\ (d' = core r /\ id r <> i \/ d' = core (f r) /\ id r = i).
Proof.
  intros Hnd Hf. induction l as [|r l IH]; cbn; [by intros ?%elem_of_nil|]. cbn in Hnd. apply NoDup_cons in Hnd as [Hn Hnd].
  case_bool_decide as E; cbn; intros [->|Hd]%elem_of_cons.
  - exists r. split; [by left|by right].
  - apply list_elem_of_fmap in Hd as (r' & -> & Hr'). exists r'. split; [by right|]. left. split; [done|].
    intros E'. apply Hn. rewrite E, <- E'. by apply list_elem_of_fmap_2.
  - exists r. split; [by left|by left].
  - destruct (IH Hnd Hd) as (r' & Hr' & H). exists r'. split; [by right|done].
Qed.

Lemma update_client_ids f i l : (forall r, id (f r) = id r) -> id <$> update_client i f l = id <$> l.
Proof. intros Hf. induction l as [|r l IH]; [done|]. cbn. case_bool_decide; cbn; [by rewrite Hf|by rewrite IH]. Qed.

Lemma revoke_registry ops st i t w : registry_ok ops (cores st) -> registry_ok (ops ++ [OpRevoke i t w]) (cores (revokeClient st i t w)).
Proof.
  intros H. pose proof (registry_ids _ _ H) as Hnd. unfold cores in Hnd. rewrite <- list_fmap_compose in Hnd. change (NoDup (id <$> clients st)) in Hnd.
  assert (forall st w, cores (save st w) = cores st) as Hsave by by intros ? [].
  assert (forall r, r ∈ clients st -> (id r = i -> active r = false) -> exists d, d ∈ cores st /\ ages (core r) d /\ (d_active (core r) = true -> forall key, ~ ends (d_id d) key (OpRevoke i t w))) as Hkeep.
  { intros r Hr Hi. exists (core r). split; [by apply list_elem_of_fmap_2|]. split; [done|]. cbn. intros Ha _ E. rewrite Hi in Ha; done. }
  unfold revokeClient. destruct (find_client _ _) as [r|] eqn:Ef; [apply find_client_some in Ef as [Hr Hid%bool_decide_eq_true]; destruct (active r) eqn:Ea|].
  - rewrite Hsave. apply (registry_shrinks ops _ (cores st)); [done| |].
    + unfold cores. cbn [clients with_clients]. rewrite <- !list_fmap_compose. change (id <$> update_client i (revoke_record t) (clients st) `sublist_of` id <$> clients st).
      by rewrite update_client_ids.
    + intros d' Hd'. destruct (update_client_spec (revoke_record t) i (clients st) d' Hnd ltac:(done) Hd') as (r' & Hr' & [[-> Hne]|[-> He]]); [by apply Hkeep|].
      exists (core r'). split; [by apply list_elem_of_fmap_2|]. by split.
  - apply (registry_shrinks ops _ (cores st)); [done..|]. intros d' (r' & -> & Hr')%list_elem_of_fmap. apply Hkeep; [done|].
    intros E. by rewrite (fmap_NoDup_inj id (clients st) r' r Hnd Hr' Hr) by congruence.
  - apply (registry_shrinks ops _ (cores st)); [done..|]. intros d' (r' & -> & Hr')%list_elem_of_fmap. apply Hkeep; [done|].
    intros E. apply (find_client_none _ _ r') in Ef; [|done]. by apply bool_decide_eq_false_1 in Ef.
Qed.

Lemma new_record_key input lbl random uuid t1 t2 :
  dedupeKey (new_record input lbl random uuid t1 t2) = JStr <$> nonempty (in_dedupeKey input).
Proof.
  unfold dedupeKey, new_record, member. cbn [rest].
  destruct (in_expiresAt input), (nonempty (in_dedupeKey input)); done || (repeat case_match; done).
Qed.

Lemma new_record_expires input lbl random uuid t1 t2 :
  expiresAt (new_record input lbl random uuid t1 t2) = JStr <$> in_expiresAt input.
Proof. unfold expiresAt, new_record, member. cbn [rest]. destruct (in_expiresAt input); repeat case_match; done. Qed.

Lemma create_registry ops st input random uuid t1 t2 w :
  (forall d, d ∈ cores st -> d_id d <> new_id uuid) ->
  registry_ok ops (cores st) ->
  registry_ok (ops ++ [OpCreate input random uuid t1 t2 w]) (cores (createClient st input random uuid t1 t2 w).1).
Proof.
  intros Hfresh [H1 H2 H3]. destruct (create_clients st input random uuid t1 t2 w) as (keep & r & _ & E & [lbl ->] & Hgone & _).
  unfold cores. rewrite E, fmap_app. cbn [fmap list_fmap]. set (new := core (new_record input lbl random uuid t1 t2)).
  set (old := core <$> filter (fun x => keep x = true) (clients st)).
  assert (forall d, d ∈ old -> d ∈ cores st /\ forall k, nonempty (in_dedupeKey input) = Some k -> has_key k d = false) as Hold.
  { intros d (r & -> & [Hk Hr]%list_elem_of_filter)%list_elem_of_fmap. split; [by apply list_elem_of_fmap_2|].
    intros k Hin. by apply (Hgone H3). }
  assert (d_key new = JStr <$> nonempty (in_dedupeKey input)) as Hnew by apply new_record_key.
  assert (d_expires new = JStr <$> in_expiresAt input) as Hexp by apply new_record_expires.
  constructor.
  - apply Forall_app. split.
    + apply Forall_forall. intros d Hd. destruct (Hold d Hd) as [Hin Hk]. rewrite Forall_forall in H1.
      apply (issued_snoc ops _ d d); [by apply H1|apply ages_refl|]. intros Ha key Ekey [Hne Eq]. destruct key as [k|]; [|done].
      specialize (Hk k Eq). unfold has_key in Hk. rewrite Ekey, Ha in Hk. cbn in Hk. by rewrite bool_decide_true in Hk.
    + constructor; [|constructor]. exists ops, input, random, uuid, t1, t2, w, []. split_and!; [done..|]. by constructor.
  - rewrite fmap_app. apply NoDup_app. split_and!; [|intros i (d & -> & Hd)%list_elem_of_fmap|apply NoDup_singleton].
    + eapply sublist_NoDup; [exact H2|]. apply fmap_sublist, fmap_sublist, sublist_filter.
    + intros Hx. apply list_elem_of_singleton in Hx. by apply (Hfresh d); [apply Hold|].
  - intros k x y Hx Hy Hkx Hky. rewrite elem_of_app, list_elem_of_singleton in Hx, Hy.
    assert (forall d, d ∈ old -> has_key k d = true -> has_key k new = true -> False) as Hno.
    { intros d Hd Hkd Hkn. unfold has_key in Hkn. rewrite Hnew in Hkn. apply andb_true_iff in Hkn as [Hkn _].
      destruct (nonempty (in_dedupeKey input)) as [k'|] eqn:Ek; [|done]. cbn in Hkn. apply bool_decide_eq_true in Hkn as ->.
      destruct (Hold d Hd) as [_ Hk]. by rewrite Hk in Hkd. }
    destruct Hx as [Hx| ->], Hy as [Hy| ->]; [|by destruct (Hno x)|by destruct (Hno y)|done].
    apply (H3 k); [by apply Hold|by apply Hold|done|done].
Qed.

Lemma execute_snoc ops op : execute (ops ++ [op]) = step (execute ops) op.
Proof. unfold execute. by rewrite foldl_app. Qed.

Lemma execute_registry ops : Forall write_ok ops -> NoDup (omap created_id ops) -> registry_ok ops (cores (execute ops)) /\ synced (execute ops).
Proof.
  induction ops as [|op ops IH] using rev_ind; intros Hw Hnd.
  { split; [|apply synced_load]. constructor; [constructor|constructor|]. by intros k x y Hx%elem_of_nil. }
  rewrite Forall_app in Hw. destruct Hw as [Hw Hop]. apply Forall_cons_1 in Hop as [Hop _]. rewrite omap_app in Hnd. apply NoDup_app in Hnd as (Hnd & Hdis & _).
  destruct (IH Hw Hnd) as [Hr Hs]. rewrite execute_snoc.
  split; [|by apply step_synced].
  destruct op as [input random uuid t1 t2 w|token relay now stamp w|i t w|w|]; cbn [step].
  - apply create_registry; [|done]. intros d Hd E. destruct Hr as [H1 _ _]. rewrite Forall_forall in H1.
    destruct (H1 d Hd) as (pre & input' & random' & uuid' & t1' & t2' & w' & post & Eops & Eid & _).
    apply (Hdis (new_id uuid)); [|cbn; left]. rewrite <- E, Eid, Eops, omap_app. apply elem_of_app. right. left.
  - rewrite auth_cores. apply (registry_shrinks ops _ (cores (execute ops))); [done..|]. intros d Hd. exists d. split; [done|]. split; [apply ages_refl|]. by intros _ ? [].
  - by apply revoke_registry.
  - apply (registry_shrinks ops _ (cores (execute ops))); [done| |].
    + unfold purgeRevokedClients. cbn [fst]. assert (forall st w, cores (save st w) = cores st) as Hsave by by intros ? [].
      case_bool_decide; rewrite ?Hsave; unfold cores; cbn [clients]; apply fmap_sublist, fmap_sublist, sublist_filter.
    + intros d Hd. exists d. split; [|split; [apply ages_refl|by intros _ ? []]]. revert Hd. unfold purgeRevokedClients. cbn [fst].
      assert (forall st w, cores (save st w) = cores st) as Hsave by by intros ? [].
      case_bool_decide; rewrite ?Hsave; unfold cores; cbn [clients]; intros (r & -> & [_ Hr']%list_elem_of_filter)%list_elem_of_fmap;
        by apply list_elem_of_fmap_2.
  - rewrite restart_cores by done. apply (registry_shrinks ops _ (cores (execute ops))); [done..|]. intros d Hd. exists d. split; [done|]. split; [apply ages_refl|]. by intros _ ? [].
Qed.

Lemma auth_accepts st token relay now stamp w i :
  (authenticateBearerToken other st token relay now stamp w).2 = Some i ->
  starts_with CLIENT_TOKEN_PREFIX token = true /\
  exists r, r ∈ clients st /\ id r = i /\ active r = true /\ holds_token token r = true /\ expired other r now = false.
Proof.
  unfold authenticateBearerToken. destruct (starts_with _ _); [|done]. cbn [negb].
  destruct (find_client _ _) as [r|] eqn:Ef; [|done]. destruct (active r) eqn:Ea; [|done]. cbn [negb].
  destruct (expired other r now) eqn:Ee; [done|]. cbn [snd]. intros Hi. injection Hi as <-. split; [done|].
  apply find_client_some in Ef as [Hr Hhash]. by exists r.
Qed.

Lemma unexpired r now v : expired other r now = false -> expiresAt r = Some v -> exists t, date_value other v = Some t /\ (now < t)%Z.
Proof.
  unfold expired. intros H E. rewrite E in H. destruct (date_value other v) as [t|]; [|done].
  apply bool_decide_eq_false_1 in H. exists t. split; [done|lia].
Qed.

(** C33. A token that authenticates was handed out and has not ended. Whatever was
    created, authenticated, revoked, purged and restarted before, as long as every
    write reached the disk and the created ids are distinct: a bearer token is
    accepted only if its digest is the digest of a token handed out by a creation
    that no later revocation of its id and no later creation under its dedupe key
    has ended, restarts included, and whose expiry, if it has one, is readable and
    lies ahead. *)
Theorem accepted_token_was_issued_and_lives ops token relay now stamp w i :
  Forall write_ok ops -> NoDup (omap created_id ops) ->
  (authenticateBearerToken other (execute ops) token relay now stamp w).2 = Some i ->
  starts_with CLIENT_TOKEN_PREFIX token = true /\
  exists pre input random uuid t1 t2 w' post,
    ops = pre ++ OpCreate input random uuid t1 t2 w' :: post /\ i = new_id uuid /\
    sameHash (sha256Hex (new_token random)) (sha256Hex token) = true /\
    Forall (fun op => ~ ends i (nonempty (in_dedupeKey input)) op) post /\
    (forall e, in_expiresAt input = Some e -> exists t, date_value other (JStr e) = Some t /\ (now < t)%Z).
Proof.
  intros Hw Hnd Hauth. destruct (execute_registry ops Hw Hnd) as [[H1 _ _] _].
  apply auth_accepts in Hauth as (Hpre & r & Hr & <- & Ea & Hhash & Ee). split; [done|]. rewrite Forall_forall in H1.
  destruct (H1 (core r) (list_elem_of_fmap_2 _ _ _ Hr)) as (pre & input & random & uuid & t1 & t2 & w' & post & E & Eid & Eh & Eexp & _ & Hno).
  exists pre, input, random, uuid, t1, t2, w', post. split; [exact E|]. split; [exact Eid|]. split; [|split].
  - unfold holds_token in Hhash. change (tokenHash r) with (d_hash (core r)) in Hhash. by rewrite Eh in Hhash.
  - change (id r) with (d_id (core r)). rewrite Eid. apply Hno. exact Ea.
  - intros e He. apply (unexpired r now); [exact Ee|]. change (expiresAt r) with (d_expires (core r)). by rewrite Eexp, He.
Qed.

(** *** A keyed device stays *)

Lemma update_client_others f i l r : r ∈ l -> id r <> i -> core r ∈ core <$> update_client i f l.
Proof.
  intros Hr Hi. induction l as [|x l IH]; [by apply elem_of_nil in Hr|]. cbn. apply elem_of_cons in Hr as [<-|Hr].
  - rewrite bool_decide_false by done. left.
  - case_bool_decide; cbn; right; [by apply list_elem_of_fmap_2|by apply IH].
Qed.

Lemma kept_core keep (l : list RemoteClientRecord) r : r ∈ l -> keep r = true -> core r ∈ core <$> filter (fun x => keep x = true) l.
Proof. intros. apply list_elem_of_fmap_2. by apply list_elem_of_filter. Qed.

Lemma step_keeps st op d k :
  synced st -> NoDup (d_id <$> cores st) -> d ∈ cores st -> d_active d = true -> d_key d = Some (JStr k) ->
  ~ ends (d_id d) (Some k) op -> d ∈ cores (step st op).
Proof.
  intros Hs Hnd Hd Ha Hk Hno. pose proof Hd as Hd'. apply list_elem_of_fmap in Hd' as (r & -> & Hr).
  unfold cores in Hnd. rewrite <- list_fmap_compose in Hnd. change (NoDup (id <$> clients st)) in Hnd.
  assert (forall st w, cores (save st w) = cores st) as Hsave by by intros ? [].
  destruct op as [input random uuid t1 t2 w|token relay now stamp w|i t w|w|]; cbn [step].
  - destruct (create_clients st input random uuid t1 t2 w) as (keep & new & _ & E & _ & _ & Hkeep). unfold cores. rewrite E, fmap_app.
    apply elem_of_app. left. apply kept_core; [done|]. apply (Hkeep Hnd r k Hr Hk). intros Hin. by apply Hno.
  - by rewrite auth_cores.
  - unfold revokeClient. destruct (find_client _ _) as [x|]; [|done]. destruct (active x); [|done]. rewrite Hsave.
    apply update_client_others; [done|]. intros E. by apply Hno.
  - unfold purgeRevokedClients. cbn [fst]. case_bool_decide; rewrite ?Hsave; by apply kept_core.
  - by rewrite restart_cores.
Qed.

Lemma execute_keeps pre op post d k :
  let ops := pre ++ op :: post in
  Forall write_ok ops -> NoDup (omap created_id ops) -> d ∈ cores (execute (pre ++ [op])) -> d_active d = true -> d_key d = Some (JStr k) ->
  Forall (fun op => ~ ends (d_id d) (Some k) op) post -> d ∈ cores (execute ops).
Proof.
  cbv zeta. rewrite (cons_middle op pre post), app_assoc. generalize (pre ++ [op]). clear pre op. intros pre.
  induction post as [|op post IH] using rev_ind; intros Hw Hnd Hd Ha Hk Hno; [by rewrite app_nil_r|].
  rewrite app_assoc in *. apply Forall_app in Hw as [Hw _]. apply Forall_app in Hno as [Hno Hop]. apply Forall_cons_1 in Hop as [Hop _].
  rewrite omap_app in Hnd. apply NoDup_app in Hnd as (Hnd & _ & _). destruct (execute_registry _ Hw Hnd) as [Hr Hs].
  rewrite execute_snoc. apply (step_keeps _ _ d k); [done|apply Hr|by apply IH|done..].
Qed.

(** A token handed out under a dedupe key works until something ends it: as long
    as its id is not revoked and its key not given to a later creation, whatever
    else is created, authenticated, revoked, purged and restarted, and before its
    expiry, it authenticates as the id it was created with. Ids are distinct, every
    write reaches the disk, and no other creation handed out a token of the same
    digest. *)
Theorem keyed_token_works_until_ended pre input random uuid t1 t2 w post relay now stamp w' k :
  let ops := pre ++ OpCreate input random uuid t1 t2 w :: post in
  Forall write_ok ops -> NoDup (omap created_id ops) ->
  nonempty (in_dedupeKey input) = Some k -> Forall (fun op => ~ ends (new_id uuid) (Some k) op) post ->
  (forall input' random' uuid' t1' t2' v, OpCreate input' random' uuid' t1' t2' v ∈ ops ->
     sameHash (sha256Hex (new_token random')) (sha256Hex (new_token random)) = true -> new_id uuid' = new_id uuid) ->
  (forall e, in_expiresAt input = Some e -> exists t, date_value other (JStr e) = Some t /\ (now < t)%Z) ->
  (authenticateBearerToken other (execute ops) (new_token random) relay now stamp w').2 = Some (new_id uuid).
Proof.
  intros ops Hw Hnd Hk Hno Hhash Hexp. destruct (execute_registry ops Hw Hnd) as [[H1 H2 _] _].
  destruct (create_clients (execute pre) input random uuid t1 t2 w) as (keep & r & _ & E & [lbl ->] & _ & _).
  set (new := new_record input lbl random uuid t1 t2) in *.
  assert (core new ∈ cores (execute ops)) as Hin.
  { apply (execute_keeps pre (OpCreate input random uuid t1 t2 w) post (core new) k); [done|done| |done| |done].
    - rewrite execute_snoc. unfold cores. cbn [step]. rewrite E, fmap_app. apply elem_of_app. right. left.
    - cbn [d_key core]. unfold new. by rewrite new_record_key, Hk. }
  apply list_elem_of_fmap in Hin as (r & Er & Hr). unfold authenticateBearerToken.
  assert (starts_with CLIENT_TOKEN_PREFIX (new_token random) = true) as -> by (unfold starts_with; cbn; by destruct random). cbn [negb].
  assert (holds_token (new_token random) r = true) as Hold.
  { unfold holds_token. replace (tokenHash r) with (d_hash (core new)) by by rewrite Er. cbn.
    unfold sameHash, equalHex. by rewrite !bool_decide_true. }
  destruct (find_client _ _) as [x|] eqn:Ef; [|by rewrite (find_client_none _ _ r Ef Hr) in Hold].
  apply find_client_some in Ef as [Hx Hxh]. assert (x = r) as ->.
  { rewrite Forall_forall in H1. destruct (H1 (core x) (list_elem_of_fmap_2 _ _ _ Hx)) as (p & i' & rd & u & a & b & v & q & Eo & Eid & Eh & _).
    unfold cores in H2. rewrite <- list_fmap_compose in H2. apply (fmap_NoDup_inj id _ _ _ H2 Hx Hr).
    change (id x) with (d_id (core x)). change (id r) with (d_id (core r)). rewrite <- Er, Eid. cbn.
    apply (Hhash i' rd u a b v); [rewrite Eo; apply elem_of_app; right; left|]. unfold holds_token in Hxh.
    change (tokenHash x) with (d_hash (core x)) in Hxh. by rewrite Eh in Hxh. }
  assert (active r = true) as -> by (change (active r) with (d_active (core r)); by rewrite <- Er).
  assert (id r = new_id uuid) as -> by (change (id r) with (d_id (core r)); by rewrite <- Er).
  assert (expiresAt r = JStr <$> in_expiresAt input) as Hre.
  { change (expiresAt r) with (d_expires (core r)). rewrite <- Er. cbn [d_expires core]. apply new_record_expires. }
  cbn [negb]. assert (expired other r now = false) as ->; [|done]. unfold expired. rewrite Hre.
  destruct (in_expiresAt input) as [e|]; [|done]. destruct (Hexp e eq_refl) as (t & Ht & Hlt). cbn [fmap option_fmap option_map]. rewrite Ht.
  apply bool_decide_false. lia.
Qed.

End histories.

(** ** Labels *)

(** A label is at most 80 characters and, when the first 80 are not all it has, what
    the caller typed wins over the replaced record's and that over the fallback. *)
Lemma label_bounds input previous : String.length (resolveLabel input previous) <= CLIENT_LABEL_MAX.
Proof. unfold resolveLabel. repeat case_match; apply stake_length. Qed.

Lemma label_precedence input previous typed :
  meaningful (in_label input) = Some typed -> resolveLabel input previous = stake CLIENT_LABEL_MAX typed.
Proof. unfold resolveLabel. by intros ->. Qed.

(** ** Concrete histories *)

Section examples.

#[local] Instance ex_sha : Sha256 := to_hex.

Definition ex_other (v : json) : option Z := None.

Definition ex_input (key : string) (expires : option string) : CreateClientInput :=
  {| in_authMethod := Some "pairing"; in_dedupeKey := Some key; in_clientKind := Some "mobile"; in_label := None;
     in_fallbackLabel := Some "Phone"; in_pairingId := None; in_usesRelay := false; in_deviceName := None;
     in_devicePlatform := None; in_deviceModel := None; in_appVersion := None; in_expiresAt := expires |}.

Definition ex_history : list Op :=
  [OpCreate (ex_input "a" (Some (toISOString 5000))) "AAAA" "11-11" 1000 1000 true;
   OpCreate (ex_input "b" None) "BBBB" "22-22" 1000 1000 true;
   OpAuth "oc_client_AAAA" true 2000 2000 true; OpRevoke "2222" 3000 true; OpRestart].

Lemma accepted_token_was_issued_and_lives_witness :
  let st := execute ex_other ex_history in
  (authenticateBearerToken ex_other st "oc_client_AAAA" false 4999 4999 true).2 = Some "1111" /\
  (authenticateBearerToken ex_other st "oc_client_BBBB" false 4999 4999 true).2 = None /\
  (authenticateBearerToken ex_other st "oc_client_AAAA" false 5000 5000 true).2 = None /\
  exists pre input random uuid t1 t2 w post,
    ex_history = pre ++ OpCreate input random uuid t1 t2 w :: post /\ "1111" = new_id uuid.
Proof.
  cbv zeta.
  assert ((authenticateBearerToken ex_other (execute ex_other ex_history) "oc_client_AAAA" false 4999 4999 true).2 = Some "1111") as H
    by (vm_compute; reflexivity).
  assert (Forall write_ok ex_history) as Hw by (repeat constructor).
  assert (NoDup (omap created_id ex_history)) as Hn by (vm_compute; apply (bool_decide_unpack _); vm_compute; exact I).
  pose proof (accepted_token_was_issued_and_lives ex_other ex_history "oc_client_AAAA" false 4999 4999 true "1111" Hw Hn H)
    as (_ & pre & input & random & uuid & t1 & t2 & w & post & E & Ei & _).
  split; [exact H|]. split; [vm_compute; reflexivity|]. split; [vm_compute; reflexivity|].
  exists pre, input, random, uuid, t1, t2, w, post. split; [exact E|exact Ei].
Defined.

Lemma keyed_token_works_until_ended_witness :
  (authenticateBearerToken ex_other (execute ex_other ex_history) (new_token "AAAA") false 4999 4999 true).2 = Some (new_id "11-11").
Proof.
  apply (keyed_token_works_until_ended ex_other [] (ex_input "a" (Some (toISOString 5000))) "AAAA" "11-11" 1000 1000 true
           [OpCreate (ex_input "b" None) "BBBB" "22-22" 1000 1000 true;
            OpAuth "oc_client_AAAA" true 2000 2000 true; OpRevoke "2222" 3000 true; OpRestart] false 4999 4999 true "a").
  - repeat constructor.
  - vm_compute. apply (bool_decide_unpack _). vm_compute. exact I.
  - reflexivity.
  - repeat constructor; cbn; try (intros [_ ?]; discriminate); try discriminate; tauto.
  - intros input' random' uuid' t1' t2' v Hin Hs. repeat (apply elem_of_cons in Hin as [Hin|Hin]; [try discriminate; injection Hin as -> -> -> -> -> ->|]).
    + reflexivity.
    + vm_compute in Hs. discriminate Hs.
    + by apply elem_of_nil in Hin.
  - intros e He. injection He as <-. exists 5000%Z. split; [vm_compute; reflexivity|lia].
Defined.

(** A write that fails is not reported: the revocation holds in memory and is gone
    after a restart, when the token works again. *)
Lemma failed_write_resurrects_token :
  let ops := [OpCreate (ex_input "a" None) "AAAA" "11-11" 1000 1000 true; OpRevoke "1111" 2000 false] in
  (authenticateBearerToken ex_other (execute ex_other ops) "oc_client_AAAA" false 3000 3000 true).2 = None /\
  (authenticateBearerToken ex_other (execute ex_other (ops ++ [OpRestart])) "oc_client_AAAA" false 3000 3000 true).2 = Some "1111".
Proof. split; vm_compute; reflexivity. Qed.

End examples.
