(* ===== verification/AuthPairing.v ===== *)
(** Pairing sessions (server/lib/auth/pairing-sessions.ts) and the anonymous redeem
    route (server/routes/client-auth.ts): one-time, expiring, revocable grants that
    turn a device into a token-bearing client.

    Every operation of the store re-reads the file first, so that the file is the
    state; an operation is one step, which holds as long as one process at a time works
    on the file (the header of pairing-sessions.ts documents the window between two).
    Clock readings, random texts and the outcome of the write are arguments. *)

From S2P Require Import Prelude JsString JsMap JsValue JsDate AuthHash AuthLimits AuthClients.

Definition PAIRING_ID_PREFIX : string := "pair_".
Definition PAIRING_TTL_MS : Z := 10 * 60000.
Definition PAIRING_LABEL_MAX : nat := 80.
Definition DEFAULT_ALLOWED_CLIENT_KINDS : list string := ["mobile"; "desktop"].
Definition KIND_VOCABULARY : list string := ["mobile"; "desktop"].

(** The members [isUsableSession] checks; the label, the creator and unknown members are in [extra]. *)
Record PairingSessionRecord := {
  pairingId : string;
  secretHash : string;
  createdAt : string;
  deadline : string;
  usedAt : option string;
  cancelledAt : option string;
  clientId : option string;
  fingerprint : string;
  allowedClientKinds : list json;
  relayed : bool;
  extra : list (string * json);
}.

(** Everything but the digest of the secret. *)
Record PublicPairingSession := {
  pub_id : string;
  pub_createdAt : string;
  pub_expiresAt : string;
  pub_usedAt : option string;
  pub_cancelledAt : option string;
  pub_clientId : option string;
  pub_fingerprint : string;
  pub_allowedClientKinds : list json;
  pub_usesRelay : bool;
  pub_extra : list (string * json);
}.

Definition publicView (r : PairingSessionRecord) : PublicPairingSession :=
  {| pub_id := pairingId r; pub_createdAt := createdAt r; pub_expiresAt := deadline r; pub_usedAt := usedAt r;
     pub_cancelledAt := cancelledAt r; pub_clientId := clientId r; pub_fingerprint := fingerprint r;
     pub_allowedClientKinds := allowedClientKinds r; pub_usesRelay := relayed r; pub_extra := extra r |}.

(** ** The file *)

Definition session_members : list string :=
  ["id"; "secretHash"; "createdAt"; "expiresAt"; "usedAt"; "cancelledAt"; "clientId"; "fingerprint"; "allowedClientKinds"; "usesRelay"].

Definition isUsableSession (v : json) : option PairingSessionRecord :=
  match v with
  | JObj fields =>
    match jget "id" fields, jget "secretHash" fields, jget "createdAt" fields, jget "expiresAt" fields,
          nullable_string (jget "usedAt" fields), nullable_string (jget "cancelledAt" fields), nullable_string (jget "clientId" fields),
          jget "fingerprint" fields, jget "allowedClientKinds" fields, jget "usesRelay" fields with
    | Some (JStr i), Some (JStr h), Some (JStr c), Some (JStr e), Some u, Some x, Some d, Some (JStr f), Some (JArr k), Some (JBool r) =>
      if starts_with PAIRING_ID_PREFIX i then
        Some {| pairingId := i; secretHash := h; createdAt := c; deadline := e; usedAt := u; cancelledAt := x; clientId := d;
                fingerprint := f; allowedClientKinds := k; relayed := r;
                extra := filter (fun kv => kv.1 ∉ session_members) fields |}
      else None
    | _, _, _, _, _, _, _, _, _, _ => None
    end
  | _ => None
  end.

(** [string | null] as it is printed. *)
Definition or_null (s : option string) : json := match s with Some s => JStr s | None => JNull end.

Definition session_json (r : PairingSessionRecord) : json :=
  JObj ([("id", JStr (pairingId r)); ("secretHash", JStr (secretHash r)); ("createdAt", JStr (createdAt r)); ("expiresAt", JStr (deadline r));
         ("usedAt", or_null (usedAt r)); ("cancelledAt", or_null (cancelledAt r)); ("clientId", or_null (clientId r));
         ("fingerprint", JStr (fingerprint r)); ("allowedClientKinds", JArr (allowedClientKinds r)); ("usesRelay", JBool (relayed r))]
        ++ extra r).

Definition sessions_json (l : list PairingSessionRecord) : json :=
  JObj [("version", JInt 1); ("sessions", JArr (session_json <$> l))].

(** [load]: [None] is a missing file or a text that does not parse. *)
Definition load_sessions (f : option json) : list PairingSessionRecord :=
  match f with
  | Some v => match jfield "sessions" v with Some (JArr l) => omap isUsableSession l | _ => [] end
  | None => []
  end.

(** ** Helpers *)

Definition stringOf (v : option json) : string := match v with Some (JStr s) => trim s | _ => "" end.

(** [a || b] on texts *)
Definition or_else (a b : string) : string := if bool_decide (a = "") then b else a.

Definition or_undefined (s : string) : option string := if bool_decide (s = "") then None else Some s.

Definition firstMeaningful (a b : string) : string := or_else a b.

Definition normalizeLabel (v : option json) : option string :=
  match v with
  | Some (JStr s) => if bool_decide (trim s = "") then None else Some (stake PAIRING_LABEL_MAX (trim s))
  | _ => None
  end.

(** The elements of [new Set(l)]. *)
Fixpoint unique (seen l : list string) : list string :=
  match l with
  | [] => []
  | x :: l => if bool_decide (x ∈ seen) then unique seen l else x :: unique (x :: seen) l
  end.

Definition normalizeKinds (v : option json) : list string :=
  match v with
  | Some (JArr l) =>
    let picked := unique [] (omap (fun k => match k with JStr s => if bool_decide (s ∈ KIND_VOCABULARY) then Some s else None | _ => None end) l) in
    if bool_decide (picked = []) then DEFAULT_ALLOWED_CLIENT_KINDS else picked
  | _ => DEFAULT_ALLOWED_CLIENT_KINDS
  end.

Definition fingerprint_of (hex : string) : string := stake 4 (toUpperCase hex) +:+ "-" +:+ sdrop 4 (toUpperCase hex).

(** [list.includes(text)] *)
Definition includes (k : string) (l : list json) : bool := existsb (json_eqb (JStr k)) l.

(** The first session of the id. *)
Definition find_session (i : string) (l : list PairingSessionRecord) : option PairingSessionRecord :=
  head (filter (fun r => pairingId r = i) l).

Fixpoint update_session (i : string) (f : PairingSessionRecord -> PairingSessionRecord) (l : list PairingSessionRecord) : list PairingSessionRecord :=
  match l with
  | [] => []
  | r :: l => if bool_decide (pairingId r = i) then f r :: l else r :: update_session i f l
  end.

(** ** Operations *)

Record CreatePairingInput := {
  ci_label : option json;
  ci_allowedClientKinds : option json;
  ci_createdByClientId : option json;
  ci_usesRelay : option json;
}.

(** The redeem body; [None] is undefined. *)
Record RedeemPairingInput := {
  r_pairingId : option json;
  r_secret : option json;
  r_clientLabel : option json;
  r_clientKind : option json;
  r_deviceName : option json;
  r_devicePlatform : option json;
  r_deviceModel : option json;
  r_appVersion : option json;
  r_dedupeKey : option json;
}.

Inductive RedeemError :=
| InvalidPairingSession
| MintFailure (cause : string)
| PairingStoreFault.

Record PairingRedeemOutcome := { pairing : PublicPairingSession; client : string; token : string }.

(** Clock readings of a redemption: sweep, expiry test, stamp. *)
Record RedeemClock := { sweep_at : Z; check_at : Z; stamp_at : Z }.

Section pairing.
  Context {sha : Sha256} (other : json -> option Z).
  (** The client store behind [mintClient]: the new state, the client id and its token, or a thrown message. *)
  Context {S : Type} (mint : S -> CreateClientInput -> exc string (S * (string * string))).

Definition sweep (stamp : Z) (l : list PairingSessionRecord) : list PairingSessionRecord :=
  filter (fun r =>
    match (match cancelledAt r with Some c => Some c | None => usedAt r end) with
    | Some inactive => match date_value other (JStr inactive) with Some t => bool_decide (stamp < t + PAIRING_TTL_MS)%Z | None => false end
    | None => date_after other (JStr (deadline r)) stamp
    end = true) l.

Definition new_session (input : CreatePairingInput) (secret idhex fphex : string) (stamp : Z) : PairingSessionRecord :=
  {| pairingId := PAIRING_ID_PREFIX +:+ idhex; secretHash := sha256Hex secret; createdAt := toISOString stamp;
     deadline := toISOString (stamp + PAIRING_TTL_MS); usedAt := None; cancelledAt := None; clientId := None;
     fingerprint := fingerprint_of fphex; allowedClientKinds := JStr <$> normalizeKinds (ci_allowedClientKinds input);
     relayed := is_true (ci_usesRelay input);
     extra := [("label", or_null (normalizeLabel (ci_label input)));
               ("createdByClientId", match ci_createdByClientId input with
                                     | Some (JStr c) => if bool_decide (c = "") then JNull else JStr c
                                     | _ => JNull end)] |}.

(** The file afterwards and the one-time reply, the public view with the secret;
    [None] is a throw of the write. *)
Definition createPairingSession (f : option json) (input : CreatePairingInput) (secret idhex fphex : string) (sweepAt stamp : Z) (written : bool)
  : option json * option (PublicPairingSession * string) :=
  let record := new_session input secret idhex fphex stamp in
  if written then (Some (sessions_json (sweep sweepAt (load_sessions f) ++ [record])), Some (publicView record, secret)) else (f, None).

Definition pending (stamp : Z) (r : PairingSessionRecord) : bool :=
  bool_decide (usedAt r = None) && bool_decide (cancelledAt r = None) && date_after other (JStr (deadline r)) stamp.

Definition listPendingSessions (f : option json) (stamp : Z) : list PublicPairingSession :=
  publicView <$> filter (fun r => pending stamp r = true) (load_sessions f).

Definition hasActiveRelaySession (f : option json) (stamp : Z) : bool :=
  existsb (fun r => relayed r && pending stamp r) (load_sessions f).

Definition findSession (f : option json) (i : option json) : option PublicPairingSession :=
  match i with
  | Some (JStr i) => if bool_decide (i = "") then None else publicView <$> find_session i (load_sessions f)
  | _ => None
  end.

Definition set_cancelled (t : Z) (r : PairingSessionRecord) : PairingSessionRecord :=
  {| pairingId := pairingId r; secretHash := secretHash r; createdAt := createdAt r; deadline := deadline r; usedAt := usedAt r;
     cancelledAt := Some (toISOString t); clientId := clientId r; fingerprint := fingerprint r;
     allowedClientKinds := allowedClientKinds r; relayed := relayed r; extra := extra r |}.

(** The answer: cancelled or not, with the session; [None] is a throw of the write. *)
Definition cancelPairingSession (f : option json) (i : string) (t : Z) (written : bool)
  : option json * option (bool * option PublicPairingSession) :=
  let l := load_sessions f in
  match find_session i l with
  | None => (f, Some (false, None))
  | Some r =>
    if bool_decide (cancelledAt r <> None) || bool_decide (usedAt r <> None) then (f, Some (false, Some (publicView r)))
    else if written then (Some (sessions_json (update_session i (set_cancelled t) l)), Some (true, Some (publicView (set_cancelled t r))))
    else (f, None)
  end.

(** The guards of a redemption, up to the digest: the session, or one error for all. *)
Definition redeemable (f : option json) (input : RedeemPairingInput) (clock : RedeemClock) : option (list PairingSessionRecord * PairingSessionRecord) :=
  let i := stringOf (r_pairingId input) in
  let secret := stringOf (r_secret input) in
  if bool_decide (i = "") || bool_decide (secret = "") then None
  else
    let l := sweep (sweep_at clock) (load_sessions f) in
    match find_session i l with
    | None => None
    | Some r =>
      if bool_decide (cancelledAt r <> None) then None
      else if bool_decide (usedAt r <> None) then None
      else if date_reached other (JStr (deadline r)) (check_at clock) then None
      else if negb (includes (or_else (stringOf (r_clientKind input)) "mobile") (allowedClientKinds r)) then None
      else if negb (sameHash (sha256Hex secret) (secretHash r)) then None
      else Some (l, r)
    end.

Definition mint_input (r : PairingSessionRecord) (input : RedeemPairingInput) : CreateClientInput :=
  {| in_authMethod := Some "pairing"; in_pairingId := Some (pairingId r);
     in_dedupeKey := Some (or_else (stringOf (r_dedupeKey input)) ("pairing:" +:+ pairingId r));
     in_label := match jget "label" (extra r) with Some (JStr s) => Some s | _ => None end;
     in_fallbackLabel := Some (or_else (firstMeaningful (stringOf (r_clientLabel input)) (stringOf (r_deviceName input))) "Remote client");
     in_clientKind := Some (or_else (stringOf (r_clientKind input)) "mobile"); in_usesRelay := relayed r;
     in_deviceName := or_undefined (stringOf (r_deviceName input)); in_devicePlatform := or_undefined (stringOf (r_devicePlatform input));
     in_deviceModel := or_undefined (stringOf (r_deviceModel input)); in_appVersion := or_undefined (stringOf (r_appVersion input));
     in_expiresAt := None |}.

Definition set_used (t : Z) (c : string) (r : PairingSessionRecord) : PairingSessionRecord :=
  {| pairingId := pairingId r; secretHash := secretHash r; createdAt := createdAt r; deadline := deadline r;
     usedAt := Some (toISOString t); cancelledAt := cancelledAt r; clientId := Some c; fingerprint := fingerprint r;
     allowedClientKinds := allowedClientKinds r; relayed := relayed r; extra := extra r |}.

(** A failed write rewinds the stamp in memory; the file never had it. *)
Definition redeemPairingSession (f : option json) (s : S) (input : RedeemPairingInput) (clock : RedeemClock) (written : bool)
  : option json * S * exc RedeemError PairingRedeemOutcome :=
  match redeemable f input clock with
  | None => (f, s, Throw InvalidPairingSession)
  | Some (l, r) =>
    match mint s (mint_input r input) with
    | Throw cause => (f, s, Throw (MintFailure cause))
    | Ok (s', (c, tok)) =>
      if written then
        let r' := set_used (stamp_at clock) c r in
        (Some (sessions_json (update_session (pairingId r) (set_used (stamp_at clock) c) l)), s',
         Ok {| pairing := publicView r'; client := c; token := tok |})
      else (f, s', Throw PairingStoreFault)
    end
  end.

(** ** The redeem route *)

Definition NO_RATE_KEY : string := "no-addr".

Inductive RedeemResponse :=
| TooMany (headers : list (string * string))
| BadRequest
| ServerError
| Redeemed (outcome : PairingRedeemOutcome).

(** The members of the body; [None] is a body that is no JSON object. *)
Definition redeem_input (body : option json) : RedeemPairingInput :=
  let m k := match body with Some b => jfield k b | None => None end in
  {| r_pairingId := Some (JStr (stringOf (m "pairingId"))); r_secret := Some (JStr (stringOf (m "secret")));
     r_clientLabel := m "clientLabel"; r_clientKind := m "clientKind"; r_deviceName := m "deviceName";
     r_devicePlatform := m "devicePlatform"; r_deviceModel := m "deviceModel"; r_appVersion := m "appVersion"; r_dedupeKey := m "dedupeKey" |}.

(** The limiter reads the clock twice for the attempt and once for a failure. *)
Definition redeemPairingRoute (buckets : gmap string (list Z)) (f : option json) (s : S) (remoteAddress : option string)
    (body : option json) (attemptAt answerAt recordAt : Z) (clock : RedeemClock) (written : bool)
  : gmap string (list Z) * option json * S * RedeemResponse :=
  let input := redeem_input body in
  let i := stringOf (r_pairingId input) in
  let key := default NO_RATE_KEY remoteAddress +:+ ":" +:+ stringOf (match body with Some b => jfield "pairingId" b | None => None end) in
  let '(bs, rate) := redeem_attempt REDEEM_RATE_WINDOW_MS REDEEM_RATE_MAX_ATTEMPTS buckets key attemptAt answerAt in
  if negb (allowed rate) then (bs, f, s, TooMany (rateLimitHeaders rate))
  else if bool_decide (i = "") || bool_decide (stringOf (r_secret input) = "") then (redeem_record bs key recordAt, f, s, BadRequest)
  else
    match redeemPairingSession f s input clock written with
    | (f', s', Ok outcome) => (delete key bs, f', s', Redeemed outcome)
    | (f', s', Throw (MintFailure _)) | (f', s', Throw PairingStoreFault) => (bs, f', s', ServerError)
    | (f', s', Throw InvalidPairingSession) => (redeem_record bs key recordAt, f', s', BadRequest)
    end.

End pairing.

(** ** Sessions survive the file *)

Record session_ok (r : PairingSessionRecord) : Prop := {
  session_extra : Forall (fun kv => kv.1 ∉ session_members) (extra r);
  session_prefix : starts_with PAIRING_ID_PREFIX (pairingId r) = true;
}.

Lemma session_roundtrip r : session_ok r -> isUsableSession (session_json r) = Some r.
Proof.
  intros [He Hp]. unfold isUsableSession, session_json. jfields.
  assert (forall o, nullable_string (Some (or_null o)) = Some o) as Hn by by intros [].
  rewrite !Hn, Hp. do 10 (rewrite filter_cons_False by (intros Hx; apply Hx; repeat ((left; reflexivity) || right))).
  assert (filter (fun kv => kv.1 ∉ session_members) (extra r) = extra r) as ->; [|by destruct r].
  induction He as [|kv l Hkv Hl IH]; [done|]. by rewrite filter_cons_True, IH by done.
Qed.

Lemma loaded_sessions l : Forall session_ok l -> load_sessions (Some (sessions_json l)) = l.
Proof.
  intros H. unfold load_sessions, sessions_json. jfields. induction H as [|r l Hr Hl IH]; [done|].
  cbn [fmap list_fmap omap list_omap]. rewrite session_roundtrip by done. f_equal. exact IH.
Qed.

Lemma load_sessions_ok f : Forall session_ok (load_sessions f).
Proof.
  unfold load_sessions. destruct f as [v|]; [|constructor]. destruct (jfield "sessions" v) as [[| | | |l|]|]; try constructor.
  apply Forall_forall. intros r (w & _ & Hw)%list_elem_of_omap. unfold isUsableSession in Hw.
  repeat case_match; try done. simplify_eq. constructor; [|done]. cbn. apply Forall_forall. by intros kv [? _]%list_elem_of_filter.
Qed.

Lemma update_session_ok i f l : (forall r, session_ok r -> session_ok (f r)) -> Forall session_ok l -> Forall session_ok (update_session i f l).
Proof. intros Hf. induction 1 as [|r l Hr Hl IH]; cbn; [constructor|]. case_bool_decide; constructor; auto. Qed.

Lemma update_session_ids i f l : (forall r, pairingId (f r) = pairingId r) -> pairingId <$> update_session i f l = pairingId <$> l.
Proof. intros Hf. induction l as [|r l IH]; [done|]. cbn. case_bool_decide; cbn; [by rewrite Hf|by rewrite IH]. Qed.

Lemma update_session_spec i f l r' : NoDup (pairingId <$> l) -> r' ∈ update_session i f l ->
  exists r, r ∈ l /\ (r' = r /\ pairingId r <> i \/ r' = f r /\ pairingId r = i).
Proof.
  intros Hnd. induction l as [|r l IH]; cbn; [by intros ?%elem_of_nil|]. cbn in Hnd. apply NoDup_cons in Hnd as [Hn Hnd].
  case_bool_decide as E; intros [->|Hr]%elem_of_cons.
  - exists r. split; [by left|by right].
  - exists r'. split; [by right|]. left. split; [done|]. intros E'. apply Hn. rewrite E, <- E'. by apply list_elem_of_fmap_2.
  - exists r. split; [by left|by left].
  - destruct (IH Hnd Hr) as (x & Hx & H). exists x. split; [by right|done].
Qed.

Lemma find_session_some i l r : find_session i l = Some r -> r ∈ l /\ pairingId r = i.
Proof.
  unfold find_session. intros H. destruct (filter _ l) as [|x k] eqn:E; [done|]. cbn in H. simplify_eq.
  assert (r ∈ filter (fun r => pairingId r = i) l) as [? ?]%list_elem_of_filter by (rewrite E; left). done.
Qed.

(** ** Histories *)

Inductive POp :=
| PCreate (input : CreatePairingInput) (secret idhex fphex : string) (sweepAt stamp : Z) (written : bool)
| PCancel (i : string) (t : Z) (written : bool)
| PRedeem (input : RedeemPairingInput) (clock : RedeemClock) (written : bool).

(** What the callers were told. *)
Inductive Event :=
| Handed (i secret : string) (deadline : Z)
| Cancelled (i : string)
| Consumed (i secret : string) (now : Z)
| Nothing.

Section pairing_histories.
  Context {sha : Sha256} (other : json -> option Z).
  Context {S : Type} (mint : S -> CreateClientInput -> exc string (S * (string * string))).

Definition pstep (st : option json * S) (op : POp) : (option json * S) * Event :=
  let '(f, s) := st in
  match op with
  | PCreate input secret idhex fphex sweepAt stamp w =>
    match createPairingSession other f input secret idhex fphex sweepAt stamp w with
    | (f', Some _) => ((f', s), Handed (PAIRING_ID_PREFIX +:+ idhex) secret (stamp + PAIRING_TTL_MS))
    | (f', None) => ((f', s), Nothing)
    end
  | PCancel i t w =>
    match cancelPairingSession f i t w with
    | (f', Some (true, _)) => ((f', s), Cancelled i)
    | (f', _) => ((f', s), Nothing)
    end
  | PRedeem input clock w =>
    match redeemPairingSession other mint f s input clock w with
    | (f', s', Ok out) => ((f', s'), Consumed (pub_id (pairing out)) (stringOf (r_secret input)) (check_at clock))
    | (f', s', Throw _) => ((f', s'), Nothing)
    end
  end.

Fixpoint pexecute (st : option json * S) (ops : list POp) : (option json * S) * list Event :=
  match ops with
  | [] => (st, [])
  | op :: ops => let '(st', e) := pstep st op in let '(st'', es) := pexecute st' ops in (st'', e :: es)
  end.

Definition handed_id (e : Event) : option string := match e with Handed i _ _ => Some i | _ => None end.
Definition consumed_id (e : Event) : option string := match e with Consumed i _ _ => Some i | _ => None end.
Definition ended_id (e : Event) : option string := match e with Consumed i _ _ | Cancelled i => Some i | _ => None end.

(** What the file knows about what was handed out. *)
Record grants_ok (es : list Event) (f : option json) : Prop := {
  grants_ids : NoDup (pairingId <$> load_sessions f);
  grants_handed : forall r, r ∈ load_sessions f -> exists sec dl, Handed (pairingId r) sec dl ∈ es /\ secretHash r = sha256Hex sec /\ deadline r = toISOString dl;
  grants_unused : forall r, r ∈ load_sessions f -> usedAt r = None -> pairingId r ∉ omap consumed_id es;
  grants_uncancelled : forall r, r ∈ load_sessions f -> cancelledAt r = None -> Cancelled (pairingId r) ∉ es;
  grants_ended : forall i, i ∈ omap ended_id es -> i ∈ omap handed_id es;
}.

(** What a consumption needs to have been. *)
Definition lawful (es : list Event) (e : Event) : Prop :=
  match e with
  | Consumed i secret now =>
    (exists sec dl, Handed i sec dl ∈ es /\ sameHash (sha256Hex secret) (sha256Hex sec) = true /\ (four_digit_year dl -> (now < dl)%Z)) /\
    (i ∉ omap consumed_id es) /\ (Cancelled i ∉ es)
  | _ => True
  end.

(** The sessions of a file that was written, or was not. *)
Lemma grants_sub es e f l : grants_ok es f -> handed_id e = None -> Forall session_ok l ->
  (pairingId <$> l) `sublist_of` (pairingId <$> load_sessions f) ->
  (forall r', r' ∈ l -> exists r, r ∈ load_sessions f /\ pairingId r' = pairingId r /\ secretHash r' = secretHash r /\ deadline r' = deadline r /\
     (usedAt r' = None -> usedAt r = None /\ consumed_id e <> Some (pairingId r)) /\
     (cancelledAt r' = None -> cancelledAt r = None /\ e <> Cancelled (pairingId r))) ->
  (forall i, ended_id e = Some i -> i ∈ omap handed_id es) ->
  grants_ok (es ++ [e]) (Some (sessions_json l)).
Proof.
  intros [H1 H2 H3 H4 H5] Hh Hok Hsub Hl He. constructor; rewrite ?loaded_sessions by done.
  - by eapply sublist_NoDup.
  - intros r' Hr'. destruct (Hl r' Hr') as (r & Hr & -> & -> & -> & _). destruct (H2 r Hr) as (sec & dl & Hin & E1 & E2).
    exists sec, dl. split; [apply elem_of_app; by left|done].
  - intros r' Hr' Hu. destruct (Hl r' Hr') as (r & Hr & -> & _ & _ & Hu' & _). destruct (Hu' Hu) as [Hn Hc].
    rewrite omap_app, elem_of_app. intros [Hin|Hin]; [by apply (H3 r)|]. cbn in Hin. destruct (consumed_id e) as [j|]; [|by apply elem_of_nil in Hin].
    apply list_elem_of_singleton in Hin. by rewrite Hin in Hc.
  - intros r' Hr' Hu. destruct (Hl r' Hr') as (r & Hr & -> & _ & _ & _ & Hc'). destruct (Hc' Hu) as [Hn Hc].
    rewrite elem_of_app, list_elem_of_singleton. intros [Hin|Hin]; [by apply (H4 r)|by symmetry in Hin].
  - intros i. rewrite !omap_app, !elem_of_app. cbn. rewrite Hh. intros [Hin|Hin]; left; [by apply H5|].
    destruct (ended_id e) as [j|] eqn:Ej; [|by apply elem_of_nil in Hin]. apply list_elem_of_singleton in Hin as ->. by apply He.
Qed.

Lemma grants_same es f e : grants_ok es f -> handed_id e = None -> ended_id e = None -> grants_ok (es ++ [e]) f.
Proof.
  intros [H1 H2 H3 H4 H5] Hh He. constructor; [done|..].
  - intros r Hr. destruct (H2 r Hr) as (sec & dl & Hin & E). exists sec, dl. split; [apply elem_of_app; by left|done].
  - intros r Hr Hu. rewrite omap_app, elem_of_app. intros [Hin|Hin]; [by apply (H3 r)|].
    destruct e; try done. by apply elem_of_nil in Hin.
  - intros r Hr Hu. rewrite elem_of_app, list_elem_of_singleton. intros [Hin|Hin]; [by apply (H4 r)|by subst e].
  - intros i. rewrite !omap_app, !elem_of_app. cbn. rewrite He. intros [Hin|Hin]; [left; by apply H5|by apply elem_of_nil in Hin].
Qed.

Lemma redeemable_spec f input clock l r : redeemable other f input clock = Some (l, r) ->
  l = sweep other (sweep_at clock) (load_sessions f) /\ r ∈ l /\ cancelledAt r = None /\ usedAt r = None /\
  pairingId r = stringOf (r_pairingId input) /\ sameHash (sha256Hex (stringOf (r_secret input))) (secretHash r) = true /\
  date_reached other (JStr (deadline r)) (check_at clock) = false /\
  includes (or_else (stringOf (r_clientKind input)) "mobile") (allowedClientKinds r) = true.
Proof.
  unfold redeemable. repeat (split_test; [done|]). destruct (find_session _ _) as [x|] eqn:Ef; [|done].
  apply find_session_some in Ef as [Hx Hi]. repeat (split_test; [done|]). intros E. injection E as <- <-.
  repeat match goal with H : ~ (_ <> None) |- _ => apply dec_stable in H end. split_and!; done.
Qed.

Lemma sweep_sub t l : sweep other t l `sublist_of` l.
Proof. apply sublist_filter. Qed.

Lemma sweep_in t l r : r ∈ sweep other t l -> r ∈ l.
Proof. by intros [_ ?]%list_elem_of_filter. Qed.

Lemma new_session_ok input secret idhex fphex stamp : session_ok (new_session input secret idhex fphex stamp).
Proof.
  constructor.
  - cbn [extra new_session]. repeat constructor; cbn [fst]; by apply (bool_decide_unpack _).
  - cbn. by destruct idhex.
Qed.

Lemma create_grants es f input secret idhex fphex sweepAt stamp :
  grants_ok es f -> (PAIRING_ID_PREFIX +:+ idhex) ∉ omap handed_id es ->
  grants_ok (es ++ [Handed (PAIRING_ID_PREFIX +:+ idhex) secret (stamp + PAIRING_TTL_MS)])
    (Some (sessions_json (sweep other sweepAt (load_sessions f) ++ [new_session input secret idhex fphex stamp]))).
Proof.
  intros [H1 H2 H3 H4 H5] Hfresh. set (new := new_session input secret idhex fphex stamp).
  assert (pairingId new = PAIRING_ID_PREFIX +:+ idhex) as Hid by done. rewrite <- Hid in *.
  assert (Forall session_ok (sweep other sweepAt (load_sessions f) ++ [new])) as Hok.
  { apply Forall_app. split; [apply Forall_filter_keep, load_sessions_ok|]. constructor; [apply new_session_ok|constructor]. }
  assert (forall i, i ∈ omap ended_id es -> i <> pairingId new) as Hne by (intros i Hi ->; by apply Hfresh, H5).
  assert (forall r, r ∈ sweep other sweepAt (load_sessions f) ++ [new] -> r ∈ load_sessions f \/ r = new) as Hin.
  { intros r [Hr|Hr]%elem_of_app; [left; by eapply sweep_in|right; by apply list_elem_of_singleton in Hr]. }
  constructor; rewrite ?loaded_sessions by done.
  - rewrite fmap_app. apply NoDup_app. split_and!; [|intros i (r & -> & Hr)%list_elem_of_fmap|apply NoDup_singleton].
    + eapply sublist_NoDup; [exact H1|]. apply fmap_sublist, sweep_sub.
    + intros E%list_elem_of_singleton. apply Hfresh. destruct (H2 r (sweep_in _ _ _ Hr)) as (sec & dl & He & _).
      rewrite <- E. apply list_elem_of_omap. by eexists.
  - intros r [Hr| ->]%Hin.
    + destruct (H2 r Hr) as (sec & dl & He & E). exists sec, dl. split; [apply elem_of_app; by left|done].
    + exists secret, (stamp + PAIRING_TTL_MS)%Z. split; [apply elem_of_app; right; left|done].
  - intros r [Hr| ->]%Hin Hu; rewrite omap_app, elem_of_app; intros [Hc|Hc]; try by apply elem_of_nil in Hc.
    + by apply (H3 r).
    + apply (Hne (pairingId new)); [|done]. apply list_elem_of_omap in Hc as (e & He & Ee). apply list_elem_of_omap. exists e.
      split; [done|]. by destruct e.
  - intros r [Hr| ->]%Hin Hu; rewrite elem_of_app, list_elem_of_singleton; intros [Hc|Hc]; try done.
    + by apply (H4 r).
    + apply (Hne (pairingId new)); [|done]. apply list_elem_of_omap. by eexists.
  - intros i. rewrite !omap_app, !elem_of_app. intros [Hi|Hi]; [left; by apply H5|by apply elem_of_nil in Hi].
Qed.

(** A session that is changed in place. *)
Lemma update_grants es e f l i g : grants_ok es f -> handed_id e = None -> ended_id e = Some i ->
  l `sublist_of` load_sessions f -> i ∈ pairingId <$> l ->
  (forall r, session_ok r -> session_ok (g r)) ->
  (forall r, pairingId (g r) = pairingId r /\ secretHash (g r) = secretHash r /\ deadline (g r) = deadline r /\
     (usedAt (g r) = None -> usedAt r = None /\ consumed_id e = None) /\ (cancelledAt (g r) = None -> cancelledAt r = None /\ e <> Cancelled i)) ->
  grants_ok (es ++ [e]) (Some (sessions_json (update_session i g l))).
Proof.
  intros H Hh He Hsub Hi Hok Hg.
  assert (NoDup (pairingId <$> l)) as Hnd by (eapply sublist_NoDup; [apply H|]; by apply fmap_sublist).
  assert (forall r, r ∈ l -> r ∈ load_sessions f) as Hin by (intros r ?; by eapply elem_of_sublist).
  apply (grants_sub es e f); [done|done| | | |].
  - apply update_session_ok; [done|]. apply Forall_forall. intros r Hr. pose proof (load_sessions_ok f) as Hf. rewrite Forall_forall in Hf. by apply Hf, Hin.
  - rewrite update_session_ids by (intros r; apply Hg). by apply fmap_sublist.
  - intros r' Hr'. apply update_session_spec in Hr' as (r & Hr & [[-> Hne]|[-> E]]); [| |done].
    + exists r. split_and!; [by apply Hin|done..| |].
      * intros Hu. split; [done|]. intros Ec. destruct e; cbn in *; congruence.
      * intros Hu. split; [done|]. intros ->. cbn in He. congruence.
    + destruct (Hg r) as (E1 & E2 & E3 & E4 & E5). exists r. split_and!; [by apply Hin|done..| |].
      * intros Hu. destruct (E4 Hu) as [? ->]. done.
      * intros Hc. rewrite E. by apply E5.
  - intros j Hj. assert (j = i) as -> by congruence. apply list_elem_of_fmap in Hi as (r & -> & Hr).
    destruct (grants_handed _ _ H r (Hin r Hr)) as (sec & dl & Hhand & _). apply list_elem_of_omap. by eexists.
Qed.

Lemma pstep_grants es st op st' e :
  grants_ok es st.1 -> pstep st op = (st', e) -> (forall i, handed_id e = Some i -> i ∉ omap handed_id es) ->
  grants_ok (es ++ [e]) st'.1 /\ lawful es e.
Proof.
  destruct st as [f s]. cbn [fst]. intros H. destruct op as [input secret idhex fphex sweepAt stamp w|i t w|input clock w]; cbn [pstep].
  - unfold createPairingSession. destruct w; intros E Hfresh; simplify_eq; (split; [|done]).
    + apply create_grants; [done|]. by apply Hfresh.
    + by apply grants_same.
  - unfold cancelPairingSession. destruct (find_session i (load_sessions f)) as [r|] eqn:Ef.
    2: { intros E _. simplify_eq. split; [by apply grants_same|done]. }
    apply find_session_some in Ef as [Hr <-].
    destruct (bool_decide _ || bool_decide _); [intros E _; simplify_eq; split; [by apply grants_same|done]|].
    destruct w; intros E _; simplify_eq; (split; [|done]); [|by apply grants_same].
    apply (update_grants es (Cancelled (pairingId r)) f (load_sessions f)); try done; [by apply list_elem_of_fmap_2|].
    intros x []. by constructor.
  - unfold redeemPairingSession. destruct (redeemable other f input clock) as [[l r]|] eqn:Er.
    2: { intros E _. simplify_eq. split; [by apply grants_same|done]. }
    apply redeemable_spec in Er as (-> & Hr & Hc & Hu & Hi & Hhash & Hdl & _). destruct (mint s (mint_input r input)) as [[s' [c tok]]|cause].
    2: { intros E _. simplify_eq. split; [by apply grants_same|done]. }
    destruct w; intros E _; simplify_eq; [|split; [by apply grants_same|done]].
    pose proof (sweep_in _ _ _ Hr) as Hr'. split.
    + apply (update_grants es (Consumed (pairingId r) _ _) f (sweep other (sweep_at clock) (load_sessions f))); try done;
        [apply sweep_sub|by apply list_elem_of_fmap_2|]. intros x []. by constructor.
    + cbn. destruct (grants_handed _ _ H r Hr') as (sec & dl & Hin & E1 & E2). split_and!.
      * exists sec, dl. rewrite <- E1. split_and!; [done|done|]. intros Hy. rewrite E2, date_reached_iso in Hdl by done.
        apply bool_decide_eq_false_1 in Hdl. lia.
      * by apply (grants_unused _ _ H).
      * by apply (grants_uncancelled _ _ H).
Qed.

Lemma pexecute_grants es st ops st' es' :
  grants_ok es st.1 -> pexecute st ops = (st', es') -> NoDup (omap handed_id (es ++ es')) ->
  forall e1 e e2, es' = e1 ++ e :: e2 -> lawful (es ++ e1) e.
Proof.
  revert es st st' es'. induction ops as [|op ops IH]; intros es st st' es' H E Hnd e1 e e2 Es; cbn in E.
  { simplify_eq. by destruct e1. }
  destruct (pstep st op) as [st1 ev] eqn:Ep. destruct (pexecute st1 ops) as [st2 es2] eqn:Ex. injection E as <- <-.
  destruct (pstep_grants es st op st1 ev H Ep) as [H' Hl].
  { intros i Hi. rewrite omap_app in Hnd. apply NoDup_app in Hnd as (_ & Hdis & _). intros Hin. apply (Hdis i Hin). apply list_elem_of_omap. exists ev. split; [left|done]. }
  destruct e1 as [|e0 e1]; cbn in Es; simplify_eq; [by rewrite app_nil_r|].
  replace (es ++ e0 :: e1) with ((es ++ [e0]) ++ e1) by by rewrite <- app_assoc.
  apply (IH (es ++ [e0]) st1 st2 (e1 ++ e :: e2) H' Ex) with (e2 := e2); [|done]. by rewrite <- app_assoc.
Qed.

(** A pairing session is redeemed at most once. Whatever is created, cancelled and
    redeemed, one operation after the other, on one file that starts empty, with any
    writes failing and ids distinct: a redemption that succeeds spends a session
    that was handed out before with a secret of the same digest, whose deadline has
    not come, and which no earlier redemption has spent and no earlier cancellation
    has revoked. An operation reloads, changes and saves the file in one step here; two
    processes whose steps overlap are last-writer-wins, as the file's comment says, and
    may both redeem. *)
Theorem pairing_is_redeemed_at_most_once s0 ops e1 i secret now e2 :
  (pexecute (None, s0) ops).2 = e1 ++ Consumed i secret now :: e2 ->
  NoDup (omap handed_id (pexecute (None, s0) ops).2) ->
  (exists sec dl, Handed i sec dl ∈ e1 /\ sameHash (sha256Hex secret) (sha256Hex sec) = true /\ (four_digit_year dl -> (now < dl)%Z)) /\
  (i ∉ omap consumed_id e1) /\ (Cancelled i ∉ e1).
Proof.
  destruct (pexecute (None, s0) ops) as [st es] eqn:E. cbn. intros Hes Hnd.
  refine (pexecute_grants [] (None, s0) ops st es _ E Hnd e1 _ e2 Hes). constructor; cbn; try (intros ? []%elem_of_nil); try (intros ? ?%elem_of_nil; done).
  constructor.
Qed.

(** ** Failures can be retried *)

Lemma find_session_unique i l r : NoDup (pairingId <$> l) -> r ∈ l -> pairingId r = i -> find_session i l = Some r.
Proof.
  intros Hnd Hr Hi. unfold find_session. destruct (filter (fun r => pairingId r = i) l) as [|x k] eqn:E.
  - assert (r ∈ filter (fun r => pairingId r = i) l) as Hin by by apply list_elem_of_filter. rewrite E in Hin. by apply elem_of_nil in Hin.
  - assert (x ∈ filter (fun r => pairingId r = i) l) as [Hx Hxl]%list_elem_of_filter by (rewrite E; left).
    cbn. f_equal. apply (fmap_NoDup_inj pairingId l x r Hnd Hxl Hr). congruence.
Qed.

Lemma redeemable_later f input clock clock' l r dl :
  NoDup (pairingId <$> load_sessions f) -> redeemable other f input clock = Some (l, r) ->
  date_value other (JStr (deadline r)) = Some dl -> (sweep_at clock' < dl)%Z -> (check_at clock' < dl)%Z ->
  redeemable other f input clock' = Some (sweep other (sweep_at clock') (load_sessions f), r).
Proof.
  intros Hnd H Hdl Hs Hc. pose proof H as Hcopy. unfold redeemable in Hcopy.
  destruct (bool_decide (stringOf (r_pairingId input) = "") || bool_decide (stringOf (r_secret input) = "")) eqn:Ee; [done|]. clear Hcopy.
  apply redeemable_spec in H as (-> & Hr & Hcan & Hu & Hi & Hhash & _ & Hkind).
  assert (r ∈ sweep other (sweep_at clock') (load_sessions f)) as Hr'.
  { apply list_elem_of_filter. split; [|by eapply sweep_in]. rewrite Hcan, Hu. unfold date_after. rewrite Hdl. by apply bool_decide_true. }
  unfold redeemable. rewrite Ee. rewrite (find_session_unique _ _ r); [|by eapply sublist_NoDup, fmap_sublist, sweep_sub|done|done].
  rewrite Hcan, Hu, !bool_decide_false by (intros Hn; by apply Hn). unfold date_reached. rewrite Hdl, bool_decide_false by lia.
  by rewrite Hkind, Hhash.
Qed.

(** A failed redemption costs nothing but an attempt: the file stays as it was on
    every failure; the auth-class failure mints no client; and after a mint or a
    write failure the same request, made again before the deadline with a mint and
    a write that succeed, is redeemed. *)
Theorem failed_redemption_is_retryable f s input clock w f1 s1 e :
  NoDup (pairingId <$> load_sessions f) ->
  redeemPairingSession other mint f s input clock w = (f1, s1, Throw e) ->
  f1 = f /\ (e = InvalidPairingSession -> s1 = s) /\
  (e <> InvalidPairingSession -> exists r, r ∈ load_sessions f /\ pairingId r = stringOf (r_pairingId input) /\
     forall dl clock' s2 s3 c tok, date_value other (JStr (deadline r)) = Some dl -> (sweep_at clock' < dl)%Z -> (check_at clock' < dl)%Z ->
       mint s2 (mint_input r input) = Ok (s3, (c, tok)) ->
       exists f2 out, redeemPairingSession other mint f s2 input clock' true = (f2, s3, Ok out) /\ client out = c /\ token out = tok).
Proof.
  intros Hnd. unfold redeemPairingSession at 1. destruct (redeemable other f input clock) as [[l r]|] eqn:Er; [|intros E; by simplify_eq].
  intros E. assert (f1 = f /\ e <> InvalidPairingSession) as [-> He] by (repeat case_match; by simplify_eq).
  split; [done|]. split; [done|]. intros _. pose proof (redeemable_spec _ _ _ _ _ Er) as (-> & Hr & _ & _ & Hi & _).
  exists r. split; [by eapply sweep_in|]. split; [done|]. intros dl clock' s2 s3 c tok Hdl H1 H2 Hm.
  unfold redeemPairingSession. rewrite (redeemable_later _ _ _ clock' _ _ dl Hnd Er Hdl H1 H2), Hm. by eexists _, _.
Qed.

(** ** The route bounds guessing *)

Record Call := {
  from : option string;
  body : option json;
  attemptAt : Z;
  answerAt : Z;
  recordAt : Z;
  redeemClock : RedeemClock;
  writes : bool;
}.

Definition call_key (c : Call) : string :=
  default NO_RATE_KEY (from c) +:+ ":" +:+ stringOf (match body c with Some b => jfield "pairingId" b | None => None end).

Definition RouteState : Type := gmap string (list Z) * option json * S.

Definition answer (st : RouteState) (c : Call) : RouteState * RedeemResponse :=
  let '(bs, f, s) := st in
  redeemPairingRoute other mint bs f s (from c) (body c) (attemptAt c) (answerAt c) (recordAt c) (redeemClock c) (writes c).

Fixpoint answers (st : RouteState) (calls : list Call) : list (Call * RedeemResponse) :=
  match calls with
  | [] => []
  | c :: calls => let '(st', r) := answer st c in (c, r) :: answers st' calls
  end.

Definition is_guess (key : string) (cr : Call * RedeemResponse) : bool :=
  bool_decide (call_key cr.1 = key) && match cr.2 with BadRequest => true | _ => false end.

Definition is_success (key : string) (cr : Call * RedeemResponse) : bool :=
  bool_decide (call_key cr.1 = key) && match cr.2 with Redeemed _ => true | _ => false end.

(** What one call does to the log of a key. *)
Lemma answer_log st c key :
  let '((bs', f', s'), r) := answer st c in
  let before := log_of st.1.1 key in
  if bool_decide (call_key c = key) then
    let kept := alive REDEEM_RATE_WINDOW_MS (attemptAt c) before in
    match r with
    | BadRequest => log_of bs' key = kept ++ [recordAt c] /\ (Zlen kept < REDEEM_RATE_MAX_ATTEMPTS)%Z
    | Redeemed _ => log_of bs' key = []
    | TooMany _ | ServerError => log_of bs' key = kept
    end
  else log_of bs' key = before.
Proof.
  destruct st as [[bs f] s]. unfold answer, redeemPairingRoute. fold (call_key c).
  pose proof (redeem_attempt_spec REDEEM_RATE_WINDOW_MS REDEEM_RATE_MAX_ATTEMPTS bs (call_key c) (attemptAt c) (answerAt c)) as Hs.
  destruct (redeem_attempt _ _ bs _ _ _) as [bs1 rate]. destruct Hs as (Hother & He & Hcases). cbn [fst snd].
  assert (allowed rate = true -> Zlen (alive REDEEM_RATE_WINDOW_MS (attemptAt c) (log_of bs (call_key c))) < REDEEM_RATE_MAX_ATTEMPTS)%Z as Hal.
  { destruct Hcases as [(-> & _)|(x & l & _ & _ & -> & _)]; [done|]. intros Hx. bool_facts. lia. }
  assert (forall k, k <> call_key c -> log_of bs1 k = log_of bs k) as Hk by (intros k Hne; unfold log_of; by rewrite Hother).
  assert (forall k v m, k <> call_key c -> log_of (<[call_key c := v]> m) k = log_of m k) as Hins by (intros k v m Hne; unfold log_of; by rewrite lookup_insert_ne).
  clear Hcases. destruct (negb (allowed rate)) eqn:Ea.
  { case_bool_decide as Ek; [by rewrite <- Ek|]. by apply Hk. }
  apply negb_false_iff in Ea. specialize (Hal Ea).
  assert (forall k, log_of (redeem_record bs1 (call_key c) (recordAt c)) k = if bool_decide (call_key c = k) then log_of bs1 k ++ [recordAt c] else log_of bs1 k) as Hrec.
  { intros k. unfold redeem_record, log_of. case_bool_decide as Ek; [by rewrite Ek, lookup_insert_eq|by rewrite lookup_insert_ne]. }
  assert (forall k, log_of (delete (call_key c) bs1) k = if bool_decide (call_key c = k) then [] else log_of bs1 k) as Hdel.
  { intros k. unfold log_of. case_bool_decide as Ek; [by rewrite Ek, lookup_delete_eq|by rewrite lookup_delete_ne]. }
  destruct (bool_decide _ || bool_decide _); [|destruct (redeemPairingSession _ _ _ _ _ _ _) as [[f' s'] [out|[|cause|]]]];
    rewrite ?Hrec, ?Hdel; case_bool_decide as Ek; try (by apply Hk); subst key; rewrite ?He; done.
Qed.

(** The entries of a log from a moment on. *)
Definition since (t0 : Z) (l : list Z) : list Z := filter (fun e => t0 <= e)%Z l.

Lemma since_alive t0 t l : (t < t0 + REDEEM_RATE_WINDOW_MS)%Z -> since t0 (alive REDEEM_RATE_WINDOW_MS t l) = since t0 l.
Proof.
  intros Ht. unfold since, alive. rewrite list_filter_filter. apply list_filter_iff. intros e. lia.
Qed.

Lemma since_length t0 l : (Zlen (since t0 l) <= Zlen l)%Z.
Proof. unfold Zlen, since. pose proof (length_filter (fun e => t0 <= e)%Z l). lia. Qed.

(** Secrets cannot be guessed quickly: from any state of the limiter, while no call
    of a rate key (address and pairing id) is redeemed, at most ten calls of the key
    within any five minutes get an answer about the session; the others are turned
    away by the limiter. *)
Theorem secret_guesses_are_bounded st calls key t0 :
  (forall c, c ∈ calls -> (t0 <= recordAt c)%Z /\ (t0 <= attemptAt c < t0 + REDEEM_RATE_WINDOW_MS)%Z) ->
  (forall cr, cr ∈ answers st calls -> is_success key cr = false) ->
  (Zlen (filter (fun cr => is_guess key cr = true) (answers st calls)) <= REDEEM_RATE_MAX_ATTEMPTS)%Z.
Proof.
  intros Hin Hno.
  enough (forall n, (0 <= n <= Zlen (since t0 (log_of st.1.1 key)))%Z -> (n <= REDEEM_RATE_MAX_ATTEMPTS)%Z ->
    (n + Zlen (filter (fun cr => is_guess key cr = true) (answers st calls)) <= REDEEM_RATE_MAX_ATTEMPTS)%Z) as H.
  { apply (H 0%Z); [split; [done|apply Zlen_nonneg]|done]. }
  revert st Hin Hno. induction calls as [|c calls IH]; intros st Hin Hno n Hn Hmax; cbn [answers]; [cbn; rewrite Zlen_nil; lia|].
  cbn [answers] in Hno. destruct (answer st c) as [st' r] eqn:Ea. pose proof (answer_log st c key) as Hstep. rewrite Ea in Hstep.
  destruct st' as [[bs' f'] s']. cbn [fst snd] in *. destruct (Hin c ltac:(left)) as [Hrec Hatt].
  specialize (IH (bs', f', s') (fun c Hc => Hin c ltac:(by right)) (fun cr Hcr => Hno cr ltac:(by right))). cbn [fst] in IH.
  pose proof (since_alive t0 (attemptAt c) (log_of st.1.1 key) ltac:(lia)) as Hkept.
  specialize (Hno (c, r) ltac:(left)). unfold is_success in Hno. cbn [fst snd] in *.
  destruct (decide (call_key c = key)) as [Ek|Ek].
  2: { rewrite bool_decide_false in Hstep by done. rewrite filter_cons_False; [apply IH; [by rewrite Hstep|done]|].
       unfold is_guess. cbn [fst]. by rewrite bool_decide_false. }
  rewrite bool_decide_true in Hstep, Hno by done. cbn [andb] in Hno.
  assert (is_guess key (c, r) = match r with BadRequest => true | _ => false end) as Eg by (unfold is_guess; cbn [fst]; by rewrite bool_decide_true).
  destruct r as [h| | |out]; [|..|done].
  - rewrite filter_cons_False by by rewrite Eg. apply IH; [by rewrite Hstep, Hkept|done].
  - rewrite filter_cons_True, Zlen_cons by done. destruct Hstep as [Hlog Hlt].
    pose proof (since_length t0 (alive REDEEM_RATE_WINDOW_MS (attemptAt c) (log_of st.1.1 key))) as Hlen. rewrite Hkept in Hlen.
    assert (Zlen (since t0 (log_of bs' key)) = Zlen (since t0 (log_of st.1.1 key)) + 1)%Z as Hnew.
    { rewrite Hlog, <- Hkept. unfold since. by rewrite filter_app, filter_cons_True, filter_nil, Zlen_app, Zlen_cons, Zlen_nil by done. }
    specialize (IH (n + 1)%Z). lia.
  - rewrite filter_cons_False by by rewrite Eg. apply IH; [by rewrite Hstep, Hkept|done].
Qed.

End pairing_histories.

(** ** Pairing and the device store together *)

Section composition.
  Context {sha : Sha256} (other : json -> option Z).

(** [mintClient] of the running server: the shared client store. *)
Definition mint_client (random uuid : string) (t1 t2 : Z) (written : bool) (st : Store) (input : CreateClientInput)
  : exc string (Store * (string * string)) :=
  let '(st', (r, tok)) := createClient st input random uuid t1 t2 written in Ok (st', (id r, tok)).

(** A redemption hands out a working device token: when it succeeds on the shared
    client store, the token it answers authenticates on that store, at any time, as
    the client it answers, provided no stored client holds a token of the same
    digest; and the session in the file is marked as used by that client. *)
Theorem redeemed_token_authenticates f st input clock random uuid t1 t2 w w1 f' st' out relay now stamp w' :
  (forall x, x ∈ clients st -> holds_token (new_token random) x = false) ->
  redeemPairingSession other (mint_client random uuid t1 t2 w1) f st input clock w = (f', st', Ok out) ->
  token out = new_token random /\ (authenticateBearerToken other st' (token out) relay now stamp w').2 = Some (client out) /\
  pub_clientId (pairing out) = Some (client out) /\ pub_usedAt (pairing out) = Some (toISOString (stamp_at clock)).
Proof.
  intros Hno. unfold redeemPairingSession. destruct (redeemable other f input clock) as [[l r]|]; [|done].
  unfold mint_client. set (ci := mint_input r input).
  destruct (create_clients st ci random uuid t1 t2 w1) as (keep & c & E1 & E2 & [lbl Ec] & _ & _).
  destruct (createClient st ci random uuid t1 t2 w1) as [st1 [c1 tok]]. cbn [fst snd] in E1, E2. injection E1 as -> ->.
  destruct w; [|done]. intros E. injection E as <- <- <-. cbn [token client pairing publicView set_used pub_clientId pub_usedAt clientId usedAt].
  split; [done|]. split; [|done]. unfold authenticateBearerToken.
  assert (starts_with CLIENT_TOKEN_PREFIX (new_token random) = true) as -> by (unfold starts_with; cbn; by destruct random). cbn [negb].
  assert (holds_token (new_token random) c = true) as Hc.
  { subst c. unfold holds_token, sameHash, equalHex. cbn [tokenHash new_record]. by rewrite !bool_decide_true. }
  assert (find_client (holds_token (new_token random)) (clients st1) = Some c) as ->.
  { unfold find_client. rewrite E2, filter_app, filter_cons_True, filter_nil by done.
    assert (filter (fun x => holds_token (new_token random) x = true) (filter (fun x => keep x = true) (clients st)) = []) as ->; [|done].
    destruct (filter (fun x => holds_token (new_token random) x = true) _) as [|x k] eqn:Ef; [done|].
    assert (x ∈ filter (fun x => holds_token (new_token random) x = true) (filter (fun x => keep x = true) (clients st))) as Hx by (rewrite Ef; left).
    apply list_elem_of_filter in Hx as [Hx [_ Hin]%list_elem_of_filter]. by rewrite Hno in Hx. }
  assert (expiresAt c = None) as He by (subst c; by rewrite new_record_expires).
  replace (active c) with true by (subst c; unfold active; symmetry; by apply bool_decide_true). cbn [negb].
  unfold expired. by rewrite He.
Qed.

End composition.

(** ** Concrete histories *)

Section examples.

#[local] Instance ex_sha : Sha256 := to_hex.

Definition ex_create : POp :=
  PCreate {| ci_label := Some (JStr " Phone "); ci_allowedClientKinds := None; ci_createdByClientId := None; ci_usesRelay := None |}
    "s3cret" "00ff" "deadbeef" 1000 1000 true.

Definition ex_redeem (secret : string) : RedeemPairingInput :=
  {| r_pairingId := Some (JStr "pair_00ff"); r_secret := Some (JStr secret); r_clientLabel := None; r_clientKind := None; r_deviceName := None;
     r_devicePlatform := None; r_deviceModel := None; r_appVersion := None; r_dedupeKey := None |}.

Definition ex_clock (t : Z) : RedeemClock := {| sweep_at := t; check_at := t; stamp_at := t |}.

Definition ex_mint : Store -> CreateClientInput -> exc string (Store * (string * string)) := mint_client "AAAA" "11-11" 2000 2000 true.

Definition ex_pairing : list POp :=
  [ex_create; PRedeem (ex_redeem "wrong") (ex_clock 2000) true; PRedeem (ex_redeem "s3cret") (ex_clock 3000) true;
   PRedeem (ex_redeem "s3cret") (ex_clock 4000) true].

Lemma ex_pairing_events :
  (pexecute ex_other ex_mint (None, load None) ex_pairing).2
  = [Handed "pair_00ff" "s3cret" 601000; Nothing] ++ Consumed "pair_00ff" "s3cret" 3000 :: [Nothing].
Proof. vm_compute. reflexivity. Qed.

Lemma pairing_is_redeemed_at_most_once_witness :
  (exists sec dl, Handed "pair_00ff" sec dl ∈ [Handed "pair_00ff" "s3cret" 601000; Nothing] /\
     sameHash (to_hex "s3cret") (to_hex sec) = true /\ (four_digit_year dl -> (3000 < dl)%Z)) /\
  ("pair_00ff" ∉ omap consumed_id [Handed "pair_00ff" "s3cret" 601000; Nothing]).
Proof.
  assert (NoDup (omap handed_id (pexecute ex_other ex_mint (None, load None) ex_pairing).2)) as Hn
    by (rewrite ex_pairing_events; apply NoDup_singleton).
  pose proof (pairing_is_redeemed_at_most_once ex_other ex_mint (load None) ex_pairing _ _ _ _ _ ex_pairing_events Hn) as (H1 & H2 & _).
  split; [exact H1|exact H2].
Defined.

Definition ex_file : option json := (pexecute ex_other ex_mint (None, load None) [ex_create]).1.1.

Lemma failed_redemption_is_retryable_witness :
  let '(f1, s1, e) := redeemPairingSession ex_other ex_mint ex_file (load None) (ex_redeem "s3cret") (ex_clock 2000) false in
  f1 = ex_file /\ e = Throw PairingStoreFault /\ length (clients s1) = 1.
Proof.
  destruct (redeemPairingSession ex_other ex_mint ex_file (load None) (ex_redeem "s3cret") (ex_clock 2000) false) as [[f1 s1] e] eqn:E.
  assert (e = Throw PairingStoreFault) as He.
  { transitivity (redeemPairingSession ex_other ex_mint ex_file (load None) (ex_redeem "s3cret") (ex_clock 2000) false).2; [by rewrite E|vm_compute; reflexivity]. }
  assert (length (clients s1) = 1) as Hs.
  { transitivity (length (clients (redeemPairingSession ex_other ex_mint ex_file (load None) (ex_redeem "s3cret") (ex_clock 2000) false).1.2)); [by rewrite E|vm_compute; reflexivity]. }
  subst e.
  assert (NoDup (pairingId <$> load_sessions ex_file)) as Hn by (vm_compute; apply (bool_decide_unpack _); vm_compute; exact I).
  pose proof (failed_redemption_is_retryable ex_other ex_mint ex_file (load None) (ex_redeem "s3cret") (ex_clock 2000) false f1 s1 PairingStoreFault Hn E)
    as (Hf & _ & _).
  split; [exact Hf|]. split; [reflexivity|exact Hs].
Defined.

Definition ex_call (secret : string) (t : Z) : Call :=
  {| from := Some "10.0.0.9"; body := Some (JObj [("pairingId", JStr "pair_00ff"); ("secret", JStr secret)]); attemptAt := t; answerAt := t;
     recordAt := t; redeemClock := ex_clock t; writes := true |}.

Definition ex_calls : list Call := (fun t => ex_call "guess" t) <$> [2000; 2001; 2002; 2003; 2004; 2005; 2006; 2007; 2008; 2009; 2010]%Z.

Lemma secret_guesses_are_bounded_witness :
  let st : RouteState := (∅, ex_file, load None) in
  Zlen (filter (fun cr => is_guess "10.0.0.9:pair_00ff" cr = true) (answers ex_other ex_mint st ex_calls)) = 10%Z /\
  (Zlen (filter (fun cr => is_guess "10.0.0.9:pair_00ff" cr = true) (answers ex_other ex_mint st ex_calls)) <= REDEEM_RATE_MAX_ATTEMPTS)%Z.
Proof.
  cbv zeta. split; [vm_compute; reflexivity|].
  apply (secret_guesses_are_bounded ex_other ex_mint (∅, ex_file, load None) ex_calls "10.0.0.9:pair_00ff" 2000).
  - intros c (t & -> & Ht)%list_elem_of_fmap. unfold REDEEM_RATE_WINDOW_MS. cbn.
    repeat (apply elem_of_cons in Ht as [->|Ht]; [lia|]). by apply elem_of_nil in Ht.
  - intros cr Hcr. assert (forallb (fun cr => negb (is_success "10.0.0.9:pair_00ff" cr)) (answers ex_other ex_mint (∅, ex_file, load None) ex_calls) = true) as H
      by (vm_compute; reflexivity).
    pose proof (proj1 (forallb_forall _ _) H cr (proj1 (list_elem_of_In _ _) Hcr)) as Hn. apply negb_true_iff in Hn. exact Hn.
Defined.

Lemma redeemed_token_authenticates_witness :
  exists f' st' out,
    redeemPairingSession ex_other ex_mint ex_file (load None) (ex_redeem "s3cret") (ex_clock 2000) true = (f', st', Ok out) /\
    (authenticateBearerToken ex_other st' (token out) false 9000 9000 true).2 = Some (client out).
Proof.
  destruct (redeemPairingSession ex_other ex_mint ex_file (load None) (ex_redeem "s3cret") (ex_clock 2000) true) as [[f' st'] e] eqn:E.
  assert (exc_ok e = true) as He by (transitivity (exc_ok (redeemPairingSession ex_other ex_mint ex_file (load None) (ex_redeem "s3cret") (ex_clock 2000) true).2); [by rewrite E|vm_compute; reflexivity]).
  destruct e as [out|err]; [|discriminate He]. exists f', st', out. split; [reflexivity|].
  apply (redeemed_token_authenticates ex_other ex_file (load None) (ex_redeem "s3cret") (ex_clock 2000) "AAAA" "11-11" 2000 2000 true true f' st' out).
  - intros x Hx. change (x ∈ @nil RemoteClientRecord) in Hx. inversion Hx.
  - exact E.
Defined.

End examples.
