(* ===== verification/AuthTunnel.v ===== *)
(** Tunnel authentication (server/lib/auth/tunnel-auth.ts): the scope of a request,
    one-time bootstrap tokens of which only the newest counts, the sessions they buy,
    and their revocation when a tunnel stops or is replaced.

    Clock readings and random texts are arguments of the operations. *)

From S2P Require Import Prelude JsString JsMap JsValue JsDate AuthHash AuthLimits.

(** ** Requests *)

Inductive RequestScope := ScopeTunnel | ScopeLocal | ScopeUnknownPublic.

Definition TUNNEL_COOKIE_NAME : string := "oc_tunnel_session".
Definition TUNNEL_REDEEM_FAILURE_TEXT : string := "Connection link is invalid or expired.".

(** A host with its port dropped, in lower case; a value that is no string has none. *)
Definition normalizedHost (value : option json) : string :=
  match value with
  | Some (JStr raw) =>
    let host := toLowerCase (trim raw) in
    if bool_decide (host = "") then ""
    else if starts_with "[" host then
      match index_of "]" host with
      | None => sdrop 1 host
      | Some stop => stake (stop - 1) (sdrop 1 host)
      end
    else
      match last_index_of ":" host with
      | Some (S i) => if bool_decide (index_of ":" host = Some (S i)) then stake (S i) host else host
      | _ => host
      end
  | _ => ""
  end.

Definition isLocalHostname (host : string) : bool :=
  bool_decide (host = "localhost") || bool_decide (host = "::1") || starts_with "127." host.

(** [/^\d{1,3}$/] *)
Definition octet_shaped (s : string) : bool :=
  sall is_decimal s && (1 <=? String.length s)%nat && (String.length s <=? 3)%nat.

Definition isPrivateV4 (address : string) : bool :=
  let parts := split_on "." address in
  match parts with
  | [_; _; _; _] =>
    if negb (forallb octet_shaped parts) then false
    else
      let values := decimal_value <$> parts in
      if existsb (fun v => bool_decide (255 < v)%Z) values then false
      else match values with
           | a :: b :: _ =>
             bool_decide (a = 10)%Z || bool_decide (a = 127)%Z
             || bool_decide (a = 172 /\ 16 <= b <= 31)%Z || bool_decide (a = 192 /\ b = 168)%Z
             || bool_decide (a = 169 /\ b = 254)%Z
           | _ => false
           end
  | _ => false
  end.

Definition isPrivateAddress (raw : string) : bool :=
  if bool_decide (raw = "") then false
  else
    let address := toLowerCase raw in
    if starts_with "::ffff:" address then isPrivateV4 (sdrop 7 address)
    else if bool_decide (index_of ":" address <> None) then
      bool_decide (address = "::1") || bool_decide (address = "[::1]") || starts_with "fc" address || starts_with "fd" address
      || starts_with "fe80" address
    else isPrivateV4 address.

(** The pairs of a Cookie header; a later one of a name wins. *)
Definition parseCookieHeader (header : string) : list (string * string) :=
  foldl (fun jar part =>
    match index_of "=" part with
    | Some (S i) =>
      let name := trim (stake (S i) part) in
      if bool_decide (name = "") then jar else jset name (trim (sdrop (S (S i)) part)) jar
    | _ => jar
    end) [] (split_on ";" header).

(** The limiter key: the socket's address first. *)
Definition firstForwardedIp (forwarded : option string) (socketAddress : option string) : string :=
  let fallback := match forwarded with Some f => trim (default "" (head (split_on "," f))) | None => "" end in
  match socketAddress with
  | Some a => if bool_decide (a = "") then fallback else a
  | None => fallback
  end.

(** ** Time to live *)

Definition BOOTSTRAP_TTL_DEFAULT_MS : Z := 30 * 60000.
Definition BOOTSTRAP_TTL_MIN_MS : Z := 60000.
Definition BOOTSTRAP_TTL_MAX_MS : Z := 24 * 60 * 60000.
Definition SESSION_TTL_DEFAULT_MS : Z := 8 * 60 * 60000.
Definition SESSION_TTL_MIN_MS : Z := 5 * 60000.
Definition SESSION_TTL_MAX_MS : Z := 30 * 24 * 60 * 60000.
Definition SESSION_MAP_BUDGET : nat := 512.

Record ClampedTtl := { enabled : bool; ms : Z }.

(** A positive safe integer or the default. *)
Definition positive_or (v : option json) (d : Z) : Z :=
  match safe_int v with Some z => if bool_decide (0 < z)%Z then z else d | None => d end.

Definition clampBootstrapTtl (value : option json) : ClampedTtl :=
  match value with
  | Some JNull => {| enabled := false; ms := MAX_SAFE_INTEGER |}
  | _ => {| enabled := true; ms := Z.min BOOTSTRAP_TTL_MAX_MS (Z.max BOOTSTRAP_TTL_MIN_MS (positive_or value BOOTSTRAP_TTL_DEFAULT_MS)) |}
  end.

Definition clampSessionTtl (value : option json) : Z :=
  Z.min SESSION_TTL_MAX_MS (Z.max SESSION_TTL_MIN_MS (positive_or value SESSION_TTL_DEFAULT_MS)).

(** ** The controller *)

Record ActiveTunnel := { tunnelId : string; publicUrl : string; mode : string; host : string }.

Record BootstrapTokenRecord := {
  bt_id : string;
  bt_tunnelId : string;
  bt_tokenHash : string;
  bt_issuedAt : string;
  bt_expiresAt : option string;
  bt_usedAt : option string;
  bt_revokedAt : option string;
}.

Record TunnelSession := {
  sessionId : string;
  s_tunnelId : string;
  s_mode : string;
  s_publicUrl : string;
  s_createdAt : string;
  s_lastSeenAt : string;
  s_expiresAt : string;
  s_revokedAt : option string;
  s_revokedReason : option string;
}.

Record Controller := {
  active : option ActiveTunnel;
  bootstrap : option BootstrapTokenRecord;
  sessions : list (string * TunnelSession);
  limiter : gmap string Bucket;
  sessionTtlMs : Z;
  bootstrapTtl : ClampedTtl;
}.

(** The connect limiter of the controller, without overrides. *)
Definition connect_rate : LoginRateLimitConfig :=
  {| windowMs := 5 * 60000; maxAttempts := 20; noIpMaxAttempts := 5; lockoutMs := 10 * 60000 |}.

Definition new_controller (bootstrapTtlMs sessionTtl : option json) : Controller :=
  {| active := None; bootstrap := None; sessions := []; limiter := ∅; sessionTtlMs := clampSessionTtl sessionTtl;
     bootstrapTtl := clampBootstrapTtl bootstrapTtlMs |}.

Definition with_active (c : Controller) (a : option ActiveTunnel) (b : option BootstrapTokenRecord) : Controller :=
  {| active := a; bootstrap := b; sessions := sessions c; limiter := limiter c; sessionTtlMs := sessionTtlMs c; bootstrapTtl := bootstrapTtl c |}.

Definition with_sessions (c : Controller) (m : list (string * TunnelSession)) : Controller :=
  {| active := active c; bootstrap := bootstrap c; sessions := m; limiter := limiter c; sessionTtlMs := sessionTtlMs c; bootstrapTtl := bootstrapTtl c |}.

Definition with_limiter (c : Controller) (l : gmap string Bucket) : Controller :=
  {| active := active c; bootstrap := bootstrap c; sessions := sessions c; limiter := l; sessionTtlMs := sessionTtlMs c; bootstrapTtl := bootstrapTtl c |}.

Definition applyBootstrapTtl (c : Controller) (value : option json) : Controller :=
  {| active := active c; bootstrap := bootstrap c; sessions := sessions c; limiter := limiter c; sessionTtlMs := sessionTtlMs c;
     bootstrapTtl := clampBootstrapTtl value |}.

Definition applySessionTtl (c : Controller) (value : option json) : Controller :=
  {| active := active c; bootstrap := bootstrap c; sessions := sessions c; limiter := limiter c; sessionTtlMs := clampSessionTtl value;
     bootstrapTtl := bootstrapTtl c |}.

Definition bootstrapExpiresAt (c : Controller) : option string :=
  match bootstrap c with Some b => bt_expiresAt b | None => None end.

Definition hasLiveBootstrapToken (c : Controller) : bool :=
  match bootstrap c with Some b => bool_decide (bt_usedAt b = None) && bool_decide (bt_revokedAt b = None) | None => false end.

Definition detachActiveTunnel (c : Controller) : Controller := with_active c None None.

(** [hostname] is what [new URL(publicUrl).hostname] yields, if the URL parses. *)
Definition setActiveTunnel (c : Controller) (tid : option string) (url m random : string) (hostname : option string) : Controller :=
  let i := match tid with Some t => if bool_decide (t = "") then "tnl_" +:+ random else t | None => "tnl_" +:+ random end in
  with_active c (Some {| tunnelId := i; publicUrl := url; mode := m; host := normalizedHost (Some (JStr (default "" hostname))) |}) (bootstrap c).

Definition revoke_token (stamp : string) (b : BootstrapTokenRecord) : BootstrapTokenRecord :=
  {| bt_id := bt_id b; bt_tunnelId := bt_tunnelId b; bt_tokenHash := bt_tokenHash b; bt_issuedAt := bt_issuedAt b;
     bt_expiresAt := bt_expiresAt b; bt_usedAt := bt_usedAt b; bt_revokedAt := Some stamp |}.

Definition revoke_session (stamp reason : string) (s : TunnelSession) : TunnelSession :=
  {| sessionId := sessionId s; s_tunnelId := s_tunnelId s; s_mode := s_mode s; s_publicUrl := s_publicUrl s; s_createdAt := s_createdAt s;
     s_lastSeenAt := s_lastSeenAt s; s_expiresAt := s_expiresAt s; s_revokedAt := Some stamp; s_revokedReason := Some reason |}.

Definition revocable (tid : string) (s : TunnelSession) : bool :=
  bool_decide (s_tunnelId s = tid) && bool_decide (s_revokedAt s = None).

Definition revokeSessionsOf (m : list (string * TunnelSession)) (tid reason : string) (t : Z) : list (string * TunnelSession) * nat :=
  ((fun kv => if revocable tid kv.2 then (kv.1, revoke_session (toISOString t) reason kv.2) else kv) <$> m,
   length (filter (fun kv => revocable tid kv.2 = true) m)).

(** The counts of revoked tokens and invalidated sessions. *)
Definition clearActiveTunnel (c : Controller) (t : Z) : Controller * (nat * nat) :=
  let revoked := match bootstrap c with Some b => if bool_decide (bt_revokedAt b = None) then 1 else 0 | None => 0 end in
  let '(m, n) := revokeSessionsOf (sessions c) (match active c with Some a => tunnelId a | None => "" end) "tunnel-revoked" t in
  (with_active (with_sessions c m) None None, (revoked, n)).

Definition revokeTunnelArtifacts (c : Controller) (previous : string) (t1 t2 : Z) : Controller * (nat * nat) :=
  let matches := match bootstrap c with
                 | Some b => bool_decide (bt_tunnelId b = previous) && bool_decide (bt_revokedAt b = None)
                 | None => false
                 end in
  let '(m, n) := revokeSessionsOf (sessions c) previous "tunnel-revoked" t2 in
  (with_active (with_sessions c m) (active c) (if matches then revoke_token (toISOString t1) <$> bootstrap c else bootstrap c),
   (if matches then 1 else 0, n)).

Section controller.
  Context {sha : Sha256} (other : json -> option Z).

(** [None] is the thrown error. *)
Definition issueBootstrapToken (c : Controller) (token idhex : string) (stamp : Z) : option (Controller * (string * BootstrapTokenRecord)) :=
  match active c with
  | None => None
  | Some a =>
    let record := {| bt_id := idhex; bt_tunnelId := tunnelId a; bt_tokenHash := sha256Hex token; bt_issuedAt := toISOString stamp;
                     bt_expiresAt := if enabled (bootstrapTtl c) then Some (toISOString (stamp + ms (bootstrapTtl c))) else None;
                     bt_usedAt := None; bt_revokedAt := None |} in
    Some (with_active c (Some a) (Some record), (token, record))
  end.

Definition mark_used (stamp : string) (b : BootstrapTokenRecord) : BootstrapTokenRecord :=
  {| bt_id := bt_id b; bt_tunnelId := bt_tunnelId b; bt_tokenHash := bt_tokenHash b; bt_issuedAt := bt_issuedAt b;
     bt_expiresAt := bt_expiresAt b; bt_usedAt := Some stamp; bt_revokedAt := bt_revokedAt b |}.

(** [while (sessions.size > BUDGET) sessions.delete(oldest)] *)
Definition pruneSessions (m : list (string * TunnelSession)) : list (string * TunnelSession) :=
  drop (length m - SESSION_MAP_BUDGET) m.

(** [!Number.isFinite(expiry) || expiry <= stamp] *)
Definition bootstrap_expired (b : BootstrapTokenRecord) (stamp : Z) : bool :=
  match bt_expiresAt b with
  | Some e => match date_value other (JStr e) with Some t => bool_decide (t <= stamp)%Z | None => true end
  | None => false
  end.

Lemma bootstrap_unexpired b stamp d : bootstrap_expired b stamp = false -> bt_expiresAt b = Some (toISOString d) -> four_digit_year d -> (stamp < d)%Z.
Proof.
  unfold bootstrap_expired. intros H E Hy. rewrite E, date_value_iso in H by done. apply bool_decide_eq_false_1 in H. lia.
Qed.

(** The session of the grant; [None] is the 401. *)
Definition redeemToken (c : Controller) (token : option json) (sid : string) (stamp : Z) : Controller * option TunnelSession :=
  match active c, token, bootstrap c with
  | Some a, Some (JStr tok), Some b =>
    if bool_decide (tok = "") then (c, None)
    else if bool_decide (bt_revokedAt b <> None) || bool_decide (bt_usedAt b <> None) || bool_decide (bt_tunnelId b <> tunnelId a) then (c, None)
    else if negb (equalHex (bt_tokenHash b) (sha256Hex tok)) then (c, None)
    else if bootstrap_expired b stamp then (c, None)
    else
      let session := {| sessionId := sid; s_tunnelId := bt_tunnelId b; s_mode := mode a; s_publicUrl := publicUrl a;
                        s_createdAt := toISOString stamp; s_lastSeenAt := toISOString stamp;
                        s_expiresAt := toISOString (stamp + sessionTtlMs c); s_revokedAt := None; s_revokedReason := None |} in
      (with_active (with_sessions c (pruneSessions (jset sid session (sessions c)))) (Some a) (Some (mark_used (toISOString stamp) b)), Some session)
  | _, _, _ => (c, None)
  end.

(** The Set-Cookie of a grant. *)
Definition cookie_value (c : Controller) (session : TunnelSession) : string :=
  TUNNEL_COOKIE_NAME +:+ "=" +:+ sessionId session +:+ "; Path=/; HttpOnly; SameSite=Lax; Max-Age=" +:+ pretty (sessionTtlMs c / 1000)%Z.

Definition see_session (stamp : string) (s : TunnelSession) : TunnelSession :=
  {| sessionId := sessionId s; s_tunnelId := s_tunnelId s; s_mode := s_mode s; s_publicUrl := s_publicUrl s; s_createdAt := s_createdAt s;
     s_lastSeenAt := stamp; s_expiresAt := s_expiresAt s; s_revokedAt := s_revokedAt s; s_revokedReason := s_revokedReason s |}.

Definition sessionFromCookie (c : Controller) (cookieHeader : option string) (stamp : Z) : Controller * option TunnelSession :=
  match cookieHeader with
  | None => (c, None)
  | Some header =>
    match jget TUNNEL_COOKIE_NAME (parseCookieHeader header) with
    | None => (c, None)
    | Some sid =>
      if bool_decide (sid = "") then (c, None)
      else match jget sid (sessions c) with
           | None => (c, None)
           | Some s =>
             if bool_decide (s_revokedAt s <> None) then (c, None)
             else if date_reached other (JStr (s_expiresAt s)) stamp then (c, None)
             else match active c with
                  | None => (c, None)
                  | Some a =>
                    if bool_decide (s_tunnelId s <> tunnelId a) then (c, None)
                    else
                      let s' := see_session (toISOString stamp) s in
                      (with_sessions c (jset sid s' (sessions c)), Some s')
                  end
           end
    end
  end.

Definition requireTunnelSession (c : Controller) (cookieHeader : option string) (stamp : Z) : bool :=
  match (sessionFromCookie c cookieHeader stamp).2 with Some _ => true | None => false end.

(** The Host header, else the hostname of the URL. *)
Definition classify (c : Controller) (hostHeader : option string) (urlHostname : string) (socketAddress : option string) : RequestScope :=
  let h := normalizedHost (Some (JStr (default urlHostname hostHeader))) in
  let tunnelled := match active c with Some a => negb (bool_decide (h = "")) && bool_decide (h = host a) | None => false end in
  let localSocket := match socketAddress with None => true | Some a => isPrivateAddress a end in
  if tunnelled then ScopeTunnel
  else if isLocalHostname h && localSocket then ScopeLocal
  else match active c with None => ScopeLocal | Some _ => ScopeUnknownPublic end.

Definition attemptConnect (c : Controller) (forwarded socketAddress : option string) (stamp : Z) : Controller * option (list (string * string)) :=
  let '(l, r) := attempt connect_rate (limiter c) (firstForwardedIp forwarded socketAddress) stamp in
  (with_limiter c l, if allowed r then None else Some (("cache-control", "no-store") :: rateLimitHeaders r)).

Definition recordConnectFailure (c : Controller) (forwarded socketAddress : option string) (stamp stamp2 : Z) : Controller :=
  with_limiter c (record connect_rate (limiter c) (firstForwardedIp forwarded socketAddress) stamp stamp2).

Definition sessionList (c : Controller) : list TunnelSession := jvals (sessions c).

End controller.

(** ** Histories *)

Inductive TOp :=
| TSet (tid : option string) (url m random : string) (hostname : option string)
| TIssue (token idhex : string) (t : Z)
| TRedeem (token : option json) (sid : string) (t : Z)
| TSee (cookieHeader : option string) (t : Z)
| TClear (t : Z)
| TDetach
| TRevoke (previous : string) (t1 t2 : Z)
| TBootstrapTtl (value : option json)
| TSessionTtl (value : option json)
| TAttempt (forwarded socketAddress : option string) (t : Z)
| TFailure (forwarded socketAddress : option string) (t t2 : Z).

(** What callers were told, and what ended tokens and sessions. *)
Inductive TEvent :=
| Issued (token tid : string) (deadline : option Z)
| Connected (token sid tid : string) (now deadline : Z)
| Voided
| Revoked (tid : string)
| Seen (sid tid : string) (now : Z).

Section histories.
  Context {sha : Sha256} (other : json -> option Z).

Definition tstep (c : Controller) (op : TOp) : Controller * list TEvent :=
  match op with
  | TSet tid url m random hostname => (setActiveTunnel c tid url m random hostname, [])
  | TIssue token idhex t =>
    match issueBootstrapToken c token idhex t with
    | Some (c', (_, b)) =>
      (c', [Issued token (bt_tunnelId b) (if enabled (bootstrapTtl c) then Some (t + ms (bootstrapTtl c))%Z else None)])
    | None => (c, [])
    end
  | TRedeem token sid t =>
    match redeemToken other c token sid t with
    | (c', Some s) => (c', [Connected (match token with Some (JStr tok) => tok | _ => "" end) sid (s_tunnelId s) t (t + sessionTtlMs c)])
    | (c', None) => (c', [])
    end
  | TSee cookie t =>
    match sessionFromCookie other c cookie t with
    | (c', Some s) =>
      (c', [Seen (default "" (jget TUNNEL_COOKIE_NAME (parseCookieHeader (default "" cookie)))) (match active c with Some a => tunnelId a | None => "" end) t])
    | (c', None) => (c', [])
    end
  | TClear t => ((clearActiveTunnel c t).1, [Voided; Revoked (match active c with Some a => tunnelId a | None => "" end)])
  | TDetach => (detachActiveTunnel c, [Voided])
  | TRevoke previous t1 t2 => ((revokeTunnelArtifacts c previous t1 t2).1, [Revoked previous])
  | TBootstrapTtl v => (applyBootstrapTtl c v, [])
  | TSessionTtl v => (applySessionTtl c v, [])
  | TAttempt f a t => ((attemptConnect c f a t).1, [])
  | TFailure f a t t2 => (recordConnectFailure c f a t t2, [])
  end.

Fixpoint texecute (c : Controller) (ops : list TOp) : Controller * list TEvent :=
  match ops with
  | [] => (c, [])
  | op :: ops => let '(c1, es) := tstep c op in let '(c2, es') := texecute c1 ops in (c2, es ++ es')
  end.

(** What leaves a bootstrap token of a tunnel redeemable. *)
Definition spares_token (tid : string) (e : TEvent) : Prop :=
  match e with
  | Issued _ _ _ | Connected _ _ _ _ _ | Voided => False
  | Revoked t => t <> tid
  | Seen _ _ _ => True
  end.

(** What leaves a session alive. *)
Definition spares_session (sid tid : string) (e : TEvent) : Prop :=
  match e with
  | Revoked t => t <> tid
  | Connected _ s _ _ _ => s <> sid
  | _ => True
  end.

Definition token_alive (es : list TEvent) (b : BootstrapTokenRecord) : Prop :=
  exists before tok dl rest, es = before ++ Issued tok (bt_tunnelId b) dl :: rest /\
    bt_tokenHash b = sha256Hex tok /\ bt_expiresAt b = toISOString <$> dl /\ Forall (spares_token (bt_tunnelId b)) rest.

Definition session_alive (es : list TEvent) (sid : string) (s : TunnelSession) : Prop :=
  exists before tok now dl rest, es = before ++ Connected tok sid (s_tunnelId s) now dl :: rest /\
    s_expiresAt s = toISOString dl /\ Forall (spares_session sid (s_tunnelId s)) rest.

Record tunnel_ok (es : list TEvent) (c : Controller) : Prop := {
  tunnel_token : forall b, bootstrap c = Some b -> bt_usedAt b = None -> bt_revokedAt b = None -> token_alive es b;
  tunnel_sessions : forall sid s, jget sid (sessions c) = Some s -> s_revokedAt s = None -> session_alive es sid s;
  tunnel_map : jwf (sessions c);
  tunnel_budget : length (sessions c) <= SESSION_MAP_BUDGET;
}.

Lemma token_alive_app es b es' : token_alive es b -> Forall (spares_token (bt_tunnelId b)) es' -> token_alive (es ++ es') b.
Proof.
  intros (before & tok & dl & rest & -> & H1 & H2 & H3) H. exists before, tok, dl, (rest ++ es').
  split; [by rewrite <- app_assoc|]. split; [done|]. split; [done|]. by apply Forall_app.
Qed.

Lemma session_alive_app es sid s es' : session_alive es sid s -> Forall (spares_session sid (s_tunnelId s)) es' -> session_alive (es ++ es') sid s.
Proof.
  intros (before & tok & now & dl & rest & -> & H1 & H2) H. exists before, tok, now, dl, (rest ++ es').
  split; [by rewrite <- app_assoc|]. split; [done|]. by apply Forall_app.
Qed.

(** A step that leaves the sessions as they are. *)
Lemma tunnel_ok_app es c c' es' : tunnel_ok es c -> sessions c' = sessions c ->
  (forall b, bootstrap c' = Some b -> bt_usedAt b = None -> bt_revokedAt b = None -> token_alive (es ++ es') b) ->
  (forall sid s, jget sid (sessions c) = Some s -> s_revokedAt s = None -> Forall (spares_session sid (s_tunnelId s)) es') ->
  tunnel_ok (es ++ es') c'.
Proof.
  intros [H1 H2 H3 H4] Es Hb Hs. constructor; rewrite ?Es; [done| |done|done].
  intros sid s Hg Hr. apply session_alive_app; [by apply H2|by eapply Hs].
Qed.

Lemma tunnel_ok_quiet es c c' : tunnel_ok es c -> sessions c' = sessions c -> bootstrap c' = bootstrap c -> tunnel_ok (es ++ []) c'.
Proof. intros H Es Eb. rewrite app_nil_r. destruct H as [H1 H2 H3 H4]. by constructor; rewrite ?Es, ?Eb. Qed.

(** ** Revocation of the sessions of a tunnel *)

Lemma revoked_get sid m tid reason t :
  jget sid (revokeSessionsOf m tid reason t).1
  = (fun s => if revocable tid s then revoke_session (toISOString t) reason s else s) <$> jget sid m.
Proof.
  unfold revokeSessionsOf. cbn [fst]. induction m as [|[k s] m IH]; [done|]. cbn [fmap list_fmap jget fst snd].
  destruct (revocable tid s) eqn:E; cbn [fst snd]; (destruct (decide (sid = k)); [cbn; by rewrite E|exact IH]).
Qed.

Lemma revoked_keys m tid reason t : jkeys (revokeSessionsOf m tid reason t).1 = jkeys m.
Proof.
  unfold revokeSessionsOf, jkeys. cbn [fst]. rewrite <- list_fmap_compose. apply list_fmap_ext. intros i [k s] _. cbn.
  by destruct (revocable tid s).
Qed.

Lemma revoke_sessions_ok es c tid t c' es' :
  tunnel_ok es c -> sessions c' = (revokeSessionsOf (sessions c) tid "tunnel-revoked" t).1 ->
  Forall (fun e => forall sid tid', tid' <> tid -> spares_session sid tid' e) es' ->
  (forall b, bootstrap c' = Some b -> bt_usedAt b = None -> bt_revokedAt b = None -> token_alive (es ++ es') b) ->
  tunnel_ok (es ++ es') c'.
Proof.
  intros [H1 H2 H3 H4] Es He Hb. constructor; rewrite ?Es; [done| | |].
  - intros sid s Hg Hr. rewrite revoked_get in Hg. destruct (jget sid (sessions c)) as [s0|] eqn:E0; [|done]. cbn in Hg.
    destruct (revocable tid s0) eqn:Er; [by simplify_eq|]. simplify_eq. apply session_alive_app; [by apply H2|].
    unfold revocable in Er. rewrite Hr, (bool_decide_true (None = None)), andb_true_r in Er by done. apply bool_decide_eq_false_1 in Er.
    eapply Forall_impl; [exact He|]. auto.
  - unfold jwf. by rewrite revoked_keys.
  - pose proof (f_equal length (revoked_keys (sessions c) tid "tunnel-revoked" t)) as E. unfold jkeys in E. rewrite !length_fmap in E.
    by rewrite E.
Qed.

(** ** Pruning *)

Lemma prune_get sid (m : list (string * TunnelSession)) s : jwf m -> jget sid (pruneSessions m) = Some s -> jget sid m = Some s.
Proof.
  intros Hwf Hg. apply jget_elem; [done|]. apply jget_Some_elem in Hg. unfold pruneSessions in Hg.
  apply list_elem_of_lookup in Hg as [i Hi]. rewrite lookup_drop in Hi. by eapply list_elem_of_lookup_2.
Qed.

Lemma prune_wf (m : list (string * TunnelSession)) : jwf m -> jwf (pruneSessions m).
Proof.
  unfold jwf, jkeys, pruneSessions. intros H. rewrite fmap_drop. eapply sublist_NoDup; [exact H|]. apply sublist_drop.
Qed.

Lemma prune_length (m : list (string * TunnelSession)) : length (pruneSessions m) <= SESSION_MAP_BUDGET.
Proof. unfold pruneSessions. rewrite length_drop. lia. Qed.

(** ** Every operation keeps the books *)

(** What an event claims about the past. *)
Definition lawful (es : list TEvent) (e : TEvent) : Prop :=
  match e with
  | Connected token sid tid now _ =>
    exists before tok dl rest, es = before ++ Issued tok tid dl :: rest /\ equalHex (sha256Hex tok) (sha256Hex token) = true /\
      Forall (spares_token tid) rest /\ (forall d, dl = Some d -> four_digit_year d -> (now < d)%Z)
  | Seen sid tid now =>
    exists before tok t dl rest, es = before ++ Connected tok sid tid t dl :: rest /\
      Forall (spares_session sid tid) rest /\ (four_digit_year dl -> (now < dl)%Z)
  | _ => True
  end.

Lemma redeem_ok es c token sid t :
  tunnel_ok es c ->
  tunnel_ok (es ++ (tstep c (TRedeem token sid t)).2) (tstep c (TRedeem token sid t)).1 /\
  Forall (lawful es) (tstep c (TRedeem token sid t)).2.
Proof.
  intros H. cbn [tstep]. unfold redeemToken.
  assert (tunnel_ok (es ++ []) c /\ Forall (lawful es) []) as Hsame by (split; [by apply (tunnel_ok_quiet es c c)|constructor]).
  destruct (active c) as [a|] eqn:Ea; [|done]. destruct token as [[| | |tok| |]|]; try done.
  destruct (bootstrap c) as [b|] eqn:Eb; [|done]. destruct (bool_decide (tok = "")); [done|].
  destruct (bool_decide _ || bool_decide _ || bool_decide _) eqn:Eg; [done|].
  destruct (negb (equalHex _ _)) eqn:Eh; [done|]. destruct (bootstrap_expired other b t) eqn:Ee; [done|].
  cbn [fst snd]. bool_facts. repeat match goal with Hx : ~ (_ <> _) |- _ => apply dec_stable in Hx end.
  destruct (tunnel_token _ _ H b Eb) as (before & tok0 & dl & rest & -> & E1 & E2 & E3); [done..|].
  match goal with Hx : bt_tunnelId b = tunnelId a |- _ => rename Hx into Et end. split.
  - constructor; cbn [bootstrap sessions with_active with_sessions].
    + intros b' Hb. by simplify_eq.
    + intros sid' s Hg Hr. apply prune_get in Hg; [|apply jwf_set, H]. destruct (decide (sid' = sid)) as [->|Hne].
      * rewrite jget_set_eq in Hg. simplify_eq. eexists _, tok, t, (t + sessionTtlMs c)%Z, []. cbn [s_tunnelId s_expiresAt]. split_and!; [done|done|constructor].
      * rewrite jget_set_ne in Hg by done. apply session_alive_app; [by apply (tunnel_sessions _ _ H)|]. constructor; [cbn; congruence|constructor].
    + apply prune_wf, jwf_set, H.
    + apply prune_length.
  - constructor; [|constructor]. exists before, tok0, dl, rest. cbn [s_tunnelId]. split_and!; [done|by rewrite <- E1|done|].
    intros d -> Hy. by apply (bootstrap_unexpired other b).
Qed.

Lemma see_ok es c cookie t :
  tunnel_ok es c -> tunnel_ok (es ++ (tstep c (TSee cookie t)).2) (tstep c (TSee cookie t)).1 /\ Forall (lawful es) (tstep c (TSee cookie t)).2.
Proof.
  intros H. cbn [tstep]. unfold sessionFromCookie.
  assert (tunnel_ok (es ++ []) c /\ Forall (lawful es) []) as Hsame by (split; [by apply (tunnel_ok_quiet es c c)|constructor]).
  destruct cookie as [header|]; [|done]. cbn [default]. unfold from_option, id. destruct (jget TUNNEL_COOKIE_NAME _) as [sid|]; [|done].
  destruct (bool_decide (sid = "")); [done|]. destruct (jget sid (sessions c)) as [s|] eqn:Es; [|done].
  destruct (bool_decide (s_revokedAt s <> None)) eqn:Er; [done|]. destruct (date_reached other _ t) eqn:Ed; [done|].
  destruct (active c) as [a|] eqn:Ea; [|done]. destruct (bool_decide (s_tunnelId s <> tunnelId a)) eqn:Et; [done|].
  bool_facts. apply dec_stable in Er, Et. cbn [fst snd]. split.
  - constructor; cbn [bootstrap sessions with_sessions].
    + intros b Hb Hu Hr. apply token_alive_app; [by apply (tunnel_token _ _ H)|]. by repeat constructor.
    + intros sid' s' Hg Hr'. destruct (decide (sid' = sid)) as [->|Hne].
      * rewrite jget_set_eq in Hg. simplify_eq. apply (session_alive_app es sid s); [by apply (tunnel_sessions _ _ H)|by repeat constructor].
      * rewrite jget_set_ne in Hg by done. apply session_alive_app; [by apply (tunnel_sessions _ _ H)|by repeat constructor].
    + apply jwf_set, H.
    + assert (jkeys (jset sid (see_session (toISOString t) s) (sessions c)) = jkeys (sessions c)) as E.
      { apply jkeys_set_in. apply jget_Some_elem in Es. by apply (list_elem_of_fmap_2 fst) in Es. }
      apply (f_equal length) in E. unfold jkeys in E. rewrite !length_fmap in E. rewrite E. apply H.
  - constructor; [|constructor]. destruct (tunnel_sessions _ _ H sid s Es Er) as (before & tok & now & dl & rest & -> & E1 & E2).
    exists before, tok, now, dl, rest. rewrite <- Et. split_and!; [done|done|]. intros Hy. rewrite E1, date_reached_iso in Ed by done.
    apply bool_decide_eq_false_1 in Ed. lia.
Qed.

Lemma tstep_ok es c op : tunnel_ok es c -> tunnel_ok (es ++ (tstep c op).2) (tstep c op).1 /\ Forall (lawful es) (tstep c op).2.
Proof.
  intros H. destruct op as [tid url m random hostname|token idhex t|token sid t|cookie t|t| |previous t1 t2|v|v|f a t|f a t t2];
    try (by apply redeem_ok); try (by apply see_ok);
    try (cbn [tstep fst snd]; split; [by apply (tunnel_ok_quiet es c)|constructor]).
  - cbn [tstep]. unfold issueBootstrapToken. destruct (active c) as [a|] eqn:Ea; cbn [fst snd].
    2: { split; [by apply (tunnel_ok_quiet es c)|constructor]. }
    split; [|by repeat constructor]. apply (tunnel_ok_app es c); [done|done| |by repeat constructor].
    intros b Hb _ _. cbn in Hb. simplify_eq. exists es, token, (if enabled (bootstrapTtl c) then Some (t + ms (bootstrapTtl c))%Z else None), [].
    cbn. split_and!; [done|done|by destruct (enabled (bootstrapTtl c))|constructor].
  - cbn [tstep fst snd]. split; [|by repeat constructor]. eapply revoke_sessions_ok; [done|done|repeat constructor; cbn; auto|done].
  - cbn [tstep fst snd]. split; [|by repeat constructor]. apply (tunnel_ok_app es c); [done..|by repeat constructor].
  - cbn [tstep fst snd]. split; [|by repeat constructor]. eapply revoke_sessions_ok; [done|done|repeat constructor; cbn; auto|].
    intros b. cbn. destruct (bootstrap c) as [b0|] eqn:Eb; [|done].
    destruct (bool_decide (bt_tunnelId b0 = previous) && _) eqn:Em; cbn; intros Hb Hu Hr; simplify_eq.
    apply token_alive_app; [by apply (tunnel_token _ _ H)|]. repeat constructor. cbn. intros ->.
    by rewrite Hr, !bool_decide_true in Em by done.
  - cbn [tstep]. unfold attemptConnect. destruct (attempt _ _ _ _) as [l r]. split; [by apply (tunnel_ok_quiet es c)|constructor].
Qed.

Lemma tstep_events c op : length (tstep c op).2 <= 1 \/ Forall (fun e => forall es, lawful es e) (tstep c op).2.
Proof.
  destruct op as [tid url m random hostname|token idhex t|token sid t|cookie t|t| |previous t1 t2|v|v|f a t|f a t t2]; cbn [tstep];
    try (destruct (redeemToken _ _ _ _ _) as [? []]); try (destruct (sessionFromCookie _ _ _ _) as [? []]);
    try (destruct (issueBootstrapToken _ _ _ _) as [[? [? ?]]|]); cbn [fst snd length]; try (left; lia); right; by repeat constructor.
Qed.

Lemma texecute_ok es c ops : tunnel_ok es c ->
  tunnel_ok (es ++ (texecute c ops).2) (texecute c ops).1 /\
  forall e1 e e2, (texecute c ops).2 = e1 ++ e :: e2 -> lawful (es ++ e1) e.
Proof.
  revert es c. induction ops as [|op ops IH]; intros es c H; cbn [texecute].
  { cbn. rewrite app_nil_r. split; [done|]. by intros []. }
  destruct (tstep_ok es c op H) as [H1 Hl]. pose proof (tstep_events c op) as Hlen. destruct (tstep c op) as [c1 es1] eqn:E1. cbn [fst snd] in *.
  destruct (IH _ _ H1) as [H2 Hl2]. destruct (texecute c1 ops) as [c2 es2] eqn:E2. cbn [fst snd] in *. split; [by rewrite app_assoc|].
  intros e1 e e2 E. apply app_eq_app in E as (l & [[Ea Eb]|[Ea Eb]]).
  - destruct l as [|x l]; cbn in Eb.
    + rewrite app_nil_r in Ea. subst es1. specialize (Hl2 [] e e2). rewrite app_nil_r in Hl2. by apply Hl2.
    + injection Eb as <- Eb. subst es1. destruct Hlen as [Hlen|Hall]; [|rewrite Forall_forall in Hall; apply Hall, elem_of_app; right; left].
      rewrite length_app in Hlen. cbn in Hlen. destruct e1 as [|? ?]; [|cbn in Hlen; lia]. rewrite app_nil_r.
      rewrite Forall_forall in Hl. apply Hl. left.
  - subst e1. rewrite app_assoc. apply (Hl2 l e e2). done.
Qed.

Lemma tunnel_ok_new b s : tunnel_ok [] (new_controller b s).
Proof. constructor; cbn; [done|done|constructor|lia]. Qed.

(** A tunnel is entered with its newest live token only. Whatever was issued,
    redeemed, activated, cleared, replaced and configured before: a connect that
    succeeds was made with a token of the same digest as the last one issued, which
    was issued for the tunnel that is active now, before its deadline if it has one,
    and since whose issue no token was issued or redeemed, and the tunnel neither
    cleared, detached nor revoked. *)
Theorem connect_needs_the_newest_live_token b s ops e1 token sid tid now dl e2 :
  (texecute (new_controller b s) ops).2 = e1 ++ Connected token sid tid now dl :: e2 ->
  exists before tok d rest, e1 = before ++ Issued tok tid d :: rest /\ equalHex (sha256Hex tok) (sha256Hex token) = true /\
    Forall (spares_token tid) rest /\ (forall t, d = Some t -> four_digit_year t -> (now < t)%Z).
Proof. intros E. exact (proj2 (texecute_ok [] _ ops (tunnel_ok_new b s)) e1 _ e2 E). Qed.

(** A tunnel session is honoured only while it lives: a cookie that is accepted
    names a session that a connect opened, for the tunnel that is active now, whose
    end has not come, and whose tunnel has not been cleared or revoked since. *)
Theorem seen_session_was_opened_and_lives b s ops e1 sid tid now e2 :
  (texecute (new_controller b s) ops).2 = e1 ++ Seen sid tid now :: e2 ->
  exists before tok t dl rest, e1 = before ++ Connected tok sid tid t dl :: rest /\
    Forall (spares_session sid tid) rest /\ (four_digit_year dl -> (now < dl)%Z).
Proof. intros E. exact (proj2 (texecute_ok [] _ ops (tunnel_ok_new b s)) e1 _ e2 E). Qed.

(** The session map never outgrows its budget. *)
Lemma session_map_bounded b s ops : length (sessions (texecute (new_controller b s) ops).1) <= SESSION_MAP_BUDGET.
Proof. apply (texecute_ok [] _ ops (tunnel_ok_new b s)). Qed.

End histories.

(** ** Scopes *)

(** The dotted text of an address. *)
Definition dotted (a b c d : Z) : string := pretty a +:+ "." +:+ pretty b +:+ "." +:+ pretty c +:+ "." +:+ pretty d.

Definition private_v4 (a b : Z) : Prop :=
  a = 10%Z \/ a = 127%Z \/ (a = 172 /\ 16 <= b <= 31)%Z \/ (a = 192 /\ b = 168)%Z \/ (a = 169 /\ b = 254)%Z.

Definition octets : list Z := Z.of_nat <$> seq 0 256.

Definition octet_ok (v : Z) : bool :=
  lacks "." (pretty v) && octet_shaped (pretty v) && bool_decide (decimal_value (pretty v) = v).

Lemma octet_text v : (0 <= v <= 255)%Z -> lacks "." (pretty v) = true /\ octet_shaped (pretty v) = true /\ decimal_value (pretty v) = v.
Proof.
  intros Hv. assert (octet_ok v = true) as H.
  { assert (forallb octet_ok octets = true) as Hall by (vm_compute; reflexivity). rewrite forallb_forall in Hall. apply Hall.
    apply list_elem_of_In, list_elem_of_fmap. exists (Z.to_nat v). split; [lia|]. apply elem_of_seq. lia. }
  unfold octet_ok in H. by bool_facts.
Qed.

Lemma private_dotted a b c d : (0 <= a <= 255)%Z -> (0 <= b <= 255)%Z -> (0 <= c <= 255)%Z -> (0 <= d <= 255)%Z ->
  isPrivateV4 (dotted a b c d) = true <-> private_v4 a b.
Proof.
  intros Ha Hb Hc Hd. destruct (octet_text a Ha) as (La & Sa & Va), (octet_text b Hb) as (Lb & Sb & Vb),
    (octet_text c Hc) as (Lc & Sc & Vc), (octet_text d Hd) as (Ld & Sd & Vd).
  unfold isPrivateV4, dotted. assert (forall x, "." +:+ x = String "." x) as Hdot by done. rewrite !Hdot, !split_on_app by done. rewrite split_on_last by done.
  cbn [forallb fmap list_fmap existsb]. rewrite Sa, Sb, Sc, Sd, Va, Vb, Vc, Vd. cbn [andb negb orb].
  rewrite !(bool_decide_false (255 < _)%Z) by lia. cbn [orb]. unfold private_v4. rewrite !orb_true_iff, !bool_decide_eq_true. lia.
Qed.

(** A request is never taken for local by its looks. A request whose host is the
    active tunnel's is a tunnel request from whatever socket; while a tunnel is
    active a request is local only if its host is a local name and its socket is
    private or unknown; and a dotted socket address, alone or mapped into IPv6, is
    private exactly when it lies in 10/8, 127/8, 172.16/12, 192.168/16 or
    169.254/16. *)
Theorem scope_of_a_request ctl (hostHeader : option string) url socket a b c d :
  let h := normalizedHost (Some (JStr (default url hostHeader))) in
  (forall t, active ctl = Some t -> h = host t -> h <> "" -> classify ctl hostHeader url socket = ScopeTunnel) /\
  (active ctl <> None -> classify ctl hostHeader url socket = ScopeLocal ->
     isLocalHostname h = true /\ (forall s, socket = Some s -> isPrivateAddress s = true)) /\
  ((0 <= a <= 255)%Z -> (0 <= b <= 255)%Z -> (0 <= c <= 255)%Z -> (0 <= d <= 255)%Z ->
     (isPrivateV4 (dotted a b c d) = true <-> private_v4 a b)).
Proof.
  cbv zeta. set (h := normalizedHost _). split_and!.
  - intros t Ht Eh Hn. unfold classify. rewrite Ht. fold h. rewrite (bool_decide_false (h = "")), (bool_decide_true (h = host t)) by done. done.
  - intros Ha. unfold classify. fold h. destruct (active ctl) as [t|]; [|done].
    destruct (negb _ && _); [done|]. destruct (isLocalHostname h && _) eqn:E; [|done]. intros _.
    apply andb_true_iff in E as [E1 E2]. split; [done|]. by intros s ->.
  - apply private_dotted.
Qed.

(** A name that merely begins like a loopback address counts as a local one. *)
Lemma loopback_prefix_is_a_local_name : isLocalHostname (normalizedHost (Some (JStr "127.evil.example:8080"))) = true.
Proof. vm_compute. reflexivity. Qed.

(** ** Concrete histories *)

Section examples.

#[local] Instance ex_sha : Sha256 := to_hex.

Definition ex_other (v : json) : option Z := None.

Definition ex_tunnel : list TOp :=
  [TSet (Some "t1") "https://x.example" "quick" "" (Some "x.example"); TIssue "old" "00" 1000; TIssue "new" "01" 2000;
   TRedeem (Some (JStr "old")) "s0" 3000; TRedeem (Some (JStr "new")) "s1" 4000; TRedeem (Some (JStr "new")) "s2" 5000;
   TSee (Some "a=b; oc_tunnel_session=s1") 6000; TClear 7000; TSee (Some "oc_tunnel_session=s1") 8000].

Lemma ex_tunnel_events :
  (texecute ex_other (new_controller None None) ex_tunnel).2
  = [Issued "old" "t1" (Some 1801000); Issued "new" "t1" (Some 1802000); Connected "new" "s1" "t1" 4000 28804000; Seen "s1" "t1" 6000;
     Voided; Revoked "t1"]%Z.
Proof. vm_compute. reflexivity. Qed.

Lemma connect_needs_the_newest_live_token_witness :
  exists before tok d rest, [Issued "old" "t1" (Some 1801000); Issued "new" "t1" (Some 1802000)]%Z = before ++ Issued tok "t1" d :: rest /\
    equalHex (to_hex tok) (to_hex "new") = true.
Proof.
  destruct (connect_needs_the_newest_live_token ex_other None None ex_tunnel
    [Issued "old" "t1" (Some 1801000); Issued "new" "t1" (Some 1802000)]%Z "new" "s1" "t1" 4000 28804000
    [Seen "s1" "t1" 6000; Voided; Revoked "t1"]%Z ex_tunnel_events) as (before & tok & d & rest & E & Eh & _).
  exists before, tok, d, rest. split; [exact E|exact Eh].
Defined.

Lemma seen_session_was_opened_and_lives_witness :
  exists before tok t dl rest,
    [Issued "old" "t1" (Some 1801000); Issued "new" "t1" (Some 1802000); Connected "new" "s1" "t1" 4000 28804000]%Z
    = before ++ Connected tok "s1" "t1" t dl :: rest.
Proof.
  destruct (seen_session_was_opened_and_lives ex_other None None ex_tunnel
    [Issued "old" "t1" (Some 1801000); Issued "new" "t1" (Some 1802000); Connected "new" "s1" "t1" 4000 28804000]%Z "s1" "t1" 6000
    [Voided; Revoked "t1"]%Z ex_tunnel_events) as (before & tok & t & dl & rest & E & _).
  exists before, tok, t, dl, rest. exact E.
Defined.

End examples.
