(* ===== verification/AuthJwt.v ===== *)
(** UI session tokens (server/lib/auth/jwt.ts): the signed token, its verification,
    and the secret behind it with its sources and rotation.

    base64url, HMAC-SHA256 and the JSON text are the interface [TokenCodec]; its laws
    are what the theorems need of them. *)

From S2P Require Import Prelude JsString JsMap JsValue AuthHash.

Definition SESSION_TYPE : string := "ui-session".
Definition TOKEN_MAX_CHARS : nat := 4096.

Definition session_payload (iat exp : Z) : json := JObj [("type", JStr SESSION_TYPE); ("iat", JInt iat); ("exp", JInt exp)].

Class TokenCodec := {
  (** [Buffer.from(text, 'utf8').toString('base64url')] and back. *)
  encodeSegment : string -> string;
  decodeSegment : string -> string;
  (** [createHmac('sha256', secret).update(text).digest('base64url')] *)
  hmacTag : string -> string -> string;
  (** The bytes [Buffer.from(tag, 'base64url')] reads. *)
  tagBytes : string -> list Z;
  (** [JSON.stringify] and [JSON.parse]; [None] is a throw. *)
  jsonText : json -> string;
  jsonParse : string -> option json;
}.

Class TokenCodecLaws (C : TokenCodec) := {
  decode_encode : forall s, decodeSegment (encodeSegment s) = s;
  parse_print : forall iat exp, jsonParse (jsonText (session_payload iat exp)) = Some (session_payload iat exp);
  segment_has_no_dot : forall s, lacks "." (encodeSegment s) = true;
  segment_not_empty : forall iat exp, encodeSegment (jsonText (session_payload iat exp)) <> "";
  tag_has_no_dot : forall k s, lacks "." (hmacTag k s) = true;
}.

Section jwt.
  Context {C : TokenCodec}.

Definition HEADER_SEGMENT : string := encodeSegment (jsonText (JObj [("alg", JStr "HS256"); ("typ", JStr "JWT")])).

Definition signSessionJwt (secret : string) (iat exp : Z) : string :=
  let signing := HEADER_SEGMENT +:+ "." +:+ encodeSegment (jsonText (session_payload iat exp)) in
  signing +:+ "." +:+ hmacTag secret signing.

Definition constantTimeTagCompare (given expected : string) : bool := bool_decide (tagBytes given = tagBytes expected).

Definition parsePayloadWithQuota (body : string) (now : Z) : bool :=
  if bool_decide (body = "") || (TOKEN_MAX_CHARS <? String.length body)%nat then false
  else match jsonParse (decodeSegment body) with
       | Some (JObj fields) =>
         is_str (jget "type" fields) SESSION_TYPE &&
         match safe_int (jget "iat" fields), safe_int (jget "exp" fields) with
         | Some iat, Some exp => bool_decide (iat <= exp)%Z && bool_decide (length fields = 3) && bool_decide (now < exp)%Z
         | _, _ => false
         end
       | _ => false
       end.

Definition verifySessionJwt (secret token : string) (now : Z) : bool :=
  if (TOKEN_MAX_CHARS <? String.length token)%nat || bool_decide (token = "") then false
  else match split_on "." token with
       | [head; body; tag] =>
         if constantTimeTagCompare tag (hmacTag secret (head +:+ "." +:+ body)) then parsePayloadWithQuota body now else false
       | _ => false
       end.

(** ** The secret *)

Inductive JwtSecretSource := SourceEnv | SourceFile | SourceMemory.

Record JwtSecret := { source : JwtSecretSource; secret : string }.

(** [/^[0-9a-f]{64}$/] *)
Definition is_lower_hex (a : ascii) : bool :=
  let n := N_of_ascii a in ((48 <=? n) && (n <=? 57) || (97 <=? n) && (n <=? 102))%N.

Definition secret_shaped (s : string) : bool := bool_decide (String.length s = 64) && sall is_lower_hex s.

Definition readEnvSecret (env : option string) : string :=
  match env with Some v => if bool_decide (trim v = "") then "" else v | None => "" end.

(** The file's text, if it can be read. *)
Definition readSecretFile (text : option string) : string :=
  match text with Some t => if secret_shaped (trim t) then trim t else "" | None => "" end.

(** The secret and, when one was generated and written, the new text of the file. *)
Definition ensure (st : option JwtSecret) (env text : option string) (generated : string) (written : bool) : JwtSecret * option string :=
  match st with
  | Some s => (s, text)
  | None =>
    let fromEnv := readEnvSecret env in
    let fromFile := readSecretFile text in
    if negb (bool_decide (fromEnv = "")) then ({| source := SourceEnv; secret := fromEnv |}, text)
    else if negb (bool_decide (fromFile = "")) then ({| source := SourceFile; secret := fromFile |}, text)
    else if written then ({| source := SourceFile; secret := generated |}, Some generated)
    else ({| source := SourceMemory; secret := generated |}, text)
  end.

(** [Throw] while the environment holds the secret, or when the file cannot be written. *)
Definition rotate (s : JwtSecret) (text : option string) (next : string) (written : bool) : exc string (JwtSecret * option string) :=
  match source s with
  | SourceEnv => Throw "JWT secret rotation is disabled while NOTNATIVE_JWT_SECRET is set"
  | SourceFile => if written then Ok ({| source := SourceFile; secret := next |}, Some next) else Throw "write failed"
  | SourceMemory => Ok ({| source := SourceMemory; secret := next |}, text)
  end.

(** ** Properties *)

Lemma split_on_joined a b c : lacks "." a = true -> lacks "." b = true -> lacks "." c = true ->
  split_on "." (a +:+ "." +:+ b +:+ "." +:+ c) = [a; b; c].
Proof. intros Ha Hb Hc. assert (forall x, "." +:+ x = String "." x) as Hdot by done. by rewrite !Hdot, !split_on_app, split_on_last. Qed.

(** A signed token of admissible length verifies exactly while it lasts. *)
Lemma signed_verifies {L : TokenCodecLaws C} k iat exp now :
  is_safe_integer iat = true -> is_safe_integer exp = true -> String.length (signSessionJwt k iat exp) <= TOKEN_MAX_CHARS ->
  verifySessionJwt k (signSessionJwt k iat exp) now = bool_decide (iat <= exp)%Z && bool_decide (now < exp)%Z.
Proof.
  intros Hi He Hlen.
  unfold verifySessionJwt. rewrite (proj2 (Nat.ltb_ge _ _)) by done. set (body := encodeSegment (jsonText (session_payload iat exp))).
  assert (signSessionJwt k iat exp = HEADER_SEGMENT +:+ "." +:+ body +:+ "." +:+ hmacTag k (HEADER_SEGMENT +:+ "." +:+ body)) as E
    by (unfold signSessionJwt; fold body; by rewrite !sapp_assoc).
  rewrite E. rewrite split_on_joined by (apply segment_has_no_dot || apply tag_has_no_dot).
  rewrite bool_decide_false by by destruct HEADER_SEGMENT. cbn [orb]. unfold constantTimeTagCompare. rewrite bool_decide_true by done.
  unfold parsePayloadWithQuota. rewrite bool_decide_false by apply segment_not_empty.
  rewrite E in Hlen. rewrite !slength_app in Hlen. cbn [String.length] in Hlen. rewrite (proj2 (Nat.ltb_ge _ _)) by lia. cbn [orb].
  unfold body. rewrite decode_encode, parse_print. unfold session_payload. jfields.
  rewrite !safe_int_JInt, bool_decide_true by done. cbn [andb length]. rewrite (bool_decide_true (3 = 3)) by done. by rewrite andb_true_r.
Qed.

(** A session token holds for its time under its secret, and only a tag of the
    secret makes one. A signed token of admissible length verifies exactly while
    the clock is before its end and its times are ordered; and any token that
    verifies is a text whose tag reads as the tag of the rest under the secret and
    whose payload is a UI session that has not ended, so that under another secret,
    whose tag for that text reads differently, it fails. *)
Theorem session_token_is_bound_to_secret_and_time {L : TokenCodecLaws C} k iat exp now token k' :
  is_safe_integer iat = true -> is_safe_integer exp = true -> String.length (signSessionJwt k iat exp) <= TOKEN_MAX_CHARS ->
  verifySessionJwt k (signSessionJwt k iat exp) now = bool_decide (iat <= exp)%Z && bool_decide (now < exp)%Z /\
  (verifySessionJwt k token now = true ->
     exists head body tag, token = head +:+ "." +:+ body +:+ "." +:+ tag /\ tagBytes tag = tagBytes (hmacTag k (head +:+ "." +:+ body)) /\
       (tagBytes (hmacTag k' (head +:+ "." +:+ body)) <> tagBytes (hmacTag k (head +:+ "." +:+ body)) -> verifySessionJwt k' token now = false)).
Proof.
  intros Hi He Hlen. split.
  - by apply signed_verifies.
  - unfold verifySessionJwt. destruct (_ || _); [done|]. destruct (split_on "." token) as [|head [|body [|tag [|? ?]]]] eqn:Es; try done.
    unfold constantTimeTagCompare. case_bool_decide as Et; [|done]. intros Hp. exists head, body, tag. split_and!; [|done|].
    + rewrite (split_on_join _ _ _ _ Es). cbn [foldl]. by rewrite !sapp_assoc.
    + intros Hne. rewrite bool_decide_false; [done|]. congruence.
Qed.

(** The secret is refused to rotate while the environment sets it, and no other way of
    obtaining it is tried then. *)
Lemma env_secret_is_fixed env text generated written v next w :
  readEnvSecret env = v -> v <> "" ->
  (ensure None env text generated written).1 = {| source := SourceEnv; secret := v |} /\
  exc_ok (rotate (ensure None env text generated written).1 text next w) = false.
Proof. intros <- Hv. unfold ensure. by rewrite bool_decide_false by done. Qed.

(** A generated secret that reached the file is the one a restart reads. *)
Lemma file_secret_survives text generated :
  secret_shaped generated = true -> trim generated = generated ->
  readSecretFile text = "" ->
  let '(s, text') := ensure None None text generated true in (ensure None None text' "" true).1 = s.
Proof.
  intros Hs Ht Hf. unfold ensure. cbn [readEnvSecret]. rewrite Hf, !(bool_decide_true ("" = "")) by done.
  cbn [negb readSecretFile]. rewrite Ht, Hs. rewrite (bool_decide_false (generated = "")); [done|]. by intros ->.
Qed.

End jwt.

(** ** A concrete codec *)

(** Integers in unary with a sign. *)
Fixpoint strokes (n : nat) : string := match n with O => "" | S n => String "I" (strokes n) end.

Definition unary (z : Z) : string := String (if bool_decide (z < 0)%Z then "-" else "+")%char (strokes (Z.to_nat (Z.abs z))).

Definition unary_value (s : string) : Z :=
  match s with
  | String a s => ((if Ascii.eqb a "-" then -1 else 1) * Z.of_nat (String.length s))%Z
  | "" => 0%Z
  end.

Definition num_value (v : json) : Z := match v with JNum n => default 0%Z (num_int n) | _ => 0%Z end.

Definition hex_text (s : string) : string := String.string_of_list_ascii ((fun b => ascii_of_N (Z.to_N b)) <$> from_hex s).

(** Hex for base64url, concatenation for the digest, unary numbers for JSON. *)
Definition toy_codec : TokenCodec := {|
  encodeSegment := to_hex;
  decodeSegment := hex_text;
  hmacTag k s := to_hex (k +:+ s);
  tagBytes := from_hex;
  jsonText v := match v with JObj [_; (_, i); (_, e)] => unary (num_value i) +:+ ";" +:+ unary (num_value e) | _ => "" end;
  jsonParse s := match split_on ";" s with [i; e] => Some (session_payload (unary_value i) (unary_value e)) | _ => None end;
|}.

Lemma strokes_length n : String.length (strokes n) = n.
Proof. induction n as [|n IH]; [done|]. cbn. by rewrite IH. Qed.

Lemma strokes_lack c n : Ascii.eqb "I" c = false -> lacks c (strokes n) = true.
Proof. intros H. induction n as [|n IH]; [done|]. cbn [strokes lacks]. by rewrite H, IH. Qed.

Lemma unary_value_unary z : unary_value (unary z) = z.
Proof. unfold unary, unary_value. rewrite strokes_length. case_bool_decide; cbn [Ascii.eqb Bool.eqb]; lia. Qed.

Lemma unary_lacks z : lacks ";" (unary z) = true.
Proof. unfold unary. cbn [lacks]. rewrite strokes_lack by done. by case_bool_decide. Qed.

Lemma to_hex_lacks s : lacks "." (to_hex s) = true.
Proof.
  induction s as [|a s IH]; [done|]. cbn [to_hex lacks]. rewrite IH.
  assert (forall n, (n < 16)%N -> Ascii.eqb (hex_digit n) "." = false) as H.
  { intros n Hn. assert (n ∈ N.of_nat <$> seq 0 16) as Hin by (apply list_elem_of_fmap; exists (N.to_nat n); split; [lia|apply elem_of_seq; lia]).
    cbn in Hin. repeat (apply elem_of_cons in Hin as [->|Hin]; [reflexivity|]). by apply elem_of_nil in Hin. }
  pose proof (N_ascii_bounded a). rewrite !H by first [apply N.Div0.div_lt_upper_bound; lia|apply N.mod_lt; lia]. done.
Qed.

#[local] Instance toy_laws : TokenCodecLaws toy_codec.
Proof.
  constructor; cbn [encodeSegment decodeSegment hmacTag tagBytes jsonText jsonParse toy_codec session_payload].
  - intros s. unfold hex_text. rewrite from_to_hex, <- list_fmap_compose. rewrite <- (String.string_of_list_ascii_of_string s) at 2. f_equal.
    rewrite <- (list_fmap_id (String.list_ascii_of_string s)) at 2. apply list_fmap_ext. intros i a _. cbn. by rewrite N2Z.id, ascii_N_embedding.
  - intros iat exp. unfold num_value, JInt. rewrite !num_int_JInt. cbn [default from_option id].
    assert (forall x, ";" +:+ x = String ";" x) as -> by done. rewrite split_on_app, split_on_last by apply unary_lacks. by rewrite !unary_value_unary.
  - apply to_hex_lacks.
  - intros iat exp. unfold unary. done.
  - intros. apply to_hex_lacks.
Qed.

Lemma session_token_is_bound_to_secret_and_time_witness :
  let tok := @signSessionJwt toy_codec "k" 2 9 in
  @verifySessionJwt toy_codec "k" tok 8 = true /\ @verifySessionJwt toy_codec "k" tok 9 = false /\ @verifySessionJwt toy_codec "other" tok 8 = false.
Proof.
  cbv zeta.
  assert (forall now, @verifySessionJwt toy_codec "k" (@signSessionJwt toy_codec "k" 2 9) now = bool_decide (2 <= 9)%Z && bool_decide (now < 9)%Z) as H.
  { intros now. apply (@session_token_is_bound_to_secret_and_time toy_codec toy_laws "k" 2 9 now "" "other"); try reflexivity. vm_compute. lia. }
  split; [rewrite H; reflexivity|]. split; [rewrite H; reflexivity|]. vm_compute. reflexivity.
Defined.
