(* ===== verification/AuthRequest.v ===== *)
(** Requests as the interface authentication reads them (server/lib/auth/ui-auth-format.ts,
    url-tokens.ts): the headers, the client address, the cookies, the session cookie
    with its expiry, and the targets a URL token is accepted on.

    A URL is the record of what the URL class of the platform answers about it. *)

From S2P Require Import Prelude JsString JsMap JsValue JsDate AuthTunnel.

(** [Headers]: one entry per name, in lower case. *)
Definition Headers : Type := list (string * string).

Record URL := {
  protocol : string;
  hostname : string;
  url_host : string;
  origin : string;
  pathname : string;
  searchParams : list (string * string);
}.

Definition UI_SESSION_COOKIE : string := "oc_ui_session".

(** The first hop the request names, else the socket's address. *)
Definition parseClientIp (headers : Headers) (remoteAddress : option string) : string :=
  let first := match jget "x-forwarded-for" headers with
               | Some forwarded => trim (default "" (head (split_on "," forwarded)))
               | None => ""
               end in
  if bool_decide (first = "") then default "" remoteAddress else first.

Definition parseCookies (header : option string) : list (string * string) :=
  match header with
  | None => []
  | Some h => if bool_decide (h = "") then [] else AuthTunnel.parseCookieHeader h
  end.

Definition sessionCookieHeaderValue (token : string) (ttlMs nowMs : Z) (secure : bool) : string :=
  UI_SESSION_COOKIE +:+ "=" +:+ token +:+ "; Path=/; HttpOnly; SameSite=Strict; Max-Age=" +:+ pretty (Z.max 0 (ttlMs / 1000))
  +:+ "; Expires=" +:+ toUTCString (nowMs + ttlMs) +:+ (if secure then "; Secure" else "").

Definition secureFromHeaders (headers : Headers) (url : URL) : bool :=
  if bool_decide (protocol url = "https:") then true
  else match jget "x-forwarded-proto" headers with
       | Some forwarded => existsb (fun hop => bool_decide (trim hop = "https")) (split_on "," forwarded)
       | None => false
       end.

(** ** Targets of URL tokens *)

Definition URL_TOKEN_QUERY_ALIASES : list string := ["oc_url_token"; "nn_url_token"].

Definition URL_TOKEN_GET_EXACT : list string :=
  ["/api/event"; "/api/global/event"; "/api/openchamber/events"; "/api/notnative/events"; "/api/openchamber/realtime-proxy/sse";
   "/api/notifications/stream"; "/api/fs/raw"; "/api/fs/serve"].

Definition URL_TOKEN_GET_PREFIXES : list string := ["/api/fs/serve/"; "/api/preview/proxy/"].

Definition URL_TOKEN_WS_EXACT : list string :=
  ["/api/event/ws"; "/api/global/event/ws"; "/api/openchamber/realtime-proxy/ws"; "/api/terminal/ws"; "/api/dictation/ws"; "/api/dev-tunnel"].

(** [/\/api\/projects\/[^/]+\/icon$/]: the last four segments, with a slash before them. *)
Definition URL_TOKEN_GET_PATTERN (path : string) : bool :=
  match rev (split_on "/" path) with
  | icon :: name :: projects :: api :: _ :: _ =>
    bool_decide (icon = "icon") && negb (bool_decide (name = "")) && bool_decide (projects = "projects") && bool_decide (api = "api")
  | _ => false
  end.

Definition urlTokenTargetAllowed (method path : string) (upgrade : bool) : bool :=
  if upgrade then bool_decide (path ∈ URL_TOKEN_WS_EXACT)
  else if negb (bool_decide (method = "GET")) then false
  else if bool_decide (path ∈ URL_TOKEN_GET_EXACT) then true
  else if existsb (fun prefix => starts_with prefix path) URL_TOKEN_GET_PREFIXES then true
  else URL_TOKEN_GET_PATTERN path.

Fixpoint first_param (aliases : list string) (url : URL) : option string :=
  match aliases with
  | [] => None
  | alias :: rest =>
    match jget alias (searchParams url) with
    | Some value => if bool_decide (value = "") then first_param rest url else Some value
    | None => first_param rest url
    end
  end.

Definition firstQueryParam (url : URL) : option string := first_param URL_TOKEN_QUERY_ALIASES url.

(** ** Cookies *)

(** The characters of base64url and the dot: none separates cookies. *)
Definition token_char (a : ascii) : bool := is_alnum a || Ascii.eqb a "-" || Ascii.eqb a "_" || Ascii.eqb a ".".

Lemma sall_lacks (f : ascii -> bool) c s : f c = false -> sall f s = true -> lacks c s = true.
Proof.
  intros Hc. induction s as [|a s IH]; cbn; [done|]. intros [Ha Hs]%andb_true_iff. rewrite IH by done. rewrite andb_true_r.
  destruct (Ascii.eqb_spec a c) as [->|]; [congruence|done].
Qed.

Lemma token_char_not_space a : token_char a = true -> is_space a = false.
Proof. destruct a as [[] [] [] [] [] [] [] []]; vm_compute; congruence. Qed.

Lemma trim_token s : sall token_char s = true -> trim s = s.
Proof.
  assert (forall s, sall token_char s = true -> trim_end_by is_space s = s) as He.
  { induction s0 as [|a s0 IH]; cbn; [done|]. intros [Ha Hs]%andb_true_iff. rewrite IH by done.
    destruct s0; [|done]. by rewrite (token_char_not_space a Ha). }
  intros H. unfold trim, trimStart. replace (trim_start_by is_space s) with s; [by apply He|].
  destruct s as [|a s]; [done|]. cbn in H. apply andb_true_iff in H as [Ha _]. cbn. by rewrite (token_char_not_space a Ha).
Qed.

Lemma index_of_skip c s r : lacks c s = true -> index_of c (s +:+ String c r) = Some (String.length s).
Proof.
  induction s as [|a s IH]; intros H.
  - change ("" +:+ String c r) with (String c r). cbn [index_of]. by rewrite Ascii.eqb_refl.
  - cbn in H. apply andb_true_iff in H as [Ha Hs]. change (String a s +:+ String c r) with (String a (s +:+ String c r)). cbn [index_of].
    rewrite IH by done. by destruct (Ascii.eqb a c).
Qed.

(** A browser sends back the pair at the front of the header it was given. *)
Lemma cookie_pair name token : sall token_char name = true -> name <> "" -> sall token_char token = true ->
  jget name (AuthTunnel.parseCookieHeader (name +:+ "=" +:+ token)) = Some token.
Proof.
  intros Hn Hne Ht. change ("=" +:+ token) with (String "=" token). unfold AuthTunnel.parseCookieHeader. rewrite split_on_last.
  - cbn [foldl]. rewrite index_of_skip by by apply (sall_lacks token_char). destruct (String.length name) as [|k] eqn:Ek; [by destruct name|].
    rewrite <- Ek, stake_app, (trim_token name), bool_decide_false by done.
    change (S (String.length name)) with (1 + String.length name). rewrite Nat.add_comm, <- sdrop_sdrop, sdrop_app. cbn [sdrop].
    rewrite trim_token by done. apply jget_set_eq.
  - set (f := fun a => negb (Ascii.eqb a ";")). apply (sall_lacks f); [done|]. rewrite sall_app.
    assert (forall s, sall token_char s = true -> sall f s = true) as Hf.
    { intros s. apply sall_mono. intros [[] [] [] [] [] [] [] []]; vm_compute; congruence. }
    change (sall f name && sall f token = true). by rewrite !Hf.
Qed.

Lemma cookie_roundtrip token : sall token_char token = true ->
  jget UI_SESSION_COOKIE (parseCookies (Some (UI_SESSION_COOKIE +:+ "=" +:+ token))) = Some token.
Proof. intros H. unfold parseCookies. rewrite bool_decide_false by done. by apply cookie_pair. Qed.

(** A URL token never opens a request that writes: outside the upgrade list only GET passes. *)
Lemma url_tokens_only_read method path : urlTokenTargetAllowed method path false = true -> method = "GET".
Proof. unfold urlTokenTargetAllowed. case_bool_decide; done. Qed.

(** A proxied client names its own address: each spelling is a bucket of its own. *)
Lemma client_names_its_own_address headers socket x :
  sall token_char x = true -> x <> "" -> jget "x-forwarded-for" headers = Some x -> parseClientIp headers socket = x.
Proof.
  intros Hx Hne Hh. unfold parseClientIp. rewrite Hh, split_on_last by by apply (sall_lacks token_char). cbn [head default from_option id].
  rewrite trim_token by done. by rewrite bool_decide_false.
Qed.
