(* ===== verification/AuthNative.v ===== *)
(** The desktop's own sign-in (server/lib/auth/native-ui-auth.ts): one-time tickets that
    the shell hands to its window, bound to one local origin; and the password verifier
    (server/lib/auth/password.ts) with its cache of derived secrets.

    The secret of native sessions is held in memory and lives in the interface
    controller, which rotates it together with the tickets. Clock readings and random
    texts are arguments. *)

From S2P Require Import Prelude JsString JsMap JsValue JsDate AuthHash AuthJwt AuthRequest.

(** ** Tickets *)

Record NativeUiIdentity := { installationId : string; dataId : string; generation : string; native_origin : string }.

Record Ticket := { issued : Z; expires : Z }.

Record NativeUi := { identity : NativeUiIdentity; closed : bool; tickets : list (string * Ticket) }.

Definition TICKET_TTL_MS : Z := 60000.
Definition TICKET_CAPACITY : nat := 16.

Definition is_url_char (a : ascii) : bool := is_alnum a || Ascii.eqb a "_" || Ascii.eqb a "-".

(** [new NativeUiBootstrap]: [parsed] is the URL the platform makes of the origin, if it makes one. *)
Definition new_native (i : NativeUiIdentity) (parsed : option URL) : option NativeUi :=
  match parsed with
  | None => None
  | Some url =>
    if negb (starts_with "nna_" (installationId i) && secret_shaped (sdrop 4 (installationId i)))
       || negb (starts_with "data_" (dataId i) && secret_shaped (sdrop 5 (dataId i)))
       || negb (sall is_url_char (generation i) && (1 <=? String.length (generation i))%nat && (String.length (generation i) <=? 128)%nat)
       || bool_decide (protocol url <> "http:") || bool_decide (hostname url ∉ ["127.0.0.1"; "[::1]"])
       || bool_decide (native_origin i <> origin url) then None
    else Some {| identity := i; closed := false; tickets := [] |}
  end.

Definition LOOPBACK_PEERS : list string := ["127.0.0.1"; "::1"; "::ffff:127.0.0.1"].

Definition is_forwarding (name : string) : bool := bool_decide (name = "forwarded") || starts_with "x-forwarded-" name.

(** A header is absent or has the value. *)
Definition absent_or (name value : string) (headers : Headers) : bool :=
  match jget name headers with Some v => bool_decide (v = value) | None => true end.

Definition allowed (n : NativeUi) (headers : Headers) (url : URL) : bool :=
  negb (closed n) && bool_decide (origin url = native_origin (identity n))
  && absent_or "host" (url_host url) headers && absent_or "origin" (native_origin (identity n)) headers
  && negb (existsb is_forwarding (jkeys headers)).

Definition with_tickets (n : NativeUi) (m : list (string * Ticket)) : NativeUi :=
  {| identity := identity n; closed := closed n; tickets := m |}.

(** What [issueTicket] drops first. *)
Definition stale (now : Z) (t : Ticket) : bool := bool_decide (expires t <= now)%Z || bool_decide (now < issued t)%Z.

Section tickets.
  Context {sha : Sha256}.

Definition issueTicket (n : NativeUi) (random : string) (now : Z) : NativeUi * exc string (string * string) :=
  if closed n then (n, Throw "Native UI authentication is closed")
  else
    let kept := filter (fun kv => stale now kv.2 = false) (tickets n) in
    if (TICKET_CAPACITY <=? length kept)%nat then (with_tickets n kept, Throw "Native UI ticket capacity reached")
    else (with_tickets n (jset (sha256Hex random) {| issued := now; expires := now + TICKET_TTL_MS |} kept),
          Ok (random, toISOString (now + TICKET_TTL_MS))).

(** The ticket of a body that has no other member; [/^[A-Za-z0-9_-]{43}$/]. *)
Definition ticket_of (body : json) : option string :=
  match body with
  | JObj [(k, JStr t)] => if bool_decide (k = "ticket") && sall is_url_char t && (String.length t =? 43)%nat then Some t else None
  | _ => None
  end.

(** The first guard of [consume]: the window's own origin, from this machine. *)
Definition from_window (n : NativeUi) (headers : Headers) (url : URL) (peer : option string) : bool :=
  allowed n headers url && bool_decide (jget "origin" headers = Some (native_origin (identity n)))
  && bool_decide (default "" peer ∈ LOOPBACK_PEERS).

(** The clock is read twice, once per side of the interval. *)
Definition consume (n : NativeUi) (body : json) (headers : Headers) (url : URL) (peer : option string) (now1 now2 : Z) : NativeUi * bool :=
  if negb (from_window n headers url peer) then (n, false)
  else match ticket_of body with
       | None => (n, false)
       | Some t =>
         let key := sha256Hex t in
         (with_tickets n (jdel key (tickets n)),
          match jget key (tickets n) with
          | Some v => bool_decide (issued v <= now1)%Z && bool_decide (now2 < expires v)%Z
          | None => false
          end)
       end.

Definition invalidate (n : NativeUi) : NativeUi := with_tickets n [].
Definition close (n : NativeUi) : NativeUi := {| identity := identity n; closed := true; tickets := [] |}.

(** ** Histories of tickets *)

Inductive NOp :=
| NIssue (random : string) (now : Z)
| NConsume (body : json) (headers : Headers) (url : URL) (peer : option string) (now1 now2 : Z)
| NInvalidate
| NClose.

(** What happened to a ticket. *)
Inductive NEvent :=
| Handed (ticket : string) (now : Z)
| Tried (key : string)
| Entered (key : string) (now1 now2 : Z)
| Dropped.

Definition nstep (n : NativeUi) (op : NOp) : NativeUi * list NEvent :=
  match op with
  | NIssue random now =>
    match issueTicket n random now with
    | (n', Ok (t, _)) => (n', [Handed t now])
    | (n', Throw _) => (n', [])
    end
  | NConsume body headers url peer now1 now2 =>
    let '(n', ok) := consume n body headers url peer now1 now2 in
    (n', match ticket_of body with
         | Some t => if negb (from_window n headers url peer) then []
                     else if ok then [Entered (sha256Hex t) now1 now2] else [Tried (sha256Hex t)]
         | None => []
         end)
  | NInvalidate => (invalidate n, [Dropped])
  | NClose => (close n, [Dropped])
  end.

Fixpoint nexecute (n : NativeUi) (ops : list NOp) : NativeUi * list NEvent :=
  match ops with
  | [] => (n, [])
  | op :: ops => let '(n1, es) := nstep n op in let '(n2, es') := nexecute n1 ops in (n2, es ++ es')
  end.

(** Events that leave a ticket usable. *)
Definition spares (key : string) (e : NEvent) : Prop :=
  match e with
  | Handed t _ => sha256Hex t <> key
  | Tried k | Entered k _ _ => k <> key
  | Dropped => False
  end.

(** A ticket of the map was handed out, and nothing ended it since. *)
Definition ticket_ok (es : list NEvent) (kv : string * Ticket) : Prop :=
  exists before t now rest, es = before ++ Handed t now :: rest /\ kv.1 = sha256Hex t /\
    kv.2 = {| issued := now; expires := now + TICKET_TTL_MS |} /\ Forall (spares kv.1) rest.

Record native_ok (es : list NEvent) (n : NativeUi) : Prop := {
  native_tickets : Forall (ticket_ok es) (tickets n);
  native_map : jwf (tickets n);
  native_capacity : length (tickets n) <= TICKET_CAPACITY;
}.

Definition lawful_entry (es : list NEvent) (e : NEvent) : Prop :=
  match e with
  | Entered key now1 now2 =>
    exists before t now rest, es = before ++ Handed t now :: rest /\ key = sha256Hex t /\ Forall (spares key) rest /\
      (now <= now1)%Z /\ (now2 < now + TICKET_TTL_MS)%Z
  | _ => True
  end.

Lemma ticket_ok_later es es' kv : ticket_ok es kv -> Forall (spares kv.1) es' -> ticket_ok (es ++ es') kv.
Proof.
  intros (b & t & now & r & -> & H1 & H2 & H3) H. exists b, t, now, (r ++ es'). split; [by rewrite <- app_assoc|].
  split_and!; [done..|]. by apply Forall_app.
Qed.

Lemma ticket_ok_new es t now : ticket_ok (es ++ [Handed t now]) (sha256Hex t, {| issued := now; expires := now + TICKET_TTL_MS |}).
Proof. exists es, t, now, []. split_and!; done. Qed.

Lemma jwf_key_ne (k : string) (m : list (string * Ticket)) kv : jwf m -> kv ∈ jdel k m -> kv.1 <> k.
Proof.
  intros Hwf Hin E. destruct kv as [k' v]. cbn in E. subst k'.
  assert (jget k (jdel k m) = Some v) as H by (apply jget_elem; [by apply jwf_del|done]). by rewrite jget_del_eq in H.
Qed.

Lemma issue_ok es n random now : native_ok es n ->
  native_ok (es ++ (nstep n (NIssue random now)).2) (nstep n (NIssue random now)).1.
Proof.
  intros [H1 H2 H3]. unfold nstep, issueTicket. destruct (closed n); [by rewrite app_nil_r|]. cbv zeta.
  set (kept := filter _ (tickets n)).
  assert (length kept <= length (tickets n)) as Hlen by apply length_filter.
  assert (jwf kept) as Hwf by by apply jwf_filter.
  assert (Forall (ticket_ok es) kept) as Hok by by apply Forall_filter_keep.
  destruct (_ <=? _)%nat eqn:El; cbn [fst snd].
  { rewrite app_nil_r. constructor; [done|done|]. cbn [tickets with_tickets]. lia. }
  apply Nat.leb_gt in El. set (k := sha256Hex random).
  constructor; cbn [tickets with_tickets].
  - apply Forall_forall. intros kv Hkv. destruct (decide (kv.1 = k)) as [E|E].
    + destruct kv as [k' v]. cbn in E. subst k'. pose proof (jget_elem _ _ _ (jwf_set k {| issued := now; expires := now + TICKET_TTL_MS |} kept Hwf) Hkv) as Hg.
      rewrite jget_set_eq in Hg. injection Hg as <-. apply ticket_ok_new.
    + destruct (elem_of_jset _ _ _ _ Hkv) as [->|Hin]; [done|]. rewrite Forall_forall in Hok. apply ticket_ok_later; [by apply Hok|].
      constructor; [|constructor]. exact (not_eq_sym E).
  - by apply jwf_set.
  - change (jsize (jset k {| issued := now; expires := now + TICKET_TTL_MS |} kept) <= TICKET_CAPACITY).
    rewrite jsize_set. unfold jsize. destruct (jhas k kept); lia.
Qed.

Lemma consume_ok es n body headers url peer now1 now2 : native_ok es n ->
  native_ok (es ++ (nstep n (NConsume body headers url peer now1 now2)).2) (nstep n (NConsume body headers url peer now1 now2)).1 /\
  Forall (lawful_entry es) (nstep n (NConsume body headers url peer now1 now2)).2.
Proof.
  intros H. pose proof H as [H1 H2 H3]. unfold nstep, consume. destruct (from_window n headers url peer) eqn:Ew; cbn [negb].
  2: { cbn [fst snd]. destruct (ticket_of body); rewrite app_nil_r; by split; [|constructor]. }
  destruct (ticket_of body) as [t|]; cbn [fst snd]; [|by rewrite app_nil_r; split; [|constructor]].
  set (k := sha256Hex t). set (ok := match jget k (tickets n) with Some v => _ | None => false end).
  assert (forall e, (forall k', k' <> k -> spares k' e) -> native_ok (es ++ [e]) (with_tickets n (jdel k (tickets n)))) as Hnext.
  { intros e He. constructor; cbn [tickets with_tickets].
    - apply Forall_forall. intros kv Hkv. pose proof (jwf_key_ne _ _ _ H2 Hkv) as Hne. rewrite Forall_forall in H1.
      apply ticket_ok_later; [apply H1; by apply (elem_of_jdel k)|]. constructor; [by apply He|constructor].
    - by apply jwf_del.
    - pose proof (jsize_del_le k (tickets n)). unfold jsize in *. lia. }
  destruct ok eqn:Eok; (split; [apply Hnext; intros k' Hk'; exact (not_eq_sym Hk')|]); constructor; try constructor.
  unfold ok in Eok. cbn. destruct (jget k (tickets n)) as [v|] eqn:Eg; [|done].
  destruct (Forall_jget _ _ _ _ H1 Eg) as (b & t' & now & r & E1 & E2 & E3 & E4). cbn in E2, E3, E4. subst v. cbn in Eok.
  apply andb_true_iff in Eok as [Ea%bool_decide_eq_true Eb%bool_decide_eq_true]. exists b, t', now, r. done.
Qed.

Lemma nstep_ok es n op : native_ok es n ->
  native_ok (es ++ (nstep n op).2) (nstep n op).1 /\ Forall (lawful_entry es) (nstep n op).2.
Proof.
  intros H. destruct op as [random now|body headers url peer now1 now2| |].
  - split; [by apply issue_ok|]. cbn [nstep]. destruct (issueTicket n random now) as [n' [[t x]|e]]; cbn; [constructor; [done|]|]; constructor.
  - by apply consume_ok.
  - split; [|by constructor; [|constructor]]. constructor; cbn; [constructor|constructor|lia].
  - split; [|by constructor; [|constructor]]. constructor; cbn; [constructor|constructor|lia].
Qed.

Lemma nexecute_app n ops ops' :
  nexecute n (ops ++ ops') = let '(n1, es) := nexecute n ops in let '(n2, es') := nexecute n1 ops' in (n2, es ++ es').
Proof.
  revert n. induction ops as [|op ops IH]; intros n; cbn; [by destruct (nexecute n ops')|].
  destruct (nstep n op) as [n1 es]. rewrite IH. destruct (nexecute n1 ops) as [n2 es']. destruct (nexecute n2 ops') as [n3 es''].
  by rewrite app_assoc.
Qed.

Lemma nexecute_ok i ops :
  let '(n, es) := nexecute {| identity := i; closed := false; tickets := [] |} ops in native_ok es n.
Proof.
  induction ops as [|op ops IH] using rev_ind; [constructor; cbn; [constructor|constructor|lia]|].
  rewrite nexecute_app. destruct (nexecute _ ops) as [n es]. cbn. pose proof (nstep_ok es n op IH) as [H _].
  destruct (nstep n op) as [n' es']. cbn in *. by rewrite app_nil_r.
Qed.

(** A ticket of the desktop shell opens the window at most once. In every history of
    issues, attempts, invalidations and closings, an attempt that succeeds names a
    ticket that was handed out, within its sixty seconds and not before its issue, and
    since then no attempt with it was made, successful or not, and the tickets were not
    dropped; and at most sixteen tickets are ever kept. *)
Theorem native_ticket_enters_once i ops op :
  let '(n, es) := nexecute {| identity := i; closed := false; tickets := [] |} ops in
  length (tickets n) <= TICKET_CAPACITY /\
  Forall (lawful_entry es) (nstep n op).2.
Proof.
  pose proof (nexecute_ok i ops) as H. destruct (nexecute _ ops) as [n es]. split; [by destruct H|]. by apply nstep_ok.
Qed.

End tickets.

(** ** Passwords *)

Record PasswordSecrets := { salt : string; expected : string }.

(** Unicode normalisation and the derived key of 64 bytes, of which the code relies on
    nothing else than that they are functions. *)
Class PasswordHash := {
  nfc : string -> string;
  scryptSync : string -> string -> string;
}.

Section passwords.
  Context {H : PasswordHash}.

Definition normalizedPassword (value : option json) : string :=
  match value with Some (JStr s) => trim (nfc s) | _ => "" end.

Definition derivePasswordSecrets (password fresh : string) : PasswordSecrets := {| salt := fresh; expected := scryptSync password fresh |}.

Definition passwordMatches (candidate : string) (secrets : PasswordSecrets) : bool :=
  bool_decide (scryptSync candidate (salt secrets) = expected secrets).

Definition CACHE_LIMIT : nat := 4.

(** The secrets of a password, from the cache when it has them; a hit becomes the newest entry. *)
Definition hashCache (entries : list (string * PasswordSecrets)) (password fresh : string) : list (string * PasswordSecrets) * PasswordSecrets :=
  match jget password entries with
  | Some cached => (jset password cached (jdel password entries), cached)
  | None =>
    let secrets := derivePasswordSecrets password fresh in
    let entries := jset password secrets entries in
    (drop (length entries - CACHE_LIMIT) entries, secrets)
  end.

(** [verifyPassword] of the interface controller. *)
Definition verifyPassword (entries : list (string * PasswordSecrets)) (resolvedPassword : string) (candidate : option json) (fresh : string)
  : list (string * PasswordSecrets) * bool :=
  let resolved := normalizedPassword (Some (JStr resolvedPassword)) in
  if bool_decide (resolved = "") then (entries, false)
  else
    let normalized := normalizedPassword candidate in
    if bool_decide (normalized = "") then (entries, false)
    else let '(entries, secrets) := hashCache entries resolved fresh in (entries, passwordMatches normalized secrets).

Record cache_ok (entries : list (string * PasswordSecrets)) : Prop := {
  cache_derived : Forall (fun kv => expected kv.2 = scryptSync kv.1 (salt kv.2)) entries;
  cache_map : jwf entries;
  cache_bound : length entries <= CACHE_LIMIT;
}.

Lemma hashCache_ok entries password fresh : cache_ok entries ->
  cache_ok (hashCache entries password fresh).1 /\
  expected (hashCache entries password fresh).2 = scryptSync password (salt (hashCache entries password fresh).2).
Proof.
  intros [H1 H2 H3]. unfold hashCache. destruct (jget password entries) as [c|] eqn:E; cbn [fst snd].
  - pose proof (Forall_jget _ _ _ _ H1 E) as Hc. cbn in Hc. split; [|done]. constructor.
    + apply Forall_jset; [done|by apply Forall_jdel].
    + by apply jwf_set, jwf_del.
    + change (jsize (jset password c (jdel password entries)) <= CACHE_LIMIT). rewrite jsize_set.
      assert (jhas password (jdel password entries) = false) as ->.
      { destruct (jhas _ _) eqn:Eh; [|done]. apply jhas_Some in Eh as [v Hv]. by rewrite jget_del_eq in Hv. }
      rewrite jsize_del; [done|]. destruct (decide (password ∈ jkeys entries)) as [|Hn]; [done|].
      apply jget_None in Hn. congruence.
  - split; [|done]. set (m := jset password _ entries). constructor.
    + apply Forall_drop, Forall_jset; done.
    + unfold jwf, jkeys. rewrite fmap_drop. eapply sublist_NoDup; [|apply sublist_drop]. apply (jwf_set password _ entries), H2.
    + rewrite length_drop. lia.
Qed.

Lemma verify_spec entries resolvedPassword candidate fresh : cache_ok entries ->
  let resolved := normalizedPassword (Some (JStr resolvedPassword)) in
  let given := normalizedPassword candidate in
  let out := verifyPassword entries resolvedPassword candidate fresh in
  cache_ok out.1 /\
  (out.2 = true -> resolved <> "" /\ given <> "" /\ exists s, scryptSync given s = scryptSync resolved s) /\
  (resolved <> "" -> given = resolved -> out.2 = true).
Proof.
  intros Hok. unfold verifyPassword. cbv zeta. set (r := normalizedPassword (Some _)). set (g := normalizedPassword candidate).
  case_bool_decide as Er; [split_and!; done|]. case_bool_decide as Eg; [split_and!; [done|done|congruence]|].
  pose proof (hashCache_ok entries r fresh Hok) as [Hc He]. destruct (hashCache entries r fresh) as [m sec]. cbn [fst snd] in *.
  unfold passwordMatches. rewrite He. cbn [fst snd]. split_and!; [done| |intros _ ->; by apply bool_decide_eq_true].
  intros E%bool_decide_eq_true. split_and!; [done|done|by eexists].
Qed.

(** The password check does not depend on what was checked before. Whatever sound
    cache of at most four derived secrets it starts from, it leaves such a cache, and
    its answer is that both passwords are non-empty once normalised and that the
    candidate's key under some salt is the configured password's; so the configured
    password is always accepted, and another one only when their keys collide. *)
Theorem password_check_is_exact entries resolvedPassword candidate fresh :
  cache_ok entries ->
  let '(entries', answer) := verifyPassword entries resolvedPassword candidate fresh in
  let resolved := normalizedPassword (Some (JStr resolvedPassword)) in
  let given := normalizedPassword candidate in
  cache_ok entries' /\
  (answer = true -> resolved <> "" /\ given <> "" /\ exists s, scryptSync given s = scryptSync resolved s) /\
  (resolved <> "" -> given = resolved -> answer = true).
Proof.
  intros Hok. pose proof (verify_spec entries resolvedPassword candidate fresh Hok) as H1.
  by destruct (verifyPassword entries resolvedPassword candidate fresh).
Qed.

End passwords.

(** A ticket works for the window, once, and in time. *)
Definition ex_native : NativeUiIdentity :=
  {| installationId := "nna_"; dataId := "data_"; generation := "g"; native_origin := "http://127.0.0.1:4000" |}.
Definition ex_window : Headers := [("host", "127.0.0.1:4000"); ("origin", "http://127.0.0.1:4000")].
Definition ex_url : URL :=
  {| protocol := "http:"; hostname := "127.0.0.1"; url_host := "127.0.0.1:4000"; origin := "http://127.0.0.1:4000";
     pathname := "/auth/native-bootstrap"; searchParams := [] |}.
Definition ex_ticket : string := "AAAAAAAAAAAAAAAAAAAAAAAAAAAAAAAAAAAAAAAAAAA".

Example ticket_enters_once :
  let body := JObj [("ticket", JStr ex_ticket)] in
  (@nexecute to_hex {| identity := ex_native; closed := false; tickets := [] |}
     [NIssue ex_ticket 1000; NConsume body ex_window ex_url (Some "127.0.0.1") 2000 2000;
      NConsume body ex_window ex_url (Some "127.0.0.1") 3000 3000; NIssue ex_ticket 4000;
      NConsume body ex_window ex_url (Some "10.0.0.9") 5000 5000]).2
  = [Handed ex_ticket 1000; Entered (to_hex ex_ticket) 2000 2000; Tried (to_hex ex_ticket); Handed ex_ticket 4000].
Proof. vm_compute. reflexivity. Qed.

Definition ex_hash : PasswordHash := {| nfc s := s; scryptSync p s := p +:+ "/" +:+ s |}.

Lemma password_check_is_exact_witness :
  (@verifyPassword ex_hash [] " open sesame " (Some (JStr "open sesame")) "salt").2 = true /\
  (@verifyPassword ex_hash [] "open sesame" (Some (JStr "sesame")) "salt").2 = false.
Proof.
  assert (@cache_ok ex_hash []) as H by (constructor; cbn; [constructor|constructor|lia]).
  pose proof (@password_check_is_exact ex_hash [] " open sesame " (Some (JStr "open sesame")) "salt" H) as H1.
  destruct (verifyPassword _ _ _ _) as [m a]. destruct H1 as (_ & _ & H1). split; [|vm_compute; reflexivity].
  apply H1; vm_compute; [congruence|reflexivity].
Defined.
