(* ===== verification/AuthUi.v ===== *)
(** The interface controller (server/lib/auth/ui-auth.ts): which credential of a request
    grants what, the password login, URL tokens, and the global sign-out.

    The readings of the clock in one request are the fields of [Clock]; the password the
    resolver answers is read from the environment and is one value per request. The
    secret of session tokens is the state [ensure] of AuthJwt leaves; in native mode it
    is a memory secret of the shell's. *)

From S2P Require Import Prelude JsString JsMap JsValue JsDate AuthHash AuthLimits AuthClients AuthJwt AuthRequest AuthNative.

Definition CLIENT_URL_PARENT_PREFIX : string := "client:".
Definition NO_STORE : string := "no-store".
Definition DESKTOP_MINT_KINDS : list string := ["desktop"; "desktop-local"].
Definition DEFAULT_SESSION_TTL_MS : Z := 12 * 60 * 60000.
Definition DEFAULT_TRUST_SESSION_TTL_MS : Z := 7 * 24 * 60 * 60000.
Definition DEFAULT_URL_TOKEN_TTL_MS : Z := 60000.
Definition DEFAULT_URL_TOKEN_BUDGET : Z := 512.

(** [client] of a grant is the record of the store with that id. *)
Inductive AuthGranted :=
| GrantOpen
| GrantSession (sessionToken : string)
| GrantClient (sessionToken clientId : string).

Record AuthDenied := { d_status : Z; d_body : list (string * json); d_clearSessionCookie : bool; d_headers : list (string * string) }.

Inductive AuthOutcome :=
| Granted (g : AuthGranted)
| Denied (d : AuthDenied).

Record RouteAction := {
  status : Z;
  body : list (string * json);
  setCookie : option string;
  clearSessionCookie : bool;
  headers : list (string * string);
}.

Record UrlTokenEntry := { parent : string; expiresAt : Z }.

Record Options := {
  sessionTtlMs : Z;
  trustSessionTtlMs : Z;
  urlTokenTtlMs : Z;
  urlTokenBudget : Z;
  rate : LoginRateLimitConfig;
}.

Definition default_options : Options :=
  {| sessionTtlMs := DEFAULT_SESSION_TTL_MS; trustSessionTtlMs := DEFAULT_TRUST_SESSION_TTL_MS; urlTokenTtlMs := DEFAULT_URL_TOKEN_TTL_MS;
     urlTokenBudget := DEFAULT_URL_TOKEN_BUDGET; rate := DEFAULT_RATE_LIMIT_CONFIG |}.

Record Ui := {
  native : option NativeUi;
  jwt : JwtSecret;
  secretFile : option string;
  clientStore : Store;
  limiter : gmap string Bucket;
  hashes : list (string * PasswordSecrets);
  urlTokens : list (string * UrlTokenEntry);
}.

(** The readings of one request, in the order the code takes them. *)
Record Clock := {
  at_bearer : Z;
  at_touch : Z;
  at_cookie : Z;
  at_prune : Z;
  at_entry : Z;
  at_parent : Z;
}.

Definition with_store (ui : Ui) (s : Store) : Ui :=
  {| native := native ui; jwt := jwt ui; secretFile := secretFile ui; clientStore := s; limiter := limiter ui; hashes := hashes ui; urlTokens := urlTokens ui |}.
Definition with_limiter (ui : Ui) (l : gmap string Bucket) : Ui :=
  {| native := native ui; jwt := jwt ui; secretFile := secretFile ui; clientStore := clientStore ui; limiter := l; hashes := hashes ui; urlTokens := urlTokens ui |}.
Definition with_hashes (ui : Ui) (h : list (string * PasswordSecrets)) : Ui :=
  {| native := native ui; jwt := jwt ui; secretFile := secretFile ui; clientStore := clientStore ui; limiter := limiter ui; hashes := h; urlTokens := urlTokens ui |}.
Definition with_url_tokens (ui : Ui) (m : list (string * UrlTokenEntry)) : Ui :=
  {| native := native ui; jwt := jwt ui; secretFile := secretFile ui; clientStore := clientStore ui; limiter := limiter ui; hashes := hashes ui; urlTokens := m |}.
Definition with_native (ui : Ui) (n : option NativeUi) : Ui :=
  {| native := n; jwt := jwt ui; secretFile := secretFile ui; clientStore := clientStore ui; limiter := limiter ui; hashes := hashes ui; urlTokens := urlTokens ui |}.
Definition with_jwt (ui : Ui) (s : JwtSecret) (file : option string) : Ui :=
  {| native := native ui; jwt := s; secretFile := file; clientStore := clientStore ui; limiter := limiter ui; hashes := hashes ui; urlTokens := urlTokens ui |}.

(** ** The modes *)

Definition is_native (ui : Ui) : bool := match native ui with Some _ => true | None => false end.

Definition nativeRequestAllowed (ui : Ui) (h : Headers) (url : URL) : bool :=
  match native ui with Some n => allowed n h url | None => true end.

Definition loopbackPeer (peer : option string) : bool :=
  match peer with Some a => bool_decide (a ∈ LOOPBACK_PEERS) | None => false end.

Definition openIsPrincipal (ui : Ui) (g : AuthGranted) : bool :=
  match g with GrantOpen => is_native ui | _ => false end.

(** ** URL tokens *)

Definition pruneExpiredUrlTokens (ui : Ui) (now : Z) : Ui :=
  with_url_tokens ui (filter (fun kv => (now < expiresAt kv.2)%Z) (urlTokens ui)).

(** Drops the oldest entries until there is room for one more. *)
Definition make_room (options : Options) (m : list (string * UrlTokenEntry)) : list (string * UrlTokenEntry) :=
  drop (Z.to_nat (Zlen m - urlTokenBudget options + 1)) m.

Definition storeUrlToken (options : Options) (ui : Ui) (p random : string) (prune now : Z) : Ui * (string * string) :=
  let ui := pruneExpiredUrlTokens ui prune in
  let expires := (now + urlTokenTtlMs options)%Z in
  let token := "oc_url_" +:+ random in
  (with_url_tokens ui (jset token {| parent := p; expiresAt := expires |} (make_room options (urlTokens ui))), (token, toISOString expires)).

Definition resolveUrlToken (ui : Ui) (token : string) (prune now : Z) : Ui * option string :=
  let ui := pruneExpiredUrlTokens ui prune in
  (ui, match jget token (urlTokens ui) with
       | Some entry => if bool_decide (expiresAt entry <= now)%Z then None else Some (parent entry)
       | None => None
       end).

Section controller.
  Context {sha : Sha256} {codec : TokenCodec} {hash : PasswordHash}.
  Variable other : json -> option Z.
  Variable options : Options.

Definition passwordRequired (pw : string) : bool := negb (bool_decide (normalizedPassword (Some (JStr pw)) = "")).
Definition authRequired (ui : Ui) (pw : string) : bool := is_native ui || passwordRequired pw.

Definition methods (ui : Ui) (pw : string) : json :=
  JArr ((if is_native ui then [JStr "native-bootstrap"] else []) ++ (if passwordRequired pw then [JStr "password"] else [])).

Definition deniedAction (ui : Ui) (pw : string) : RouteAction :=
  {| status := 401; body := [("authenticated", JBool false); ("locked", JBool true); ("authRequired", JBool (authRequired ui pw)); ("methods", methods ui pw)];
     setCookie := None; clearSessionCookie := false; headers := [("cache-control", NO_STORE)] |}.

Definition locked_denial (clear : bool) : AuthDenied :=
  {| d_status := 401; d_body := [("error", JStr "UI authentication required"); ("locked", JBool true)]; d_clearSessionCookie := clear;
     d_headers := [("cache-control", NO_STORE)] |}.

(** ** Credentials *)

(** The grant of the session cookie, and whether a failing cookie is to be cleared. *)
Definition byCookie (ui : Ui) (h : Headers) (now : Z) : option AuthGranted * bool :=
  match jget UI_SESSION_COOKIE (parseCookies (jget "cookie" h)) with
  | None => (None, false)
  | Some raw =>
    if bool_decide (raw = "") then (None, false)
    else if verifySessionJwt (secret (jwt ui)) raw now then (Some (GrantSession raw), false)
    else (None, true)
  end.

Definition requireSessionCookie (ui : Ui) (h : Headers) (now : Z) : bool :=
  match (byCookie ui h now).1 with Some _ => true | None => false end.

Definition byParentToken (ui : Ui) (p : string) (now : Z) : option AuthGranted :=
  if starts_with CLIENT_URL_PARENT_PREFIX p then
    if is_native ui then None
    else
      let i := sdrop (String.length CLIENT_URL_PARENT_PREFIX) p in
      match (if bool_decide (i = "") then None else getActiveClient other (clientStore ui) (Some (JStr i)) now) with
      | Some client => Some (GrantClient p (id client))
      | None => None
      end
  else if verifySessionJwt (secret (jwt ui)) p now then Some (GrantSession p)
  else None.

Definition upgrading (h : Headers) : bool := negb (bool_decide (default "" (jget "upgrade" h) = "")).

Definition byUrlToken (ui : Ui) (h : Headers) (url : URL) (method : string) (clock : Clock) : Ui * option AuthGranted :=
  match firstQueryParam url with
  | None => (ui, None)
  | Some token =>
    if urlTokenTargetAllowed method (pathname url) (upgrading h) then
      let '(ui, p) := resolveUrlToken ui token (at_prune clock) (at_entry clock) in
      (ui, match p with Some p => byParentToken ui p (at_parent clock) | None => None end)
    else (ui, None)
  end.

(** [bearer.replace(/^Bearer\s+/iu, '')] *)
Definition strip_bearer (b : string) : string :=
  if bool_decide (toLowerCase (stake 6 b) = "bearer") && negb (bool_decide (trimStart (sdrop 6 b) = sdrop 6 b)) then trimStart (sdrop 6 b) else b.

(** The hint of a relay connection is not given on this path. *)
Definition byBearer (ui : Ui) (bearer : string) (clock : Clock) (written : bool) : Ui * AuthOutcome :=
  if is_native ui then (ui, Denied (locked_denial false))
  else match authenticateBearerToken other (clientStore ui) (strip_bearer bearer) false (at_bearer clock) (at_touch clock) written with
       | (s, Some i) => (with_store ui s, Granted (GrantClient i i))
       | (s, None) => (with_store ui s, Denied (locked_denial false))
       end.

Definition authenticate (ui : Ui) (pw : string) (h : Headers) (url : URL) (method : string) (urlTokensEnabled : bool) (peer : option string)
    (clock : Clock) (written : bool) : Ui * AuthOutcome :=
  if negb (nativeRequestAllowed ui h url) then
    let d := deniedAction ui pw in
    (ui, Denied {| d_status := status d; d_body := body d; d_clearSessionCookie := false; d_headers := headers d |})
  else if is_native ui && loopbackPeer peer then (ui, Granted GrantOpen)
  else match jget "authorization" h with
       | Some bearer => byBearer ui bearer clock written
       | None =>
         match byCookie ui h (at_cookie clock) with
         | (Some g, _) => (ui, Granted g)
         | (None, clear) =>
           let '(ui, fromUrlToken) := if urlTokensEnabled then byUrlToken ui h url method clock else (ui, None) in
           match fromUrlToken with
           | Some g => (ui, Granted g)
           | None => if negb (authRequired ui pw) then (ui, Granted GrantOpen) else (ui, Denied (locked_denial clear))
           end
         end
       end.

(** Device credentials only: no cookie, no open pass. *)
Definition credentialGrant (ui : Ui) (h : Headers) (url : URL) (method : string) (urlTokensEnabled : bool) (clock : Clock) (written : bool) : Ui * bool :=
  if negb (nativeRequestAllowed ui h url) then (ui, false)
  else match jget "authorization" h with
       | Some bearer => let '(ui, out) := byBearer ui bearer clock written in (ui, match out with Granted _ => true | Denied _ => false end)
       | None =>
         let '(ui, fromUrlToken) := if urlTokensEnabled then byUrlToken ui h url method clock else (ui, None) in
         (ui, match fromUrlToken with Some _ => true | None => false end)
       end.

Definition upgradeAllowed (ui : Ui) (pw : string) (url : URL) (h : Headers) (method : string) (clock : Clock) (written : bool) : Ui * bool :=
  let '(ui, out) := authenticate ui pw h url method true None clock written in (ui, match out with Granted _ => true | Denied _ => false end).

Definition scope_name (g : AuthGranted) : string :=
  match g with GrantOpen => "open" | GrantSession _ => "session" | GrantClient _ _ => "client" end.

Definition sessionStatus (ui : Ui) (pw : string) (h : Headers) (url : URL) (method : string) (peer : option string) (clock : Clock) (written : bool)
  : Ui * RouteAction :=
  let answer s b clear := {| status := s; body := b; setCookie := None; clearSessionCookie := clear; headers := [("cache-control", NO_STORE)] |} in
  if is_native ui && loopbackPeer peer then
    (ui, answer 200 [("authenticated", JBool true); ("scope", JStr "open"); ("authRequired", JBool false); ("methods", methods ui pw); ("passkeys", JBool false)] false)%Z
  else match authenticate ui pw h url method true None clock written with
       | (ui, Granted g) =>
         (ui, answer 200 [("authenticated", JBool true); ("scope", JStr (scope_name g)); ("authRequired", JBool (authRequired ui pw));
                          ("methods", if is_native ui then methods ui pw else JArr [JStr "password"]); ("passkeys", JBool false)] false)%Z
       | (ui, Denied d) =>
         (ui, answer 401 [("authenticated", JBool false); ("locked", JBool true); ("authRequired", JBool (authRequired ui pw)); ("methods", methods ui pw)]
                (d_clearSessionCookie d))%Z
       end.

(** ** Logins *)

(** What a mint of a device token draws and reads. *)
Record MintDraw := { m_now : Z; m_random : string; m_uuid : string; m_created : Z; m_used : Z; m_written : bool }.

(** A member that is a text with something in it, as it stands. *)
Definition stringField (b : json) (key : string) : option string :=
  match jfield key b with Some (JStr v) => if bool_decide (trim v = "") then None else Some v | _ => None end.

Definition sanitizeOutboundClient (r : RemoteClientRecord) : json :=
  match record_json r with JObj fields => JObj (filter (fun kv => kv.1 <> "tokenHash") fields) | v => v end.

Definition maybeMintClientToken (ui : Ui) (b : json) (ttlMs : Z) (draw : MintDraw) : Ui * list (string * json) :=
  if is_native ui then (ui, [])
  else if negb (is_true (jfield "issueClientToken" b)) then (ui, [])
  else
    let kind := match jfield "clientKind" b with Some (JStr k) => k | _ => "" end in
    if bool_decide (kind ∉ DESKTOP_MINT_KINDS) then (ui, [])
    else
      let input := {| in_authMethod := Some "password"; in_dedupeKey := stringField b "dedupeKey"; in_clientKind := Some kind;
                      in_label := stringField b "clientLabel"; in_fallbackLabel := None; in_pairingId := None; in_usesRelay := false;
                      in_deviceName := stringField b "deviceName"; in_devicePlatform := stringField b "devicePlatform";
                      in_deviceModel := stringField b "deviceModel"; in_appVersion := stringField b "appVersion";
                      in_expiresAt := Some (toISOString (m_now draw + ttlMs)) |} in
      let '(s, (client, token)) := createClient (clientStore ui) input (m_random draw) (m_uuid draw) (m_created draw) (m_used draw) (m_written draw) in
      (with_store ui s, [("clientToken", JStr token); ("client", sanitizeOutboundClient client)]).

Definition issueSessionToken (ui : Ui) (ttlMs now : Z) : exc string (string * string) :=
  if match native ui with Some n => closed n | None => false end then Throw "Native UI authentication is closed"
  else Ok (signSessionJwt (secret (jwt ui)) now (now + ttlMs), toISOString (now + ttlMs)).

Definition ttl_of (b : json) : Z := if is_true (jfield "trustDevice" b) then trustSessionTtlMs options else sessionTtlMs options.

Definition grantedLogin (ui : Ui) (pw ip : string) (b : json) (h : Headers) (url : URL) (draw : MintDraw) (issueAt cookieAt : Z) : Ui * exc string RouteAction :=
  if negb (nativeRequestAllowed ui h url) then (ui, Ok (deniedAction ui pw))
  else
    let ttl := ttl_of b in
    let ui := with_limiter ui (AuthLimits.clear (limiter ui) ip) in
    let '(ui, mint) := maybeMintClientToken ui b ttl draw in
    (ui, match issueSessionToken ui ttl issueAt with
         | Throw e => Throw e
         | Ok (token, _) =>
           Ok {| status := 200; body := ("authenticated", JBool true) :: mint;
                 setCookie := Some (sessionCookieHeaderValue token ttl cookieAt (secureFromHeaders h url));
                 clearSessionCookie := false; headers := [("cache-control", NO_STORE)] |}
         end).

(** The readings of a login: the limiter's, then the two of a recorded failure, the
    token's and the cookie's. *)
Record LoginClock := { at_attempt : Z; at_record : Z; at_record2 : Z; at_issue : Z; at_header : Z }.

Definition login (ui : Ui) (pw ip : string) (b : json) (h : Headers) (url : URL) (fresh : string) (draw : MintDraw) (clock : LoginClock) : Ui * exc string RouteAction :=
  let noStore := [("cache-control", NO_STORE)] in
  if negb (nativeRequestAllowed ui h url) || (is_native ui && negb (passwordRequired pw)) then (ui, Ok (deniedAction ui pw))
  else if negb (passwordRequired pw) then
    let '(ui, mint) := maybeMintClientToken ui b (ttl_of b) draw in
    (ui, Ok {| status := 200; body := ("authenticated", JBool true) :: mint; setCookie := None; clearSessionCookie := false; headers := noStore |})
  else
    let '(l, r) := attempt (rate options) (limiter ui) ip (at_attempt clock) in
    let ui := with_limiter ui l in
    if negb (AuthLimits.allowed r) then
      (ui, Ok {| status := 429; body := [("error", JStr "Too many failed login attempts"); ("locked", JBool true)]; setCookie := None;
                 clearSessionCookie := true; headers := noStore ++ rateLimitHeaders r |})
    else
      let '(c, ok) := verifyPassword (hashes ui) pw (jfield "password" b) fresh in
      let ui := with_hashes ui c in
      if negb ok then
        (with_limiter ui (record (rate options) (limiter ui) ip (at_record clock) (at_record2 clock)),
         Ok {| status := 401; body := [("error", JStr "Invalid credentials")]; setCookie := None; clearSessionCookie := true;
               headers := noStore ++ rateLimitHeaders r |})
      else grantedLogin (with_limiter ui (AuthLimits.clear (limiter ui) ip)) pw ip b h url draw (at_issue clock) (at_header clock).

Definition nativeBootstrap (ui : Ui) (pw : string) (b : json) (h : Headers) (url : URL) (peer : option string) (now1 now2 : Z) (draw : MintDraw) (issueAt cookieAt : Z)
  : Ui * exc string RouteAction :=
  match native ui with
  | None => (ui, Ok (deniedAction ui pw))
  | Some n =>
    let '(n, ok) := consume n b h url peer now1 now2 in
    let ui := with_native ui (Some n) in
    if ok then grantedLogin ui pw (default "" peer) (JObj []) h url draw issueAt cookieAt else (ui, Ok (deniedAction ui pw))
  end.

Definition rateAttemptLogin (ui : Ui) (ip : string) (now : Z) : Ui * (bool * list (string * string)) :=
  let '(l, r) := attempt (rate options) (limiter ui) ip now in
  (with_limiter ui l, if AuthLimits.allowed r then (true, []) else (false, ("cache-control", NO_STORE) :: rateLimitHeaders r)).

Definition rateRecordLogin (ui : Ui) (ip : string) (t t2 : Z) : Ui := with_limiter ui (record (rate options) (limiter ui) ip t t2).

(** ** URL tokens and the global sign-out *)

Definition parent_of (g : AuthGranted) : string :=
  match g with
  | GrantClient _ i => CLIENT_URL_PARENT_PREFIX +:+ i
  | GrantSession token => token
  | GrantOpen => ""
  end.

Definition mintUrlTokenFromRequest (ui : Ui) (pw : string) (h : Headers) (url : URL) (method random : string) (clock : Clock) (written : bool) (prune now : Z)
  : Ui * RouteAction :=
  match authenticate ui pw h url method false None clock written with
  | (ui, Denied d) =>
    (ui, {| status := d_status d; body := d_body d; setCookie := None; clearSessionCookie := d_clearSessionCookie d; headers := d_headers d |})
  | (ui, Granted g) =>
    let '(ui, (token, expires)) := storeUrlToken options ui (parent_of g) random prune now in
    (ui, {| status := 200; body := [("token", JStr token); ("expiresAt", JStr expires)]; setCookie := None; clearSessionCookie := false;
            headers := [("cache-control", NO_STORE)] |})
  end.

(** [next2] is the second secret the native mode draws. *)
Definition resetSessionAuth (ui : Ui) (h : Headers) (now : Z) (next next2 : string) (written : bool) : Ui * RouteAction :=
  let raw := jget UI_SESSION_COOKIE (parseCookies (jget "cookie" h)) in
  let answer s b clear := {| status := s; body := b; setCookie := None; clearSessionCookie := clear; headers := [("cache-control", NO_STORE)] |} in
  if negb (match raw with Some t => verifySessionJwt (secret (jwt ui)) t now | None => false end) then
    (ui, answer 401%Z [("error", JStr "UI authentication required"); ("locked", JBool true)] (match raw with Some _ => true | None => false end))
  else match rotate (jwt ui) (secretFile ui) next written with
       | Throw e => (ui, answer 403%Z [("error", JStr e)] false)
       | Ok (s, file) =>
         let ui := with_url_tokens (with_jwt ui s file) [] in
         let ui := match native ui with
                   | Some n => with_jwt (with_native ui (Some (invalidate n))) {| source := SourceMemory; secret := next2 |} file
                   | None => ui
                   end in
         (ui, answer 200%Z [("authenticated", JBool false); ("reset", JBool true)] true)
       end.

Definition close (ui : Ui) (next : string) : Ui :=
  let ui := match native ui with
            | Some n => with_jwt (with_native ui (Some (AuthNative.close n))) {| source := SourceMemory; secret := next |} (secretFile ui)
            | None => ui
            end in
  with_url_tokens ui [].

(** ** Who is let in *)

(** What a request presents that is worth the grant, at the times the code looks. *)
Inductive justified (ui : Ui) (pw : string) (h : Headers) (url : URL) (method : string) (urlTokensEnabled : bool) (peer : option string) (clock : Clock) : AuthGranted -> Prop :=
| just_window : is_native ui = true -> loopbackPeer peer = true -> justified ui pw h url method urlTokensEnabled peer clock GrantOpen
| just_open : authRequired ui pw = false -> jget "authorization" h = None -> justified ui pw h url method urlTokensEnabled peer clock GrantOpen
| just_bearer b i : is_native ui = false -> jget "authorization" h = Some b ->
    (forall w, (authenticateBearerToken other (clientStore ui) (strip_bearer b) false (at_bearer clock) (at_touch clock) w).2 = Some i) ->
    justified ui pw h url method urlTokensEnabled peer clock (GrantClient i i)
| just_cookie t : jget "authorization" h = None -> jget UI_SESSION_COOKIE (parseCookies (jget "cookie" h)) = Some t -> t <> "" ->
    verifySessionJwt (secret (jwt ui)) t (at_cookie clock) = true ->
    justified ui pw h url method urlTokensEnabled peer clock (GrantSession t)
| just_url q e g : jget "authorization" h = None -> urlTokensEnabled = true -> firstQueryParam url = Some q ->
    urlTokenTargetAllowed method (pathname url) (upgrading h) = true ->
    (q, e) ∈ urlTokens ui -> (at_prune clock < expiresAt e)%Z -> (at_entry clock < expiresAt e)%Z ->
    byParentToken ui (parent e) (at_parent clock) = Some g ->
    justified ui pw h url method urlTokensEnabled peer clock g.

Lemma resolve_spec ui q prune now p : jwf (urlTokens ui) ->
  (resolveUrlToken ui q prune now).2 = Some p <->
  exists e, (q, e) ∈ urlTokens ui /\ parent e = p /\ (prune < expiresAt e)%Z /\ (now < expiresAt e)%Z.
Proof.
  intros Hwf. unfold resolveUrlToken. cbn [snd urlTokens pruneExpiredUrlTokens with_url_tokens]. split.
  - destruct (jget q (filter _ _)) as [e|] eqn:E; [|done]. case_bool_decide as Ht; [done|]. intros [= <-].
    apply (jget_filter (fun kv => (prune < expiresAt kv.2)%Z)) in E as [E HP]; [|done]. exists e.
    split_and!; [by apply jget_Some_elem|done|done|lia].
  - intros (e & Hin & <- & Hp & Hn).
    assert (jget q (filter (fun kv => (prune < expiresAt kv.2)%Z) (urlTokens ui)) = Some e) as ->.
    { apply (jget_filter (fun kv => (prune < expiresAt kv.2)%Z)); [done|]. split; [by apply jget_elem|done]. }
    rewrite bool_decide_false by lia. done.
Qed.

(** Resolving a URL token touches nothing the parent is judged by. *)
Lemma byParent_pruned ui prune p now : byParentToken (pruneExpiredUrlTokens ui prune) p now = byParentToken ui p now.
Proof. done. Qed.

Lemma byUrlToken_spec ui h url method clock g : jwf (urlTokens ui) ->
  (byUrlToken ui h url method clock).2 = Some g <->
  exists q e, firstQueryParam url = Some q /\ urlTokenTargetAllowed method (pathname url) (upgrading h) = true /\
    (q, e) ∈ urlTokens ui /\ (at_prune clock < expiresAt e)%Z /\ (at_entry clock < expiresAt e)%Z /\
    byParentToken ui (parent e) (at_parent clock) = Some g.
Proof.
  intros Hwf. unfold byUrlToken. destruct (firstQueryParam url) as [q|]; [|split; [done|by intros (q & e & [=] & _)]].
  destruct (urlTokenTargetAllowed _ _ _) eqn:Et; [|split; [done|by intros (q' & e & _ & [=] & _)]].
  pose proof (resolve_spec ui q (at_prune clock) (at_entry clock)) as Hr.
  destruct (resolveUrlToken ui q (at_prune clock) (at_entry clock)) as [ui' p] eqn:E. cbn [snd] in *.
  assert (ui' = pruneExpiredUrlTokens ui (at_prune clock)) as -> by by injection E.
  split.
  - destruct p as [p|]; [|done]. rewrite byParent_pruned. intros Hg. destruct (proj1 (Hr p Hwf) eq_refl) as (e & H1 & <- & H2 & H3). by exists q, e.
  - intros (q' & e & [= <-] & _ & Hin & H1 & H2 & Hg). rewrite (proj2 (Hr (parent e) Hwf)) by by exists e. by rewrite byParent_pruned.
Qed.

Lemma bearer_write_free ui b clock w w' :
  (authenticateBearerToken other (clientStore ui) b false (at_bearer clock) (at_touch clock) w).2 =
  (authenticateBearerToken other (clientStore ui) b false (at_bearer clock) (at_touch clock) w').2.
Proof. unfold authenticateBearerToken. destruct (negb _); [done|]. destruct (find_client _ _) as [r|]; [|done]. destruct (negb _); [done|]. by destruct (expired _ _ _). Qed.

Lemma byCookie_spec ui h now g : (byCookie ui h now).1 = Some g <->
  exists t, g = GrantSession t /\ jget UI_SESSION_COOKIE (parseCookies (jget "cookie" h)) = Some t /\ t <> "" /\ verifySessionJwt (secret (jwt ui)) t now = true.
Proof.
  unfold byCookie. destruct (jget UI_SESSION_COOKIE _) as [raw|]; [|split; [done|by intros (t & _ & [=] & _)]].
  case_bool_decide as E; [split; [done|by intros (t & _ & [= <-] & ? & _)]|].
  destruct (verifySessionJwt _ raw now) eqn:Ev; cbn [fst].
  - split; [intros [= <-]; by exists raw|by intros (t & -> & [= <-] & _)].
  - split; [done|by intros (t & _ & [= <-] & _ & Hv); rewrite Hv in Ev].
Qed.

(** The branches without an Authorization header. *)
Definition unbearered (ui : Ui) (pw : string) (h : Headers) (url : URL) (method : string) (urlTokensEnabled : bool) (clock : Clock) : Ui * AuthOutcome :=
  match byCookie ui h (at_cookie clock) with
  | (Some g, _) => (ui, Granted g)
  | (None, clear) =>
    let '(ui, fromUrlToken) := if urlTokensEnabled then byUrlToken ui h url method clock else (ui, None) in
    match fromUrlToken with
    | Some g => (ui, Granted g)
    | None => if negb (authRequired ui pw) then (ui, Granted GrantOpen) else (ui, Denied (locked_denial clear))
    end
  end.

Lemma byUrlToken_native ui h url method clock : is_native (byUrlToken ui h url method clock).1 = is_native ui.
Proof. unfold byUrlToken. destruct (firstQueryParam url); [|done]. by destruct (urlTokenTargetAllowed _ _ _). Qed.

Lemma unbearered_spec ui pw h url method urlTokensEnabled peer clock :
  jwf (urlTokens ui) -> jget "authorization" h = None -> is_native ui && loopbackPeer peer = false ->
  match (unbearered ui pw h url method urlTokensEnabled clock).2 with
  | Granted g => justified ui pw h url method urlTokensEnabled peer clock g
  | Denied _ => forall g, ~ justified ui pw h url method urlTokensEnabled peer clock g
  end.
Proof.
  intros Hwf Ea Ew. unfold unbearered. destruct (byCookie ui h (at_cookie clock)) as [[g|] clr] eqn:Ec; cbn [snd].
  { destruct (proj1 (byCookie_spec ui h (at_cookie clock) g)) as (t & -> & H1 & H2 & H3); [by rewrite Ec|]. by eapply just_cookie. }
  assert (forall t, (byCookie ui h (at_cookie clock)).1 <> Some (GrantSession t)) as Hnc by by rewrite Ec.
  destruct (if urlTokensEnabled then _ else _) as [ui' g'] eqn:Eu.
  assert (forall g, g' = Some g <-> urlTokensEnabled = true /\ (byUrlToken ui h url method clock).2 = Some g) as Hg'.
  { intros g. destruct urlTokensEnabled; [rewrite Eu; by split; [|intros []]|]. injection Eu as <- <-. by split; [|intros []]. }
  assert (authRequired ui' pw = authRequired ui pw) as ->.
  { unfold authRequired. destruct urlTokensEnabled; [|by injection Eu as <-]. pose proof (byUrlToken_native ui h url method clock) as Hn. rewrite Eu in Hn. by rewrite <- Hn. }
  destruct g' as [g|]; cbn [snd].
  { destruct (proj1 (Hg' g) eq_refl) as [-> Hu]. apply byUrlToken_spec in Hu as (q & e & ? & ? & ? & ? & ? & ?); [|done]. by eapply just_url. }
  destruct (authRequired ui pw) eqn:Er; cbn [negb snd]; [|by apply just_open].
  intros g Hj. inversion Hj as [H1 H2|H1|b i _ Hb|t _ H1 H2 H3|q e g0 _ H0 H1 H2 H3 H4 H5 H6]; subst.
  - by rewrite H1, H2 in Ew.
  - congruence.
  - congruence.
  - apply (Hnc t), byCookie_spec. by exists t.
  - enough (None = Some g) by done. apply Hg'. split; [done|]. apply byUrlToken_spec; [done|]. by exists q, e.
Qed.

(** C32. A request is let in exactly when it presents a credential that is good now. When
    the controller grants, the request was admissible in native mode and the grant is
    justified: the window on this machine, a bearer token of an active device, the
    session cookie verified under the current secret, a live URL token on an allowed
    target whose parent is still good, or no password is configured; with an
    Authorization header nothing but the bearer counts. When it denies, nothing
    the request presents justifies any grant. *)
Theorem access_is_exactly_justified ui pw h url method urlTokensEnabled peer clock written :
  jwf (urlTokens ui) ->
  match (authenticate ui pw h url method urlTokensEnabled peer clock written).2 with
  | Granted g => nativeRequestAllowed ui h url = true /\ justified ui pw h url method urlTokensEnabled peer clock g
  | Denied _ => nativeRequestAllowed ui h url = true -> forall g, ~ justified ui pw h url method urlTokensEnabled peer clock g
  end.
Proof.
  intros Hwf. unfold authenticate. destruct (nativeRequestAllowed ui h url) eqn:En; cbn [negb]; [|done].
  destruct (is_native ui && loopbackPeer peer) eqn:Ew; cbn [snd].
  { apply andb_true_iff in Ew as [? ?]. split; [done|by apply just_window]. }
  assert (is_native ui = true -> loopbackPeer peer = true -> False) as Hw by (intros H1 H2; by rewrite H1, H2 in Ew).
  destruct (jget "authorization" h) as [b|] eqn:Ea.
  - unfold byBearer. destruct (is_native ui) eqn:Enat; cbn [snd].
    { intros _ g Hj. inversion Hj; try congruence; eauto. }
    destruct (authenticateBearerToken _ _ _ _ _ _ written) as [s [i|]] eqn:Eb; cbn [snd].
    + split; [done|]. eapply just_bearer; [done|done|]. intros w. rewrite (bearer_write_free _ _ _ _ written). by rewrite Eb.
    + intros _ g Hj. inversion Hj as [H1 H2| | b' i' _ Hb Hi| |]; try congruence.
      rewrite Ea in Hb. injection Hb as <-. specialize (Hi written). by rewrite Eb in Hi.
  - fold (unbearered ui pw h url method urlTokensEnabled clock).
    pose proof (unbearered_spec ui pw h url method urlTokensEnabled peer clock Hwf Ea Ew) as H.
    by destruct (unbearered _ _ _ _ _ _ _).2 as [g|d].
Qed.

(** ** Histories of URL tokens *)

Inductive UOp :=
| URequest (pw : string) (h : Headers) (url : URL) (method : string) (urlTokensEnabled : bool) (peer : option string) (clock : Clock) (written : bool)
| UMint (pw : string) (h : Headers) (url : URL) (method random : string) (clock : Clock) (written : bool) (prune now : Z)
| ULogin (pw ip : string) (b : json) (h : Headers) (url : URL) (fresh : string) (draw : MintDraw) (clock : LoginClock)
| UBootstrap (pw : string) (b : json) (h : Headers) (url : URL) (peer : option string) (now1 now2 : Z) (draw : MintDraw) (issueAt cookieAt : Z)
| UReset (h : Headers) (now : Z) (next next2 : string) (written : bool)
| UStore (s : Store)
| UClose (next : string).

(** A URL token was minted for a grant; all of them were dropped. *)
Inductive UEvent :=
| Minted (token : string) (g : AuthGranted) (deadline : Z)
| Wiped.

Definition ustep (ui : Ui) (op : UOp) : Ui * list UEvent :=
  match op with
  | URequest pw h url method ute peer clock w => ((authenticate ui pw h url method ute peer clock w).1, [])
  | UMint pw h url method random clock w prune now =>
    ((mintUrlTokenFromRequest ui pw h url method random clock w prune now).1,
     match (authenticate ui pw h url method false None clock w).2 with
     | Granted g => [Minted ("oc_url_" +:+ random) g (now + urlTokenTtlMs options)]
     | Denied _ => []
     end)
  | ULogin pw ip b h url fresh draw clock => ((login ui pw ip b h url fresh draw clock).1, [])
  | UBootstrap pw b h url peer now1 now2 draw issueAt cookieAt => ((nativeBootstrap ui pw b h url peer now1 now2 draw issueAt cookieAt).1, [])
  | UReset h now next next2 w =>
    let '(ui', a) := resetSessionAuth ui h now next next2 w in (ui', if bool_decide (status a = 200%Z) then [Wiped] else [])
  | UStore s => (with_store ui s, [])
  | UClose next => (close ui next, [Wiped])
  end.

Fixpoint uexecute (ui : Ui) (ops : list UOp) : Ui * list UEvent :=
  match ops with
  | [] => (ui, [])
  | op :: ops => let '(u1, es) := ustep ui op in let '(u2, es') := uexecute u1 ops in (u2, es ++ es')
  end.

Definition keeps (q : string) (e : UEvent) : Prop := match e with Minted t _ _ => t <> q | Wiped => False end.

Definition minted_ok (es : list UEvent) (kv : string * UrlTokenEntry) : Prop :=
  exists before g dl rest, es = before ++ Minted kv.1 g dl :: rest /\ parent kv.2 = parent_of g /\ expiresAt kv.2 = dl /\ Forall (keeps kv.1) rest.

Definition room : nat := Z.to_nat (Z.max 1 (urlTokenBudget options)).

Record tokens_ok (es : list UEvent) (m : list (string * UrlTokenEntry)) : Prop := {
  tokens_minted : Forall (minted_ok es) m;
  tokens_map : jwf m;
  tokens_budget : length m <= room;
}.

Lemma tokens_sub es m m' : tokens_ok es m -> m' `sublist_of` m -> tokens_ok es m'.
Proof.
  intros [H1 H2 H3] Hs. constructor.
  - apply Forall_forall. intros x Hx. rewrite Forall_forall in H1. apply H1. by eapply elem_of_sublist.
  - unfold jwf, jkeys. eapply sublist_NoDup; [exact H2|]. by apply fmap_sublist.
  - apply sublist_length in Hs. lia.
Qed.

Lemma tokens_wiped es : tokens_ok (es ++ [Wiped]) [].
Proof. constructor; [constructor|constructor|cbn; lia]. Qed.

Lemma tokens_mint es m q g dl : tokens_ok es m ->
  tokens_ok (es ++ [Minted q g dl]) (jset q {| parent := parent_of g; expiresAt := dl |} (make_room options m)).
Proof.
  intros H. assert (tokens_ok es (make_room options m)) as [H1 H2 _] by (eapply tokens_sub; [done|]; apply sublist_drop).
  destruct H as [_ _ H3]. constructor; [|by apply jwf_set|].
  - apply Forall_forall. intros [k v] Hkv. destruct (decide (k = q)) as [->|Hne].
    + pose proof (jget_elem _ _ _ (jwf_set q {| parent := parent_of g; expiresAt := dl |} _ H2) Hkv) as Hg. rewrite jget_set_eq in Hg. injection Hg as <-.
      by exists es, g, dl, [].
    + destruct (elem_of_jset _ _ _ _ Hkv) as [[= -> _]|Hin]; [done|]. rewrite Forall_forall in H1.
      destruct (H1 _ Hin) as (b & g' & d & r & -> & E1 & E2 & E3). exists b, g', d, (r ++ [Minted q g dl]). split; [by rewrite <- app_assoc|].
      split_and!; [done|done|]. apply Forall_app. split; [done|]. constructor; [|constructor]. exact (not_eq_sym Hne).
  - pose proof (jsize_set q {| parent := parent_of g; expiresAt := dl |} (make_room options m)) as Hs. unfold jsize in Hs. rewrite Hs.
    unfold make_room in *. rewrite length_drop. unfold room, Zlen in *. destruct (jhas _ _); lia.
Qed.

Lemma byUrlToken_tokens ui h url method clock : urlTokens (byUrlToken ui h url method clock).1 `sublist_of` urlTokens ui.
Proof.
  unfold byUrlToken. destruct (firstQueryParam url); [|done]. destruct (urlTokenTargetAllowed _ _ _); [|done]. apply sublist_filter.
Qed.

Lemma authenticate_tokens ui pw h url method ute peer clock w :
  urlTokens (authenticate ui pw h url method ute peer clock w).1 `sublist_of` urlTokens ui.
Proof.
  unfold authenticate. destruct (negb _); [done|]. destruct (_ && _); [done|]. destruct (jget "authorization" h) as [b|].
  - unfold byBearer. destruct (is_native ui); [done|]. by destruct (authenticateBearerToken _ _ _ _ _ _ _) as [s [i|]].
  - destruct (byCookie ui h _) as [[g|] clr]; [done|]. destruct ute.
    + pose proof (byUrlToken_tokens ui h url method clock) as H. destruct (byUrlToken ui h url method clock) as [ui' [g|]]; [done|]. by destruct (negb _).
    + by destruct (negb _).
Qed.

Lemma mint_tokens ui b ttl draw : urlTokens (maybeMintClientToken ui b ttl draw).1 = urlTokens ui.
Proof. unfold maybeMintClientToken. destruct (is_native ui); [done|]. destruct (negb _); [done|]. case_bool_decide; [done|]. by destruct (createClient _ _ _ _ _ _ _) as [s [c t]]. Qed.

Lemma grantedLogin_tokens ui pw ip b h url draw t1 t2 : urlTokens (grantedLogin ui pw ip b h url draw t1 t2).1 = urlTokens ui.
Proof.
  unfold grantedLogin. destruct (negb _); [done|]. cbv zeta. pose proof (mint_tokens (with_limiter ui (AuthLimits.clear (limiter ui) ip)) b (ttl_of b) draw) as H.
  destruct (maybeMintClientToken _ _ _ _) as [ui' m]. exact H.
Qed.

Lemma login_tokens ui pw ip b h url fresh draw clock : urlTokens (login ui pw ip b h url fresh draw clock).1 = urlTokens ui.
Proof.
  unfold login. cbv zeta. destruct (_ || _); [done|]. destruct (negb (passwordRequired pw)).
  { pose proof (mint_tokens ui b (ttl_of b) draw) as H. by destruct (maybeMintClientToken _ _ _ _) as [ui' m]. }
  destruct (attempt _ _ _ _) as [l r]. destruct (negb (AuthLimits.allowed r)); [done|]. destruct (verifyPassword _ _ _ _) as [c ok].
  destruct ok; cbn [negb]; [|done]. by rewrite grantedLogin_tokens.
Qed.

Lemma ustep_ok es ui op : tokens_ok es (urlTokens ui) -> tokens_ok (es ++ (ustep ui op).2) (urlTokens (ustep ui op).1).
Proof.
  intros H. destruct op as [pw h url method ute peer clock w|pw h url method random clock w prune now|pw ip b h url fresh draw clock|pw b h url peer now1 now2 draw t1 t2|h now next next2 w|s|next];
    cbn [ustep].
  - cbn [fst snd]. rewrite app_nil_r. eapply tokens_sub; [done|]. apply authenticate_tokens.
  - pose proof (authenticate_tokens ui pw h url method false None clock w) as Hs. unfold mintUrlTokenFromRequest.
    destruct (authenticate ui pw h url method false None clock w) as [ui' [g|d]]; cbn [fst snd] in *.
    + apply tokens_mint. eapply tokens_sub; [exact H|]. etrans; [apply sublist_filter|exact Hs].
    + rewrite app_nil_r. by eapply tokens_sub.
  - cbn [fst snd]. by rewrite app_nil_r, login_tokens.
  - cbn [fst snd]. rewrite app_nil_r. unfold nativeBootstrap. destruct (native ui) as [n|]; [|done]. destruct (consume _ _ _ _ _ _ _) as [n' ok].
    destruct ok; [|done]. by rewrite grantedLogin_tokens.
  - unfold resetSessionAuth. cbv zeta. destruct (negb _); [cbn; by rewrite app_nil_r|]. destruct (rotate _ _ _ _) as [[s f]|e].
    + cbn [status]. rewrite bool_decide_true by done. cbn [native with_url_tokens with_jwt]. destruct (native ui); exact (tokens_wiped es).
    + cbn. by rewrite app_nil_r.
  - cbn [fst snd]. by rewrite app_nil_r.
  - apply tokens_wiped.
Qed.

Lemma uexecute_ok es ui ops : tokens_ok es (urlTokens ui) ->
  tokens_ok (es ++ (uexecute ui ops).2) (urlTokens (uexecute ui ops).1).
Proof.
  revert es ui. induction ops as [|op ops IH]; intros es ui H; cbn [uexecute]; [by rewrite app_nil_r|].
  pose proof (ustep_ok es ui op H) as H1. destruct (ustep ui op) as [u1 es1]. cbn [fst snd] in H1. specialize (IH _ _ H1).
  destruct (uexecute u1 ops) as [u2 es2]. cbn [fst snd] in *. by rewrite app_assoc.
Qed.

(** A URL token speaks for the credential it was minted with, and no longer than
    that credential and its own time last. In every history of requests, mints, logins,
    sign-outs and changes to the device store, the map of URL tokens keeps at most its
    budget; and when a URL token admits a request, it was minted by a request that
    URL tokens were disabled for and that held a grant other than the open one, it was
    not reminted and the tokens were not dropped since, its time has not passed, and
    its parent, judged again now, gives the grant. *)
Theorem url_tokens_speak_for_their_minter ui ops h url method clock g :
  urlTokens ui = [] ->
  let '(ui', es) := uexecute ui ops in
  length (urlTokens ui') <= room /\
  ((byUrlToken ui' h url method clock).2 = Some g ->
   exists q minter dl before rest, firstQueryParam url = Some q /\ es = before ++ Minted q minter dl :: rest /\ Forall (keeps q) rest /\
     minter <> GrantOpen /\ (at_entry clock < dl)%Z /\ byParentToken ui' (parent_of minter) (at_parent clock) = Some g).
Proof.
  intros Hui. assert (tokens_ok [] (urlTokens ui)) as H0 by (rewrite Hui; constructor; [constructor|constructor|cbn; lia]).
  pose proof (uexecute_ok [] ui ops H0) as H. destruct (uexecute ui ops) as [ui' es]. cbn [fst snd app] in H. destruct H as [H1 H2 H3].
  split; [done|]. intros (q & e & Hq & _ & Hin & _ & He & Hp)%byUrlToken_spec; [|done].
  rewrite Forall_forall in H1. destruct (H1 _ Hin) as (b & m & dl & r & -> & E1 & E2 & E3). cbn [fst snd] in *. subst dl. rewrite E1 in Hp.
  exists q, m, (expiresAt e), b, r. split_and!; try done. by intros ->.
Qed.

(** ** Logins *)

(** Texts of base64url characters, which cookies carry unchanged. *)
Class CookieSafe := {
  segment_is_safe : forall s, sall token_char (encodeSegment s) = true;
  tag_is_safe : forall k s, sall token_char (hmacTag k s) = true;
}.

Lemma signed_is_safe {K : CookieSafe} k iat exp : sall token_char (signSessionJwt k iat exp) = true.
Proof. unfold signSessionJwt, HEADER_SEGMENT. cbv zeta. rewrite !sall_app. by rewrite !segment_is_safe, tag_is_safe. Qed.

Lemma mint_frame ui b ttl draw : native (maybeMintClientToken ui b ttl draw).1 = native ui /\
  jwt (maybeMintClientToken ui b ttl draw).1 = jwt ui /\ limiter (maybeMintClientToken ui b ttl draw).1 = limiter ui /\
  hashes (maybeMintClientToken ui b ttl draw).1 = hashes ui.
Proof. unfold maybeMintClientToken. destruct (is_native ui); [done|]. destruct (negb _); [done|]. case_bool_decide; [done|]. by destruct (createClient _ _ _ _ _ _ _) as [s [c t]]. Qed.

(** The answer of a login: a session cookie, of a token signed for the time to live. *)
Definition opens (ui ui' : Ui) (ip : string) (b : json) (h : Headers) (url : URL) (issueAt cookieAt : Z) (out : exc string RouteAction) : Prop :=
  exists a, out = Ok a /\ status a = 200%Z /\ limiter ui' !! ip = None /\ jwt ui' = jwt ui /\
    setCookie a = Some (sessionCookieHeaderValue (signSessionJwt (secret (jwt ui)) issueAt (issueAt + ttl_of b)) (ttl_of b) cookieAt (secureFromHeaders h url)).

Lemma grantedLogin_opens ui pw ip b h url draw t1 t2 : native ui = None ->
  opens ui (grantedLogin ui pw ip b h url draw t1 t2).1 ip b h url t1 t2 (grantedLogin ui pw ip b h url draw t1 t2).2.
Proof.
  intros Hn. unfold grantedLogin, nativeRequestAllowed. rewrite Hn. cbn [negb]. cbv zeta.
  destruct (mint_frame (with_limiter ui (AuthLimits.clear (limiter ui) ip)) b (ttl_of b) draw) as (H1 & H2 & H3 & _).
  destruct (maybeMintClientToken _ _ _ _) as [ui' m]. cbn [fst snd] in *. unfold issueSessionToken. rewrite H1. cbn [native with_limiter]. rewrite Hn, H2.
  eexists. split; [reflexivity|]. split; [done|]. split; [rewrite H3; cbn; apply lookup_delete_eq|]. by split.
Qed.

(** A live token in the session cookie of a request opens it; an ended one is refused and cleared. *)
Lemma session_cookie_admits {L : TokenCodecLaws codec} {K : CookieSafe} ui pw h url method ute peer clock w iat exp :
  is_native ui = false -> jget "authorization" h = None ->
  jget "cookie" h = Some (UI_SESSION_COOKIE +:+ "=" +:+ signSessionJwt (secret (jwt ui)) iat exp) ->
  is_safe_integer iat = true -> is_safe_integer exp = true -> (iat <= exp)%Z -> String.length (signSessionJwt (secret (jwt ui)) iat exp) <= TOKEN_MAX_CHARS ->
  ((at_cookie clock < exp)%Z -> (authenticate ui pw h url method ute peer clock w).2 = Granted (GrantSession (signSessionJwt (secret (jwt ui)) iat exp))) /\
  ((exp <= at_cookie clock)%Z -> byCookie ui h (at_cookie clock) = (None, true)).
Proof.
  intros Hn Ha Hc Hi He Hle Hlen.
  assert (byCookie ui h (at_cookie clock) =
          if bool_decide (at_cookie clock < exp)%Z then (Some (GrantSession (signSessionJwt (secret (jwt ui)) iat exp)), false) else (None, true)) as H.
  { unfold byCookie. rewrite Hc, cookie_roundtrip by apply signed_is_safe. rewrite bool_decide_false.
    - rewrite signed_verifies by done. by rewrite (bool_decide_true (iat <= exp)%Z).
    - unfold signSessionJwt. cbv zeta. destruct HEADER_SEGMENT; done. }
  split; intros Ht.
  - unfold authenticate, nativeRequestAllowed. unfold is_native in *. destruct (native ui); [done|]. cbn [negb andb]. rewrite Ha, H.
    by rewrite bool_decide_true.
  - rewrite H. rewrite bool_decide_false by lia. done.
Qed.

(** A password login opens a session that lasts its time. Where a password is
    configured, a caller the limiter bars is answered 429 and no password is tried; a
    wrong one, whose key differs from the configured password's under every salt, is
    answered 401 without a cookie, and the failure is counted; the right one is
    answered 200, clears the caller's bucket, and sets a session cookie; and on any
    later state with the same secret, a request that sends that cookie and no bearer is
    granted the session until the time to live from the issue, and not after. *)
Theorem login_opens_a_session {L : TokenCodecLaws codec} {K : CookieSafe} ui pw ip b h url fresh draw clock :
  native ui = None -> passwordRequired pw = true -> cache_ok (hashes ui) ->
  let '(ui', out) := login ui pw ip b h url fresh draw clock in
  let r := (attempt (rate options) (limiter ui) ip (at_attempt clock)).2 in
  let resolved := normalizedPassword (Some (JStr pw)) in
  let given := normalizedPassword (jfield "password" b) in
  (AuthLimits.allowed r = false -> hashes ui' = hashes ui /\ exists a, out = Ok a /\ status a = 429%Z /\ setCookie a = None) /\
  (AuthLimits.allowed r = true -> (forall s, scryptSync given s <> scryptSync resolved s) ->
     limiter ui' = record (rate options) (attempt (rate options) (limiter ui) ip (at_attempt clock)).1 ip (at_record clock) (at_record2 clock) /\
     exists a, out = Ok a /\ status a = 401%Z /\ setCookie a = None) /\
  (AuthLimits.allowed r = true -> given = resolved ->
     let exp := (at_issue clock + ttl_of b)%Z in
     let token := signSessionJwt (secret (jwt ui)) (at_issue clock) exp in
     opens ui ui' ip b h url (at_issue clock) (at_header clock) out /\
     (is_safe_integer (at_issue clock) = true -> is_safe_integer exp = true -> (0 <= ttl_of b)%Z -> String.length token <= TOKEN_MAX_CHARS ->
      forall u pw' h' url' method ute peer c w, native u = None -> jwt u = jwt ui -> jget "authorization" h' = None ->
        jget "cookie" h' = Some (UI_SESSION_COOKIE +:+ "=" +:+ token) ->
        ((at_cookie c < exp)%Z -> (authenticate u pw' h' url' method ute peer c w).2 = Granted (GrantSession token)) /\
        ((exp <= at_cookie c)%Z -> byCookie u h' (at_cookie c) = (None, true)))).
Proof.
  intros Hn Hp Hc. unfold login, is_native, nativeRequestAllowed. rewrite Hn, Hp. cbn [negb orb andb]. cbv zeta.
  destruct (attempt (rate options) (limiter ui) ip (at_attempt clock)) as [l r]. cbn [fst snd].
  destruct (AuthLimits.allowed r); cbn [negb]; [|split_and!; [by intros _; split; [|eexists]|done|done]].
  cbn [hashes with_limiter]. pose proof (verify_spec (hashes ui) pw (jfield "password" b) fresh Hc) as (Hv1 & Hv2 & Hv3).
  destruct (verifyPassword (hashes ui) pw (jfield "password" b) fresh) as [c ok]. cbn [fst snd] in *.
  assert (normalizedPassword (Some (JStr pw)) <> "") as Hr by (unfold passwordRequired in Hp; by case_bool_decide).
  destruct ok; cbn [negb].
  - set (ui2 := with_limiter (with_hashes _ _) _). pose proof (grantedLogin_opens ui2 pw ip b h url draw (at_issue clock) (at_header clock) Hn) as Ho.
    destruct (grantedLogin ui2 pw ip b h url draw (at_issue clock) (at_header clock)) as [ui' out]. split_and!; [done| |].
    + intros _ Hne. destruct (Hv2 eq_refl) as (_ & _ & s & Hs). by destruct (Hne s).
    + intros _ Heq. split; [exact Ho|]. intros Hi He Ht Hlen u pw' h' url' method ute peer k w Hu Hj Ha Hck. rewrite <- Hj in *.
      apply session_cookie_admits; try done; [by unfold is_native; rewrite Hu|lia].
  - split_and!; [done|by intros _ _; split; [|eexists]|]. intros _ Heq. by specialize (Hv3 Hr Heq).
Qed.

(** ** The global sign-out *)

(** Only a session cookie signs out, the environment's secret refuses, and success
    leaves a new secret and no URL token or ticket. *)
Lemma sign_out ui h now next next2 w :
  let '(ui', a) := resetSessionAuth ui h now next next2 w in
  (status a <> 200%Z -> ui' = ui) /\
  (status a = 200%Z -> (exists t, jget UI_SESSION_COOKIE (parseCookies (jget "cookie" h)) = Some t /\ verifySessionJwt (secret (jwt ui)) t now = true) /\
     source (jwt ui) <> SourceEnv /\ urlTokens ui' = [] /\ secret (jwt ui') = (if is_native ui then next2 else next) /\
     match native ui' with Some n => tickets n = [] | None => True end).
Proof.
  unfold resetSessionAuth. cbv zeta. destruct (match jget _ _ with Some t => _ | None => false end) eqn:E; cbn [negb]; [|done].
  destruct (jget UI_SESSION_COOKIE _) as [t|]; [|done]. destruct (jwt ui) as [[] k] eqn:Ej; unfold rotate; cbn [source]; [done|..].
  - destruct w; [|done]. unfold is_native. cbn [native with_url_tokens with_jwt]. destruct (native ui) eqn:En; split; try done; intros _;
      (split; [by exists t|]; cbn; rewrite ?En; done).
  - unfold is_native. cbn [native with_url_tokens with_jwt]. destruct (native ui) eqn:En; split; try done; intros _;
      (split; [by exists t|]; cbn; rewrite ?En; done).
Qed.

(** A caller behind a proxy header that it writes itself is counted under a name of its
    choice: each new name has the whole budget. *)
Lemma spelled_address_has_its_own_budget ui h socket x t :
  sall token_char x = true -> x <> "" -> jget "x-forwarded-for" h = Some x -> limiter ui !! x = None ->
  AuthLimits.allowed (attempt (rate options) (limiter ui) (parseClientIp h socket) t).2 = true.
Proof.
  intros Hx Hne Hh Hl. rewrite (client_names_its_own_address h socket x) by done. unfold attempt, pruneBucket. by rewrite Hl.
Qed.

End controller.

(** ** Examples *)

#[local] Existing Instance toy_laws.
#[local] Instance ex_sha : Sha256 := to_hex.

Lemma hex_digit_safe n : (n < 16)%N -> token_char (hex_digit n) = true.
Proof.
  intros Hn. assert (n ∈ N.of_nat <$> seq 0 16) as Hin by (apply list_elem_of_fmap; exists (N.to_nat n); split; [lia|apply elem_of_seq; lia]).
  cbn in Hin. repeat (apply elem_of_cons in Hin as [->|Hin]; [reflexivity|]). by apply elem_of_nil in Hin.
Qed.

Lemma to_hex_safe s : sall token_char (to_hex s) = true.
Proof.
  induction s as [|a s IH]; [done|]. cbn [to_hex sall]. rewrite IH. pose proof (N_ascii_bounded a).
  rewrite !hex_digit_safe; [done|apply N.mod_lt; lia|apply N.Div0.div_lt_upper_bound; lia].
Qed.

#[local] Instance toy_safe : @CookieSafe toy_codec.
Proof. constructor; intros; apply to_hex_safe. Qed.

Definition ex_options : Options :=
  {| sessionTtlMs := 9; trustSessionTtlMs := 90; urlTokenTtlMs := 5; urlTokenBudget := 2; rate := DEFAULT_RATE_LIMIT_CONFIG |}.
Definition ex_ui : Ui :=
  {| native := None; jwt := {| source := SourceFile; secret := "k" |}; secretFile := Some "k"; clientStore := load None; limiter := ∅; hashes := []; urlTokens := [] |}.
Definition ex_clock (t : Z) : Clock := {| at_bearer := t; at_touch := t; at_cookie := t; at_prune := t; at_entry := t; at_parent := t |}.
Definition ex_cookie : Headers := [("cookie", UI_SESSION_COOKIE +:+ "=" +:+ @signSessionJwt toy_codec "k" 2 11)].
Definition ex_target (token : string) : URL :=
  {| protocol := "http:"; hostname := "localhost"; url_host := "localhost"; origin := "http://localhost"; pathname := "/api/event"; searchParams := [("oc_url_token", token)] |}.
Definition ex_other (v : json) : option Z := None.
Definition ex_draw : MintDraw := {| m_now := 2; m_random := "AAAA"; m_uuid := "1-1"; m_created := 2; m_used := 2; m_written := true |}.

Lemma access_is_exactly_justified_witness :
  (exists d, (@authenticate ex_sha toy_codec ex_hash ex_other ex_ui "pw" [] (ex_target "x") "GET" true None (ex_clock 3) true).2 = Denied d) /\
  forall g, ~ @justified ex_sha toy_codec ex_hash ex_other ex_ui "pw" [] (ex_target "x") "GET" true None (ex_clock 3) g.
Proof.
  pose proof (@access_is_exactly_justified ex_sha toy_codec ex_hash ex_other ex_ui "pw" [] (ex_target "x") "GET" true None (ex_clock 3) true (NoDup_nil_2)) as H.
  destruct (authenticate _ _ _ _ _ _ _ _ _ _).2 as [g|d] eqn:E; [exfalso; vm_compute in E; discriminate|].
  split; [by exists d|]. apply H. reflexivity.
Defined.

(** A session mints a URL token, the token opens the event stream, and not after its time. *)
Definition ex_tokens : list UOp := [UMint "pw" ex_cookie (ex_target "") "POST" "t" (ex_clock 3) true 3 3].

Lemma url_tokens_speak_for_their_minter_witness :
  let u := (@uexecute ex_sha toy_codec ex_hash ex_other ex_options ex_ui ex_tokens).1 in
  length (urlTokens u) <= 2 /\
  (@byUrlToken toy_codec ex_other u [] (ex_target "oc_url_t") "GET" (ex_clock 7)).2 = Some (GrantSession (@signSessionJwt toy_codec "k" 2 11)) /\
  (@byUrlToken toy_codec ex_other u [] (ex_target "oc_url_t") "GET" (ex_clock 8)).2 = None.
Proof.
  cbv zeta.
  pose proof (@url_tokens_speak_for_their_minter ex_sha toy_codec ex_hash ex_other ex_options ex_ui ex_tokens [] (ex_target "") "GET" (ex_clock 7) GrantOpen eq_refl) as H.
  destruct (uexecute _ _ _ _) as [u es] eqn:E. destruct H as [H _]. cbn [fst]. split; [exact H|].
  assert (u = (@uexecute ex_sha toy_codec ex_hash ex_other ex_options ex_ui ex_tokens).1) as -> by by rewrite E.
  split; vm_compute; reflexivity.
Defined.

Lemma login_opens_a_session_witness :
  let out := @login ex_sha toy_codec ex_hash ex_options ex_ui "pw" "10.0.0.9" (JObj [("password", JStr " pw ")]) [] (ex_target "") "salt" ex_draw
    {| at_attempt := 1; at_record := 1; at_record2 := 1; at_issue := 2; at_header := 2 |} in
  (exists a, out.2 = Ok a /\ status a = 200%Z) /\
  (@authenticate ex_sha toy_codec ex_hash ex_other out.1 "pw" ex_cookie (ex_target "") "GET" true None (ex_clock 10) true).2
    = Granted (GrantSession (@signSessionJwt toy_codec "k" 2 11)).
Proof.
  cbv zeta.
  set (clk := {| at_attempt := 1; at_record := 1; at_record2 := 1; at_issue := 2; at_header := 2 |}). set (b := JObj [("password", JStr " pw ")]).
  assert (@cache_ok ex_hash []) as Hc by (constructor; cbn; [constructor|constructor|lia]).
  pose proof (@login_opens_a_session ex_sha toy_codec ex_hash ex_other ex_options toy_laws toy_safe ex_ui "pw" "10.0.0.9" b [] (ex_target "") "salt" ex_draw clk eq_refl eq_refl Hc) as H.
  destruct (login _ _ _ _ _ _ _ _ _ _) as [u out] eqn:E. cbn [fst snd] in *. destruct H as (_ & _ & H).
  destruct (H ltac:(vm_compute; reflexivity) ltac:(vm_compute; reflexivity)) as [(a & -> & Hs & _ & Hj & _) Hr]. split; [by exists a|].
  apply Hr; try (vm_compute; reflexivity); [vm_compute; congruence|vm_compute; lia| |done].
  assert (u = (@login ex_sha toy_codec ex_hash ex_options ex_ui "pw" "10.0.0.9" b [] (ex_target "") "salt" ex_draw clk).1) as -> by by rewrite E.
  vm_compute. reflexivity.
Defined.
