(* ===== verification/AuthGate.v ===== *)
(** The gates in front of the interface (server/app.ts, upgradeAllowedForRequest of
    lib/auth/ui-auth.ts) and the /auth routes (server/routes/auth.ts): the scope of a
    request decides between the tunnel controller and the interface controller.

    Passkey routes and the removal of passkeys after a sign-out are not modelled. *)

From S2P Require Import Prelude JsString JsMap JsValue JsDate AuthHash AuthLimits AuthClients AuthTunnel AuthJwt AuthRequest AuthNative AuthUi.

Record Server := { tunnel : Controller; ui : Ui }.

Record Request := { r_headers : Headers; r_url : URL; r_method : string; r_peer : option string }.

(** The readings of one request: the interface's and the tunnel controller's. *)
Record Times := { uiClock : Clock; tunnelAt : Z; tunnelAt2 : Z; touchWritten : bool }.

Record Response := { code : Z; payload : list (string * json); answer_headers : list (string * string); set_cookies : list string }.

(** A gate lets the request through or answers it. *)
Inductive Gate :=
| Next
| Answer (r : Response).

Definition CLEAR_SESSION_COOKIE_HEADER : string :=
  UI_SESSION_COOKIE +:+ "=; Path=/; HttpOnly; SameSite=Strict; Max-Age=0; Expires=Thu, 01 Jan 1970 00:00:00 GMT".

Definition clearCookieHeader (name : string) : string :=
  name +:+ "=; Path=/; " +:+ (if bool_decide (name = TUNNEL_COOKIE_NAME) then "SameSite=Lax" else "SameSite=Strict")
  +:+ "; Max-Age=0; Expires=Thu, 01 Jan 1970 00:00:00 GMT".

(** [text.includes(part)] *)
Fixpoint includes (part text : string) : bool :=
  starts_with part text || match text with EmptyString => false | String _ t => includes part t end.

Definition requestScope (s : Server) (r : Request) : RequestScope :=
  classify (tunnel s) (jget "host" (r_headers r)) (hostname (r_url r)) (r_peer r).

Definition is_remote (scope : RequestScope) : bool := match scope with ScopeLocal => false | _ => true end.

Definition with_ui (s : Server) (u : Ui) : Server := {| tunnel := tunnel s; ui := u |}.
Definition with_tunnel (s : Server) (c : Controller) : Server := {| tunnel := c; ui := ui s |}.

Definition finalize (a : RouteAction) : Response :=
  {| code := status a; payload := body a; answer_headers := headers a;
     set_cookies := match setCookie a with Some c => [c] | None => [] end ++ (if clearSessionCookie a then [CLEAR_SESSION_COOKIE_HEADER] else []) |}.

Definition no_store_answer (c : Z) (b : list (string * json)) : Response :=
  {| code := c; payload := b; answer_headers := [("cache-control", NO_STORE)]; set_cookies := [] |}.

Section gates.
  Context {sha : Sha256} {codec : TokenCodec} {hash : PasswordHash}.
  Variable other : json -> option Z.
  Variable options : Options.

Definition see_tunnel (s : Server) (r : Request) (t : Times) : Server * bool :=
  let '(c, seen) := sessionFromCookie other (tunnel s) (jget "cookie" (r_headers r)) (tunnelAt t) in
  (with_tunnel s c, match seen with Some _ => true | None => false end).

Definition device_grant (s : Server) (r : Request) (urlTokensEnabled : bool) (t : Times) : Server * bool :=
  let '(u, ok) := credentialGrant other (ui s) (r_headers r) (r_url r) (r_method r) urlTokensEnabled (uiClock t) (touchWritten t) in (with_ui s u, ok).

Definition apiTunnelGate (s : Server) (r : Request) (t : Times) : Server * Gate :=
  let '(s, ok) := device_grant s r true t in
  if ok then (s, Next)
  else
    let '(s, ok) := see_tunnel s r t in
    if ok then (s, Next)
    else
      let hadCookie := match jget "cookie" (r_headers r) with Some c => includes TUNNEL_COOKIE_NAME c | None => false end in
      (s, Answer {| code := 401; payload := [("error", JStr "Tunnel authentication required"); ("locked", JBool true); ("tunnelLocked", JBool true)];
                    answer_headers := [("cache-control", NO_STORE); ("content-type", "application/json")];
                    set_cookies := if hadCookie then [clearCookieHeader TUNNEL_COOKIE_NAME] else [] |}).

Definition apiAuthGate (s : Server) (pw : string) (r : Request) (t : Times) : Server * Gate :=
  if is_remote (requestScope s r) then apiTunnelGate s r t
  else match authenticate other (ui s) pw (r_headers r) (r_url r) (r_method r) true (r_peer r) (uiClock t) (touchWritten t) with
       | (u, Granted _) => (with_ui s u, Next)
       | (u, Denied d) =>
         (with_ui s u, Answer {| code := d_status d; payload := d_body d; answer_headers := d_headers d;
                                 set_cookies := if d_clearSessionCookie d then [CLEAR_SESSION_COOKIE_HEADER] else [] |})
       end.

(** The socket is not passed here: the wire layer admits only this machine. *)
Definition upgradeAllowedForRequest (s : Server) (pw : string) (r : Request) (t : Times) : Server * bool :=
  if negb (nativeRequestAllowed (ui s) (r_headers r) (r_url r)) then (s, false)
  else if is_remote (classify (tunnel s) (jget "host" (r_headers r)) (hostname (r_url r)) None) then
    let '(s, ok) := device_grant s r true t in
    if ok then (s, true) else see_tunnel s r t
  else
    let '(u, ok) := upgradeAllowed other (ui s) pw (r_url r) (r_headers r) (r_method r) (uiClock t) (touchWritten t) in (with_ui s u, ok).

(** ** Routes *)

Definition tunnelSessionStatus (s : Server) (pw : string) (r : Request) (t : Times) : Server * RouteAction :=
  let answer c b clear := {| status := c; body := b; setCookie := None; clearSessionCookie := clear; headers := [("cache-control", NO_STORE)] |} in
  let '(s, ok) := device_grant s r true t in
  if ok then
    (s, answer 200%Z [("authenticated", JBool true); ("scope", JStr "client"); ("authRequired", JBool (passwordRequired pw));
                      ("methods", JArr [JStr "password"]); ("passkeys", JBool false)] false)
  else
    let '(s, ok) := see_tunnel s r t in
    if ok then
      (s, answer 200%Z [("authenticated", JBool true); ("scope", JStr "tunnel"); ("authRequired", JBool false); ("methods", JArr [JStr "tunnel"]);
                        ("passkeys", JBool false)] false)
    else
      (s, answer 401%Z [("authenticated", JBool false); ("locked", JBool true); ("tunnelLocked", JBool true)]
            (match jget "cookie" (r_headers r) with Some c => negb (bool_decide (c = "")) | None => false end)).

(** [GET /auth/session] *)
Definition sessionRoute (s : Server) (pw : string) (r : Request) (t : Times) : Server * Response :=
  if is_remote (requestScope s r) then let '(s, a) := tunnelSessionStatus s pw r t in (s, finalize a)
  else let '(u, a) := sessionStatus other (ui s) pw (r_headers r) (r_url r) (r_method r) (r_peer r) (uiClock t) (touchWritten t) in (with_ui s u, finalize a).

(** [POST /auth/session]; [None] is a rejected handler. *)
Definition loginRoute (s : Server) (pw : string) (r : Request) (b : json) (fresh : string) (draw : MintDraw) (clock : LoginClock) : Server * option Response :=
  if is_remote (requestScope s r) then
    (s, Some (no_store_answer 403 [("error", JStr "Password login is disabled for tunnel scope"); ("tunnelLocked", JBool true)]))
  else
    let '(u, a) := login options (ui s) pw (parseClientIp (r_headers r) (r_peer r)) b (r_headers r) (r_url r) fresh draw clock in
    (with_ui s u, match a with Ok a => Some (finalize a) | Throw _ => None end).

(** [POST /auth/url-token]: the guard reads the credentials once, the mint again. *)
Definition urlTokenRoute (s : Server) (pw : string) (r : Request) (random : string) (t1 t2 : Times) (prune now : Z) : Server * Response :=
  let '(s, ok) := if is_remote (requestScope s r) then device_grant s r false t1 else (s, true) in
  if negb ok then (s, no_store_answer 401 [("error", JStr "UI authentication required"); ("locked", JBool true)])
  else
    let '(u, a) := mintUrlTokenFromRequest other options (ui s) pw (r_headers r) (r_url r) (r_method r) random (uiClock t2) (touchWritten t2) prune now in
    (with_ui s u, finalize a).

(** [POST /api/auth/reset], behind the gate. *)
Definition resetRoute (s : Server) (r : Request) (now : Z) (next next2 : string) (written : bool) : Server * Response :=
  if is_remote (requestScope s r) then
    (s, no_store_answer 403 [("error", JStr "Global auth reset is disabled for tunnel scope"); ("tunnelLocked", JBool true)])
  else let '(u, a) := resetSessionAuth (ui s) (r_headers r) now next next2 written in (with_ui s u, finalize a).

(** [GET /connect?t=]: the body of a refusal is its text. *)
Definition handleConnect (s : Server) (r : Request) (sid : string) (attemptAt redeemAt recordAt recordAt2 : Z) : Server * Response :=
  let forwarded := jget "x-forwarded-for" (r_headers r) in
  match attemptConnect (tunnel s) forwarded (r_peer r) attemptAt with
  | (c, Some h) => (with_tunnel s c, {| code := 429; payload := [("text", JStr "Too many connect attempts")]; answer_headers := h; set_cookies := [] |})
  | (c, None) =>
    match redeemToken other c (JStr <$> jget "t" (searchParams (r_url r))) sid redeemAt with
    | (c, None) =>
      (with_tunnel s (recordConnectFailure c forwarded (r_peer r) recordAt recordAt2),
       {| code := 401; payload := [("text", JStr TUNNEL_REDEEM_FAILURE_TEXT)];
          answer_headers := [("cache-control", NO_STORE); ("content-type", "text/plain; charset=utf-8")]; set_cookies := [] |})
    | (c, Some session) =>
      (with_tunnel s c,
       {| code := 302; payload := []; answer_headers := [("location", "/"); ("cache-control", NO_STORE)];
          set_cookies := [cookie_value c session +:+ (if secureFromHeaders (r_headers r) (r_url r) then "; Secure" else "")] |})
    end
  end.

(** ** What opens a gate *)

(** A device's bearer or a URL token the interface accepts. *)
Definition presents_device (s : Server) (r : Request) (urlTokensEnabled : bool) (t : Times) : Prop :=
  nativeRequestAllowed (ui s) (r_headers r) (r_url r) = true /\
  ((exists b i, is_native (ui s) = false /\ jget "authorization" (r_headers r) = Some b /\
      (authenticateBearerToken other (clientStore (ui s)) (strip_bearer b) false (at_bearer (uiClock t)) (at_touch (uiClock t)) (touchWritten t)).2 = Some i) \/
   (jget "authorization" (r_headers r) = None /\ urlTokensEnabled = true /\
      exists g, (byUrlToken other (ui s) (r_headers r) (r_url r) (r_method r) (uiClock t)).2 = Some g)).

Definition presents_tunnel_session (s : Server) (r : Request) (t : Times) : Prop :=
  exists session, (sessionFromCookie other (tunnel s) (jget "cookie" (r_headers r)) (tunnelAt t)).2 = Some session.

Lemma device_grant_spec s r ute t : (device_grant s r ute t).2 = true <-> presents_device s r ute t.
Proof.
  unfold device_grant, credentialGrant, presents_device. destruct (nativeRequestAllowed _ _ _); cbn [negb]; [|by split; [|intros []]].
  destruct (jget "authorization" (r_headers r)) as [b|].
  - unfold byBearer. destruct (is_native (ui s)); cbn; [split; [done|]; by intros [_ [(? & ? & ? & _)|(? & _)]]|].
    destruct (authenticateBearerToken _ _ _ _ _ _ _) as [st [i|]] eqn:E; cbn.
    + split; [|done]. intros _. split; [done|]. left. exists b, i. by rewrite E.
    + split; [done|]. intros [_ [(b' & i & _ & [= <-] & H)|(? & _)]]; [by rewrite E in H|done].
  - destruct ute; cbn [fst snd].
    + destruct (byUrlToken other _ _ _ _ _) as [u [g|]]; cbn.
      * split; [|done]. intros _. split; [done|]. right. split_and!; [done|done|by exists g].
      * split; [done|]. intros [_ [(? & ? & _ & ? & _)|(_ & _ & g & ?)]]; done.
    + split; [done|]. intros [_ [(? & ? & _ & ? & _)|(_ & ? & _)]]; done.
Qed.

Lemma device_grant_tunnel s r ute t : tunnel (device_grant s r ute t).1 = tunnel s.
Proof. unfold device_grant. by destruct (credentialGrant _ _ _ _ _ _ _ _). Qed.

Lemma see_tunnel_spec s s' r t : tunnel s' = tunnel s -> (see_tunnel s' r t).2 = true <-> presents_tunnel_session s r t.
Proof.
  intros E. unfold see_tunnel, presents_tunnel_session. rewrite E. destruct (sessionFromCookie _ _ _ _) as [c [x|]]; cbn.
  - split; [by exists x|done].
  - split; [done|by intros [? ?]].
Qed.

(** A gate that asks for a device first and a tunnel session next. *)
Lemma device_or_session s r t : let '(s1, a) := device_grant s r true t in
  (a = true \/ (see_tunnel s1 r t).2 = true) <-> presents_device s r true t \/ presents_tunnel_session s r t.
Proof.
  pose proof (device_grant_spec s r true t) as H1. pose proof (device_grant_tunnel s r true t) as H2.
  destruct (device_grant s r true t) as [s1 a]. cbn [fst snd] in *. by rewrite H1, (see_tunnel_spec s s1).
Qed.

(** The gate of /api, by the scope of the request. For a request whose scope is the
    tunnel's or an unknown public one, the gate of /api lets it pass exactly when it
    carries a bearer of an active device or a live URL token (that of a local session
    included: session_url_token_passes_the_tunnel_gate), or the cookie of a live session
    of the active tunnel: the interface's own session cookie and the absence of a
    password count for nothing; the login and the global sign-out are refused with 403
    and change nothing. For a local request the gate passes exactly what the interface
    controller grants. *)
Theorem tunnel_visitors_need_a_tunnel_credential s pw r t :
  if is_remote (requestScope s r) then
    ((apiAuthGate s pw r t).2 = Next <-> presents_device s r true t \/ presents_tunnel_session s r t) /\
    (forall b fresh draw clock, exists a, loginRoute s pw r b fresh draw clock = (s, Some a) /\ code a = 403%Z) /\
    (forall now next next2 w, exists a, resetRoute s r now next next2 w = (s, a) /\ code a = 403%Z)
  else
    (apiAuthGate s pw r t).2 = Next <->
    exists g, (authenticate other (ui s) pw (r_headers r) (r_url r) (r_method r) true (r_peer r) (uiClock t) (touchWritten t)).2 = Granted g.
Proof.
  unfold apiAuthGate, loginRoute, resetRoute. destruct (is_remote (requestScope s r)).
  - split; [|split; intros; by eexists]. unfold apiTunnelGate. pose proof (device_or_session s r t) as H.
    destruct (device_grant s r true t) as [s1 []]; rewrite <- H; [by split; [left|]|].
    destruct (see_tunnel s1 r t) as [s2 []]; cbn [snd]; [by split; [right|]|]. split; [done|by intros [|]].
  - destruct (authenticate _ _ _ _ _ _ _ _ _ _) as [u [g|d]]; cbn [snd]; split; try done; [by intros _; exists g|by intros [? ?]].
Qed.

(** ** The entrance of the tunnel *)

Lemma redeemed c token sid t c' session : redeemToken other c token sid t = (c', Some session) ->
  exists a, active c = Some a /\ active c' = Some a /\ sessions c' = pruneSessions (jset sid session (sessions c)) /\ sessionId session = sid /\
    s_tunnelId session = tunnelId a /\ s_revokedAt session = None /\ s_expiresAt session = toISOString (t + AuthTunnel.sessionTtlMs c) /\ AuthTunnel.sessionTtlMs c' = AuthTunnel.sessionTtlMs c.
Proof.
  unfold redeemToken. destruct (active c) as [a|]; [|done]. destruct token as [[| | |tok| |]|]; try done. destruct (bootstrap c) as [b|]; [|done].
  destruct (bool_decide (tok = "")); [done|]. destruct (_ || _ || _) eqn:Eg; [done|]. destruct (negb _); [done|]. destruct (bootstrap_expired _ _ _); [done|].
  intros E. injection E as <- <-. exists a. apply orb_false_iff in Eg as [_ Eg%bool_decide_eq_false]. split_and!; try done. by apply dec_stable in Eg.
Qed.

Lemma prune_keeps_newest sid (session : TunnelSession) m : jwf m -> sid ∉ jkeys m -> jget sid (pruneSessions (jset sid session m)) = Some session.
Proof.
  intros Hwf Hf. assert (jwf (pruneSessions (jset sid session m))) as Hw by by apply prune_wf, jwf_set.
  apply jget_elem; [done|]. unfold pruneSessions. rewrite jset_fresh by done. rewrite length_app. cbn [length].
  rewrite drop_app_le by (unfold SESSION_MAP_BUDGET; lia). apply elem_of_app. right. by left.
Qed.

(** What an answer 302 went through. *)
Lemma connected s r sid a1 a2 a3 a4 : code (handleConnect s r sid a1 a2 a3 a4).2 = 302%Z ->
  exists c1 c' session, tunnel (handleConnect s r sid a1 a2 a3 a4).1 = c' /\ sessions c1 = sessions (tunnel s) /\
    AuthTunnel.sessionTtlMs c1 = AuthTunnel.sessionTtlMs (tunnel s) /\
    redeemToken other c1 (JStr <$> jget "t" (searchParams (r_url r))) sid a2 = (c', Some session) /\ bootstrap c1 = bootstrap (tunnel s) /\
    handleConnect s r sid a1 a2 a3 a4 =
      (with_tunnel s c', {| code := 302; payload := []; answer_headers := [("location", "/"); ("cache-control", NO_STORE)];
                            set_cookies := [cookie_value c' session +:+ (if secureFromHeaders (r_headers r) (r_url r) then "; Secure" else "")] |}).
Proof.
  unfold handleConnect. destruct (attemptConnect _ _ _ _) as [c1 [h|]] eqn:Ea; [done|].
  assert (sessions c1 = sessions (tunnel s) /\ AuthTunnel.sessionTtlMs c1 = AuthTunnel.sessionTtlMs (tunnel s) /\ bootstrap c1 = bootstrap (tunnel s)) as (H1 & H2 & H3).
  { unfold attemptConnect in Ea. destruct (attempt _ _ _ _) as [l rr]. by injection Ea as <- _. }
  destruct (redeemToken _ _ _ _ _) as [c' [session|]] eqn:Er; [|done]. intros _. by exists c1, c', session.
Qed.

(** A redeemed token is spent. *)
Lemma redeemed_is_used c token sid t c' session : redeemToken other c token sid t = (c', Some session) ->
  exists b, bootstrap c' = Some b /\ bt_usedAt b <> None.
Proof.
  unfold redeemToken. destruct (active c) as [a|]; [|done]. destruct token as [[| | |tok| |]|]; try done. destruct (bootstrap c) as [b|]; [|done].
  destruct (bool_decide (tok = "")); [done|]. destruct (_ || _ || _); [done|]. destruct (negb _); [done|]. destruct (bootstrap_expired _ _ _); [done|].
  intros E. injection E as <- _. by eexists.
Qed.

Lemma used_is_spent c token sid t : (exists b, bootstrap c = Some b /\ bt_usedAt b <> None) -> (redeemToken other c token sid t).2 = None.
Proof.
  intros (b & Hb & Hu). unfold redeemToken. destruct (active c); [|done]. destruct token as [[]|]; try done. rewrite Hb.
  case_bool_decide; [done|]. by rewrite (bool_decide_true (bt_usedAt b <> None)), orb_true_r.
Qed.

(** A connect link opens the tunnel for its visitor. When /connect answers 302, it
    gave a cookie of a session that no earlier visitor holds, and a request of the
    tunnel's scope that sends that cookie passes the gate of /api as long as the
    session lasts, whatever else it carries; the same link then fails: the next
    /connect with any token is never answered 302, until a new token is issued. *)
Theorem connect_opens_the_tunnel s r sid a1 a2 a3 a4 pw r' t :
  jwf (sessions (tunnel s)) -> sid ∉ jkeys (sessions (tunnel s)) -> sid <> "" -> sall token_char sid = true ->
  four_digit_year (a2 + AuthTunnel.sessionTtlMs (tunnel s)) ->
  code (handleConnect s r sid a1 a2 a3 a4).2 = 302%Z ->
  let s' := (handleConnect s r sid a1 a2 a3 a4).1 in
  (exists secure, set_cookies (handleConnect s r sid a1 a2 a3 a4).2 =
     [TUNNEL_COOKIE_NAME +:+ "=" +:+ sid +:+ "; Path=/; HttpOnly; SameSite=Lax; Max-Age=" +:+ pretty (AuthTunnel.sessionTtlMs (tunnel s) / 1000)%Z +:+ secure]) /\
  (is_remote (requestScope s' r') = true -> jget "cookie" (r_headers r') = Some (TUNNEL_COOKIE_NAME +:+ "=" +:+ sid) ->
   (tunnelAt t < a2 + AuthTunnel.sessionTtlMs (tunnel s))%Z -> (apiAuthGate s' pw r' t).2 = Next) /\
  (forall r2 sid2 b1 b2 b3 b4, code (handleConnect s' r2 sid2 b1 b2 b3 b4).2 <> 302%Z).
Proof.
  intros Hwf Hfresh Hne Hsafe Hy Hcode s'.
  destruct (connected s r sid a1 a2 a3 a4 Hcode) as (c1 & c' & session & E1 & E2 & E3 & Hr & _ & Eh). pose proof (redeemed_is_used _ _ _ _ _ _ Hr) as Hb. fold s' in E1. rewrite Eh. split_and!.
  - exists (if secureFromHeaders (r_headers r) (r_url r) then "; Secure" else ""). unfold cookie_value.
    destruct (redeemed _ _ _ _ _ _ Hr) as (a & _ & _ & _ & Es & _ & _ & _ & Et). rewrite Es, Et, E3. by rewrite !sapp_assoc.
  - intros Hscope Hck Hlt. destruct (redeemed _ _ _ _ _ _ Hr) as (a & _ & Ha & Hs & _ & Ht & Hrev & Hexp & _).
    unfold apiAuthGate. rewrite Hscope. unfold apiTunnelGate. pose proof (device_or_session s' r' t) as H.
    assert (presents_tunnel_session s' r' t) as Hp.
    { unfold presents_tunnel_session, sessionFromCookie. rewrite Hck, E1, cookie_pair by done. rewrite bool_decide_false by done.
      rewrite Hs, prune_keeps_newest by by rewrite E2. rewrite Hrev, bool_decide_false by (intros Hx; by apply Hx).
      rewrite Hexp, E3, date_reached_iso, bool_decide_false by (done || lia). rewrite Ha, Ht, bool_decide_false by (intros Hx; by apply Hx). by eexists. }
    destruct (device_grant s' r' true t) as [s1 []]; [done|]. destruct (proj2 H (or_intror Hp)) as [|Hsee]; [done|].
    by destruct (see_tunnel s1 r' t) as [s2 []].
  - intros r2 sid2 b1 b2 b3 b4 H2. destruct (connected s' r2 sid2 b1 b2 b3 b4 H2) as (c2 & c'' & session' & _ & _ & _ & Hr2 & Hb2 & _).
    assert ((redeemToken other c2 (JStr <$> jget "t" (searchParams (r_url r2))) sid2 b2).2 = None) as Hn by (apply used_is_spent; by rewrite Hb2, E1).
    by rewrite Hr2 in Hn.
Qed.

End gates.

(** ** Examples *)

#[local] Instance gate_sha : Sha256 := to_hex.

Definition ex_tunnel_server : Server :=
  {| tunnel := (@texecute gate_sha ex_other (new_controller None None)
       [TSet (Some "t1") "https://x.example" "quick" "" (Some "x.example"); TIssue "new" "01" 2000]).1;
     ui := ex_ui |}.
Definition ex_visitor (path : string) (params cookies : list (string * string)) : Request :=
  {| r_headers := ("host", "x.example") :: cookies;
     r_url := {| protocol := "https:"; hostname := "x.example"; url_host := "x.example"; origin := "https://x.example"; pathname := path; searchParams := params |};
     r_method := "GET"; r_peer := Some "127.0.0.1" |}.
Definition ex_times (t : Z) : Times := {| uiClock := ex_clock t; tunnelAt := t; tunnelAt2 := t; touchWritten := true |}.

Lemma connect_opens_the_tunnel_witness :
  let r := ex_visitor "/connect" [("t", "new")] [] in
  let s' := (@handleConnect gate_sha ex_other ex_tunnel_server r "s1" 3000 3000 3000 3000).1 in
  (@apiAuthGate gate_sha toy_codec ex_hash ex_other s' "pw" (ex_visitor "/api/event" [] [("cookie", "oc_tunnel_session=s1")]) (ex_times 4000)).2 = Next /\
  code (@handleConnect gate_sha ex_other s' r "s2" 5000 5000 5000 5000).2 <> 302%Z.
Proof.
  cbv zeta.
  pose proof (@connect_opens_the_tunnel gate_sha toy_codec ex_hash ex_other ex_tunnel_server (ex_visitor "/connect" [("t", "new")] []) "s1" 3000 3000 3000 3000 "pw"
    (ex_visitor "/api/event" [] [("cookie", "oc_tunnel_session=s1")]) (ex_times 4000)) as H.
  destruct H as (_ & H1 & H2).
  - constructor.
  - by apply (bool_decide_unpack _).
  - done.
  - reflexivity.
  - apply four_digit_range. vm_compute. split; congruence.
  - vm_compute. reflexivity.
  - split; [|apply H2]. apply H1; vm_compute; reflexivity.
Defined.

(** A URL token minted on the machine itself for the interface's session opens the
    tunnel's gate: the session reaches a tunnel visitor through it. *)
Lemma session_url_token_passes_the_tunnel_gate :
  let s := {| tunnel := tunnel ex_tunnel_server; ui := (@uexecute gate_sha toy_codec ex_hash ex_other ex_options ex_ui ex_tokens).1 |} in
  let r := ex_visitor "/api/event" [("oc_url_token", "oc_url_t")] [] in
  requestScope s r = ScopeTunnel /\ (@apiAuthGate gate_sha toy_codec ex_hash ex_other s "pw" r (ex_times 7)).2 = Next.
Proof. cbv zeta. split; vm_compute; reflexivity. Qed.
