(* ===== verification/CallTree.v ===== *)
(** Asynchronous programs as call trees, and a program logic for them.

    An asynchronous function is a finite tree of calls on its ports [P]: each waits for an
    answer of type [R p], a rejection included, which the environment chooses.
    [try]/[catch] is [catch]; a promise returned from a [try] without [await] is outside
    it, as in the language. The logic is a weakest precondition over a ghost state that
    the calls move. *)

From S2P Require Import Prelude.

Inductive io {E P : Type} {R : P -> Type} (A : Type) : Type :=
| Ret (a : A)
| Fail (e : E)
| Vis (p : P) (k : R p -> io A).
Arguments io E P R A : clear implicits.
Arguments Ret {E P R A} a.
Arguments Fail {E P R A} e.
Arguments Vis {E P R A} p k.

Declare Scope io_scope.
Delimit Scope io_scope with io.

Section programs.
  Context {E P : Type} {R : P -> Type}.

Fixpoint io_bind {A B} (m : io E P R A) (f : A -> io E P R B) : io E P R B :=
  match m with
  | Ret a => f a
  | Fail e => Fail e
  | Vis p k => Vis p (fun r => io_bind (k r) f)
  end.

Fixpoint catch {A} (m : io E P R A) (h : E -> io E P R A) : io E P R A :=
  match m with
  | Ret a => Ret a
  | Fail e => h e
  | Vis p k => Vis p (fun r => catch (k r) h)
  end.

(** [returns m a]: for some answers of the environment, [m] ends with [a]. *)
Fixpoint returns {A} (m : io E P R A) (a : A) : Prop :=
  match m with Ret a' => a' = a | Fail _ => False | Vis p k => exists r, returns (k r) a end.

(** Whatever the answers, [m] does not throw. *)
Fixpoint never_throws {A} (m : io E P R A) : Prop :=
  match m with Ret _ => True | Fail _ => False | Vis p k => forall r, never_throws (k r) end.

Lemma never_throws_catch {A} (m : io E P R A) h : (forall e, never_throws (h e)) -> never_throws (catch m h).
Proof. intros H. induction m as [a|e|p k IH]; cbn; auto. Qed.

Lemma returns_bind {A B} (m : io E P R A) (f : A -> io E P R B) b :
  returns (io_bind m f) b -> exists a, returns m a /\ returns (f a) b.
Proof.
  induction m as [a|e|p k IH]; cbn; intros H; [by exists a|done|].
  destruct H as [r H]. destruct (IH r H) as (a & ? & ?). exists a. split; [by exists r|done].
Qed.

Lemma returns_catch {A} (m : io E P R A) h a : returns (catch m h) a -> returns m a \/ exists e, returns (h e) a.
Proof.
  induction m as [a'|e|p k IH]; cbn; intros H; [by left|by right; exists e|].
  destruct H as [r H]. destruct (IH r H) as [?|?]; [left; by exists r|by right].
Qed.

(** Every call [m] may make satisfies [ok]. *)
Fixpoint calls {A} (ok : P -> Prop) (m : io E P R A) : Prop :=
  match m with Vis p k => ok p /\ forall r, calls ok (k r) | _ => True end.

Lemma calls_bind {A B} ok (m : io E P R A) (f : A -> io E P R B) :
  calls ok m -> (forall a, returns m a -> calls ok (f a)) -> calls ok (io_bind m f).
Proof.
  induction m as [a|e|p k IH]; cbn; intros Hm Hf; [by apply Hf|done|].
  split; [apply Hm|]. intros r. apply IH; [apply Hm|]. intros a Ha. apply Hf. by exists r.
Qed.

Lemma calls_catch {A} ok (m : io E P R A) h : calls ok m -> (forall e, calls ok (h e)) -> calls ok (catch m h).
Proof. induction m as [a|e|p k IH]; cbn; intros Hm Hh; [done|apply Hh|]. split; [apply Hm|]. intros r. apply IH; [apply Hm|done]. Qed.

Lemma calls_mono {A} (ok ok' : P -> Prop) (m : io E P R A) : (forall p, ok p -> ok' p) -> calls ok m -> calls ok' m.
Proof. intros H. induction m as [a|e|p k IH]; cbn; [done..|]. intros [H1 H2]. split; [by apply H|]. intros r. apply IH, H2. Qed.

(** ** The logic *)

Context {St : Type} (pre : forall p : P, St -> (St -> R p -> Prop) -> Prop).
Hypothesis pre_mono : forall p s (K K' : St -> R p -> Prop),
  (forall s r, K s r -> K' s r) -> pre p s K -> pre p s K'.

Fixpoint wp {A} (m : io E P R A) (s : St) (Q : St -> exc E A -> Prop) : Prop :=
  match m with
  | Ret a => Q s (Ok a)
  | Fail e => Q s (Throw e)
  | Vis p k => pre p s (fun s r => wp (k r) s Q)
  end.

Lemma tree_mono {A} (m : io E P R A) s (Q Q' : St -> exc E A -> Prop) : (forall s r, Q s r -> Q' s r) -> wp m s Q -> wp m s Q'.
Proof. intros HQ. revert s. induction m as [a|e|p k IH]; intros s; cbn; [apply HQ..|]. apply pre_mono. intros s' r. apply IH. Qed.

Lemma tree_bind {A B} (m : io E P R A) (f : A -> io E P R B) s Q :
  wp m s (fun s r => match r with Ok a => wp (f a) s Q | Throw e => Q s (Throw e) end) -> wp (io_bind m f) s Q.
Proof. revert s. induction m as [a|e|p k IH]; intros s; cbn; [done..|]. apply pre_mono. intros s' r. apply IH. Qed.

Lemma tree_catch {A} (m : io E P R A) h s Q :
  wp m s (fun s r => match r with Ok a => Q s (Ok a) | Throw e => wp (h e) s Q end) -> wp (catch m h) s Q.
Proof. revert s. induction m as [a|e|p k IH]; intros s; cbn; [done..|]. apply pre_mono. intros s' r. apply IH. Qed.

(** Calls that leave the ghost state alone. *)
Lemma wp_calls {A} (ok : P -> Prop) (m : io E P R A) s :
  (forall p s (K : St -> R p -> Prop), ok p -> (forall r, K s r) -> pre p s K) -> calls ok m ->
  wp m s (fun s' r => s' = s /\ match r with Ok a => returns m a | Throw _ => True end).
Proof.
  intros Hok. induction m as [a|e|p k IH]; cbn; intros Hm; [done..|]. apply Hok; [apply Hm|]. intros r.
  eapply tree_mono; [|apply IH, Hm]. intros s' [a|e] [-> H]; (split; [done|]); [by exists r|done].
Qed.

End programs.

Notation "'let!' x := m 'in' k" := (io_bind m (fun x => k))
  (at level 10, x name, m at level 100, k at level 200) : io_scope.
