(* ===== verification/GoalPayload.v ===== *)
(** The goal of a session (server/goals/goal-constants.ts, goal-payload.ts,
    goal-metadata.ts): the payload record, its tolerant parser with the clamps,
    the builder, and the merge of a goal into the metadata of a session record.

    A session record is the JSON value a harness answers with; [undefined] is
    [None]. *)

From S2P Require Import Prelude JsString JsMap JsValue.
From Stdlib Require Import QArith Qcanon Qround.
#[local] Close Scope Qc_scope.
#[local] Close Scope Q_scope.

Local Open Scope Z_scope.

(** ** Constants *)

Definition IDLE_QUIET_MS : Z := 15000.
Definition KICKOFF_QUIET_MS : Z := 3000.
Definition RESUME_KICKOFF_MS : Z := 250.
Definition MAX_AUTO_TURNS : Z := 20.
Definition BLOCKED_STREAK_LIMIT : Z := 3.
Definition AUDIT_FAIL_LIMIT : Z := 2.
Definition GOAL_OBJECTIVE_CHAR_LIMIT : nat := Z.to_nat 5000.
Definition TRANSCRIPT_PART_CHAR_LIMIT : nat := Z.to_nat 6000.
Definition NOTE_CHAR_LIMIT : nat := Z.to_nat 280.
Definition REASON_CHAR_LIMIT : nat := Z.to_nat 200.
Definition MESSAGE_FETCH_LIMIT : Z := 40.
Definition TOKEN_BUDGET_MAX : Z := 100000000.
Definition DISTILLED_OBJECTIVE_CHAR_LIMIT : nat := Z.to_nat 4000.

Definition verifiedByAudit : string := "verified by audit".
Definition markedByUser : string := "marked by user".
Definition blockedPerAudit : string := "blocked per audit".
Definition auditUnavailable : string := "progress audit unavailable".
Definition assistantTurnFailed : string := "assistant turn failed".
Definition budgetReached : string := "token budget reached".
Definition turnLimit : string := "auto-continuation limit reached".
Definition repeatedTruncation : string := "repeated output truncation".
Definition evidenceUnavailable : string := "goal turn evidence unavailable".
Definition evidenceGap : string := "goal turn evidence cursor missing".
Definition usageUnavailable : string := "goal token usage unavailable".
Definition pausedAfterAbort : string := "paused after abort".
Definition resumed : string := "resumed".

(** ** The payload *)

Inductive GoalStatus := Active | Paused | Blocked | BudgetLimited | Complete.

#[export] Instance GoalStatus_eq_dec : EqDecision GoalStatus.
Proof. solve_decision. Defined.

Definition status_text (s : GoalStatus) : string :=
  match s with
  | Active => "active" | Paused => "paused" | Blocked => "blocked"
  | BudgetLimited => "budgetLimited" | Complete => "complete"
  end.

Definition GOAL_STATUSES : list GoalStatus := [Active; Paused; Blocked; BudgetLimited; Complete].

Record GoalPayload := mkGoal {
  id : string;
  objective : string;
  objectiveFile : bool;
  objectiveFileKey : option string;
  status : GoalStatus;
  tokenBudget : option Z;
  tokensUsed : Z;
  tokensBaseline : Z;
  tokensCommitted : Z;
  turnsUsed : Z;
  blockedStreak : Z;
  auditFailStreak : Z;
  note : string;
  statusReason : string;
  evaluationProviderID : string;
  evaluationModelID : string;
  lastAccountedMessageID : string;
  createdAt : Z;
  updatedAt : Z }.

#[export] Instance GoalPayload_eq_dec : EqDecision GoalPayload.
Proof. solve_decision. Defined.

(** [/^[A-Za-z0-9_-]{4,128}$/] *)
Definition isGoalFileSessionId (value : string) : bool :=
  sall (fun a => is_alnum a || Ascii.eqb a "_" || Ascii.eqb a "-") value && bool_decide (4 <= slen value <= 128).

(** [/^[a-f0-9]{64}$/] *)
Definition is_lower_hex (a : ascii) : bool :=
  let n := N_of_ascii a in ((48 <=? n) && (n <=? 57) || (97 <=? n) && (n <=? 102))%N.

Definition is_file_key (value : string) : bool := sall is_lower_hex value && bool_decide (slen value = 64).

(** [n.toString(36)] of a natural number; [fuel] digits. *)
Definition digit36 (d : Z) : ascii := ascii_of_N (Z.to_N (if d <? 10 then 48 + d else 87 + d)).

Fixpoint to_base36 (fuel : nat) (n : Z) (acc : string) : string :=
  match fuel with
  | O => acc
  | S fuel => let acc := String (digit36 (n mod 36)) acc in
              if n / 36 =? 0 then acc else to_base36 fuel (n / 36) acc
  end.

(** The random part is the hex text of eight random bytes. *)
Definition newGoalId (now : Z) (random : string) : string :=
  to_base36 (S (Z.to_nat (Z.log2 now))) now "" +:+ random.

Definition clampText (value : option json) (limit : nat) : string :=
  match value with Some (JStr s) => stake limit s | _ => "" end.

Definition nonNegativeInt (value : option json) : Z :=
  match value with Some (JNum (NFin q)) => Z.max 0 (Qfloor (this q)) | _ => 0 end.

Definition timestamp (value : option json) : Z :=
  match value with Some (JNum (NFin q)) => Z.max 0 (Qfloor (this q)) | _ => 0 end.

Definition flag (value : option json) : bool := is_true value.

Definition parseStatus (value : option json) : option GoalStatus :=
  match value with
  | Some (JStr s) => List.find (fun k => bool_decide (status_text k = s)) GOAL_STATUSES
  | _ => None
  end.

(** [Math.trunc] *)
Definition trunc (q : Qc) : Z := Z.quot (Qnum q) (Zpos (Qden q)).

Definition parseTokenBudget (value : option json) : option Z :=
  match value with
  | Some (JNum (NFin q)) =>
    let raw := trunc q in
    if (raw <? 1) || (TOKEN_BUDGET_MAX <? raw) then None else Some raw
  | _ => None
  end.

Definition is_object (v : option json) : bool := match v with Some (JObj _) => true | _ => false end.

(** The parser; [None] is "no goal". *)
Definition parseGoalPayload (raw : option json) (now : Z) : option GoalPayload :=
  match raw with
  | Some (JObj _ as value) =>
    match jfield "id" value with
    | Some (JStr i) =>
      if bool_decide (trim i = "") then None
      else match parseStatus (jfield "status" value) with
      | None => None
      | Some st =>
        let objective := clampText (jfield "objective" value) GOAL_OBJECTIVE_CHAR_LIMIT in
        let objectiveFile := flag (jfield "objectiveFile" value) in
        if bool_decide (trim objective = "") && negb objectiveFile then None
        else Some {|
          id := trim i;
          objective := objective;
          objectiveFile := objectiveFile;
          objectiveFileKey := match jfield "objectiveFileKey" value with
                              | Some (JStr k) => if is_file_key k then Some k else None
                              | _ => None
                              end;
          status := st;
          tokenBudget := parseTokenBudget (jfield "tokenBudget" value);
          tokensUsed := nonNegativeInt (jfield "tokensUsed" value);
          tokensBaseline := nonNegativeInt (jfield "tokensBaseline" value);
          tokensCommitted := nonNegativeInt (jfield "tokensCommitted" value);
          turnsUsed := nonNegativeInt (jfield "turnsUsed" value);
          blockedStreak := nonNegativeInt (jfield "blockedStreak" value);
          auditFailStreak := nonNegativeInt (jfield "auditFailStreak" value);
          note := clampText (jfield "note" value) NOTE_CHAR_LIMIT;
          statusReason := clampText (jfield "statusReason" value) REASON_CHAR_LIMIT;
          evaluationProviderID := clampText (jfield "evaluationProviderID" value) (Z.to_nat 200);
          evaluationModelID := clampText (jfield "evaluationModelID" value) (Z.to_nat 200);
          lastAccountedMessageID := clampText (jfield "lastAccountedMessageID" value) (Z.to_nat 200);
          createdAt := timestamp (jfield "createdAt" value);
          updatedAt := let u := timestamp (jfield "updatedAt" value) in
                       let c := timestamp (jfield "createdAt" value) in
                       if negb (u =? 0) then u else if negb (c =? 0) then c else now |}
      end
    | _ => None
    end
  | _ => None
  end.

(** The members of a value, when it is an object; arrays are not. *)
Definition members (v : option json) : option (list (string * json)) :=
  match v with Some (JObj f) => Some f | _ => None end.

(** [v?.key] *)
Definition opt_field (key : string) (v : option json) : option json := v ≫= jfield key.

Definition GOAL_NAMESPACE : string := "nnd".
Definition GOAL_METADATA_KEY : string := "goal".

Definition getSessionGoal (sessionRecord : option json) (now : Z) : option GoalPayload :=
  match opt_field "metadata" sessionRecord with
  | Some (JObj _ as metadata) =>
    match jfield GOAL_NAMESPACE metadata with
    | Some (JObj _ as namespaced) => parseGoalPayload (jfield GOAL_METADATA_KEY namespaced) now
    | _ => None
    end
  | _ => None
  end.

(** A copy: all members are primitive. *)
Definition cloneGoal (goal : GoalPayload) : GoalPayload := goal.

Record GoalInput := {
  i_objective : string;
  i_objectiveFile : bool;
  i_objectiveFileKey : option string;
  i_tokenBudget : option json }.

(** [identity]: the id the caller passes, or a new one. *)
Definition buildGoalPayload (input : GoalInput) (now : Z) (identity : string) : GoalPayload := {|
  id := identity;
  objective := stake GOAL_OBJECTIVE_CHAR_LIMIT (i_objective input);
  objectiveFile := i_objectiveFile input;
  objectiveFileKey := match i_objectiveFileKey input with
                      | Some k => if bool_decide (k = "") then None else Some k
                      | None => None
                      end;
  status := Active;
  tokenBudget := parseTokenBudget (i_tokenBudget input);
  note := ""; statusReason := ""; evaluationProviderID := ""; evaluationModelID := "";
  createdAt := now; updatedAt := now;
  tokensUsed := 0; tokensBaseline := 0; tokensCommitted := 0; turnsUsed := 0;
  blockedStreak := 0; auditFailStreak := 0; lastAccountedMessageID := "" |}.

(** The goal as an object, members in the order the parser writes them. *)
Definition goal_json (g : GoalPayload) : json := JObj (
  [("id", JStr (id g)); ("objective", JStr (objective g)); ("objectiveFile", JBool (objectiveFile g))]
  ++ match objectiveFileKey g with Some k => [("objectiveFileKey", JStr k)] | None => [] end
  ++ [("status", JStr (status_text (status g)));
      ("tokenBudget", match tokenBudget g with Some b => JInt b | None => JNull end);
      ("tokensUsed", JInt (tokensUsed g)); ("tokensBaseline", JInt (tokensBaseline g));
      ("tokensCommitted", JInt (tokensCommitted g)); ("turnsUsed", JInt (turnsUsed g));
      ("blockedStreak", JInt (blockedStreak g)); ("auditFailStreak", JInt (auditFailStreak g));
      ("note", JStr (note g)); ("statusReason", JStr (statusReason g));
      ("evaluationProviderID", JStr (evaluationProviderID g)); ("evaluationModelID", JStr (evaluationModelID g));
      ("lastAccountedMessageID", JStr (lastAccountedMessageID g));
      ("createdAt", JInt (createdAt g)); ("updatedAt", JInt (updatedAt g))]).

(** ** Metadata *)

Definition readMetadata (sessionRecord : option json) : list (string * json) :=
  default [] (members (opt_field "metadata" sessionRecord)).

Definition readNamespace (metadata : list (string * json)) : list (string * json) :=
  default [] (members (jget GOAL_NAMESPACE metadata)).

Definition mergeGoalIntoMetadata (metadata : list (string * json)) (goal : GoalPayload) : list (string * json) :=
  jset GOAL_NAMESPACE (JObj (jset GOAL_METADATA_KEY (goal_json goal) (readNamespace metadata))) metadata.

Definition removeGoalFromMetadata (metadata : list (string * json)) : list (string * json) :=
  match jdel GOAL_METADATA_KEY (readNamespace metadata) with
  | [] => jdel GOAL_NAMESPACE metadata
  | rest => jset GOAL_NAMESPACE (JObj rest) metadata
  end.

Record GoalBody := mkBody { b_goal : GoalPayload; expected_id : option string; expected_revision : Z }.

#[export] Instance GoalBody_eq_dec : EqDecision GoalBody.
Proof. solve_decision. Defined.

(** The revision beside the goal, when it is a safe natural number. *)
Definition readGoalRevision (sessionRecord : option json) : option Z :=
  match safe_int (opt_field "goalRevision" (opt_field GOAL_NAMESPACE (opt_field "metadata" sessionRecord))) with
  | Some r => if 0 <=? r then Some r else None
  | None => None
  end.

(** The write and the goal it replaces; [None]: throws, for want of a revision. *)
Definition buildGoalWrite (sessionRecord : option json) (next : GoalPayload) (now : Z)
  : option (GoalBody * option GoalPayload) :=
  let current := getSessionGoal sessionRecord now in
  match safe_int (opt_field "goalRevision" (jget GOAL_NAMESPACE (readMetadata sessionRecord))) with
  | Some revision =>
    if 0 <=? revision
    then Some ({| b_goal := next; expected_id := id <$> current; expected_revision := revision |}, current)
    else None
  | None => None
  end.

Definition idGuardMatches (sessionRecord : option json) (expectedGoalId : string) (now : Z) : bool :=
  match getSessionGoal sessionRecord now with
  | Some current => bool_decide (id current = expectedGoalId)
  | None => false
  end.

(** ** The payload the parser yields *)

Record goal_wf (g : GoalPayload) : Prop := {
  wf_id : id g <> "" /\ trim (id g) = id g;
  wf_objective : slen (objective g) <= 5000;
  wf_present : trim (objective g) <> "" \/ objectiveFile g = true;
  wf_key : forall k, objectiveFileKey g = Some k -> is_file_key k = true;
  wf_budget : forall b, tokenBudget g = Some b -> 1 <= b <= TOKEN_BUDGET_MAX;
  wf_counts : Forall (fun n => 0 <= n) [tokensUsed g; tokensBaseline g; tokensCommitted g; turnsUsed g;
                                         blockedStreak g; auditFailStreak g; createdAt g];
  wf_note : slen (note g) <= 280;
  wf_texts : Forall (fun t => slen t <= 200) [statusReason g; evaluationProviderID g; evaluationModelID g;
                                              lastAccountedMessageID g];
  wf_updated : 0 < updatedAt g }.

#[global] Arguments GOAL_OBJECTIVE_CHAR_LIMIT : simpl never.
#[global] Arguments NOTE_CHAR_LIMIT : simpl never.
#[global] Arguments REASON_CHAR_LIMIT : simpl never.
#[global] Arguments TRANSCRIPT_PART_CHAR_LIMIT : simpl never.
#[global] Arguments DISTILLED_OBJECTIVE_CHAR_LIMIT : simpl never.
#[global] Arguments Z.to_nat : simpl never.
#[global] Arguments trim : simpl never.

(** ** Lemmas on the clamps *)

Lemma stake_id n s : (String.length s <= n)%nat -> stake n s = s.
Proof. revert s. induction n as [|n IH]; intros [|a s] H; cbn in *; try done; [lia|]. f_equal. apply IH. lia. Qed.

Lemma slen_stake n s : slen (stake n s) <= Z.of_nat n.
Proof. unfold slen. pose proof (stake_length n s). lia. Qed.

Lemma clampText_len v n : slen (clampText v n) <= Z.of_nat n.
Proof. unfold clampText. destruct v as [[]|]; try (change (slen "") with 0; lia). apply slen_stake. Qed.

Lemma clampText_id s n : slen s <= Z.of_nat n -> clampText (Some (JStr s)) n = s.
Proof. unfold slen. intros H. apply stake_id. lia. Qed.

Lemma nonNegativeInt_nonneg v : 0 <= nonNegativeInt v.
Proof. unfold nonNegativeInt. destruct v as [[| |[]| | |]|]; lia. Qed.

Lemma timestamp_nonneg v : 0 <= timestamp v.
Proof. exact (nonNegativeInt_nonneg v). Qed.

Lemma this_int z : this (Q2Qc (inject_Z z)) = inject_Z z.
Proof.
  pose proof (num_int_JInt z) as H. unfold num_int in H. case_decide as Hd; [|done]. injection H as Hn.
  change (Qnum (this (Q2Qc (inject_Z z))) = z) in Hn. destruct (this (Q2Qc (inject_Z z))) as [n d]. cbn in *. by subst.
Qed.

Lemma nonNegativeInt_JInt z : 0 <= z -> nonNegativeInt (Some (JInt z)) = z.
Proof. intros H. unfold nonNegativeInt, JInt. rewrite this_int, Qfloor_Z. lia. Qed.

Lemma timestamp_JInt z : 0 <= z -> timestamp (Some (JInt z)) = z.
Proof. exact (nonNegativeInt_JInt z). Qed.

Lemma parseTokenBudget_JInt z : 1 <= z <= TOKEN_BUDGET_MAX -> parseTokenBudget (Some (JInt z)) = Some z.
Proof.
  intros H. unfold parseTokenBudget, JInt, trunc. rewrite this_int. cbn [inject_Z Qnum Qden]. rewrite Z.quot_1_r.
  unfold TOKEN_BUDGET_MAX in *. destruct (z <? 1) eqn:?, (100000000 <? z) eqn:?; bool_facts; try lia. done.
Qed.

Lemma parseTokenBudget_bounds v b : parseTokenBudget v = Some b -> 1 <= b <= TOKEN_BUDGET_MAX.
Proof.
  unfold parseTokenBudget. destruct v as [[| |[]| | |]|]; try done.
  destruct (_ || _) eqn:E; [done|]. intros [= <-]. bool_facts. lia.
Qed.

Lemma parseStatus_text s : parseStatus (Some (JStr (status_text s))) = Some s.
Proof. by destruct s. Qed.

(** ** Parsing *)

Lemma parseStatus_sound v s : parseStatus v = Some s -> v = Some (JStr (status_text s)).
Proof.
  unfold parseStatus. destruct v as [[]|]; try done. intros [_ H]%List.find_some.
  apply bool_decide_eq_true_1 in H. by subst.
Qed.

Lemma parse_wf raw now g : 0 < now -> parseGoalPayload raw now = Some g -> goal_wf g.
Proof.
  intros Hnow. unfold parseGoalPayload. destruct raw as [[]|]; try done.
  destruct (jfield "id" _) as [[]|]; try done. case_bool_decide as Hid; [done|].
  destruct (parseStatus _); [|done]. destruct (_ && _) eqn:Ho; [done|]. intros [= <-].
  split; cbn; try by repeat constructor; auto using nonNegativeInt_nonneg, timestamp_nonneg, trim_idem.
  - apply (clampText_len _ GOAL_OBJECTIVE_CHAR_LIMIT).
  - apply andb_false_iff in Ho as [Ho|Ho]; bool_facts; auto.
  - intros k. destruct (jget "objectiveFileKey" _) as [[]|]; try done. destruct (is_file_key _) eqn:E; [|done]. by intros [= <-].
  - intros b. apply parseTokenBudget_bounds.
  - apply (clampText_len _ NOTE_CHAR_LIMIT).
  - repeat constructor; apply clampText_len.
  - pose proof (timestamp_nonneg (jget "updatedAt" fields)). pose proof (timestamp_nonneg (jget "createdAt" fields)).
    repeat split_test; lia.
Qed.

(** The members of the object a goal is. *)
Lemma goal_json_fields g : exists f, goal_json g = JObj f /\
  jget "id" f = Some (JStr (id g)) /\
  jget "objective" f = Some (JStr (objective g)) /\
  jget "objectiveFile" f = Some (JBool (objectiveFile g)) /\
  jget "status" f = Some (JStr (status_text (status g))) /\
  jget "tokenBudget" f = Some (match tokenBudget g with Some b => JInt b | None => JNull end) /\
  jget "tokensUsed" f = Some (JInt (tokensUsed g)) /\
  jget "tokensBaseline" f = Some (JInt (tokensBaseline g)) /\
  jget "tokensCommitted" f = Some (JInt (tokensCommitted g)) /\
  jget "turnsUsed" f = Some (JInt (turnsUsed g)) /\
  jget "blockedStreak" f = Some (JInt (blockedStreak g)) /\
  jget "auditFailStreak" f = Some (JInt (auditFailStreak g)) /\
  jget "note" f = Some (JStr (note g)) /\
  jget "statusReason" f = Some (JStr (statusReason g)) /\
  jget "evaluationProviderID" f = Some (JStr (evaluationProviderID g)) /\
  jget "evaluationModelID" f = Some (JStr (evaluationModelID g)) /\
  jget "lastAccountedMessageID" f = Some (JStr (lastAccountedMessageID g)) /\
  jget "createdAt" f = Some (JInt (createdAt g)) /\
  jget "updatedAt" f = Some (JInt (updatedAt g)) /\
  jget "objectiveFileKey" f = JStr <$> objectiveFileKey g.
Proof. eexists. split; [reflexivity|]. destruct g as [? ? ? [k|]]; repeat split. Qed.

Lemma parse_goal_json g now : goal_wf g -> parseGoalPayload (Some (goal_json g)) now = Some g.
Proof.
  intros [[Hid Htrim] Ho Hp Hk Hb Hc Hn Ht Hu]. repeat (apply Forall_cons in Hc as [? Hc]). repeat (apply Forall_cons in Ht as [? Ht]).
  destruct (goal_json_fields g) as (f & -> & F). destruct_and! F.
  unfold parseGoalPayload. cbn [jfield]. repeat match goal with H : jget _ f = _ |- _ => rewrite H; clear H end.
  rewrite Htrim, bool_decide_false, parseStatus_text, !clampText_id by done. cbn [flag is_true].
  replace (_ && _) with false by (destruct Hp as [Hp| ->]; [by rewrite bool_decide_false|by rewrite andb_false_r]).
  rewrite !timestamp_JInt, ?nonNegativeInt_JInt by lia. cbn zeta.
  replace (updatedAt g =? 0) with false by lia.
  destruct g as [i o fl k st b]. cbn in *. f_equal. f_equal.
  - destruct k as [k|]; cbn; [by rewrite Hk|done].
  - destruct b as [b|]; [|done]. by apply parseTokenBudget_JInt, Hb.
Qed.

(** ** Metadata *)

Lemma buildGoalWrite_eq sessionRecord next now :
  buildGoalWrite sessionRecord next now =
  match readGoalRevision sessionRecord with
  | Some r => Some (mkBody next (id <$> getSessionGoal sessionRecord now) r, getSessionGoal sessionRecord now)
  | None => None
  end.
Proof.
  unfold buildGoalWrite, readGoalRevision, readMetadata, opt_field.
  destruct sessionRecord as [v|]; [|done]. cbn -[safe_int]. destruct (jfield "metadata" v) as [[]|]; try done. cbn -[safe_int].
  destruct (jget _ fields) as [w|]; [|done]. cbn -[safe_int]. destruct (safe_int _); [|done]. by destruct (0 <=? _).
Qed.

Lemma getSessionGoal_wf rec now g : 0 < now -> getSessionGoal rec now = Some g -> goal_wf g.
Proof.
  intros Hn. unfold getSessionGoal. destruct (opt_field _ rec) as [[]|]; try done.
  destruct (jfield _ _) as [[]|]; try done. by apply parse_wf.
Qed.

(** The record with another metadata object. *)
Definition with_metadata (metadata : list (string * json)) (rec : list (string * json)) : json :=
  JObj (jset "metadata" (JObj metadata) rec).

Lemma metadata_of_with m rec : opt_field "metadata" (Some (with_metadata m rec)) = Some (JObj m).
Proof. unfold with_metadata. cbn. by rewrite jget_set_eq. Qed.

Lemma readNamespace_set m f : readNamespace (jset GOAL_NAMESPACE (JObj f) m) = f.
Proof. unfold readNamespace. by rewrite jget_set_eq. Qed.

Lemma merged_namespace k m g :
  k <> GOAL_METADATA_KEY -> jget k (readNamespace (mergeGoalIntoMetadata m g)) = jget k (readNamespace m).
Proof. intros Hk. unfold mergeGoalIntoMetadata. rewrite readNamespace_set. by apply jget_set_ne. Qed.

Lemma merged_others k m g : k <> GOAL_NAMESPACE -> jget k (mergeGoalIntoMetadata m g) = jget k m.
Proof. intros Hk. by apply jget_set_ne. Qed.

Lemma removed_others k m : k <> GOAL_NAMESPACE -> jget k (removeGoalFromMetadata m) = jget k m.
Proof. intros Hk. unfold removeGoalFromMetadata. destruct (jdel _ _); [by apply jget_del_ne|by apply jget_set_ne]. Qed.

Lemma removed_namespace m : jwf m -> readNamespace (removeGoalFromMetadata m) = jdel GOAL_METADATA_KEY (readNamespace m).
Proof.
  intros Hw. unfold removeGoalFromMetadata. destruct (jdel GOAL_METADATA_KEY _) eqn:E; [|apply readNamespace_set].
  unfold readNamespace. by rewrite jget_del_eq.
Qed.

Lemma getSessionGoal_namespace rec now m :
  opt_field "metadata" rec = Some (JObj m) ->
  getSessionGoal rec now = parseGoalPayload (jget GOAL_METADATA_KEY (readNamespace m)) now.
Proof.
  intros H. unfold getSessionGoal. rewrite H. unfold readNamespace. cbn [jfield].
  destruct (jget GOAL_NAMESPACE m) as [[]|]; done.
Qed.

(** A goal written into the metadata of a record is read back exactly, and the
    writers touch nothing else: after a merge or a removal every other member of the
    metadata and of the namespace is what it was, and after a removal no goal is read. *)
Theorem goal_is_kept_in_the_record rec m g now :
  goal_wf g -> jwf m -> jwf (readNamespace m) ->
  getSessionGoal (Some (with_metadata (mergeGoalIntoMetadata m g) rec)) now = Some g
  /\ getSessionGoal (Some (with_metadata (removeGoalFromMetadata m) rec)) now = None
  /\ (forall k, k <> GOAL_NAMESPACE -> jget k (mergeGoalIntoMetadata m g) = jget k m
                /\ jget k (removeGoalFromMetadata m) = jget k m)
  /\ (forall k, k <> GOAL_METADATA_KEY ->
        jget k (readNamespace (mergeGoalIntoMetadata m g)) = jget k (readNamespace m)
        /\ jget k (readNamespace (removeGoalFromMetadata m)) = jget k (readNamespace m)).
Proof.
  intros Hg Hm Hn. split_and!.
  - erewrite getSessionGoal_namespace by apply metadata_of_with. unfold mergeGoalIntoMetadata.
    rewrite readNamespace_set, jget_set_eq. by apply parse_goal_json.
  - erewrite getSessionGoal_namespace by apply metadata_of_with. by rewrite removed_namespace, jget_del_eq.
  - intros k Hk. by rewrite merged_others, removed_others.
  - intros k Hk. rewrite merged_namespace, removed_namespace by done. split; [done|]. by apply jget_del_ne.
Qed.

#[local] Abbreviation ex_goal := (buildGoalPayload {| i_objective := "ship it"; i_objectiveFile := false;
  i_objectiveFileKey := None; i_tokenBudget := Some (JInt 5000) |} 1000 "rs0123456789abcdef").
#[local] Abbreviation ex_metadata := [("ui", JBool true); ("nnd", JObj [("goalRevision", JInt 3)])].

Lemma goal_is_kept_in_the_record_witness :
  getSessionGoal (Some (with_metadata (mergeGoalIntoMetadata ex_metadata ex_goal) [("id", JStr "s")])) 2000 = Some ex_goal.
Proof.
  eapply (goal_is_kept_in_the_record [("id", JStr "s")] ex_metadata ex_goal 2000).
  - split; cbn; [by split|done|by left|done|by intros ? [= <-]|by repeat constructor|done|by repeat constructor|done].
  - repeat constructor; set_solver.
  - repeat constructor; set_solver.
Defined.
