(* ===== verification/GoalState.v ===== *)
(** The transition table of a session goal (server/goals/goal-state.ts): pure
    transforms of the payload; [None] means that the transition is refused. The
    clock ([now]) is an argument. *)

From S2P Require Import Prelude JsString JsMap JsValue GoalPayload.

Local Open Scope Z_scope.

(** ** Events *)

Inductive SettleStatus := SettleComplete | SettleBlocked | SettleBudget.

Definition settle_status (s : SettleStatus) : GoalStatus :=
  match s with SettleComplete => Complete | SettleBlocked => Blocked | SettleBudget => BudgetLimited end.

Inductive GoalEvent :=
| Arm (newObjective : string) (withFile : bool) (budget : option json) (identity : string)
| Tick
| Settle (st : SettleStatus) (reason : string) (newNote : option string)
| Pause (reason : option string)
| Resume
| Reactivate (newObjective : option string) (withFile : option bool)
| Continue.

(** ** Transforms *)

Definition isActive (goal : GoalPayload) : bool := bool_decide (status goal = Active).

Definition isResumable (goal : GoalPayload) : bool :=
  bool_decide (status goal = Paused) || bool_decide (status goal = Blocked) || bool_decide (status goal = BudgetLimited).

Definition isFinal (goal : GoalPayload) : bool := bool_decide (status goal = Complete).

Definition canArmOver (goal : option GoalPayload) : bool :=
  match goal with None => true | Some g => negb (bool_decide (status g = Complete)) end.

(** A goal with other loop members: what the transitions assign. *)
Definition set_loop (g : GoalPayload) (st : GoalStatus) (reason : string) (turns bstreak fstreak : Z)
    (nt : string) (now : Z) : GoalPayload := {|
  id := id g; objective := objective g; objectiveFile := objectiveFile g; objectiveFileKey := objectiveFileKey g;
  status := st; tokenBudget := tokenBudget g; tokensUsed := tokensUsed g; tokensBaseline := tokensBaseline g;
  tokensCommitted := tokensCommitted g; turnsUsed := turns; blockedStreak := bstreak; auditFailStreak := fstreak;
  note := nt; statusReason := reason; evaluationProviderID := evaluationProviderID g;
  evaluationModelID := evaluationModelID g; lastAccountedMessageID := lastAccountedMessageID g;
  createdAt := createdAt g; updatedAt := now |}.

Definition set_objective (g : GoalPayload) (text : string) (file : bool) : GoalPayload := {|
  id := id g; objective := text; objectiveFile := file; objectiveFileKey := objectiveFileKey g;
  status := status g; tokenBudget := tokenBudget g; tokensUsed := tokensUsed g; tokensBaseline := tokensBaseline g;
  tokensCommitted := tokensCommitted g; turnsUsed := turnsUsed g; blockedStreak := blockedStreak g;
  auditFailStreak := auditFailStreak g; note := note g; statusReason := statusReason g;
  evaluationProviderID := evaluationProviderID g; evaluationModelID := evaluationModelID g;
  lastAccountedMessageID := lastAccountedMessageID g; createdAt := createdAt g; updatedAt := updatedAt g |}.

Definition armGoal (existing : option GoalPayload) (newObjective : string) (withFile : bool) (budget : option json)
    (identity : string) (now : Z) : option GoalPayload :=
  if negb (canArmOver existing) then None
  else if negb withFile && bool_decide (trim newObjective = "") then None
  else Some (buildGoalPayload {| i_objective := newObjective; i_objectiveFile := withFile;
                                 i_objectiveFileKey := None; i_tokenBudget := budget |} now identity).

Definition pauseGoal (goal : GoalPayload) (reason : string) (now : Z) : option GoalPayload :=
  if negb (bool_decide (status goal = Active)) then None
  else Some (set_loop goal Paused (stake REASON_CHAR_LIMIT reason) (turnsUsed goal) (blockedStreak goal)
               (auditFailStreak goal) (note goal) now).

Definition resumeGoal (goal : GoalPayload) (now : Z) : option GoalPayload :=
  if negb (isResumable goal) then None
  else Some (set_loop goal Active resumed 0 0 (auditFailStreak goal) (note goal) now).

Definition reactivateGoal (goal : GoalPayload) (newObjective : option string) (withFile : option bool) (now : Z)
  : option GoalPayload :=
  if isFinal goal then None
  else let next := set_objective goal (default (objective goal) newObjective) (default (objectiveFile goal) withFile) in
       Some (set_loop next Active resumed 0 0 0 (note next) now).

Definition settleGoal (goal : GoalPayload) (st : GoalStatus) (reason : string) (newNote : option string) (now : Z)
  : option GoalPayload :=
  if bool_decide (status goal = st) then None
  else Some (set_loop goal st (stake REASON_CHAR_LIMIT reason) (turnsUsed goal) 0 0
               (match newNote with Some n => stake NOTE_CHAR_LIMIT n | None => note goal end) now).

Definition continueGoal (goal : GoalPayload) (now : Z) : GoalPayload :=
  set_loop goal (status goal) "" (turnsUsed goal + 1) (blockedStreak goal) (auditFailStreak goal) (note goal) now.

Definition applyGoalEvent (goal : option GoalPayload) (event : GoalEvent) (now : Z) : option GoalPayload :=
  match event with
  | Arm o f b i => armGoal goal o f b i now
  | _ =>
    match goal with
    | None => None
    | Some goal =>
      match event with
      | Arm _ _ _ _ => None
      | Tick => if bool_decide (status goal = Active) then Some goal else None
      | Settle st reason n => settleGoal goal (settle_status st) reason n now
      | Pause reason => pauseGoal goal (default pausedAfterAbort reason) now
      | Resume => resumeGoal goal now
      | Reactivate o f => reactivateGoal goal o f now
      | Continue => if bool_decide (status goal = Active) then Some (continueGoal goal now) else None
      end
    end
  end.

Definition notificationTitle (st : GoalStatus) : option string :=
  match st with
  | Complete => Some "Goal complete"
  | BudgetLimited => Some "Goal reached its token budget"
  | Blocked => Some "Goal blocked"
  | _ => None
  end.

(** ** What the table promises *)

(** Texts an event may carry: an objective is given within the limit and not blank,
    and an id is one the code makes. *)
Definition event_ok (goal : option GoalPayload) (event : GoalEvent) : Prop :=
  match event with
  | Arm o f _ i => (f = true \/ trim (stake GOAL_OBJECTIVE_CHAR_LIMIT o) <> "") /\ i <> "" /\ trim i = i
  | Reactivate o f => match o with
                      | Some o => slen o <= 5000 /\ (trim o <> "" \/ default false (f) = true)
                      | None => f <> Some false \/ (exists g, goal = Some g /\ trim (objective g) <> "")
                      end
  | _ => True
  end.

(** What an event does to the status: [None], refused. *)
Definition next_status (st : GoalStatus) (event : GoalEvent) : option GoalStatus :=
  match event, st with
  | Arm _ _ _ _, Complete => None
  | Arm _ _ _ _, _ => Some Active
  | (Tick | Continue), Active => Some Active
  | Pause _, Active => Some Paused
  | Resume, (Paused | Blocked | BudgetLimited) => Some Active
  | Reactivate _ _, (Active | Paused | Blocked | BudgetLimited) => Some Active
  | Settle t _ _, _ => if decide (st = settle_status t) then None else Some (settle_status t)
  | _, _ => None
  end.

Lemma set_loop_wf g st reason turns b f n now :
  goal_wf g -> 0 < now -> slen reason <= 200 -> 0 <= turns -> 0 <= b -> 0 <= f -> slen n <= 280 ->
  goal_wf (set_loop g st reason turns b f n now).
Proof.
  intros [] ? ? ? ? ? ?. repeat (apply Forall_cons in wf_counts as [? wf_counts]). repeat (apply Forall_cons in wf_texts as [? wf_texts]).
  split; cbn; try done; by repeat constructor.
Qed.

Lemma trim_end_by_blank f s : trim_end_by f s = "" <-> sall f s = true.
Proof.
  induction s as [|a s IH]; [done|]. cbn. destruct (trim_end_by f s) eqn:E.
  - destruct IH as [IH _]. rewrite IH by done. destruct (f a); done.
  - split; [done|]. intros [_ H]%andb_true_iff. apply IH in H. done.
Qed.

Lemma sall_trim_start f s : sall f (trim_start_by f s) = sall f s.
Proof. induction s as [|a s IH]; [done|]. cbn. destruct (f a) eqn:E; [done|]. cbn. by rewrite E. Qed.

Lemma trim_blank s : trim s = "" <-> sall is_space s = true.
Proof. unfold trim, trimStart. by rewrite trim_end_by_blank, sall_trim_start. Qed.

Lemma sall_stake f n s : sall f s = true -> sall f (stake n s) = true.
Proof. revert s. induction n as [|n IH]; intros [|a s] H; cbn in *; try done. apply andb_true_iff in H as [-> H]. cbn. auto. Qed.

Lemma trim_stake_blank n s : trim s = "" -> trim (stake n s) = "".
Proof. rewrite !trim_blank. apply sall_stake. Qed.

(** The members no transition but arming touches. *)
Definition same_accounts (g g' : GoalPayload) : Prop :=
  id g' = id g /\ createdAt g' = createdAt g /\ tokenBudget g' = tokenBudget g
  /\ tokensUsed g' = tokensUsed g /\ tokensCommitted g' = tokensCommitted g
  /\ lastAccountedMessageID g' = lastAccountedMessageID g.

Definition is_arm (event : GoalEvent) : bool := match event with Arm _ _ _ _ => true | _ => false end.

Lemma arm_wf o f b i now : 0 < now -> event_ok None (Arm o f b i) ->
  goal_wf (buildGoalPayload {| i_objective := o; i_objectiveFile := f; i_objectiveFileKey := None; i_tokenBudget := b |} now i).
Proof.
  intros Hn ([Hf|Ho] & Hi & Ht); (split; cbn; try done; try by repeat constructor; try lia); try (by right); try (by left);
    try (apply (slen_stake GOAL_OBJECTIVE_CHAR_LIMIT)); try apply parseTokenBudget_bounds; repeat constructor; lia || done.
Qed.

Lemma stake_reason_len s : slen (stake REASON_CHAR_LIMIT s) <= 200.
Proof. apply (slen_stake REASON_CHAR_LIMIT). Qed.

Lemma stake_note_len s : slen (stake NOTE_CHAR_LIMIT s) <= 280.
Proof. apply (slen_stake NOTE_CHAR_LIMIT). Qed.

#[export] Hint Resolve stake_reason_len stake_note_len : js.

Lemma wf_nonneg g : goal_wf g -> 0 <= turnsUsed g /\ 0 <= blockedStreak g /\ 0 <= auditFailStreak g.
Proof. intros []. repeat (apply Forall_cons in wf_counts as [? wf_counts]). done. Qed.

Lemma wf_reason g : goal_wf g -> slen (statusReason g) <= 200.
Proof. intros []. by apply Forall_cons in wf_texts as [? _]. Qed.

Lemma set_objective_wf g o f now :
  goal_wf g -> 0 < now -> event_ok (Some g) (Reactivate o f) ->
  goal_wf (set_objective g (default (objective g) o) (default (objectiveFile g) f)).
Proof.
  intros [] ? H. split; cbn; try done.
  - destruct o as [o|]; [apply H|done].
  - cbn in H. destruct o as [o|]; cbn.
    + destruct H as [_ [H|H]]; [by left|]. destruct f as [[]|]; try done. by right.
    + destruct H as [H|(g' & [= <-] & H)]; [|by left]. destruct f as [[]|]; [by right|done|done].
Qed.

Lemma next_settle st t r n :
  next_status st (Settle t r n) = if decide (st = settle_status t) then None else Some (settle_status t).
Proof. by destruct st. Qed.

(** The transition table: for a goal in each status the table says whether an event
    is refused and which status it leads to; a transition keeps the payload well formed,
    and every one but arming keeps the identity and the token accounts of the goal. The
    texts of the event are those of [event_ok]: others break the well-formedness
    (blank_prefix_is_armed, edit_is_not_clamped). A complete goal can still be settled as
    blocked (complete_is_settled_again). *)
Theorem transitions_follow_the_table g event now :
  goal_wf g -> 0 < now -> event_ok (Some g) event ->
  match applyGoalEvent (Some g) event now with
  | None => next_status (status g) event = None
  | Some g' => next_status (status g) event = Some (status g') /\ goal_wf g'
               /\ (is_arm event = false -> same_accounts g g')
  end.
Proof.
  intros Hg Hn He. destruct (wf_nonneg g Hg) as (? & ? & ?). pose proof (wf_note g Hg). pose proof (wf_reason g Hg).
  destruct event; cbn [applyGoalEvent is_arm].
  - unfold armGoal, canArmOver. destruct He as (Ho & Hi & Ht). case_bool_decide as Hs; cbn [negb]; [by rewrite Hs|].
    assert (negb withFile && bool_decide (trim newObjective = "") = false) as ->.
    { destruct Ho as [->|Ho]; [done|]. apply andb_false_intro2, bool_decide_false. intros E. by apply Ho, trim_stake_blank. }
    split; [by destruct (status g)|]. split; [|done]. by apply arm_wf.
  - case_bool_decide as Hs; [rewrite Hs; by split_and!|by destruct (status g)].
  - unfold settleGoal. case_bool_decide as Hs; [|split_and!].
    + rewrite next_settle. by rewrite decide_True.
    + rewrite next_settle. by rewrite decide_False.
    + apply set_loop_wf; auto with js; try lia. destruct newNote; [auto with js|done].
    + done.
  - unfold pauseGoal. case_bool_decide as Hs; cbn [negb]; [rewrite Hs|by destruct (status g)].
    split_and!; [done| |done]. apply set_loop_wf; auto with js.
  - unfold resumeGoal, isResumable. destruct (status g) eqn:Hs; try done;
      (split_and!; [done| |done]; apply set_loop_wf; auto; done || lia).
  - unfold reactivateGoal, isFinal. destruct (status g) eqn:Hs; try done;
      (split_and!; [done| |done]; apply set_loop_wf; auto; try done; by apply (set_objective_wf g newObjective withFile now)).
  - case_bool_decide as Hs; [rewrite Hs|by destruct (status g)]. split_and!; [by cbn; rewrite Hs| |done].
    apply set_loop_wf; auto; try done; lia.
Qed.

Lemma transitions_follow_the_table_witness :
  let g := buildGoalPayload {| i_objective := "ship it"; i_objectiveFile := false; i_objectiveFileKey := None;
                               i_tokenBudget := None |} 1000 "rs0123456789abcdef" in
  exists g', applyGoalEvent (Some g) (Pause None) 2000 = Some g' /\ status g' = Paused /\ goal_wf g'.
Proof.
  intros g. eexists. split; [reflexivity|]. split; [reflexivity|].
  eapply (transitions_follow_the_table g (Pause None) 2000); [|done|done].
  split; cbn; [by split|done|by left|done|done|by repeat constructor|done|by repeat constructor|done].
Defined.

(** ** Findings *)

(** Arming tests the whole text and stores its first 5000 characters: with a blank
    beginning the stored goal is one the parser refuses. *)
Lemma blank_prefix_is_armed :
  exists text g, armGoal None text false None "rs01" 1000 = Some g
    /\ parseGoalPayload (Some (goal_json g)) 2000 = None.
Proof.
  exists (Nat.iter (Z.to_nat 5000) (String " ") "x"). eexists. split; [vm_compute; reflexivity|]. vm_compute. reflexivity.
Qed.

(** [complete] is final for every event but a settle. *)
Lemma complete_is_settled_again :
  exists g g', status g = Complete /\ settleGoal g Blocked "late" None 2000 = Some g' /\ status g' = Blocked.
Proof.
  exists (set_loop (buildGoalPayload {| i_objective := "x"; i_objectiveFile := false; i_objectiveFileKey := None;
    i_tokenBudget := None |} 1000 "rs01") Complete verifiedByAudit 0 0 0 "" 1500).
  eexists. done.
Qed.

(** An edit stores a text longer than the limit. *)
Lemma edit_is_not_clamped :
  exists g g' text, reactivateGoal g (Some text) None 2000 = Some g' /\ 5000 < slen (objective g').
Proof.
  exists (buildGoalPayload {| i_objective := "x"; i_objectiveFile := false; i_objectiveFileKey := None;
    i_tokenBudget := None |} 1000 "rs01").
  eexists _, (Nat.iter (Z.to_nat 5001) (String "x") ""). split; [vm_compute; reflexivity|]. vm_compute. reflexivity.
Qed.
