(* ===== verification/GoalHarness.v ===== *)
(** The harness end of a session goal (src/src/desktop-goal.js,
    desktop-goal-evidence.js, the goal members of desktop-session-description.js) and
    the adapter that renames its vocabulary (server/harness/nna.ts).

    The harness is the agent runtime. Its goal store is a compare-and-swap on the
    identity and the revision; its evidence is a window on the receipts of the turns of
    the session. *)

From S2P Require Import Prelude JsString JsMap JsValue GoalPayload GoalState.

Local Open Scope Z_scope.

(** ** Validation of a stored goal (desktop-goal.js) *)

Definition STATUSES : list string := status_text <$> GOAL_STATUSES.

Definition ID (s : string) : bool :=
  sall (fun a => is_alnum a || Ascii.eqb a "_" || Ascii.eqb a "-") s && bool_decide (4 <= slen s <= 128).

Definition FILE_KEY (s : string) : bool := bool_decide (s = "") || is_file_key s.

Definition TEXT_LIMITS : list (string * Z) :=
  [("objective", 5000); ("note", 280); ("statusReason", 200); ("evaluationProviderID", 200);
   ("evaluationModelID", 200); ("lastAccountedMessageID", 200)].

Definition COUNTERS : list string :=
  ["tokensUsed"; "tokensBaseline"; "tokensCommitted"; "turnsUsed"; "blockedStreak"; "auditFailStreak";
   "createdAt"; "updatedAt"].

Definition FIELDS : list string :=
  ["id"; "status"; "objectiveFile"; "objectiveFileKey"; "tokenBudget"] ++ TEXT_LIMITS.*1 ++ COUNTERS.

Definition string_in (f : string -> bool) (v : option json) : bool :=
  match v with Some (JStr s) => f s | _ => false end.

(** [Number.isSafeInteger(v) && v >= 0] *)
Definition natural (v : option json) : option Z :=
  match safe_int v with Some n => if 0 <=? n then Some n else None | None => None end.

(** The texts and the counters, in order; [None] when one is invalid. *)
Definition valid_text (f : list (string * json)) (kl : string * Z) : option (string * json) :=
  match jget kl.1 f with
  | Some (JStr s) => if kl.2 <? slen s then None else Some (kl.1, JStr s)
  | _ => None
  end.

Definition valid_counter (f : list (string * json)) (k : string) : option (string * json) :=
  n ← natural (jget k f); Some (k, JInt n).

Definition valid_budget (v : option json) : bool :=
  match v with
  | Some JNull => true
  | _ => match safe_int v with Some n => (1 <=? n) && (n <=? 100000000) | None => false end
  end.

Definition blank (v : option json) : bool := match v with Some (JStr s) => bool_decide (trim s = "") | _ => true end.

(** [None]: throws [desktop_goal_invalid]. *)
Definition validatedDesktopGoal (value : json) : option (list (string * json)) :=
  match value with
  | JObj f =>
    if negb (forallb (fun k => bool_decide (k ∈ FIELDS)) (jkeys f))
       || negb (string_in ID (jget "id" f))
       || negb (string_in (fun s => bool_decide (s ∈ STATUSES)) (jget "status" f))
       || negb (is_bool (jget "objectiveFile" f))
       || negb (is_undefined (jget "objectiveFileKey" f) || string_in FILE_KEY (jget "objectiveFileKey" f))
    then None
    else
      texts ← mapM (valid_text f) TEXT_LIMITS;
      if blank (jget "objective" f) && negb (is_true (jget "objectiveFile" f)) then None
      else if negb (valid_budget (jget "tokenBudget" f)) then None
      else
        counters ← mapM (valid_counter f) COUNTERS;
        created ← natural (jget "createdAt" f);
        updated ← natural (jget "updatedAt" f);
        if (created =? 0) || (updated <? created) then None
        else Some ([("id", default JNull (jget "id" f)); ("status", default JNull (jget "status" f));
                    ("objectiveFile", default JNull (jget "objectiveFile" f))]
                   ++ match jget "objectiveFileKey" f with Some k => [("objectiveFileKey", k)] | None => [] end
                   ++ texts ++ [("tokenBudget", default JNull (jget "tokenBudget" f))] ++ counters)
  | _ => None
  end.

(** ** The goal of a session and its compare-and-swap *)

Record Session := mkSession {
  h_goal : option (list (string * json));
  goalRevision : Z;
  s_updatedAt : Z;
  closing : bool;
  turn_live : bool }.  (** [liveTurn], or an engine turn that is not finalized *)

Inductive HarnessError := GoalInvalid | SessionUnavailable | GoalConflict | NotPersisted.

Definition nextUpdatedAt (s : Session) (now : Z) : Z := Z.max now (s_updatedAt s + 1).

(** [null], or a string the grammar accepts. *)
Definition valid_expected_id (v : json) : bool :=
  match v with JNull => true | _ => string_in ID (Some v) end.

Definition goal_id (s : Session) : json :=
  match h_goal s with Some f => default JNull (jget "id" f) | None => JNull end.

(** The change under the catalog lock and its commit once the catalog is written
    ([persisted]): one step of the harness. *)
Definition goalCatalogMutation (s : Session) (goal : option (list (string * json))) (expectedId expectedRevision : json)
    (now : Z) (persisted : bool) : exc HarnessError Session :=
  if negb (valid_expected_id expectedId) || is_undefined (JInt <$> natural (Some expectedRevision))
  then Throw GoalInvalid
  else if closing s then Throw SessionUnavailable
  else if negb (bool_decide (goal_id s = expectedId)) || negb (bool_decide (safe_int (Some expectedRevision) = Some (goalRevision s)))
  then Throw GoalConflict
  else if match goal, h_goal s with Some _, None => turn_live s | _, _ => false end then Throw GoalConflict
  else if negb persisted then Throw NotPersisted
  else Ok {| h_goal := goal; goalRevision := goalRevision s + 1; s_updatedAt := nextUpdatedAt s now;
             closing := closing s; turn_live := turn_live s |}.

Definition setGoal (s : Session) (value expectedId expectedRevision : json) (now : Z) (persisted : bool)
  : exc HarnessError Session :=
  match validatedDesktopGoal value with
  | None => Throw GoalInvalid
  | Some goal => goalCatalogMutation s (Some goal) expectedId expectedRevision now persisted
  end.

Definition clearGoal (s : Session) (expectedId expectedRevision : json) (now : Z) (persisted : bool) : exc HarnessError Session :=
  goalCatalogMutation s None expectedId expectedRevision now persisted.

(** The answer of the goal route: [{ goal, revision }]. *)
Definition goal_answer (s : Session) : json :=
  JObj [("goal", match h_goal s with Some f => JObj f | None => JNull end); ("revision", JInt (goalRevision s))].

(** ** The session record (desktop-session-description.js)

    [extra]: the other members of the projection, [identity] those of the record. *)

Definition describe (identity extra : list (string * json)) (projection : json) (s : Session) : json :=
  JObj (identity ++ [("metadata", JObj [("desktop", JObj (
    extra ++ match h_goal s with Some f => [("goal", JObj f)] | None => [] end
    ++ [("goalRevision", JInt (goalRevision s)); ("projection", projection)]))])]).

(** ** The adapter (nna.ts): [nnd] beside every [desktop] *)

Fixpoint mirrorNnd (value : json) : option json :=
  match value with
  | JArr l =>
    let rows := List.map (fun i => (mirrorNnd i, i)) l in
    if existsb (fun r => match r.1 with Some _ => true | None => false end) rows
    then Some (JArr ((fun r : option json * json => default r.2 r.1) <$> rows)) else None
  | JObj f =>
    let rows := List.map (fun ki : string * json => let (k, i) := ki in (k, (mirrorNnd i, i))) f in
    let out := (fun r : string * (option json * json) => (r.1, default r.2.2 r.2.1)) <$> rows in
    let changed := existsb (fun r => match r.2.1 with Some _ => true | None => false end) rows in
    match jget "nnd" f, jget "desktop" f with
    | None, Some (JObj d) => Some (JObj (jset "nnd" (JObj d) out))
    | _, _ => if changed then Some (JObj out) else None
    end
  | _ => None
  end.

(** What the adapter answers with for a JSON document. *)
Definition shapeResponse (body : json) : json := default body (mirrorNnd body).

(** ** A validated goal is the object it was *)

Lemma safe_int_inv v n : safe_int v = Some n -> v = Some (JInt n).
Proof.
  unfold safe_int. destruct v as [[| |m| | |]|]; try done. destruct (num_int m) as [z|] eqn:E; [|done].
  destruct (is_safe_integer z); [|done]. intros [= <-]. destruct m as [q|]; [|done]. cbn in E. case_decide as Hd; [|done].
  injection E as Hn. unfold JInt. do 3 f_equal. apply Qcanon.Qc_is_canon. rewrite this_int.
  destruct q as [[a b] H]. cbn in *. by subst.
Qed.

Lemma natural_inv v n : natural v = Some n -> v = Some (JInt n) /\ 0 <= n /\ is_safe_integer n = true.
Proof.
  unfold natural. destruct (safe_int v) as [m|] eqn:E; [|done]. destruct (0 <=? m) eqn:H0; [|done]. intros [= <-].
  pose proof (safe_int_inv _ _ E) as ->. bool_facts. split_and!; [done|done|].
  unfold safe_int, JInt in E. rewrite num_int_JInt in E. by destruct (is_safe_integer m).
Qed.

Lemma natural_JInt n : 0 <= n -> is_safe_integer n = true -> natural (Some (JInt n)) = Some n.
Proof. intros H0 Hs. unfold natural. rewrite safe_int_JInt by done. by replace (0 <=? n) with true by lia. Qed.

Lemma valid_text_inv f kl e : valid_text f kl = Some e -> jget e.1 f = Some e.2 /\ e.1 = kl.1.
Proof. unfold valid_text. destruct (jget kl.1 f) as [[]|] eqn:E; try done. destruct (_ <? _); [done|]. by intros [= <-]. Qed.

Lemma valid_counter_inv f k e : valid_counter f k = Some e -> jget e.1 f = Some e.2 /\ e.1 = k.
Proof.
  unfold valid_counter. destruct (natural _) as [n|] eqn:E; [|done]. intros [= <-]. cbn.
  by apply natural_inv in E as [-> _].
Qed.

Lemma Forall2_pairs {A} (f : list (string * json)) (key : A -> string) (P : A -> string * json -> Prop) l r :
  (forall a e, P a e -> jget e.1 f = Some e.2 /\ e.1 = key a) -> Forall2 P l r ->
  Forall (fun e => jget e.1 f = Some e.2) r /\ r.*1 = key <$> l.
Proof.
  intros HP. induction 1 as [|a e l r Ha H [IH1 IH2]]; [done|]. apply HP in Ha as [Hg Hk]. cbn. rewrite Hk, IH2. split; [by constructor|done].
Qed.

(** What validation establishes about the members. *)
Record validated (f v : list (string * json)) : Prop := {
  v_same : forall k, k ∈ FIELDS -> jget k v = jget k f;
  v_id : string_in ID (jget "id" f) = true;
  v_status : exists st, jget "status" f = Some (JStr (status_text st));
  v_file : is_bool (jget "objectiveFile" f) = true;
  v_key : is_undefined (jget "objectiveFileKey" f) || string_in FILE_KEY (jget "objectiveFileKey" f) = true;
  v_texts : Forall (fun kl => exists s, jget kl.1 f = Some (JStr s) /\ slen s <= kl.2) TEXT_LIMITS;
  v_blank : blank (jget "objective" f) && negb (is_true (jget "objectiveFile" f)) = false;
  v_budget : valid_budget (jget "tokenBudget" f) = true;
  v_counters : Forall (fun k => exists n, jget k f = Some (JInt n) /\ 0 <= n /\ is_safe_integer n = true) COUNTERS;
  v_times : exists c u, jget "createdAt" f = Some (JInt c) /\ jget "updatedAt" f = Some (JInt u) /\ 0 < c <= u }.

Lemma status_in v : string_in (fun s => bool_decide (s ∈ STATUSES)) v = true -> exists st, v = Some (JStr (status_text st)).
Proof.
  destruct v as [[]|]; try done. cbn [string_in]. intros H%bool_decide_eq_true_1. unfold STATUSES in H.
  apply list_elem_of_fmap in H as (st & -> & _). by exists st.
Qed.

Lemma jget_agrees (f v : list (string * json)) k :
  Forall (fun e => jget e.1 f = Some e.2) v -> (jget k v = None -> jget k f = None) -> jget k v = jget k f.
Proof.
  intros Hf Hn. destruct (jget k v) as [w|] eqn:E; [|by rewrite Hn].
  symmetry. exact (Forall_jget (fun e => jget e.1 f = Some e.2) k w v Hf E).
Qed.

Lemma mapM_texts f t : mapM (valid_text f) TEXT_LIMITS = Some t ->
  Forall (fun e => jget e.1 f = Some e.2) t /\ t.*1 = TEXT_LIMITS.*1
  /\ Forall (fun kl => exists s, jget kl.1 f = Some (JStr s) /\ slen s <= kl.2) TEXT_LIMITS.
Proof.
  intros H%mapM_Some. destruct (Forall2_pairs f fst _ _ _ (valid_text_inv f) H) as [H1 H2]. split_and!; [done|done|].
  eapply Forall2_Forall_l; [exact H|]. apply Forall_true. intros kl e. unfold valid_text.
  destruct (jget e.1 f) as [[]|] eqn:E; try done. destruct (_ <? _) eqn:L; [done|]. intros _. eexists. split; [done|]. bool_facts. lia.
Qed.

Lemma mapM_counters f t : mapM (valid_counter f) COUNTERS = Some t ->
  Forall (fun e => jget e.1 f = Some e.2) t /\ t.*1 = COUNTERS
  /\ Forall (fun k => exists n, jget k f = Some (JInt n) /\ 0 <= n /\ is_safe_integer n = true) COUNTERS.
Proof.
  intros H%mapM_Some. destruct (Forall2_pairs f (fun k => k) _ _ _ (valid_counter_inv f) H) as [H1 H2].
  rewrite list_fmap_id in H2. split_and!; [done|done|].
  eapply Forall2_Forall_l; [exact H|]. apply Forall_true. intros k e. unfold valid_counter.
  destruct (natural _) as [n|] eqn:E; [|done]. intros _. exists n. by apply natural_inv.
Qed.

Lemma some_default (v : option json) : v <> None -> v = Some (default JNull v).
Proof. by destruct v. Qed.

(** The object validation puts together has the members of the one it looked at. *)
Lemma assembled_same f t c :
  string_in ID (jget "id" f) = true -> string_in (fun s => bool_decide (s ∈ STATUSES)) (jget "status" f) = true ->
  is_bool (jget "objectiveFile" f) = true -> valid_budget (jget "tokenBudget" f) = true ->
  Forall (fun e => jget e.1 f = Some e.2) t -> t.*1 = TEXT_LIMITS.*1 ->
  Forall (fun e => jget e.1 f = Some e.2) c -> c.*1 = COUNTERS ->
  let v := [("id", default JNull (jget "id" f)); ("status", default JNull (jget "status" f));
            ("objectiveFile", default JNull (jget "objectiveFile" f))]
           ++ match jget "objectiveFileKey" f with Some k => [("objectiveFileKey", k)] | None => [] end
           ++ t ++ [("tokenBudget", default JNull (jget "tokenBudget" f))] ++ c in
  forall k, k ∈ FIELDS -> jget k v = jget k f.
Proof.
  intros H1 H2 H3 H4 Ht Ht1 Hc Hc1 v k Hk. apply jget_agrees.
  - repeat apply Forall_cons_2.
    + apply (some_default (jget "id" f)). intros E. by rewrite E in H1.
    + apply (some_default (jget "status" f)). intros E. by rewrite E in H2.
    + apply (some_default (jget "objectiveFile" f)). intros E. by rewrite E in H3.
    + cbn [app]. apply Forall_app_2; [destruct (jget "objectiveFileKey" f) eqn:E; by repeat constructor|].
      apply Forall_app_2; [done|]. apply Forall_cons_2; [|done].
      apply (some_default (jget "tokenBudget" f)). intros E. by rewrite E in H4.
  - intros Hn%jget_None. destruct (jget "objectiveFileKey" f) eqn:E; subst v.
    + exfalso. apply Hn. unfold jkeys. rewrite !fmap_app, Ht1, Hc1. clear -Hk. unfold FIELDS in Hk.
      cbn in Hk |- *. rewrite !elem_of_cons in *. naive_solver.
    + destruct (decide (k = "objectiveFileKey")) as [->|Hne]; [done|]. exfalso. apply Hn. unfold jkeys.
      rewrite !fmap_app, Ht1, Hc1. clear -Hk Hne. unfold FIELDS in Hk. cbn in Hk |- *. rewrite !elem_of_cons in *. naive_solver.
Qed.

Lemma validated_spec f v : validatedDesktopGoal (JObj f) = Some v -> validated f v.
Proof.
  unfold validatedDesktopGoal. destruct (_ || _) eqn:Hb; [done|]. repeat (apply orb_false_iff in Hb as [Hb ?]). bool_facts.
  destruct (mapM (valid_text f) TEXT_LIMITS) as [t|] eqn:Et; [|done]. cbn [mbind option_bind negb].
  apply mapM_texts in Et as (Ht1 & Ht2 & Ht3).
  destruct (blank _ && _) eqn:Hbl; [done|]. destruct (valid_budget _) eqn:Hbud; [|done]. cbn [mbind option_bind negb].
  destruct (mapM (valid_counter f) COUNTERS) as [c|] eqn:Ec; [|done]. cbn [mbind option_bind negb]. apply mapM_counters in Ec as (Hc1 & Hc2 & Hc3).
  destruct (natural (jget "createdAt" f)) as [cr|] eqn:E1; [|done]. cbn [mbind option_bind negb].
  destruct (natural (jget "updatedAt" f)) as [up|] eqn:E2; [|done]. cbn [mbind option_bind negb].
  destruct ((cr =? 0) || _) eqn:Hcu; [done|]. intros [= <-]. apply natural_inv in E1 as (E1 & ? & _), E2 as (E2 & ? & _). bool_facts.
  split; try done.
  2: by apply status_in.
  2: { exists cr, up. split_and!; try done; lia. }
  by apply assembled_same.
Qed.

(** ** The harness and the desktop read the same goal *)

Lemma trim_no_space s : sall (fun a => negb (is_space a)) s = true -> trim s = s.
Proof.
  intros H. unfold trim, trimStart.
  assert (trim_start_by is_space s = s) as ->.
  { destruct s as [|a s]; [done|]. cbn in *. apply andb_true_iff in H as [H _]. apply negb_true_iff in H. by rewrite H. }
  induction s as [|a s IH]; [done|]. cbn in *. apply andb_true_iff in H as [Ha H]. apply negb_true_iff in Ha.
  rewrite IH by done. rewrite Ha. by destruct s.
Qed.

Lemma ID_trim s : ID s = true -> trim s = s /\ s <> "".
Proof.
  unfold ID. intros [H Hl]%andb_true_iff. split.
  - apply trim_no_space. eapply sall_mono; [|exact H]. intros a. destruct a as [[] [] [] [] [] [] [] []]; vm_compute; congruence.
  - intros ->. by vm_compute in Hl.
Qed.

(** Every member of the payload is the member of the object; an empty key is no key. *)
Record reads (f : list (string * json)) (g : GoalPayload) : Prop := {
  r_id : jget "id" f = Some (JStr (id g));
  r_status : jget "status" f = Some (JStr (status_text (status g)));
  r_file : jget "objectiveFile" f = Some (JBool (objectiveFile g));
  r_objective : jget "objective" f = Some (JStr (objective g));
  r_note : jget "note" f = Some (JStr (note g));
  r_reason : jget "statusReason" f = Some (JStr (statusReason g));
  r_provider : jget "evaluationProviderID" f = Some (JStr (evaluationProviderID g));
  r_model : jget "evaluationModelID" f = Some (JStr (evaluationModelID g));
  r_cursor : jget "lastAccountedMessageID" f = Some (JStr (lastAccountedMessageID g));
  r_budget : jget "tokenBudget" f = Some match tokenBudget g with Some b => JInt b | None => JNull end;
  r_used : jget "tokensUsed" f = Some (JInt (tokensUsed g));
  r_baseline : jget "tokensBaseline" f = Some (JInt (tokensBaseline g));
  r_committed : jget "tokensCommitted" f = Some (JInt (tokensCommitted g));
  r_turns : jget "turnsUsed" f = Some (JInt (turnsUsed g));
  r_blocked : jget "blockedStreak" f = Some (JInt (blockedStreak g));
  r_fail : jget "auditFailStreak" f = Some (JInt (auditFailStreak g));
  r_created : jget "createdAt" f = Some (JInt (createdAt g));
  r_updated : jget "updatedAt" f = Some (JInt (updatedAt g));
  r_key : jget "objectiveFileKey" f = JStr <$> objectiveFileKey g
          \/ (jget "objectiveFileKey" f = Some (JStr "") /\ objectiveFileKey g = None) }.

(** The key is dropped when it is empty. *)
Definition read_key (v : option json) : option string :=
  match v with Some (JStr k) => if is_file_key k then Some k else None | _ => None end.

Lemma reads_key f g : reads f g -> goal_wf g -> objectiveFileKey g = read_key (jget "objectiveFileKey" f).
Proof.
  intros Hr Hw. destruct (r_key _ _ Hr) as [-> | [-> ->]]; [|done]. unfold read_key.
  destruct (objectiveFileKey g) as [k|] eqn:E; [|done]. cbn. by rewrite (wf_key g Hw k E).
Qed.

Lemma parse_reads f g now : reads f g -> goal_wf g -> parseGoalPayload (Some (JObj f)) now = Some g.
Proof.
  intros Hr Hw. pose proof (reads_key f g Hr Hw) as Hkey. clear - Hr Hw Hkey. revert Hr Hkey Hw. intros [] Hkey [[Hid Htrim] Ho Hp Hk Hb Hc Hn Ht Hu]. repeat (apply Forall_cons in Hc as [? Hc]). repeat (apply Forall_cons in Ht as [? Ht]).
  unfold parseGoalPayload. cbn [jfield]. repeat match goal with H : jget _ f = Some _ |- _ => rewrite H; clear H end.
  rewrite Htrim, bool_decide_false, parseStatus_text, !clampText_id by done. cbn [flag is_true].
  replace (_ && _) with false by (destruct Hp as [Hp| ->]; [by rewrite bool_decide_false|by rewrite andb_false_r]).
  rewrite !timestamp_JInt, ?nonNegativeInt_JInt by lia. cbn zeta. replace (updatedAt g =? 0) with false by lia.
  destruct g as [i o fl k st b]. cbn in *. subst k. f_equal. f_equal. destruct b as [b|]; [|done].
  by apply parseTokenBudget_JInt, Hb.
Qed.

Lemma valid_budget_inv v : valid_budget v = true ->
  exists b, v = Some match b with Some b => JInt b | None => JNull end /\ (forall n, b = Some n -> 1 <= n <= TOKEN_BUDGET_MAX).
Proof.
  unfold valid_budget. intros H. destruct (decide (v = Some JNull)) as [->|Hn]; [by exists None|].
  destruct (safe_int v) as [n|] eqn:E; [|by destruct v as [[]|]].
  apply safe_int_inv in E as ->. exists (Some n). split; [done|]. intros m [= <-]. change ((1 <=? n) && (n <=? 100000000) = true) in H.
  bool_facts. unfold TOKEN_BUDGET_MAX. lia.
Qed.

Lemma texts_inv f : Forall (fun kl => exists s, jget kl.1 f = Some (JStr s) /\ slen s <= kl.2) TEXT_LIMITS ->
  exists o n r p m c,
    (jget "objective" f = Some (JStr o) /\ slen o <= 5000) /\ (jget "note" f = Some (JStr n) /\ slen n <= 280)
    /\ (jget "statusReason" f = Some (JStr r) /\ slen r <= 200) /\ (jget "evaluationProviderID" f = Some (JStr p) /\ slen p <= 200)
    /\ (jget "evaluationModelID" f = Some (JStr m) /\ slen m <= 200) /\ (jget "lastAccountedMessageID" f = Some (JStr c) /\ slen c <= 200).
Proof. unfold TEXT_LIMITS. rewrite !Forall_cons. cbn. intros ([] & [] & [] & [] & [] & [] & _). repeat eexists; naive_solver. Qed.

Lemma counters_inv f : Forall (fun k => exists n, jget k f = Some (JInt n) /\ 0 <= n /\ is_safe_integer n = true) COUNTERS ->
  exists tu tb tc ts bs fs,
    (jget "tokensUsed" f = Some (JInt tu) /\ 0 <= tu) /\ (jget "tokensBaseline" f = Some (JInt tb) /\ 0 <= tb)
    /\ (jget "tokensCommitted" f = Some (JInt tc) /\ 0 <= tc) /\ (jget "turnsUsed" f = Some (JInt ts) /\ 0 <= ts)
    /\ (jget "blockedStreak" f = Some (JInt bs) /\ 0 <= bs) /\ (jget "auditFailStreak" f = Some (JInt fs) /\ 0 <= fs).
Proof.
  unfold COUNTERS. rewrite !Forall_cons. intros ([] & [] & [] & [] & [] & [] & _). repeat eexists; naive_solver.
Qed.

Lemma validated_reads f v : validated f v ->
  exists g, reads f g /\ goal_wf g /\ ID (id g) = true.
Proof.
  intros []. destruct (jget "id" f) as [[| | |i| |]|] eqn:Hid; try done. destruct v_status0 as [st Hst].
  destruct (jget "objectiveFile" f) as [[|b| | | |]|] eqn:Hf; try done.
  destruct (texts_inv f v_texts0) as (o & n & r & p & m & c & [] & [] & [] & [] & [] & []).
  destruct (counters_inv f v_counters0) as (tu & tb & tc & ts & bs & fs & [] & [] & [] & [] & [] & []).
  destruct (valid_budget_inv _ v_budget0) as (bud & Hbud & Hb). destruct v_times0 as (cr & up & Hcr & Hup & Hle).
  exists (mkGoal i o b (read_key (jget "objectiveFileKey" f)) st bud tu tb tc ts bs fs n r p m c cr up).
  destruct (ID_trim i v_id0) as [Ht Hne]. split_and!; [split; try done; cbn| |done].
  { destruct (jget "objectiveFileKey" f) as [[| | |k| |]|]; try done; [|by left]. cbn in v_key0. unfold read_key.
    destruct (is_file_key k) eqn:Ek; [by left|right]. unfold FILE_KEY in v_key0. rewrite Ek, orb_false_r in v_key0.
    apply bool_decide_eq_true in v_key0. by subst k. }
  split; cbn; try done; try (repeat constructor; done || lia).
  - destruct b; [by right|]. left. intros E. rewrite H in v_blank0. cbn in v_blank0. by rewrite E in v_blank0.
  - intros k. unfold read_key. destruct (jget "objectiveFileKey" f) as [[]|]; try done. destruct (is_file_key _) eqn:E; [|done]. by intros [= <-].
Qed.

(** Membership in a closed list. *)
Ltac by_member := refine (bool_decide_unpack _ _); vm_compute; exact I.

Lemma reads_same f v g : (forall k, k ∈ FIELDS -> jget k v = jget k f) -> reads f g -> reads v g.
Proof. intros H []. split; rewrite H; first [done|by_member]. Qed.

(** A stored goal parses, member by member. *)
Lemma stored_reads value v now :
  validatedDesktopGoal value = Some v ->
  exists g, parseGoalPayload (Some (JObj v)) now = Some g /\ reads v g /\ goal_wf g /\ ID (id g) = true
    /\ objectiveFileKey g = read_key (jget "objectiveFileKey" v).
Proof.
  destruct value as [| | | | |f]; try done. intros Hv%validated_spec.
  destruct (validated_reads f v Hv) as (g & Hr & Hw & Hi). exists g.
  assert (reads v g) by (eapply reads_same; [apply Hv|done]).
  split_and!; try done; [by apply parse_reads|by apply reads_key].
Qed.

(** C19. Every goal the harness stores, whoever wrote it, is one the desktop reads: parsing
    the stored object succeeds, whatever the clock says, and yields each member as it is
    stored, the key of the objective's file included, except that an empty key, which the
    harness takes, is read as none; no clamp of the parser applies. *)
Theorem stored_goal_is_read value v now :
  validatedDesktopGoal value = Some v ->
  exists g, parseGoalPayload (Some (JObj v)) now = Some g /\ reads v g /\ goal_wf g /\ ID (id g) = true.
Proof. intros H. destruct (stored_reads value v now H) as (g & ? & ? & ? & ? & _). by exists g. Qed.

Lemma stored_goal_is_read_witness :
  let g := buildGoalPayload {| i_objective := "ship it"; i_objectiveFile := false; i_objectiveFileKey := None;
                               i_tokenBudget := Some (JInt 5000) |} 1000 "rs0123456789abcdef" in
  exists v, validatedDesktopGoal (goal_json g) = Some v
    /\ exists g', parseGoalPayload (Some (JObj v)) 2000 = Some g' /\ turnsUsed g' = 0.
Proof.
  intros g. eexists. split; [vm_compute; reflexivity|].
  edestruct (stored_goal_is_read (goal_json g)) as (g' & Hp & Hr & _); [vm_compute; reflexivity|].
  exists g'. split; [exact Hp|]. pose proof (r_turns _ _ Hr) as Ht. vm_compute in Ht.
  destruct g' as [? ? ? ? ? ? ? ? ? turns]. cbn in *. injection Ht as Ht. destruct turns; try done; discriminate.
Defined.

(** The harness's copy of a payload reads back as that payload, its key apart. *)
Lemma stored_payload g v now g' :
  validatedDesktopGoal (goal_json g) = Some v -> parseGoalPayload (Some (JObj v)) now = Some g' ->
  id g' = id g /\ objective g' = objective g /\ objectiveFile g' = objectiveFile g /\ tokenBudget g' = tokenBudget g
  /\ createdAt g' = createdAt g /\ turnsUsed g' = turnsUsed g /\ status g' = status g
  /\ (forall k, objectiveFileKey g' = Some k -> objectiveFileKey g = Some k).
Proof.
  intros Hv Hp. destruct (stored_reads _ v now Hv) as (g2 & Hp2 & [] & _ & _ & Hkey).
  rewrite Hp in Hp2. injection Hp2 as <-.
  destruct (goal_json_fields g) as (f & Ef & F). rewrite Ef in Hv. apply validated_spec in Hv. destruct_and! F.
  repeat match goal with H : jget ?k v = _ |- _ => rewrite (v_same _ _ Hv k) in H by by_member end.
  rewrite (v_same _ _ Hv "objectiveFileKey") in Hkey by by_member.
  repeat match goal with H : jget ?k f = Some _, H' : jget ?k f = Some _ |- _ => rewrite H in H'; apply (inj Some) in H'; clear H end.
  match goal with H : jget "objectiveFileKey" f = _ |- _ => rewrite H in Hkey end.
  split_and!; try congruence; try (by apply JInt_inj).
  - destruct (tokenBudget g), (tokenBudget g'); try done. match goal with H : JInt _ = JInt _ |- _ => apply JInt_inj in H; by subst end.
  - by destruct (status g), (status g').
  - intros k Hk. rewrite Hk in Hkey. destruct (objectiveFileKey g) as [k'|]; [|done]. cbn in Hkey. destruct (is_file_key k'); [|done]. congruence.
Qed.

(** What the harness asks of a goal the desktop writes, beyond its being well formed. *)
Record writable (g : GoalPayload) : Prop := {
  w_wf : goal_wf g;
  w_id : ID (id g) = true;
  w_safe : Forall (fun n => is_safe_integer n = true)
             [tokensUsed g; tokensBaseline g; tokensCommitted g; turnsUsed g; blockedStreak g; auditFailStreak g;
              createdAt g; updatedAt g];
  w_times : 0 < createdAt g <= updatedAt g }.

Lemma goal_json_keys g : forallb (fun k => bool_decide (k ∈ FIELDS)) (jkeys match goal_json g with JObj f => f | _ => [] end) = true.
Proof. destruct g as [? ? ? [k|]]; vm_compute; reflexivity. Qed.

Lemma is_safe_small z : 0 <= z <= TOKEN_BUDGET_MAX -> is_safe_integer z = true.
Proof.
  unfold TOKEN_BUDGET_MAX, is_safe_integer, MAX_SAFE_INTEGER. intros H.
  rewrite !bool_decide_true; [done| |]; change (2 ^ 53) with 9007199254740992; lia.
Qed.

Lemma valid_budget_payload g : goal_wf g -> valid_budget (Some match tokenBudget g with Some b => JInt b | None => JNull end) = true.
Proof.
  intros Hw. destruct (tokenBudget g) as [b|] eqn:E; [|done]. pose proof (wf_budget g Hw b E) as Hb.
  assert (safe_int (Some (JInt b)) = Some b) as H by (apply safe_int_JInt, is_safe_small; lia).
  unfold valid_budget. rewrite H. unfold TOKEN_BUDGET_MAX in Hb.
  transitivity ((1 <=? b) && (b <=? 100000000)); [reflexivity|lia].
Qed.

Lemma mapM_all {A B} (f : A -> option B) l : Forall (fun a => is_Some (f a)) l -> is_Some (mapM f l).
Proof. induction 1 as [|a l [b Hb] _ [k Hk]]; [by eexists|]. cbn. rewrite Hb, Hk. by eexists. Qed.

(** A writable payload passes the validation. *)
Lemma writable_valid g : writable g -> exists v, validatedDesktopGoal (goal_json g) = Some v /\ reads v g.
Proof.
  intros [Hw Hid Hs [Ht1 Ht2]]. pose proof (valid_budget_payload g Hw) as Hbud. pose proof (goal_json_keys g) as Hkeys.
  destruct (goal_json_fields g) as (f & E & F). rewrite E in *. destruct_and! F.
  assert (reads f g) as Hr by (split; try done; by left). clear E.
  destruct Hw as [_ Ho Hp Hk Hb Hc Hn Hx Hu]. repeat (apply Forall_cons in Hc as [? Hc]). repeat (apply Forall_cons in Hx as [? Hx]).
  repeat (apply Forall_cons in Hs as [? Hs]).
  assert (is_Some (validatedDesktopGoal (JObj f))) as [v Hv]; [|exists v; split; [done|]; eapply reads_same; [apply (validated_spec f v Hv)|done]].
  unfold validatedDesktopGoal. rewrite Hkeys. cbn [negb orb].
  destruct Hr. rewrite r_id0, r_status0, r_file0, r_objective0, r_budget0, Hbud, r_created0, r_updated0. cbn [string_in is_bool negb orb].
  rewrite Hid, bool_decide_true by (unfold STATUSES; destruct (status g); by_member). cbn [negb orb].
  assert (is_undefined (jget "objectiveFileKey" f) || string_in FILE_KEY (jget "objectiveFileKey" f) = true) as ->.
  { destruct (objectiveFileKey g) as [k|] eqn:Ek; [|by match goal with H : jget "objectiveFileKey" f = _ |- _ => rewrite H end].
    match goal with H : jget "objectiveFileKey" f = _ |- _ => rewrite H end. cbn. unfold FILE_KEY. by rewrite (Hk k), orb_true_r. }
  cbn [negb].
  destruct (mapM_all (valid_text f) TEXT_LIMITS) as [t ->].
  { unfold TEXT_LIMITS, valid_text. repeat constructor; cbn [fst snd];
      match goal with H : jget ?k f = Some _ |- is_Some match jget ?k f with _ => _ end => rewrite H end;
      rewrite (proj2 (Z.ltb_ge _ _)) by done; by eexists. }
  cbn [mbind option_bind].
  replace (blank _ && negb _) with false by (cbn; destruct Hp as [Hp| ->]; [by rewrite bool_decide_false|by rewrite andb_false_r]).
  destruct (mapM_all (valid_counter f) COUNTERS) as [c ->].
  { unfold COUNTERS, valid_counter. repeat constructor;
      match goal with H : jget ?k f = Some _ |- is_Some (natural (jget ?k f) ≫= _) => rewrite H end;
      rewrite natural_JInt by (done || lia); by eexists. }
  cbn [mbind option_bind]. rewrite !natural_JInt by (done || lia). cbn [mbind option_bind].
  replace ((createdAt g =? 0) || (updatedAt g <? createdAt g)) with false by lia. by eexists.
Qed.

(** ** What a desktop reads of a session *)

Lemma shape_obj f : exists f', shapeResponse (JObj f) = JObj f'.
Proof. unfold shapeResponse. cbn. repeat case_match; cbn; by eexists. Qed.

Definition mirror_row (ki : string * json) : string * (option json * json) := let (k, i) := ki in (k, (mirrorNnd i, i)).
Definition mirror_out (r : string * (option json * json)) : string * json := (r.1, default r.2.2 r.2.1).

Lemma jget_out k f : jget k (mirror_out <$> List.map mirror_row f) = shapeResponse <$> jget k f.
Proof. induction f as [|[k' i] f IH]; [done|]. cbn. case_decide; [done|]. exact IH. Qed.

Lemma unchanged_rows f k i :
  existsb (fun r => match r.2.1 with Some _ => true | None => false end) (List.map mirror_row f) = false ->
  jget k f = Some i -> shapeResponse i = i.
Proof.
  induction f as [|[k' j] f IH]; [done|]. cbn. intros [H1 H2]%orb_false_iff. case_decide; [|by apply IH].
  intros [= <-]. unfold shapeResponse. by destruct (mirrorNnd j).
Qed.

(** The members but [nnd] are those of the document, translated. *)
Lemma shape_field f k : k <> "nnd" -> jfield k (shapeResponse (JObj f)) = shapeResponse <$> jget k f.
Proof.
  intros Hk. unfold shapeResponse at 1. cbn [mirrorNnd].
  change (List.map _ f) with (List.map mirror_row f).
  destruct (existsb _ _) eqn:E.
  - destruct (jget "nnd" f), (jget "desktop" f) as [[]|]; cbn [from_option Datatypes.id jfield];
      rewrite ?(jget_set_ne k "nnd") by done; apply jget_out.
  - assert (jget k f = shapeResponse <$> jget k f) as Hs.
    { destruct (jget k f) as [i|] eqn:Ei; [|done]. cbn. by rewrite (unchanged_rows f k i). }
    destruct (jget "nnd" f), (jget "desktop" f) as [[]|]; cbn [from_option Datatypes.id jfield]; try done.
    rewrite (jget_set_ne k "nnd") by done. apply jget_out.
Qed.

(** [nnd] is what the document has under [desktop], untranslated. *)
Lemma shape_nnd f d : jget "nnd" f = None -> jget "desktop" f = Some (JObj d) -> jfield "nnd" (shapeResponse (JObj f)) = Some (JObj d).
Proof. intros Hn Hd. unfold shapeResponse. cbn [mirrorNnd]. rewrite Hn, Hd. cbn [from_option Datatypes.id jfield]. apply jget_set_eq. Qed.

Lemma jget_app {V} k (l m : list (string * V)) : jget k (l ++ m) = match jget k l with Some v => Some v | None => jget k m end.
Proof. induction l as [|[k' v] l IH]; [done|]. cbn. by case_decide. Qed.

Section record.
  Context (identity extra : list (string * json)) (projection : json).
  Hypothesis no_metadata : jget "metadata" identity = None.
  Hypothesis no_goal : jget "goal" extra = None.
  Hypothesis no_revision : jget "goalRevision" extra = None.

Definition session_record (s : Session) : option json := Some (shapeResponse (describe identity extra projection s)).

Lemma record_namespace s : exists m, opt_field "metadata" (session_record s) = Some (JObj m)
  /\ jget GOAL_NAMESPACE m = Some (JObj (extra ++ match h_goal s with Some f => [("goal", JObj f)] | None => [] end
                                        ++ [("goalRevision", JInt (goalRevision s)); ("projection", projection)])).
Proof.
  unfold session_record, opt_field, describe. cbn [mbind option_bind]. rewrite shape_field by done.
  rewrite jget_app, no_metadata. cbn [jget]. rewrite decide_True by done. cbn [fmap option_fmap option_map].
  match goal with |- context [shapeResponse (JObj ?d)] => destruct (shape_obj d) as [m Hm]; exists m; split; [by rewrite Hm|];
    pose proof (shape_nnd d) as Hn; rewrite Hm in Hn end.
  by apply Hn.
Qed.

Lemma record_goal s now : getSessionGoal (session_record s) now = (f ← h_goal s; parseGoalPayload (Some (JObj f)) now).
Proof.
  destruct (record_namespace s) as (m & Hm & Hn). rewrite (getSessionGoal_namespace _ _ m Hm). unfold readNamespace. rewrite Hn. unfold GOAL_METADATA_KEY. cbn [members default from_option Datatypes.id].
  rewrite jget_app, no_goal. by destruct (h_goal s).
Qed.

Lemma record_revision s : 0 <= goalRevision s -> is_safe_integer (goalRevision s) = true ->
  readGoalRevision (session_record s) = Some (goalRevision s).
Proof.
  intros H0 Hs. destruct (record_namespace s) as (m & Hm & Hn). unfold readGoalRevision. rewrite Hm. cbn [opt_field mbind option_bind jfield].
  unfold opt_field. cbn [mbind option_bind jfield]. rewrite Hn. cbn [mbind option_bind jfield]. rewrite jget_app, no_revision.
  assert (jget "goalRevision" (match h_goal s with Some f => [("goal", JObj f)] | None => [] end
    ++ [("goalRevision", JInt (goalRevision s)); ("projection", projection)]) = Some (JInt (goalRevision s))) as -> by (by destruct (h_goal s)).
  rewrite safe_int_JInt by done. by replace (0 <=? goalRevision s) with true by lia.
Qed.

(** The revision a record shows is the one of the session. *)
Lemma record_revision_inv s r : readGoalRevision (session_record s) = Some r -> r = goalRevision s.
Proof.
  destruct (record_namespace s) as (m & Hm & Hn). unfold readGoalRevision. rewrite Hm. cbn [opt_field mbind option_bind jfield].
  unfold opt_field. cbn [mbind option_bind jfield]. rewrite Hn. cbn [mbind option_bind jfield]. rewrite jget_app, no_revision.
  assert (jget "goalRevision" (match h_goal s with Some f => [("goal", JObj f)] | None => [] end
    ++ [("goalRevision", JInt (goalRevision s)); ("projection", projection)]) = Some (JInt (goalRevision s))) as -> by (by destruct (h_goal s)).
  destruct (safe_int _) as [n|] eqn:E; [|done]. destruct (0 <=? n); [|done]. intros [= <-].
  apply safe_int_inv in E. apply (inj Some) in E. symmetry. by apply JInt_inj.
Qed.

End record.
