(* ===== verification/GoalEvidence.v ===== *)
(** The token accounting of a goal: the receipts of the harness
    (src/src/desktop-goal-evidence.js) and the decision the desktop takes on them
    (server/goals/nna-goal-evidence.ts). *)

From S2P Require Import Prelude JsString JsMap JsValue GoalPayload GoalState GoalHarness.

Local Open Scope Z_scope.

(** ** The harness: receipts of turns (desktop-goal-evidence.js) *)

Definition MAX_TURNS : nat := 200.

Definition control_character (a : ascii) : bool :=
  let n := N_of_ascii a in ((n <=? 31) || (127 <=? n) && (n <=? 159))%N.

(** [/^[A-Za-z0-9_-]{1,64}$/] *)
Definition PROVIDER_PROFILE_ID (s : string) : bool :=
  sall (fun a => is_alnum a || Ascii.eqb a "_" || Ascii.eqb a "-") s && bool_decide (1 <= slen s <= 64).

(** [/^[A-Za-z0-9][A-Za-z0-9._:-]{0,127}$/] *)
Definition REQUEST_ID (s : string) : bool :=
  match s with
  | EmptyString => false
  | String a r => is_alnum a && sall (fun a => is_alnum a || existsb (Ascii.eqb a) ["."; "_"; ":"; "-"]%char) r
                  && bool_decide (slen r <= 127)
  end.

Definition model_ok (m : string) : bool :=
  bool_decide (0 < slen m) && bool_decide (slen m <= 256) && negb (bool_decide (trim m = ""))
  && sall (fun a => negb (control_character a)) m.

Record Receipt := mkReceipt {
  request_id : string;
  outcome : string;
  tokens : option Z;
  measurement : string;
  affinity : option (string * string) }.

#[export] Instance Receipt_eq_dec : EqDecision Receipt.
Proof. solve_decision. Defined.

Definition count (v : option json) : option Z := natural v.

Definition str_or (d : string) (v : option json) : string := match v with Some (JStr s) => s | _ => d end.

(** [a ?? b] *)
Definition nullish (a b : option json) : option json := match a with None | Some JNull => b | _ => a end.

Definition MEASUREMENTS : list string := ["provider"; "estimated"; "mixed"].

Definition desktopGoalTurnReceipt (record : json) : option Receipt :=
  if negb (string_in (fun t => bool_decide (t ∈ ["turn_result"; "turn_outcome"])) (jfield "type" record))
     || negb (string_in REQUEST_ID (jfield "request_id" record)) then None
  else
    let accounting := jfield "token_accounting" record in
    let usage := jfield "usage" record in
    let accounted := count (opt_field "accounted_total_tokens" accounting) in
    let measured := count (nullish (opt_field "total_tokens" usage) (opt_field "totalTokens" usage)) in
    let accountingMeasurement := opt_field "measurement" accounting in
    let hasAccounted := match accounted with Some _ => true | None => false end
                        && string_in (fun m => bool_decide (m ∈ MEASUREMENTS)) accountingMeasurement in
    Some {|
      request_id := str_or "" (jfield "request_id" record);
      outcome := match jfield "outcome" record with Some (JStr o) => stake 40 o | _ => "unknown" end;
      tokens := if hasAccounted then accounted else measured;
      measurement := if hasAccounted then str_or "" accountingMeasurement
                     else match measured with Some _ => "provider" | None => "unavailable" end;
      affinity := match jfield "provider_profile" record, jfield "model" record with
                  | Some (JStr p), Some (JStr m) => if PROVIDER_PROFILE_ID p && model_ok m then Some (p, m) else None
                  | _, _ => None
                  end |}.

(** The live receipts of a context and whether older ones were dropped. *)
Definition recordDesktopGoalTurn (live : list Receipt * bool) (record : json) : list Receipt * bool :=
  match desktopGoalTurnReceipt record with
  | None => live
  | Some receipt =>
    let l := live.1 ++ [receipt] in
    if (MAX_TURNS <? length l)%nat then (drop 1 l, true) else (l, live.2)
  end.

Record Evidence := mkEvidence { turns : list Receipt; window_truncated : bool }.

Definition is_compaction (entry : json) : bool := is_str (jfield "type" entry) "compaction".

Definition put_receipt (m : list (string * Receipt)) (r : Receipt) : list (string * Receipt) := jset (request_id r) r m.

(** [slice(-n)] *)
Definition last_n {A} (n : nat) (l : list A) : list A := drop (length l - n) l.

Definition desktopGoalEvidence (transcript : list json) (liveReceipts : list Receipt) (liveTruncated : bool) : Evidence :=
  let byId := fold_left put_receipt (filter (fun r => REQUEST_ID (request_id r) = true) liveReceipts)
                (fold_left put_receipt (omap desktopGoalTurnReceipt transcript) []) in
  let all := jvals byId in
  {| turns := last_n MAX_TURNS all;
     window_truncated := liveTruncated || (MAX_TURNS <? length all)%nat || existsb is_compaction transcript |}.

Definition receipt_json (r : Receipt) : json := JObj (
  [("request_id", JStr (request_id r)); ("outcome", JStr (outcome r));
   ("tokens", match tokens r with Some n => JInt n | None => JNull end); ("measurement", JStr (measurement r))]
  ++ match affinity r with Some (p, m) => [("provider_profile", JStr p); ("model", JStr m)] | None => [] end).

Definition evidence_json (sessionId : string) (e : Evidence) : json := JObj
  [("session_id", JStr sessionId); ("turns", JArr (receipt_json <$> turns e));
   ("latest_request_id", match last (turns e) with Some r => JStr (request_id r) | None => JNull end);
   ("window_truncated", JBool (window_truncated e))].

(** ** The desktop: validation of the evidence (nna-goal-evidence.ts) *)

(** A turn as the decision looks at it; [t_tokens] is the raw member. *)
Record Turn := mkTurn { t_request : string; t_outcome : string; t_tokens : option json; t_measurement : string }.

Definition validAffinity (turn : json) : bool :=
  match jfield "provider_profile" turn, jfield "model" turn with
  | None, None => true
  | Some (JStr p), Some (JStr m) => PROVIDER_PROFILE_ID p && model_ok m
  | _, _ => false
  end.

Fixpoint valid_turns (seen : list string) (l : list json) : option (list Turn) :=
  match l with
  | [] => Some []
  | turn :: l =>
    match jfield "request_id" turn, jfield "outcome" turn, jfield "measurement" turn with
    | Some (JStr r), Some (JStr o), Some (JStr m) =>
      if bool_decide (r = "") || (128 <? slen r) || bool_decide (r ∈ seen) || negb (validAffinity turn) then None
      else cons (mkTurn r o (jfield "tokens" turn) m) <$> valid_turns (r :: seen) l
    | _, _, _ => None
    end
  end.

(** The type guard: [None], not evidence; else the turns and the truncation mark. *)
Definition validEvidence (raw : option json) (sessionId : string) : option (list Turn * bool) :=
  match raw with
  | Some (JObj _ as value) =>
    match is_str (jfield "session_id" value) sessionId, jfield "turns" value, jfield "window_truncated" value with
    | true, Some (JArr l), Some (JBool truncated) =>
      if (200 <? length l)%nat then None
      else match valid_turns [] l with
      | None => None
      | Some ts =>
        if bool_decide (jfield "latest_request_id" value
                        = Some match last ts with Some t => JStr (t_request t) | None => JNull end)
        then Some (ts, truncated) else None
      end
    | _, _, _ => None
    end
  | _ => None
  end.

(** ** The decision *)

Inductive GoalEvidenceDecision :=
| DWait (goal : GoalPayload)
| DAudit (goal : GoalPayload) (latest : Turn)
| DContinue (goal : GoalPayload)
| DSettle (goal : GoalPayload).

(** [settleGoal(...)!] of an active goal; the assertion never fails (below). *)
Definition blocked (goal : GoalPayload) (reason : string) (now : Z) : GoalEvidenceDecision :=
  DSettle (default goal (settleGoal goal Blocked reason None now)).

Fixpoint findIndex (cursor : string) (l : list Turn) : option nat :=
  match l with
  | [] => None
  | t :: l => if bool_decide (t_request t = cursor) then Some 0%nat else S <$> findIndex cursor l
  end.

(** The sum over the fresh receipts; [None], usage unavailable. *)
Fixpoint account (total : Z) (fresh : list Turn) : option Z :=
  match fresh with
  | [] => Some total
  | t :: fresh =>
    match safe_int (t_tokens t) with
    | Some n =>
      if negb (is_safe_integer total) || (n <? 0) || negb (bool_decide (t_measurement t ∈ MEASUREMENTS))
         || negb (is_safe_integer (total + n)) then None
      else account (total + n) fresh
    | None => None
    end
  end.

Definition set_accounts (g : GoalPayload) (total : Z) (cursor : string) (now : Z) : GoalPayload := {|
  id := id g; objective := objective g; objectiveFile := objectiveFile g; objectiveFileKey := objectiveFileKey g;
  status := status g; tokenBudget := tokenBudget g; tokensUsed := total; tokensBaseline := 0; tokensCommitted := total;
  turnsUsed := turnsUsed g; blockedStreak := blockedStreak g; auditFailStreak := auditFailStreak g; note := note g;
  statusReason := statusReason g; evaluationProviderID := evaluationProviderID g; evaluationModelID := evaluationModelID g;
  lastAccountedMessageID := cursor; createdAt := createdAt g; updatedAt := now |}.

Definition is_failed (t : Turn) : bool := negb (bool_decide (t_outcome t ∈ ["completed"; "cancelled"])).
Definition is_cancelled (t : Turn) : bool := bool_decide (t_outcome t = "cancelled").

(** The decision on an accounted goal: [fresh] receipts, the [tail] the cursor was on. *)
Definition decide_next (next : GoalPayload) (fresh : list Turn) (tail : option Turn) (now : Z) : GoalEvidenceDecision :=
  if existsb is_failed fresh then blocked next assistantTurnFailed now
  else if existsb is_cancelled fresh && negb (bool_decide (statusReason next = resumed))
  then DSettle (default next (pauseGoal next pausedAfterAbort now))
  else if match tokenBudget next with Some b => b <=? tokensUsed next | None => false end
  then DSettle (default next (settleGoal next BudgetLimited budgetReached None now))
  else if MAX_AUTO_TURNS <=? turnsUsed next then blocked next turnLimit now
  else match bool_decide (statusReason next = resumed), last fresh, tail with
  | true, None, Some t =>
    if bool_decide (t_outcome t = "cancelled") || bool_decide (t_outcome t = "completed") then DContinue next
    else blocked next assistantTurnFailed now
  | _, latest, _ =>
    if existsb is_cancelled fresh then DContinue next
    else match latest with Some l => DAudit next l | None => DWait next end
  end.

Definition decideNnaGoalEvidence (goal : GoalPayload) (sessionId : string) (evidence : option json) (now : Z)
  : GoalEvidenceDecision :=
  if negb (bool_decide (status goal = Active)) then DWait goal
  else match validEvidence evidence sessionId with
  | None => blocked goal evidenceUnavailable now
  | Some (ts, truncated) =>
    let cursor := lastAccountedMessageID goal in
    let index := if bool_decide (cursor = "") then None else findIndex cursor ts in
    if (negb (bool_decide (cursor = "")) && bool_decide (index = None)) || (bool_decide (cursor = "") && truncated)
    then blocked goal evidenceGap now
    else
      let fresh := match index with Some i => drop (S i) ts | None => ts end in
      let total := Z.max (tokensUsed goal) (tokensCommitted goal) in
      if negb (is_safe_integer total) then blocked goal usageUnavailable now
      else match account total fresh with
      | None => blocked goal usageUnavailable now
      | Some total =>
        let next := if (0 <? Zlen fresh) || negb (tokensUsed goal =? total)
                    then set_accounts goal total (match last fresh with Some t => t_request t | None => cursor end) now
                    else goal in
        decide_next next fresh (index ≫= fun i => ts !! i) now
      end
  end.

(** ** The contract: the harness's evidence is valid *)

Definition turn_of (r : Receipt) : Turn :=
  mkTurn (request_id r) (outcome r) (Some match tokens r with Some n => JInt n | None => JNull end) (measurement r).

(** What [desktopGoalTurnReceipt] guarantees of a receipt. *)
Record receipt_ok (r : Receipt) : Prop := {
  rc_id : REQUEST_ID (request_id r) = true;
  rc_affinity : forall p m, affinity r = Some (p, m) -> PROVIDER_PROFILE_ID p = true /\ model_ok m = true;
  rc_tokens : forall n, tokens r = Some n -> 0 <= n /\ is_safe_integer n = true;
  rc_measured : tokens r <> None -> measurement r ∈ MEASUREMENTS }.

Lemma turn_receipt_ok record r : desktopGoalTurnReceipt record = Some r -> receipt_ok r.
Proof.
  unfold desktopGoalTurnReceipt. destruct (_ || _) eqn:E; [done|]. apply orb_false_iff in E as [_ E]. apply negb_false_iff in E.
  destruct (jfield "request_id" record) as [[| | |i| |]|]; try done. intros [= <-].
  set (acc := count _). set (mea := count (nullish _ _)). set (am := opt_field "measurement" _).
  split; cbn.
  - done.
  - intros p m. destruct (jfield "provider_profile" record) as [[]|], (jfield "model" record) as [[]|]; try done.
    destruct (_ && _) eqn:Ea; [|done]. intros [= <- <-]. bool_facts. done.
  - intros n Hn. assert (acc = Some n \/ mea = Some n) as [H|H] by (destruct (_ && _) in Hn; auto);
      unfold acc, mea, count in H; by apply natural_inv in H as (_ & ? & ?).
  - destruct (_ && _) eqn:Ea.
    + intros _. apply andb_true_iff in Ea as [_ Ea]. destruct am as [[]|]; try done. cbn in *. by apply bool_decide_eq_true_1 in Ea.
    + intros Hn. destruct mea; [by left|done].
Qed.

Lemma request_id_len s : REQUEST_ID s = true -> s <> "" /\ slen s <= 128.
Proof.
  destruct s as [|a s]; [done|]. cbn. intros [[_ _]%andb_true_iff H]%andb_true_iff. split; [done|].
  apply bool_decide_eq_true_1 in H. unfold slen in *. cbn. lia.
Qed.

Lemma receipt_fields r :
  jfield "request_id" (receipt_json r) = Some (JStr (request_id r)) /\ jfield "outcome" (receipt_json r) = Some (JStr (outcome r))
  /\ jfield "measurement" (receipt_json r) = Some (JStr (measurement r)) /\ jfield "tokens" (receipt_json r) = t_tokens (turn_of r)
  /\ jfield "provider_profile" (receipt_json r) = JStr ∘ fst <$> affinity r /\ jfield "model" (receipt_json r) = JStr ∘ snd <$> affinity r.
Proof. destruct r as [? ? ? ? [[]|]]; by split_and!. Qed.

Lemma receipt_affinity r : receipt_ok r -> validAffinity (receipt_json r) = true.
Proof.
  intros H. destruct (receipt_fields r) as (_ & _ & _ & _ & H1 & H2). unfold validAffinity. rewrite H1, H2.
  destruct (affinity r) as [[p m]|] eqn:E; [|done]. cbn. destruct (rc_affinity _ H p m E) as [-> ->]. done.
Qed.

Lemma valid_turns_receipts seen l :
  Forall receipt_ok l -> NoDup (request_id <$> l) -> Forall (fun r => request_id r ∉ seen) l ->
  valid_turns seen (receipt_json <$> l) = Some (turn_of <$> l).
Proof.
  revert seen. induction l as [|r l IH]; intros seen Hok Hnd Hs; [done|].
  apply Forall_cons in Hok as [Hr Hok], Hs as [Hsr Hs]. cbn in Hnd. apply NoDup_cons in Hnd as [Hn Hnd].
  destruct (receipt_fields r) as (H1 & H2 & H3 & H4 & _). cbn [fmap list_fmap valid_turns]. rewrite H1, H2, H3, H4.
  destruct (request_id_len _ (rc_id _ Hr)) as [Hne Hl]. rewrite receipt_affinity by done.
  rewrite bool_decide_false by done. replace (128 <? _) with false by lia. rewrite bool_decide_false by done. cbn [orb negb].
  rewrite IH; [done|done|done|]. rewrite Forall_forall in Hs |- *. intros x Hx Hin. apply elem_of_cons in Hin as [Hin|Hin].
  - apply Hn. rewrite <- Hin. by apply list_elem_of_fmap_2.
  - by eapply Hs.
Qed.

Record evidence_ok (e : Evidence) : Prop := {
  ev_receipts : Forall receipt_ok (turns e);
  ev_distinct : NoDup (request_id <$> turns e);
  ev_bound : (length (turns e) <= MAX_TURNS)%nat }.

Lemma validEvidence_json sid e : evidence_ok e ->
  validEvidence (Some (evidence_json sid e)) sid = Some (turn_of <$> turns e, window_truncated e).
Proof.
  intros [H1 H2 H3]. unfold validEvidence, evidence_json. jfields. rewrite bool_decide_true by done.
  rewrite length_fmap. replace (200 <? _)%nat with false by (symmetry; apply Nat.ltb_ge; exact H3).
  rewrite valid_turns_receipts; [|done|done|by apply Forall_true; intros ? ?%elem_of_nil].
  rewrite fmap_last. rewrite bool_decide_true; [done|]. by destruct (last (turns e)).
Qed.

Lemma byId_spec l m : Forall receipt_ok l -> jwf m -> Forall (fun e => receipt_ok e.2 /\ e.1 = request_id e.2) m ->
  let m' := fold_left put_receipt l m in jwf m' /\ Forall (fun e => receipt_ok e.2 /\ e.1 = request_id e.2) m'.
Proof.
  revert m. induction l as [|r l IH]; intros m Hl Hm Hf; [done|]. apply Forall_cons in Hl as [Hr Hl]. cbn. apply IH; [done| |].
  - by apply jwf_set.
  - by apply Forall_jset.
Qed.

Lemma omap_receipts_ok t : Forall receipt_ok (omap desktopGoalTurnReceipt t).
Proof. apply Forall_forall. intros r (x & _ & Hx)%list_elem_of_omap. by eapply turn_receipt_ok. Qed.

(** C34. What the harness reports the desktop accepts: whatever the journal and the live
    receipts of a session are, its evidence passes the desktop's validation, turn for turn,
    with the mark of truncation. *)
Theorem harness_evidence_is_valid sid transcript live truncated :
  Forall receipt_ok live ->
  let e := desktopGoalEvidence transcript live truncated in
  validEvidence (Some (evidence_json sid e)) sid = Some (turn_of <$> turns e, window_truncated e).
Proof.
  intros Hl e. apply validEvidence_json.
  destruct (byId_spec (omap desktopGoalTurnReceipt transcript) []) as [Hw1 Hf1]; [apply omap_receipts_ok|constructor|constructor|].
  destruct (byId_spec (filter (fun r => REQUEST_ID (request_id r) = true) live) _ (Forall_filter_keep _ _ _ Hl) Hw1 Hf1) as [Hw Hf].
  assert (forall m : list (string * Receipt), Forall (fun e => receipt_ok e.2 /\ e.1 = request_id e.2) m ->
    Forall receipt_ok (jvals m) /\ request_id <$> jvals m = jkeys m) as Hv.
  { induction 1 as [|[k r] m [H1 H2] _ [IH1 IH2]]; [done|]. cbn in *. subst. split; [by constructor|]. f_equal. exact IH2. }
  destruct (Hv _ Hf) as [Hv1 Hv2]. unfold e, desktopGoalEvidence. split; cbn [turns].
  - by apply Forall_drop.
  - unfold last_n. rewrite fmap_drop, Hv2. eapply sublist_NoDup; [exact Hw|]. apply sublist_drop.
  - unfold last_n. rewrite length_drop. lia.
Qed.

Lemma recorded_ok live record : Forall receipt_ok live.1 -> Forall receipt_ok (recordDesktopGoalTurn live record).1.
Proof.
  intros H. unfold recordDesktopGoalTurn. destruct (desktopGoalTurnReceipt record) as [r|] eqn:E; [|done].
  apply turn_receipt_ok in E. assert (Forall receipt_ok (live.1 ++ [r])) by (apply Forall_app_2; [done|by constructor]).
  destruct (_ <? _)%nat; [by apply (Forall_drop _ 1)|done].
Qed.

Lemma harness_evidence_is_valid_witness :
  let record := JObj [("type", JStr "turn_result"); ("request_id", JStr "req_1"); ("outcome", JStr "completed");
                      ("usage", JObj [("total_tokens", JInt 70)])] in
  let live := recordDesktopGoalTurn ([], false) record in
  exists v, validEvidence (Some (evidence_json "ses_1" (desktopGoalEvidence [record] live.1 live.2))) "ses_1" = Some v /\ length v.1 = 1%nat.
Proof.
  intros record live. assert (Forall receipt_ok live.1) as H by by apply recorded_ok.
  eexists. split; [exact (harness_evidence_is_valid "ses_1" [record] live.1 live.2 H)|]. vm_compute. reflexivity.
Defined.

(** ** Accounting over a growing log *)

(** The log of receipts of a session, as windows of it are seen. *)
Definition log_ok (log : list Receipt) : Prop := Forall receipt_ok log /\ NoDup (request_id <$> log).

Definition total_tokens (l : list Receipt) : Z := Zsum ((fun r => default 0 (tokens r)) <$> l).

Definition cursor_of (l : list Receipt) : string := match last l with Some r => request_id r | None => "" end.

(** A window is the end of the log. *)
Definition window (log : list Receipt) (e : Evidence) : Prop :=
  exists dropped, log = dropped ++ turns e /\ (length (turns e) <= MAX_TURNS)%nat.

(** A window that lacks receipts says so. *)
Definition marked (log : list Receipt) (e : Evidence) : Prop :=
  (length (turns e) < length log)%nat -> window_truncated e = true.

(** [g] has accounted exactly the receipts [done] of those after [start]. *)
Definition accounted (start done : list Receipt) (g : GoalPayload) : Prop :=
  tokensUsed g = total_tokens done /\ tokensCommitted g <= tokensUsed g
  /\ lastAccountedMessageID g = cursor_of (start ++ done).

Definition decided (d : GoalEvidenceDecision) : GoalPayload :=
  match d with DWait g => g | DAudit g _ => g | DContinue g => g | DSettle g => g end.

Lemma account_receipts total l s : account total (turn_of <$> l) = Some s -> s = total + total_tokens l.
Proof.
  revert total. induction l as [|r l IH]; intros total; [intros [= <-]; unfold total_tokens; cbn; rewrite Zsum_nil; lia|].
  cbn [fmap list_fmap account turn_of t_tokens]. destruct (tokens r) as [n|] eqn:E; [|done].
  destruct (safe_int (Some (JInt n))) as [m|] eqn:Es; [|done].
  assert (m = n) as ->.
  { unfold safe_int, JInt in Es. rewrite num_int_JInt in Es. destruct (is_safe_integer n); congruence. }
  destruct (_ || _); [done|]. intros H%IH. rewrite H. unfold total_tokens. cbn. rewrite Zsum_cons, E. cbn. lia.
Qed.

Lemma findIndex_turn c l i : findIndex c l = Some i -> exists t, l !! i = Some t /\ t_request t = c.
Proof.
  revert i. induction l as [|t l IH]; intros i; [done|]. cbn. case_bool_decide as E; [intros [= <-]; by exists t|].
  destruct (findIndex c l) as [j|]; [|done]. intros [= <-]. by apply (IH j).
Qed.

(** A request id has one place in the log. *)
Lemma log_position log i j r r' :
  log_ok log -> log !! i = Some r -> log !! j = Some r' -> request_id r = request_id r' -> i = j.
Proof.
  intros [_ Hnd] Hi Hj E. eapply NoDup_lookup; [exact Hnd| |]; rewrite list_lookup_fmap; [by rewrite Hi|by rewrite Hj, E].
Qed.

Lemma fresh_after_cursor start done rest dropped turns i :
  log_ok (start ++ done ++ rest) -> start ++ done ++ rest = dropped ++ turns -> cursor_of (start ++ done) <> "" ->
  findIndex (cursor_of (start ++ done)) (turn_of <$> turns) = Some i -> drop (S i) turns = rest.
Proof.
  intros Hlog Hw Hne Hi. apply findIndex_turn in Hi as (t & Ht & Hc). rewrite list_lookup_fmap in Ht.
  destruct (turns !! i) as [r|] eqn:Er; [|done]. injection Ht as <-. cbn in Hc.
  assert ((dropped ++ turns) !! (length dropped + i)%nat = Some r) as Hr.
  { rewrite lookup_app_r by lia. by replace (length dropped + i - length dropped)%nat with i by lia. }
  assert (rest = drop (length (start ++ done)) (dropped ++ turns)) as Hrest by by rewrite <- Hw, app_assoc, drop_app_length.
  unfold cursor_of in Hc, Hne. rewrite last_lookup in Hc, Hne.
  destruct ((start ++ done) !! pred (length (start ++ done))) as [r'|] eqn:E'; [|done].
  assert ((start ++ done ++ rest) !! pred (length (start ++ done)) = Some r') as Hr' by (rewrite app_assoc; by apply lookup_app_l_Some).
  rewrite <- Hw in Hr. assert (length dropped + i = pred (length (start ++ done)))%nat as Hlen by by eapply log_position.
  apply lookup_lt_Some in E'. rewrite Hrest, drop_app_ge by lia. f_equal. lia.
Qed.

Lemma cursor_nonempty l : Forall receipt_ok l -> l <> [] -> cursor_of l <> "".
Proof.
  intros Hl Hn. unfold cursor_of. destruct (last l) as [r|] eqn:E; [|by apply last_None in E].
  apply last_Some_elem_of in E. rewrite Forall_forall in Hl. by apply request_id_len, rc_id, Hl.
Qed.

(** The receipts the decision counts are those the goal has not accounted; a goal
    with no cursor, whose window lacks receipts and does not say so, misses these. *)
Lemma fresh_is_rest start done rest e g fresh :
  log_ok (start ++ done ++ rest) -> window (start ++ done ++ rest) e -> accounted start done g ->
  let cursor := lastAccountedMessageID g in
  let index := if bool_decide (cursor = "") then None else findIndex cursor (turn_of <$> turns e) in
  (negb (bool_decide (cursor = "")) && bool_decide (index = None)) || (bool_decide (cursor = "") && window_truncated e) = false ->
  fresh = match index with Some i => drop (S i) (turn_of <$> turns e) | None => turn_of <$> turns e end ->
  fresh = turn_of <$> rest
  \/ (start = [] /\ done = [] /\ ~ marked (start ++ done ++ rest) e /\ exists missed, rest = missed ++ turns e /\ fresh = turn_of <$> turns e).
Proof.
  intros Hlog (dropped & Hw & _) (_ & _ & Hc). cbn zeta. rewrite Hc. intros Hgap ->.
  case_bool_decide as Hempty; cbn in Hgap.
  - assert (start ++ done = []) as Hnil.
    { destruct (start ++ done) as [|r l] eqn:E; [done|]. exfalso. revert Hempty. apply cursor_nonempty; [|done].
      destruct Hlog as [Hok _]. rewrite app_assoc, E in Hok. by apply Forall_app in Hok as [? _]. }
    apply app_eq_nil in Hnil as [-> ->]. cbn [app] in Hw |- *. destruct dropped as [|r l]; [left; by rewrite Hw|right].
    split_and!; [done|done| |by exists (r :: l)]. intros Hm. rewrite Hm in Hgap; [done|]. rewrite Hw, length_app. cbn. lia.
  - left. destruct (findIndex _ (turn_of <$> _)) as [i|] eqn:Ei; [|done]. rewrite <- fmap_drop. f_equal. by eapply fresh_after_cursor.
Qed.

Lemma set_accounts_accounted start done rest g now :
  accounted start done g -> rest <> [] ->
  accounted start (done ++ rest) (set_accounts g (tokensUsed g + total_tokens rest) (cursor_of rest) now).
Proof.
  intros (Hu & Hle & Hc) Hn. split_and!; cbn; [|lia|].
  - unfold total_tokens in *. rewrite fmap_app, Zsum_app. lia.
  - unfold cursor_of. rewrite !last_app. destruct (last rest) eqn:E; [done|]. by apply last_None in E.
Qed.

(** The decision only settles, pauses or hands on the goal it accounted. *)
Lemma decided_next start done next fresh tail now :
  accounted start done next -> accounted start done (decided (decide_next next fresh tail now)).
Proof.
  intros H. unfold decide_next, blocked, settleGoal, pauseGoal. repeat (case_match || case_bool_decide); exact H.
Qed.

Lemma decided_blocked start done g reason now : accounted start done g -> accounted start done (decided (blocked g reason now)).
Proof. intros H. unfold blocked, settleGoal. by case_bool_decide. Qed.

(** What a decision leads to, once it has counted the receipts [rest]. *)
Lemma counted_accounted start done rest g now total :
  accounted start done g -> account (Z.max (tokensUsed g) (tokensCommitted g)) (turn_of <$> rest) = Some total ->
  accounted start (done ++ rest)
    (if (0 <? Zlen (turn_of <$> rest)) || negb (tokensUsed g =? total)
     then set_accounts g total (match last (turn_of <$> rest) with Some t => t_request t | None => lastAccountedMessageID g end) now
     else g).
Proof.
  intros Hacc Ht. apply account_receipts in Ht. replace (Z.max (tokensUsed g) (tokensCommitted g)) with (tokensUsed g) in Ht by (destruct Hacc; lia).
  destruct rest as [|r rest].
  - rewrite app_nil_r. cbn in *. replace (tokensUsed g =? total) with true; [done|]. unfold total_tokens in Ht. cbn in Ht. rewrite Zsum_nil in Ht. lia.
  - rewrite Ht. assert ((0 <? Zlen (turn_of <$> r :: rest)) = true) as -> by (by apply Z.ltb_lt, Zlen_pos).
    cbn [orb]. rewrite fmap_last. replace (match turn_of <$> last (r :: rest) with Some t => t_request t | None => _ end) with (cursor_of (r :: rest));
      [by apply set_accounts_accounted|]. unfold cursor_of. destruct (last (r :: rest)) eqn:E; [done|]. by apply last_None in E.
Qed.

Lemma accounted_behind missed l g : accounted [] l g -> l <> [] -> accounted missed l g.
Proof.
  intros (Hu & Hc & Hl) Hn. split_and!; [done|done|]. rewrite Hl. unfold cursor_of. cbn [app]. rewrite last_app.
  destruct (last l) eqn:E; [done|]. by apply last_None in E.
Qed.

(** One decision on a window of a log that has grown. *)
Lemma accounted_step start done rest sid e g now :
  log_ok (start ++ done ++ rest) -> window (start ++ done ++ rest) e -> accounted start done g ->
  exists missed done' rest', start ++ done ++ rest = start ++ missed ++ done' ++ rest'
    /\ accounted (start ++ missed) done' (decided (decideNnaGoalEvidence g sid (Some (evidence_json sid e)) now))
    /\ (missed = [] \/ (start = [] /\ ~ marked (start ++ done ++ rest) e)).
Proof.
  intros Hlog Hwin Hacc.
  assert (forall d, accounted start done (decided d) -> exists missed done' rest', start ++ done ++ rest = start ++ missed ++ done' ++ rest'
    /\ accounted (start ++ missed) done' (decided d) /\ (missed = [] \/ (start = [] /\ ~ marked (start ++ done ++ rest) e))) as Hstay.
  { intros d Hd. exists [], done, rest. rewrite app_nil_r. split_and!; [done|done|by left]. }
  unfold decideNnaGoalEvidence. case_bool_decide as Hs; cbn [negb]; [|by apply Hstay].
  rewrite validEvidence_json.
  2:{ destruct Hwin as (dr & Hd & Hb), Hlog as [Hok Hnd]. rewrite Hd in Hok, Hnd. rewrite fmap_app in Hnd.
      apply Forall_app in Hok as [_ Hok]. apply NoDup_app in Hnd as (_ & _ & Hnd). by split. }
  destruct (_ || _) eqn:Hgap; [by apply Hstay, decided_blocked|].
  pose proof (fresh_is_rest start done rest e g _ Hlog Hwin Hacc Hgap eq_refl) as Hfresh. cbn zeta in Hfresh.
  destruct (is_safe_integer _); cbn [negb]; [|by apply Hstay, decided_blocked].
  destruct Hfresh as [-> |(-> & -> & Hm & missed & -> & ->)]; (destruct (account _ _) as [total|] eqn:Ht; [|by apply Hstay, decided_blocked]).
  - apply counted_accounted with (1 := Hacc) (now := now) in Ht. exists [], (done ++ rest), []. rewrite !app_nil_r.
    split_and!; [done|by apply decided_next|by left].
  - apply counted_accounted with (1 := Hacc) (now := now) in Ht. cbn [app] in *. apply decided_next with (fresh := turn_of <$> turns e) (tail :=
      (if bool_decide (lastAccountedMessageID g = "") then None else findIndex (lastAccountedMessageID g) (turn_of <$> turns e)) ≫= (fun i => (turn_of <$> turns e) !! i)) (now := now) in Ht.
    destruct (decide (turns e = [])) as [E|Hne].
    + exists [], [], (missed ++ turns e). split_and!; [done| |by left]. rewrite E in Ht |- *. exact Ht.
    + exists missed, (turns e), []. rewrite app_nil_r. split_and!; [done|by apply accounted_behind|by right].
Qed.

(** A run of ticks: before each the log has grown, and a window of it is seen. *)
Fixpoint run_ticks (sid : string) (log : list Receipt) (g : GoalPayload) (ticks : list (list Receipt * Evidence * Z))
  : list Receipt * GoalPayload :=
  match ticks with
  | [] => (log, g)
  | (new, e, now) :: ticks =>
    run_ticks sid (log ++ new) (decided (decideNnaGoalEvidence g sid (Some (evidence_json sid e)) now)) ticks
  end.

Fixpoint ticks_ok (log : list Receipt) (ticks : list (list Receipt * Evidence * Z)) : Prop :=
  match ticks with
  | [] => True
  | (new, e, _) :: ticks => log_ok (log ++ new) /\ window (log ++ new) e /\ ticks_ok (log ++ new) ticks
  end.

(** Every window that lacks receipts says so. *)
Fixpoint ticks_marked (log : list Receipt) (ticks : list (list Receipt * Evidence * Z)) : Prop :=
  match ticks with
  | [] => True
  | (new, e, _) :: ticks => marked (log ++ new) e /\ ticks_marked (log ++ new) ticks
  end.

Lemma run_ticks_accounted sid start done rest g ticks :
  accounted start done g -> ticks_ok (start ++ done ++ rest) ticks ->
  exists missed done' rest', (run_ticks sid (start ++ done ++ rest) g ticks).1 = start ++ missed ++ done' ++ rest'
    /\ accounted (start ++ missed) done' (run_ticks sid (start ++ done ++ rest) g ticks).2
    /\ (missed = [] \/ (start = [] /\ ~ ticks_marked (start ++ done ++ rest) ticks)).
Proof.
  revert start done rest g. induction ticks as [|[[new e] now] ticks IH]; intros start done rest g Hacc.
  { intros _. exists [], done, rest. rewrite app_nil_r. split_and!; [done|done|by left]. }
  cbn [ticks_ok run_ticks ticks_marked]. intros (Hlog & Hwin & Hok).
  assert ((start ++ done ++ rest) ++ new = start ++ done ++ (rest ++ new)) as E by by rewrite <- !app_assoc. rewrite E in *.
  destruct (accounted_step start done (rest ++ new) sid e g now Hlog Hwin Hacc) as (missed & done1 & rest1 & Hm & Hacc' & Hmiss).
  assert (start ++ done ++ rest ++ new = (start ++ missed) ++ done1 ++ rest1) as E' by by rewrite Hm, <- !app_assoc.
  rewrite E' in *. destruct (IH _ _ _ _ Hacc' Hok) as (missed2 & done2 & rest2 & H1 & H2 & H3).
  exists (missed ++ missed2), done2, rest2. rewrite H1, app_assoc, <- !app_assoc. rewrite <- !app_assoc in H2.
  split_and!; [done|done|]. destruct Hmiss as [-> |[-> Hn]]; [|right; by split; [|intros [? _]]].
  destruct H3 as [-> |[Hs Hn]]; [by left|right]. rewrite app_nil_r in Hs. split; [done|].
  intros [_ H]. apply Hn. by rewrite <- app_assoc.
Qed.


Lemma fold_put_fresh l m : NoDup (request_id <$> l) -> Forall (fun r => request_id r ∉ jkeys m) l ->
  fold_left put_receipt l m = m ++ ((fun r => (request_id r, r)) <$> l).
Proof.
  revert m. induction l as [|r l IH]; intros m Hnd Hf; [by rewrite app_nil_r|].
  cbn in *. apply NoDup_cons in Hnd as [Hn Hnd]. apply Forall_cons in Hf as [Hr Hf]. unfold put_receipt at 2.
  rewrite jset_fresh by done. rewrite IH; [by rewrite <- app_assoc|done|].
  rewrite Forall_forall in Hf |- *. intros x Hx. unfold jkeys. rewrite fmap_app, elem_of_app. intros [Hin|Hin].
  - by apply (Hf x Hx).
  - apply list_elem_of_singleton in Hin. apply Hn. cbn in Hin. rewrite <- Hin. by apply list_elem_of_fmap_2.
Qed.

Lemma fold_put_known l m : Forall (fun r => jget (request_id r) m = Some r) l -> fold_left put_receipt l m = m.
Proof. induction 1 as [|r l H _ IH]; [done|]. cbn. unfold put_receipt at 2. by rewrite jset_same. Qed.

(** The harness's evidence is a window of its journal, when no request occurs twice and
    the live receipts are journalled. *)
Lemma journal_window transcript live truncated :
  let log := omap desktopGoalTurnReceipt transcript in
  NoDup (request_id <$> log) -> Forall (fun r => r ∈ log) live ->
  window log (desktopGoalEvidence transcript live truncated) /\ marked log (desktopGoalEvidence transcript live truncated).
Proof.
  intros log Hnd Hlive. unfold desktopGoalEvidence. fold log.
  rewrite (fold_put_fresh log []) by (done || apply Forall_true; intros ? ?%elem_of_nil; done). cbn [app].
  set (m := (fun r => (request_id r, r)) <$> log).
  assert (jvals m = log) as Hv by (unfold m, jvals; rewrite <- list_fmap_compose; apply list_fmap_id).
  assert (jkeys m = request_id <$> log) as Hk by (unfold m, jkeys; by rewrite <- list_fmap_compose).
  rewrite fold_put_known.
  - rewrite Hv. split.
    + exists (take (length log - MAX_TURNS) log). cbn [turns]. unfold last_n. split; [by rewrite take_drop|]. rewrite length_drop. lia.
    + unfold marked. cbn [turns window_truncated]. unfold last_n. rewrite length_drop. intros Hlt.
      replace (MAX_TURNS <? length log)%nat with true by (symmetry; apply Nat.ltb_lt; lia). by rewrite orb_true_r.
  - apply Forall_filter_keep. eapply Forall_impl; [exact Hlive|]. intros r Hr. cbn. apply jget_elem; [by unfold jwf; rewrite Hk|].
    unfold m. by apply (list_elem_of_fmap_2 (fun r => (request_id r, r))).
Qed.

#[local] Abbreviation ex_turn r n := (JObj [("type", JStr "turn_result"); ("request_id", JStr r);
  ("outcome", JStr "completed"); ("usage", JObj [("total_tokens", JInt n)])]).
#[local] Abbreviation ex_log n := (omap desktopGoalTurnReceipt (take n [ex_turn "r1" 10; ex_turn "r2" 20; ex_turn "r3" 30])).
#[local] Abbreviation ex_evidence n := (desktopGoalEvidence (take n [ex_turn "r1" 10; ex_turn "r2" 20; ex_turn "r3" 30]) [] false).
#[local] Abbreviation ex_armed := (set_accounts (buildGoalPayload {| i_objective := "x"; i_objectiveFile := false;
  i_objectiveFileKey := None; i_tokenBudget := None |} 1000 "rs01") 0 "r1" 1000).


(** ** Finding: a restart forgets the receipts

    The engine keeps no record of a turn's result in its transcript (engine.js drops the
    outcomes, engine/persistence.js appends none), so the journal-backed part of the
    evidence is empty, and the live receipts go with the process: after a restart the
    window of a short session lacks every earlier turn and is not marked. A goal armed
    before its first turn, whose ticks saw none of them, is never charged for it. *)
Lemma restart_loses_a_turn :
  let log := ex_log 2 in
  let e := desktopGoalEvidence [] (drop 1 log) false in
  let g := set_accounts ex_armed 0 "" 1000 in
  ~ marked log e /\ total_tokens log = 30 /\
  tokensUsed (decided (decideNnaGoalEvidence g "s" (Some (evidence_json "s" e)) 2000)) = 20.
Proof.
  split_and!; [|by vm_compute..]. intros H. assert (false = true) as ?; [|done]. apply H. apply Nat.ltb_lt. by vm_compute.
Qed.

(** ** When the loop goes on *)

(** Every member but those of the accounting. *)
Definition owned (g : GoalPayload) :=
  (id g, objective g, objectiveFile g, objectiveFileKey g, status g, tokenBudget g, turnsUsed g, blockedStreak g,
   auditFailStreak g, note g, statusReason g, evaluationProviderID g, evaluationModelID g, createdAt g).

(** The turns after the cursor. *)
Definition fresh_turns (goal : GoalPayload) (ts : list Turn) : list Turn :=
  match (if bool_decide (lastAccountedMessageID goal = "") then None else findIndex (lastAccountedMessageID goal) ts) with
  | Some i => drop (S i) ts
  | None => ts
  end.

Definition goes_on (d : GoalEvidenceDecision) : option GoalPayload :=
  match d with DContinue g => Some g | DAudit g _ => Some g | _ => None end.

Lemma existsb_false {A} (f : A -> bool) l : existsb f l = false -> Forall (fun a => f a = false) l.
Proof. induction l as [|a l IH]; [done|]. cbn. intros [Ha Hl]%orb_false_iff. constructor; auto. Qed.

Lemma not_failed t : is_failed t = false -> t_outcome t = "completed" \/ t_outcome t = "cancelled".
Proof.
  unfold is_failed. intros H%negb_false_iff%bool_decide_eq_true_1. apply elem_of_cons in H as [H|H]; [by left|].
  apply list_elem_of_singleton in H. by right.
Qed.

Lemma decide_next_goes_on next fresh tail now g :
  goes_on (decide_next next fresh tail now) = Some g ->
  g = next /\ Forall (fun t => t_outcome t = "completed" \/ (t_outcome t = "cancelled" /\ statusReason next = resumed)) fresh
  /\ turnsUsed next < MAX_AUTO_TURNS /\ (forall b, tokenBudget next = Some b -> tokensUsed next < b).
Proof.
  unfold decide_next. destruct (existsb is_failed fresh) eqn:Ef; [done|].
  destruct (existsb is_cancelled fresh && _) eqn:Ec; [done|].
  destruct (match tokenBudget next with Some b => b <=? tokensUsed next | None => false end) eqn:Eb; [done|].
  destruct (MAX_AUTO_TURNS <=? turnsUsed next) eqn:Et; [done|]. intros Hg. split_and!.
  - revert Hg. repeat (case_match || case_bool_decide); cbn; congruence.
  - apply existsb_false in Ef. apply andb_false_iff in Ec as [Ec|Ec].
    + apply existsb_false in Ec. rewrite Forall_forall in *. intros t Ht. specialize (Ec t Ht). unfold is_cancelled in Ec.
      destruct (not_failed t (Ef t Ht)) as [H|H]; [by left|]. by rewrite bool_decide_true in Ec.
    + apply negb_false_iff, bool_decide_eq_true_1 in Ec. eapply Forall_impl; [exact Ef|]. intros t Ht.
      destruct (not_failed t Ht); auto.
  - bool_facts. lia.
  - intros b Hb. rewrite Hb in Eb. bool_facts. lia.
Qed.

(** The loop goes on, to an audit or a continuation, only after clean turns: the
    evidence is valid, every turn after the cursor completed (or, after an explicit resume,
    was cancelled by the user): a later success hides no earlier failure. The budget is
    not used up, a continuation is left, and nothing but the accounting of the goal has
    changed. *)
Theorem only_clean_turns_go_on goal sid raw now g :
  goes_on (decideNnaGoalEvidence goal sid raw now) = Some g ->
  exists ts truncated, validEvidence raw sid = Some (ts, truncated) /\ status goal = Active
    /\ Forall (fun t => t_outcome t = "completed" \/ (t_outcome t = "cancelled" /\ statusReason goal = resumed)) (fresh_turns goal ts)
    /\ turnsUsed g < MAX_AUTO_TURNS /\ (forall b, tokenBudget g = Some b -> tokensUsed g < b)
    /\ owned g = owned goal.
Proof.
  unfold decideNnaGoalEvidence. case_bool_decide as Hs; [|done]. cbn [negb].
  destruct (validEvidence raw sid) as [[ts tr]|]; [|done]. destruct (_ || _); [done|].
  destruct (is_safe_integer _); [|done]. cbn [negb]. fold (fresh_turns goal ts).
  destruct (account _ _) as [total|]; [|done]. intros (-> & Hf & Ht & Hb)%decide_next_goes_on.
  exists ts, tr. split_and!; try done; destruct (_ || _); done.
Qed.

Lemma only_clean_turns_go_on_witness :
  exists g, goes_on (decideNnaGoalEvidence ex_armed "s" (Some (evidence_json "s" (ex_evidence 3))) 2000) = Some g
    /\ tokensUsed g = 50 /\ turnsUsed g < MAX_AUTO_TURNS.
Proof.
  eexists. split; [vm_compute; reflexivity|]. split; [reflexivity|].
  edestruct (only_clean_turns_go_on ex_armed "s" (Some (evidence_json "s" (ex_evidence 3))) 2000) as (? & ? & _ & _ & _ & H & _);
    [vm_compute; reflexivity|exact H].
Defined.

(** The assertions on the results of [settleGoal] and [pauseGoal] hold. *)
Lemma active_goals_settle g st reason n now : status g = Active -> is_Some (settleGoal g (settle_status st) reason n now)
  /\ is_Some (pauseGoal g reason now).
Proof. intros H. unfold settleGoal, pauseGoal. rewrite H. destruct st; cbn; split; by eexists. Qed.

(** ** Finding: the same cursor, twice truncated

    A goal armed in a session with a truncated window settles at its first tick unless
    the evidence still holds its cursor; the harness refuses an audit on any truncated
    window (desktop-goal-audit.js), so a goal whose evidence is accepted with a mark of
    truncation is never audited. *)
Definition audit_refuses_evidence (e : Evidence) (requestId : string) : bool :=
  negb (bool_decide (match last (turns e) with Some r => Some (request_id r) | None => None end = Some requestId))
  || window_truncated e.

Lemma truncated_evidence_is_never_audited :
  exists e g g' l, decideNnaGoalEvidence g "s" (Some (evidence_json "s" e)) 2000 = DAudit g' l
    /\ audit_refuses_evidence e (lastAccountedMessageID g') = true.
Proof.
  exists (mkEvidence (ex_log 3) true), ex_armed. eexists _, _. split; vm_compute; reflexivity.
Qed.
