(* ===== verification/GoalExchange.v ===== *)
(** The loop of a goal as programs over its ports (server/goals/nna-goal-safety-tick.ts,
    nna-goal-auditor.ts, nna-goal-dispatch.ts, nna-goal-safety-ports.ts, and the fence
    of nna-goal-runtime.ts).

    The programs are call trees (CallTree) on the ports below. *)

From S2P Require Import Prelude CallTree JsString JsMap JsValue GoalPayload GoalState GoalHarness GoalEvidence GoalAudit.

Local Open Scope Z_scope.

(** ** Calls *)

Record AuditBody := mkAuditBody { ab_id : string; ab_revision : Z; ab_request : string; ab_objective : string }.

Inductive port :=
| ReadSession (sid dir : string)
| ReadStatus (dir : string)
| ReadChildren (sid dir : string)
| ReadMessages (sid dir : string) (limit : Z)
| ReadEvidence (sid dir : string)
| StoreRead (sid key : string)
| PutGoal (sid dir : string) (body : GoalBody)
| PostAudit (sid dir : string) (body : AuditBody)
| PostPrompt (sid dir : string) (text : string)
| Clock
| IsCurrent (exchange : bool).

(** [PutGoal] answers with [response.ok] and the body, if it parses. *)
Definition reply (p : port) : Type :=
  match p with
  | ReadSession _ _ | ReadStatus _ | ReadChildren _ _ | ReadMessages _ _ _ | ReadEvidence _ _ => option json
  | StoreRead _ _ => option string
  | PutGoal _ _ _ => bool * option json
  | PostAudit _ _ _ | PostPrompt _ _ _ => GoalAuditWire
  | Clock => Z
  | IsCurrent _ => bool
  end.

(** A rejection: [GoalRuntimeInactiveError], or any other. *)
Inductive fault := Inactive | Other.

#[export] Instance fault_eq_dec : EqDecision fault.
Proof. solve_decision. Defined.

Abbreviation io := (CallTree.io fault port (fun p => option (reply p))).

(** A call; [None]: it rejects. The runtime's own error comes from its fences only. *)
Definition call (p : port) : io (reply p) := Vis p (fun r => match r with Some a => Ret a | None => Fail Other end).

Local Open Scope io_scope.

(** ** The ports of the loop *)

Record SafetyPorts := {
  readSession : string -> string -> io (option json);
  readObjective : GoalPayload -> string -> io (option string);
  readStatus : string -> io (option json);
  readChildren : string -> string -> io (option json);
  readMessages : string -> string -> Z -> io (option json);
  readEvidence : string -> string -> io (option json);
  writeGoal : string -> string -> GoalBody -> io bool }.

Record DispatchPorts := {
  base :> SafetyPorts;
  runAudit : string -> string -> AuditBody -> io GoalAuditWire;
  sendPrompt : string -> string -> string -> io GoalAuditWire;
  recoverSkippedSend : option (string -> string -> GoalPayload -> GoalPayload -> Z -> io bool) }.

(** The answer confirms the write: same goal, next revision. *)
Definition write_confirmed (body : GoalBody) (answer : bool * option json) : bool :=
  match answer with
  | (true, Some value) =>
    match jfield "goal" value with
    | Some (JObj _ as g) => is_str (jfield "id" g) (id (b_goal body)) && is_int (jfield "revision" value) (expected_revision body + 1)
    | _ => false
    end
  | _ => false
  end.

Definition createNnaGoalSafetyPorts : SafetyPorts := {|
  readSession sid dir := call (ReadSession sid dir);
  readObjective goal sid :=
    if negb (objectiveFile goal) then Ret (Some (objective goal))
    else catch (let! text := call (StoreRead sid (default "" (objectiveFileKey goal))) in Ret (Some (default (objective goal) text)))
               (fun _ => Ret None);
  readStatus dir := call (ReadStatus dir);
  readChildren sid dir := call (ReadChildren sid dir);
  readMessages sid dir limit := call (ReadMessages sid dir (Z.min limit MESSAGE_FETCH_LIMIT));
  readEvidence sid dir := call (ReadEvidence sid dir);
  writeGoal sid dir body := let! answer := call (PutGoal sid dir body) in Ret (write_confirmed body answer) |}.

Definition createNnaGoalAuditPorts : DispatchPorts := {|
  base := createNnaGoalSafetyPorts;
  runAudit sid dir body := call (PostAudit sid dir body);
  sendPrompt sid dir text := call (PostPrompt sid dir text);
  recoverSkippedSend := None |}.

(** [getSessionGoal] and [buildGoalWrite] read the clock. *)
Definition sessionGoal (record : option json) : io (option GoalPayload) :=
  let! now := call Clock in Ret (getSessionGoal record now).

Definition goalWrite (record : option json) (next : GoalPayload) : io (GoalBody * option GoalPayload) :=
  let! now := call Clock in
  match buildGoalWrite record next now with Some w => Ret w | None => Fail Other end.

(** ** The fences *)

Definition set_write (ports : SafetyPorts) (write : string -> string -> GoalBody -> io bool) : SafetyPorts := {|
  readSession := readSession ports; readObjective := readObjective ports; readStatus := readStatus ports;
  readChildren := readChildren ports; readMessages := readMessages ports; readEvidence := readEvidence ports;
  writeGoal := write |}.

(** The ports of a tick: a write of a stale tick answers false. *)
Definition guardTickPorts (ports : SafetyPorts) : SafetyPorts :=
  set_write ports (fun sid dir body =>
    let! current := call (IsCurrent false) in if current then writeGoal ports sid dir body else Ret false).

Definition set_reason (g : GoalPayload) (reason : string) (now : Z) : GoalPayload :=
  set_loop g (status g) reason (turnsUsed g) (blockedStreak g) (auditFailStreak g) (note g) now.

Definition recover (ports : SafetyPorts) (sid dir : string) (persisted prior : GoalPayload) (expectedRevision : Z) : io bool :=
  let! record := readSession ports sid dir in
  let! current := sessionGoal record in
  match current with
  | Some current =>
    if negb (bool_decide (readGoalRevision record = Some expectedRevision)) || negb (sameGoalPayload current persisted)
    then Ret false
    else let! now := call Clock in
         let! w := goalWrite record (set_reason prior resumed now) in
         writeGoal ports sid dir w.1
  | None => Ret false
  end.

Definition race_wire : GoalAuditWire :=
  mkWire 409 (Some (JObj [("error", JObj [("code", JStr "desktop_goal_audit_conflict")])])).

Definition guardGoalAuditExchangePorts (ports : DispatchPorts) : DispatchPorts := {|
  base := set_write ports (fun sid dir body =>
    let! current := call (IsCurrent true) in if current then writeGoal ports sid dir body else Fail Inactive);
  runAudit sid dir body := let! current := call (IsCurrent true) in
                           if current then runAudit ports sid dir body else Ret race_wire;
  sendPrompt sid dir text := let! current := call (IsCurrent true) in
                             if current then sendPrompt ports sid dir text else Fail Inactive;
  recoverSkippedSend := Some (recover ports) |}.

(** ** The tick *)

Record Ready := mkReady {
  ready_goal : GoalPayload; ready_objective : string; assistantText : string; tailId : string; skipAudit : bool }.

Inductive TickResult :=
| TWait (reason : string)
| TConflict
| TSettled (goal : GoalPayload)
| TReady (r : Ready).

(** Falsy: [undefined], [null], an empty string, [false] or zero. *)
Definition falsy (v : option json) : bool :=
  match v with
  | None | Some JNull | Some (JStr EmptyString) | Some (JBool false) => true
  | Some (JNum n) => bool_decide (num_int n = Some 0)
  | _ => false
  end.

Definition sessionRoot (value : option json) : bool :=
  match value with
  | Some (JObj _ as item) => is_string (jfield "id" item) && falsy (jfield "parentID" item)
  | _ => false
  end.

(** [None]: unknown. *)
Fixpoint children_busy (children : list json) (status : list (string * json)) : option bool :=
  match children with
  | [] => Some false
  | child :: children =>
    match child with
    | JObj _ =>
      match jfield "id" child with
      | Some (JStr i) => if bool_decide (i = "") then None else if jhas i status then Some true else children_busy children status
      | _ => None
      end
    | _ => None
    end
  end.

Definition childBusy (children : option json) (status : list (string * json)) : option bool :=
  match children with Some (JArr l) => children_busy l status | _ => None end.

(** [Number.isFinite(v)] *)
Definition is_finite (v : option json) : bool := match v with Some (JNum (NFin _)) => true | _ => false end.

Definition obj_field (key : string) (v : option json) : option json := match v with Some (JObj f) => jget key f | _ => None end.

Definition text_part (part : json) : list string :=
  if is_str (obj_field "type" (Some part)) "text"
  then match obj_field "text" (Some part) with Some (JStr t) => [t] | _ => [] end
  else [].

Definition join (sep : string) (l : list string) : string :=
  match l with [] => "" | s :: l => fold_left (fun acc t => acc +:+ sep +:+ t) l s end.

Definition assistantTail (messages : option json) : option (string * string) :=
  match messages with
  | Some (JArr l) =>
    let item := last l in
    let info := obj_field "info" item in
    match is_str (obj_field "role" info) "assistant", obj_field "id" info, obj_field "parts" item with
    | true, Some (JStr i), Some (JArr parts) =>
      if is_finite (obj_field "completed" (obj_field "time" info))
      then Some (i, join nl (concat (text_part <$> parts))) else None
    | _, _, _ => None
    end
  | _ => None
  end.

Definition resumedUserTail (messages : option json) (requestId : string) : option string :=
  match messages with
  | Some (JArr l) =>
    let info := obj_field "info" (last l) in
    if is_str (obj_field "role" info) "user" && is_str (obj_field "id" info) requestId then Some requestId else None
  | _ => None
  end.

Definition settleWithCas (ports : SafetyPorts) (sid dir : string) (initial : option json) (next : GoalPayload) : io TickResult :=
  let! expected := goalWrite initial next in
  let! current := readSession ports sid dir in
  if negb (sessionRoot current) then Ret TConflict
  else
    let! fresh := sessionGoal current in
    if negb (bool_decide (id <$> fresh = Some (id next))) then Ret TConflict
    else
      let! candidate := goalWrite current next in
      if negb (bool_decide (expected_revision candidate.1 = expected_revision expected.1)) then Ret TConflict
      else let! ok := writeGoal ports sid dir expected.1 in
           Ret (if ok then TSettled next else TConflict).

(** What the [try] of the tick leads to: a result, or a settle that is returned unawaited. *)
Definition ready_after (ports : SafetyPorts) (sid dir : string) (goal : GoalPayload) (decision : GoalEvidenceDecision)
  : io TickResult :=
  let! text := readObjective ports goal sid in
  match trim <$> text with
  | None => Ret (TWait "objective unavailable")
  | Some objective =>
    if bool_decide (objective = "") then Ret (TWait "objective unavailable")
    else
      let! messages := readMessages ports sid dir MESSAGE_FETCH_LIMIT in
      let next := decided decision in
      let continues := match decision with DContinue _ => true | _ => false end in
      match assistantTail messages with
      | Some (i, text) => Ret (TReady (mkReady next objective text i continues))
      | None =>
        match (if continues then resumedUserTail messages (lastAccountedMessageID next) else None) with
        | Some i => Ret (TReady (mkReady next objective "" i true))
        | None => Ret (TWait "assistant tail incomplete")
        end
      end
  end.

Definition tick_body (ports : SafetyPorts) (sid dir : string) : io (TickResult + option json * GoalPayload) :=
  let wait reason := Ret (inl (TWait reason)) in
  let! session := readSession ports sid dir in
  if negb (sessionRoot session) || negb (is_str (obj_field "id" session) sid) then wait "session unavailable or child"
  else
    let! goal := sessionGoal session in
    match goal with
    | None => wait "goal not active"
    | Some goal =>
      if negb (bool_decide (status goal = Active)) then wait "goal not active"
      else
        let! st := readStatus ports dir in
        match members st with
        | None => wait "status unavailable"
        | Some st =>
          if jhas sid st then wait "session busy"
          else
            let! children := readChildren ports sid dir in
            match childBusy children st with
            | None => wait "children unavailable"
            | Some true => wait "child busy"
            | Some false =>
              let! evidence := readEvidence ports sid dir in
              let! now := call Clock in
              match decideNnaGoalEvidence goal sid evidence now with
              | DSettle next => Ret (inr (session, next))
              | DWait _ => wait "no new completed turn"
              | decision => let! r := ready_after ports sid dir goal decision in Ret (inl r)
              end
            end
        end
    end.

Definition runNnaGoalSafetyTick (ports : SafetyPorts) (sid dir : string) : io TickResult :=
  let! r := catch (tick_body ports sid dir) (fun _ => Ret (inl (TWait "goal tick dependency unavailable"))) in
  match r with
  | inl result => Ret result
  | inr (session, next) => settleWithCas ports sid dir session next
  end.

(** ** The dispatch of a continuation *)

Inductive Source := FromAudit | FromSkip.

Inductive ExchangeResult :=
| XWait (reason : string)
| XProcessed (goal : GoalPayload) (v : option AuditVerdict)
| XSettled (goal : GoalPayload) (outcome : Settled)
| XDropped (reason : string)
| XDispatched (goal : GoalPayload) (source : Source).

Inductive WriteOutcome := Written | Unchanged | Refused.

#[export] Instance WriteOutcome_eq_dec : EqDecision WriteOutcome.
Proof. solve_decision. Defined.

Definition writeCandidate (ports : SafetyPorts) (sid dir : string) (record : option json) (next : GoalPayload) : io WriteOutcome :=
  let! now := call Clock in
  match buildGoalWrite record next now with
  | None => Ret Refused
  | Some (body, current) =>
    match current with
    | Some current =>
      if negb (bool_decide (id current = id next)) then Ret Refused
      else if sameGoalPayload current next then Ret Unchanged
      else let! ok := writeGoal ports sid dir body in Ret (if ok then Written else Refused)
    | None => Ret Refused
    end
  end.

(** The last message: its id, and whether an assistant reply is still open. *)
Definition lastMessageTail (messages : option json) : option (string * bool) :=
  match messages with
  | Some (JArr l) =>
    let info := obj_field "info" (last l) in
    match obj_field "id" info with
    | Some (JStr i) =>
      if bool_decide (i = "") then None
      else
        let completed := obj_field "completed" (obj_field "time" info) in
        Some (i, is_str (obj_field "role" info) "assistant" && negb match completed with Some (JNum _) => true | _ => false end)
    | _ => None
    end
  | _ => None
  end.

(** A rejection does not pass. *)
Definition ignore {A} (m : io A) : io unit := catch (let! _ := m in Ret tt) (fun _ => Ret tt).

Section exchange.
  Context (json_parse : string -> option json) (rules : string).

(** [None]: sent. *)
Definition refuseOrSend (ports : DispatchPorts) (sid dir : string) (candidate : GoalPayload) (objective : string)
  : io (option string) :=
  let! wire := catch (let! w := sendPrompt ports sid dir (buildGoalContinuationPrompt rules candidate objective) in Ret (inl w))
                     (fun e => Ret (inr e)) in
  match wire with
  | inr Inactive => Ret (Some "goal runtime inactive before send")
  | inr Other => Ret (Some "continuation send unavailable")
  | inl w => if (200 <=? w_status w) && (w_status w <? 300) then Ret None
             else Ret (Some (if w_status w =? 409 then "session busy at dispatch" else "continuation send unavailable"))
  end.

Definition consume (g : GoalPayload) (now : Z) : GoalPayload :=
  set_loop g (status g) "" (turnsUsed g + 1) (blockedStreak g) (auditFailStreak g) (note g) now.

(** After the slot is consumed. *)
Definition send_slot (ports : DispatchPorts) (sid dir : string) (current candidate : GoalPayload) (priorRevision : option Z)
    (source : Source) (objective : string) : io ExchangeResult :=
  let! sent := refuseOrSend ports sid dir candidate objective in
  match sent with
  | None => Ret (XDispatched candidate source)
  | Some reason =>
    match bool_decide (reason = "goal runtime inactive before send"), priorRevision, recoverSkippedSend ports with
    | true, Some r, Some f => let! _ := ignore (f sid dir candidate current (r + 1)) in Ret (XDropped reason)
    | _, _, _ => Ret (XDropped reason)
    end
  end.

(** The slot is consumed, the write refused, or ([inr]) fenced off; other rejections pass. *)
Definition write_slot (ports : DispatchPorts) (sid dir : string) (record : option json) (candidate : GoalPayload)
  : io (WriteOutcome + unit) :=
  catch (let! o := writeCandidate ports sid dir record candidate in Ret (inl o))
        (fun e => match e with Inactive => Ret (inr tt) | Other => Fail Other end).

Definition dispatch_slot (ports : DispatchPorts) (sid dir : string) (record : option json) (current : GoalPayload)
    (source : Source) (objective tail : string) (now : Z) : io ExchangeResult :=
  let! messages := readMessages ports sid dir MESSAGE_FETCH_LIMIT in
  match lastMessageTail messages with
  | None => Ret (XDropped "goal conversation changed")
  | Some (i, open) =>
    if negb (bool_decide (i = tail)) then Ret (XDropped "goal conversation changed")
    else if open then Ret (XDropped "assistant reply still open")
    else
      let candidate := consume current now in
      let priorRevision := readGoalRevision record in
      let! slot := write_slot ports sid dir record candidate in
      match slot with
      | inr _ =>
        match priorRevision, recoverSkippedSend ports with
        | Some r, Some f => let! _ := ignore (f sid dir current current r) in Ret (XDropped "goal runtime inactive before send")
        | _, _ => Ret (XDropped "goal runtime inactive before send")
        end
      | inl Refused => Ret (XDropped "goal CAS write was refused")
      | inl _ => send_slot ports sid dir current candidate priorRevision source objective
      end
  end.

Definition dispatchGoalContinuation (ports : DispatchPorts) (sid dir : string) (basis : GoalPayload) (source : Source)
    (objective tail : string) (now : Z) : io ExchangeResult :=
  let! record := readSession ports sid dir in
  let! current := sessionGoal record in
  match current with
  | None => Ret (XDropped "goal no longer active")
  | Some current =>
    if negb (bool_decide (id current = id basis)) || negb (bool_decide (status current = Active))
    then Ret (XDropped "goal no longer active")
    else if accountingDrift current basis then Ret (XDropped "goal changed since the audit")
    else if MAX_AUTO_TURNS <=? turnsUsed current
    then match settleGoal current Blocked turnLimit None now with
         | None => Ret (XDropped "goal settle was refused")
         | Some settled =>
           let! outcome := writeCandidate ports sid dir record settled in
           Ret (if bool_decide (outcome = Refused) then XDropped "goal CAS write was refused" else XSettled settled SettledBlocked)
         end
    else dispatch_slot ports sid dir record current source objective tail now
  end.

(** ** The exchange after a ready tick *)

Definition persistAccountingCandidate (ports : DispatchPorts) (ready : Ready) (sid dir : string) : io ExchangeResult :=
  let! session := readSession ports sid dir in
  let! current := sessionGoal session in
  match current with
  | None => Ret (XDropped "goal no longer active")
  | Some current =>
    if negb (bool_decide (id current = id (ready_goal ready))) || negb (bool_decide (status current = Active))
    then Ret (XDropped "goal no longer active")
    else if accountingDrift current (ready_goal ready) then Ret (XDropped "goal changed since the tick")
    else
      let! written := writeCandidate ports sid dir session (ready_goal ready) in
      if bool_decide (written = Refused) then Ret (XDropped "goal CAS write was refused")
      else let! now := call Clock in
           dispatchGoalContinuation ports sid dir (ready_goal ready) FromSkip (ready_objective ready) (tailId ready) now
  end.

Definition callAuditor (ports : DispatchPorts) (sid dir : string) (body : AuditBody) (objective text : string) : io GoalAuditCall :=
  let! wire := catch (let! w := runAudit ports sid dir body in Ret (Some w)) (fun _ => Ret None) in
  Ret (match wire with None => CallUnavailable | Some w => interpretGoalAuditCall json_parse w objective text end).

(** What the audit led to, over the record read after it. *)
Definition apply_call (ports : DispatchPorts) (ready : Ready) (sid dir : string) (second : option json) (current : GoalPayload)
    (answer : GoalAuditCall) (now : Z) : io ExchangeResult :=
  match answer with
  | CallRace => Ret (XDropped "goal audit raced a state change")
  | CallUnavailable =>
    let (next, settled) := applyGoalAuditUnavailable current now in
    if sameGoalPayload current next then Ret (XProcessed current None)
    else
      let! outcome := writeCandidate ports sid dir second next in
      Ret (if bool_decide (outcome = Refused) then XDropped "goal CAS write was refused"
           else if settled then XSettled next SettledBlocked else XProcessed next None)
  | CallVerdict v n p m =>
    let (next, settled) := applyGoalAuditVerdict (ready_goal ready) v n p m now in
    let! outcome := writeCandidate ports sid dir second next in
    if bool_decide (outcome = Refused) then Ret (XDropped "goal CAS write was refused")
    else match settled with
    | Some s => Ret (XSettled next s)
    | None => if bool_decide (v = VContinue)
              then dispatchGoalContinuation ports sid dir next FromAudit (ready_objective ready) (tailId ready) now
              else Ret (XProcessed next (Some v))
    end
  end.

Definition auditExchange (ports : DispatchPorts) (ready : Ready) (sid dir : string) : io ExchangeResult :=
  let! first := readSession ports sid dir in
  let! basis := sessionGoal first in
  match basis with
  | None => Ret (XDropped "goal no longer active")
  | Some basis =>
    if negb (bool_decide (id basis = id (ready_goal ready))) || negb (bool_decide (status basis = Active))
    then Ret (XDropped "goal no longer active")
    else if accountingDrift basis (ready_goal ready) then Ret (XDropped "goal changed since the tick")
    else match readGoalRevision first with
    | None => Ret (XDropped "goal revision unavailable")
    | Some revision =>
      let requestId := lastAccountedMessageID (ready_goal ready) in
      if bool_decide (requestId = "") then Ret (XDropped "goal cursor unavailable")
      else if bool_decide (trim (ready_objective ready) = "") then Ret (XDropped "objective unavailable")
      else
        let! answer := callAuditor ports sid dir (mkAuditBody (id (ready_goal ready)) revision requestId (ready_objective ready))
                         (ready_objective ready) (assistantText ready) in
        let! second := readSession ports sid dir in
        let! current := sessionGoal second in
        match current with
        | None => Ret (XDropped "goal no longer active after the audit")
        | Some current =>
          if negb (bool_decide (id current = id (ready_goal ready))) || negb (bool_decide (status current = Active))
          then Ret (XDropped "goal no longer active after the audit")
          else if negb (bool_decide (readGoalRevision second = Some revision)) || accountingDrift current basis
          then Ret (XDropped "goal changed during the audit")
          else let! now := call Clock in apply_call ports ready sid dir second current answer now
        end
    end
  end.

Definition runGoalAuditExchange (ports : DispatchPorts) (ready : Ready) (sid dir : string) : io ExchangeResult :=
  catch (if skipAudit ready then persistAccountingCandidate ports ready sid dir else auditExchange ports ready sid dir)
        (fun _ => Ret (XWait "goal audit exchange unavailable")).

End exchange.

(** ** What the fences hold back *)

(** The calls that change something or leave the machine. *)
Definition is_post (p : port) : bool :=
  match p with PutGoal _ _ _ | PostAudit _ _ _ | PostPrompt _ _ _ => true | _ => false end.

(** The fence has just let the program through. *)
Definition let_through (p : port) (r : option (reply p)) : bool :=
  match p return option (reply p) -> bool with IsCurrent _ => fun r => bool_decide (r = Some true) | _ => fun _ => false end r.

(** What is left of a program once it has had some answers; [b]: the last one was the
    fence's yes. Asking the fence and the call it allows are one turn of the code, so
    a program that waits for an answer is at [false] once it has it. *)
Inductive leaves {A} (m : io A) : bool -> io A -> Prop :=
| leaves_start : leaves m false m
| leaves_answer b p k r : leaves m b (Vis p k) -> leaves m (let_through p r) (k r).

(** A program posts directly behind a fence's yes, or what is [exempt]. *)
Fixpoint fenced (exempt : port -> Prop) {A} (b : bool) (m : io A) : Prop :=
  match m with
  | Vis p k => (is_post p = true -> b = true \/ exempt p) /\ forall r, fenced exempt (let_through p r) (k r)
  | _ => True
  end.

(** The posts of a program are [exempt], if the fences answer as [says] allows. *)
Fixpoint held_back (says : bool -> bool -> Prop) (exempt : port -> Prop) {A} (m : io A) : Prop :=
  match m with
  | Vis p k => (is_post p = true -> exempt p) /\
      match p return (option (reply p) -> io A) -> Prop with
      | IsCurrent x => fun k => held_back says exempt (k None) /\ forall b, says x b -> held_back says exempt (k (Some b))
      | _ => fun k => forall r, held_back says exempt (k r)
      end k
  | _ => True
  end.

Section fencing.
  Context (exempt : port -> Prop).

Lemma fenced_open {A} b (m : io A) : fenced exempt false m -> fenced exempt b m.
Proof. destruct m as [a|e|p k]; cbn; [done..|]. intros [H1 H2]. split; [|done]. intros Hp. by destruct (H1 Hp); [|right]. Qed.

Lemma fenced_bind {A B} b (m : io A) (f : A -> io B) :
  fenced exempt b m -> (forall a, fenced exempt false (f a)) -> fenced exempt b (io_bind m f).
Proof.
  intros Hm Hf. revert b Hm. induction m as [a|e|p k IH]; intros b; cbn; [intros _; by apply fenced_open|done|].
  intros [H1 H2]. split; [done|]. intros r. by apply IH.
Qed.

Lemma fenced_catch {A} b (m : io A) h :
  fenced exempt b m -> (forall e, fenced exempt false (h e)) -> fenced exempt b (catch m h).
Proof.
  intros Hm Hh. revert b Hm. induction m as [a|e|p k IH]; intros b; cbn; [done|intros _; by apply fenced_open|].
  intros [H1 H2]. split; [done|]. intros r. by apply IH.
Qed.

(** A call that is no post. *)
Lemma fenced_call b p : is_post p = false -> fenced exempt b (call p).
Proof. intros Hp. cbn. split; [by rewrite Hp|]. by intros [a|]. Qed.

Lemma fenced_leaves {A} (m m' : io A) b : fenced exempt false m -> leaves m b m' -> fenced exempt b m'.
Proof. intros Hm. induction 1 as [|b p k r _ IH]; [done|]. cbn in IH. apply IH. Qed.

(** Behind fences that say no, a fenced program posts what is exempt only. *)
Lemma fenced_held_back {A} says (m : io A) : (forall x b, says x b -> b = false) -> fenced exempt false m -> held_back says exempt m.
Proof.
  intros Hs. induction m as [a|e|p k IH]; cbn; [done..|]. intros [H1 H2].
  split; [intros Hp; by destruct (H1 Hp)|].
  destruct p; try (intros r; apply IH, (H2 r)). split; [apply IH, (H2 None)|]. intros b ->%Hs. apply IH, (H2 (Some false)).
Qed.

End fencing.

(** The write that gives a consumed slot back: it marks the goal resumed. *)
Definition is_recovery (p : port) : Prop := match p with PutGoal _ _ b => statusReason (b_goal b) = resumed | _ => False end.

Create HintDb goal_fences discriminated.

(** Leaves first, then the structure of the program. *)
Ltac by_fence :=
  repeat first
    [ done
    | solve [auto with goal_fences nocore]
    | apply fenced_call; reflexivity
    | apply fenced_bind; [|intros]
    | apply fenced_catch; [|intros]
    | match goal with
      | |- fenced _ _ (match ?x with _ => _ end) => destruct x
      end ].

Lemma fenced_goal exempt b rec : fenced exempt b (sessionGoal rec).
Proof. unfold sessionGoal. by_fence. Qed.

Lemma fenced_goalWrite exempt b rec next : fenced exempt b (goalWrite rec next).
Proof. unfold goalWrite. by_fence. Qed.

#[export] Hint Resolve fenced_goal fenced_goalWrite : goal_fences.

(** *** The tick *)

Lemma fenced_tick_write exempt sid dir body :
  fenced exempt false (writeGoal (guardTickPorts createNnaGoalSafetyPorts) sid dir body).
Proof. cbn. split; [done|]. intros [[]|]; cbn; try done. split; [by left|]. by intros [a|]. Qed.

#[export] Hint Resolve fenced_tick_write : goal_fences.

Lemma fenced_ready_after exempt sid dir goal d : fenced exempt false (ready_after (guardTickPorts createNnaGoalSafetyPorts) sid dir goal d).
Proof. unfold ready_after. cbn [guardTickPorts set_write createNnaGoalSafetyPorts readObjective readMessages]. cbv zeta. by_fence. Qed.

Lemma fenced_settle exempt sid dir rec next : fenced exempt false (settleWithCas (guardTickPorts createNnaGoalSafetyPorts) sid dir rec next).
Proof. unfold settleWithCas. by_fence. Qed.

#[export] Hint Resolve fenced_ready_after fenced_settle : goal_fences.

Lemma fenced_tick exempt sid dir : fenced exempt false (runNnaGoalSafetyTick (guardTickPorts createNnaGoalSafetyPorts) sid dir).
Proof.
  unfold runNnaGoalSafetyTick, tick_body. cbv zeta. by_fence.
Qed.

(** *** The exchange *)

Section fenced_exchange.
  Context (json_parse : string -> option json) (rules sid dir : string).

#[local] Abbreviation ports := (guardGoalAuditExchangePorts createNnaGoalAuditPorts).
#[local] Abbreviation guarded := (fenced is_recovery false).

Lemma fenced_write body : guarded (writeGoal ports sid dir body).
Proof. cbn. split; [done|]. intros [[]|]; cbn; try done. split; [by left|]. by intros [a|]. Qed.

Lemma fenced_audit body : guarded (runAudit ports sid dir body).
Proof. cbn. split; [done|]. intros [[]|]; cbn; try done. split; [by left|]. by intros [a|]. Qed.

Lemma fenced_send text : guarded (sendPrompt ports sid dir text).
Proof. cbn. split; [done|]. intros [[]|]; cbn; try done. split; [by left|]. by intros [a|]. Qed.

(** The recovery is not fenced; it is a compare-and-swap that marks the goal resumed. *)
Lemma fenced_recover persisted prior r : guarded (recover createNnaGoalAuditPorts sid dir persisted prior r).
Proof.
  unfold recover. cbn [createNnaGoalAuditPorts base createNnaGoalSafetyPorts readSession]. apply fenced_bind; [by_fence|]. intros rec.
  apply fenced_bind; [by_fence|]. intros [current|]; [|done]. destruct (_ || _); [done|]. unfold goalWrite. cbn.
  split; [done|]. intros [now|]; cbn; [|done]. split; [done|]. intros [now2|]; cbn; [|done].
  rewrite buildGoalWrite_eq. destruct (readGoalRevision rec); cbn; [|done]. split; [by right|]. by intros [a|].
Qed.

#[local] Hint Resolve fenced_write fenced_audit fenced_send fenced_recover : goal_fences.

Lemma fenced_candidate rec next : guarded (writeCandidate ports sid dir rec next).
Proof. unfold writeCandidate. by_fence. Qed.

#[local] Hint Resolve fenced_candidate : goal_fences.

Lemma fenced_refuseOrSend candidate o : guarded (refuseOrSend rules ports sid dir candidate o).
Proof. unfold refuseOrSend. by_fence. Qed.

#[local] Hint Resolve fenced_refuseOrSend : goal_fences.

Lemma fenced_ignore_recovery persisted prior r : guarded (ignore (recover createNnaGoalAuditPorts sid dir persisted prior r)).
Proof. unfold ignore. by_fence. Qed.

#[local] Hint Resolve fenced_ignore_recovery : goal_fences.

Lemma fenced_dispatch basis source o tail now : guarded (dispatchGoalContinuation rules ports sid dir basis source o tail now).
Proof.
  unfold dispatchGoalContinuation, dispatch_slot, send_slot, write_slot. cbv zeta.
  change (recoverSkippedSend ports) with (Some (recover createNnaGoalAuditPorts)). by_fence.
Qed.

#[local] Hint Resolve fenced_dispatch : goal_fences.

Lemma fenced_apply_call ready second current answer now : guarded (apply_call rules ports ready sid dir second current answer now).
Proof. unfold apply_call. by_fence. Qed.

Lemma fenced_callAuditor body o t : guarded (callAuditor json_parse ports sid dir body o t).
Proof. unfold callAuditor. by_fence. Qed.

#[local] Hint Resolve fenced_apply_call fenced_callAuditor : goal_fences.

Lemma fenced_exchange ready : guarded (runGoalAuditExchange json_parse rules ports ready sid dir).
Proof. unfold runGoalAuditExchange, persistAccountingCandidate, auditExchange. cbv zeta. by_fence. Qed.

End fenced_exchange.
