(* ===== verification/GoalRuntime.v ===== *)
(** The runtime that starts the ticks of session goals (server/goals/nna-goal-runtime.ts):
    timers, the fence generations of a session, and the ticks under way, as an event
    machine of one process. What a tick and its exchange do is in GoalExchange; here they
    are promises that settle. *)

From S2P Require Import Prelude CallTree JsString JsMap JsValue GoalPayload GoalState GoalEvidence GoalExchange.

Local Open Scope Z_scope.

(** ** State *)

Record GoalTiming := mkTiming { idleMs : Z; kickoffMs : Z; resumeMs : Z }.

Definition DEFAULT_TIMING : GoalTiming := mkTiming IDLE_QUIET_MS KICKOFF_QUIET_MS RESUME_KICKOFF_MS.

(** A timer; the callback runs at [fires] or later. *)
Record Armed := mkArmed { at_ : Z; fires : Z }.

(** A call of [tick] that waits: for the tick proper, or for the exchange it led to. *)
Inductive Phase := Ticking | Exchanging (exchangeGeneration : Z).

Record Tick := mkTick { t_id : string; t_directory : string; t_generation : Z; t_phase : Phase }.

(** [enabled]: what the gate answers; [reconciling]: listings that wait. *)
Record Runtime := mkRuntime {
  timers : gmap string Armed;
  directories : gmap string string;
  inFlight : gset string;
  generations : gmap string Z;
  exchangeGenerations : gmap string Z;
  pending : gmap string Z;
  stopped : bool;
  enabled : bool;
  ticks : list Tick;
  reconciling : nat }.

Definition newRuntime (gate : bool) : Runtime := mkRuntime ∅ ∅ ∅ ∅ ∅ ∅ false gate [] 0.

Definition set_timers (m : gmap string Armed) (r : Runtime) : Runtime :=
  mkRuntime m (directories r) (inFlight r) (generations r) (exchangeGenerations r) (pending r) (stopped r) (enabled r) (ticks r) (reconciling r).
Definition set_directories (m : gmap string string) (r : Runtime) : Runtime :=
  mkRuntime (timers r) m (inFlight r) (generations r) (exchangeGenerations r) (pending r) (stopped r) (enabled r) (ticks r) (reconciling r).
Definition set_pending (m : gmap string Z) (r : Runtime) : Runtime :=
  mkRuntime (timers r) (directories r) (inFlight r) (generations r) (exchangeGenerations r) m (stopped r) (enabled r) (ticks r) (reconciling r).
Definition set_ticks (f : gset string) (l : list Tick) (r : Runtime) : Runtime :=
  mkRuntime (timers r) (directories r) f (generations r) (exchangeGenerations r) (pending r) (stopped r) (enabled r) l (reconciling r).
Definition set_generations (m : gmap string Z) (r : Runtime) : Runtime :=
  mkRuntime (timers r) (directories r) (inFlight r) m (exchangeGenerations r) (pending r) (stopped r) (enabled r) (ticks r) (reconciling r).
Definition set_exchangeGenerations (m : gmap string Z) (r : Runtime) : Runtime :=
  mkRuntime (timers r) (directories r) (inFlight r) (generations r) m (pending r) (stopped r) (enabled r) (ticks r) (reconciling r).
Definition set_reconciling (n : nat) (r : Runtime) : Runtime :=
  mkRuntime (timers r) (directories r) (inFlight r) (generations r) (exchangeGenerations r) (pending r) (stopped r) (enabled r) (ticks r) n.
Definition set_enabled (b : bool) (r : Runtime) : Runtime :=
  mkRuntime (timers r) (directories r) (inFlight r) (generations r) (exchangeGenerations r) (pending r) (stopped r) b (ticks r) (reconciling r).

(** ** The methods *)

Definition generation (r : Runtime) (id : string) : Z := default 0 (generations r !! id).
Definition exchangeGeneration (r : Runtime) (id : string) : Z := default 0 (exchangeGenerations r !! id).

Definition bump (id : string) (r : Runtime) : Runtime := set_generations (<[id := generation r id + 1]> (generations r)) r.

(** The shorter of the delay and the one that is pending. *)
Definition defer (id : string) (delay : Z) (r : Runtime) : Runtime :=
  set_pending (<[id := match pending r !! id with Some d => Z.min delay d | None => delay end]> (pending r)) r.

Definition arm (now : Z) (id : string) (delay : Z) (r : Runtime) : Runtime :=
  if bool_decide (id ∈ inFlight r) then defer id delay r
  else
    let at_time := now + Z.max 0 delay in
    match timers r !! id with
    | Some previous => if at_ previous <=? at_time then r
                       else set_timers (<[id := mkArmed at_time (now + Z.max 1 (at_time - now))]> (timers r)) r
    | None => set_timers (<[id := mkArmed at_time (now + Z.max 1 (at_time - now))]> (timers r)) r
    end.

Definition clear (id : string) (r : Runtime) : Runtime := set_timers (delete id (timers r)) r.

Definition invalidate (id : string) (r : Runtime) : Runtime :=
  let r := bump id r in clear id (set_pending (delete id (pending r)) r).

Definition invalidateExchange (id : string) (r : Runtime) : Runtime :=
  set_exchangeGenerations (<[id := exchangeGeneration r id + 1]> (exchangeGenerations r)) r.

Definition invalidate_both (id : string) (r : Runtime) : Runtime := invalidateExchange id (invalidate id r).

(** The directory, when one is given; whether the session has one now. *)
Definition remember (id : string) (directory : option json) (r : Runtime) : Runtime * bool :=
  let r := match directory with
           | Some (JStr d) => if bool_decide (d = "") then r else set_directories (<[id := d]> (directories r)) r
           | _ => r
           end in
  (r, match directories r !! id with Some _ => true | None => false end).

Section runtime.
  Context (timing : GoalTiming).

(** The delay for an active goal. *)
Definition delay_of (goal : GoalPayload) : Z :=
  if bool_decide (statusReason goal = resumed) then resumeMs timing
  else if turnsUsed goal =? 0 then kickoffMs timing else idleMs timing.

Definition on_status (now : Z) (id : string) (properties : option json) (r : Runtime) : Runtime :=
  match obj_field "type" (obj_field "status" properties) with
  | Some (JStr type) =>
    if bool_decide (type = "idle") then arm now id (idleMs timing) r
    else if bool_decide (type = "busy") || bool_decide (type = "retry") then invalidate_both id r
    else r
  | _ => r
  end.

Definition on_updated (now : Z) (id : string) (info : option json) (r : Runtime) : Runtime :=
  match getSessionGoal info now with
  | Some goal =>
    if negb (bool_decide (status goal = Active)) then invalidate_both id r
    else if bool_decide (id ∈ inFlight r) then arm now id (delay_of goal) (bump id r)
    else if bool_decide (statusReason goal = resumed) then arm now id (resumeMs timing) r
    else if turnsUsed goal =? 0 then arm now id (kickoffMs timing) r
    else r
  | None => invalidate_both id r
  end.

(** [properties]: the member of the envelope, when it is an object. *)
Definition onEvent (now : Z) (directory : option json) (type : string) (properties : option json) (r : Runtime) : Runtime :=
  if stopped r then r
  else match nullish (obj_field "sessionID" properties) (obj_field "sessionId" properties) with
  | Some (JStr id) =>
    if bool_decide (id = "") then r
    else if bool_decide (type = "session.deleted")
    then let r := invalidate_both id r in set_directories (delete id (directories r)) r
    else
      let info := match obj_field "info" properties with Some (JObj f) => Some (JObj f) | _ => None end in
      let (r, known) := remember id (nullish directory (obj_field "directory" info)) r in
      if negb known then r
      else if negb (enabled r) then invalidate_both id r
      else
        let r := if bool_decide (type = "session.status") then on_status now id properties r else r in
        match bool_decide (type = "session.updated"), info with
        | true, Some (JObj _) => if falsy (obj_field "parentID" info) then on_updated now id info r else r
        | _, _ => r
        end
  | _ => r
  end.

Definition dispose (r : Runtime) : Runtime :=
  mkRuntime ∅ ∅ (inFlight r) ∅ ∅ ∅ true (enabled r) (ticks r) (reconciling r).

Definition reconcile (r : Runtime) : Runtime :=
  if stopped r || negb (enabled r) then r else set_reconciling (S (reconciling r)) r.

Definition settingsChanged (r : Runtime) : Runtime :=
  if stopped r then r
  else if enabled r then reconcile r
  else foldr (fun kv r => invalidate_both kv.1 r) r (map_to_list (directories r)).

(** The answer of a listing, a session at a time; the gate is not asked again. *)
Definition reconcile_one (now : Z) (r : Runtime) (item : json) : Runtime :=
  match obj_field "id" (Some item) with
  | Some (JStr id) =>
    if negb (falsy (obj_field "parentID" (Some item))) then r
    else
      let (r, known) := remember id (obj_field "directory" (Some item)) r in
      if negb known then r
      else match getSessionGoal (Some item) now with
      | Some goal =>
        if negb (bool_decide (status goal = Active)) || bool_decide (is_Some (timers r !! id)) then r
        else arm now id (delay_of goal) r
      | None => r
      end
  | _ => r
  end.

Definition reconciled (now : Z) (sessions : option json) (r : Runtime) : Runtime :=
  let r := set_reconciling (pred (reconciling r)) r in
  if stopped r then r
  else match sessions with
  | Some (JArr l) => foldl (reconcile_one now) r l
  | _ => r
  end.

(** ** A tick *)

(** The start of [tick]; [None]: it answers at once. *)
Definition tick (now : Z) (id : string) (r : Runtime) : Runtime :=
  if stopped r || negb (enabled r) then r
  else if bool_decide (id ∈ inFlight r) then defer id (idleMs timing) r
  else match directories r !! id with
  | None => r
  | Some directory =>
    if bool_decide (directory = "") then r
    else set_ticks ({[id]} ∪ inFlight r) (ticks r ++ [mkTick id directory (generation r id) Ticking]) r
  end.

(** The fence of the tick's writes and of its result. *)
Definition stillCurrent (r : Runtime) (t : Tick) : bool :=
  negb (stopped r) && enabled r && bool_decide (t_generation t = generation r (t_id t))
  && bool_decide (directories r !! t_id t = Some (t_directory t)).

(** The fence of the exchange. *)
Definition exchangeCurrent (r : Runtime) (t : Tick) (g : Z) : bool :=
  negb (stopped r) && enabled r && bool_decide (g = exchangeGeneration r (t_id t))
  && bool_decide (directories r !! t_id t = Some (t_directory t)).

(** The [finally] of [tick]. *)
Definition finish (now : Z) (i : nat) (t : Tick) (r : Runtime) : Runtime :=
  let r := set_ticks (inFlight r ∖ {[t_id t]}) (delete i (ticks r)) r in
  let waiting := pending r !! t_id t in
  let r := set_pending (delete (t_id t) (pending r)) r in
  match waiting with
  | Some delay => if negb (stopped r) && bool_decide (is_Some (directories r !! t_id t)) then arm now (t_id t) delay r else r
  | None => r
  end.

Definition retried (reason : string) : bool :=
  bool_decide (reason = "status unavailable") || bool_decide (reason = "goal tick dependency unavailable").

(** The tick proper settles; [None]: it rejects. *)
Definition tickSettles (now : Z) (i : nat) (t : Tick) (result : option TickResult) (r : Runtime) : Runtime :=
  match result with
  | None => finish now i t r
  | Some result =>
    if negb (stillCurrent r t) then finish now i t r
    else match result with
    | TReady _ => set_ticks (inFlight r) (<[i := mkTick (t_id t) (t_directory t) (t_generation t)
                                             (Exchanging (exchangeGeneration r (t_id t)))]> (ticks r)) r
    | TWait reason => finish now i t (if retried reason then arm now (t_id t) (idleMs timing) r else r)
    | _ => finish now i t r
    end
  end.

(** ** The machine *)

Inductive Event :=
| Feed (directory : option json) (type : string) (properties : option json)
| Connected
| Gate (b : bool)
| SettingsChanged
| Listed (sessions : option json)
| Fires (id : string)
| Settles (i : nat) (result : option TickResult)
| Disposed.

(** One callback; [None]: the event cannot happen. *)
Definition step (now : Z) (ev : Event) (r : Runtime) : option Runtime :=
  match ev with
  | Feed directory type properties => Some (onEvent now directory type properties r)
  | Connected => if stopped r then None else Some (reconcile r)
  | Gate b => Some (set_enabled b r)
  | SettingsChanged => Some (settingsChanged r)
  | Listed sessions => match reconciling r with O => None | S _ => Some (reconciled now sessions r) end
  | Fires id =>
    match timers r !! id with
    | Some a => if fires a <=? now then Some (tick now id (clear id r)) else None
    | None => None
    end
  | Settles i result =>
    match ticks r !! i with
    | Some t => Some match t_phase t with Ticking => tickSettles now i t result r | Exchanging _ => finish now i t r end
    | None => None
    end
  | Disposed => Some (dispose r)
  end.

Fixpoint run (evs : list (Z * Event)) (r : Runtime) : option Runtime :=
  match evs with
  | [] => Some r
  | (now, ev) :: evs => match step now ev r with Some r' => run evs r' | None => None end
  end.

End runtime.

(** ** The invariant *)

(** What the methods between the callbacks keep. *)
Record Books (r : Runtime) : Prop := {
  b_ticks : inFlight r = list_to_set (t_id <$> ticks r);
  b_once : NoDup (t_id <$> ticks r);
  b_idle : forall id, id ∈ inFlight r -> timers r !! id = None;
  b_pending : forall id, id ∉ inFlight r -> pending r !! id = None;
  b_known : forall id, is_Some (timers r !! id) -> is_Some (directories r !! id);
  b_waiting : forall id, is_Some (pending r !! id) -> is_Some (directories r !! id);
  b_stopped : stopped r = true -> timers r = ∅ /\ pending r = ∅ /\ directories r = ∅;
  b_generation : forall t, t ∈ ticks r -> stopped r = true \/ t_generation t <= generation r (t_id t);
  b_exchange : forall t g, t ∈ ticks r -> t_phase t = Exchanging g -> stopped r = true \/ g <= exchangeGeneration r (t_id t) }.

Lemma newRuntime_books gate : Books (newRuntime gate).
Proof.
  split; try done; try (intros t H; by apply elem_of_nil in H); [apply NoDup_nil_2|by intros id [a Ha]..|intros t g H; by apply elem_of_nil in H].
Qed.

Lemma defer_books id d r : id ∈ inFlight r -> stopped r = false -> is_Some (directories r !! id) -> Books r -> Books (defer id d r).
Proof.
  intros Hin Hs Hd []. split; try done; cbn [defer set_pending timers pending inFlight directories stopped ticks].
  - intros k Hk. rewrite lookup_insert_ne by (intros ->; done). auto.
  - intros k. destruct (decide (k = id)) as [->|Hne]; [done|]. rewrite lookup_insert_ne by done. auto.
  - intros E. congruence.
Qed.

Lemma arm_books now id d r : stopped r = false -> is_Some (directories r !! id) -> Books r -> Books (arm now id d r).
Proof.
  intros Hs Hd HB. unfold arm. case_bool_decide as Hin; [by apply defer_books|].
  assert (forall a, Books (set_timers (<[id := a]> (timers r)) r)) as Hset.
  { intros a. destruct HB. split; try done; cbn [set_timers timers pending inFlight directories stopped ticks].
    - intros k Hk. rewrite lookup_insert_ne by (intros ->; done). auto.
    - intros k. destruct (decide (k = id)) as [->|Hne]; [done|]. rewrite lookup_insert_ne by done. auto.
    - intros E. congruence. }
  destruct (timers r !! id) as [a|]; [destruct (_ <=? _); [done|]|]; apply Hset.
Qed.

Lemma generation_bump id k r : generation (bump id r) k = if decide (k = id) then generation r id + 1 else generation r k.
Proof.
  unfold generation, bump. cbn. case_decide as H; [subst; by rewrite lookup_insert_eq|]. by rewrite lookup_insert_ne.
Qed.

Lemma exchangeGeneration_bump id k r :
  exchangeGeneration (invalidateExchange id r) k = if decide (k = id) then exchangeGeneration r id + 1 else exchangeGeneration r k.
Proof.
  unfold invalidateExchange, exchangeGeneration. cbn. case_decide as H; [subst; by rewrite lookup_insert_eq|]. by rewrite lookup_insert_ne.
Qed.

Lemma bump_books id r : Books r -> Books (bump id r).
Proof.
  intros []. split; try done. intros t Ht. rewrite generation_bump. destruct (b_generation0 t Ht) as [|H]; [by left|]. right.
  case_decide as E; [rewrite E in H|]; lia.
Qed.

Lemma clear_books id r : Books r -> Books (clear id r).
Proof.
  intros []. split; try done; cbn [clear set_timers timers pending inFlight directories stopped ticks].
  - intros k Hk. apply lookup_delete_None. right. auto.
  - intros k Hk. apply lookup_delete_is_Some in Hk as [_ Hk]. auto.
  - intros E. destruct (b_stopped0 E) as (-> & ? & ?). by rewrite delete_empty.
Qed.

Lemma forget_books id r : Books r -> Books (set_pending (delete id (pending r)) r).
Proof.
  intros []. split; try done; cbn [set_pending timers pending inFlight directories stopped ticks].
  - intros k Hk. apply lookup_delete_None. right. auto.
  - intros k Hk. apply lookup_delete_is_Some in Hk as [_ Hk]. auto.
  - intros E. destruct (b_stopped0 E) as (? & -> & ?). by rewrite delete_empty.
Qed.

Lemma invalidate_both_books id r : Books r -> Books (invalidate_both id r).
Proof.
  intros HB. assert (Books (invalidate id r)) as [] by (by apply clear_books, forget_books, bump_books).
  split; try done. intros t g Ht Hg. unfold invalidate_both. rewrite exchangeGeneration_bump. destruct (b_exchange0 t g Ht Hg) as [|H]; [by left|]. right.
  case_decide as E; [rewrite E in H|]; lia.
Qed.

Lemma remember_books id d r : stopped r = false -> Books r -> Books (remember id d r).1.
Proof.
  intros Hs HB. unfold remember. destruct d as [[| | |d| |]|]; try done. case_bool_decide; [done|]. cbn [fst].
  destruct HB. split; try done; cbn [set_directories timers pending inFlight directories stopped ticks].
  - intros k Hk. destruct (decide (k = id)) as [->|Hne]; [by rewrite lookup_insert_eq|]. rewrite lookup_insert_ne by done. auto.
  - intros k Hk. destruct (decide (k = id)) as [->|Hne]; [by rewrite lookup_insert_eq|]. rewrite lookup_insert_ne by done. auto.
  - intros E. congruence.
Qed.

(** What [remember] leaves alone, and what its answer says. *)
Lemma remember_spec id d r : let (r', known) := remember id d r in
  timers r' = timers r /\ inFlight r' = inFlight r /\ generations r' = generations r /\ exchangeGenerations r' = exchangeGenerations r
  /\ pending r' = pending r /\ stopped r' = stopped r /\ enabled r' = enabled r /\ ticks r' = ticks r
  /\ (known = true <-> is_Some (directories r' !! id)).
Proof.
  unfold remember. cbn zeta.
  assert (forall m : gmap string string, match m !! id with Some _ => true | None => false end = true <-> is_Some (m !! id)) as H.
  { intros m. destruct (m !! id); split; try done; by intros [? ?]. }
  destruct d as [[| | |d| |]|]; try (by split_and!). case_bool_decide; by split_and!.
Qed.

Section books.
  Context (timing : GoalTiming).

Lemma delete_books id r : Books r -> timers r !! id = None -> pending r !! id = None -> Books (set_directories (delete id (directories r)) r).
Proof.
  intros [] Ht Hp. split; try done; cbn [set_directories timers pending inFlight directories stopped ticks].
  - intros k Hk. destruct (decide (k = id)) as [->|Hne]; [by rewrite Ht in Hk; destruct Hk|]. rewrite lookup_delete_ne by done. auto.
  - intros k Hk. destruct (decide (k = id)) as [->|Hne]; [by rewrite Hp in Hk; destruct Hk|]. rewrite lookup_delete_ne by done. auto.
  - intros E. destruct (b_stopped0 E) as (? & ? & ->). by rewrite delete_empty.
Qed.

Lemma on_status_books now id ps r : stopped r = false -> is_Some (directories r !! id) -> Books r -> Books (on_status timing now id ps r).
Proof.
  intros Hs Hd HB. unfold on_status. destruct (obj_field "type" _) as [[]|]; try done.
  case_bool_decide; [by apply arm_books|]. destruct (_ || _); [by apply invalidate_both_books|done].
Qed.

Lemma on_updated_books now id info r : stopped r = false -> is_Some (directories r !! id) -> Books r -> Books (on_updated timing now id info r).
Proof.
  intros Hs Hd HB. unfold on_updated. destruct (getSessionGoal info now) as [g|]; [|by apply invalidate_both_books].
  destruct (negb _); [by apply invalidate_both_books|].
  case_bool_decide; [by apply arm_books; [..|apply bump_books]|]. case_bool_decide; [by apply arm_books|].
  destruct (_ =? _); [by apply arm_books|done].
Qed.

Lemma stopped_on_status now id ps r : stopped (on_status timing now id ps r) = stopped r /\ directories (on_status timing now id ps r) = directories r.
Proof.
  unfold on_status, arm, defer. destruct (obj_field "type" _) as [[]|]; try done. repeat (case_bool_decide; cbn [orb]; try done);
    destruct (timers r !! id) as [a|]; try done; by destruct (_ <=? _).
Qed.

Lemma onEvent_books now d ty ps r : Books r -> Books (onEvent timing now d ty ps r).
Proof.
  intros HB. unfold onEvent. destruct (stopped r) eqn:Hs; [done|]. destruct (nullish _ _) as [[| | |id| |]|]; try done.
  case_bool_decide; [done|]. case_bool_decide.
  { cbn zeta. apply delete_books; [by apply invalidate_both_books|apply lookup_delete_eq..]. }
  cbn zeta. match goal with |- context [remember id ?x r] => pose proof (remember_books id x r Hs HB) as HB1; pose proof (remember_spec id x r) as Hr;
    destruct (remember id x r) as [r1 known] end. cbn [fst] in HB1. destruct Hr as (_ & _ & _ & _ & _ & Hs1 & _ & _ & Hk).
  destruct known; cbn [negb]; [|done]. destruct (negb (enabled r1)); [by apply invalidate_both_books|].
  assert (is_Some (directories r1 !! id)) as Hd by by apply Hk. rewrite Hs in Hs1.
  set (r2 := if bool_decide (ty = "session.status") then _ else r1).
  assert (Books r2 /\ stopped r2 = false /\ is_Some (directories r2 !! id)) as (HB2 & Hs2 & Hd2).
  { subst r2. case_bool_decide; [|done]. destruct (stopped_on_status now id ps r1) as [-> ->]. split; [by apply on_status_books|done]. }
  destruct (bool_decide (ty = "session.updated")); [|done].
  destruct (match obj_field "info" ps with Some (JObj f) => _ | _ => None end) as [[]|]; try done.
  destruct (falsy _); [by apply on_updated_books|done].
Qed.

Lemma reconcile_one_books now r item : stopped r = false -> Books r -> Books (reconcile_one timing now r item) /\ stopped (reconcile_one timing now r item) = false.
Proof.
  intros Hs HB. unfold reconcile_one. destruct (obj_field "id" _) as [[| | |id| |]|]; try done. destruct (negb _); [done|].
  match goal with |- context [remember id ?x r] => pose proof (remember_books id x r Hs HB) as HB1; pose proof (remember_spec id x r) as Hr;
    destruct (remember id x r) as [r1 known] end. cbn [fst] in HB1. destruct Hr as (_ & _ & _ & _ & _ & Hs1 & _ & _ & Hk).
  rewrite Hs in Hs1. destruct known; cbn [negb]; [|done]. destruct (getSessionGoal _ now) as [g|]; [|done]. destruct (_ || _); [done|].
  split; [apply arm_books; [done|by apply Hk|done]|]. unfold arm, defer. case_bool_decide; [done|].
  destruct (timers r1 !! id); [by destruct (_ <=? _)|done].
Qed.

Lemma reconciling_books n r : Books r -> Books (set_reconciling n r).
Proof. by intros []. Qed.

Lemma foldl_reconcile_books now l r : stopped r = false -> Books r -> Books (foldl (reconcile_one timing now) r l).
Proof.
  revert r. induction l as [|item l IH]; intros r Hs HB; [done|]. cbn. destruct (reconcile_one_books now r item Hs HB). by apply IH.
Qed.

Lemma settings_books r : Books r -> Books (settingsChanged r).
Proof.
  intros HB. unfold settingsChanged, reconcile. destruct (stopped r) eqn:Hs; [done|]. destruct (enabled r); cbn [negb orb]; [by apply reconciling_books|].
  generalize (map_to_list (directories r)). intros l. clear Hs. induction l as [|kv l IH]; [done|]. cbn. by apply invalidate_both_books.
Qed.

Lemma dispose_books r : Books r -> Books (dispose r).
Proof. intros []. split; try done; try (intros; by left). all: by intros id [? ?]. Qed.

Lemma tick_books now id r : timers r !! id = None -> id ∉ inFlight r -> Books r -> Books (tick timing now id r).
Proof.
  intros Ht Hin HB. unfold tick. destruct (stopped r) eqn:Hs; cbn [orb]; [done|]. destruct (negb (enabled r)); [done|].
  rewrite bool_decide_false by done. destruct (directories r !! id) as [d|] eqn:Ed; [|done]. case_bool_decide; [done|].
  destruct HB. split; try done; cbn [set_ticks timers pending inFlight directories stopped ticks].
  - rewrite fmap_app, list_to_set_app_L, b_ticks0. cbn. set_solver.
  - rewrite fmap_app. apply NoDup_app. split_and!; [done| |apply NoDup_singleton]. intros k Hk Hk2. apply list_elem_of_singleton in Hk2 as ->.
    apply Hin. rewrite b_ticks0. by apply elem_of_list_to_set.
  - intros k [->%elem_of_singleton|Hk]%elem_of_union; auto.
  - intros k Hk. apply b_pending0. intros Hk'. apply Hk. by apply elem_of_union_r.
  - intros t [Hin'|Ht']%elem_of_app; [by apply b_generation0|]. apply list_elem_of_singleton in Ht' as ->. right. apply Z.le_refl.
  - intros t g [Hin'|Ht']%elem_of_app Hg; [by eapply b_exchange0|]. by apply list_elem_of_singleton in Ht' as ->.
Qed.

Lemma ticks_lookup r i t : Books r -> ticks r !! i = Some t -> t_id t ∈ inFlight r /\ t_id t ∉ t_id <$> delete i (ticks r).
Proof.
  intros [] Hi. split; [rewrite b_ticks0; apply elem_of_list_to_set, list_elem_of_fmap_2; by eapply list_elem_of_lookup_2|].
  rewrite (delete_take_drop (ticks r)). rewrite <- (take_drop_middle _ _ _ Hi), fmap_app, fmap_cons in b_once0.
  apply NoDup_app in b_once0 as (_ & H1 & [H2 _]%NoDup_cons). rewrite fmap_app. intros [H|H]%elem_of_app; [|done].
  apply (H1 _ H). by left.
Qed.

Lemma finish_books now i t r : ticks r !! i = Some t -> Books r -> Books (finish now i t r).
Proof.
  intros Hi HB. destruct (ticks_lookup r i t HB Hi) as [Hin Hout]. unfold finish. cbn zeta.
  set (r1 := set_pending _ (set_ticks _ _ r)).
  assert (Books r1 /\ stopped r1 = stopped r /\ directories r1 = directories r) as (HB1 & Hs1 & Hd1).
  { split; [|done]. subst r1. cbn [set_ticks pending]. pose proof (delete_take_drop (ticks r) i) as Hdel. destruct HB.
    assert (NoDup (t_id <$> delete i (ticks r))) as Hnd by (eapply sublist_NoDup; [exact b_once0|]; apply fmap_sublist, sublist_delete).
    assert (forall t', t' ∈ delete i (ticks r) -> t' ∈ ticks r) as Hsub by (intros t' Ht'; eapply elem_of_sublist; [exact Ht'|apply sublist_delete]).
    split; try done; cbn [set_pending set_ticks timers pending inFlight directories stopped ticks].
    - rewrite b_ticks0. apply set_eq. intros k. rewrite elem_of_difference, !elem_of_list_to_set, elem_of_singleton. split.
      + intros [H1 H2]. apply list_elem_of_fmap in H1 as (t' & -> & Ht'). apply list_elem_of_fmap_2.
        rewrite Hdel. rewrite <- (take_drop_middle _ _ _ Hi) in Ht'. apply elem_of_app in Ht' as [Ht'|Ht']; [by apply elem_of_app; left|].
        apply elem_of_cons in Ht' as [->|Ht']; [done|by apply elem_of_app; right].
      + intros H1. split; [|by intros ->]. apply list_elem_of_fmap in H1 as (t' & -> & Ht'). by apply list_elem_of_fmap_2, Hsub.
    - intros k [Hk _]%elem_of_difference. auto.
    - intros k Hk. destruct (decide (k = t_id t)) as [->|Hne]; [apply lookup_delete_eq|]. rewrite lookup_delete_ne by done.
      apply b_pending0. intros Hk'. apply Hk. apply elem_of_difference. split; [done|]. by rewrite elem_of_singleton.
    - intros k Hk. apply lookup_delete_is_Some in Hk as [_ Hk]. auto.
    - intros E. destruct (b_stopped0 E) as (? & -> & ?). by rewrite delete_empty.
    - intros t' Ht'. by apply b_generation0, Hsub.
    - intros t' g Ht'. by apply b_exchange0, Hsub. }
  change (pending (set_ticks (inFlight r ∖ {[t_id t]}) (delete i (ticks r)) r)) with (pending r).
  destruct (pending r !! t_id t) as [d|]; [|done]. destruct (stopped r1) eqn:E; [done|]. cbn [negb andb].
  case_bool_decide; [by apply arm_books|done].
Qed.

Lemma arm_ticks now id d r : ticks (arm now id d r) = ticks r.
Proof. unfold arm, defer. case_bool_decide; [done|]. destruct (timers r !! id); [by destruct (_ <=? _)|done]. Qed.

Lemma exchanging_books i t g r : ticks r !! i = Some t -> g = exchangeGeneration r (t_id t) -> Books r ->
  Books (set_ticks (inFlight r) (<[i := mkTick (t_id t) (t_directory t) (t_generation t) (Exchanging g)]> (ticks r)) r).
Proof.
  intros Hi -> []. set (t' := mkTick _ _ _ _).
  assert (t_id <$> <[i := t']> (ticks r) = t_id <$> ticks r) as E.
  { rewrite list_fmap_insert. apply list_insert_id. by rewrite list_lookup_fmap, Hi. }
  split; try done; cbn [set_ticks timers pending inFlight directories stopped ticks]; rewrite ?E; try done.
  - intros u Hu. apply list_elem_of_lookup in Hu as [j Hj]. apply list_lookup_insert_Some in Hj as [(_ & <- & _)|[_ Hj]].
    + apply (b_generation0 t). by eapply list_elem_of_lookup_2.
    + apply b_generation0. by eapply list_elem_of_lookup_2.
  - intros u g Hu. apply list_elem_of_lookup in Hu as [j Hj]. apply list_lookup_insert_Some in Hj as [(_ & <- & _)|[_ Hj]].
    + intros [= <-]. right. apply Z.le_refl.
    + apply b_exchange0. by eapply list_elem_of_lookup_2.
Qed.

Lemma stillCurrent_known r t : stillCurrent r t = true -> stopped r = false /\ is_Some (directories r !! t_id t).
Proof.
  unfold stillCurrent. intros H. apply andb_true_iff in H as [[[H1 H2]%andb_true_iff H3]%andb_true_iff H4].
  apply negb_true_iff in H1. apply bool_decide_eq_true_1 in H4. by rewrite H4.
Qed.

Lemma tickSettles_books now i t res r : ticks r !! i = Some t -> Books r -> Books (tickSettles timing now i t res r).
Proof.
  intros Hi HB. unfold tickSettles. destruct res as [res|]; [|by apply finish_books].
  destruct (stillCurrent r t) eqn:E; cbn [negb]; [|by apply finish_books]. apply stillCurrent_known in E as [Hs Hd].
  destruct res as [reason| |g|ready]; try (by apply finish_books).
  - destruct (retried reason); [|by apply finish_books]. apply finish_books; [by rewrite arm_ticks|]. by apply arm_books.
  - by apply exchanging_books.
Qed.

Lemma step_books now ev r r' : step timing now ev r = Some r' -> Books r -> Books r'.
Proof.
  destruct ev as [d ty ps| |b| |l|id|i res|]; cbn [step]; intros Hstep HB.
  - injection Hstep as <-. by apply onEvent_books.
  - unfold reconcile in Hstep. destruct (stopped r); [done|]. injection Hstep as <-. destruct (enabled r); [by apply reconciling_books|done].
  - injection Hstep as <-. by destruct HB.
  - injection Hstep as <-. by apply settings_books.
  - destruct (reconciling r) as [|n] eqn:En; [done|]. injection Hstep as <-. unfold reconciled. cbn zeta.
    apply (reconciling_books (pred (reconciling r))) in HB. destruct (stopped (set_reconciling _ r)) eqn:Hs; [done|]. destruct l as [[| | | |l|]|]; try done.
    by apply foldl_reconcile_books.
  - destruct (timers r !! id) as [a|] eqn:Ea; [|done]. destruct (_ <=? now); [|done]. injection Hstep as <-.
    apply tick_books; [apply lookup_delete_eq| |by apply clear_books]. intros Hin. apply (b_idle r HB) in Hin. congruence.
  - destruct (ticks r !! i) as [t|] eqn:Hi; [|done]. injection Hstep as <-.
    destruct (t_phase t); [by apply tickSettles_books|by apply finish_books].
  - injection Hstep as <-. by apply dispose_books.
Qed.

Lemma run_books evs r r' : run timing evs r = Some r' -> Books r -> Books r'.
Proof.
  revert r. induction evs as [|[now ev] evs IH]; intros r; cbn; [by intros [= <-]|].
  destruct (step timing now ev r) as [r1|] eqn:E; [|done]. intros Hr HB. eapply IH; [exact Hr|]. by eapply step_books.
Qed.

End books.

(** One tick at a time: in every run, whatever the feed says, whenever timers fire
    and however ticks and exchanges settle, a session has at most one tick or exchange
    under way, and a timer only while it has none; every timer is for a session whose
    directory is known, and a disposed runtime has no timers left. *)
Theorem one_tick_per_session timing gate evs r :
  run timing evs (newRuntime gate) = Some r ->
  NoDup (t_id <$> ticks r)
  /\ (forall id, is_Some (timers r !! id) -> is_Some (directories r !! id) /\ id ∉ t_id <$> ticks r)
  /\ (stopped r = true -> timers r = ∅).
Proof.
  intros Hr. destruct (run_books timing _ _ _ Hr (newRuntime_books gate)). split_and!; [done| |intros Hs; by apply b_stopped0].
  intros id Ht. split; [auto|]. intros Hin. destruct Ht as [a Ha]. rewrite b_idle0 in Ha; [done|].
  rewrite b_ticks0. by apply elem_of_list_to_set.
Qed.

(** ** The fences *)

(** The session an event of the feed is about. *)
Definition event_session (properties : option json) : option string :=
  match nullish (obj_field "sessionID" properties) (obj_field "sessionId" properties) with
  | Some (JStr id) => if bool_decide (id = "") then None else Some id
  | _ => None
  end.

Definition event_info (properties : option json) : option json :=
  match obj_field "info" properties with Some (JObj f) => Some (JObj f) | _ => None end.

(** The session is busy again, its goal is no longer active, it is gone, the gate is
    closed, or the runtime is disposed. *)
Definition ends (now : Z) (ev : Event) (r : Runtime) (id : string) : bool :=
  match ev with
  | Disposed => true
  | SettingsChanged => negb (enabled r) && bool_decide (is_Some (directories r !! id))
  | Feed directory type properties =>
    let info := event_info properties in
    bool_decide (event_session properties = Some id)
    && (bool_decide (type = "session.deleted")
        || (remember id (nullish directory (obj_field "directory" info)) r).2
           && (negb (enabled r)
               || bool_decide (type = "session.status")
                  && (is_str (obj_field "type" (obj_field "status" properties)) "busy"
                      || is_str (obj_field "type" (obj_field "status" properties)) "retry")
               || bool_decide (type = "session.updated") && match info with Some _ => true | None => false end
                  && falsy (obj_field "parentID" info)
                  && match getSessionGoal info now with Some goal => negb (bool_decide (status goal = Active)) | None => true end))
  | _ => false
  end.

(** Both fences of the tick are down. *)
Definition revoked (r : Runtime) (t : Tick) : Prop :=
  stopped r = true
  \/ (t_generation t < generation r (t_id t) /\ forall g, t_phase t = Exchanging g -> g < exchangeGeneration r (t_id t)).

(** Generations only grow, and a stopped runtime stays stopped. *)
Definition later (r r' : Runtime) : Prop :=
  stopped r' = true
  \/ (stopped r = false /\ stopped r' = false
      /\ forall id, generation r id <= generation r' id /\ exchangeGeneration r id <= exchangeGeneration r' id).

Lemma later_refl r : later r r.
Proof. destruct (stopped r) eqn:E; [by left|]. right. split_and!; [done|done|]. intros; lia. Qed.

Lemma later_trans r1 r2 r3 : later r1 r2 -> later r2 r3 -> later r1 r3.
Proof.
  intros [H1|(H1 & H1' & Hm1)] [H2|(H2 & H2' & Hm2)]; try (by left); [congruence|]. right. split_and!; [done|done|].
  intros id. specialize (Hm1 id). specialize (Hm2 id). lia.
Qed.

Lemma later_same r r' : stopped r' = stopped r -> generations r' = generations r -> exchangeGenerations r' = exchangeGenerations r -> later r r'.
Proof.
  intros Hs Hg Hx. destruct (stopped r) eqn:E; [by left|]. right. split_and!; [done|done|].
  intros id. unfold generation, exchangeGeneration. rewrite Hg, Hx. lia.
Qed.

Lemma later_invalidate id r : later r (invalidate_both id r).
Proof.
  destruct (stopped r) eqn:E; [by left|]. right. split_and!; [done|done|]. intros k. split.
  - transitivity (generation (bump id r) k); [|apply Z.le_refl]. rewrite generation_bump. case_decide as Hk; [rewrite Hk|]; lia.
  - unfold invalidate_both. rewrite exchangeGeneration_bump. case_decide as Hk; [rewrite Hk|]; unfold exchangeGeneration; cbn; lia.
Qed.

Lemma later_bump id r : later r (bump id r).
Proof.
  destruct (stopped r) eqn:E; [by left|]. right. split_and!; [done|done|]. intros k. split; [|apply Z.le_refl].
  rewrite generation_bump. case_decide as Hk; [rewrite Hk|]; lia.
Qed.

Lemma later_arm now id d r : later r (arm now id d r).
Proof. apply later_same; unfold arm, defer; case_bool_decide; try done; destruct (timers r !! id); try done; by destruct (_ <=? _). Qed.

Lemma later_remember id d r : later r (remember id d r).1.
Proof. pose proof (remember_spec id d r) as H. destruct (remember id d r). destruct H as (_ & _ & ? & ? & _ & ? & _). by apply later_same. Qed.

Create HintDb goal_runtime.
#[export] Hint Resolve later_refl later_invalidate later_bump later_arm : goal_runtime.

Section fences.
  Context (timing : GoalTiming).

Lemma later_updated now id info r : later r (on_updated timing now id info r).
Proof.
  unfold on_updated. destruct (getSessionGoal _ _) as [g|]; [|auto with goal_runtime]. destruct (negb _); [auto with goal_runtime|].
  case_bool_decide; [eapply later_trans; [apply (later_bump id)|auto with goal_runtime]|].
  case_bool_decide; [auto with goal_runtime|]. destruct (_ =? _); auto with goal_runtime.
Qed.

Lemma later_onEvent now d ty ps r : later r (onEvent timing now d ty ps r).
Proof.
  unfold onEvent. destruct (stopped r); [auto with goal_runtime|]. destruct (nullish _ _) as [[| | |id| |]|]; auto with goal_runtime.
  case_bool_decide; [auto with goal_runtime|]. case_bool_decide; [eapply later_trans; [apply (later_invalidate id)|by apply later_same]|].
  cbn zeta. match goal with |- context [remember id ?x r] => pose proof (later_remember id x r) as H1; destruct (remember id x r) as [r1 known] end.
  cbn [fst] in H1. apply (later_trans _ _ _ H1). destruct (negb known); [auto with goal_runtime|]. destruct (negb _); [auto with goal_runtime|].
  apply (later_trans _ (if bool_decide (ty = "session.status") then on_status timing now id ps r1 else r1));
    [|destruct (bool_decide (ty = "session.updated")); [|apply later_refl]].
  - case_bool_decide; [|auto with goal_runtime]. unfold on_status. destruct (obj_field _ _) as [[]|]; auto with goal_runtime.
    case_bool_decide; [auto with goal_runtime|]. destruct (_ || _); auto with goal_runtime.
  - destruct (match obj_field "info" ps with Some (JObj f) => _ | _ => None end) as [[]|]; auto with goal_runtime.
    destruct (falsy _); [apply later_updated|auto with goal_runtime].
Qed.

Lemma later_finish now i t r : later r (finish now i t r).
Proof.
  unfold finish. cbn zeta. eapply later_trans; [apply (later_same r (set_pending (delete (t_id t) (pending r)) (set_ticks (inFlight r ∖ {[t_id t]}) (delete i (ticks r)) r))); done|].
  change (pending (set_ticks (inFlight r ∖ {[t_id t]}) (delete i (ticks r)) r)) with (pending r).
  destruct (pending r !! t_id t); [|auto with goal_runtime]. destruct (_ && _); auto with goal_runtime.
Qed.

Lemma later_foldl now l r : later r (foldl (reconcile_one timing now) r l).
Proof.
  revert r. induction l as [|item l IH]; intros r; [apply later_refl|]. cbn. eapply later_trans; [|apply IH]. unfold reconcile_one.
  destruct (obj_field "id" _) as [[| | |id| |]|]; auto with goal_runtime. destruct (negb _); [auto with goal_runtime|].
  match goal with |- context [remember id ?x r] => pose proof (later_remember id x r) as H1; destruct (remember id x r) as [r1 known] end.
  cbn [fst] in H1. apply (later_trans _ _ _ H1). destruct (negb known); [auto with goal_runtime|].
  destruct (getSessionGoal _ now); [|auto with goal_runtime]. destruct (_ || _); auto with goal_runtime.
Qed.

Lemma later_tickSettles now i t res r : later r (tickSettles timing now i t res r).
Proof.
  unfold tickSettles. destruct res as [res|]; [|apply later_finish]. destruct (negb _); [apply later_finish|].
  destruct res; try apply later_finish; [|by apply later_same]. destruct (retried reason); [|apply later_finish].
  eapply later_trans; [apply later_arm|apply later_finish].
Qed.

Lemma step_later now ev r r' : step timing now ev r = Some r' -> later r r'.
Proof.
  destruct ev as [d ty ps| |b| |l|id|i res|]; cbn [step]; intros Hstep.
  - injection Hstep as <-. apply later_onEvent.
  - destruct (stopped r) eqn:E; [done|]. injection Hstep as <-. unfold reconcile. destruct (_ || _); by apply later_same.
  - injection Hstep as <-. by apply later_same.
  - injection Hstep as <-. unfold settingsChanged, reconcile. destruct (stopped r) eqn:E; [apply later_refl|].
    destruct (enabled r); cbn [orb negb]; [by apply later_same|].
    induction (map_to_list (directories r)) as [|kv l IH]; [apply later_refl|]. cbn. eapply later_trans; [exact IH|apply later_invalidate].
  - destruct (reconciling r); [done|]. injection Hstep as <-. unfold reconciled. cbn zeta.
    eapply later_trans; [apply (later_same r (set_reconciling (pred (reconciling r)) r)); done|].
    destruct (stopped _); [apply later_refl|]. destruct l as [[]|]; try apply later_refl. apply later_foldl.
  - destruct (timers r !! id); [|done]. destruct (_ <=? now); [|done]. injection Hstep as <-. apply later_same;
      unfold tick; destruct (_ || _); try done; case_bool_decide; try done; destruct (directories _ !! id); try done; by case_bool_decide.
  - destruct (ticks r !! i) as [t|]; [|done]. injection Hstep as <-. destruct (t_phase t); [apply later_tickSettles|apply later_finish].
  - injection Hstep as <-. by left.
Qed.

Lemma revoked_later r r' t : later r r' -> revoked r t -> revoked r' t.
Proof.
  intros [H|(Hs & Hs' & Hm)] [H'|[H1 H2]]; try (by left); [congruence|]. right. destruct (Hm (t_id t)) as [? ?]. split; [lia|].
  intros g Hg. specialize (H2 g Hg). lia.
Qed.

Lemma run_later evs r r' : run timing evs r = Some r' -> later r r'.
Proof.
  revert r. induction evs as [|[now ev] evs IH]; intros r; cbn; [intros [= <-]; apply later_refl|].
  destruct (step timing now ev r) as [r1|] eqn:E; [|done]. intros Hr. eapply later_trans; [by eapply step_later|by apply IH].
Qed.

Lemma invalidate_revokes r t : Books r -> t ∈ ticks r -> revoked (invalidate_both (t_id t) r) t.
Proof.
  intros [] Ht. destruct (b_generation0 t Ht) as [|Hg]; [by left|]. destruct (stopped r) eqn:Hs; [by left|]. right. split.
  - apply Z.lt_le_trans with (generation (bump (t_id t) r) (t_id t)); [|apply Z.le_refl].
    rewrite generation_bump, decide_True by done. lia.
  - intros g Hph. unfold invalidate_both. rewrite exchangeGeneration_bump, decide_True by done.
    destruct (b_exchange0 t g Ht Hph) as [|Hx]; [congruence|]. unfold exchangeGeneration in *. cbn. lia.
Qed.

(** The tick is among those of the runtime, and its fences are those of the runtime. *)
Lemma books_same r r' t : ticks r' = ticks r -> generations r' = generations r -> exchangeGenerations r' = exchangeGenerations r ->
  stopped r' = stopped r -> Books r -> t ∈ ticks r -> revoked (invalidate_both (t_id t) r') t.
Proof.
  intros Et Eg Ex Es [] Ht. unfold revoked. cbn [invalidate_both invalidateExchange invalidate clear set_exchangeGenerations set_timers set_pending bump set_generations stopped].
  rewrite Es. destruct (b_generation0 t Ht) as [|Hg]; [by left|]. destruct (stopped r) eqn:Hs; [by left|]. right. split.
  - apply Z.lt_le_trans with (generation (bump (t_id t) r') (t_id t)); [|apply Z.le_refl].
    rewrite generation_bump, decide_True by done. unfold generation in *. rewrite Eg. lia.
  - intros g Hph. change (g < exchangeGeneration (invalidateExchange (t_id t) (invalidate (t_id t) r')) (t_id t)).
    rewrite exchangeGeneration_bump, decide_True by done.
    destruct (b_exchange0 t g Ht Hph) as [|Hx]; [congruence|]. unfold exchangeGeneration in *. cbn. rewrite Ex. lia.
Qed.

Lemma event_revokes now d ty ps r t : Books r -> t ∈ ticks r -> ends now (Feed d ty ps) r (t_id t) = true ->
  revoked (onEvent timing now d ty ps r) t.
Proof.
  intros HB Ht. cbn [ends]. cbn zeta. intros [He H]%andb_true_iff. apply bool_decide_eq_true_1 in He. unfold onEvent.
  destruct (stopped r) eqn:Hs; [by left|]. unfold event_session in He. destruct (nullish _ _) as [[| | |id| |]|]; try done.
  revert He. destruct (bool_decide (id = "")); [done|]. intros [= ->].
  destruct (bool_decide (ty = "session.deleted")) eqn:Hty; cbn [orb] in H.
  { eapply revoked_later; [|by apply (invalidate_revokes r)]. by apply later_same. }
  cbn zeta. change (match obj_field "info" ps with Some (JObj f) => Some (JObj f) | _ => None end) with (event_info ps).
  pose proof (remember_spec (t_id t) (nullish d (obj_field "directory" (event_info ps))) r) as Hr.
  destruct (remember _ _ r) as [r1 known]. cbn [snd] in H. destruct Hr as (_ & _ & Eg & Ex & _ & Es & Ee & Et & _).
  apply andb_true_iff in H as [-> H]. cbn [negb]. rewrite Ee.
  assert (revoked (invalidate_both (t_id t) r1) t) as Hrev by by eapply books_same.
  destruct (negb (enabled r)); [done|]. cbn [orb] in H.
  set (r2 := if bool_decide (ty = "session.status") then _ else r1).
  assert (later r2 (match bool_decide (ty = "session.updated"), event_info ps with
    | true, Some (JObj _) => if falsy (obj_field "parentID" (event_info ps)) then on_updated timing now (t_id t) (event_info ps) r2 else r2
    | _, _ => r2 end)) as Hl.
  { destruct (bool_decide (ty = "session.updated")); [|apply later_refl]. destruct (event_info ps) as [[]|]; try apply later_refl.
    destruct (falsy _); [|apply later_refl]. apply later_updated. }
  apply orb_true_iff in H as [H|H].
  - apply andb_true_iff in H as [H1 H2]. eapply revoked_later; [exact Hl|]. subst r2. rewrite H1. unfold on_status.
    unfold is_str in H2. destruct (obj_field "type" _) as [[| | |ty2| |]|]; try done.
    rewrite bool_decide_false by (intros ->; by vm_compute in H2). by rewrite H2.
  - clear Hl. apply andb_true_iff in H as [[[H1 H2]%andb_true_iff H3]%andb_true_iff H4].
    apply bool_decide_eq_true_1 in H1. subst ty. subst r2. change (bool_decide ("session.updated" = "session.status")) with false.
    change (bool_decide ("session.updated" = "session.updated")) with true. cbn iota.
    destruct (event_info ps) as [v|] eqn:Ei; [|done]. assert (exists f, v = JObj f) as [f ->].
    { unfold event_info in Ei. destruct (obj_field "info" ps) as [[]|]; try done. injection Ei as <-. by eexists. }
    rewrite H3. unfold on_updated. destruct (getSessionGoal _ now); [by rewrite H4|done].
Qed.

Lemma settings_revoke r t : Books r -> t ∈ ticks r -> enabled r = false -> is_Some (directories r !! t_id t) -> revoked (settingsChanged r) t.
Proof.
  intros HB Ht He [d Hd]. unfold settingsChanged. destruct (stopped r) eqn:Hs; [by left|]. rewrite He.
  apply elem_of_map_to_list in Hd. induction (map_to_list (directories r)) as [|kv l IH]; [by apply elem_of_nil in Hd|]. cbn [foldr].
  apply elem_of_cons in Hd as [<-|Hd]; [|eapply revoked_later; [apply later_invalidate|auto]]. cbn [fst].
  clear IH. assert (Books (foldr (fun kv r => invalidate_both kv.1 r) r l) /\ ticks (foldr (fun kv r => invalidate_both kv.1 r) r l) = ticks r) as [HB' Et].
  { induction l as [|kv l [IH1 IH2]]; [done|]. cbn. split; [by apply invalidate_both_books|exact IH2]. }
  apply invalidate_revokes; [done|by rewrite Et].
Qed.

Lemma ends_revokes now ev r r' t : Books r -> t ∈ ticks r -> ends now ev r (t_id t) = true ->
  step timing now ev r = Some r' -> revoked r' t.
Proof.
  intros HB Ht He. destruct ev; cbn [step]; try done; intros [= <-].
  - by apply event_revokes.
  - cbn [ends] in He. apply andb_true_iff in He as [H1%negb_true_iff H2%bool_decide_eq_true_1]. by apply settings_revoke.
  - by left.
Qed.

Lemma revoked_fences r t : revoked r t ->
  stillCurrent r t = false /\ forall g, t_phase t = Exchanging g -> exchangeCurrent r t g = false.
Proof.
  unfold stillCurrent, exchangeCurrent. intros [->|[H1 H2]]; [done|]. split.
  - rewrite (bool_decide_false (t_generation t = _)) by lia. by rewrite andb_false_r.
  - intros g Hg. specialize (H2 g Hg). rewrite (bool_decide_false (g = _)) by lia. by rewrite andb_false_r.
Qed.

End fences.

(** What the fence of a tick, or of its exchange, may say from [r] on. *)
Definition fence_says (timing : GoalTiming) (r : Runtime) (t : Tick) (exchange b : bool) : Prop :=
  exists evs r', run timing evs r = Some r' /\
    b = if exchange then match t_phase t with Exchanging g => exchangeCurrent r' t g | Ticking => false end else stillCurrent r' t.


(** ** Wakeups *)

(** A tick of the session will start: its timer runs, or the tick under way arms it. *)
Definition promised (r : Runtime) (id : string) : Prop := is_Some (timers r !! id) \/ is_Some (pending r !! id).

Lemma promised_same r r' id : timers r' = timers r -> pending r' = pending r -> promised r id -> promised r' id.
Proof. intros Ht Hp. unfold promised. by rewrite Ht, Hp. Qed.

Lemma arm_promises now id d r : promised (arm now id d r) id.
Proof.
  unfold arm, defer, promised. case_bool_decide; [right; cbn; by rewrite lookup_insert_eq|]. left.
  destruct (timers r !! id) as [a|] eqn:E; [destruct (_ <=? _); [by rewrite E|]|]; cbn; by rewrite lookup_insert_eq.
Qed.

Lemma insert_is_Some {V} (m : gmap string V) k k' v : is_Some (m !! k) -> is_Some (<[k' := v]> m !! k).
Proof. intros H. destruct (decide (k = k')) as [->|Hne]; [by rewrite lookup_insert_eq|by rewrite lookup_insert_ne]. Qed.

Lemma arm_promised now k d r id : promised r id -> promised (arm now k d r) id.
Proof.
  unfold arm, defer, promised. intros [H|H]; case_bool_decide; cbn; try (by left); try (right; by apply insert_is_Some);
    destruct (timers r !! k) as [a|]; try destruct (_ <=? _); cbn; auto using insert_is_Some.
Qed.

Lemma invalidate_promised k r id : k <> id -> promised r id -> promised (invalidate_both k r) id.
Proof.
  intros Hne [H|H]; [left|right]; cbn; by rewrite lookup_delete_ne.
Qed.

Lemma remember_promised k d r id : promised r id -> promised (remember k d r).1 id.
Proof. pose proof (remember_spec k d r) as H. destruct (remember k d r). destruct H as (? & _ & _ & _ & ? & _). by apply promised_same. Qed.

Section wakeups.
  Context (timing : GoalTiming) (id : string).

Lemma onEvent_promised now d ty ps r : ends now (Feed d ty ps) r id = false -> promised r id -> promised (onEvent timing now d ty ps r) id.
Proof.
  cbn [ends]. cbn zeta. intros He HP. unfold onEvent. destruct (stopped r); [done|]. unfold event_session in He.
  destruct (nullish _ _) as [[| | |k| |]|]; try done. destruct (bool_decide (k = "")) eqn:Hk; [done|].
  destruct (bool_decide (ty = "session.deleted")) eqn:Hty.
  { apply (promised_same (invalidate_both k r)); [done..|]. apply invalidate_promised; [|done]. intros ->.
    rewrite bool_decide_true in He by done. done. }
  cbn zeta. change (match obj_field "info" ps with Some (JObj f) => Some (JObj f) | _ => None end) with (event_info ps).
  pose proof (remember_spec k (nullish d (obj_field "directory" (event_info ps))) r) as Hr.
  pose proof (remember_promised k (nullish d (obj_field "directory" (event_info ps))) r id HP) as HP1.
  assert (k = id -> (remember k (nullish d (obj_field "directory" (event_info ps))) r).2 = true ->
    enabled r = true /\ (bool_decide (ty = "session.status") && (is_str (obj_field "type" (obj_field "status" ps)) "busy"
                                 || is_str (obj_field "type" (obj_field "status" ps)) "retry") = false)
    /\ (bool_decide (ty = "session.updated") && match event_info ps with Some _ => true | None => false end
        && falsy (obj_field "parentID" (event_info ps))
        && match getSessionGoal (event_info ps) now with Some goal => negb (bool_decide (status goal = Active)) | None => true end = false)) as Hid.
  { intros -> Hkn. rewrite bool_decide_true, Hkn in He by done. cbn [andb orb] in He. apply orb_false_iff in He as [[He1 He2]%orb_false_iff He3].
    by apply negb_false_iff in He1. }
  destruct (remember k _ r) as [r1 known]. cbn [fst snd] in *. destruct Hr as (_ & _ & _ & _ & _ & _ & Ee & _ & _).
  destruct known; cbn [negb]; [|done]. rewrite Ee.
  destruct (enabled r) eqn:Hen; cbn [negb]; [|destruct (decide (k = id)) as [E|Hne]; [by destruct (Hid E eq_refl)|by apply invalidate_promised]].
  set (r2 := if bool_decide (ty = "session.status") then _ else r1).
  assert (promised r2 id) as HP2.
  { subst r2. destruct (bool_decide (ty = "session.status")); [|done]. unfold on_status. destruct (obj_field "type" _) as [[| | |ty2| |]|] eqn:Ety; try done.
    destruct (bool_decide (ty2 = "idle")); [by apply arm_promised|].
    destruct (bool_decide (ty2 = "busy") || bool_decide (ty2 = "retry")) eqn:Hb; [|done]. destruct (decide (k = id)) as [E|Hne]; [|by apply invalidate_promised].
    destruct (Hid E eq_refl) as (_ & H1 & _). unfold is_str in H1. cbn [andb] in H1. congruence. }
  destruct (bool_decide (ty = "session.updated")); [|done]. destruct (event_info ps) as [v|]; [|done]. destruct v; try done.
  destruct (falsy _); [|done]. unfold on_updated.
  assert (k = id -> match getSessionGoal (Some (JObj fields)) now with Some goal => negb (bool_decide (status goal = Active)) | None => true end = false) as Hg.
  { intros E. by destruct (Hid E eq_refl) as (_ & _ & H1). }
  destruct (getSessionGoal _ now) as [g|]; [|apply invalidate_promised; [intros E; by specialize (Hg E)|done]].
  destruct (negb (bool_decide (status g = Active))); [apply invalidate_promised; [intros E; by specialize (Hg E)|done]|].
  destruct (bool_decide (k ∈ inFlight r2)); [by apply arm_promised|]. destruct (bool_decide (statusReason g = resumed)); [by apply arm_promised|].
  destruct (turnsUsed g =? 0); [by apply arm_promised|done].
Qed.

Lemma finish_promised now i t r : Books r -> ticks r !! i = Some t -> promised r id -> promised (finish now i t r) id.
Proof.
  intros HB Hi HP. destruct (ticks_lookup r i t HB Hi) as [Hin _]. unfold finish. cbn zeta.
  change (pending (set_ticks (inFlight r ∖ {[t_id t]}) (delete i (ticks r)) r)) with (pending r).
  destruct (decide (t_id t = id)) as [E|Hne].
  - assert (is_Some (pending r !! id)) as [w Hw].
    { destruct HP as [[a Ha]|]; [|done]. rewrite <- E, (b_idle r HB) in Ha by done. done. }
    pose proof (b_waiting r HB id (ex_intro _ w Hw)) as Hd. rewrite E, Hw.
    destruct (stopped r) eqn:Hs; [destruct (b_stopped r HB Hs) as (_ & Hp & _); by rewrite Hp in Hw|].
    cbn [set_pending set_ticks stopped directories]. rewrite Hs, bool_decide_true by done. cbn [negb andb]. apply arm_promises.
  - set (r1 := set_pending _ (set_ticks _ _ r)).
    assert (promised r1 id) as HP1 by (destruct HP as [H|H]; [by left|right; cbn; by rewrite lookup_delete_ne]).
    destruct (pending r !! t_id t); [|done]. destruct (_ && _); [by apply arm_promised|done].
Qed.

Lemma foldl_promised now l r : promised r id -> promised (foldl (reconcile_one timing now) r l) id.
Proof.
  revert r. induction l as [|item l IH]; intros r HP; [done|]. cbn. apply IH. unfold reconcile_one.
  destruct (obj_field "id" _) as [[| | |k| |]|]; try done. destruct (negb _); [done|].
  match goal with |- context [remember k ?x r] => pose proof (remember_promised k x r id HP) as H1; destruct (remember k x r) as [r1 known] end.
  destruct (negb known); [done|]. destruct (getSessionGoal _ now); [|done]. destruct (_ || _); [done|by apply arm_promised].
Qed.

Lemma settings_promised r : Books r -> ends 0 SettingsChanged r id = false -> promised r id -> promised (settingsChanged r) id.
Proof.
  intros HB He HP. unfold settingsChanged, reconcile. destruct (stopped r); [done|]. cbn [ends] in He. destruct (enabled r); cbn [negb orb andb] in *; [done|].
  apply bool_decide_eq_false_1 in He.
  assert (is_Some (directories r !! id)) as Hd by (destruct HP; [by apply b_known|by apply b_waiting]). done.
Qed.

Lemma step_promised now ev r r' : Books r -> step timing now ev r = Some r' -> ends now ev r id = false ->
  ev <> Fires id -> promised r id -> promised r' id.
Proof.
  intros HB Hstep He Hf HP. destruct ev as [d ty ps| |b| |l|k|i res|]; cbn [step] in Hstep.
  - injection Hstep as <-. by apply onEvent_promised.
  - unfold reconcile in Hstep. destruct (stopped r); [done|]. injection Hstep as <-. by destruct (enabled r).
  - by injection Hstep as <-.
  - injection Hstep as <-. by apply settings_promised.
  - destruct (reconciling r); [done|]. injection Hstep as <-. unfold reconciled. cbn zeta. destruct (stopped _); [done|].
    destruct l as [[]|]; try done. by apply foldl_promised.
  - destruct (timers r !! k) as [a|] eqn:Ea; [|done]. destruct (_ <=? now); [|done]. injection Hstep as <-.
    assert (k <> id) as Hne by congruence. unfold promised in *.
    assert (is_Some (timers (clear k r) !! id) \/ is_Some (pending (clear k r) !! id)) as HP1
      by (destruct HP; [left; cbn; by rewrite lookup_delete_ne|by right]).
    unfold tick. destruct (_ || _); [done|]. case_bool_decide; [destruct HP1; [by left|right; by apply insert_is_Some]|].
    destruct (directories _ !! k); [|done]. by case_bool_decide.
  - destruct (ticks r !! i) as [t|] eqn:Hi; [|done]. injection Hstep as <-. destruct (t_phase t); [|by apply finish_promised].
    unfold tickSettles. destruct res as [res|]; [|by apply finish_promised]. destruct (stillCurrent r t) eqn:Ec; cbn [negb]; [|by apply finish_promised].
    destruct res as [reason| | |]; try (by apply finish_promised); [|done]. destruct (retried reason); [|by apply finish_promised].
    apply stillCurrent_known in Ec as [? ?]. apply finish_promised; [by apply arm_books|by rewrite arm_ticks|by apply arm_promised].
  - done.
Qed.

(** Nothing ends the session and its timer has not run. *)
Fixpoint undisturbed (evs : list (Z * Event)) (r : Runtime) : bool :=
  match evs with
  | [] => true
  | (now, ev) :: evs =>
    negb (ends now ev r id) && negb match ev with Fires k => bool_decide (k = id) | _ => false end
    && match step timing now ev r with Some r' => undisturbed evs r' | None => false end
  end.

Lemma run_promised evs r r' : Books r -> run timing evs r = Some r' -> undisturbed evs r = true -> promised r id -> promised r' id.
Proof.
  revert r. induction evs as [|[now ev] evs IH]; intros r HB; cbn [run undisturbed]; [by intros [= <-]|].
  destruct (step timing now ev r) as [r1|] eqn:E; [|done]. intros Hr [[H1%negb_true_iff H2%negb_true_iff]%andb_true_iff H3]%andb_true_iff HP.
  apply (IH r1); [by eapply step_books|done|done|]. eapply step_promised; [done|done|done| |done].
  intros ->. by rewrite bool_decide_true in H2.
Qed.

End wakeups.

(** C17. No wakeup is lost: when a session the runtime knows turns idle, then however many
    events follow, as long as none of them ends the session, either its timer runs, until
    it fires, or a tick of the session is under way and will arm the timer when it settles. *)
Theorem wakeups_are_not_lost timing gate before r now d ps id evs r' :
  run timing before (newRuntime gate) = Some r -> stopped r = false -> enabled r = true ->
  event_session ps = Some id -> is_Some (directories r !! id) -> obj_field "type" (obj_field "status" ps) = Some (JStr "idle") ->
  run timing evs (onEvent timing now d "session.status" ps r) = Some r' ->
  undisturbed timing id evs (onEvent timing now d "session.status" ps r) = true ->
  is_Some (timers r' !! id) \/ (is_Some (pending r' !! id) /\ id ∈ t_id <$> ticks r').
Proof.
  intros Hr Hs He Hid Hd Hidle Hr' Hu. pose proof (run_books timing _ _ _ Hr (newRuntime_books gate)) as HB.
  pose proof (onEvent_books timing now d "session.status" ps r HB) as HB1.
  assert (promised (onEvent timing now d "session.status" ps r) id) as HP.
  { unfold onEvent. rewrite Hs. unfold event_session in Hid. destruct (nullish _ _) as [[| | |k| |]|]; try done.
    destruct (bool_decide (k = "")); [done|]. injection Hid as ->. change (bool_decide ("session.status" = "session.deleted")) with false. cbn iota zeta.
    match goal with |- context [remember id ?x r] => pose proof (remember_spec id x r) as Hm; assert (is_Some (directories (remember id x r).1 !! id)) as Hd1 end.
    { unfold remember. destruct (nullish _ _) as [[| | |s| |]|]; try done. case_bool_decide; [done|]. cbn. by apply insert_is_Some. }
    destruct (remember id _ r) as [r1 known]. destruct Hm as (_ & _ & _ & _ & _ & _ & Ee & _ & Hk). cbn [fst] in Hd1. apply Hk in Hd1. rewrite Hd1, Ee, He. cbn [negb].
    change (bool_decide ("session.status" = "session.updated")) with false. change (bool_decide ("session.status" = "session.status")) with true. cbn iota.
    unfold on_status. rewrite Hidle. apply arm_promises. }
  destruct (run_promised timing id _ _ _ HB1 Hr' Hu HP) as [H|H]; [by left|right]. split; [done|].
  pose proof (run_books timing _ _ _ Hr' HB1) as HB2. destruct (decide (id ∈ inFlight r')) as [Hin|Hn].
  - rewrite (b_ticks r' HB2) in Hin. by apply elem_of_list_to_set in Hin.
  - destruct H as [w Hw]. rewrite (b_pending r' HB2 id Hn) in Hw. done.
Qed.

(** ** Runs *)

#[local] Abbreviation turns_to s := (Feed (Some (JStr "/work")) "session.status"
  (Some (JObj [("sessionID", JStr "ses_1"); ("status", JObj [("type", JStr s)])]))).
#[local] Abbreviation ready0 := (mkReady (buildGoalPayload {| i_objective := "ship it"; i_objectiveFile := false;
  i_objectiveFileKey := None; i_tokenBudget := None |} 1000 "rs0123456789abcdef") "ship it" "done so far" "m1" true).
#[local] Abbreviation after evs r := (default r (run DEFAULT_TIMING evs r)).
#[local] Abbreviation waiting := [(0, turns_to "idle"); (15000, Fires "ses_1")].
#[local] Abbreviation exchanging := (waiting ++ [(16000, Settles 0 (Some (TReady ready0)))]).

Lemma one_tick_per_session_witness :
  let r := after exchanging (newRuntime true) in
  t_id <$> ticks r = ["ses_1"] /\ NoDup (t_id <$> ticks r).
Proof.
  intros r. split; [vm_compute; reflexivity|].
  exact (proj1 (one_tick_per_session DEFAULT_TIMING true exchanging r ltac:(vm_compute; reflexivity))).
Defined.


(** The session turns idle while a tick of it is under way, which then finds it busy. *)
Lemma wakeups_are_not_lost_witness :
  let r := after waiting (newRuntime true) in
  let r' := after [(15500, turns_to "idle"); (16000, Settles 0 (Some (TWait "session busy")))] r in
  timers r !! "ses_1" = None /\ is_Some (timers r' !! "ses_1").
Proof.
  intros r r'. split; [vm_compute; reflexivity|].
  destruct (wakeups_are_not_lost DEFAULT_TIMING true waiting r 15500 (Some (JStr "/work"))
    (Some (JObj [("sessionID", JStr "ses_1"); ("status", JObj [("type", JStr "idle")])])) "ses_1"
    [(16000, Settles 0 (Some (TWait "session busy")))] r'
    ltac:(vm_compute; reflexivity) eq_refl eq_refl eq_refl ltac:(by eexists) eq_refl ltac:(vm_compute; reflexivity) ltac:(vm_compute; reflexivity))
    as [H|[H _]]; [exact H|]. exfalso. destruct H as [w Hw]. vm_compute in Hw. discriminate Hw.
Defined.
