(* ===== verification/GoalLoop.v ===== *)
(** The loop of a goal against the harness: any number of ticks and exchanges, of any
    number of server processes, interleaved call by call with each other, with the user
    and with the harness. The harness is the one of GoalHarness; what it stores and
    answers is its compare-and-swap.

    The proofs use a program logic over call trees: [wp m seen held Q], with the session
    records the program has [seen] and the number of continuation slots it has consumed
    and not yet used ([held]). *)

From S2P Require Import Prelude CallTree JsString JsMap JsValue GoalPayload GoalState GoalHarness GoalEvidence GoalAudit GoalExchange.

Local Open Scope Z_scope.
Local Open Scope io_scope.

(** ** What a program may do *)

(** A write changes none of the user's members. *)
Definition kept (new old : GoalPayload) : Prop :=
  id new = id old /\ objective new = objective old /\ objectiveFile new = objectiveFile old
  /\ tokenBudget new = tokenBudget old /\ createdAt new = createdAt old
  /\ (forall k, objectiveFileKey new = Some k -> objectiveFileKey old = Some k).

(** The body is a write over an active goal [g0] that a record showed. *)
Definition put_over (b : GoalBody) (seen : list (option json)) (g0 : GoalPayload) : Prop :=
  exists rec now, rec ∈ seen /\ readGoalRevision rec = Some (expected_revision b) /\ getSessionGoal rec now = Some g0
    /\ expected_id b = Some (id g0) /\ status g0 = Active /\ kept (b_goal b) g0.

(** The effect of an answer on the slots: a write that keeps the count, consumes a slot or
    gives one back; a prompt uses one. *)
Definition put_pre (b : GoalBody) (seen : list (option json)) (held : nat) (K : nat -> option (bool * option json) -> Prop) : Prop :=
  exists g0, put_over b seen g0 /\
    ((turnsUsed (b_goal b) = turnsUsed g0 /\ forall r, K held r)
     \/ (turnsUsed (b_goal b) = turnsUsed g0 + 1 /\ turnsUsed g0 < MAX_AUTO_TURNS
         /\ forall r, K (match r with Some a => if write_confirmed b a then S held else held | None => held end) r)
     \/ (turnsUsed (b_goal b) + 1 = turnsUsed g0 /\ exists h, held = S h /\ forall r, K h r)).

Definition port_pre (p : port) (seen : list (option json)) (held : nat)
    : (list (option json) -> nat -> option (reply p) -> Prop) -> Prop :=
  match p return (list (option json) -> nat -> option (reply p) -> Prop) -> Prop with
  | ReadSession _ _ => fun K => forall r, K match r with Some rec => rec :: seen | None => seen end held r
  | PutGoal _ _ b => fun K => put_pre b seen held (K seen)
  | PostPrompt _ _ _ => fun K => exists h, held = S h /\ forall r, K seen h r
  | Clock => fun K => forall now : Z, K seen held (Some now)
  | IsCurrent _ => fun K => forall b : bool, K seen held (Some b)
  | _ => fun K => forall r, K seen held r
  end.

Lemma port_pre_mono p seen held (K K' : list (option json) -> nat -> option (reply p) -> Prop) :
  (forall seen' held' r, K seen' held' r -> K' seen' held' r) -> port_pre p seen held K -> port_pre p seen held K'.
Proof.
  intros H. destruct p; cbn; try (intros HK r; by apply H).
  - intros (g0 & Hp & HK). exists g0. split; [done|]. destruct HK as [[? ?]|[(? & ? & ?)|(? & h & ? & ?)]]; [left|right; left|right; right].
    + split; auto.
    + split_and!; auto.
    + split; [done|]. exists h. auto.
  - intros (h & ? & HK). exists h. auto.
Qed.

Definition pre (p : port) (s : list (option json) * nat) (K : list (option json) * nat -> option (reply p) -> Prop) : Prop :=
  port_pre p s.1 s.2 (fun seen held r => K (seen, held) r).

(** The weakest precondition of CallTree over the records seen and the slots held. *)
Definition wp {A} (m : io A) (seen : list (option json)) (held : nat) (Q : list (option json) -> nat -> exc fault A -> Prop) : Prop :=
  CallTree.wp pre m (seen, held) (fun s r => Q s.1 s.2 r).

Lemma pre_mono p s (K K' : list (option json) * nat -> option (reply p) -> Prop) :
  (forall s r, K s r -> K' s r) -> pre p s K -> pre p s K'.
Proof. intros H. apply port_pre_mono. intros seen held r. apply H. Qed.

Lemma wp_mono {A} (m : io A) seen held (Q Q' : list (option json) -> nat -> exc fault A -> Prop) :
  (forall seen' held' r, Q seen' held' r -> Q' seen' held' r) -> wp m seen held Q -> wp m seen held Q'.
Proof. intros HQ. apply (CallTree.tree_mono _ pre_mono). intros [seen' held'] r. apply HQ. Qed.

Lemma wp_bind {A B} (m : io A) (f : A -> io B) seen held Q :
  wp m seen held (fun seen held r => match r with Ok a => wp (f a) seen held Q | Throw e => Q seen held (Throw e) end) ->
  wp (io_bind m f) seen held Q.
Proof. intros H. apply (CallTree.tree_bind _ pre_mono). revert H. apply (CallTree.tree_mono _ pre_mono). intros [seen' held'] [a|e]; done. Qed.

Lemma wp_catch {A} (m : io A) (h : fault -> io A) seen held Q :
  wp m seen held (fun seen held r => match r with Ok a => Q seen held (Ok a) | Throw e => wp (h e) seen held Q end) ->
  wp (catch m h) seen held Q.
Proof. intros H. apply (CallTree.tree_catch _ pre_mono). revert H. apply (CallTree.tree_mono _ pre_mono). intros [seen' held'] [a|e]; done. Qed.

Lemma wp_ret {A} (a : A) seen held Q : Q seen held (Ok a) -> wp (Ret a) seen held Q.
Proof. done. Qed.

Lemma wp_fail {A} e seen held (Q : list (option json) -> nat -> exc fault A -> Prop) : Q seen held (Throw e) -> wp (Fail e) seen held Q.
Proof. done. Qed.

(** The clock and the fence are local. *)
Lemma wp_clock {A} (k : Z -> io A) seen held Q : (forall now, wp (k now) seen held Q) -> wp (let! now := call Clock in k now) seen held Q.
Proof. intros H now. apply H. Qed.

Lemma wp_current {A} (k : bool -> io A) b seen held Q : (forall c, wp (k c) seen held Q) -> wp (let! c := call (IsCurrent b) in k c) seen held Q.
Proof. intros H c. apply H. Qed.

(** Calls whose answer says nothing the logic records. *)
Definition quiet {A} (m : io A) : Prop := forall seen held Q, (forall r, Q seen held r) -> wp m seen held Q.

Lemma quiet_ret {A} (a : A) : quiet (Ret a).
Proof. intros seen held Q H. apply H. Qed.

Lemma quiet_bind {A B} (m : io A) (f : A -> io B) : quiet m -> (forall a, quiet (f a)) -> quiet (io_bind m f).
Proof. intros Hm Hf seen held Q H. apply wp_bind, Hm. intros [a|e]; [by apply Hf|done]. Qed.

Lemma quiet_catch {A} (m : io A) h : quiet m -> (forall e, quiet (h e)) -> quiet (catch m h).
Proof. intros Hm Hh seen held Q H. apply wp_catch, Hm. intros [a|e]; [done|by apply Hh]. Qed.

(** The calls that read no session, write nothing and send nothing. *)
Definition is_quiet (p : port) : bool :=
  match p with ReadSession _ _ | PutGoal _ _ _ | PostPrompt _ _ _ => false | _ => true end.

Lemma quiet_call p : is_quiet p = true -> quiet (call p).
Proof. intros Hp seen held Q H. destruct p; try done; first [intros [a|]; apply H|intros a; apply H]. Qed.

Ltac by_quiet := match goal with |- quiet (call ?p) => exact (quiet_call p eq_refl) end.

Lemma quiet_sessionGoal rec : quiet (sessionGoal rec).
Proof. apply quiet_bind; [by_quiet|]. intros now. apply quiet_ret. Qed.

(** ** The clock and the parser *)

Definition set_updated (g : GoalPayload) (u : Z) : GoalPayload :=
  set_loop g (status g) (statusReason g) (turnsUsed g) (blockedStreak g) (auditFailStreak g) (note g) u.

Lemma parse_clock raw n1 n2 g : parseGoalPayload raw n1 = Some g -> exists u, parseGoalPayload raw n2 = Some (set_updated g u).
Proof.
  unfold parseGoalPayload. destruct raw as [[]|]; try done. destruct (jfield "id" _) as [[]|]; try done.
  case_bool_decide; [done|]. destruct (parseStatus _); [|done]. destruct (_ && _); [done|]. intros [= <-]. by eexists.
Qed.

Lemma session_clock rec n1 n2 g : getSessionGoal rec n1 = Some g -> exists u, getSessionGoal rec n2 = Some (set_updated g u).
Proof.
  unfold getSessionGoal. destruct (opt_field _ rec) as [[]|]; try done. destruct (jfield _ _) as [[]|]; try done. apply parse_clock.
Qed.

Lemma kept_refl g : kept g g.
Proof. by repeat split. Qed.

Lemma kept_trans g1 g2 g3 : kept g1 g2 -> kept g2 g3 -> kept g1 g3.
Proof. unfold kept. intros (-> & -> & -> & -> & -> & H) (-> & -> & -> & -> & -> & H'). split_and!; auto. Qed.

Lemma kept_user g g' : user_owned g' = user_owned g -> kept g' g.
Proof. unfold user_owned, kept. intros [= -> -> -> -> -> ->]. by split_and!. Qed.

Lemma kept_drift current basis : accountingDrift current basis = false -> kept basis current /\ turnsUsed basis = turnsUsed current.
Proof. intros (? & ? & ? & ? & ? & ? & ? & ?)%drift_false. by repeat split. Qed.

(** ** The ports of the loop in the logic *)

Abbreviation post A := (list (option json) -> nat -> exc fault A -> Prop).

(** What the programs rely on of a set of ports. *)
Class PortSpec (ports : SafetyPorts) : Prop := {
  ps_read sid dir seen held (Q : post (option json)) :
    (forall rec, Q (rec :: seen) held (Ok rec)) -> (forall e, Q seen held (Throw e)) -> wp (readSession ports sid dir) seen held Q;
  ps_objective g sid : quiet (readObjective ports g sid);
  ps_status dir : quiet (readStatus ports dir);
  ps_children sid dir : quiet (readChildren ports sid dir);
  ps_messages sid dir limit : quiet (readMessages ports sid dir limit);
  ps_evidence sid dir : quiet (readEvidence ports sid dir);
  ps_write sid dir b g0 seen held (Q : post bool) :
    put_over b seen g0 -> turnsUsed (b_goal b) = turnsUsed g0 -> (forall r, Q seen held r) -> wp (writeGoal ports sid dir b) seen held Q;
  ps_slot sid dir b g0 seen held (Q : post bool) :
    put_over b seen g0 -> turnsUsed (b_goal b) = turnsUsed g0 + 1 -> turnsUsed g0 < MAX_AUTO_TURNS ->
    Q seen (S held) (Ok true) -> (forall r, r <> Ok true -> Q seen held r) -> wp (writeGoal ports sid dir b) seen held Q;
  ps_restore sid dir b g0 seen held (Q : post bool) :
    put_over b seen g0 -> turnsUsed (b_goal b) + 1 = turnsUsed g0 -> (forall n r, Q seen n r) ->
    wp (writeGoal ports sid dir b) seen (S held) Q }.

#[export] Instance real_ports : PortSpec createNnaGoalSafetyPorts.
Proof.
  split; cbn [createNnaGoalSafetyPorts readSession readObjective readStatus readChildren readMessages readEvidence writeGoal];
    try (intros; by_quiet).
  - intros sid dir seen held Q HQ HT. intros [rec|]; [apply HQ|apply HT].
  - intros g sid. destruct (objectiveFile g); cbn [negb]; [|apply quiet_ret].
    apply quiet_catch; [|intros; apply quiet_ret]. apply quiet_bind; [by_quiet|intros; apply quiet_ret].
  - intros sid dir b g0 seen held Q Hp Ht HQ. exists g0. split; [done|]. left. split; [done|]. intros [a|]; apply HQ.
  - intros sid dir b g0 seen held Q Hp Ht Hl HS HQ. exists g0. split; [done|]. right; left. split_and!; [done|done|].
    intros [a|]; cbn; [|by apply HQ]. destruct (write_confirmed b a); [done|by apply HQ].
  - intros sid dir b g0 seen held Q Hp Ht HQ. exists g0. split; [done|]. right; right. split; [done|]. exists held.
    split; [done|]. intros [a|]; apply HQ.
Qed.

(** A fence on the writes of a set of ports. *)
Lemma fenced ports write : PortSpec ports ->
  (forall sid dir b g0 seen held (Q : post bool), put_over b seen g0 -> turnsUsed (b_goal b) = turnsUsed g0 ->
     (forall r, Q seen held r) -> wp (write sid dir b) seen held Q) ->
  (forall sid dir b g0 seen held (Q : post bool), put_over b seen g0 -> turnsUsed (b_goal b) = turnsUsed g0 + 1 ->
     turnsUsed g0 < MAX_AUTO_TURNS -> Q seen (S held) (Ok true) -> (forall r, r <> Ok true -> Q seen held r) ->
     wp (write sid dir b) seen held Q) ->
  (forall sid dir b g0 seen held (Q : post bool), put_over b seen g0 -> turnsUsed (b_goal b) + 1 = turnsUsed g0 ->
     (forall n r, Q seen n r) -> wp (write sid dir b) seen (S held) Q) ->
  PortSpec (set_write ports write).
Proof. intros [] H1 H2 H3. by split. Qed.

#[export] Instance tick_ports : PortSpec (guardTickPorts createNnaGoalSafetyPorts).
Proof.
  apply fenced; [apply real_ports|..]; intros; apply wp_current; (intros []; [|first [apply wp_ret|apply wp_fail]; by auto]).
  - by eapply ps_write.
  - by eapply ps_slot.
  - by eapply ps_restore.
Qed.

(** What a write is over, in a program that has read the record. *)
Lemma put_over_intro next rec seen now n2 g0 w :
  rec ∈ seen -> getSessionGoal rec now = Some g0 -> status g0 = Active -> kept next g0 ->
  buildGoalWrite rec next n2 = Some w -> put_over w.1 seen g0 /\ b_goal w.1 = next
    /\ exists u, w.2 = Some (set_updated g0 u).
Proof.
  intros Hin Hg Ha Hk. rewrite buildGoalWrite_eq. destruct (readGoalRevision rec) as [r|] eqn:Hr; [|done]. intros [= <-].
  destruct (session_clock rec now n2 g0 Hg) as [u Hu]. rewrite Hu. cbn. split_and!; [|done|by exists u].
  exists rec, now. by split_and!.
Qed.

Lemma quiet_intro {A} (m : io A) seen held (Q : post A) : quiet m -> (forall r, Q seen held r) -> wp m seen held Q.
Proof. intros H. apply H. Qed.

Section writes.
  Context (ports : SafetyPorts) `{!PortSpec ports}.

Lemma wp_sessionGoal rec seen held (Q : post (option GoalPayload)) :
  (forall now, Q seen held (Ok (getSessionGoal rec now))) -> wp (sessionGoal rec) seen held Q.
Proof. intros H. apply wp_clock. intros now. apply H. Qed.

Lemma wp_goalWrite rec next seen held (Q : post (GoalBody * option GoalPayload)) :
  (forall now w, buildGoalWrite rec next now = Some w -> Q seen held (Ok w)) -> (forall e, Q seen held (Throw e)) ->
  wp (goalWrite rec next) seen held Q.
Proof. intros H HT. apply wp_clock. intros now. destruct (buildGoalWrite rec next now) eqn:E; [by apply (H now)|apply HT]. Qed.

(** A candidate that keeps the count. *)
Lemma wp_write_same sid dir rec next seen held now g0 (Q : post WriteOutcome) :
  rec ∈ seen -> getSessionGoal rec now = Some g0 -> status g0 = Active -> kept next g0 -> turnsUsed next = turnsUsed g0 ->
  (forall r, Q seen held r) -> wp (writeCandidate ports sid dir rec next) seen held Q.
Proof.
  intros Hin Hg Ha Hk Ht HQ. apply wp_clock. intros n2.
  destruct (buildGoalWrite rec next n2) as [[body cur]|] eqn:Ew; [|apply HQ].
  destruct (put_over_intro next rec seen now n2 g0 _ Hin Hg Ha Hk Ew) as (Hp & Hb & u & Hu). cbn in *. subst cur next.
  destruct (negb _); [apply HQ|]. destruct (sameGoalPayload _ _); [apply HQ|].
  apply wp_bind, (ps_write sid dir body g0); [done|done|]. intros [[]|]; apply HQ.
Qed.

(** A candidate that consumes a slot. *)
Lemma wp_write_slot sid dir rec next seen held now g0 (Q : post WriteOutcome) :
  rec ∈ seen -> getSessionGoal rec now = Some g0 -> status g0 = Active -> kept next g0 ->
  turnsUsed next = turnsUsed g0 + 1 -> turnsUsed g0 < MAX_AUTO_TURNS ->
  Q seen (S held) (Ok Written) -> Q seen held (Ok Refused) -> (forall e, Q seen held (Throw e)) ->
  wp (writeCandidate ports sid dir rec next) seen held Q.
Proof.
  intros Hin Hg Ha Hk Ht Hl HW HR HT. apply wp_clock. intros n2.
  destruct (buildGoalWrite rec next n2) as [[body cur]|] eqn:Ew; [|apply HR].
  destruct (put_over_intro next rec seen now n2 g0 _ Hin Hg Ha Hk Ew) as (Hp & Hb & u & Hu). cbn in *. subst cur next.
  destruct (negb _); [apply HR|]. unfold sameGoalPayload. rewrite bool_decide_false.
  2:{ intros E. rewrite <- E in Ht. cbn in Ht. lia. }
  apply wp_bind, (ps_slot sid dir body g0); [done|done|done|done|]. intros [[]|] Hr; [done|apply HR|apply HT].
Qed.

Lemma wp_settleWithCas sid dir initial next seen held now g0 :
  initial ∈ seen -> getSessionGoal initial now = Some g0 -> status g0 = Active -> kept next g0 -> turnsUsed next = turnsUsed g0 ->
  wp (settleWithCas ports sid dir initial next) seen held (fun _ _ _ => True).
Proof.
  intros Hin Hg Ha Hk Ht. apply wp_bind, wp_goalWrite; [|done]. intros n2 w Hw.
  destruct (put_over_intro next initial seen now n2 g0 w Hin Hg Ha Hk Hw) as ((rec & n & Hr & Hput) & Hb & _).
  apply wp_bind, ps_read; [|done]. intros current. destruct (negb _); [done|].
  apply wp_bind, wp_sessionGoal. intros n3. destruct (negb _); [done|].
  apply wp_bind, wp_goalWrite; [|done]. intros n4 w' Hw'. destruct (negb _); [done|].
  apply wp_bind, (ps_write sid dir w.1 g0); [|by rewrite Hb|by intros []].
  exists rec, n. split; [by apply elem_of_cons; right|done].
Qed.

Lemma quiet_ready sid dir g d : quiet (ready_after ports sid dir g d).
Proof.
  apply quiet_bind; [apply ps_objective|]. intros text. destruct (trim <$> text) as [o|]; [|apply quiet_ret].
  case_bool_decide; [apply quiet_ret|]. apply quiet_bind; [apply ps_messages|]. intros m. cbn zeta.
  destruct (assistantTail m) as [[]|]; [apply quiet_ret|].
  destruct (match d with DContinue _ => true | _ => false end); [|apply quiet_ret].
  destruct (resumedUserTail m _); apply quiet_ret.
Qed.

Lemma wp_tick sid dir seen held : wp (runNnaGoalSafetyTick ports sid dir) seen held (fun _ _ _ => True).
Proof.
  apply wp_bind, wp_catch. unfold tick_body. apply wp_bind, ps_read; [|intros; exact I]. intros session.
  destruct (_ || _); [exact I|]. apply wp_bind, wp_sessionGoal. intros n1.
  destruct (getSessionGoal session n1) as [g|] eqn:Hg; [|exact I]. case_bool_decide as Ha; cbn [negb]; [|exact I].
  apply wp_bind, quiet_intro; [apply ps_status|]. intros [st|]; [|exact I]. destruct (members st) as [st'|]; [|exact I].
  destruct (jhas sid st'); [exact I|]. apply wp_bind, quiet_intro; [apply ps_children|]. intros [ch|]; [|exact I].
  destruct (childBusy ch st') as [[]|]; [exact I| |exact I]. apply wp_bind, quiet_intro; [apply ps_evidence|]. intros [ev|]; [|exact I].
  apply wp_clock. intros n2. destruct (decided_keeps g sid ev n2) as [Hk Ht].
  destruct (decideNnaGoalEvidence g sid ev n2) as [|next l|next|next]; cbn [decided] in *; [exact I|..];
    try (apply wp_bind, quiet_intro; [apply quiet_ready|]; intros []; exact I).
  eapply wp_settleWithCas; [by apply elem_of_cons; left|done|done|by apply kept_user|done].
Qed.

End writes.

(** ** The exchange in the logic *)

Abbreviation anything := (fun _ _ _ => True).

(** What the exchange relies on of its ports: a fenced prompt uses no slot, and the
    recovery gives back the slot it did not use, or writes over the goal it read. *)
Class SendSpec (ports : DispatchPorts) : Prop := {
  sp_ports : PortSpec ports;
  sp_audit sid dir body : quiet (runAudit ports sid dir body);
  sp_send sid dir text seen held (Q : post GoalAuditWire) :
    (forall w, Q seen held (Ok w)) -> Q seen held (Throw Other) -> Q seen (S held) (Throw Inactive) ->
    wp (sendPrompt ports sid dir text) seen (S held) Q;
  sp_recover f sid dir persisted prior r seen held :
    recoverSkippedSend ports = Some f -> status persisted = Active -> kept prior persisted ->
    (turnsUsed persisted = turnsUsed prior -> wp (f sid dir persisted prior r) seen held anything)
    /\ (turnsUsed persisted = turnsUsed prior + 1 -> wp (f sid dir persisted prior r) seen (S held) anything) }.
#[export] Existing Instance sp_ports.

Lemma kept_set_reason prior persisted reason now : kept prior persisted -> kept (set_reason prior reason now) persisted.
Proof. done. Qed.

Lemma wp_recover ports `{!PortSpec ports} sid dir persisted prior r seen held :
  status persisted = Active -> kept prior persisted ->
  (turnsUsed persisted = turnsUsed prior -> wp (recover ports sid dir persisted prior r) seen held anything)
  /\ (turnsUsed persisted = turnsUsed prior + 1 -> wp (recover ports sid dir persisted prior r) seen (S held) anything).
Proof.
  intros Ha Hk.
  assert (forall h rec n1 current, rec ∈ seen \/ True -> getSessionGoal rec n1 = Some current -> current = persisted ->
    (turnsUsed persisted = turnsUsed prior \/ (turnsUsed persisted = turnsUsed prior + 1 /\ exists h', h = S h')) ->
    wp (let! now := call Clock in let! w := goalWrite rec (set_reason prior resumed now) in writeGoal ports sid dir w.1)
      (rec :: seen) h anything) as Hw.
  { intros h rec n1 current _ Hg -> Hc. apply wp_clock. intros n2.
    apply wp_bind, wp_goalWrite; [|intros; exact I]. intros n3 w Hw.
    destruct (put_over_intro (set_reason prior resumed n2) rec (rec :: seen) n1 n3 persisted w) as (Hp & Hb & _);
      [by apply elem_of_cons; left|done|done|done|done|].
    destruct Hc as [Hc|(Hc & h' & ->)].
    - apply (ps_write sid dir w.1 persisted); [done|by rewrite Hb|done].
    - apply (ps_restore sid dir w.1 persisted); [done|rewrite Hb; cbn; lia|done]. }
  split; intros Ht; (apply wp_bind, ps_read; [|intros; exact I]); intros rec;
    (apply wp_bind, wp_sessionGoal); intros n1;
    (destruct (getSessionGoal rec n1) as [current|] eqn:Hg; [|exact I]); (destruct (negb (bool_decide _)); cbn [orb]; [exact I|]);
    unfold sameGoalPayload; (case_bool_decide as He; cbn [negb]; [|exact I]).
  - eapply Hw; [by right|exact Hg|done|by left].
  - eapply Hw; [by right|exact Hg|done|right; split; [done|by eexists]].
Qed.

#[export] Instance guarded_ports : SendSpec (guardGoalAuditExchangePorts createNnaGoalAuditPorts).
Proof.
  split; cbn [guardGoalAuditExchangePorts base runAudit sendPrompt recoverSkippedSend].
  - apply fenced; [apply real_ports|..]; intros; apply wp_current; (intros []; [|first [apply wp_ret|apply wp_fail]; by auto]).
    + by eapply ps_write.
    + by eapply ps_slot.
    + by eapply ps_restore.
  - intros sid dir body. apply quiet_bind; [by_quiet|]. intros []; [|apply quiet_ret]. exact (quiet_call (PostAudit sid dir body) eq_refl).
  - intros sid dir text seen held Q HQ HO HI. apply wp_current. intros [].
    + exists held. split; [done|]. intros [w|]; [apply HQ|apply HO].
    + apply HI.
  - intros f sid dir persisted prior r seen held [= <-]. apply (wp_recover createNnaGoalAuditPorts).
Qed.

Lemma wp_ignore {A} (m : io A) seen held : wp m seen held anything -> wp (ignore m) seen held anything.
Proof. intros H. apply wp_catch, wp_bind. eapply wp_mono; [|exact H]. by intros ? ? []. Qed.

Section exchange_logic.
  Context (ports : DispatchPorts) `{!SendSpec ports} (json_parse : string -> option json) (rules : string).

Abbreviation inactive := "goal runtime inactive before send".

Lemma wp_refuseOrSend sid dir candidate objective seen held (Q : post (option string)) :
  Q seen held (Ok None) -> (forall s, s <> inactive -> Q seen held (Ok (Some s))) -> Q seen (S held) (Ok (Some inactive)) ->
  wp (refuseOrSend rules ports sid dir candidate objective) seen (S held) Q.
Proof.
  intros HN HS HI. apply wp_bind, wp_catch, wp_bind, sp_send; [|by apply HS|done].
  intros w. apply wp_ret. destruct ((200 <=? w_status w) && (w_status w <? 300)); [done|]. apply HS. by destruct (w_status w =? 409).
Qed.

Lemma wp_send_slot sid dir current candidate prior source objective seen held :
  status candidate = Active -> kept current candidate -> turnsUsed candidate = turnsUsed current + 1 ->
  wp (send_slot rules ports sid dir current candidate prior source objective) seen (S held) anything.
Proof.
  intros Ha Hk Ht. apply wp_bind, wp_refuseOrSend; [exact I| |].
  - intros s Hs. rewrite bool_decide_false by done. exact I.
  - destruct prior as [r|], (recoverSkippedSend ports) as [f|] eqn:Ef; try exact I.
    apply wp_bind. eapply wp_mono; [|apply wp_ignore, (proj2 (sp_recover f sid dir candidate current (r + 1) seen held Ef Ha Hk) Ht)].
    by intros ? ? [].
Qed.

Lemma wp_slot sid dir rec next seen held now g0 (Q : post (WriteOutcome + unit)) :
  rec ∈ seen -> getSessionGoal rec now = Some g0 -> status g0 = Active -> kept next g0 ->
  turnsUsed next = turnsUsed g0 + 1 -> turnsUsed g0 < MAX_AUTO_TURNS ->
  Q seen (S held) (Ok (inl Written)) -> Q seen held (Ok (inl Refused)) -> Q seen held (Ok (inr tt)) ->
  Q seen held (Throw Other) -> wp (write_slot ports sid dir rec next) seen held Q.
Proof.
  intros ? ? ? ? ? ? HW HR HI HT. apply wp_catch, wp_bind. eapply wp_write_slot; try done; [exact _|].
  by intros [].
Qed.

Lemma wp_dispatch_slot sid dir rec current source objective tail now n1 seen held :
  rec ∈ seen -> getSessionGoal rec n1 = Some current -> status current = Active -> turnsUsed current < MAX_AUTO_TURNS ->
  wp (dispatch_slot rules ports sid dir rec current source objective tail now) seen held anything.
Proof.
  intros Hin Hg Ha Hl. apply wp_bind, quiet_intro; [apply ps_messages|]. intros [m|]; [|exact I].
  destruct (lastMessageTail m) as [[i open]|]; [|exact I]. case_bool_decide; cbn [negb]; [|exact I]. destruct open; [exact I|].
  cbn zeta. apply wp_bind. apply (wp_slot sid dir rec (consume current now) seen held n1 current); try done.
  - by apply wp_send_slot.
  - destruct (readGoalRevision rec) as [r|], (recoverSkippedSend ports) as [f|] eqn:Ef; try exact I.
    apply wp_bind. eapply wp_mono; [|apply wp_ignore, (proj1 (sp_recover f sid dir current current r seen held Ef Ha (kept_refl _)) eq_refl)].
    by intros ? ? [].
Qed.

Lemma wp_dispatch sid dir basis source objective tail now seen held :
  wp (dispatchGoalContinuation rules ports sid dir basis source objective tail now) seen held anything.
Proof.
  apply wp_bind, ps_read; [|intros; exact I]. intros rec. apply wp_bind, wp_sessionGoal. intros n1.
  destruct (getSessionGoal rec n1) as [current|] eqn:Hg; [|exact I]. destruct (bool_decide (id current = _)); cbn [negb orb]; [|exact I].
  case_bool_decide as Ha; cbn [negb]; [|exact I]. destruct (accountingDrift current basis); [exact I|].
  destruct (_ <=? _) eqn:Hl; [|eapply wp_dispatch_slot; try done; [by apply elem_of_cons; left|lia]].
  pose proof (settled_keeps current Blocked turnLimit None now) as [Hu Ht].
  destruct (settleGoal _ _ _ _ _) as [settled|]; [|exact I]. cbn in Hu, Ht.
  apply wp_bind. eapply wp_write_same; [exact _|by apply elem_of_cons; left|done|done|by apply kept_user|done|by intros []].
Qed.

Lemma wp_persist ready sid dir seen held :
  wp (persistAccountingCandidate rules ports ready sid dir) seen held anything.
Proof.
  apply wp_bind, ps_read; [|intros; exact I]. intros rec. apply wp_bind, wp_sessionGoal. intros n1.
  destruct (getSessionGoal rec n1) as [current|] eqn:Hg; [|exact I]. destruct (bool_decide (id current = _)); cbn [negb orb]; [|exact I].
  case_bool_decide as Ha; cbn [negb]; [|exact I]. destruct (accountingDrift current _) eqn:Hd; [exact I|].
  apply kept_drift in Hd as [Hk Ht]. apply wp_bind.
  eapply wp_write_same; [exact _|by apply elem_of_cons; left|done|done|done|done|]. intros [o|]; [|exact I].
  case_bool_decide; [exact I|]. apply wp_clock. intros n2. apply wp_dispatch.
Qed.

Lemma wp_apply ready sid dir second current answer now n1 seen held :
  second ∈ seen -> getSessionGoal second n1 = Some current -> status current = Active ->
  kept (ready_goal ready) current -> turnsUsed (ready_goal ready) = turnsUsed current ->
  wp (apply_call rules ports ready sid dir second current answer now) seen held anything.
Proof.
  intros Hin Hg Ha Hk Ht. destruct answer as [v n p m| |]; cbn [apply_call]; try exact I.
  - pose proof (verdict_keeps (ready_goal ready) v n p m now) as [Hu Hv]. destruct (applyGoalAuditVerdict _ _ _ _ _ _) as [next s]. cbn in Hu, Hv.
    apply wp_bind. eapply wp_write_same; [exact _|done|done|done| |by rewrite Hv|].
    + eapply kept_trans; [by apply kept_user|done].
    + intros [o|]; [|exact I]. case_bool_decide; [exact I|]. destruct s; [exact I|]. case_bool_decide; [apply wp_dispatch|exact I].
  - pose proof (unavailable_keeps current now) as [Hu Hv]. destruct (applyGoalAuditUnavailable current now) as [next s]. cbn in Hu, Hv.
    destruct (sameGoalPayload current next); [exact I|]. apply wp_bind.
    eapply wp_write_same; [exact _|done|done|done|by apply kept_user|done|by intros []].
Qed.

Lemma wp_audit ready sid dir seen held : wp (auditExchange json_parse rules ports ready sid dir) seen held anything.
Proof.
  apply wp_bind, ps_read; [|intros; exact I]. intros first. apply wp_bind, wp_sessionGoal. intros n1.
  destruct (getSessionGoal first n1) as [basis|] eqn:Hb; [|exact I]. destruct (bool_decide (id basis = _)); cbn [negb orb]; [|exact I].
  case_bool_decide as Ha; cbn [negb]; [|exact I]. destruct (accountingDrift basis _) eqn:Hd; [exact I|].
  destruct (readGoalRevision first) as [revision|]; [|exact I]. cbn zeta. case_bool_decide; [exact I|]. case_bool_decide; [exact I|].
  apply wp_bind. unfold callAuditor. apply wp_bind, wp_catch, wp_bind, quiet_intro; [apply sp_audit|].
  assert (forall answer, wp (let! second := readSession ports sid dir in let! current := sessionGoal second in
     match current with
     | None => Ret (XDropped "goal no longer active after the audit")
     | Some current =>
       if negb (bool_decide (id current = id (ready_goal ready))) || negb (bool_decide (status current = Active))
       then Ret (XDropped "goal no longer active after the audit")
       else if negb (bool_decide (readGoalRevision second = Some revision)) || accountingDrift current basis
       then Ret (XDropped "goal changed during the audit")
       else let! now := call Clock in apply_call rules ports ready sid dir second current answer now
     end) (first :: seen) held anything) as Hrest; [|by intros [w|e]; apply Hrest].
  intros answer. apply wp_bind, ps_read; [|intros; exact I]. intros second. apply wp_bind, wp_sessionGoal. intros n2.
  destruct (getSessionGoal second n2) as [current|] eqn:Hg; [|exact I]. destruct (bool_decide (id current = _)); cbn [negb orb]; [|exact I].
  case_bool_decide as Ha2; cbn [negb]; [|exact I]. destruct (bool_decide (readGoalRevision second = _)); cbn [negb orb]; [|exact I].
  destruct (accountingDrift current basis) eqn:Hd2; [exact I|]. apply wp_clock. intros n3.
  apply kept_drift in Hd as [Hk Ht], Hd2 as [Hk2 Ht2]. eapply wp_apply; [by apply elem_of_cons; left|done|done| |by rewrite Ht].
  by eapply kept_trans.
Qed.

Lemma wp_exchange ready sid dir seen held : wp (runGoalAuditExchange json_parse rules ports ready sid dir) seen held anything.
Proof.
  apply wp_catch. destruct (skipAudit ready); [pose proof (wp_persist ready sid dir seen held) as H|pose proof (wp_audit ready sid dir seen held) as H];
    (eapply wp_mono; [|exact H]); by intros ? ? [].
Qed.

End exchange_logic.
