(* ===== verification/GoalWorld.v ===== *)
(** The loop of a goal against the harness: the machine and what it guarantees.

    One session, with any number of ticks and exchanges of any number of server
    processes under way. A step is one call of one of them, answered by the harness of
    GoalHarness or by its environment, or an act of the user, or the harness moving on
    its own; the interleaving is free. The proofs use the logic of GoalLoop. *)

From S2P Require Import Prelude CallTree JsString JsMap JsValue GoalPayload GoalState GoalHarness GoalEvidence GoalAudit GoalExchange GoalLoop.

Local Open Scope Z_scope.
Local Open Scope io_scope.

(** ** The machine *)

Record World := mkWorld {
  w_session : Session;
  w_procs : list (io unit);
  w_sent : Z;   (** prompts the loop has posted *)
  w_arms : Z }. (** goals the user has set, edits that keep the count apart *)

(** What the environment chooses of an answer. [e_rejected]: the answer is lost. *)
Record Env := mkEnv {
  e_identity : list (string * json);
  e_extra : list (string * json);
  e_projection : json;
  e_rejected : bool;
  e_persisted : bool;
  e_current : bool;
  e_now : Z;
  e_body : option json;
  e_text : option string;
  e_status : Z }.

(** The record has one [metadata], one [goal] and one [goalRevision]. *)
Definition env_ok (e : Env) : bool :=
  is_undefined (jget "metadata" (e_identity e)) && is_undefined (jget "goal" (e_extra e))
  && is_undefined (jget "goalRevision" (e_extra e)).

Definition on_session (w : World) (s : Session) : World := mkWorld s (w_procs w) (w_sent w) (w_arms w).

(** [null], or the id. *)
Definition id_json (i : option string) : json := match i with Some i => JStr i | None => JNull end.

(** What the harness does with a write of the loop. *)
Definition put (s : Session) (b : GoalBody) (e : Env) : exc HarnessError Session :=
  setGoal s (goal_json (b_goal b)) (id_json (expected_id b)) (JInt (expected_revision b)) (e_now e) (e_persisted e).

Definition lost {A} (e : Env) (a : A) : option A := if e_rejected e then None else Some a.

(** The effect of a call on the harness, and its answer. *)
Definition effect (w : World) (p : port) (e : Env) : World :=
  match p with
  | PutGoal _ _ b => match put (w_session w) b e with Ok s => on_session w s | Throw _ => w end
  | PostPrompt _ _ _ => mkWorld (w_session w) (w_procs w) (w_sent w + 1) (w_arms w)
  | _ => w
  end.

Definition answer (w : World) (p : port) (e : Env) : option (reply p) :=
  match p with
  | ReadSession _ _ => lost e (session_record (e_identity e) (e_extra e) (e_projection e) (w_session w))
  | PutGoal _ _ b => lost e match put (w_session w) b e with
                            | Ok s => (true, Some (goal_answer s))
                            | Throw _ => (false, e_body e)
                            end
  | PostPrompt _ _ _ | PostAudit _ _ _ => lost e (mkWire (e_status e) (e_body e))
  | ReadStatus _ | ReadChildren _ _ | ReadMessages _ _ _ | ReadEvidence _ _ => lost e (e_body e)
  | StoreRead _ _ => lost e (e_text e)
  | Clock => Some (e_now e)
  | IsCurrent _ => Some (e_current e)
  end.

Definition stored_turns (f : list (string * json)) : Z := default 0 (natural (jget "turnsUsed" f)).

(** The user's change starts the count anew: another goal, or fewer turns. *)
Definition arms (old new : Session) : Z :=
  match h_goal old, h_goal new with
  | _, None => 0
  | None, Some _ => 1
  | Some f, Some f' =>
    if bool_decide (jget "id" f = jget "id" f') && (stored_turns f <=? stored_turns f') then 0 else 1
  end.

Definition user_change (w : World) (r : exc HarnessError Session) : option World :=
  match r with
  | Ok s => Some (mkWorld s (w_procs w) (w_sent w) (w_arms w + arms (w_session w) s))
  | Throw _ => Some w
  end.

Inductive Event :=
| UserSets (value expectedId expectedRevision : json) (now : Z) (persisted : bool)
| UserClears (expectedId expectedRevision : json) (now : Z) (persisted : bool)
| HarnessMoves (updated : Z) (closed live : bool)
| TickStarts
| ExchangeStarts (ready : Ready)
| Answered (i : nat) (e : Env).

Section machine.
  Context (json_parse : string -> option json) (rules : string) (sid dir : string).

Definition spawn (w : World) {A} (m : io A) : World :=
  mkWorld (w_session w) (w_procs w ++ [let! _ := m in Ret tt]) (w_sent w) (w_arms w).

Definition step (w : World) (ev : Event) : option World :=
  match ev with
  | UserSets value i r now persisted => user_change w (setGoal (w_session w) value i r now persisted)
  | UserClears i r now persisted => user_change w (clearGoal (w_session w) i r now persisted)
  | HarnessMoves updated closed live =>
    Some (on_session w (mkSession (h_goal (w_session w)) (goalRevision (w_session w)) updated closed live))
  | TickStarts => Some (spawn w (runNnaGoalSafetyTick (guardTickPorts createNnaGoalSafetyPorts) sid dir))
  | ExchangeStarts ready =>
    Some (spawn w (runGoalAuditExchange json_parse rules (guardGoalAuditExchangePorts createNnaGoalAuditPorts) ready sid dir))
  | Answered i e =>
    match w_procs w !! i with
    | Some (Vis p k) =>
      if env_ok e
      then let w' := effect w p e in
           Some (mkWorld (w_session w') (<[i := k (answer w p e)]> (w_procs w)) (w_sent w') (w_arms w'))
      else None
    | _ => None
    end
  end.

Fixpoint run (w : World) (evs : list Event) : option World :=
  match evs with
  | [] => Some w
  | ev :: evs => match step w ev with Some w' => run w' evs | None => None end
  end.

(** A session without a goal, nothing under way. *)
Definition start (s : Session) : World := mkWorld s [] 0 0.

End machine.

(** ** The invariant *)

(** What the harness stores has passed its validation. *)
Definition stored (s : Session) : Prop := forall f, h_goal s = Some f -> exists v, validatedDesktopGoal v = Some f.

(** The record is one of an earlier state: if the revision is still the same, so is the goal. *)
Definition earlier (s : Session) (rec : option json) : Prop :=
  exists e s0, env_ok e = true /\ rec = session_record (e_identity e) (e_extra e) (e_projection e) s0
    /\ goalRevision s0 <= goalRevision s /\ (goalRevision s0 = goalRevision s -> h_goal s0 = h_goal s).

Definition runs (s : Session) (m : io unit) (held : nat) : Prop :=
  exists seen, Forall (earlier s) seen /\ wp m seen held anything.

(** The prompts the goals set so far allow, given the turns the current one has used. *)
Definition allowance (s : Session) (n : Z) : Z :=
  match h_goal s with
  | Some f => MAX_AUTO_TURNS * (n - 1) + Z.min MAX_AUTO_TURNS (stored_turns f)
  | None => MAX_AUTO_TURNS * n
  end.

Definition Inv (w : World) : Prop :=
  stored (w_session w)
  /\ exists held, Forall2 (runs (w_session w)) (w_procs w) held
       /\ w_sent w + Z.of_nat (sum_list held) <= allowance (w_session w) (w_arms w).

(** ** What a change of the harness does *)

Lemma mutation_inv s goal i r now persisted s' : goalCatalogMutation s goal i r now persisted = Ok s' ->
  goal_id s = i /\ safe_int (Some r) = Some (goalRevision s) /\ h_goal s' = goal /\ goalRevision s' = goalRevision s + 1.
Proof.
  unfold goalCatalogMutation. destruct (negb (valid_expected_id i) || _); [done|]. destruct (closing s); [done|].
  destruct (negb (bool_decide (goal_id s = i)) || _) eqn:E; [done|]. apply orb_false_iff in E as [E1 E2].
  apply negb_false_iff, bool_decide_eq_true_1 in E1, E2.
  destruct (match goal with Some _ => _ | None => _ end); [done|]. destruct persisted; [|done]. by intros [= <-].
Qed.

Lemma setGoal_inv s value i r now persisted s' : setGoal s value i r now persisted = Ok s' ->
  exists f, validatedDesktopGoal value = Some f /\ h_goal s' = Some f /\ goalRevision s' = goalRevision s + 1
    /\ safe_int (Some r) = Some (goalRevision s).
Proof.
  unfold setGoal. destruct (validatedDesktopGoal value) as [f|]; [|done]. intros (_ & Hr & Hg & Hn)%mutation_inv. by exists f.
Qed.

(** The goal is what it was, or the revision has moved on. *)
Definition moves (s s' : Session) : Prop :=
  (h_goal s' = h_goal s /\ goalRevision s' = goalRevision s) \/ goalRevision s < goalRevision s'.

Lemma moves_refl s : moves s s.
Proof. by left. Qed.

Lemma earlier_moves s s' rec : moves s s' -> earlier s rec -> earlier s' rec.
Proof.
  intros Hm (e & s0 & He & -> & Hle & Heq). exists e, s0. split_and!; [done|done|destruct Hm; lia|].
  intros Hr. destruct Hm as [[Hg Hn]|Hm]; [|lia]. rewrite Hg. apply Heq. lia.
Qed.

Lemma runs_moves s s' m h : moves s s' -> runs s m h -> runs s' m h.
Proof. intros Hm (seen & Hs & Hw). exists seen. split; [|done]. eapply Forall_impl; [exact Hs|]. intros rec. by apply earlier_moves. Qed.

Lemma stored_set s value i r now persisted s' : setGoal s value i r now persisted = Ok s' -> stored s' /\ moves s s'.
Proof.
  intros (f & Hv & Hg & Hn & _)%setGoal_inv. split; [|right; lia]. intros f'. rewrite Hg. intros [= <-]. by exists value.
Qed.

Lemma stored_clear s i r now persisted s' : clearGoal s i r now persisted = Ok s' -> stored s' /\ moves s s'.
Proof. intros (_ & _ & Hg & Hn)%mutation_inv. split; [|right; lia]. intros f'. by rewrite Hg. Qed.

Lemma stored_turns_nonneg f : 0 <= stored_turns f.
Proof. unfold stored_turns. destruct (natural _) as [n|] eqn:E; [|done]. apply natural_inv in E as (_ & ? & _). done. Qed.

Lemma stored_turns_parse value f now g :
  validatedDesktopGoal value = Some f -> parseGoalPayload (Some (JObj f)) now = Some g -> stored_turns f = turnsUsed g.
Proof.
  intros Hv Hp. destruct (stored_reads value f now Hv) as (g2 & Hp2 & Hr & _). rewrite Hp in Hp2. injection Hp2 as <-.
  destruct value as [| | | | |f0]; try done. apply validated_spec in Hv.
  pose proof (v_counters _ _ Hv) as Hc. unfold COUNTERS in Hc. rewrite !Forall_cons in Hc. destruct Hc as (_ & _ & _ & (n & Hn & Hle & Hs) & _).
  unfold stored_turns. rewrite (r_turns _ _ Hr). rewrite <- (v_same _ _ Hv "turnsUsed") in Hn by by_member.
  rewrite (r_turns _ _ Hr) in Hn. apply (inj Some), JInt_inj in Hn. by rewrite Hn, natural_JInt.
Qed.

Lemma arms_nonneg s s' : 0 <= arms s s'.
Proof. unfold arms. destruct (h_goal s), (h_goal s'); try done. by destruct (_ && _). Qed.

(** Whatever the user changes, the prompts sent stay within what the goals set allow. *)
Lemma allowance_user s s' n : allowance s n <= allowance s' (n + arms s s').
Proof.
  unfold allowance, arms, MAX_AUTO_TURNS. destruct (h_goal s) as [f|], (h_goal s') as [f'|]; try lia.
  - pose proof (stored_turns_nonneg f). pose proof (stored_turns_nonneg f'). destruct (_ && _) eqn:E; [|lia].
    apply andb_true_iff in E as [_ E]. lia.
  - pose proof (stored_turns_nonneg f'). lia.
Qed.

(** ** What an applied write of the loop does *)

Lemma earlier_read s rec now g0 : earlier s rec -> readGoalRevision rec = Some (goalRevision s) -> getSessionGoal rec now = Some g0 ->
  exists f, h_goal s = Some f /\ parseGoalPayload (Some (JObj f)) now = Some g0.
Proof.
  intros (e & s0 & He & -> & _ & Heq) Hr Hg. unfold env_ok in He. apply andb_true_iff in He as [[H1 H2]%andb_true_iff H3].
  assert (forall v : option json, is_undefined v = true -> v = None) as Hu by by intros [].
  apply record_revision_inv in Hr; [|by apply Hu..]. rewrite record_goal in Hg by by apply Hu.
  rewrite Heq in Hg by done. destruct (h_goal s) as [f|]; [|done]. by exists f.
Qed.

Lemma put_applied s b e s' seen g0 :
  stored s -> Forall (earlier s) seen -> put_over b seen g0 -> put s b e = Ok s' ->
  stored s' /\ goalRevision s' = goalRevision s + 1
  /\ exists f f' now, h_goal s = Some f /\ h_goal s' = Some f' /\ parseGoalPayload (Some (JObj f)) now = Some g0
       /\ validatedDesktopGoal (goal_json (b_goal b)) = Some f' /\ stored_turns f = turnsUsed g0
       /\ stored_turns f' = turnsUsed (b_goal b).
Proof.
  intros Hst Hseen (rec & now & Hin & Hrev & Hg & _) Hput. pose proof (stored_set _ _ _ _ _ _ _ Hput) as [Hs' _].
  apply setGoal_inv in Hput as (f' & Hv & Hf' & Hn & Hr). split; [done|]. split; [done|].
  apply safe_int_inv, (inj Some), JInt_inj in Hr. rewrite Hr in Hrev.
  rewrite Forall_forall in Hseen. destruct (earlier_read s rec now g0 (Hseen _ Hin) Hrev Hg) as (f & Hf & Hp).
  destruct (Hst f Hf) as [value Hv0].
  destruct (stored_reads _ f' now Hv) as (g' & Hp' & _). pose proof (stored_payload _ _ _ _ Hv Hp') as Hk.
  exists f, f', now. split_and!; try done; [by eapply stored_turns_parse|].
  erewrite stored_turns_parse by done. apply Hk.
Qed.

(** ** A call keeps the invariant *)

(** The process goes on from the answer, and the account is no worse. *)
Definition answered_ok (w : World) (p : port) (k : option (reply p) -> io unit) (e : Env) (held : nat) : Prop :=
  let w' := effect w p e in
  stored (w_session w') /\ moves (w_session w) (w_session w') /\ w_arms w' = w_arms w /\ w_procs w' = w_procs w
  /\ exists held', runs (w_session w') (k (answer w p e)) held'
       /\ w_sent w' + Z.of_nat held' - allowance (w_session w') (w_arms w)
          <= w_sent w + Z.of_nat held - allowance (w_session w) (w_arms w).

Lemma quiet_answered w p k e held r seen :
  stored (w_session w) -> Forall (earlier (w_session w)) seen -> effect w p e = w -> answer w p e = r ->
  wp (k r) seen held anything -> answered_ok w p k e held.
Proof.
  intros Hst Hseen He <- Hw. unfold answered_ok. rewrite He. split_and!; [done|apply moves_refl|done|done|].
  exists held. split; [by exists seen|lia].
Qed.

(** A write that was not applied. *)
Lemma put_refused w sid dir b k e held held' seen error :
  stored (w_session w) -> Forall (earlier (w_session w)) seen -> put (w_session w) b e = Throw error -> (held' <= held)%nat ->
  wp (k (lost e (false, e_body e))) seen held' anything -> answered_ok w (PutGoal sid dir b) k e held.
Proof.
  intros Hst Hseen Hp Hle Hw. unfold answered_ok. cbn [effect answer]. rewrite Hp. split_and!; [done|apply moves_refl|done|done|].
  exists held'. split; [by exists seen|lia].
Qed.

Lemma put_accepted w sid dir b k e held held' seen s' :
  stored (w_session w) -> Forall (earlier (w_session w)) seen -> put (w_session w) b e = Ok s' ->
  Z.of_nat held' - allowance s' (w_arms w) <= Z.of_nat held - allowance (w_session w) (w_arms w) ->
  wp (k (lost e (true, Some (goal_answer s')))) seen held' anything -> answered_ok w (PutGoal sid dir b) k e held.
Proof.
  intros Hst Hseen Hp Hle Hw. destruct (stored_set _ _ _ _ _ _ _ Hp) as [Hs' Hm].
  unfold answered_ok. cbn [effect answer]. rewrite Hp. cbn. split_and!; [done|done|done|done|].
  exists held'. split; [|lia]. exists seen. split; [|done]. eapply Forall_impl; [exact Hseen|]. intros rec. by apply earlier_moves.
Qed.

Lemma put_answered w sid dir b k e held seen :
  stored (w_session w) -> Forall (earlier (w_session w)) seen ->
  put_pre b seen held (fun held r => wp (k r) seen held anything) -> answered_ok w (PutGoal sid dir b) k e held.
Proof.
  intros Hst Hseen (g0 & Hover & HK). destruct (put (w_session w) b e) as [s'|error] eqn:Hp.
  - destruct (put_applied _ _ _ _ _ _ Hst Hseen Hover Hp) as (_ & _ & f & f' & now & Hf & Hf' & _ & _ & Ht & Ht').
    assert (allowance s' (w_arms w) - allowance (w_session w) (w_arms w)
      = Z.min MAX_AUTO_TURNS (turnsUsed (b_goal b)) - Z.min MAX_AUTO_TURNS (turnsUsed g0)) as Ha
      by (unfold allowance; rewrite Hf, Hf', Ht, Ht'; lia).
    destruct HK as [[He HK]|[(He & Hl & HK)|(He & h & -> & HK)]].
    + eapply put_accepted; [done|done|done| |apply HK]. rewrite He in Ha. lia.
    + eapply put_accepted; [done|done|done| |apply HK]. destruct (lost e _) as [a|]; [destruct (write_confirmed b a)|]; lia.
    + eapply put_accepted; [done|done|done| |apply HK]. lia.
  - destruct HK as [[He HK]|[(He & Hl & HK)|(He & h & -> & HK)]].
    + eapply put_refused; [done|done|done| |apply HK]. lia.
    + eapply put_refused; [done|done|done| |apply HK]. unfold lost. by destruct (e_rejected e).
    + eapply put_refused; [done|done|done| |apply HK]. lia.
Qed.

Lemma call_answered w p k e held seen :
  env_ok e = true -> stored (w_session w) -> Forall (earlier (w_session w)) seen ->
  port_pre p seen held (fun seen held r => wp (k r) seen held anything) -> answered_ok w p k e held.
Proof.
  intros He Hst Hseen HK.
  destruct p; cbn [port_pre] in HK; try (by eapply quiet_answered; [done|done|done|reflexivity|apply HK]).
  - eapply quiet_answered; [done| |done|reflexivity|apply HK]. cbn [answer]. unfold lost. destruct (e_rejected e); [done|].
    constructor; [|done]. exists e, (w_session w). by split_and!.
  - by eapply put_answered.
  - destruct HK as (h & -> & HK). unfold answered_ok. cbn [effect w_session w_sent w_arms w_procs].
    split_and!; [done|apply moves_refl|done|done|]. exists h. split; [|lia]. exists seen. split; [done|]. apply HK.
Qed.

(** ** The invariant holds *)

Lemma Forall2_runs_moves s s' ms hs : moves s s' -> Forall2 (runs s) ms hs -> Forall2 (runs s') ms hs.
Proof. intros Hm H. eapply Forall2_impl; [exact H|]. intros m h. by apply runs_moves. Qed.

Lemma sum_list_insert (l : list nat) i h h' : l !! i = Some h -> (sum_list (<[i := h']> l) + h = sum_list l + h')%nat.
Proof.
  revert i. induction l as [|a l IH]; intros [|i] H; try done; cbn in *.
  - injection H as ->. lia.
  - specialize (IH i H). change (a + sum_list (<[i:=h']> l) + h = a + sum_list l + h')%nat. lia.
Qed.

Section safety.
  Context (json_parse : string -> option json) (rules : string) (sid dir : string).

Abbreviation steps := (run json_parse rules sid dir).

Lemma Inv_start s : h_goal s = None -> Inv (start s).
Proof. intros H. split; [intros f Hf; cbn in Hf; congruence|]. exists []. split; [constructor|]. unfold allowance. cbn [start w_session w_arms w_sent]. by rewrite H. Qed.

Lemma Inv_spawn w (m : io unit) : wp m [] 0 anything -> Inv w -> Inv (mkWorld (w_session w) (w_procs w ++ [m]) (w_sent w) (w_arms w)).
Proof.
  intros Hm (Hst & held & HF & Hle). split; [done|]. exists (held ++ [0%nat]). split.
  - apply Forall2_app; [done|]. constructor; [|constructor]. by exists [].
  - rewrite sum_list_with_app. cbn. rewrite !Nat.add_0_r. exact Hle.
Qed.

Lemma Inv_user w r w' : (forall s', r = Ok s' -> stored s' /\ moves (w_session w) s') -> user_change w r = Some w' -> Inv w -> Inv w'.
Proof.
  intros Hr Hu (Hst & held & HF & Hle). destruct r as [s'|error]; cbn in Hu; injection Hu as <-; [|by split; [|exists held]].
  destruct (Hr s' eq_refl) as [Hs' Hm]. split; [done|]. exists held. split; [by eapply Forall2_runs_moves|]. cbn.
  pose proof (allowance_user (w_session w) s' (w_arms w)). lia.
Qed.

Lemma wp_unit {A} (m : io A) : wp m [] 0 anything -> wp (let! _ := m in Ret tt) [] 0 anything.
Proof. intros H. apply wp_bind. eapply wp_mono; [|exact H]. by intros ? ? []. Qed.

Lemma Inv_step w ev w' : step json_parse rules sid dir w ev = Some w' -> Inv w -> Inv w'.
Proof.
  destruct ev as [value i r now p|i r now p|updated closed live| |ready|i e]; cbn [step]; intros Hstep HI.
  - eapply Inv_user; [|exact Hstep|done]. intros s'. apply stored_set.
  - eapply Inv_user; [|exact Hstep|done]. intros s'. apply stored_clear.
  - injection Hstep as <-. destruct HI as (Hst & held & HF & Hle). split; [done|]. exists held. split; [|done].
    eapply Forall2_runs_moves; [|exact HF]. by left.
  - injection Hstep as <-. apply Inv_spawn; [|done]. apply wp_unit, wp_tick, _.
  - injection Hstep as <-. apply Inv_spawn; [|done]. apply wp_unit, wp_exchange, _.
  - destruct (w_procs w !! i) as [[| |p k]|] eqn:Hi; try done. destruct (env_ok e) eqn:He; [|done]. injection Hstep as <-.
    destruct HI as (Hst & held & HF & Hle). destruct (Forall2_lookup_l _ _ _ _ _ HF Hi) as (h & Hh & seen & Hseen & Hw).
    destruct (call_answered w p k e h seen He Hst Hseen Hw) as (Hst' & Hm & Harms & _ & h' & Hrun & Hacc).
    split; [done|]. exists (<[i := h']> held). cbn. split.
    + apply Forall2_insert; [by eapply Forall2_runs_moves|done].
    + pose proof (sum_list_insert held i h h' Hh). rewrite Harms. lia.
Qed.

Lemma Inv_run w evs w' : Inv w -> steps w evs = Some w' -> Inv w'.
Proof.
  revert w. induction evs as [|ev evs IH]; intros w HI; cbn [run]; [by intros [= <-]|].
  destruct (step _ _ _ _ w ev) as [w1|] eqn:E; [|done]. apply IH. by eapply Inv_step.
Qed.

Lemma allowance_le s n : allowance s n <= MAX_AUTO_TURNS * n.
Proof. unfold allowance, MAX_AUTO_TURNS. destruct (h_goal s); lia. Qed.

(** C4. The loop cannot run away. A session starts without a goal; whatever ticks and
    exchanges run, in whatever number and interleaving, of however many server processes,
    whatever the harness answers or loses and whatever the user does meanwhile, the loop
    posts at most twenty prompts for each goal the user sets or resumes. *)
Theorem continuations_are_capped s evs w :
  h_goal s = None -> steps (start s) evs = Some w -> w_sent w <= MAX_AUTO_TURNS * w_arms w.
Proof.
  intros Hs Hrun. destruct (Inv_run _ _ _ (Inv_start s Hs) Hrun) as (_ & held & _ & Hle).
  pose proof (allowance_le (w_session w) (w_arms w)). lia.
Qed.

(** C14. The loop leaves the goal to the user. A write of a tick or an exchange that the
    harness applies, in any run, found the session's goal active and kept the user's
    members of it: its identity, its objective, its budget, its creation time, and the key
    of its objective file, which at most is dropped; the count of turns moves by one at most. *)
Theorem loop_writes_keep_the_users_goal s evs w i e w' :
  h_goal s = None -> steps (start s) evs = Some w -> step json_parse rules sid dir w (Answered i e) = Some w' ->
  h_goal (w_session w') <> h_goal (w_session w) ->
  exists f f' now g g', h_goal (w_session w) = Some f /\ h_goal (w_session w') = Some f'
    /\ parseGoalPayload (Some (JObj f)) now = Some g /\ parseGoalPayload (Some (JObj f')) now = Some g'
    /\ status g = Active /\ kept g' g /\ Z.abs (turnsUsed g' - turnsUsed g) <= 1.
Proof.
  intros Hs Hrun Hstep Hne. destruct (Inv_run _ _ _ (Inv_start s Hs) Hrun) as (Hst & held & HF & _). cbn [step] in Hstep.
  destruct (w_procs w !! i) as [[| |p k]|] eqn:Hi; try done. destruct (env_ok e) eqn:He; [|done]. injection Hstep as <-.
  destruct (Forall2_lookup_l _ _ _ _ _ HF Hi) as (h & _ & seen & Hseen & Hw). cbn [w_session] in *.
  destruct p as [| | | | | |sid' dir' b| | | |]; try done. cbn [effect] in *. destruct (put (w_session w) b e) as [s'|] eqn:Hp; [|done].
  cbn in Hw. destruct Hw as (g0 & Hover & HK).
  destruct (put_applied _ _ _ _ _ _ Hst Hseen Hover Hp) as (Hst' & _ & f & f' & now & Hf & Hf' & Hg & Hv & _ & _).
  destruct (stored_reads _ f' now Hv) as (g' & Hg' & _). destruct (stored_payload _ _ _ _ Hv Hg') as (? & ? & ? & ? & ? & Ht & _ & Hkey).
  destruct Hover as (_ & _ & _ & _ & _ & _ & Ha & Hk). exists f, f', now, g0, g'. split_and!; try done.
  - eapply kept_trans; [|exact Hk]. by repeat split.
  - rewrite Ht. lia.
Qed.

End safety.

(** ** Runs *)

#[local] Abbreviation goal0 := (buildGoalPayload {| i_objective := "ship it"; i_objectiveFile := false;
  i_objectiveFileKey := None; i_tokenBudget := None |} 1000 "rs0123456789abcdef").
#[local] Abbreviation ready0 := (mkReady goal0 "ship it" "done so far" "m1" true).
#[local] Abbreviation env0 := (mkEnv [("id", JStr "ses_1")] [] (JStr "") false true true 2000
  (Some (JArr [JObj [("info", JObj [("id", JStr "m1"); ("role", JStr "assistant");
                                    ("time", JObj [("completed", JInt 1500)])])]])) None 202).
#[local] Abbreviation session0 := (mkSession None 0 0 false false).
#[local] Abbreviation events0 n := (UserSets (goal_json goal0) JNull (JInt 0) 1000 true :: TickStarts :: ExchangeStarts ready0
  :: replicate n (Answered 1 env0)).
#[local] Abbreviation run0 n := (run (fun _ => None) "" "ses_1" "/work" (start session0) (events0 n)).

(** One exchange: it consumes a slot and posts. *)
Lemma continuations_are_capped_witness :
  exists w, run0 12 = Some w /\ w_sent w = 1 /\ w_arms w = 1 /\ w_sent w <= MAX_AUTO_TURNS * w_arms w.
Proof.
  assert (match run0 12 with Some w => (w_sent w =? 1) && (w_arms w =? 1) | None => false end = true) as H by (vm_compute; reflexivity).
  destruct (run0 12) as [w|] eqn:E; [|discriminate H]. apply andb_true_iff in H as [H1 H2]. exists w.
  split; [reflexivity|]. split; [by apply Z.eqb_eq|]. split; [by apply Z.eqb_eq|].
  exact (continuations_are_capped (fun _ => None) "" "ses_1" "/work" session0 (events0 12) w eq_refl E).
Defined.

(** The write of the slot. *)
Lemma loop_writes_keep_the_users_goal_witness :
  exists w w' g g', step (fun _ => None) "" "ses_1" "/work" w (Answered 1 env0) = Some w' /\ h_goal (w_session w') <> h_goal (w_session w)
    /\ status g = Active /\ kept g' g /\ Z.abs (turnsUsed g' - turnsUsed g) <= 1.
Proof.
  assert (match run0 9 with
          | Some w => match step (fun _ => None) "" "ses_1" "/work" w (Answered 1 env0) with
                      | Some w' => (default 0 (stored_turns <$> h_goal (w_session w)) =? 0)
                                   && (default 0 (stored_turns <$> h_goal (w_session w')) =? 1)
                      | None => false
                      end
          | None => false
          end = true) as H by (vm_compute; reflexivity).
  destruct (run0 9) as [w|] eqn:E; [|discriminate H].
  destruct (step _ _ _ _ w (Answered 1 env0)) as [w'|] eqn:E'; [|discriminate H].
  assert (h_goal (w_session w') <> h_goal (w_session w)) as Hne
    by (intros Heq; rewrite Heq in H; apply andb_true_iff in H as [H1%Z.eqb_eq H2%Z.eqb_eq]; congruence).
  destruct (loop_writes_keep_the_users_goal (fun _ => None) "" "ses_1" "/work" session0 (events0 9) w 1 env0 w' eq_refl E E' Hne)
    as (_ & _ & _ & g & g' & _ & _ & _ & _ & Ha & Hk & Ht).
  exists w, w', g, g'. split; [exact E'|]. split; [exact Hne|]. split; [exact Ha|]. split; [exact Hk|exact Ht].
Defined.

(** ** Findings *)

#[local] Abbreviation answers body := (mkEnv [("id", JStr "ses_1")] [] (JStr "") false true true 2000 (Some body) None 200).
#[local] Abbreviation rejection := (mkEnv [("id", JStr "ses_1")] [] (JStr "") true true true 2000 None None 200).

(** A tick whose first call fails waits; one whose settle cannot read the session again
    rejects: the promise of [settleWithCas] is returned from the [try] unawaited, so its
    [catch] does not see the failure. *)
Lemma settle_failure_escapes :
  let before := [UserSets (goal_json goal0) JNull (JInt 0) 1000 true; TickStarts] in
  let play evs := run (fun _ => None) "" "ses_1" "/work" (start session0) (before ++ evs) in
  let ends w := match w_procs <$> w with Some [Ret _] => Some true | Some [Fail _] => Some false | _ => None end in
  ends (play [Answered 0 rejection]) = Some true
  /\ ends (play ([Answered 0 env0; Answered 0 env0; Answered 0 (answers (JObj [])); Answered 0 (answers (JArr []));
                 Answered 0 (answers JNull); Answered 0 env0; Answered 0 env0; Answered 0 rejection])) = Some false.
Proof. split; vm_compute; reflexivity. Qed.
