(* ===== verification/GoalLive.v ===== *)
(** The loop of a goal makes progress: an exchange over a quiet session, run alone and
    audited or not, makes exactly the posts it should: it consumes one turn and posts one
    prompt. Beside the safety of GoalWorld it says that the fences and the comparisons of
    the loop refuse nothing they should let through. *)

From S2P Require Import Prelude CallTree JsString JsMap JsValue GoalPayload GoalState GoalHarness GoalEvidence GoalAudit GoalExchange GoalLoop GoalWorld.

Local Open Scope Z_scope.
Local Open Scope io_scope.

(** ** A program alone with the harness and the auditor *)

Definition logged (p : port) (l : list port) : list port := if is_post p then l ++ [p] else l.

Section alone.
  Context (e a : Env).

(** The audit route answers as [a] has it, every other call as [e]. *)
Definition env_of (p : port) : Env := match p with PostAudit _ _ _ => a | _ => e end.

(** The harness after the run, the posts made, and what the program returns. *)
Fixpoint solo {A} (m : io A) (w : World) (l : list port) : World * list port * exc fault A :=
  match m with
  | Ret x => (w, l, Ok x)
  | Fail f => (w, l, Throw f)
  | Vis p k => solo (k (answer w p (env_of p))) (effect w p (env_of p)) (logged p l)
  end.

Lemma solo_bind {A B} (m : io A) (f : A -> io B) w l :
  solo (io_bind m f) w l = match solo m w l with (w', l', Ok x) => solo (f x) w' l' | (w', l', Throw x) => (w', l', Throw x) end.
Proof. revert w l. induction m as [x|x|p k IH]; intros w l; cbn; [done..|apply IH]. Qed.

Lemma solo_catch {A} (m : io A) h w l :
  solo (catch m h) w l = match solo m w l with (w', l', Ok x) => (w', l', Ok x) | (w', l', Throw x) => solo (h x) w' l' end.
Proof. revert w l. induction m as [x|x|p k IH]; intros w l; cbn; [done..|apply IH]. Qed.

End alone.

(** Nothing is lost, refused or fenced off. *)
Record calm (e : Env) : Prop := {
  c_ok : env_ok e = true;
  c_answered : e_rejected e = false;
  c_persisted : e_persisted e = true;
  c_current : e_current e = true;
  c_now : 0 < e_now e /\ is_safe_integer (e_now e) = true;
  c_sent : 200 <= e_status e < 300 }.

(** The session stores [g], a goal the harness takes, at a revision it can count on from. *)
Record holds (s : Session) (g : GoalPayload) : Prop := {
  h_wr : writable g;
  h_stored : exists v, h_goal s = Some v /\ reads v g;
  h_revision : 0 <= goalRevision s /\ is_safe_integer (goalRevision s + 1) = true;
  h_open : closing s = false }.

Section solo.
  Context (e a : Env) (He : calm e).

Abbreviation solo := (solo e a).

Abbreviation record s := (session_record (e_identity e) (e_extra e) (e_projection e) s).

Lemma calm_names : jget "metadata" (e_identity e) = None /\ jget "goal" (e_extra e) = None /\ jget "goalRevision" (e_extra e) = None.
Proof.
  pose proof (c_ok e He) as H. unfold env_ok in H. apply andb_true_iff in H as [[H1 H2]%andb_true_iff H3].
  assert (forall v : option json, is_undefined v = true -> v = None) as Hu by by intros []. split_and!; by apply Hu.
Qed.

Lemma goal_of s g now : holds s g -> getSessionGoal (record s) now = Some g.
Proof.
  intros []. destruct calm_names as (H1 & H2 & H3). destruct h_stored0 as (v & Hv & Hr).
  rewrite record_goal by done. rewrite Hv. apply parse_reads; [done|]. by apply w_wf.
Qed.

Lemma safe_pred n : 0 <= n -> is_safe_integer (n + 1) = true -> is_safe_integer n = true.
Proof. unfold is_safe_integer, MAX_SAFE_INTEGER. intros. bool_facts. rewrite !bool_decide_true; [done|lia..]. Qed.

Lemma revision_of s g : holds s g -> readGoalRevision (record s) = Some (goalRevision s).
Proof. intros []. destruct calm_names as (H1 & H2 & H3), h_revision0. apply record_revision; try done. by apply safe_pred. Qed.

Lemma write_of s g next now : holds s g ->
  buildGoalWrite (record s) next now = Some (mkBody next (Some (id g)) (goalRevision s), Some g).
Proof. intros H. rewrite buildGoalWrite_eq, (revision_of s g H), (goal_of s g now H). done. Qed.

(** The harness takes a write over the goal it stores. *)
Lemma put_holds s g next : holds s g -> writable next ->
  exists s', put s (mkBody next (Some (id g)) (goalRevision s)) e = Ok s' /\ goalRevision s' = goalRevision s + 1
    /\ (is_safe_integer (goalRevision s + 2) = true -> holds s' next)
    /\ getSessionGoal (record s') (e_now e) = Some next
    /\ (id next = id g -> write_confirmed (mkBody next (Some (id g)) (goalRevision s)) (true, Some (goal_answer s')) = true).
Proof.
  intros [Hw (v0 & Hv0 & Hr0) [Hrev Hsafe] Hop] Hn. destruct (writable_valid next Hn) as (v & Hv & Hr).
  unfold put, setGoal. cbn [b_goal expected_id expected_revision id_json]. rewrite Hv. unfold goalCatalogMutation.
  pose proof (w_id g Hw) as Hid. change (valid_expected_id (JStr (id g))) with (ID (id g)). rewrite Hid. cbn [negb orb].
  rewrite natural_JInt by (done || by apply safe_pred). cbn [fmap option_fmap option_map is_undefined]. rewrite Hop.
  unfold goal_id. rewrite Hv0, (r_id _ _ Hr0). cbn [default from_option Datatypes.id]. rewrite bool_decide_true by done. cbn [negb orb].
  rewrite safe_int_JInt by by apply safe_pred. rewrite bool_decide_true by done. cbn [negb]. rewrite (c_persisted e He). cbn [negb].
  eexists. split; [reflexivity|]. split; [reflexivity|]. destruct calm_names as (H1 & H2 & H3). split_and!.
  - intros Hs2. split; cbn; [done|by exists v| |done]. replace (goalRevision s + 1 + 1) with (goalRevision s + 2) by lia. split; [lia|done].
  - rewrite record_goal by done. cbn. apply parse_reads; [done|]. by apply w_wf.
  - intros Heq. unfold write_confirmed, goal_answer. cbn [h_goal goalRevision jfield]. cbn [jget]. rewrite decide_True by done.
    rewrite decide_False, decide_True by done. cbn [jfield b_goal expected_revision]. rewrite (r_id _ _ Hr). unfold is_str.
    rewrite bool_decide_true by done. by rewrite is_int_refl.
Qed.

Lemma solo_clock {A} (k : Z -> io A) w l : solo (let! x := call Clock in k x) w l = solo (k (e_now e)) w l.
Proof. done. Qed.

Lemma solo_fence {A} (k : bool -> io A) b w l : solo (let! x := call (IsCurrent b) in k x) w l = solo (k true) w l.
Proof. rewrite solo_bind. cbn. by rewrite (c_current e He). Qed.

Abbreviation ports := (guardGoalAuditExchangePorts createNnaGoalAuditPorts).

Lemma solo_read {A} (k : option json -> io A) sid dir w l :
  solo (let! x := readSession ports sid dir in k x) w l = solo (k (record (w_session w))) w l.
Proof. rewrite solo_bind. cbn. unfold lost. by rewrite (c_answered e He). Qed.

Lemma solo_messages {A} (k : option json -> io A) sid dir n w l :
  solo (let! x := readMessages ports sid dir n in k x) w l = solo (k (e_body e)) w l.
Proof. rewrite solo_bind. cbn. unfold lost. by rewrite (c_answered e He). Qed.

Lemma solo_goal {A} (k : option GoalPayload -> io A) rec w l :
  solo (let! x := sessionGoal rec in k x) w l = solo (k (getSessionGoal rec (e_now e))) w l.
Proof. done. Qed.

Lemma solo_write sid dir b s' w l :
  put (w_session w) b e = Ok s' -> write_confirmed b (true, Some (goal_answer s')) = true ->
  solo (writeGoal ports sid dir b) w l = (on_session w s', l ++ [PutGoal sid dir b], Ok true).
Proof.
  intros Hp Hc. cbn [guardGoalAuditExchangePorts base set_write writeGoal]. rewrite solo_fence.
  cbn [createNnaGoalAuditPorts base createNnaGoalSafetyPorts writeGoal]. rewrite solo_bind. cbn [call GoalLive.solo answer effect env_of].
  rewrite Hp. unfold lost. rewrite (c_answered e He). cbn [GoalLive.solo]. by rewrite Hc.
Qed.

Lemma solo_send sid dir text w l :
  solo (sendPrompt ports sid dir text) w l
  = (mkWorld (w_session w) (w_procs w) (w_sent w + 1) (w_arms w), l ++ [PostPrompt sid dir text], Ok (mkWire (e_status e) (e_body e))).
Proof.
  cbn [guardGoalAuditExchangePorts sendPrompt]. rewrite solo_fence. cbn. unfold lost. by rewrite (c_answered e He).
Qed.

(** The auditor is asked once, and its answer read. *)
Lemma solo_audit json_parse sid dir body o text w l : e_rejected a = false ->
  solo (callAuditor json_parse ports sid dir body o text) w l
  = (w, l ++ [PostAudit sid dir body], Ok (interpretGoalAuditCall json_parse (mkWire (e_status a) (e_body a)) o text)).
Proof.
  intros Ha. unfold callAuditor. rewrite solo_bind, solo_catch, solo_bind. cbn [guardGoalAuditExchangePorts runAudit]. rewrite solo_fence.
  cbn. unfold lost. by rewrite Ha.
Qed.

(** The write of [next] over the stored goal [g]. *)
Definition write_over (s : Session) (g next : GoalPayload) (sid dir : string) : port :=
  PutGoal sid dir (mkBody next (Some (id g)) (goalRevision s)).

(** A candidate over the stored goal ends up stored; it is written unless it is stored. *)
Lemma solo_candidate sid dir w l g next :
  holds (w_session w) g -> writable next -> id next = id g -> is_safe_integer (goalRevision (w_session w) + 2) = true ->
  exists s' o, solo (writeCandidate ports sid dir (record (w_session w)) next) w l
      = (on_session w s', l ++ (if sameGoalPayload g next then [] else [write_over (w_session w) g next sid dir]), Ok o)
    /\ o <> Refused /\ holds s' next /\ goalRevision s' = goalRevision (w_session w) + (if sameGoalPayload g next then 0 else 1).
Proof.
  intros Hh Hn Hi Hs. unfold writeCandidate. rewrite solo_clock, (write_of _ g) by done. rewrite bool_decide_true by done. cbn [negb].
  unfold sameGoalPayload. case_bool_decide as Heq.
  - subst next. exists (w_session w), Unchanged. cbn. rewrite app_nil_r. split_and!; try done; [by destruct w|lia].
  - destruct (put_holds _ g next Hh Hn) as (s' & Hp & Hr & Hh' & _ & Hc). rewrite solo_bind.
    rewrite (solo_write sid dir _ s' w l Hp (Hc Hi)). exists s', Written. split_and!; [done|done|by apply Hh'|done].
Qed.

Lemma drift_refl g : accountingDrift g g = false.
Proof.
  unfold accountingDrift. rewrite !bool_decide_true by done. cbn [negb orb]. destruct (objectiveFileKey g); [|done].
  by rewrite bool_decide_true.
Qed.

Lemma consume_writable g : writable g -> 0 <= turnsUsed g < MAX_AUTO_TURNS -> createdAt g <= e_now e -> writable (consume g (e_now e)).
Proof.
  intros [Hw Hid Hs Ht] Hl Hc. destruct (c_now e He). repeat (apply Forall_cons in Hs as [? Hs]). destruct (wf_nonneg g Hw) as (? & ? & ?).
  split; [|done|repeat constructor; try done|cbn; lia].
  - apply set_loop_wf; try done; try lia. by apply wf_note.
  - cbn. apply is_safe_small. unfold MAX_AUTO_TURNS, TOKEN_BUDGET_MAX in *. lia.
Qed.

Section dispatch.
  Context (rules sid dir : string).

(** The slot is consumed and the prompt posted. *)
Lemma solo_dispatch w l g basis source objective tail :
  holds (w_session w) g -> status g = Active -> 0 <= turnsUsed g < MAX_AUTO_TURNS -> createdAt g <= e_now e ->
  accountingDrift g basis = false -> lastMessageTail (e_body e) = Some (tail, false) ->
  exists w', solo (dispatchGoalContinuation rules ports sid dir basis source objective tail (e_now e)) w l
      = (w', l ++ [write_over (w_session w) g (consume g (e_now e)) sid dir;
                   PostPrompt sid dir (buildGoalContinuationPrompt rules (consume g (e_now e)) objective)],
         Ok (XDispatched (consume g (e_now e)) source))
    /\ getSessionGoal (record (w_session w')) (e_now e) = Some (consume g (e_now e)).
Proof.
  intros Hh Ha Hl Hc Hd Ht. pose proof (drift_false g basis Hd) as (Hid & _).
  unfold dispatchGoalContinuation. rewrite solo_read, solo_goal. rewrite (goal_of _ g) by done. rewrite bool_decide_true by done. rewrite bool_decide_true by done. cbn [negb orb]. rewrite Hd.
  replace (MAX_AUTO_TURNS <=? turnsUsed g) with false by lia.
  unfold dispatch_slot. rewrite solo_messages, Ht. rewrite bool_decide_true by done. cbn [negb]. cbn zeta.
  assert (writable (consume g (e_now e))) as Hw by (apply consume_writable; [apply Hh|done|done]).
  destruct (put_holds _ g _ Hh Hw) as (s' & Hp & _ & _ & Hg & Hconf).
  rewrite solo_bind. unfold write_slot. rewrite solo_catch, solo_bind.
  unfold writeCandidate at 1. rewrite solo_clock, (write_of _ g) by done. rewrite bool_decide_true by done. cbn [negb].
  unfold sameGoalPayload. rewrite bool_decide_false; [|intros E; apply (f_equal turnsUsed) in E; cbn in E; lia].
  rewrite solo_bind, (solo_write sid dir _ s' w l Hp (Hconf eq_refl)). cbn [GoalLive.solo].
  unfold send_slot. rewrite solo_bind. unfold refuseOrSend. rewrite solo_bind, solo_catch, solo_bind, solo_send. cbn [GoalLive.solo w_status].
  pose proof (c_sent e He). replace ((200 <=? e_status e) && (e_status e <? 300)) with true by lia. cbn [GoalLive.solo].
  eexists. split; [rewrite <- app_assoc; reflexivity|done].
Qed.

End dispatch.

End solo.

(** The goal the exchange goes on with: of a tick that skips the audit its own; else,
    when the auditor answers and says continue, the tick's with that verdict. *)
Definition approved (json_parse : string -> option json) (ready : Ready) (a : Env) (now : Z) : option GoalPayload :=
  if skipAudit ready then Some (ready_goal ready)
  else if bool_decide (lastAccountedMessageID (ready_goal ready) = "") || bool_decide (trim (ready_objective ready) = "")
          || e_rejected a then None
  else match interpretGoalAuditCall json_parse (mkWire (e_status a) (e_body a)) (ready_objective ready) (assistantText ready) with
       | CallVerdict VContinue n p m => Some (applyGoalAuditVerdict (ready_goal ready) VContinue n p m now).1
       | _ => None
       end.

Lemma note_bounded json_parse wire o text v n p m :
  interpretGoalAuditCall json_parse wire o text = CallVerdict v n p m -> slen n <= 280.
Proof.
  unfold interpretGoalAuditCall. destruct (_ && _), (match w_body wire with Some (JObj _ as b) => Some b | _ => None end) as [b|]; try (by repeat case_match).
  destruct (parseGoalAuditOutput _ _ _ _) as [r|] eqn:E; [|done]. intros [= _ <- _ _].
  enough (exists t, a_note r = safeNote t o text) as [t ->].
  { unfold safeNote. case_match; [change (slen "") with 0; lia|apply (slen_stake NOTE_CHAR_LIMIT)]. }
  unfold parseGoalAuditOutput in E. destruct (jfield "text" b) as [[| | |raw| |]|]; try done. destruct (32768 <? slen raw); [done|].
  destruct (index_of "{" _) as [st|]; [|done]. revert E. generalize 64%nat, st at 2. intros k. induction k as [|k IH]; intros from; cbn [attempt]; [done|].
  destruct (index_from _ _ _) as [x|]; [|done]. destruct (json_parse _) as [value|]; [|apply IH].
  unfold read_verdict. destruct value; try done. repeat case_match; try done. intros [= <-]. by eexists.
Qed.

(** The verdict leaves the user's members and the count of turns alone, and a goal
    the harness takes. *)
Lemma approved_goal json_parse ready a e next : calm e -> createdAt (ready_goal ready) <= e_now e ->
  writable (ready_goal ready) -> approved json_parse ready a (e_now e) = Some next ->
  writable next /\ id next = id (ready_goal ready) /\ status next = status (ready_goal ready)
  /\ turnsUsed next = turnsUsed (ready_goal ready) /\ createdAt next = createdAt (ready_goal ready).
Proof.
  intros He Hc Hw. unfold approved. destruct (skipAudit ready); [by intros [= <-]|]. destruct (_ || _); [done|].
  destruct (interpretGoalAuditCall _ _ _ _) as [[] n p m| |] eqn:E; try done. apply note_bounded in E. intros [= <-].
  split_and!; try done. destruct Hw as [Hwf Hid Hs Ht], (c_now e He). repeat (apply Forall_cons in Hs as [? Hs]).
  pose proof (wf_nonneg _ Hwf) as (? & ? & ?). pose proof (wf_note _ Hwf).
  split; [|done|cbn; repeat constructor; try done; by apply is_safe_small; unfold TOKEN_BUDGET_MAX; lia|cbn; lia].
  cbn. assert (slen (if bool_decide (n = "") then note (ready_goal ready) else n) <= 280) by by case_bool_decide.
  apply set_loop_wf; try done; try lia; try by apply wf_reason. apply set_loop_wf; try done; try lia; try by apply wf_reason.
  destruct Hwf. repeat (apply Forall_cons in wf_texts as [? wf_texts]). split; cbn; try done.
  repeat constructor; try done; apply (slen_stake AUDIT_ID_LIMIT).
Qed.

(** The audits the exchange asks for. *)
Definition audits (ready : Ready) (s : Session) (sid dir : string) : list port :=
  if skipAudit ready then []
  else [PostAudit sid dir (mkAuditBody (id (ready_goal ready)) (goalRevision s) (lastAccountedMessageID (ready_goal ready)) (ready_objective ready))].

Abbreviation exchange json_parse rules ready sid dir :=
  (runGoalAuditExchange json_parse rules (guardGoalAuditExchangePorts createNnaGoalAuditPorts) ready sid dir).

(** The exchange up to the dispatch: the audit, and the accounts written. *)
Lemma exchange_accounts json_parse rules sid dir s g ready e a next :
  calm e -> holds s g -> is_safe_integer (goalRevision s + 2) = true -> status g = Active ->
  writable (ready_goal ready) -> accountingDrift g (ready_goal ready) = false -> createdAt g <= e_now e ->
  approved json_parse ready a (e_now e) = Some next ->
  exists s', holds s' next
    /\ goalRevision s' = goalRevision s + (if sameGoalPayload g next then 0 else 1)
    /\ solo e a (exchange json_parse rules ready sid dir) (start s) []
       = solo e a (catch (dispatchGoalContinuation rules (guardGoalAuditExchangePorts createNnaGoalAuditPorts) sid dir next
                            (if skipAudit ready then FromSkip else FromAudit) (ready_objective ready) (tailId ready) (e_now e))
                         (fun _ => Ret (XWait "goal audit exchange unavailable")))
           (on_session (start s) s') (audits ready s sid dir ++ (if sameGoalPayload g next then [] else [write_over s g next sid dir])).
Proof.
  intros He Hh Hs Ha Hn Hd Hc Hap. pose proof (drift_false _ _ Hd) as (Hid & _ & _ & _ & _ & Hcr & _ & Hst).
  destruct (approved_goal json_parse ready a e next He ltac:(by rewrite Hcr) Hn Hap) as (Hwn & Hin & _).
  assert (holds (w_session (start s)) g) as Hh0 by done.
  destruct (solo_candidate e a He sid dir (start s) (audits ready s sid dir) g next Hh0 Hwn ltac:(congruence) Hs) as (s' & o & Hsolo & Ho & Hh' & Hr').
  exists s'. split; [done|]. split; [done|]. rewrite solo_catch. unfold runGoalAuditExchange. rewrite solo_catch.
  enough (solo e a (if skipAudit ready then persistAccountingCandidate rules (guardGoalAuditExchangePorts createNnaGoalAuditPorts) ready sid dir
                    else auditExchange json_parse rules (guardGoalAuditExchangePorts createNnaGoalAuditPorts) ready sid dir) (start s) []
    = solo e a (dispatchGoalContinuation rules (guardGoalAuditExchangePorts createNnaGoalAuditPorts) sid dir next
                  (if skipAudit ready then FromSkip else FromAudit) (ready_objective ready) (tailId ready) (e_now e))
           (on_session (start s) s') (audits ready s sid dir ++ (if sameGoalPayload g next then [] else [write_over s g next sid dir]))) as -> by done.
  unfold approved, audits in *. destruct (skipAudit ready).
  - injection Hap as <-. unfold persistAccountingCandidate. rewrite (solo_read e a He), (solo_goal e a), (goal_of e He _ g) by done.
    rewrite !bool_decide_true by done. cbn [negb orb]. rewrite Hd, solo_bind, Hsolo, bool_decide_false by done. by rewrite solo_clock.
  - destruct (bool_decide (lastAccountedMessageID _ = "")) eqn:Ecur; [done|]. destruct (bool_decide (trim _ = "")) eqn:Eobj; [done|].
    destruct (e_rejected a) eqn:Erej; [done|]. cbn [orb] in Hap. unfold auditExchange.
    rewrite (solo_read e a He), (solo_goal e a), (goal_of e He _ g) by done. rewrite !bool_decide_true by done. cbn [negb orb].
    rewrite Hd, (revision_of e He _ g), Ecur, Eobj by done. cbv zeta. rewrite solo_bind, (solo_audit e a He) by done.
    rewrite (solo_read e a He), (solo_goal e a), (goal_of e He _ g), (revision_of e He _ g) by done. rewrite !bool_decide_true by done. cbn [negb orb].
    rewrite drift_refl, solo_clock. destruct (interpretGoalAuditCall _ _ _ _) as [[] n p m| |]; try done. apply (inj Some) in Hap. subst next.
    cbn [apply_call]. destruct (applyGoalAuditVerdict _ _ _ _ _ _) as [nx st] eqn:Ev.
    assert (st = None) as -> by (unfold applyGoalAuditVerdict in Ev; by injection Ev). cbn [fst] in *. rewrite solo_bind.
    cbn [start w_session] in Hsolo |- *. cbn [app]. rewrite Hsolo.
    by rewrite bool_decide_false by done.
Qed.

(** C15. The loop goes on. The session stores an active goal with turns left, and the
    conversation ends where the tick saw it end; the tick's goal differs from the stored
    one in the accounts only. An exchange whose calls all get through, and whose audit,
    unless the tick skips it, says continue, then makes exactly these posts: the audit
    asked for, the write of the goal it goes on with (the tick's, with the verdict) where
    that differs from the stored one, the write that consumes one turn, and last the
    continuation prompt of the goal so written. It ends dispatched with that goal, which
    is the goal the session then stores. *)
Theorem quiet_session_is_continued json_parse rules sid dir s g ready e a next :
  calm e -> holds s g -> is_safe_integer (goalRevision s + 2) = true -> status g = Active -> turnsUsed g < MAX_AUTO_TURNS ->
  writable (ready_goal ready) -> accountingDrift g (ready_goal ready) = false -> createdAt g <= e_now e ->
  lastMessageTail (e_body e) = Some (tailId ready, false) ->
  approved json_parse ready a (e_now e) = Some next ->
  let slot := consume next (e_now e) in
  let accounted := if sameGoalPayload g next then 0 else 1 in
  exists w', solo e a (exchange json_parse rules ready sid dir) (start s) []
      = (w', audits ready s sid dir ++ (if sameGoalPayload g next then [] else [write_over s g next sid dir])
             ++ [PutGoal sid dir (mkBody slot (Some (id g)) (goalRevision s + accounted));
                 PostPrompt sid dir (buildGoalContinuationPrompt rules slot (ready_objective ready))],
         Ok (XDispatched slot (if skipAudit ready then FromSkip else FromAudit)))
    /\ turnsUsed slot = turnsUsed g + 1
    /\ getSessionGoal (session_record (e_identity e) (e_extra e) (e_projection e) (w_session w')) (e_now e) = Some slot.
Proof.
  intros He Hh Hs Ha Hl Hn Hd Hc Ht Hap. cbv zeta. pose proof (drift_false _ _ Hd) as (Hid & _ & _ & _ & _ & Hcr & Htu & Hst).
  destruct (approved_goal json_parse ready a e next He ltac:(by rewrite Hcr) Hn Hap) as (Hwn & Hin & Hsn & Htn & Hcn).
  destruct (exchange_accounts json_parse rules sid dir s g ready e a next) as (s' & Hh' & Hr' & ->); try done.
  rewrite solo_catch. pose proof (wf_nonneg _ (w_wf _ Hn)) as (Hnn & _).
  destruct (solo_dispatch e a He rules sid dir (on_session (start s) s')
              (audits ready s sid dir ++ (if sameGoalPayload g next then [] else [write_over s g next sid dir]))
              next next (if skipAudit ready then FromSkip else FromAudit)
              (ready_objective ready) (tailId ready)) as (w' & -> & Hget);
    [done|congruence|rewrite Htn; split; [done|by rewrite Htu]|by rewrite Hcn, Hcr|apply drift_refl|done|].
  exists w'. split; [|split; [cbn; by rewrite Htn, Htu|done]]. unfold write_over at 2. cbn [w_session on_session].
  by rewrite Hr', Hin, Hid, <- app_assoc.
Qed.

#[local] Abbreviation goal1 := (buildGoalPayload {| i_objective := "ship it"; i_objectiveFile := false;
  i_objectiveFileKey := None; i_tokenBudget := None |} 1000 "rs0123456789abcdef").
#[local] Abbreviation env1 := (mkEnv [("id", JStr "ses_1")] [] (JStr "") false true true 2000
  (Some (JArr [JObj [("info", JObj [("id", JStr "m1"); ("role", JStr "assistant");
                                    ("time", JObj [("completed", JInt 1500)])])]])) None 202).

#[local] Abbreviation verdict1 := (mkEnv [] [] (JStr "") false true true 2000 (Some (JObj [("text", JStr "{}")])) None 200).

Lemma quiet_session_is_continued_witness :
  exists s w' l g', solo env1 verdict1 (exchange (fun _ => Some (JObj [("verdict", JStr "continue"); ("note", JStr "on it")])) ""
                       (mkReady (mkGoal "rs0123456789abcdef" "ship it" false None Active None 40 0 40 0 0 0 "" "" "" "" "r1" 1000 1900)
                          "ship it" "done so far" "m1" false) "ses_1" "/work") (start s) []
                  = (w', l, Ok (XDispatched g' FromAudit))
    /\ length l = 4%nat /\ last l = Some (PostPrompt "ses_1" "/work" (buildGoalContinuationPrompt "" g' "ship it")) /\ turnsUsed g' = 1.
Proof.
  assert (calm env1) as He by (split; (split; lia || reflexivity) || (cbn; lia) || reflexivity).
  assert (writable goal1) as Hw.
  { split; [|reflexivity|repeat constructor|cbn; lia].
    split; cbn; [by split|by vm_compute|by left|done|done|by repeat constructor|by vm_compute|by repeat constructor|done]. }
  destruct (writable_valid goal1 Hw) as (v & Hv & Hr).
  assert (holds (mkSession (Some v) 1 1000 false false) goal1) as Hh
    by (split; [exact Hw|exists v; split; [reflexivity|exact Hr]|split; [cbn; lia|reflexivity]|reflexivity]).
  edestruct (quiet_session_is_continued (fun _ => Some (JObj [("verdict", JStr "continue"); ("note", JStr "on it")])) ""
    "ses_1" "/work" (mkSession (Some v) 1 1000 false false) goal1
    (mkReady (mkGoal "rs0123456789abcdef" "ship it" false None Active None 40 0 40 0 0 0 "" "" "" "" "r1" 1000 1900)
       "ship it" "done so far" "m1" false) env1 verdict1) as (w' & Hrun & Ht & _);
    [exact He|exact Hh|reflexivity|reflexivity|reflexivity| |reflexivity|cbn; lia|reflexivity|vm_compute; reflexivity|].
  - split; [|reflexivity|repeat constructor|cbn; lia].
    split; cbn; [by split|by vm_compute|by left|done|done|by repeat constructor|by vm_compute|by repeat constructor|done].
  - eexists _, w', _, _. split; [exact Hrun|]. split; [reflexivity|]. split; [reflexivity|exact Ht].
Defined.
