(* ===== verification/SessionReceipts.v ===== *)
(** Durable receipts of session creations
    (server/session-orchestration/session-operation-store.ts) and the outcomes they keep
    (session-orchestration-contract.ts).

    The ledger file is [Missing], [Damaged] (not a document of version 1), or a map from
    operation ids to receipts of the declared type. A call that reserves or settles runs
    under the file lock (SchedLock) and is one step here; it may fail to write. *)

From stdpp Require Import sorting.
From S2P Require Import Prelude JsString JsMap JsSort JsValue.

Local Open Scope Z_scope.

(** ** Outcomes (session-orchestration-contract.ts) *)

Inductive PartialAction := WorktreeIsCreated | GoalIsConfigured | ForkIsCreated.

#[export] Instance PartialAction_eq_dec : EqDecision PartialAction.
Proof. solve_decision. Defined.

Record SessionOrchestrationError := mkError {
  f_status : Z;
  f_error : string;
  f_partial : option bool;
  f_partialAction : option PartialAction;
  f_sessionId : option string;
  f_directory : option string }.

#[export] Instance SessionOrchestrationError_eq_dec : EqDecision SessionOrchestrationError.
Proof. solve_decision. Defined.

Inductive SessionOrchestrationResponse :=
| ok (body : json)
| failure (f : SessionOrchestrationError).

#[export] Instance SessionOrchestrationResponse_eq_dec : EqDecision SessionOrchestrationResponse.
Proof. solve_decision. Defined.

(** [fail] without a context. *)
Definition fail (status : Z) (error : string) : SessionOrchestrationResponse :=
  failure (mkError status error None None None None).

(** ** The identity of a request *)

(** A key that is an array index: a decimal numeral below 2^32 - 1. *)
Definition array_index (key : string) : option Z :=
  let numeral := sall is_decimal key && negb (bool_decide (key = "")) && (bool_decide (key = "0") || negb (starts_with "0" key)) in
  if numeral && (decimal_value key <? 2 ^ 32 - 1) then Some (decimal_value key) else None.

Definition is_index {V} (x : string * V) : bool := match array_index x.1 with Some _ => true | None => false end.

Definition index_le {V} (x y : string * V) : bool := default 0 (array_index x.1) <=? default 0 (array_index y.1).

(** The order in which an object lists its members: array indices first, ascending, then
    the other keys as they were created. *)
Definition own_order {V} (m : list (string * V)) : list (string * V) :=
  js_sort index_le (filter (fun x => is_index x = true) m) ++ filter (fun x => is_index x = false) m.

(** [out[key] = v] on a plain object: [__proto__] names no member. *)
Definition assign {V} (key : string) (v : V) (out : list (string * V)) : list (string * V) :=
  if bool_decide (key = "__proto__") then out else jset key v out.

(** The loop over the sorted keys. *)
Definition sorted_members {V} (source : list (string * V)) : list (string * V) :=
  own_order (fold_left (fun out key => match jget key source with Some v => assign key v out | None => out end)
                       (js_sort sle (jkeys source)) []).

Fixpoint canonicalize (value : json) : json :=
  match value with
  | JArr elems => JArr (map canonicalize elems)
  | JObj fields => JObj (sorted_members (map (fun x => (x.1, canonicalize x.2)) fields))
  | _ => value
  end.

(** [digest]: the hexadecimal SHA-256 of [JSON.stringify] of a value. *)
Definition fingerprintOf (digest : json -> string) (payload : option json) : string :=
  digest (canonicalize (default JNull payload)).

(** ** Receipts *)

Definition OPERATION_CAP : nat := Z.to_nat 200.

(** [/^[A-Za-z0-9][A-Za-z0-9._:-]{0,127}$/] *)
Definition is_id_char (a : ascii) : bool :=
  is_alnum a || Ascii.eqb a "." || Ascii.eqb a "_" || Ascii.eqb a ":" || Ascii.eqb a "-".

Definition is_operation_id (s : string) : bool :=
  match s with
  | String a t => is_alnum a && sall is_id_char t && bool_decide (slen t <= 127)
  | EmptyString => false
  end.

Inductive OperationState := OperationPending | OperationSettled.

#[export] Instance OperationState_eq_dec : EqDecision OperationState.
Proof. solve_decision. Defined.

Record OperationReceipt := mkReceipt {
  r_fingerprint : string;
  r_state : OperationState;
  r_response : option SessionOrchestrationResponse;
  r_createdAt : Z;
  r_updatedAt : Z;
  r_pid : Z }.

#[export] Instance OperationReceipt_eq_dec : EqDecision OperationReceipt.
Proof. solve_decision. Defined.

Inductive ReserveOutcome :=
| Fresh
| Settled (receipt : OperationReceipt)
| Conflict
| PendingElsewhere (live : bool).

#[export] Instance ReserveOutcome_eq_dec : EqDecision ReserveOutcome.
Proof. solve_decision. Defined.

(** [doc.operations[id]]: a receipt, nothing, or what every object inherits under the
    names an operation id may have. *)
Definition inherited_names : list string :=
  ["constructor"; "hasOwnProperty"; "isPrototypeOf"; "propertyIsEnumerable"; "toLocaleString"; "toString"; "valueOf"].

Inductive Slot := Absent | Inherited | Own (r : OperationReceipt).

Definition slot (id : string) (ops : list (string * OperationReceipt)) : Slot :=
  match jget id ops with
  | Some r => Own r
  | None => if bool_decide (id ∈ inherited_names) then Inherited else Absent
  end.

Inductive Ledger := Missing | Damaged | Doc (operations : list (string * OperationReceipt)).

Definition readOperations (file : Ledger) : option (list (string * OperationReceipt)) :=
  match file with Missing => Some [] | Damaged => None | Doc ops => Some ops end.

(** ** Eviction *)

Definition settled_rank (r : OperationReceipt) : Z := match r_state r with OperationSettled => 0 | OperationPending => 1 end.

(** The comparator: settled first, then by age. *)
Definition compare_receipts (left right : string * OperationReceipt) : Z :=
  let d := settled_rank left.2 - settled_rank right.2 in
  if d =? 0 then r_updatedAt left.2 - r_updatedAt right.2 else d.

Definition receipt_le (left right : string * OperationReceipt) : bool := compare_receipts left right <=? 0.

Definition evicted (ops : list (string * OperationReceipt)) : list (string * OperationReceipt) :=
  take (length ops - OPERATION_CAP) (js_sort receipt_le (own_order ops)).

Definition evict (ops : list (string * OperationReceipt)) : list (string * OperationReceipt) :=
  if bool_decide (length ops <= OPERATION_CAP)%nat then ops
  else fold_left (fun ops x => jdel x.1 ops) (evicted ops) ops.

(** ** Operations *)

Definition reservation (fp : string) (t1 t2 pid : Z) : OperationReceipt := mkReceipt fp OperationPending None t1 t2 pid.

(** [t1], [t2]: the two readings of the clock; [alive]: the answer to signal 0. *)
Definition reserveOperation (operationId fp : string) (t1 t2 pid : Z) (alive : Z -> bool) (file : Ledger)
    : ReserveOutcome * Ledger :=
  match readOperations file with
  | None => (Fresh, Doc [(operationId, reservation fp t1 t2 pid)])
  | Some ops =>
    match slot operationId ops with
    | Absent => (Fresh, Doc (evict (jset operationId (reservation fp t1 t2 pid) ops)))
    | Inherited => (Conflict, file)
    | Own existing =>
      if negb (bool_decide (r_fingerprint existing = fp)) then (Conflict, file)
      else match r_state existing with
           | OperationSettled => (Settled existing, file)
           | OperationPending => (PendingElsewhere (negb (bool_decide (r_pid existing = pid)) && alive (r_pid existing)), file)
           end
    end
  end.

(** A settled receipt keeps its fingerprint and its time of creation. *)
Definition settle_receipt (r : OperationReceipt) (response : SessionOrchestrationResponse) (t pid : Z) : OperationReceipt :=
  mkReceipt (r_fingerprint r) OperationSettled (Some response) (r_createdAt r) t pid.

(** [None] is [null]. The names every object inherits are never reserved. *)
Definition settleOperation (operationId : string) (response : option SessionOrchestrationResponse) (t pid : Z) (file : Ledger) : Ledger :=
  match readOperations file with
  | None => file
  | Some ops =>
    match jget operationId ops with
    | None => file
    | Some existing =>
      match r_state existing with
      | OperationSettled => file
      | OperationPending =>
        Doc (evict match response with
                   | None => jdel operationId ops
                   | Some response => jset operationId (settle_receipt existing response t pid) ops
                   end)
      end
    end
  end.

(** What the receipt route finds. *)
Definition readOperation (operationId : string) (file : Ledger) : Slot :=
  match readOperations file with Some ops => slot operationId ops | None => Absent end.

(** ** Requests up to the order of their members *)

Section nested.
  Context (P : json -> Prop).
  Hypotheses (HNull : P JNull) (HBool : forall b, P (JBool b)) (HNum : forall n, P (JNum n)) (HStr : forall s, P (JStr s))
    (HArr : forall l, Forall P l -> P (JArr l)) (HObj : forall l, Forall (fun x => P x.2) l -> P (JObj l)).

Fixpoint json_nested_ind (v : json) : P v :=
  match v with
  | JNull => HNull | JBool b => HBool b | JNum n => HNum n | JStr s => HStr s
  | JArr l => HArr l ((fix go l : Forall P l :=
      match l with [] => Forall_nil_2 _ | x :: l => Forall_cons_2 _ _ _ (json_nested_ind x) (go l) end) l)
  | JObj l => HObj l ((fix go l : Forall (fun x => P x.2) l :=
      match l with [] => Forall_nil_2 _ | x :: l => Forall_cons_2 _ _ _ (json_nested_ind x.2) (go l) end) l)
  end.

End nested.

(** The same value: objects with the same members, in whatever order. *)
#[warnings="-register-all"]
Inductive same : json -> json -> Prop :=
| same_null : same JNull JNull
| same_bool b : same (JBool b) (JBool b)
| same_num n : same (JNum n) (JNum n)
| same_str s : same (JStr s) (JStr s)
| same_arr l k : Forall2 same l k -> same (JArr l) (JArr k)
| same_obj l k : (forall key, option_Forall2 same (jget key l) (jget key k)) -> same (JObj l) (JObj k).

(** An object as the language has it, with no member [__proto__], nor any in its members. *)
Fixpoint plain (v : json) : bool :=
  match v with
  | JArr l => forallb plain l
  | JObj l => bool_decide (jwf l) && negb (bool_decide ("__proto__" ∈ jkeys l)) && forallb (fun x => plain x.2) l
  | _ => true
  end.

Section members.
  Context {V : Type}.
  Implicit Types (m : list (string * V)) (key : string).

Lemma own_order_perm m : own_order m ≡ₚ m.
Proof.
  unfold own_order. rewrite js_sort_perm.
  induction m as [|x m IH]; [done|]. rewrite !filter_cons. destruct (is_index x) eqn:E.
  - rewrite decide_True, decide_False by done. cbn. by rewrite IH.
  - rewrite decide_False, decide_True by done. by rewrite <- Permutation_middle, IH.
Qed.

(** A map is its lookups, up to order. *)
Lemma jget_perm m m' key : jwf m -> m ≡ₚ m' -> jget key m = jget key m'.
Proof.
  intros Hm Hp. assert (jwf m') as Hm' by (unfold jwf, jkeys in *; by rewrite <- Hp). apply option_eq. intros v. split; intros H.
  - apply jget_elem; [done|]. rewrite <- Hp. by apply jget_Some_elem.
  - apply jget_elem; [done|]. rewrite Hp. by apply jget_Some_elem.
Qed.

Lemma jget_own_order m key : jwf m -> jget key (own_order m) = jget key m.
Proof. intros Hm. symmetry. apply jget_perm; [done|]. symmetry. apply own_order_perm. Qed.

Definition collect (source : list (string * V)) (keys : list string) (out : list (string * V)) : list (string * V) :=
  fold_left (fun out key => match jget key source with Some v => assign key v out | None => out end) keys out.

Lemma collect_wf source keys out : jwf out -> jwf (collect source keys out).
Proof.
  revert out. induction keys as [|k keys IH]; intros out Ho; [done|]. cbn. apply IH. unfold assign.
  destruct (jget k source); [|done]. case_bool_decide; [done|]. by apply jwf_set.
Qed.

Lemma jget_collect source keys out key : key <> "__proto__" ->
  jget key (collect source keys out) = (if bool_decide (key ∈ keys) then match jget key source with Some v => Some v | None => jget key out end else jget key out).
Proof.
  intros Hp. revert out. induction keys as [|k keys IH]; intros out; [done|]. cbn [collect fold_left].
  change (jget key (collect source keys (match jget k source with Some v => assign k v out | None => out end)) =
    (if bool_decide (key ∈ k :: keys) then match jget key source with Some v => Some v | None => jget key out end else jget key out)).
  rewrite IH. unfold assign. destruct (decide (k = key)) as [->|Hne].
  - rewrite (bool_decide_true (key ∈ key :: keys)) by set_solver. rewrite (bool_decide_false (key = _)) by done.
    destruct (jget key source); [|by case_bool_decide]. rewrite jget_set_eq. by case_bool_decide.
  - rewrite (bool_decide_ext (key ∈ k :: keys) (key ∈ keys)) by set_solver.
    destruct (jget k source); [|done]. destruct (bool_decide (k = _)); [done|]. by rewrite jget_set_ne by congruence.
Qed.

Lemma jget_sorted_members m key : key <> "__proto__" -> jget key (sorted_members m) = jget key m.
Proof.
  intros Hp. unfold sorted_members. rewrite jget_own_order by apply (collect_wf m _ []), NoDup_nil_2.
  etransitivity; [exact (jget_collect m (js_sort sle (jkeys m)) [] key Hp)|]. cbn.
  destruct (jget key m) eqn:E; [|by case_bool_decide]. rewrite bool_decide_true; [done|].
  rewrite js_sort_perm. apply jget_Some_elem in E. by apply (list_elem_of_fmap_2 fst) in E.
Qed.

#[export] Instance sle_order : TotalOrder sle.
Proof. constructor; [apply sle_total|apply sle_trans]. Qed.

Lemma sorted_keys_unique (l k : list string) : l ≡ₚ k -> js_sort sle l = js_sort sle k.
Proof.
  intros H. apply (StronglySorted_unique_strong (fun a b => sle a b = true)); [|exact (js_sort_sorted sle _)..|].
  - intros a b _ _. apply sle_antisym.
  - by rewrite !js_sort_perm.
Qed.

End members.

Lemma jget_map_snd {V W} (f : V -> W) (m : list (string * V)) key : jget key (map (fun x => (x.1, f x.2)) m) = f <$> jget key m.
Proof. induction m as [|[k v] m IH]; [done|]. cbn. by case_decide. Qed.

Lemma jkeys_map_snd {V W} (f : V -> W) (m : list (string * V)) : jkeys (map (fun x => (x.1, f x.2)) m) = jkeys m.
Proof. unfold jkeys. induction m as [|x m IH]; [done|]. cbn. by rewrite IH. Qed.

(** Objects with the same lookups have the same canonical form. *)
Lemma sorted_members_ext {V} (m m' : list (string * V)) :
  jwf m -> jwf m' -> (forall key, jget key m = jget key m') -> sorted_members m = sorted_members m'.
Proof.
  intros Hm Hm' H. unfold sorted_members. f_equal.
  assert (js_sort sle (jkeys m) = js_sort sle (jkeys m')) as ->.
  { apply sorted_keys_unique, NoDup_Permutation; [done..|]. intros key.
    pose proof (jget_None key m) as H1. pose proof (jget_None key m') as H2. rewrite H in H1.
    destruct (decide (key ∈ jkeys m)), (decide (key ∈ jkeys m')); naive_solver. }
  generalize (js_sort sle (jkeys m')) as keys. generalize (@nil (string * V)) as out. intros out keys. revert out.
  induction keys as [|k keys IH]; intros out; [done|]. cbn. by rewrite H.
Qed.

Lemma plain_obj l : plain (JObj l) = true -> jwf l /\ ("__proto__" ∉ jkeys l) /\ Forall (fun x => plain x.2 = true) l.
Proof.
  cbn. rewrite !andb_true_iff, negb_true_iff, forallb_forall, Forall_forall. intros [[H1%bool_decide_eq_true H2%bool_decide_eq_false] H3].
  split_and!; [done..|]. intros x Hx. apply H3. by apply list_elem_of_In.
Qed.

Lemma plain_arr l : plain (JArr l) = true -> Forall (fun x => plain x = true) l.
Proof. cbn. rewrite forallb_forall, Forall_forall. intros H x Hx. apply H. by apply list_elem_of_In. Qed.

Lemma same_canonicalize a b : plain a = true -> plain b = true -> same a b -> canonicalize a = canonicalize b.
Proof.
  revert b. induction a as [|x|n|s|l IH|l IH] using json_nested_ind; intros b Ha Hb Hs; inversion Hs; subst; try done.
  - apply plain_arr in Ha, Hb. cbn. f_equal. match goal with H : Forall2 _ _ _ |- _ => rename H into H2 end.
    clear Hs. induction H2 as [|x y l k Hxy _ IHl]; [done|]. apply Forall_cons in IH as [IHx IH], Ha as [? ?], Hb as [? ?]. cbn.
    f_equal; [by apply IHx|by apply IHl].
  - apply plain_obj in Ha as (Hl & _ & Ha), Hb as (Hk & _ & Hb). cbn. f_equal.
    match goal with H : forall key, _ |- _ => rename H into H2 end.
    apply sorted_members_ext; [unfold jwf; by rewrite jkeys_map_snd..|]. intros key. rewrite !jget_map_snd.
    specialize (H2 key). inversion H2 as [x y Hxy E1 E2|E1 E2]; [|done]. cbn. f_equal. symmetry in E1, E2.
    exact (Forall_jget _ _ _ _ IH E1 y (Forall_jget _ _ _ _ Ha E1) (Forall_jget _ _ _ _ Hb E2) Hxy).
Qed.

Lemma canonicalize_same a b : plain a = true -> plain b = true -> canonicalize a = canonicalize b -> same a b.
Proof.
  revert b. induction a as [|x|n|s|l IH|l IH] using json_nested_ind; intros b Ha Hb Hc;
    destruct b as [|y|m|t|k|k]; try discriminate Hc; try (injection Hc as ->; constructor); [constructor|..].
  - constructor. apply plain_arr in Ha, Hb. cbn in Hc. injection Hc as Hc. revert k Hb Hc.
    induction IH as [|x l IHx _ IHl]; intros [|y k] Hb Hc; try discriminate Hc; [constructor|].
    apply Forall_cons in Ha as [? ?], Hb as [? ?]. cbn in Hc. injection Hc as Hx Hl. constructor; auto.
  - constructor. intros key. apply plain_obj in Ha as (Hl & Hpl & Ha), Hb as (Hk & Hpk & Hb).
    destruct (decide (key = "__proto__")) as [->|Hp].
    { apply jget_None in Hpl, Hpk. rewrite Hpl, Hpk. constructor. }
    cbn in Hc. injection Hc as Hc. apply (f_equal (jget key)) in Hc. rewrite !jget_sorted_members, !jget_map_snd in Hc by done.
    destruct (jget key l) as [x|] eqn:E1, (jget key k) as [y|] eqn:E2; cbn in Hc; try discriminate Hc; constructor.
    injection Hc as Hc. exact (Forall_jget _ _ _ _ IH E1 y (Forall_jget _ _ _ _ Ha E1) (Forall_jget _ _ _ _ Hb E2) Hc).
Qed.

(** Two requests have the same canonical form exactly when they are the same up to the
    order of the members of their objects. *)
Theorem fingerprints_ignore_member_order a b : plain a = true -> plain b = true ->
  canonicalize a = canonicalize b <-> same a b.
Proof. intros Ha Hb. split; [by apply canonicalize_same|by apply same_canonicalize]. Qed.

Lemma fingerprints_ignore_member_order_witness :
  let a := JObj [("prompt", JStr "hi"); ("scope", JObj [("projectId", JStr "p"); ("10", JNull); ("9", JNull)])] in
  let b := JObj [("scope", JObj [("9", JNull); ("projectId", JStr "p"); ("10", JNull)]); ("prompt", JStr "hi")] in
  canonicalize a = canonicalize b /\ same a b.
Proof.
  intros a b. assert (canonicalize a = canonicalize b) as H by by vm_compute.
  split; [done|]. by apply (fingerprints_ignore_member_order a b).
Defined.

(** Without the condition: [__proto__] is not part of the identity of a request. *)
Lemma proto_member_is_ignored :
  canonicalize (JObj [("model", JObj [("__proto__", JStr "a")])]) = canonicalize (JObj [("model", JObj [])]).
Proof. by vm_compute. Qed.

(** ** Eviction *)

#[export] Instance receipt_order : TotalOrder receipt_le.
Proof.
  constructor; unfold receipt_le, compare_receipts; intros [? a] [? b]; [|intros [? c]]; cbn;
    destruct (Z.eqb_spec (settled_rank a - settled_rank b) 0); try destruct (Z.eqb_spec (settled_rank b - settled_rank a) 0);
    try destruct (Z.eqb_spec (settled_rank b - settled_rank c) 0); try destruct (Z.eqb_spec (settled_rank a - settled_rank c) 0);
    rewrite ?Z.leb_le; lia.
Qed.

Lemma jdel_all {V} (xs m : list (string * V)) : jwf m ->
  jwf (fold_left (fun m x => jdel x.1 m) xs m)
  /\ (forall x, x ∈ fold_left (fun m x => jdel x.1 m) xs m <-> x ∈ m /\ x.1 ∉ jkeys xs).
Proof.
  revert m. induction xs as [|[k v] xs IH]; intros m Hm; cbn; [set_solver|].
  destruct (IH (jdel k m) (jwf_del k m Hm)) as [H1 H2]. split; [done|]. intros [k' v']. rewrite H2. cbn.
  rewrite not_elem_of_cons. split.
  - intros [Hin Hx]. split_and!; [by apply elem_of_jdel in Hin| |done]. intros ->.
    apply jget_elem in Hin; [|by apply jwf_del]. by rewrite jget_del_eq in Hin.
  - intros (Hin & Hne & Hx). split; [|done]. apply jget_elem in Hin; [|done]. apply jget_Some_elem. by rewrite jget_del_ne.
Qed.

Lemma jwf_NoDup {V} (m : list (string * V)) : jwf m -> NoDup m.
Proof. apply NoDup_fmap_1. Qed.

(** Over the bound, eviction leaves the tail of the sorted receipts. *)
Lemma evict_perm ops : jwf ops -> jwf (evict ops) /\
  evict ops ≡ₚ drop (length ops - OPERATION_CAP) (js_sort receipt_le (own_order ops)).
Proof.
  intros Hw. unfold evict, evicted. set (s := js_sort receipt_le (own_order ops)). set (n := (length ops - OPERATION_CAP)%nat).
  assert (s ≡ₚ ops) as Hs by (unfold s; by rewrite js_sort_perm, own_order_perm).
  case_bool_decide as E.
  { replace n with 0%nat by (unfold n; lia). by rewrite drop_0. }
  destruct (jdel_all (take n s) ops Hw) as [H1 H2]. split; [exact H1|].
  assert (jwf s) as Hws by (unfold jwf, jkeys; by rewrite Hs).
  apply NoDup_Permutation; [by apply jwf_NoDup| |].
  { eapply (NoDup_app (take n s)). rewrite take_drop. by apply jwf_NoDup. }
  intros x. rewrite H2, <- Hs. assert (NoDup (jkeys (take n s) ++ jkeys (drop n s))) as Hn.
  { unfold jkeys. rewrite <- fmap_app, take_drop. exact Hws. }
  apply NoDup_app in Hn as (_ & Hn & _). rewrite <- (take_drop n s) at 1. rewrite elem_of_app. split.
  - intros [[Hx|Hx] Hk]; [|done]. by apply (list_elem_of_fmap_2 fst) in Hx.
  - intros Hx. split; [by right|]. intros Hk. apply (Hn _ Hk). by apply (list_elem_of_fmap_2 fst).
Qed.

(** Eviction keeps at most 200 receipts and drops none while there is room; what it
    drops is settled unless every receipt it keeps is pending, and among receipts of one
    state it drops the least recently updated. *)
Theorem eviction_takes_the_oldest_settled ops : jwf ops ->
  length (evict ops) = Nat.min (length ops) OPERATION_CAP
  /\ (forall x, x ∈ evict ops -> x ∈ ops)
  /\ (forall x y, x ∈ ops -> x ∉ evict ops -> y ∈ evict ops ->
      (r_state x.2 = OperationPending -> r_state y.2 = OperationPending)
      /\ (r_state x.2 = r_state y.2 -> r_updatedAt x.2 <= r_updatedAt y.2)).
Proof.
  intros Hw. destruct (evict_perm ops Hw) as [_ Hp]. revert Hp.
  set (s := js_sort receipt_le (own_order ops)). set (n := (length ops - OPERATION_CAP)%nat). intros Hp.
  assert (s ≡ₚ ops) as Hs by (unfold s; by rewrite js_sort_perm, own_order_perm).
  assert (sorted receipt_le s) as Ho by exact (js_sort_sorted _ _).
  rewrite <- (take_drop n s) in Hs, Ho. split_and!.
  - rewrite Hp, length_drop. rewrite take_drop in Hs. rewrite Hs. unfold n. lia.
  - intros x. rewrite Hp, <- Hs, elem_of_app. by right.
  - intros x y. rewrite Hp, <- Hs, elem_of_app. intros [Hx|Hx] Hnx Hy; [|done].
    assert (receipt_le x y = true) as Hle by exact (StronglySorted_app_1_elem_of _ _ _ x y Ho Hx Hy).
    unfold receipt_le, compare_receipts in Hle. apply Z.leb_le in Hle. revert Hle. case Z.eqb_spec;
      unfold settled_rank; destruct (r_state x.2), (r_state y.2); intros; split; intros; try done; lia.
Qed.

(** [n + 1] receipts, the last one pending. *)
Definition ex_receipts (n : nat) : list (string * OperationReceipt) :=
  map (fun i => ("op-" +:+ pretty (Z.of_nat i),
                 mkReceipt "f" (if bool_decide (i = n) then OperationPending else OperationSettled) None 0 (Z.of_nat i) 7))
      (seq 0 (S n)).

Lemma eviction_takes_the_oldest_settled_witness :
  jwf (ex_receipts OPERATION_CAP) /\ length (evict (ex_receipts OPERATION_CAP)) = OPERATION_CAP.
Proof.
  assert (jwf (ex_receipts OPERATION_CAP)) as H by (apply (bool_decide_unpack _); vm_compute; exact I).
  split; [done|]. destruct (eviction_takes_the_oldest_settled _ H) as [E _]. rewrite E. by vm_compute.
Defined.

(** ** Reserving and settling *)

(** A reserved id is not fresh again until it is settled with [null] or evicted. *)
Lemma reserve_known id fp fp' t1 t2 pid alive file o r ops : readOperations file = Some ops -> jget id ops = Some r ->
  reserveOperation id fp t1 t2 pid alive file = (o, fp') -> o <> Fresh /\ fp' = file.
Proof.
  intros Ef Er. unfold reserveOperation, slot. rewrite Ef, Er.
  destruct (bool_decide (r_fingerprint r = fp)); cbn; [|by intros [= <- <-]]. destruct (r_state r); by intros [= <- <-].
Qed.

(** An id every object inherits is in conflict before its first use. *)
Lemma inherited_id_conflicts : is_operation_id "constructor" = true
  /\ forall fp t1 t2 pid alive, reserveOperation "constructor" fp t1 t2 pid alive Missing = (Conflict, Missing).
Proof. split; [by vm_compute|done]. Qed.

(** With every receipt pending, the bound drops the oldest reservation: its id is fresh again. *)
Definition ex_pending : list (string * OperationReceipt) :=
  map (fun i => ("op-" +:+ pretty (Z.of_nat i), reservation "f" (Z.of_nat i) (Z.of_nat i) 7)) (seq 0 OPERATION_CAP).

Lemma evicted_reservation_is_fresh_again :
  let file := (reserveOperation "new" "g" 1000 1000 7 (fun _ => true) (Doc ex_pending)).2 in
  jhas "op-0" ex_pending = true
  /\ (reserveOperation "op-0" "f" 1001 1001 7 (fun _ => true) file).1 = Fresh.
Proof. by vm_compute. Qed.
