(* ===== verification/PromptText.v ===== *)
(** Texts of prompts: the expansion of command templates
    (server/queue/queue-expansion.ts) and the fit of an objective into its limit
    (server/goals/goal-distill.ts). *)

From S2P Require Import Prelude CallTree JsString GoalPayload.

Local Open Scope Z_scope.

(** ** Arguments of a command (queue-expansion.ts) *)

Definition dquote : ascii := "034".
Definition squote : ascii := "'".

(** The text up to a closing [c] and the one after it. *)
Definition closed_by (c : ascii) (s : string) : option (string * string) :=
  match index_of c s with Some i => Some (stake i s, sdrop (S i) s) | None => None end.

Definition not_space (a : ascii) : bool := negb (is_space a).

(** One match of the pattern at the head of a text, and the text after it; [None]: no
    match begins here. *)
Definition next_word (s : string) : option (string * string) :=
  match s with
  | EmptyString => None
  | String a t =>
    let bare := if not_space a then Some (span not_space s, sdrop (String.length (span not_space s)) s) else None in
    if Ascii.eqb a dquote then match closed_by dquote t with Some w => Some w | None => bare end
    else if Ascii.eqb a squote then match closed_by squote t with Some w => Some w | None => bare end
    else bare
  end.

(** The matches of a text, at most [fuel]; each takes a character at least. *)
Fixpoint words_from (fuel : nat) (s : string) : list string :=
  match fuel with
  | O => []
  | S fuel =>
    match next_word s with
    | Some (w, rest) => w :: words_from fuel rest
    | None => match s with String _ t => words_from fuel t | EmptyString => [] end
    end
  end.

Definition splitCommandArgs (args : string) : list string := words_from (String.length args) args.

(** ** Templates *)

(** [s.includes(p)] *)
Fixpoint includes (p s : string) : bool :=
  starts_with p s || match s with String _ t => includes p t | EmptyString => false end.

Definition ARGUMENTS : string := "$ARGUMENTS".
Definition dollar : ascii := "$".

(** The digits of a placeholder at the head of a text. *)
Definition placeholder (s : string) : option string :=
  match s with
  | String a t => if Ascii.eqb a dollar && negb (bool_decide (span is_decimal t = "")) then Some (span is_decimal t) else None
  | EmptyString => None
  end.

Fixpoint has_numbered (s : string) : bool :=
  match placeholder s with
  | Some _ => true
  | None => match s with String _ t => has_numbered t | EmptyString => false end
  end.

Definition hasPlaceholders (template : string) : bool := includes ARGUMENTS template || has_numbered template.

(** A template as literal characters and placeholders. *)
Fixpoint pieces (fuel : nat) (s : string) : list (ascii + Z) :=
  match fuel with
  | O => []
  | S fuel =>
    match placeholder s, s with
    | Some digits, _ => inr (decimal_value digits) :: pieces fuel (sdrop (S (String.length digits)) s)
    | None, String a t => inl a :: pieces fuel t
    | None, EmptyString => []
    end
  end.

Definition join (sep : string) (l : list string) : string :=
  match l with [] => "" | x :: l => foldl (fun s y => s +:+ sep +:+ y) x l end.

Definition highest_of (ps : list (ascii + Z)) : Z := foldl (fun h x => match x with inr n => Z.max h n | inl _ => h end) 0 ps.

(** The text of a placeholder; the last position takes all the words that are left. *)
Definition positional (words : list string) (highest position : Z) : string :=
  if (position <? 1) || (Zlen words <? position) then ""
  else if position <? highest then default "" (words !! Z.to_nat (position - 1))
  else join " " (drop (Z.to_nat (position - 1)) words).

Definition applyPositional (template : string) (words : list string) : string :=
  let ps := pieces (String.length template) template in
  let highest := highest_of ps in
  foldr (fun x out => match x with inl a => String a out | inr n => positional words highest n +:+ out end) "" ps.

(** [replaceAll] reads its replacement: a dollar sign, the match, the text before it
    ([pre]) and the text after it ([post]). *)
Fixpoint substitution (pre post by_ : string) : string :=
  match by_ with
  | String a (String b t as s) =>
    if Ascii.eqb a dollar then
      if Ascii.eqb b dollar then String dollar (substitution pre post t)
      else if Ascii.eqb b "&" then ARGUMENTS +:+ substitution pre post t
      else if Ascii.eqb b "`" then pre +:+ substitution pre post t
      else if Ascii.eqb b squote then post +:+ substitution pre post t
      else String a (substitution pre post s)
    else String a (substitution pre post s)
  | _ => by_
  end.

(** [template.replaceAll('$ARGUMENTS', by_)]; [pre] is what precedes [s]. *)
Fixpoint replace_arguments (fuel : nat) (pre s by_ : string) : string :=
  match fuel with
  | O => s
  | S fuel =>
    if starts_with ARGUMENTS s then
      let post := sdrop (String.length ARGUMENTS) s in
      substitution pre post by_ +:+ replace_arguments fuel (pre +:+ ARGUMENTS) post by_
    else match s with
         | String a t => String a (replace_arguments fuel (pre +:+ String a "") t by_)
         | EmptyString => ""
         end
  end.

Definition expandCommandTemplate (template args : string) : string :=
  if negb (hasPlaceholders template) then
    let tail := trim args in
    if bool_decide (tail = "") then template else template +:+ " " +:+ tail
  else if includes ARGUMENTS template then replace_arguments (String.length template) "" template args
  else applyPositional template (splitCommandArgs args).

(** ** The invocation *)

Definition is_name_char (a : ascii) : bool := not_space a && negb (Ascii.eqb a "/").

(** [None] is [null]. *)
Definition commandNameOf (text : string) : option string :=
  match before "010" text with
  | String a t => if Ascii.eqb a "/" && negb (bool_decide (span is_name_char t = "")) then Some (span is_name_char t) else None
  | EmptyString => None
  end.

Definition is_blank (a : ascii) : bool := Ascii.eqb a " " || Ascii.eqb a "009".

Definition commandArgsOf (text name : string) : string :=
  let separator := "/" +:+ name in
  if negb (starts_with separator text) then ""
  else trim_start_by is_blank (sdrop (String.length separator) text).

(** ** Fitting an objective (goal-distill.ts) *)

Definition TRIM_MARKER : string :=
  String "010" (String "010" ("[. objective trimmed for the auditor - the full prompt was delivered in the chat message .]" +:+ String "010" (String "010" ""))).

Definition headTailExcerpt (raw : string) : string :=
  let body := Z.max 0 (Z.of_nat DISTILLED_OBJECTIVE_CHAR_LIMIT - slen TRIM_MARKER) in
  let head := stake (Z.to_nat (body / 2)) raw in
  let tailSpan := Z.min (Z.max 0 (slen raw - slen head)) (body - slen head) in
  let tail := if 0 <? tailSpan then sdrop (Z.to_nat (slen raw - tailSpan)) raw else "" in
  head +:+ TRIM_MARKER +:+ tail.

Record FittedObjective := { fit_text : string; fit_distilled : bool; fit_fallback : bool }.

Section fit.
  Context {E P : Type} {R : P -> Type}.
  Local Open Scope io_scope.

(** [generate]: the call of the distilling port, if there is one. *)
Definition fitObjective (raw : string) (generate : option (io E P R (option string))) : io E P R FittedObjective :=
  let excerpt := {| fit_text := headTailExcerpt raw; fit_distilled := false; fit_fallback := true |} in
  if slen raw <=? Z.of_nat GOAL_OBJECTIVE_CHAR_LIMIT then
    Ret {| fit_text := raw; fit_distilled := false; fit_fallback := false |}
  else match generate with
  | None => Ret excerpt
  | Some generate =>
    catch (let! distilled := generate in
           let criteria := match distilled with Some d => trim d | None => "" end in
           if bool_decide (criteria = "") then Ret excerpt
           else Ret {| fit_text := stake DISTILLED_OBJECTIVE_CHAR_LIMIT criteria; fit_distilled := true; fit_fallback := false |})
          (fun _ => Ret excerpt)
  end.

End fit.

(** ** Lemmas *)

Lemma slen_app a b : slen (a +:+ b) = slen a + slen b.
Proof. unfold slen. rewrite slength_app. lia. Qed.

Lemma slen_stake_nat n s : slen (stake n s) = Z.min (Z.of_nat n) (slen s).
Proof. unfold slen. rewrite stake_length_eq. lia. Qed.

Lemma slen_nonneg s : 0 <= slen s.
Proof. unfold slen. lia. Qed.

Lemma slen_sdrop n s : slen (sdrop n s) = Z.max 0 (slen s - Z.of_nat n).
Proof. unfold slen. rewrite sdrop_length_eq. lia. Qed.

(** Of a text over the limit, the excerpt fills its budget exactly. *)
Lemma excerpt_length raw : Z.of_nat GOAL_OBJECTIVE_CHAR_LIMIT < slen raw ->
  slen (headTailExcerpt raw) = Z.of_nat DISTILLED_OBJECTIVE_CHAR_LIMIT.
Proof.
  intros H. unfold headTailExcerpt. set (body := Z.max 0 _). assert (body = 3905) as -> by by vm_compute.
  change (Z.of_nat DISTILLED_OBJECTIVE_CHAR_LIMIT) with 4000. change (Z.of_nat GOAL_OBJECTIVE_CHAR_LIMIT) with 5000 in H.
  change (3905 / 2) with 1952. assert (slen (stake (Z.to_nat 1952) raw) = 1952) as Hh by (rewrite slen_stake_nat; lia).
  rewrite Hh. rewrite Z.min_r by lia. change (0 <? 3905 - 1952) with true. cbv iota.
  rewrite !slen_app, Hh, slen_sdrop. change (slen TRIM_MARKER) with 95. lia.
Qed.

Lemma fit_never_throws {E P R} (raw : string) (generate : option (io E P R (option string))) : never_throws (fitObjective raw generate).
Proof.
  unfold fitObjective. destruct (_ <=? _); [exact I|]. destruct generate; [|exact I]. apply never_throws_catch. intros e. exact I.
Qed.

Lemma fit_length {E P R} (raw : string) (generate : option (io E P R (option string))) f :
  Z.of_nat GOAL_OBJECTIVE_CHAR_LIMIT < slen raw -> returns (fitObjective raw generate) f ->
  slen (fit_text f) <= Z.of_nat DISTILLED_OBJECTIVE_CHAR_LIMIT.
Proof.
  intros Hgt. unfold fitObjective. rewrite (proj2 (Z.leb_gt _ _)) by done. pose proof (excerpt_length raw Hgt) as He.
  destruct generate as [generate|]; [|intros <-; cbn [fit_text]; lia]. intros H.
  apply returns_catch in H as [H|[e <-]]; [|cbn [fit_text]; lia].
  apply returns_bind in H as (d & _ & H). case_bool_decide; destruct H; cbn [fit_text]; [lia|]. rewrite slen_stake_nat. lia.
Qed.

Lemma fit_short {E P R} (raw : string) (generate : option (io E P R (option string))) f :
  slen raw <= Z.of_nat GOAL_OBJECTIVE_CHAR_LIMIT -> returns (fitObjective raw generate) f -> fit_text f = raw.
Proof. intros Hle. unfold fitObjective. rewrite (proj2 (Z.leb_le _ _)) by done. by intros <-. Qed.

Lemma fit_within_limit {E P R} (raw : string) (generate : option (io E P R (option string))) f :
  returns (fitObjective raw generate) f -> slen (fit_text f) <= Z.of_nat GOAL_OBJECTIVE_CHAR_LIMIT.
Proof.
  intros H. destruct (Z.le_gt_cases (slen raw) (Z.of_nat GOAL_OBJECTIVE_CHAR_LIMIT)) as [Hle|Hgt].
  - by rewrite (fit_short _ _ _ Hle H).
  - apply fit_length in H; [|done]. assert (Z.of_nat DISTILLED_OBJECTIVE_CHAR_LIMIT <= Z.of_nat GOAL_OBJECTIVE_CHAR_LIMIT) by by vm_compute. lia.
Qed.

(** Fitting an objective never throws, whatever the distilling call does; the text it
    returns is within the limit of an objective, the given one where that was within it,
    and within the distilled budget where it was not. *)
Theorem fitted_objective_fits {E P R} (raw : string) (generate : option (io E P R (option string))) :
  never_throws (fitObjective raw generate)
  /\ forall f, returns (fitObjective raw generate) f ->
     slen (fit_text f) <= Z.of_nat GOAL_OBJECTIVE_CHAR_LIMIT
     /\ (slen raw <= Z.of_nat GOAL_OBJECTIVE_CHAR_LIMIT -> fit_text f = raw)
     /\ (Z.of_nat GOAL_OBJECTIVE_CHAR_LIMIT < slen raw -> slen (fit_text f) <= Z.of_nat DISTILLED_OBJECTIVE_CHAR_LIMIT).
Proof.
  split; [apply fit_never_throws|]. intros f H. split_and!; [by apply fit_within_limit in H| |].
  - intros Hle. by apply fit_short in H.
  - intros Hgt. by apply fit_length in H.
Qed.

(** ** Words *)

Lemma index_of_lacks c s t : lacks c s = true -> index_of c (s +:+ String c t) = Some (String.length s).
Proof.
  induction s as [|a s IH]; cbn [lacks]; intros H.
  - change (index_of c (String c t) = Some 0%nat). cbn [index_of]. by rewrite Ascii.eqb_refl.
  - apply andb_true_iff in H as [Ha%negb_true_iff H]. change (index_of c (String a (s +:+ String c t)) = Some (S (String.length s))).
    cbn [index_of]. by rewrite Ha, (IH H).
Qed.

Definition quoted (w : string) : string := String dquote (w +:+ String dquote "").

Lemma next_quoted w rest : lacks dquote w = true -> next_word (quoted w +:+ rest) = Some (w, rest).
Proof.
  intros H. unfold quoted. change (next_word (String dquote ((w +:+ String dquote "") +:+ rest)) = Some (w, rest)).
  cbn [next_word]. change (Ascii.eqb dquote dquote) with true. cbv iota. unfold closed_by.
  assert ((w +:+ String dquote "") +:+ rest = w +:+ String dquote rest) as -> by by rewrite sapp_assoc.
  rewrite index_of_lacks by done. rewrite stake_app. do 2 f_equal.
  change (S (String.length w)) with (1 + String.length w)%nat. rewrite Nat.add_comm, <- sdrop_sdrop, sdrop_app. done.
Qed.

(** Words written in double quotes, one space apart, are the words of the argument text,
    whatever else they hold. *)
Theorem quoted_words_are_split ws : Forall (fun w => lacks dquote w = true) ws ->
  splitCommandArgs (String.concat " " (map quoted ws)) = ws.
Proof.
  intros H. unfold splitCommandArgs. set (s := String.concat " " (map quoted ws)).
  assert (forall fuel, (String.length s <= fuel)%nat -> words_from fuel s = ws) as Hw; [|by apply Hw].
  unfold s. clear s. induction H as [|w ws Hw H IH]; intros fuel Hf; [by destruct fuel|].
  destruct ws as [|w' ws].
  - change (String.concat " " (map quoted [w])) with (quoted w) in *. destruct fuel as [|fuel]; [cbn in Hf; lia|].
    cbn [words_from]. rewrite <- (sapp_nil_r (quoted w)), next_quoted by done. f_equal. by destruct fuel.
  - change (String.concat " " (map quoted (w :: w' :: ws)))
      with (quoted w +:+ String " " (String.concat " " (map quoted (w' :: ws)))) in *.
    rewrite slength_app in Hf. cbn [String.length quoted] in Hf. destruct fuel as [|[|fuel]]; [lia| |].
    { exfalso. unfold quoted in Hf. cbn in Hf. lia. }
    change (words_from (S (S fuel)) ?x) with (match next_word x with Some (w, rest) => w :: words_from (S fuel) rest | None => match x with String _ t => words_from (S fuel) t | EmptyString => [] end end).
    rewrite next_quoted by done. f_equal. change (words_from (S fuel) (String " " ?x)) with (words_from fuel x). apply IH. cbn in *. lia.
Qed.

Lemma quoted_words_are_split_witness :
  splitCommandArgs (String.concat " " (map quoted ["two words"; ""; "$1 it's"])) = ["two words"; ""; "$1 it's"].
Proof. apply quoted_words_are_split. repeat constructor. Defined.

(** ** Templates *)

Lemma substitution_literal pre post s : lacks dollar s = true -> substitution pre post s = s.
Proof.
  induction s as [|a s IH]; [done|]. cbn [lacks]. rewrite andb_true_iff, negb_true_iff. intros [Ha H].
  destruct s as [|b s]; [done|]. change (substitution pre post (String a (String b s))) with
    (if Ascii.eqb a dollar then
       if Ascii.eqb b dollar then String dollar (substitution pre post s)
       else if Ascii.eqb b "&" then ARGUMENTS +:+ substitution pre post s
       else if Ascii.eqb b "`" then pre +:+ substitution pre post s
       else if Ascii.eqb b squote then post +:+ substitution pre post s
       else String a (substitution pre post (String b s))
     else String a (substitution pre post (String b s))).
  by rewrite Ha, (IH H).
Qed.

Lemma starts_with_app a b : starts_with a (a +:+ b) = true.
Proof.
  induction a as [|c a IH]; [by destruct b|]. change (starts_with (String c a) (String c (a +:+ b)) = true).
  unfold starts_with in *. cbn [String.prefix]. by destruct (Ascii.ascii_dec c c).
Qed.

Lemma includes_starts p s : starts_with p s = true -> includes p s = true.
Proof. destruct s; cbn [includes]; intros ->; done. Qed.

(** The whole argument text goes in for the placeholder, if it has no dollar sign. *)
Lemma arguments_are_inserted pre post args :
  lacks dollar pre = true -> lacks dollar post = true -> lacks dollar args = true ->
  expandCommandTemplate (pre +:+ ARGUMENTS +:+ post) args = pre +:+ args +:+ post.
Proof.
  intros Hpre Hpost Hargs.
  assert (forall s, includes ARGUMENTS (s +:+ ARGUMENTS +:+ post) = true) as Hi.
  { intros s. induction s as [|a s IH]; [apply includes_starts, (starts_with_app ARGUMENTS)|].
    change (starts_with ARGUMENTS (String a (s +:+ ARGUMENTS +:+ post)) || includes ARGUMENTS (s +:+ ARGUMENTS +:+ post) = true).
    by rewrite IH, orb_true_r. }
  assert (forall fuel p s, lacks dollar s = true -> replace_arguments fuel p s args = s) as Hr.
  { intros fuel. induction fuel as [|fuel IH]; intros p s Hs; [done|]. cbn [replace_arguments].
    destruct s as [|a s]; [done|]. cbn [lacks] in Hs. apply andb_true_iff in Hs as [Ha%negb_true_iff Hs].
    assert (starts_with ARGUMENTS (String a s) = false) as ->.
    { cbn [starts_with ARGUMENTS String.prefix]. destruct (Ascii.ascii_dec _ a) as [<-|]; [done|done]. }
    by rewrite IH. }
  unfold expandCommandTemplate, hasPlaceholders. rewrite Hi. cbn [orb negb].
  assert (forall fuel p s, lacks dollar s = true -> (String.length (s +:+ ARGUMENTS) <= fuel)%nat ->
    replace_arguments fuel p (s +:+ ARGUMENTS +:+ post) args = s +:+ args +:+ post) as Hs; [|apply Hs; [done|rewrite !slength_app; lia]].
  intros fuel. induction fuel as [|fuel IH]; intros p s Hs Hf; [rewrite slength_app in Hf; cbn in Hf; lia|]. cbn [replace_arguments].
  destruct s as [|a s].
  - change ("" +:+ ARGUMENTS +:+ post) with (ARGUMENTS +:+ post). rewrite starts_with_app, sdrop_app, substitution_literal, Hr by done. done.
  - cbn [lacks] in Hs. apply andb_true_iff in Hs as [Ha%negb_true_iff Hs].
    change (String a s +:+ ARGUMENTS +:+ post) with (String a (s +:+ ARGUMENTS +:+ post)).
    assert (starts_with ARGUMENTS (String a (s +:+ ARGUMENTS +:+ post)) = false) as ->.
    { cbn [starts_with ARGUMENTS String.prefix]. destruct (Ascii.ascii_dec _ a) as [<-|]; done. }
    rewrite IH; [done|done|]. rewrite slength_app in *. cbn [String.length] in Hf. lia.
Qed.

(** A dollar sign in the arguments is read as a pattern of the replacement. *)
Lemma dollar_in_arguments_is_read :
  expandCommandTemplate "run $ARGUMENTS now" "cost $$5 of $& done" = "run cost $5 of $ARGUMENTS done now".
Proof. by vm_compute. Qed.

Lemma positions_by_hand :
  expandCommandTemplate "fix $1 in $2." "bug 'a file' with care" = "fix bug in a file with care."
  /\ expandCommandTemplate "fix $2 of $1$3" "bug file" = "fix file of bug"
  /\ expandCommandTemplate "fix it" " now " = "fix it now".
Proof. by vm_compute. Qed.

Lemma span_stops f s a t : sall f s = true -> f a = false -> span f (s +:+ String a t) = s.
Proof.
  intros Hs Ha. induction s as [|b s IH]; [change (span f (String a t) = ""); cbn [span]; by rewrite Ha|].
  cbn [sall] in Hs. apply andb_true_iff in Hs as [Hb Hs]. change (span f (String b (s +:+ String a t)) = String b s).
  cbn [span]. by rewrite Hb, (IH Hs).
Qed.

Lemma before_app c s t : lacks c s = true -> before c (s +:+ t) = s +:+ before c t.
Proof.
  induction s as [|a s IH]; [done|]. cbn [lacks]. rewrite andb_true_iff, negb_true_iff. intros [Ha H].
  change (before c (String a (s +:+ t)) = String a (s +:+ before c t)). cbn [before]. by rewrite Ha, (IH H).
Qed.

Lemma name_char_not_newline s : sall is_name_char s = true -> lacks "010" s = true.
Proof.
  induction s as [|a s IH]; [done|]. cbn [sall lacks]. rewrite !andb_true_iff. intros [Ha Hs]. split; [|by apply IH].
  apply negb_true_iff. destruct (Ascii.eqb_spec a "010") as [->|]; [by vm_compute in Ha|done].
Qed.

(** An invocation is read back: [/name], a blank and the arguments, on any number of
    lines, give the name and the arguments. *)
Theorem invocation_is_read_back name args :
  name <> "" -> sall is_name_char name = true ->
  (match args with String a _ => negb (is_blank a) | EmptyString => true end) = true ->
  commandNameOf ("/" +:+ name +:+ " " +:+ args) = Some name
  /\ commandArgsOf ("/" +:+ name +:+ " " +:+ args) name = args.
Proof.
  intros Hne Hn Ha. split.
  - unfold commandNameOf. rewrite before_app, before_app by (done || by apply name_char_not_newline).
    change ("/" +:+ name +:+ before "010" (" " +:+ args)) with (String "/" (name +:+ String " " (before "010" args))).
    cbv iota beta. rewrite (span_stops is_name_char name " ") by done. by rewrite bool_decide_false by done.
  - unfold commandArgsOf. rewrite <- (sapp_assoc "/" name), starts_with_app, sdrop_app. cbn [negb].
    change (trim_start_by is_blank (" " +:+ args)) with (trim_start_by is_blank args).
    destruct args as [|a args]; [done|]. apply negb_true_iff in Ha. cbn [trim_start_by]. by rewrite Ha.
Qed.

Lemma invocation_is_read_back_witness :
  commandNameOf ("/" +:+ "review" +:+ " " +:+ "the $1 file") = Some "review"
  /\ commandArgsOf ("/" +:+ "review" +:+ " " +:+ "the $1 file") "review" = "the $1 file".
Proof. apply invocation_is_read_back; [done|by vm_compute..]. Defined.
