(* ===== verification/SessionInput.v ===== *)
(** The requests of session orchestration
    (server/session-orchestration/session-orchestration-input.ts): what the bodies of
    the create, send and fork routes mean, or the error they are refused with.

    A body is an object; [None] is [undefined]. *)

From S2P Require Import Prelude JsString JsMap JsValue SessionReceipts.

Local Open Scope Z_scope.

Definition BUDGET_MIN : Z := 1000.
Definition BUDGET_MAX : Z := 100000000.

Definition asRecord (value : option json) : option json := match value with Some (JObj _ as v) => Some v | _ => None end.

Definition textOf (value : option json) (fallback : string) : string := match value with Some (JStr s) => s | _ => fallback end.

(** [a ?? b] *)
Definition nullish (a b : option json) : option json := match a with None | Some JNull => b | _ => a end.

(** [record?.key] *)
Definition member (key : string) (record : option json) : option json := match record with Some v => jfield key v | None => None end.

(** [text || undefined] *)
Definition or_undefined (text : string) : option string := if bool_decide (text = "") then None else Some text.

(** [text || other] *)
Definition or_else (text other : string) : string := if bool_decide (text = "") then other else text.

Record WorktreeRequest := mkWorktree {
  w_mode : option string;
  w_name : option string;
  w_branchName : option string;
  w_startRef : option string;
  w_setUpstream : bool }.

#[export] Instance WorktreeRequest_eq_dec : EqDecision WorktreeRequest.
Proof. solve_decision. Defined.

(** A refusal is a thrown error here; [Ok None] is [null]. *)
Definition parseWorktree (value : option json) : exc string (option WorktreeRequest) :=
  match value with
  | None | Some JNull => Ok None
  | Some (JStr s) =>
    let name := trim s in
    if bool_decide (name = "") then Throw "worktree must be a non-empty string or object"
    else Ok (Some (mkWorktree (Some "new") (Some name) (Some name) None false))
  | Some v =>
    match asRecord (Some v) with
    | None => Throw "worktree must be a JSON object when supplied"
    | Some record =>
      let mode := or_else (trim (textOf (jfield "mode" record) "")) "new" in
      if negb (bool_decide (mode = "new")) then Throw ("worktree.mode must be " +:+ String "034" ("new" +:+ String "034" ""))
      else
        let branch := trim (textOf (jfield "branchName" record) "") in
        let name := or_else (trim (textOf (jfield "name" record) "")) branch in
        if bool_decide (name = "") then Throw "worktree.name is required"
        else
          let requested startRef up := mkWorktree (Some mode) (Some name) (Some (or_else branch name)) startRef up in
          let upstream startRef :=
            match jfield "setUpstream" record with
            | None => Ok (Some (requested startRef false))
            | Some (JBool b) => Ok (Some (requested startRef b))
            | Some _ => Throw "worktree.setUpstream must be boolean"
            end in
          match jfield "startRef" record with
          | None => upstream None
          | Some r =>
            let startRef := trim (textOf (Some r) "") in
            if bool_decide (startRef = "") then Throw "worktree.startRef cannot be blank" else upstream (Some startRef)
          end
    end
  end.

Definition budgetError : string := "goalTokenBudget must be an integer from 1000 through 100000000".

(** [Ok None] is [undefined]; a refusal is [null] in the source. *)
Definition budgetOf (value : option json) : exc string (option Z) :=
  match value with
  | None => Ok None
  | Some _ =>
    match safe_int value with
    | Some n => if (n <? BUDGET_MIN) || (BUDGET_MAX <? n) then Throw budgetError else Ok (Some n)
    | None => Throw budgetError
    end
  end.

Record SelectionInput := mkSelection { s_model : option json; s_agent : option json; s_variant : option json }.

#[export] Instance SelectionInput_eq_dec : EqDecision SelectionInput.
Proof. solve_decision. Defined.

Definition selectionFromBody (body : json) : SelectionInput :=
  let selection := asRecord (jfield "selection" body) in
  mkSelection (nullish (member "model" selection) (jfield "model" body))
              (nullish (member "agent" selection) (jfield "agent" body))
              (nullish (member "variant" selection) (jfield "variant" body)).

Record ScopeInput := mkScope { sc_directory : option string; sc_projectId : option string }.

#[export] Instance ScopeInput_eq_dec : EqDecision ScopeInput.
Proof. solve_decision. Defined.

(** [c_goal]: the member is present, and [true], or absent. *)
Record CreateInput := mkCreate {
  c_scope : ScopeInput;
  c_title : option string;
  c_prompt : option string;
  c_selection : SelectionInput;
  c_goal : bool;
  c_goalTokenBudget : option Z;
  c_worktree : option WorktreeRequest;
  c_operationId : option string }.

#[export] Instance CreateInput_eq_dec : EqDecision CreateInput.
Proof. solve_decision. Defined.

Record RunInput := mkRun {
  n_scope : ScopeInput;
  n_prompt : string;
  n_selection : SelectionInput;
  n_goal : bool;
  n_goalTokenBudget : option Z;
  n_boundary : option string }.

(** [body.goal !== undefined ? typeof body.goal === 'boolean' ? body.goal : true : false] *)
Definition goal_flag (value : option json) : bool :=
  match value with None => false | Some (JBool b) => b | Some _ => true end.

Definition scopeOf (body : json) : ScopeInput :=
  mkScope (or_undefined (trim (textOf (jfield "directory" body) "")))
          (or_undefined (trim (textOf (nullish (jfield "projectID" body) (jfield "projectId" body)) ""))).

Definition bad_upstream (value : option json) : bool := match value with None | Some (JBool _) => false | Some _ => true end.

(** The upstream flag of the body itself. *)
Definition with_upstream (body : json) (worktree : option WorktreeRequest) : option WorktreeRequest :=
  match worktree with
  | Some w => Some (if is_true (jfield "setUpstream" body) then mkWorktree (w_mode w) (w_name w) (w_branchName w) (w_startRef w) true else w)
  | None => None
  end.

Definition parseCreateBody (body : json) : exc string CreateInput :=
  if bad_upstream (jfield "setUpstream" body) then Throw "setUpstream must be boolean"
  else
    let operationId := trim (textOf (jfield "operationId" body) "") in
    if negb (bool_decide (operationId = "")) && negb (is_operation_id operationId) then Throw "operationId must be a bounded identifier"
    else
      worktree ← parseWorktree (jfield "worktree" body);
      goalTokenBudget ← budgetOf (jfield "goalTokenBudget" body);
      let goal := goal_flag (jfield "goal" body) in
      let prompt := textOf (jfield "prompt" body) "" in
      if goal && bool_decide (trim prompt = "") then Throw "goal may only be armed with a prompt"
      else if negb (bool_decide (goalTokenBudget = None)) && negb goal then Throw "goalTokenBudget requires goal"
      else Ok (mkCreate (scopeOf body)
                        (or_undefined (trim (textOf (jfield "title" body) "")))
                        (if bool_decide (trim prompt = "") then None else Some prompt)
                        (selectionFromBody body) goal goalTokenBudget (with_upstream body worktree)
                        (or_undefined operationId)).

Definition parseRunBody (body : json) : exc string RunInput :=
  goalTokenBudget ← budgetOf (jfield "goalTokenBudget" body);
  let prompt := trim (textOf (nullish (jfield "prompt" body) (jfield "text" body)) "") in
  if bool_decide (prompt = "") then Throw "prompt is required"
  else
    let goal := goal_flag (jfield "goal" body) in
    if negb (bool_decide (goalTokenBudget = None)) && negb goal then Throw "goalTokenBudget requires goal"
    else Ok (mkRun (scopeOf body) prompt (selectionFromBody body) goal goalTokenBudget
                   (or_undefined (trim (textOf (nullish (jfield "forkMessageId" body) (jfield "messageID" body)) "")))).

(** ** The identity of a creation (session-orchestration-service.ts) *)

(** The members present. *)
Definition present (members : list (string * option json)) : list (string * json) :=
  omap (fun x => v ← x.2; Some (x.1, v)) members.

Definition selection_json (s : SelectionInput) : json :=
  JObj (present [("model", s_model s); ("agent", s_agent s); ("variant", s_variant s)]).

Definition scope_json (s : ScopeInput) : json :=
  JObj (present [("directory", JStr <$> sc_directory s); ("projectId", JStr <$> sc_projectId s)]).

Definition worktree_json (w : WorktreeRequest) : json :=
  JObj (present [("branchName", JStr <$> w_branchName w); ("mode", JStr <$> w_mode w); ("name", JStr <$> w_name w);
                 ("startRef", JStr <$> w_startRef w); ("setUpstream", if w_setUpstream w then Some (JBool true) else None)]).

(** All the caller asked for, but the operation id. *)
Definition payload_json (i : CreateInput) : json :=
  JObj (present [("scope", Some (scope_json (c_scope i))); ("title", JStr <$> c_title i); ("prompt", JStr <$> c_prompt i);
                 ("selection", Some (selection_json (c_selection i))); ("goal", if c_goal i then Some (JBool true) else None);
                 ("goalTokenBudget", JInt <$> c_goalTokenBudget i); ("worktree", worktree_json <$> c_worktree i)]).

Definition operationFingerprint (digest : json -> string) (i : CreateInput) : string :=
  fingerprintOf digest (Some (payload_json i)).

(** ** What a parsed request is *)

(** A text that [trim] leaves as it is, and is not empty. *)
Definition trimmed (s : string) : Prop := trim s = s /\ s <> "".

Definition opt_all {A} (P : A -> Prop) (o : option A) : Prop := match o with Some a => P a | None => True end.

Definition worktree_ok (w : WorktreeRequest) : Prop :=
  w_mode w = Some "new" /\ (exists name, w_name w = Some name /\ trimmed name)
  /\ (exists branch, w_branchName w = Some branch /\ trimmed branch) /\ opt_all trimmed (w_startRef w).

Definition scope_ok (s : ScopeInput) : Prop := opt_all trimmed (sc_directory s) /\ opt_all trimmed (sc_projectId s).

Definition goal_ok (prompt : option string) (goal : bool) (budget : option Z) : Prop :=
  (goal = true -> is_Some prompt) /\ opt_all (fun n => goal = true /\ BUDGET_MIN <= n <= BUDGET_MAX) budget.

Definition create_ok (i : CreateInput) : Prop :=
  scope_ok (c_scope i) /\ opt_all trimmed (c_title i) /\ opt_all (fun p => trim p <> "") (c_prompt i)
  /\ goal_ok (c_prompt i) (c_goal i) (c_goalTokenBudget i) /\ opt_all worktree_ok (c_worktree i)
  /\ opt_all (fun id => is_operation_id id = true) (c_operationId i).

Lemma trimmed_trim s : trim s <> "" -> trimmed (trim s).
Proof. intros H. split; [apply trim_idem|done]. Qed.

Lemma or_undefined_trimmed s : opt_all trimmed (or_undefined (trim s)).
Proof. unfold or_undefined. case_bool_decide; [exact I|]. by apply trimmed_trim. Qed.

Lemma or_else_trimmed s t : (trim s = "" -> trimmed t) -> trimmed (or_else (trim s) t).
Proof. intros H. unfold or_else. case_bool_decide; [by apply H|by apply trimmed_trim]. Qed.

Lemma scopeOf_ok body : scope_ok (scopeOf body).
Proof. split; apply or_undefined_trimmed. Qed.

Lemma budgetOf_ok v b : budgetOf v = Ok b -> opt_all (fun n => BUDGET_MIN <= n <= BUDGET_MAX) b.
Proof.
  unfold budgetOf. destruct v as [v|]; [|by intros [= <-]]. destruct (safe_int _) as [n|]; [|done].
  destruct (Z.ltb_spec n BUDGET_MIN), (Z.ltb_spec BUDGET_MAX n); cbn; intros [= <-]. cbn. lia.
Qed.

Lemma parseWorktree_ok v w : parseWorktree v = Ok w -> opt_all worktree_ok w.
Proof.
  destruct v as [[| | |s| |l]|]; cbn [parseWorktree asRecord]; try discriminate; try (intros [= <-]; exact I).
  - case_bool_decide; intros [= <-]. assert (trimmed (trim s)) as Ht by by apply trimmed_trim.
    split_and!; cbn; [done|by exists (trim s)..|exact I].
  - case_bool_decide as Hm; [|done]. cbn [negb]. case_bool_decide as Hn; [done|].
    set (branch := textOf (jfield "branchName" (JObj l)) "") in *. set (nm := textOf (jfield "name" (JObj l)) "") in *.
    assert (trimmed (or_else (trim nm) (trim branch))) as Ht.
    { apply or_else_trimmed. intros E. apply trimmed_trim. intros E'. apply Hn. unfold or_else. by rewrite E, E'. }
    assert (forall startRef up, opt_all trimmed startRef -> worktree_ok (mkWorktree (Some (or_else (trim (textOf (jfield "mode" (JObj l)) "")) "new"))
        (Some (or_else (trim nm) (trim branch))) (Some (or_else (trim branch) (or_else (trim nm) (trim branch)))) startRef up)) as Hok.
    { intros startRef up Hs. rewrite Hm. split_and!; cbn; [done|by eexists| |done]. eexists. split; [done|]. by apply or_else_trimmed. }
    destruct (jfield "startRef" (JObj l)) as [r|]; [case_bool_decide; [done|]|];
      (destruct (jfield "setUpstream" (JObj l)) as [[]|]; intros [= <-]; apply Hok; try exact I; by apply trimmed_trim).
Qed.

Lemma goal_checked (goal : bool) (prompt : string) (b : option Z) :
  opt_all (fun n => BUDGET_MIN <= n <= BUDGET_MAX) b ->
  goal && bool_decide (trim prompt = "") = false -> negb (bool_decide (b = None)) && negb goal = false ->
  goal_ok (if bool_decide (trim prompt = "") then None else Some prompt) goal b.
Proof.
  intros Hb Eg Eb. split.
  - intros ->. case_bool_decide; [done|by eexists].
  - destruct b as [n|]; [|exact I]. destruct goal; [by split|done].
Qed.

Lemma operation_checked id : negb (bool_decide (id = "")) && negb (is_operation_id id) = false ->
  opt_all (fun id => is_operation_id id = true) (or_undefined id).
Proof. unfold or_undefined. case_bool_decide; [exact (fun _ => I)|]. by destruct (is_operation_id id) eqn:E. Qed.

Lemma upstream_ok body w : opt_all worktree_ok w -> opt_all worktree_ok (with_upstream body w).
Proof. destruct w; [|done]. cbn. by destruct (is_true _). Qed.

(** What the create route accepts is well formed: names, directories and titles are
    trimmed and not empty, a goal has a prompt, a budget has a goal and is in its range, a
    worktree names its branch, and an operation id is a bounded identifier. *)
Theorem parsed_creation_is_well_formed body i : parseCreateBody body = Ok i -> create_ok i.
Proof.
  unfold parseCreateBody. destruct (bad_upstream _); [done|]. destruct (_ && negb (is_operation_id _)) eqn:Ei; [done|].
  destruct (parseWorktree _) as [w|] eqn:Ew; [|done]. destruct (budgetOf _) as [b|] eqn:Eb; [|done]. cbn [mbind exc_bind].
  destruct (goal_flag _ && _) eqn:Eg; [done|]. destruct (_ && negb (goal_flag _)) eqn:Ebg; [done|]. intros [= <-]. split_and!.
  - apply scopeOf_ok.
  - apply or_undefined_trimmed.
  - cbn [c_prompt]. destruct (bool_decide (trim (textOf (jfield "prompt" _) _) = "")) eqn:E; [exact I|]. by apply bool_decide_eq_false in E.
  - apply goal_checked; [by apply budgetOf_ok in Eb|done..].
  - by apply upstream_ok, (parseWorktree_ok _ _ Ew).
  - by apply operation_checked.
Qed.

Lemma parsed_creation_is_well_formed_witness :
  let body := JObj [("directory", JStr " /p "); ("prompt", JStr "go"); ("goal", JNull); ("goalTokenBudget", JInt 5000);
                    ("worktree", JStr "fix"); ("operationId", JStr "op-1")] in
  exists i, parseCreateBody body = Ok i /\ create_ok i.
Proof.
  intros body. destruct (parseCreateBody body) as [i|] eqn:E; [|by vm_compute in E].
  exists i. split; [done|]. by apply (parsed_creation_is_well_formed body).
Defined.

(** ** What makes two requests the same *)

Definition same_selection (a b : SelectionInput) : Prop :=
  option_Forall2 same (s_model a) (s_model b) /\ option_Forall2 same (s_agent a) (s_agent b)
  /\ option_Forall2 same (s_variant a) (s_variant b).

Definition same_creation (a b : CreateInput) : Prop :=
  c_scope a = c_scope b /\ c_title a = c_title b /\ c_prompt a = c_prompt b /\ c_goal a = c_goal b
  /\ c_goalTokenBudget a = c_goalTokenBudget b /\ c_worktree a = c_worktree b /\ same_selection (c_selection a) (c_selection b).

Definition plain_opt (v : option json) : bool := match v with Some v => plain v | None => true end.

Definition plain_selection (s : SelectionInput) : bool := plain_opt (s_model s) && plain_opt (s_agent s) && plain_opt (s_variant s).

Lemma present_cons k o ms : present ((k, o) :: ms) = match o with Some v => (k, v) :: present ms | None => present ms end.
Proof. unfold present. cbn. by destruct o. Qed.

Lemma present_keys ms k : k ∈ jkeys (present ms) -> k ∈ ms.*1.
Proof.
  induction ms as [|[k' o] ms IH]; [done|]. rewrite present_cons. cbn.
  destruct o; [|intros H; right; by apply IH]. cbn. rewrite !elem_of_cons. naive_solver.
Qed.

Lemma jget_present ms key : NoDup ms.*1 -> jget key (present ms) = mjoin (jget key ms).
Proof.
  induction ms as [|[k o] ms IH]; [done|]. cbn [fmap list_fmap fst]. intros [Hk Hn]%NoDup_cons. rewrite present_cons. cbn [jget].
  destruct (decide (key = k)) as [->|Hne].
  - destruct o as [v|]; cbn [jget]; [by rewrite decide_True|]. cbn. apply jget_None. intros H. by apply Hk, present_keys.
  - destruct o as [v|]; cbn [jget]; [rewrite decide_False by done|]; by apply IH.
Qed.

Lemma plain_present ms : bool_decide (NoDup ms.*1) && negb (bool_decide ("__proto__" ∈ ms.*1)) = true ->
  forallb (fun x => plain_opt x.2) ms = true -> plain (JObj (present ms)) = true.
Proof.
  rewrite andb_true_iff, negb_true_iff. intros [Hn%bool_decide_eq_true Hp%bool_decide_eq_false] Hf.
  assert (forallb (fun x => plain x.2) (present ms) = true) as Hf'.
  { clear Hn Hp. induction ms as [|[k o] ms IH]; [done|]. cbn in Hf. apply andb_true_iff in Hf as [Ho Hf]. rewrite present_cons.
    destruct o; [|by apply IH]. cbn in *. by rewrite Ho, IH. }
  cbn [plain]. rewrite Hf'. rewrite bool_decide_true, bool_decide_false; [done| |].
  - intros H. by apply Hp, present_keys.
  - clear Hp Hf Hf'. unfold jwf. induction ms as [|[k o] ms IH]; [constructor|]. cbn in Hn. apply NoDup_cons in Hn as [Hk Hn].
    rewrite present_cons. destruct o; [|by apply IH]. cbn. constructor; [intros H; by apply Hk, present_keys|by apply IH].
Qed.

(** Objects made of members that may be absent are the same when their members are. *)
Lemma same_present ms ms' : NoDup ms.*1 -> ms.*1 = ms'.*1 ->
  same (JObj (present ms)) (JObj (present ms')) <-> Forall2 (fun x y => option_Forall2 same x.2 y.2) ms ms'.
Proof.
  intros Hn Hk. split.
  - intros H. inversion H as [| | | | |l k Hs E1 E2]; subst. clear H.
    assert (forall key, option_Forall2 same (mjoin (jget key ms)) (mjoin (jget key ms'))) as H.
    { intros key. specialize (Hs key). rewrite !jget_present in Hs; [done|by rewrite <- Hk|done]. }
    clear Hs. revert ms' Hk H. induction ms as [|[k o] ms IH]; intros [|[k' o'] ms'] Hk H; try done. cbn in Hk, Hn.
    injection Hk as -> Hk. apply NoDup_cons in Hn as [Hnin Hn]. constructor.
    + specialize (H k'). cbn in H. by rewrite !decide_True in H.
    + apply IH; [done..|]. intros key. specialize (H key). cbn in H. destruct (decide (key = k')) as [->|]; [|done].
      assert (jget k' ms = None) as -> by by apply jget_None. assert (jget k' ms' = None) as ->; [|constructor].
      apply jget_None. unfold jkeys. by rewrite <- Hk.
  - intros H. constructor. intros key. rewrite !jget_present; [|by rewrite <- Hk|done]. clear Hn. revert Hk.
    induction H as [|[k o] [k' o'] ms ms' Ho _ IH]; [constructor|]. cbn. intros [= -> Hk].
    destruct (decide (key = k')); [done|by apply IH].
Qed.

Lemma same_text (a b : option string) : option_Forall2 same (JStr <$> a) (JStr <$> b) <-> a = b.
Proof.
  split; [|intros ->; destruct b; repeat constructor].
  destruct a, b; intros H; inversion H as [x y Hs|]; try done. inversion Hs. by subst.
Qed.

Lemma same_num_inv m n : same (JNum m) (JNum n) -> JNum m = JNum n.
Proof. intros H. by inversion H. Qed.

Lemma same_number (a b : option Z) : option_Forall2 same (JInt <$> a) (JInt <$> b) <-> a = b.
Proof.
  split; [|intros ->; destruct b; repeat constructor].
  destruct a, b; intros H; inversion H as [x y Hs|]; try done. f_equal. apply JInt_inj. by apply same_num_inv.
Qed.

Lemma same_flag (a b : bool) :
  option_Forall2 same (if a then Some (JBool true) else None) (if b then Some (JBool true) else None) <-> a = b.
Proof. split; [|intros ->; destruct b; repeat constructor]. destruct a, b; intros H; inversion H; done. Qed.

Lemma same_some a b : option_Forall2 same (Some a) (Some b) <-> same a b.
Proof. split; [intros H; by inversion H|by constructor]. Qed.

Lemma same_nodup {V} (ks : list (string * V)) : bool_decide (NoDup ks.*1) = true -> NoDup ks.*1.
Proof. apply bool_decide_eq_true. Qed.

(** The members, one by one. *)
Ltac by_members :=
  rewrite same_present by ((apply same_nodup; vm_compute; reflexivity) || reflexivity);
  rewrite !Forall2_cons, Forall2_nil; cbn [snd]; rewrite ?same_text, ?same_number, ?same_flag, ?same_some.

Lemma same_scope a b : same (scope_json a) (scope_json b) <-> a = b.
Proof. unfold scope_json. by_members. destruct a, b; cbn; naive_solver. Qed.

Lemma same_worktree a b : same (worktree_json a) (worktree_json b) <-> a = b.
Proof. unfold worktree_json. by_members. destruct a, b; cbn; naive_solver. Qed.

Lemma same_worktrees (a b : option WorktreeRequest) : option_Forall2 same (worktree_json <$> a) (worktree_json <$> b) <-> a = b.
Proof.
  split; [|intros ->; destruct b; constructor; by apply same_worktree].
  destruct a, b; intros H; inversion H as [x y Hs|]; try done. f_equal. by apply same_worktree.
Qed.

Lemma same_payload a b : same (payload_json a) (payload_json b) <-> same_creation a b.
Proof.
  unfold payload_json, same_creation, same_selection. by_members. rewrite same_scope, same_worktrees.
  unfold selection_json. by_members. naive_solver.
Qed.

Lemma plain_text (o : option string) : plain_opt (JStr <$> o) = true.
Proof. by destruct o. Qed.

Lemma plain_payload i : plain_selection (c_selection i) = true -> plain (payload_json i) = true.
Proof.
  unfold plain_selection. rewrite !andb_true_iff. intros [[H1 H2] H3]. unfold payload_json.
  apply plain_present; [by vm_compute|]. cbn [forallb snd]. rewrite !plain_text.
  assert (plain (scope_json (c_scope i)) = true) as Hs
    by (apply plain_present; [by vm_compute|]; cbn [forallb snd]; by rewrite !plain_text).
  assert (plain (selection_json (c_selection i)) = true) as Hl
    by (apply plain_present; [by vm_compute|]; cbn [forallb snd]; by rewrite H1, H2, H3).
  assert (plain_opt (worktree_json <$> c_worktree i) = true) as Hw.
  { destruct (c_worktree i) as [w|]; [|done]. apply plain_present; [by vm_compute|]. cbn [forallb snd]. rewrite !plain_text.
    by destruct (w_setUpstream w). }
  cbn [plain_opt]. rewrite Hs, Hl, Hw. by destruct (c_goal i), (c_goalTokenBudget i).
Qed.

(** C40. The canonical payloads whose digests tell two requests under one operation id apart
    are equal exactly when the requests ask for the same: the same scope, title, prompt,
    goal, budget and worktree, and the model, agent and variant up to the order of their
    members. The condition on both sides: no object in the model, agent or variant repeats
    a member or has one named [__proto__], which the canonical form loses (see
    [SessionReceipts.proto_member_is_ignored]). That the digest itself tells payloads apart
    is not part of the claim. *)
Theorem requests_are_told_apart a b : plain_selection (c_selection a) = true -> plain_selection (c_selection b) = true ->
  canonicalize (payload_json a) = canonicalize (payload_json b) <-> same_creation a b.
Proof.
  intros Ha%plain_payload Hb%plain_payload. rewrite <- same_payload.
  split; [by apply canonicalize_same|by apply same_canonicalize].
Qed.

#[local] Definition ex_creation (prompt : string) (model : list (string * json)) : CreateInput :=
  mkCreate (mkScope (Some "/p") None) None (Some prompt) (mkSelection (Some (JObj model)) None None) false None None (Some "op").

Lemma requests_are_told_apart_witness :
  let a := ex_creation "go" [("providerID", JStr "x"); ("modelID", JStr "y")] in
  let b := ex_creation "go" [("modelID", JStr "y"); ("providerID", JStr "x")] in
  let c := ex_creation "stop" [("modelID", JStr "y"); ("providerID", JStr "x")] in
  same_creation a b /\ canonicalize (payload_json a) <> canonicalize (payload_json c).
Proof.
  intros a b c. split.
  - apply requests_are_told_apart; by vm_compute.
  - intros H. apply requests_are_told_apart in H as (_ & _ & H & _); [by vm_compute in H|by vm_compute..].
Defined.
