(* ===== verification/SessionSelection.v ===== *)
(** The model and the agent a prompt goes to
    (server/session-orchestration/session-orchestration-selection.ts).

    The inventory is what the harness answers: lists of JSON values, tested where the code
    tests them. *)

From S2P Require Import Prelude JsString JsMap JsValue SessionReceipts SessionInput.

Local Open Scope Z_scope.

(** [Object.values] and [Object.keys], of [null ?? {}] too. *)
Definition object_values (v : option json) : list json :=
  match v with Some (JObj fields) => jvals (own_order fields) | Some (JArr l) => l | _ => [] end.

Definition index_keys (n : nat) : list string := map (fun i => pretty (N.of_nat i)) (seq 0 n).

Definition object_keys (v : option json) : list string :=
  match v with
  | Some (JObj fields) => jkeys (own_order fields)
  | Some (JArr l) => index_keys (length l)
  | Some (JStr s) => index_keys (String.length s)
  | _ => []
  end.

(** ** The inventory *)

Record Entry := mkEntry { e_provider : string; e_model : string; e_variants : list string }.

#[export] Instance Entry_eq_dec : EqDecision Entry.
Proof. solve_decision. Defined.

Definition model_key (providerID modelID : string) : string := providerID +:+ "/" +:+ modelID.

Definition addModel (providerID : string) (resolved : list (string * Entry)) (model : json) : list (string * Entry) :=
  match jfield "id" model with
  | Some (JStr modelID) =>
    jset (model_key providerID modelID) (mkEntry providerID modelID (object_keys (jfield "variants" model))) resolved
  | _ => resolved
  end.

Definition addProvider (resolved : list (string * Entry)) (provider : json) : list (string * Entry) :=
  match jfield "id" provider with
  | Some (JStr providerID) => fold_left (addModel providerID) (object_values (jfield "models" provider)) resolved
  | _ => resolved
  end.

Definition providerModelsFrom (providers : list json) : list (string * Entry) := fold_left addProvider providers [].

(** The key of an explicit model; [None] is [null]. *)
Definition explicitModel (value : option json) : option string :=
  match value with
  | Some (JStr s) => or_undefined (trim s)
  | _ =>
    match asRecord value with
    | None => None
    | Some record =>
      let providerID := trim (textOf (jfield "providerID" record) "") in
      let modelID := trim (textOf (jfield "modelID" record) "") in
      if bool_decide (providerID = "") || bool_decide (modelID = "") then None else Some (model_key providerID modelID)
    end
  end.

Definition is_primary (agent : json) : bool :=
  is_string (jfield "name" agent) && is_str (jfield "mode" agent) "primary" && negb (is_true (jfield "hidden" agent)).

Definition primaryAgents (agents : list json) : list json := List.filter is_primary agents.

Record Chosen := mkChosen { ch_provider : string; ch_model : string; ch_variant : option string }.

(** [const [providerID, modelID] = value.split('/', 2)] *)
Definition split_model (s : string) : option Chosen :=
  match split_on "/" s with
  | p :: m :: _ => if bool_decide (p = "") || bool_decide (m = "") then None else Some (mkChosen p m None)
  | _ => None
  end.

Definition modelSelectionOf (value : option json) : option Chosen :=
  match value with
  | Some (JStr s) => split_model s
  | _ =>
    match asRecord value with
    | None => None
    | Some record =>
      let providerID := trim (textOf (jfield "providerID" record) "") in
      let modelID := trim (textOf (jfield "modelID" record) "") in
      if bool_decide (providerID = "") || bool_decide (modelID = "") then None
      else Some (mkChosen providerID modelID (or_undefined (trim (textOf (jfield "variant" record) ""))))
    end
  end.

(** [agents.find((entry) => entry.name === agent)]: reading a member of [null] throws. *)
Fixpoint find_agent (agents : list json) (agent : string) : exc string (option json) :=
  match agents with
  | [] => Ok None
  | JNull :: _ => Throw "Cannot read properties of null (reading 'name')"
  | entry :: agents => if is_str (jfield "name" entry) agent then Ok (Some entry) else find_agent agents agent
  end.

Definition agentModelOf (agents : list json) (agent : string) : exc string (option string) :=
  entry ← find_agent agents agent;
  Ok match entry with
     | Some entry => or_undefined (trim (textOf (jfield "model" entry) ""))
     | None => None
     end.

(** ** The choice *)

Record OrchestratorSettings := mkSettings {
  defaultAgent : option string;
  defaultModel : option string;
  defaultVariant : option string }.

Record ResolvedSelection := mkResolved {
  sel_provider : string;
  sel_model : string;
  sel_variant : option string;
  sel_agent : string }.

#[export] Instance ResolvedSelection_eq_dec : EqDecision ResolvedSelection.
Proof. solve_decision. Defined.

(** A refusal ends the function with a response: [inr]. *)
Abbreviation outcome A := (exc string (A + SessionOrchestrationResponse)).

Definition refuse {A} (status : Z) (error : string) : outcome A := Ok (inr (fail status error)).

Definition andThen {A B} (m : outcome A) (f : A -> outcome B) : outcome B :=
  match m with Ok (inl a) => f a | Ok (inr r) => Ok (inr r) | Throw e => Throw e end.

Definition quote (s : string) : string := "'" +:+ s +:+ "'".

(** A mode is a text, or absent. *)
Definition mode_text (agent : json) : string :=
  match jfield "mode" agent with Some (JStr m) => m | _ => "unavailable" end.

Definition validAgents (agents : list json) : list string := map (fun a => textOf (jfield "name" a) "") (primaryAgents agents).

(** The first of the candidates that is a valid agent, and else the first valid one. *)
Definition default_agent (settings : OrchestratorSettings) (valid : list string) (config : json) : string :=
  let configured := trim (textOf (nullish (jfield "default_agent" config) (jfield "defaultAgent" config)) "") in
  let candidates := [default "" (defaultAgent settings); configured; "build"] in
  match List.find (fun c => bool_decide (c ∈ valid)) (List.filter (fun c => negb (bool_decide (c = ""))) (map trim candidates)) with
  | Some agent => agent
  | None => default "" (head valid)
  end.

Definition resolve_agent (settings : OrchestratorSettings) (request : SelectionInput) (agents : list json) (config : json) : outcome string :=
  let valid := validAgents agents in
  match s_agent request with
  | None => Ok (inl (default_agent settings valid config))
  | Some _ =>
    let agent := trim (textOf (s_agent request) "") in
    if bool_decide (agent = "") then refuse 400 "agent must be a non-empty string"
    else if bool_decide (agent ∈ valid) then Ok (inl agent)
    else match find_agent agents agent with
         | Throw e => Throw e
         | Ok (Some attached) => refuse 400 ("Agent " +:+ quote agent +:+ " is " +:+ mode_text attached +:+ " and cannot receive a prompt directly")
         | Ok None => refuse 400 ("Unknown agent " +:+ quote agent)
         end
  end.

(** The candidates in order; the first one in the inventory. *)
Fixpoint first_candidate (modelMap : list (string * Entry)) (candidates : list (option string * option string)) : option Chosen :=
  match candidates with
  | [] => None
  | (value, variant) :: rest =>
    match split_model (default "" value) with
    | Some c =>
      if jhas (model_key (ch_provider c) (ch_model c)) modelMap
      then Some (match variant with Some v => mkChosen (ch_provider c) (ch_model c) (or_undefined v) | None => c end)
      else first_candidate modelMap rest
    | None => first_candidate modelMap rest
    end
  end.

Definition first_model (modelMap : list (string * Entry)) : option Chosen :=
  match modelMap with (_, e) :: _ => Some (mkChosen (e_provider e) (e_model e) None) | [] => None end.

Definition or_option {A} (a b : option A) : option A := match a with Some _ => a | None => b end.

Definition resolve_model (settings : OrchestratorSettings) (request : SelectionInput) (modelMap : list (string * Entry))
    (requestedModel agentModel : option string) (config : json) : option Chosen :=
  let asked := match requestedModel with Some _ => modelSelectionOf (s_model request) | None => None end in
  let candidates := [(defaultModel settings, defaultVariant settings); (agentModel, None);
                     (Some (textOf (jfield "model" config) ""), None)] in
  or_option asked (or_option (first_candidate modelMap candidates) (first_model modelMap)).

Definition resolve_variant (request : SelectionInput) (modelMap : list (string * Entry)) (c : Chosen) : outcome Chosen :=
  andThen (match s_variant request with
           | None => Ok (inl c)
           | Some _ =>
             let variant := trim (textOf (s_variant request) "") in
             if bool_decide (variant = "") then refuse 400 "variant must be a non-empty string"
             else Ok (inl (mkChosen (ch_provider c) (ch_model c) (Some variant)))
           end)
    (fun c =>
       match ch_variant c with
       | None => Ok (inl c)
       | Some variant =>
         match jget (model_key (ch_provider c) (ch_model c)) modelMap with
         | None => refuse 400 ("Unknown model " +:+ quote (model_key (ch_provider c) (ch_model c)))
         | Some entry =>
           if bool_decide (variant ∈ e_variants entry) then Ok (inl c)
           else refuse 400 ("Unknown variant " +:+ quote variant +:+ " for model " +:+ model_key (ch_provider c) (ch_model c))
         end
       end).

Definition check_model (request : SelectionInput) (modelMap : list (string * Entry)) (requestedModel : option string) : outcome unit :=
  match s_model request with
  | None => Ok (inl tt)
  | Some _ =>
    match requestedModel with
    | None => refuse 400 "model must contain providerID and modelID"
    | Some key => if jhas key modelMap then Ok (inl tt) else refuse 400 ("Unknown model " +:+ quote key)
    end
  end.

Definition resolveSelection (settings : OrchestratorSettings) (request : SelectionInput)
    (providers agents : list json) (config : json) : outcome ResolvedSelection :=
  let modelMap := providerModelsFrom providers in
  if bool_decide (modelMap = []) then refuse 400 "No model available"
  else
    let requestedModel := explicitModel (s_model request) in
    andThen (check_model request modelMap requestedModel) (fun _ =>
    andThen (resolve_agent settings request agents config) (fun agent =>
    match agentModelOf agents agent with
    | Throw e => Throw e
    | Ok agentModel =>
      match resolve_model settings request modelMap requestedModel agentModel config with
      | None => refuse 400 "No model available"
      | Some c =>
        andThen (resolve_variant request modelMap c) (fun c =>
          if bool_decide (agent = "") then refuse 400 "No primary agent available"
          else Ok (inl (mkResolved (ch_provider c) (ch_model c) (ch_variant c) agent)))
      end
    end)).

(** ** The choice is one of the inventory *)

(** Every key of the map is that of its entry. *)
Definition keyed (m : list (string * Entry)) : Prop :=
  forall key e, jget key m = Some e -> key = model_key (e_provider e) (e_model e).

Lemma keyed_add p m model : keyed m -> keyed (addModel p m model).
Proof.
  intros Hm. unfold addModel. destruct (jfield "id" model) as [[]|]; try done. intros key e. destruct (decide (key = model_key p s)) as [->|Hne].
  - rewrite jget_set_eq. by intros [= <-].
  - rewrite jget_set_ne by done. apply Hm.
Qed.

Lemma keyed_inventory providers : keyed (providerModelsFrom providers).
Proof.
  unfold providerModelsFrom. assert (keyed []) as H by done. revert H. generalize (@nil (string * Entry)) as m.
  induction providers as [|p providers IH]; intros m Hm; [done|]. cbn. apply IH. unfold addProvider.
  destruct (jfield "id" p) as [[]|]; try done. revert m Hm. induction (object_values (jfield "models" p)) as [|v vs IHv]; intros m Hm; [done|].
  cbn. by apply IHv, keyed_add.
Qed.

(** Some provider lists a model under the joined name [name], with these variants. *)
Definition offered (providers : list json) (name : string) (variants : list string) : Prop :=
  exists provider model providerID modelID,
    provider ∈ providers /\ jfield "id" provider = Some (JStr providerID)
    /\ model ∈ object_values (jfield "models" provider) /\ jfield "id" model = Some (JStr modelID)
    /\ name = model_key providerID modelID /\ variants = object_keys (jfield "variants" model).

(** Some agent of this name is primary and not hidden. *)
Definition addressable (agents : list json) (name : string) : Prop :=
  exists agent, agent ∈ agents /\ jfield "name" agent = Some (JStr name)
    /\ jfield "mode" agent = Some (JStr "primary") /\ jfield "hidden" agent <> Some (JBool true).

Lemma inventory_is_offered providers key e : jget key (providerModelsFrom providers) = Some e -> offered providers key (e_variants e).
Proof.
  assert (forall ps m, ps ⊆ providers -> (forall key e, jget key m = Some e -> offered providers key (e_variants e)) ->
    forall key e, jget key (fold_left addProvider ps m) = Some e -> offered providers key (e_variants e)) as H;
    [|by apply (H providers []); [done|]].
  induction ps as [|p ps IH]; intros m Hps Hm; [exact Hm|]. cbn. apply IH; [set_solver|]. unfold addProvider.
  destruct (jfield "id" p) as [[]|] eqn:Ep; try done.
  assert (forall vs m, vs ⊆ object_values (jfield "models" p) -> (forall key e, jget key m = Some e -> offered providers key (e_variants e)) ->
    forall key e, jget key (fold_left (addModel s) vs m) = Some e -> offered providers key (e_variants e)) as H; [|by apply H].
  clear m Hm IH. induction vs as [|v vs IH]; intros m Hvs Hm; [exact Hm|]. cbn. apply IH; [set_solver|]. unfold addModel.
  destruct (jfield "id" v) as [[]|] eqn:Ev; try done. intros k x. destruct (decide (k = model_key s s0)) as [->|Hne].
  - rewrite jget_set_eq. intros [= <-]. exists p, v, s, s0. cbn. split_and!; [set_solver|done|set_solver|done..].
  - rewrite jget_set_ne by done. apply Hm.
Qed.

Lemma valid_is_addressable agents name : name ∈ validAgents agents -> addressable agents name.
Proof.
  unfold validAgents, primaryAgents. intros (a & E & Ha)%list_elem_of_In%in_map_iff. apply filter_In in Ha as [Hin Hp].
  apply list_elem_of_In in Hin. exists a. revert E Hp. unfold is_primary, is_string, is_str, is_true, textOf.
  destruct (jfield "name" a) as [[]|]; try done. intros -> Hp. split_and!; [done..| |].
  - revert Hp. destruct (jfield "mode" a) as [[]|]; try done. cbn. case_bool_decide; [by subst|done].
  - intros Hh. rewrite Hh in Hp. by rewrite !andb_false_r in Hp.
Qed.

(** An explicit model the two readings of it agree on: a text of two parts, and not padded. *)
Definition readable (v : option json) : Prop :=
  forall s, v = Some (JStr s) -> trim s = s /\ length (split_on "/" s) = 2%nat.

Lemma split_model_key s c : length (split_on "/" s) = 2%nat -> split_model s = Some c -> s = model_key (ch_provider c) (ch_model c).
Proof.
  unfold split_model. destruct (split_on "/" s) as [|p [|m [|? ?]]] eqn:E; try done. intros _. destruct (_ || _); [done|]. intros [= <-].
  rewrite (split_on_join _ _ _ _ E). cbn [foldl ch_provider ch_model]. unfold model_key. done.
Qed.

Lemma asked_key v key c : readable v -> explicitModel v = Some key -> modelSelectionOf v = Some c ->
  key = model_key (ch_provider c) (ch_model c).
Proof.
  intros Hr. destruct v as [[| | |s| |l]|]; cbn [explicitModel modelSelectionOf asRecord]; try done.
  - destruct (Hr s) as [Ht Hl]; [done|]. rewrite Ht. unfold or_undefined. case_bool_decide; [done|]. intros [= <-]. by apply split_model_key.
  - destruct (_ || _); [done|]. by intros [= <-] [= <-].
Qed.

Lemma first_candidate_in m cands c : first_candidate m cands = Some c -> jhas (model_key (ch_provider c) (ch_model c)) m = true.
Proof.
  induction cands as [|[value variant] cands IH]; [done|]. cbn [first_candidate].
  destruct (split_model _) as [c'|]; [|exact IH].
  destruct (jhas (model_key (ch_provider c') _) m) eqn:E; [|exact IH]. by destruct variant; intros [= <-].
Qed.

Lemma first_model_in m c : keyed m -> first_model m = Some c -> jhas (model_key (ch_provider c) (ch_model c)) m = true.
Proof.
  destruct m as [|[k e] m]; [done|]. intros Hk [= <-]. assert (jget k ((k, e) :: m) = Some e) as E by (cbn; by rewrite decide_True).
  cbn [ch_provider ch_model]. rewrite <- (Hk k e E). unfold jhas. by rewrite E.
Qed.

Lemma andThen_Ok {A B} (m : outcome A) (f : A -> outcome B) b : andThen m f = Ok (inl b) -> exists a, m = Ok (inl a) /\ f a = Ok (inl b).
Proof. destruct m as [[a|r]|e]; try done. intros H. by exists a. Qed.

Lemma resolved_model_in settings request m key agentModel config c : keyed m -> readable (s_model request) ->
  check_model request m key = Ok (inl tt) -> key = explicitModel (s_model request) ->
  resolve_model settings request m key agentModel config = Some c -> jhas (model_key (ch_provider c) (ch_model c)) m = true.
Proof.
  intros Hk Hr Hc -> H. unfold resolve_model, or_option in H. unfold check_model in Hc.
  destruct (explicitModel (s_model request)) as [k|] eqn:Ek.
  - destruct (modelSelectionOf (s_model request)) as [c'|] eqn:Em.
    + injection H as <-. rewrite <- (asked_key _ _ _ Hr Ek Em). destruct (s_model request); [|done]. by destruct (jhas k m).
    + destruct (first_candidate _ _) as [c'|] eqn:Ef; [injection H as <-; by eapply first_candidate_in|by apply first_model_in].
  - destruct (first_candidate _ _) as [c'|] eqn:Ef; [injection H as <-; by eapply first_candidate_in|by apply first_model_in].
Qed.

Lemma default_agent_valid settings valid config : default_agent settings valid config = "" \/ default_agent settings valid config ∈ valid.
Proof.
  unfold default_agent. destruct (List.find _ _) as [c|] eqn:E.
  - right. apply List.find_some in E as [_ E]. by apply bool_decide_eq_true in E.
  - destruct valid as [|x valid]; [by left|right; apply list_elem_of_here].
Qed.

Lemma resolve_agent_valid settings request agents config agent : resolve_agent settings request agents config = Ok (inl agent) ->
  agent = "" \/ agent ∈ validAgents agents.
Proof.
  unfold resolve_agent. destruct (s_agent request); [|intros [= <-]; apply default_agent_valid].
  case_bool_decide; [done|]. case_bool_decide; [intros [= <-]; by right|]. destruct (find_agent _ _) as [[|]|]; done.
Qed.

Lemma resolve_variant_in request m c c' : resolve_variant request m c = Ok (inl c') ->
  ch_provider c' = ch_provider c /\ ch_model c' = ch_model c
  /\ forall v, ch_variant c' = Some v -> exists e, jget (model_key (ch_provider c') (ch_model c')) m = Some e /\ v ∈ e_variants e.
Proof.
  unfold resolve_variant. intros (c0 & H0 & H)%andThen_Ok.
  assert (ch_provider c0 = ch_provider c /\ ch_model c0 = ch_model c) as [E1 E2].
  { destruct (s_variant request); [|by injection H0 as <-]. case_bool_decide; [done|]. by injection H0 as <-. }
  destruct (ch_variant c0) as [v|] eqn:Ev; [|injection H as <-; split_and!; [done..|congruence]].
  destruct (jget _ m) as [e|] eqn:Ee; [|done]. case_bool_decide as Hv; [|done]. injection H as <-. split_and!; [done..|].
  intros v'. rewrite Ev. intros [= <-]. by exists e.
Qed.

(** C39. What a prompt is sent to is in the inventory: some provider lists a model under the
    joined name [provider/model], with the chosen variant among its variants when there is
    one, and some agent that is primary and not hidden has the chosen name. The condition:
    a model the request names as a text is not padded and has one slash; it cannot be
    dropped (see [slashed_model_is_cut]). The claim is about the joined name, for ids with
    slashes may be cut elsewhere (see [slash_moves_between_ids]). *)
Theorem selection_is_from_the_inventory settings request providers agents config r : readable (s_model request) ->
  resolveSelection settings request providers agents config = Ok (inl r) ->
  (exists variants, offered providers (model_key (sel_provider r) (sel_model r)) variants
                    /\ forall v, sel_variant r = Some v -> v ∈ variants)
  /\ addressable agents (sel_agent r).
Proof.
  intros Hr. unfold resolveSelection. pose proof (keyed_inventory providers) as Hk. revert Hk.
  set (m := providerModelsFrom providers). intros Hk. destruct (bool_decide (m = [])); [done|].
  intros ([] & Hc & H)%andThen_Ok. apply andThen_Ok in H as (agent & Ha & H). destruct (agentModelOf _ _) as [am|]; [|done].
  destruct (resolve_model _ _ _ _ _ _) as [c|] eqn:Em; [|done]. apply andThen_Ok in H as (c' & Hv & H).
  destruct (bool_decide (agent = "")) eqn:Ea0; [done|]. apply bool_decide_eq_false in Ea0. injection H as <-. cbn [sel_provider sel_model sel_variant sel_agent].
  apply resolved_model_in in Em; [|done..]. apply resolve_variant_in in Hv as (E1 & E2 & Hv). rewrite E1, E2 in *.
  split; [|apply resolve_agent_valid in Ha as [|Ha]; [done|by apply valid_is_addressable]]. unfold jhas in Em. destruct (jget _ m) as [e|] eqn:Ee; [|done].
  exists (e_variants e). split; [by apply inventory_is_offered|]. intros v Ev. destruct (Hv v Ev) as (e' & [= <-] & ?). done.
Qed.

#[local] Definition ex_providers : list json :=
  [JObj [("id", JStr "hub"); ("models", JObj [("m", JObj [("id", JStr "maker/large"); ("variants", JObj [("high", JNull)])]);
                                              ("s", JObj [("id", JStr "small")])])]].

#[local] Definition ex_agents : list json := [JObj [("name", JStr "build"); ("mode", JStr "primary")]].

#[local] Abbreviation ex_settings := (mkSettings None None None).

Lemma selection_is_from_the_inventory_witness :
  let request := mkSelection (Some (JStr "hub/small")) None None in
  exists r, resolveSelection ex_settings request ex_providers ex_agents (JObj []) = Ok (inl r) /\ addressable ex_agents (sel_agent r).
Proof.
  intros request. exists (mkResolved "hub" "small" None "build"). split; [by vm_compute|].
  assert (readable (s_model request)) as Hr by (intros s [= <-]; by vm_compute).
  apply (selection_is_from_the_inventory ex_settings request ex_providers ex_agents (JObj []) _ Hr). by vm_compute.
Defined.

(** A model id with a slash passes the check of the inventory under its full name and is
    sent to without its tail: a model no provider lists. *)
Lemma slashed_model_is_cut :
  resolveSelection ex_settings (mkSelection (Some (JStr "hub/maker/large")) None None) ex_providers ex_agents (JObj [])
  = Ok (inl (mkResolved "hub" "maker" None "build"))
  /\ jhas "hub/maker" (providerModelsFrom ex_providers) = false.
Proof. by vm_compute. Qed.

(** The inventory is asked about the joined name only: a request that cuts it elsewhere
    than its provider does is sent to a provider that does not exist. *)
Lemma slash_moves_between_ids :
  let providers := [JObj [("id", JStr "a/b"); ("models", JObj [("c", JObj [("id", JStr "c")])])]] in
  resolveSelection ex_settings (mkSelection (Some (JObj [("providerID", JStr "a"); ("modelID", JStr "b/c")])) None None) providers ex_agents (JObj [])
  = Ok (inl (mkResolved "a" "b/c" None "build")).
Proof. by vm_compute. Qed.

(** As a configured default it is passed over. *)
Lemma slashed_default_is_ignored :
  resolveSelection (mkSettings None (Some "hub/maker/large") None) (mkSelection None None None)
    (ex_providers ++ [JObj [("id", JStr "a"); ("models", JObj [("b", JObj [("id", JStr "b")])])]]) ex_agents (JObj [("model", JStr "a/b")])
  = Ok (inl (mkResolved "a" "b" None "build")).
Proof. by vm_compute. Qed.
