(* ===== verification/SessionDispatch.v ===== *)
(** The delivery of a prompt to a session
    (server/session-orchestration/session-orchestration-dispatch.ts, resolveScope of
    session-orchestration-input.ts and loadHarness of session-orchestration-selection.ts).

    The functions are call trees (CallTree) on the ports below; a port may reject with any
    error. [Promise.all] makes its calls one after the other here: they only read. *)

From S2P Require Import Prelude CallTree JsString JsMap JsValue GoalPayload SessionReceipts PromptText SessionInput SessionSelection.

Local Open Scope Z_scope.
Local Open Scope io_scope.

(** ** Ports *)

Record CreatedWorktree := mkCreated { cw_directory : string; cw_branch : option string }.

#[export] Instance CreatedWorktree_eq_dec : EqDecision CreatedWorktree.
Proof. solve_decision. Defined.

(** A thrown error: what [messageOf] makes of it, the worktree of a [WorktreeCreatedError],
    and the flag [goalConfigured] of the dispatch context when it was thrown. *)
Record Fault := mkFault { ft_message : string; ft_created : option CreatedWorktree; ft_configured : bool }.

Inductive port :=
| DirectoryExists (directory : string)
| ProjectDirectory (projectId : string)
| HarnessReady (directory : string)
| Providers (directory : string)
| Agents (directory : string)
| Config (directory : string)
| Commands (directory : string)
| CreateWorktree (directory : string) (requested : WorktreeRequest)
| WaitForWorktree (directory : string)
| CreateSession (directory title : string) (route : option (string * string))
| ReadSession (sessionId directory : string)
| ReadMessages (sessionId directory : string) (limit : Z)
| SendPrompt (sessionId directory : string) (body : json)
| SendCommand (sessionId directory : string) (body : json)
| ForkSession (sessionId directory : string) (body : json)
| ArchiveSession (sessionId directory : string) (archivedAt : Z)
| WriteGoal (sessionId directory : string) (body : GoalBody)
| Expand (text directory : string)
| Distill (raw : string) (selection : ResolvedSelection)
| WriteObjective (sessionId text : string)
| Knowledge (sessionId directory : string)
| RecordDelivered (sessionId directory : string)
| PromptLanded (sessionId directory : string) (baseline : list string)
| Reserve (operationId fingerprint : string)
| Settle (operationId : string) (response : option SessionOrchestrationResponse)
| Emit (event : json)
| Now
| Random.

Definition reply (p : port) : Type :=
  match p with
  | DirectoryExists _ | HarnessReady _ | WaitForWorktree _ | ArchiveSession _ _ _ | WriteGoal _ _ _ | PromptLanded _ _ _ => bool
  | ProjectDirectory _ | Distill _ _ | Knowledge _ _ => option string
  | Providers _ | Agents _ | Commands _ | ReadMessages _ _ _ => list json
  | Config _ | CreateSession _ _ _ | ReadSession _ _ | ForkSession _ _ _ => json
  | CreateWorktree _ _ => CreatedWorktree
  | SendPrompt _ _ _ | SendCommand _ _ _ => bool * Z
  | Expand _ _ | WriteObjective _ _ | Random => string
  | Reserve _ _ => ReserveOutcome
  | RecordDelivered _ _ | Settle _ _ | Emit _ => unit
  | Now => Z
  end.

Abbreviation io := (CallTree.io Fault port (fun p => exc Fault (reply p))).

Definition call (p : port) : io (reply p) := Vis p (fun r => match r with Ok a => Ret a | Throw e => Fail e end).

(** [throw new Error(message)] *)
Definition throw {A} (message : string) : io A := Fail (mkFault message None false).

(** The code [m] runs with [goalConfigured] set. *)
Definition configured {A} (m : io A) : io A := catch m (fun e => Fail (mkFault (ft_message e) (ft_created e) true)).

(** The optional ports the service has, and its settings. *)
Record Deps := mkDeps {
  has_expand : bool;
  has_knowledge : bool;
  has_projectDirectory : bool;
  has_directoryExists : bool;
  has_distill : bool;
  has_objectiveStore : bool;
  has_createWorktree : bool;
  has_waitForWorktree : bool;
  has_waitForHarnessReady : bool;
  has_waitForPromptLanded : bool;
  settingsFor : string -> OrchestratorSettings }.

(** A function that may return early with a response. *)
Abbreviation step A := (io (A + SessionOrchestrationResponse)).

Definition orElse {A} (m : step A) (f : A -> io SessionOrchestrationResponse) : io SessionOrchestrationResponse :=
  let! r := m in match r with inl a => f a | inr response => Ret response end.

Definition lift {A} (o : outcome A) : step A :=
  match o with Ok r => Ret r | Throw message => throw message end.

Section deps.
  Context (deps : Deps).

(** ** Scope and inventory *)

Definition checked_directory (directory : string) : step string :=
  if has_directoryExists deps then
    let! exists_ := call (DirectoryExists directory) in
    Ret (if exists_ then inl directory else inr (fail 400 "directory must be a real directory"))
  else Ret (inl directory).

Definition resolveScope (scope : ScopeInput) : step string :=
  match sc_directory scope, sc_projectId scope with
  | Some _, Some _ => Ret (inr (fail 400 "Provide either directory or projectID, not both"))
  | Some directory, None => checked_directory directory
  | None, None => Ret (inr (fail 400 "directory or projectID is required"))
  | None, Some projectId =>
    if negb (has_projectDirectory deps) then Ret (inr (fail 400 "project directory resolution is unavailable"))
    else
      let! directory := call (ProjectDirectory projectId) in
      match directory with
      | None | Some EmptyString => Ret (inr (fail 404 ("Unknown project " +:+ quote projectId)))
      | Some directory => checked_directory directory
      end
  end.

Record HarnessFixture := mkFixture {
  fx_providers : list json; fx_agents : list json; fx_config : json; fx_commands : list json }.

Definition emptyHarnessFixture : HarnessFixture := mkFixture [] [] (JObj []) [].

Definition loadHarness (directory : string) : io HarnessFixture :=
  let! _ := (if has_waitForHarnessReady deps then call (HarnessReady directory) else Ret true) in
  let! providers := call (Providers directory) in
  let! agents := call (Agents directory) in
  let! config := call (Config directory) in
  let! commands := call (Commands directory) in
  Ret (mkFixture providers agents (default (JObj []) (asRecord (Some config))) commands).

(** ** Messages *)

Definition info_of (value : json) : option json :=
  or_option (asRecord (member "info" (asRecord (Some value)))) (asRecord (Some value)).

(** The ids of the user's messages. *)
Definition messageIdsOf (messages : list json) : list string :=
  omap (fun value =>
          let info := info_of value in
          if is_str (member "role" info) "user"
          then or_undefined (trim (textOf (member "id" info) "")) else None) messages.

(** The selection of a message, if it is the user's and names one. *)
Definition selection_of (value : json) : option SelectionInput :=
  match info_of value with
  | None => None
  | Some info =>
    if negb (is_str (jfield "role" info) "user") then None
    else
      let model := asRecord (jfield "model" info) in
      let agent := trim (textOf (jfield "agent" info) "") in
      let providerID := trim (textOf (member "providerID" model) "") in
      let modelID := trim (textOf (member "modelID" model) "") in
      let variant := trim (textOf (member "variant" model) "") in
      if bool_decide (providerID = "") || bool_decide (modelID = "") || bool_decide (agent = "") then None
      else Some (mkSelection (Some (JObj ([("providerID", JStr providerID); ("modelID", JStr modelID)]
                                          ++ if bool_decide (variant = "") then [] else [("variant", JStr variant)])))
                             (Some (JStr agent)) None)
  end.

(** The newest selection. *)
Definition selectedOf (messages : list json) : option SelectionInput := head (omap selection_of (rev messages)).

Definition wasLanded (sessionId directory : string) (baseline : list string) : io bool :=
  if has_waitForPromptLanded deps then call (PromptLanded sessionId directory baseline)
  else
    let! messages := call (ReadMessages sessionId directory 100) in
    Ret (existsb (fun id => negb (bool_decide (id ∈ baseline))) (messageIdsOf messages)).

(** ** Dispatch *)

Record DispatchContext := mkContext {
  x_sessionId : string;
  x_directory : string;
  x_prompt : string;
  x_goal : bool;
  x_goalTokenBudget : option Z }.

Definition promptText (prompt directory : string) : io string :=
  if has_expand deps then
    let! expanded := call (Expand prompt directory) in
    Ret (if bool_decide (trim expanded = "") then prompt else expanded)
  else Ret prompt.

Definition with_evaluation (g : GoalPayload) (selection : ResolvedSelection) : GoalPayload :=
  mkGoal (id g) (objective g) (objectiveFile g) (objectiveFileKey g) (status g) (tokenBudget g) (tokensUsed g) (tokensBaseline g)
         (tokensCommitted g) (turnsUsed g) (blockedStreak g) (auditFailStreak g) (note g) (statusReason g)
         (sel_provider selection) (sel_model selection) (lastAccountedMessageID g) (createdAt g) (updatedAt g).

Definition plantGoal (context : DispatchContext) (objective : string) (selection : ResolvedSelection) : io GoalPayload :=
  let! fitted := fitObjective objective (if has_distill deps then Some (call (Distill objective selection)) else None) in
  let! objectiveFileKey :=
    (if Z.of_nat GOAL_OBJECTIVE_CHAR_LIMIT <? slen (fit_text fitted) then
       if negb (has_objectiveStore deps) then throw "objective store is unavailable"
       else let! key := call (WriteObjective (x_sessionId context) (fit_text fitted)) in Ret (Some key)
     else Ret None) in
  let! now := call Now in
  let! random := call Random in
  let goal := with_evaluation
    (buildGoalPayload {| i_objective := fit_text fitted;
                         i_objectiveFile := match objectiveFileKey with Some _ => true | None => false end;
                         i_objectiveFileKey := objectiveFileKey; i_tokenBudget := JInt <$> x_goalTokenBudget context |}
                      now (newGoalId now random)) selection in
  let! record := call (ReadSession (x_sessionId context) (x_directory context)) in
  let! now := call Now in
  let current := getSessionGoal (Some record) now in
  let! written := call (WriteGoal (x_sessionId context) (x_directory context)
    (mkBody goal (id <$> current) (match current with Some g => updatedAt g | None => 0 end))) in
  if negb written then throw "session goal was refused" else Ret goal.

Definition nl2 : string := String "010" (String "010" "").

Definition goalIntro (budget : option Z) : string :=
  "A session goal has been attached to this prompt." +:+ nl2
  +:+ match budget with Some n => "A token budget of " +:+ pretty n +:+ " tokens applies." | None => "No token budget is set." end
  +:+ String "010" "The goal loop will independently observe this turn and can auto-continue if the objective remains incomplete.".

Definition text_part (text : string) : json := JObj [("type", JStr "text"); ("text", JStr text)].

Definition synthetic_part (text : string) : json :=
  JObj [("type", JStr "text"); ("text", JStr text); ("synthetic", JBool true)].

(** The command a prompt invokes, and its template. *)
Definition command_of (commands : list json) (expanded : string) : option (string * option string) :=
  match commandNameOf expanded with
  | None => None
  | Some name =>
    match List.find (fun c => is_str (jfield "name" c) name && negb (is_str (jfield "source" c) "skill")) commands with
    | Some entry => Some (name, or_undefined (textOf (jfield "template" entry) ""))
    | None => None
    end
  end.

Record Dispatched := mkDispatched { dp_landed : bool; dp_command : bool; dp_goalConfigured : bool }.

(** What follows the planting of the goal: knowledge, delivery and confirmation. *)
Definition deliver (context : DispatchContext) (selection : ResolvedSelection) (expanded : string)
    (command : option (string * option string)) (introduced : bool) (baseline : list string) : io Dispatched :=
  let sid := x_sessionId context in
  let dir := x_directory context in
  let! knowledge :=
    (match command with
     | None => if has_knowledge deps then
                 catch (let! text := call (Knowledge sid dir) in
                        Ret match text with Some t => if bool_decide (trim t = "") then None else Some t | None => None end)
                       (fun _ => Ret None)
               else Ret None
     | Some _ => Ret None
     end) in
  let! outcome :=
    (match command with
     | None => call (SendPrompt sid dir (JObj
         [("model", JObj [("providerID", JStr (sel_provider selection)); ("modelID", JStr (sel_model selection))]);
          ("agent", JStr (sel_agent selection));
          ("parts", JArr (match knowledge with Some k => [synthetic_part k] | None => [] end
                          ++ (if bool_decide (trim expanded = "") then [] else [text_part expanded])
                          ++ if introduced then [synthetic_part (goalIntro (x_goalTokenBudget context))] else []))]))
     | Some (name, _) => call (SendCommand sid dir (JObj
         ([("command", JStr name); ("arguments", JStr (commandArgsOf expanded name));
           ("model", JStr (model_key (sel_provider selection) (sel_model selection))); ("agent", JStr (sel_agent selection))]
          ++ match sel_variant selection with Some v => [("variant", JStr v)] | None => [] end)))
     end) in
  if negb (fst outcome) then
    throw ((match command with None => "prompt" | Some _ => "command" end) +:+ " dispatch rejected with " +:+ pretty (snd outcome))
  else
    let! _ := (match knowledge with
               | Some _ => catch (call (RecordDelivered sid dir)) (fun _ => Ret tt)
               | None => Ret tt
               end) in
    let! landed := wasLanded sid dir baseline in
    Ret (mkDispatched landed (match command with Some _ => true | None => false end) introduced).

Definition dispatch (context : DispatchContext) (selection : ResolvedSelection) (commands : list json) (baseline : list string) : io Dispatched :=
  let! expanded := promptText (x_prompt context) (x_directory context) in
  let command := command_of commands expanded in
  if x_goal context then
    let objective := match command with
                     | Some (name, Some template) => expandCommandTemplate template (commandArgsOf expanded name)
                     | _ => expanded
                     end in
    let! _ := plantGoal context objective selection in
    configured (deliver context selection expanded command true baseline)
  else deliver context selection expanded command false baseline.

(** ** Outcomes *)

Definition partial (e : Fault) (directory : string) (sessionId : option string) (action : option PartialAction) : SessionOrchestrationResponse :=
  failure (mkError 502 (ft_message e) (Some true) action sessionId (Some directory)).

Record ResponseInput := mkResponse {
  q_sessionId : string;
  q_directory : string;
  q_projectId : option string;
  q_title : option string;
  q_worktree : option (option CreatedWorktree);
  q_selection : option ResolvedSelection;
  q_goal : option bool;
  q_goalTokenBudget : option Z;
  q_dispatched : option Dispatched;
  q_sourceSessionId : option string }.

Definition created_json (w : option CreatedWorktree) : json :=
  match w with
  | Some w => JObj [("directory", JStr (cw_directory w)); ("branch", match cw_branch w with Some b => JStr b | None => JNull end)]
  | None => JNull
  end.

Definition responseOf (q : ResponseInput) : json := JObj (
  present
    [("sessionId", Some (JStr (q_sessionId q))); ("directory", Some (JStr (q_directory q)));
     ("projectId", JStr <$> q_projectId q); ("title", JStr <$> q_title q); ("worktree", created_json <$> q_worktree q);
     ("sourceSessionId", JStr <$> q_sourceSessionId q);
     ("model", (fun s => JStr (model_key (sel_provider s) (sel_model s))) <$> q_selection q);
     ("agent", (fun s => JStr (sel_agent s)) <$> q_selection q);
     ("variant", s ← q_selection q; JStr <$> sel_variant s);
     ("goalEnabled", JBool <$> q_goal q);
     ("goalTokenBudget", _ ← q_goal q; JInt <$> q_goalTokenBudget q);
     ("promptDispatched", (fun d => JBool (dp_landed d)) <$> q_dispatched q);
     ("dispatchedAsCommand", (fun d => JBool (dp_command d)) <$> q_dispatched q);
     ("promptError", d ← q_dispatched q; if dp_landed d then None
                                         else Some (JStr "OpenCode accepted the prompt but it never appeared in the session"))]).

(** The id of a session record the harness answers with. *)
Definition session_id_of (record : json) : string :=
  trim (textOf (nullish (nullish (jfield "id" record) (jfield "sessionID" record)) (jfield "sessionId" record)) "").

Definition harnessSession (directory title : string) (route : option (string * string)) : step (string * string) :=
  catch (let! record := call (CreateSession directory title route) in
         let sessionId := session_id_of record in
         Ret (if bool_decide (sessionId = "") then inr (fail 500 "Session create did not provide an id")
              else inl (sessionId, textOf (jfield "title" record) title)))
        (fun e => Ret (inr (fail 502 (ft_message e)))).

(** What a call answers with is typed as a record already. *)
Definition readSessionOr (sessionId directory : string) : io json :=
  catch (let! record := call (ReadSession sessionId directory) in
         match record with JObj _ => Ret record | _ => throw "Unknown session" end)
        (fun e => throw (ft_message e +:+ " (session " +:+ sessionId +:+ ")")).

End deps.
