(* ===== verification/SessionService.v ===== *)
(** Creating, continuing, forking and archiving sessions
    (server/session-orchestration/session-orchestration-service.ts). *)

From S2P Require Import Prelude CallTree JsString JsMap JsValue GoalPayload SessionReceipts PromptText SessionInput SessionSelection SessionDispatch.

Local Open Scope Z_scope.
Local Open Scope io_scope.

(** ** Durable creations *)

(** [None] is [null]: go on. *)
Definition reconcileOperation (digest : json -> string) (input : CreateInput) : io (option SessionOrchestrationResponse) :=
  match c_operationId input with
  | None => Ret None
  | Some operationId =>
    let! reservation := call (Reserve operationId (operationFingerprint digest input)) in
    Ret match reservation with
        | Conflict => Some (fail 409 "operationId was already used with a different payload")
        | Settled receipt =>
          Some match r_response receipt with
               | Some stored => stored
               | None => fail 409 "stored creation receipt is unreadable; use a new operationId"
               end
        | PendingElsewhere live =>
          Some (fail 503 (if live : bool then "an attempt for this operation is still running in another process; retry after it settles"
                          else "an earlier attempt for this operation has an unknown outcome; inspect the native session list, then retry with a new operationId"))
        | Fresh => None
        end
  end.

Definition recordOperation (input : CreateInput) (outcome : SessionOrchestrationResponse) : io unit :=
  match c_operationId input with
  | None => Ret tt
  | Some operationId =>
    match outcome with
    | ok _ => call (Settle operationId (Some outcome))
    | failure f =>
      if bool_decide (f_partial f = Some true) || negb (bool_decide (f_sessionId f = None))
      then call (Settle operationId (Some outcome))
      else if bool_decide (f_status f = 502) || bool_decide (f_status f = 503) then Ret tt
      else call (Settle operationId None)
    end
  end.

Section service.
  Context (deps : Deps).

Definition prepareWorktree (sourceDirectory : string) (requested : option WorktreeRequest)
    : step (string * option CreatedWorktree) :=
  match requested with
  | None => Ret (inl (sourceDirectory, None))
  | Some requested =>
    if negb (has_createWorktree deps) then Ret (inr (fail 500 "worktree creation is unavailable"))
    else
      catch (let! worktree := call (CreateWorktree sourceDirectory requested) in
             let directory := cw_directory worktree in
             let! ready := (if has_waitForWorktree deps then call (WaitForWorktree directory) else Ret true) in
             Ret (if ready : bool then inl (directory, Some worktree)
                  else inr (failure (mkError 500 "Timed out waiting for the worktree bootstrap" (Some true)
                                             (Some WorktreeIsCreated) None (Some directory)))))
            (fun e => Ret (inr match ft_created e with
                               | Some created => failure (mkError 500 (ft_message e) (Some true) (Some WorktreeIsCreated) None
                                                                  (Some (cw_directory created)))
                               | None => fail 500 (ft_message e)
                               end))
  end.

(** The event of a new session: its answer and the time. *)
Definition announce (body : json) : io unit :=
  let! now := call Now in
  call (Emit match body with JObj members => JObj (jset "createdAt" (JInt now) members) | _ => body end).

Definition route_of (selection : option ResolvedSelection) : option (string * string) :=
  match selection with
  | Some s => if bool_decide (sel_provider s = "") || bool_decide (sel_model s = "") then None else Some (sel_provider s, sel_model s)
  | None => None
  end.

(** The selection of a prompt, with the commands to find it in; [None] without a prompt. *)
Definition select (directory : string) (prompt : option string) (selection : SelectionInput)
    : step (option (ResolvedSelection * list json)) :=
  match prompt with
  | None => Ret (inl None)
  | Some _ =>
    let! fixture := loadHarness deps directory in
    let! r := lift (resolveSelection (settingsFor deps directory) selection (fx_providers fixture) (fx_agents fixture) (fx_config fixture)) in
    Ret match r with inl s => inl (Some (s, fx_commands fixture)) | inr response => inr response end
  end.

(** The prompt of a new session. *)
Definition sendFirst (input : CreateInput) (directory sessionId title : string) (worktree : option CreatedWorktree)
    (prompt : string) (selection : ResolvedSelection) (commands : list json) : io SessionOrchestrationResponse :=
  let! messages := call (ReadMessages sessionId directory 100) in
  let context := mkContext sessionId directory prompt (c_goal input) (c_goalTokenBudget input) in
  catch (let! dispatched := dispatch deps context selection commands (messageIdsOf messages) in
         let body := responseOf (mkResponse sessionId directory (sc_projectId (c_scope input)) (Some title) (Some worktree)
                       (Some selection) (Some (c_goal input)) (c_goalTokenBudget input) (Some dispatched) None) in
         let! _ := (if dp_goalConfigured dispatched then configured (announce body) else announce body) in
         Ret (ok body))
        (fun e => Ret (partial e directory (Some sessionId) (if ft_configured e then Some GoalIsConfigured else None))).

Definition runCreateSession (input : CreateInput) : io SessionOrchestrationResponse :=
  orElse (resolveScope deps (c_scope input)) (fun source =>
  orElse (select source (c_prompt input) (c_selection input)) (fun selected =>
  orElse (prepareWorktree source (c_worktree input)) (fun prepared =>
  let directory := fst prepared in
  orElse (harnessSession directory (default "New session" (c_title input)) (route_of (fst <$> selected))) (fun session =>
  match c_prompt input, selected with
  | Some prompt, Some (selection, commands) =>
    sendFirst input directory (fst session) (snd session) (snd prepared) prompt selection commands
  | _, _ =>
    let body := responseOf (mkResponse (fst session) directory (sc_projectId (c_scope input)) (Some (snd session)) (Some (snd prepared))
                  None None None None None) in
    let! _ := announce body in Ret (ok body)
  end)))).

Definition createSession (digest : json -> string) (input : CreateInput) : io SessionOrchestrationResponse :=
  let! reconciled := reconcileOperation digest input in
  match reconciled with
  | Some response => Ret response
  | None =>
    let! outcome := runCreateSession input in
    let! _ := recordOperation input outcome in
    Ret outcome
  end.

(** ** Sessions that exist *)

Definition selectionForRun (directory : string) (selection : SelectionInput) (messages : list json) : step ResolvedSelection :=
  let! fixtures := loadHarness deps directory in
  let requested := if bool_decide (selection = mkSelection None None None)
                   then default (mkSelection None None None) (selectedOf messages) else selection in
  lift (resolveSelection (settingsFor deps directory) requested (fx_providers fixtures) (fx_agents fixtures) (fx_config fixtures)).

Definition dispatchExisting (sessionId directory : string) (input : RunInput) (selection : ResolvedSelection)
    (sourceMessages : list json) (sourceSessionId : option string) : io SessionOrchestrationResponse :=
  let context := mkContext sessionId directory (n_prompt input) (n_goal input) (n_goalTokenBudget input) in
  catch (let! own := (match sourceSessionId with
                      | Some _ => let! messages := call (ReadMessages sessionId directory 100) in Ret (messageIdsOf messages)
                      | None => Ret []
                      end) in
         let! fixture := loadHarness deps directory in
         let! dispatched := dispatch deps context selection (fx_commands fixture) (messageIdsOf sourceMessages ++ own) in
         let body := responseOf (mkResponse sessionId directory (sc_projectId (n_scope input)) None None
                       (Some selection) (Some (n_goal input)) (n_goalTokenBudget input) (Some dispatched) sourceSessionId) in
         let! _ := (if dp_goalConfigured dispatched then configured (announce body) else announce body) in
         Ret (ok body))
        (fun e => Ret (partial e directory (Some sessionId)
                         match sourceSessionId with
                         | Some _ => Some ForkIsCreated
                         | None => if ft_configured e then Some GoalIsConfigured else None
                         end)).

(** A refusal that names the session. *)
Definition fail_at (status : Z) (error sessionId directory : string) : SessionOrchestrationResponse :=
  failure (mkError status error None None (Some sessionId) (Some directory)).

Definition attempt {A} (m : io A) (refusal : string -> SessionOrchestrationResponse) : step A :=
  catch (let! a := m in Ret (inl a)) (fun e => Ret (inr (refusal (ft_message e)))).

Definition fork_body (input : RunInput) (selection : ResolvedSelection) : json := JObj (
  match n_boundary input with Some b => [("messageID", JStr b)] | None => [] end
  ++ match route_of (Some selection) with Some (p, m) => [("providerID", JStr p); ("model", JStr m)] | None => [] end).

Definition sendSession (sessionId : string) (input : RunInput) (fork : bool) : io SessionOrchestrationResponse :=
  orElse (resolveScope deps (n_scope input)) (fun directory =>
  orElse (attempt (readSessionOr sessionId directory) (fun m => fail_at 404 m sessionId directory)) (fun _ =>
  orElse (attempt (call (ReadMessages sessionId directory 100)) (fun m => fail_at 502 m sessionId directory)) (fun messages =>
  orElse (selectionForRun directory (n_selection input) messages) (fun selection =>
  if negb fork then dispatchExisting sessionId directory input selection messages None
  else
    orElse (attempt (call (ForkSession sessionId directory (fork_body input selection))) (fun m => fail_at 502 m sessionId directory)) (fun forked =>
    let forkId := session_id_of forked in
    if bool_decide (forkId = "") then Ret (fail_at 502 "harness fork did not provide a session id" sessionId directory)
    else dispatchExisting forkId (textOf (jfield "directory" forked) directory) input selection messages (Some sessionId)))))).

(** ** Archives *)

(** One session; whether it was archived. *)
Definition archiveOne (archivedAt : Z) (sessionId : string) : io bool :=
  catch (let! record := call (ReadSession sessionId "") in
         let directory := trim (textOf (member "directory" (asRecord (Some record))) "") in
         if bool_decide (directory = "") then throw "session directory is unavailable"
         else let! archived := call (ArchiveSession sessionId directory archivedAt) in
              if archived : bool then Ret true else throw "archive rejected")
        (fun _ => Ret false).

Fixpoint archiveAll (archivedAt : Z) (requested archivedIds failedIds : list string) : io (list string * list string) :=
  match requested with
  | [] => Ret (archivedIds, failedIds)
  | sessionId :: requested =>
    let! archived := archiveOne archivedAt sessionId in
    if archived : bool then archiveAll archivedAt requested (archivedIds ++ [sessionId]) failedIds
    else archiveAll archivedAt requested archivedIds (failedIds ++ [sessionId])
  end.

Definition texts (l : list string) : json := JArr (map JStr l).

Definition archiveSessionIds (sessionIds : option json) : io SessionOrchestrationResponse :=
  match sessionIds with
  | Some (JArr values) =>
    let requested := map (fun value => trim (textOf (Some value) "")) values in
    if existsb (fun value => bool_decide (value = "")) requested then Ret (fail 400 "sessionIds must be an array of non-empty strings")
    else if (500 <? length requested)%nat then Ret (fail 400 "sessionIds supports at most 500 ids per batch")
    else
      let! archivedAt := call Now in
      let! r := archiveAll archivedAt requested [] [] in
      Ret (ok (JObj [("archivedIds", texts (fst r)); ("failedIds", texts (snd r))]))
  | _ => Ret (fail 400 "sessionIds must be an array of strings")
  end.

End service.

(** ** Planting a goal *)

(** The goal of a write carries its whole objective, armed, and no file. *)
Definition inline_goal (p : port) : Prop :=
  match p with
  | WriteObjective _ _ => False
  | WriteGoal _ _ b => objectiveFile (b_goal b) = false /\ objectiveFileKey (b_goal b) = None
                       /\ slen (objective (b_goal b)) <= Z.of_nat GOAL_OBJECTIVE_CHAR_LIMIT /\ status (b_goal b) = Active
  | _ => True
  end.

Lemma calls_call ok p : ok p -> calls ok (call p).
Proof. intros H. split; [done|]. by intros [r|e]. Qed.

Lemma calls_then {A} ok p (f : reply p -> io A) : ok p -> (forall r, calls ok (f r)) -> calls ok (io_bind (call p) f).
Proof. intros Hp Hf. apply calls_bind; [by apply calls_call|]. intros r _. apply Hf. Qed.

Lemma calls_fit ok raw generate : match generate with Some m => calls ok m | None => True end ->
  calls ok (fitObjective (E := Fault) (P := port) (R := fun p => exc Fault (reply p)) raw generate).
Proof.
  intros H. unfold fitObjective. destruct (_ <=? _); [exact I|]. destruct generate; [|exact I].
  apply calls_catch; [|intros e; exact I]. apply calls_bind; [done|]. intros a _. by case_bool_decide.
Qed.

(** A planted goal never goes through the objective store: what is written carries the
    fitted objective itself, within its limit. The branch that writes an objective file is
    dead. *)
Theorem planted_goals_are_inline deps context objective selection : calls inline_goal (plantGoal deps context objective selection).
Proof.
  unfold plantGoal. apply calls_bind.
  { apply calls_fit. destruct (has_distill deps); [|exact I]. by apply calls_call. }
  intros fitted Hf%fit_within_limit. apply calls_bind.
  { destruct (Z.ltb_spec (Z.of_nat GOAL_OBJECTIVE_CHAR_LIMIT) (slen (fit_text fitted))); [lia|exact I]. }
  intros key. destruct (Z.ltb_spec (Z.of_nat GOAL_OBJECTIVE_CHAR_LIMIT) (slen (fit_text fitted))) as [|Hle]; [lia|]. intros <-.
  apply calls_then; [done|]. intros now. apply calls_then; [done|]. intros random. apply calls_then; [done|]. intros record.
  apply calls_then; [done|]. intros now'. apply calls_then; [|by intros []].
  split_and!; [done..| |done]. cbn [with_evaluation b_goal GoalPayload.objective buildGoalPayload i_objective]. rewrite slen_stake_nat. lia.
Qed.

(** ** Retries *)

(** An operation id that has a receipt is answered from it, without another call and
    without a change to the ledger: a settled outcome is given again, an unsettled one is
    not tried again, and another request under the id is refused. *)
Theorem used_id_is_answered_from_its_receipt deps digest input o ops r t1 t2 pid alive :
  c_operationId input = Some o -> jget o ops = Some r ->
  exists k, createSession deps digest input = Vis (Reserve o (operationFingerprint digest input)) k
  /\ let answer := reserveOperation o (operationFingerprint digest input) t1 t2 pid alive (Doc ops) in
     snd answer = Doc ops
     /\ (r_fingerprint r <> operationFingerprint digest input ->
         k (Ok (fst answer)) = Ret (fail 409 "operationId was already used with a different payload"))
     /\ (r_fingerprint r = operationFingerprint digest input ->
         (forall response, r_state r = OperationSettled -> r_response r = Some response -> k (Ok (fst answer)) = Ret response)
         /\ (r_state r = OperationPending -> exists reason, k (Ok (fst answer)) = Ret (fail 503 reason))).
Proof.
  intros Ho Hr. unfold createSession, reconcileOperation. rewrite Ho. eexists. split; [reflexivity|].
  cbv beta iota zeta. unfold reserveOperation, slot. cbn [readOperations]. rewrite Hr. split; [|split].
  - destruct (negb _); [done|]. by destruct (r_state r).
  - intros Hne. rewrite bool_decide_false by done. done.
  - intros ->. rewrite bool_decide_true by done. cbn [negb]. split.
    + intros response -> Hresp. cbn. by rewrite Hresp.
    + intros ->. eexists. reflexivity.
Qed.

Lemma used_id_is_answered_from_its_receipt_witness :
  let input := mkCreate (mkScope (Some "/p") None) None None (mkSelection None None None) false None None (Some "op") in
  let digest := fun v : json => if bool_decide (v = JNull) then "0" else "1" in
  let deps := mkDeps false false false false false false false false false false (fun _ => mkSettings None None None) in
  let ops := [("op", mkReceipt "1" OperationSettled (Some (ok JNull)) 5 6 7)] in
  exists k, createSession deps digest input = Vis (Reserve "op" "1") k /\ k (Ok (Settled (mkReceipt "1" OperationSettled (Some (ok JNull)) 5 6 7))) = Ret (ok JNull).
Proof.
  intros input digest deps ops. assert (operationFingerprint digest input = "1") as Hf by by vm_compute.
  destruct (used_id_is_answered_from_its_receipt deps digest input "op" ops (mkReceipt "1" OperationSettled (Some (ok JNull)) 5 6 7)
              0 0 9 (fun _ => false)) as (k & E & _ & _ & H); [done..|].
  rewrite Hf in *. destruct (H eq_refl) as [H' _]. exists k. split; [exact E|]. exact (H' (ok JNull) eq_refl eq_refl).
Defined.

(** ** Archives *)

Lemma archived_all at_ requested archivedIds failedIds a f : returns (archiveAll at_ requested archivedIds failedIds) (a, f) ->
  a ++ f ≡ₚ archivedIds ++ failedIds ++ requested.
Proof.
  revert archivedIds failedIds. induction requested as [|x requested IH]; intros archivedIds failedIds; cbn [archiveAll].
  - intros [= <- <-]. by rewrite app_nil_r.
  - intros H. apply returns_bind in H as (b & _ & H). destruct b; apply IH in H as ->; rewrite <- ?(assoc_L (++)); cbn [app].
    + f_equiv. by rewrite Permutation_middle.
    + done.
Qed.

(** An archive request of up to 500 ids puts each of them in exactly one of its two
    lists. *)
Theorem archive_accounts_for_every_id ids body :
  returns (archiveSessionIds (Some (JArr (map JStr ids)))) (ok body) ->
  exists archived failed, body = JObj [("archivedIds", texts archived); ("failedIds", texts failed)]
    /\ archived ++ failed ≡ₚ map trim ids /\ (length ids <= 500)%nat.
Proof.
  cbn [archiveSessionIds]. rewrite map_map. cbn [textOf]. change (map (fun x : string => trim x) ids) with (map trim ids).
  destruct (existsb _ _); [intros E; hnf in E; discriminate E|].
  destruct (Nat.ltb_spec 500 (length (map trim ids))) as [|Hle]; [intros E; hnf in E; discriminate E|].
  rewrite length_map in Hle. intros H.
  apply returns_bind in H as (now & _ & H). apply returns_bind in H as ([archived failed] & Ha & H). injection H as <-.
  exists archived, failed. split_and!; [done| |done]. by apply archived_all in Ha.
Qed.

Lemma archive_accounts_for_every_id_witness :
  exists archived failed, JObj [("archivedIds", texts ["a"]); ("failedIds", texts ["b"])] = JObj [("archivedIds", texts archived); ("failedIds", texts failed)]
    /\ archived ++ failed ≡ₚ map trim [" a"; "b"].
Proof.
  assert (returns (archiveSessionIds (Some (JArr (map JStr [" a"; "b"]))))
                  (ok (JObj [("archivedIds", texts ["a"]); ("failedIds", texts ["b"])]))) as H.
  { exists (Ok 5), (Ok (JObj [("directory", JStr "/p")])), (Ok true), (Throw (mkFault "gone" None false)). reflexivity. }
  destruct (archive_accounts_for_every_id [" a"; "b"] _ H) as (a & f & E & Hp & _). by exists a, f.
Defined.
