(* ===== verification/SessionWorld.v ===== *)
(** Creations of sessions by any number of server processes at once, with lost answers,
    retries and crashes.

    Every attempt is the program [createSession] of one request; the calls of the attempts
    interleave, an attempt that is never scheduled again has crashed. The calls on the
    ledger are atomic (they run under the file lock) and may fail without an effect; the
    harness may create a session and still answer with an error. The programs are verified
    with the weakest precondition of CallTree over the phase of an attempt. *)

From S2P Require Import Prelude CallTree JsString JsMap JsSort JsValue GoalPayload SessionReceipts PromptText SessionInput SessionSelection SessionDispatch SessionService.

Local Open Scope Z_scope.
Local Open Scope io_scope.

(** ** The machine *)

Record Attempt := mkAttempt { a_op : option string; a_pid : Z; a_prog : io SessionOrchestrationResponse }.

(** [w_created]: for every native session created for an attempt, its operation id. *)
Record World := mkWorld { w_ledger : Ledger; w_created : list (option string); w_attempts : list Attempt }.

(** What the environment decides about a call: its answer, the clock, the processes that
    live, and whether a refused creation took place. *)
Record Env := mkEnv {
  e_answer : forall p, exc Fault (reply p);
  e_t1 : Z;
  e_t2 : Z;
  e_alive : Z -> bool;
  e_made : bool }.

Definition succeeded {A} (r : exc Fault A) : bool := match r with Ok _ => true | Throw _ => false end.

(** The answer to a call and the ledger after it. *)
Definition answer (file : Ledger) (pid : Z) (p : port) (e : Env) : exc Fault (reply p) :=
  match p with
  | Reserve id fp =>
    match e_answer e (Reserve id fp) with
    | Ok _ => Ok (fst (reserveOperation id fp (e_t1 e) (e_t2 e) pid (e_alive e) file))
    | Throw f => Throw f
    end
  | p => e_answer e p
  end.

Definition ledger_after (file : Ledger) (pid : Z) (p : port) (e : Env) : Ledger :=
  match p with
  | Reserve id fp => if succeeded (e_answer e p) then snd (reserveOperation id fp (e_t1 e) (e_t2 e) pid (e_alive e) file) else file
  | Settle id response => if succeeded (e_answer e p) then settleOperation id response (e_t1 e) pid file else file
  | _ => file
  end.

(** Whether the call creates a native session. *)
Definition creates (p : port) (e : Env) : bool :=
  match p with CreateSession _ _ _ => succeeded (e_answer e p) || e_made e | _ => false end.

Inductive Event :=
| Starts (deps : Deps) (input : CreateInput) (pid : Z)
| Answered (i : nat) (e : Env).

Section machine.
  Context (digest : json -> string).

Definition world_step (w : World) (ev : Event) : option World :=
  match ev with
  | Starts deps input pid =>
    Some (mkWorld (w_ledger w) (w_created w)
            (w_attempts w ++ [mkAttempt (c_operationId input) pid (createSession deps digest input)]))
  | Answered i e =>
    match w_attempts w !! i with
    | Some (mkAttempt op pid (Vis p k)) =>
      Some (mkWorld (ledger_after (w_ledger w) pid p e)
              (if creates p e then op :: w_created w else w_created w)
              (<[i := mkAttempt op pid (k (answer (w_ledger w) pid p e))]> (w_attempts w)))
    | _ => None
    end
  end.

Fixpoint run (w : World) (evs : list Event) : option World :=
  match evs with
  | [] => Some w
  | ev :: evs => match world_step w ev with Some w' => run w' evs | None => None end
  end.

End machine.

Definition start : World := mkWorld Missing [] [].

Definition creations (o : string) (w : World) : nat := length (filter (fun x => x = Some o) (w_created w)).

(** The operation ids of the requests. *)
Definition ids_of (evs : list Event) : list string :=
  omap (fun ev => match ev with Starts _ input _ => c_operationId input | Answered _ _ => None end) evs.

(** A session the harness says it created has an id. *)
Definition names_sessions (ev : Event) : Prop :=
  match ev with
  | Answered _ e => forall d t r record, e_answer e (CreateSession d t r) = Ok record -> session_id_of record <> ""
  | Starts _ _ _ => True
  end.

(** ** What an attempt may do *)

(** [Outside]: without a reservation; [Holding]: with one, no session asked for; [Asked]:
    the harness has been asked; [Over]: settled, or released. *)
Inductive phase := Outside | Holding | Asked | Over.

Definition named (p : port) : exc Fault (reply p) -> Prop :=
  match p return exc Fault (reply p) -> Prop with
  | CreateSession _ _ _ => fun r => forall record, r = Ok record -> session_id_of record <> ""
  | _ => fun _ => True
  end.

(** A creation needs a reservation and spends it; a reservation is released only while no
    session was asked for. Without an operation id there is no ledger. *)
Definition pre (op : option string) (p : port) (s : phase) : (phase -> exc Fault (reply p) -> Prop) -> Prop :=
  match p return (phase -> exc Fault (reply p) -> Prop) -> Prop with
  | Reserve id _ => fun K => op = Some id /\ s = Outside
      /\ forall r, K (match r with Ok Fresh => Holding | _ => Outside end) r
  | Settle id response => fun K => op = Some id /\ (s = Holding \/ s = Asked /\ response <> None) /\ forall r, K Over r
  | CreateSession d t r => fun K => (op = None \/ s = Holding)
      /\ forall r', named (CreateSession d t r) r' -> K (match op with Some _ => Asked | None => s end) r'
  | _ => fun K => forall r, K s r
  end.

Lemma pre_weaken op p s (K K' : phase -> exc Fault (reply p) -> Prop) :
  (forall s r, K s r -> K' s r) -> pre op p s K -> pre op p s K'.
Proof.
  intros H. destruct p; cbn; try (intros HK r; by apply H).
  - intros [? HK]. split; [done|]. intros r' Hr. by apply H, HK.
  - intros (? & ? & HK). split_and!; [done..|]. intros r. by apply H.
  - intros (? & ? & HK). split_and!; [done..|]. intros r. by apply H.
Qed.

Abbreviation wp op := (CallTree.wp (pre op)).

(** Calls that are none of the above. *)
Definition plain_call (p : port) : Prop := match p with Reserve _ _ | Settle _ _ | CreateSession _ _ _ => False | _ => True end.

Lemma wp_plain {A} op (m : io A) s : calls plain_call m ->
  wp op m s (fun s' r => s' = s /\ match r with Ok a => returns m a | Throw _ => True end).
Proof. apply wp_calls; [apply pre_weaken|]. intros p s' K Hp HK. by destruct p. Qed.

Lemma wp_then {A B} op (m : io A) (f : A -> io B) s Q :
  wp op m s (fun s r => match r with Ok a => wp op (f a) s Q | Throw e => Q s (Throw e) end) -> wp op (io_bind m f) s Q.
Proof. apply tree_bind, pre_weaken. Qed.

Lemma wp_weaken {A} op (m : io A) s (Q Q' : phase -> exc Fault A -> Prop) : (forall s r, Q s r -> Q' s r) -> wp op m s Q -> wp op m s Q'.
Proof. apply tree_mono, pre_weaken. Qed.

(** ** The parts of a creation *)

Lemma calls_throw {A} ok message : calls ok (throw (A := A) message).
Proof. exact I. Qed.

Lemma calls_lift {A} ok (o : outcome A) : calls ok (lift o).
Proof. by destruct o. Qed.

(** Shows that a program makes plain calls only, by its structure. *)
Ltac plain_calls :=
  repeat match goal with
  | |- calls _ (Ret _) => exact I
  | |- calls _ (Fail _) => exact I
  | |- calls _ (throw _) => apply calls_throw
  | |- calls _ (call ?p) => exact (calls_call _ p I)
  | |- calls _ (io_bind _ _) => apply calls_bind; [|intros ? _]
  | |- calls _ (catch _ _) => apply calls_catch; [|intros ?]
  | |- calls _ (configured _) => apply calls_catch; [|intros ?]
  | |- calls _ (fitObjective _ _) => apply calls_fit
  | |- calls _ (lift _) => apply calls_lift
  | |- calls _ (match ?x with _ => _ end) => destruct x
  | |- match (if ?b then _ else _) with _ => _ end => destruct b
  | |- True => exact I
  end.

Lemma plain_scope deps scope : calls plain_call (resolveScope deps scope).
Proof. unfold resolveScope, checked_directory. plain_calls. Qed.

Lemma plain_load deps directory : calls plain_call (loadHarness deps directory).
Proof. unfold loadHarness. plain_calls. Qed.

Lemma plain_select deps directory prompt selection : calls plain_call (select deps directory prompt selection).
Proof. unfold select. destruct prompt; [|exact I]. apply calls_bind; [apply plain_load|]. intros fixture _.
  apply calls_bind; [apply calls_lift|]. intros [] _; exact I.
Qed.

Lemma plain_worktree deps directory requested : calls plain_call (prepareWorktree deps directory requested).
Proof. unfold prepareWorktree. plain_calls. Qed.

Lemma plain_announce body : calls plain_call (announce body).
Proof. unfold announce. plain_calls. Qed.

Lemma plain_plant deps context objective selection : calls plain_call (plantGoal deps context objective selection).
Proof. unfold plantGoal. plain_calls. Qed.

Lemma plain_deliver deps context selection expanded command introduced baseline :
  calls plain_call (deliver deps context selection expanded command introduced baseline).
Proof. unfold deliver, wasLanded. plain_calls. Qed.

Lemma plain_dispatch deps context selection commands baseline : calls plain_call (dispatch deps context selection commands baseline).
Proof.
  unfold dispatch, promptText. apply calls_bind; [plain_calls|]. intros expanded _. destruct (x_goal context); [|apply plain_deliver].
  apply calls_bind; [apply plain_plant|]. intros g _. apply calls_catch; [apply plain_deliver|by intros e].
Qed.

Lemma plain_first deps input directory sessionId title worktree prompt selection commands :
  calls plain_call (sendFirst deps input directory sessionId title worktree prompt selection commands).
Proof.
  unfold sendFirst. apply calls_then; [exact I|]. intros messages. apply calls_catch; [|intros e; exact I].
  apply calls_bind; [apply plain_dispatch|]. intros dispatched _. apply calls_bind; [|intros ? _; exact I].
  destruct (dp_goalConfigured dispatched); [apply calls_catch; [|intros e; exact I]|]; apply plain_announce.
Qed.

(** An outcome that does not release the operation id. *)
Definition keeps (outcome : SessionOrchestrationResponse) : Prop :=
  match outcome with ok _ => True | failure f => f_sessionId f <> None \/ f_status f = 502 end.

(** A session that exists is in the outcome. *)
Lemma first_keeps deps input directory sessionId title worktree prompt selection commands outcome :
  returns (sendFirst deps input directory sessionId title worktree prompt selection commands) outcome -> keeps outcome.
Proof.
  unfold sendFirst. intros H. apply returns_bind in H as (messages & _ & H). apply returns_catch in H as [H|[e <-]]; [|by left].
  apply returns_bind in H as (dispatched & _ & H). apply returns_bind in H as (u & _ & H). by destruct H.
Qed.

(** What an attempt may do once its outcome is known. *)
Definition settles (op : option string) (outcome : SessionOrchestrationResponse) (s : phase) : Prop :=
  match op with None => True | Some _ => s = Holding \/ s = Asked /\ keeps outcome end.

Lemma wp_orElse {A} op (m : step A) (f : A -> io SessionOrchestrationResponse) s Q :
  calls plain_call m -> (forall response, Q s (Ok response)) -> (forall e, Q s (Throw e)) ->
  (forall a, wp op (f a) s Q) -> wp op (orElse m f) s Q.
Proof.
  intros Hm Hr He Hf. unfold orElse. apply wp_then. eapply wp_weaken; [|by apply wp_plain].
  intros s' [[a|r]|e] [-> _]; [apply Hf|apply Hr|apply He].
Qed.

Lemma wp_run deps input : forall s, c_operationId input = None \/ s = Holding ->
  wp (c_operationId input) (runCreateSession deps input) s
     (fun s' r => match r with Ok outcome => settles (c_operationId input) outcome s' | Throw _ => True end).
Proof.
  intros s Hs. set (op := c_operationId input) in *.
  assert (forall response, settles op response s) as Hsettle by (intros response; unfold settles; destruct op, Hs; (done || by left)).
  unfold runCreateSession. do 3 (apply wp_orElse; [apply plain_scope || apply plain_select || apply plain_worktree|done|done|intros ?]).
  unfold orElse at 1. apply wp_then. unfold harnessSession. apply (tree_catch _ (pre_weaken op)), wp_then.
  split; [exact Hs|]. intros [record|e] Hn; cbn [CallTree.wp named] in *.
  - case_bool_decide as E; [by destruct (Hn record eq_refl)|]. cbv beta iota. set (s' := match op with Some _ => Asked | None => s end).
    assert (forall outcome, keeps outcome -> settles op outcome s') as Hk by (intros outcome Ho; unfold settles, s'; destruct op; [by right|done]).
    destruct (c_prompt input) as [prompt|], a0 as [[selection commands]|].
    2-4: eapply wp_then, wp_weaken; [|apply wp_plain, plain_announce]; intros ? [u|e] [-> _]; [by apply Hk|done].
    eapply wp_weaken; [|apply wp_plain, plain_first]. intros ? [outcome|e] [-> Ho]; [|done]. apply first_keeps in Ho. by apply Hk.
  - unfold settles. destruct op; [|done]. right. split; [done|by right].
Qed.

(** The whole program keeps to its phases. *)
Lemma wp_create deps digest input : wp (c_operationId input) (createSession deps digest input) Outside (fun _ _ => True).
Proof.
  unfold createSession, reconcileOperation. destruct (c_operationId input) as [o|] eqn:Eo.
  - apply wp_then, wp_then. split; [done|]. split; [done|].
    assert (forall s, s = Holding -> wp (Some o) (let! outcome := runCreateSession deps input in let! _ := recordOperation input outcome in Ret outcome) s (fun _ _ => True)) as Hrun.
    { intros s Hs. apply wp_then. pose proof (wp_run deps input s (or_intror Hs)) as H. rewrite Eo in H.
      eapply wp_weaken; [|exact H]. intros s' [outcome|e] Ho; [|done]. apply wp_then. unfold recordOperation. rewrite Eo.
      destruct outcome as [body|f].
      - split; [done|]. split; [by destruct Ho as [|[? _]]; [left|right]|by intros [[]|]].
      - destruct (bool_decide _ || _) eqn:E1; [|destruct (bool_decide (f_status f = 502) || _) eqn:E2]; [| exact I|].
        + split; [done|]. split; [by destruct Ho as [|[? _]]; [left|right]|by intros [[]|]].
        + split; [done|]. split; [|by intros [[]|]]. left. destruct Ho as [|[_ [Hf|Hf]]]; [done|..]; exfalso.
          * rewrite (bool_decide_false (f_sessionId f = None)) in E1 by done. by rewrite orb_true_r in E1.
          * by rewrite bool_decide_true in E2. }
    intros [[|r| |live]|e]; cbn [CallTree.wp]; try exact I. by apply Hrun.
  - apply wp_then. cbn [CallTree.wp]. apply wp_then. pose proof (wp_run deps input Outside (or_introl Eo)) as H. rewrite Eo in H.
    eapply wp_weaken; [|exact H]. intros s' [outcome|e] _; [|done]. apply wp_then. unfold recordOperation. rewrite Eo. exact I.
Qed.

(** ** The invariant *)

Definition count (o : string) (created : list (option string)) : nat := length (filter (fun x => x = Some o) created).

(** The attempts with their operation ids and phases. *)
Abbreviation tags := (list (option string * phase)).

(** The attempt holds the reservation of [o], or has asked for its session. *)
Definition active (ts : tags) (o : string) (i : nat) : Prop := ts !! i = Some (Some o, Holding) \/ ts !! i = Some (Some o, Asked).

Record Books (ops : list (string * OperationReceipt)) (created : list (option string)) (ts : tags) : Prop := {
  b_one : forall o i j, active ts o i -> active ts o j -> i = j;
  b_key : forall o i, active ts o i -> o ∈ jkeys ops;
  b_new : forall o i, ts !! i = Some (Some o, Holding) -> count o created = 0%nat;
  b_count : forall o, (count o created <= 1)%nat /\ (count o created <> 0%nat -> o ∈ jkeys ops) }.

Lemma count_cons o x created : count o (x :: created) = (if bool_decide (x = Some o) then S (count o created) else count o created).
Proof. unfold count. rewrite filter_cons. case_bool_decide; [by rewrite decide_True|by rewrite decide_False]. Qed.

(** What is active after a change of one attempt. *)
Lemma active_insert (ts : tags) i op s o j : active (<[i := (op, s)]> ts) o j ->
  (j = i /\ op = Some o /\ (s = Holding \/ s = Asked)) \/ (j <> i /\ active ts o j).
Proof.
  unfold active. destruct (decide (j = i)) as [->|Hne]; [|rewrite list_lookup_insert_ne by done; by right].
  intros H. left. destruct (decide (i < length ts)%nat) as [Hl|Hl].
  - rewrite list_lookup_insert_eq in H by done. destruct H as [[= -> ->]|[= -> ->]]; auto.
  - rewrite list_insert_ge, lookup_ge_None_2 in H by lia. by destruct H.
Qed.

Lemma holding_insert (ts : tags) i op s o j : <[i := (op, s)]> ts !! j = Some (Some o, Holding) ->
  (j = i /\ op = Some o /\ s = Holding) \/ (j <> i /\ ts !! j = Some (Some o, Holding)).
Proof.
  destruct (decide (j = i)) as [->|Hne]; [|rewrite list_lookup_insert_ne by done; by right].
  intros H. left. destruct (decide (i < length ts)%nat) as [Hl|Hl].
  - rewrite list_lookup_insert_eq in H by done. by injection H as -> ->.
  - by rewrite list_insert_ge, lookup_ge_None_2 in H by lia.
Qed.

Lemma books_append ops created ts op : Books ops created ts -> Books ops created (ts ++ [(op, Outside)]).
Proof.
  intros [H1 H2 H3 H4]. assert (forall o i, active (ts ++ [(op, Outside)]) o i -> active ts o i) as Ha.
  { unfold active. intros o i [H|H]; apply lookup_snoc_Some in H as [[_ H]|[_ H]]; try done; auto. }
  split; [naive_solver..| |done]. intros o i H. apply lookup_snoc_Some in H as [[_ H]|[_ H]]; [by eapply H3|done].
Qed.

Lemma active_idle (ts : tags) i op s o j : s = Outside \/ s = Over -> active (<[i := (op, s)]> ts) o j -> j <> i /\ active ts o j.
Proof. intros Hs [(_ & _ & [E|E])|H]%active_insert; [destruct Hs; congruence..|done]. Qed.

(** An attempt that gives up what it had, or never had it. *)
Lemma books_idle ops created ts i op s : s = Outside \/ s = Over -> Books ops created ts -> Books ops created (<[i := (op, s)]> ts).
Proof.
  intros Hs [H1 H2 H3 H4]. split; [| | |done].
  - intros o j k Hj Hk. apply active_idle in Hj as [_ Hj], Hk as [_ Hk]; [|done..]. by eapply H1.
  - intros o j Hj. apply active_idle in Hj as [_ Hj]; [|done]. by eapply H2.
  - intros o j [(_ & _ & ->)|[_ Hj]]%holding_insert; [by destruct Hs|by eapply H3].
Qed.

(** The ledger matters by its ids only. *)
Lemma books_keys ops ops' created ts : (forall o, o ∈ jkeys ops -> o ∈ jkeys ops') -> Books ops created ts -> Books ops' created ts.
Proof. intros H [H1 H2 H3 H4]. split; [done|naive_solver|done|]. intros o. split; [apply H4|]. intros Hc. by apply H, H4. Qed.

Lemma books_reserve ops created ts i o r : (o ∉ jkeys ops) -> Books ops created ts ->
  Books (jset o r ops) created (<[i := (Some o, Holding)]> ts).
Proof.
  intros Ho HB. assert (forall j, ~ active ts o j) as Hno by (intros j Hj; by apply Ho, (b_key _ _ _ HB o j)).
  destruct HB as [H1 H2 H3 H4]. split.
  - intros o' j k [(-> & [= <-] & _)|[Hj Aj]]%active_insert [(-> & E & _)|[Hk Ak]]%active_insert; [done|by destruct (Hno k)| |by eapply H1].
    injection E as <-. by destruct (Hno j).
  - intros o' j [(-> & [= <-] & _)|[_ Aj]]%active_insert; apply elem_of_jkeys_set; [by left|right; by eapply H2].
  - intros o' j [(-> & [= <-] & _)|[_ Hj]]%holding_insert; [|by eapply H3].
    destruct (H4 o) as [_ Hc]. destruct (decide (count o created = 0%nat)) as [|Hn]; [done|]. by destruct (Ho (Hc Hn)).
  - intros o'. split; [apply H4|]. intros Hc. apply elem_of_jkeys_set. right. by apply H4.
Qed.

Lemma books_release ops created ts i o : jwf ops -> ts !! i = Some (Some o, Holding) -> Books ops created ts ->
  Books (jdel o ops) created (<[i := (Some o, Over)]> ts).
Proof.
  intros Hw Hi HB. pose proof (b_new _ _ _ HB o i Hi) as H0. assert (active ts o i) as Ai by by left.
  assert (forall o', o' <> o -> o' ∈ jkeys ops -> o' ∈ jkeys (jdel o ops)) as Hk.
  { intros o' Hne Hin. destruct (jget o' (jdel o ops)) as [v|] eqn:E; [apply jget_Some_elem in E; by apply (list_elem_of_fmap_2 fst) in E|].
    rewrite jget_del_ne in E by done. apply jget_None in E. done. }
  pose proof (b_one _ _ _ HB) as H1. apply (books_idle _ _ _ i (Some o) Over) in HB; [|by right]. destruct HB as [H1' H2 H3 H4].
  split; [done| |done|].
  - intros o' j Hj. destruct (decide (o' = o)) as [->|Hne]; [|by apply Hk, (H2 o' j)].
    apply active_insert in Hj as [(_ & _ & [|])|[Hne Hj]]; [done..|]. by destruct Hne, (H1 o j i).
  - intros o'. split; [apply H4|]. destruct (decide (o' = o)) as [->|Hne]; [by rewrite H0|]. intros Hc. by apply Hk, H4.
Qed.

Lemma books_asked ops created ts i o (made : bool) : ts !! i = Some (Some o, Holding) -> Books ops created ts ->
  Books ops (if made then Some o :: created else created) (<[i := (Some o, Asked)]> ts).
Proof.
  intros Hi HB. pose proof (b_new _ _ _ HB o i Hi) as H0. assert (active ts o i) as Ai by by left.
  pose proof (b_key _ _ _ HB o i Ai) as Hok. destruct HB as [H1 H2 H3 H4].
  assert (forall o' j, active (<[i := (Some o, Asked)]> ts) o' j -> active ts o' j) as Ha.
  { intros o' j [(-> & [= <-] & _)|[_ Aj]]%active_insert; done. }
  split; [naive_solver|naive_solver| |].
  - intros o' j [(_ & _ & [=])|[Hne Hj]]%holding_insert. assert (o' <> o) as Hoo by (intros ->; by destruct Hne, (H1 o j i); [left|..]).
    destruct made; [rewrite count_cons, bool_decide_false by congruence|]; by eapply H3.
  - intros o'. destruct made; [|apply H4]. rewrite count_cons. case_bool_decide as E; [injection E as <-; rewrite H0; split; [lia|done]|apply H4].
Qed.

Lemma books_unnamed ops created ts : Books ops created ts -> Books ops (None :: created) ts.
Proof. intros [H1 H2 H3 H4]. split; [done..| |]; intros o; [intros i|]; rewrite count_cons, bool_decide_false by done; [apply H3|apply H4]. Qed.

(** ** The ledger while it has room *)

Section room.
  Context (ids : list string) (Hroom : (length ids <= OPERATION_CAP)%nat).

(** The receipts are of the ids in use. *)
Definition within (ops : list (string * OperationReceipt)) : Prop := jwf ops /\ forall o, o ∈ jkeys ops -> o ∈ ids.

Lemma within_fits ops : within ops -> evict ops = ops.
Proof.
  intros [Hw Hi]. unfold evict. rewrite bool_decide_true; [done|]. etransitivity; [|exact Hroom].
  rewrite <- (length_fmap fst ops). apply submseteq_length, NoDup_submseteq; [exact Hw|exact Hi].
Qed.

Lemma within_set o r ops : o ∈ ids -> within ops -> within (jset o r ops).
Proof. intros Ho [Hw Hi]. split; [by apply jwf_set|]. intros o' [->|H]%elem_of_jkeys_set; auto. Qed.

Lemma within_del o ops : within ops -> within (jdel o ops).
Proof. intros [Hw Hi]. split; [by apply jwf_del|]. intros o' H%jkeys_del_sub. auto. Qed.

Lemma reserve_cases id fp t1 t2 pid alive file ops : id ∈ ids -> within ops -> readOperations file = Some ops ->
  let r := reserveOperation id fp t1 t2 pid alive file in
  (fst r = Fresh /\ (id ∉ jkeys ops) /\ snd r = Doc (jset id (reservation fp t1 t2 pid) ops)) \/ (fst r <> Fresh /\ snd r = file).
Proof.
  intros Hid Hw Hf. cbv zeta. unfold reserveOperation, slot. rewrite Hf. destruct (jget id ops) as [r|] eqn:E.
  - right. destruct (negb _); [done|]. by destruct (r_state r).
  - case_bool_decide; [by right|]. left. cbn [fst snd]. rewrite within_fits by by apply within_set. split_and!; [done| |done]. by apply jget_None.
Qed.

Lemma settle_cases id response t pid file ops : id ∈ ids -> within ops -> readOperations file = Some ops ->
  exists ops', readOperations (settleOperation id response t pid file) = Some ops'
    /\ (ops' = ops \/ (response = None /\ ops' = jdel id ops) \/ (exists r, id ∈ jkeys ops /\ ops' = jset id r ops)).
Proof.
  intros Hid Hw Hf. unfold settleOperation. rewrite Hf. destruct (jget id ops) as [r|] eqn:E; [|exists ops; auto].
  destruct (r_state r); [|exists ops; auto]. assert (id ∈ jkeys ops) as Hin by (apply jget_Some_elem in E; by apply (list_elem_of_fmap_2 fst) in E).
  destruct response as [response|]; cbn [readOperations]; rewrite within_fits by (apply within_set || apply within_del; done); eexists; split; eauto.
Qed.

(** A settled receipt stays as it is. *)
Definition settled_in (file : Ledger) (o : string) (r : OperationReceipt) : Prop :=
  r_state r = OperationSettled /\ exists ops, readOperations file = Some ops /\ jget o ops = Some r.

Lemma settled_reserve id fp t1 t2 pid alive file ops o r : id ∈ ids -> within ops -> readOperations file = Some ops ->
  settled_in file o r -> settled_in (snd (reserveOperation id fp t1 t2 pid alive file)) o r.
Proof.
  intros Hid Hw Hf Hr. destruct (reserve_cases id fp t1 t2 pid alive file ops Hid Hw Hf) as [(_ & Hk & ->)|[_ ->]]; [|done].
  destruct Hr as (Hs & ops' & Hf' & Hg). rewrite Hf in Hf'. injection Hf' as <-. split; [done|]. eexists. split; [reflexivity|].
  rewrite jget_set_ne; [done|]. intros <-. apply Hk. apply jget_Some_elem in Hg. by apply (list_elem_of_fmap_2 fst) in Hg.
Qed.

Lemma settled_settle id response t pid file ops o r : id ∈ ids -> within ops -> readOperations file = Some ops ->
  settled_in file o r -> settled_in (settleOperation id response t pid file) o r.
Proof.
  intros Hid Hw Hf Hr. unfold settleOperation. rewrite Hf. destruct (jget id ops) as [r'|] eqn:E; [|done].
  destruct (r_state r') eqn:Es; [|done]. destruct Hr as (Hs & ops' & Hf' & Hg). rewrite Hf in Hf'. injection Hf' as <-.
  assert (o <> id) as Hne by congruence. split; [done|]. eexists. split; [reflexivity|].
  destruct response; rewrite within_fits by (apply within_set || apply within_del; done); [by rewrite jget_set_ne|by rewrite jget_del_ne].
Qed.

(** ** Every step keeps the books *)

Record Inv (w : World) (ops : list (string * OperationReceipt)) (ts : tags) : Prop := {
  v_ledger : readOperations (w_ledger w) = Some ops;
  v_within : within ops;
  v_books : Books ops (w_created w) ts;
  v_progs : Forall2 (fun a t => a_op a = t.1 /\ (forall o, t.1 = Some o -> o ∈ ids) /\ wp (t.1) (a_prog a) (t.2) (fun _ _ => True)) (w_attempts w) ts }.

Lemma inv_start : Inv start [] [].
Proof.
  split; [done|split; [apply jwf_nil|set_solver]| |constructor].
  split.
  - intros o i j [H|H]; by rewrite lookup_nil in H.
  - intros o i [H|H]; by rewrite lookup_nil in H.
  - intros o i H. by rewrite lookup_nil in H.
  - intros o. split; [cbn; lia|done].
Qed.

(** One attempt has moved on. *)
Lemma inv_moved w ops ts i op pid m file ops' created s (m' : io SessionOrchestrationResponse) : Inv w ops ts ->
  w_attempts w !! i = Some (mkAttempt op pid m) -> readOperations file = Some ops' -> within ops' ->
  Books ops' created (<[i := (op, s)]> ts) -> wp op m' s (fun _ _ => True) ->
  Inv (mkWorld file created (<[i := mkAttempt op pid m']> (w_attempts w))) ops' (<[i := (op, s)]> ts).
Proof.
  intros HI Hi Hf Hw HB Hwp. destruct (Forall2_lookup_l _ _ _ _ _ (v_progs _ _ _ HI) Hi) as ([op' s0] & Ht & E & Hids & _). cbn in E, Hids. subst op'.
  split; [done..|]. cbn. apply Forall2_insert; [apply HI|]. done.
Qed.

Lemma inv_starts digest w ops ts deps input pid : (forall o, c_operationId input = Some o -> o ∈ ids) -> Inv w ops ts ->
  Inv (mkWorld (w_ledger w) (w_created w) (w_attempts w ++ [mkAttempt (c_operationId input) pid (createSession deps digest input)]))
      ops (ts ++ [(c_operationId input, Outside)]).
Proof.
  intros Hid [H1 H2 H3 H4]. split; [done|done|by apply books_append|]. apply Forall2_app; [done|]. constructor; [|constructor].
  split_and!; [done|done|apply wp_create].
Qed.

Lemma inv_answered digest w w' ops ts i e : names_sessions (Answered i e) -> Inv w ops ts -> world_step digest w (Answered i e) = Some w' ->
  exists ops' ts', Inv w' ops' ts'.
Proof.
  intros Hn HI Hs. cbn [world_step] in Hs. destruct (w_attempts w !! i) as [[op pid m]|] eqn:Hi; [|done].
  destruct m as [a|f|p k]; [done..|]. injection Hs as <-.
  destruct (Forall2_lookup_l _ _ _ _ _ (v_progs _ _ _ HI) Hi) as ([op' s] & Ht & E & Hids & Hwp). cbn in E, Hids, Hwp. subst op'.
  pose proof (v_books _ _ _ HI) as HB. pose proof (v_ledger _ _ _ HI) as Hl. pose proof (v_within _ _ _ HI) as Hw.
  assert (plain_call p -> exists ops' ts', Inv (mkWorld (ledger_after (w_ledger w) pid p e) (if creates p e then op :: w_created w else w_created w)
      (<[i := mkAttempt op pid (k (answer (w_ledger w) pid p e))]> (w_attempts w))) ops' ts') as Hplain.
  { intros Hp. exists ops, (<[i := (op, s)]> ts). eapply inv_moved; [done|exact Hi|by destruct p|done| |destruct p; (by destruct Hp) || apply Hwp].
    rewrite list_insert_id by done. by destruct p. }
  destruct p; try (by apply Hplain); clear Hplain; cbn [pre] in Hwp; cbn [ledger_after answer creates].
  - destruct Hwp as [Hop Hk]. set (r := e_answer e (CreateSession directory title route)).
    assert (named (CreateSession directory title route) r) as Hnamed by (intros record; apply Hn).
    eexists ops, _. eapply inv_moved; [done|exact Hi|exact Hl|done| |exact (Hk r Hnamed)]. destruct op as [o|].
    + destruct Hop as [Hop|Hop]; [done|]. subst s. by apply books_asked.
    + rewrite list_insert_id by done. destruct (_ || _); [by apply books_unnamed|done].
  - destruct Hwp as (-> & -> & Hk). assert (operationId ∈ ids) as Hid by by apply Hids. destruct (e_answer e _) as [a|f]; cbn [succeeded].
    + destruct (reserve_cases operationId fingerprint (e_t1 e) (e_t2 e) pid (e_alive e) (w_ledger w) ops Hid Hw Hl) as [(Hfr & Hnk & ->)|[Hfr ->]].
      * rewrite Hfr. eexists _, (<[i := (Some operationId, Holding)]> ts). eapply inv_moved; [done|exact Hi|reflexivity|by apply within_set|by apply books_reserve|].
        exact (Hk (Ok Fresh)).
      * eexists ops, (<[i := (Some operationId, Outside)]> ts). eapply inv_moved; [done|exact Hi|done|done|by apply books_idle; [left|]|].
        revert Hfr. generalize (fst (reserveOperation operationId fingerprint (e_t1 e) (e_t2 e) pid (e_alive e) (w_ledger w))) as o.
        intros o Ho. specialize (Hk (Ok o)). by destruct o.
    + eexists ops, (<[i := (Some operationId, Outside)]> ts). eapply inv_moved; [done|exact Hi|done|done|by apply books_idle; [left|]|exact (Hk (Throw f))].
  - destruct Hwp as (-> & Hph & Hk). assert (operationId ∈ ids) as Hid by by apply Hids. destruct (e_answer e _) as [a|f]; cbn [succeeded].
    + destruct (settle_cases operationId response (e_t1 e) pid (w_ledger w) ops Hid Hw Hl) as (ops' & Hl' & Hc).
      eexists ops', (<[i := (Some operationId, Over)]> ts). eapply inv_moved; [done|exact Hi|exact Hl'| | |exact (Hk (Ok a))].
      * destruct Hc as [->|[[_ ->]|(r & _ & ->)]]; [done|by apply within_del|by apply within_set].
      * destruct Hc as [->|[[Hnone ->]|(r & Hin & ->)]]; [by apply books_idle; [right|]| |].
        -- destruct Hph as [->|[_ Hne]]; [|done]. by apply books_release; [apply Hw|..].
        -- apply books_idle; [by right|]. eapply books_keys; [|exact HB]. intros o Ho. apply elem_of_jkeys_set. by right.
    + eexists ops, (<[i := (Some operationId, Over)]> ts). eapply inv_moved; [done|exact Hi|done|done|by apply books_idle; [right|]|exact (Hk (Throw f))].
Qed.

Lemma inv_run digest evs : forall w ops ts w', Inv w ops ts -> Forall names_sessions evs -> (forall o, o ∈ ids_of evs -> o ∈ ids) ->
  run digest w evs = Some w' -> exists ops' ts', Inv w' ops' ts'.
Proof.
  induction evs as [|ev evs IH]; intros w ops ts w' HI Hn Hid H; [injection H as <-; by exists ops, ts|]. cbn [run] in H.
  apply Forall_cons in Hn as [Hev Hn]. destruct (world_step digest w ev) as [w1|] eqn:E; [|done].
  assert (forall o, o ∈ ids_of evs -> o ∈ ids) as Hid' by (intros o Ho; apply Hid; unfold ids_of; cbn; destruct ev; [destruct (c_operationId _)|]; set_solver).
  destruct ev as [deps input pid|i e].
  - injection E as <-. refine (IH _ _ _ w' (inv_starts digest w ops ts deps input pid _ HI) Hn Hid' H).
    intros o Ho. apply Hid. unfold ids_of. cbn. rewrite Ho. set_solver.
  - destruct (inv_answered digest w w1 ops ts i e Hev HI E) as (ops1 & ts1 & HI1). exact (IH _ _ _ _ HI1 Hn Hid' H).
Qed.

Lemma settled_step digest w w' ops ts ev o r : Inv w ops ts -> world_step digest w ev = Some w' ->
  settled_in (w_ledger w) o r -> settled_in (w_ledger w') o r.
Proof.
  intros HI Hs Hr. destruct ev as [deps input pid|i e]; [by injection Hs as <-|]. cbn [world_step] in Hs.
  destruct (w_attempts w !! i) as [[op pid m]|] eqn:Hi; [|done]. destruct m as [a|f|p k]; [done..|]. injection Hs as <-. cbn [w_ledger].
  destruct (Forall2_lookup_l _ _ _ _ _ (v_progs _ _ _ HI) Hi) as ([op' s] & _ & _ & Hids & Hwp).
  pose proof (v_ledger _ _ _ HI) as Hl. pose proof (v_within _ _ _ HI) as Hw.
  destruct p; try done; destruct Hwp as (Hop & _); cbn [ledger_after]; (destruct (succeeded _); [|done]).
  - apply (settled_reserve _ _ _ _ _ _ _ ops); auto.
  - apply (settled_settle _ _ _ _ _ ops); auto.
Qed.

Lemma settled_run digest evs : forall w ops ts w' o r, Inv w ops ts -> Forall names_sessions evs -> (forall o, o ∈ ids_of evs -> o ∈ ids) ->
  run digest w evs = Some w' -> settled_in (w_ledger w) o r -> settled_in (w_ledger w') o r.
Proof.
  induction evs as [|ev evs IH]; intros w ops ts w' o r HI Hn Hid H Hr; [by injection H as <-|]. cbn [run] in H.
  destruct (world_step digest w ev) as [w1|] eqn:E; [|done].
  assert (run digest w [ev] = Some w1) as E1 by (cbn [run]; by rewrite E).
  destruct (inv_run digest [ev] w ops ts w1 HI) as (ops1 & ts1 & HI1); [|..].
  - apply Forall_cons in Hn as [? _]. by constructor.
  - intros o' Ho. apply Hid. change (ev :: evs) with ([ev] ++ evs). unfold ids_of. rewrite omap_app. set_solver.
  - exact E1.
  - apply (IH w1 ops1 ts1 w' o r HI1); [by apply Forall_cons in Hn as [_ ?]| |done|by apply (settled_step digest w w1 ops ts ev o r HI E)].
    intros o' Ho. apply Hid. change (ev :: evs) with ([ev] ++ evs). unfold ids_of. rewrite omap_app. set_solver.
Qed.

End room.

Lemma run_app digest evs1 : forall w evs2, run digest w (evs1 ++ evs2) = run digest w evs1 ≫= fun w' => run digest w' evs2.
Proof. induction evs1 as [|ev evs1 IH]; intros w evs2; [done|]. cbn [run app]. destruct (world_step digest w ev); [apply IH|done]. Qed.

(** C6. Under one operation id at most one native session is ever created, however many
    attempts of however many processes race, retry, lose answers, crash or fail at any
    call. The conditions: the requests of the run use at most 200 operation ids (over that,
    eviction may drop a reservation, see SessionReceipts), the ledger starts out missing
    and is changed by these processes only, and a session the harness says it created has
    an id (see [nameless_session_is_created_twice]). *)
Theorem operation_creates_one_session digest evs ids w o :
  (length ids <= OPERATION_CAP)%nat -> (forall o, o ∈ ids_of evs -> o ∈ ids) -> Forall names_sessions evs ->
  run digest start evs = Some w -> (creations o w <= 1)%nat.
Proof.
  intros Hroom Hids Hn H. destruct (inv_run ids Hroom digest evs start [] [] w (inv_start ids Hroom) Hn Hids H) as (ops & ts & HI).
  apply (b_count _ _ _ (v_books _ _ _ _ HI) o).
Qed.

(** C13. A settled outcome is permanent: once an operation id has a settled receipt in the
    ledger, the ledger holds that very receipt after every continuation of the run, with
    any interleaving of the attempts, failures and crashes. The conditions: at most
    200 operation ids are used in the whole run, which begins with no ledger, and a session
    the harness says it created has an id. *)
Theorem settled_outcome_is_permanent digest evs1 evs2 ids w1 w2 o r :
  (length ids <= OPERATION_CAP)%nat -> (forall o, o ∈ ids_of (evs1 ++ evs2) -> o ∈ ids) -> Forall names_sessions (evs1 ++ evs2) ->
  run digest start evs1 = Some w1 -> run digest start (evs1 ++ evs2) = Some w2 ->
  settled_in (w_ledger w1) o r -> settled_in (w_ledger w2) o r.
Proof.
  intros Hroom Hids Hn H1 H2 Hr. rewrite run_app, H1 in H2. cbn [mbind option_bind] in H2. apply Forall_app in Hn as [Hn1 Hn2].
  assert (forall o, o ∈ ids_of evs1 \/ o ∈ ids_of evs2 -> o ∈ ids) as Hi
    by (intros o' Ho; apply Hids; unfold ids_of; rewrite omap_app; by apply elem_of_app).
  destruct (inv_run ids Hroom digest evs1 start [] [] w1 (inv_start ids Hroom) Hn1 (fun o H => Hi o (or_introl H)) H1) as (ops & ts & HI).
  exact (settled_run ids Hroom digest evs2 w1 ops ts w2 o r HI Hn2 (fun o H => Hi o (or_intror H)) H2 Hr).
Qed.

(** ** Runs *)

(** Answers that let everything pass; the harness answers a creation with [session] and a
    read of the providers with [providers]. *)
#[local] Definition answers (session : exc Fault json) (providers : exc Fault (list json)) (p : port) : exc Fault (reply p) :=
  match p return exc Fault (reply p) with
  | CreateSession _ _ _ => session
  | Providers _ => providers
  | DirectoryExists _ | HarnessReady _ | WaitForWorktree _ | ArchiveSession _ _ _ | WriteGoal _ _ _ | PromptLanded _ _ _ => Ok true
  | ProjectDirectory _ | Distill _ _ | Knowledge _ _ => Ok None
  | Agents _ | Commands _ | ReadMessages _ _ _ => Ok []
  | Config _ | ReadSession _ _ | ForkSession _ _ _ => Ok (JObj [])
  | CreateWorktree _ _ => Ok (mkCreated "/w" None)
  | SendPrompt _ _ _ | SendCommand _ _ _ => Ok (true, 200)
  | Expand _ _ | WriteObjective _ _ | Random => Ok "x"
  | Reserve _ _ => Ok Fresh
  | RecordDelivered _ _ | Settle _ _ | Emit _ => Ok tt
  | Now => Ok 1000
  end.

#[local] Definition env (session : exc Fault json) (made : bool) : Env := mkEnv (answers session (Ok [])) 1000 1000 (fun _ => true) made.

#[local] Definition ex_deps : Deps := mkDeps false false false false false false false false false false (fun _ => mkSettings None None None).

#[local] Definition ex_input (prompt : option string) : CreateInput :=
  mkCreate (mkScope (Some "/p") None) None prompt (mkSelection None None None) false None None (Some "op").

#[local] Definition ex_digest (v : json) : string := if bool_decide (v = JNull) then "0" else "1".

#[local] Abbreviation lost := (env (Throw (mkFault "timeout" None false)) true).
#[local] Abbreviation named_ok := (env (Ok (JObj [("id", JStr "s1")])) false).
#[local] Abbreviation nameless := (env (Ok (JObj [])) false).

(** Two processes race; the harness creates the session and its answer is lost; a third
    process tries again. *)
#[local] Definition ex_race : list Event :=
  [Starts ex_deps (ex_input None) 1; Starts ex_deps (ex_input None) 2; Answered 1 lost; Answered 0 lost; Answered 1 lost;
   Starts ex_deps (ex_input None) 3; Answered 2 named_ok].

Lemma operation_creates_one_session_witness :
  exists w, run ex_digest start ex_race = Some w /\ w_created w = [Some "op"] /\ (creations "op" w <= 1)%nat.
Proof.
  assert ((run ex_digest start ex_race ≫= (fun w => Some (w_created w))) = Some [Some "op"]) as Hc by by vm_compute.
  destruct (run ex_digest start ex_race) as [w|] eqn:E; [|done]. injection Hc as Hc. exists w. split_and!; [done|done|].
  apply (operation_creates_one_session ex_digest ex_race ["op"] w "op"); [apply Nat.leb_le; by vm_compute| | |done].
  - intros o Ho. vm_compute in Ho. set_solver.
  - repeat constructor; cbn; intros d t r record H; try discriminate H. injection H as <-. by vm_compute.
Defined.

(** An answer without an id releases the reservation of a session that exists. *)
Lemma nameless_session_is_created_twice :
  (run ex_digest start [Starts ex_deps (ex_input None) 1; Answered 0 nameless; Answered 0 nameless; Answered 0 nameless;
                        Starts ex_deps (ex_input None) 1; Answered 1 nameless; Answered 1 nameless]
   ≫= (fun w => Some (creations "op" w))) = Some 2%nat.
Proof. by vm_compute. Qed.

(** A failure before anything was asked of the harness, thrown rather than returned, leaves
    the reservation: the id is refused from then on. *)
#[local] Definition refused : Env := mkEnv (answers (Ok (JObj [])) (Throw (mkFault "no route" None false))) 1000 1000 (fun _ => true) false.

#[local] Definition response_of (i : nat) (w : World) : option (exc string SessionOrchestrationResponse) :=
  match a_prog <$> w_attempts w !! i with
  | Some (Ret r) => Some (Ok r)
  | Some (Fail f) => Some (Throw (ft_message f))
  | _ => None
  end.

Lemma thrown_failure_keeps_the_id :
  (run ex_digest start [Starts ex_deps (ex_input (Some "hi")) 1; Answered 0 refused; Answered 0 refused;
                        Starts ex_deps (ex_input (Some "hi")) 1; Answered 1 named_ok]
   ≫= (fun w => Some (response_of 0 w, match response_of 1 w with Some (Ok (failure f)) => Some (f_status f) | _ => None end, w_created w)))
  = Some (Some (Throw "no route"), Some 503, []).
Proof. by vm_compute. Qed.

(** One attempt goes through; another process asks again. *)
#[local] Definition ex_done : list Event :=
  [Starts ex_deps (ex_input None) 1; Answered 0 named_ok; Answered 0 named_ok; Answered 0 named_ok; Answered 0 named_ok; Answered 0 named_ok].
#[local] Definition ex_again : list Event := [Starts ex_deps (ex_input None) 2; Answered 1 named_ok].

#[local] Definition ex_receipt : OperationReceipt :=
  mkReceipt "1" OperationSettled (Some (ok (JObj [("sessionId", JStr "s1"); ("directory", JStr "/p"); ("title", JStr "New session"); ("worktree", JNull)]))) 1000 1000 1.

#[local] Definition has_receipt (w : World) : bool := match w_ledger w with Doc ops => bool_decide (jget "op" ops = Some ex_receipt) | _ => false end.

Lemma settled_outcome_is_permanent_witness :
  exists w1 w2, run ex_digest start ex_done = Some w1 /\ run ex_digest start (ex_done ++ ex_again) = Some w2
    /\ settled_in (w_ledger w1) "op" ex_receipt /\ settled_in (w_ledger w2) "op" ex_receipt.
Proof.
  assert ((has_receipt <$> run ex_digest start ex_done) = Some true) as H1 by by vm_compute.
  assert (is_Some (run ex_digest start (ex_done ++ ex_again))) as [w2 H2] by (destruct (run _ _ _) eqn:E; [by eexists|by vm_compute in E]).
  destruct (run ex_digest start ex_done) as [w1|] eqn:E; [|done]. cbn in H1. injection H1 as H1. exists w1, w2.
  assert (settled_in (w_ledger w1) "op" ex_receipt) as Hr.
  { unfold has_receipt in H1. destruct (w_ledger w1) as [| |ops]; try done. apply bool_decide_eq_true in H1. by split; [|exists ops]. }
  split_and!; [done..|]. apply (settled_outcome_is_permanent ex_digest ex_done ex_again ["op"] w1 w2 "op"); [apply Nat.leb_le; by vm_compute| | |done..].
  - intros o Ho. vm_compute in Ho. set_solver.
  - repeat constructor; cbn; intros d t r record H; injection H as <-; by vm_compute.
Defined.

(** The second process is given the first one's answer. *)
Lemma retry_is_answered_with_the_original :
  (run ex_digest start (ex_done ++ ex_again) ≫= (fun w => Some (bool_decide (response_of 0 w = response_of 1 w), w_created w)))
  = Some (true, [Some "op"]).
Proof. by vm_compute. Qed.
